(* ===== verification/_CoqProject ===== *)
-Q . S2P
Prelude.v
HdmDecoder.v
Double.v
LogP.v
Fabric.v
Moesi.v
CoherencyEngine.v
MhSld.v
SharedMemory.v
MessageQueue.v
MessageManager.v
DistServer.v
MainServer.v
LruCache.v
Expander.v
Switch.v
Topology.v
LbrWindow.v
Controller.v
Policy.v
Migration.v
Access.v
Rob.v
RobController.v
Trace.v
RobMain.v
ShmComm.v
ShmFrontEnd.v
Pgas.v
MpiPool.v
MpiMailbox.v
MpiBarrier.v
MpiCollective.v
MpiWindow.v
Type2Pool.v
Type2Coherency.v
Type2Cache.v
HetGpu.v
Type3Dcd.v
Type3DcdSpec.v
Type3Decode.v
Type3Access.v
Type3Memsim.v
Type2P2p.v
Type2Cmd.v
