(* ===== verification/Prelude.v ===== *)
(** * CXLMemSim (OCEAN): a verification development

    The repository simulates CXL memory: servers hold the contents of a pooled memory, guests
    read, write and update it atomically through them, a coherency directory and latency models
    say what each access would cost, and several servers form a cluster that shares one address
    space.  This library models the parts of that program that keep state and make decisions,
    in C++ semantics (64- and 32-bit integers that wrap around, IEEE doubles, bytes in flat
    memory), and proves what they guarantee.

    ** Files, the parts of the program they model, and how they correspond

    - [Prelude] (this file): the vocabulary.  A [uint64_t] is a [Z] with its wrap-around written
      out ([wrap64], and the operators of [cint_scope]); a buffer is a list of bytes with checked
      [mem_read] and [mem_write]; [line_of] is the mask [addr & ~63].
    - [HdmDecoder]: [HDMDecoder] of [src/hdm_decoder.cpp], which maps an address to the node that
      owns it: linear and binary search over ranges, interleaving, and the hybrid of both.
    - [Double]: double arithmetic as a class with two instances, IEEE binary64 (what runs) and
      exact rationals (for the bounds that rounding would blur).
    - [LogP]: [LogPModel] of [include/cxlendpoint.h]: send gap, queue wait, message latency.
    - [Fabric]: [FabricLink] of the same header: credits, congestion, contention; also the
      types that the MH-SLD device and the coherency engine share.
    - [Moesi]: the protocol both directories are meant to implement: what each node may hold
      ([node_view]), which views are compatible, and a step relation on the views of a line
      ([moesi_step]), over any directory entry with the interface [MoesiLine].
    - [CoherencyEngine]: [CoherencyEngine] of [src/coherency_engine.cpp], the directory of the
      distributed mode.  Its operations form [engine_op], executed by [engine_apply].
    - [MhSld]: [MHSLDDevice] of [src/cxlendpoint.cpp], the multi-headed device: its directory and
      the capacity pool of its heads.
    - [SharedMemory]: [SharedMemoryManager] of [src/shared_memory_manager.cc], the bytes of a
      server: creation, the two address mappings, access, regions, statistics.
    - [MessageQueue]: the ring buffers between nodes in [src/distributed_server.cpp], as functions
      and as interleaved steps of the threads that use them.
    - [MessageManager]: [DistributedMessageManager] of the same file: node registry, request and
      response matching, polling, heartbeats; [Pending] has the locks of a waiting request.
    - [DistServer]: [DistributedMemoryServer] and its TCP transport: address routing through
      [HdmDecoder], local access through [SharedMemory], coherency through [CoherencyEngine],
      forwarding through [MessageManager] or TCP, atomics, the label storage area, guest
      requests.  A cluster is a map from node ids to servers.
    - [MainServer]: [ThreadPerConnectionServer] of [src/main_server.cc], the single-node server:
      reads, writes, atomics and fences of its client threads, MESI metadata per line, back
      invalidation, congestion and latency.
    - [LruCache]: [LRUCache] of [include/cxlcontroller.h] and the TLB of [include/policy.h], with the
      identity of list nodes, and the recency list both promise.
    - [Expander], [Switch]: [CXLMemExpander], [RemoteCXLExpander] and [CXLSwitch] of
      [src/cxlendpoint.cpp]: request queue, credits, the record of addresses, latency, bandwidth,
      congestion.  Expanders are shared by pointer, so a switch is a tree over a store of endpoints.
    - [Topology]: the parser of Newick trees and the device maps of [src/cxlcontroller.cpp].
    - [LbrWindow]: the window of branch records of a thread ([CXLController::insert_one]).
    - [Controller]: [CXLController] of [src/cxlcontroller.cpp], the root of the tree, with the cache,
      the counters and the models above.
    - [Policy], [Migration]: the policies of [include/policy.h] and [src/policy.cpp]; each virtual
      interface is a class, each policy an instance.
    - [Access]: [CXLController::insert], which runs every access of a sample through the cache, the
      decoder or the allocation policy, the page-table walk and the tree, known to the policies only
      through their classes; what it relies on is a class of laws per interface.
    - [Rob], [RobController]: the reorder buffer of [src/rob.cpp] over an interface of the memory behind
      it, and the controller as its implementation.
    - [Trace], [RobMain]: the trace-driven program of [src/rob.cc]: the text of a trace, its parser
      threads as a step relation, the simulation loop, and the trace that is written.
    - [ShmComm]: [ShmCommunicationManager] of [src/shm_communication.cpp], the rings between the
      single-node server and its clients: both sides, set-up and clean-up over system calls that
      can fail; [Workers] has the accesses of two workers on one ring.
    - [ShmFrontEnd]: the worker loop of the SHM mode of [src/main_server.cc], which takes requests
      from [ShmComm] and answers them with [MainServer].
    - [Pgas]: the PGAS mode of the same file (slots and lines with their metadata in shared memory)
      together with its client, the QEMU type 3 device of [library/qemu/hw/mem/cxl_type3.c].
    - [MpiPool], [MpiMailbox], [MpiBarrier], [MpiCollective], [MpiWindow]: the library of
      [workloads/gromacs/mpi_cxl_shim.c] that carries MPI communication over a shared mapping: its
      allocator and relative pointers, messages, barriers, collective operations, and one-sided
      communication.
    - [Type2Coherency], [Type2Pool], [Type2Cache], [HetGpu], [Type2P2p], [Type2Cmd]: the QEMU type 2
      device (an accelerator with its own memory) under [library/qemu/hw/cxl]: the tracking of lines
      in [cxl_type2_coherency.c], the allocator of the coherent pool, the cache and memory accesses of
      [cxl_type2.c], the GPU backend of [cxl_hetgpu.c] over a CUDA library that is a parameter, the
      transfers between devices of [cxl_p2p_dma.c], and the register interface that joins them:
      [CXLType2State] holds the states of the parts, a guest is a list of accesses to the BARs.
    - [Type3Decode], [Type3Dcd], [Type3Access], [Type3Memsim]: the QEMU type 3 device (a memory
      expander) in [hw/mem/cxl_type3.c] and the host side in [hw/cxl/cxl-host.c]: HDM decoder registers and
      decoding in devices, bridges and windows; dynamic capacity with the mailbox commands of
      [cxl-mailbox-utils.c]; loads and stores; the TCP connection to [MainServer].  The device knows the
      server through the class [MemsimServer], which [MainServer] over the connection satisfies.
      [Type3DcdSpec] has the contract of dynamic capacity and its refinement.

    A state is a record with the fields of the class (mutexes dropped where an operation holds
    them throughout), an operation is a function from state to state, and a result [None] is
    undefined behaviour or exhausted fuel unless a comment says otherwise; failures that the
    code reports are values inside.  Clocks, system calls and the latency of the controller are
    arguments.  Concurrency is modelled where the code shares memory between threads without
    one lock around the operation: the rings, the pending table, the parser threads, and the
    allocator, barriers, collectives and locks between MPI ranks, as step relations over
    sequentially consistent accesses.

    ** What the theorems show

    - Coherency: every reachable state of the engine, every run of the device with the heads it
      has and every sequence of requests to the single-node server keep at most one writer and
      no reader beside it; each operation is a path of the
      abstract protocol; a write leaves its node as the only holder, a read grants what the
      protocol allows; which branches of the engine can never be taken; where a silent drop
      leaves a stale sharer behind.
    - Memory: no access leaves the data area, the manager refines a flat byte memory over its
      window, and what is written is read back, at one server and across a cluster; the
      single-node server serves memory when requests come in the order of their timestamps;
      atomics compute what they should.
    - Routing: decoding is total, sorting does not change its result on disjoint ranges, an
      address of a range goes to its owner, interleaving loses no address.
    - Messages: the ring is a bounded FIFO queue, without a lock for one producer and one
      consumer under every interleaving; a request over idle channels is answered; a response
      is written only into a live buffer.
    - Clients: the rings stay well-formed under every sequence of operations, keep the order of
      requests, and for clients with one request at a time behave as remote calls; every waiting
      client is served; a call through them equals a direct call of the server; what one PGAS
      guest writes another reads.
    - Latency models: the send gap is kept, message latency has its lower bound, credits of a
      link are conserved.
    - The simulated machine: the LRU cache is a bounded recency list; an access is routed to the
      endpoint of its id wherever it hangs; a printed topology is read back as the same tree; an
      expander records each address once and its pipeline drains when addresses are distinct; the
      branch window of one thread describes its last 512 instructions; back invalidation removes
      exactly the listed addresses; a sample is processed to the end and every access counted once
      with any policies that keep their laws; interleaving finds space if there is some.
    - Trace-driven simulation: a trace that is written is read back as the same instructions; every
      schedule of the parser threads ends with the instructions of the file; the program ends, and
      retires every instruction once and in order.
    - MPI over shared memory: regions of the pool are disjoint while requests fit, in every
      interleaving; sends and receives behave as one queue for each rank; no rank leaves a barrier that
      another has not entered; every collective gives every rank the bytes that MPI defines, in any
      order of the ranks; puts, gets and accumulates act on one array for each rank.
    - The type 2 device: accesses to tracked lines behave as on plain memory whatever messages arrive;
      in every state that a guest can reach the invariants of all parts hold; words copied to the GPU
      are copied back; pool blocks are disjoint and coalesce; a transfer copies its range and no more.
    - The type 3 device: decoding is a bijection for every interleave that a host can set up; loads and
      stores through a window behave as on one memory, with the data in the devices or at the server;
      dynamic capacity follows its contract, and accesses reach only what was granted.
    - Defects: theorems of kind "error" exhibit behaviour that the code does not intend, such as
      a duplicated message with two workers, a deadlock on a timed-out request, requests lost
      over TCP, pool space handed out twice, bytes moved by a back invalidation, an access latency
      that is always zero, an expander that stops for ever after a line is reused in flight,
      topologies that index a vector at -1, memory handed out twice after a failed allocation, ranks
      that wait in different calls of the MPI library, an exclusive lock that nobody holds, a type 2
      device that hangs on the first access to a line, interleaved devices whose bytes overlap at the
      server, transfers that miss the bytes at the server, range tests that wrap at [2^64].

    ** Bounds and fuel

    Loops over data are structural.  [decode_bsearch] takes one unit of fuel more than there are
    ranges, and [read_loop] and [write_loop] one more than the bytes of the access; each halves
    or shrinks what is left, and the theorems show that the fuel is enough
    ([decode_total], [shm_access_safe]).  [drain_source] is bounded by the argument
    [max_messages] of [poll_messages].  [sweep_conflicts] takes one unit more than there are times
    ([switch_congestion_total]); [interleave_next] needs at most [all_size] units when it returns at
    all ([interleave_decides]).  [rob_main] gives the issue loop 1025 ticks for each instruction, twice
    the size of the buffer and one.  [scan] and [advance] of a mailbox take as many units as there are
    messages in it.  [line_loop] gets a unit for every line of its range and one more, which is enough
    unless the range reaches the last line before [2^64], where the loop of the code does not end
    ([flush_never_ends]); the loops over label storage and transfers get a unit for every chunk and two
    more.  Memory allocation is taken to succeed.

    ** What is not modelled

    Sockets, [mmap], threads' start and stop, logging.  The profiling front ends, the BPF program,
    RDMA and the micro-benchmarks are input and output only.  [DistServer] takes the latency of the
    controller as an argument instead of calling [Controller].  The random numbers of [free_stats] and
    of a shuffle, and the order in which a hash map is read, are arguments.  The MPI library behind the
    shim is an outcome of the operations that call it.  Of the emulator under [library/qemu] only the CXL
    devices are modelled, without the set-up of PCI devices, CDAT tables, error injection, and the mailbox
    commands other than those of dynamic capacity; kernels that run on a GPU, the type 1 device
    and the browser transport are left out.  The programs under [qemu_integration] (a preloaded client
    and two small servers) work through signals and sockets. *)
From stdpp Require Export base list gmap sets numbers sorting.
From Stdlib Require Export ZArith Lia.
#[global] Open Scope Z_scope.

(** ** Machine integers

    A [uint64_t] is a [Z] in [[0, 2^64)]; arithmetic wraps. *)
Declare Scope cint_scope.
Delimit Scope cint_scope with cint.

Definition wrap64 (z : Z) : Z := z mod 2 ^ 64.

Definition wrap32 (z : Z) : Z := z mod 2 ^ 32.

Definition u64 (z : Z) : Prop := 0 <= z < 2 ^ 64.

Definition UINT32_MAX : Z := 2 ^ 32 - 1.

Notation "x ⊞ y" := (wrap64 (x + y)) (at level 50, left associativity) : cint_scope.
Notation "x ⊟ y" := (wrap64 (x - y)) (at level 50, left associativity) : cint_scope.
Notation "x ⊠ y" := (wrap64 (x * y)) (at level 40, left associativity) : cint_scope.
#[global] Open Scope cint_scope.

(** [addr & ~(CACHELINE_SIZE - 1)]. *)
Definition CACHELINE_SIZE : Z := 64.

Definition line_of (addr : Z) : Z := Z.land addr (Z.lnot (CACHELINE_SIZE - 1)).

(** ** Flat memory

    A memory object is its list of bytes.  Reading or writing outside the object is
    undefined behaviour in C++, here [None]. *)
Definition mem_read (off n : Z) (m : list Z) : option (list Z) :=
  if decide (0 <= off /\ 0 <= n /\ off + n <= Z.of_nat (length m))
  then Some (take (Z.to_nat n) (drop (Z.to_nat off) m)) else None.

Definition mem_write (off : Z) (bs : list Z) (m : list Z) : option (list Z) :=
  if decide (0 <= off /\ off + Z.of_nat (length bs) <= Z.of_nat (length m))
  then Some (take (Z.to_nat off) m ++ bs ++ drop (Z.to_nat off + length bs) m) else None.

(** Little-endian integers of [n] bytes, the x86 layout of the atomics. *)
Fixpoint le_split (n : nat) (v : Z) : list Z :=
  match n with
  | O => []
  | S n' => v mod 256 :: le_split n' (v / 256)
  end.

Fixpoint le_combine (bs : list Z) : Z :=
  match bs with
  | [] => 0
  | b :: bs' => b + 256 * le_combine bs'
  end.

(** The ascending iteration order of a [std::set]. *)
Definition ascending (s : gset Z) : list Z := merge_sort Z.le (elements s).

(** ** Tactics *)
Ltac zify_bool :=
  repeat match goal with
  | H : (_ <? _) = true |- _ => apply Z.ltb_lt in H
  | H : (_ <? _) = false |- _ => apply Z.ltb_ge in H
  | H : (_ <=? _) = true |- _ => apply Z.leb_le in H
  | H : (_ <=? _) = false |- _ => apply Z.leb_gt in H
  | H : (_ =? _) = true |- _ => apply Z.eqb_eq in H
  | H : (_ =? _) = false |- _ => apply Z.eqb_neq in H
  | H : andb _ _ = true |- _ => apply andb_true_iff in H; destruct H
  | H : orb _ _ = false |- _ => apply orb_false_iff in H; destruct H
  end.

(** Split on every boolean test and option scrutinee of the goal. *)
Ltac case_goal :=
  repeat match goal with
  | |- context [if ?b then _ else _] =>
      lazymatch type of b with
      | bool => let E := fresh "E" in destruct b eqn:E
      | _ => case_decide
      end
  end; zify_bool.

(** Split on every test in a hypothesis. *)
Ltac case_in H :=
  repeat match type of H with
  | context [if ?b then _ else _] =>
      lazymatch type of b with
      | bool => let E := fresh "E" in destruct b eqn:E
      | _ => case_decide
      end
  end; zify_bool.

Create HintDb cxl discriminated.

(** ** Lemmas on integers *)
Lemma wrap64_small (z : Z) : u64 z -> wrap64 z = z.
Proof. intros H. apply Z.mod_small, H. Qed.

Lemma wrap64_range (z : Z) : u64 (wrap64 z).
Proof. apply Z.mod_pos_bound. lia. Qed.

Lemma wrap64_sub_add (a k : Z) : wrap64 ((a ⊞ k) - a) = wrap64 k.
Proof. unfold wrap64. rewrite Zminus_mod_idemp_l. f_equal. lia. Qed.

Lemma wrap64_chain (a b c k l : Z) :
  wrap64 (b - a) = wrap64 k -> wrap64 (c - b) = wrap64 l -> wrap64 (c - a) = wrap64 (k + l).
Proof.
  unfold wrap64. intros Hk Hl. replace (c - a) with ((b - a) + (c - b)) by lia.
  rewrite Z.add_mod, Hk, Hl by lia. symmetry. apply Z.add_mod. lia.
Qed.

Lemma wrap32_small (z : Z) : 0 <= z < 2 ^ 32 -> wrap32 z = z.
Proof. apply Z.mod_small. Qed.

#[export] Hint Resolve wrap64_range : cxl.

Lemma line_of_spec (a : Z) : line_of a = a - a mod 64.
Proof.
  unfold line_of, CACHELINE_SIZE.
  change (Z.land a (Z.lnot (64 - 1))) with (Z.land a (Z.lnot (Z.ones 6))).
  rewrite <- Z.ldiff_land, Z.ldiff_ones_r, Z.shiftl_mul_pow2, Z.shiftr_div_pow2 by lia.
  change (2 ^ 6) with 64. pose proof (Z.div_mod a 64). lia.
Qed.

Lemma line_of_le (a : Z) : line_of a <= a < line_of a + 64.
Proof. rewrite line_of_spec. pose proof (Z.mod_pos_bound a 64). lia. Qed.

Lemma line_of_aligned (a : Z) : line_of a mod 64 = 0.
Proof.
  rewrite line_of_spec. pose proof (Z.div_mod a 64).
  replace (a - a mod 64) with (a / 64 * 64) by lia. apply Z.mod_mul. lia.
Qed.

Lemma line_of_idem (a : Z) : line_of (line_of a) = line_of a.
Proof. rewrite (line_of_spec (line_of a)), line_of_aligned. lia. Qed.

Lemma line_of_nonneg (a : Z) : 0 <= a -> 0 <= line_of a.
Proof. rewrite line_of_spec. pose proof (Z.mod_le a 64). lia. Qed.

Lemma line_of_same (a j : Z) : 0 <= j -> a + j < line_of a + 64 -> line_of (a + j) = line_of a.
Proof. rewrite !line_of_spec. intros. Z.to_euclidean_division_equations. lia. Qed.

Lemma line_of_top (a : Z) : u64 a -> line_of a + 64 <= 2 ^ 64.
Proof. unfold u64. rewrite line_of_spec. intros. Z.to_euclidean_division_equations. lia. Qed.

Lemma wrap64_mod64 (a : Z) : wrap64 a mod 64 = a mod 64.
Proof.
  unfold wrap64. replace (2 ^ 64) with (64 * 2 ^ 58) by lia.
  rewrite Z.rem_mul_r by lia. rewrite Z.mul_comm, Z.mod_add, Z.mod_mod by lia. done.
Qed.

#[export] Hint Resolve line_of_le line_of_aligned line_of_nonneg : cxl.
#[export] Hint Rewrite line_of_idem line_of_aligned : cxl.

(** ** Lemmas on memory *)
Lemma mem_read_Some (off n : Z) (m : list Z) :
  0 <= off -> 0 <= n -> off + n <= Z.of_nat (length m) ->
  mem_read off n m = Some (take (Z.to_nat n) (drop (Z.to_nat off) m)).
Proof. intros. unfold mem_read. rewrite decide_True; auto. Qed.

(** A read as the list of its bytes. *)
Lemma mem_read_bytes (off n : Z) (m : list Z) :
  0 <= off -> 0 <= n -> off + n <= Z.of_nat (length m) ->
  mem_read off n m = Some ((fun j => m !!! Z.to_nat (off + j)) <$> seqZ 0 n).
Proof.
  intros H0 H1 H2. rewrite mem_read_Some by done. f_equal. apply list_eq. intros i.
  rewrite list_lookup_fmap. destruct (decide (Z.of_nat i < n)) as [Hi|Hi].
  - rewrite lookup_take_lt, lookup_drop, lookup_seqZ_lt by lia. cbn.
    rewrite (list_lookup_lookup_total_lt m) by lia. do 2 f_equal. lia.
  - rewrite lookup_take_ge, lookup_seqZ_ge by lia. done.
Qed.

Lemma mem_read_length (off n : Z) (m bs : list Z) :
  mem_read off n m = Some bs -> Z.of_nat (length bs) = n.
Proof.
  unfold mem_read. case_decide; intros [= <-].
  rewrite length_take, length_drop. lia.
Qed.

Lemma mem_write_length (off : Z) (bs m m' : list Z) :
  mem_write off bs m = Some m' -> length m' = length m.
Proof.
  unfold mem_write. case_decide; intros [= <-].
  rewrite !length_app, length_take, length_drop. lia.
Qed.

(** What was written is read back. *)
Lemma mem_read_write_same (off : Z) (bs m m' : list Z) :
  mem_write off bs m = Some m' ->
  mem_read off (Z.of_nat (length bs)) m' = Some bs.
Proof.
  intros H. pose proof (mem_write_length _ _ _ _ H) as L. revert H.
  unfold mem_write. case_decide as D; intros [= <-].
  rewrite mem_read_Some by lia. f_equal.
  rewrite drop_app_ge by (rewrite length_take; lia).
  replace (_ - _)%nat with 0%nat by (rewrite length_take; lia).
  rewrite drop_0, Nat2Z.id, take_app_length. reflexivity.
Qed.

Lemma mem_write_lookup (off : Z) (bs m m' : list Z) (i : nat) :
  mem_write off bs m = Some m' ->
  m' !! i = if decide (off <= Z.of_nat i < off + Z.of_nat (length bs))
            then bs !! (i - Z.to_nat off)%nat else m !! i.
Proof.
  unfold mem_write. case_decide as D; intros [= <-].
  assert (L : length (take (Z.to_nat off) m) = Z.to_nat off) by (rewrite length_take; lia).
  case_decide as E.
  - rewrite lookup_app_r by lia. rewrite L. apply lookup_app_l. lia.
  - destruct (decide (Z.of_nat i < off)).
    + rewrite lookup_app_l by lia. apply lookup_take_lt. lia.
    + rewrite lookup_app_r, lookup_app_r by lia. rewrite lookup_drop. f_equal. lia.
Qed.

(** A read outside the written window is unchanged. *)
Lemma mem_read_write_disjoint (off off' n : Z) (bs m m' : list Z) :
  mem_write off bs m = Some m' ->
  off' + n <= off \/ off + Z.of_nat (length bs) <= off' ->
  mem_read off' n m' = mem_read off' n m.
Proof.
  intros H D. pose proof (mem_write_length _ _ _ _ H) as L.
  unfold mem_read. rewrite L. case_decide as R; [f_equal | done].
  apply list_eq. intros i. destruct (decide (i < Z.to_nat n)%nat).
  - rewrite !lookup_take_lt, !lookup_drop by lia.
    rewrite (mem_write_lookup _ _ _ _ _ H), decide_False by lia. done.
  - rewrite !lookup_take_ge by lia. done.
Qed.

Lemma mem_write_Some (off : Z) (bs m : list Z) :
  0 <= off -> off + Z.of_nat (length bs) <= Z.of_nat (length m) ->
  is_Some (mem_write off bs m).
Proof. intros. unfold mem_write. rewrite decide_True by auto. eauto. Qed.

Lemma le_split_length (n : nat) (v : Z) : length (le_split n v) = n.
Proof. revert v. induction n; simpl; auto. Qed.

Lemma le_combine_split (n : nat) (v : Z) :
  le_combine (le_split n v) = v mod 256 ^ Z.of_nat n.
Proof.
  revert v. induction n as [|n IH]; intros v; [symmetry; apply Z.mod_1_r|].
  cbn [le_split le_combine]. rewrite IH, Nat2Z.inj_succ, Z.pow_succ_r by lia.
  rewrite Z.rem_mul_r by lia. reflexivity.
Qed.

Lemma le_split8_roundtrip (v : Z) : u64 v -> le_combine (le_split 8 v) = v.
Proof. intros H. rewrite le_combine_split. apply Z.mod_small, H. Qed.

(** ** Lemmas on sets *)
Lemma ascending_length (s : gset Z) : length (ascending s) = size s.
Proof. unfold ascending. by rewrite merge_sort_Permutation. Qed.

Lemma elem_of_ascending (s : gset Z) (x : Z) : x ∈ ascending s <-> x ∈ s.
Proof. unfold ascending. by rewrite merge_sort_Permutation, elem_of_elements. Qed.

(** ** Lemmas on lists that processes update at an index *)
Definition sum_of {A} (f : A -> nat) (l : list A) : nat := foldr (fun x n => f x + n)%nat 0%nat l.

Lemma sum_of_insert {A} (f : A -> nat) (l : list A) (i : nat) (x y : A) :
  l !! i = Some x -> (sum_of f (<[i := y]> l) + f x = sum_of f l + f y)%nat.
Proof.
  revert i. induction l as [|z l IH]; intros [|i] Hi; [done..| |].
  - injection Hi as ->. cbn. lia.
  - specialize (IH i Hi). change (f z + sum_of f (<[i := y]> l) + f x = f z + sum_of f l + f y)%nat. lia.
Qed.

Lemma omap_insert_perm {A B} (f : A -> option B) (l : list A) (i : nat) (x y : A) :
  l !! i = Some x -> exists rest, omap f l ≡ₚ option_list (f x) ++ rest /\ omap f (<[i := y]> l) ≡ₚ option_list (f y) ++ rest.
Proof.
  intros Hi. exists (omap f (take i l ++ drop (S i) l)). rewrite (insert_take_drop _ _ _ (lookup_lt_Some _ _ _ Hi)). split.
  - rewrite <- (take_drop_middle l i x Hi) at 1. rewrite !omap_app. cbn. destruct (f x); cbn; [|done]. by rewrite Permutation_middle.
  - rewrite !omap_app. cbn. destruct (f y); cbn; [|done]. by rewrite Permutation_middle.
Qed.
