(* ===== verification/HdmDecoder.v ===== *)
(** * HDM address decoding ([include/hdm_decoder.h], [src/hdm_decoder.cpp])

    The decoder maps a host physical address to the device or node that owns it, by a
    table of address ranges, by an interleave set, or by the first and then the second.
    A decoded address is [Some r]; [None] stands for an access outside the range vector
    or a search that does not end, and [decode_total] shows that neither happens. *)
From S2P Require Import Prelude.

Inductive HDMDecoderMode := INTERLEAVED | RANGE_BASED | HYBRID.

Inductive InterleaveGranularity :=
  CACHELINE_64B | CACHELINE_256B | PAGE_4K | PAGE_2M | PAGE_1G.

Definition granularity_bytes (g : InterleaveGranularity) : Z :=
  match g with
  | CACHELINE_64B => 64
  | CACHELINE_256B => 256
  | PAGE_4K => 4096
  | PAGE_2M => 2097152
  | PAGE_1G => 1073741824
  end.

Record HDMRange := mkHDMRange {
  rg_base_addr : Z;
  rg_size : Z;
  rg_target_id : Z;
  rg_is_remote : bool
}.

Record HDMInterleaveConfig := mkHDMInterleaveConfig {
  ic_granularity : InterleaveGranularity;
  ic_target_ids : list Z;
  ic_base_addr : Z;
  ic_total_size : Z
}.

Record DecodeResult := mkDecodeResult {
  dr_target_id : Z;
  dr_local_offset : Z;
  dr_is_remote : bool;
  dr_hop_count : Z
}.

Record HDMDecoder := mkHDMDecoder {
  mode_ : HDMDecoderMode;
  ranges_ : list HDMRange;
  interleave_config_ : HDMInterleaveConfig;
  ranges_sorted_ : bool
}.

Definition hdm_new (mode : HDMDecoderMode) : HDMDecoder :=
  mkHDMDecoder mode [] (mkHDMInterleaveConfig CACHELINE_256B [] 0 0) false.

Definition add_range (base size target_id : Z) (is_remote : bool) (d : HDMDecoder) : HDMDecoder :=
  mkHDMDecoder (mode_ d) (ranges_ d ++ [mkHDMRange base size target_id is_remote])
    (interleave_config_ d) false.

Definition configure_interleave (gran : InterleaveGranularity) (targets : list Z)
    (base total_size : Z) (d : HDMDecoder) : HDMDecoder :=
  mkHDMDecoder (mode_ d) (ranges_ d) (mkHDMInterleaveConfig gran targets base total_size)
    (ranges_sorted_ d).

(** [std::sort] with the comparison on [base_addr]; the order of ranges with equal bases,
    which [std::sort] leaves open, is the one of a stable sort. *)
Definition range_le (a b : HDMRange) : Prop := rg_base_addr a <= rg_base_addr b.

#[global] Instance range_le_dec (a b : HDMRange) : Decision (range_le a b) :=
  decide (rg_base_addr a <= rg_base_addr b).

Definition sort_ranges (d : HDMDecoder) : HDMDecoder :=
  mkHDMDecoder (mode_ d) (merge_sort range_le (ranges_ d)) (interleave_config_ d) true.

Definition decode_miss : DecodeResult := mkDecodeResult UINT32_MAX 0 false 0.

Definition range_hit (r : HDMRange) (addr : Z) : DecodeResult :=
  mkDecodeResult (rg_target_id r) (addr ⊟ rg_base_addr r) (rg_is_remote r)
    (if rg_is_remote r then 1 else 0).

(** The test of the linear scan, with the wrap-around of [base_addr + size]. *)
Definition range_covers (r : HDMRange) (addr : Z) : bool :=
  (rg_base_addr r <=? addr) && (addr <? rg_base_addr r ⊞ rg_size r).

Fixpoint decode_scan (rs : list HDMRange) (addr : Z) : DecodeResult :=
  match rs with
  | [] => decode_miss
  | r :: rs' => if range_covers r addr then range_hit r addr else decode_scan rs' addr
  end.

(** The loop of the binary search over [lo, hi]. *)
Fixpoint decode_bsearch (fuel : nat) (rs : list HDMRange) (addr lo hi : Z) : option DecodeResult :=
  match fuel with
  | O => None
  | S fuel' =>
      if lo <=? hi then
        let mid := lo + (hi - lo) / 2 in
        match rs !! Z.to_nat mid with
        | None => None
        | Some r =>
            if addr <? rg_base_addr r then decode_bsearch fuel' rs addr lo (mid - 1)
            else if rg_base_addr r ⊞ rg_size r <=? addr then decode_bsearch fuel' rs addr (mid + 1) hi
            else Some (range_hit r addr)
        end
      else Some decode_miss
  end.

Definition decode_range (d : HDMDecoder) (addr : Z) : option DecodeResult :=
  match ranges_ d with
  | [] => Some decode_miss
  | _ =>
      if negb (ranges_sorted_ d) then Some (decode_scan (ranges_ d) addr)
      else decode_bsearch (S (length (ranges_ d))) (ranges_ d) addr 0
             (Z.of_nat (length (ranges_ d)) - 1)
  end.

(** The remoteness of a target: that of the first range naming it. *)
Fixpoint target_is_remote (rs : list HDMRange) (t : Z) : bool :=
  match rs with
  | [] => false
  | r :: rs' => if rg_target_id r =? t then rg_is_remote r else target_is_remote rs' t
  end.

Definition decode_interleaved (d : HDMDecoder) (addr : Z) : option DecodeResult :=
  let c := interleave_config_ d in
  match ic_target_ids c with
  | [] => Some decode_miss
  | _ =>
      if (addr <? ic_base_addr c) || (ic_base_addr c ⊞ ic_total_size c <=? addr)
      then Some decode_miss
      else
        let granularity := granularity_bytes (ic_granularity c) in
        let relative_addr := addr ⊟ ic_base_addr c in
        let block_index := relative_addr / granularity in
        let num_targets := Z.of_nat (length (ic_target_ids c)) in
        let target_index := block_index mod num_targets in
        match ic_target_ids c !! Z.to_nat target_index with
        | None => None
        | Some target_id =>
            let target_block := block_index / num_targets in
            let intra_block_offset := relative_addr mod granularity in
            let local_offset := (target_block ⊠ granularity) ⊞ intra_block_offset in
            let is_remote := target_is_remote (ranges_ d) target_id in
            Some (mkDecodeResult target_id local_offset is_remote (if is_remote then 1 else 0))
        end
  end.

Definition decode (d : HDMDecoder) (addr : Z) : option DecodeResult :=
  match mode_ d with
  | RANGE_BASED => decode_range d addr
  | INTERLEAVED => decode_interleaved d addr
  | HYBRID =>
      result ← decode_range d addr;
      if negb (dr_target_id result =? UINT32_MAX) then Some result
      else decode_interleaved d addr
  end.

Definition get_home_node (d : HDMDecoder) (addr : Z) : option Z :=
  result ← decode d addr; Some (dr_target_id result).

Definition is_local (d : HDMDecoder) (addr local_node_id : Z) : option bool :=
  result ← decode d addr;
  Some ((dr_target_id result =? local_node_id) && negb (dr_is_remote result)).

(** ** Specification of range decoding *)

(** A range whose end fits in 64 bits. *)
Definition range_wf (r : HDMRange) : Prop :=
  0 <= rg_base_addr r /\ 0 < rg_size r /\ rg_base_addr r + rg_size r < 2 ^ 64.

Definition range_contains (r : HDMRange) (addr : Z) : Prop :=
  rg_base_addr r <= addr < rg_base_addr r + rg_size r.

(** No two entries of the table share an address. *)
Definition ranges_disjoint (rs : list HDMRange) : Prop :=
  forall i j ri rj a, rs !! i = Some ri -> rs !! j = Some rj -> i <> j ->
    range_contains ri a -> ~ range_contains rj a.

Definition ranges_ok (rs : list HDMRange) : Prop :=
  Forall range_wf rs /\ ranges_disjoint rs.

(** Ranges that name the same target agree on whether it is remote. *)
Definition targets_consistent (rs : list HDMRange) : Prop :=
  forall r1 r2, r1 ∈ rs -> r2 ∈ rs -> rg_target_id r1 = rg_target_id r2 ->
    rg_is_remote r1 = rg_is_remote r2.

(** The class invariant behind [ranges_sorted_]. *)
Definition hdm_inv (d : HDMDecoder) : Prop :=
  ranges_sorted_ d = true -> StronglySorted range_le (ranges_ d).

(** The interleave address of a (way, local offset) pair: the inverse of the split. *)
Definition interleave_encode (c : HDMInterleaveConfig) (way off : Z) : Z :=
  let g := granularity_bytes (ic_granularity c) in
  ic_base_addr c + ((off / g) * Z.of_nat (length (ic_target_ids c)) + way) * g + off mod g.

Definition interleave_wf (c : HDMInterleaveConfig) : Prop :=
  ic_target_ids c <> [] /\ 0 <= ic_base_addr c /\ 0 <= ic_total_size c /\
  ic_base_addr c + ic_total_size c < 2 ^ 64.

Definition interleave_contains (c : HDMInterleaveConfig) (addr : Z) : Prop :=
  ic_base_addr c <= addr < ic_base_addr c + ic_total_size c.

(** ** Range decoding *)
Lemma range_covers_spec (r : HDMRange) (a : Z) :
  range_wf r -> range_covers r a = true <-> range_contains r a.
Proof.
  intros (H0 & H1 & H2). unfold range_covers, range_contains.
  rewrite wrap64_small by (unfold u64; lia). rewrite andb_true_iff, Z.leb_le, Z.ltb_lt. done.
Qed.

Lemma decode_scan_miss (rs : list HDMRange) (a : Z) :
  Forall range_wf rs -> (forall i r, rs !! i = Some r -> ~ range_contains r a) ->
  decode_scan rs a = decode_miss.
Proof.
  induction 1 as [|r rs Hr _ IH]; intros H; [done|]. cbn.
  destruct (range_covers r a) eqn:E.
  - apply range_covers_spec in E; [|done]. destruct (H 0%nat r eq_refl E).
  - apply IH. intros i r' Hi. apply (H (S i) r' Hi).
Qed.

Lemma decode_scan_hit (rs : list HDMRange) (i : nat) (r : HDMRange) (a : Z) :
  ranges_ok rs -> rs !! i = Some r -> range_contains r a -> decode_scan rs a = range_hit r a.
Proof.
  intros [Hwf Hd]. revert i. induction Hwf as [|r0 rs Hr _ IH]; intros i Hi Hc; [done|]. cbn.
  destruct (range_covers r0 a) eqn:E.
  - apply range_covers_spec in E; [|done].
    destruct i as [|i]; [by injection Hi as <-|].
    destruct (Hd 0%nat (S i) r0 r a eq_refl Hi ltac:(lia) E Hc).
  - destruct i as [|i].
    + injection Hi as <-. apply range_covers_spec in Hc; [congruence|done].
    + apply (IH) with i; [|done..].
      intros i' j' ri rj x Hi' Hj' Hne. apply (Hd (S i') (S j')); auto.
Qed.

#[global] Instance range_le_total : Total range_le.
Proof. intros a b. unfold range_le. lia. Qed.

#[global] Instance range_le_trans : Transitive range_le.
Proof. intros a b c. unfold range_le. lia. Qed.

Lemma sorted_lookup_le (rs : list HDMRange) (i j : nat) (ri rj : HDMRange) :
  StronglySorted range_le rs -> rs !! i = Some ri -> rs !! j = Some rj -> (i < j)%nat ->
  rg_base_addr ri <= rg_base_addr rj.
Proof.
  intros H. revert i j. induction H as [|r rs _ IH Hr]; intros [|i] [|j] Hi Hj L;
    try (simpl in *; congruence || lia).
  - injection Hi as <-. rewrite Forall_lookup in Hr. apply (Hr j rj Hj).
  - apply (IH i j); simpl in *; auto. lia.
Qed.

Lemma ranges_ok_perm (rs rs' : list HDMRange) : rs ≡ₚ rs' -> ranges_ok rs -> ranges_ok rs'.
Proof.
  intros P [Hwf Hd]. split; [by rewrite <- P|].
  symmetry in P. apply Permutation_inj in P as (_ & f & Hinj & Hf).
  intros i j ri rj a Hi Hj Hne. rewrite Hf in Hi, Hj.
  apply (Hd (f i) (f j)); auto.
Qed.

(** The scan depends only on which ranges the table holds, not on their order. *)
Lemma decode_scan_perm (rs rs' : list HDMRange) (a : Z) :
  rs ≡ₚ rs' -> ranges_ok rs -> decode_scan rs' a = decode_scan rs a.
Proof.
  intros P Hok. pose proof (ranges_ok_perm _ _ P Hok) as Hok'.
  destruct (decide (Exists (fun r => range_covers r a = true) rs)) as [E|E].
  - apply list.Exists_exists in E as (r & Hr & Hc).
    apply range_covers_spec in Hc; [|destruct Hok; by eapply Forall_forall].
    destruct (proj1 (list_elem_of_lookup _ _) Hr) as [i Hi].
    rewrite P in Hr. destruct (proj1 (list_elem_of_lookup _ _) Hr) as [j Hj].
    by rewrite (decode_scan_hit rs i r a), (decode_scan_hit rs' j r a).
  - assert (N : forall l, l ≡ₚ rs -> Forall range_wf l -> decode_scan l a = decode_miss).
    { intros l Pl Hl. apply decode_scan_miss; [done|]. intros i r Hi Hc. apply E.
      apply list.Exists_exists. exists r. split.
      - rewrite <- Pl. by eapply list_elem_of_lookup_2.
      - apply range_covers_spec; [by eapply Forall_lookup_1|done]. }
    destruct Hok, Hok'. rewrite !N; done.
Qed.

Lemma mid_bounds (lo hi : Z) : lo <= hi -> lo <= lo + (hi - lo) / 2 <= hi.
Proof.
  intros H. pose proof (Z.div_pos (hi - lo) 2). pose proof (Z.div_le_upper_bound (hi - lo) 2 (hi - lo)).
  lia.
Qed.

Lemma decode_bsearch_total (fuel : nat) (rs : list HDMRange) (a lo hi : Z) :
  0 <= lo -> hi < Z.of_nat (length rs) -> (Z.to_nat (hi - lo + 1) < fuel)%nat ->
  is_Some (decode_bsearch fuel rs a lo hi).
Proof.
  revert lo hi. induction fuel as [|fuel IH]; intros lo hi Hlo Hhi Hf; [lia|]. cbn.
  destruct (lo <=? hi) eqn:E; zify_bool; [|eauto].
  pose proof (mid_bounds lo hi E) as M. set (mid := lo + (hi - lo) / 2) in *.
  destruct (lookup_lt_is_Some_2 rs (Z.to_nat mid)) as [r ->]; [lia|].
  case_goal; [apply IH; lia..|eauto].
Qed.

(** The binary search of a sorted table finds what the scan finds. *)
Lemma decode_bsearch_scan (fuel : nat) (rs : list HDMRange) (a lo hi : Z) :
  ranges_ok rs -> StronglySorted range_le rs ->
  0 <= lo -> hi < Z.of_nat (length rs) -> (Z.to_nat (hi - lo + 1) < fuel)%nat ->
  (forall i r, rs !! i = Some r -> range_contains r a -> lo <= Z.of_nat i <= hi) ->
  decode_bsearch fuel rs a lo hi = Some (decode_scan rs a).
Proof.
  intros Hok Hs. revert lo hi. induction fuel as [|fuel IH]; intros lo hi Hlo Hhi Hf Hin; [lia|]. cbn.
  destruct (lo <=? hi) eqn:E; zify_bool.
  2:{ rewrite decode_scan_miss; [done|apply Hok|]. intros i r Hi Hc. specialize (Hin i r Hi Hc). lia. }
  pose proof (mid_bounds lo hi E) as M. set (mid := lo + (hi - lo) / 2) in *.
  destruct (lookup_lt_is_Some_2 rs (Z.to_nat mid)) as [r Hr]; [lia|]. rewrite Hr.
  assert (Hw : range_wf r) by (destruct Hok; by eapply Forall_lookup_1).
  destruct Hw as (W0 & W1 & W2). rewrite wrap64_small by (unfold u64; lia).
  case_goal.
  - apply IH; try lia. intros i ri Hi Hc. specialize (Hin i ri Hi Hc).
    destruct (decide (Z.of_nat i < mid)); [lia|exfalso].
    destruct (decide (i = Z.to_nat mid)) as [->|]; [simplify_eq; red in Hc; lia|].
    pose proof (sorted_lookup_le rs (Z.to_nat mid) i r ri Hs Hr Hi ltac:(lia)). red in Hc. lia.
  - apply IH; try lia. intros i ri Hi Hc. specialize (Hin i ri Hi Hc).
    destruct (decide (mid < Z.of_nat i)); [lia|exfalso].
    destruct (decide (i = Z.to_nat mid)) as [->|]; [simplify_eq; red in Hc; lia|].
    pose proof (sorted_lookup_le rs i (Z.to_nat mid) ri r Hs Hi Hr ltac:(lia)). red in Hc.
    destruct Hok as [_ Hd]. apply (Hd i (Z.to_nat mid) ri r (rg_base_addr r)); auto; red; lia.
  - rewrite (decode_scan_hit rs (Z.to_nat mid) r a); auto. red; lia.
Qed.

(** ** Interleaved decoding *)
Lemma granularity_pos (g : InterleaveGranularity) : 0 < granularity_bytes g.
Proof. destruct g; reflexivity. Qed.

Lemma decode_interleaved_total (d : HDMDecoder) (a : Z) : is_Some (decode_interleaved d a).
Proof.
  unfold decode_interleaved. destruct (ic_target_ids _) as [|t ts] eqn:E; [eauto|].
  case_goal; [eauto|]. rewrite <- E.
  match goal with |- context [_ !! Z.to_nat (?b mod ?n)] => pose proof (Z.mod_pos_bound b n) end.
  destruct (lookup_lt_is_Some_2 (ic_target_ids (interleave_config_ d))) with
    (i := Z.to_nat ((a ⊟ ic_base_addr (interleave_config_ d)) /
                    granularity_bytes (ic_granularity (interleave_config_ d)) mod
                    Z.of_nat (length (ic_target_ids (interleave_config_ d))))) as [x ->]; [|eauto].
  rewrite E in *. simpl length in *. lia.
Qed.

Lemma block_split (g n rel : Z) : 0 < g -> 0 < n -> 0 <= rel ->
  let off := rel / g / n * g + rel mod g in
  0 <= rel / g / n * g /\ off <= rel /\ off / g = rel / g / n /\ off mod g = rel mod g.
Proof.
  intros Hg Hn Hr off. pose proof (Z.mod_pos_bound rel g Hg). pose proof (Z.div_mod rel g ltac:(lia)).
  assert (Hb : 0 <= rel / g) by (apply Z.div_pos; lia).
  assert (Hq : 0 <= rel / g / n <= rel / g).
  { split; [apply Z.div_pos; lia|]. apply Z.div_le_upper_bound; nia. }
  unfold off. split; [nia|]. split; [nia|]. split.
  - rewrite Z.div_add_l by lia. rewrite (Z.div_small (rel mod g)) by lia. lia.
  - rewrite Z.add_comm, Z.mod_add, Z.mod_mod by lia. done.
Qed.

(** What an in-region interleaved decode returns, and that it can be undone. *)
Lemma decode_interleaved_hit (d : HDMDecoder) (a : Z) :
  let c := interleave_config_ d in
  interleave_wf c -> interleave_contains c a ->
  exists (way : nat) r, decode_interleaved d a = Some r /\
    ic_target_ids c !! way = Some (dr_target_id r) /\
    0 <= dr_local_offset r <= a - ic_base_addr c /\
    interleave_encode c (Z.of_nat way) (dr_local_offset r) = a.
Proof.
  intros c (Hne & Hb & Hs & Hf) [H1 H2]. unfold decode_interleaved. fold c.
  assert (Hn : 0 < Z.of_nat (length (ic_target_ids c))) by (destruct (ic_target_ids c); [done|simpl; lia]).
  destruct (ic_target_ids c) as [|t ts] eqn:E; [done|]. rewrite <- E in *. clear t ts E Hne.
  rewrite (wrap64_small (_ + _)), (wrap64_small (a - _)) by (unfold u64; lia).
  destruct (orb _ _) eqn:E; [apply orb_true_iff in E as [E|E]; zify_bool; lia|clear E].
  set (g := granularity_bytes (ic_granularity c)). set (n := Z.of_nat (length (ic_target_ids c))) in *.
  set (rel := a - ic_base_addr c). pose proof (granularity_pos (ic_granularity c)) as Hg. fold g in Hg.
  pose proof (Z.mod_pos_bound (rel / g) n Hn) as Hw.
  destruct (lookup_lt_is_Some_2 (ic_target_ids c) (Z.to_nat (rel / g mod n))) as [x Hx]; [lia|].
  rewrite Hx. eexists _, _. split; [done|]. cbn [dr_target_id dr_local_offset].
  destruct (block_split g n rel Hg Hn ltac:(lia)) as (B0 & B1 & B2 & B3). cbv zeta in B1, B2, B3.
  pose proof (Z.mod_pos_bound rel g Hg).
  rewrite (wrap64_small (rel / g / n * g)) by (unfold u64; lia).
  rewrite wrap64_small by (unfold u64; lia).
  split; [exact Hx|]. split; [lia|].
  unfold interleave_encode. fold g n. rewrite B2, B3, Z2Nat.id by lia.
  pose proof (Z.div_mod (rel / g) n ltac:(lia)). pose proof (Z.div_mod rel g ltac:(lia)). nia.
Qed.

Lemma target_is_remote_spec (rs : list HDMRange) (t : Z) :
  targets_consistent rs ->
  target_is_remote rs t = true <-> exists r, r ∈ rs /\ rg_target_id r = t /\ rg_is_remote r = true.
Proof.
  induction rs as [|r rs IH]; intros Hc; cbn.
  - split; [done|]. intros (r & Hr & _). by apply not_elem_of_nil in Hr.
  - destruct (rg_target_id r =? t) eqn:E; zify_bool.
    + split; [intros H; exists r; set_solver|]. intros (r' & Hr' & E' & R').
      rewrite (Hc r r'); [done|set_solver..|congruence].
    + rewrite IH by (intros r1 r2 ???; apply Hc; set_solver).
      split; intros (r' & Hr' & E' & R'); exists r'; [set_solver|]. set_unfold. naive_solver.
Qed.

Lemma target_is_remote_perm (rs rs' : list HDMRange) (t : Z) :
  rs ≡ₚ rs' -> targets_consistent rs' -> target_is_remote rs t = target_is_remote rs' t.
Proof.
  intros P Hc. assert (Hc' : targets_consistent rs) by (intros r1 r2; rewrite P; apply Hc).
  apply eq_true_iff_eq. rewrite !target_is_remote_spec by done.
  by setoid_rewrite P.
Qed.

Lemma decode_interleaved_ext (d d' : HDMDecoder) (a : Z) :
  interleave_config_ d' = interleave_config_ d ->
  (forall t, target_is_remote (ranges_ d') t = target_is_remote (ranges_ d) t) ->
  decode_interleaved d' a = decode_interleaved d a.
Proof.
  intros E R. unfold decode_interleaved. rewrite E. destruct (ic_target_ids _); [done|].
  case_goal; [done|]. destruct (_ !! _); [|done]. by rewrite R.
Qed.

(** ** The decoder *)
Lemma decode_range_scan (d : HDMDecoder) (a : Z) :
  hdm_inv d -> ranges_ok (ranges_ d) -> decode_range d a = Some (decode_scan (ranges_ d) a).
Proof.
  intros Hi Hok. unfold decode_range. destruct (ranges_ d) as [|r rs] eqn:E; [done|]. rewrite <- E in *.
  destruct (ranges_sorted_ d) eqn:S; cbn [negb]; [|done].
  apply decode_bsearch_scan; auto; try lia.
  intros i x Hx _. apply lookup_lt_Some in Hx. lia.
Qed.

Lemma sort_ranges_inv (d : HDMDecoder) : hdm_inv (sort_ranges d).
Proof. intros _. cbn. apply StronglySorted_merge_sort; apply _. Qed.

Lemma decode_range_total (d : HDMDecoder) (a : Z) : is_Some (decode_range d a).
Proof.
  unfold decode_range. destruct (ranges_ d) as [|r rs] eqn:E; [eauto|].
  case_goal; [eauto|]. apply decode_bsearch_total; lia.
Qed.

Lemma decode_answers (d : HDMDecoder) (addr : Z) : is_Some (decode d addr).
Proof.
  unfold decode. destruct (mode_ d).
  - apply decode_interleaved_total.
  - apply decode_range_total.
  - destruct (decode_range_total d addr) as [r ->]. cbn. case_goal; eauto.
    apply decode_interleaved_total.
Qed.

(** Decoding always produces a result: whatever the mode, the range table (sorted or
    not, overlapping or not) and the interleave set, the binary search ends and no vector
    index of [decode_range] or [decode_interleaved] is out of bounds. *)
Theorem decode_total (d : HDMDecoder) (addr : Z) : is_Some (decode d addr).
Proof. apply decode_answers. Qed.

(** Sorting the table does not change decoding in any mode: over ranges that are disjoint,
    do not reach the end of the address space and agree on which targets are remote, the
    binary search on the sorted table returns what the scan of the unsorted one returns. *)
Theorem decode_sort_equiv (d : HDMDecoder) (addr : Z)
  (Hok : ranges_ok (ranges_ d)) (Hc : targets_consistent (ranges_ d)) (Hinv : hdm_inv d) :
  decode (sort_ranges d) addr = decode d addr.
Proof.
  assert (P : ranges_ (sort_ranges d) ≡ₚ ranges_ d) by apply merge_sort_Permutation.
  assert (E : decode_range (sort_ranges d) addr = decode_range d addr).
  { rewrite !decode_range_scan; auto using sort_ranges_inv.
    - by rewrite (decode_scan_perm _ _ addr (symmetry P) Hok).
    - by apply (ranges_ok_perm _ _ (symmetry P)). }
  assert (I : decode_interleaved (sort_ranges d) addr = decode_interleaved d addr).
  { apply decode_interleaved_ext; [done|]. intros t.
    by apply target_is_remote_perm. }
  unfold decode. rewrite E, I. done.
Qed.

Lemma decode_sort_equiv_witness :
  let d := add_range 8192 4096 2 true (add_range 0 4096 1 false (hdm_new RANGE_BASED)) in
  decode (sort_ranges d) 8200 = Some (mkDecodeResult 2 8 true 1) /\
  decode (sort_ranges d) 8200 = decode d 8200.
Proof.
  intros d. split; [reflexivity|]. apply (decode_sort_equiv d 8200).
  - split; [repeat constructor; cbn; lia|].
    intros i j ri rj a Hi Hj Hne. unfold range_contains.
    destruct i as [|[|i]], j as [|[|j]]; cbn in *; simplify_eq; cbn; lia.
  - intros r1 r2 H1 H2. cbn in H1, H2. set_unfold. destruct H1 as [->|[->|[]]], H2 as [->|[->|[]]]; done.
  - intros H; discriminate H.
Defined.

(** An address inside a configured range is decoded to that range: in the range-based and
    hybrid modes the decoder returns the range's target, the offset of the address within
    the range, its remoteness, and one hop exactly when it is remote. *)
Theorem decode_range_owner (d : HDMDecoder) (i : nat) (r : HDMRange) (addr : Z)
  (Hinv : hdm_inv d) (Hok : ranges_ok (ranges_ d)) (Hmode : mode_ d <> INTERLEAVED)
  (Hr : ranges_ d !! i = Some r) (Hc : range_contains r addr) (Ht : rg_target_id r <> UINT32_MAX) :
  decode d addr = Some (mkDecodeResult (rg_target_id r) (addr - rg_base_addr r) (rg_is_remote r)
                          (if rg_is_remote r then 1 else 0)).
Proof.
  assert (E : decode_range d addr = Some (range_hit r addr)).
  { rewrite decode_range_scan by auto. by rewrite (decode_scan_hit _ i r). }
  destruct (Forall_lookup_1 _ _ _ _ (proj1 Hok) Hr) as (W0 & W1 & W2).
  assert (R : range_hit r addr = mkDecodeResult (rg_target_id r) (addr - rg_base_addr r) (rg_is_remote r)
                          (if rg_is_remote r then 1 else 0)).
  { unfold range_hit. red in Hc. rewrite wrap64_small by (unfold u64; lia). done. }
  unfold decode. destruct (mode_ d); [done|congruence|]. rewrite E. cbn.
  apply Z.eqb_neq in Ht. rewrite Ht. cbn. congruence.
Qed.

Lemma decode_range_owner_witness :
  decode (add_range 4096 4096 7 true (hdm_new HYBRID)) 5000 = Some (mkDecodeResult 7 904 true 1).
Proof.
  apply (decode_range_owner (add_range 4096 4096 7 true (hdm_new HYBRID)) 0
           (mkHDMRange 4096 4096 7 true) 5000).
  - intros H; discriminate H.
  - split; [repeat constructor; cbn; lia|].
    intros i j ri rj a Hi Hj Hne. destruct i as [|i], j as [|j]; cbn in *; simplify_eq; done.
  - discriminate.
  - reflexivity.
  - unfold range_contains. cbn. lia.
  - discriminate.
Defined.

(** Interleaving is lossless: every address of the interleave region decodes to a way of
    the interleave set and an offset from which the address is recovered, the offset never
    exceeds the distance from the region's base, and when the ways are distinct two
    addresses that decode to the same target and offset are equal. *)
Theorem decode_interleaved_lossless (d : HDMDecoder) (a : Z)
  (Hwf : interleave_wf (interleave_config_ d)) (Ha : interleave_contains (interleave_config_ d) a) :
  exists (way : nat) r, decode_interleaved d a = Some r /\
    ic_target_ids (interleave_config_ d) !! way = Some (dr_target_id r) /\
    0 <= dr_local_offset r <= a - ic_base_addr (interleave_config_ d) /\
    interleave_encode (interleave_config_ d) (Z.of_nat way) (dr_local_offset r) = a /\
    (NoDup (ic_target_ids (interleave_config_ d)) ->
     forall b r', interleave_contains (interleave_config_ d) b -> decode_interleaved d b = Some r' ->
       dr_target_id r' = dr_target_id r -> dr_local_offset r' = dr_local_offset r -> b = a).
Proof.
  destruct (decode_interleaved_hit d a Hwf Ha) as (way & r & E & Hw & Ho & He).
  exists way, r. repeat split; try done; try lia.
  intros Hnd b r' Hb E' Ht Hl.
  destruct (decode_interleaved_hit d b Hwf Hb) as (way' & r'' & E'' & Hw' & _ & He').
  simplify_eq. rewrite Ht in Hw'. assert (way' = way) as -> by (eapply NoDup_lookup; eauto).
  congruence.
Qed.

Lemma decode_interleaved_lossless_witness :
  let d := configure_interleave CACHELINE_256B [3; 5] 4096 8192 (hdm_new INTERLEAVED) in
  decode_interleaved d 4900 = Some (mkDecodeResult 5 292 false 0) /\
  exists (way : nat) r, decode_interleaved d 4900 = Some r /\
    interleave_encode (interleave_config_ d) (Z.of_nat way) (dr_local_offset r) = 4900.
Proof.
  intros d. split; [reflexivity|].
  destruct (decode_interleaved_lossless d 4900) as (way & r & H1 & _ & _ & H2 & _).
  - unfold interleave_wf. cbn. repeat split; try lia. discriminate.
  - unfold interleave_contains. cbn. lia.
  - exists way, r. split; assumption.
Defined.

(** The end of a range is computed in 64 bits: a range whose end is exactly the end of the
    address space wraps to 0 and the scan never matches any address of it. *)
Theorem decode_top_range_unreachable (r : HDMRange) (addr : Z)
  (Hb : 0 <= rg_base_addr r) (Htop : rg_base_addr r + rg_size r = 2 ^ 64) (Ha : 0 <= addr) :
  decode_scan [r] addr = decode_miss.
Proof.
  cbn. unfold range_covers, wrap64. rewrite Htop, Z.mod_same by lia.
  destruct (addr <? 0) eqn:E; [zify_bool; lia|]. by rewrite andb_false_r.
Qed.

Lemma decode_top_range_unreachable_witness :
  decode_scan [mkHDMRange (2 ^ 64 - 4096) 4096 1 false] (2 ^ 64 - 10) = decode_miss.
Proof.
  apply (decode_top_range_unreachable (mkHDMRange (2 ^ 64 - 4096) 4096 1 false)); cbn; lia.
Defined.
