(* ===== verification/Double.v ===== *)
(** * The arithmetic of [double]

    Latencies, bandwidths and utilisations are C++ [double]s.  The components are written
    against the class [Double] of operations the code uses; [binary64] is the IEEE format of
    the platform (the one the program runs with), [exact] the rationals, in which the
    bounds of the latency formulas are stated. *)
From Stdlib Require Import QArith Qround Lqa.
From Stdlib Require Import SpecFloat.
From S2P Require Import Prelude.
#[local] Open Scope Z_scope.

Declare Scope double_scope.
Delimit Scope double_scope with dbl.

Class Double (D : Type) := {
  d_of_Z : Z -> D;               (* conversion from an integer type *)
  d_add : D -> D -> D;
  d_sub : D -> D -> D;
  d_mul : D -> D -> D;
  d_div : D -> D -> D;
  d_ltb : D -> D -> bool;        (* false when an operand is a NaN *)
  d_leb : D -> D -> bool;
  d_trunc : D -> Z               (* static_cast to an integer: toward zero *)
}.

Infix "⊕" := d_add (at level 50, left associativity) : double_scope.
Infix "⊖" := d_sub (at level 50, left associativity) : double_scope.
Infix "⊗" := d_mul (at level 40, left associativity) : double_scope.
Infix "⊘" := d_div (at level 40, left associativity) : double_scope.
Infix "⋖" := d_ltb (at level 70) : double_scope.
Infix "⩿" := d_leb (at level 70) : double_scope.

Section Operations.
Context {D : Type} `{Double D}.
#[local] Open Scope double_scope.

(** A decimal literal [n / d]: the quotient of two exact integers is correctly rounded. *)
Definition d_lit (n d : Z) : D := d_of_Z n ⊘ d_of_Z d.

(** [std::max] and [std::min]. *)
Definition d_max (a b : D) : D := if a ⋖ b then b else a.

Definition d_min (a b : D) : D := if b ⋖ a then b else a.

(** [static_cast<uint64_t>]; a value outside the range has no meaning in C++. *)
Definition d_to_u64 (a : D) : Z := wrap64 (d_trunc a).
End Operations.

(** ** IEEE binary64 *)
Definition f64_trunc (x : spec_float) : Z :=
  match x with
  | S754_finite s m e =>
      let v := if 0 <=? e then Z.pos m * 2 ^ e else Z.pos m / 2 ^ (- e) in
      if s then - v else v
  | _ => 0
  end.

#[global] Instance binary64 : Double spec_float := {|
  d_of_Z z := binary_normalize 53 1024 z 0 false;
  d_add := SFadd 53 1024;
  d_sub := SFsub 53 1024;
  d_mul := SFmul 53 1024;
  d_div := SFdiv 53 1024;
  d_ltb := SFltb;
  d_leb := SFleb;
  d_trunc := f64_trunc
|}.

(** ** Exact arithmetic *)
Definition q_trunc (x : Q) : Z := Z.quot (Qnum x) (Zpos (Qden x)).

Definition q_ltb (a b : Q) : bool := negb (Qle_bool b a).

#[global] Instance exact : Double Q := {|
  d_of_Z := inject_Z;
  d_add := Qplus;
  d_sub := Qminus;
  d_mul := Qmult;
  d_div := Qdiv;
  d_ltb := q_ltb;
  d_leb := Qle_bool;
  d_trunc := q_trunc
|}.

Lemma q_ltb_lt (a b : Q) : q_ltb a b = true <-> (a < b)%Q.
Proof.
  unfold q_ltb. rewrite negb_true_iff, <- not_true_iff_false, Qle_bool_iff.
  split; [apply Qnot_le_lt|apply Qlt_not_le].
Qed.

Lemma q_ltb_ge (a b : Q) : q_ltb a b = false <-> (b <= a)%Q.
Proof. unfold q_ltb. rewrite negb_false_iff. apply Qle_bool_iff. Qed.

Lemma q_leb_gt (a b : Q) : Qle_bool a b = false <-> (b < a)%Q.
Proof.
  rewrite <- not_true_iff_false, Qle_bool_iff. split; [apply Qnot_le_lt|apply Qlt_not_le].
Qed.

Lemma q_trunc_bounds (x : Q) :
  (0 <= x)%Q -> (inject_Z (q_trunc x) <= x)%Q /\ (x < inject_Z (q_trunc x) + 1)%Q /\ 0 <= q_trunc x.
Proof.
  intros H. assert (N : 0 <= Qnum x) by (unfold Qle in H; simpl in H; lia).
  assert (E : q_trunc x = Qfloor x) by (destruct x; apply Z.quot_div_nonneg; simpl in *; lia).
  rewrite E. split; [apply Qfloor_le|]. split.
  - pose proof (Qlt_floor x) as L. rewrite inject_Z_plus in L. exact L.
  - rewrite <- E. apply Z.quot_pos; simpl; lia.
Qed.

(** Comparison tests of the exact instance as propositions, its literals as fractions. *)
Ltac q_bool :=
  unfold d_lit in *;
  cbn [d_ltb d_leb d_of_Z d_add d_sub d_mul d_div exact] in *;
  repeat match goal with
  | |- context [inject_Z (Zpos ?p)] => change (inject_Z (Zpos p)) with (Zpos p # 1)%Q
  | H : context [inject_Z (Zpos ?p)] |- _ => change (inject_Z (Zpos p)) with (Zpos p # 1)%Q in H
  | |- context [inject_Z 0] => change (inject_Z 0) with 0%Q
  | H : context [inject_Z 0] |- _ => change (inject_Z 0) with 0%Q in H
  end;
  repeat match goal with
  | H : q_ltb _ _ = true |- _ => apply q_ltb_lt in H
  | H : q_ltb _ _ = false |- _ => apply q_ltb_ge in H
  | H : Qle_bool _ _ = true |- _ => apply Qle_bool_iff in H
  | H : Qle_bool _ _ = false |- _ => apply q_leb_gt in H
  end.
