(* ===== verification/LogP.v ===== *)
(** * The LogP communication model ([LogPModel] in [include/cxlendpoint.h])

    Latency of a message between two nodes: sender and receiver overhead, propagation,
    the gap between consecutive sends, and an M/D/1 estimate of queueing.  Every method
    holds [queue_mutex], so each is one atomic step on the model. *)
From Stdlib Require Import QArith Lqa SpecFloat.
From S2P Require Import Prelude Double.
#[local] Open Scope Z_scope.

Set Implicit Arguments.

Record LogPConfig (D : Type) := mkLogPConfig {
  lc_L : D;
  lc_o_s : D;
  lc_o_r : D;
  lc_g : D;
  lc_P : Z
}.

Record LogPQueueState (D : Type) := mkLogPQueueState {
  lq_arrival_rate : D;
  lq_service_rate : D;
  lq_queue_occupancy : D;
  lq_total_messages : Z;
  lq_total_wait_ns : Z;
  lq_last_send_time : Z;
  lq_last_recv_time : Z
}.

Record LogPModel (D : Type) := mkLogPModel {
  lm_config : LogPConfig D;
  lm_state : LogPQueueState D;
  lm_node_queues : gmap Z (LogPQueueState D)
}.

Unset Implicit Arguments.

Section Model.
Context {D : Type} `{Double D}.
#[local] Open Scope double_scope.

Definition logp_config_default : LogPConfig D :=
  mkLogPConfig (d_of_Z 150) (d_of_Z 20) (d_of_Z 20) (d_of_Z 4) 2.

Definition logp_queue_new : LogPQueueState D :=
  mkLogPQueueState (d_of_Z 0) (d_of_Z 0) (d_of_Z 0) 0 0 0 0.

Definition set_service_rate (mu : D) (q : LogPQueueState D) : LogPQueueState D :=
  mkLogPQueueState (lq_arrival_rate q) mu (lq_queue_occupancy q) (lq_total_messages q)
    (lq_total_wait_ns q) (lq_last_send_time q) (lq_last_recv_time q).

(** The default constructor and the one taking a configuration. *)
Definition logp_default : LogPModel D := mkLogPModel logp_config_default logp_queue_new ∅.

Definition logp_new (cfg : LogPConfig D) : LogPModel D :=
  mkLogPModel cfg (set_service_rate (d_of_Z 1 ⊘ lc_g cfg) logp_queue_new) ∅.

Definition logp_reconfigure (cfg : LogPConfig D) (m : LogPModel D) : LogPModel D :=
  mkLogPModel cfg (set_service_rate (d_of_Z 1 ⊘ lc_g cfg) (lm_state m)) ∅.

Definition p2p_latency (m : LogPModel D) : D :=
  lc_o_s (lm_config m) ⊕ lc_L (lm_config m) ⊕ lc_o_r (lm_config m).

(** [node_queues[dst_node]]: a missing entry is created. *)
Definition node_queue (m : LogPModel D) (dst : Z) : LogPQueueState D :=
  default logp_queue_new (lm_node_queues m !! dst).

Definition set_node_queue (dst : Z) (q : LogPQueueState D) (m : LogPModel D) : LogPModel D :=
  mkLogPModel (lm_config m) (lm_state m) (<[dst := q]> (lm_node_queues m)).

(** The wait that keeps consecutive sends to a node a gap apart. *)
Definition gap_wait (m : LogPModel D) (current_time dst : Z) : D :=
  let q := node_queue m dst in
  let next := d_of_Z (lq_last_send_time q) ⊕ lc_g (lm_config m) in
  if (0 <? lq_last_send_time q) && (d_of_Z current_time ⋖ next)
  then next ⊖ d_of_Z current_time else d_of_Z 0.

Definition send_delay (m : LogPModel D) (current_time dst : Z) : D * LogPModel D :=
  let q := node_queue m dst in
  let w := gap_wait m current_time dst in
  let sent := d_to_u64 (d_of_Z current_time ⊕ w ⊕ lc_o_s (lm_config m)) in
  let q' := mkLogPQueueState (lq_arrival_rate q) (lq_service_rate q) (lq_queue_occupancy q)
              (lq_total_messages q) (lq_total_wait_ns q) sent (lq_last_recv_time q) in
  (w ⊕ lc_o_s (lm_config m), set_node_queue dst q' m).

Definition queue_wait_time (m : LogPModel D) (dst : Z) : D :=
  match lm_node_queues m !! dst with
  | None => d_of_Z 0
  | Some q =>
      let rho := if d_of_Z 1 ⩿ lq_queue_occupancy q then d_lit 99 100 else lq_queue_occupancy q in
      if rho ⋖ d_lit 1 100 then d_of_Z 0
      else rho ⊘ (d_of_Z 2 ⊗ lq_service_rate (lm_state m) ⊗ (d_of_Z 1 ⊖ rho))
  end.

Definition message_latency (m : LogPModel D) (current_time dst : Z) : D * LogPModel D :=
  let '(s_delay, m') := send_delay m current_time dst in
  let q_wait := queue_wait_time m' dst in
  (s_delay ⊕ lc_L (lm_config m') ⊕ q_wait ⊕ lc_o_r (lm_config m'), m').

Definition update_arrival_rate (dst window_ns message_count : Z) (m : LogPModel D) : LogPModel D :=
  let q := node_queue m dst in
  let rate := d_of_Z message_count ⊘ d_of_Z window_ns in
  set_node_queue dst
    (mkLogPQueueState rate (lq_service_rate q) (rate ⊘ lq_service_rate (lm_state m))
       (lq_total_messages q ⊞ message_count) (lq_total_wait_ns q)
       (lq_last_send_time q) (lq_last_recv_time q)) m.

Definition record_message (dst latency_ns : Z) (m : LogPModel D) : LogPModel D :=
  let q := node_queue m dst in
  set_node_queue dst
    (mkLogPQueueState (lq_arrival_rate q) (lq_service_rate q) (lq_queue_occupancy q)
       (lq_total_messages q ⊞ 1) (lq_total_wait_ns q ⊞ latency_ns)
       (lq_last_send_time q) (lq_last_recv_time q)) m.

(** [std::ceil(std::log2(P))] of a 32-bit [P] is the integer [Z.log2_up P]. *)
Definition broadcast_latency (m : LogPModel D) : D :=
  if lc_P (lm_config m) <=? 1 then d_of_Z 0
  else d_of_Z (Z.log2_up (lc_P (lm_config m))) ⊗ p2p_latency m.

Definition barrier_latency (m : LogPModel D) : D := d_of_Z 2 ⊗ broadcast_latency m.

Definition avg_latency (m : LogPModel D) (dst : Z) : D :=
  match lm_node_queues m !! dst with
  | None => p2p_latency m
  | Some q =>
      if lq_total_messages q =? 0 then p2p_latency m
      else d_of_Z (lq_total_wait_ns q) ⊘ d_of_Z (lq_total_messages q)
  end.
End Model.

(** ** Specification *)

(** A configuration with non-negative times and a positive gap. *)
Definition logp_config_ok (c : LogPConfig Q) : Prop :=
  (0 <= lc_L c /\ 0 <= lc_o_s c /\ 0 <= lc_o_r c /\ 0 < lc_g c)%Q.

(** The model's service rate is that of its configuration. *)
Definition logp_configured (m : LogPModel Q) : Prop :=
  logp_config_ok (lm_config m) /\ (lq_service_rate (lm_state m) == 1 / lc_g (lm_config m))%Q.

(** When the sender finished handing the message to the network. *)
Definition send_done (m : LogPModel Q) (current_time dst : Z) : Q :=
  (inject_Z current_time + fst (send_delay m current_time dst))%Q.

(** ** Lemmas *)
Lemma gap_wait_nonneg (m : LogPModel Q) (t dst : Z) : (0 <= gap_wait m t dst)%Q.
Proof.
  unfold gap_wait. destruct (andb _ _) eqn:E; [|q_bool; lra].
  apply andb_true_iff in E as [_ E]. q_bool. lra.
Qed.

Lemma node_queue_set (m : LogPModel Q) (dst : Z) (q : LogPQueueState Q) :
  node_queue (set_node_queue dst q m) dst = q.
Proof. unfold node_queue, set_node_queue. cbn. by rewrite lookup_insert_eq. Qed.

Lemma gap_wait_next (m : LogPModel Q) (t dst : Z) :
  0 < lq_last_send_time (node_queue m dst) ->
  (inject_Z (lq_last_send_time (node_queue m dst)) + lc_g (lm_config m) <=
   inject_Z t + gap_wait m t dst)%Q.
Proof.
  intros Hp. unfold gap_wait. rewrite (proj2 (Z.ltb_lt _ _) Hp). cbn [andb].
  destruct (d_ltb _ _) eqn:E; q_bool; lra.
Qed.

Lemma div_nonneg_q (a b : Q) : (0 <= a)%Q -> (0 < b)%Q -> (0 <= a / b)%Q.
Proof. intros. apply Qle_shift_div_l; [done|]. lra. Qed.

Lemma mul_div_cancel_q (a b g : Q) :
  (0 < g)%Q -> (0 < b)%Q -> (a / (2 * (1 / g) * b) == (a / (2 * b)) * g)%Q.
Proof. intros. field. split; lra. Qed.

Lemma queue_wait_cases (m : LogPModel Q) (dst : Z) :
  logp_configured m ->
  (queue_wait_time m dst == 0)%Q \/
  exists rho, (1 # 100 <= rho < 1)%Q /\
    (queue_wait_time m dst == rho / (2 * (1 - rho)) * lc_g (lm_config m))%Q /\
    (forall q, lm_node_queues m !! dst = Some q -> ~ (99 # 100 < lq_queue_occupancy q < 1)%Q ->
       (rho <= 99 # 100)%Q).
Proof.
  intros [(H1 & H2 & H3 & Hg) Hmu]. unfold queue_wait_time.
  destruct (lm_node_queues m !! dst) as [q|]; [|left; q_bool; lra].
  set (rho := if d_leb _ _ then _ else _).
  assert (Hr : (rho < 1)%Q /\ (~ (99 # 100 < lq_queue_occupancy q < 1)%Q -> (rho <= 99 # 100)%Q)).
  { unfold rho. destruct (d_leb _ _) eqn:E; q_bool.
    - assert (E' : ((99 # 1) / (100 # 1) == 99 # 100)%Q) by reflexivity. rewrite E'. lra.
    - split; [lra|]. intros N. apply Qnot_lt_le. intros L. apply N. lra. }
  destruct Hr as [Hr1 Hr2]. destruct (d_ltb _ _) eqn:E; q_bool; [left; lra|right].
  assert (E' : ((1 # 1) / (100 # 1) == 1 # 100)%Q) by reflexivity. rewrite E' in E.
  exists rho. split; [lra|]. split.
  - rewrite Hmu. apply mul_div_cancel_q; lra.
  - intros q' [= <-]. done.
Qed.

Lemma wait_factor_bound (rho : Q) :
  (1 # 100 <= rho <= 99 # 100)%Q -> (0 <= rho / (2 * (1 - rho)) <= 99 # 2)%Q.
Proof.
  intros H. split.
  - apply div_nonneg_q; lra.
  - apply Qle_shift_div_r; lra.
Qed.

Lemma wait_factor_nonneg (rho : Q) :
  (1 # 100 <= rho < 1)%Q -> (0 <= rho / (2 * (1 - rho)))%Q.
Proof. intros H. apply div_nonneg_q; lra. Qed.

Lemma queue_wait_nonneg (m : LogPModel Q) (dst : Z) :
  logp_configured m -> (0 <= queue_wait_time m dst)%Q.
Proof.
  intros Hc. destruct (queue_wait_cases m dst Hc) as [E|(rho & Hr & E & _)]; [lra|].
  rewrite E. destruct Hc as [(_ & _ & _ & Hg) _].
  apply Qmult_le_0_compat; [by apply wait_factor_nonneg|lra].
Qed.

Lemma send_delay_configured (m : LogPModel Q) (t dst : Z) :
  logp_configured m -> logp_configured (snd (send_delay m t dst)).
Proof. done. Qed.

(** Gap enforcement: in exact arithmetic two consecutive sends to the same node, whatever
    their request times, are serialised by the model.  The second message is not handed to
    the network before the first one was, plus the gap and the sender overhead, up to the
    truncation of the recorded send time to whole nanoseconds. *)
Theorem logp_gap_enforced (m : LogPModel Q) (t1 t2 dst : Z)
  (Hc : logp_config_ok (lm_config m)) (Ht : 0 <= t1)
  (H1 : (1 <= send_done m t1 dst)%Q) (Hf : (send_done m t1 dst < inject_Z (2 ^ 64))%Q) :
  let m1 := snd (send_delay m t1 dst) in
  (send_done m t1 dst + lc_g (lm_config m) + lc_o_s (lm_config m) - 1 <= send_done m1 t2 dst)%Q.
Proof.
  intros m1. set (s1 := send_done m t1 dst) in *. destruct Hc as (HL & Hs & Hr & Hg).
  assert (E : lq_last_send_time (node_queue m1 dst) = wrap64 (q_trunc
     (inject_Z t1 + gap_wait m t1 dst + lc_o_s (lm_config m))%Q)).
  { unfold m1, send_delay. cbn [snd]. by rewrite node_queue_set. }
  set (x := (inject_Z t1 + gap_wait m t1 dst + lc_o_s (lm_config m))%Q) in *.
  assert (Ex : (x == s1)%Q) by (unfold x, s1, send_done, send_delay; cbn; ring).
  destruct (q_trunc_bounds x) as (B1 & B2 & B3); [lra|].
  assert (B4 : 1 <= q_trunc x < 2 ^ 64).
  { split.
    - assert (0 < q_trunc x); [|lia]. rewrite Zlt_Qlt. change (inject_Z 0) with 0%Q. lra.
    - rewrite Zlt_Qlt. lra. }
  rewrite wrap64_small in E by (unfold u64; lia).
  pose proof (gap_wait_next m1 t2 dst ltac:(rewrite E; lia)) as G. rewrite E in G.
  change (lm_config m1) with (lm_config m) in G.
  unfold send_done at 1, send_delay at 1. cbn [fst]. change (lm_config m1) with (lm_config m).
  cbn [d_add exact]. lra.
Qed.

Lemma logp_gap_enforced_witness :
  let m := logp_new (logp_config_default (D := Q)) in
  (send_done m 10 1 + 4 + 20 - 1 <= send_done (snd (send_delay m 10 1)) 12 1)%Q.
Proof.
  intros m. apply (logp_gap_enforced m 10 12 1).
  - repeat split; vm_compute; congruence.
  - lia.
  - vm_compute. congruence.
  - vm_compute. reflexivity.
Defined.

(** Latency bounds: with a configured service rate the latency of a message, in exact
    arithmetic, is at least the uncontended LogP time plus the gap wait, and exceeds it by at
    most 49.5 gaps of queueing unless the measured occupancy lies strictly between 0.99
    and 1, the interval that the cap of [queue_wait_time] leaves open. *)
Theorem logp_message_latency_bounds (m : LogPModel Q) (t dst : Z) (Hc : logp_configured m) :
  let l := fst (message_latency m t dst) in
  (p2p_latency m + gap_wait m t dst <= l)%Q /\
  (~ (99 # 100 < lq_queue_occupancy (node_queue m dst) < 1)%Q ->
   (l <= p2p_latency m + gap_wait m t dst + (99 # 2) * lc_g (lm_config m))%Q).
Proof.
  set (m' := snd (send_delay m t dst)).
  assert (El : (fst (message_latency m t dst) == p2p_latency m + gap_wait m t dst + queue_wait_time m' dst)%Q)
    by (unfold message_latency, p2p_latency; cbn; ring).
  intros l. subst l. rewrite El.
  pose proof (send_delay_configured m t dst Hc) as Hc'. fold m' in Hc'.
  pose proof (queue_wait_nonneg m' dst Hc') as N. split; [lra|]. intros Ho.
  destruct (queue_wait_cases m' dst Hc') as [E|(rho & Hr & E & Hcap)];
    destruct Hc as [(_ & _ & _ & Hg) _]; [lra|].
  assert (Hq : (rho <= 99 # 100)%Q).
  { eapply Hcap; [unfold m'; cbn; apply lookup_insert_eq|]. done. }
  pose proof (wait_factor_bound rho ltac:(lra)) as [_ W].
  change (lm_config m') with (lm_config m) in E. rewrite E.
  pose proof (Qmult_le_compat_r _ _ (lc_g (lm_config m)) W ltac:(lra)). lra.
Qed.

Lemma logp_message_latency_bounds_witness :
  let m := update_arrival_rate 1 100 5 (logp_new (logp_config_default (D := Q))) in
  (p2p_latency m + gap_wait m 10 1 <= fst (message_latency m 10 1))%Q.
Proof.
  intros m. refine (proj1 (logp_message_latency_bounds m 10 1 _)).
  split; [|reflexivity]. repeat split; vm_compute; congruence.
Defined.

(** A model left in its default-constructed state has service rate 0: as soon as traffic
    is reported for a node, the IEEE latency of every message to it is infinite, although
    the code caps the occupancy to prevent an infinite wait. *)
Theorem logp_default_latency_infinite (t : Z) :
  fst (message_latency (update_arrival_rate 1 100 5 (logp_default (D := spec_float))) t 1)
  = S754_infinity false.
Proof.
  assert (E : gap_wait (update_arrival_rate 1 100 5 (logp_default (D := spec_float))) t 1 = S754_zero false)
    by reflexivity.
  unfold message_latency, send_delay. rewrite E. reflexivity.
Qed.
