(* ===== verification/Fabric.v ===== *)
(** * Inter-node links and shared data of the coherence components
    ([include/cxlendpoint.h], [src/cxlendpoint.cpp])

    The MOESI states, the per-head record, and [FabricLink] with its credit-based flow
    control.  [calculate_traversal_latency] holds [link_mutex_]; the credit counter is a
    lock-free atomic, whose loops are also given as interleaved steps ([credit_step]). *)
From Stdlib Require Import QArith Lqa.
From S2P Require Import Prelude Double.
#[local] Open Scope Z_scope.

Inductive MHSLDCacheState := INVALID | SHARED | EXCLUSIVE | MODIFIED | OWNED.

#[global] Instance MHSLDCacheState_eq_dec : EqDecision MHSLDCacheState.
Proof. solve_decision. Defined.

Set Implicit Arguments.

Record MHSLDHeadState (D : Type) := mkHead {
  hd_head_id : Z;
  hd_allocated_capacity : Z;
  hd_used_capacity : Z;
  hd_bandwidth_share : D;
  hd_total_reads : Z;
  hd_total_writes : Z;
  hd_coherency_stalls : Z;
  hd_back_invalidations : Z;
  hd_active : bool
}.

Record FabricLinkConfig (D : Type) := mkFabricLinkConfig {
  fc_latency_ns : D;
  fc_bandwidth_gbps : D;
  fc_max_credits : Z
}.

Record FabricLink (D : Type) := mkFabricLink {
  fl_config : FabricLinkConfig D;
  fl_src_node : Z;
  fl_dst_node : Z;
  fl_available_credits : Z;
  fl_in_flight_flits : Z;
  fl_last_flit_time : Z
}.

Unset Implicit Arguments.

Section Link.
Context {D : Type} `{Double D}.
#[local] Open Scope double_scope.

Definition head_new : MHSLDHeadState D := mkHead 0 0 0 (d_of_Z 1) 0 0 0 0 false.

(** Active heads, and active heads that have seen traffic. *)
Definition active_heads (hs : list (MHSLDHeadState D)) : Z :=
  Z.of_nat (length (filter (fun h => hd_active h = true) hs)).

Definition contending_heads (hs : list (MHSLDHeadState D)) : Z :=
  Z.of_nat (length (filter (fun h => hd_active h && (0 <? (hd_total_reads h ⊞ hd_total_writes h)) = true) hs)).

Definition fabric_link_new (src dst : Z) (cfg : FabricLinkConfig D) : FabricLink D :=
  mkFabricLink cfg src dst (fc_max_credits cfg) 0 0.

Definition set_credits (c : Z) (l : FabricLink D) : FabricLink D :=
  mkFabricLink (fl_config l) (fl_src_node l) (fl_dst_node l) c
    (fl_in_flight_flits l) (fl_last_flit_time l).

Definition get_utilization (l : FabricLink D) : D :=
  d_of_Z 1 ⊖ (d_of_Z (fl_available_credits l) ⊘ d_of_Z (fc_max_credits (fl_config l))).

Definition get_congestion_delay (l : FabricLink D) : D :=
  let utilization := d_of_Z 1 ⊖ (d_of_Z (fl_available_credits l) ⊘ d_of_Z (fc_max_credits (fl_config l))) in
  if utilization ⋖ d_lit 5 10 then d_of_Z 0
  else if utilization ⋖ d_lit 8 10 then (utilization ⊖ d_lit 5 10) ⊘ d_lit 3 10 ⊗ d_of_Z 20
  else d_of_Z 20 ⊕ (utilization ⊖ d_lit 8 10) ⊘ d_lit 2 10 ⊗ d_of_Z 80.

Definition calculate_traversal_latency (l : FabricLink D) (timestamp data_size : Z) : D * FabricLink D :=
  let serialization_ns :=
    d_of_Z data_size ⊘ (fc_bandwidth_gbps (fl_config l) ⊗ d_of_Z 1000000000) ⊗ d_of_Z 1000000000 in
  let latency := fc_latency_ns (fl_config l) ⊕ serialization_ns ⊕ get_congestion_delay l in
  (latency, mkFabricLink (fl_config l) (fl_src_node l) (fl_dst_node l) (fl_available_credits l)
              (fl_in_flight_flits l ⊞ 1) timestamp).

(** The credit operations run without interference. *)
Definition link_acquire_credit (l : FabricLink D) : bool * FabricLink D :=
  if 0 <? fl_available_credits l then (true, set_credits (fl_available_credits l - 1) l) else (false, l).

Definition link_release_credit (l : FabricLink D) : FabricLink D :=
  if fl_available_credits l <? fc_max_credits (fl_config l)
  then set_credits (fl_available_credits l ⊞ 1) l else l.
End Link.

(** ** The credit loops, one atomic access per step

    A thread is outside the operations, or inside [acquire_credit] or [release_credit] with
    the value it loaded; it also has the number of credits it holds. *)
Inductive credit_pc := CIdle | CAcquire (current : Z) | CRelease (current : Z).

Record credit_thread := mkCreditThread { ct_pc : credit_pc; ct_held : Z }.

Record credit_state := mkCreditState { cs_credits : Z; cs_threads : list credit_thread }.

Inductive credit_step (max_credits : Z) : credit_state -> credit_state -> Prop :=
| step_acquire_load c ts i h :
    ts !! i = Some (mkCreditThread CIdle h) ->
    credit_step max_credits (mkCreditState c ts)
      (mkCreditState c (<[i := mkCreditThread (CAcquire c) h]> ts))
| step_acquire_fail c ts i h :
    ts !! i = Some (mkCreditThread (CAcquire 0) h) ->
    credit_step max_credits (mkCreditState c ts)
      (mkCreditState c (<[i := mkCreditThread CIdle h]> ts))
| step_acquire_cas c ts i h :
    0 < c -> ts !! i = Some (mkCreditThread (CAcquire c) h) ->
    credit_step max_credits (mkCreditState c ts)
      (mkCreditState (c - 1) (<[i := mkCreditThread CIdle (h + 1)]> ts))
| step_acquire_retry c ts i cur h :
    (* a lost race or a spurious failure of the weak exchange reloads [current] *)
    0 < cur -> ts !! i = Some (mkCreditThread (CAcquire cur) h) ->
    credit_step max_credits (mkCreditState c ts)
      (mkCreditState c (<[i := mkCreditThread (CAcquire c) h]> ts))
| step_release_load c ts i h :
    0 < h -> ts !! i = Some (mkCreditThread CIdle h) ->
    credit_step max_credits (mkCreditState c ts)
      (mkCreditState c (<[i := mkCreditThread (CRelease c) h]> ts))
| step_release_add c ts i cur h :
    cur < max_credits -> ts !! i = Some (mkCreditThread (CRelease cur) h) ->
    credit_step max_credits (mkCreditState c ts)
      (mkCreditState (c + 1) (<[i := mkCreditThread CIdle (h - 1)]> ts))
| step_release_skip c ts i cur h :
    max_credits <= cur -> ts !! i = Some (mkCreditThread (CRelease cur) h) ->
    credit_step max_credits (mkCreditState c ts)
      (mkCreditState c (<[i := mkCreditThread CIdle (h - 1)]> ts)).

Definition credit_init (max_credits : Z) (n : nat) : credit_state :=
  mkCreditState max_credits (replicate n (mkCreditThread CIdle 0)).

(** ** Specification *)
Fixpoint credits_held (ts : list credit_thread) : Z :=
  match ts with
  | [] => 0
  | t :: ts' => ct_held t + credits_held ts'
  end.

(** No thread holds a negative number of credits; one inside [release_credit] holds a
    credit and has seen a counter below the maximum. *)
Definition thread_ok (max_credits : Z) (t : credit_thread) : Prop :=
  0 <= ct_held t /\
  match ct_pc t with
  | CRelease cur => 0 < ct_held t /\ cur < max_credits
  | _ => True
  end.

Definition credit_inv (max_credits : Z) (s : credit_state) : Prop :=
  0 <= cs_credits s /\ cs_credits s + credits_held (cs_threads s) = max_credits /\
  Forall (thread_ok max_credits) (cs_threads s).

(** ** Lemmas *)
Lemma credits_held_insert (ts : list credit_thread) (i : nat) (t t' : credit_thread) :
  ts !! i = Some t -> credits_held (<[i := t']> ts) = credits_held ts - ct_held t + ct_held t'.
Proof.
  revert i. induction ts as [|x ts IH]; intros [|i] Hi; [done..|cbn in *; simplify_eq; lia|].
  change (ct_held x + credits_held (<[i := t']> ts) = ct_held x + credits_held ts - ct_held t + ct_held t').
  rewrite (IH i Hi). lia.
Qed.

Lemma credits_held_nonneg (m : Z) (ts : list credit_thread) :
  Forall (thread_ok m) ts -> 0 <= credits_held ts.
Proof. induction 1 as [|t ts [Ht _] _ IH]; cbn; lia. Qed.

Lemma credits_held_ge (m : Z) (ts : list credit_thread) (i : nat) (t : credit_thread) :
  Forall (thread_ok m) ts -> ts !! i = Some t -> ct_held t <= credits_held ts.
Proof.
  intros H. revert i. induction H as [|x ts Hx Hts IH]; intros [|i] Hi; cbn in *; simplify_eq.
  - pose proof (credits_held_nonneg m ts Hts). lia.
  - pose proof (IH i Hi). destruct Hx. lia.
Qed.

Lemma credit_step_inv (m : Z) (s s' : credit_state) :
  credit_inv m s -> credit_step m s s' -> credit_inv m s'.
Proof.
  intros (Hc & Hs & Hts) Hstep. destruct Hstep as [c ts i h Hi|c ts i h Hi|c ts i h Hp Hi|c ts i cur h Hp Hi
    |c ts i h Hp Hi|c ts i cur h Hp Hi|c ts i cur h Hp Hi]; cbn [cs_credits cs_threads] in *;
    pose proof (Forall_lookup_1 _ _ _ _ Hts Hi) as [K1 K2]; cbn in K1, K2;
    pose proof (credits_held_ge m ts i _ Hts Hi) as Kh; cbn in Kh;
    unfold credit_inv; cbn [cs_credits cs_threads];
    rewrite (credits_held_insert _ _ _ _ Hi); cbn [ct_held];
    repeat split; try lia; apply Forall_insert; try done; unfold thread_ok; cbn; lia.
Qed.

(** The link configurations and loads for which the congestion formula is meant. *)
Definition link_ok (l : FabricLink Q) : Prop :=
  0 <= fl_available_credits l <= fc_max_credits (fl_config l) /\ 0 < fc_max_credits (fl_config l).

(** The congestion delay as a function of utilisation. *)
Definition congestion_curve (u : Q) : Q :=
  (if q_ltb u (5 # 10) then 0
   else if q_ltb u (8 # 10) then (u - (5 # 10)) / (3 # 10) * 20
   else 20 + (u - (8 # 10)) / (2 # 10) * 80)%Q.

Lemma congestion_delay_curve (l : FabricLink Q) :
  (get_congestion_delay l == congestion_curve (get_utilization l))%Q.
Proof. reflexivity. Qed.

Lemma congestion_curve_mono (u v : Q) : (u <= v)%Q -> (congestion_curve u <= congestion_curve v)%Q.
Proof.
  intros Huv. unfold congestion_curve, Qdiv. change (/ (3 # 10))%Q with (10 # 3)%Q.
  change (/ (2 # 10))%Q with (10 # 2)%Q.
  destruct (q_ltb u (5 # 10)) eqn:E1, (q_ltb v (5 # 10)) eqn:E2, (q_ltb u (8 # 10)) eqn:E3,
    (q_ltb v (8 # 10)) eqn:E4; q_bool; lra.
Qed.

Lemma utilization_range (l : FabricLink Q) : link_ok l -> (0 <= get_utilization l <= 1)%Q.
Proof.
  intros [[H0 H1] Hm]. unfold get_utilization. cbn [d_sub d_div d_of_Z exact].
  change (inject_Z 1) with 1%Q.
  rewrite Zle_Qle in H0, H1. rewrite Zlt_Qlt in Hm. change (inject_Z 0) with 0%Q in *.
  assert (A : (inject_Z (fl_available_credits l) / inject_Z (fc_max_credits (fl_config l)) <= 1)%Q)
    by (apply Qle_shift_div_r; lra).
  assert (B : (0 <= inject_Z (fl_available_credits l) / inject_Z (fc_max_credits (fl_config l)))%Q)
    by (apply Qle_shift_div_l; lra).
  lra.
Qed.

(** Credits are conserved under every interleaving: for any number of threads running
    [acquire_credit] and [release_credit] on one link, each releasing only credits it
    holds, the counter and the credits held always add up to [max_credits], the counter
    stays in range, and the guard of [release_credit] never drops a credit. *)
Theorem fabric_credits_conserved (max_credits : Z) (n : nat) (s : credit_state)
  (Hmax : 0 <= max_credits)
  (Hr : rtc (credit_step max_credits) (credit_init max_credits n) s) :
  0 <= cs_credits s <= max_credits /\
  cs_credits s + credits_held (cs_threads s) = max_credits /\
  (forall i cur h, cs_threads s !! i = Some (mkCreditThread (CRelease cur) h) -> cur < max_credits).
Proof.
  assert (I : credit_inv max_credits s).
  { remember (credit_init max_credits n) as s0 eqn:E0.
    assert (I0 : credit_inv max_credits s0).
    { subst s0. unfold credit_inv, credit_init. cbn. split; [done|]. split.
      - clear. assert (E : credits_held (replicate n (mkCreditThread CIdle 0)) = 0); [|lia].
        induction n as [|n IH]; [done|exact IH].
      - apply Forall_replicate. split; cbn; done. }
    clear E0. induction Hr; eauto using credit_step_inv. }
  destruct I as (H0 & Hs & Ht). pose proof (credits_held_nonneg _ _ Ht). repeat split; try lia.
  intros i cur h Hi. destruct (Forall_lookup_1 _ _ _ _ Ht Hi) as [_ K]. cbn in K. lia.
Qed.

Lemma fabric_credits_conserved_witness :
  exists s, cs_credits s = 0 /\ cs_credits s + credits_held (cs_threads s) = 1.
Proof.
  set (s1 := mkCreditState 1 [mkCreditThread (CAcquire 1) 0; mkCreditThread CIdle 0]).
  set (s2 := mkCreditState 0 [mkCreditThread CIdle 1; mkCreditThread CIdle 0]).
  exists s2. split; [reflexivity|].
  apply (fabric_credits_conserved 1 2 s2); [lia|].
  apply rtc_l with s1; [apply (step_acquire_load 1 1 (replicate 2 (mkCreditThread CIdle 0)) 0 0); reflexivity|].
  apply rtc_once. apply (step_acquire_cas 1 1 (cs_threads s1) 0 0); [lia|reflexivity].
Defined.

(** Congestion delay: in exact arithmetic it lies between 0 and 100 ns and a link with
    fewer credits left never reports a smaller delay than one with more. *)
Theorem fabric_congestion_bounds (l l' : FabricLink Q)
  (Hl : link_ok l) (Hl' : link_ok l') (Hcfg : fl_config l' = fl_config l)
  (Hle : fl_available_credits l' <= fl_available_credits l) :
  (0 <= get_congestion_delay l <= 100)%Q /\ (get_congestion_delay l <= get_congestion_delay l')%Q.
Proof.
  pose proof (utilization_range l Hl) as [U0 U1]. rewrite !congestion_delay_curve.
  split; [split|].
  - assert (E : (congestion_curve 0 == 0)%Q) by reflexivity. rewrite <- E.
    by apply congestion_curve_mono.
  - assert (E : (congestion_curve 1 == 100)%Q) by reflexivity. rewrite <- E.
    by apply congestion_curve_mono.
  - apply congestion_curve_mono. unfold get_utilization. rewrite Hcfg. cbn [d_sub d_div d_of_Z exact].
    destruct Hl as [_ Hm]. rewrite Zlt_Qlt in Hm. rewrite Zle_Qle in Hle.
    assert (inject_Z (fl_available_credits l') / inject_Z (fc_max_credits (fl_config l)) <=
            inject_Z (fl_available_credits l) / inject_Z (fc_max_credits (fl_config l)))%Q;
      [|lra].
    unfold Qdiv. apply Qmult_le_compat_r; [done|]. apply Qinv_le_0_compat. apply Qlt_le_weak. exact Hm.
Qed.

Lemma fabric_congestion_bounds_witness :
  let l := set_credits 8 (fabric_link_new 0 1 (mkFabricLinkConfig (50 : Q) (25 : Q) 32)) in
  let l' := set_credits 0 l in
  (get_congestion_delay l == 50 # 3)%Q /\ (get_congestion_delay l' == 100)%Q /\
  (get_congestion_delay l <= get_congestion_delay l')%Q.
Proof.
  intros l l'. split; [reflexivity|]. split; [reflexivity|].
  apply (fabric_congestion_bounds l l').
  - split; cbn; lia.
  - split; cbn; lia.
  - reflexivity.
  - cbn. lia.
Defined.
