(* ===== verification/Moesi.v ===== *)
(** * The MOESI protocol seen from the nodes

    Two directories of the system track cachelines with the states of [MHSLDCacheState]: the
    distributed engine (nodes) and the multi-headed device (heads).  Both are instances of
    [MoesiLine]; what a node may do with a line is read off a directory entry by
    [node_view], and the protocol that both must follow is [moesi_step] on these views. *)
From S2P Require Import Prelude Fabric.

Class MoesiLine (E : Type) := {
  ml_state : E -> MHSLDCacheState;
  ml_owner : E -> Z;
  ml_sharers : E -> gset Z
}.

(** The states of an owner that make its copy more than a shared one. *)
Definition owned_state (s : MHSLDCacheState) : bool :=
  match s with EXCLUSIVE | MODIFIED | OWNED => true | _ => false end.

(** The state in which node [n] holds the line. *)
Definition node_view `{MoesiLine E} (e : E) (n : Z) : MHSLDCacheState :=
  if (ml_owner e =? n) && owned_state (ml_state e) then ml_state e
  else if decide (n ∈ ml_sharers e) then SHARED else INVALID.

(** Which states two different nodes may have at once. *)
Definition compatible (s t : MHSLDCacheState) : bool :=
  match s, t with
  | INVALID, _ | _, INVALID => true
  | SHARED, SHARED | SHARED, OWNED | OWNED, SHARED => true
  | _, _ => false
  end.

(** What a holder becomes when another node reads the line. *)
Definition snoop_read (s : MHSLDCacheState) : MHSLDCacheState :=
  match s with MODIFIED => OWNED | EXCLUSIVE => SHARED | _ => s end.

(** What a reader becomes. *)
Definition gain_read (s : MHSLDCacheState) : MHSLDCacheState :=
  match s with INVALID => SHARED | _ => s end.

(** One step of the protocol on one line; views are functions from nodes to states. *)
Inductive moesi_step (s s' : Z -> MHSLDCacheState) : Prop :=
| moesi_read n :
    s' n = gain_read (s n) -> (forall m, m <> n -> s' m = snoop_read (s m)) -> moesi_step s s'
| moesi_write n :
    s' n = MODIFIED -> (forall m, m <> n -> s' m = INVALID) -> moesi_step s s'
| moesi_drop n :
    s' n = INVALID -> (forall m, m <> n -> s' m = s m) -> moesi_step s s'
| moesi_downgrade n :
    s' n = snoop_read (s n) -> (forall m, m <> n -> s' m = s m) -> moesi_step s s'
| moesi_stutter : (forall m, s' m = s m) -> moesi_step s s'.

(** A directory entry that keeps exclusive copies exclusive. *)
Definition line_coherent `{MoesiLine E} (e : E) : Prop :=
  match ml_state e with
  | MODIFIED | EXCLUSIVE => ml_sharers e = ∅
  | OWNED => ml_owner e ∉ ml_sharers e
  | _ => True
  end.

(** ** Lemmas *)
Section Views.
Context `{MoesiLine E}.
Implicit Types e : E.

Lemma node_view_owner e : owned_state (ml_state e) = true -> node_view e (ml_owner e) = ml_state e.
Proof. intros O. unfold node_view. by rewrite Z.eqb_refl, O. Qed.

Lemma node_view_other e (n : Z) :
  ml_owner e <> n \/ owned_state (ml_state e) = false ->
  node_view e n = if decide (n ∈ ml_sharers e) then SHARED else INVALID.
Proof.
  intros [Hn|O]; unfold node_view; [|by rewrite O, andb_false_r].
  apply Z.eqb_neq in Hn. by rewrite Hn.
Qed.

(** A node without access is neither an owner nor a sharer. *)
Lemma node_view_invalid e (n : Z) :
  node_view e n = INVALID ->
  n ∉ ml_sharers e /\ (owned_state (ml_state e) = true -> ml_owner e <> n).
Proof.
  unfold node_view. destruct (Z.eqb_spec (ml_owner e) n) as [->|Hn], (owned_state (ml_state e)) eqn:O;
    cbn; intros Hv; try case_decide; try done.
  rewrite Hv in O. done.
Qed.

Lemma line_compatible e (n m : Z) :
  line_coherent e -> n <> m -> compatible (node_view e n) (node_view e m) = true.
Proof.
  intros Hc Hne. unfold node_view, line_coherent in *.
  destruct (ml_state e) eqn:S; cbn; rewrite ?andb_false_r, ?andb_true_r; try (by repeat case_decide);
    destruct (Z.eqb_spec (ml_owner e) n), (Z.eqb_spec (ml_owner e) m); subst; try done;
    try rewrite Hc; repeat case_decide; set_solver.
Qed.

(** Removing a node that is not another owner from the sharers leaves the other views. *)
Lemma node_view_remove e e' (n m : Z) :
  ml_sharers e' = ml_sharers e ∖ {[n]} -> m <> n ->
  (ml_owner e' = ml_owner e /\ ml_state e' = ml_state e \/
   owned_state (ml_state e') = false /\ (owned_state (ml_state e) = true -> ml_owner e = n)) ->
  node_view e' m = node_view e m.
Proof.
  intros Hs Hm Hc.
  assert (Hd : (if decide (m ∈ ml_sharers e') then SHARED else INVALID) =
               if decide (m ∈ ml_sharers e) then SHARED else INVALID)
    by (rewrite Hs; repeat case_decide; set_solver).
  destruct Hc as [[Ho He]|[He Ho]].
  - unfold node_view. by rewrite Ho, He, Hd.
  - rewrite (node_view_other e') by auto. rewrite Hd. symmetry. apply node_view_other.
    destruct (owned_state (ml_state e)); [left; rewrite Ho; auto|by right].
Qed.

(** The line held by [n] alone, for writing. *)
Lemma exclusive_views e (n : Z) :
  ml_state e = MODIFIED -> ml_owner e = n -> ml_sharers e = ∅ ->
  node_view e n = MODIFIED /\ (forall m, m <> n -> node_view e m = INVALID).
Proof.
  intros Hs Ho Hsh. split.
  - rewrite <- Ho, node_view_owner; [done|]. by rewrite Hs.
  - intros m Hm. rewrite node_view_other by (left; congruence). rewrite Hsh.
    rewrite decide_False; [done|set_solver].
Qed.

(** A read miss: the reader joins the sharers, a modified owner becomes owned. *)
Lemma read_miss_views e e' (n : Z) :
  line_coherent e -> node_view e n = INVALID -> ml_state e <> EXCLUSIVE ->
  ml_sharers e' = {[n]} ∪ ml_sharers e ->
  (owned_state (ml_state e) = true -> ml_owner e' = ml_owner e /\ ml_state e' = OWNED) ->
  (owned_state (ml_state e) = false -> owned_state (ml_state e') = false) ->
  node_view e' n = SHARED /\ (forall m, m <> n -> node_view e' m = snoop_read (node_view e m)).
Proof.
  intros Hc Hv Hne Hs Ho Hn. destruct (node_view_invalid e n Hv) as [Hns How].
  assert (Hd : forall m, m <> n -> (if decide (m ∈ ml_sharers e') then SHARED else INVALID) =
               if decide (m ∈ ml_sharers e) then SHARED else INVALID)
    by (intros m Hm; rewrite Hs; repeat case_decide; set_solver).
  destruct (owned_state (ml_state e)) eqn:O.
  - destruct (Ho eq_refl) as [Ho1 Ho2]. specialize (How eq_refl). split.
    + rewrite node_view_other by (left; congruence). rewrite decide_True by set_solver. done.
    + intros m Hm. unfold node_view. rewrite Ho1, Ho2, O, (Hd m Hm).
      destruct (ml_owner e =? m); cbn; [by destruct (ml_state e)|by case_decide].
  - specialize (Hn eq_refl). split.
    + rewrite node_view_other by auto. rewrite decide_True by set_solver. done.
    + intros m Hm. rewrite (node_view_other e'), (node_view_other e) by auto. rewrite (Hd m Hm).
      by case_decide.
Qed.
End Views.

(** With a compatible reader present, nobody is left to be downgraded. *)
Lemma compatible_snoop (s t : MHSLDCacheState) :
  compatible s t = true -> s <> INVALID -> snoop_read t = t.
Proof. destruct s, t; done. Qed.
