(* ===== verification/CoherencyEngine.v ===== *)
(** * The distributed MOESI directory ([include/coherency_engine.h], [src/coherency_engine.cpp])

    One directory entry per cacheline records the state, the owner and the sharers of the
    line.  Reads, writes and atomics are requests of nodes; invalidations, downgrades and
    writebacks arrive from other nodes.  A handler holds the entry's lock from its first to
    its last access of the entry, so it is one step on the entry.  Everything that a
    handler touches beside the entry (latency models, links, heads, counters) is the
    [EngineEnv]; it influences latencies and statistics only. *)
From Stdlib Require Import SpecFloat.
From S2P Require Import Prelude Double LogP Fabric Moesi.
#[local] Open Scope Z_scope.

Record DirectoryEntry := mkDirectoryEntry {
  de_cacheline_addr : Z;
  de_state : MHSLDCacheState;
  de_owner_node : Z;
  de_owner_head : Z;
  de_sharer_nodes : gset Z;
  de_version : Z;
  de_last_access_time : Z;
  de_has_dirty_data : bool
}.

Record CoherencyRequest := mkCoherencyRequest {
  rq_addr : Z;
  rq_requesting_node : Z;
  rq_requesting_head : Z;
  rq_is_write : bool;
  rq_timestamp : Z
}.

Record EngineCounters := mkEngineCounters {
  total_coherency_messages_ : Z;
  total_invalidations_ : Z;
  total_downgrades_ : Z;
  total_writebacks_ : Z;
  total_remote_ops_ : Z;
  total_latency_ns_ : Z;
  total_ops_ : Z
}.

Set Implicit Arguments.

Record CoherencyResponse (D : Type) := mkCoherencyResponse {
  rs_latency_ns : D;
  rs_new_state : MHSLDCacheState;
  rs_success : bool;
  rs_data_source_node : Z
}.

Record EngineEnv (D : Type) := mkEngineEnv {
  ee_local_node_id : Z;
  ee_logp_model : option (LogPModel D);
  ee_bandwidth_gbps : D;
  ee_fabric_links : gmap Z (FabricLink D);
  ee_heads : list (MHSLDHeadState D);
  ee_counters : EngineCounters
}.

Record CoherencyEngine (D : Type) := mkCoherencyEngine {
  ce_env : EngineEnv D;
  ce_directory : gmap Z DirectoryEntry
}.

Record EngineStats (D : Type) := mkEngineStats {
  es_coherency_messages : Z;
  es_invalidations : Z;
  es_downgrades : Z;
  es_writebacks : Z;
  es_remote_ops : Z;
  es_avg_coherency_latency : D
}.

Unset Implicit Arguments.

(** ** Field updates *)
Definition de_touch (ts : Z) (e : DirectoryEntry) : DirectoryEntry :=
  mkDirectoryEntry (de_cacheline_addr e) (de_state e) (de_owner_node e) (de_owner_head e)
    (de_sharer_nodes e) (de_version e) ts (de_has_dirty_data e).

Definition de_bump_version (e : DirectoryEntry) : DirectoryEntry :=
  mkDirectoryEntry (de_cacheline_addr e) (de_state e) (de_owner_node e) (de_owner_head e)
    (de_sharer_nodes e) (wrap32 (de_version e + 1)) (de_last_access_time e) (de_has_dirty_data e).

Definition de_set_state (s : MHSLDCacheState) (e : DirectoryEntry) : DirectoryEntry :=
  mkDirectoryEntry (de_cacheline_addr e) s (de_owner_node e) (de_owner_head e)
    (de_sharer_nodes e) (de_version e) (de_last_access_time e) (de_has_dirty_data e).

Definition de_set_owner (n h : Z) (e : DirectoryEntry) : DirectoryEntry :=
  mkDirectoryEntry (de_cacheline_addr e) (de_state e) n h
    (de_sharer_nodes e) (de_version e) (de_last_access_time e) (de_has_dirty_data e).

Definition de_set_sharers (s : gset Z) (e : DirectoryEntry) : DirectoryEntry :=
  mkDirectoryEntry (de_cacheline_addr e) (de_state e) (de_owner_node e) (de_owner_head e)
    s (de_version e) (de_last_access_time e) (de_has_dirty_data e).

Definition de_set_dirty (b : bool) (e : DirectoryEntry) : DirectoryEntry :=
  mkDirectoryEntry (de_cacheline_addr e) (de_state e) (de_owner_node e) (de_owner_head e)
    (de_sharer_nodes e) (de_version e) (de_last_access_time e) b.

Definition de_add_sharer (n : Z) (e : DirectoryEntry) : DirectoryEntry :=
  de_set_sharers ({[n]} ∪ de_sharer_nodes e) e.

(** Counter increments, by the counters that the code increments together. *)
Definition counters_add (msgs inv down wb : Z) (c : EngineCounters) : EngineCounters :=
  mkEngineCounters (total_coherency_messages_ c ⊞ msgs) (total_invalidations_ c ⊞ inv)
    (total_downgrades_ c ⊞ down) (total_writebacks_ c ⊞ wb) (total_remote_ops_ c)
    (total_latency_ns_ c) (total_ops_ c).

Definition counters_op (remote : bool) (lat : Z) (c : EngineCounters) : EngineCounters :=
  mkEngineCounters (total_coherency_messages_ c) (total_invalidations_ c)
    (total_downgrades_ c) (total_writebacks_ c)
    (if remote then total_remote_ops_ c ⊞ 1 else total_remote_ops_ c)
    (total_latency_ns_ c ⊞ lat) (total_ops_ c ⊞ 1).

(** [DirectoryEntry()] followed by the assignment of [cacheline_addr]. *)
Definition directory_entry_new (cl_addr : Z) : DirectoryEntry :=
  mkDirectoryEntry cl_addr INVALID UINT32_MAX UINT32_MAX ∅ 0 0 false.

Section Engine.
Context {D : Type} `{Double D}.
#[local] Open Scope double_scope.

Definition ee_set_counters (f : EngineCounters -> EngineCounters) (v : EngineEnv D) : EngineEnv D :=
  mkEngineEnv (ee_local_node_id v) (ee_logp_model v) (ee_bandwidth_gbps v) (ee_fabric_links v)
    (ee_heads v) (f (ee_counters v)).

Definition ee_set_logp (m : option (LogPModel D)) (v : EngineEnv D) : EngineEnv D :=
  mkEngineEnv (ee_local_node_id v) m (ee_bandwidth_gbps v) (ee_fabric_links v)
    (ee_heads v) (ee_counters v).

Definition ee_set_links (ls : gmap Z (FabricLink D)) (v : EngineEnv D) : EngineEnv D :=
  mkEngineEnv (ee_local_node_id v) (ee_logp_model v) (ee_bandwidth_gbps v) ls
    (ee_heads v) (ee_counters v).

Definition ee_set_heads (hs : list (MHSLDHeadState D)) (v : EngineEnv D) : EngineEnv D :=
  mkEngineEnv (ee_local_node_id v) (ee_logp_model v) (ee_bandwidth_gbps v) (ee_fabric_links v)
    hs (ee_counters v).

(** The constructor: [max_heads] inactive heads with no bandwidth share. *)
Definition engine_head (i : nat) : MHSLDHeadState D :=
  mkHead (Z.of_nat i) 0 0 (d_of_Z 0) 0 0 0 0 false.

Definition engine_new (local_node : Z) (logp : option (LogPModel D)) (max_heads : nat)
    (bandwidth_gbps : D) : CoherencyEngine D :=
  mkCoherencyEngine
    (mkEngineEnv local_node logp bandwidth_gbps ∅ (engine_head <$> seq 0 max_heads)
       (mkEngineCounters 0 0 0 0 0 0 0)) ∅.

(** The entry that [get_or_create_entry] returns; the handler stores it back. *)
Definition engine_entry (g : CoherencyEngine D) (addr : Z) : DirectoryEntry :=
  let cl_addr := line_of addr in
  match ce_directory g !! cl_addr with
  | Some e => e
  | None => directory_entry_new cl_addr
  end.

Definition engine_store (addr : Z) (e : DirectoryEntry) (v : EngineEnv D) (g : CoherencyEngine D) :
    CoherencyEngine D :=
  mkCoherencyEngine v (<[line_of addr := e]> (ce_directory g)).

Definition calculate_coherency_msg_latency (target ts : Z) (v : EngineEnv D) : D * EngineEnv D :=
  let '(latency, v1) :=
    match ee_fabric_links v !! target with
    | Some link =>
        let '(t, link') := calculate_traversal_latency link ts CACHELINE_SIZE in
        (d_of_Z 0 ⊕ t, ee_set_links (<[target := link']> (ee_fabric_links v)) v)
    | None => (d_of_Z 0, v)
    end in
  match ee_logp_model v1 with
  | Some m =>
      if negb (target =? ee_local_node_id v1) then
        let '(t, m') := message_latency m ts target in
        (latency ⊕ t, ee_set_logp (Some m') v1)
      else (latency, v1)
  | None => (latency, v1)
  end.

Definition calculate_contention_latency (head_id : Z) (v : EngineEnv D) : D :=
  match ee_heads v !! Z.to_nat head_id with
  | None => d_of_Z 0
  | Some hd =>
      if negb (hd_active hd) then d_of_Z 0
      else if contending_heads (ee_heads v) <=? 1 then d_of_Z 0
      else
        let fair_share := if hd_bandwidth_share hd ⩿ d_of_Z 0
          then d_of_Z 1 ⊘ d_of_Z (contending_heads (ee_heads v)) else hd_bandwidth_share hd in
        let contention_factor := d_lit 3 10 in
        let base_latency := d_of_Z 100 in
        let additional := base_latency ⊗ (d_of_Z 1 ⊘ fair_share ⊖ d_of_Z 1) ⊗ contention_factor in
        d_min additional (base_latency ⊗ d_of_Z 5)
  end.

(** The loop of [invalidate_sharers] over the sharers to invalidate. *)
Fixpoint invalidate_loop (sharers : list Z) (ts : Z) (max_latency accumulated_gap : D)
    (v : EngineEnv D) : D * EngineEnv D :=
  match sharers with
  | [] => (max_latency, v)
  | sharer :: rest =>
      let '(m, v1) := calculate_coherency_msg_latency sharer ts v in
      let inv_latency := accumulated_gap ⊕ m in
      let max_latency' := d_max max_latency inv_latency in
      let gap' := match ee_logp_model v1 with
                  | Some lm => accumulated_gap ⊕ lc_g (lm_config lm)
                  | None => accumulated_gap
                  end in
      invalidate_loop rest ts max_latency' gap' (ee_set_counters (counters_add 1 1 0 0) v1)
  end.

Definition invalidate_sharers (e : DirectoryEntry) (except_node ts : Z) (v : EngineEnv D) :
    D * DirectoryEntry * EngineEnv D :=
  let to_invalidate := ascending (de_sharer_nodes e ∖ {[except_node]}) in
  let '(l, v') := invalidate_loop to_invalidate ts (d_of_Z 0) (d_of_Z 0) v in
  (l, de_set_sharers ∅ e, v').

Definition downgrade_owner (e : DirectoryEntry) (requesting_node ts : Z) (v : EngineEnv D) :
    D * DirectoryEntry * EngineEnv D :=
  if (de_owner_node e =? UINT32_MAX) || (de_owner_node e =? requesting_node) then (d_of_Z 0, e, v)
  else
    let '(latency, v1) := calculate_coherency_msg_latency (de_owner_node e) ts v in
    let e' :=
      match de_state e with
      | MODIFIED => de_set_dirty true (de_set_state OWNED e)
      | EXCLUSIVE =>
          de_set_owner UINT32_MAX UINT32_MAX (de_set_state SHARED (de_add_sharer (de_owner_node e) e))
      | _ => e
      end in
    (latency, e', ee_set_counters (counters_add 1 0 1 0) v1).

Definition fetch_from_owner (e : DirectoryEntry) (ts : Z) (v : EngineEnv D) : D * EngineEnv D :=
  if de_owner_node e =? UINT32_MAX then (d_of_Z 0, v)
  else
    let '(latency, v1) := calculate_coherency_msg_latency (de_owner_node e) ts v in
    (latency, ee_set_counters (counters_add 1 0 0 0) v1).

(** The outcome of the state machines before the common tail: latency, granted state, data
    source, entry and environment. *)
Definition outcome : Type := D * MHSLDCacheState * Z * DirectoryEntry * EngineEnv D.

(** The switch of [process_read]: the requester has no access yet. *)
Definition read_acquire (req : CoherencyRequest) (e : DirectoryEntry) (v : EngineEnv D) : outcome :=
  let n := rq_requesting_node req in
  let ts := rq_timestamp req in
  let contention := calculate_contention_latency (rq_requesting_head req) v in
  let local := ee_local_node_id v in
  match de_state e with
  | INVALID =>
      (d_of_Z 0, SHARED, local,
       de_set_owner n (rq_requesting_head req) (de_set_state SHARED (de_add_sharer n e)), v)
  | SHARED => (d_of_Z 0, SHARED, local, de_add_sharer n e, v)
  | EXCLUSIVE =>
      if de_owner_node e =? n then
        (contention, SHARED, local, de_set_state SHARED (de_add_sharer n e), v)
      else
        let '(latency, e1, v1) := downgrade_owner e n ts v in
        (latency, SHARED, de_owner_node e1, de_set_state SHARED (de_add_sharer n e1), v1)
  | MODIFIED =>
      if de_owner_node e =? n then (contention, SHARED, local, de_add_sharer n e, v)
      else
        let '(latency, v1) := fetch_from_owner e ts v in
        (latency, SHARED, de_owner_node e, de_add_sharer n (de_set_state OWNED e), v1)
  | OWNED =>
      if de_owner_node e =? n then (contention, SHARED, local, de_add_sharer n e, v)
      else
        let '(latency, v1) := calculate_coherency_msg_latency (de_owner_node e) ts v in
        (latency, SHARED, de_owner_node e, de_add_sharer n e, ee_set_counters (counters_add 1 0 0 0) v1)
  end.

Definition read_entry (req : CoherencyRequest) (e0 : DirectoryEntry) (v : EngineEnv D) : outcome :=
  let n := rq_requesting_node req in
  let contention := calculate_contention_latency (rq_requesting_head req) v in
  let e := de_touch (rq_timestamp req) e0 in
  if (de_owner_node e =? n) && owned_state (de_state e)
  then (contention, de_state e, ee_local_node_id v, e, v)
  else if decide (n ∈ de_sharer_nodes e)
  then (contention, SHARED, ee_local_node_id v, e, v)
  else read_acquire req e v.

(** The tail at label [done]. *)
Definition finish_request (req : CoherencyRequest) (latency0 : D) (v : EngineEnv D) : D * EngineEnv D :=
  let remote := negb (rq_requesting_node req =? ee_local_node_id v) in
  let latency := latency0 ⊕ calculate_contention_latency (rq_requesting_head req) v in
  (latency, ee_set_counters (counters_op remote (d_to_u64 latency)) v).

Definition process_read (req : CoherencyRequest) (g : CoherencyEngine D) :
    CoherencyResponse D * CoherencyEngine D :=
  let '(l, st, src, e, v) := read_entry req (engine_entry g (rq_addr req)) (ce_env g) in
  let '(latency, v') := finish_request req l v in
  (mkCoherencyResponse latency st true src, engine_store (rq_addr req) e v' g).

(** The switch of [process_write]: messages to the current holders. *)
Definition write_acquire (req : CoherencyRequest) (e : DirectoryEntry) (v : EngineEnv D) :
    D * Z * DirectoryEntry * EngineEnv D :=
  let n := rq_requesting_node req in
  let ts := rq_timestamp req in
  let local := ee_local_node_id v in
  match de_state e with
  | INVALID => (d_of_Z 0, local, e, v)
  | SHARED =>
      let '(latency, e1, v1) := invalidate_sharers e n ts v in (latency, local, e1, v1)
  | EXCLUSIVE =>
      if negb (de_owner_node e =? n) then
        let '(latency, v1) := calculate_coherency_msg_latency (de_owner_node e) ts v in
        (latency, local, e, ee_set_counters (counters_add 1 1 0 0) v1)
      else (d_of_Z 0, local, e, v)
  | MODIFIED =>
      if negb (de_owner_node e =? n) then
        let '(latency, v1) := calculate_coherency_msg_latency (de_owner_node e) ts v in
        (latency, de_owner_node e, e, ee_set_counters (counters_add 1 0 0 1) v1)
      else (d_of_Z 0, local, e, v)
  | OWNED =>
      if negb (de_owner_node e =? n) then
        let '(owner_lat, v1) := calculate_coherency_msg_latency (de_owner_node e) ts v in
        let '(sharer_lat, e1, v2) := invalidate_sharers e n ts v1 in
        (owner_lat ⊕ sharer_lat, de_owner_node e1, e1, ee_set_counters (counters_add 0 0 0 1) v2)
      else
        let '(latency, e1, v1) := invalidate_sharers e n ts v in (latency, local, e1, v1)
  end.

Definition write_entry (req : CoherencyRequest) (e0 : DirectoryEntry) (v : EngineEnv D) : outcome :=
  let n := rq_requesting_node req in
  let ts := rq_timestamp req in
  let e := de_bump_version (de_touch ts e0) in
  let modified e := de_set_dirty true (de_set_state MODIFIED e) in
  let acquire :=
    let '(latency, src, e1, v1) := write_acquire req e v in
    (latency, MODIFIED, src,
     modified (de_set_sharers ∅ (de_set_owner n (rq_requesting_head req) e1)), v1) in
  if de_owner_node e =? n then
    match de_state e with
    | EXCLUSIVE | MODIFIED =>
        (calculate_contention_latency (rq_requesting_head req) v, MODIFIED, ee_local_node_id v, modified e, v)
    | OWNED =>
        let '(latency, e1, v1) := invalidate_sharers e n ts v in
        (latency, MODIFIED, ee_local_node_id v, modified e1, v1)
    | _ => acquire
    end
  else acquire.

Definition process_write (req : CoherencyRequest) (g : CoherencyEngine D) :
    CoherencyResponse D * CoherencyEngine D :=
  let '(l, st, src, e, v) := write_entry req (engine_entry g (rq_addr req)) (ce_env g) in
  let '(latency, v') := finish_request req l v in
  (mkCoherencyResponse latency st true src, engine_store (rq_addr req) e v' g).

Definition process_atomic (req : CoherencyRequest) (g : CoherencyEngine D) :
    CoherencyResponse D * CoherencyEngine D :=
  let '(resp, g') := process_write req g in
  match ee_logp_model (ce_env g') with
  | Some m =>
      (mkCoherencyResponse (rs_latency_ns resp ⊕ (lc_o_s (lm_config m) ⊕ lc_o_r (lm_config m)))
         (rs_new_state resp) (rs_success resp) (rs_data_source_node resp), g')
  | None => (resp, g')
  end.

(** The private transitions, which no request uses. *)
Definition transition_to_shared (n h : Z) (e : DirectoryEntry) : DirectoryEntry :=
  let e1 := de_add_sharer n e in
  match de_state e1 with
  | INVALID => de_set_owner n h (de_set_state SHARED e1)
  | _ => e1
  end.

Definition transition_to_exclusive (n h ts : Z) (e : DirectoryEntry) (v : EngineEnv D) :
    D * DirectoryEntry * EngineEnv D :=
  let '(latency, e1, v1) := invalidate_sharers e n ts v in
  (latency, de_set_sharers ∅ (de_set_state EXCLUSIVE (de_set_owner n h e1)), v1).

Definition transition_to_modified (n h ts : Z) (e : DirectoryEntry) (v : EngineEnv D) :
    D * DirectoryEntry * EngineEnv D :=
  let '(latency, e1, v1) := transition_to_exclusive n h ts e v in
  (latency, de_set_dirty true (de_set_state MODIFIED e1), v1).

(** Messages from other nodes: [None] in the directory ends the handler. *)
Definition handle_remote_invalidate (addr from_node : Z) (g : CoherencyEngine D) : CoherencyEngine D :=
  match ce_directory g !! line_of addr with
  | None => g
  | Some e0 =>
      let local := ee_local_node_id (ce_env g) in
      let e := de_set_sharers (de_sharer_nodes e0 ∖ {[local]}) e0 in
      if de_owner_node e =? local then
        let '(e1, wb) := match de_state e with
                         | MODIFIED => (de_set_dirty true e, 1)
                         | _ => (e, 0)
                         end in
        engine_store addr (de_set_state INVALID (de_set_owner UINT32_MAX UINT32_MAX e1))
          (ee_set_counters (counters_add 0 1 0 wb) (ce_env g)) g
      else engine_store addr e (ee_set_counters (counters_add 0 1 0 0) (ce_env g)) g
  end.

Definition handle_remote_downgrade (addr from_node : Z) (g : CoherencyEngine D) : CoherencyEngine D :=
  match ce_directory g !! line_of addr with
  | None => g
  | Some e =>
      let local := ee_local_node_id (ce_env g) in
      let e' :=
        if de_owner_node e =? local then
          match de_state e with
          | MODIFIED => de_set_state OWNED e
          | EXCLUSIVE => de_add_sharer local (de_set_state SHARED e)
          | _ => e
          end
        else e in
      engine_store addr e' (ee_set_counters (counters_add 0 0 1 0) (ce_env g)) g
  end.

Definition handle_remote_writeback (addr from_node : Z) (g : CoherencyEngine D) : CoherencyEngine D :=
  match ce_directory g !! line_of addr with
  | None => g
  | Some e =>
      let e' :=
        if de_owner_node e =? from_node then
          de_set_sharers (de_sharer_nodes e ∖ {[from_node]})
            (de_set_state INVALID (de_set_owner UINT32_MAX UINT32_MAX (de_set_dirty false e)))
        else e in
      engine_store addr e' (ee_set_counters (counters_add 0 0 0 1) (ce_env g)) g
  end.

Definition activate_head (head_id capacity : Z) (g : CoherencyEngine D) : CoherencyEngine D :=
  let hs := ee_heads (ce_env g) in
  match hs !! Z.to_nat head_id with
  | None => g
  | Some h =>
      let h' := mkHead (hd_head_id h) capacity 0 (hd_bandwidth_share h) (hd_total_reads h)
                  (hd_total_writes h) (hd_coherency_stalls h) (hd_back_invalidations h) true in
      let hs1 := <[Z.to_nat head_id := h']> hs in
      let share := d_of_Z 1 ⊘ d_of_Z (active_heads hs1) in
      let hs2 := (fun h => if hd_active h
                           then mkHead (hd_head_id h) (hd_allocated_capacity h) (hd_used_capacity h) share
                                  (hd_total_reads h) (hd_total_writes h) (hd_coherency_stalls h)
                                  (hd_back_invalidations h) true
                           else h) <$> hs1 in
      mkCoherencyEngine (ee_set_heads hs2 (ce_env g)) (ce_directory g)
  end.

Definition deactivate_head (head_id : Z) (g : CoherencyEngine D) : CoherencyEngine D :=
  let hs := ee_heads (ce_env g) in
  match hs !! Z.to_nat head_id with
  | None => g
  | Some h =>
      let h' := mkHead (hd_head_id h) (hd_allocated_capacity h) (hd_used_capacity h) (d_of_Z 0)
                  (hd_total_reads h) (hd_total_writes h) (hd_coherency_stalls h)
                  (hd_back_invalidations h) false in
      mkCoherencyEngine (ee_set_heads (<[Z.to_nat head_id := h']> hs) (ce_env g)) (ce_directory g)
  end.

Definition register_fabric_link (node_id : Z) (link : FabricLink D) (g : CoherencyEngine D) :
    CoherencyEngine D :=
  mkCoherencyEngine (ee_set_links (<[node_id := link]> (ee_fabric_links (ce_env g))) (ce_env g))
    (ce_directory g).

Definition get_stats (g : CoherencyEngine D) : EngineStats D :=
  let c := ee_counters (ce_env g) in
  mkEngineStats (total_coherency_messages_ c) (total_invalidations_ c) (total_downgrades_ c)
    (total_writebacks_ c) (total_remote_ops_ c)
    (if 0 <? total_ops_ c then d_of_Z (total_latency_ns_ c) ⊘ d_of_Z (total_ops_ c) else d_of_Z 0).
End Engine.

(** ** The engine as a transition system *)
Inductive engine_op (D : Type) :=
| OpRead (req : CoherencyRequest)
| OpWrite (req : CoherencyRequest)
| OpAtomic (req : CoherencyRequest)
| OpInvalidate (addr from_node : Z)
| OpDowngrade (addr from_node : Z)
| OpWriteback (addr from_node : Z)
| OpActivate (head_id capacity : Z)
| OpDeactivate (head_id : Z)
| OpLink (node_id : Z) (link : FabricLink D).
Arguments OpRead {D}. Arguments OpWrite {D}. Arguments OpAtomic {D}. Arguments OpInvalidate {D}.
Arguments OpDowngrade {D}. Arguments OpWriteback {D}. Arguments OpActivate {D}.
Arguments OpDeactivate {D}. Arguments OpLink {D}.

Definition engine_apply {D} `{Double D} (op : engine_op D) (g : CoherencyEngine D) : CoherencyEngine D :=
  match op with
  | OpRead req => snd (process_read req g)
  | OpWrite req => snd (process_write req g)
  | OpAtomic req => snd (process_atomic req g)
  | OpInvalidate addr from => handle_remote_invalidate addr from g
  | OpDowngrade addr from => handle_remote_downgrade addr from g
  | OpWriteback addr from => handle_remote_writeback addr from g
  | OpActivate h c => activate_head h c g
  | OpDeactivate h => deactivate_head h g
  | OpLink n l => register_fabric_link n l g
  end.

(** Requests come from nodes other than the sentinel [UINT32_MAX]. *)
Definition op_valid {D} (op : engine_op D) : Prop :=
  match op with
  | OpRead req | OpWrite req | OpAtomic req => rq_requesting_node req <> UINT32_MAX
  | _ => True
  end.

Inductive engine_step {D} `{Double D} : CoherencyEngine D -> CoherencyEngine D -> Prop :=
| engine_step_op op g : op_valid op -> engine_step g (engine_apply op g).

(** ** Specification *)

#[global] Instance directory_line : MoesiLine DirectoryEntry := {|
  ml_state := de_state;
  ml_owner := de_owner_node;
  ml_sharers := de_sharer_nodes
|}.

(** The invariant of a directory entry. *)
Definition entry_ok (e : DirectoryEntry) : Prop :=
  UINT32_MAX ∉ de_sharer_nodes e /\
  match de_state e with
  | INVALID => de_owner_node e = UINT32_MAX
  | SHARED => de_owner_node e ∈ de_sharer_nodes e
  | EXCLUSIVE => False
  | MODIFIED => de_sharer_nodes e = ∅ /\ de_owner_node e <> UINT32_MAX /\ de_has_dirty_data e = true
  | OWNED => de_owner_node e ∉ de_sharer_nodes e /\ de_owner_node e <> UINT32_MAX /\
             de_has_dirty_data e = true
  end.

Definition engine_ok {D} (g : CoherencyEngine D) : Prop :=
  forall k e, ce_directory g !! k = Some e ->
    entry_ok e /\ de_cacheline_addr e = k /\ line_of k = k.

(** How many invalidations and writebacks a write by node [n] causes. *)
Definition write_invalidations (n : Z) (e : DirectoryEntry) : Z :=
  match de_state e with
  | SHARED | OWNED => Z.of_nat (size (de_sharer_nodes e ∖ {[n]}))
  | EXCLUSIVE => if de_owner_node e =? n then 0 else 1
  | _ => 0
  end.

Definition write_writebacks (n : Z) (e : DirectoryEntry) : Z :=
  match de_state e with
  | MODIFIED | OWNED => if de_owner_node e =? n then 0 else 1
  | _ => 0
  end.

(** No head has counted a read or a write. *)
Definition heads_idle {D} (hs : list (MHSLDHeadState D)) : Prop :=
  Forall (fun h => hd_total_reads h = 0 /\ hd_total_writes h = 0) hs.

(** ** Lemmas on entries *)
Section Entries.
Context {D : Type} `{Double D}.

Definition out_entry (o : outcome (D := D)) : DirectoryEntry := let '(_, _, _, e, _) := o in e.

Definition out_state (o : outcome (D := D)) : MHSLDCacheState := let '(_, st, _, _, _) := o in st.

Definition out_env (o : outcome (D := D)) : EngineEnv D := let '(_, _, _, _, v) := o in v.

Lemma read_hit (req : CoherencyRequest) (e : DirectoryEntry) (v : EngineEnv D) :
  let n := rq_requesting_node req in
  node_view e n <> INVALID ->
  read_entry req e v = (calculate_contention_latency (rq_requesting_head req) v, node_view e n,
                        ee_local_node_id v, de_touch (rq_timestamp req) e, v).
Proof.
  intros n Hv. unfold read_entry, node_view in *. fold n.
  cbn [de_owner_node de_state de_sharer_nodes de_touch ml_state ml_owner ml_sharers directory_line] in *.
  destruct (andb _ _); [done|]. by case_decide.
Qed.

Lemma read_miss (req : CoherencyRequest) (e : DirectoryEntry) (v : EngineEnv D) :
  node_view e (rq_requesting_node req) = INVALID ->
  read_entry req e v = read_acquire req (de_touch (rq_timestamp req) e) v.
Proof.
  intros Hv. destruct (node_view_invalid _ _ Hv) as [Hs Ho]. unfold read_entry.
  cbn [de_owner_node de_state de_sharer_nodes de_touch ml_state ml_owner ml_sharers directory_line] in *.
  destruct (Z.eqb_spec (de_owner_node e) (rq_requesting_node req)), (owned_state (de_state e)) eqn:E;
    cbn; try (by rewrite decide_False). destruct Ho; done.
Qed.

(** The directory transition of a read miss. *)
Definition read_grant (n h : Z) (e : DirectoryEntry) : DirectoryEntry :=
  match de_state e with
  | INVALID => de_set_owner n h (de_set_state SHARED (de_add_sharer n e))
  | MODIFIED => de_add_sharer n (de_set_state OWNED e)
  | _ => de_add_sharer n e
  end.

Lemma read_acquire_grant (req : CoherencyRequest) (e : DirectoryEntry) (v : EngineEnv D) :
  let n := rq_requesting_node req in
  entry_ok e -> node_view e n = INVALID ->
  out_entry (read_acquire req e v) = read_grant n (rq_requesting_head req) e /\
  out_state (read_acquire req e v) = SHARED.
Proof.
  intros n [_ Hok] Hv. destruct (node_view_invalid _ _ Hv) as [_ Ho].
  unfold read_acquire, read_grant. fold n. cbn in Ho. destruct (de_state e) eqn:E; try done.
  - specialize (Ho eq_refl). apply Z.eqb_neq in Ho. rewrite Ho.
    by destruct (fetch_from_owner e _ v).
  - specialize (Ho eq_refl). apply Z.eqb_neq in Ho. rewrite Ho.
    by destruct (calculate_coherency_msg_latency _ _ v).
Qed.

Lemma read_grant_ok (n h : Z) (e : DirectoryEntry) :
  entry_ok e -> node_view e n = INVALID -> n <> UINT32_MAX -> entry_ok (read_grant n h e).
Proof.
  intros [Hs Hok] Hv Hn. destruct (node_view_invalid _ _ Hv) as [Hns Ho].
  cbn in Hns, Ho. unfold read_grant, entry_ok. destruct (de_state e) eqn:E; cbn; rewrite ?E; try done.
  - split; set_solver.
  - split; set_solver.
  - destruct Hok as (Hsh & Hmax & Hd). specialize (Ho eq_refl). split; [set_solver|]. split; set_solver.
  - destruct Hok as (Hsh & Hmax & Hd). specialize (Ho eq_refl). split; [set_solver|]. split; set_solver.
Qed.

Lemma entry_line_coherent (e : DirectoryEntry) : entry_ok e -> line_coherent e.
Proof.
  intros [_ Hok]. unfold line_coherent. cbn [ml_state ml_sharers ml_owner directory_line].
  destruct (de_state e); try done; apply Hok.
Qed.

Lemma read_grant_views (n h : Z) (e : DirectoryEntry) :
  entry_ok e -> node_view e n = INVALID ->
  node_view (read_grant n h e) n = SHARED /\
  (forall m, m <> n -> node_view (read_grant n h e) m = snoop_read (node_view e m)).
Proof.
  intros Hok Hv. pose proof Hok as [_ Hst].
  apply read_miss_views; [by apply entry_line_coherent|done|..];
    unfold read_grant; cbn [ml_state ml_sharers ml_owner directory_line];
    destruct (de_state e) eqn:E; cbn; rewrite ?E; done.
Qed.

Lemma read_entry_spec (req : CoherencyRequest) (e : DirectoryEntry) (v : EngineEnv D) :
  let n := rq_requesting_node req in
  let e' := out_entry (read_entry req e v) in
  entry_ok e -> n <> UINT32_MAX ->
  entry_ok e' /\ node_view e' n = gain_read (node_view e n) /\
  (forall m, m <> n -> node_view e' m = snoop_read (node_view e m)) /\
  out_state (read_entry req e v) = node_view e' n /\ de_cacheline_addr e' = de_cacheline_addr e.
Proof.
  intros n e' Hok Hn. subst e'. destruct (decide (node_view e n = INVALID)) as [Hv|Hv].
  - rewrite (read_miss req e v Hv). set (t := de_touch (rq_timestamp req) e).
    assert (Ht : entry_ok t) by exact Hok. assert (Hvt : node_view t n = INVALID) by exact Hv.
    destruct (read_acquire_grant req t v Ht Hvt) as [-> ->]. fold n.
    destruct (read_grant_views n (rq_requesting_head req) t Ht Hvt) as [V1 V2].
    split; [by apply read_grant_ok|]. rewrite V1, Hv. split; [done|]. split; [exact V2|].
    split; [done|]. unfold read_grant. by destruct (de_state t).
  - rewrite (read_hit req e v Hv). cbn [out_entry out_state]. fold n.
    split; [exact Hok|]. split; [by destruct (node_view e n) eqn:E|]. split; [|done].
    intros m Hm. change (node_view (de_touch _ e) m) with (node_view e m).
    symmetry. apply (compatible_snoop (node_view e n)); [|done]. apply line_compatible; auto using entry_line_coherent.
Qed.

Lemma invalidate_sharers_entry (e : DirectoryEntry) (n ts : Z) (v : EngineEnv D) :
  exists l v', invalidate_sharers e n ts v = (l, de_set_sharers ∅ e, v').
Proof. unfold invalidate_sharers. destruct (invalidate_loop _ _ _ _ v). eauto. Qed.

(** The entry in which node [n] is the only holder and may write. *)
Definition exclusive_for (n : Z) (e : DirectoryEntry) : Prop :=
  de_state e = MODIFIED /\ de_owner_node e = n /\ de_sharer_nodes e = ∅ /\ de_has_dirty_data e = true.

Lemma write_entry_spec (req : CoherencyRequest) (e : DirectoryEntry) (v : EngineEnv D) :
  let e' := out_entry (write_entry req e v) in
  entry_ok e ->
  exclusive_for (rq_requesting_node req) e' /\ de_version e' = wrap32 (de_version e + 1) /\
  out_state (write_entry req e v) = MODIFIED /\ de_cacheline_addr e' = de_cacheline_addr e.
Proof.
  intros e' [_ Hok]. subst e'. unfold write_entry.
  set (n := rq_requesting_node req). set (ts := rq_timestamp req).
  set (b := de_bump_version (de_touch ts e)).
  assert (Hacq : forall l src e1 v1, write_acquire req b v = (l, src, e1, v1) ->
            de_version e1 = de_version b /\ de_cacheline_addr e1 = de_cacheline_addr b).
  { intros l src e1 v1. unfold write_acquire. fold n ts.
    destruct (invalidate_sharers_entry b n ts v) as (l1 & v2 & E1). rewrite ?E1.
    destruct (calculate_coherency_msg_latency (de_owner_node b) ts v) as [l3 v3].
    destruct (invalidate_sharers_entry b n ts v3) as (l4 & v4 & E4).
    destruct (de_state b), (negb (de_owner_node b =? n)); rewrite ?E4; intros [= <- <- <- <-]; done. }
  destruct (write_acquire req b v) as [[[l src] e1] v1]. destruct (Hacq _ _ _ _ eq_refl) as [A1 A2].
  destruct (invalidate_sharers_entry b n ts v) as (l2 & v2 & E2). rewrite ?E2.
  change (de_owner_node b) with (de_owner_node e). change (de_state b) with (de_state e).
  destruct (Z.eqb_spec (de_owner_node e) n) as [Hn|Hn]; [destruct (de_state e) eqn:E|];
    unfold exclusive_for; cbn; rewrite ?A1, ?A2; try done.
  destruct Hok as (Hsh & _). done.
Qed.

Lemma exclusive_for_views (n : Z) (e : DirectoryEntry) :
  exclusive_for n e ->
  node_view e n = MODIFIED /\ (forall m, m <> n -> node_view e m = INVALID).
Proof. intros (Hs & Ho & Hsh & _). by apply exclusive_views. Qed.

Lemma exclusive_ok (n : Z) (e : DirectoryEntry) :
  n <> UINT32_MAX -> exclusive_for n e -> entry_ok e.
Proof.
  intros Hn (Hs & Ho & Hsh & Hd). unfold entry_ok. rewrite Hs, Ho, Hsh, Hd. set_solver.
Qed.
End Entries.

(** ** Lemmas on the engine *)
Section EngineLemmas.
Context {D : Type} `{Double D}.

Lemma directory_entry_new_ok (a : Z) : entry_ok (directory_entry_new a).
Proof. split; [set_solver|done]. Qed.

Lemma engine_entry_ok (g : CoherencyEngine D) (a : Z) :
  engine_ok g -> entry_ok (engine_entry g a) /\ de_cacheline_addr (engine_entry g a) = line_of a.
Proof.
  intros Hg. unfold engine_entry. destruct (ce_directory g !! line_of a) as [e|] eqn:E.
  - destruct (Hg _ _ E) as (? & ? & _). done.
  - split; [apply directory_entry_new_ok|done].
Qed.

Lemma engine_entry_lookup (g : CoherencyEngine D) (a : Z) (e : DirectoryEntry) :
  ce_directory g !! line_of a = Some e -> engine_entry g a = e.
Proof. intros E. unfold engine_entry. by rewrite E. Qed.

Lemma engine_entry_store (g : CoherencyEngine D) (v : EngineEnv D) (a b : Z) (e : DirectoryEntry) :
  engine_entry (engine_store a e v g) b =
  if decide (line_of b = line_of a) then e else engine_entry g b.
Proof.
  unfold engine_entry, engine_store. cbn. case_decide as E.
  - rewrite E. by rewrite lookup_insert_eq.
  - by rewrite lookup_insert_ne.
Qed.

Lemma engine_entry_line (g : CoherencyEngine D) (a b : Z) :
  line_of b = line_of a -> engine_entry g b = engine_entry g a.
Proof. intros E. unfold engine_entry. by rewrite E. Qed.

Lemma engine_store_ok (g : CoherencyEngine D) (v : EngineEnv D) (a : Z) (e : DirectoryEntry) :
  engine_ok g -> entry_ok e -> de_cacheline_addr e = line_of a -> engine_ok (engine_store a e v g).
Proof.
  intros Hg He Ha k x. cbn. rewrite lookup_insert_Some. intros [[<- <-]|[_ Hx]]; [|by apply Hg].
  rewrite line_of_idem. done.
Qed.

(** A handler that stores one entry performs the protocol step of that line. *)
Lemma engine_store_step (g : CoherencyEngine D) (v : EngineEnv D) (a : Z) (e : DirectoryEntry) :
  engine_ok g -> entry_ok e -> de_cacheline_addr e = line_of a ->
  moesi_step (node_view (engine_entry g a)) (node_view e) ->
  engine_ok (engine_store a e v g) /\
  forall b, moesi_step (node_view (engine_entry g b)) (node_view (engine_entry (engine_store a e v g) b)).
Proof.
  intros Hg He Ha Hs. split; [by apply engine_store_ok|]. intros b. rewrite engine_entry_store.
  case_decide as E; [by rewrite (engine_entry_line g a b E)|by apply moesi_stutter].
Qed.

Lemma process_read_store (req : CoherencyRequest) (g : CoherencyEngine D) :
  let o := read_entry req (engine_entry g (rq_addr req)) (ce_env g) in
  rs_new_state (fst (process_read req g)) = out_state o /\
  snd (process_read req g) =
    engine_store (rq_addr req) (out_entry o) (ce_env (snd (process_read req g))) g.
Proof.
  cbn zeta. unfold process_read. destruct (read_entry _ _ _) as [[[[l st] src] e] v].
  by destruct (finish_request req l v).
Qed.

Lemma process_write_store (req : CoherencyRequest) (g : CoherencyEngine D) :
  let o := write_entry req (engine_entry g (rq_addr req)) (ce_env g) in
  rs_new_state (fst (process_write req g)) = out_state o /\
  snd (process_write req g) =
    engine_store (rq_addr req) (out_entry o) (ce_env (snd (process_write req g))) g.
Proof.
  cbn zeta. unfold process_write. destruct (write_entry _ _ _) as [[[[l st] src] e] v].
  by destruct (finish_request req l v).
Qed.

Lemma process_atomic_engine (req : CoherencyRequest) (g : CoherencyEngine D) :
  snd (process_atomic req g) = snd (process_write req g).
Proof.
  unfold process_atomic. destruct (process_write req g) as [r g']. by destruct (ee_logp_model (ce_env g')).
Qed.

Lemma process_read_step (req : CoherencyRequest) (g : CoherencyEngine D) :
  engine_ok g -> rq_requesting_node req <> UINT32_MAX ->
  engine_ok (snd (process_read req g)) /\
  forall b, moesi_step (node_view (engine_entry g b)) (node_view (engine_entry (snd (process_read req g)) b)).
Proof.
  intros Hg Hn. destruct (engine_entry_ok g (rq_addr req) Hg) as [He Ha].
  destruct (read_entry_spec req _ (ce_env g) He Hn) as (Ho & Hv & Hm & _ & Hc).
  destruct (process_read_store req g) as [_ ->].
  apply engine_store_step; [done..|congruence|]. by apply (moesi_read _ _ (rq_requesting_node req)).
Qed.

Lemma process_write_step (req : CoherencyRequest) (g : CoherencyEngine D) :
  engine_ok g -> rq_requesting_node req <> UINT32_MAX ->
  engine_ok (snd (process_write req g)) /\
  forall b, moesi_step (node_view (engine_entry g b)) (node_view (engine_entry (snd (process_write req g)) b)).
Proof.
  intros Hg Hn. destruct (engine_entry_ok g (rq_addr req) Hg) as [He Ha].
  destruct (write_entry_spec req _ (ce_env g) He) as (Hx & _ & _ & Hc).
  destruct (exclusive_for_views _ _ Hx) as [V1 V2].
  destruct (process_write_store req g) as [_ ->].
  apply engine_store_step; [done|by apply (exclusive_ok (rq_requesting_node req))|congruence|].
  by apply (moesi_write _ _ (rq_requesting_node req)).
Qed.

Lemma remote_invalidate_step (addr from : Z) (g : CoherencyEngine D) :
  engine_ok g ->
  engine_ok (handle_remote_invalidate addr from g) /\
  forall b, moesi_step (node_view (engine_entry g b))
              (node_view (engine_entry (handle_remote_invalidate addr from g) b)).
Proof.
  intros Hg. unfold handle_remote_invalidate.
  destruct (ce_directory g !! line_of addr) as [e|] eqn:E; [|split; [done|intros; by apply moesi_stutter]].
  destruct (Hg _ _ E) as ([Hs Hok] & Hc & _). apply engine_entry_lookup in E.
  set (local := ee_local_node_id (ce_env g)). cbn [de_owner_node de_set_sharers].
  destruct (Z.eqb_spec (de_owner_node e) local) as [Ho|Ho].
  - assert (G : forall e1 k, e1 = de_set_sharers (de_sharer_nodes e ∖ {[local]}) e \/
                           e1 = de_set_dirty true (de_set_sharers (de_sharer_nodes e ∖ {[local]}) e) ->
      let e2 := de_set_state INVALID (de_set_owner UINT32_MAX UINT32_MAX e1) in
      engine_ok (engine_store addr e2 k g) /\
      forall b, moesi_step (node_view (engine_entry g b)) (node_view (engine_entry (engine_store addr e2 k g) b))).
    { intros e1 k Hd. apply engine_store_step; [done|..].
      - destruct Hd as [-> | ->]; (split; [cbn; set_solver|done]).
      - destruct Hd as [-> | ->]; done.
      - apply (moesi_drop _ _ local); rewrite ?E.
        + rewrite node_view_other by (by right). destruct Hd as [-> | ->]; cbn;
            (rewrite decide_False; [done|set_solver]).
        + intros m Hm. apply (node_view_remove e _ local m); [by destruct Hd as [-> | ->]|done|].
          right. split; [done|]. done. }
    cbn [de_state de_set_sharers].
    destruct (de_state e); apply G; auto.
  - apply engine_store_step; [done|..].
    + split; [cbn; set_solver|]. cbn. destruct (de_state e); set_solver.
    + done.
    + apply (moesi_drop _ _ local); rewrite ?E.
      * rewrite node_view_other by (by left). cbn. rewrite decide_False; [done|set_solver].
      * intros m Hm. apply (node_view_remove e _ local m); [done|done|]. by left.
Qed.

Lemma remote_downgrade_step (addr from : Z) (g : CoherencyEngine D) :
  engine_ok g ->
  engine_ok (handle_remote_downgrade addr from g) /\
  forall b, moesi_step (node_view (engine_entry g b))
              (node_view (engine_entry (handle_remote_downgrade addr from g) b)).
Proof.
  intros Hg. unfold handle_remote_downgrade.
  destruct (ce_directory g !! line_of addr) as [e|] eqn:E; [|split; [done|intros; by apply moesi_stutter]].
  destruct (Hg _ _ E) as ([Hs Hok] & Hc & _). apply engine_entry_lookup in E.
  set (local := ee_local_node_id (ce_env g)).
  assert (Same : forall k, engine_ok (engine_store addr e k g) /\ forall b,
    moesi_step (node_view (engine_entry g b)) (node_view (engine_entry (engine_store addr e k g) b))).
  { intros k. apply engine_store_step; try done. rewrite E. by apply moesi_stutter. }
  destruct (Z.eqb_spec (de_owner_node e) local) as [Ho|Ho]; [|apply Same].
  destruct (de_state e) eqn:Es; try apply Same; try done.
  destruct Hok as (Hsh & Hmax & Hd). apply engine_store_step; [done|..|done|].
  - split; cbn; [done|]. rewrite Hsh. set_solver.
  - apply (moesi_downgrade _ _ local); rewrite E; unfold node_view; cbn; rewrite Es, Ho.
    + by rewrite Z.eqb_refl.
    + intros m Hm. rewrite (proj2 (Z.eqb_neq local m)) by auto. done.
Qed.

Lemma remote_writeback_step (addr from : Z) (g : CoherencyEngine D) :
  engine_ok g ->
  engine_ok (handle_remote_writeback addr from g) /\
  forall b, moesi_step (node_view (engine_entry g b))
              (node_view (engine_entry (handle_remote_writeback addr from g) b)).
Proof.
  intros Hg. unfold handle_remote_writeback.
  destruct (ce_directory g !! line_of addr) as [e|] eqn:E; [|split; [done|intros; by apply moesi_stutter]].
  destruct (Hg _ _ E) as ([Hs Hok] & Hc & _). apply engine_entry_lookup in E.
  destruct (Z.eqb_spec (de_owner_node e) from) as [Ho|Ho].
  - apply engine_store_step; [done|..|done|].
    + split; [cbn; set_solver|done].
    + apply (moesi_drop _ _ from); rewrite ?E.
      * rewrite node_view_other by (by right). cbn. rewrite decide_False; [done|set_solver].
      * intros m Hm. apply (node_view_remove e _ from m); [done|done|]. by right.
  - apply engine_store_step; try done. rewrite E. by apply moesi_stutter.
Qed.

Lemma engine_apply_step (op : engine_op D) (g : CoherencyEngine D) :
  engine_ok g -> op_valid op ->
  engine_ok (engine_apply op g) /\
  forall b, moesi_step (node_view (engine_entry g b)) (node_view (engine_entry (engine_apply op g) b)).
Proof.
  intros Hg Hv. destruct op as [req|req|req|a f|a f|a f|h c|h|n l]; cbn [engine_apply op_valid] in *.
  - by apply process_read_step.
  - by apply process_write_step.
  - rewrite process_atomic_engine. by apply process_write_step.
  - by apply remote_invalidate_step.
  - by apply remote_downgrade_step.
  - by apply remote_writeback_step.
  - unfold activate_head. destruct (_ !! _); (split; [exact Hg|intros; by apply moesi_stutter]).
  - unfold deactivate_head. destruct (_ !! _); (split; [exact Hg|intros; by apply moesi_stutter]).
  - split; [exact Hg|intros; by apply moesi_stutter].
Qed.

Lemma engine_new_ok (n : Z) (m : option (LogPModel D)) (k : nat) (b : D) : engine_ok (engine_new n m k b).
Proof. intros a e. cbn. by rewrite lookup_empty. Qed.

Lemma engine_reachable_ok (g g' : CoherencyEngine D) :
  rtc engine_step g g' -> engine_ok g -> engine_ok g'.
Proof.
  induction 1 as [|g g1 g' [op ? Hop] _ IH]; intros Hg; [done|]. apply IH.
  by apply engine_apply_step.
Qed.
End EngineLemmas.

(** ** Lemmas on the environment *)
Section EnvLemmas.
Context {D : Type} `{Double D}.

(** [v'] counts [inv] more invalidations and [wb] more writebacks than [v], and has the
    same heads. *)
Definition env_counts (v v' : EngineEnv D) (inv wb : Z) : Prop :=
  ee_heads v' = ee_heads v /\
  wrap64 (total_invalidations_ (ee_counters v') - total_invalidations_ (ee_counters v)) = wrap64 inv /\
  wrap64 (total_writebacks_ (ee_counters v') - total_writebacks_ (ee_counters v)) = wrap64 wb.

Lemma env_counts_same (v v' : EngineEnv D) :
  ee_heads v' = ee_heads v -> ee_counters v' = ee_counters v -> env_counts v v' 0 0.
Proof. intros Hh Hc. unfold env_counts. rewrite Hc, !Z.sub_diag. done. Qed.

Lemma env_counts_add (v : EngineEnv D) (msgs inv down wb : Z) :
  env_counts v (ee_set_counters (counters_add msgs inv down wb) v) inv wb.
Proof. split; [done|]. cbn. split; apply wrap64_sub_add. Qed.

Lemma env_counts_trans (v1 v2 v3 : EngineEnv D) (i j w x : Z) :
  env_counts v1 v2 i w -> env_counts v2 v3 j x -> env_counts v1 v3 (i + j) (w + x).
Proof.
  intros (A1 & A2 & A3) (B1 & B2 & B3). split; [congruence|].
  split; eapply wrap64_chain; eauto.
Qed.

Lemma msg_latency_counts (target ts : Z) (v : EngineEnv D) :
  env_counts v (snd (calculate_coherency_msg_latency target ts v)) 0 0.
Proof.
  unfold calculate_coherency_msg_latency.
  destruct (ee_fabric_links v !! target) as [link|]; [destruct (calculate_traversal_latency _ _ _)|];
    cbn; (destruct (ee_logp_model v) as [m|]; [|by apply env_counts_same]);
    (destruct (negb _); [|by apply env_counts_same]);
    by apply env_counts_same.
Qed.

Lemma invalidate_loop_counts (l : list Z) (ts : Z) (a b : D) (v : EngineEnv D) :
  env_counts v (snd (invalidate_loop l ts a b v)) (Z.of_nat (length l)) 0.
Proof.
  revert a b v. induction l as [|x l IH]; intros a b v; cbn [invalidate_loop].
  - by apply env_counts_same.
  - pose proof (msg_latency_counts x ts v) as M.
    destruct (calculate_coherency_msg_latency x ts v) as [m v1]. cbn [snd] in M.
    replace (Z.of_nat (length (x :: l))) with (0 + (1 + Z.of_nat (length l))) by (cbn; lia).
    apply (env_counts_trans v v1 _ 0 _ 0 0); [done|].
    refine (env_counts_trans v1 _ _ 1 _ 0 0 (env_counts_add v1 1 1 0 0) _). apply IH.
Qed.

Lemma invalidate_sharers_counts (e : DirectoryEntry) (n ts : Z) (v : EngineEnv D) :
  env_counts v (snd (invalidate_sharers e n ts v)) (Z.of_nat (size (de_sharer_nodes e ∖ {[n]}))) 0.
Proof.
  unfold invalidate_sharers. rewrite <- ascending_length.
  pose proof (invalidate_loop_counts (ascending (de_sharer_nodes e ∖ {[n]})) ts (d_of_Z 0) (d_of_Z 0) v) as I.
  by destruct (invalidate_loop _ _ _ _ v).
Qed.

Lemma write_acquire_counts (req : CoherencyRequest) (e : DirectoryEntry) (v : EngineEnv D) :
  let n := rq_requesting_node req in
  env_counts v (snd (write_acquire req e v)) (write_invalidations n e) (write_writebacks n e).
Proof.
  intros n. unfold write_acquire, write_invalidations, write_writebacks. fold n.
  set (ts := rq_timestamp req).
  pose proof (invalidate_sharers_counts e n ts v) as I.
  pose proof (msg_latency_counts (de_owner_node e) ts v) as M.
  destruct (calculate_coherency_msg_latency (de_owner_node e) ts v) as [lm v1]. cbn [snd] in M.
  pose proof (invalidate_sharers_counts e n ts v1) as I1.
  destruct (invalidate_sharers e n ts v) as [[li ei] vi]. cbn [snd] in I.
  destruct (de_state e).
  - by apply env_counts_same.
  - exact I.
  - destruct (de_owner_node e =? n); cbn; [by apply env_counts_same|].
    apply (env_counts_trans v v1 _ 0 1 0 0); [done|apply env_counts_add].
  - destruct (de_owner_node e =? n); cbn; [by apply env_counts_same|].
    apply (env_counts_trans v v1 _ 0 0 0 1); [done|apply env_counts_add].
  - destruct (de_owner_node e =? n); cbn; [exact I|].
    destruct (invalidate_sharers e n ts v1) as [[l2 e2] v2]. cbn [snd] in *.
    pose proof (env_counts_trans _ _ _ _ _ _ _ M
                  (env_counts_trans _ _ _ _ _ _ _ I1 (env_counts_add v2 0 0 0 1))) as T.
    rewrite Z.add_0_r in T. exact T.
Qed.

Lemma write_entry_counts (req : CoherencyRequest) (e : DirectoryEntry) (v : EngineEnv D) :
  let n := rq_requesting_node req in
  env_counts v (out_env (write_entry req e v)) (write_invalidations n e) (write_writebacks n e).
Proof.
  intros n. unfold write_entry. fold n. set (b := de_bump_version (de_touch (rq_timestamp req) e)).
  pose proof (write_acquire_counts req b v) as A. cbn zeta in A. fold n in A.
  pose proof (invalidate_sharers_counts b n (rq_timestamp req) v) as I.
  destruct (write_acquire req b v) as [[[l src] e1] v1].
  destruct (invalidate_sharers b n (rq_timestamp req) v) as [[l2 e2] v2]. cbn [snd] in *.
  unfold write_invalidations, write_writebacks in *.
  change (de_owner_node b) with (de_owner_node e) in *. change (de_state b) with (de_state e) in *.
  change (de_sharer_nodes b) with (de_sharer_nodes e) in *.
  destruct (de_owner_node e =? n); [|exact A]. destruct (de_state e); try exact A; try exact I.
  - by apply env_counts_same.
  - by apply env_counts_same.
Qed.

Lemma read_entry_counts (req : CoherencyRequest) (e : DirectoryEntry) (v : EngineEnv D) :
  env_counts v (out_env (read_entry req e v)) 0 0.
Proof.
  unfold read_entry. destruct (andb _ _); [by apply env_counts_same|].
  case_decide; [by apply env_counts_same|]. set (t := de_touch _ e). unfold read_acquire.
  assert (M : forall inc, env_counts v
     (ee_set_counters (counters_add 1 0 inc 0)
        (snd (calculate_coherency_msg_latency (de_owner_node t) (rq_timestamp req) v))) 0 0).
  { intros inc. eapply (env_counts_trans v _ _ 0 0 0 0); [apply msg_latency_counts|apply env_counts_add]. }
  unfold downgrade_owner, fetch_from_owner.
  destruct (calculate_coherency_msg_latency _ _ _) as [l v1]. cbn [snd] in M.
  destruct (de_state t); repeat (destruct (Z.eqb _ _); cbn [orb]);
    try (by apply env_counts_same); apply M.
Qed.

Lemma finish_request_counts (req : CoherencyRequest) (l : D) (v : EngineEnv D) :
  env_counts v (snd (finish_request req l v)) 0 0.
Proof. unfold finish_request, env_counts. cbn. by rewrite !Z.sub_diag. Qed.

Lemma process_read_counts (req : CoherencyRequest) (g : CoherencyEngine D) :
  env_counts (ce_env g) (ce_env (snd (process_read req g))) 0 0.
Proof.
  unfold process_read. pose proof (read_entry_counts req (engine_entry g (rq_addr req)) (ce_env g)) as R.
  destruct (read_entry _ _ _) as [[[[l st] src] e] v]. cbn [out_env] in R.
  pose proof (finish_request_counts req l v) as F. destruct (finish_request req l v) as [l' v']. cbn in *.
  exact (env_counts_trans _ _ _ _ _ _ _ R F).
Qed.

Lemma process_write_counts (req : CoherencyRequest) (g : CoherencyEngine D) :
  let n := rq_requesting_node req in
  let e := engine_entry g (rq_addr req) in
  env_counts (ce_env g) (ce_env (snd (process_write req g))) (write_invalidations n e) (write_writebacks n e).
Proof.
  intros n e. unfold process_write. fold e. pose proof (write_entry_counts req e (ce_env g)) as R.
  cbn zeta in R. fold n in R.
  destruct (write_entry _ _ _) as [[[[l st] src] e'] v]. cbn [out_env] in R.
  pose proof (finish_request_counts req l v) as F. destruct (finish_request req l v) as [l' v']. cbn in *.
  pose proof (env_counts_trans _ _ _ _ _ _ _ R F) as T. by rewrite !Z.add_0_r in T.
Qed.

Lemma heads_idle_contending (hs : list (MHSLDHeadState D)) : heads_idle hs -> contending_heads hs = 0.
Proof.
  intros Hi. unfold contending_heads. induction Hi as [|h hs [Hr Hw] _ IH]; [done|].
  rewrite filter_cons. rewrite Hr, Hw. rewrite decide_False; [exact IH|]. by destruct (hd_active h).
Qed.

Lemma engine_apply_idle (op : engine_op D) (g : CoherencyEngine D) :
  heads_idle (ee_heads (ce_env g)) -> heads_idle (ee_heads (ce_env (engine_apply op g))).
Proof.
  intros Hi. destruct op as [req|req|req|a f|a f|a f|h c|h|n l]; cbn [engine_apply].
  - by rewrite (proj1 (process_read_counts req g)).
  - by rewrite (proj1 (process_write_counts req g)).
  - rewrite process_atomic_engine. by rewrite (proj1 (process_write_counts req g)).
  - unfold handle_remote_invalidate. destruct (_ !! _); [|done].
    cbn zeta. destruct (Z.eqb _ _); [|done]. by destruct (de_state _).
  - unfold handle_remote_downgrade. by destruct (_ !! _).
  - unfold handle_remote_writeback. by destruct (_ !! _).
  - unfold activate_head. destruct (_ !! _) as [hd|] eqn:E; [|done]. cbn.
    pose proof (Forall_lookup_1 _ _ _ _ Hi E) as Hd.
    apply Forall_fmap, Forall_insert.
    + eapply Forall_impl; [exact Hi|]. intros x Hx. cbn. by destruct (hd_active x).
    + cbn. exact Hd.
  - unfold deactivate_head. destruct (_ !! _) as [hd|] eqn:E; [|done]. cbn.
    pose proof (Forall_lookup_1 _ _ _ _ Hi E) as Hd. by apply Forall_insert.
  - done.
Qed.

Lemma engine_new_idle (n : Z) (m : option (LogPModel D)) (k : nat) (b : D) :
  heads_idle (ee_heads (ce_env (engine_new n m k b))).
Proof. apply Forall_fmap, Forall_true. done. Qed.
End EnvLemmas.

(** ** Theorems *)

(** C1. Coherence of the directory: in every state reachable from a new engine by requests,
    remote messages and head or link management, no two nodes hold the same cacheline in
    conflicting MOESI states.  A modified copy is the only copy, and an owned copy
    coexists with shared copies only. *)
Theorem engine_coherent {D} `{Double D} (local : Z) (logp : option (LogPModel D)) (heads : nat) (bw : D)
  (g : CoherencyEngine D) (Hr : rtc engine_step (engine_new local logp heads bw) g)
  (addr n m : Z) (Hne : n <> m) :
  compatible (node_view (engine_entry g addr) n) (node_view (engine_entry g addr) m) = true.
Proof.
  pose proof (engine_reachable_ok _ _ Hr (engine_new_ok _ _ _ _)) as Hg.
  apply line_compatible; [|done]. by apply entry_line_coherent, engine_entry_ok.
Qed.

(** Operations used by the witnesses: nodes 1 and 2 read line 64, node 3 writes it. *)
Definition demo_engine : CoherencyEngine spec_float :=
  engine_new 0 (Some logp_default) 4 (d_of_Z 25).

Definition demo_read (n : Z) : engine_op spec_float := OpRead (mkCoherencyRequest 70 n 0 false 10).

Definition demo_write (n : Z) : engine_op spec_float := OpWrite (mkCoherencyRequest 70 n 0 true 20).

Definition demo_shared : CoherencyEngine spec_float :=
  engine_apply (demo_read 2) (engine_apply (demo_read 1) demo_engine).

Lemma demo_shared_reachable : rtc engine_step demo_engine demo_shared.
Proof.
  eapply rtc_l; [apply (engine_step_op (demo_read 1)); discriminate|].
  apply rtc_once. apply (engine_step_op (demo_read 2)). discriminate.
Qed.

Lemma engine_coherent_witness :
  compatible (node_view (engine_entry demo_shared 64) 1) (node_view (engine_entry demo_shared 64) 2) = true /\
  node_view (engine_entry demo_shared 64) 1 = SHARED.
Proof.
  split; [|vm_compute; reflexivity].
  apply (engine_coherent 0 (Some logp_default) 4 (d_of_Z 25) demo_shared); [|lia].
  exact demo_shared_reachable.
Defined.

(** C2. Refinement: every operation on a coherent engine is one step of the abstract MOESI
    protocol on each line (a read, a write, a drop, a downgrade, or no change), and keeps
    the engine coherent. *)
Theorem engine_refines_moesi {D} `{Double D} (op : engine_op D) (g : CoherencyEngine D) (addr : Z)
  (Hg : engine_ok g) (Hop : op_valid op) :
  moesi_step (node_view (engine_entry g addr)) (node_view (engine_entry (engine_apply op g) addr)) /\
  engine_ok (engine_apply op g).
Proof. destruct (engine_apply_step op g Hg Hop). auto. Qed.

Lemma engine_refines_moesi_witness :
  moesi_step (node_view (engine_entry demo_shared 64))
    (node_view (engine_entry (engine_apply (demo_write 3) demo_shared) 64)) /\
  node_view (engine_entry (engine_apply (demo_write 3) demo_shared) 64) 1 = INVALID.
Proof.
  split; [|vm_compute; reflexivity].
  apply (engine_refines_moesi (demo_write 3) demo_shared 64); [|discriminate].
  apply (engine_reachable_ok demo_engine); [exact demo_shared_reachable|apply engine_new_ok].
Defined.

(** A write obtains exclusive ownership: afterwards the requester holds the line
    modified, no other node holds it, the version has advanced by one, the reply says
    [MODIFIED], the counters show one invalidation per other sharer and one writeback when
    dirty data was held elsewhere, and the entries of all other lines are unchanged. *)
Theorem engine_write_exclusive {D} `{Double D} (req : CoherencyRequest) (g : CoherencyEngine D)
  (Hg : engine_ok g) :
  let n := rq_requesting_node req in
  let e := engine_entry g (rq_addr req) in
  let g' := snd (process_write req g) in
  let e' := engine_entry g' (rq_addr req) in
  rs_new_state (fst (process_write req g)) = MODIFIED /\
  node_view e' n = MODIFIED /\ (forall m, m <> n -> node_view e' m = INVALID) /\
  de_version e' = wrap32 (de_version e + 1) /\
  env_counts (ce_env g) (ce_env g') (write_invalidations n e) (write_writebacks n e) /\
  (forall b, line_of b <> line_of (rq_addr req) -> engine_entry g' b = engine_entry g b).
Proof.
  intros n e g' e'. destruct (engine_entry_ok g (rq_addr req) Hg) as [He _].
  destruct (write_entry_spec req _ (ce_env g) He) as (Hx & Hver & Hst & _).
  destruct (exclusive_for_views _ _ Hx) as [V1 V2].
  pose proof (process_write_counts req g) as C.
  destruct (process_write_store req g) as [S1 S2].
  assert (E' : e' = out_entry (write_entry req e (ce_env g))).
  { unfold e', g'. rewrite S2, engine_entry_store, decide_True by done. done. }
  rewrite E'. split; [congruence|]. split; [done|]. split; [done|]. split; [done|]. split; [exact C|].
  intros b Hb. unfold g'. rewrite S2, engine_entry_store, decide_False by done. done.
Qed.

Lemma engine_write_exclusive_witness :
  let req := mkCoherencyRequest 70 3 0 true 20 in
  rs_new_state (fst (process_write req demo_shared)) = MODIFIED /\
  total_invalidations_ (ee_counters (ce_env (snd (process_write req demo_shared)))) = 2.
Proof.
  intros req. split; [|vm_compute; reflexivity].
  apply (engine_write_exclusive req demo_shared).
  apply (engine_reachable_ok demo_engine); [exact demo_shared_reachable|apply engine_new_ok].
Defined.

(** A read obtains a readable copy: afterwards the requester holds the line in the state
    that the reply names, which is not [INVALID]; every other holder keeps its copy, a
    modified one becoming owned; and the entries of all other lines are unchanged. *)
Theorem engine_read_grants {D} `{Double D} (req : CoherencyRequest) (g : CoherencyEngine D)
  (Hg : engine_ok g) (Hn : rq_requesting_node req <> UINT32_MAX) :
  let n := rq_requesting_node req in
  let e := engine_entry g (rq_addr req) in
  let g' := snd (process_read req g) in
  let e' := engine_entry g' (rq_addr req) in
  rs_new_state (fst (process_read req g)) = node_view e' n /\ node_view e' n <> INVALID /\
  (forall m, m <> n -> node_view e' m = snoop_read (node_view e m)) /\
  (forall b, line_of b <> line_of (rq_addr req) -> engine_entry g' b = engine_entry g b).
Proof.
  intros n e g' e'. destruct (engine_entry_ok g (rq_addr req) Hg) as [He _].
  destruct (read_entry_spec req _ (ce_env g) He Hn) as (_ & Hv & Hm & Hst & _).
  destruct (process_read_store req g) as [S1 S2].
  assert (E' : e' = out_entry (read_entry req e (ce_env g))).
  { unfold e', g'. rewrite S2, engine_entry_store, decide_True by done. done. }
  rewrite E'. split; [rewrite S1; exact Hst|]. split; [fold n e in Hv; rewrite Hv; by destruct (node_view e n)|].
  split; [done|]. intros b Hb. unfold g'. rewrite S2, engine_entry_store, decide_False by done. done.
Qed.

Lemma engine_read_grants_witness :
  let g := engine_apply (demo_write 3) demo_shared in
  let req := mkCoherencyRequest 64 1 0 false 30 in
  node_view (engine_entry (snd (process_read req g)) 64) 3 = snoop_read (node_view (engine_entry g 64) 3) /\
  node_view (engine_entry (snd (process_read req g)) 64) 3 = OWNED.
Proof.
  intros g req. split; [|vm_compute; reflexivity].
  apply (engine_read_grants req g); [|discriminate|discriminate].
  apply engine_apply_step; [|discriminate].
  apply (engine_reachable_ok demo_engine); [exact demo_shared_reachable|apply engine_new_ok].
Defined.

(** Parts of the engine that never act: in every reachable state no line is
    [EXCLUSIVE], and the contention term of every request is zero, because no request
    updates the read and write counters of the heads it is computed from. *)
Theorem engine_dead_paths {D} `{Double D} (local : Z) (logp : option (LogPModel D)) (heads : nat) (bw : D)
  (g : CoherencyEngine D) (Hr : rtc engine_step (engine_new local logp heads bw) g) :
  (forall addr, de_state (engine_entry g addr) <> EXCLUSIVE) /\
  (forall head_id, calculate_contention_latency head_id (ce_env g) = d_of_Z 0).
Proof.
  split.
  - intros addr E. pose proof (engine_reachable_ok _ _ Hr (engine_new_ok _ _ _ _)) as Hg.
    destruct (engine_entry_ok g addr Hg) as [[_ He] _]. by rewrite E in He.
  - assert (Hi : heads_idle (ee_heads (ce_env g))).
    { pose proof (engine_new_idle local logp heads bw) as H0.
      induction Hr as [|g0 g1 g2 [op ? Hop] _ IH]; [done|]. apply IH. by apply engine_apply_idle. }
    intros h. unfold calculate_contention_latency. rewrite (heads_idle_contending _ Hi).
    destruct (_ !! _); [|done]. by destruct (negb _).
Qed.

Lemma engine_dead_paths_witness :
  calculate_contention_latency 0 (ce_env demo_shared) = d_of_Z 0.
Proof.
  apply (engine_dead_paths 0 (Some logp_default) 4 (d_of_Z 25) demo_shared).
  exact demo_shared_reachable.
Defined.

(** A stale sharer survives the owner's invalidation: after two nodes read a line and the
    owner, the local node, is told to invalidate it, the entry is [INVALID] while the other
    node still holds a shared copy; a write by a third node then takes the line without
    sending that holder an invalidation. *)
Theorem engine_stale_sharer :
  let read n := OpRead (mkCoherencyRequest 64 n 0 false 10) in
  let g0 := engine_new 1 None 4 (d_of_Z 25 : spec_float) in
  let g := engine_apply (OpInvalidate 64 3) (engine_apply (read 2) (engine_apply (read 1) g0)) in
  let req := mkCoherencyRequest 64 3 0 true 20 in
  rtc engine_step g0 g /\
  de_state (engine_entry g 64) = INVALID /\ node_view (engine_entry g 64) 2 = SHARED /\
  total_coherency_messages_ (ee_counters (ce_env (snd (process_write req g)))) = 0 /\
  total_invalidations_ (ee_counters (ce_env (snd (process_write req g)))) =
    total_invalidations_ (ee_counters (ce_env g)).
Proof.
  intros read g0 g req. split; [|vm_compute; done].
  eapply rtc_l; [apply (engine_step_op (read 1)); discriminate|].
  eapply rtc_l; [apply (engine_step_op (read 2)); discriminate|].
  apply rtc_once. by apply (engine_step_op (OpInvalidate 64 3)).
Qed.
