(* ===== verification/MhSld.v ===== *)
(** * The multi-headed single logical device ([MHSLDDevice] in [include/cxlendpoint.h],
    [src/cxlendpoint.cpp])

    A memory device shared by up to 16 heads (host ports): a directory of cachelines with
    the MOESI states, per-head accounting and a pool of memory per head.  An access holds
    the lock of its entry and is one step.  [None] is undefined behaviour: an index outside
    the vector of heads. *)
From Stdlib Require Import SpecFloat.
From S2P Require Import Prelude Double LogP Fabric Moesi.
#[local] Open Scope Z_scope.

Record MHSLDCachelineInfo := mkCachelineInfo {
  ci_address : Z;
  ci_sharers : gset Z;
  ci_owner_head : Z;
  ci_owner_state : MHSLDCacheState;
  ci_version : Z;
  ci_last_access_time : Z;
  ci_access_count : Z;
  ci_has_dirty_data : bool
}.

Set Implicit Arguments.

Record MHSLDDevice (D : Type) := mkMHSLDDevice {
  md_total_capacity : Z;
  md_num_heads : Z;
  md_base_read_latency : D;
  md_base_write_latency : D;
  md_max_bandwidth : D;
  md_heads : list (MHSLDHeadState D);
  md_directory : gmap Z MHSLDCachelineInfo;
  md_logp_model : LogPModel D;
  md_coherency_messages : Z;
  md_invalidations : Z;
  md_downgrades : Z;
  md_writebacks : Z
}.

Record MHSLDStats (D : Type) := mkMHSLDStats {
  st_coherency_messages : Z;
  st_invalidations : Z;
  st_downgrades : Z;
  st_writebacks : Z;
  st_avg_read_latency : D;
  st_avg_write_latency : D;
  st_pool_utilization : D
}.

Unset Implicit Arguments.

Definition MAX_HEADS : Z := 16.

Definition info_new (cl_addr : Z) : MHSLDCachelineInfo :=
  mkCachelineInfo cl_addr ∅ UINT32_MAX INVALID 0 0 0 false.

(** ** Field updates *)
Definition ci_access (ts : Z) (e : MHSLDCachelineInfo) : MHSLDCachelineInfo :=
  mkCachelineInfo (ci_address e) (ci_sharers e) (ci_owner_head e) (ci_owner_state e) (ci_version e)
    ts (ci_access_count e ⊞ 1) (ci_has_dirty_data e).

Definition ci_bump_version (e : MHSLDCachelineInfo) : MHSLDCachelineInfo :=
  mkCachelineInfo (ci_address e) (ci_sharers e) (ci_owner_head e) (ci_owner_state e)
    (wrap32 (ci_version e + 1)) (ci_last_access_time e) (ci_access_count e) (ci_has_dirty_data e).

Definition ci_set_sharers (s : gset Z) (e : MHSLDCachelineInfo) : MHSLDCachelineInfo :=
  mkCachelineInfo (ci_address e) s (ci_owner_head e) (ci_owner_state e) (ci_version e)
    (ci_last_access_time e) (ci_access_count e) (ci_has_dirty_data e).

Definition ci_set_owner (h : Z) (s : MHSLDCacheState) (e : MHSLDCachelineInfo) : MHSLDCachelineInfo :=
  mkCachelineInfo (ci_address e) (ci_sharers e) h s (ci_version e)
    (ci_last_access_time e) (ci_access_count e) (ci_has_dirty_data e).

Definition ci_set_dirty (b : bool) (e : MHSLDCachelineInfo) : MHSLDCachelineInfo :=
  mkCachelineInfo (ci_address e) (ci_sharers e) (ci_owner_head e) (ci_owner_state e) (ci_version e)
    (ci_last_access_time e) (ci_access_count e) b.

Definition ci_add_sharer (h : Z) (e : MHSLDCachelineInfo) : MHSLDCachelineInfo :=
  ci_set_sharers ({[h]} ∪ ci_sharers e) e.

Section Device.
Context {D : Type} `{Double D}.
#[local] Open Scope double_scope.

Definition md_set_heads (hs : list (MHSLDHeadState D)) (d : MHSLDDevice D) : MHSLDDevice D :=
  mkMHSLDDevice (md_total_capacity d) (md_num_heads d) (md_base_read_latency d)
    (md_base_write_latency d) (md_max_bandwidth d) hs (md_directory d) (md_logp_model d)
    (md_coherency_messages d) (md_invalidations d) (md_downgrades d) (md_writebacks d).

Definition md_set_directory (dir : gmap Z MHSLDCachelineInfo) (d : MHSLDDevice D) : MHSLDDevice D :=
  mkMHSLDDevice (md_total_capacity d) (md_num_heads d) (md_base_read_latency d)
    (md_base_write_latency d) (md_max_bandwidth d) (md_heads d) dir (md_logp_model d)
    (md_coherency_messages d) (md_invalidations d) (md_downgrades d) (md_writebacks d).

Definition md_set_logp (m : LogPModel D) (d : MHSLDDevice D) : MHSLDDevice D :=
  mkMHSLDDevice (md_total_capacity d) (md_num_heads d) (md_base_read_latency d)
    (md_base_write_latency d) (md_max_bandwidth d) (md_heads d) (md_directory d) m
    (md_coherency_messages d) (md_invalidations d) (md_downgrades d) (md_writebacks d).

(** Add to the counters of messages, invalidations, downgrades and writebacks. *)
Definition md_count (msgs inv down wb : Z) (d : MHSLDDevice D) : MHSLDDevice D :=
  mkMHSLDDevice (md_total_capacity d) (md_num_heads d) (md_base_read_latency d)
    (md_base_write_latency d) (md_max_bandwidth d) (md_heads d) (md_directory d) (md_logp_model d)
    (md_coherency_messages d ⊞ msgs) (md_invalidations d ⊞ inv) (md_downgrades d ⊞ down)
    (md_writebacks d ⊞ wb).

Definition head_set_pool (active : bool) (alloc used : Z) (h : MHSLDHeadState D) : MHSLDHeadState D :=
  mkHead (hd_head_id h) alloc used (hd_bandwidth_share h) (hd_total_reads h) (hd_total_writes h)
    (hd_coherency_stalls h) (hd_back_invalidations h) active.

Definition head_set_share (share : D) (h : MHSLDHeadState D) : MHSLDHeadState D :=
  mkHead (hd_head_id h) (hd_allocated_capacity h) (hd_used_capacity h) share (hd_total_reads h)
    (hd_total_writes h) (hd_coherency_stalls h) (hd_back_invalidations h) (hd_active h).

Definition head_count (reads writes stalls binv : Z) (h : MHSLDHeadState D) : MHSLDHeadState D :=
  mkHead (hd_head_id h) (hd_allocated_capacity h) (hd_used_capacity h) (hd_bandwidth_share h)
    (hd_total_reads h ⊞ reads) (hd_total_writes h ⊞ writes) (hd_coherency_stalls h ⊞ stalls)
    (hd_back_invalidations h ⊞ binv) (hd_active h).

(** [heads[i]] updated in place; [None] when [i] is out of range. *)
Definition head_update (i : Z) (f : MHSLDHeadState D -> MHSLDHeadState D) (d : MHSLDDevice D) :
    option (MHSLDDevice D) :=
  h ← md_heads d !! Z.to_nat i; Some (md_set_heads (<[Z.to_nat i := f h]> (md_heads d)) d).

(** The guard [head_id >= MAX_HEADS || !heads[head_id].active], negated. *)
Definition head_usable (d : MHSLDDevice D) (head_id : Z) : option bool :=
  if MAX_HEADS <=? head_id then Some false
  else h ← md_heads d !! Z.to_nat head_id; Some (hd_active h).

Definition device_new (capacity num_heads : Z) (read_lat write_lat bandwidth : D) (cfg : LogPConfig D) :
    MHSLDDevice D :=
  mkMHSLDDevice capacity num_heads read_lat write_lat bandwidth
    ((fun i => mkHead (Z.of_nat i) 0 0 (d_of_Z 0) 0 0 0 0 false) <$> seq 0 (Z.to_nat MAX_HEADS))
    ∅ (logp_new cfg) 0 0 0 0.

(** ** Heads *)
Definition total_alloc (hs : list (MHSLDHeadState D)) : Z :=
  foldl (fun acc h => if hd_active h then acc ⊞ hd_allocated_capacity h else acc) 0 hs.

Definition rebalance_bandwidth (d : MHSLDDevice D) : MHSLDDevice D :=
  let hs := md_heads d in
  if active_heads hs =? 0 then d
  else
    let share h :=
      if hd_active h && (0 <? total_alloc hs)
      then d_of_Z (hd_allocated_capacity h) ⊘ d_of_Z (total_alloc hs)
      else if hd_active h then d_of_Z 1 ⊘ d_of_Z (active_heads hs) else d_of_Z 0 in
    md_set_heads ((fun h => head_set_share (share h) h) <$> hs) d.

Definition activate_head (head_id capacity_alloc : Z) (d : MHSLDDevice D) : option (bool * MHSLDDevice D) :=
  if MAX_HEADS <=? head_id then Some (false, d)
  else
    d1 ← head_update head_id (head_set_pool true capacity_alloc 0) d;
    Some (true, rebalance_bandwidth d1).

(** What [deactivate_head] does to each entry. *)
Definition info_drop_head (head_id : Z) (e : MHSLDCachelineInfo) : MHSLDCachelineInfo :=
  let e1 :=
    if ci_owner_head e =? head_id then
      let e0 := match ci_owner_state e with MODIFIED => ci_set_dirty true e | _ => e end in
      ci_set_owner UINT32_MAX INVALID e0
    else e in
  ci_set_sharers (ci_sharers e1 ∖ {[head_id]}) e1.

Definition deactivate_head (head_id : Z) (d : MHSLDDevice D) : option (MHSLDDevice D) :=
  if MAX_HEADS <=? head_id then Some d
  else
    d1 ← head_update head_id
           (fun h => head_set_share (d_of_Z 0)
                       (head_set_pool false (hd_allocated_capacity h) (hd_used_capacity h) h)) d;
    Some (rebalance_bandwidth (md_set_directory (info_drop_head head_id <$> md_directory d1) d1)).

(** ** Pools *)
Definition allocate_pool (head_id size : Z) (d : MHSLDDevice D) : option (Z * MHSLDDevice D) :=
  ok ← head_usable d head_id;
  if negb ok then Some (0, d)
  else
    h ← md_heads d !! Z.to_nat head_id;
    if hd_allocated_capacity h <? hd_used_capacity h ⊞ size then Some (0, d)
    else
      let base := head_id ⊠ (md_total_capacity d / MAX_HEADS) in
      let addr := base ⊞ hd_used_capacity h in
      d1 ← head_update head_id
             (fun h => head_set_pool (hd_active h) (hd_allocated_capacity h) (hd_used_capacity h ⊞ size) h) d;
      Some (addr, d1).

(** What [release_pool] does to an entry of the released region. *)
Definition info_release (head_id : Z) (e : MHSLDCachelineInfo) : MHSLDCachelineInfo :=
  let e1 := ci_set_sharers (ci_sharers e ∖ {[head_id]}) e in
  if ci_owner_head e1 =? head_id then ci_set_owner UINT32_MAX INVALID e1 else e1.

Fixpoint release_loop (fuel : nat) (head_id cl_addr end_addr : Z) (dir : gmap Z MHSLDCachelineInfo) :
    option (gmap Z MHSLDCachelineInfo) :=
  match fuel with
  | O => None
  | S fuel' =>
      if cl_addr <? end_addr then
        let dir' := match dir !! line_of cl_addr with
                    | Some e => <[line_of cl_addr := info_release head_id e]> dir
                    | None => dir
                    end in
        release_loop fuel' head_id (cl_addr ⊞ CACHELINE_SIZE) end_addr dir'
      else Some dir
  end.

Definition release_pool (fuel : nat) (head_id addr size : Z) (d : MHSLDDevice D) : option (MHSLDDevice D) :=
  ok ← head_usable d head_id;
  if negb ok then Some d
  else
    dir ← release_loop fuel head_id (line_of addr) (addr ⊞ size) (md_directory d);
    head_update head_id
      (fun h => head_set_pool (hd_active h) (hd_allocated_capacity h)
                  (if size <=? hd_used_capacity h then hd_used_capacity h - size else hd_used_capacity h) h)
      (md_set_directory dir d).

Definition total_used (hs : list (MHSLDHeadState D)) : Z :=
  foldl (fun acc h => if hd_active h then acc ⊞ hd_used_capacity h else acc) 0 hs.

Definition get_pool_utilization (d : MHSLDDevice D) : D :=
  if 0 <? md_total_capacity d then d_of_Z (total_used (md_heads d)) ⊘ d_of_Z (md_total_capacity d)
  else d_of_Z 0.

(** ** Coherent accesses *)
Definition device_entry (d : MHSLDDevice D) (addr : Z) : MHSLDCachelineInfo :=
  default (info_new (line_of addr)) (md_directory d !! line_of addr).

Definition device_store (addr : Z) (e : MHSLDCachelineInfo) (d : MHSLDDevice D) : MHSLDDevice D :=
  md_set_directory (<[line_of addr := e]> (md_directory d)) d.

Definition calculate_contention_latency (head_id : Z) (d : MHSLDDevice D) : D :=
  match md_heads d !! Z.to_nat head_id with
  | None => d_of_Z 0
  | Some hd =>
      if negb (hd_active hd) then d_of_Z 0
      else if contending_heads (md_heads d) <=? 1 then d_of_Z 0
      else
        let fair_share := if hd_bandwidth_share hd ⩿ d_of_Z 0
          then d_of_Z 1 ⊘ d_of_Z (contending_heads (md_heads d)) else hd_bandwidth_share hd in
        let contention_factor := d_lit 3 10 in
        let additional :=
          md_base_read_latency d ⊗ (d_of_Z 1 ⊘ fair_share ⊖ d_of_Z 1) ⊗ contention_factor in
        d_min additional (md_base_read_latency d ⊗ d_of_Z 5)
  end.

Definition calculate_fair_share_bandwidth (head_id : Z) (d : MHSLDDevice D) : D :=
  match md_heads d !! Z.to_nat head_id with
  | Some hd => if hd_active hd then md_max_bandwidth d ⊗ hd_bandwidth_share hd else d_of_Z 0
  | None => d_of_Z 0
  end.

(** The sharers to invalidate: the active ones other than [except_head]. *)
Fixpoint inv_targets (hs : list (MHSLDHeadState D)) (except_head : Z) (sharers : list Z) : option (list Z) :=
  match sharers with
  | [] => Some []
  | s :: rest =>
      ts ← inv_targets hs except_head rest;
      if s =? except_head then Some ts
      else h ← hs !! Z.to_nat s; Some (if hd_active h then s :: ts else ts)
  end.

Fixpoint inv_loop (targets : list Z) (max_inv gap : D) (d : MHSLDDevice D) : option (D * MHSLDDevice D) :=
  match targets with
  | [] => Some (max_inv, d)
  | s :: rest =>
      let cfg := lm_config (md_logp_model d) in
      let inv_latency := gap ⊕ lc_L cfg ⊕ lc_o_r cfg in
      d1 ← head_update s (head_count 0 0 0 1) d;
      inv_loop rest (d_max max_inv inv_latency) (gap ⊕ lc_g cfg) (md_count 1 1 0 0 d1)
  end.

(** [invalidate_sharers] on the entry [e] that the caller holds. *)
Definition invalidate_info (e : MHSLDCachelineInfo) (except_head : Z) (d : MHSLDDevice D) :
    option (D * MHSLDCachelineInfo * MHSLDDevice D) :=
  targets ← inv_targets (md_heads d) except_head (ascending (ci_sharers e));
  '(m, d1) ← inv_loop targets (d_of_Z 0) (d_of_Z 0) d;
  let latency := match targets with
                 | [] => m
                 | _ => m ⊕ lc_o_s (lm_config (md_logp_model d1))
                 end in
  Some (latency, ci_set_sharers ∅ e, d1).

Definition invalidate_sharers (addr except_head : Z) (d : MHSLDDevice D) : option (D * MHSLDDevice D) :=
  match md_directory d !! line_of addr with
  | None => Some (d_of_Z 0, d)
  | Some e =>
      '(l, e1, d1) ← invalidate_info e except_head d;
      Some (l, device_store addr e1 d1)
  end.

(** The switch of [read_with_coherency]; [latency] is what has been added so far. *)
Definition read_switch (head_id timestamp : Z) (latency : D) (e : MHSLDCachelineInfo) (d : MHSLDDevice D) :
    option (D * MHSLDCachelineInfo * MHSLDDevice D) :=
  match ci_owner_state e with
  | INVALID => Some (latency, ci_set_owner head_id SHARED (ci_add_sharer head_id e), d)
  | SHARED => Some (latency, ci_add_sharer head_id e, d)
  | EXCLUSIVE | MODIFIED =>
      let '(snoop, m) := message_latency (md_logp_model d) timestamp (ci_owner_head e) in
      let '(e1, d1) :=
        match ci_owner_state e with
        | MODIFIED => (ci_set_owner (ci_owner_head e) OWNED e, md_count 0 0 1 0 (md_set_logp m d))
        | _ => (ci_set_owner (ci_owner_head e) SHARED (ci_add_sharer (ci_owner_head e) e), md_set_logp m d)
        end in
      d2 ← head_update head_id (head_count 0 0 1 0) d1;
      Some (latency ⊕ snoop, ci_add_sharer head_id e1, md_count 1 0 0 0 d2)
  | OWNED =>
      let '(fwd, m) := message_latency (md_logp_model d) timestamp (ci_owner_head e) in
      Some (latency ⊕ fwd, ci_add_sharer head_id e, md_count 1 0 0 0 (md_set_logp m d))
  end.

Definition read_with_coherency (head_id addr timestamp : Z) (d : MHSLDDevice D) : option (D * MHSLDDevice D) :=
  ok ← head_usable d head_id;
  if negb ok then Some (d_of_Z 0, d)
  else
    let e := ci_access timestamp (device_entry d addr) in
    d1 ← head_update head_id (head_count 1 0 0 0) d;
    let latency := md_base_read_latency d1 in
    if (ci_owner_head e =? head_id) && owned_state (ci_owner_state e) then
      Some (latency ⊕ calculate_contention_latency head_id d1, device_store addr e d1)
    else if decide (head_id ∈ ci_sharers e) then
      Some (latency ⊕ calculate_contention_latency head_id d1, device_store addr e d1)
    else
      '(l, e1, d2) ← read_switch head_id timestamp latency e d1;
      let latency' := l ⊕ calculate_contention_latency head_id d2 in
      let d3 := md_set_logp (record_message head_id (d_to_u64 latency') (md_logp_model d2)) d2 in
      Some (latency', device_store addr e1 d3).

(** The switch of [write_with_coherency]. *)
Definition write_switch (head_id timestamp : Z) (e : MHSLDCachelineInfo) (d : MHSLDDevice D) :
    option (D * MHSLDCachelineInfo * MHSLDDevice D) :=
  match ci_owner_state e with
  | INVALID => Some (d_of_Z 0, e, d)
  | SHARED => invalidate_info e head_id d
  | _ =>
      '(c, d2) ←
        (if negb (ci_owner_head e =? head_id) then
           let '(snoop, m) := message_latency (md_logp_model d) timestamp (ci_owner_head e) in
           let d1 := md_set_logp m d in
           let d1' := match ci_owner_state e with
                      | MODIFIED | OWNED => md_count 0 0 0 1 d1
                      | _ => d1
                      end in
           d2 ← head_update (ci_owner_head e) (head_count 0 0 0 1) d1';
           Some (d_of_Z 0 ⊕ snoop, md_count 1 0 0 0 d2)
         else Some (d_of_Z 0, d));
      '(inv, e1, d3) ← invalidate_info e head_id d2;
      Some (c ⊕ inv, e1, d3)
  end.

Definition write_with_coherency (head_id addr timestamp : Z) (d : MHSLDDevice D) : option (D * MHSLDDevice D) :=
  ok ← head_usable d head_id;
  if negb ok then Some (d_of_Z 0, d)
  else
    let e := ci_bump_version (ci_access timestamp (device_entry d addr)) in
    d1 ← head_update head_id (head_count 0 1 0 0) d;
    let latency := md_base_write_latency d1 in
    let modified e := ci_set_dirty true (ci_set_owner head_id MODIFIED e) in
    let acquire :=
      '(c, e1, d2) ← write_switch head_id timestamp e d1;
      d3 ← head_update head_id (head_count 0 0 (if d_of_Z 0 ⋖ c then 1 else 0) 0) d2;
      let latency' := latency ⊕ c ⊕ calculate_contention_latency head_id d3 in
      let d4 := md_set_logp (record_message head_id (d_to_u64 latency') (md_logp_model d3)) d3 in
      Some (latency', device_store addr (modified (ci_set_sharers ∅ e1)) d4) in
    if ci_owner_head e =? head_id then
      match ci_owner_state e with
      | EXCLUSIVE | MODIFIED =>
          Some (latency ⊕ calculate_contention_latency head_id d1, device_store addr (modified e) d1)
      | OWNED =>
          '(inv, e1, d2) ← invalidate_info e head_id d1;
          Some (latency ⊕ inv ⊕ calculate_contention_latency head_id d2, device_store addr (modified e1) d2)
      | _ => acquire
      end
    else acquire.

Definition atomic_with_coherency (head_id addr timestamp : Z) (d : MHSLDDevice D) : option (D * MHSLDDevice D) :=
  '(latency, d1) ← write_with_coherency head_id addr timestamp d;
  let cfg := lm_config (md_logp_model d1) in
  Some (latency ⊕ (lc_o_s cfg ⊕ lc_o_r cfg), d1).

Definition downgrade_owner (addr requesting_head timestamp : Z) (d : MHSLDDevice D) : D * MHSLDDevice D :=
  match md_directory d !! line_of addr with
  | None => (d_of_Z 0, d)
  | Some e =>
      let owner := ci_owner_head e in
      if (owner =? UINT32_MAX) || (owner =? requesting_head) then (d_of_Z 0, d)
      else
        let '(l, m) := message_latency (md_logp_model d) timestamp owner in
        let e1 := match ci_owner_state e with
                  | MODIFIED => ci_set_dirty true (ci_set_owner owner OWNED e)
                  | EXCLUSIVE => ci_set_owner UINT32_MAX SHARED (ci_add_sharer owner e)
                  | _ => e
                  end in
        (l, device_store addr e1 (md_count 1 0 1 0 (md_set_logp m d)))
  end.

Definition writeback (addr head_id timestamp : Z) (d : MHSLDDevice D) : D * MHSLDDevice D :=
  match md_directory d !! line_of addr with
  | None => (d_of_Z 0, d)
  | Some e =>
      if negb (ci_owner_head e =? head_id) then (d_of_Z 0, d)
      else
        let cfg := lm_config (md_logp_model d) in
        let dirty := match ci_owner_state e with MODIFIED | OWNED => true | _ => false end in
        let l := if dirty then md_base_write_latency d ⊕ (lc_o_s cfg ⊕ lc_L cfg) else md_base_write_latency d in
        let e1 := if dirty then ci_set_dirty false e else e in
        let e2 := ci_set_sharers (ci_sharers e1 ∖ {[head_id]}) (ci_set_owner UINT32_MAX INVALID e1) in
        (l, device_store addr e2 (md_count 0 0 0 1 d))
  end.

Definition get_stats (d : MHSLDDevice D) : MHSLDStats D :=
  mkMHSLDStats (md_coherency_messages d) (md_invalidations d) (md_downgrades d) (md_writebacks d)
    (md_base_read_latency d) (md_base_write_latency d) (get_pool_utilization d).
End Device.

(** ** Specification *)
#[global] Instance info_line : MoesiLine MHSLDCachelineInfo := {|
  ml_state := ci_owner_state;
  ml_owner := ci_owner_head;
  ml_sharers := ci_sharers
|}.

Definition valid_head (h : Z) : Prop := 0 <= h < MAX_HEADS.

(** The invariant of a directory entry: its heads exist, a modified copy is alone, an owned
    copy is not also a shared one. *)
Definition info_ok (e : MHSLDCachelineInfo) : Prop :=
  (forall s, s ∈ ci_sharers e -> valid_head s) /\
  match ci_owner_state e with
  | EXCLUSIVE => False
  | MODIFIED => ci_sharers e = ∅ /\ valid_head (ci_owner_head e)
  | OWNED => ci_owner_head e ∉ ci_sharers e /\ valid_head (ci_owner_head e)
  | _ => True
  end.

Definition device_ok {D} (d : MHSLDDevice D) : Prop :=
  length (md_heads d) = 16%nat /\
  forall k e, md_directory d !! k = Some e -> info_ok e /\ ci_address e = k /\ line_of k = k.

(** The requests to the device. *)
Inductive device_op :=
| DRead (head_id addr timestamp : Z)
| DWrite (head_id addr timestamp : Z)
| DAtomic (head_id addr timestamp : Z)
| DDowngrade (addr requesting_head timestamp : Z)
| DWriteback (addr head_id timestamp : Z)
| DActivate (head_id capacity : Z)
| DDeactivate (head_id : Z)
| DAllocate (head_id size : Z)
| DRelease (head_id addr size : Z).

(** Iterations after which the loop of [release_pool] has passed the end of the region. *)
Definition release_fuel (addr size : Z) : nat := S (Z.to_nat ((size + 63) / 64 + 1)).

Definition device_apply {D} `{Double D} (op : device_op) (d : MHSLDDevice D) : option (MHSLDDevice D) :=
  match op with
  | DRead h a t => snd <$> read_with_coherency h a t d
  | DWrite h a t => snd <$> write_with_coherency h a t d
  | DAtomic h a t => snd <$> atomic_with_coherency h a t d
  | DDowngrade a h t => Some (snd (downgrade_owner a h t d))
  | DWriteback a h t => Some (snd (writeback a h t d))
  | DActivate h c => snd <$> activate_head h c d
  | DDeactivate h => deactivate_head h d
  | DAllocate h s => snd <$> allocate_pool h s d
  | DRelease h a s => release_pool (release_fuel a s) h a s d
  end.

(** Head identifiers are unsigned; a released region ends below the last cacheline of the
    64-bit address space. *)
Definition device_op_valid (op : device_op) : Prop :=
  match op with
  | DRead h _ _ | DWrite h _ _ | DAtomic h _ _ | DDowngrade _ h _ | DWriteback _ h _
  | DActivate h _ | DDeactivate h | DAllocate h _ => 0 <= h
  | DRelease h a s => 0 <= h /\ 0 <= a /\ 0 <= s /\ a + s <= 2 ^ 64 - 64
  end.

(** ** Lemmas *)
Section DeviceLemmas.
Context {D : Type} `{Double D}.
Implicit Types d : MHSLDDevice D.
Implicit Types e : MHSLDCachelineInfo.

(** The parts of the device that the invariant reads. *)
Definition same_dir d d' : Prop :=
  md_directory d' = md_directory d /\ length (md_heads d') = length (md_heads d).

Lemma same_dir_refl d : same_dir d d.
Proof. done. Qed.

Lemma same_dir_trans d1 d2 d3 : same_dir d1 d2 -> same_dir d2 d3 -> same_dir d1 d3.
Proof. intros [A1 A2] [B1 B2]. split; congruence. Qed.

Lemma same_dir_count d a b c w : same_dir d (md_count a b c w d).
Proof. done. Qed.

Lemma same_dir_logp d m : same_dir d (md_set_logp m d).
Proof. done. Qed.

Lemma head_update_some (i : Z) f d :
  length (md_heads d) = 16%nat -> valid_head i ->
  exists d', head_update i f d = Some d' /\ same_dir d d'.
Proof.
  intros Hl Hi. unfold head_update, valid_head, MAX_HEADS in *.
  destruct (lookup_lt_is_Some_2 (md_heads d) (Z.to_nat i)) as [h Eh]; [lia|]. rewrite Eh. cbn.
  eexists. split; [done|]. split; [done|]. cbn. by rewrite length_insert.
Qed.

Lemma inv_targets_some (hs : list (MHSLDHeadState D)) x (l : list Z) :
  length hs = 16%nat -> (forall s, s ∈ l -> valid_head s) ->
  exists ts, inv_targets hs x l = Some ts /\ (forall s, s ∈ ts -> valid_head s).
Proof.
  intros Hl. induction l as [|s l IH]; intros Hv; cbn [inv_targets].
  - exists []. split; [done|]. intros s Hs. by apply not_elem_of_nil in Hs.
  - destruct IH as (ts & -> & Ht); [intros; apply Hv; set_solver|]. cbn.
    assert (Hs : valid_head s) by (apply Hv; set_solver). unfold valid_head, MAX_HEADS in Hs.
    destruct (s =? x); [eauto|].
    destruct (lookup_lt_is_Some_2 hs (Z.to_nat s)) as [h Eh]; [lia|]. rewrite Eh. cbn.
    eexists. split; [done|]. destruct (hd_active h); [|done]. intros y Hy.
    apply elem_of_cons in Hy as [->|Hy]; [unfold valid_head, MAX_HEADS; lia|auto].
Qed.

Lemma inv_loop_some (ts : list Z) (a b : D) d :
  length (md_heads d) = 16%nat -> (forall s, s ∈ ts -> valid_head s) ->
  exists l d', inv_loop ts a b d = Some (l, d') /\ same_dir d d'.
Proof.
  revert a b d. induction ts as [|s ts IH]; intros a b d Hl Hv; cbn [inv_loop].
  - eauto using same_dir_refl.
  - destruct (head_update_some s (head_count 0 0 0 1) d) as (d1 & -> & S1); [done|apply Hv; set_solver|]. cbn.
    destruct (IH (d_max a (d_add (d_add b (lc_L (lm_config (md_logp_model d)))) (lc_o_r (lm_config (md_logp_model d)))))
                 (d_add b (lc_g (lm_config (md_logp_model d)))) (md_count 1 1 0 0 d1)) as (l & d' & E & S2).
    + cbn. destruct S1 as [_ L1]. congruence.
    + intros; apply Hv; set_solver.
    + eexists _, _. split; [exact E|]. eauto using same_dir_trans, same_dir_count.
Qed.

Lemma invalidate_info_some e (x : Z) d :
  length (md_heads d) = 16%nat -> (forall s, s ∈ ci_sharers e -> valid_head s) ->
  exists l d', invalidate_info e x d = Some (l, ci_set_sharers ∅ e, d') /\ same_dir d d'.
Proof.
  intros Hl Hv. unfold invalidate_info.
  destruct (inv_targets_some (md_heads d) x (ascending (ci_sharers e))) as (ts & -> & Ht); [done| |].
  { intros s Hs. apply Hv. by apply elem_of_ascending. }
  cbn. destruct (inv_loop_some ts (d_of_Z 0) (d_of_Z 0) d) as (l & d' & -> & S); [done..|]. cbn. eauto.
Qed.

Lemma info_line_coherent e : info_ok e -> line_coherent e.
Proof.
  intros [_ Hok]. unfold line_coherent. cbn [ml_state ml_sharers ml_owner info_line].
  destruct (ci_owner_state e); try done; apply Hok.
Qed.

(** The directory transition of a read miss. *)
Definition info_grant (h : Z) e : MHSLDCachelineInfo :=
  match ci_owner_state e with
  | INVALID => ci_set_owner h SHARED (ci_add_sharer h e)
  | MODIFIED => ci_add_sharer h (ci_set_owner (ci_owner_head e) OWNED e)
  | _ => ci_add_sharer h e
  end.

Lemma read_switch_grant (h ts : Z) (l : D) e d :
  length (md_heads d) = 16%nat -> valid_head h -> info_ok e ->
  exists l' d', read_switch h ts l e d = Some (l', info_grant h e, d') /\ same_dir d d'.
Proof.
  intros Hl Hh [_ Hok]. unfold read_switch, info_grant.
  destruct (message_latency (md_logp_model d) ts (ci_owner_head e)) as [x m].
  destruct (ci_owner_state e); try done.
  - eauto using same_dir_refl.
  - eauto using same_dir_refl.
  - destruct (head_update_some h (head_count 0 0 1 0) (md_count 0 0 1 0 (md_set_logp m d)))
      as (d' & -> & S); [done..|]. cbn. eexists _, _. split; [done|].
    eauto using same_dir_trans, same_dir_count, same_dir_logp.
  - eexists _, _. split; [done|]. eauto using same_dir_trans, same_dir_count, same_dir_logp.
Qed.

Lemma info_grant_ok (h : Z) e :
  info_ok e -> valid_head h -> node_view e h = INVALID -> info_ok (info_grant h e).
Proof.
  intros [Hv Hok] Hh Hview. destruct (node_view_invalid e h Hview) as [Hns Ho]. cbn in Hns, Ho.
  unfold info_grant, info_ok. destruct (ci_owner_state e) eqn:E; cbn; rewrite ?E; try done.
  - split; [set_solver|done].
  - split; [set_solver|done].
  - destruct Hok as [Hs Hw]. specialize (Ho eq_refl). split; [set_solver|]. split; [set_solver|done].
  - destruct Hok as [Hs Hw]. specialize (Ho eq_refl). split; [set_solver|]. split; [set_solver|done].
Qed.

Lemma info_grant_views (h : Z) e :
  info_ok e -> node_view e h = INVALID ->
  node_view (info_grant h e) h = SHARED /\
  (forall m, m <> h -> node_view (info_grant h e) m = snoop_read (node_view e m)).
Proof.
  intros Hok Hview. pose proof Hok as [_ Hst].
  apply read_miss_views; [by apply info_line_coherent|done|..];
    unfold info_grant; cbn [ml_state ml_sharers ml_owner info_line];
    destruct (ci_owner_state e) eqn:E; cbn; rewrite ?E; done.
Qed.

Lemma device_entry_ok d (a : Z) :
  device_ok d -> info_ok (device_entry d a) /\ ci_address (device_entry d a) = line_of a.
Proof.
  intros [_ Hd]. unfold device_entry. destruct (md_directory d !! line_of a) as [e|] eqn:E; cbn.
  - destruct (Hd _ _ E) as (? & ? & _). done.
  - split; [|done]. split; [|done]. cbn. set_solver.
Qed.

Lemma device_entry_store d (a b : Z) e :
  device_entry (device_store a e d) b = if decide (line_of b = line_of a) then e else device_entry d b.
Proof.
  unfold device_entry, device_store. cbn. case_decide as E.
  - rewrite E. by rewrite lookup_insert_eq.
  - by rewrite lookup_insert_ne.
Qed.

(** Storing an entry back into a device whose directory was not changed meanwhile. *)
Lemma device_store_step d d1 (a : Z) e :
  device_ok d -> same_dir d d1 -> info_ok e -> ci_address e = line_of a ->
  moesi_step (node_view (device_entry d a)) (node_view e) ->
  device_ok (device_store a e d1) /\
  forall b, moesi_step (node_view (device_entry d b)) (node_view (device_entry (device_store a e d1) b)).
Proof.
  intros [Hl Hd] [S1 S2] He Ha Hs. split.
  - split; [cbn; congruence|]. intros k x. cbn. rewrite S1, lookup_insert_Some.
    intros [[<- <-]|[_ Hx]]; [|by apply Hd]. rewrite line_of_idem. done.
  - intros b. rewrite device_entry_store. case_decide as E.
    + unfold device_entry in *. by rewrite E.
    + apply moesi_stutter. intros m. unfold device_entry. by rewrite S1.
Qed.

Lemma head_usable_some d (h : Z) :
  length (md_heads d) = 16%nat -> 0 <= h ->
  exists b, head_usable d h = Some b /\ (b = true -> valid_head h).
Proof.
  intros Hl Hh. unfold head_usable, valid_head, MAX_HEADS. destruct (16 <=? h) eqn:E; zify_bool.
  - by exists false.
  - destruct (lookup_lt_is_Some_2 (md_heads d) (Z.to_nat h)) as [x Ex]; [lia|]. rewrite Ex. cbn.
    eexists. split; [done|]. lia.
Qed.

(** A read by an active head: the entry it leaves. *)
Lemma read_with_coherency_spec (h a t : Z) d :
  device_ok d -> valid_head h -> head_usable d h = Some true ->
  let e := device_entry d a in
  exists l e' d1, read_with_coherency h a t d = Some (l, device_store a e' d1) /\ same_dir d d1 /\
    info_ok e' /\ ci_address e' = line_of a /\ node_view e' h = gain_read (node_view e h) /\
    (forall m, m <> h -> node_view e' m = snoop_read (node_view e m)).
Proof.
  intros Hd Hh Hu e. destruct (device_entry_ok d a Hd) as [He Ha]. fold e in He, Ha.
  destruct Hd as [Hl _]. unfold read_with_coherency. rewrite Hu. cbn. fold e.
  destruct (head_update_some h (head_count 1 0 0 0) d Hl Hh) as (d1 & -> & S1). cbn.
  set (t0 := ci_access t e). assert (Ht : info_ok t0) by exact He.
  destruct (decide (node_view e h = INVALID)) as [Hv|Hv].
  - assert (Hvt : node_view t0 h = INVALID) by exact Hv.
    destruct (node_view_invalid t0 h Hvt) as [Hns Ho]. cbn in Hns, Ho.
    assert (Ec : (ci_owner_head e =? h) && owned_state (ci_owner_state e) = false).
    { destruct (owned_state _); [|by rewrite andb_false_r].
      rewrite (proj2 (Z.eqb_neq _ _)); [done|auto]. }
    rewrite Ec, decide_False by done.
    destruct (read_switch_grant h t (md_base_read_latency d1) t0 d1) as (l' & d2 & -> & S2);
      [destruct S1; congruence|done..|]. cbn.
    destruct (info_grant_views h t0 Ht Hvt) as [V1 V2].
    eexists _, (info_grant h t0), _. split; [done|]. split; [eauto using same_dir_trans, same_dir_logp|].
    split; [by apply info_grant_ok|]. split; [by unfold info_grant; destruct (ci_owner_state t0)|].
    split; [by rewrite V1, Hv|exact V2].
  - assert (G : forall l, exists l' e' d2,
      Some (l : D, device_store a t0 d1) = Some (l', device_store a e' d2) /\ same_dir d d2 /\
      info_ok e' /\ ci_address e' = line_of a /\ node_view e' h = gain_read (node_view e h) /\
      (forall m, m <> h -> node_view e' m = snoop_read (node_view e m))).
    { intros l. eexists l, t0, d1. split; [done|]. split; [done|]. split; [done|]. split; [done|].
      change (node_view t0) with (node_view e). split; [by destruct (node_view e h) eqn:E|].
      intros m Hm. symmetry. apply (compatible_snoop (node_view e h)); [|done].
      apply line_compatible; auto using info_line_coherent. }
    unfold node_view in Hv. cbn [ml_state ml_owner ml_sharers info_line] in Hv.
    destruct (andb _ _); [apply G|]. case_decide; [apply G|done].
Qed.

(** The entry held by head [h] alone. *)
Definition info_exclusive (h : Z) e : Prop :=
  ci_owner_state e = MODIFIED /\ ci_owner_head e = h /\ ci_sharers e = ∅ /\ ci_has_dirty_data e = true.

Lemma info_exclusive_ok (h : Z) e : valid_head h -> info_exclusive h e -> info_ok e.
Proof. intros Hh (Hs & Ho & Hsh & _). unfold info_ok. rewrite Hs, Ho, Hsh. set_solver. Qed.

Lemma info_exclusive_views (h : Z) e :
  info_exclusive h e -> node_view e h = MODIFIED /\ (forall m, m <> h -> node_view e m = INVALID).
Proof. intros (Hs & Ho & Hsh & _). by apply exclusive_views. Qed.

Lemma write_switch_some (h t : Z) e d :
  length (md_heads d) = 16%nat -> info_ok e ->
  exists c e1 d', write_switch h t e d = Some (c, e1, d') /\ same_dir d d' /\
    ci_address e1 = ci_address e /\ ci_version e1 = ci_version e.
Proof.
  intros Hl [Hv Hok]. unfold write_switch.
  assert (Inv : forall (c : D) d0, same_dir d d0 -> exists l e1 d',
    ('(inv, e2, d3) ← invalidate_info e h d0; Some (d_add c inv, e2, d3)) = Some (l, e1, d') /\
    same_dir d d' /\ ci_address e1 = ci_address e /\ ci_version e1 = ci_version e).
  { intros c d0 S0. destruct (invalidate_info_some e h d0) as (l & d' & -> & S);
      [destruct S0; congruence|done|]. cbn. eexists _, _, _. split; [done|].
    split; [eauto using same_dir_trans|done]. }
  assert (Own : valid_head (ci_owner_head e) -> forall k, (forall x, same_dir x (k x)) -> exists c e1 d',
    ('(c, d2) ← (if negb (ci_owner_head e =? h) then
        let '(snoop, m) := message_latency (md_logp_model d) t (ci_owner_head e) in
        d2 ← head_update (ci_owner_head e) (head_count 0 0 0 1) (k (md_set_logp m d));
        Some (d_add (d_of_Z 0) snoop, md_count 1 0 0 0 d2) else Some (d_of_Z 0, d));
     '(inv, e1, d3) ← invalidate_info e h d2; Some (d_add c inv, e1, d3)) = Some (c, e1, d') /\
    same_dir d d' /\ ci_address e1 = ci_address e /\ ci_version e1 = ci_version e).
  { intros Hw k Hk. destruct (negb _); [|apply Inv, same_dir_refl].
    destruct (message_latency _ _ _) as [x m].
    destruct (head_update_some (ci_owner_head e) (head_count 0 0 0 1) (k (md_set_logp m d)))
      as (d2 & -> & S2); [destruct (Hk (md_set_logp m d)); cbn in *; congruence|done|].
    cbn. apply Inv. apply (same_dir_trans d (md_set_logp m d)); [done|].
    by apply (same_dir_trans _ (k (md_set_logp m d))). }
  destruct (ci_owner_state e); try done.
  - eexists _, _, _. split; [done|]. split; [apply same_dir_refl|done].
  - destruct (invalidate_info_some e h d Hl Hv) as (l & d' & -> & S). eexists _, _, _. split; [done|done].
  - apply (Own (proj2 Hok) (md_count 0 0 0 1)). done.
  - apply (Own (proj2 Hok) (md_count 0 0 0 1)). done.
Qed.

Lemma write_with_coherency_spec (h a t : Z) d :
  device_ok d -> valid_head h -> head_usable d h = Some true ->
  exists l e' d1, write_with_coherency h a t d = Some (l, device_store a e' d1) /\ same_dir d d1 /\
    info_exclusive h e' /\ ci_address e' = line_of a /\
    ci_version e' = wrap32 (ci_version (device_entry d a) + 1).
Proof.
  intros Hd Hh Hu. destruct (device_entry_ok d a Hd) as [He Ha]. set (e := device_entry d a) in *.
  destruct Hd as [Hl _]. unfold write_with_coherency. rewrite Hu. cbn. fold e.
  destruct (head_update_some h (head_count 0 1 0 0) d Hl Hh) as (d1 & -> & S1). cbn.
  set (b := ci_bump_version (ci_access t e)). assert (Hb : info_ok b) by exact He.
  assert (Hl1 : length (md_heads d1) = 16%nat) by (destruct S1; congruence).
  destruct (write_switch_some h t b d1 Hl1 Hb) as (c & e1 & d2 & -> & S2 & A1 & A2). cbn.
  destruct (head_update_some h (head_count 0 0 (if d_ltb (d_of_Z 0) c then 1 else 0) 0) d2)
    as (d3 & -> & S3); [destruct S2; congruence|done|]. cbn.
  destruct (invalidate_info_some b h d1 Hl1 (proj1 Hb)) as (l4 & d4 & E4 & S4). rewrite E4. cbn.
  assert (Acq : forall (l : D) m, exists l' e' d5,
    Some (l, device_store a (ci_set_dirty true (ci_set_owner h MODIFIED (ci_set_sharers ∅ e1)))
               (md_set_logp m d3)) = Some (l', device_store a e' d5) /\ same_dir d d5 /\
    info_exclusive h e' /\ ci_address e' = line_of a /\ ci_version e' = wrap32 (ci_version e + 1)).
  { intros l m. eexists l, _, _. split; [done|]. split; [eauto using same_dir_trans, same_dir_logp|].
    split; [done|]. cbn. rewrite A1, A2. done. }
  destruct (ci_owner_head e =? h); [|apply Acq].
  pose proof He as [_ Hst]. destruct (ci_owner_state e) eqn:Es; try apply Acq; try done.
  - eexists _, _, _. split; [done|]. split; [done|]. destruct Hst as [Hst _]. done.
  - eexists _, _, _. split; [done|]. split; [eauto using same_dir_trans|done].
Qed.

(** [e'] is [e] after head [h] gave up its copy or was left alone. *)
Definition released (h : Z) e e' : Prop :=
  (info_ok e -> info_ok e') /\ ci_address e' = ci_address e /\
  (forall m, m <> h -> node_view e' m = node_view e m) /\
  (node_view e' h = node_view e h \/ node_view e' h = INVALID).

Lemma released_refl h e : released h e e.
Proof. split; [done|]. split; [done|]. split; [done|]. by left. Qed.

Lemma released_trans h e1 e2 e3 : released h e1 e2 -> released h e2 e3 -> released h e1 e3.
Proof.
  intros (A1 & A2 & A3 & A4) (B1 & B2 & B3 & B4). split; [auto|]. split; [congruence|]. split.
  - intros m Hm. rewrite B3, A3; done.
  - destruct B4 as [->|B4]; auto.
Qed.

Lemma released_step h e e' : released h e e' -> moesi_step (node_view e) (node_view e').
Proof.
  intros (_ & _ & Hm & [Hh|Hh]).
  - apply moesi_stutter. intros m. destruct (decide (m = h)) as [->|]; auto.
  - by apply (moesi_drop _ _ h).
Qed.

(** Giving up ownership and sharing. *)
Lemma drop_released h e e' :
  ci_address e' = ci_address e -> ci_sharers e' = ci_sharers e ∖ {[h]} ->
  (ci_owner_head e = h /\ ci_owner_state e' = INVALID \/
   ci_owner_head e <> h /\ ci_owner_head e' = ci_owner_head e /\ ci_owner_state e' = ci_owner_state e) ->
  released h e e' /\ node_view e' h = INVALID.
Proof.
  intros Ha Hs Hc.
  assert (Hv : node_view e' h = INVALID).
  { rewrite node_view_other; cbn.
    - rewrite Hs, decide_False; [done|set_solver].
    - destruct Hc as [[_ ->]|(Hn & -> & _)]; auto. }
  split; [|done]. split; [|split; [done|split; [|auto]]].
  - intros [Hvs Hok]. unfold info_ok. rewrite Hs. split; [set_solver|].
    destruct Hc as [[_ ->]|(Hn & -> & ->)]; [done|]. destruct (ci_owner_state e); set_solver.
  - intros m Hm. apply (node_view_remove e e' h m); [done|done|].
    cbn. destruct Hc as [[Ho ->]|(Hn & Ho & ->)]; [right|left]; done.
Qed.

Lemma info_drop_head_released h e : released h e (info_drop_head h e) /\ node_view (info_drop_head h e) h = INVALID.
Proof.
  unfold info_drop_head. destruct (Z.eqb_spec (ci_owner_head e) h) as [Ho|Ho].
  - destruct (ci_owner_state e); (apply drop_released; [done|done|by left]).
  - apply drop_released; [done|done|by right].
Qed.

Lemma info_release_released h e : released h e (info_release h e) /\ node_view (info_release h e) h = INVALID.
Proof.
  unfold info_release. cbn [ci_owner_head ci_set_sharers].
  destruct (Z.eqb_spec (ci_owner_head e) h) as [Ho|Ho]; (apply drop_released; [done|done|]);
    [by left|by right].
Qed.

(** [dir'] is [dir] with entries released by [h]. *)
Definition dir_released (h : Z) (dir dir' : gmap Z MHSLDCachelineInfo) : Prop :=
  forall k, match dir !! k, dir' !! k with
            | None, None => True
            | Some e, Some e' => released h e e'
            | _, _ => False
            end.

Lemma dir_released_step h d d' :
  device_ok d -> length (md_heads d') = length (md_heads d) ->
  dir_released h (md_directory d) (md_directory d') ->
  device_ok d' /\ forall b, moesi_step (node_view (device_entry d b)) (node_view (device_entry d' b)).
Proof.
  intros [Hl Hd] Hlen R. split.
  - split; [congruence|]. intros k e' Hk. specialize (R k). rewrite Hk in R.
    destruct (md_directory d !! k) as [e|] eqn:E; [|done].
    destruct (Hd _ _ E) as (Hok & Hk1 & Hk2). destruct R as (R1 & R2 & _). split; [auto|]. split; congruence.
  - intros b. unfold device_entry. specialize (R (line_of b)).
    destruct (md_directory d !! line_of b), (md_directory d' !! line_of b); try done.
    + by apply (released_step h).
    + by apply moesi_stutter.
Qed.

Lemma dir_released_refl h dir : dir_released h dir dir.
Proof. intros k. destruct (dir !! k); [apply released_refl|done]. Qed.

Lemma dir_released_trans h a b c : dir_released h a b -> dir_released h b c -> dir_released h a c.
Proof.
  intros R1 R2 k. specialize (R1 k). specialize (R2 k).
  destruct (a !! k), (b !! k), (c !! k); try done. by eapply released_trans.
Qed.

Lemma dir_released_insert h dir k e :
  dir !! k = Some e -> dir_released h dir (<[k := info_release h e]> dir).
Proof.
  intros E j. destruct (decide (k = j)) as [<-|Hne].
  - rewrite E, lookup_insert_eq. apply info_release_released.
  - rewrite lookup_insert_ne by done. apply dir_released_refl.
Qed.

(** The loop of [release_pool] ends when the region stops short of the last cacheline of
    the address space. *)
Lemma release_loop_some (fuel : nat) (h cl end_addr : Z) dir :
  0 <= cl -> end_addr <= 2 ^ 64 - 64 -> end_addr <= cl + 64 * (Z.of_nat fuel - 1) -> (0 < fuel)%nat ->
  exists dir', release_loop fuel h cl end_addr dir = Some dir' /\ dir_released h dir dir'.
Proof.
  revert cl dir. induction fuel as [|fuel IH]; intros cl dir Hcl He Hf Hp; [lia|]. cbn [release_loop].
  destruct (cl <? end_addr) eqn:E; zify_bool; [|eauto using dir_released_refl].
  unfold CACHELINE_SIZE. rewrite wrap64_small by (unfold u64; lia).
  set (dir1 := match dir !! line_of cl with Some e => _ | None => dir end).
  destruct (IH (cl + 64) dir1) as (dir' & E' & R); [lia..|]. exists dir'. split; [done|].
  eapply dir_released_trans; [|exact R]. unfold dir1.
  destruct (dir !! line_of cl) as [e|] eqn:El; [by apply dir_released_insert|apply dir_released_refl].
Qed.

Lemma release_fuel_enough (a s : Z) :
  0 <= a -> 0 <= s -> a + s <= line_of a + 64 * (Z.of_nat (release_fuel a s) - 1).
Proof.
  intros Ha Hs. unfold release_fuel. pose proof (line_of_le a).
  rewrite Nat2Z.inj_succ, Z2Nat.id by (Z.to_euclidean_division_equations; lia).
  Z.to_euclidean_division_equations. lia.
Qed.

Lemma rebalance_same d : same_dir d (rebalance_bandwidth d).
Proof.
  unfold rebalance_bandwidth. destruct (_ =? 0); [apply same_dir_refl|]. split; [done|].
  cbn. apply length_fmap.
Qed.

(** An operation that does not touch the directory. *)
Lemma same_dir_step d d' :
  device_ok d -> same_dir d d' ->
  device_ok d' /\ forall b, moesi_step (node_view (device_entry d b)) (node_view (device_entry d' b)).
Proof.
  intros Hd [S1 S2]. apply (dir_released_step 0); [done|done|]. rewrite S1. apply dir_released_refl.
Qed.

(** The three results every operation is shown to have: it is defined, it keeps the
    invariant, and it is a protocol step on every line. *)
Definition device_steps d (r : option (MHSLDDevice D)) : Prop :=
  exists d', r = Some d' /\ device_ok d' /\
    forall b, moesi_step (node_view (device_entry d b)) (node_view (device_entry d' b)).

Lemma device_steps_same d d' : device_ok d -> same_dir d d' -> device_steps d (Some d').
Proof. intros Hd S. destruct (same_dir_step d d' Hd S). exists d'. auto. Qed.

Lemma read_steps (h a t : Z) d :
  device_ok d -> 0 <= h -> device_steps d (snd <$> read_with_coherency h a t d).
Proof.
  intros Hd Hh. destruct (head_usable_some d h (proj1 Hd) Hh) as (u & Hu & Hv).
  destruct u; [|unfold read_with_coherency; rewrite Hu; by apply device_steps_same].
  destruct (read_with_coherency_spec h a t d Hd (Hv eq_refl) Hu) as (l & e' & d1 & -> & S & He & Ha & V1 & V2).
  destruct (device_store_step d d1 a e' Hd S He Ha) as [O1 O2]; [by apply (moesi_read _ _ h)|].
  eexists. split; [done|]. auto.
Qed.

Lemma write_steps (h a t : Z) d :
  device_ok d -> 0 <= h -> device_steps d (snd <$> write_with_coherency h a t d).
Proof.
  intros Hd Hh. destruct (head_usable_some d h (proj1 Hd) Hh) as (u & Hu & Hv).
  destruct u; [|unfold write_with_coherency; rewrite Hu; by apply device_steps_same].
  destruct (write_with_coherency_spec h a t d Hd (Hv eq_refl) Hu) as (l & e' & d1 & -> & S & He & Ha & _).
  destruct (info_exclusive_views h e' He) as [V1 V2].
  destruct (device_store_step d d1 a e' Hd S) as [O1 O2];
    [by apply (info_exclusive_ok h); auto|done|by apply (moesi_write _ _ h)|].
  eexists. split; [done|]. auto.
Qed.

Lemma atomic_write (h a t : Z) d :
  (snd <$> atomic_with_coherency h a t d) = (snd <$> write_with_coherency h a t d).
Proof. unfold atomic_with_coherency. by destruct (write_with_coherency h a t d) as [[l d1]|]. Qed.

Lemma downgrade_steps (a h t : Z) d : device_ok d -> device_steps d (Some (snd (downgrade_owner a h t d))).
Proof.
  intros Hd. unfold downgrade_owner. destruct (md_directory d !! line_of a) as [e|] eqn:E;
    [|by apply device_steps_same].
  destruct (_ || _); [by apply device_steps_same|].
  destruct (message_latency _ _ _) as [l m]. cbn [snd].
  pose proof Hd as [_ Hdir]. destruct (Hdir _ _ E) as (He & Ha & _). pose proof He as [Hvs Hst].
  assert (Ee : device_entry d a = e) by (unfold device_entry; by rewrite E).
  set (d1 := md_count 1 0 1 0 (md_set_logp m d)). assert (S : same_dir d d1) by done.
  set (e1 := match ci_owner_state e with MODIFIED => _ | EXCLUSIVE => _ | _ => e end).
  assert (G : info_ok e1 /\ ci_address e1 = line_of a /\ moesi_step (node_view e) (node_view e1)).
  { unfold e1. destruct (ci_owner_state e) eqn:Es; try done;
      try (split; [done|split; [done|by apply moesi_stutter]]).
    destruct Hst as [Hs Hw]. split; [split; [done|]; cbn; rewrite Hs; set_solver|]. split; [done|].
    apply (moesi_downgrade _ _ (ci_owner_head e)); unfold node_view; cbn; rewrite Es.
    - by rewrite Z.eqb_refl.
    - intros x Hx. rewrite (proj2 (Z.eqb_neq (ci_owner_head e) x)) by auto. done. }
  destruct G as (G1 & G2 & G3).
  destruct (device_store_step d d1 a e1 Hd S G1 G2) as [O1 O2]; [by rewrite Ee|]. eexists. auto.
Qed.

Lemma writeback_steps (a h t : Z) d : device_ok d -> device_steps d (Some (snd (writeback a h t d))).
Proof.
  intros Hd. unfold writeback. destruct (md_directory d !! line_of a) as [e|] eqn:E;
    [|by apply device_steps_same].
  destruct (Z.eqb_spec (ci_owner_head e) h) as [Ho|Ho]; cbn [negb snd]; [|by apply device_steps_same].
  pose proof Hd as [_ Hdir]. destruct (Hdir _ _ E) as (He & Ha & _).
  assert (Ee : device_entry d a = e) by (unfold device_entry; by rewrite E).
  set (e1 := if match ci_owner_state e with MODIFIED | OWNED => true | _ => false end
             then ci_set_dirty false e else e).
  destruct (drop_released h e (ci_set_sharers (ci_sharers e1 ∖ {[h]}) (ci_set_owner UINT32_MAX INVALID e1)))
    as [R _]; [unfold e1; by destruct (ci_owner_state e)..|by left|].
  destruct (device_store_step d (md_count 0 0 0 1 d) a _ Hd (same_dir_count d 0 0 0 1) (proj1 R He))
    as [O1 O2].
  - rewrite (proj1 (proj2 R)). done.
  - rewrite Ee. by apply (released_step h).
  - eexists. split; [reflexivity|]. auto.
Qed.

Lemma deactivate_steps (h : Z) d : device_ok d -> 0 <= h -> device_steps d (deactivate_head h d).
Proof.
  intros Hd Hh. unfold deactivate_head. destruct (MAX_HEADS <=? h) eqn:E; zify_bool;
    [by apply device_steps_same|].
  match goal with |- context [head_update h ?f d] =>
    destruct (head_update_some h f d (proj1 Hd)) as (d1 & -> & S1 & S2); [unfold valid_head; lia|] end.
  cbn. set (d2 := md_set_directory _ d1). eexists. split; [done|].
  destruct (rebalance_same d2) as [R1 R2].
  apply (dir_released_step h); [done|rewrite R2; done|].
  rewrite R1. unfold d2. cbn. rewrite S1. intros k. rewrite lookup_fmap.
  destruct (md_directory d !! k); [apply info_drop_head_released|done].
Qed.

Lemma activate_steps (h c : Z) d : device_ok d -> 0 <= h -> device_steps d (snd <$> activate_head h c d).
Proof.
  intros Hd Hh. unfold activate_head. destruct (MAX_HEADS <=? h) eqn:E; zify_bool;
    [by apply device_steps_same|].
  destruct (head_update_some h (head_set_pool true c 0) d (proj1 Hd)) as (d1 & -> & S1);
    [unfold valid_head; lia|].
  apply device_steps_same; [done|]. eauto using same_dir_trans, rebalance_same.
Qed.

Lemma allocate_steps (h s : Z) d : device_ok d -> 0 <= h -> device_steps d (snd <$> allocate_pool h s d).
Proof.
  intros Hd Hh. destruct (head_usable_some d h (proj1 Hd) Hh) as (u & Hu & Hv).
  unfold allocate_pool. rewrite Hu. cbn. destruct u; cbn; [|by apply device_steps_same].
  specialize (Hv eq_refl). unfold valid_head, MAX_HEADS in Hv.
  destruct (lookup_lt_is_Some_2 (md_heads d) (Z.to_nat h)) as [x Ex]; [destruct Hd; lia|]. rewrite Ex. cbn.
  destruct (_ <? _); [by apply device_steps_same|].
  match goal with |- context [head_update h ?f d] =>
    destruct (head_update_some h f d (proj1 Hd)) as (d1 & -> & S1); [done|] end.
  by apply device_steps_same.
Qed.

Lemma release_steps (h a s : Z) d :
  device_ok d -> device_op_valid (DRelease h a s) -> device_steps d (release_pool (release_fuel a s) h a s d).
Proof.
  intros Hd (Hh & Ha & Hs & He). destruct (head_usable_some d h (proj1 Hd) Hh) as (u & Hu & Hv).
  pose proof (release_fuel_enough a s Ha Hs) as F. assert (P : (0 < release_fuel a s)%nat) by (unfold release_fuel; lia).
  revert F P. generalize (release_fuel a s) as fuel. intros fuel F P.
  unfold release_pool. rewrite Hu. cbn. destruct u; cbn; [|by apply device_steps_same].
  rewrite wrap64_small by (unfold u64; lia).
  destruct (release_loop_some fuel h (line_of a) (a + s) (md_directory d)) as (dir & -> & R);
    [by apply line_of_nonneg|lia|done|done|]. cbn.
  match goal with |- context [head_update h ?f ?d0] =>
    destruct (head_update_some h f d0) as (d1 & -> & S1 & S2); [apply Hd|by apply Hv|] end.
  exists d1. split; [done|]. apply (dir_released_step h); [done|done|]. by rewrite S1.
Qed.

Lemma device_apply_step (op : device_op) d :
  device_ok d -> device_op_valid op -> device_steps d (device_apply op d).
Proof.
  intros Hd Hv. destruct op; cbn [device_apply device_op_valid] in *.
  - by apply read_steps.
  - by apply write_steps.
  - rewrite atomic_write. by apply write_steps.
  - by apply downgrade_steps.
  - by apply writeback_steps.
  - by apply activate_steps.
  - by apply deactivate_steps.
  - by apply allocate_steps.
  - by apply release_steps.
Qed.

Lemma device_new_ok (cap n : Z) (r w b : D) cfg : device_ok (device_new cap n r w b cfg).
Proof. split; [done|]. intros k e. cbn. by rewrite lookup_empty. Qed.
End DeviceLemmas.

(** The memory window of a head, and the quotas that keep pools inside the windows. *)
Definition pool_window {D} (d : MHSLDDevice D) (head_id : Z) : Z * Z :=
  (head_id * (md_total_capacity d / MAX_HEADS), (head_id + 1) * (md_total_capacity d / MAX_HEADS)).

Definition pool_ok {D} (d : MHSLDDevice D) : Prop :=
  0 <= md_total_capacity d < 2 ^ 64 /\ length (md_heads d) = 16%nat /\
  forall i h, md_heads d !! i = Some h ->
    0 <= hd_used_capacity h <= hd_allocated_capacity h /\
    hd_allocated_capacity h <= md_total_capacity d / MAX_HEADS.

Lemma release_loop_diverges (fuel : nat) (h cl end_addr : Z) (dir : gmap Z MHSLDCachelineInfo) :
  u64 cl -> cl mod 64 = 0 -> 2 ^ 64 - 64 < end_addr -> release_loop fuel h cl end_addr dir = None.
Proof.
  revert cl dir. induction fuel as [|fuel IH]; intros cl dir Hu Hm He; [done|]. cbn [release_loop].
  assert (Hcl : cl <= 2 ^ 64 - 64) by (unfold u64 in Hu; Z.to_euclidean_division_equations; lia).
  rewrite (proj2 (Z.ltb_lt _ _)) by lia. apply IH; [apply wrap64_range| |done].
  unfold CACHELINE_SIZE. rewrite wrap64_mod64, Z.add_mod, Hm by lia. done.
Qed.

(** ** Reachability *)
Inductive device_step {D} `{Double D} : MHSLDDevice D -> MHSLDDevice D -> Prop :=
| device_step_op op d d' : device_op_valid op -> device_apply op d = Some d' -> device_step d d'.

Lemma device_reachable_ok {D} `{Double D} (d d' : MHSLDDevice D) :
  rtc device_step d d' -> device_ok d -> device_ok d'.
Proof.
  induction 1 as [|d d1 d' [op ? ? Hop E] _ IH]; intros Hd; [done|]. apply IH.
  destruct (device_apply_step op _ Hd Hop) as (d2 & E2 & Hok & _). congruence.
Qed.

(** ** Theorems *)


Definition demo_device : MHSLDDevice spec_float :=
  device_new 4096 2 (d_of_Z 100) (d_of_Z 120) (d_of_Z 25) logp_config_default.

Definition demo_ops (ops : list device_op) : option (MHSLDDevice spec_float) :=
  foldl (fun r op => d ← r; device_apply op d) (Some demo_device) ops.


(** Refinement: every valid request to a well-formed device is one step of the abstract
    MOESI protocol on each line and keeps the device well-formed. *)
Theorem mhsld_refines_moesi {D} `{Double D} (op : device_op) (d : MHSLDDevice D) (addr : Z)
  (Hd : device_ok d) (Hop : device_op_valid op) :
  exists d', device_apply op d = Some d' /\ device_ok d' /\
    moesi_step (node_view (device_entry d addr)) (node_view (device_entry d' addr)).
Proof. destruct (device_apply_step op d Hd Hop) as (d' & E & Hok & Hs). eauto. Qed.

Lemma mhsld_refines_moesi_witness :
  exists d', device_apply (DDeactivate 3) demo_device = Some d' /\ device_ok d'.
Proof.
  destruct (mhsld_refines_moesi (DDeactivate 3) demo_device 64) as (d' & E & Hok & _).
  - apply device_new_ok.
  - cbn. lia.
  - exists d'. split; assumption.
Defined.

(** A write by an active head leaves it the only holder of the line, in state
    [MODIFIED] with dirty data, advances the version and changes no other line. *)
Theorem mhsld_write_exclusive {D} `{Double D} (h addr t : Z) (d : MHSLDDevice D)
  (Hd : device_ok d) (Hh : valid_head h) (Hact : head_usable d h = Some true) :
  exists l d', write_with_coherency h addr t d = Some (l, d') /\
    let e' := device_entry d' addr in
    node_view e' h = MODIFIED /\ (forall m, m <> h -> node_view e' m = INVALID) /\
    ci_has_dirty_data e' = true /\ ci_version e' = wrap32 (ci_version (device_entry d addr) + 1) /\
    (forall b, line_of b <> line_of addr -> device_entry d' b = device_entry d b).
Proof.
  destruct (write_with_coherency_spec h addr t d Hd Hh Hact) as (l & e' & d1 & E & S & Hx & _ & Hv).
  exists l, (device_store addr e' d1). split; [done|]. cbn zeta.
  rewrite device_entry_store, decide_True by done.
  destruct (info_exclusive_views h e' Hx) as [V1 V2]. split; [done|]. split; [done|].
  split; [apply Hx|]. split; [done|]. intros b Hb. rewrite device_entry_store, decide_False by done.
  unfold device_entry. by rewrite (proj1 S).
Qed.

Lemma mhsld_write_exclusive_witness :
  exists d l d', demo_ops [DActivate 0 128; DRead 0 64 1] = Some d /\
    write_with_coherency 0 64 2 d = Some (l, d') /\ node_view (device_entry d' 64) 0 = MODIFIED.
Proof.
  destruct (demo_ops [DActivate 0 128; DRead 0 64 1]) as [d|] eqn:E; [|vm_compute in E; discriminate E].
  assert (Hd : device_ok d).
  { apply (device_reachable_ok demo_device); [|apply device_new_ok].
    eapply rtc_l; [apply (device_step_op (DActivate 0 128)); [cbn; lia|vm_compute; reflexivity]|].
    apply rtc_once. apply (device_step_op (DRead 0 64 1)); [cbn; lia|].
    rewrite <- E. vm_compute. reflexivity. }
  destruct (mhsld_write_exclusive 0 64 2 d Hd) as (l & d' & E1 & E2 & _).
  - unfold valid_head, MAX_HEADS. lia.
  - vm_compute in E. injection E as <-. vm_compute. reflexivity.
  - exists d, l, d'. split; [reflexivity|]. split; assumption.
Defined.

(** Pool allocation stays inside the head's window: when every quota fits its window, an
    allocation within the quota returns a region of the head's own window that starts where
    the previous one ended, keeps the quotas respected, and one beyond the quota returns 0
    and changes nothing; so regions of different heads never overlap. *)
Theorem mhsld_pool_partition {D} `{Double D} (head_id size : Z) (d : MHSLDDevice D) (h : MHSLDHeadState D)
  (Hp : pool_ok d) (Hh : valid_head head_id) (Hl : md_heads d !! Z.to_nat head_id = Some h)
  (Hact : hd_active h = true) (Hs : 0 <= size) (Hf : hd_used_capacity h + size < 2 ^ 64) :
  exists addr d', allocate_pool head_id size d = Some (addr, d') /\ pool_ok d' /\
    if decide (hd_used_capacity h + size <= hd_allocated_capacity h) then
      fst (pool_window d head_id) <= addr /\ addr + size <= snd (pool_window d head_id) /\
      addr = fst (pool_window d head_id) + hd_used_capacity h
    else addr = 0 /\ d' = d.
Proof.
  destruct Hp as (Hc & Hlen & Hq). destruct (Hq _ _ Hl) as [[Hu Hua] Haw]. unfold valid_head in Hh.
  unfold allocate_pool, head_usable. rewrite (proj2 (Z.leb_gt _ _)) by lia. rewrite Hl. cbn. rewrite Hact. cbn.
  rewrite (wrap64_small (_ + size)) by (unfold u64; lia).
  destruct (hd_allocated_capacity h <? _) eqn:E; zify_bool.
  { exists 0, d. rewrite decide_False by lia. split; [done|]. split; [done|done]. }
  unfold head_update. rewrite Hl. cbn.
  assert (B : 0 <= head_id * (md_total_capacity d / MAX_HEADS) /\
              head_id * (md_total_capacity d / MAX_HEADS) + md_total_capacity d / MAX_HEADS < 2 ^ 64).
  { unfold MAX_HEADS in *. pose proof (Z.mul_div_le (md_total_capacity d) 16).
    pose proof (Z.div_pos (md_total_capacity d) 16). nia. }
  rewrite (wrap64_small (head_id * _)) by (unfold u64; lia).
  rewrite (wrap64_small (_ + hd_used_capacity h)) by (unfold u64; lia).
  eexists _, _. split; [done|]. split.
  - split; [done|]. cbn. rewrite length_insert. split; [done|]. intros i x Hx.
    apply list_lookup_insert_Some in Hx as [(<- & <- & _)|[_ Hx]]; [|by apply (Hq i)].
    cbn. rewrite wrap64_small by (unfold u64; lia). lia.
  - rewrite decide_True by lia. cbn. lia.
Qed.

Lemma mhsld_pool_partition_witness :
  exists d addr d', demo_ops [DActivate 1 128; DAllocate 1 64] = Some d /\
    allocate_pool 1 64 d = Some (addr, d') /\ addr = 320.
Proof.
  destruct (demo_ops [DActivate 1 128; DAllocate 1 64]) as [d|] eqn:E; [|vm_compute in E; discriminate E].
  vm_compute in E. injection E as <-.
  match goal with |- context [Some ?dd = _ /\ _] => set (d := dd) end.
  destruct (md_heads d !! 1%nat) as [h|] eqn:Eh; [|vm_compute in Eh; discriminate Eh].
  vm_compute in Eh. injection Eh as <-.
  destruct (mhsld_pool_partition 1 64 d
    (mkHead 1 128 64 (hd_bandwidth_share (default head_new (md_heads d !! 1%nat))) 0 0 0 0 true))
    as (addr & d' & E1 & _ & E2).
  - split; [cbn; lia|]. split; [reflexivity|]. intros i x Hx.
    do 16 (destruct i as [|i]; [vm_compute in Hx; injection Hx as <-; repeat split; vm_compute; discriminate|]). discriminate Hx.
  - unfold valid_head, MAX_HEADS. lia.
  - reflexivity.
  - reflexivity.
  - lia.
  - cbn. lia.
  - exists d, addr, d'. split; [reflexivity|]. split; [exact E1|]. vm_compute in E2. lia.
Defined.

(** Released memory is handed out again while still in use: after a head allocates two
    regions and releases the first, the next allocation returns the address of the second,
    which was never released. *)
Theorem mhsld_release_reuses_live :
  let d0 := device_new 4096 2 (d_of_Z 100 : spec_float) (d_of_Z 120) (d_of_Z 25) logp_config_default in
  exists d1 d2 d3 d4 d5 a b c,
    activate_head 1 256 d0 = Some (true, d1) /\ allocate_pool 1 64 d1 = Some (a, d2) /\
    allocate_pool 1 64 d2 = Some (b, d3) /\ release_pool 8 1 a 64 d3 = Some d4 /\
    allocate_pool 1 64 d4 = Some (c, d5) /\ a <> b /\ c = b.
Proof.
  intros d0. eexists _, _, _, _, _, _, _, _.
  split; [vm_compute; reflexivity|]. split; [vm_compute; reflexivity|].
  split; [vm_compute; reflexivity|]. split; [vm_compute; reflexivity|].
  split; [vm_compute; reflexivity|]. split; [discriminate|reflexivity].
Qed.

(** Releasing a region that reaches into the last cacheline of the address space never
    returns: the cursor wraps to 0 before it can pass the end, for any number of
    iterations. *)
Theorem mhsld_release_diverges {D} `{Double D} (fuel : nat) (head_id addr size : Z) (d : MHSLDDevice D)
  (Hact : head_usable d head_id = Some true) (Ha : 0 <= addr) (Hs : 0 <= size)
  (He : 2 ^ 64 - 64 < addr + size < 2 ^ 64) :
  release_pool fuel head_id addr size d = None.
Proof.
  unfold release_pool. rewrite Hact. cbn. rewrite (wrap64_small (addr + size)) by (unfold u64; lia).
  rewrite release_loop_diverges; [done| |apply line_of_aligned|lia].
  pose proof (line_of_le addr). pose proof (line_of_nonneg addr Ha). unfold u64. lia.
Qed.

Lemma mhsld_release_diverges_witness :
  exists d, demo_ops [DActivate 0 128] = Some d /\ release_pool 1000 0 0 (2 ^ 64 - 1) d = None.
Proof.
  destruct (demo_ops [DActivate 0 128]) as [d|] eqn:E; [|vm_compute in E; discriminate E].
  exists d. split; [reflexivity|]. apply (mhsld_release_diverges 1000 0 0 (2 ^ 64 - 1) d).
  - vm_compute in E. injection E as <-. reflexivity.
  - lia.
  - lia.
  - lia.
Defined.
