(* ===== verification/SharedMemory.v ===== *)
(** * The shared memory manager ([include/shared_memory_manager.h], [src/shared_memory_manager.cc])

    A mapped object of [shm_size] bytes holds a 56-byte header and the data area.  Reads and
    writes of at most one cacheline go to the data area, through a modulo mapping when the
    base address is 0 and through a checked window otherwise.  The operating system is a
    parameter: what [shm_open], [ftruncate] and [mmap] answer and what bytes the mapped
    object holds ([ShmAnswers], [ShmMapping]), and whether [msync] succeeds.

    A result [None] is undefined behaviour: an access outside the data area or a division by
    zero.  A failed operation is [Some (false, _)] or [Some None]. *)
From S2P Require Import Prelude.

Module Mesi.
Inductive CoherencyState := INVALID | SHARED | EXCLUSIVE | MODIFIED.
End Mesi.

#[global] Instance CoherencyState_eq_dec : EqDecision Mesi.CoherencyState.
Proof. solve_decision. Defined.

Record CachelineMetadata := mkCachelineMetadata {
  cm_state : Mesi.CoherencyState;
  cm_sharers : gset Z;
  cm_owner : Z;
  cm_last_access_time : Z;
  cm_has_dirty_update : bool;
  cm_dirty_update_time : Z;
  cm_version : Z
}.

Definition cacheline_metadata_new : CachelineMetadata :=
  mkCachelineMetadata Mesi.INVALID ∅ (-1) 0 false 0 0.

Record SharedMemoryHeader := mkSharedMemoryHeader {
  sh_magic : Z;
  sh_version : Z;
  sh_total_size : Z;
  sh_data_offset : Z;
  sh_metadata_offset : Z;
  sh_num_cachelines : Z;
  sh_base_addr : Z
}.

Record MemoryRegion := mkMemoryRegion {
  mr_base_addr : Z;
  mr_size : Z;
  mr_allocated : bool
}.

(** [sm_header] is [None] while the object is not mapped ([header == nullptr]). *)
Record SharedMemoryManager := mkSharedMemoryManager {
  sm_capacity_mb : Z;
  sm_shm_size : Z;
  sm_use_file_backing : bool;
  sm_header : option SharedMemoryHeader;
  sm_data_area : list Z;
  sm_metadata_cache : gmap Z CachelineMetadata;
  sm_regions : list MemoryRegion
}.

Definition MAGIC_NUMBER : Z := 0x43584C4D454D5348.

Definition FORMAT_VERSION : Z := 1.

Definition SHM_CACHELINE_SIZE : Z := 64.

(** [sizeof(SharedMemoryHeader)]: seven 8-byte fields. *)
Definition SHM_HEADER_SIZE : Z := 56.

Definition shm_new (capacity_mb : Z) (use_file : bool) : SharedMemoryManager :=
  mkSharedMemoryManager capacity_mb (capacity_mb ⊠ 1024 ⊠ 1024) use_file None [] ∅ [].

(** ** Creation *)

(** Answers of the system calls of [create_shared_memory] and [create_file_backing]. *)
Record ShmAnswers := mkShmAnswers {
  ans_open_existing : option Z;      (* st_size of an existing object, if it opens *)
  ans_create_excl : option bool;     (* Some true: created; Some false: EEXIST; None: error *)
  ans_recreate : bool;               (* creation after the unlink *)
  ans_ftruncate : bool;
  ans_open_file : bool
}.

(** What is mapped: the header bytes and the data bytes of the object. *)
Record ShmMapping := mkShmMapping {
  map_ok : bool;
  map_header : SharedMemoryHeader;
  map_data : list Z
}.

Definition create_shared_memory (a : ShmAnswers) (m : SharedMemoryManager) : bool :=
  let create :=
    match ans_create_excl a with
    | Some true => ans_ftruncate a
    | Some false => if ans_recreate a then ans_ftruncate a else false
    | None => false
    end in
  match ans_open_existing a with
  | Some size => if size =? sm_shm_size m then true else create
  | None => create
  end.

Definition create_file_backing (a : ShmAnswers) : bool := ans_open_file a && ans_ftruncate a.

Definition set_header_data (h : option SharedMemoryHeader) (d : list Z) (m : SharedMemoryManager) :
    SharedMemoryManager :=
  mkSharedMemoryManager (sm_capacity_mb m) (sm_shm_size m) (sm_use_file_backing m) h d
    (sm_metadata_cache m) (sm_regions m).

Definition map_shared_memory (p : ShmMapping) (m : SharedMemoryManager) : option SharedMemoryManager :=
  if map_ok p then Some (set_header_data (Some (map_header p)) (map_data p) m) else None.

(** [base_env] is the value of [CXL_BASE_ADDR], if set. *)
Definition initialize_header (base_env : option Z) (m : SharedMemoryManager) (h : SharedMemoryHeader) :
    SharedMemoryHeader :=
  if (sh_magic h =? MAGIC_NUMBER) && (sh_version h =? FORMAT_VERSION) then h
  else
    let data_area_size := sm_shm_size m ⊟ SHM_HEADER_SIZE in
    mkSharedMemoryHeader MAGIC_NUMBER FORMAT_VERSION (sm_shm_size m) SHM_HEADER_SIZE 0
      (data_area_size / SHM_CACHELINE_SIZE) (default 0 base_env).

Definition initialize_data_area (h : SharedMemoryHeader) (m : SharedMemoryManager) : SharedMemoryManager :=
  let data :=
    if negb (sh_magic h =? MAGIC_NUMBER) then replicate (length (sm_data_area m)) 0 else sm_data_area m in
  let region := mkMemoryRegion (sh_base_addr h) (sh_num_cachelines h ⊠ SHM_CACHELINE_SIZE) false in
  mkSharedMemoryManager (sm_capacity_mb m) (sm_shm_size m) (sm_use_file_backing m) (Some h) data
    (sm_metadata_cache m) (sm_regions m ++ [region]).

Definition shm_initialize (a : ShmAnswers) (p : ShmMapping) (base_env : option Z)
    (m : SharedMemoryManager) : bool * SharedMemoryManager :=
  let created := if sm_use_file_backing m then create_file_backing a else create_shared_memory a m in
  if negb created then (false, m)
  else
    match map_shared_memory p m with
    | None => (false, m)
    | Some m1 =>
        let h := initialize_header base_env m1 (map_header p) in
        (true, initialize_data_area h m1)
    end.

Definition set_base_addr (addr : Z) (m : SharedMemoryManager) : SharedMemoryManager :=
  match sm_header m with
  | None => m
  | Some h =>
      set_header_data (Some (mkSharedMemoryHeader (sh_magic h) (sh_version h) (sh_total_size h)
        (sh_data_offset h) (sh_metadata_offset h) (sh_num_cachelines h) addr)) (sm_data_area m) m
  end.

(** The fields of [get_shm_info]. *)
Definition shm_info_size (m : SharedMemoryManager) : Z := sm_shm_size m.

Definition shm_info_base (m : SharedMemoryManager) : Z := from_option sh_base_addr 0 (sm_header m).

Definition shm_info_cachelines (m : SharedMemoryManager) : Z :=
  from_option sh_num_cachelines 0 (sm_header m).

(** ** Data access *)
Definition cacheline_to_index (h : SharedMemoryHeader) (cacheline_addr : Z) : option Z :=
  if sh_base_addr h =? 0 then
    if sh_num_cachelines h =? 0 then None
    else Some ((cacheline_addr / SHM_CACHELINE_SIZE) mod sh_num_cachelines h)
  else Some ((cacheline_addr ⊟ sh_base_addr h) / SHM_CACHELINE_SIZE).

(** The offset in the data area of the returned pointer; [Some None] is [nullptr]. *)
Definition get_cacheline_data (m : SharedMemoryManager) (cacheline_addr : Z) : option (option Z) :=
  match sm_header m with
  | None => Some None
  | Some h =>
      if sh_base_addr h =? 0 then
        index ← cacheline_to_index h cacheline_addr;
        Some (Some (index * SHM_CACHELINE_SIZE))
      else if cacheline_addr <? sh_base_addr h then Some None
      else
        index ← cacheline_to_index h cacheline_addr;
        if sh_num_cachelines h <=? index then Some None else Some (Some (index * SHM_CACHELINE_SIZE))
  end.

(** The loop of the modulo mode; [acc] is what the buffer holds so far. *)
Fixpoint read_loop (fuel : nat) (h : SharedMemoryHeader) (data : list Z) (addr size bytes_read : Z)
    (acc : list Z) : option (list Z) :=
  match fuel with
  | O => None
  | S fuel' =>
      if bytes_read <? size then
        let current_addr := addr ⊞ bytes_read in
        let cacheline_addr := line_of current_addr in
        index ← cacheline_to_index h cacheline_addr;
        let offset := current_addr - cacheline_addr in
        let bytes_in_cacheline := Z.min (size - bytes_read) (SHM_CACHELINE_SIZE - offset) in
        chunk ← mem_read (index * SHM_CACHELINE_SIZE + offset) bytes_in_cacheline data;
        read_loop fuel' h data addr size (bytes_read + bytes_in_cacheline) (acc ++ chunk)
      else Some acc
  end.

Definition read_cacheline (m : SharedMemoryManager) (addr size : Z) : option (option (list Z)) :=
  if (size =? 0) || (SHM_CACHELINE_SIZE <? size) then Some None
  else
    match sm_header m with
    | None => Some None
    | Some h =>
        if sh_base_addr h =? 0 then
          bytes ← read_loop (S (Z.to_nat size)) h (sm_data_area m) addr size 0 [];
          Some (Some bytes)
        else
          let cacheline_addr := line_of addr in
          line ← get_cacheline_data m cacheline_addr;
          match line with
          | None => Some None
          | Some p =>
              let offset := addr - cacheline_addr in
              if SHM_CACHELINE_SIZE <? offset + size then Some None
              else bytes ← mem_read (p + offset) size (sm_data_area m); Some (Some bytes)
          end
    end.

Fixpoint write_loop (fuel : nat) (h : SharedMemoryHeader) (addr : Z) (bs : list Z) (bytes_written : Z)
    (data : list Z) : option (list Z) :=
  match fuel with
  | O => None
  | S fuel' =>
      let size := Z.of_nat (length bs) in
      if bytes_written <? size then
        let current_addr := addr ⊞ bytes_written in
        let cacheline_addr := line_of current_addr in
        index ← cacheline_to_index h cacheline_addr;
        let offset := current_addr - cacheline_addr in
        let bytes_in_cacheline := Z.min (size - bytes_written) (SHM_CACHELINE_SIZE - offset) in
        let chunk := take (Z.to_nat bytes_in_cacheline) (drop (Z.to_nat bytes_written) bs) in
        data' ← mem_write (index * SHM_CACHELINE_SIZE + offset) chunk data;
        write_loop fuel' h addr bs (bytes_written + bytes_in_cacheline) data'
      else Some data
  end.

(** [msync_ok]: the answer of the final [msync]; the bytes are stored before it. *)
Definition write_cacheline (msync_ok : bool) (addr : Z) (bs : list Z) (m : SharedMemoryManager) :
    option (bool * SharedMemoryManager) :=
  let size := Z.of_nat (length bs) in
  if (size =? 0) || (SHM_CACHELINE_SIZE <? size) then Some (false, m)
  else
    match sm_header m with
    | None => Some (false, m)
    | Some h =>
        if sh_base_addr h =? 0 then
          data ← write_loop (S (length bs)) h addr bs 0 (sm_data_area m);
          Some (msync_ok, set_header_data (Some h) data m)
        else
          let cacheline_addr := line_of addr in
          line ← get_cacheline_data m cacheline_addr;
          match line with
          | None => Some (false, m)
          | Some p =>
              let offset := addr - cacheline_addr in
              if SHM_CACHELINE_SIZE <? offset + size then Some (false, m)
              else
                data ← mem_write (p + offset) bs (sm_data_area m);
                Some (msync_ok, set_header_data (Some h) data m)
          end
    end.

(** ** Metadata, regions, validity, statistics *)
Definition get_cacheline_metadata (cacheline_addr : Z) (m : SharedMemoryManager) :
    CachelineMetadata * SharedMemoryManager :=
  match sm_metadata_cache m !! cacheline_addr with
  | Some md => (md, m)
  | None =>
      (cacheline_metadata_new,
       mkSharedMemoryManager (sm_capacity_mb m) (sm_shm_size m) (sm_use_file_backing m) (sm_header m)
         (sm_data_area m) (<[cacheline_addr := cacheline_metadata_new]> (sm_metadata_cache m))
         (sm_regions m))
  end.

Definition set_regions (rs : list MemoryRegion) (m : SharedMemoryManager) : SharedMemoryManager :=
  mkSharedMemoryManager (sm_capacity_mb m) (sm_shm_size m) (sm_use_file_backing m) (sm_header m)
    (sm_data_area m) (sm_metadata_cache m) rs.

(** The first region that contains the request and is free becomes allocated. *)
Fixpoint allocate_scan (addr size : Z) (rs : list MemoryRegion) : option (list MemoryRegion) :=
  match rs with
  | [] => None
  | r :: rs' =>
      if (mr_base_addr r <=? addr) && (addr ⊞ size <=? mr_base_addr r ⊞ mr_size r) && negb (mr_allocated r)
      then Some (mkMemoryRegion (mr_base_addr r) (mr_size r) true :: rs')
      else rest ← allocate_scan addr size rs'; Some (r :: rest)
  end.

Definition allocate_region (addr size : Z) (m : SharedMemoryManager) : bool * SharedMemoryManager :=
  match allocate_scan addr size (sm_regions m) with
  | Some rs => (true, set_regions rs m)
  | None => (false, m)
  end.

Fixpoint deallocate_scan (addr : Z) (rs : list MemoryRegion) : option (list MemoryRegion) :=
  match rs with
  | [] => None
  | r :: rs' =>
      if (mr_base_addr r =? addr) && mr_allocated r
      then Some (mkMemoryRegion (mr_base_addr r) (mr_size r) false :: rs')
      else rest ← deallocate_scan addr rs'; Some (r :: rest)
  end.

Definition deallocate_region (addr : Z) (m : SharedMemoryManager) : bool * SharedMemoryManager :=
  match deallocate_scan addr (sm_regions m) with
  | Some rs => (true, set_regions rs m)
  | None => (false, m)
  end.

Definition is_valid_address (m : SharedMemoryManager) (addr : Z) : bool :=
  match sm_header m with
  | None => false
  | Some h =>
      if sh_base_addr h =? 0 then true
      else (sh_base_addr h <=? addr) &&
           (addr <? sh_base_addr h ⊞ (sh_num_cachelines h ⊠ SHM_CACHELINE_SIZE))
  end.

Record MemoryStats := mkMemoryStats {
  ms_total_capacity : Z;
  ms_used_memory : Z;
  ms_num_cachelines : Z;
  ms_active_cachelines : Z
}.

Definition shm_get_stats (m : SharedMemoryManager) : MemoryStats :=
  let active := Z.of_nat (size (sm_metadata_cache m)) in
  mkMemoryStats (sm_capacity_mb m ⊠ 1024 ⊠ 1024) (active ⊠ SHM_CACHELINE_SIZE)
    (shm_info_cachelines m) active.

(** ** Specification: the byte of the data area that serves an address *)
Definition byte_index (h : SharedMemoryHeader) (a : Z) : Z :=
  (if sh_base_addr h =? 0 then (line_of a / 64) mod sh_num_cachelines h
   else (line_of a - sh_base_addr h) / 64) * 64 + (a - line_of a).

Definition byte_at (m : SharedMemoryManager) (h : SharedMemoryHeader) (a : Z) : Z :=
  sm_data_area m !!! Z.to_nat (byte_index h a).

(** The mapped object holds all the cachelines that its header announces. *)
Definition shm_ok (m : SharedMemoryManager) (h : SharedMemoryHeader) : Prop :=
  sm_header m = Some h /\ 0 < sh_num_cachelines h /\ 0 <= sh_base_addr h < 2 ^ 64 /\
  sh_num_cachelines h * 64 <= Z.of_nat (length (sm_data_area m)).

(** The accesses that the manager serves: up to a cacheline, anywhere in the modulo mode,
    inside one line of the window otherwise. *)
Definition served (h : SharedMemoryHeader) (addr size : Z) : Prop :=
  1 <= size <= 64 /\
  (sh_base_addr h = 0 \/
   sh_base_addr h <= line_of addr /\ (line_of addr - sh_base_addr h) / 64 < sh_num_cachelines h /\
   addr - line_of addr + size <= 64).

(** The addresses of an access. *)
Definition addrs (addr size : Z) : list Z := (fun i => addr ⊞ i) <$> seqZ 0 size.

(** ** Lemmas on the mapping *)
Lemma byte_index_same_line (h : SharedMemoryHeader) (a j : Z) :
  0 <= j -> a + j < line_of a + 64 -> byte_index h (a + j) = byte_index h a + j.
Proof. intros H0 H1. unfold byte_index. rewrite (line_of_same a j H0 H1). lia. Qed.

Lemma byte_index_mod (h : SharedMemoryHeader) (a : Z) : byte_index h a mod 64 = a mod 64.
Proof.
  unfold byte_index. rewrite Z.add_comm, Z.mod_add by lia.
  rewrite line_of_spec. replace (a - (a - a mod 64)) with (a mod 64) by lia. apply Z.mod_mod. lia.
Qed.

(** Different bytes of an access of at most a cacheline are served by different bytes. *)
Lemma byte_index_inj (h : SharedMemoryHeader) (a i j : Z) :
  0 <= i < 64 -> 0 <= j < 64 -> byte_index h (a ⊞ i) = byte_index h (a ⊞ j) -> i = j.
Proof.
  intros Hi Hj E. apply (f_equal (fun x => x mod 64)) in E.
  rewrite !byte_index_mod, !wrap64_mod64 in E.
  Z.to_euclidean_division_equations. lia.
Qed.

Lemma byte_index_modulo_range (h : SharedMemoryHeader) (a : Z) :
  sh_base_addr h = 0 -> 0 < sh_num_cachelines h ->
  0 <= byte_index h a /\ byte_index h a + (64 - (a - line_of a)) <= sh_num_cachelines h * 64.
Proof.
  intros Hb Hn. unfold byte_index. rewrite Hb. cbn.
  pose proof (Z.mod_pos_bound (line_of a / 64) (sh_num_cachelines h) Hn).
  pose proof (line_of_le a). lia.
Qed.

Lemma cacheline_to_index_modulo (h : SharedMemoryHeader) (a : Z) :
  sh_base_addr h = 0 -> 0 < sh_num_cachelines h ->
  exists index, cacheline_to_index h (line_of a) = Some index /\
    index * 64 + (a - line_of a) = byte_index h a.
Proof.
  intros Hb Hn. unfold cacheline_to_index, byte_index. rewrite Hb. cbn.
  rewrite (proj2 (Z.eqb_neq _ _)) by lia. eauto.
Qed.

(** One iteration of the loops: the chunk that starts at [addr + k]. *)
Lemma chunk_addr (h : SharedMemoryHeader) (addr k j : Z) :
  let cur := addr ⊞ k in
  0 <= j -> cur + j < line_of cur + 64 -> byte_index h (addr ⊞ (k + j)) = byte_index h cur + j.
Proof.
  intros cur H0 H1. pose proof (wrap64_range (addr + k)) as U. fold cur in U.
  pose proof (line_of_top cur U) as T.
  replace (addr ⊞ (k + j)) with (cur + j); [by apply byte_index_same_line|].
  symmetry. unfold cur, wrap64. rewrite Z.add_assoc, Z.add_mod by lia.
  rewrite (Z.mod_small j) by (unfold u64 in U; pose proof (line_of_le cur); lia).
  rewrite Z.mod_small; [done|]. fold (wrap64 (addr + k)). fold cur. unfold u64 in U. lia.
Qed.

Lemma seqZ_split (k n m : Z) : 0 <= n <= m -> seqZ k m = seqZ k n ++ seqZ (k + n) (m - n).
Proof. intros H. rewrite <- seqZ_app by lia. f_equal. lia. Qed.

Lemma read_loop_spec (fuel : nat) (m : SharedMemoryManager) (h : SharedMemoryHeader) (addr size k : Z) (acc : list Z) :
  shm_ok m h -> sh_base_addr h = 0 -> 0 <= k <= size -> (Z.to_nat (size - k) < fuel)%nat ->
  read_loop fuel h (sm_data_area m) addr size k acc =
  Some (acc ++ ((fun i => byte_at m h (addr ⊞ i)) <$> seqZ k (size - k))).
Proof.
  intros (Hh & Hn & _ & Hl) Hb. revert k acc. induction fuel as [|fuel IH]; intros k acc Hk Hf; [lia|].
  cbn [read_loop]. destruct (k <? size) eqn:E; zify_bool.
  2:{ replace (size - k) with 0 by lia. cbn. by rewrite app_nil_r. }
  set (cur := addr ⊞ k). destruct (cacheline_to_index_modulo h cur Hb Hn) as (index & -> & Ei). cbn.
  pose proof (line_of_le cur) as L. pose proof (byte_index_modulo_range h cur Hb Hn) as R.
  unfold SHM_CACHELINE_SIZE in *. rewrite Ei. set (n := Z.min _ _).
  rewrite mem_read_bytes by lia. cbn. rewrite IH by lia. f_equal. rewrite <- app_assoc. f_equal.
  rewrite (seqZ_split k n) by lia. rewrite fmap_app. f_equal.
  - apply list_eq. intros i. rewrite !list_lookup_fmap.
    destruct (decide (Z.of_nat i < n)); [|by rewrite !lookup_seqZ_ge by lia].
    rewrite !lookup_seqZ_lt by lia. cbn. f_equal. unfold byte_at. do 2 f_equal.
    pose proof (chunk_addr h addr k (Z.of_nat i)) as C. cbv zeta in C. fold cur in C. rewrite C; lia.
  - do 2 f_equal. lia.
Qed.

Lemma cacheline_to_index_window (h : SharedMemoryHeader) (a : Z) :
  sh_base_addr h <> 0 -> 0 <= sh_base_addr h <= line_of a -> u64 a ->
  cacheline_to_index h (line_of a) = Some ((line_of a - sh_base_addr h) / 64).
Proof.
  intros Hb Hl Ha. unfold cacheline_to_index. rewrite (proj2 (Z.eqb_neq _ _) Hb).
  pose proof (line_of_le a). unfold u64 in Ha. rewrite wrap64_small by (unfold u64; lia). done.
Qed.

(** The window mode finds the line's place in the data area, or nothing. *)
Lemma get_cacheline_data_window (m : SharedMemoryManager) (h : SharedMemoryHeader) (a : Z) :
  shm_ok m h -> sh_base_addr h <> 0 -> u64 a ->
  get_cacheline_data m (line_of a) = Some
    (if decide (sh_base_addr h <= line_of a /\ (line_of a - sh_base_addr h) / 64 < sh_num_cachelines h)
     then Some ((line_of a - sh_base_addr h) / 64 * 64) else None).
Proof.
  intros (Hh & Hn & Hr & Hl) Hb Ha. unfold get_cacheline_data. rewrite Hh.
  rewrite (proj2 (Z.eqb_neq _ _) Hb). destruct (line_of a <? sh_base_addr h) eqn:E; zify_bool.
  - rewrite decide_False by lia. done.
  - rewrite cacheline_to_index_window by (auto; lia). cbn.
    destruct (sh_num_cachelines h <=? _) eqn:E'; zify_bool.
    + rewrite decide_False by lia. done.
    + rewrite decide_True by lia. done.
Qed.

Lemma window_bytes (h : SharedMemoryHeader) (a i : Z) :
  sh_base_addr h <> 0 -> u64 a -> 0 <= i -> a + i < line_of a + 64 ->
  byte_index h (a ⊞ i) = (line_of a - sh_base_addr h) / 64 * 64 + (a - line_of a) + i.
Proof.
  intros Hb Ha Hi Hl. pose proof (line_of_top a Ha).
  rewrite wrap64_small by (unfold u64 in *; lia).
  rewrite byte_index_same_line by lia. unfold byte_index. by rewrite (proj2 (Z.eqb_neq _ _) Hb).
Qed.

(** Every read: the bytes of the mapping when the access is served, a failure otherwise. *)
Lemma read_cacheline_served (m : SharedMemoryManager) (h : SharedMemoryHeader) (addr size : Z) :
  shm_ok m h -> u64 addr -> served h addr size ->
  read_cacheline m addr size = Some (Some (byte_at m h <$> addrs addr size)).
Proof.
  intros Hok Ha [Hs Hw]. pose proof Hok as (Hh & Hn & Hr & Hl). unfold read_cacheline, addrs.
  unfold SHM_CACHELINE_SIZE. rewrite <- list_fmap_compose.
  destruct (orb _ _) eqn:E; [apply orb_true_iff in E as [E|E]; zify_bool; lia|clear E]. rewrite Hh.
  destruct (sh_base_addr h =? 0) eqn:Eb; zify_bool.
  - rewrite (read_loop_spec _ m h) by (auto; lia). cbn. rewrite Z.sub_0_r. done.
  - destruct Hw as [Hw|(W1 & W2 & W3)]; [done|]. rewrite (get_cacheline_data_window m h) by auto.
    rewrite decide_True by auto. cbn. rewrite (proj2 (Z.ltb_ge _ _)) by lia.
    pose proof (line_of_le addr). assert (0 <= (line_of addr - sh_base_addr h) / 64) by (apply Z.div_pos; lia).
    rewrite mem_read_bytes by nia. cbn. do 2 f_equal. apply list_fmap_ext. intros i x Hx.
    apply lookup_seqZ in Hx as [-> Hi]. unfold compose, byte_at. rewrite (window_bytes h addr) by (done || lia).
    do 2 f_equal.
Qed.

Lemma read_cacheline_refused (m : SharedMemoryManager) (h : SharedMemoryHeader) (addr size : Z) :
  shm_ok m h -> u64 addr -> 0 <= size -> ~ served h addr size -> read_cacheline m addr size = Some None.
Proof.
  intros Hok Ha Hs0 Hns. pose proof Hok as (Hh & Hn & Hr & Hl). unfold read_cacheline, SHM_CACHELINE_SIZE.
  destruct (orb _ _) eqn:E; [done|]. zify_bool. rewrite Hh.
  assert (Hs : 1 <= size <= 64) by lia.
  destruct (sh_base_addr h =? 0) eqn:Eb; zify_bool; [destruct Hns; split; auto|].
  rewrite (get_cacheline_data_window m h) by auto. cbn. case_decide as W; [|done].
  destruct (64 <? _) eqn:E'; [done|]. zify_bool. destruct Hns. split; [done|right; lia].
Qed.

(** ** Writes *)

(** [d'] is [d] with the bytes [bs] stored at the addresses from [addr] on. *)
Definition stored (h : SharedMemoryHeader) (addr : Z) (bs d d' : list Z) : Prop :=
  length d' = length d /\
  (forall i b, bs !! i = Some b -> d' !! Z.to_nat (byte_index h (addr ⊞ Z.of_nat i)) = Some b) /\
  (forall k, (forall i, (i < length bs)%nat -> k <> Z.to_nat (byte_index h (addr ⊞ Z.of_nat i))) ->
     d' !! k = d !! k).

(** The loop invariant: the bytes from [k] on are still to be stored. *)
Definition stored_from (h : SharedMemoryHeader) (addr : Z) (bs : list Z) (k : Z) (d d' : list Z) : Prop :=
  length d' = length d /\
  (forall i b, k <= Z.of_nat i -> bs !! i = Some b ->
     d' !! Z.to_nat (byte_index h (addr ⊞ Z.of_nat i)) = Some b) /\
  (forall p, (forall i, k <= Z.of_nat i -> (i < length bs)%nat ->
                p <> Z.to_nat (byte_index h (addr ⊞ Z.of_nat i))) ->
     d' !! p = d !! p).

Lemma write_loop_spec (fuel : nat) (h : SharedMemoryHeader) (addr : Z) (bs : list Z) (k : Z) (d : list Z) :
  sh_base_addr h = 0 -> 0 < sh_num_cachelines h -> sh_num_cachelines h * 64 <= Z.of_nat (length d) ->
  Z.of_nat (length bs) <= 64 -> 0 <= k <= Z.of_nat (length bs) ->
  (Z.to_nat (Z.of_nat (length bs) - k) < fuel)%nat ->
  exists d', write_loop fuel h addr bs k d = Some d' /\ stored_from h addr bs k d d'.
Proof.
  intros Hb Hn Hl Hs. revert k d Hl. induction fuel as [|fuel IH]; intros k d Hl Hk Hf; [lia|].
  cbn [write_loop]. destruct (k <? _) eqn:E; zify_bool.
  2:{ exists d. split; [done|]. split; [done|]. split; [|done].
      intros i b Hi Hbi. apply lookup_lt_Some in Hbi. lia. }
  set (cur := addr ⊞ k). destruct (cacheline_to_index_modulo h cur Hb Hn) as (index & -> & Ei). cbn.
  pose proof (line_of_le cur) as L. pose proof (byte_index_modulo_range h cur Hb Hn) as R.
  unfold SHM_CACHELINE_SIZE in *. rewrite Ei. set (n := Z.min _ _). set (chunk := take _ _).
  assert (Lc : Z.of_nat (length chunk) = n) by (unfold chunk; rewrite length_take, length_drop; lia).
  destruct (mem_write_Some (byte_index h cur) chunk d) as [d1 E1]; [lia..|]. rewrite E1. cbn.
  pose proof (mem_write_length _ _ _ _ E1) as L1.
  destruct (IH (k + n) d1) as (d' & Ed & Hlen & Hhit & Hmiss); [lia..|].
  exists d'. split; [done|]. split; [congruence|].
  assert (C : forall i, k <= Z.of_nat i < k + n ->
            byte_index h (addr ⊞ Z.of_nat i) = byte_index h cur + (Z.of_nat i - k)).
  { intros i Hi. pose proof (chunk_addr h addr k (Z.of_nat i - k)) as C. cbv zeta in C. fold cur in C.
    rewrite <- C by lia. do 2 f_equal. lia. }
  split.
  - intros i b Hi Hbi. pose proof (lookup_lt_Some _ _ _ Hbi) as Hlt.
    destruct (decide (k + n <= Z.of_nat i)); [by apply Hhit|].
    rewrite Hmiss.
    + rewrite (mem_write_lookup _ _ _ _ _ E1), (C i) by lia. rewrite decide_True by lia.
      unfold chunk. rewrite lookup_take_lt, lookup_drop by lia. rewrite <- Hbi. f_equal. lia.
    + intros j Hj Hjl Eq. rewrite (C i) in Eq by lia.
      assert (Ej : byte_index h (addr ⊞ Z.of_nat j) = byte_index h (addr ⊞ Z.of_nat i)).
      { rewrite (C i) by lia. pose proof (byte_index_modulo_range h (addr ⊞ Z.of_nat j) Hb Hn). lia. }
      apply byte_index_inj in Ej; lia.
  - intros p Hp. rewrite Hmiss by (intros i Hi Hil; apply Hp; lia).
    rewrite (mem_write_lookup _ _ _ _ _ E1), decide_False; [done|].
    intros Hin. set (i := Z.to_nat (k + (Z.of_nat p - byte_index h cur))).
    apply (Hp i); [unfold i; lia|unfold i; lia|]. rewrite (C i) by (unfold i; lia). unfold i. lia.
Qed.

Lemma write_cacheline_served (msync_ok : bool) (m : SharedMemoryManager) (h : SharedMemoryHeader)
    (addr : Z) (bs : list Z) :
  shm_ok m h -> u64 addr -> served h addr (Z.of_nat (length bs)) ->
  exists d', write_cacheline msync_ok addr bs m = Some (msync_ok, set_header_data (Some h) d' m) /\
    stored h addr bs (sm_data_area m) d'.
Proof.
  intros Hok Ha [Hs Hw]. pose proof Hok as (Hh & Hn & Hr & Hl). unfold write_cacheline, SHM_CACHELINE_SIZE.
  destruct (orb _ _) eqn:E; [apply orb_true_iff in E as [E|E]; zify_bool; lia|clear E]. rewrite Hh.
  destruct (sh_base_addr h =? 0) eqn:Eb; zify_bool.
  - destruct (write_loop_spec (S (length bs)) h addr bs 0 (sm_data_area m)) as (d' & -> & H1 & H2 & H3);
      [done|done|lia..|]. exists d'. split; [done|]. split; [done|]. split.
    + intros i b. apply H2. lia.
    + intros k Hk. apply H3. intros i _. apply Hk.
  - destruct Hw as [Hw|(W1 & W2 & W3)]; [done|]. rewrite (get_cacheline_data_window m h) by auto.
    rewrite decide_True by auto. cbn. rewrite (proj2 (Z.ltb_ge _ _)) by lia.
    pose proof (line_of_le addr). assert (0 <= (line_of addr - sh_base_addr h) / 64) by (apply Z.div_pos; lia).
    set (p := (line_of addr - sh_base_addr h) / 64 * 64 + (addr - line_of addr)).
    destruct (mem_write_Some p bs (sm_data_area m)) as [d' E]; [unfold p; nia..|].
    rewrite E. exists d'. split; [done|]. split; [by apply mem_write_length in E|]. split.
    + intros i b Hi. pose proof (lookup_lt_Some _ _ _ Hi). rewrite (mem_write_lookup _ _ _ _ _ E).
      rewrite window_bytes by (done || lia). fold p. assert (0 <= p) by (unfold p; lia).
      rewrite decide_True by lia. rewrite <- Hi. f_equal. lia.
    + intros k Hk. rewrite (mem_write_lookup _ _ _ _ _ E), decide_False; [done|]. intros Hin.
      assert (0 <= p) by (unfold p; lia). set (i := Z.to_nat (Z.of_nat k - p)).
      apply (Hk i); [unfold i; lia|]. rewrite window_bytes by (done || (unfold i; lia)). fold p. unfold i. lia.
Qed.

Lemma write_cacheline_refused (msync_ok : bool) (m : SharedMemoryManager) (h : SharedMemoryHeader)
    (addr : Z) (bs : list Z) :
  shm_ok m h -> u64 addr -> ~ served h addr (Z.of_nat (length bs)) ->
  write_cacheline msync_ok addr bs m = Some (false, m).
Proof.
  intros Hok Ha Hns. pose proof Hok as (Hh & Hn & Hr & Hl). unfold write_cacheline, SHM_CACHELINE_SIZE.
  destruct (orb _ _) eqn:E; [done|]. zify_bool. rewrite Hh.
  assert (Hs : 1 <= Z.of_nat (length bs) <= 64) by lia.
  destruct (sh_base_addr h =? 0) eqn:Eb; zify_bool; [destruct Hns; split; auto|].
  rewrite (get_cacheline_data_window m h) by auto. cbn. case_decide as W; [|done].
  destruct (64 <? _) eqn:E'; [done|]. zify_bool. destruct Hns. split; [done|right; lia].
Qed.

#[global] Instance served_dec (h : SharedMemoryHeader) (addr size : Z) : Decision (served h addr size).
Proof. unfold served. apply _. Defined.

Lemma shm_ok_write (m : SharedMemoryManager) (h : SharedMemoryHeader) (d : list Z) :
  shm_ok m h -> length d = length (sm_data_area m) -> shm_ok (set_header_data (Some h) d m) h.
Proof. intros (Hh & Hn & Hr & Hl) Hd. split; [done|]. cbn. rewrite Hd. done. Qed.

Lemma stored_read (m : SharedMemoryManager) (h : SharedMemoryHeader) (addr : Z) (bs d : list Z) :
  stored h addr bs (sm_data_area m) d ->
  byte_at (set_header_data (Some h) d m) h <$> addrs addr (Z.of_nat (length bs)) = bs.
Proof.
  intros (_ & Hhit & _). apply list_eq. intros i. unfold addrs. rewrite <- list_fmap_compose, list_lookup_fmap.
  destruct (bs !! i) as [b|] eqn:E.
  - rewrite lookup_seqZ_lt by (apply lookup_lt_Some in E; lia). cbn. unfold byte_at. cbn.
    f_equal. apply list_lookup_total_correct. by apply (Hhit i b).
  - rewrite lookup_seqZ_ge by (apply lookup_ge_None in E; lia). done.
Qed.

(** The addresses that have a byte of their own: the first [num_cachelines] lines from an
    aligned base. *)
Definition in_window (h : SharedMemoryHeader) (a : Z) : Prop :=
  sh_base_addr h mod 64 = 0 /\ sh_base_addr h <= a < sh_base_addr h + sh_num_cachelines h * 64 /\ a < 2 ^ 64.

Lemma byte_index_window (h : SharedMemoryHeader) (a : Z) :
  0 <= sh_base_addr h -> in_window h a -> byte_index h a = a - sh_base_addr h.
Proof.
  intros H0 (Hb & Ha & _). unfold byte_index. rewrite line_of_spec.
  destruct (sh_base_addr h =? 0) eqn:E; zify_bool.
  - rewrite E in *. assert (Hq : (a - a mod 64) / 64 = a / 64).
    { Z.to_euclidean_division_equations. lia. }
    rewrite Hq, Z.mod_small; Z.to_euclidean_division_equations; lia.
  - Z.to_euclidean_division_equations. lia.
Qed.

(** On a well-formed mapping every read and every write ends. *)
Lemma read_total (m : SharedMemoryManager) (h : SharedMemoryHeader) (addr size : Z) :
  shm_ok m h -> u64 addr -> 0 <= size ->
  exists r, read_cacheline m addr size = Some r /\ (is_Some r <-> served h addr size).
Proof.
  intros Hok Ha Hs. destruct (decide (served h addr size)) as [S|S].
  - rewrite (read_cacheline_served m h) by done. eexists. split; [done|]. split; [done|eauto].
  - rewrite (read_cacheline_refused m h) by done. eexists. split; [done|]. split; [intros [? [=]]|done].
Qed.

Lemma write_total (msync_ok : bool) (m : SharedMemoryManager) (h : SharedMemoryHeader) (addr : Z) (bs : list Z) :
  shm_ok m h -> u64 addr ->
  exists r m', write_cacheline msync_ok addr bs m = Some (r, m') /\ shm_ok m' h /\
    (r = true <-> served h addr (Z.of_nat (length bs)) /\ msync_ok = true) /\
    (~ served h addr (Z.of_nat (length bs)) -> m' = m).
Proof.
  intros Hok Ha. destruct (decide (served h addr (Z.of_nat (length bs)))) as [S|S].
  - destruct (write_cacheline_served msync_ok m h addr bs Hok Ha S) as (d & -> & Hd & _).
    exists msync_ok, (set_header_data (Some h) d m). split; [done|].
    split; [by apply shm_ok_write|]. split; [tauto|done].
  - rewrite (write_cacheline_refused msync_ok m h) by done. eexists _, _. split; [done|].
    split; [done|]. split; [split; [done|tauto]|done].
Qed.

(** ** Theorems *)

(** C7. Memory safety: on a well-formed mapping no read and no write of any size at any
    64-bit address touches a byte outside the data area or fails to finish; an access
    succeeds exactly when its size is 1 to 64 bytes and, with a non-zero base, it lies in
    one line of the window; a refused write changes nothing. *)
Theorem shm_access_safe (m : SharedMemoryManager) (h : SharedMemoryHeader) (addr size : Z)
  (bs : list Z) (msync_ok : bool) (Hok : shm_ok m h) (Ha : u64 addr) (Hs : 0 <= size) :
  (exists r, read_cacheline m addr size = Some r /\ (is_Some r <-> served h addr size)) /\
  (exists r m', write_cacheline msync_ok addr bs m = Some (r, m') /\ shm_ok m' h /\
     (r = true <-> served h addr (Z.of_nat (length bs)) /\ msync_ok = true) /\
     (~ served h addr (Z.of_nat (length bs)) -> m' = m)).
Proof. split; [by apply read_total|by apply write_total]. Qed.

(** A manager over 4 lines: base 0, and a window at 4096. *)
Definition demo_header (base : Z) : SharedMemoryHeader :=
  mkSharedMemoryHeader MAGIC_NUMBER FORMAT_VERSION 312 56 0 4 base.

Definition demo_shm (base : Z) : SharedMemoryManager :=
  mkSharedMemoryManager 1 312 false (Some (demo_header base)) (replicate 256 0) ∅ [].

Lemma demo_shm_ok (base : Z) : 0 <= base < 2 ^ 64 -> shm_ok (demo_shm base) (demo_header base).
Proof. intros Hb. split; [done|]. cbn. lia. Qed.

Lemma shm_access_safe_witness :
  read_cacheline (demo_shm 4096) 4352 8 = Some None /\
  exists r, read_cacheline (demo_shm 4096) 4352 8 = Some r /\
    (is_Some r <-> served (demo_header 4096) 4352 8).
Proof.
  split; [reflexivity|].
  apply (shm_access_safe (demo_shm 4096) (demo_header 4096) 4352 8 [] true).
  - apply demo_shm_ok. lia.
  - unfold u64. lia.
  - lia.
Defined.

(** C8. Refinement to a flat byte memory: over the addresses of the window, a successful
    write changes exactly the bytes it names and a successful read returns the bytes of
    its addresses, each address having a byte of its own. *)
Theorem shm_refines_flat (m : SharedMemoryManager) (h : SharedMemoryHeader) (addr a : Z) (bs : list Z)
  (Hok : shm_ok m h) (Hs : served h addr (Z.of_nat (length bs)))
  (Hw : forall i, 0 <= i < Z.of_nat (length bs) -> in_window h (addr + i)) (Ha : in_window h a) :
  exists m', write_cacheline true addr bs m = Some (true, m') /\
    byte_at m' h a = (if decide (addr <= a < addr + Z.of_nat (length bs))
                      then bs !!! Z.to_nat (a - addr) else byte_at m h a) /\
    (forall size, served h a size -> (forall i, 0 <= i < size -> in_window h (a + i)) ->
       read_cacheline m' a size = Some (Some ((fun i => byte_at m' h (a + i)) <$> seqZ 0 size))).
Proof.
  pose proof Hok as (Hh & Hn & Hb & Hl).
  assert (U : forall x, in_window h x -> u64 x) by (intros x (_ & Hx & Hx'); unfold u64; lia).
  assert (Ua : u64 addr) by (destruct Hs as [Hs _]; apply U; rewrite <- (Z.add_0_r addr); apply Hw; lia).
  destruct (write_cacheline_served true m h addr bs Hok Ua Hs) as (d & E & Hd & Hhit & Hmiss).
  exists (set_header_data (Some h) d m). split; [done|].
  assert (W : forall i, (i < length bs)%nat -> byte_index h (addr ⊞ Z.of_nat i) = addr + Z.of_nat i - sh_base_addr h).
  { intros i Hi. pose proof (Hw (Z.of_nat i) ltac:(lia)) as Wi. rewrite wrap64_small by auto.
    apply byte_index_window; [lia|done]. }
  split.
  - unfold byte_at. rewrite (byte_index_window h a) by (done || lia). cbn. case_decide as D.
    + destruct (lookup_lt_is_Some_2 bs (Z.to_nat (a - addr))) as [b Eb]; [lia|].
      rewrite (list_lookup_total_correct _ _ _ Eb). apply list_lookup_total_correct.
      rewrite <- (Hhit _ _ Eb). f_equal. rewrite W by lia. lia.
    + rewrite !list_lookup_total_alt. f_equal. apply Hmiss. intros i Hi. rewrite W by done.
      destruct Ha as (_ & Ha & _). pose proof (Hw (Z.of_nat i) ltac:(lia)) as (_ & Hwi & _). lia.
  - intros size Hsz Hin. rewrite (read_cacheline_served _ h); [|by apply shm_ok_write|by apply U|done].
    do 2 f_equal. unfold addrs. rewrite <- list_fmap_compose. apply list_fmap_ext. intros i x Hx.
    apply lookup_seqZ in Hx as [-> Hi]. unfold compose. rewrite wrap64_small; [done|].
    apply U, Hin. lia.
Qed.

Lemma shm_refines_flat_witness :
  exists m', write_cacheline true 60 [1; 2; 3; 4; 5; 6; 7; 8] (demo_shm 0) = Some (true, m') /\
    byte_at m' (demo_header 0) 65 = 6.
Proof.
  destruct (shm_refines_flat (demo_shm 0) (demo_header 0) 60 65 [1; 2; 3; 4; 5; 6; 7; 8])
    as (m' & H1 & H2 & _).
  - apply demo_shm_ok. lia.
  - split; [cbn; lia|]. left. reflexivity.
  - intros i Hi. unfold in_window. simpl length in Hi. cbn [sh_base_addr sh_num_cachelines demo_header].
    split; [reflexivity|lia].
  - split; [reflexivity|]. cbn. lia.
  - exists m'. split; [exact H1|]. rewrite H2. reflexivity.
Defined.

(** Read after write, at every address: in both mapping modes, also where the modulo
    mapping folds addresses and an access wraps around, the bytes of a served write are read
    back, whether or not [msync] reported success. *)
Theorem shm_read_after_write (m : SharedMemoryManager) (h : SharedMemoryHeader) (addr : Z) (bs : list Z)
  (msync_ok : bool) (Hok : shm_ok m h) (Ha : u64 addr) (Hs : served h addr (Z.of_nat (length bs))) :
  exists m', write_cacheline msync_ok addr bs m = Some (msync_ok, m') /\
    read_cacheline m' addr (Z.of_nat (length bs)) = Some (Some bs).
Proof.
  destruct (write_cacheline_served msync_ok m h addr bs Hok Ha Hs) as (d & E & Hd).
  eexists. split; [exact E|].
  rewrite (read_cacheline_served _ h); [|apply shm_ok_write; [done|apply Hd]|done|done].
  by rewrite (stored_read m h addr bs d Hd).
Qed.

Lemma shm_read_after_write_witness :
  exists m', write_cacheline true (2 ^ 64 - 2) [1; 2; 3; 4] (demo_shm 0) = Some (true, m') /\
    read_cacheline m' (2 ^ 64 - 2) 4 = Some (Some [1; 2; 3; 4]).
Proof.
  apply (shm_read_after_write (demo_shm 0) (demo_header 0) (2 ^ 64 - 2) [1; 2; 3; 4] true).
  - apply demo_shm_ok. lia.
  - unfold u64. lia.
  - split; [cbn; lia|]. left. reflexivity.
Defined.

(** Initialisation of a fresh object: with a mapping of the announced size whose header
    carries no magic number, [initialize] succeeds and yields a well-formed manager with
    one line less than the capacity divided by 64, at the base address of the environment. *)
Theorem shm_initialize_fresh (a : ShmAnswers) (p : ShmMapping) (base_env : option Z) (capacity_mb : Z)
  (Hcap : 1 <= capacity_mb < 2 ^ 40)
  (Hcreate : create_shared_memory a (shm_new capacity_mb false) = true) (Hmap : map_ok p = true)
  (Hlen : Z.of_nat (length (map_data p)) = sm_shm_size (shm_new capacity_mb false) - SHM_HEADER_SIZE)
  (Hmagic : sh_magic (map_header p) <> MAGIC_NUMBER) (Hbase : 0 <= default 0 base_env < 2 ^ 64) :
  exists m' h, shm_initialize a p base_env (shm_new capacity_mb false) = (true, m') /\ shm_ok m' h /\
    sh_num_cachelines h = capacity_mb * 16384 - 1 /\ sh_base_addr h = default 0 base_env /\
    sm_data_area m' = map_data p.
Proof.
  assert (Es : sm_shm_size (shm_new capacity_mb false) = capacity_mb * 1048576).
  { cbn. rewrite wrap64_small; rewrite ?(wrap64_small (_ * 1024)); unfold u64; lia. }
  unfold shm_initialize. cbn [sm_use_file_backing shm_new]. fold (shm_new capacity_mb false).
  rewrite Hcreate. cbn [negb].
  unfold map_shared_memory. rewrite Hmap. eexists _, _. split; [reflexivity|].
  unfold initialize_header. rewrite (proj2 (Z.eqb_neq _ _) Hmagic). cbn [andb].
  unfold initialize_data_area. cbn [sh_magic]. rewrite Z.eqb_refl.
  cbn [sm_header sm_shm_size set_header_data sh_num_cachelines sh_base_addr sm_data_area negb].
  fold (shm_new capacity_mb false). rewrite Es in *.
  assert (En : (capacity_mb * 1048576 ⊟ SHM_HEADER_SIZE) / SHM_CACHELINE_SIZE = capacity_mb * 16384 - 1).
  { rewrite wrap64_small by (unfold u64, SHM_HEADER_SIZE; lia).
    unfold SHM_HEADER_SIZE, SHM_CACHELINE_SIZE. Z.to_euclidean_division_equations. lia. }
  rewrite En. unfold SHM_HEADER_SIZE in Hlen. split; [split; [reflexivity|]|done].
  cbn [sh_num_cachelines sh_base_addr sm_data_area]. lia.
Qed.

Definition demo_mapping (h : SharedMemoryHeader) (bytes : nat) : ShmMapping :=
  mkShmMapping true h (replicate bytes 0).

Lemma shm_initialize_fresh_witness :
  exists m' h, shm_initialize (mkShmAnswers None (Some true) false true true)
     (demo_mapping (mkSharedMemoryHeader 0 0 0 0 0 0 0) (Z.to_nat 1048520)) (Some 4096) (shm_new 1 false)
     = (true, m') /\ shm_ok m' h /\ sh_num_cachelines h = 16383.
Proof.
  destruct (shm_initialize_fresh (mkShmAnswers None (Some true) false true true)
     (demo_mapping (mkSharedMemoryHeader 0 0 0 0 0 0 0) (Z.to_nat 1048520)) (Some 4096) 1)
    as (m' & h & H1 & H2 & H3 & _).
  - cbn. lia.
  - reflexivity.
  - reflexivity.
  - cbn [map_data demo_mapping]. rewrite length_replicate, Z2Nat.id by lia. reflexivity.
  - discriminate.
  - cbn. lia.
  - exists m', h. auto.
Defined.

(** The default mapping folds the top of the capacity onto its start: on a manager with
    base 0 whose header was set up for [size] bytes, the last cacheline below [size] is
    served by the same bytes as address 0, so a write to one overwrites the other. *)
Theorem shm_last_line_aliases_first (m : SharedMemoryManager) (h : SharedMemoryHeader) (bs : list Z)
  (Hok : shm_ok m h) (Hb : sh_base_addr h = 0) (Hsize : sm_shm_size m mod 64 = 0)
  (Hn : sh_num_cachelines h = (sm_shm_size m - SHM_HEADER_SIZE) / 64)
  (Hr : sm_shm_size m <= 2 ^ 64) (Hlen : 1 <= Z.of_nat (length bs) <= 64) :
  exists m', write_cacheline true 0 bs m = Some (true, m') /\
    read_cacheline m' (sm_shm_size m - 64) (Z.of_nat (length bs)) = Some (Some bs).
Proof.
  pose proof Hok as (Hh & Hpos & _ & Hl). unfold SHM_HEADER_SIZE in Hn.
  assert (En : sm_shm_size m - 64 = sh_num_cachelines h * 64).
  { rewrite Hn. Z.to_euclidean_division_equations. lia. }
  assert (S0 : forall x, served h x (Z.of_nat (length bs))) by (intros x; split; [done|by left]).
  destruct (write_cacheline_served true m h 0 bs Hok ltac:(unfold u64; lia) (S0 0)) as (d & E & Hd).
  eexists. split; [exact E|].
  rewrite (read_cacheline_served _ h); [|apply shm_ok_write; [done|apply Hd]|unfold u64; lia|done].
  rewrite <- (stored_read m h 0 bs d Hd) at 2. do 2 f_equal. unfold addrs. rewrite <- !list_fmap_compose.
  apply list_fmap_ext. intros i x Hx. apply lookup_seqZ in Hx as [-> Hi]. unfold compose, byte_at. do 2 f_equal.
  rewrite !wrap64_small by (unfold u64; lia). unfold byte_index. rewrite Hb, En. cbn [Z.eqb].
  rewrite !line_of_spec. replace (sh_num_cachelines h * 64 + (0 + Z.of_nat i))
    with (0 + (0 + Z.of_nat i) + sh_num_cachelines h * 64) by lia.
  rewrite Z.mod_add by lia. set (j := 0 + (0 + Z.of_nat i)).
  replace (j + sh_num_cachelines h * 64 - j mod 64) with (j - j mod 64 + sh_num_cachelines h * 64) by lia.
  rewrite Z.div_add by lia. rewrite Z.add_mod, Z.mod_same, Z.add_0_r, Z.mod_mod by lia. lia.
Qed.

Lemma shm_last_line_aliases_first_witness :
  let m := mkSharedMemoryManager 1 320 false (Some (demo_header 0)) (replicate 264 0) ∅ [] in
  exists m', write_cacheline true 0 [7; 8; 9] m = Some (true, m') /\
    read_cacheline m' 256 3 = Some (Some [7; 8; 9]).
Proof.
  intros m. apply (shm_last_line_aliases_first m (demo_header 0) [7; 8; 9]); try reflexivity.
  - split; [reflexivity|]. cbn. lia.
  - cbn. lia.
  - cbn. lia.
Defined.

(** A stale header is trusted: when a backing file written with a larger capacity is
    reopened with a smaller one, [initialize] keeps the header of the old run, and an
    access that the header admits falls outside the mapped data. *)
Theorem shm_stale_header_unsafe (a : ShmAnswers) (p : ShmMapping) (m : SharedMemoryManager) (addr : Z)
  (Hfile : sm_use_file_backing m = true) (Hcreate : create_file_backing a = true) (Hmap : map_ok p = true)
  (Hmagic : sh_magic (map_header p) = MAGIC_NUMBER) (Hver : sh_version (map_header p) = FORMAT_VERSION)
  (Hb : sh_base_addr (map_header p) = 0)
  (Haddr : 0 <= addr < sh_num_cachelines (map_header p) * 64) (Hr : addr < 2 ^ 64)
  (Hout : Z.of_nat (length (map_data p)) <= addr) :
  exists m', shm_initialize a p None m = (true, m') /\ is_valid_address m' addr = true /\
    read_cacheline m' addr 1 = None.
Proof.
  unfold shm_initialize. rewrite Hfile, Hcreate. cbn [negb]. unfold map_shared_memory. rewrite Hmap.
  eexists. split; [done|]. unfold initialize_header. rewrite Hmagic, Hver, !Z.eqb_refl. cbn [andb].
  unfold initialize_data_area. rewrite Hmagic, Z.eqb_refl. cbn [negb].
  unfold is_valid_address, read_cacheline. cbn. rewrite Hb. cbn. split; [done|].
  rewrite (wrap64_small (addr + 0)) by (unfold u64; lia). rewrite Z.add_0_r.
  unfold cacheline_to_index. rewrite Hb. cbn [Z.eqb]. rewrite (proj2 (Z.eqb_neq _ _)) by lia. cbn.
  pose proof (line_of_le addr) as L. pose proof (line_of_nonneg addr ltac:(lia)) as L0.
  unfold SHM_CACHELINE_SIZE in *.
  rewrite (Z.mod_small (line_of addr / 64)) by (split; [apply Z.div_pos; lia|apply Z.div_lt_upper_bound; lia]).
  assert (El : line_of addr / 64 * 64 = line_of addr)
    by (rewrite line_of_spec; Z.to_euclidean_division_equations; lia).
  rewrite El. unfold mem_read. rewrite decide_False; [done|]. lia.
Qed.

Lemma shm_stale_header_unsafe_witness :
  exists m', shm_initialize (mkShmAnswers None None false true true) (demo_mapping (demo_header 0) 64)
               None (shm_new 1 true) = (true, m') /\
    is_valid_address m' 200 = true /\ read_cacheline m' 200 1 = None.
Proof.
  apply (shm_stale_header_unsafe (mkShmAnswers None None false true true)
           (demo_mapping (demo_header 0) 64) (shm_new 1 true) 200); cbn; (reflexivity || lia).
Defined.
