(* ===== verification/MessageQueue.v ===== *)
(** * Inter-node message queues ([dist_node_queue_t] in [include/distributed_server.h],
    [enqueue_message] and [dequeue_message] in [src/distributed_server.cpp])

    One ring buffer in shared memory per ordered pair of nodes.  The operations are given
    twice: as functions on the queue, and as the sequence of their shared-memory accesses
    ([ring_step]), in which any number of producers and consumers interleave.  Messages are
    an arbitrary type. *)
From S2P Require Import Prelude.

Set Implicit Arguments.

Record dist_node_queue (M : Type) := mkQueue {
  q_head : Z;
  q_tail : Z;
  q_msg_count : Z;
  q_capacity : Z;
  q_total_sent : Z;
  q_total_received : Z;
  q_total_dropped : Z;
  q_messages : list M
}.

Unset Implicit Arguments.

Definition DIST_MSG_QUEUE_SIZE : Z := 4096.

Section Queue.
Context {M : Type}.

(** The queue as [initialize] leaves it. *)
Definition queue_reset (messages : list M) : dist_node_queue M :=
  mkQueue 0 0 0 DIST_MSG_QUEUE_SIZE 0 0 0 messages.

(** [None]: the slot is outside the message array, or the capacity is 0. *)
Definition queue_enqueue (m : M) (q : dist_node_queue M) : option (bool * dist_node_queue M) :=
  if q_capacity q =? 0 then None
  else
    let next_head := wrap32 (q_head q + 1) mod q_capacity q in
    if next_head =? q_tail q then
      Some (false, mkQueue (q_head q) (q_tail q) (q_msg_count q) (q_capacity q) (q_total_sent q)
                     (q_total_received q) (q_total_dropped q ⊞ 1) (q_messages q))
    else
      if decide (Z.to_nat (q_head q) < length (q_messages q))%nat then
        Some (true, mkQueue next_head (q_tail q) (wrap32 (q_msg_count q + 1)) (q_capacity q)
                      (q_total_sent q ⊞ 1) (q_total_received q) (q_total_dropped q)
                      (<[Z.to_nat (q_head q) := m]> (q_messages q)))
      else None.

Definition queue_dequeue (q : dist_node_queue M) : option (option M * dist_node_queue M) :=
  if q_head q =? q_tail q then Some (None, q)
  else
    m ← q_messages q !! Z.to_nat (q_tail q);
    if q_capacity q =? 0 then None
    else
      let next_tail := wrap32 (q_tail q + 1) mod q_capacity q in
      Some (Some m, mkQueue (q_head q) next_tail (wrap32 (q_msg_count q - 1)) (q_capacity q)
                      (q_total_sent q) (q_total_received q ⊞ 1) (q_total_dropped q) (q_messages q)).
End Queue.

(** ** The accesses of the two operations

    A producer loads [head] and [tail], gives up when the ring is full, copies the message
    into its slot and publishes the new head; a consumer loads both indices, gives up when
    they are equal, copies the message out and publishes the new tail.  [rs_sent] and
    [rs_received] record the messages in the order of the publishing stores. *)
Inductive producer_pc (M : Type) :=
| PIdle
| PHead (m : M) (head : Z)
| PTail (m : M) (head : Z)
| PWritten (m : M) (head : Z).
Arguments PIdle {M}. Arguments PHead {M}. Arguments PTail {M}. Arguments PWritten {M}.

Inductive consumer_pc (M : Type) :=
| CIdle
| CHead (head : Z)
| CTail (tail : Z)
| CCopied (m : M) (tail : Z).
Arguments CIdle {M}. Arguments CHead {M}. Arguments CTail {M}. Arguments CCopied {M}.

Set Implicit Arguments.

Record ring_state (M : Type) := mkRing {
  rs_head : Z;
  rs_tail : Z;
  rs_messages : list M;
  rs_producers : list (producer_pc M);
  rs_consumers : list (consumer_pc M);
  rs_sent : list M;
  rs_received : list M
}.

Unset Implicit Arguments.

Section Steps.
Context {M : Type} (capacity : Z).

Definition ring_next (i : Z) : Z := wrap32 (i + 1) mod capacity.

Inductive ring_step : ring_state M -> ring_state M -> Prop :=
| producer_load_head h t b ps cs s r i m :
    ps !! i = Some PIdle ->
    ring_step (mkRing h t b ps cs s r) (mkRing h t b (<[i := PHead m h]> ps) cs s r)
| producer_full h t b ps cs s r i m head :
    ps !! i = Some (PHead m head) -> ring_next head = t ->
    ring_step (mkRing h t b ps cs s r) (mkRing h t b (<[i := PIdle]> ps) cs s r)
| producer_load_tail h t b ps cs s r i m head :
    ps !! i = Some (PHead m head) -> ring_next head <> t ->
    ring_step (mkRing h t b ps cs s r) (mkRing h t b (<[i := PTail m head]> ps) cs s r)
| producer_copy h t b ps cs s r i m head :
    ps !! i = Some (PTail m head) ->
    ring_step (mkRing h t b ps cs s r)
      (mkRing h t (<[Z.to_nat head := m]> b) (<[i := PWritten m head]> ps) cs s r)
| producer_publish h t b ps cs s r i m head :
    ps !! i = Some (PWritten m head) ->
    ring_step (mkRing h t b ps cs s r) (mkRing (ring_next head) t b (<[i := PIdle]> ps) cs (s ++ [m]) r)
| consumer_load_head h t b ps cs s r i :
    cs !! i = Some CIdle ->
    ring_step (mkRing h t b ps cs s r) (mkRing h t b ps (<[i := CHead h]> cs) s r)
| consumer_empty h t b ps cs s r i head :
    cs !! i = Some (CHead head) -> head = t ->
    ring_step (mkRing h t b ps cs s r) (mkRing h t b ps (<[i := CIdle]> cs) s r)
| consumer_load_tail h t b ps cs s r i head :
    cs !! i = Some (CHead head) -> head <> t ->
    ring_step (mkRing h t b ps cs s r) (mkRing h t b ps (<[i := CTail t]> cs) s r)
| consumer_copy h t b ps cs s r i tail m :
    cs !! i = Some (CTail tail) -> b !! Z.to_nat tail = Some m ->
    ring_step (mkRing h t b ps cs s r) (mkRing h t b ps (<[i := CCopied m tail]> cs) s r)
| consumer_publish h t b ps cs s r i m tail :
    cs !! i = Some (CCopied m tail) ->
    ring_step (mkRing h t b ps cs s r) (mkRing h (ring_next tail) b ps (<[i := CIdle]> cs) s (r ++ [m])).

(** An empty ring with the given number of producer and consumer threads. *)
Definition ring_init (b : list M) (producers consumers : nat) : ring_state M :=
  mkRing 0 0 b (replicate producers PIdle) (replicate consumers CIdle) [] [].

(** ** Specification: a FIFO queue of at most [capacity - 1] messages *)

(** The number of messages between [tail] and [head]. *)
Definition occupancy (head tail : Z) : Z := (head - tail) mod capacity.

Definition ring_slot (tail i : Z) : nat := Z.to_nat ((tail + i) mod capacity).

(** The messages from [tail] on, in order. *)
Definition ring_contents (b : list M) (head tail : Z) : list (option M) :=
  (fun i => b !! ring_slot tail i) <$> seqZ 0 (occupancy head tail).

Definition ring_ok (b : list M) (head tail : Z) : Prop :=
  2 <= capacity < 2 ^ 32 /\ Z.of_nat (length b) = capacity /\
  0 <= head < capacity /\ 0 <= tail < capacity.
End Steps.

Definition queue_ok {M} (q : dist_node_queue M) : Prop :=
  ring_ok (q_capacity q) (q_messages q) (q_head q) (q_tail q).

(** The abstract queue that [q] represents. *)
Definition queue_contents {M} (q : dist_node_queue M) : list (option M) :=
  ring_contents (q_capacity q) (q_messages q) (q_head q) (q_tail q).

(** ** Lemmas on the ring *)
Section RingLemmas.
Context {M : Type} (capacity : Z).
Implicit Types b : list M.

Lemma ring_next_cases (i : Z) : 0 <= i < capacity -> capacity < 2 ^ 32 ->
  ring_next capacity i = if decide (i + 1 = capacity) then 0 else i + 1.
Proof.
  intros Hi Hc. unfold ring_next. rewrite wrap32_small by lia. case_decide as E.
  - rewrite E. apply Z.mod_same. lia.
  - apply Z.mod_small. lia.
Qed.

Lemma occupancy_cases (h t : Z) : 0 <= h < capacity -> 0 <= t < capacity ->
  occupancy capacity h t = if decide (t <= h) then h - t else h - t + capacity.
Proof.
  intros Hh Ht. unfold occupancy. case_decide as E.
  - apply Z.mod_small. lia.
  - symmetry. apply (Z.mod_unique _ _ (-1)); lia.
Qed.

Lemma ring_next_range (i : Z) : 0 < capacity -> 0 <= ring_next capacity i < capacity.
Proof. intros Hc. apply Z.mod_pos_bound. lia. Qed.

Lemma occupancy_range (h t : Z) : 0 < capacity -> 0 <= occupancy capacity h t < capacity.
Proof. intros Hc. apply Z.mod_pos_bound. lia. Qed.

(** Empty, full, and the effect of moving either index. *)
Lemma occupancy_zero (h t : Z) :
  0 <= h < capacity -> 0 <= t < capacity -> occupancy capacity h t = 0 <-> h = t.
Proof. intros Hh Ht. rewrite occupancy_cases by lia. case_decide; lia. Qed.

Lemma occupancy_full (h t : Z) :
  2 <= capacity < 2 ^ 32 -> 0 <= h < capacity -> 0 <= t < capacity ->
  ring_next capacity h = t <-> occupancy capacity h t = capacity - 1.
Proof.
  intros Hc Hh Ht. rewrite ring_next_cases, occupancy_cases by lia. repeat case_decide; lia.
Qed.

Lemma occupancy_push (h t : Z) :
  2 <= capacity < 2 ^ 32 -> 0 <= h < capacity -> 0 <= t < capacity ->
  occupancy capacity h t < capacity - 1 ->
  occupancy capacity (ring_next capacity h) t = occupancy capacity h t + 1.
Proof.
  intros Hc Hh Ht. pose proof (ring_next_range h). rewrite !occupancy_cases by lia.
  rewrite ring_next_cases by lia. repeat case_decide; lia.
Qed.

Lemma occupancy_pop (h t : Z) :
  2 <= capacity < 2 ^ 32 -> 0 <= h < capacity -> 0 <= t < capacity ->
  0 < occupancy capacity h t ->
  occupancy capacity h (ring_next capacity t) = occupancy capacity h t - 1.
Proof.
  intros Hc Hh Ht. pose proof (ring_next_range t). rewrite !occupancy_cases by lia.
  rewrite ring_next_cases by lia. repeat case_decide; lia.
Qed.

(** The slot after the last message is [head]; the slots of the messages are others. *)
Lemma ring_slot_head (h t : Z) : 0 <= h < capacity -> 0 <= t < capacity ->
  ring_slot capacity t (occupancy capacity h t) = Z.to_nat h.
Proof.
  intros Hh Ht. unfold ring_slot. f_equal. rewrite occupancy_cases by lia. case_decide.
  - replace (t + (h - t)) with h by lia. apply Z.mod_small. lia.
  - replace (t + (h - t + capacity)) with (h + 1 * capacity) by lia.
    rewrite Z.mod_add by lia. apply Z.mod_small. lia.
Qed.

Lemma ring_slot_inj (t i j : Z) : 0 <= t < capacity -> 0 <= i < capacity -> 0 <= j < capacity ->
  ring_slot capacity t i = ring_slot capacity t j -> i = j.
Proof.
  intros Ht Hi Hj. unfold ring_slot. intros E.
  pose proof (Z.mod_pos_bound (t + i) capacity). pose proof (Z.mod_pos_bound (t + j) capacity).
  assert (E' : (t + i) mod capacity = (t + j) mod capacity) by lia. clear E.
  assert (C : forall k, 0 <= k < capacity -> (t + k) mod capacity = if decide (t + k < capacity) then t + k else t + k - capacity).
  { intros k Hk. case_decide; [apply Z.mod_small; lia|]. symmetry. apply (Z.mod_unique _ _ 1); lia. }
  rewrite !C in E' by lia. repeat case_decide; lia.
Qed.

Lemma ring_contents_push (b : list M) (h t : Z) (m : M) :
  ring_ok capacity b h t -> occupancy capacity h t < capacity - 1 ->
  ring_contents capacity (<[Z.to_nat h := m]> b) (ring_next capacity h) t =
  ring_contents capacity b h t ++ [Some m].
Proof.
  intros (Hc & Hb & Hh & Ht) Ho. unfold ring_contents. rewrite occupancy_push by lia.
  pose proof (occupancy_range h t ltac:(lia)) as O.
  rewrite seqZ_app, fmap_app by lia. f_equal.
  - apply list_fmap_ext. intros i x Hx. apply lookup_seqZ in Hx as [-> Hi].
    apply list_lookup_insert_ne. intros E. rewrite <- (ring_slot_head h t) in E by lia.
    apply ring_slot_inj in E; lia.
  - change (seqZ (0 + occupancy capacity h t) 1) with [0 + occupancy capacity h t].
    rewrite list_fmap_singleton, Z.add_0_l, ring_slot_head by lia.
    f_equal. apply list_lookup_insert_eq. lia.
Qed.

Lemma ring_contents_overwrite (b : list M) (h t : Z) (m : M) :
  ring_ok capacity b h t ->
  ring_contents capacity (<[Z.to_nat h := m]> b) h t = ring_contents capacity b h t.
Proof.
  intros (Hc & Hb & Hh & Ht). unfold ring_contents. apply list_fmap_ext. intros i x Hx.
  apply lookup_seqZ in Hx as [-> Hi]. apply list_lookup_insert_ne. intros E.
  pose proof (occupancy_range h t ltac:(lia)).
  rewrite <- (ring_slot_head h t) in E by lia. apply ring_slot_inj in E; lia.
Qed.

Lemma ring_contents_pop (b : list M) (h t : Z) :
  ring_ok capacity b h t -> 0 < occupancy capacity h t ->
  ring_contents capacity b h t = b !! Z.to_nat t :: ring_contents capacity b h (ring_next capacity t).
Proof.
  intros (Hc & Hb & Hh & Ht) Ho. unfold ring_contents. rewrite occupancy_pop by lia.
  replace (occupancy capacity h t) with (1 + (occupancy capacity h t - 1)) at 1 by lia.
  rewrite seqZ_app, fmap_app by lia. change (seqZ 0 1) with [0]. rewrite list_fmap_singleton.
  cbn [app]. f_equal.
  - unfold ring_slot. rewrite Z.add_0_r, Z.mod_small by lia. done.
  - change (0 + 1) with (1 + 0). rewrite <- (fmap_add_seqZ 1 0 (occupancy capacity h t - 1)).
    rewrite <- list_fmap_compose. apply list_fmap_ext. intros i x Hx.
    apply lookup_seqZ in Hx as [-> Hi]. unfold compose. f_equal. unfold ring_slot. f_equal.
    rewrite ring_next_cases by lia. case_decide as E; [|f_equal; lia].
    replace (t + (1 + (0 + Z.of_nat i))) with (0 + (0 + Z.of_nat i) + 1 * capacity) by lia.
    apply Z.mod_add. lia.
Qed.

Lemma ring_contents_nil (b : list M) (h : Z) : 0 <= h < capacity -> ring_contents capacity b h h = [].
Proof.
  intros Hh. unfold ring_contents. rewrite (proj2 (occupancy_zero h h Hh Hh) eq_refl). done.
Qed.

Lemma ring_contents_length (b : list M) (h t : Z) : 0 < capacity ->
  Z.of_nat (length (ring_contents capacity b h t)) = occupancy capacity h t.
Proof.
  intros Hc. unfold ring_contents. rewrite length_fmap, length_seqZ.
  pose proof (occupancy_range h t Hc). lia.
Qed.
End RingLemmas.

(** ** The queue represents a list *)
Definition represents {M} (q : dist_node_queue M) (l : list M) : Prop :=
  queue_ok q /\ queue_contents q = Some <$> l.

Lemma represents_length {M} (q : dist_node_queue M) (l : list M) :
  represents q l -> occupancy (q_capacity q) (q_head q) (q_tail q) = Z.of_nat (length l).
Proof.
  intros [(Hc & _) E]. rewrite <- (ring_contents_length (q_capacity q) (q_messages q)) by lia.
  unfold queue_contents in E. rewrite E. by rewrite length_fmap.
Qed.

(** ** The interleaved ring with one producer and one consumer *)
Section Spsc.
Context {M : Type} (capacity : Z).

Definition producer_ok (b : list M) (h t : Z) (p : producer_pc M) : Prop :=
  match p with
  | PIdle => True
  | PHead _ head => head = h
  | PTail _ head => head = h /\ occupancy capacity h t < capacity - 1
  | PWritten m head => head = h /\ occupancy capacity h t < capacity - 1 /\ b !! Z.to_nat h = Some m
  end.

Definition consumer_ok (b : list M) (h t : Z) (c : consumer_pc M) : Prop :=
  match c with
  | CIdle => True
  | CHead head => 0 <= head < capacity /\ occupancy capacity head t <= occupancy capacity h t
  | CTail tail => tail = t /\ 0 < occupancy capacity h t
  | CCopied m tail => tail = t /\ 0 < occupancy capacity h t /\ b !! Z.to_nat t = Some m
  end.

Definition spsc_inv (s : ring_state M) : Prop :=
  exists p c, rs_producers s = [p] /\ rs_consumers s = [c] /\
    ring_ok capacity (rs_messages s) (rs_head s) (rs_tail s) /\
    Some <$> rs_sent s = (Some <$> rs_received s) ++ ring_contents capacity (rs_messages s) (rs_head s) (rs_tail s) /\
    producer_ok (rs_messages s) (rs_head s) (rs_tail s) p /\
    consumer_ok (rs_messages s) (rs_head s) (rs_tail s) c.

Lemma lookup_single {A} (x y : A) (i : nat) : [x] !! i = Some y -> i = 0%nat /\ x = y.
Proof. destruct i as [|i]; cbn; [|done]. intros [= ->]. done. Qed.

(** The producer's copy touches neither the contents nor the message being read. *)
Lemma spsc_copy (b : list M) (h t : Z) (m : M) (c : consumer_pc M) :
  ring_ok capacity b h t -> consumer_ok b h t c -> consumer_ok (<[Z.to_nat h := m]> b) h t c.
Proof.
  intros (Hc & Hb & Hh & Ht). destruct c as [|head|tail|x tail]; cbn; try done.
  intros (-> & Ho & Hx). split; [done|]. split; [done|].
  rewrite list_lookup_insert_ne; [done|]. intros E. assert (h = t) as -> by lia.
  rewrite (proj2 (occupancy_zero capacity t t Ht Ht) eq_refl) in Ho. lia.
Qed.

(** Publishing a message appends it to the contents. *)
Lemma spsc_publish (b : list M) (h t : Z) (m : M) :
  ring_ok capacity b h t -> occupancy capacity h t < capacity - 1 -> b !! Z.to_nat h = Some m ->
  ring_contents capacity b (ring_next capacity h) t = ring_contents capacity b h t ++ [Some m].
Proof.
  intros Hok Ho Hb. rewrite <- (ring_contents_push capacity b h t m Hok Ho). by rewrite list_insert_id.
Qed.

Lemma ring_ok_next_head (b : list M) (h t : Z) :
  ring_ok capacity b h t -> ring_ok capacity b (ring_next capacity h) t.
Proof. intros (Hc & Hb & Hh & Ht). pose proof (ring_next_range capacity h). repeat split; try done; lia. Qed.

Lemma ring_ok_next_tail (b : list M) (h t : Z) :
  ring_ok capacity b h t -> ring_ok capacity b h (ring_next capacity t).
Proof. intros (Hc & Hb & Hh & Ht). pose proof (ring_next_range capacity t). repeat split; try done; lia. Qed.

Lemma spsc_step (s s' : ring_state M) : spsc_inv s -> ring_step capacity s s' -> spsc_inv s'.
Proof.
  intros (p & c & Hp & Hc & Hok & Hfifo & Hpr & Hco) Hstep.
  pose proof Hok as (Kc & Kb & Kh & Kt).
  destruct Hstep as [h t b ps cs s r i m Hi|h t b ps cs s r i m head Hi Hf|h t b ps cs s r i m head Hi Hf
    |h t b ps cs s r i m head Hi|h t b ps cs s r i m head Hi|h t b ps cs s r i Hi|h t b ps cs s r i head Hi He
    |h t b ps cs s r i head Hi He|h t b ps cs s r i tail m Hi Hm|h t b ps cs s r i m tail Hi];
    cbn [rs_producers rs_consumers rs_messages rs_head rs_tail rs_sent rs_received] in *; subst ps cs;
    apply lookup_single in Hi as [-> ->]; cbn [producer_ok consumer_ok] in Hpr, Hco.
  - exists (PHead m h), c. done.
  - exists PIdle, c. done.
  - subst head. exists (PTail m h), c. cbn. repeat (split; [done|]). split; [|done]. split; [done|].
    pose proof (occupancy_range capacity h t ltac:(lia)).
    pose proof (occupancy_full capacity h t Kc Kh Kt). lia.
  - destruct Hpr as [-> Ho]. exists (PWritten m h), c. cbn. split; [done|]. split; [done|].
    split; [repeat split; try done; try lia; by rewrite length_insert|].
    split; [by rewrite ring_contents_overwrite|].
    split; [|by apply spsc_copy]. split; [done|]. split; [done|]. apply list_lookup_insert_eq. lia.
  - destruct Hpr as (-> & Ho & Hm). exists PIdle, c. cbn. split; [done|]. split; [done|].
    split; [by apply ring_ok_next_head|].
    split; [by rewrite (spsc_publish b h t m), fmap_app, Hfifo, app_assoc|]. split; [done|].
    pose proof (occupancy_push capacity h t Kc Kh Kt Ho) as Hn.
    destruct c as [|head|tail|x tail]; cbn in *; rewrite ?Hn; naive_solver lia.
  - exists p, (CHead h). cbn. repeat (split; [done|]). lia.
  - exists p, CIdle. done.
  - exists p, (CTail t). cbn. do 6 (split; [done|]).
    pose proof (occupancy_range capacity head t ltac:(lia)).
    pose proof (occupancy_zero capacity head t ltac:(lia) Kt). lia.
  - destruct Hco as [-> Ho]. exists p, (CCopied m t). done.
  - destruct Hco as (-> & Ho & Hm). exists p, CIdle. cbn. split; [done|]. split; [done|].
    split; [by apply ring_ok_next_tail|].
    pose proof (occupancy_pop capacity h t Kc Kh Kt Ho) as Hn.
    split; [|split; [|done]].
    + rewrite Hfifo, (ring_contents_pop capacity b h t Hok Ho), Hm, fmap_app, <- app_assoc. done.
    + destruct p as [|x hd|x hd|x hd]; cbn in *; rewrite ?Hn; naive_solver lia.
Qed.
End Spsc.

Lemma spsc_init {M} (capacity : Z) (b : list M) :
  2 <= capacity < 2 ^ 32 -> Z.of_nat (length b) = capacity -> spsc_inv capacity (ring_init b 1 1).
Proof.
  intros Hc Hb. exists PIdle, CIdle. cbn. split; [done|]. split; [done|].
  split; [repeat split; try done; lia|]. split; [|done]. rewrite ring_contents_nil by lia. done.
Qed.

Lemma spsc_reachable {M} (capacity : Z) (s s' : ring_state M) :
  rtc (ring_step capacity) s s' -> spsc_inv capacity s -> spsc_inv capacity s'.
Proof. induction 1; eauto using spsc_step. Qed.

(** ** The operations on the represented list *)
Lemma queue_enqueue_spec {M} (q : dist_node_queue M) (l : list M) (m : M) : represents q l ->
  exists ok q', queue_enqueue m q = Some (ok, q') /\ q_capacity q' = q_capacity q /\
    if decide (Z.of_nat (length l) < q_capacity q - 1)
    then ok = true /\ represents q' (l ++ [m])
    else ok = false /\ represents q' l /\ q_total_dropped q' = q_total_dropped q ⊞ 1.
Proof.
  intros Hq. pose proof (represents_length q l Hq) as Hlen. destruct Hq as [Hok Hl].
  pose proof Hok as (Hc & Hb & Hh & Ht).
  unfold queue_enqueue. rewrite (proj2 (Z.eqb_neq _ _)) by lia.
  pose proof (occupancy_full (q_capacity q) (q_head q) (q_tail q) Hc Hh Ht) as F. unfold ring_next in F.
  destruct (_ mod _ =? q_tail q) eqn:E; zify_bool.
  - eexists _, _. do 2 (split; [done|]). rewrite decide_False by lia. split; [done|]. split; [|done]. done.
  - rewrite decide_True by lia. eexists _, _. do 2 (split; [done|]).
    pose proof (occupancy_range (q_capacity q) (q_head q) (q_tail q) ltac:(lia)).
    rewrite decide_True by lia. split; [done|]. split.
    + unfold queue_ok. cbn. apply (ring_ok_next_head (q_capacity q)). repeat split; try done; try lia.
      by rewrite length_insert.
    + unfold queue_contents. cbn. rewrite fmap_app. cbn. unfold queue_contents in Hl. rewrite <- Hl.
      apply (ring_contents_push (q_capacity q)); [done|lia].
Qed.

Lemma queue_dequeue_spec {M} (q : dist_node_queue M) (l : list M) : represents q l ->
  exists r q', queue_dequeue q = Some (r, q') /\ q_capacity q' = q_capacity q /\
    match l with
    | [] => r = None /\ q' = q
    | x :: l' => r = Some x /\ represents q' l'
    end.
Proof.
  intros Hq. pose proof (represents_length q l Hq) as Hlen. destruct Hq as [Hok Hl].
  pose proof Hok as (Hc & Hb & Hh & Ht). unfold queue_dequeue.
  pose proof (occupancy_zero (q_capacity q) (q_head q) (q_tail q) Hh Ht) as Z0.
  destruct (q_head q =? q_tail q) eqn:E; zify_bool.
  - eexists _, _. do 2 (split; [done|]). destruct l; [done|]. cbn in Hlen. lia.
  - assert (Ho : 0 < occupancy (q_capacity q) (q_head q) (q_tail q)).
    { pose proof (occupancy_range (q_capacity q) (q_head q) (q_tail q) ltac:(lia)). lia. }
    unfold queue_contents in Hl. rewrite (ring_contents_pop _ _ _ _ Hok Ho) in Hl.
    destruct l as [|x l']; [done|]. cbn in Hl. injection Hl as Hx Hl. rewrite Hx. cbn.
    rewrite (proj2 (Z.eqb_neq _ _)) by lia. eexists _, _. do 3 (split; [done|]).
    split; [by apply (ring_ok_next_tail (q_capacity q))|exact Hl].
Qed.

(** An empty queue whose slots are all there. *)
Lemma queue_reset_represents {M} (messages : list M) :
  Z.of_nat (length messages) = DIST_MSG_QUEUE_SIZE -> represents (queue_reset messages) [].
Proof.
  intros H. assert (Hok : queue_ok (queue_reset messages)) by (unfold queue_ok, ring_ok; cbn; unfold DIST_MSG_QUEUE_SIZE in *; lia).
  split; [done|]. apply ring_contents_nil. cbn. unfold DIST_MSG_QUEUE_SIZE. lia.
Qed.

(** ** Theorems *)

(** The queue operations implement a bounded FIFO queue: enqueueing appends the message
    unless [capacity - 1] messages are waiting, in which case it is refused and counted as
    dropped; dequeueing returns the oldest message and removes it, or reports an empty
    queue; neither leaves the message array. *)
Theorem queue_fifo_refinement {M} (q : dist_node_queue M) (l : list M) (m : M) (Hq : represents q l) :
  (exists ok q', queue_enqueue m q = Some (ok, q') /\
     if decide (Z.of_nat (length l) < q_capacity q - 1)
     then ok = true /\ represents q' (l ++ [m])
     else ok = false /\ represents q' l /\ q_total_dropped q' = q_total_dropped q ⊞ 1) /\
  (exists r q', queue_dequeue q = Some (r, q') /\
     match l with
     | [] => r = None /\ q' = q
     | x :: l' => r = Some x /\ represents q' l'
     end).
Proof.
  destruct (queue_enqueue_spec q l m Hq) as (ok & q1 & E1 & _ & S1).
  destruct (queue_dequeue_spec q l Hq) as (r & q2 & E2 & _ & S2). eauto 10.
Qed.

Lemma queue_fifo_refinement_witness :
  exists r q', queue_dequeue (mkQueue 1 3 2 4 0 0 0 [20; 30; 40; 10]) = Some (r, q') /\
    r = Some 10 /\ represents q' [20].
Proof.
  destruct (queue_fifo_refinement (mkQueue 1 3 2 4 0 0 0 [20; 30; 40; 10]) [10; 20] 50) as [_ H].
  - split; [|reflexivity]. unfold queue_ok, ring_ok. cbn. lia.
  - exact H.
Defined.

(** C9. One producer and one consumer need no lock: under every interleaving of the memory
    accesses of one enqueuing and one dequeuing thread, the messages received are those
    sent, in order, without loss or duplication; the rest, fewer than [capacity], are
    exactly what the ring holds. *)
Theorem queue_spsc_fifo {M} (capacity : Z) (b : list M) (s : ring_state M)
  (Hc : 2 <= capacity < 2 ^ 32) (Hb : Z.of_nat (length b) = capacity)
  (Hr : rtc (ring_step capacity) (ring_init b 1 1) s) :
  exists waiting, rs_sent s = rs_received s ++ waiting /\ Z.of_nat (length waiting) <= capacity - 1 /\
    ring_contents capacity (rs_messages s) (rs_head s) (rs_tail s) = Some <$> waiting.
Proof.
  destruct (spsc_reachable _ _ _ Hr (spsc_init capacity b Hc Hb)) as (p & c & _ & _ & _ & Hf & _).
  apply fmap_app_inv in Hf as (l1 & l2 & E1 & E2 & E3).
  apply (list_fmap_eq_inj Some) in E1; [|by intros x y [= ->]]. subst l1.
  exists l2. split; [done|]. split; [|done].
  pose proof (ring_contents_length capacity (rs_messages s) (rs_head s) (rs_tail s) ltac:(lia)) as L.
  rewrite E2, length_fmap in L. pose proof (occupancy_range capacity (rs_head s) (rs_tail s)). lia.
Qed.

Lemma queue_spsc_fifo_witness :
  exists s, rtc (ring_step 4) (ring_init [0; 0; 0; 0] 1 1) s /\ rs_received s = [] /\
    exists waiting, rs_sent s = rs_received s ++ waiting /\
      ring_contents 4 (rs_messages s) (rs_head s) (rs_tail s) = Some <$> waiting.
Proof.
  set (s := mkRing 1 0 [7; 0; 0; 0] [PIdle] [CHead 0] [7] []).
  assert (R : rtc (ring_step 4) (ring_init [0; 0; 0; 0] 1 1) s).
  { eapply rtc_l; [apply (consumer_load_head 4 0 0 [0; 0; 0; 0] [PIdle] [CIdle] [] [] 0); reflexivity|].
    eapply rtc_l; [apply (producer_load_head 4 0 0 [0; 0; 0; 0] [PIdle] [CHead 0] [] [] 0 7); reflexivity|].
    eapply rtc_l; [apply (producer_load_tail 4 0 0 [0; 0; 0; 0] [PHead 7 0] [CHead 0] [] [] 0 7 0);
                   [reflexivity|discriminate]|].
    eapply rtc_l; [apply (producer_copy 4 0 0 [0; 0; 0; 0] [PTail 7 0] [CHead 0] [] [] 0 7 0); reflexivity|].
    apply rtc_once. apply (producer_publish 4 0 0 [7; 0; 0; 0] [PWritten 7 0] [CHead 0] [] [] 0 7 0). reflexivity. }
  exists s. split; [exact R|]. split; [reflexivity|].
  destruct (queue_spsc_fifo 4 [0; 0; 0; 0] s) as (w & H1 & _ & H2); [lia|reflexivity|exact R|].
  exists w. split; assumption.
Defined.

(** Two workers may deliver one message twice: [start_processing] runs two threads that
    poll the same queues; with two consumers there is an interleaving in which one message
    was sent and it is received by both. *)
Theorem queue_two_workers_duplicate :
  exists s, rtc (ring_step 4) (ring_init [0; 0; 0; 0] 1 2) s /\ rs_sent s = [7] /\ rs_received s = [7; 7].
Proof.
  exists (mkRing 1 1 [7; 0; 0; 0] [PIdle] [CIdle; CIdle] [7] [7; 7]). split; [|done].
  eapply rtc_l; [apply (producer_load_head 4 0 0 [0; 0; 0; 0] [PIdle] [CIdle; CIdle] [] [] 0 7); reflexivity|].
  eapply rtc_l; [apply (producer_load_tail 4 0 0 [0; 0; 0; 0] [PHead 7 0] [CIdle; CIdle] [] [] 0 7 0);
                 [reflexivity|discriminate]|].
  eapply rtc_l; [apply (producer_copy 4 0 0 [0; 0; 0; 0] [PTail 7 0] [CIdle; CIdle] [] [] 0 7 0); reflexivity|].
  eapply rtc_l; [apply (producer_publish 4 0 0 [7; 0; 0; 0] [PWritten 7 0] [CIdle; CIdle] [] [] 0 7 0); reflexivity|].
  set (b := [7; 0; 0; 0]). cbn [list_insert insert list.list_insert].
  eapply rtc_l; [apply (consumer_load_head 4 1 0 b [PIdle] [CIdle; CIdle] [7] [] 0); reflexivity|].
  eapply rtc_l; [apply (consumer_load_tail 4 1 0 b [PIdle] [CHead 1; CIdle] [7] [] 0 1); [reflexivity|discriminate]|].
  eapply rtc_l; [apply (consumer_load_head 4 1 0 b [PIdle] [CTail 0; CIdle] [7] [] 1); reflexivity|].
  eapply rtc_l; [apply (consumer_load_tail 4 1 0 b [PIdle] [CTail 0; CHead 1] [7] [] 1 1); [reflexivity|discriminate]|].
  eapply rtc_l; [apply (consumer_copy 4 1 0 b [PIdle] [CTail 0; CTail 0] [7] [] 0 0 7); reflexivity|].
  eapply rtc_l; [apply (consumer_copy 4 1 0 b [PIdle] [CCopied 7 0; CTail 0] [7] [] 1 0 7); reflexivity|].
  eapply rtc_l; [apply (consumer_publish 4 1 0 b [PIdle] [CCopied 7 0; CCopied 7 0] [7] [] 0 7 0); reflexivity|].
  apply rtc_once. apply (consumer_publish 4 1 1 b [PIdle] [CIdle; CCopied 7 0] [7] [7] 1 7 0). reflexivity.
Qed.
