(* ===== verification/MessageManager.v ===== *)
(** * The message manager of a node ([DistributedMessageManager] in
    [include/distributed_server.h], [src/distributed_server.cpp])

    All nodes map one shared memory object: the status of each node and a ring buffer per
    ordered pair of nodes ([DistShm]).  Each node has a manager with its pending requests
    and the message handlers of its server ([MsgManager], handlers are an argument).  The
    clock is an argument where the code reads it.  [None] is an access outside the arrays
    of the shared object. *)
From S2P Require Import Prelude MessageQueue.

Definition DIST_MAX_NODES : Z := 16.

(** ** Messages *)

(** [dist_msg_type_t], the values in use. *)
Definition DIST_MSG_NONE : Z := 0.

Definition DIST_MSG_NODE_REGISTER : Z := 1.

Definition DIST_MSG_NODE_DEREGISTER : Z := 2.

Definition DIST_MSG_NODE_HEARTBEAT : Z := 3.

Definition DIST_MSG_NODE_ACK : Z := 4.

Definition DIST_MSG_READ_REQ : Z := 10.

Definition DIST_MSG_READ_RESP : Z := 11.

Definition DIST_MSG_WRITE_REQ : Z := 12.

Definition DIST_MSG_WRITE_RESP : Z := 13.

Definition DIST_MSG_ATOMIC_FAA_REQ : Z := 20.

Definition DIST_MSG_ATOMIC_FAA_RESP : Z := 21.

Definition DIST_MSG_ATOMIC_CAS_REQ : Z := 22.

Definition DIST_MSG_ATOMIC_CAS_RESP : Z := 23.

Definition DIST_MSG_FENCE_REQ : Z := 24.

Definition DIST_MSG_INVALIDATE : Z := 30.

Definition DIST_MSG_INVALIDATE_ACK : Z := 31.

Definition DIST_MSG_DOWNGRADE : Z := 32.

Definition DIST_MSG_DOWNGRADE_ACK : Z := 33.

Definition DIST_MSG_DIR_QUERY : Z := 41.

Definition DIST_MSG_DIR_RESPONSE : Z := 42.

Definition DIST_MSG_LSA_READ_REQ : Z := 60.

Definition DIST_MSG_LSA_READ_RESP : Z := 61.

Definition DIST_MSG_LSA_WRITE_REQ : Z := 62.

Definition DIST_MSG_LSA_WRITE_RESP : Z := 63.

Record dist_msg_header := mkMsgHeader {
  mh_msg_type : Z;
  mh_msg_id : Z;
  mh_src_node_id : Z;
  mh_dst_node_id : Z;
  mh_timestamp : Z
}.

(** The fields of [dist_mem_payload_t] that the server reads or writes. *)
Record dist_mem_payload := mkMemPayload {
  mp_addr : Z;
  mp_size : Z;
  mp_value : Z;
  mp_expected : Z;
  mp_latency_ns : Z;
  mp_client_id : Z;
  mp_status : Z;
  mp_data : list Z
}.

Record dist_node_payload := mkNodePayload {
  np_node_id : Z;
  np_node_state : Z;
  np_memory_base : Z;
  np_memory_size : Z
}.

Record dist_coherency_payload := mkCoherencyPayload { cp_cacheline_addr : Z }.

(** The union: the member that was last written, or the zeroed message. *)
Inductive dist_payload :=
| PayZero
| PayMem (p : dist_mem_payload)
| PayNode (p : dist_node_payload)
| PayCoherency (p : dist_coherency_payload).

Record dist_message := mkMessage { dm_header : dist_msg_header; dm_payload : dist_payload }.

(** Reading a member of a zeroed union gives zeros. *)
Definition zero_mem : dist_mem_payload := mkMemPayload 0 0 0 0 0 0 0 (replicate 64 0).

Definition payload_mem (m : dist_message) : dist_mem_payload :=
  match dm_payload m with PayMem p => p | _ => zero_mem end.

Definition payload_node (m : dist_message) : dist_node_payload :=
  match dm_payload m with PayNode p => p | _ => mkNodePayload 0 0 0 0 end.

Definition payload_coherency (m : dist_message) : dist_coherency_payload :=
  match dm_payload m with PayCoherency p => p | _ => mkCoherencyPayload 0 end.

Definition zero_message : dist_message := mkMessage (mkMsgHeader 0 0 0 0 0) PayZero.

(** ** The shared object *)
Definition NODE_STATE_UNKNOWN : Z := 0.

Definition NODE_STATE_READY : Z := 2.

Definition NODE_STATE_BUSY : Z := 3.

Definition NODE_STATE_OFFLINE : Z := 5.

Record dist_node_status := mkNodeStatus {
  ns_node_id : Z;
  ns_state : Z;
  ns_last_heartbeat : Z;
  ns_memory_base : Z;
  ns_memory_size : Z;
  ns_active_connections : Z
}.

Record DistShm := mkDistShm {
  ds_num_nodes : Z;
  ds_coordinator_node : Z;
  ds_nodes : list dist_node_status;
  ds_queues : list (dist_node_queue dist_message)
}.

Record MsgManager := mkMsgManager {
  mm_local_node_id : Z;
  mm_is_coordinator : bool;
  mm_next_msg_id : Z;
  mm_pending_requests : gmap Z (option dist_message)   (* the response once completed *)
}.

Definition manager_new (node_id : Z) : MsgManager := mkMsgManager node_id false 1 ∅.

Definition empty_status : dist_node_status := mkNodeStatus 0 0 0 0 0 0.

(** What [initialize] makes of the mapped object, whether it was just created or belonged to
    a running cluster. *)
Definition manager_initialize (m : MsgManager) : MsgManager * DistShm :=
  (mkMsgManager (mm_local_node_id m) true (mm_next_msg_id m) (mm_pending_requests m),
   mkDistShm 0 (mm_local_node_id m) (replicate (Z.to_nat DIST_MAX_NODES) empty_status)
     (replicate (Z.to_nat (DIST_MAX_NODES * DIST_MAX_NODES))
        (queue_reset (replicate (Z.to_nat DIST_MSG_QUEUE_SIZE) zero_message)))).

(** ** Node registry *)
Definition register_node (info_id info_base info_size now : Z) (s : DistShm) : bool * DistShm :=
  if DIST_MAX_NODES <=? info_id then (false, s)
  else
    (true, mkDistShm (wrap32 (ds_num_nodes s + 1)) (ds_coordinator_node s)
             (<[Z.to_nat info_id := mkNodeStatus info_id NODE_STATE_READY now info_base info_size 0]> (ds_nodes s))
             (ds_queues s)).

Definition deregister_node (node_id : Z) (s : DistShm) : bool * DistShm :=
  if DIST_MAX_NODES <=? node_id then (false, s)
  else
    (true, mkDistShm (wrap32 (ds_num_nodes s - 1)) (ds_coordinator_node s)
             (alter (fun n => mkNodeStatus (ns_node_id n) NODE_STATE_OFFLINE 0 (ns_memory_base n)
                                (ns_memory_size n) (ns_active_connections n))
                (Z.to_nat node_id) (ds_nodes s))
             (ds_queues s)).

Definition is_node_active (s : DistShm) (node_id : Z) : bool :=
  if DIST_MAX_NODES <=? node_id then false
  else
    match ds_nodes s !! Z.to_nat node_id with
    | Some n => (ns_state n =? NODE_STATE_READY) || (ns_state n =? NODE_STATE_BUSY)
    | None => false
    end.

Definition get_active_nodes (s : DistShm) : list Z :=
  filter (fun i => is_node_active s i = true) (seqZ 0 DIST_MAX_NODES).

(** ** Sending and receiving *)
Definition queue_index (src dst : Z) : nat := Z.to_nat (src * DIST_MAX_NODES + dst).

Definition set_queue (i : nat) (q : dist_node_queue dist_message) (s : DistShm) : DistShm :=
  mkDistShm (ds_num_nodes s) (ds_coordinator_node s) (ds_nodes s) (<[i := q]> (ds_queues s)).

Definition enqueue_message (local dst_node : Z) (msg : dist_message) (s : DistShm) : option (bool * DistShm) :=
  if DIST_MAX_NODES <=? dst_node then Some (false, s)
  else
    q ← ds_queues s !! queue_index local dst_node;
    '(ok, q') ← queue_enqueue msg q;
    Some (ok, set_queue (queue_index local dst_node) q' s).

Definition dequeue_message (local src_node : Z) (s : DistShm) : option (option dist_message * DistShm) :=
  if DIST_MAX_NODES <=? src_node then Some (None, s)
  else
    q ← ds_queues s !! queue_index src_node local;
    '(r, q') ← queue_dequeue q;
    Some (r, set_queue (queue_index src_node local) q' s).

Definition send_message (m : MsgManager) (dst_node : Z) (msg : dist_message) (s : DistShm) :
    option (bool * DistShm) :=
  enqueue_message (mm_local_node_id m) dst_node msg s.

Fixpoint broadcast_loop (m : MsgManager) (nodes : list Z) (msg : dist_message) (ok : bool) (s : DistShm) :
    option (bool * DistShm) :=
  match nodes with
  | [] => Some (ok, s)
  | n :: rest =>
      if n =? mm_local_node_id m then broadcast_loop m rest msg ok s
      else
        '(sent, s1) ← send_message m n msg s;
        broadcast_loop m rest msg (ok && sent) s1
  end.

Definition broadcast_message (m : MsgManager) (msg : dist_message) (s : DistShm) : option (bool * DistShm) :=
  broadcast_loop m (get_active_nodes s) msg true s.

Definition generate_msg_id (m : MsgManager) : Z * MsgManager :=
  (mm_next_msg_id m, mkMsgManager (mm_local_node_id m) (mm_is_coordinator m) (wrap32 (mm_next_msg_id m + 1))
                       (mm_pending_requests m)).

Definition set_pending (p : gmap Z (option dist_message)) (m : MsgManager) : MsgManager :=
  mkMsgManager (mm_local_node_id m) (mm_is_coordinator m) (mm_next_msg_id m) p.

(** [send_message_wait_response] up to the wait: the request is recorded, then sent. *)
Definition request_begin (m : MsgManager) (dst_node : Z) (req : dist_message) (s : DistShm) :
    option (bool * MsgManager * DistShm) :=
  let id := mh_msg_id (dm_header req) in
  let m1 := set_pending (<[id := None]> (mm_pending_requests m)) m in
  '(sent, s1) ← send_message m1 dst_node req s;
  if negb sent then Some (false, set_pending (delete id (mm_pending_requests m1)) m1, s1)
  else Some (true, m1, s1).

(** ... and after it: the response if it arrived in time, else a failure; either way the
    entry is removed. *)
Definition request_end (m : MsgManager) (req : dist_message) : option dist_message * MsgManager :=
  let id := mh_msg_id (dm_header req) in
  (mjoin (mm_pending_requests m !! id), set_pending (delete id (mm_pending_requests m)) m).

Section Handlers.
(** The server's state and its handler for each message type; a handler fills in a response
    that is sent unless its type stays [DIST_MSG_NONE]. *)
Context {S : Type} (handlers : Z -> option (dist_message -> dist_message -> S -> option (dist_message * S))).

Definition process_message (now : Z) (msg : dist_message) (m : MsgManager) (s : DistShm) (st : S) :
    option (MsgManager * DistShm * S) :=
  let hdr := dm_header msg in
  match mm_pending_requests m !! mh_msg_id hdr with
  | Some _ => Some (set_pending (<[mh_msg_id hdr := Some msg]> (mm_pending_requests m)) m, s, st)
  | None =>
      match handlers (mh_msg_type hdr) with
      | None => Some (m, s, st)
      | Some handler =>
          let response := mkMessage (mkMsgHeader 0 (mh_msg_id hdr) (mm_local_node_id m)
                                       (mh_src_node_id hdr) now) PayZero in
          '(resp, st1) ← handler msg response st;
          if negb (mh_msg_type (dm_header resp) =? DIST_MSG_NONE) then
            '(_, s1) ← send_message m (mh_src_node_id hdr) resp s;
            Some (m, s1, st1)
          else Some (m, s, st1)
      end
  end.

(** Drain one source while fewer than [max_messages] have been processed. *)
Fixpoint drain_source (budget : nat) (now src : Z) (m : MsgManager) (s : DistShm) (st : S) :
    option (nat * MsgManager * DistShm * S) :=
  match budget with
  | O => Some (O, m, s, st)
  | Datatypes.S budget' =>
      '(r, s1) ← dequeue_message (mm_local_node_id m) src s;
      match r with
      | None => Some (budget, m, s1, st)
      | Some msg =>
          '(m2, s2, st2) ← process_message now msg m s1 st;
          drain_source budget' now src m2 s2 st2
      end
  end.

Fixpoint poll_sources (srcs : list Z) (budget : nat) (now : Z) (m : MsgManager) (s : DistShm) (st : S) :
    option (nat * MsgManager * DistShm * S) :=
  match srcs with
  | [] => Some (budget, m, s, st)
  | src :: rest =>
      if (src =? mm_local_node_id m) || negb (is_node_active s src) || (budget =? 0)%nat
      then poll_sources rest budget now m s st
      else
        '(b, m1, s1, st1) ← drain_source budget now src m s st;
        poll_sources rest b now m1 s1 st1
  end.

(** The number of messages processed, and the new states. *)
Definition poll_messages (max_messages : nat) (now : Z) (m : MsgManager) (s : DistShm) (st : S) :
    option (nat * MsgManager * DistShm * S) :=
  '(b, m1, s1, st1) ← poll_sources (seqZ 0 DIST_MAX_NODES) max_messages now m s st;
  Some ((max_messages - b)%nat, m1, s1, st1).
End Handlers.

Definition send_heartbeat (now : Z) (m : MsgManager) (s : DistShm) : option (MsgManager * DistShm) :=
  status ← ds_nodes s !! Z.to_nat (mm_local_node_id m);
  let status' := mkNodeStatus (ns_node_id status) (ns_state status) now (ns_memory_base status)
                   (ns_memory_size status) (ns_active_connections status) in
  let s1 := mkDistShm (ds_num_nodes s) (ds_coordinator_node s)
              (<[Z.to_nat (mm_local_node_id m) := status']> (ds_nodes s)) (ds_queues s) in
  let '(id, m1) := generate_msg_id m in
  let hb := mkMessage (mkMsgHeader DIST_MSG_NODE_HEARTBEAT id (mm_local_node_id m) 0 now)
              (PayNode (mkNodePayload (mm_local_node_id m) (ns_state status) (ns_memory_base status)
                          (ns_memory_size status))) in
  '(_, s2) ← broadcast_message m1 hb s1;
  Some (m1, s2).

Record MessageStats := mkMessageStats { mst_sent : Z; mst_received : Z; mst_dropped : Z }.

Definition manager_get_stats (s : DistShm) : MessageStats :=
  foldl (fun acc q => mkMessageStats (mst_sent acc ⊞ q_total_sent q) (mst_received acc ⊞ q_total_received q)
                        (mst_dropped acc ⊞ q_total_dropped q))
    (mkMessageStats 0 0 0) (ds_queues s).

(** ** The wait for a response as interleaved threads

    The thread in [send_message_wait_response] and a worker in [process_message] with a
    message of the awaited id, one step per lock operation.  [pending_mutex_] protects the
    table, the request's own mutex its flag; [wait_for] holds the latter except while it
    sleeps, and it evaluates the flag again when the time is up. *)
Module Pending.

Inductive waiter_pc :=
| WStart           (* before [unique_lock lock(pending->mutex)] *)
| WHolding         (* holds the request's mutex, about to evaluate the flag *)
| WSleeping        (* in [wait_for], mutex released *)
| WTimedOut        (* woken by the clock with the flag unset: holds the mutex, wants the table *)
| WTimedOutBoth    (* holds both, about to erase *)
| WCleanup         (* success: released the mutex, wants the table *)
| WCleanupHeld     (* holds the table, about to erase *)
| WReturned (ok : bool).

Inductive worker_pc :=
| KStart           (* wants the table *)
| KTable           (* holds the table, about to look the id up *)
| KCopy            (* found: about to copy into the response *)
| KCopied          (* copied, wants the request's mutex *)
| KFlag            (* holds both, about to set the flag *)
| KNotify          (* released the mutex, notifies and releases the table *)
| KDone (delivered : bool).

Inductive thread := Waiter | Worker.

Record pending_state := mkPending {
  pw : waiter_pc;
  pk : worker_pc;
  p_table : option thread;      (* owner of [pending_mutex_] *)
  p_mutex : option thread;      (* owner of [pending->mutex] *)
  p_completed : bool;
  p_entry : bool                (* the id is in [pending_requests_] *)
}.

Definition pending_init : pending_state := mkPending WStart KStart None None false true.

Inductive pending_step : pending_state -> pending_state -> Prop :=
| wait_lock k t c e :
    pending_step (mkPending WStart k t None c e) (mkPending WHolding k t (Some Waiter) c e)
| wait_ready k t e :
    pending_step (mkPending WHolding k t (Some Waiter) true e) (mkPending WCleanup k t None true e)
| wait_sleep k t e :
    pending_step (mkPending WHolding k t (Some Waiter) false e) (mkPending WSleeping k t None false e)
| wait_notified k t c e :       (* also a spurious wake-up: the flag is evaluated again *)
    pending_step (mkPending WSleeping k t None c e) (mkPending WHolding k t (Some Waiter) c e)
| wait_timeout k t e :
    pending_step (mkPending WSleeping k t None false e) (mkPending WTimedOut k t (Some Waiter) false e)
| timeout_lock k m c e :
    pending_step (mkPending WTimedOut k None m c e) (mkPending WTimedOutBoth k (Some Waiter) m c e)
| timeout_erase k m c e :
    pending_step (mkPending WTimedOutBoth k (Some Waiter) m c e) (mkPending (WReturned false) k None None c false)
| cleanup_lock k m c e :
    pending_step (mkPending WCleanup k None m c e) (mkPending WCleanupHeld k (Some Waiter) m c e)
| cleanup_erase k m c e :
    pending_step (mkPending WCleanupHeld k (Some Waiter) m c e) (mkPending (WReturned true) k None m c false)
| worker_lock w m c e :
    pending_step (mkPending w KStart None m c e) (mkPending w KTable (Some Worker) m c e)
| worker_found w m c :
    pending_step (mkPending w KTable (Some Worker) m c true) (mkPending w KCopy (Some Worker) m c true)
| worker_missing w m c :
    pending_step (mkPending w KTable (Some Worker) m c false) (mkPending w (KDone false) None m c false)
| worker_copy w m c e :
    pending_step (mkPending w KCopy (Some Worker) m c e) (mkPending w KCopied (Some Worker) m c e)
| worker_mutex w c e :
    pending_step (mkPending w KCopied (Some Worker) None c e) (mkPending w KFlag (Some Worker) (Some Worker) c e)
| worker_flag w e c :
    pending_step (mkPending w KFlag (Some Worker) (Some Worker) c e) (mkPending w KNotify (Some Worker) None true e)
| worker_done w m c e :
    pending_step (mkPending w KNotify (Some Worker) m c e) (mkPending w (KDone true) None m c e).

Definition returned (s : pending_state) : bool := match pw s with WReturned _ => true | _ => false end.

Definition worker_finished (s : pending_state) : bool := match pk s with KDone _ => true | _ => false end.

(** Who holds which lock at which point, and what the flag and the entry say there. *)
Definition waiter_holds (w : waiter_pc) : bool * bool :=  (* table, mutex *)
  match w with
  | WHolding | WTimedOut => (false, true)
  | WTimedOutBoth => (true, true)
  | WCleanupHeld => (true, false)
  | _ => (false, false)
  end.

Definition worker_holds (k : worker_pc) : bool * bool :=
  match k with
  | KTable | KCopy | KCopied | KNotify => (true, false)
  | KFlag => (true, true)
  | _ => (false, false)
  end.

Definition owner (waiter worker : bool) : option thread :=
  if waiter then Some Waiter else if worker then Some Worker else None.

Definition pending_inv (s : pending_state) : Prop :=
  p_table s = owner (waiter_holds (pw s)).1 (worker_holds (pk s)).1 /\
  p_mutex s = owner (waiter_holds (pw s)).2 (worker_holds (pk s)).2 /\
  ((waiter_holds (pw s)).1 && (worker_holds (pk s)).1 = false) /\
  ((waiter_holds (pw s)).2 && (worker_holds (pk s)).2 = false) /\
  p_entry s = negb (returned s) /\
  p_completed s = match pk s with KNotify | KDone true => true | _ => false end /\
  match pw s with
  | WCleanup | WCleanupHeld | WReturned true => p_completed s = true
  | WTimedOut | WTimedOutBoth => p_completed s = false
  | _ => True
  end /\
  match pk s with
  | KCopy | KCopied | KFlag | KNotify => p_entry s = true
  | KDone false => p_entry s = false
  | _ => True
  end.

Lemma pending_init_inv : pending_inv pending_init.
Proof. repeat split. Qed.

Lemma pending_step_inv (s s' : pending_state) : pending_inv s -> pending_step s s' -> pending_inv s'.
Proof.
  intros Hi Hs. unfold pending_inv in *. destruct Hs; cbn in *; destruct_and?; subst;
    repeat match goal with
    | x : waiter_pc |- _ => destruct x as [| | | | | | |[]]; cbn in *; try discriminate
    | x : worker_pc |- _ => destruct x as [| | | | | |[]]; cbn in *; try discriminate
    end; repeat split; congruence.
Qed.

Lemma pending_reachable (s : pending_state) : rtc pending_step pending_init s -> pending_inv s.
Proof.
  intros H. assert (G : forall a, rtc pending_step a s -> pending_inv a -> pending_inv s).
  { clear H. intros a H. induction H as [|x y z Hxy _ IH]; [done|].
    intros Hx. apply IH. by apply (pending_step_inv x). }
  by apply (G pending_init), pending_init_inv.
Qed.

(** A response is written into the caller's buffer only while the caller is still inside
    [send_message_wait_response], and the call returns true only after the response was
    copied completely, in every interleaving of the waiting thread and the worker. *)
Theorem pending_response_safe (s : pending_state) (Hr : rtc pending_step pending_init s) :
  (pk s = KCopy -> returned s = false) /\
  (pw s = WReturned true -> pk s = KDone true) /\
  (pk s = KDone false -> pw s = WReturned false).
Proof.
  pose proof (pending_reachable s Hr) as Hi. unfold pending_inv in Hi.
  destruct s as [w k t m c e]; cbn in *. unfold returned in *. cbn in *.
  destruct w as [| | | | | | |[]], k as [| | | | | |[]]; cbn in *; destruct_and?; subst;
    repeat split; intros; congruence.
Qed.

Lemma pending_response_safe_witness :
  exists s, rtc pending_step pending_init s /\ pw s = WReturned true /\ pk s = KDone true.
Proof.
  assert (Hr : rtc pending_step pending_init (mkPending (WReturned true) (KDone true) None None true false)).
  { eapply rtc_l; [apply worker_lock|]. eapply rtc_l; [apply worker_found|].
    eapply rtc_l; [apply worker_copy|]. eapply rtc_l; [apply worker_mutex|].
    eapply rtc_l; [apply worker_flag|]. eapply rtc_l; [apply worker_done|].
    eapply rtc_l; [apply wait_lock|]. eapply rtc_l; [apply wait_ready|].
    eapply rtc_l; [apply cleanup_lock|]. eapply rtc_l; [apply cleanup_erase|]. apply rtc_refl. }
  eexists. split; [exact Hr|]. split; [reflexivity|].
  exact (proj1 (proj2 (pending_response_safe _ Hr)) eq_refl).
Defined.

(** The two locks are taken in opposite orders: a caller whose wait has timed out holds the
    request's mutex and wants the table, while the worker delivering the late response
    holds the table and wants the mutex.  That state is reachable and has no successor,
    and it is the only reachable state in which the two threads are stuck. *)
Theorem pending_deadlock_on_timeout :
  (exists s, rtc pending_step pending_init s /\ pw s = WTimedOut /\ pk s = KCopied /\
     forall s', ~ pending_step s s') /\
  (forall s, rtc pending_step pending_init s ->
     (returned s = true /\ worker_finished s = true) \/ (exists s', pending_step s s') \/
     (pw s = WTimedOut /\ pk s = KCopied)).
Proof.
  split.
  - exists (mkPending WTimedOut KCopied (Some Worker) (Some Waiter) false true). split.
    + eapply rtc_l; [apply wait_lock|]. eapply rtc_l; [apply wait_sleep|].
      eapply rtc_l; [apply worker_lock|]. eapply rtc_l; [apply worker_found|].
      eapply rtc_l; [apply worker_copy|]. eapply rtc_l; [apply wait_timeout|]. apply rtc_refl.
    + split; [done|]. split; [done|]. intros s' H. inversion H.
  - intros s Hr. pose proof (pending_reachable s Hr) as Hi. unfold pending_inv in Hi.
    destruct s as [w k t m c e]; cbn in *. unfold returned, worker_finished in *. cbn in *.
    destruct w as [| | | | | | |[]], k as [| | | | | |[]]; cbn in *; destruct_and?; subst;
      try discriminate; first [by left | by right; right | right; left; eexists; constructor].
Qed.

End Pending.

(** ** Channels *)

(** The queue from [src] to [dst] holds [l]. *)
Definition channel (s : DistShm) (src dst : Z) (l : list dist_message) : Prop :=
  exists q, ds_queues s !! queue_index src dst = Some q /\ represents q l /\
    q_capacity q = DIST_MSG_QUEUE_SIZE.

Definition node_id_ok (n : Z) : Prop := 0 <= n < DIST_MAX_NODES.

Lemma queue_index_inj (a b a' b' : Z) : node_id_ok a -> node_id_ok b -> node_id_ok a' -> node_id_ok b' ->
  queue_index a b = queue_index a' b' -> a = a' /\ b = b'.
Proof. unfold node_id_ok, queue_index, DIST_MAX_NODES. lia. Qed.

(** All channels but that from [a] to [b] are the same in both states. *)
Definition same_channels (a b : Z) (s s' : DistShm) : Prop :=
  ds_nodes s' = ds_nodes s /\
  forall a' b' l, node_id_ok a' -> node_id_ok b' -> (a', b') <> (a, b) -> channel s a' b' l -> channel s' a' b' l.

Lemma set_queue_channel (a b : Z) (q q' : dist_node_queue dist_message) (l : list dist_message) (s : DistShm) :
  node_id_ok a -> node_id_ok b -> ds_queues s !! queue_index a b = Some q ->
  represents q' l -> q_capacity q' = DIST_MSG_QUEUE_SIZE ->
  channel (set_queue (queue_index a b) q' s) a b l /\
  same_channels a b s (set_queue (queue_index a b) q' s).
Proof.
  intros Ha Hb Hq Hr Hc. split.
  - exists q'. split; [|done]. cbn. apply list_lookup_insert_eq. by apply lookup_lt_Some in Hq.
  - split; [done|]. intros a' b' l' Ha' Hb' Hn (q0 & H0 & Hr0). exists q0. split; [|done]. cbn.
    rewrite list_lookup_insert_ne; [done|]. intros E. apply Hn.
    apply queue_index_inj in E; [|done..]. by destruct E; subst.
Qed.

Lemma enqueue_channel (a b : Z) (msg : dist_message) (l : list dist_message) (s : DistShm) :
  node_id_ok a -> node_id_ok b -> channel s a b l -> Z.of_nat (length l) < DIST_MSG_QUEUE_SIZE - 1 ->
  exists s', enqueue_message a b msg s = Some (true, s') /\ channel s' a b (l ++ [msg]) /\ same_channels a b s s'.
Proof.
  intros Ha Hb (q & Hq & Hr & Hc) Hl. unfold enqueue_message.
  rewrite (proj2 (Z.leb_gt _ _)) by apply Hb. rewrite Hq. cbn.
  destruct (queue_enqueue_spec q l msg Hr) as (ok & q' & -> & Hc' & Hs). cbn.
  rewrite Hc, decide_True in Hs by done. destruct Hs as [-> Hr']. eexists. split; [done|].
  apply (set_queue_channel a b q); [done..|congruence].
Qed.

Lemma dequeue_channel (a b : Z) (l : list dist_message) (s : DistShm) :
  node_id_ok a -> node_id_ok b -> channel s a b l ->
  exists r s', dequeue_message b a s = Some (r, s') /\ r = head l /\ channel s' a b (tail l) /\ same_channels a b s s'.
Proof.
  intros Ha Hb (q & Hq & Hr & Hc). unfold dequeue_message.
  rewrite (proj2 (Z.leb_gt _ _)) by apply Ha. rewrite Hq. cbn.
  destruct (queue_dequeue_spec q l Hr) as (r & q' & -> & Hc' & Hs). cbn.
  exists r. eexists. split; [done|]. destruct l as [|x l']; destruct Hs as [-> Hs]; (split; [done|]).
  - subst q'. by apply (set_queue_channel a b q).
  - apply (set_queue_channel a b q); [done..|congruence].
Qed.

Lemma same_channels_trans (a b : Z) (s1 s2 s3 : DistShm) :
  same_channels a b s1 s2 -> same_channels a b s2 s3 -> same_channels a b s1 s3.
Proof. intros [N1 C1] [N2 C2]. split; [congruence|]. eauto. Qed.

Lemma same_channels_other (a b a' b' : Z) (l : list dist_message) (s s' : DistShm) :
  same_channels a b s s' -> node_id_ok a' -> node_id_ok b' -> a' <> a -> channel s a' b' l -> channel s' a' b' l.
Proof. intros [_ H] Ha Hb Hn. apply H; [done..|congruence]. Qed.

(** ** Draining a source *)
Section Drain.
Context {S : Type} (handlers : Z -> option (dist_message -> dist_message -> S -> option (dist_message * S))).

Lemma drain_empty (budget : nat) (now src : Z) (m : MsgManager) (s : DistShm) (st : S) :
  node_id_ok src -> node_id_ok (mm_local_node_id m) -> channel s src (mm_local_node_id m) [] ->
  exists s', drain_source handlers budget now src m s st = Some (budget, m, s', st) /\
    channel s' src (mm_local_node_id m) [] /\ same_channels src (mm_local_node_id m) s s'.
Proof.
  intros Hs Hm Hc. destruct budget as [|budget].
  - exists s. done.
  - destruct (dequeue_channel _ _ _ _ Hs Hm Hc) as (r & s' & E & -> & Hc' & Hsame).
    exists s'. cbn [drain_source]. rewrite E. done.
Qed.

(** A source that holds one message: it is taken and processed, and nothing is left. *)
Lemma drain_one (budget : nat) (now src : Z) (msg : dist_message) (m : MsgManager) (s : DistShm) (st : S) :
  node_id_ok src -> node_id_ok (mm_local_node_id m) -> channel s src (mm_local_node_id m) [msg] ->
  exists s1, channel s1 src (mm_local_node_id m) [] /\ same_channels src (mm_local_node_id m) s s1 /\
    forall m2 s2 st2, process_message handlers now msg m s1 st = Some (m2, s2, st2) ->
      mm_local_node_id m2 = mm_local_node_id m -> channel s2 src (mm_local_node_id m) [] ->
      exists s3, drain_source handlers (Datatypes.S budget) now src m s st = Some (budget, m2, s3, st2) /\
        channel s3 src (mm_local_node_id m) [] /\ same_channels src (mm_local_node_id m) s2 s3.
Proof.
  intros Hs Hm Hc. destruct (dequeue_channel _ _ _ _ Hs Hm Hc) as (r & s1 & E & -> & Hc1 & Hsame).
  exists s1. split; [done|]. split; [done|]. intros m2 s2 st2 Hp Hl Hc2. cbn [drain_source]. rewrite E. cbn.
  rewrite Hp. cbn. rewrite <- Hl in *.
  destruct (drain_empty budget now src m2 s2 st2 Hs Hm Hc2) as (s3 & -> & H3). eauto.
Qed.

Lemma process_pending (now : Z) (msg : dist_message) (m : MsgManager) (s : DistShm) (st : S) :
  is_Some (mm_pending_requests m !! mh_msg_id (dm_header msg)) ->
  process_message handlers now msg m s st =
    Some (set_pending (<[mh_msg_id (dm_header msg) := Some msg]> (mm_pending_requests m)) m, s, st).
Proof. intros [r Hr]. unfold process_message. by rewrite Hr. Qed.

(** A message for a pending request completes it and reaches no handler. *)
Lemma drain_response (budget : nat) (now src : Z) (msg : dist_message) (m : MsgManager) (s : DistShm) (st : S) :
  node_id_ok src -> node_id_ok (mm_local_node_id m) -> channel s src (mm_local_node_id m) [msg] ->
  is_Some (mm_pending_requests m !! mh_msg_id (dm_header msg)) ->
  exists s', drain_source handlers (Datatypes.S budget) now src m s st =
      Some (budget, set_pending (<[mh_msg_id (dm_header msg) := Some msg]> (mm_pending_requests m)) m, s', st) /\
    channel s' src (mm_local_node_id m) [] /\ same_channels src (mm_local_node_id m) s s'.
Proof.
  intros Hs Hm Hc Hp.
  destruct (drain_one budget now src msg m s st Hs Hm Hc) as (s1 & Hc1 & H1 & Hd).
  destruct (Hd _ _ _ (process_pending now msg m s1 st Hp) eq_refl Hc1) as (s3 & E & Hc3 & H3).
  exists s3. split; [done|]. split; [done|]. by apply (same_channels_trans _ _ s s1).
Qed.
End Drain.

Lemma request_begin_channel (m : MsgManager) (dst : Z) (req : dist_message) (s : DistShm) :
  node_id_ok (mm_local_node_id m) -> node_id_ok dst -> channel s (mm_local_node_id m) dst [] ->
  exists s1, request_begin m dst req s =
      Some (true, set_pending (<[mh_msg_id (dm_header req) := None]> (mm_pending_requests m)) m, s1) /\
    channel s1 (mm_local_node_id m) dst [req] /\ same_channels (mm_local_node_id m) dst s s1.
Proof.
  intros Hm Hd Hc.
  destruct (enqueue_channel _ _ req [] s Hm Hd Hc) as (s1 & E & Hc1 & H1); [done|].
  exists s1. unfold request_begin, send_message. cbn. rewrite E. done.
Qed.

Lemma request_end_completed (m : MsgManager) (req resp : dist_message) :
  request_end (set_pending (<[mh_msg_id (dm_header req) := Some resp]> (mm_pending_requests m)) m) req =
    (Some resp, set_pending (delete (mh_msg_id (dm_header req)) (mm_pending_requests m)) m).
Proof. unfold request_end. cbn. rewrite lookup_insert_eq, delete_insert_eq. done. Qed.

(** A freshly initialised object has empty channels. *)
Lemma initialize_channel (m : MsgManager) (a b : Z) : node_id_ok a -> node_id_ok b ->
  channel (manager_initialize m).2 a b [].
Proof.
  unfold node_id_ok, DIST_MAX_NODES. intros Ha Hb. eexists. split; [|split; [apply queue_reset_represents|]].
  - apply lookup_replicate. split; [done|]. unfold queue_index, DIST_MAX_NODES. lia.
  - by rewrite length_replicate.
  - done.
Qed.

(** What the worker hands to a handler as the response to fill in. *)
Definition blank_response (now : Z) (m : MsgManager) (msg : dist_message) : dist_message :=
  mkMessage (mkMsgHeader 0 (mh_msg_id (dm_header msg)) (mm_local_node_id m) (mh_src_node_id (dm_header msg)) now) PayZero.

(** ** Theorems *)

(** A request sent over idle channels comes back answered: the peer's poll runs the handler
    of the message type once and sends what it filled in, and the requester's poll
    completes the wait with exactly that response; afterwards both channels are empty and
    the requester's table is as before, without the id.  The peer has no pending request
    of the same id. *)
Theorem manager_request_reply {S T : Type} (hA : Z -> option (dist_message -> dist_message -> T -> option (dist_message * T)))
  (hB : Z -> option (dist_message -> dist_message -> S -> option (dist_message * S)))
  (mA mB : MsgManager) (s : DistShm) (stA : T) (stB stB' : S) (req resp : dist_message) (nowA nowB : Z) (budgetA budgetB : nat)
  handler
  (HA : node_id_ok (mm_local_node_id mA)) (HB : node_id_ok (mm_local_node_id mB))
  (Hdiff : mm_local_node_id mA <> mm_local_node_id mB)
  (Hab : channel s (mm_local_node_id mA) (mm_local_node_id mB) [])
  (Hba : channel s (mm_local_node_id mB) (mm_local_node_id mA) [])
  (Hsrc : mh_src_node_id (dm_header req) = mm_local_node_id mA)
  (Hfree : mm_pending_requests mB !! mh_msg_id (dm_header req) = None)
  (Hh : hB (mh_msg_type (dm_header req)) = Some handler)
  (Hrun : handler req (blank_response nowB mB req) stB = Some (resp, stB'))
  (Hid : mh_msg_id (dm_header resp) = mh_msg_id (dm_header req))
  (Htype : mh_msg_type (dm_header resp) <> DIST_MSG_NONE) :
  exists mA1 s1 s2 mA3 s3,
    request_begin mA (mm_local_node_id mB) req s = Some (true, mA1, s1) /\
    drain_source hB (Datatypes.S budgetB) nowB (mm_local_node_id mA) mB s1 stB = Some (budgetB, mB, s2, stB') /\
    drain_source hA (Datatypes.S budgetA) nowA (mm_local_node_id mB) mA1 s2 stA = Some (budgetA, mA3, s3, stA) /\
    request_end mA3 req = (Some resp, set_pending (delete (mh_msg_id (dm_header req)) (mm_pending_requests mA)) mA) /\
    channel s3 (mm_local_node_id mA) (mm_local_node_id mB) [] /\
    channel s3 (mm_local_node_id mB) (mm_local_node_id mA) [].
Proof.
  destruct (request_begin_channel mA _ req s HA HB Hab) as (s1 & E1 & Hab1 & K1).
  pose proof (same_channels_other _ _ _ _ _ _ _ K1 HB HA (not_eq_sym Hdiff) Hba) as Hba1.
  destruct (drain_one hB budgetB nowB _ req mB s1 stB HA HB Hab1) as (s2 & Hab2 & K2 & Hd).
  pose proof (same_channels_other _ _ _ _ _ _ _ K2 HB HA (not_eq_sym Hdiff) Hba1) as Hba2.
  destruct (enqueue_channel _ _ resp [] s2 HB HA Hba2) as (s3 & E3 & Hba3 & K3); [done|].
  pose proof (same_channels_other _ _ _ _ _ _ _ K3 HA HB Hdiff Hab2) as Hab3.
  destruct (Hd mB s3 stB') as (s4 & E4 & Hab4 & K4); [|done..|].
  { unfold process_message. rewrite Hfree, Hh. fold (blank_response nowB mB req). rewrite Hrun. cbn.
    rewrite (proj2 (Z.eqb_neq _ _) Htype). cbn. unfold send_message. by rewrite Hsrc, E3. }
  pose proof (same_channels_other _ _ _ _ _ _ _ K4 HB HA (not_eq_sym Hdiff) Hba3) as Hba4.
  set (mA1 := set_pending _ mA) in E1.
  destruct (drain_response hA budgetA nowA _ resp mA1 s4 stA HB HA Hba4) as (s5 & E5 & Hba5 & K5).
  { rewrite Hid. subst mA1. cbn. rewrite lookup_insert_eq. eauto. }
  pose proof (same_channels_other _ _ _ _ _ _ _ K5 HA HB Hdiff Hab4) as Hab5.
  eexists mA1, s1, s4, _, s5. split_and!; [exact E1|exact E4|exact E5| |done|done].
  rewrite Hid. subst mA1. cbn. rewrite insert_insert_eq. apply (request_end_completed mA req resp).
Qed.

(** A handler that answers a read with 64 bytes of 7. *)
Definition sample_handlers (t : Z) : option (dist_message -> dist_message -> nat -> option (dist_message * nat)) :=
  if t =? DIST_MSG_READ_REQ then
    Some (fun req resp st => Some (mkMessage (mkMsgHeader DIST_MSG_READ_RESP (mh_msg_id (dm_header resp)) 1 0 9)
                                     (PayMem (mkMemPayload 0 64 0 0 0 0 0 (replicate 64 7))), Datatypes.S st))
  else None.

Definition sample_request (id src dst : Z) : dist_message :=
  mkMessage (mkMsgHeader DIST_MSG_READ_REQ id src dst 0) (PayMem (mkMemPayload 128 64 0 0 0 0 0 (replicate 64 0))).

Lemma manager_request_reply_witness : exists mA3 resp,
  request_end mA3 (sample_request 1 0 1) = (Some resp, manager_new 0) /\ mp_data (payload_mem resp) = replicate 64 7.
Proof.
  destruct (manager_request_reply sample_handlers sample_handlers (manager_new 0) (manager_new 1)
    (manager_initialize (manager_new 0)).2 0%nat 0%nat 1%nat (sample_request 1 0 1)
    (mkMessage (mkMsgHeader DIST_MSG_READ_RESP 1 1 0 9) (PayMem (mkMemPayload 0 64 0 0 0 0 0 (replicate 64 7))))
    5 9 99 99
    (fun req resp st => Some (mkMessage (mkMsgHeader DIST_MSG_READ_RESP (mh_msg_id (dm_header resp)) 1 0 9)
                                (PayMem (mkMemPayload 0 64 0 0 0 0 0 (replicate 64 7))), Datatypes.S st)))
    as (mA1 & s1 & s2 & mA3 & s3 & _ & _ & _ & E & _);
    try reflexivity; try (apply initialize_channel; unfold node_id_ok, DIST_MAX_NODES; cbn; lia);
    try (unfold node_id_ok, DIST_MAX_NODES; cbn; lia); try discriminate.
  eexists mA3, _. split; [exact E|reflexivity].
Defined.

(** Responses are matched by id alone and every node numbers its requests from 1.  When two
    nodes send each other requests with the same id, each takes the other's request for
    its own response: both calls succeed with the peer's request as their result, and no
    handler runs on either side. *)
Theorem manager_crossed_requests {S T : Type} (hA : Z -> option (dist_message -> dist_message -> T -> option (dist_message * T)))
  (hB : Z -> option (dist_message -> dist_message -> S -> option (dist_message * S)))
  (mA mB : MsgManager) (s : DistShm) (stA : T) (stB : S) (reqA reqB : dist_message) (now : Z) (budget : nat)
  (HA : node_id_ok (mm_local_node_id mA)) (HB : node_id_ok (mm_local_node_id mB))
  (Hdiff : mm_local_node_id mA <> mm_local_node_id mB)
  (Hab : channel s (mm_local_node_id mA) (mm_local_node_id mB) [])
  (Hba : channel s (mm_local_node_id mB) (mm_local_node_id mA) [])
  (Hid : mh_msg_id (dm_header reqA) = mh_msg_id (dm_header reqB)) :
  exists mA1 s1 mB1 s2 mA2 s3 mB2 s4,
    request_begin mA (mm_local_node_id mB) reqA s = Some (true, mA1, s1) /\
    request_begin mB (mm_local_node_id mA) reqB s1 = Some (true, mB1, s2) /\
    drain_source hA (Datatypes.S budget) now (mm_local_node_id mB) mA1 s2 stA = Some (budget, mA2, s3, stA) /\
    drain_source hB (Datatypes.S budget) now (mm_local_node_id mA) mB1 s3 stB = Some (budget, mB2, s4, stB) /\
    (request_end mA2 reqA).1 = Some reqB /\ (request_end mB2 reqB).1 = Some reqA.
Proof.
  destruct (request_begin_channel mA _ reqA s HA HB Hab) as (s1 & E1 & Hab1 & K1).
  pose proof (same_channels_other _ _ _ _ _ _ _ K1 HB HA (not_eq_sym Hdiff) Hba) as Hba1.
  destruct (request_begin_channel mB _ reqB s1 HB HA Hba1) as (s2 & E2 & Hba2 & K2).
  pose proof (same_channels_other _ _ _ _ _ _ _ K2 HA HB Hdiff Hab1) as Hab2.
  set (mA1 := set_pending _ mA) in E1. set (mB1 := set_pending _ mB) in E2.
  destruct (drain_response hA budget now _ reqB mA1 s2 stA HB HA Hba2) as (s3 & E3 & _ & K3).
  { rewrite <- Hid. subst mA1. cbn. rewrite lookup_insert_eq. eauto. }
  pose proof (same_channels_other _ _ _ _ _ _ _ K3 HA HB Hdiff Hab2) as Hab3.
  destruct (drain_response hB budget now _ reqA mB1 s3 stB HA HB Hab3) as (s4 & E4 & _).
  { rewrite Hid. subst mB1. cbn. rewrite lookup_insert_eq. eauto. }
  eexists mA1, s1, mB1, s2, _, s3, _, s4. split_and!; [exact E1|exact E2|exact E3|exact E4| |].
  - rewrite <- Hid. by rewrite request_end_completed.
  - rewrite Hid. by rewrite request_end_completed.
Qed.

Lemma manager_crossed_requests_witness : exists mA2,
  (request_end mA2 (sample_request 1 0 1)).1 = Some (sample_request 1 1 0) /\
  mp_status (payload_mem (sample_request 1 1 0)) = 0.
Proof.
  destruct (manager_crossed_requests sample_handlers sample_handlers (manager_new 0) (manager_new 1)
    (manager_initialize (manager_new 0)).2 0%nat 0%nat (sample_request 1 0 1) (sample_request 1 1 0) 5 99)
    as (mA1 & s1 & mB1 & s2 & mA2 & s3 & mB2 & s4 & _ & _ & _ & _ & E & _);
    try reflexivity; try (apply initialize_channel; unfold node_id_ok, DIST_MAX_NODES; cbn; lia);
    try (unfold node_id_ok, DIST_MAX_NODES; cbn; lia); try discriminate.
  exists mA2. split; [exact E|reflexivity].
Defined.
