(* ===== verification/DistServer.v ===== *)
(** * The distributed memory server ([DistributedMemoryServer] and [DistributedTCPTransport] in
    [include/distributed_server.h], [src/distributed_server.cpp], and the request/response
    exchange of [src/tcp_communication.cpp])

    A node owns a part of the address space ([SharedMemory]), routes an access by the HDM
    decoder to its own memory or to another node, and informs its coherency engine.
    An access is a function that either finishes locally or returns the message to send
    ([access]); the cluster at the end of the file delivers such a message to the handler
    of the target, which is what the message manager does on idle channels.  The latency
    model of the controller and the clock are arguments.  [None] is undefined behaviour. *)
From S2P Require Import Prelude HdmDecoder Double LogP Fabric Moesi CoherencyEngine SharedMemory.
From S2P Require Import MessageQueue MessageManager.
From Stdlib Require Import SpecFloat.

Module Dist.
Inductive DistTransportMode := SHM | TCP | HYBRID.
End Dist.

#[global] Instance DistTransportMode_eq_dec : EqDecision Dist.DistTransportMode.
Proof. solve_decision. Defined.

Record DistNodeInfo := mkNodeInfo {
  ni_node_id : Z;
  ni_state : Z;
  ni_memory_base : Z;
  ni_memory_size : Z;
  ni_last_heartbeat : Z
}.

Record ServerStats := mkServerStats {
  st_local_reads : Z;
  st_local_writes : Z;
  st_remote_reads : Z;
  st_remote_writes : Z;
  st_forwarded_requests : Z;
  st_coherency_messages : Z
}.

Set Implicit Arguments.

Record DistServer (D : Type) := mkDistServer {
  sv_node_id : Z;
  sv_memory_capacity_mb : Z;
  sv_transport_mode : Dist.DistTransportMode;
  sv_local_memory : SharedMemoryManager;
  sv_msg_manager : option MsgManager;
  sv_tcp_connected : option (gset Z);        (* the TCP transport's connected nodes, if there is one *)
  sv_nodes : gmap Z DistNodeInfo;
  sv_hdm_decoder : option HDMDecoder;        (* of the controller *)
  sv_coherency : option (CoherencyEngine D); (* of the controller *)
  sv_lsa_data : list Z;                      (* [lsa_size_] is its length *)
  sv_state : Z;
  sv_next_msg_id : Z;
  sv_stats : ServerStats
}.

Unset Implicit Arguments.

Definition NODE_STATE_INITIALIZING : Z := 1.

(** What becomes of an access at the node it is issued on. *)
Inductive access (D A : Type) :=
| Finished (r : option A) (sv : DistServer D)      (* [None]: the call returns -1 *)
| Forward (tcp : bool) (target : Z) (req : dist_message) (sv : DistServer D).
Arguments Finished {D A}. Arguments Forward {D A}.

Section Server.
Context {D : Type} `{Double D}.
(** [controller_->calculate_latency] for one access, and whether [msync] succeeds. *)
Context (calculate_latency : Z -> Z -> Z) (msync_ok : bool).

(** ** Field updates *)
Definition sv_set_memory (m : SharedMemoryManager) (s : DistServer D) : DistServer D :=
  mkDistServer (sv_node_id s) (sv_memory_capacity_mb s) (sv_transport_mode s) m (sv_msg_manager s)
    (sv_tcp_connected s) (sv_nodes s) (sv_hdm_decoder s) (sv_coherency s) (sv_lsa_data s) (sv_state s)
    (sv_next_msg_id s) (sv_stats s).

Definition sv_set_manager (m : option MsgManager) (s : DistServer D) : DistServer D :=
  mkDistServer (sv_node_id s) (sv_memory_capacity_mb s) (sv_transport_mode s) (sv_local_memory s) m
    (sv_tcp_connected s) (sv_nodes s) (sv_hdm_decoder s) (sv_coherency s) (sv_lsa_data s) (sv_state s)
    (sv_next_msg_id s) (sv_stats s).

Definition sv_set_nodes (n : gmap Z DistNodeInfo) (s : DistServer D) : DistServer D :=
  mkDistServer (sv_node_id s) (sv_memory_capacity_mb s) (sv_transport_mode s) (sv_local_memory s)
    (sv_msg_manager s) (sv_tcp_connected s) n (sv_hdm_decoder s) (sv_coherency s) (sv_lsa_data s)
    (sv_state s) (sv_next_msg_id s) (sv_stats s).

Definition sv_set_coherency (g : option (CoherencyEngine D)) (s : DistServer D) : DistServer D :=
  mkDistServer (sv_node_id s) (sv_memory_capacity_mb s) (sv_transport_mode s) (sv_local_memory s)
    (sv_msg_manager s) (sv_tcp_connected s) (sv_nodes s) (sv_hdm_decoder s) g (sv_lsa_data s)
    (sv_state s) (sv_next_msg_id s) (sv_stats s).

Definition sv_set_lsa (l : list Z) (s : DistServer D) : DistServer D :=
  mkDistServer (sv_node_id s) (sv_memory_capacity_mb s) (sv_transport_mode s) (sv_local_memory s)
    (sv_msg_manager s) (sv_tcp_connected s) (sv_nodes s) (sv_hdm_decoder s) (sv_coherency s) l
    (sv_state s) (sv_next_msg_id s) (sv_stats s).

Definition sv_count (lr lw rr rw fwd coh : Z) (s : DistServer D) : DistServer D :=
  let t := sv_stats s in
  mkDistServer (sv_node_id s) (sv_memory_capacity_mb s) (sv_transport_mode s) (sv_local_memory s)
    (sv_msg_manager s) (sv_tcp_connected s) (sv_nodes s) (sv_hdm_decoder s) (sv_coherency s)
    (sv_lsa_data s) (sv_state s) (sv_next_msg_id s)
    (mkServerStats (st_local_reads t ⊞ lr) (st_local_writes t ⊞ lw) (st_remote_reads t ⊞ rr)
       (st_remote_writes t ⊞ rw) (st_forwarded_requests t ⊞ fwd) (st_coherency_messages t ⊞ coh)).

Definition server_generate_msg_id (s : DistServer D) : Z * DistServer D :=
  match sv_msg_manager s with
  | Some m => let '(id, m') := generate_msg_id m in (id, sv_set_manager (Some m') s)
  | None =>
      (sv_next_msg_id s,
       mkDistServer (sv_node_id s) (sv_memory_capacity_mb s) (sv_transport_mode s) (sv_local_memory s)
         (sv_msg_manager s) (sv_tcp_connected s) (sv_nodes s) (sv_hdm_decoder s) (sv_coherency s)
         (sv_lsa_data s) (sv_state s) (wrap32 (sv_next_msg_id s + 1)) (sv_stats s))
  end.

(** ** Coherency *)
Definition ensure_coherency_for_read (now addr requesting_node : Z) (s : DistServer D) : DistServer D :=
  match sv_coherency s with
  | Some g =>
      let '(_, g') := process_read (mkCoherencyRequest addr requesting_node 0 false now) g in
      sv_set_coherency (Some g') s
  | None => s
  end.

Definition ensure_coherency_for_write (now addr requesting_node : Z) (s : DistServer D) : DistServer D :=
  match sv_coherency s with
  | Some g =>
      let '(_, g') := process_write (mkCoherencyRequest addr requesting_node 0 true now) g in
      sv_set_coherency (Some g') s
  | None => s
  end.

(** ** Address mapping *)
Definition get_node_for_address (s : DistServer D) (addr : Z) : option Z :=
  match sv_hdm_decoder s with
  | Some d => get_home_node d addr
  | None => Some (sv_node_id s)
  end.

Definition is_local_address (s : DistServer D) (addr : Z) : bool :=
  let m := sv_local_memory s in
  (shm_info_base m <=? addr) && (addr <? shm_info_base m ⊞ shm_info_size m).

(** ** Message handlers *)

(** [resp.header.msg_type = t] and the payload. *)
Definition reply (t : Z) (p : dist_payload) (resp : dist_message) : dist_message :=
  let h := dm_header resp in
  mkMessage (mkMsgHeader t (mh_msg_id h) (mh_src_node_id h) (mh_dst_node_id h) (mh_timestamp h)) p.

Definition mem_status (status latency : Z) (data : list Z) (p : dist_mem_payload) : dist_payload :=
  PayMem (mkMemPayload (mp_addr p) (mp_size p) (mp_value p) (mp_expected p) latency (mp_client_id p) status data).

(** [memcpy] of [bs] to the start of a buffer. *)
Definition overwrite (bs buf : list Z) : list Z := bs ++ drop (length bs) buf.

Definition handle_read_request (now : Z) (req resp : dist_message) (s : DistServer D) :
    option (dist_message * DistServer D) :=
  let p := payload_mem req in
  let r := payload_mem resp in
  let s1 := ensure_coherency_for_read now (mp_addr p) (mp_client_id p) s in
  result ← read_cacheline (sv_local_memory s1) (mp_addr p) (mp_size p);
  match result with
  | Some bytes =>
      Some (reply DIST_MSG_READ_RESP
              (mem_status 0 (calculate_latency (mp_addr p) (mp_size p)) (overwrite bytes (mp_data r)) r) resp,
            sv_count 1 0 0 0 0 0 s1)
  | None => Some (reply DIST_MSG_READ_RESP (mem_status 1 (mp_latency_ns r) (mp_data r) r) resp, s1)
  end.

(** The bytes that [write_cacheline] reads from the 64-byte field, when the size is checked
    first: sizes over 64 are refused before the copy. *)
Definition payload_bytes (p : dist_mem_payload) : list Z :=
  if mp_size p <=? 64 then take (Z.to_nat (mp_size p)) (mp_data p) else replicate (Z.to_nat (mp_size p)) 0.

Definition handle_write_request (now : Z) (req resp : dist_message) (s : DistServer D) :
    option (dist_message * DistServer D) :=
  let p := payload_mem req in
  let r := payload_mem resp in
  let s1 := ensure_coherency_for_write now (mp_addr p) (mp_client_id p) s in
  '(ok, m) ← write_cacheline msync_ok (mp_addr p) (payload_bytes p) (sv_local_memory s1);
  let s2 := sv_set_memory m s1 in
  if (ok : bool) then
    Some (reply DIST_MSG_WRITE_RESP
            (mem_status 0 (calculate_latency (mp_addr p) (mp_size p)) (mp_data r) r) resp,
          sv_count 0 1 0 0 0 0 s2)
  else Some (reply DIST_MSG_WRITE_RESP (mem_status 1 (mp_latency_ns r) (mp_data r) r) resp, s2).

(** The eight bytes at an address of the data area as a little-endian integer. *)
Definition load_u64 (m : SharedMemoryManager) (off : Z) : option Z :=
  bs ← mem_read off 8 (sm_data_area m); Some (le_combine bs).

Definition store_u64 (off v : Z) (m : SharedMemoryManager) : option SharedMemoryManager :=
  d ← mem_write off (le_split 8 v) (sm_data_area m); Some (set_header_data (sm_header m) d m).

Definition handle_atomic_request (now : Z) (req resp : dist_message) (s : DistServer D) :
    option (dist_message * DistServer D) :=
  let p := payload_mem req in
  let r := payload_mem resp in
  let addr := mp_addr p in
  let faa := mh_msg_type (dm_header req) =? DIST_MSG_ATOMIC_FAA_REQ in
  let t := if faa then DIST_MSG_ATOMIC_FAA_RESP else DIST_MSG_ATOMIC_CAS_RESP in
  let s1 := ensure_coherency_for_write now addr (mh_src_node_id (dm_header req)) s in
  line ← get_cacheline_data (sv_local_memory s1) (line_of addr);
  match line with
  | None => Some (reply t (mem_status 1 (mp_latency_ns r) (mp_data r) r) resp, s1)
  | Some base =>
      let ptr := base + addr mod 64 in
      old ← load_u64 (sv_local_memory s1) ptr;
      m ← (if faa then store_u64 ptr (old ⊞ mp_value p) (sv_local_memory s1)
           else if old =? mp_expected p then store_u64 ptr (mp_value p) (sv_local_memory s1)
           else Some (sv_local_memory s1));
      Some (reply t (PayMem (mkMemPayload (mp_addr r) (mp_size r) old (mp_expected r)
                               (calculate_latency addr 8 ⊞ 20) (mp_client_id r) 0 (mp_data r))) resp,
            sv_set_memory m s1)
  end.

Definition handle_coherency_request (req resp : dist_message) (s : DistServer D) : dist_message * DistServer D :=
  let s1 := sv_count 0 0 0 0 0 1 s in
  let addr := cp_cacheline_addr (payload_coherency req) in
  let src := mh_src_node_id (dm_header req) in
  let t := mh_msg_type (dm_header req) in
  if t =? DIST_MSG_INVALIDATE then
    (reply DIST_MSG_INVALIDATE_ACK (PayCoherency (mkCoherencyPayload addr)) resp,
     sv_set_coherency (handle_remote_invalidate addr src <$> sv_coherency s1) s1)
  else if t =? DIST_MSG_DOWNGRADE then
    (reply DIST_MSG_DOWNGRADE_ACK (PayCoherency (mkCoherencyPayload addr)) resp,
     sv_set_coherency (handle_remote_downgrade addr src <$> sv_coherency s1) s1)
  else (resp, s1).

Definition handle_node_message (req resp : dist_message) (s : DistServer D) : dist_message * DistServer D :=
  let p := payload_node req in
  let t := mh_msg_type (dm_header req) in
  if t =? DIST_MSG_NODE_REGISTER then
    (reply DIST_MSG_NODE_ACK PayZero resp,
     sv_set_nodes (<[np_node_id p := mkNodeInfo (np_node_id p) (np_node_state p) (np_memory_base p)
                                       (np_memory_size p) 0]> (sv_nodes s)) s)
  else if t =? DIST_MSG_NODE_HEARTBEAT then
    (reply DIST_MSG_NONE PayZero resp,
     sv_set_nodes (alter (fun n => mkNodeInfo (ni_node_id n) (np_node_state p) (ni_memory_base n)
                                     (ni_memory_size n) (mh_timestamp (dm_header req)))
                     (np_node_id p) (sv_nodes s)) s)
  else (resp, s).

(** ** Label storage area

    The bound of a read is the sum [offset + size] in 64 bits; a write past the end grows
    the area first. *)
Definition lsa_read_local (offset size : Z) (s : DistServer D) : option (option (list Z)) :=
  if Z.of_nat (length (sv_lsa_data s)) <? offset ⊞ size then Some None
  else bytes ← mem_read offset size (sv_lsa_data s); Some (Some bytes).

Definition lsa_write_local (offset : Z) (bs : list Z) (s : DistServer D) : option (DistServer D) :=
  let new_size := offset ⊞ Z.of_nat (length bs) in
  let l :=
    if Z.of_nat (length (sv_lsa_data s)) <? new_size
    then sv_lsa_data s ++ replicate (Z.to_nat new_size - length (sv_lsa_data s)) 0
    else sv_lsa_data s in
  l' ← mem_write offset bs l;
  Some (sv_set_lsa l' s).

Definition handle_lsa_read (req resp : dist_message) (s : DistServer D) : option (dist_message * DistServer D) :=
  let p := payload_mem req in
  let r := payload_mem resp in
  let size := Z.min (mp_size p) 64 in
  ret ← lsa_read_local (mp_addr p) size s;
  let '(status, data) := match ret with Some bs => (0, overwrite bs (mp_data r)) | None => (1, mp_data r) end in
  Some (reply DIST_MSG_LSA_READ_RESP
          (PayMem (mkMemPayload (mp_addr r) size (mp_value r) (mp_expected r) (mp_latency_ns r)
                     (mp_client_id r) status data)) resp, s).

Definition handle_lsa_write (req resp : dist_message) (s : DistServer D) : option (dist_message * DistServer D) :=
  let p := payload_mem req in
  let r := payload_mem resp in
  let size := Z.min (mp_size p) 64 in
  s1 ← lsa_write_local (mp_addr p) (take (Z.to_nat size) (mp_data p)) s;
  Some (reply DIST_MSG_LSA_WRITE_RESP
          (PayMem (mkMemPayload (mp_addr r) size (mp_value r) (mp_expected r) (mp_latency_ns r)
                     (mp_client_id r) 0 (mp_data r))) resp, s1).

(** [setup_message_handlers]: the handler of each message type. *)
Definition server_handlers (now t : Z) :
    option (dist_message -> dist_message -> DistServer D -> option (dist_message * DistServer D)) :=
  if t =? DIST_MSG_READ_REQ then Some (handle_read_request now)
  else if t =? DIST_MSG_WRITE_REQ then Some (handle_write_request now)
  else if t =? DIST_MSG_LSA_READ_REQ then Some handle_lsa_read
  else if t =? DIST_MSG_LSA_WRITE_REQ then Some handle_lsa_write
  else if (t =? DIST_MSG_ATOMIC_FAA_REQ) || (t =? DIST_MSG_ATOMIC_CAS_REQ) then Some (handle_atomic_request now)
  else if (t =? DIST_MSG_INVALIDATE) || (t =? DIST_MSG_DOWNGRADE) then
    Some (fun req resp s => Some (handle_coherency_request req resp s))
  else if (t =? DIST_MSG_NODE_REGISTER) || (t =? DIST_MSG_NODE_HEARTBEAT) then
    Some (fun req resp s => Some (handle_node_message req resp s))
  else if t =? DIST_MSG_DIR_QUERY then
    Some (fun req resp s => Some (reply DIST_MSG_DIR_RESPONSE (PayCoherency (payload_coherency req)) resp, s))
  else None.

(** ** Accesses *)

Definition over_tcp (s : DistServer D) (target : Z) : bool :=
  match sv_transport_mode s with Dist.SHM => false | _ => true end &&
  match sv_tcp_connected s with Some c => bool_decide (target ∈ c) | None => false end.

(** A request message to [target]; [value] and [expected] are used by the atomics. *)
Definition make_request (t id now target addr size value expected client : Z) (data : list Z) (s : DistServer D) :
    dist_message :=
  mkMessage (mkMsgHeader t id (sv_node_id s) target now)
    (PayMem (mkMemPayload addr size value expected 0 client 0 data)).

(** [forward_read], [forward_read_tcp] until the request is sent. *)
Definition forward_read (tcp : bool) (now target addr size : Z) (s : DistServer D) : access D (list Z * Z) :=
  if negb tcp && negb (bool_decide (is_Some (sv_msg_manager s))) then Finished None s
  else
    let s1 := sv_count 0 0 1 0 1 0 s in
    let '(id, s2) := server_generate_msg_id s1 in
    Forward tcp target (make_request DIST_MSG_READ_REQ id now target addr size 0 0 (sv_node_id s) (replicate 64 0) s) s2.

(** [forward_write] copies [size] bytes into the 64-byte field, [forward_write_tcp] at most 64. *)
Definition forward_write (tcp : bool) (now target addr : Z) (bs : list Z) (s : DistServer D) :
    option (access D Z) :=
  if negb tcp && negb (bool_decide (is_Some (sv_msg_manager s))) then Some (Finished None s)
  else
    let s1 := sv_count 0 0 0 1 1 0 s in
    let '(id, s2) := server_generate_msg_id s1 in
    let bs' := if tcp then take 64 bs else bs in
    data ← mem_write 0 bs' (replicate 64 0);
    Some (Forward tcp target
            (make_request DIST_MSG_WRITE_REQ id now target addr (Z.of_nat (length bs)) 0 0 (sv_node_id s) data s) s2).

Definition server_read (now addr size : Z) (s : DistServer D) : option (access D (list Z * Z)) :=
  target ← get_node_for_address s addr;
  if (target =? sv_node_id s) || is_local_address s addr || (target =? UINT32_MAX) then
    let s1 := ensure_coherency_for_read now addr (sv_node_id s) s in
    result ← read_cacheline (sv_local_memory s1) addr size;
    match result with
    | None => Some (Finished None s1)
    | Some bytes => Some (Finished (Some (bytes, calculate_latency addr size)) (sv_count 1 0 0 0 0 0 s1))
    end
  else Some (forward_read (over_tcp s target) now target addr size s).

Definition server_write (now addr : Z) (bs : list Z) (s : DistServer D) : option (access D Z) :=
  target ← get_node_for_address s addr;
  if (target =? sv_node_id s) || is_local_address s addr || (target =? UINT32_MAX) then
    let s1 := ensure_coherency_for_write now addr (sv_node_id s) s in
    '(ok, m) ← write_cacheline msync_ok addr bs (sv_local_memory s1);
    let s2 := sv_set_memory m s1 in
    if (ok : bool) then Some (Finished (Some (calculate_latency addr (Z.of_nat (length bs)))) (sv_count 0 1 0 0 0 0 s2))
    else Some (Finished None s2)
  else forward_write (over_tcp s target) now target addr bs s.

(** [forward_read] after the response: [None] inside is -1.  [network] is the LogP or measured
    latency, with the coherency overhead of the TCP variant. *)
Definition finish_read (size network : Z) (resp : dist_message) : option (option (list Z * Z)) :=
  let p := payload_mem resp in
  if negb (mp_status p =? 0) then Some None
  else bytes ← mem_read 0 size (mp_data p); Some (Some (bytes, mp_latency_ns p ⊞ network)).

Definition finish_write (network : Z) (resp : dist_message) : option Z :=
  let p := payload_mem resp in
  if negb (mp_status p =? 0) then None else Some (mp_latency_ns p ⊞ network).

Definition finish_atomic (resp : dist_message) : option Z :=
  let p := payload_mem resp in if negb (mp_status p =? 0) then None else Some (mp_value p).

(** [atomic_faa] and [atomic_cas]: no fallback to local memory for an unresolved address; the
    message manager is tried when the TCP transport is absent or fails. *)
Definition server_atomic (t now addr expected value : Z) (s : DistServer D) : option (access D Z) :=
  target ← get_node_for_address s addr;
  let '(id, s1) := server_generate_msg_id s in
  let req := make_request t id now target addr 0 value expected 0 (replicate 64 0) s in
  if target =? sv_node_id s then
    '(resp, s2) ← handle_atomic_request now req zero_message s1;
    Some (Finished (finish_atomic resp) s2)
  else if negb (over_tcp s1 target) && negb (bool_decide (is_Some (sv_msg_manager s1))) then
    Some (Finished None s1)
  else Some (Forward (over_tcp s1 target) target req s1).

Definition server_atomic_faa (now addr value : Z) (s : DistServer D) : option (access D Z) :=
  server_atomic DIST_MSG_ATOMIC_FAA_REQ now addr 0 value s.

Definition server_atomic_cas (now addr expected desired : Z) (s : DistServer D) : option (access D Z) :=
  server_atomic DIST_MSG_ATOMIC_CAS_REQ now addr expected desired s.

(** The message that [fence] broadcasts. *)
Definition fence_message (now : Z) (s : DistServer D) : dist_message * DistServer D :=
  let '(id, s1) := server_generate_msg_id s in
  (mkMessage (mkMsgHeader DIST_MSG_FENCE_REQ id (sv_node_id s) 0 now) PayZero, s1).

(** The SHM branch of [forward_lsa_to_coordinator]: at most 64 bytes of the request go to node 0. *)
Definition forward_lsa_read (now offset size : Z) (s : DistServer D) : dist_message * DistServer D :=
  let '(id, s1) := server_generate_msg_id s in
  (make_request DIST_MSG_LSA_READ_REQ id now 0 offset (Z.min size 64) 0 0 (sv_node_id s) (replicate 64 0) s, s1).

Definition forward_lsa_write (now offset : Z) (bs : list Z) (s : DistServer D) : dist_message * DistServer D :=
  let '(id, s1) := server_generate_msg_id s in
  let bs' := take 64 bs in
  (make_request DIST_MSG_LSA_WRITE_REQ id now 0 offset (Z.of_nat (length bs')) 0 0 (sv_node_id s)
     (overwrite bs' (replicate 64 0)) s, s1).

(** ** Life cycle *)

(** The area of 256 KB that the constructor allocates; opaque, it is never to be unfolded. *)
Definition lsa_default : list Z := replicate (Z.to_nat (256 * 1024)) 0.
#[local] Opaque lsa_default.

Definition server_new (node_id capacity_mb : Z) (mode : Dist.DistTransportMode) : DistServer D :=
  mkDistServer node_id capacity_mb mode (shm_new capacity_mb false) None None ∅ None None
    lsa_default NODE_STATE_UNKNOWN 1 (mkServerStats 0 0 0 0 0 0).

(** [initialize], with the answers of the operating system for the memory ([a], [p],
    [base_env]), for the message manager's object and for the TCP listener, and the other
    nodes' view of the shared object as a result.  The controller's decoder and engine are
    new ([configure_distributed]).  [None] is the result [false]. *)
Definition server_initialize (a : ShmAnswers) (p : ShmMapping) (base_env : option Z) (manager_ok tcp_ok : bool)
    (now : Z) (engine : CoherencyEngine D) (s : DistServer D) : option (DistServer D * option DistShm) :=
  let '(ok, mem) := shm_initialize a p base_env (sv_local_memory s) in
  if negb ok then None
  else
    let mem1 := set_base_addr (sv_node_id s ⊠ sv_memory_capacity_mb s ⊠ 1024 ⊠ 1024) mem in
    let base := shm_info_base mem1 in
    let size := shm_info_size mem1 in
    let tcp := bool_decide (sv_transport_mode s = Dist.TCP) in
    let '(mgr, shm) :=
      if tcp then (None, None)
      else let '(m, sh) := manager_initialize (manager_new (sv_node_id s)) in (Some m, Some sh) in
    if negb tcp && (negb manager_ok || (DIST_MAX_NODES <=? sv_node_id s)) then None
    else
      let shm1 := (fun sh => (register_node (sv_node_id s) base size now sh).2) <$> shm in
      let info := mkNodeInfo (sv_node_id s) NODE_STATE_READY base size now in
      let decoder := add_range base size (sv_node_id s) false
                       (hdm_new (if tcp then HYBRID else RANGE_BASED)) in
      let wants_tcp := negb (bool_decide (sv_transport_mode s = Dist.SHM)) in
      if wants_tcp && negb tcp_ok && tcp then None
      else
        let has_tcp := wants_tcp && tcp_ok in
        let engine1 := if has_tcp then activate_head (sv_node_id s) (sv_memory_capacity_mb s ⊠ 1024 ⊠ 1024) engine
                       else engine in
        Some (mkDistServer (sv_node_id s) (sv_memory_capacity_mb s)
                (if wants_tcp && negb tcp_ok then Dist.SHM else sv_transport_mode s) mem1 mgr
                (if has_tcp then Some ∅ else None) (<[sv_node_id s := info]> (sv_nodes s)) (Some decoder) (Some engine1)
                (sv_lsa_data s) NODE_STATE_READY (sv_next_msg_id s) (sv_stats s), shm1).

(** [connect_tcp_node] once the connection is made: the peer's range is taken from the node
    registry, or assumed to be of this node's capacity.  [None] is the result [false]. *)
Definition connect_tcp_node (node_id : Z) (link : FabricLink D) (s : DistServer D) : option (DistServer D) :=
  match sv_tcp_connected s, sv_hdm_decoder s, sv_coherency s with
  | Some c, Some d, Some g =>
      let capacity := sv_memory_capacity_mb s ⊠ 1024 ⊠ 1024 in
      let '(base, size) :=
        match sv_nodes s !! node_id with
        | Some n => (ni_memory_base n, ni_memory_size n)
        | None => (node_id ⊠ capacity, capacity)
        end in
      Some (mkDistServer (sv_node_id s) (sv_memory_capacity_mb s) (sv_transport_mode s) (sv_local_memory s)
              (sv_msg_manager s) (Some ({[node_id]} ∪ c)) (sv_nodes s) (Some (add_range base size node_id true d))
              (Some (register_fabric_link node_id link g)) (sv_lsa_data s) (sv_state s) (sv_next_msg_id s) (sv_stats s))
  | _, _, _ => None
  end.

Definition add_remote_node (info : DistNodeInfo) (s : DistServer D) : DistServer D :=
  sv_set_nodes (<[ni_node_id info := info]> (sv_nodes s)) s.

Definition remove_remote_node (node_id : Z) (s : DistServer D) (shm : option DistShm) :
    bool * DistServer D * option DistShm :=
  let s1 := sv_set_nodes (delete node_id (sv_nodes s)) s in
  match sv_msg_manager s, shm with
  | Some _, Some sh => let '(ok, sh') := deregister_node node_id sh in (ok, s1, Some sh')
  | _, _ => (true, s1, shm)
  end.

(** The check for dead nodes in [heartbeat_loop]: 10 s in ns without a heartbeat. *)
Definition check_dead_nodes (now : Z) (s : DistServer D) : DistServer D :=
  sv_set_nodes (map_imap (fun id n =>
      Some (if negb (id =? sv_node_id s) && (10000000000 <? now ⊟ ni_last_heartbeat n)
            then mkNodeInfo (ni_node_id n) NODE_STATE_OFFLINE (ni_memory_base n) (ni_memory_size n) (ni_last_heartbeat n)
            else n)) (sv_nodes s)) s.

(** [join_cluster] in the SHM and hybrid modes, once the coordinator's object is open: a new
    manager, to which no handler is added, the registration and its notification. *)
Definition join_cluster (now : Z) (s : DistServer D) : option (bool * DistServer D * DistShm) :=
  let '(m, sh) := manager_initialize (manager_new (sv_node_id s)) in
  let base := shm_info_base (sv_local_memory s) in
  let size := shm_info_size (sv_local_memory s) in
  let '(ok, sh1) := register_node (sv_node_id s) base size now sh in
  if negb ok then Some (false, sv_set_manager (Some m) s, sh1)
  else
    let '(id, m1) := generate_msg_id m in
    let msg := mkMessage (mkMsgHeader DIST_MSG_NODE_REGISTER id (sv_node_id s) 0 now)
                 (PayNode (mkNodePayload (sv_node_id s) NODE_STATE_READY base size)) in
    '(_, sh2) ← send_message m1 0 msg sh1;
    Some (true, sv_set_manager (Some m1) s, sh2).

Definition leave_cluster (now : Z) (s : DistServer D) (shm : DistShm) : option (DistServer D * DistShm) :=
  let '(id, s1) := server_generate_msg_id s in
  match sv_msg_manager s1 with
  | None => Some (s1, shm)
  | Some m =>
      let msg := mkMessage (mkMsgHeader DIST_MSG_NODE_DEREGISTER id (sv_node_id s) 0xFFFF now)
                   (PayNode (mkNodePayload (sv_node_id s) 0 0 0)) in
      '(_, sh1) ← broadcast_message m msg shm;
      Some (s1, (deregister_node (sv_node_id s) sh1).2)
  end.
End Server.

(** ** The TCP transport *)
Definition TCP_OP_READ : Z := 0.

Definition TCP_OP_WRITE : Z := 1.

Record TCPRequest := mkTCPRequest {
  tq_op_type : Z;
  tq_addr : Z;
  tq_size : Z;
  tq_timestamp : Z;
  tq_host_id : Z;
  tq_data : list Z
}.

Record TCPResponse := mkTCPResponse {
  tp_status : Z;
  tp_latency_ns : Z;
  tp_cache_state : Z;
  tp_data : list Z
}.

(** [DistributedTCPTransport::send_message_wait_response]: the request and the response are
    translated to the smaller messages of [tcp_communication.h]. *)
Definition tcp_request (local : Z) (req : dist_message) : TCPRequest :=
  let p := payload_mem req in
  let op := if mh_msg_type (dm_header req) =? DIST_MSG_READ_REQ then TCP_OP_READ else TCP_OP_WRITE in
  mkTCPRequest op (mp_addr p) (mp_size p) (mh_timestamp (dm_header req)) (local mod 256)
    (if op =? TCP_OP_WRITE then mp_data p else replicate 64 0).

Definition tcp_response (local dst now : Z) (req : dist_message) (r : TCPResponse) : dist_message :=
  mkMessage (mkMsgHeader (if mh_msg_type (dm_header req) =? DIST_MSG_READ_REQ then DIST_MSG_READ_RESP
                          else DIST_MSG_WRITE_RESP) (mh_msg_id (dm_header req)) dst local now)
    (PayMem (mkMemPayload 0 0 0 0 (tp_latency_ns r) 0 (tp_status r) (tp_data r))).

(** One round of [TCPServer::handle_client] on a message: without a handler only two fields of
    the response are assigned, the others are what [uninit] holds. *)
Definition handle_client_round {S} (message_handler : option (TCPRequest -> S -> TCPResponse * S)) (uninit : TCPResponse)
    (req : TCPRequest) (st : S) : TCPResponse * S :=
  match message_handler with
  | Some h => h req st
  | None => (mkTCPResponse 0 100 (tp_cache_state uninit) (tp_data uninit), st)
  end.

(** The handler that [DistributedTCPTransport::initialize] gives its server: none. *)
Definition transport_handler {D} : option (TCPRequest -> DistServer D -> TCPResponse * DistServer D) := None.

(** ** The cluster *)
Section Cluster.
Context {D : Type} `{Double D}.
Context (calculate_latency : Z -> Z -> Z) (msync_ok : bool).
(** The network latency of a forwarded access, and the bytes of an unassigned response. *)
Context (network : Z) (uninit : TCPResponse).

#[local] Notation cluster := (gmap Z (DistServer D)).

(** A request through the message manager, on idle channels: the target's handler fills in the
    response; a target that is absent, has no manager or no handler does not answer. *)
Definition deliver (now target : Z) (req : dist_message) (c : cluster) : option (option dist_message * cluster) :=
  match c !! target with
  | None => Some (None, c)
  | Some peer =>
      match sv_msg_manager peer, server_handlers calculate_latency msync_ok now (mh_msg_type (dm_header req)) with
      | Some m, Some handler =>
          '(resp, peer') ← handler req (blank_response now m req) peer;
          let c' := <[target := peer']> c in
          if mh_msg_type (dm_header resp) =? DIST_MSG_NONE then Some (None, c') else Some (Some resp, c')
      | _, _ => Some (None, c)
      end
  end.

(** A request through a TCP connection. *)
Definition exchange (now node target : Z) (req : dist_message) (c : cluster) : option dist_message * cluster :=
  match c !! target with
  | None => (None, c)
  | Some peer =>
      let '(r, peer') := handle_client_round transport_handler uninit (tcp_request node req) peer in
      (Some (tcp_response node target now req r), <[target := peer']> c)
  end.

Definition transmit (tcp : bool) (now node target : Z) (req : dist_message) (c : cluster) :
    option (option dist_message * cluster) :=
  if tcp then Some (exchange now node target req c) else deliver now target req c.

(** [read] at [node]; the TCP variant also runs its own engine after a successful transfer. *)
Definition cluster_read (now node addr size : Z) (c : cluster) : option (option (list Z * Z) * cluster) :=
  s ← c !! node;
  acc ← server_read calculate_latency now addr size s;
  match acc with
  | Finished r s' => Some (r, <[node := s']> c)
  | Forward tcp target req s' =>
      '(answer, c1) ← transmit tcp now node target req (<[node := s']> c);
      match answer with
      | None => Some (None, c1)
      | Some resp =>
          r ← finish_read size network resp;
          Some (r, if tcp && bool_decide (is_Some r) then alter (ensure_coherency_for_read now addr node) node c1 else c1)
      end
  end.

Definition cluster_write (now node addr : Z) (bs : list Z) (c : cluster) : option (option Z * cluster) :=
  s ← c !! node;
  acc ← server_write calculate_latency msync_ok now addr bs s;
  match acc with
  | Finished r s' => Some (r, <[node := s']> c)
  | Forward tcp target req s' =>
      '(answer, c1) ← transmit tcp now node target req (<[node := s']> c);
      match answer with
      | None => Some (None, c1)
      | Some resp =>
          let r := finish_write network resp in
          Some (r, if tcp && bool_decide (is_Some r) then alter (ensure_coherency_for_write now addr node) node c1 else c1)
      end
  end.

Definition cluster_atomic (t now node addr expected value : Z) (c : cluster) : option (option Z * cluster) :=
  s ← c !! node;
  acc ← server_atomic calculate_latency t now addr expected value s;
  match acc with
  | Finished r s' => Some (r, <[node := s']> c)
  | Forward tcp target req s' =>
      '(answer, c1) ← transmit tcp now node target req (<[node := s']> c);
      Some (answer ≫= finish_atomic, c1)
  end.

(** [lsa_read] and [lsa_write] with a message manager; node 0 owns the area. *)
Definition cluster_lsa_read (now node offset size : Z) (c : cluster) : option (option (list Z) * cluster) :=
  s ← c !! node;
  if node =? 0 then r ← lsa_read_local offset size s; Some (r, c)
  else
    match sv_msg_manager s with
    | None => Some (None, c)
    | Some _ =>
        let '(req, s1) := forward_lsa_read now offset size s in
        '(answer, c1) ← deliver now 0 req (<[node := s1]> c);
        match answer with
        | Some resp =>
            if negb (mp_status (payload_mem resp) =? 0) then Some (None, c1)
            else bs ← mem_read 0 (Z.min size 64) (mp_data (payload_mem resp)); Some (Some bs, c1)
        | None => Some (None, c1)
        end
    end.

Definition cluster_lsa_write (now node offset : Z) (bs : list Z) (c : cluster) : option (bool * cluster) :=
  s ← c !! node;
  if node =? 0 then s' ← lsa_write_local offset bs s; Some (true, <[node := s']> c)
  else
    match sv_msg_manager s with
    | None => Some (false, c)
    | Some _ =>
        let '(req, s1) := forward_lsa_write now offset bs s in
        '(answer, c1) ← deliver now 0 req (<[node := s1]> c);
        Some (match answer with Some resp => mp_status (payload_mem resp) =? 0 | None => false end, c1)
    end.

(** ** Requests of a guest *)
Definition DIST_OP_READ : Z := 0.

Definition DIST_OP_WRITE : Z := 1.

Definition DIST_OP_GET_SHM_INFO : Z := 2.

Definition DIST_OP_ATOMIC_FAA : Z := 3.

Definition DIST_OP_ATOMIC_CAS : Z := 4.

Definition DIST_OP_FENCE : Z := 5.

Definition DIST_OP_LSA_READ : Z := 6.

Definition DIST_OP_LSA_WRITE : Z := 7.

Record DistServerRequest := mkGuestRequest {
  gr_op_type : Z;
  gr_addr : Z;
  gr_size : Z;
  gr_value : Z;
  gr_expected : Z;
  gr_data : list Z
}.

Record DistServerResponse := mkGuestResponse {
  gp_status : Z;
  gp_latency_ns : Z;
  gp_old_value : Z;
  gp_data : list Z
}.

(** The switch of [handle_tcp_client].  A fence reaches the other nodes as a message for which
    they have no handler. *)
Definition serve_guest (now node : Z) (req : DistServerRequest) (c : cluster) : option (DistServerResponse * cluster) :=
  let zeros := replicate 64 0 in
  let size := Z.min (gr_size req) 64 in
  let bytes := take (Z.to_nat size) (gr_data req) in
  let op := gr_op_type req in
  if op =? DIST_OP_READ then
    '(r, c') ← cluster_read now node (gr_addr req) size c;
    Some (match r with
          | Some (bs, lat) => mkGuestResponse 0 lat 0 (overwrite bs zeros)
          | None => mkGuestResponse 1 0 0 zeros
          end, c')
  else if op =? DIST_OP_WRITE then
    '(r, c') ← cluster_write now node (gr_addr req) bytes c;
    Some (match r with Some lat => mkGuestResponse 0 lat 0 zeros | None => mkGuestResponse 1 0 0 zeros end, c')
  else if op =? DIST_OP_ATOMIC_FAA then
    '(r, c') ← cluster_atomic DIST_MSG_ATOMIC_FAA_REQ now node (gr_addr req) 0 (gr_value req) c;
    Some (match r with Some old => mkGuestResponse 0 0 old zeros | None => mkGuestResponse 1 0 0 zeros end, c')
  else if op =? DIST_OP_ATOMIC_CAS then
    '(r, c') ← cluster_atomic DIST_MSG_ATOMIC_CAS_REQ now node (gr_addr req) (gr_expected req) (gr_value req) c;
    Some (match r with
          | Some old => mkGuestResponse (if old =? gr_expected req then 0 else 1) 0 old zeros
          | None => mkGuestResponse 1 0 0 zeros
          end, c')
  else if op =? DIST_OP_FENCE then
    s ← c !! node;
    Some (mkGuestResponse 0 0 0 zeros, <[node := (fence_message now s).2]> c)
  else if op =? DIST_OP_LSA_READ then
    '(r, c') ← cluster_lsa_read now node (gr_addr req) size c;
    Some (match r with Some bs => mkGuestResponse 0 0 0 (overwrite bs zeros) | None => mkGuestResponse 1 0 0 zeros end, c')
  else if op =? DIST_OP_LSA_WRITE then
    '(ok, c') ← cluster_lsa_write now node (gr_addr req) bytes c;
    Some (mkGuestResponse (if (ok : bool) then 0 else 1) 0 0 zeros, c')
  else if op =? DIST_OP_GET_SHM_INFO then
    s ← c !! node;
    let m := sv_local_memory s in
    Some (mkGuestResponse 0 0 0 (overwrite (le_split 8 (shm_info_base m) ++ le_split 8 (shm_info_size m) ++
                                            le_split 8 (shm_info_cachelines m)) zeros), c)
  else Some (mkGuestResponse 1 0 0 zeros, c).
End Cluster.

(** ** Routing *)
Section Routing.
Context {D : Type} `{Double D}.

(** An access to [addr] at this node goes to [home]: its own memory, or a peer behind the
    message manager. *)
Definition routes (s : DistServer D) (addr home : Z) : Prop :=
  get_node_for_address s addr = Some home /\
  (home = sv_node_id s \/
   home <> sv_node_id s /\ is_local_address s addr = false /\ home <> UINT32_MAX /\ over_tcp s home = false /\
   is_Some (sv_msg_manager s)).

(** The configuration that routing depends on is unchanged. *)
Definition same_config (s s' : DistServer D) : Prop :=
  sv_node_id s' = sv_node_id s /\ sv_transport_mode s' = sv_transport_mode s /\
  sv_tcp_connected s' = sv_tcp_connected s /\ sv_hdm_decoder s' = sv_hdm_decoder s /\
  (is_Some (sv_msg_manager s) -> is_Some (sv_msg_manager s')) /\
  shm_info_base (sv_local_memory s') = shm_info_base (sv_local_memory s) /\
  shm_info_size (sv_local_memory s') = shm_info_size (sv_local_memory s).

#[global] Instance same_config_preorder : PreOrder same_config.
Proof.
  split.
  - intros s. by repeat split.
  - intros s1 s2 s3 (? & ? & ? & ? & ? & ? & ?) (? & ? & ? & ? & ? & ? & ?). repeat split; auto; congruence.
Qed.

Lemma same_config_routes (s s' : DistServer D) (addr home : Z) :
  same_config s s' -> routes s addr home -> routes s' addr home.
Proof.
  intros (Hn & Ht & Hc & Hd & Hm & Hb & Hz) [H1 H2]. split.
  - unfold get_node_for_address in *. rewrite Hd. destruct (sv_hdm_decoder s); congruence.
  - rewrite Hn. destruct H2 as [H2|(H2 & H3 & H4 & H5 & H6)]; [by left|right].
    unfold is_local_address, over_tcp in *. cbv zeta in *. rewrite Hb, Hz, Ht, Hc. split_and!; auto.
Qed.

Lemma ensure_read_eq (now addr n : Z) (s : DistServer D) :
  exists g, ensure_coherency_for_read now addr n s = sv_set_coherency g s.
Proof.
  unfold ensure_coherency_for_read. destruct (sv_coherency s) as [g|] eqn:E.
  - destruct (process_read _ g) as [r g']. eauto.
  - exists None. rewrite <- E. by destruct s.
Qed.

Lemma ensure_write_eq (now addr n : Z) (s : DistServer D) :
  exists g, ensure_coherency_for_write now addr n s = sv_set_coherency g s.
Proof.
  unfold ensure_coherency_for_write. destruct (sv_coherency s) as [g|] eqn:E.
  - destruct (process_write _ g) as [r g']. eauto.
  - exists None. rewrite <- E. by destruct s.
Qed.

Lemma generate_config (s : DistServer D) :
  same_config s (server_generate_msg_id s).2 /\
  sv_local_memory (server_generate_msg_id s).2 = sv_local_memory s.
Proof. unfold server_generate_msg_id. destruct (sv_msg_manager s) eqn:E; repeat split; cbn; rewrite ?E; eauto. Qed.
End Routing.

Lemma mem_write_front (bs buf : list Z) : (length bs <= length buf)%nat ->
  mem_write 0 bs buf = Some (overwrite bs buf).
Proof. intros Hl. unfold mem_write, overwrite. rewrite decide_True by lia. done. Qed.

Lemma mem_read_overwrite (bs buf : list Z) : (length bs <= length buf)%nat ->
  mem_read 0 (Z.of_nat (length bs)) (overwrite bs buf) = Some bs.
Proof.
  intros Hl. unfold mem_read, overwrite. rewrite decide_True by (rewrite length_app, length_drop; lia).
  rewrite drop_0, Nat2Z.id, take_app_length. done.
Qed.

(** ** Memory effects of the handlers and the local paths *)
Section Effects.
Context {D : Type} `{Double D}.
Context (calculate_latency : Z -> Z -> Z) (network : Z) (uninit : TCPResponse).

(** The node's memory is well-formed and serves the access. *)
Definition serves (s : DistServer D) (hd : SharedMemoryHeader) (addr size : Z) : Prop :=
  shm_ok (sv_local_memory s) hd /\ u64 addr /\ served hd addr size.

(** [s'] is [s] with [bs] stored at [addr] in its memory. *)
Definition memory_stored (hd : SharedMemoryHeader) (addr : Z) (bs : list Z) (s s' : DistServer D) : Prop :=
  exists d, sv_local_memory s' = set_header_data (Some hd) d (sv_local_memory s) /\
    stored hd addr bs (sm_data_area (sv_local_memory s)) d.

Lemma memory_stored_config (hd : SharedMemoryHeader) (addr : Z) (bs d : list Z) (s : DistServer D) :
  sm_header (sv_local_memory s) = Some hd ->
  shm_info_base (set_header_data (Some hd) d (sv_local_memory s)) = shm_info_base (sv_local_memory s).
Proof. intros E. unfold shm_info_base. cbn. by rewrite E. Qed.

Lemma handle_write_served (now : Z) (req resp : dist_message) (hd : SharedMemoryHeader) (s : DistServer D) :
  serves s hd (mp_addr (payload_mem req)) (Z.of_nat (length (payload_bytes (payload_mem req)))) ->
  exists resp' s', handle_write_request calculate_latency true now req resp s = Some (resp', s') /\
    mh_msg_type (dm_header resp') = DIST_MSG_WRITE_RESP /\ mp_status (payload_mem resp') = 0 /\
    same_config s s' /\
    memory_stored hd (mp_addr (payload_mem req)) (payload_bytes (payload_mem req)) s s'.
Proof.
  intros (Hok & Ha & Hs). pose proof Hok as (Hh & _). unfold handle_write_request. cbv zeta.
  destruct (ensure_write_eq now (mp_addr (payload_mem req)) (mp_client_id (payload_mem req)) s) as [g ->].
  cbn [sv_local_memory sv_set_coherency].
  destruct (write_cacheline_served true _ hd _ _ Hok Ha Hs) as (d & -> & Hd).
  cbn [mbind option_bind]. eexists _, _. split; [reflexivity|]. split; [done|]. split; [done|]. split.
  - repeat split; auto. by apply (memory_stored_config hd 0 []).
  - by exists d.
Qed.

Lemma handle_read_served (now : Z) (req resp : dist_message) (hd : SharedMemoryHeader) (s : DistServer D) :
  serves s hd (mp_addr (payload_mem req)) (mp_size (payload_mem req)) ->
  exists resp' s', handle_read_request calculate_latency now req resp s = Some (resp', s') /\
    mh_msg_type (dm_header resp') = DIST_MSG_READ_RESP /\ mp_status (payload_mem resp') = 0 /\
    mp_data (payload_mem resp') =
      overwrite (byte_at (sv_local_memory s) hd <$> addrs (mp_addr (payload_mem req)) (mp_size (payload_mem req)))
        (mp_data (payload_mem resp)) /\
    same_config s s' /\ sv_local_memory s' = sv_local_memory s.
Proof.
  intros (Hok & Ha & Hs). unfold handle_read_request. cbv zeta.
  destruct (ensure_read_eq now (mp_addr (payload_mem req)) (mp_client_id (payload_mem req)) s) as [g ->].
  cbn [sv_local_memory sv_set_coherency].
  rewrite (read_cacheline_served _ hd _ _ Hok Ha Hs). cbn [mbind option_bind].
  eexists _, _. split; [reflexivity|]. by repeat split.
Qed.
End Effects.

(** ** Accesses in the cluster *)
Section ClusterLemmas.
Context {D : Type} `{Double D}.
Context (calculate_latency : Z -> Z -> Z) (network : Z) (uninit : TCPResponse).

(** Each node is still there with its configuration. *)
Definition cluster_keeps (c c' : gmap Z (DistServer D)) : Prop :=
  forall n s, c !! n = Some s -> exists s', c' !! n = Some s' /\ same_config s s'.

Lemma cluster_keeps_insert (n : Z) (s s' : DistServer D) (c : gmap Z (DistServer D)) :
  c !! n = Some s -> same_config s s' -> cluster_keeps c (<[n := s']> c).
Proof.
  intros Hn Hs m t Hm. destruct (decide (m = n)) as [->|Hne].
  - rewrite lookup_insert_eq. exists s'. split; [done|]. congruence.
  - rewrite lookup_insert_ne by done. exists t. split; [done|]. reflexivity.
Qed.

Lemma cluster_keeps_trans (c1 c2 c3 : gmap Z (DistServer D)) :
  cluster_keeps c1 c2 -> cluster_keeps c2 c3 -> cluster_keeps c1 c3.
Proof.
  intros H1 H2 n s Hn. destruct (H1 n s Hn) as (s2 & E2 & K2). destruct (H2 n s2 E2) as (s3 & E3 & K3).
  exists s3. split; [done|]. by transitivity s2.
Qed.

Lemma deliver_handler (now target : Z) (req resp : dist_message) (c : gmap Z (DistServer D)) (peer peer' : DistServer D)
    (m : MsgManager) handler :
  c !! target = Some peer -> sv_msg_manager peer = Some m ->
  server_handlers calculate_latency true now (mh_msg_type (dm_header req)) = Some handler ->
  handler req (blank_response now m req) peer = Some (resp, peer') ->
  mh_msg_type (dm_header resp) <> DIST_MSG_NONE ->
  deliver calculate_latency true now target req c = Some (Some resp, <[target := peer']> c).
Proof.
  intros Hc Hm Hh Hr Ht. unfold deliver. rewrite Hc, Hm, Hh, Hr. cbn.
  by rewrite (proj2 (Z.eqb_neq _ _) Ht).
Qed.

(** A write to a served address of its home reaches the home's memory, from any node. *)
Lemma cluster_write_home (now node addr home : Z) (bs : list Z) (c : gmap Z (DistServer D)) (s sh : DistServer D)
    (hd : SharedMemoryHeader) :
  c !! node = Some s -> sv_node_id s = node -> routes s addr home ->
  c !! home = Some sh -> is_Some (sv_msg_manager sh) -> serves sh hd addr (Z.of_nat (length bs)) ->
  exists lat c1 sh', cluster_write calculate_latency true network uninit now node addr bs c = Some (Some lat, c1) /\
    c1 !! home = Some sh' /\ memory_stored hd addr bs sh sh' /\ cluster_keeps c c1.
Proof.
  intros Hc Hid [Hhome Hroute] Hch [mgr Hmgr] Hsv. unfold cluster_write. rewrite Hc. cbn [mbind option_bind].
  unfold server_write. rewrite Hhome. cbn [mbind option_bind]. rewrite Hid in *.
  destruct Hroute as [->|(Hne & Hl & Hu & Ht & Hm)].
  - assert (s = sh) as -> by congruence. rewrite Z.eqb_refl. cbn [orb]. cbv zeta.
    destruct (ensure_write_eq now addr node sh) as [g ->]. cbn [sv_local_memory sv_set_coherency].
    destruct Hsv as (Hok & Ha & Hs). pose proof Hok as (Hh & _).
    destruct (write_cacheline_served true _ hd _ _ Hok Ha Hs) as (d & -> & Hd). cbn [mbind option_bind].
    eexists _, _, _. split; [reflexivity|]. rewrite lookup_insert_eq. split; [done|]. split; [by exists d|].
    apply (cluster_keeps_insert _ sh); [done|]. repeat split; auto. by apply (memory_stored_config hd 0 []).
  - rewrite (proj2 (Z.eqb_neq _ _) Hne), Hl, (proj2 (Z.eqb_neq _ _) Hu), Ht. cbn [orb].
    unfold forward_write. rewrite (bool_decide_eq_true_2 _ Hm). cbn [negb andb]. cbv zeta.
    destruct (generate_config (sv_count 0 0 0 1 1 0 s)) as [Hg _].
    destruct (server_generate_msg_id (sv_count 0 0 0 1 1 0 s)) as [id s2]. cbn in Hg.
    pose proof Hsv as (Hok & Ha & [Hs1 Hs2]).
    rewrite mem_write_front by (rewrite length_replicate; lia). cbn [mbind option_bind]. unfold transmit.
    set (req := make_request _ _ _ _ _ _ _ _ _ _ _).
    assert (Hb : payload_bytes (payload_mem req) = bs).
    { unfold payload_bytes, req, overwrite. cbn [mp_size mp_data payload_mem dm_payload make_request].
      rewrite (proj2 (Z.leb_le _ _)) by lia. rewrite Nat2Z.id, take_app_length. done. }
    destruct (handle_write_served calculate_latency now req (blank_response now mgr req) hd sh)
      as (resp & sh' & Hw & Hty & Hst & Hcfg & Hmem); [by rewrite Hb|].
    rewrite (deliver_handler now home req resp _ sh sh' mgr (handle_write_request calculate_latency true now));
      [|by rewrite lookup_insert_ne by done|done|done|done|by rewrite Hty].
    cbn [mbind option_bind]. unfold finish_write. rewrite Hst. cbn. eexists _, _, sh'. split; [done|].
    rewrite lookup_insert_eq. split; [done|]. rewrite Hb in Hmem. split; [done|].
    apply (cluster_keeps_trans _ (<[node := s2]> c)); [by apply (cluster_keeps_insert _ s)|].
    apply (cluster_keeps_insert _ sh); [by rewrite lookup_insert_ne|done].
Qed.

(** A read of a served address of its home returns the bytes of the home's memory, at any node. *)
Lemma cluster_read_home (now node addr size home : Z) (c : gmap Z (DistServer D)) (s sh : DistServer D)
    (hd : SharedMemoryHeader) :
  c !! node = Some s -> sv_node_id s = node -> routes s addr home ->
  c !! home = Some sh -> is_Some (sv_msg_manager sh) -> serves sh hd addr size ->
  exists lat c1, cluster_read calculate_latency true network uninit now node addr size c =
    Some (Some (byte_at (sv_local_memory sh) hd <$> addrs addr size, lat), c1).
Proof.
  intros Hc Hid [Hhome Hroute] Hch [mgr Hmgr] Hsv. unfold cluster_read. rewrite Hc. cbn [mbind option_bind].
  unfold server_read. rewrite Hhome. cbn [mbind option_bind]. rewrite Hid in *.
  destruct Hroute as [->|(Hne & Hl & Hu & Ht & Hm)].
  - assert (s = sh) as -> by congruence. rewrite Z.eqb_refl. cbn [orb]. cbv zeta.
    destruct (ensure_read_eq now addr node sh) as [g ->]. cbn [sv_local_memory sv_set_coherency].
    destruct Hsv as (Hok & Ha & Hs). rewrite (read_cacheline_served _ hd _ _ Hok Ha Hs). cbn [mbind option_bind].
    eauto.
  - rewrite (proj2 (Z.eqb_neq _ _) Hne), Hl, (proj2 (Z.eqb_neq _ _) Hu), Ht. cbn [orb mbind option_bind].
    unfold forward_read. rewrite (bool_decide_eq_true_2 _ Hm). cbn [negb andb]. cbv zeta.
    destruct (server_generate_msg_id (sv_count 0 0 1 0 1 0 s)) as [id s2]. unfold transmit.
    set (req := make_request _ _ _ _ _ _ _ _ _ _ _).
    destruct (handle_read_served calculate_latency now req (blank_response now mgr req) hd sh Hsv)
      as (resp & sh' & Hw & Hty & Hst & Hdata & Hcfg & Hmem).
    rewrite (deliver_handler now home req resp _ sh sh' mgr (handle_read_request calculate_latency now));
      [|by rewrite lookup_insert_ne by done|done|done|done|by rewrite Hty].
    cbn [mbind option_bind]. unfold finish_read. rewrite Hst, Hdata. cbn [negb Z.eqb].
    pose proof Hsv as (_ & _ & [Hs _]). cbn [req make_request payload_mem dm_payload mp_addr mp_size].
    set (bytes := byte_at _ _ <$> _).
    assert (Hlen : Z.of_nat (length bytes) = size).
    { unfold bytes, addrs. rewrite !length_fmap, length_seqZ. lia. }
    pose proof (mem_read_overwrite bytes (replicate 64 0) ltac:(rewrite length_replicate; lia)) as Hr.
    rewrite Hlen in Hr. cbn [blank_response mp_data payload_mem dm_payload zero_mem]. rewrite Hr.
    cbn [mbind option_bind andb]. eauto.
Qed.
End ClusterLemmas.

(** ** Eight bytes of one line *)
Section Word.
Context (m : SharedMemoryManager) (hd : SharedMemoryHeader) (addr : Z).
Hypothesis Hok : shm_ok m hd.
Hypothesis Ha : u64 addr.
Hypothesis Hserved : served hd addr 8.
Hypothesis Hline : addr mod 64 <= 56.

Lemma word_bytes (i : Z) : 0 <= i < 8 -> byte_index hd (addr ⊞ i) = byte_index hd addr + i.
Proof.
  intros Hi. pose proof (chunk_addr hd addr 0 i) as C. cbv zeta in C.
  rewrite Z.add_0_r, Z.add_0_l, (wrap64_small addr Ha) in C. apply C; [lia|].
  rewrite line_of_spec. lia.
Qed.

Lemma word_in_data : 0 <= byte_index hd addr /\ byte_index hd addr + 8 <= Z.of_nat (length (sm_data_area m)).
Proof.
  destruct Hok as (Hh & Hn & Hr & Hl). destruct Hserved as [_ Hw]. pose proof (line_of_spec addr) as L.
  destruct (decide (sh_base_addr hd = 0)) as [E|E].
  - pose proof (byte_index_modulo_range hd addr E Hn). lia.
  - destruct Hw as [|(W1 & W2 & W3)]; [done|]. unfold byte_index. rewrite (proj2 (Z.eqb_neq _ _) E).
    pose proof (line_of_le addr). assert (0 <= (line_of addr - sh_base_addr hd) / 64) by (apply Z.div_pos; lia). lia.
Qed.

Lemma word_pointer : exists base, get_cacheline_data m (line_of addr) = Some (Some base) /\
  base + addr mod 64 = byte_index hd addr.
Proof.
  pose proof Hok as (Hh & Hn & Hr & Hl). destruct Hserved as [_ Hw]. pose proof (line_of_spec addr) as L.
  destruct (decide (sh_base_addr hd = 0)) as [E|E].
  - destruct (cacheline_to_index_modulo hd addr E Hn) as (index & Hi & Hb).
    exists (index * 64). unfold get_cacheline_data. rewrite Hh, E. cbn. rewrite Hi. cbn. split; [done|lia].
  - destruct Hw as [|(W1 & W2 & W3)]; [done|]. rewrite (get_cacheline_data_window m hd) by done.
    rewrite decide_True by done. eexists. split; [done|]. unfold byte_index.
    rewrite (proj2 (Z.eqb_neq _ _) E). lia.
Qed.

Lemma word_load : load_u64 m (byte_index hd addr) = Some (le_combine (byte_at m hd <$> addrs addr 8)).
Proof.
  pose proof word_in_data. unfold load_u64. rewrite mem_read_bytes by lia. cbn [mbind option_bind]. do 2 f_equal.
  unfold addrs. rewrite <- list_fmap_compose. apply list_fmap_ext. intros i x Hx.
  apply lookup_seqZ in Hx as [-> Hi]. unfold compose, byte_at. rewrite word_bytes by lia. done.
Qed.

Lemma word_store (v : Z) : exists d, store_u64 (byte_index hd addr) v m = Some (set_header_data (Some hd) d m) /\
  stored hd addr (le_split 8 v) (sm_data_area m) d.
Proof.
  pose proof word_in_data. unfold store_u64.
  destruct (mem_write_Some (byte_index hd addr) (le_split 8 v) (sm_data_area m)) as [d E];
    [lia|rewrite le_split_length; lia|].
  exists d. rewrite E, (proj1 Hok). split; [done|]. split; [by apply mem_write_length in E|]. split.
  - intros i b Hi. pose proof (lookup_lt_Some _ _ _ Hi) as Hlt. rewrite le_split_length in Hlt.
    rewrite word_bytes by lia. rewrite (mem_write_lookup _ _ _ _ _ E), decide_True by (rewrite le_split_length; lia).
    rewrite <- Hi. f_equal. lia.
  - intros k Hk. rewrite (mem_write_lookup _ _ _ _ _ E), decide_False; [done|]. rewrite le_split_length. intros Hin.
    apply (Hk (Z.to_nat (Z.of_nat k - byte_index hd addr))); [rewrite le_split_length; lia|].
    rewrite word_bytes by lia. lia.
Qed.

(** After the store, a read of the eight bytes returns the new value's bytes. *)
Lemma word_store_read (v : Z) : exists m', store_u64 (byte_index hd addr) v m = Some m' /\
  read_cacheline m' addr 8 = Some (Some (le_split 8 v)).
Proof.
  destruct (word_store v) as (d & E & Hs). eexists. split; [exact E|].
  rewrite (read_cacheline_served _ hd); [|apply shm_ok_write; [done|apply Hs]|done|done].
  pose proof (stored_read m hd addr (le_split 8 v) d Hs) as R. rewrite le_split_length in R.
  change (Z.of_nat 8) with 8 in R. by rewrite R.
Qed.
End Word.

(** ** Theorems *)
Section Theorems.
Context {D : Type} `{Double D}.


(** The atomic handler on an eight-byte word inside a line: fetch-and-add returns the old
    value and stores the sum modulo 2^64; compare-and-swap returns the old value and stores
    the new one exactly when the old one is the expected one.  Reads see the result. *)
Theorem server_atomic_functional (calculate_latency : Z -> Z -> Z) (now : Z) (req resp : dist_message)
  (s : DistServer D) (hd : SharedMemoryHeader) (old : list Z)
  (Hs : serves s hd (mp_addr (payload_mem req)) 8) (Hl : mp_addr (payload_mem req) mod 64 <= 56)
  (Hold : read_cacheline (sv_local_memory s) (mp_addr (payload_mem req)) 8 = Some (Some old)) :
  exists resp' s', handle_atomic_request calculate_latency now req resp s = Some (resp', s') /\
    mp_status (payload_mem resp') = 0 /\ mp_value (payload_mem resp') = le_combine old /\
    read_cacheline (sv_local_memory s') (mp_addr (payload_mem req)) 8 = Some (Some
      (if mh_msg_type (dm_header req) =? DIST_MSG_ATOMIC_FAA_REQ
       then le_split 8 (le_combine old ⊞ mp_value (payload_mem req))
       else if le_combine old =? mp_expected (payload_mem req) then le_split 8 (mp_value (payload_mem req))
       else old)).
Proof.
  destruct Hs as (Hok & Ha & Hsv). set (addr := mp_addr (payload_mem req)) in *.
  unfold handle_atomic_request. cbv zeta. fold addr.
  destruct (ensure_write_eq now addr (mh_src_node_id (dm_header req)) s) as [g ->]. cbn [sv_local_memory sv_set_coherency].
  destruct (word_pointer _ hd addr Hok Ha Hsv) as (base & -> & Hb). cbn [mbind option_bind]. rewrite Hb.
  rewrite (word_load _ hd addr Hok Ha Hsv Hl). cbn [mbind option_bind].
  pose proof (read_cacheline_served _ hd addr 8 Hok Ha Hsv) as Hr. rewrite Hold in Hr.
  apply (inj Some), (inj Some) in Hr. rewrite <- Hr.
  destruct (word_store_read _ hd addr Hok Ha Hsv Hl (le_combine old ⊞ mp_value (payload_mem req))) as (m1 & E1 & R1).
  destruct (word_store_read _ hd addr Hok Ha Hsv Hl (mp_value (payload_mem req))) as (m2 & E2 & R2).
  destruct (_ =? DIST_MSG_ATOMIC_FAA_REQ); [rewrite E1|destruct (_ =? mp_expected _); [rewrite E2|]];
    cbn [mbind option_bind]; eexists _, _; (split; [reflexivity|]); auto.
Qed.

(** The label storage area returns what was written, growing as needed, as long as
    [offset + size] does not exceed the range of the 64-bit sum; when the sum wraps around
    to a value inside the area, the bounds check passes and the access is outside of it. *)
Theorem lsa_roundtrip_and_wrap (s : DistServer D) (offset size : Z) (bs : list Z)
  (Ho : u64 offset) (Hz : Z.of_nat (length bs) = size) (Hp : 0 < size <= 64) :
  (offset + size < 2 ^ 64 ->
     exists s', lsa_write_local offset bs s = Some s' /\ lsa_read_local offset size s' = Some (Some bs)) /\
  (2 ^ 64 <= offset + size -> 64 <= Z.of_nat (length (sv_lsa_data s)) < 2 ^ 63 ->
     lsa_read_local offset size s = None /\ lsa_write_local offset bs s = None).
Proof.
  unfold u64 in Ho. split.
  - intros Hsum. unfold lsa_write_local, lsa_read_local. rewrite Hz, wrap64_small by (unfold u64; lia). cbv zeta.
    set (l := if _ <? _ then _ else _).
    assert (Hlen : offset + size <= Z.of_nat (length l)).
    { unfold l. case_match; zify_bool; [rewrite length_app, length_replicate; lia|lia]. }
    destruct (mem_write_Some offset bs l) as [l' E]; [lia..|]. rewrite E. cbn [mbind option_bind].
    eexists. split; [done|]. cbn [sv_lsa_data sv_set_lsa]. pose proof (mem_write_length _ _ _ _ E) as Hl'.
    rewrite (proj2 (Z.ltb_ge _ _)) by lia. subst size.
    by rewrite (mem_read_write_same offset bs l l' E).
  - intros Hsum Hlen. unfold lsa_write_local, lsa_read_local. rewrite Hz. cbv zeta.
    assert (E : offset ⊞ size = offset + size - 2 ^ 64).
    { unfold wrap64. rewrite <- (Z.mod_unique (offset + size) (2 ^ 64) 1 (offset + size - 2 ^ 64)); lia. }
    rewrite E, (proj2 (Z.ltb_ge _ _)) by lia. unfold mem_read, mem_write. rewrite !decide_False by lia. done.
Qed.

(** In the SHM transport mode nothing is ever forwarded: after [initialize] the decoder has
    the node's own range only, so every address resolves to the node or to no node, and
    reads and writes of addresses that belong to other nodes are done on local memory. *)
Theorem server_shm_never_forwards (calculate_latency : Z -> Z -> Z) (msync_ok : bool) (a : ShmAnswers) (p : ShmMapping)
  (base_env : option Z) (manager_ok tcp_ok : bool) (now node cap addr size : Z) (bs : list Z) (engine : CoherencyEngine D)
  (s : DistServer D) (shm : option DistShm)
  (Hi : server_initialize a p base_env manager_ok tcp_ok now engine (server_new node cap Dist.SHM) = Some (s, shm)) :
  (exists t, get_node_for_address s addr = Some t /\ (t = node \/ t = UINT32_MAX)) /\
  (forall acc, server_read calculate_latency now addr size s = Some acc -> exists r s', acc = Finished r s') /\
  (forall acc, server_write calculate_latency msync_ok now addr bs s = Some acc -> exists r s', acc = Finished r s').
Proof.
  assert (Ht : sv_node_id s = node /\ exists t, get_node_for_address s addr = Some t /\ (t = node \/ t = UINT32_MAX)).
  { unfold server_initialize in Hi. destruct (shm_initialize _ _ _ _) as [ok mem]. destruct ok; [|done].
    cbn [negb sv_transport_mode sv_node_id server_new] in Hi. rewrite bool_decide_eq_false_2 in Hi by done.
    rewrite bool_decide_eq_true_2 in Hi by done. cbn [negb andb] in Hi.
    destruct (manager_initialize _) as [mgr sh]. destruct (_ || _); [done|].
    apply (inj Some), (f_equal fst) in Hi. cbn [fst] in Hi. subst s. split; [done|]. unfold get_node_for_address, get_home_node. cbn.
    unfold decode, decode_range. cbn. destruct (range_covers _ addr); cbn; eauto. }
  destruct Ht as (Hn & t & Ht & Hcase).
  assert (Hlocal : (t =? sv_node_id s) || is_local_address s addr || (t =? UINT32_MAX) = true).
  { rewrite Hn. destruct Hcase as [->| ->]; rewrite Z.eqb_refl; [done|]. apply orb_true_r. }
  split; [eauto|]. unfold server_read, server_write. rewrite Ht. cbn [mbind option_bind]. rewrite Hlocal. cbv zeta. split.
  - intros acc. destruct (read_cacheline _ _ _) as [[bytes|]|]; cbn [mbind option_bind]; [|  |done]; intros [= <-]; eauto.
  - intros acc. destruct (write_cacheline _ _ _ _) as [[[] m]|]; cbn [mbind option_bind]; [|  |done]; intros [= <-]; eauto.
Qed.

(** A write or an atomic forwarded over TCP is lost: the transport's server has no message
    handler and acknowledges every request, so the call succeeds and the target node is
    unchanged. *)
Theorem tcp_forward_lost (calculate_latency : Z -> Z -> Z) (msync_ok : bool) (network now node target addr value : Z)
  (uninit : TCPResponse) (bs : list Z) (c : gmap Z (DistServer D)) (s peer : DistServer D)
  (Hc : c !! node = Some s) (Hid : sv_node_id s = node) (Ht : get_node_for_address s addr = Some target)
  (Hne : target <> node) (Hl : is_local_address s addr = false) (Hu : target <> UINT32_MAX)
  (Htcp : over_tcp s target = true) (Hp : c !! target = Some peer) :
  (exists lat c1, cluster_write calculate_latency msync_ok network uninit now node addr bs c = Some (Some lat, c1) /\
     c1 !! target = Some peer) /\
  (exists c1, cluster_atomic calculate_latency msync_ok uninit DIST_MSG_ATOMIC_FAA_REQ now node addr 0 value c =
     Some (Some 0, c1) /\ c1 !! target = Some peer).
Proof.
  split.
  - unfold cluster_write. rewrite Hc. cbn [mbind option_bind]. unfold server_write. rewrite Ht. cbn [mbind option_bind].
    rewrite Hid, (proj2 (Z.eqb_neq _ _) Hne), Hl, (proj2 (Z.eqb_neq _ _) Hu), Htcp. cbn [orb].
    unfold forward_write. cbn [negb andb]. cbv zeta. destruct (server_generate_msg_id _) as [id s2].
    rewrite mem_write_front by (rewrite length_take, length_replicate; lia). cbn [mbind option_bind].
    unfold transmit, exchange. rewrite lookup_insert_ne, Hp by done. cbn. eexists _, _. split; [reflexivity|].
    rewrite lookup_alter_ne by done. apply lookup_insert_eq.
  - unfold cluster_atomic. rewrite Hc. cbn [mbind option_bind]. unfold server_atomic. rewrite Ht. cbn [mbind option_bind].
    pose proof (generate_config s) as [(_ & G1 & G2 & _) _].
    destruct (server_generate_msg_id s) as [id s1]. cbn in G1, G2. rewrite Hid, (proj2 (Z.eqb_neq _ _) Hne).
    assert (Htcp1 : over_tcp s1 target = true) by (unfold over_tcp in *; by rewrite G1, G2).
    rewrite Htcp1. cbn [negb andb mbind option_bind].
    unfold transmit, exchange. rewrite lookup_insert_ne, Hp by done. cbn. eexists. split; [reflexivity|].
    apply lookup_insert_eq.
Qed.
End Theorems.

(** ** Two nodes: node 1 owns [4096, 4352), node 2 [8192, 8448) *)
Definition demo_decoder : HDMDecoder :=
  add_range 8192 256 2 true (add_range 4096 256 1 false (hdm_new RANGE_BASED)).

Definition demo_server (node base : Z) (tcp : gset Z) : DistServer spec_float :=
  mkDistServer node 1 Dist.HYBRID (demo_shm base) (Some (manager_new node)) (Some tcp) ∅ (Some demo_decoder) None
    (replicate 128 0) NODE_STATE_READY 1 (mkServerStats 0 0 0 0 0 0).

Definition demo_cluster (tcp : gset Z) : gmap Z (DistServer spec_float) :=
  <[1 := demo_server 1 4096 tcp]> (<[2 := demo_server 2 8192 ∅]> ∅).

Definition demo_uninit : TCPResponse := mkTCPResponse 255 255 255 (replicate 64 255).

Lemma demo_routes (node base : Z) : node = 1 /\ base = 4096 \/ node = 2 /\ base = 8192 ->
  routes (demo_server node base ∅) 8200 2.
Proof.
  intros [[-> ->]|[-> ->]]; (split; [reflexivity|]).
  - right. split_and!; try reflexivity; try discriminate. by eexists.
  - by left.
Qed.

Lemma demo_serves : serves (demo_server 2 8192 ∅) (demo_header 8192) 8200 8.
Proof.
  split_and!; [apply demo_shm_ok; lia|unfold u64; lia|].
  apply (bool_decide_unpack _). vm_compute. exact I.
Qed.


Definition demo_faa : dist_message :=
  mkMessage (mkMsgHeader DIST_MSG_ATOMIC_FAA_REQ 1 1 2 0) (PayMem (mkMemPayload 8200 0 7 0 0 0 0 (replicate 64 0))).

Lemma server_atomic_functional_witness :
  exists resp' s', handle_atomic_request (fun _ _ => 0) 0 demo_faa zero_message (demo_server 2 8192 ∅) = Some (resp', s') /\
    mp_value (payload_mem resp') = 0 /\ read_cacheline (sv_local_memory s') 8200 8 = Some (Some (le_split 8 7)).
Proof.
  destruct (server_atomic_functional (fun _ _ => 0) 0 demo_faa zero_message (demo_server 2 8192 ∅) (demo_header 8192)
              (replicate 8 0)) as (resp' & s' & E & _ & V & R).
  - exact demo_serves.
  - vm_compute. discriminate.
  - reflexivity.
  - exists resp', s'. split; [exact E|]. split; [exact V|exact R].
Defined.

Lemma lsa_roundtrip_and_wrap_witness :
  (exists s', lsa_write_local 120 (replicate 16 9) (demo_server 1 4096 ∅) = Some s' /\
     lsa_read_local 120 16 s' = Some (Some (replicate 16 9))) /\
  lsa_read_local (2 ^ 64 - 8) 16 (demo_server 1 4096 ∅) = None.
Proof.
  split.
  - apply (lsa_roundtrip_and_wrap (demo_server 1 4096 ∅) 120 16 (replicate 16 9)); [unfold u64| |..]; cbn; lia.
  - apply (lsa_roundtrip_and_wrap (demo_server 1 4096 ∅) (2 ^ 64 - 8) 16 (replicate 16 9)); [unfold u64| |..]; cbn; lia.
Defined.

(** The operating system's answers for a fresh object of 1 MB. *)
Definition demo_answers : ShmAnswers := mkShmAnswers None (Some true) true true true.

Definition demo_engine_for (node : Z) : CoherencyEngine spec_float := engine_new node None 4 (d_of_Z 64).

Lemma server_shm_never_forwards_witness :
  exists s shm t, server_initialize demo_answers (mkShmMapping true (mkSharedMemoryHeader 0 0 0 0 0 0 0) []) None true true 0
      (demo_engine_for 1) (server_new 1 1 Dist.SHM) = Some (s, shm) /\
    get_node_for_address s 0 = Some t /\ (t = 1 \/ t = UINT32_MAX).
Proof.
  destruct (server_initialize demo_answers (mkShmMapping true (mkSharedMemoryHeader 0 0 0 0 0 0 0) []) None true true 0
      (demo_engine_for 1) (server_new 1 1 Dist.SHM)) as [[s shm]|] eqn:E; [|discriminate E].
  destruct (server_shm_never_forwards (fun _ _ => 0) true demo_answers
    (mkShmMapping true (mkSharedMemoryHeader 0 0 0 0 0 0 0) []) None true true 0 1 1 0 8 [1] (demo_engine_for 1) s shm E)
    as [(t & Ht & Hc) _].
  exists s, shm, t. split; [reflexivity|]. split; [exact Ht|exact Hc].
Defined.

Lemma tcp_forward_lost_witness :
  exists lat c1, cluster_write (fun _ _ => 0) true 5 demo_uninit 0 1 8200 [1; 2; 3] (demo_cluster {[2]}) = Some (Some lat, c1) /\
    c1 !! 2 = Some (demo_server 2 8192 ∅).
Proof.
  apply (tcp_forward_lost (fun _ _ => 0) true 5 0 1 2 8200 0 demo_uninit [1; 2; 3] (demo_cluster {[2]})
           (demo_server 1 4096 {[2]}) (demo_server 2 8192 ∅)); first [reflexivity | discriminate].
Defined.
