(* ===== verification/MainServer.v ===== *)
(** * The memory server ([ThreadPerConnectionServer] in [src/main_server.cc])

    A guest connection is a thread; each request runs under the server's memory lock, so the
    server is a function from requests to responses.  It keeps MESI metadata per cacheline
    (in [SharedMemory]), a queue of back invalidations per cacheline, congestion counters and
    the label storage area.  The clock, the controller's latency and the answers of [msync]
    are arguments; the statistics that the switches and expanders collect are not part of
    this file.  [None] is undefined behaviour. *)
From Stdlib Require Import SpecFloat.
From S2P Require Import Prelude Double Fabric Moesi SharedMemory.

Definition OP_READ : Z := 0.

Definition OP_WRITE : Z := 1.

Definition OP_GET_SHM_INFO : Z := 2.

Definition OP_ATOMIC_FAA : Z := 3.

Definition OP_ATOMIC_CAS : Z := 4.

Definition OP_FENCE : Z := 5.

Definition OP_LSA_READ : Z := 6.

Definition OP_LSA_WRITE : Z := 7.

Record ServerRequest := mkServerRequest {
  sq_op_type : Z;
  sq_addr : Z;
  sq_size : Z;
  sq_timestamp : Z;
  sq_value : Z;
  sq_expected : Z;
  sq_data : list Z
}.

Record ServerResponse := mkServerResponse {
  sp_status : Z;
  sp_latency_ns : Z;
  sp_old_value : Z;
  sp_data : list Z
}.

Record BackInvalidationEntry := mkBackInvalidation {
  bi_cacheline_addr : Z;
  bi_source_thread_id : Z;
  bi_timestamp : Z;
  bi_dirty_data : list Z
}.

Record MainStats := mkMainStats {
  mt_reads : Z;
  mt_writes : Z;
  mt_atomic_faa : Z;
  mt_atomic_cas : Z;
  mt_atomic_cas_success : Z;
  mt_fences : Z;
  mt_invalidations : Z;
  mt_downgrades : Z;
  mt_back_invalidations : Z
}.

Record CongestionInfo := mkCongestion {
  cg_active_requests : Z;
  cg_total_bandwidth_used : Z;
  cg_last_reset_ms : Z
}.

Record MainServer := mkMainServer {
  ms_shm : SharedMemoryManager;
  ms_congestion : CongestionInfo;
  ms_back_invalidations : gmap Z (list BackInvalidationEntry);
  ms_stats : MainStats;
  ms_lsa_data : list Z                  (* [lsa_size_] is its length *)
}.

(** ** Field updates *)
Definition ms_set_shm (m : SharedMemoryManager) (s : MainServer) : MainServer :=
  mkMainServer m (ms_congestion s) (ms_back_invalidations s) (ms_stats s) (ms_lsa_data s).

Definition ms_set_back (b : gmap Z (list BackInvalidationEntry)) (s : MainServer) : MainServer :=
  mkMainServer (ms_shm s) (ms_congestion s) b (ms_stats s) (ms_lsa_data s).

Definition ms_set_lsa (l : list Z) (s : MainServer) : MainServer :=
  mkMainServer (ms_shm s) (ms_congestion s) (ms_back_invalidations s) (ms_stats s) l.

Definition ms_active (d : Z) (s : MainServer) : MainServer :=
  let c := ms_congestion s in
  mkMainServer (ms_shm s) (mkCongestion (cg_active_requests c + d) (cg_total_bandwidth_used c) (cg_last_reset_ms c))
    (ms_back_invalidations s) (ms_stats s) (ms_lsa_data s).

Definition ms_count (r w faa cas cas_ok fences inv down binv : Z) (s : MainServer) : MainServer :=
  let t := ms_stats s in
  mkMainServer (ms_shm s) (ms_congestion s) (ms_back_invalidations s)
    (mkMainStats (mt_reads t ⊞ r) (mt_writes t ⊞ w) (mt_atomic_faa t ⊞ faa) (mt_atomic_cas t ⊞ cas)
       (mt_atomic_cas_success t ⊞ cas_ok) (mt_fences t ⊞ fences) (mt_invalidations t ⊞ inv)
       (mt_downgrades t ⊞ down) (mt_back_invalidations t ⊞ binv)) (ms_lsa_data s).

(** The metadata object of a line is shared through a pointer: updates go to the cache. *)
Definition set_metadata (line : Z) (md : CachelineMetadata) (s : MainServer) : MainServer :=
  let m := ms_shm s in
  ms_set_shm (mkSharedMemoryManager (sm_capacity_mb m) (sm_shm_size m) (sm_use_file_backing m) (sm_header m)
                (sm_data_area m) (<[line := md]> (sm_metadata_cache m)) (sm_regions m)) s.

Definition md_coherency (st : Mesi.CoherencyState) (sharers : gset Z) (owner : Z) (md : CachelineMetadata) :
    CachelineMetadata :=
  mkCachelineMetadata st sharers owner (cm_last_access_time md) (cm_has_dirty_update md) (cm_dirty_update_time md)
    (cm_version md).

Definition md_access (ts : Z) (md : CachelineMetadata) : CachelineMetadata :=
  mkCachelineMetadata (cm_state md) (cm_sharers md) (cm_owner md) ts (cm_has_dirty_update md) (cm_dirty_update_time md)
    (cm_version md).

Definition md_dirty (b : bool) (time : Z) (md : CachelineMetadata) : CachelineMetadata :=
  mkCachelineMetadata (cm_state md) (cm_sharers md) (cm_owner md) (cm_last_access_time md) b time (cm_version md).

Definition md_bump (md : CachelineMetadata) : CachelineMetadata :=
  mkCachelineMetadata (cm_state md) (cm_sharers md) (cm_owner md) (cm_last_access_time md) (cm_has_dirty_update md)
    (cm_dirty_update_time md) (cm_version md ⊞ 1).

(** ** Coherency protocol *)

(** Downgrades counted by [downgrade_owner]. *)
Definition downgrade_owner (requesting_thread : Z) (md : CachelineMetadata) : Z :=
  if negb (cm_owner md =? -1) && negb (cm_owner md =? requesting_thread) then 1 else 0.

(** Invalidations counted by [invalidate_sharers]. *)
Definition invalidate_sharers (requesting_thread : Z) (md : CachelineMetadata) : Z :=
  Z.of_nat (size (cm_sharers md ∖ {[requesting_thread]})) +
  (if negb (cm_owner md =? -1) && negb (cm_owner md =? requesting_thread) then 1 else 0).

(** The new metadata and the number of downgrades. *)
Definition handle_read_coherency (thread_id : Z) (md : CachelineMetadata) : CachelineMetadata * Z :=
  match cm_state md with
  | Mesi.INVALID => (md_coherency Mesi.SHARED ({[thread_id]} ∪ cm_sharers md) (cm_owner md) md, 0)
  | Mesi.SHARED => (md_coherency Mesi.SHARED ({[thread_id]} ∪ cm_sharers md) (cm_owner md) md, 0)
  | Mesi.EXCLUSIVE | Mesi.MODIFIED =>
      (md_coherency Mesi.SHARED ({[thread_id]} ∪ ({[cm_owner md]} ∪ cm_sharers md)) (-1) md,
       downgrade_owner thread_id md)
  end.

(** The new metadata and the number of invalidations. *)
Definition handle_write_coherency (now thread_id : Z) (md : CachelineMetadata) : CachelineMetadata * Z :=
  match cm_state md with
  | Mesi.INVALID => (md_coherency Mesi.MODIFIED (cm_sharers md) thread_id md, 0)
  | Mesi.SHARED => (md_dirty true now (md_coherency Mesi.MODIFIED ∅ thread_id md), invalidate_sharers thread_id md)
  | Mesi.EXCLUSIVE | Mesi.MODIFIED =>
      let md' := md_coherency Mesi.MODIFIED (cm_sharers md) thread_id md in
      if negb (cm_owner md =? thread_id) then (md_dirty true now md', invalidate_sharers thread_id md)
      else (md', 0)
  end.

(** ** Back invalidation *)
Definition register_back_invalidation (line source_thread_id : Z) (dirty_data : list Z) (timestamp : Z)
    (b : gmap Z (list BackInvalidationEntry)) : gmap Z (list BackInvalidationEntry) :=
  <[line := default [] (b !! line) ++ [mkBackInvalidation line source_thread_id timestamp dirty_data]]> b.

(** The loop over the queue of a line: memory, metadata and the number of entries applied. *)
Fixpoint apply_back_invalidations (msync_ok : bool) (line : Z) (q : list BackInvalidationEntry)
    (m : SharedMemoryManager) (md : CachelineMetadata) (applied : Z) :
    option (SharedMemoryManager * CachelineMetadata * Z) :=
  match q with
  | [] => Some (m, md, applied)
  | e :: rest =>
      if cm_last_access_time md <? bi_timestamp e then
        '(ok, m1) ← write_cacheline msync_ok line (bi_dirty_data e) m;
        if (ok : bool) then apply_back_invalidations msync_ok line rest m1 (md_dirty false (bi_timestamp e) md) (applied + 1)
        else apply_back_invalidations msync_ok line rest m1 md applied
      else apply_back_invalidations msync_ok line rest m md applied
  end.

(** Whether one was applied, and the new state; the metadata is returned, not yet stored. *)
Definition check_and_apply_back_invalidations (msync_ok : bool) (line : Z) (md : CachelineMetadata) (s : MainServer) :
    option (bool * CachelineMetadata * MainServer) :=
  match ms_back_invalidations s !! line with
  | None | Some [] => Some (false, md, s)
  | Some q =>
      '(m, md', applied) ← apply_back_invalidations msync_ok line q (ms_shm s) md 0;
      Some (0 <? applied, md',
            ms_count 0 0 0 0 0 0 0 0 applied (ms_set_back (delete line (ms_back_invalidations s)) (ms_set_shm m s)))
  end.

Section Server.
Context {D : Type} `{Double D}.
Context (calculate_latency : Z -> Z -> D) (msync_ok : bool).
#[local] Open Scope double_scope.

(** ** Congestion and latency *)
Definition calculate_congestion_factor (now_ms : Z) (c : CongestionInfo) : D * CongestionInfo :=
  let c' := if 1000 <? now_ms - cg_last_reset_ms c then mkCongestion (cg_active_requests c) 0 now_ms else c in
  let factor := d_of_Z 1 ⊕ ((d_of_Z (cg_active_requests c') ⊘ d_of_Z 10) ⊗ d_lit 1 10) in
  (if 64 * 1024 * 1024 * 1024 <? cg_total_bandwidth_used c' then factor ⊗ d_lit 3 2 else factor, c').

Definition update_congestion_stats (bytes : Z) (c : CongestionInfo) : CongestionInfo :=
  mkCongestion (cg_active_requests c) (cg_total_bandwidth_used c ⊞ bytes) (cg_last_reset_ms c).

Definition calculate_total_latency (base_latency : Z) (congestion_factor : D) (had_coherency_miss : bool) (size : Z) : Z :=
  let latency := d_of_Z base_latency ⊗ congestion_factor in
  let latency := if had_coherency_miss then latency ⊕ d_of_Z 50 else latency in
  let transfer_time_ns :=
    ((d_of_Z size ⊗ d_of_Z 8) ⊘ (d_of_Z 64 ⊗ d_of_Z 1000000000)) ⊗ d_of_Z 1000000000 in
  d_to_u64 (latency ⊕ transfer_time_ns).

(** The common tail of a request that succeeded: the latency, one active request less. *)
Definition finish_request (now_ms : Z) (base_latency : D) (miss : bool) (size : Z) (s : MainServer) : Z * MainServer :=
  let '(factor, c) := calculate_congestion_factor now_ms (ms_congestion s) in
  let s1 := mkMainServer (ms_shm s) (update_congestion_stats size c) (ms_back_invalidations s) (ms_stats s) (ms_lsa_data s) in
  (calculate_total_latency (d_to_u64 base_latency) factor miss size, ms_active (-1) s1).

Definition failure : ServerResponse := mkServerResponse 1 0 0 (replicate 64 0).

(** ** Requests *)

(** The read branch of [handle_request], after the metadata was found. *)
Definition handle_read (now_ms thread_id addr size ts : Z) (md : CachelineMetadata) (s : MainServer) :
    option (ServerResponse * MainServer) :=
  let line := line_of addr in
  let base_latency := calculate_latency addr size in
  '(had_back, md1, s1) ← check_and_apply_back_invalidations msync_ok line md s;
  let miss := match cm_state md1 with
              | Mesi.EXCLUSIVE | Mesi.MODIFIED => negb (cm_owner md1 =? -1) && negb (cm_owner md1 =? thread_id)
              | _ => false
              end in
  let '(md2, down) := handle_read_coherency thread_id md1 in
  let s2 := set_metadata line md2 (ms_count 0 0 0 0 0 0 0 down 0 s1) in
  result ← read_cacheline (ms_shm s2) addr size;
  match result with
  | None => Some (failure, ms_active (-1) s2)
  | Some bytes =>
      let s3 := set_metadata line (md_access ts md2) (ms_count 1 0 0 0 0 0 0 0 0 s2) in
      let '(latency, s4) := finish_request now_ms base_latency (miss || had_back) size s3 in
      Some (mkServerResponse 0 latency 0 (bytes ++ drop (length bytes) (replicate 64 0)), s4)
  end.

Fixpoint register_all (threads : list Z) (line thread_id : Z) (dirty : list Z) (ts : Z)
    (b : gmap Z (list BackInvalidationEntry)) : gmap Z (list BackInvalidationEntry) :=
  match threads with
  | [] => b
  | t :: rest =>
      register_all rest line thread_id dirty ts
        (if negb (t =? thread_id) then register_back_invalidation line thread_id dirty ts b else b)
  end.

Definition threads_to_invalidate (thread_id : Z) (md : CachelineMetadata) : gset Z :=
  match cm_state md with
  | Mesi.SHARED => cm_sharers md
  | Mesi.EXCLUSIVE | Mesi.MODIFIED => if negb (cm_owner md =? thread_id) then {[cm_owner md]} else ∅
  | Mesi.INVALID => ∅
  end.

(** The write branch. *)
Definition handle_write (now now_ms thread_id addr ts : Z) (bs : list Z) (md : CachelineMetadata) (s : MainServer) :
    option (ServerResponse * MainServer) :=
  let line := line_of addr in
  let size := Z.of_nat (length bs) in
  let base_latency := calculate_latency addr size in
  let miss := match cm_state md with
              | Mesi.SHARED => negb (bool_decide (cm_sharers md = ∅))
              | Mesi.EXCLUSIVE | Mesi.MODIFIED => negb (cm_owner md =? thread_id)
              | Mesi.INVALID => false
              end in
  let threads := threads_to_invalidate thread_id md in
  let '(md1, inv) := handle_write_coherency now thread_id md in
  let s1 := set_metadata line md1 (ms_count 0 0 0 0 0 0 inv 0 0 s) in
  '(ok, m) ← write_cacheline msync_ok addr bs (ms_shm s1);
  let s2 := ms_set_shm m s1 in
  if negb ok then Some (failure, ms_active (-1) s2)
  else
    dirty ← read_cacheline (ms_shm s2) addr size;
    let s3 := ms_set_back (register_all (ascending threads) line thread_id (default (replicate (length bs) 0) dirty) ts
                             (ms_back_invalidations s2)) s2 in
    let s4 := set_metadata line (md_access ts md1) (ms_count 0 1 0 0 0 0 0 0 0 s3) in
    let '(latency, s5) := finish_request now_ms base_latency miss size s4 in
    Some (mkServerResponse 0 latency 0 (replicate 64 0), s5).

(** The eight bytes at the offset [cacheline_addr + addr % 64] of the data area. *)
Definition load_word (m : SharedMemoryManager) (addr : Z) : option Z :=
  bs ← mem_read addr 8 (sm_data_area m); Some (le_combine bs).

Definition store_word (addr v : Z) (m : SharedMemoryManager) : option SharedMemoryManager :=
  d ← mem_write addr (le_split 8 v) (sm_data_area m); Some (set_header_data (sm_header m) d m).

Definition md_take (thread_id ts : Z) (md : CachelineMetadata) : CachelineMetadata :=
  md_bump (md_coherency Mesi.MODIFIED ∅ thread_id (md_access ts md)).

Definition handle_atomic_request (now_ms thread_id : Z) (req : ServerRequest) (s0 : MainServer) :
    option (ServerResponse * MainServer) :=
  let addr := sq_addr req in
  let line := line_of addr in
  let base_latency := calculate_latency addr 8 in
  let '(md, m) := get_cacheline_metadata line (ms_shm s0) in
  let s := ms_active 1 (ms_set_shm m s0) in
  let done (old : Z) (extra : Z) (s' : MainServer) :=
    let '(latency, s'') := finish_request now_ms base_latency true 8 s' in
    Some (mkServerResponse 0 (latency ⊞ extra)%cint old (replicate 64 0), s'') in
  if bool_decide (sm_header m = None) then Some (failure, ms_active (-1) s)
  else if sq_op_type req =? OP_ATOMIC_FAA then
    old ← load_word m addr;
    m' ← store_word addr (old ⊞ sq_value req)%cint m;
    done old 20 (set_metadata line (md_take thread_id (sq_timestamp req) md) (ms_count 0 0 1 0 0 0 0 0 0 (ms_set_shm m' s)))
  else if sq_op_type req =? OP_ATOMIC_CAS then
    old ← load_word m addr;
    if old =? sq_expected req then
      m' ← store_word addr (sq_value req) m;
      done old 20 (set_metadata line (md_take thread_id (sq_timestamp req) md) (ms_count 0 0 0 1 1 0 0 0 0 (ms_set_shm m' s)))
    else done old 20 (set_metadata line (md_access (sq_timestamp req) md) (ms_count 0 0 0 1 0 0 0 0 0 s))
  else if sq_op_type req =? OP_FENCE then done 0 0 (ms_count 0 0 0 0 0 1 0 0 0 s)
  else Some (failure, ms_active (-1) s).

Definition handle_lsa_read (addr size : Z) (s : MainServer) : option (ServerResponse * MainServer) :=
  let clamped := Z.min size 64 in
  if (addr ⊞ clamped)%cint <=? Z.of_nat (length (ms_lsa_data s)) then
    bs ← mem_read addr clamped (ms_lsa_data s);
    Some (mkServerResponse 0 0 0 (bs ++ drop (length bs) (replicate 64 0)), s)
  else Some (failure, s).

Definition handle_lsa_write (addr size : Z) (data : list Z) (s : MainServer) : option (ServerResponse * MainServer) :=
  let clamped := Z.min size 64 in
  let new_size := (addr ⊞ clamped)%cint in
  let l := if Z.of_nat (length (ms_lsa_data s)) <? new_size
           then ms_lsa_data s ++ replicate (Z.to_nat new_size - length (ms_lsa_data s)) 0
           else ms_lsa_data s in
  l' ← mem_write addr (take (Z.to_nat clamped) data) l;
  Some (mkServerResponse 0 0 0 (replicate 64 0), ms_set_lsa l' s).

(** [handle_request].  Every operation other than the atomics, the LSA and READ is a write. *)
Definition handle_request (now now_ms thread_id : Z) (req : ServerRequest) (s : MainServer) :
    option (ServerResponse * MainServer) :=
  let op := sq_op_type req in
  let addr := sq_addr req in
  if (op =? OP_ATOMIC_FAA) || (op =? OP_ATOMIC_CAS) || (op =? OP_FENCE) then
    handle_atomic_request now_ms thread_id req s
  else if op =? OP_LSA_READ then handle_lsa_read addr (sq_size req) s
  else if op =? OP_LSA_WRITE then handle_lsa_write addr (sq_size req) (sq_data req) s
  else
    let size := if (sq_size req =? 0) || (SHM_CACHELINE_SIZE <? sq_size req) then SHM_CACHELINE_SIZE else sq_size req in
    if negb (is_valid_address (ms_shm s) addr) then Some (failure, s)
    else
      let '(md, m) := get_cacheline_metadata (line_of addr) (ms_shm s) in
      let s1 := ms_active 1 (ms_set_shm m s) in
      if op =? OP_READ then handle_read now_ms thread_id addr size (sq_timestamp req) md s1
      else handle_write now now_ms thread_id addr (sq_timestamp req) (take (Z.to_nat size) (sq_data req)) md s1.
End Server.

(** ** Metadata of a line *)
Definition metadata_of (s : MainServer) (line : Z) : CachelineMetadata :=
  default cacheline_metadata_new (sm_metadata_cache (ms_shm s) !! line).

Lemma metadata_of_set (line line' : Z) (md : CachelineMetadata) (s : MainServer) :
  metadata_of (set_metadata line md s) line' = if decide (line' = line) then md else metadata_of s line'.
Proof.
  unfold metadata_of. cbn. case_decide as E; [subst; by rewrite lookup_insert_eq|by rewrite lookup_insert_ne].
Qed.

Lemma get_metadata_spec (line : Z) (m : SharedMemoryManager) :
  exists c, get_cacheline_metadata line m =
    (default cacheline_metadata_new (sm_metadata_cache m !! line),
     mkSharedMemoryManager (sm_capacity_mb m) (sm_shm_size m) (sm_use_file_backing m) (sm_header m) (sm_data_area m) c (sm_regions m)) /\
    forall l, default cacheline_metadata_new (c !! l) = default cacheline_metadata_new (sm_metadata_cache m !! l).
Proof.
  unfold get_cacheline_metadata. destruct (sm_metadata_cache m !! line) as [md|] eqn:E.
  - exists (sm_metadata_cache m). destruct m; done.
  - eexists. split; [done|]. intros l. destruct (decide (l = line)) as [->|Hne].
    + by rewrite lookup_insert_eq, E.
    + by rewrite lookup_insert_ne.
Qed.

(** The data operations leave the header and the metadata alone. *)
Lemma write_cacheline_frame (msync_ok ok : bool) (addr : Z) (bs : list Z) (m m' : SharedMemoryManager) :
  write_cacheline msync_ok addr bs m = Some (ok, m') ->
  sm_metadata_cache m' = sm_metadata_cache m /\ sm_header m' = sm_header m.
Proof.
  unfold write_cacheline. destruct (orb _ _); [by intros [= <- <-]|]. destruct (sm_header m) as [h|] eqn:Hh; [|by intros [= <- <-]].
  destruct (sh_base_addr h =? 0).
  - destruct (write_loop _ _ _ _ _ _); cbn; [|done]. by intros [= <- <-].
  - destruct (get_cacheline_data m _) as [[p|]|]; cbn; [|by intros [= <- <-]|done].
    destruct (_ <? _); [by intros [= <- <-]|]. destruct (mem_write _ _ _); cbn; [|done]. by intros [= <- <-].
Qed.

Lemma apply_back_frame (msync_ok : bool) (line : Z) (q : list BackInvalidationEntry) (m m' : SharedMemoryManager)
    (md md' : CachelineMetadata) (k k' : Z) :
  apply_back_invalidations msync_ok line q m md k = Some (m', md', k') ->
  sm_metadata_cache m' = sm_metadata_cache m /\ cm_state md' = cm_state md /\ cm_sharers md' = cm_sharers md /\
  cm_owner md' = cm_owner md.
Proof.
  revert m md k. induction q as [|e q IH]; intros m md k; cbn; [by intros [= <- <- <-]|].
  match goal with |- context [if ?c then _ else _] => destruct c end; [|apply IH].
  destruct (write_cacheline _ _ _ _) as [[[] m1]|] eqn:E; cbn; [| |done]; intros Hq;
    apply write_cacheline_frame in E as [E _]; apply IH in Hq as (H1 & H2 & H3 & H4); cbn in *; rewrite E in H1; auto.
Qed.

(** Entries that are not newer than the last access are dropped without effect. *)
Lemma apply_back_old (msync_ok : bool) (line : Z) (q : list BackInvalidationEntry) (m : SharedMemoryManager)
    (md : CachelineMetadata) (k : Z) :
  Forall (fun e => bi_timestamp e <= cm_last_access_time md) q ->
  apply_back_invalidations msync_ok line q m md k = Some (m, md, k).
Proof.
  induction q as [|e q IH]; cbn; [done|]. intros [He Hq]%Forall_cons.
  rewrite (proj2 (Z.ltb_ge _ _)) by done. by apply IH.
Qed.

Lemma register_all_spec (threads : list Z) (line t : Z) (dirty : list Z) (ts : Z) (b : gmap Z (list BackInvalidationEntry)) :
  (forall l, l <> line -> register_all threads line t dirty ts b !! l = b !! l) /\
  (forall e, e ∈ default [] (register_all threads line t dirty ts b !! line) ->
     e ∈ default [] (b !! line) \/ bi_timestamp e = ts).
Proof.
  revert b. induction threads as [|x threads IH]; intros b; cbn; [auto|].
  destruct (negb _); [|apply IH]. destruct (IH (register_back_invalidation line t dirty ts b)) as [H1 H2].
  unfold register_back_invalidation in *. split.
  - intros l Hl. rewrite H1 by done. by rewrite lookup_insert_ne.
  - intros e He. destruct (H2 e He) as [H3|H3]; [|by right]. rewrite lookup_insert_eq in H3. cbn in H3.
    apply elem_of_app in H3 as [H3|H3]; [by left|right]. apply list_elem_of_singleton in H3. by subst.
Qed.

(** ** Coherent metadata *)

(** No line is exclusive; a modified line has an owner and no sharers, any other no owner. *)
Definition md_ok (md : CachelineMetadata) : Prop :=
  match cm_state md with
  | Mesi.INVALID => cm_sharers md = ∅ /\ cm_owner md = -1
  | Mesi.SHARED => cm_sharers md <> ∅ /\ cm_owner md = -1
  | Mesi.EXCLUSIVE => False
  | Mesi.MODIFIED => cm_sharers md = ∅ /\ 0 <= cm_owner md
  end.

Definition metadata_ok (s : MainServer) : Prop := forall line, md_ok (metadata_of s line).

Lemma md_ok_ext (md md' : CachelineMetadata) :
  cm_state md' = cm_state md -> cm_sharers md' = cm_sharers md -> cm_owner md' = cm_owner md -> md_ok md -> md_ok md'.
Proof. unfold md_ok. by intros -> -> ->. Qed.

Lemma read_coherency_ok (t : Z) (md : CachelineMetadata) : md_ok md -> md_ok (handle_read_coherency t md).1.
Proof.
  unfold md_ok, handle_read_coherency. destruct (cm_state md) eqn:E; cbn; intros Hm; try done;
    destruct Hm as [Hs Ho]; (split; [set_solver|done]).
Qed.

Lemma write_coherency_ok (now t : Z) (md : CachelineMetadata) : 0 <= t -> md_ok md -> md_ok (handle_write_coherency now t md).1.
Proof.
  unfold md_ok, handle_write_coherency. intros Ht. destruct (cm_state md) eqn:E; cbn; intros Hm; try done;
    try (by destruct Hm). destruct (negb _); cbn; by destruct Hm.
Qed.

Lemma md_take_ok (t ts : Z) (md : CachelineMetadata) : 0 <= t -> md_ok (md_take t ts md).
Proof. done. Qed.

Lemma metadata_ok_set (line : Z) (md : CachelineMetadata) (s : MainServer) :
  metadata_ok s -> md_ok md -> metadata_ok (set_metadata line md s).
Proof. intros Hs Hm l. rewrite metadata_of_set. by case_decide. Qed.

(** Only the metadata cache matters. *)
Lemma metadata_ok_ext (s s' : MainServer) :
  (forall l, metadata_of s' l = metadata_of s l) -> metadata_ok s -> metadata_ok s'.
Proof. intros E Hs l. rewrite E. apply Hs. Qed.

(** ** What each branch keeps *)
Section Branches.
Context {D : Type} `{Double D}.
Context (calculate_latency : Z -> Z -> D) (msync_ok : bool).

Definition active (s : MainServer) : Z := cg_active_requests (ms_congestion s).

Lemma finish_request_frame (now_ms : Z) (base : D) (miss : bool) (size : Z) (s : MainServer) :
  let s' := (finish_request now_ms base miss size s).2 in
  ms_shm s' = ms_shm s /\ ms_back_invalidations s' = ms_back_invalidations s /\ active s' = active s - 1.
Proof.
  unfold finish_request, calculate_congestion_factor. cbv zeta. unfold active.
  destruct (1000 <? _); cbn; auto with lia.
Qed.

(** Metadata stays coherent and the number of active requests goes down by one. *)
Definition branch_ok (s : MainServer) (r : option (ServerResponse * MainServer)) : Prop :=
  forall resp s', r = Some (resp, s') -> metadata_ok s' /\ active s' = active s - 1.

Lemma branch_finish (now_ms : Z) (base : D) (miss : bool) (size : Z) (s s1 : MainServer) (f : Z -> ServerResponse) :
  metadata_ok s1 -> active s1 = active s ->
  branch_ok s (let '(latency, s2) := finish_request now_ms base miss size s1 in Some (f latency, s2)).
Proof.
  intros Hm Ha resp s'. pose proof (finish_request_frame now_ms base miss size s1) as F. cbv zeta in F.
  destruct (finish_request _ _ _ _ _) as [lat s2]. cbn in F. destruct F as (F1 & _ & F3). intros [= <- <-].
  split; [|lia]. apply (metadata_ok_ext s1); [|done]. intros l. unfold metadata_of. by rewrite F1.
Qed.

Lemma check_back_frame (line : Z) (md md' : CachelineMetadata) (b : bool) (s s' : MainServer) :
  check_and_apply_back_invalidations msync_ok line md s = Some (b, md', s') ->
  (forall l, metadata_of s' l = metadata_of s l) /\ active s' = active s /\
  (md_ok md -> md_ok md').
Proof.
  unfold check_and_apply_back_invalidations.
  destruct (ms_back_invalidations s !! line) as [[|e q]|]; try (by intros [= <- <- <-]).
  destruct (apply_back_invalidations _ _ _ _ _ _) as [[[m md1] k]|] eqn:E; cbn; [|done]. intros [= <- <- <-].
  apply apply_back_frame in E as (E1 & E2 & E3 & E4). split; [|split; [done|by apply md_ok_ext]].
  intros l. unfold metadata_of. cbn. by rewrite E1.
Qed.

Lemma handle_read_branch (now_ms t addr size ts : Z) (md : CachelineMetadata) (s : MainServer) :
  metadata_ok s -> md_ok md -> branch_ok s (handle_read calculate_latency msync_ok now_ms t addr size ts md s).
Proof.
  intros Hs Hm resp s'. unfold handle_read. cbv zeta.
  destruct (check_and_apply_back_invalidations _ _ _ _) as [[[b md1] s1]|] eqn:E; cbn [mbind option_bind]; [|done].
  apply check_back_frame in E as (E1 & E2 & E3).
  pose proof (read_coherency_ok t md1 (E3 Hm)) as Hr. destruct (handle_read_coherency t md1) as [md2 down]. cbn in Hr.
  set (s2 := set_metadata _ md2 _).
  assert (Hs2 : metadata_ok s2) by (apply metadata_ok_set; [by apply (metadata_ok_ext s)|done]).
  destruct (read_cacheline (ms_shm s2) addr size) as [[bytes|]|]; cbn [mbind option_bind]; [| |done].
  - apply (branch_finish _ _ _ _ s _ (fun lat => mkServerResponse 0 lat 0 _)); [|done]. by apply metadata_ok_set.
  - intros [= <- <-]. split; [done|]. unfold active in *. cbn. lia.
Qed.

Lemma handle_write_branch (now now_ms t addr ts : Z) (bs : list Z) (md : CachelineMetadata) (s : MainServer) :
  0 <= t -> metadata_ok s -> md_ok md ->
  branch_ok s (handle_write calculate_latency msync_ok now now_ms t addr ts bs md s).
Proof.
  intros Ht Hs Hm resp s'. unfold handle_write. cbv zeta.
  pose proof (write_coherency_ok now t md Ht Hm) as Hw. destruct (handle_write_coherency now t md) as [md1 inv]. cbn in Hw.
  set (s1 := set_metadata _ md1 _). assert (Hs1 : metadata_ok s1) by (by apply metadata_ok_set).
  destruct (write_cacheline msync_ok addr bs (ms_shm s1)) as [[ok m]|] eqn:E; cbn [mbind option_bind]; [|done].
  apply write_cacheline_frame in E as [E _].
  assert (Hs2 : metadata_ok (ms_set_shm m s1)).
  { apply (metadata_ok_ext s1); [|done]. intros l. unfold metadata_of. cbn. by rewrite E. }
  destruct ok; cbn [negb].
  - destruct (read_cacheline _ _ _) as [dirty|]; cbn [mbind option_bind]; [|done].
    apply (branch_finish _ _ _ _ s _ (fun lat => mkServerResponse 0 lat 0 _)); [|done]. by apply metadata_ok_set.
  - intros [= <- <-]. split; [done|]. unfold active. cbn. lia.
Qed.

Lemma handle_atomic_branch (now_ms t : Z) (req : ServerRequest) (s : MainServer) :
  0 <= t -> metadata_ok s ->
  forall resp s', handle_atomic_request calculate_latency now_ms t req s = Some (resp, s') -> metadata_ok s' /\ active s' = active s.
Proof.
  intros Ht Hs resp s'. unfold handle_atomic_request. cbv zeta.
  destruct (get_metadata_spec (line_of (sq_addr req)) (ms_shm s)) as (c & -> & Hc).
  set (md := default _ _). set (m := mkSharedMemoryManager _ _ _ _ _ c _).
  assert (Hs0 : metadata_ok (ms_active 1 (ms_set_shm m s))).
  { apply (metadata_ok_ext s); [|done]. intros l. unfold metadata_of. cbn. apply Hc. }
  assert (Hmd : md_ok md) by apply (Hs (line_of (sq_addr req))).
  assert (Hstore : forall a v m', store_word a v m = Some m' -> metadata_ok (ms_set_shm m' (ms_active 1 (ms_set_shm m s)))).
  { intros a v m'. unfold store_word. destruct (mem_write _ _ _); cbn; [|done]. intros [= <-]. done. }
  assert (Hdone : forall s1 old extra, metadata_ok s1 -> active s1 = active s + 1 ->
    (let '(latency, s2) := finish_request now_ms (calculate_latency (sq_addr req) 8) true 8 s1 in
     Some (mkServerResponse 0 (wrap64 (latency + extra)) old (replicate 64 0), s2)) = Some (resp, s') ->
    metadata_ok s' /\ active s' = active s).
  { intros s1 old extra H1 H2 H3. pose proof (branch_finish now_ms (calculate_latency (sq_addr req) 8) true 8 s1 s1
      (fun lat => mkServerResponse 0 (wrap64 (lat + extra)) old (replicate 64 0)) H1 eq_refl resp s' H3) as [? ?]. split; [done|lia]. }
  destruct (bool_decide _); [intros [= <- <-]; split; [done|unfold active; cbn; lia]|].
  destruct (_ =? OP_ATOMIC_FAA).
  { destruct (load_word _ _) as [old|]; cbn [mbind option_bind]; [|done].
    destruct (store_word _ _ _) as [m'|] eqn:E; cbn [mbind option_bind]; [|done].
    apply Hdone; [|done]. apply metadata_ok_set; [by apply (Hstore _ _ m' E)|by apply md_take_ok]. }
  destruct (_ =? OP_ATOMIC_CAS).
  { destruct (load_word _ _) as [old|]; cbn [mbind option_bind]; [|done]. destruct (old =? _).
    - destruct (store_word _ _ _) as [m'|] eqn:E; cbn [mbind option_bind]; [|done].
      apply Hdone; [|done]. apply metadata_ok_set; [by apply (Hstore _ _ m' E)|by apply md_take_ok].
    - apply Hdone; [|done]. by apply metadata_ok_set. }
  destruct (_ =? OP_FENCE); [by apply Hdone|]. intros [= <- <-]. split; [done|]. unfold active. cbn. lia.
Qed.

Lemma handle_request_ok (now now_ms t : Z) (req : ServerRequest) (s : MainServer) :
  0 <= t -> metadata_ok s ->
  forall resp s', handle_request calculate_latency msync_ok now now_ms t req s = Some (resp, s') ->
    metadata_ok s' /\ active s' = active s.
Proof.
  intros Ht Hs resp s'. unfold handle_request. cbv zeta.
  destruct (_ || _ || _); [by apply handle_atomic_branch|].
  destruct (_ =? OP_LSA_READ).
  { unfold handle_lsa_read. cbv zeta. destruct (_ <=? _); [|by intros [= <- <-]].
    destruct (mem_read _ _ _); cbn; [|done]. by intros [= <- <-]. }
  destruct (_ =? OP_LSA_WRITE).
  { unfold handle_lsa_write. cbv zeta. destruct (mem_write _ _ _); cbn; [|done]. by intros [= <- <-]. }
  destruct (negb _); [by intros [= <- <-]|].
  destruct (get_metadata_spec (line_of (sq_addr req)) (ms_shm s)) as (c & -> & Hc).
  set (s1 := ms_active 1 _).
  assert (Hs1 : metadata_ok s1).
  { apply (metadata_ok_ext s); [|done]. intros l. unfold metadata_of. cbn. apply Hc. }
  assert (Ha : active s1 = active s + 1) by done. pose proof (Hs (line_of (sq_addr req))) as Hmd.
  destruct (_ =? OP_READ); intros Hr.
  - apply handle_read_branch in Hr as [? ?]; [|done|done]. split; [done|lia].
  - apply handle_write_branch in Hr as [? ?]; [|done|done|done]. split; [done|lia].
Qed.
End Branches.

(** ** Requests that cannot fail badly *)
Section Safe.
Context {D : Type} `{Double D}.
Context (calculate_latency : Z -> Z -> D) (msync_ok : bool) (hd : SharedMemoryHeader).

Lemma apply_back_safe (line : Z) (q : list BackInvalidationEntry) (m : SharedMemoryManager) (md : CachelineMetadata) (k : Z) :
  shm_ok m hd -> u64 line ->
  exists m' md' k', apply_back_invalidations msync_ok line q m md k = Some (m', md', k') /\ shm_ok m' hd.
Proof.
  revert m md k. induction q as [|e q IH]; intros m md k Hm Hl; cbn; [by eexists _, _, _|].
  destruct (cm_last_access_time md <? bi_timestamp e); [|by apply IH].
  destruct (write_total msync_ok m hd line (bi_dirty_data e) Hm Hl) as (r & m' & -> & Hm' & _). cbn [mbind option_bind].
  destruct r; by apply IH.
Qed.

Lemma check_back_safe (line : Z) (md : CachelineMetadata) (s : MainServer) :
  shm_ok (ms_shm s) hd -> u64 line ->
  exists b md' s', check_and_apply_back_invalidations msync_ok line md s = Some (b, md', s') /\ shm_ok (ms_shm s') hd.
Proof.
  intros Hs Hl. unfold check_and_apply_back_invalidations.
  destruct (ms_back_invalidations s !! line) as [[|e q]|]; [by eexists _, _, _| |by eexists _, _, _].
  destruct (apply_back_safe line (e :: q) (ms_shm s) md 0 Hs Hl) as (m' & md' & k' & -> & Hm). by eexists _, _, _.
Qed.

Lemma finish_safe (now_ms : Z) (base : D) (miss : bool) (size : Z) (s : MainServer) (f : Z -> ServerResponse) :
  shm_ok (ms_shm s) hd ->
  exists resp s', (let '(latency, s1) := finish_request now_ms base miss size s in Some (f latency, s1)) = Some (resp, s') /\
    shm_ok (ms_shm s') hd.
Proof.
  intros Hs. pose proof (finish_request_frame now_ms base miss size s) as F. cbv zeta in F.
  destruct (finish_request _ _ _ _ _) as [lat s1]. cbn in F. eexists _, _. split; [done|]. by rewrite (proj1 F).
Qed.

(** Reads, writes and fences always get a response, and the mapping stays well-formed. *)
Lemma handle_request_safe (now now_ms t : Z) (req : ServerRequest) (s : MainServer) :
  shm_ok (ms_shm s) hd -> u64 (sq_addr req) -> 0 <= sq_size req ->
  sq_op_type req = OP_READ \/ sq_op_type req = OP_WRITE \/ sq_op_type req = OP_FENCE ->
  exists resp s', handle_request calculate_latency msync_ok now now_ms t req s = Some (resp, s') /\ shm_ok (ms_shm s') hd.
Proof.
  intros Hs Ha Hsz Hop. unfold handle_request, handle_atomic_request. cbv zeta.
  assert (Hl : u64 (line_of (sq_addr req))).
  { unfold u64 in *. pose proof (line_of_le (sq_addr req)). pose proof (line_of_nonneg (sq_addr req)). lia. }
  destruct (get_metadata_spec (line_of (sq_addr req)) (ms_shm s)) as (c & -> & _).
  set (m := mkSharedMemoryManager _ _ _ _ _ c _). assert (Hm : shm_ok m hd) by done.
  set (size := if (_ || _) then SHM_CACHELINE_SIZE else sq_size req).
  assert (Hsize : 0 <= size) by (unfold size, SHM_CACHELINE_SIZE; destruct (_ || _); lia).
  destruct Hop as [-> | [-> | ->]]; cbn [Z.eqb orb OP_READ OP_WRITE OP_FENCE OP_ATOMIC_FAA OP_ATOMIC_CAS OP_LSA_READ OP_LSA_WRITE Pos.eqb].
  - destruct (negb _); [by eexists _, _|]. unfold handle_read. cbv zeta.
    destruct (check_back_safe (line_of (sq_addr req)) (default cacheline_metadata_new (sm_metadata_cache (ms_shm s) !! line_of (sq_addr req)))
      (ms_active 1 (ms_set_shm m s)) Hm Hl) as (b & md' & s1 & -> & H1). cbn [mbind option_bind].
    destruct (handle_read_coherency t md') as [md2 down]. set (s2 := set_metadata _ md2 _).
    destruct (read_total (ms_shm s2) hd (sq_addr req) size H1 Ha Hsize) as (r & -> & _). cbn [mbind option_bind].
    destruct r as [bytes|]; [|by eexists _, _]. by apply (finish_safe _ _ _ _ _ (fun lat => mkServerResponse 0 lat 0 _)).
  - destruct (negb _); [by eexists _, _|]. unfold handle_write. cbv zeta.
    destruct (handle_write_coherency _ _ _) as [md1 inv]. set (s1 := set_metadata _ md1 _).
    destruct (write_total msync_ok (ms_shm s1) hd (sq_addr req) (take (Z.to_nat size) (sq_data req)) Hm Ha) as (r & m' & -> & Hm' & _).
    cbn [mbind option_bind]. destruct r; cbn [negb]; [|by eexists _, _].
    destruct (read_total m' hd (sq_addr req) (Z.of_nat (length (take (Z.to_nat size) (sq_data req)))) Hm' Ha) as (r & E & _); [lia|].
    cbn [ms_shm ms_set_shm]. rewrite E. cbn [mbind option_bind].
    by apply (finish_safe _ _ _ _ _ (fun lat => mkServerResponse 0 lat 0 _)).
  - rewrite bool_decide_eq_false_2 by (rewrite (proj1 Hm); done). cbn [Pos.eqb].
    by apply (finish_safe _ _ _ _ _ (fun lat => mkServerResponse 0 (lat ⊞ 0) 0 _)).
Qed.
End Safe.

(** ** Requests in the order of their timestamps *)

(** No back invalidation is newer than the last access of its line. *)
Definition pending_old (s : MainServer) : Prop :=
  forall line, Forall (fun e => bi_timestamp e <= cm_last_access_time (metadata_of s line))
                 (default [] (ms_back_invalidations s !! line)).

(** The request is not older than the last access of its line. *)
Definition in_order (s : MainServer) (req : ServerRequest) : Prop :=
  cm_last_access_time (metadata_of s (line_of (sq_addr req))) <= sq_timestamp req.

(** No line was accessed after [t0] unless it had been before, [t0] being [ts] or later. *)
Definition accessed_before (ts : Z) (s s' : MainServer) : Prop :=
  forall line t0, ts <= t0 -> cm_last_access_time (metadata_of s line) <= t0 -> cm_last_access_time (metadata_of s' line) <= t0.

Lemma check_back_old (msync_ok : bool) (line : Z) (md : CachelineMetadata) (s : MainServer) :
  Forall (fun e => bi_timestamp e <= cm_last_access_time md) (default [] (ms_back_invalidations s !! line)) ->
  exists s', check_and_apply_back_invalidations msync_ok line md s = Some (false, md, s') /\
    ms_shm s' = ms_shm s /\ ms_congestion s' = ms_congestion s /\ default [] (ms_back_invalidations s' !! line) = [] /\
    (forall l, l <> line -> ms_back_invalidations s' !! l = ms_back_invalidations s !! l).
Proof.
  intros Hold. unfold check_and_apply_back_invalidations.
  destruct (ms_back_invalidations s !! line) as [[|e q]|] eqn:E.
  - exists s. by rewrite E.
  - cbn in Hold. rewrite apply_back_old by done. cbn [mbind option_bind]. eexists. split; [done|]. cbn.
    rewrite lookup_delete_eq. split_and!; try done. intros l Hl. by rewrite lookup_delete_ne.
  - exists s. by rewrite E.
Qed.

(** Replace the tail of a request by what is known of it. *)
Ltac use_finish lat s' :=
  match goal with
  | |- context [finish_request ?a ?b ?c ?d ?e] =>
      let F := fresh "F" in
      pose proof (finish_request_frame a b c d e) as F; cbv zeta in F;
      destruct (finish_request a b c d e) as [lat s']; cbn [snd] in F; destruct F as (? & ? & ?)
  end.

Section InOrder.
Context {D : Type} `{Double D}.
Context (calculate_latency : Z -> Z -> D).

(** The metadata pointer of a request: the state with the entry created and one more active request. *)
Lemma request_entry (line : Z) (s : MainServer) :
  exists s1, (let '(md, m) := get_cacheline_metadata line (ms_shm s) in (md, ms_active 1 (ms_set_shm m s))) = (metadata_of s line, s1) /\
    (forall l, metadata_of s1 l = metadata_of s l) /\ sm_header (ms_shm s1) = sm_header (ms_shm s) /\
    sm_data_area (ms_shm s1) = sm_data_area (ms_shm s) /\ ms_back_invalidations s1 = ms_back_invalidations s.
Proof.
  destruct (get_metadata_spec line (ms_shm s)) as (c & -> & Hc). eexists. split; [done|]. split_and!; try done.
Qed.

Lemma handle_read_old (msync_ok : bool) (now_ms t addr size ts : Z) (hd : SharedMemoryHeader) (s : MainServer) :
  shm_ok (ms_shm s) hd -> u64 addr -> served hd addr size -> pending_old s ->
  cm_last_access_time (metadata_of s (line_of addr)) <= ts ->
  exists lat s', handle_read calculate_latency msync_ok now_ms t addr size ts (metadata_of s (line_of addr)) s =
      Some (mkServerResponse 0 lat 0 (let bytes := byte_at (ms_shm s) hd <$> addrs addr size in
                                      bytes ++ drop (length bytes) (replicate 64 0)), s') /\
    sm_header (ms_shm s') = sm_header (ms_shm s) /\ sm_data_area (ms_shm s') = sm_data_area (ms_shm s) /\ pending_old s' /\
    accessed_before ts s s'.
Proof.
  intros Hok Ha Hsv Hp Hts. unfold handle_read. cbv zeta.
  destruct (check_back_old msync_ok (line_of addr) (metadata_of s (line_of addr)) s (Hp _)) as (s1 & -> & E1 & _ & E2 & E3).
  cbn [mbind option_bind]. destruct (handle_read_coherency t _) as [md2 down] eqn:Er.
  set (s2 := set_metadata _ md2 _).
  assert (Hok2 : shm_ok (ms_shm s2) hd) by (unfold s2, shm_ok; cbn; by rewrite E1).
  rewrite (read_cacheline_served (ms_shm s2) hd addr size Hok2 Ha Hsv). cbn [mbind option_bind].
  assert (Hb : byte_at (ms_shm s2) hd = byte_at (ms_shm s) hd) by (unfold byte_at, s2; cbn; by rewrite E1).
  rewrite Hb. set (s3 := set_metadata _ (md_access ts md2) _).
  use_finish lat s4. rename H0 into F1, H1 into F2.
  assert (forall line, line <> line_of addr -> metadata_of s4 line = metadata_of s line) as Hmd.
  { intros line Hne. unfold metadata_of. rewrite F1. cbn. rewrite !lookup_insert_ne by done. by rewrite E1. }
  exists lat, s4. split; [done|]. rewrite F1. cbn. rewrite E1. do 2 (split; [done|]). split.
  - intros line. rewrite F2. destruct (decide (line = line_of addr)) as [->|Hne].
    + cbn. rewrite E2. constructor.
    + cbn. rewrite E3, Hmd by done. apply Hp.
  - intros line t0 Ht0 Hold. destruct (decide (line = line_of addr)) as [->|Hne]; [|by rewrite Hmd].
    unfold metadata_of. rewrite F1. cbn. by rewrite lookup_insert_eq.
Qed.

Lemma handle_write_old (now now_ms t addr ts : Z) (bs : list Z) (hd : SharedMemoryHeader) (s : MainServer) :
  shm_ok (ms_shm s) hd -> u64 addr -> served hd addr (Z.of_nat (length bs)) -> pending_old s ->
  cm_last_access_time (metadata_of s (line_of addr)) <= ts ->
  exists lat s', handle_write calculate_latency true now now_ms t addr ts bs (metadata_of s (line_of addr)) s =
      Some (mkServerResponse 0 lat 0 (replicate 64 0), s') /\
    sm_header (ms_shm s') = sm_header (ms_shm s) /\
    stored hd addr bs (sm_data_area (ms_shm s)) (sm_data_area (ms_shm s')) /\ pending_old s' /\ accessed_before ts s s'.
Proof.
  intros Hok Ha Hsv Hp Hts. unfold handle_write. cbv zeta.
  destruct (handle_write_coherency now t _) as [md1 inv] eqn:Ew. set (s1 := set_metadata _ md1 _).
  assert (Hok1 : shm_ok (ms_shm s1) hd) by done.
  destruct (write_cacheline_served true (ms_shm s1) hd addr bs Hok1 Ha Hsv) as (d & -> & Hd). cbn [mbind option_bind negb].
  set (s2 := ms_set_shm _ s1).
  assert (Hok2 : shm_ok (ms_shm s2) hd) by (apply shm_ok_write; [done|apply Hd]).
  rewrite (read_cacheline_served (ms_shm s2) hd addr _ Hok2 Ha Hsv). cbn [mbind option_bind].
  set (dirty := default _ _). set (ths := threads_to_invalidate _ _).
  set (s4 := set_metadata _ (md_access ts md1) _).
  use_finish lat s5. rename H0 into F1, H1 into F2.
  exists lat, s5. split; [done|]. rewrite F1. split; [cbn; symmetry; apply Hok|]. split; [done|].
  destruct (register_all_spec (ascending ths) (line_of addr) t dirty ts (ms_back_invalidations s)) as [R1 R2]. split.
  2: { intros line t0 Ht0. unfold metadata_of. rewrite F1. cbn. destruct (decide (line = line_of addr)) as [->|Hne];
         [by rewrite lookup_insert_eq|by rewrite !lookup_insert_ne by done]. }
  intros line. rewrite F2. unfold metadata_of. rewrite F1.
  cbn [s4 set_metadata ms_set_shm ms_count ms_set_back ms_back_invalidations ms_shm sm_metadata_cache].
  destruct (decide (line = line_of addr)) as [->|Hne].
  - rewrite lookup_insert_eq. cbn [default from_option md_access cm_last_access_time]. apply Forall_forall. intros e He.
    destruct (R2 e) as [Ho|Ho]; [done| |by rewrite Ho].
    pose proof (proj1 (Forall_forall _ _) (Hp (line_of addr)) e Ho). unfold id. cbn in *. lia.
  - rewrite lookup_insert_ne by done. change (ms_back_invalidations s2) with (ms_back_invalidations s). rewrite R1 by done.
    cbn. rewrite lookup_insert_ne by done. apply Hp.
Qed.
End InOrder.

(** ** Runs *)
Record client_request := mkClientRequest { cr_now : Z; cr_now_ms : Z; cr_thread : Z; cr_request : ServerRequest }.

(** What a client gets for a request. *)
Inductive client_reply :=
| Disconnected
| ShmInfo (base size num_cachelines : Z)
| Reply (resp : ServerResponse).

(** One round of [handle_client] on a complete request: unknown operations end the connection,
    the size is clamped to the data field. *)
Definition client_round {D} `{Double D} (calculate_latency : Z -> Z -> D) (msync_ok : bool) (r : client_request)
    (s : MainServer) : option (client_reply * MainServer) :=
  let req := cr_request r in
  if OP_LSA_WRITE <? sq_op_type req then Some (Disconnected, s)
  else if sq_op_type req =? OP_GET_SHM_INFO then
    Some (ShmInfo (shm_info_base (ms_shm s)) (shm_info_size (ms_shm s)) (shm_info_cachelines (ms_shm s)), s)
  else
    let req' := mkServerRequest (sq_op_type req) (sq_addr req) (Z.min (sq_size req) 64) (sq_timestamp req) (sq_value req)
                  (sq_expected req) (sq_data req) in
    '(resp, s') ← handle_request calculate_latency msync_ok (cr_now r) (cr_now_ms r) (cr_thread r) req' s;
    Some (Reply resp, s').

(** Requests of all clients in the order in which they take the memory lock. *)
Fixpoint main_run {D} `{Double D} (calculate_latency : Z -> Z -> D) (msync_ok : bool) (rs : list client_request)
    (s : MainServer) : option MainServer :=
  match rs with
  | [] => Some s
  | r :: rest =>
      '(_, s1) ← client_round calculate_latency msync_ok r s;
      main_run calculate_latency msync_ok rest s1
  end.

(** The server as its constructor leaves it, over an initialised memory manager. *)
Definition main_new (m : SharedMemoryManager) (now_ms : Z) (lsa : list Z) : MainServer :=
  mkMainServer m (mkCongestion 0 0 now_ms) ∅ (mkMainStats 0 0 0 0 0 0 0 0 0) lsa.

Lemma client_round_ok {D} `{Double D} (calculate_latency : Z -> Z -> D) (msync_ok : bool) (r : client_request)
    (s s' : MainServer) (reply : client_reply) :
  0 <= cr_thread r -> metadata_ok s -> client_round calculate_latency msync_ok r s = Some (reply, s') ->
  metadata_ok s' /\ active s' = active s.
Proof.
  intros Ht Hs. unfold client_round. cbv zeta. destruct (_ <? _); [by intros [= <- <-]|].
  destruct (_ =? OP_GET_SHM_INFO); [by intros [= <- <-]|].
  destruct (handle_request _ _ _ _ _ _ _) as [[resp s1]|] eqn:E; cbn [mbind option_bind]; [|done]. intros [= <- <-].
  by apply handle_request_ok in E.
Qed.

Lemma main_run_ok {D} `{Double D} (calculate_latency : Z -> Z -> D) (msync_ok : bool) (rs : list client_request)
    (s s' : MainServer) :
  Forall (fun r => 0 <= cr_thread r) rs -> metadata_ok s -> main_run calculate_latency msync_ok rs s = Some s' ->
  metadata_ok s' /\ active s' = active s.
Proof.
  revert s. induction rs as [|r rs IH]; intros s Ht Hs; cbn; [by intros [= <-]|]. apply Forall_cons in Ht as [Hr Ht].
  destruct (client_round _ _ _ _) as [[reply s1]|] eqn:E; cbn [mbind option_bind]; [|done]. intros Hrun.
  apply client_round_ok in E as [E1 E2]; [|done|done]. apply IH in Hrun as [H1 H2]; [|done|done].
  split; [done|congruence].
Qed.

(** The metadata of a line as a directory entry of the protocol. *)
Definition mesi_state (st : Mesi.CoherencyState) : MHSLDCacheState :=
  match st with
  | Mesi.INVALID => INVALID
  | Mesi.SHARED => SHARED
  | Mesi.EXCLUSIVE => EXCLUSIVE
  | Mesi.MODIFIED => MODIFIED
  end.

#[global] Instance metadata_line : MoesiLine CachelineMetadata := {
  ml_state md := mesi_state (cm_state md);
  ml_owner := cm_owner;
  ml_sharers := cm_sharers
}.

Lemma md_ok_coherent (md : CachelineMetadata) : md_ok md -> line_coherent md.
Proof.
  unfold md_ok, line_coherent. cbn [ml_state ml_owner ml_sharers metadata_line].
  destruct (cm_state md); cbn; tauto.
Qed.

(** ** Theorems *)

(** C6. The memory server is coherent: whatever sequence of requests its threads send to a server
    that starts without metadata, successful or not, two threads never hold a line in
    incompatible states, a modified line has exactly its owner, and the count of active
    requests returns to where it was. *)
Theorem main_coherent {D} `{Double D} (calculate_latency : Z -> Z -> D) (msync_ok : bool) (rs : list client_request)
  (m : SharedMemoryManager) (now_ms : Z) (lsa : list Z) (s : MainServer)
  (Hnew : sm_metadata_cache m = ∅) (Ht : Forall (fun r => 0 <= cr_thread r) rs)
  (Hrun : main_run calculate_latency msync_ok rs (main_new m now_ms lsa) = Some s) :
  (forall line n k, n <> k -> compatible (node_view (metadata_of s line) n) (node_view (metadata_of s line) k) = true) /\
  (forall line, cm_state (metadata_of s line) = Mesi.MODIFIED ->
     node_view (metadata_of s line) (cm_owner (metadata_of s line)) = MODIFIED /\ cm_sharers (metadata_of s line) = ∅) /\
  cg_active_requests (ms_congestion s) = 0.
Proof.
  assert (H0 : metadata_ok (main_new m now_ms lsa)).
  { intros line. unfold metadata_of. cbn. by rewrite Hnew. }
  destruct (main_run_ok _ _ _ _ _ Ht H0 Hrun) as [Hok Ha]. split_and!.
  - intros line n k Hne. apply line_compatible; [|done]. apply md_ok_coherent, Hok.
  - intros line Hm. pose proof (Hok line) as Ho. unfold md_ok in Ho. rewrite Hm in Ho. split; [|apply Ho].
    pose proof (node_view_owner (metadata_of s line)) as V. cbn [ml_state ml_owner metadata_line] in V.
    rewrite Hm in V. by apply V.
  - exact Ha.
Qed.

Lemma request_serves_memory {D} `{Double D} (calculate_latency : Z -> Z -> D) (now now_ms t : Z) (req : ServerRequest)
  (s : MainServer) (hd : SharedMemoryHeader)
  (Hok : shm_ok (ms_shm s) hd) (Ha : u64 (sq_addr req)) (Hv : is_valid_address (ms_shm s) (sq_addr req) = true)
  (Hz : served hd (sq_addr req) (sq_size req)) (Hd : length (sq_data req) = 64%nat)
  (Hp : pending_old s) (Ho : in_order s req) :
  (sq_op_type req = OP_READ ->
     exists lat s', handle_request calculate_latency true now now_ms t req s =
         Some (mkServerResponse 0 lat 0 (let bytes := byte_at (ms_shm s) hd <$> addrs (sq_addr req) (sq_size req) in
                                         bytes ++ drop (length bytes) (replicate 64 0)), s') /\
       sm_header (ms_shm s') = sm_header (ms_shm s) /\ sm_data_area (ms_shm s') = sm_data_area (ms_shm s) /\ pending_old s' /\
       accessed_before (sq_timestamp req) s s') /\
  (sq_op_type req = OP_WRITE ->
     exists lat s', handle_request calculate_latency true now now_ms t req s =
         Some (mkServerResponse 0 lat 0 (replicate 64 0), s') /\
       sm_header (ms_shm s') = sm_header (ms_shm s) /\
       stored hd (sq_addr req) (take (Z.to_nat (sq_size req)) (sq_data req)) (sm_data_area (ms_shm s)) (sm_data_area (ms_shm s')) /\
       pending_old s' /\ accessed_before (sq_timestamp req) s s').
Proof.
  pose proof (proj1 Hz) as Hsz.
  assert (Hclamp : (if (sq_size req =? 0) || (SHM_CACHELINE_SIZE <? sq_size req) then SHM_CACHELINE_SIZE else sq_size req) = sq_size req).
  { unfold SHM_CACHELINE_SIZE. destruct (orb _ _) eqn:E; [|done]. apply orb_true_iff in E as [E|E]; zify_bool; lia. }
  destruct (request_entry (line_of (sq_addr req)) s) as (s1 & E1 & M1 & H1 & D1 & B1).
  assert (Hok1 : shm_ok (ms_shm s1) hd) by (unfold shm_ok in *; by rewrite H1, D1).
  assert (Hp1 : pending_old s1) by (intros line; rewrite B1, M1; apply Hp).
  unfold in_order in Ho. rewrite <- M1 in Ho. split; intros Hop; unfold handle_request; cbv zeta; rewrite Hop; cbn [Z.eqb orb];
    rewrite Hclamp, Hv; cbn [negb]; destruct (get_cacheline_metadata _ _) as [md m]; injection E1 as E1 E2;
    rewrite E1, E2, <- M1; clear E1 E2.
  - destruct (handle_read_old calculate_latency true now_ms t _ _ _ hd s1 Hok1 Ha Hz Hp1 Ho) as (lat & s' & E & Q1 & Q2 & Q3 & Q4).
    exists lat, s'. rewrite <- D1, <- H1. split_and!; try done; [|intros line t0 Ht Hl; apply Q4; [done|by rewrite M1]].
    cbn. rewrite E. unfold byte_at. by rewrite D1.
  - destruct (handle_write_old calculate_latency now now_ms t (sq_addr req) (sq_timestamp req)
      (take (Z.to_nat (sq_size req)) (sq_data req)) hd s1 Hok1 Ha) as (lat & s' & E & Q1 & Q2 & Q3 & Q4); [|done|done|].
    { rewrite length_take_le by lia. by rewrite Z2Nat.id by lia. }
    exists lat, s'. rewrite <- D1, <- H1. split_and!; try done. intros line t0 Ht Hl. apply Q4; [done|by rewrite M1].
Qed.

(** C5. With requests in the order of their timestamps the server is a memory: a read returns the
    bytes of its addresses and changes none, a write changes exactly its addresses; the
    queued back invalidations stay without effect. *)
Theorem main_serves_memory {D} `{Double D} (calculate_latency : Z -> Z -> D) (now now_ms t : Z) (req : ServerRequest)
  (s : MainServer) (hd : SharedMemoryHeader)
  (Hok : shm_ok (ms_shm s) hd) (Ha : u64 (sq_addr req)) (Hv : is_valid_address (ms_shm s) (sq_addr req) = true)
  (Hz : served hd (sq_addr req) (sq_size req)) (Hd : length (sq_data req) = 64%nat)
  (Hp : pending_old s) (Ho : in_order s req) :
  (sq_op_type req = OP_READ ->
     exists lat s', handle_request calculate_latency true now now_ms t req s =
         Some (mkServerResponse 0 lat 0 (let bytes := byte_at (ms_shm s) hd <$> addrs (sq_addr req) (sq_size req) in
                                         bytes ++ drop (length bytes) (replicate 64 0)), s') /\
       sm_header (ms_shm s') = sm_header (ms_shm s) /\ sm_data_area (ms_shm s') = sm_data_area (ms_shm s) /\ pending_old s') /\
  (sq_op_type req = OP_WRITE ->
     exists lat s', handle_request calculate_latency true now now_ms t req s =
         Some (mkServerResponse 0 lat 0 (replicate 64 0), s') /\
       sm_header (ms_shm s') = sm_header (ms_shm s) /\
       stored hd (sq_addr req) (take (Z.to_nat (sq_size req)) (sq_data req)) (sm_data_area (ms_shm s)) (sm_data_area (ms_shm s')) /\
       pending_old s').
Proof.
  destruct (request_serves_memory calculate_latency now now_ms t req s hd Hok Ha Hv Hz Hd Hp Ho) as [Hr Hw].
  split; intros Hop; [destruct (Hr Hop) as (lat & s' & ?)|destruct (Hw Hop) as (lat & s' & ?)]; exists lat, s'; tauto.
Qed.

(** Atomics ignore the base address: they access the data area at the offset of the address
    itself.  With a base beyond the size of the data area every atomic on a valid address
    is an access outside the mapping. *)
Theorem main_atomic_ignores_base {D} `{Double D} (calculate_latency : Z -> Z -> D) (msync_ok : bool) (now now_ms t : Z)
  (req : ServerRequest) (s : MainServer) (hd : SharedMemoryHeader)
  (Hh : sm_header (ms_shm s) = Some hd) (Hb : Z.of_nat (length (sm_data_area (ms_shm s))) <= sh_base_addr hd)
  (Hpos : 0 < sh_base_addr hd) (Hv : is_valid_address (ms_shm s) (sq_addr req) = true)
  (Hop : sq_op_type req = OP_ATOMIC_FAA \/ sq_op_type req = OP_ATOMIC_CAS) :
  handle_request calculate_latency msync_ok now now_ms t req s = None.
Proof.
  assert (Hr : sh_base_addr hd <= sq_addr req).
  { unfold is_valid_address in Hv. rewrite Hh, (proj2 (Z.eqb_neq _ _)) in Hv by lia. zify_bool. lia. }
  unfold handle_request, handle_atomic_request. cbv zeta.
  destruct (get_metadata_spec (line_of (sq_addr req)) (ms_shm s)) as (c & -> & _).
  assert (Hl : load_word (mkSharedMemoryManager (sm_capacity_mb (ms_shm s)) (sm_shm_size (ms_shm s)) (sm_use_file_backing (ms_shm s))
      (sm_header (ms_shm s)) (sm_data_area (ms_shm s)) c (sm_regions (ms_shm s))) (sq_addr req) = None).
  { unfold load_word, mem_read. cbn [sm_data_area]. rewrite decide_False by lia. done. }
  cbn [sm_header]. rewrite bool_decide_eq_false_2 by (rewrite Hh; done).
  destruct Hop as [-> | ->]; cbn [Z.eqb orb OP_ATOMIC_FAA OP_ATOMIC_CAS OP_FENCE Pos.eqb]; by rewrite Hl.
Qed.

(** A server over four lines. *)
Definition demo_main (base : Z) : MainServer := main_new (demo_shm base) 0 (replicate 64 0).

Definition demo_request (op addr size ts : Z) (data : list Z) : ServerRequest :=
  mkServerRequest op addr size ts 1 0 (data ++ drop (length data) (replicate 64 0)).

Definition demo_latency (_ _ : Z) : spec_float := d_of_Z 0.

(** Back invalidation corrupts memory when timestamps go back: thread 1 reads line 0, thread 2
    writes eight bytes at address 8 with timestamp 100 and then at address 16 with timestamp
    50.  The read that follows applies the queued bytes at the start of the line: it returns,
    and leaves in memory, sevens at addresses 0 to 7, which nobody wrote. *)
Theorem main_back_invalidation_corrupts :
  let client t ts req := mkClientRequest ts 0 t req in
  exists s resp s',
    main_run demo_latency true
      [client 1 1 (demo_request OP_READ 0 8 1 []);
       client 2 100 (demo_request OP_WRITE 8 8 100 (replicate 8 7));
       client 2 50 (demo_request OP_WRITE 16 8 50 (replicate 8 5))] (demo_main 0) = Some s /\
    read_cacheline (ms_shm s) 0 8 = Some (Some (replicate 8 0)) /\
    handle_request demo_latency true 60 0 1 (demo_request OP_READ 0 8 60 []) s = Some (resp, s') /\
    take 8 (sp_data resp) = replicate 8 7 /\ read_cacheline (ms_shm s') 0 8 = Some (Some (replicate 8 7)).
Proof.
  cbv zeta. eexists _, _, _. split; [vm_compute; reflexivity|]. split; [vm_compute; reflexivity|].
  split; [vm_compute; reflexivity|]. split; vm_compute; reflexivity.
Qed.

Lemma main_coherent_witness :
  exists s, main_run demo_latency true
      [mkClientRequest 1 0 1 (demo_request OP_READ 0 8 1 []); mkClientRequest 2 0 2 (demo_request OP_WRITE 8 8 2 (replicate 8 7))]
      (demo_main 0) = Some s /\
    compatible (node_view (metadata_of s 0) 1) (node_view (metadata_of s 0) 2) = true.
Proof.
  destruct (main_run demo_latency true
      [mkClientRequest 1 0 1 (demo_request OP_READ 0 8 1 []); mkClientRequest 2 0 2 (demo_request OP_WRITE 8 8 2 (replicate 8 7))]
      (demo_main 0)) as [s|] eqn:E; [|vm_compute in E; discriminate E].
  exists s. split; [reflexivity|].
  apply (main_coherent demo_latency true
      [mkClientRequest 1 0 1 (demo_request OP_READ 0 8 1 []); mkClientRequest 2 0 2 (demo_request OP_WRITE 8 8 2 (replicate 8 7))]
      (demo_shm 0) 0 (replicate 64 0) s).
  - reflexivity.
  - repeat constructor; cbn; lia.
  - exact E.
  - lia.
Defined.

Lemma main_serves_memory_witness :
  exists lat s', handle_request demo_latency true 5 0 1 (demo_request OP_WRITE 4100 3 7 [1; 2; 3]) (demo_main 4096) =
      Some (mkServerResponse 0 lat 0 (replicate 64 0), s') /\
    stored (demo_header 4096) 4100 [1; 2; 3] (replicate 256 0) (sm_data_area (ms_shm s')).
Proof.
  destruct (main_serves_memory demo_latency 5 0 1 (demo_request OP_WRITE 4100 3 7 [1; 2; 3]) (demo_main 4096) (demo_header 4096))
    as [_ H].
  - apply demo_shm_ok. lia.
  - unfold u64. cbn. lia.
  - reflexivity.
  - apply (bool_decide_unpack _). vm_compute. exact I.
  - reflexivity.
  - intros line. cbn. rewrite lookup_empty. constructor.
  - vm_compute. discriminate.
  - destruct (H eq_refl) as (lat & s' & E & _ & S & _). exists lat, s'. split; [exact E|exact S].
Defined.

Lemma main_atomic_ignores_base_witness :
  is_valid_address (demo_shm 4096) 4104 = true /\
  handle_request demo_latency true 5 0 1 (demo_request OP_ATOMIC_FAA 4104 8 7 []) (demo_main 4096) = None.
Proof.
  split; [reflexivity|].
  apply (main_atomic_ignores_base demo_latency true 5 0 1 (demo_request OP_ATOMIC_FAA 4104 8 7 []) (demo_main 4096) (demo_header 4096)).
  - reflexivity.
  - cbn. lia.
  - cbn. lia.
  - reflexivity.
  - left. reflexivity.
Defined.
