(* ===== verification/LruCache.v ===== *)
(** * Recency caches ([LRUCache] of [include/cxlcontroller.h], [TLBCache] of [include/policy.h])

    Both caches keep a [std::list] in order of use and an index from each key to its list node.
    The list is modelled with the identity of its nodes: an iterator is the name of a node, and
    erasing through an iterator whose node is gone is undefined ([None]), as is [back] on an
    empty list.  [recency] is what both promise: a bounded list of bindings, most recent first;
    [lru_refines], [tlb_lookup_refines] and [tlb_insert_refines] show that they keep it. *)
From S2P Require Import Prelude.
#[local] Open Scope Z_scope.

(** ** [std::list<uint64_t>] with stable iterators

    A node is a name and an element; a new node gets a name that was never used. *)
Record StdList := mkStdList {
  sl_nodes : list (Z * Z);
  sl_fresh : Z
}.

Definition sl_empty : StdList := mkStdList [] 0.

Definition sl_begin (l : StdList) : Z := default 0 (fst <$> head (sl_nodes l)).

Definition sl_push_front (k : Z) (l : StdList) : StdList :=
  mkStdList ((sl_fresh l, k) :: sl_nodes l) (sl_fresh l + 1).

Definition sl_erase (it : Z) (l : StdList) : option StdList :=
  if decide (it ∈ (sl_nodes l).*1)
  then Some (mkStdList (filter (fun p => p.1 <> it) (sl_nodes l)) (sl_fresh l)) else None.

Definition sl_back (l : StdList) : option Z := snd <$> last (sl_nodes l).

Definition sl_pop_back (l : StdList) : StdList := mkStdList (removelast (sl_nodes l)) (sl_fresh l).

Definition sl_keys (l : StdList) : list Z := (sl_nodes l).*2.

(** ** The LRU cache of the controller *)
Record LRUCacheEntry := mkLRUCacheEntry {
  le_key : Z;
  le_value : Z;
  le_timestamp : Z
}.

Record LRUCache := mkLRUCache {
  lc_capacity : Z;                        (* int *)
  lc_cache : gmap Z LRUCacheEntry;
  lc_lru_list : StdList;
  lc_lru_map : gmap Z Z
}.

Definition lru_new (size : Z) : LRUCache := mkLRUCache size ∅ sl_empty ∅.

(** [cache.size() >= capacity] compares in [size_t]. *)
Definition lru_full (c : LRUCache) : bool := wrap64 (lc_capacity c) <=? Z.of_nat (size (lc_cache c)).

Definition lru_get (key timestamp : Z) (c : LRUCache) : option (option Z * LRUCache) :=
  match lc_cache c !! key with
  | None => Some (None, c)
  | Some e =>
      it ← lc_lru_map c !! key;
      l1 ← sl_erase it (lc_lru_list c);
      let l2 := sl_push_front key l1 in
      Some (Some (le_value e),
        mkLRUCache (lc_capacity c) (<[key := mkLRUCacheEntry (le_key e) (le_value e) timestamp]> (lc_cache c))
          l2 (<[key := sl_begin l2]> (lc_lru_map c)))
  end.

(** The part of [put] that makes room: the old node of the key, or the least recent entry. *)
Definition lru_make_room (key : Z) (c : LRUCache) : option LRUCache :=
  match lc_cache c !! key with
  | Some _ =>
      it ← lc_lru_map c !! key;
      l1 ← sl_erase it (lc_lru_list c);
      Some (mkLRUCache (lc_capacity c) (lc_cache c) l1 (lc_lru_map c))
  | None =>
      if lru_full c then
        lru_key ← sl_back (lc_lru_list c);
        Some (mkLRUCache (lc_capacity c) (delete lru_key (lc_cache c)) (sl_pop_back (lc_lru_list c))
                (delete lru_key (lc_lru_map c)))
      else Some c
  end.

Definition lru_put (key value timestamp : Z) (c : LRUCache) : option LRUCache :=
  c1 ← lru_make_room key c;
  let l := sl_push_front key (lc_lru_list c1) in
  Some (mkLRUCache (lc_capacity c1) (<[key := mkLRUCacheEntry key value timestamp]> (lc_cache c1))
          l (<[key := sl_begin l]> (lc_lru_map c1))).

Definition lru_remove (key : Z) (c : LRUCache) : option (bool * LRUCache) :=
  match lc_cache c !! key with
  | None => Some (false, c)
  | Some _ =>
      it ← lc_lru_map c !! key;
      l1 ← sl_erase it (lc_lru_list c);
      Some (true, mkLRUCache (lc_capacity c) (delete key (lc_cache c)) l1 (delete key (lc_lru_map c)))
  end.

Definition lru_clear (c : LRUCache) : LRUCache := mkLRUCache (lc_capacity c) ∅ (mkStdList [] (sl_fresh (lc_lru_list c))) ∅.

Definition lru_size (c : LRUCache) : Z := Z.of_nat (size (lc_cache c)).

Definition lru_get_stats (c : LRUCache) : Z * Z := (lru_size c, lc_capacity c).

Definition lru_contains (key : Z) (c : LRUCache) : bool := bool_decide (is_Some (lc_cache c !! key)).

Definition lru_peek (key : Z) (c : LRUCache) : option Z := le_value <$> lc_cache c !! key.

(** ** The TLB of [HugePagePolicy] *)
Record TLBCache := mkTLBCache {
  tl_entries : StdList;
  tl_index : gmap Z Z;
  tl_capacity : Z                         (* size_t *)
}.

Definition tlb_new (size : Z) : TLBCache := mkTLBCache sl_empty ∅ size.

Definition tlb_lookup (page_addr : Z) (t : TLBCache) : option (bool * TLBCache) :=
  match tl_index t !! page_addr with
  | Some it =>
      l1 ← sl_erase it (tl_entries t);
      let l2 := sl_push_front page_addr l1 in
      Some (true, mkTLBCache l2 (<[page_addr := sl_begin l2]> (tl_index t)) (tl_capacity t))
  | None => Some (false, t)
  end.

Definition tlb_forget (page_addr : Z) (t : TLBCache) : option TLBCache :=
  match tl_index t !! page_addr with
  | Some it =>
      l1 ← sl_erase it (tl_entries t);
      Some (mkTLBCache l1 (delete page_addr (tl_index t)) (tl_capacity t))
  | None => Some t
  end.

Definition tlb_evict (t : TLBCache) : option TLBCache :=
  if tl_capacity t <=? Z.of_nat (length (sl_nodes (tl_entries t))) then
    victim ← sl_back (tl_entries t);
    Some (mkTLBCache (sl_pop_back (tl_entries t)) (delete victim (tl_index t)) (tl_capacity t))
  else Some t.

Definition tlb_insert (page_addr : Z) (t : TLBCache) : option TLBCache :=
  t1 ← tlb_forget page_addr t;
  t2 ← tlb_evict t1;
  let l := sl_push_front page_addr (tl_entries t2) in
  Some (mkTLBCache l (<[page_addr := sl_begin l]> (tl_index t2)) (tl_capacity t2)).

(** ** What both promise

    A bounded list of bindings, most recently used first. *)
Notation recency := (list (Z * Z)).

Definition rc_forget (key : Z) (r : recency) : recency := filter (fun p => p.1 <> key) r.

Definition rc_find (key : Z) (r : recency) : option Z := (list_to_map r : gmap Z Z) !! key.

Definition rc_use (key : Z) (r : recency) : recency :=
  match rc_find key r with Some v => (key, v) :: rc_forget key r | None => r end.

Definition rc_add (cap : nat) (key value : Z) (r : recency) : recency :=
  take cap ((key, value) :: rc_forget key r).

(** ** The list and its index *)
Definition indexed (l : StdList) (ix : gmap Z Z) : Prop :=
  NoDup (sl_nodes l).*1 /\ NoDup (sl_keys l) /\ Forall (fun p => p.1 < sl_fresh l) (sl_nodes l) /\
  (forall k i, ix !! k = Some i <-> (i, k) ∈ sl_nodes l).

Lemma indexed_keys (l : StdList) (ix : gmap Z Z) (k : Z) : indexed l ix -> (k ∈ sl_keys l <-> is_Some (ix !! k)).
Proof.
  intros (_ & _ & _ & H). unfold sl_keys. rewrite list_elem_of_fmap. split.
  - intros ([i k'] & -> & Hin). exists i. by apply H.
  - intros [i Hi]. exists (i, k). split; [done|]. by apply H.
Qed.

Lemma indexed_push (l : StdList) (ix : gmap Z Z) (k : Z) :
  indexed l ix -> k ∉ sl_keys l -> indexed (sl_push_front k l) (<[k := sl_begin (sl_push_front k l)]> ix).
Proof.
  intros (H1 & H2 & H3 & H4) Hk. unfold indexed, sl_push_front, sl_keys in *. cbn in *.
  rewrite Forall_forall in H3. split_and!.
  - constructor; [|done]. intros ([i k'] & E & Hin)%list_elem_of_fmap. specialize (H3 _ Hin). cbn in *. lia.
  - by constructor.
  - constructor; [cbn; lia|]. apply Forall_forall. intros p Hp. specialize (H3 p Hp). lia.
  - intros k' i. rewrite elem_of_cons. destruct (decide (k = k')) as [->|Hne].
    + rewrite lookup_insert_eq. split; [intros [= <-]; by left|]. intros [[= ->]|Hin]; [done|].
      destruct Hk. apply list_elem_of_fmap. by exists (i, k').
    + rewrite lookup_insert_ne, H4 by done. split; [by right|]. intros [[= _ E]|Hin]; [by destruct Hne|done].
Qed.

Lemma fmap_inj_in {A B} (f : A -> B) (l : list A) (x y : A) : NoDup (f <$> l) -> x ∈ l -> y ∈ l -> f x = f y -> x = y.
Proof.
  intros Hn [a Ha]%list_elem_of_lookup [b Hb]%list_elem_of_lookup E.
  assert (a = b) as ->; [|congruence]. eapply (NoDup_lookup _ _ _ _ Hn); rewrite list_lookup_fmap; [by rewrite Ha|by rewrite Hb, E].
Qed.

Lemma filter_nodes_keys (ns : list (Z * Z)) (i k : Z) :
  NoDup ns.*1 -> NoDup ns.*2 -> (i, k) ∈ ns ->
  (filter (fun p => p.1 <> i) ns).*2 = filter (fun k' => k' <> k) ns.*2.
Proof.
  intros H1 H2 Hin. assert (E : forall p, p ∈ ns -> (p.1 <> i <-> p.2 <> k)).
  { intros [i' k'] Hp. cbn. split; intros Hn E; apply Hn; subst.
    - by assert (Ep := fmap_inj_in snd _ _ _ H2 Hin Hp eq_refl); injection Ep.
    - by assert (Ep := fmap_inj_in fst _ _ _ H1 Hin Hp eq_refl); injection Ep. }
  clear H1 H2 Hin. induction ns as [|p ns IH]; [done|].
  assert (Ep := E p (list_elem_of_here _ _)). specialize (IH (fun q Hq => E q (list_elem_of_further _ _ _ Hq))).
  rewrite fmap_cons, !filter_cons, <- IH. destruct (decide (p.1 <> i)), (decide (p.2 <> k)); [done|tauto|tauto|done].
Qed.

Lemma indexed_erase (l : StdList) (ix : gmap Z Z) (k i : Z) :
  indexed l ix -> ix !! k = Some i ->
  exists l', sl_erase i l = Some l' /\ sl_keys l' = filter (fun k' => k' <> k) (sl_keys l) /\ indexed l' (delete k ix).
Proof.
  intros (H1 & H2 & H3 & H4) Hi. assert (Hin : (i, k) ∈ sl_nodes l) by by apply H4.
  assert (Hk := filter_nodes_keys _ _ _ H1 H2 Hin).
  unfold sl_erase. rewrite decide_True by (apply list_elem_of_fmap; by exists (i, k)).
  eexists. split; [reflexivity|]. split; [done|]. unfold indexed, sl_keys in *. cbn [sl_nodes sl_fresh]. rewrite Hk. split_and!.
  - eapply (sublist_NoDup _ (sl_nodes l).*1); [exact H1|]. apply fmap_sublist, sublist_filter.
  - by apply NoDup_filter.
  - apply Forall_forall. intros p [_ Hp]%list_elem_of_filter. by eapply Forall_forall in H3.
  - intros k' i'. rewrite list_elem_of_filter. cbn [fst]. destruct (decide (k = k')) as [<-|Hne].
    + rewrite lookup_delete_eq. split; [done|]. intros [Hn Hin']. apply H4 in Hin'. congruence.
    + rewrite lookup_delete_ne, H4 by done. split; [|tauto]. intros Hin'. split; [|done]. intros ->.
      by assert (Ep := fmap_inj_in fst _ _ _ H1 Hin Hin' eq_refl); injection Ep.
Qed.

Lemma indexed_pop (l : StdList) (ix : gmap Z Z) (ks : list Z) (k : Z) :
  indexed l ix -> sl_keys l = ks ++ [k] ->
  sl_back l = Some k /\ sl_keys (sl_pop_back l) = ks /\ indexed (sl_pop_back l) (delete k ix).
Proof.
  intros (H1 & H2 & H3 & H4) Hk. unfold sl_keys, sl_back, sl_pop_back, indexed in *. cbn [sl_nodes sl_fresh].
  generalize dependent (sl_nodes l). intros ns H1 H2 H3 H4 Hk. destruct ns as [|p ns _] using rev_ind; [by destruct ks|].
  rewrite fmap_app in Hk, H1, H2. apply app_inj_tail in Hk as [Hks Hp]. cbn in Hp.
  rewrite removelast_last, last_snoc. split; [cbn; by rewrite Hp|]. split; [done|].
  apply NoDup_app in H1 as (H1 & _ & _). apply NoDup_app in H2 as (H2 & H2' & _). apply Forall_app in H3 as [H3 _]. split_and!; [done..|].
  intros k' i. destruct (decide (k = k')) as [<-|Hne].
  - rewrite lookup_delete_eq. split; [done|]. intros Hin. destruct (H2' k); [apply list_elem_of_fmap; by exists (i, k)|].
    cbn. rewrite Hp. by left.
  - rewrite lookup_delete_ne, H4 by done. rewrite elem_of_app, list_elem_of_singleton. split; [|by left].
    intros [Hin|E]; [done|]. subst p. by destruct Hne.
Qed.

(** ** Bindings of a list of keys *)
Definition bindings (f : Z -> Z) (ks : list Z) : recency := (fun k => (k, f k)) <$> ks.

Lemma bindings_fst (f : Z -> Z) (ks : list Z) : (bindings f ks).*1 = ks.
Proof. unfold bindings. rewrite <- list_fmap_compose. apply list_fmap_id. Qed.

Lemma find_bindings (f : Z -> Z) (ks : list Z) (k : Z) :
  NoDup ks -> rc_find k (bindings f ks) = if decide (k ∈ ks) then Some (f k) else None.
Proof.
  intros Hn. unfold rc_find. case_decide as Hk.
  - apply elem_of_list_to_map_1; [by rewrite bindings_fst|]. apply list_elem_of_fmap. by exists k.
  - apply not_elem_of_list_to_map_1. by rewrite bindings_fst.
Qed.

Lemma forget_bindings (f : Z -> Z) (ks : list Z) (k : Z) :
  rc_forget k (bindings f ks) = bindings f (filter (fun k' => k' <> k) ks).
Proof.
  unfold rc_forget, bindings. induction ks as [|k' ks IH]; [done|]. rewrite fmap_cons. destruct (decide (k' = k)) as [->|Hne].
  - rewrite (filter_cons_False _ (k, f k)), filter_cons_False by (cbn; tauto). apply IH.
  - rewrite (filter_cons_True _ (k', f k')), filter_cons_True by (cbn; tauto). rewrite fmap_cons. f_equal. apply IH.
Qed.

Lemma bindings_ext (f g : Z -> Z) (ks : list Z) : (forall k, k ∈ ks -> f k = g k) -> bindings f ks = bindings g ks.
Proof. intros H. apply list_fmap_ext. intros i k Hk%list_elem_of_lookup_2. by rewrite H. Qed.

Lemma filter_absent (ks : list Z) (k : Z) : k ∉ ks -> filter (fun k' => k' <> k) ks = ks.
Proof.
  intros Hk. induction ks as [|k' ks IH]; [done|]. rewrite filter_cons, decide_True by set_solver. by rewrite IH by set_solver.
Qed.

Lemma filter_length_present (ks : list Z) (k : Z) : k ∈ ks -> (length (filter (fun k' => k' <> k) ks) < length ks)%nat.
Proof. intros Hk. apply length_filter_lt with k; [done|]. naive_solver. Qed.

Lemma filter_not_in (ks : list Z) (k : Z) : k ∉ filter (fun k' => k' <> k) ks.
Proof. rewrite list_elem_of_filter. tauto. Qed.

(** ** The LRU cache refines [recency] *)
Definition lru_abs (c : LRUCache) : recency :=
  bindings (fun k => default 0 (lru_peek k c)) (sl_keys (lc_lru_list c)).

Definition lru_ok (c : LRUCache) : Prop :=
  indexed (lc_lru_list c) (lc_lru_map c) /\ 0 < lc_capacity c < 2 ^ 31 /\
  (forall k, k ∈ sl_keys (lc_lru_list c) <-> is_Some (lc_cache c !! k)) /\
  Z.of_nat (length (sl_keys (lc_lru_list c))) <= lc_capacity c.

Inductive lru_op := LGet (key timestamp : Z) | LPut (key value timestamp : Z) | LRemove (key : Z) | LClear.

Inductive lru_answer := LValue (v : option Z) | LRemoved (b : bool) | LDone.

Definition lru_apply (op : lru_op) (c : LRUCache) : option (lru_answer * LRUCache) :=
  match op with
  | LGet key ts => '(v, c') ← lru_get key ts c; Some (LValue v, c')
  | LPut key value ts => c' ← lru_put key value ts c; Some (LDone, c')
  | LRemove key => '(b, c') ← lru_remove key c; Some (LRemoved b, c')
  | LClear => Some (LDone, lru_clear c)
  end.

Definition rc_apply (cap : nat) (op : lru_op) (r : recency) : lru_answer * recency :=
  match op with
  | LGet key _ => (LValue (rc_find key r), rc_use key r)
  | LPut key value _ => (LDone, rc_add cap key value r)
  | LRemove key => (LRemoved (bool_decide (is_Some (rc_find key r))), rc_forget key r)
  | LClear => (LDone, [])
  end.

Fixpoint lru_run (ops : list lru_op) (c : LRUCache) : option (list lru_answer * LRUCache) :=
  match ops with
  | [] => Some ([], c)
  | op :: ops' => '(a, c1) ← lru_apply op c; '(rest, c2) ← lru_run ops' c1; Some (a :: rest, c2)
  end.

Fixpoint rc_run (cap : nat) (ops : list lru_op) (r : recency) : list lru_answer * recency :=
  match ops with
  | [] => ([], r)
  | op :: ops' => let '(a, r1) := rc_apply cap op r in let '(rest, r2) := rc_run cap ops' r1 in (a :: rest, r2)
  end.

Lemma lru_abs_length (c : LRUCache) : length (lru_abs c) = length (sl_keys (lc_lru_list c)).
Proof. apply length_fmap. Qed.

Lemma lru_find (c : LRUCache) (k : Z) : lru_ok c -> rc_find k (lru_abs c) = lru_peek k c.
Proof.
  intros ((_ & Hn & _) & _ & Hd & _). unfold lru_abs. rewrite find_bindings by done. specialize (Hd k). unfold lru_peek.
  destruct (lc_cache c !! k) as [e|]; case_decide as Hk; [done| | |done].
  - destruct Hk. by apply Hd.
  - apply Hd in Hk as [? ?]. done.
Qed.

Lemma lru_size_keys (c : LRUCache) : lru_ok c -> size (lc_cache c) = length (sl_keys (lc_lru_list c)).
Proof.
  intros ((_ & Hn & _) & _ & Hd & _). rewrite <- (size_list_to_set (C := gset Z)) by done. rewrite <- size_dom.
  f_equal. apply set_eq. intros k. rewrite elem_of_dom, elem_of_list_to_set. symmetry. apply Hd.
Qed.

(** Moving a key to the front of the list. *)
Lemma indexed_refresh (l : StdList) (ix : gmap Z Z) (k : Z) :
  indexed l ix -> k ∈ sl_keys l ->
  exists it l1, ix !! k = Some it /\ sl_erase it l = Some l1 /\ indexed l1 (delete k ix) /\
    sl_keys l1 = filter (fun k' => k' <> k) (sl_keys l) /\
    indexed (sl_push_front k l1) (<[k := sl_begin (sl_push_front k l1)]> ix).
Proof.
  intros H Hk. destruct (proj1 (indexed_keys _ _ _ H) Hk) as [it Hi]. destruct (indexed_erase _ _ _ _ H Hi) as (l1 & E & Hks & H1).
  exists it, l1. split_and!; [done..|]. rewrite <- insert_delete_eq. apply indexed_push; [done|]. rewrite Hks. apply filter_not_in.
Qed.

Lemma lru_get_refines (k ts : Z) (c : LRUCache) :
  lru_ok c -> exists c', lru_get k ts c = Some (rc_find k (lru_abs c), c') /\ lru_ok c' /\
    lc_capacity c' = lc_capacity c /\ lru_abs c' = rc_use k (lru_abs c).
Proof.
  intros Hok. assert (Hf := lru_find c k Hok). destruct Hok as (Hi & Hcap & Hd & Hl). unfold rc_use, lru_get. rewrite Hf. unfold lru_peek.
  destruct (lc_cache c !! k) as [e|] eqn:E; [|by exists c]. assert (Hk : k ∈ sl_keys (lc_lru_list c)) by (apply Hd; by rewrite E).
  destruct (indexed_refresh _ _ _ Hi Hk) as (it & l1 & -> & Er & H1 & Hks & H2). cbn [mbind option_bind]. rewrite Er. cbn [mbind option_bind fmap option_fmap option_map].
  eexists. split; [reflexivity|]. unfold lru_ok, lru_abs, sl_keys in *. cbn [lc_capacity lc_cache lc_lru_list lc_lru_map sl_push_front sl_nodes] in *.
  rewrite fmap_cons, Hks in *. cbn [snd]. assert (Hlt := filter_length_present _ _ Hk). split_and!; [done|lia|lia| |cbn [length]; lia|done|].
  - intros k'. rewrite elem_of_cons, list_elem_of_filter, Hd. destruct (decide (k' = k)) as [->|Hne].
    + rewrite lookup_insert_eq. split; [done|by left].
    + rewrite lookup_insert_ne by done. tauto.
  - rewrite forget_bindings. unfold bindings at 1. rewrite fmap_cons. unfold lru_peek. cbn [lc_cache]. rewrite lookup_insert_eq.
    f_equal. apply bindings_ext. intros k' [Hne _]%list_elem_of_filter. by rewrite lookup_insert_ne by done.
Qed.

Lemma lru_make_room_spec (k : Z) (c : LRUCache) :
  lru_ok c -> exists c1, lru_make_room k c = Some c1 /\ lc_capacity c1 = lc_capacity c /\
    sl_keys (lc_lru_list c1) = take (Z.to_nat (lc_capacity c) - 1) (filter (fun k' => k' <> k) (sl_keys (lc_lru_list c))) /\
    indexed (lc_lru_list c1) (delete k (lc_lru_map c1)) /\
    (forall k', k' <> k -> k' ∈ sl_keys (lc_lru_list c1) <-> is_Some (lc_cache c1 !! k')) /\
    (forall k', k' ∈ sl_keys (lc_lru_list c1) -> lru_peek k' c1 = lru_peek k' c).
Proof.
  intros Hok. assert (Hsz := lru_size_keys c Hok). destruct Hok as (Hi & Hcap & Hd & Hl). unfold lru_make_room.
  destruct (lc_cache c !! k) as [e|] eqn:E.
  - assert (Hk : k ∈ sl_keys (lc_lru_list c)) by (apply Hd; by rewrite E). assert (Hlt := filter_length_present _ _ Hk).
    destruct (indexed_refresh _ _ _ Hi Hk) as (it & l1 & -> & Er & H1 & Hks & _). cbn [mbind option_bind]. rewrite Er. cbn [mbind option_bind].
    eexists. split; [reflexivity|]. cbn [lc_capacity lc_cache lc_lru_list lc_lru_map]. rewrite Hks. split_and!; [done| |done| |done].
    + rewrite take_ge by lia. done.
    + intros k' Hne. rewrite list_elem_of_filter, Hd. tauto.
  - assert (Hk : k ∉ sl_keys (lc_lru_list c)) by (rewrite Hd, E; by intros [? ?]). rewrite filter_absent by done.
    assert (Hx : lc_lru_map c !! k = None) by (destruct (lc_lru_map c !! k) as [i|] eqn:Ex; [|done]; destruct Hk; apply (indexed_keys _ _ _ Hi); by rewrite Ex).
    unfold lru_full. rewrite wrap64_small by (unfold u64; lia). rewrite Hsz. destruct (Z.leb_spec (lc_capacity c) (Z.of_nat (length (sl_keys (lc_lru_list c))))) as [Hf|Hf].
    + destruct (sl_keys (lc_lru_list c)) as [|b ks _] eqn:Ek using rev_ind; [cbn in Hf; lia|]. rewrite <- Ek in Hd, Hk.
      destruct (indexed_pop _ _ _ _ Hi Ek) as (-> & Hks & H1). cbn [mbind option_bind]. eexists. split; [reflexivity|].
      assert (Hb : b ∉ ks) by (destruct Hi as (_ & Hn & _); rewrite Ek in Hn; apply NoDup_app in Hn as (_ & Hn & _); set_solver).
      cbn [lc_capacity lc_cache lc_lru_list lc_lru_map]. rewrite Hks. rewrite length_app in Hf, Hl. cbn [length] in Hf, Hl. split_and!; [done| | | |].
      * rewrite take_app_length' by lia. done.
      * rewrite delete_id; [done|]. destruct (decide (b = k)) as [->|]; [apply lookup_delete_eq|by rewrite lookup_delete_ne].
      * intros k' _. destruct (decide (b = k')) as [<-|Hne].
        { rewrite lookup_delete_eq. split; [done|by intros [? ?]]. }
        rewrite lookup_delete_ne by done. rewrite <- Hd, Ek. set_solver.
      * intros k' Hin. unfold lru_peek. cbn [lc_cache]. rewrite lookup_delete_ne; [done|]. by intros ->.
    + exists c. split_and!; [done|done| | |done|done].
      * rewrite take_ge by lia. done.
      * by rewrite delete_id.
Qed.

Lemma lru_put_refines (k v ts : Z) (c : LRUCache) :
  lru_ok c -> exists c', lru_put k v ts c = Some c' /\ lru_ok c' /\
    lc_capacity c' = lc_capacity c /\ lru_abs c' = rc_add (Z.to_nat (lc_capacity c)) k v (lru_abs c).
Proof.
  intros Hok. destruct (lru_make_room_spec k c Hok) as (c1 & E & Hc & Hks & H1 & Hd & Hp). destruct Hok as (Hi & Hcap & _ & _).
  unfold lru_put. rewrite E. cbn [mbind option_bind]. eexists. split; [reflexivity|].
  assert (Hnk : k ∉ sl_keys (lc_lru_list c1)) by (rewrite Hks; intros H%elem_of_take; apply (filter_not_in (sl_keys (lc_lru_list c)) k); naive_solver (by eapply list_elem_of_lookup_2)).
  unfold lru_ok, lru_abs, rc_add. cbn [lc_capacity lc_cache lc_lru_list lc_lru_map].
  rewrite forget_bindings. change (sl_keys (sl_push_front k (lc_lru_list c1))) with (k :: sl_keys (lc_lru_list c1)).
  destruct (Z.to_nat (lc_capacity c)) as [|cap] eqn:Ecap; [lia|]. split_and!; [ |lia|lia| |cbn [length]|done|].
  - rewrite <- insert_delete_eq. by apply indexed_push.
  - intros k'. rewrite elem_of_cons. destruct (decide (k' = k)) as [->|Hne]; [rewrite lookup_insert_eq; split; [done|by left]|].
    rewrite lookup_insert_ne, <- Hd by done. tauto.
  - rewrite Hks, length_take, Nat.sub_succ, Nat.sub_0_r. lia.
  - cbn [take]. unfold bindings at 1. rewrite fmap_cons. unfold lru_peek at 1. cbn [lc_cache]. rewrite lookup_insert_eq. f_equal.
    rewrite Nat.sub_succ, Nat.sub_0_r in Hks. unfold bindings at 1. rewrite <- fmap_take, <- Hks. apply bindings_ext. intros k' Hk'.
    unfold lru_peek at 1. cbn [lc_cache]. rewrite lookup_insert_ne by congruence. fold (lru_peek k' c1). by rewrite Hp.
Qed.

Lemma lru_remove_refines (k : Z) (c : LRUCache) :
  lru_ok c -> exists c', lru_remove k c = Some (bool_decide (is_Some (rc_find k (lru_abs c))), c') /\ lru_ok c' /\
    lc_capacity c' = lc_capacity c /\ lru_abs c' = rc_forget k (lru_abs c).
Proof.
  intros Hok. assert (Hf := lru_find c k Hok). destruct Hok as (Hi & Hcap & Hd & Hl). unfold lru_remove. rewrite Hf. unfold lru_peek, lru_abs.
  rewrite forget_bindings. destruct (lc_cache c !! k) as [e|] eqn:E.
  - assert (Hk : k ∈ sl_keys (lc_lru_list c)) by (apply Hd; by rewrite E). assert (Hlt := filter_length_present _ _ Hk).
    destruct (indexed_refresh _ _ _ Hi Hk) as (it & l1 & -> & Er & H1 & Hks & _). cbn [mbind option_bind]. rewrite Er. cbn [mbind option_bind].
    eexists. split; [reflexivity|]. unfold lru_ok. cbn [lc_capacity lc_cache lc_lru_list lc_lru_map]. rewrite Hks. split_and!; [done|lia|lia| |lia|done|].
    + intros k'. rewrite list_elem_of_filter, Hd. destruct (decide (k = k')) as [<-|Hne]; [rewrite lookup_delete_eq; split; [tauto|by intros [? ?]]|].
      rewrite lookup_delete_ne by done. naive_solver.
    + apply bindings_ext. intros k' [Hne _]%list_elem_of_filter. unfold lru_peek. cbn [lc_cache]. by rewrite lookup_delete_ne by done.
  - assert (Hk : k ∉ sl_keys (lc_lru_list c)) by (rewrite Hd, E; by intros [? ?]). rewrite filter_absent by done. by exists c.
Qed.

Lemma lru_empty_ok (cap fresh : Z) : 0 < cap < 2 ^ 31 -> lru_ok (mkLRUCache cap ∅ (mkStdList [] fresh) ∅).
Proof.
  intros H. unfold lru_ok, indexed, sl_keys. cbn [lc_lru_list lc_lru_map lc_capacity lc_cache sl_nodes sl_fresh fmap list_fmap length].
  split; [|split; [done|split; [|lia]]].
  - split; [apply NoDup_nil_2|]. split; [apply NoDup_nil_2|]. split; [constructor|]. intros k i. rewrite lookup_empty. split; [done|]. by intros ?%not_elem_of_nil.
  - intros k. rewrite lookup_empty. split; [by intros ?%not_elem_of_nil|by intros [? ?]].
Qed.

Lemma lru_apply_refines (op : lru_op) (c : LRUCache) :
  lru_ok c -> exists a c', lru_apply op c = Some (a, c') /\ lru_ok c' /\ lc_capacity c' = lc_capacity c /\
    rc_apply (Z.to_nat (lc_capacity c)) op (lru_abs c) = (a, lru_abs c').
Proof.
  intros Hok. destruct op as [k ts|k v ts|k|]; cbn [lru_apply rc_apply].
  - destruct (lru_get_refines k ts c Hok) as (c' & -> & H1 & H2 & H3). cbn. eexists _, _. split_and!; [done..|by rewrite H3].
  - destruct (lru_put_refines k v ts c Hok) as (c' & -> & H1 & H2 & H3). cbn. eexists _, _. split_and!; [done..|by rewrite H3].
  - destruct (lru_remove_refines k c Hok) as (c' & -> & H1 & H2 & H3). cbn. eexists _, _. split_and!; [done..|by rewrite H3].
  - exists LDone, (lru_clear c). split; [done|]. split; [by apply lru_empty_ok, Hok|done].
Qed.

Lemma lru_run_refines (ops : list lru_op) (c : LRUCache) :
  lru_ok c -> exists answers c', lru_run ops c = Some (answers, c') /\ lru_ok c' /\ lc_capacity c' = lc_capacity c /\
    rc_run (Z.to_nat (lc_capacity c)) ops (lru_abs c) = (answers, lru_abs c').
Proof.
  revert c. induction ops as [|op ops IH]; intros c Hok; cbn [lru_run rc_run]; [by eexists _, _|].
  destruct (lru_apply_refines op c Hok) as (a & c1 & E & Hok1 & Hc & ->). rewrite E. cbn [mbind option_bind].
  destruct (IH c1 Hok1) as (rest & c2 & E2 & Hok2 & Hc2 & Er). rewrite Hc in Er. rewrite E2, Er. cbn [mbind option_bind].
  eexists _, _. split_and!; [done|done|congruence|done].
Qed.

(** ** How long a binding survives

    [spares k op]: [op] does not overwrite, remove or clear the binding of [k];
    [touched op]: the key that [op] reads or puts. *)
Definition spares (k : Z) (op : lru_op) : bool :=
  match op with LGet _ _ => true | LPut k' _ _ => negb (k' =? k) | LRemove k' => negb (k' =? k) | LClear => false end.

Definition touched (op : lru_op) : gset Z :=
  match op with LGet k _ => {[k]} | LPut k _ _ => {[k]} | _ => ∅ end.

(** [k] is bound to [v], behind keys of [S] only. *)
Definition bound_behind (S : gset Z) (k v : Z) (r : recency) : Prop :=
  NoDup r.*1 /\ exists front back, r = front ++ (k, v) :: back /\ (forall p, p ∈ front -> p.1 ∈ S).

Lemma bound_find (S : gset Z) (k v : Z) (r : recency) : bound_behind S k v r -> rc_find k r = Some v.
Proof. intros (Hn & f & b & -> & _). apply elem_of_list_to_map_1; [done|]. set_solver. Qed.

Lemma forget_nodup (k : Z) (r : recency) : NoDup r.*1 -> NoDup (rc_forget k r).*1 /\ k ∉ (rc_forget k r).*1.
Proof.
  intros Hn. split.
  - eapply sublist_NoDup; [exact Hn|]. apply fmap_sublist, sublist_filter.
  - intros ([k' v] & E & [Hne _]%list_elem_of_filter)%list_elem_of_fmap. cbn in *. congruence.
Qed.

Lemma bound_forget (S : gset Z) (k v k' : Z) (r : recency) : k' <> k -> bound_behind S k v r -> bound_behind S k v (rc_forget k' r).
Proof.
  intros Hne (Hn & f & b & -> & Hf). split; [by apply forget_nodup|]. exists (rc_forget k' f), (rc_forget k' b). split.
  - unfold rc_forget. rewrite filter_app, filter_cons_True by (cbn; congruence). done.
  - intros p [_ Hp]%list_elem_of_filter. by apply Hf.
Qed.

Lemma bound_cons (S : gset Z) (k v k' v' : Z) (r : recency) :
  k' <> k -> bound_behind S k v r -> bound_behind ({[k']} ∪ S) k v ((k', v') :: rc_forget k' r).
Proof.
  intros Hne H. destruct (bound_forget _ _ _ _ _ Hne H) as (_ & f & b & E & Hf). destruct H as [Hn _].
  destruct (forget_nodup k' r Hn) as [Hn1 Hn2]. split; [by constructor|]. exists ((k', v') :: f), b. rewrite E. split; [done|].
  intros p [->|Hp]%elem_of_cons; [set_solver|]. specialize (Hf p Hp). set_solver.
Qed.

Lemma bound_take (S : gset Z) (k v : Z) (cap : nat) (r : recency) :
  (size S < cap)%nat -> bound_behind S k v r -> bound_behind S k v (take cap r).
Proof.
  intros Hs (Hn & f & b & -> & Hf). split.
  - eapply sublist_NoDup; [exact Hn|]. apply fmap_sublist, sublist_take.
  - assert (Hl : (length f <= size S)%nat).
    { rewrite fmap_app in Hn. apply NoDup_app in Hn as (Hn & _ & _). rewrite <- (length_fmap fst f), <- (size_list_to_set (C := gset Z)) by done.
      apply subseteq_size. intros x. rewrite elem_of_list_to_set, list_elem_of_fmap. intros (p & -> & Hp). by apply Hf. }
    exists f, (take (cap - length f - 1) b). split; [|done]. rewrite take_app, take_ge by lia. f_equal.
    destruct (cap - length f)%nat as [|n] eqn:E; [lia|]. cbn [take]. by rewrite Nat.sub_succ, Nat.sub_0_r.
Qed.

Lemma bound_mono (S S' : gset Z) (k v : Z) (r : recency) : S ⊆ S' -> bound_behind S k v r -> bound_behind S' k v r.
Proof. intros Hs (Hn & f & b & E & Hf). split; [done|]. exists f, b. split; [done|]. intros p Hp. by apply Hs, Hf. Qed.

Lemma bound_front (S : gset Z) (k v : Z) (r : recency) : NoDup r.*1 -> bound_behind S k v ((k, v) :: rc_forget k r).
Proof.
  intros Hn. destruct (forget_nodup k r Hn) as [H1 H2]. split; [by constructor|]. exists [], (rc_forget k r).
  split; [done|]. by intros p ?%not_elem_of_nil.
Qed.

Definition others (k : Z) (ops : list lru_op) : gset Z := (⋃ (touched <$> ops)) ∖ {[k]}.

Lemma bound_apply (cap : nat) (S : gset Z) (op : lru_op) (k v : Z) (r : recency) :
  spares k op = true -> (size (S ∪ touched op ∖ {[k]}) < cap)%nat -> bound_behind S k v r ->
  bound_behind (S ∪ touched op ∖ {[k]}) k v (rc_apply cap op r).2.
Proof.
  intros Hsp Hsz Hb. destruct op as [k' ts|k' v' ts|k'|]; cbn [rc_apply snd touched spares] in *; [| | |done].
  - unfold rc_use. destruct (rc_find k' r) as [v'|] eqn:E; [|eapply bound_mono; [|done]; set_solver].
    destruct (decide (k' = k)) as [->|Hne].
    + rewrite (bound_find _ _ _ _ Hb) in E. injection E as <-. apply bound_front, Hb.
    + eapply bound_mono; [|by apply bound_cons]. set_solver.
  - assert (k' <> k) by (intros ->; by rewrite Z.eqb_refl in Hsp). unfold rc_add. apply bound_take; [done|].
    eapply bound_mono; [|by apply bound_cons]. set_solver.
  - assert (k' <> k) by (intros ->; by rewrite Z.eqb_refl in Hsp). eapply bound_mono; [|by apply bound_forget]. set_solver.
Qed.

Lemma bound_run (cap : nat) (ops : list lru_op) (S : gset Z) (k v ts : Z) (r : recency) :
  Forall (fun op => spares k op = true) ops -> (size (S ∪ others k ops) < cap)%nat -> bound_behind S k v r ->
  last (rc_run cap (ops ++ [LGet k ts]) r).1 = Some (LValue (Some v)).
Proof.
  revert S r. induction ops as [|op ops IH]; intros S r Hsp Hsz Hb; cbn [app rc_run].
  - cbn [rc_apply]. by rewrite (bound_find _ _ _ _ Hb).
  - inversion Hsp as [|? ? H1 H2]; subst. assert (Ho : others k (op :: ops) = touched op ∖ {[k]} ∪ others k ops) by (unfold others; cbn; set_solver).
    rewrite Ho, (assoc_L (∪)) in Hsz. assert (Hop : (size (S ∪ touched op ∖ {[k]}) < cap)%nat).
    { eapply Nat.le_lt_trans; [|exact Hsz]. apply subseteq_size. set_solver. }
    specialize (IH _ _ H2 Hsz (bound_apply cap S op k v r H1 Hop Hb)). destruct (rc_apply cap op r) as [a r1]. cbn [snd] in IH.
    destruct (rc_run cap (ops ++ [LGet k ts]) r1) as [rest r2] eqn:E. cbn [fst] in *. destruct rest; [done|]. exact IH.
Qed.

(** C35. The LRU cache is a bounded recency list: over any sequence of operations on a new cache of
    positive size no iterator dangles and no empty list is read, the answers are those of the
    abstract list, in which [get] moves a key to the front and [put] keeps the [size] most recent
    bindings, and there are never more than [size] entries. *)
Theorem lru_refines (size : Z) (ops : list lru_op) (Hs : 0 < size < 2 ^ 31) :
  exists answers c, lru_run ops (lru_new size) = Some (answers, c) /\
    rc_run (Z.to_nat size) ops [] = (answers, lru_abs c) /\ lru_size c <= size.
Proof.
  destruct (lru_run_refines ops (lru_new size) (lru_empty_ok size 0 Hs)) as (answers & c & E & Hok & Hc & Hr).
  exists answers, c. split_and!; [done|exact Hr|]. unfold lru_size. rewrite (lru_size_keys c Hok). destruct Hok as (_ & _ & _ & Hl).
  by rewrite Hc in Hl.
Qed.

Lemma lru_refines_witness :
  exists answers c, lru_run [LPut 1 10 0; LPut 2 20 1; LGet 1 2; LPut 3 30 3; LGet 2 4] (lru_new 2) = Some (answers, c) /\
    rc_run (Z.to_nat 2) [LPut 1 10 0; LPut 2 20 1; LGet 1 2; LPut 3 30 3; LGet 2 4] [] = (answers, lru_abs c) /\ lru_size c <= 2.
Proof. apply (lru_refines 2). lia. Defined.

(** A binding survives as long as it should: after a [put], as long as fewer other keys are used
    than the cache holds entries and the key itself is not removed or overwritten, [get] finds the value. *)
Theorem lru_retains (c : LRUCache) (k v ts ts' : Z) (ops : list lru_op)
  (Hok : lru_ok c) (Hsp : Forall (fun op => spares k op = true) ops) (Hsz : Z.of_nat (size (others k ops)) < lc_capacity c) :
  exists answers c', lru_run (LPut k v ts :: ops ++ [LGet k ts']) c = Some (answers, c') /\
    last answers = Some (LValue (Some v)).
Proof.
  destruct (lru_run_refines (LPut k v ts :: ops ++ [LGet k ts']) c Hok) as (answers & c' & E & _ & _ & Hr).
  exists answers, c'. split; [done|]. cbn [rc_run rc_apply] in Hr.
  assert (Hb : bound_behind ∅ k v (rc_add (Z.to_nat (lc_capacity c)) k v (lru_abs c))).
  { apply bound_take; [rewrite size_empty; lia|]. apply bound_front. unfold lru_abs. rewrite bindings_fst. apply Hok. }
  assert (Hl := bound_run (Z.to_nat (lc_capacity c)) ops ∅ k v ts' _ Hsp ltac:(rewrite (left_id_L ∅ (∪)); lia) Hb).
  destruct (rc_run _ (ops ++ _) _) as [rest r2]. injection Hr as <- _. cbn [fst] in Hl. by destruct rest.
Qed.

Lemma lru_retains_witness :
  exists answers c', lru_run (LPut 7 70 0 :: [LPut 8 80 1; LGet 9 2] ++ [LGet 7 3]) (lru_new 3) = Some (answers, c') /\
    last answers = Some (LValue (Some 70)).
Proof.
  apply (lru_retains (lru_new 3) 7 70 0 3 [LPut 8 80 1; LGet 9 2]).
  - apply lru_empty_ok. lia.
  - repeat constructor.
  - vm_compute. reflexivity.
Defined.

(** ** The TLB refines [recency] *)
Definition tlb_abs (t : TLBCache) : recency := bindings (fun _ => 0) (sl_keys (tl_entries t)).

Definition tlb_ok (t : TLBCache) : Prop :=
  indexed (tl_entries t) (tl_index t) /\ 0 < tl_capacity t /\ Z.of_nat (length (sl_keys (tl_entries t))) <= tl_capacity t.

Lemma tlb_find (t : TLBCache) (k : Z) : tlb_ok t -> rc_find k (tlb_abs t) = if decide (is_Some (tl_index t !! k)) then Some 0 else None.
Proof.
  intros (Hi & _ & _). unfold tlb_abs. rewrite find_bindings by apply Hi. assert (Hk := indexed_keys _ _ k Hi). repeat case_decide; tauto.
Qed.

Lemma tlb_new_ok (size : Z) : 0 < size -> tlb_ok (tlb_new size).
Proof.
  intros H. split; [|cbn; lia]. split; [apply NoDup_nil_2|]. split; [apply NoDup_nil_2|]. split; [constructor|].
  intros k i. cbn. rewrite lookup_empty. split; [done|]. by intros ?%not_elem_of_nil.
Qed.

Lemma tlb_lookup_refines (k : Z) (t : TLBCache) :
  tlb_ok t -> exists t', tlb_lookup k t = Some (bool_decide (is_Some (rc_find k (tlb_abs t))), t') /\ tlb_ok t' /\
    tl_capacity t' = tl_capacity t /\ tlb_abs t' = rc_use k (tlb_abs t).
Proof.
  intros Hok. assert (Hf := tlb_find t k Hok). destruct Hok as (Hi & Hc & Hl). unfold tlb_lookup, rc_use. rewrite Hf.
  destruct (tl_index t !! k) as [i|] eqn:E; case_decide as Hs; [|by destruct Hs|by destruct Hs|by exists t].
  assert (Hk : k ∈ sl_keys (tl_entries t)) by (apply (indexed_keys _ _ _ Hi); by rewrite E). assert (Hlt := filter_length_present _ _ Hk).
  destruct (indexed_refresh _ _ _ Hi Hk) as (it & l1 & E1 & Er & H1 & Hks & H2). rewrite E in E1. injection E1 as <-.
  rewrite Er. cbn [mbind option_bind]. eexists. split; [reflexivity|]. unfold tlb_ok, tlb_abs. cbn [tl_entries tl_index tl_capacity].
  change (sl_keys (sl_push_front k l1)) with (k :: sl_keys l1). rewrite Hks, forget_bindings. cbn [length]. split_and!; [done|lia|lia|done|done].
Qed.

Lemma tlb_insert_refines (k : Z) (t : TLBCache) :
  tlb_ok t -> exists t', tlb_insert k t = Some t' /\ tlb_ok t' /\ tl_capacity t' = tl_capacity t /\
    tlb_abs t' = rc_add (Z.to_nat (tl_capacity t)) k 0 (tlb_abs t).
Proof.
  intros (Hi & Hc & Hl). assert (exists t1, tlb_forget k t = Some t1 /\ tl_capacity t1 = tl_capacity t /\
    indexed (tl_entries t1) (tl_index t1) /\ sl_keys (tl_entries t1) = filter (fun k' => k' <> k) (sl_keys (tl_entries t))) as (t1 & E1 & Hc1 & Hi1 & Hk1).
  { unfold tlb_forget. destruct (tl_index t !! k) as [i|] eqn:E.
    - destruct (indexed_erase _ _ _ _ Hi E) as (l1 & -> & Hks & H1). cbn. by eexists.
    - exists t. split_and!; [done..|]. rewrite filter_absent; [done|]. rewrite (indexed_keys _ _ _ Hi), E. by intros [? ?]. }
  assert (Hl1 : Z.of_nat (length (sl_keys (tl_entries t1))) <= tl_capacity t)
    by (rewrite Hk1; assert (H := length_filter (fun k' => k' <> k) (sl_keys (tl_entries t))); lia).
  assert (exists t2, tlb_evict t1 = Some t2 /\ tl_capacity t2 = tl_capacity t /\ indexed (tl_entries t2) (tl_index t2) /\
    sl_keys (tl_entries t2) = take (Z.to_nat (tl_capacity t) - 1) (sl_keys (tl_entries t1))) as (t2 & E2 & Hc2 & Hi2 & Hk2).
  { unfold tlb_evict. rewrite Hc1. replace (length (sl_nodes (tl_entries t1))) with (length (sl_keys (tl_entries t1))) by apply length_fmap.
    destruct (Z.leb_spec (tl_capacity t) (Z.of_nat (length (sl_keys (tl_entries t1))))) as [Hf|Hf].
    - destruct (sl_keys (tl_entries t1)) as [|b ks _] eqn:Ek using rev_ind; [cbn in Hf; lia|].
      destruct (indexed_pop _ _ _ _ Hi1 Ek) as (-> & Hks & H1). cbn. eexists. split_and!; [done|done|done|].
      cbn [tl_entries]. rewrite length_app in Hf, Hl1. cbn [length] in Hf, Hl1. by rewrite take_app_length' by lia.
    - exists t1. split_and!; [done..|]. rewrite take_ge by lia. done. }
  unfold tlb_insert. rewrite E1. cbn [mbind option_bind]. rewrite E2. cbn [mbind option_bind]. eexists. split; [reflexivity|].
  unfold tlb_ok, tlb_abs, rc_add. cbn [tl_entries tl_index tl_capacity]. rewrite forget_bindings, <- Hk1.
  change (sl_keys (sl_push_front k (tl_entries t2))) with (k :: sl_keys (tl_entries t2)). rewrite Hk2.
  destruct (Z.to_nat (tl_capacity t)) as [|cap] eqn:Ecap; [lia|]. rewrite Nat.sub_succ, Nat.sub_0_r in *. split_and!; [|lia| |done|].
  - apply indexed_push; [done|]. rewrite Hk2, Hk1. intros (i & Hin & _)%elem_of_take. apply list_elem_of_lookup_2 in Hin. by apply filter_not_in in Hin.
  - cbn [length]. rewrite length_take. lia.
  - cbn [take]. unfold bindings. rewrite fmap_cons, fmap_take. done.
Qed.
