(* ===== verification/Expander.v ===== *)
(** * Memory expanders ([CXLMemExpander] and [RemoteCXLExpander] of [include/cxlendpoint.h] and
    [src/cxlendpoint.cpp])

    An expander records which addresses it has been given (its occupation), keeps two caches of
    that record, and runs a request pipeline: a bounded queue, credits for reads and writes, and
    the requests in flight.  A remote expander stands for the memory of another node behind a
    fabric link.  Random numbers and the coherency engine of the controller are arguments. *)
From Stdlib Require Import SpecFloat.
From S2P Require Import Prelude Double Fabric CoherencyEngine.
#[local] Open Scope Z_scope.

Record occupation_info := mkOccupation {
  oi_timestamp : Z;
  oi_address : Z;
  oi_access_count : Z
}.

Record CXLRequest := mkCXLRequest {
  cr_timestamp : Z;
  cr_address : Z;
  cr_tid : Z;
  cr_is_read : bool;
  cr_is_write : bool;
  cr_issue_time : Z;
  cr_complete_time : Z
}.

Record CXLMemExpanderEvent := mkExpanderEvent {
  xe_load : Z;
  xe_store : Z;
  xe_migrate_in : Z;
  xe_migrate_out : Z;
  xe_hit_old : Z
}.

Definition MAX_QUEUE_SIZE : Z := 64.

Definition FLIT_SIZE : Z := 66.

Definition DATA_FLIT : Z := 65.

Definition INITIAL_CREDITS : Z := 2.

(** [request_queue_], the credits, and [in_flight_requests_], a [std::map] in key order. *)
Record Pipeline := mkPipeline {
  pl_request_queue : list CXLRequest;
  pl_read_credits : Z;
  pl_write_credits : Z;
  pl_in_flight : list (Z * CXLRequest)
}.

(** [occupation] and what is derived from it. *)
Record Tracking := mkTracking {
  tk_occupation : list occupation_info;
  tk_address_cache : gset Z;
  tk_cache_valid : bool;
  tk_address_ranges : list (Z * Z)          (* start, end *)
}.

Set Implicit Arguments.

(** The members that only the constructor sets. *)
Record ExpanderConfig (D : Type) := mkExpanderConfig {
  xc_id : Z;
  xc_capacity : Z;
  xc_bandwidth_read : D;
  xc_bandwidth_write : D;
  xc_latency_read : D;
  xc_latency_write : D
}.

Record CXLMemExpander (D : Type) := mkExpander {
  ex_config : ExpanderConfig D;
  ex_pipeline : Pipeline;
  ex_tracking : Tracking;
  ex_counter : CXLMemExpanderEvent;
  ex_last_counter : CXLMemExpanderEvent;
  ex_epoch : Z;
  ex_last_timestamp : Z
}.

Unset Implicit Arguments.

Definition event_zero : CXLMemExpanderEvent := mkExpanderEvent 0 0 0 0 0.

Definition inc_load (e : CXLMemExpanderEvent) : CXLMemExpanderEvent :=
  mkExpanderEvent (xe_load e ⊞ 1) (xe_store e) (xe_migrate_in e) (xe_migrate_out e) (xe_hit_old e).

Definition inc_store (e : CXLMemExpanderEvent) : CXLMemExpanderEvent :=
  mkExpanderEvent (xe_load e) (xe_store e ⊞ 1) (xe_migrate_in e) (xe_migrate_out e) (xe_hit_old e).

Definition inc_migrate_in (e : CXLMemExpanderEvent) : CXLMemExpanderEvent :=
  mkExpanderEvent (xe_load e) (xe_store e) (xe_migrate_in e ⊞ 1) (xe_migrate_out e) (xe_hit_old e).

Definition inc_migrate_out (e : CXLMemExpanderEvent) : CXLMemExpanderEvent :=
  mkExpanderEvent (xe_load e) (xe_store e) (xe_migrate_in e) (xe_migrate_out e ⊞ 1) (xe_hit_old e).

Definition inc_hit_old (e : CXLMemExpanderEvent) : CXLMemExpanderEvent :=
  mkExpanderEvent (xe_load e) (xe_store e) (xe_migrate_in e) (xe_migrate_out e) (xe_hit_old e ⊞ 1).

(** [static_cast<int>]. *)
Definition to_int (z : Z) : Z := if wrap32 z <? 2 ^ 31 then wrap32 z else wrap32 z - 2 ^ 32.

(** ** The record of addresses *)
Definition occ_addresses (os : list occupation_info) : list Z := oi_address <$> os.

Definition update_address_cache (t : Tracking) : Tracking :=
  if tk_cache_valid t then t
  else mkTracking (tk_occupation t) (list_to_set (occ_addresses (tk_occupation t))) true (tk_address_ranges t).

Definition invalidate_cache (t : Tracking) : Tracking :=
  mkTracking (tk_occupation t) (tk_address_cache t) false (tk_address_ranges t).

Definition set_occupation (os : list occupation_info) (t : Tracking) : Tracking :=
  mkTracking os (tk_address_cache t) (tk_cache_valid t) (tk_address_ranges t).

Definition occ_le (a b : occupation_info) : Prop := oi_address a <= oi_address b.

#[global] Instance occ_le_dec (a b : occupation_info) : Decision (occ_le a b).
Proof. unfold occ_le. apply _. Defined.

(** The merging loop: [start] and [end_] are the range being built. *)
Fixpoint merge_ranges (start end_ : Z) (addrs : list Z) : list (Z * Z) :=
  match addrs with
  | [] => [(start, end_)]
  | a :: addrs' =>
      if a =? end_ ⊞ 1 then merge_ranges start a addrs' else (start, end_) :: merge_ranges a a addrs'
  end.

Definition address_ranges_of (addrs : list Z) : list (Z * Z) :=
  match addrs with [] => [] | a :: addrs' => merge_ranges a a addrs' end.

(** [std::sort] leaves equal addresses in any order; their other fields do not matter here. *)
Definition update_range_cache (t : Tracking) : Tracking :=
  if tk_cache_valid t then t
  else
    let sorted := merge_sort occ_le (tk_occupation t) in
    mkTracking sorted (tk_address_cache t) true (address_ranges_of (occ_addresses sorted)).

(** [std::lower_bound]: the first range that does not end before the address. *)
Fixpoint lower_bound (addr : Z) (rs : list (Z * Z)) : option (Z * Z) :=
  match rs with
  | [] => None
  | r :: rs' => if r.2 <? addr then lower_bound addr rs' else Some r
  end.

Definition in_ranges (addr : Z) (rs : list (Z * Z)) : bool :=
  match lower_bound addr rs with
  | Some (s, e) => (s <=? addr) && (addr <=? e)
  | None => false
  end.

Definition is_address_local (addr : Z) (t : Tracking) : bool * Tracking :=
  let t1 := if tk_cache_valid t then t else update_range_cache t in
  (in_ranges addr (tk_address_ranges t1), t1).

(** [occupation.erase] of the first entry of an address, if there is one. *)
Fixpoint erase_address (addr : Z) (os : list occupation_info) : option (list occupation_info) :=
  match os with
  | [] => None
  | o :: os' => if oi_address o =? addr then Some os' else cons o <$> erase_address addr os'
  end.

(** The two loops of [delete_entry], which update entries but delete none. *)
Definition touches_entry (addr length : Z) (o : occupation_info) : bool :=
  (oi_address o =? addr) || ((addr <=? oi_address o) && (oi_address o <=? addr ⊞ length)).

Definition touch_entry (addr length last_timestamp : Z) (o : occupation_info) : occupation_info :=
  if touches_entry addr length o then mkOccupation last_timestamp (oi_address o) (oi_access_count o ⊞ 1) else o.

(** ** The pipeline *)
Definition can_accept_request (p : Pipeline) : bool := Z.of_nat (length (pl_request_queue p)) <? MAX_QUEUE_SIZE.

Definition has_credits (is_read : bool) (p : Pipeline) : bool :=
  0 <? (if is_read then pl_read_credits p else pl_write_credits p).

Definition set_pipe_credits (r w : Z) (p : Pipeline) : Pipeline := mkPipeline (pl_request_queue p) r w (pl_in_flight p).

Definition consume_credit (is_read : bool) (p : Pipeline) : Pipeline :=
  if is_read then set_pipe_credits (pl_read_credits p ⊟ 1) (pl_write_credits p) p
  else set_pipe_credits (pl_read_credits p) (pl_write_credits p ⊟ 1) p.

Definition release_credit (is_read : bool) (p : Pipeline) : Pipeline :=
  if is_read then
    if pl_read_credits p <? INITIAL_CREDITS then set_pipe_credits (pl_read_credits p ⊞ 1) (pl_write_credits p) p else p
  else
    if pl_write_credits p <? INITIAL_CREDITS then set_pipe_credits (pl_read_credits p) (pl_write_credits p ⊞ 1) p else p.

Definition set_queue (q : list CXLRequest) (p : Pipeline) : Pipeline :=
  mkPipeline q (pl_read_credits p) (pl_write_credits p) (pl_in_flight p).

Definition set_in_flight (f : list (Z * CXLRequest)) (p : Pipeline) : Pipeline :=
  mkPipeline (pl_request_queue p) (pl_read_credits p) (pl_write_credits p) f.

(** [in_flight_requests_[address] = req]. *)
Fixpoint in_flight_store (addr : Z) (req : CXLRequest) (f : list (Z * CXLRequest)) : list (Z * CXLRequest) :=
  match f with
  | [] => [(addr, req)]
  | (a, r) :: f' =>
      if addr <? a then (addr, req) :: f
      else if addr =? a then (addr, req) :: f'
      else (a, r) :: in_flight_store addr req f'
  end.

Definition in_flight (addr : Z) (p : Pipeline) : bool := existsb (fun e => e.1 =? addr) (pl_in_flight p).

(** The first loop of [process_queued_requests]: the entries that stay, and the credits. *)
Fixpoint retire (now : Z) (f : list (Z * CXLRequest)) (p : Pipeline) : list (Z * CXLRequest) * Pipeline :=
  match f with
  | [] => ([], p)
  | (a, r) :: f' =>
      if cr_complete_time r <=? now then retire now f' (release_credit (cr_is_read r) p)
      else let '(kept, p1) := retire now f' p in ((a, r) :: kept, p1)
  end.

Section Expander.
Context {D : Type} `{Double D}.
#[local] Open Scope double_scope.

Definition expander_new (read_bw write_bw read_lat write_lat id capacity : Z) : CXLMemExpander D :=
  mkExpander
    (mkExpanderConfig id (wrap64 capacity) (d_of_Z read_bw) (d_of_Z write_bw) (d_of_Z read_lat) (d_of_Z write_lat))
    (mkPipeline [] INITIAL_CREDITS INITIAL_CREDITS []) (mkTracking [] ∅ false []) event_zero event_zero 0 0.

Definition frontend_latency_ : D := d_of_Z 10.

Definition forward_latency_ : D := d_of_Z 15.

Definition response_latency_ : D := d_of_Z 20.

Definition set_pipeline (p : Pipeline) (x : CXLMemExpander D) : CXLMemExpander D :=
  mkExpander (ex_config x) p (ex_tracking x) (ex_counter x) (ex_last_counter x) (ex_epoch x) (ex_last_timestamp x).

Definition set_tracking (t : Tracking) (x : CXLMemExpander D) : CXLMemExpander D :=
  mkExpander (ex_config x) (ex_pipeline x) t (ex_counter x) (ex_last_counter x) (ex_epoch x) (ex_last_timestamp x).

Definition set_counter (e : CXLMemExpanderEvent) (x : CXLMemExpander D) : CXLMemExpander D :=
  mkExpander (ex_config x) (ex_pipeline x) (ex_tracking x) e (ex_last_counter x) (ex_epoch x) (ex_last_timestamp x).

Definition see_time (timestamp : Z) (x : CXLMemExpander D) : CXLMemExpander D :=
  mkExpander (ex_config x) (ex_pipeline x) (ex_tracking x) (ex_counter x) (ex_last_counter x) (ex_epoch x)
    (if timestamp <? ex_last_timestamp x then ex_last_timestamp x else timestamp).

Definition calculate_congestion_delay (p : Pipeline) : D :=
  let queue_utilization := d_of_Z (Z.of_nat (length (pl_request_queue p))) ⊘ d_of_Z MAX_QUEUE_SIZE in
  if queue_utilization ⋖ d_lit 5 10 then d_of_Z 0
  else if queue_utilization ⋖ d_lit 8 10 then (queue_utilization ⊖ d_lit 5 10) ⊗ d_of_Z 20
  else d_of_Z 6 ⊕ (queue_utilization ⊖ d_lit 8 10) ⊗ d_of_Z 100.

Definition calculate_protocol_overhead (data_size : Z) : D :=
  let num_flits := (data_size ⊞ FLIT_SIZE ⊟ 1) / FLIT_SIZE in
  d_of_Z (num_flits ⊠ DATA_FLIT) ⊗ d_lit 1 10.

Definition calculate_pipeline_latency (c : ExpanderConfig D) (p : Pipeline) (req : CXLRequest) : D :=
  d_of_Z 0 ⊕ frontend_latency_ ⊕ forward_latency_
    ⊕ (if cr_is_read req then xc_latency_read c else xc_latency_write c)
    ⊕ response_latency_ ⊕ calculate_protocol_overhead 64 ⊕ calculate_congestion_delay p.

(** The second loop: issue the queued requests in order while credits last. *)
Fixpoint issue (c : ExpanderConfig D) (now : Z) (queue : list CXLRequest) (p : Pipeline) : Pipeline :=
  match queue with
  | [] => p
  | req :: rest =>
      if negb (Z.of_nat (length (pl_in_flight p)) <? MAX_QUEUE_SIZE / 2) then p
      else if negb (has_credits (cr_is_read req) p) then p
      else
        let p1 := consume_credit (cr_is_read req) p in
        let req1 := mkCXLRequest (cr_timestamp req) (cr_address req) (cr_tid req) (cr_is_read req) (cr_is_write req)
                      now (d_to_u64 (d_of_Z now ⊕ calculate_pipeline_latency c p1 req)) in
        issue c now rest (set_queue rest (set_in_flight (in_flight_store (cr_address req) req1 (pl_in_flight p1)) p1))
  end.

Definition process_queued_requests (c : ExpanderConfig D) (now : Z) (p : Pipeline) : Pipeline :=
  let '(kept, p1) := retire now (pl_in_flight p) p in
  issue c now (pl_request_queue p) (set_in_flight kept p1).

(** ** The expander *)

(** The request that [insert] queues; its times are set when it is issued. *)
Definition new_request (timestamp tid addr : Z) (is_read : bool) : CXLRequest :=
  mkCXLRequest timestamp addr tid is_read (negb is_read) 0 0.

Definition push_request (r : CXLRequest) (p : Pipeline) : Pipeline := set_queue (pl_request_queue p ++ [r]) p.

(** The entry of an address that [insert] finds through the address cache. *)
Definition known_entry (addr : Z) (t : Tracking) : option (list occupation_info) :=
  if bool_decide (addr ∈ tk_address_cache t) then erase_address addr (tk_occupation t) else None.

Definition record_new (timestamp addr : Z) (t : Tracking) : Tracking :=
  mkTracking (tk_occupation t ++ [mkOccupation timestamp addr 0]) ({[addr]} ∪ tk_address_cache t)
    (tk_cache_valid t) (tk_address_ranges t).

Definition expander_insert (timestamp tid phys_addr index : Z) (x : CXLMemExpander D) : Z * CXLMemExpander D :=
  if negb (index =? xc_id (ex_config x)) then (0, x)
  else
    let x1 := see_time timestamp x in
    let x2 := set_pipeline (process_queued_requests (ex_config x1) timestamp (ex_pipeline x1)) x1 in
    if phys_addr =? 0 then (1, set_counter (inc_store (ex_counter x2)) x2)
    else if negb (can_accept_request (ex_pipeline x2)) then (0, set_counter (inc_hit_old (ex_counter x2)) x2)
    else
      match known_entry phys_addr (ex_tracking x2) with
      | Some rest =>
          let x3 := set_pipeline (push_request (new_request timestamp tid phys_addr true) (ex_pipeline x2)) x2 in
          let x4 := set_tracking (set_occupation (rest ++ [mkOccupation timestamp phys_addr 0]) (ex_tracking x3)) x3 in
          (2, set_counter (inc_load (ex_counter x4)) x4)
      | None =>
          let x3 := set_pipeline (push_request (new_request timestamp tid phys_addr false) (ex_pipeline x2)) x2 in
          let x4 := set_tracking (record_new timestamp phys_addr (ex_tracking x3)) x3 in
          (1, set_counter (inc_store (ex_counter x4)) x4)
      end.

(** One access of the loop of [calculate_latency]: the sum, the count, the time of the last
    local access, and the tracking state. *)
Definition latency_of (c : ExpanderConfig D) (p : Pipeline) (dramlatency : D) (timestamp addr last_timestamp : Z) : D :=
  let current :=
    if in_flight addr p then xc_latency_read c ⊗ d_lit 3 10
    else
      let full := calculate_pipeline_latency c p (new_request timestamp 0 addr true) in
      if (0 <? last_timestamp) && (timestamp ⊟ last_timestamp <? 100) then
        let overlap_ratio := d_of_Z 1 ⊖ (d_of_Z (timestamp ⊟ last_timestamp) ⊘ d_of_Z 100) in
        full ⊖ (full ⊗ overlap_ratio ⊗ d_lit 5 10)
      else full in
  current ⊕ (dramlatency ⊗ d_lit 1 10).

Fixpoint latency_loop (c : ExpanderConfig D) (p : Pipeline) (dramlatency : D) (elem : list (Z * Z))
    (total : D) (count last_timestamp : Z) (t : Tracking) : D * Z * Tracking :=
  match elem with
  | [] => (total, count, t)
  | (timestamp, addr) :: elem' =>
      let '(local, t1) := is_address_local addr t in
      if local then
        latency_loop c p dramlatency elem' (total ⊕ latency_of c p dramlatency timestamp addr last_timestamp)
          (count ⊞ 1) timestamp t1
      else latency_loop c p dramlatency elem' total count last_timestamp t1
  end.

Definition expander_latency (elem : list (Z * Z)) (dramlatency : D) (x : CXLMemExpander D) : D * CXLMemExpander D :=
  match last elem with
  | None => (d_of_Z 0, x)
  | Some (now, _) =>
      let p := process_queued_requests (ex_config x) now (ex_pipeline x) in
      let '(total, count, t) :=
        latency_loop (ex_config x) p dramlatency elem (d_of_Z 0) 0 0 (update_address_cache (ex_tracking x)) in
      let total' := if Z.of_nat (length (pl_request_queue p)) <? MAX_QUEUE_SIZE / 4 then total ⊗ d_lit 9 10 else total in
      (if 0 <? count then total' ⊘ d_of_Z count else d_of_Z 0, set_tracking t (set_pipeline p x))
  end.

(** Accesses of the last 20 ms, in bytes per line, as a rate; the window start wraps around. *)
Definition window_accesses (keep : Z -> bool) (elem : list (Z * Z)) (now : Z) : Z :=
  Z.of_nat (length (filter (fun e => (now ⊟ 20000000 <=? e.1) && keep e.2 = true) elem)).

Definition rate_gbps (accesses : Z) : D :=
  d_of_Z (accesses ⊠ 64) ⊘ d_lit 2 100 ⊘ (d_of_Z 1024 ⊗ d_of_Z 1024 ⊗ d_of_Z 1024).

Definition expander_bandwidth (elem : list (Z * Z)) (x : CXLMemExpander D) : D :=
  match last elem with
  | None => d_of_Z 0
  | Some (now, _) =>
      let max_bandwidth := xc_bandwidth_read (ex_config x) ⊕ xc_bandwidth_write (ex_config x) in
      d_min (rate_gbps (window_accesses (fun _ => true) elem now) ⊖ max_bandwidth) (d_of_Z 0)
  end.

Definition expander_delete_entry (addr length : Z) (x : CXLMemExpander D) : CXLMemExpander D :=
  let t := ex_tracking x in
  let t1 := set_occupation (touch_entry addr length (ex_last_timestamp x) <$> tk_occupation t) t in
  let t2 := if existsb (touches_entry addr length) (tk_occupation t) then invalidate_cache t1 else t1 in
  set_counter (inc_load (ex_counter x)) (set_tracking t2 x).

Definition expander_get_access (timestamp : Z) (x : CXLMemExpander D) : list (Z * Z) * CXLMemExpander D :=
  ((fun o => (oi_timestamp o, oi_address o)) <$>
     filter (fun o => timestamp ⊟ 100000 < oi_timestamp o) (tk_occupation (ex_tracking x)),
   mkExpander (ex_config x) (ex_pipeline x) (ex_tracking x) (ex_counter x) (ex_counter x) (ex_epoch x) (ex_last_timestamp x)).

Definition expander_set_epoch (epoch : Z) (x : CXLMemExpander D) : CXLMemExpander D :=
  mkExpander (ex_config x) (ex_pipeline x) (ex_tracking x) (ex_counter x) (ex_last_counter x) epoch (ex_last_timestamp x).

(** [free_stats] drops each entry on the toss of a coin. *)
Fixpoint drop_entries (coins : nat -> bool) (os : list occupation_info) : list occupation_info :=
  match os with
  | [] => []
  | o :: os' => let rest := drop_entries (fun i => coins (S i)) os' in if coins O then rest else o :: rest
  end.

Definition expander_free_stats (coins : nat -> bool) (x : CXLMemExpander D) : CXLMemExpander D :=
  let t := ex_tracking x in
  let os := drop_entries coins (tk_occupation t) in
  let t1 := set_occupation os t in
  set_tracking (if (length os =? length (tk_occupation t))%nat then t1 else invalidate_cache t1) x.

(** ** What the controller does to an expander *)

(** The query loop of [CXLSwitch::get_endpoint_rob_latency]. *)
Fixpoint query_local (addrs : list Z) (t : Tracking) : list bool * Tracking :=
  match addrs with
  | [] => ([], t)
  | a :: addrs' =>
      let '(b, t1) := is_address_local a t in
      let '(bs, t2) := query_local addrs' t1 in (b :: bs, t2)
  end.

Definition expander_query (addrs : list Z) (x : CXLMemExpander D) : list bool * CXLMemExpander D :=
  let '(bs, t) := query_local addrs (update_address_cache (ex_tracking x)) in (bs, set_tracking t x).

(** [invalidate_in_expanders]: how many entries were erased, and the expander. *)
Definition expander_invalidate (addr : Z) (x : CXLMemExpander D) : Z * CXLMemExpander D :=
  let os := tk_occupation (ex_tracking x) in
  let kept := filter (fun o => oi_address o <> addr) os in
  (Z.of_nat (length os - length kept), set_tracking (set_occupation kept (ex_tracking x)) x).

(** The two directions of [perform_migration]. *)
Definition expander_migrate_in (info : occupation_info) (x : CXLMemExpander D) : CXLMemExpander D :=
  let t := ex_tracking x in
  set_counter (inc_migrate_in (ex_counter x)) (set_tracking (set_occupation (tk_occupation t ++ [info]) t) x).

Definition find_address (addr : Z) (os : list occupation_info) : option occupation_info :=
  snd <$> list_find (fun o => oi_address o = addr) os.

Definition expander_migrate_out (addr : Z) (x : CXLMemExpander D) : option (occupation_info * CXLMemExpander D) :=
  let t := ex_tracking x in
  info ← find_address addr (tk_occupation t);
  rest ← erase_address addr (tk_occupation t);
  Some (info, set_counter (inc_migrate_out (ex_counter x)) (set_tracking (set_occupation rest t) x)).
End Expander.

(** ** The remote expander *)
Record ShadowEntry := mkShadowEntry {
  sd_local_state : MHSLDCacheState;
  sd_last_access_time : Z;
  sd_valid : bool
}.

Set Implicit Arguments.

(** [rx_has_engine]: [coherency_engine_] points to the engine of the controller. *)
Record RemoteCXLExpander (D : Type) := mkRemote {
  rx_base : CXLMemExpander D;
  rx_remote_node_id : Z;
  rx_local_node_id : Z;
  rx_fabric_link : FabricLink D;
  rx_has_engine : bool;
  rx_remote_base_addr : Z;
  rx_remote_capacity : Z;
  rx_shadow_directory : gmap Z ShadowEntry
}.

Unset Implicit Arguments.

Section Remote.
Context {D : Type} `{Double D}.
#[local] Open Scope double_scope.

Definition remote_new (id remote_node local_node remote_base remote_capacity : Z) (cfg : FabricLinkConfig D)
    (has_engine : bool) : RemoteCXLExpander D :=
  mkRemote (expander_new 25 25 100 150 id (to_int (remote_capacity / (1024 * 1024)))) remote_node local_node
    (fabric_link_new local_node remote_node cfg) has_engine remote_base remote_capacity ∅.

Definition set_base (x : CXLMemExpander D) (r : RemoteCXLExpander D) : RemoteCXLExpander D :=
  mkRemote x (rx_remote_node_id r) (rx_local_node_id r) (rx_fabric_link r) (rx_has_engine r)
    (rx_remote_base_addr r) (rx_remote_capacity r) (rx_shadow_directory r).

Definition set_link (l : FabricLink D) (r : RemoteCXLExpander D) : RemoteCXLExpander D :=
  mkRemote (rx_base r) (rx_remote_node_id r) (rx_local_node_id r) l (rx_has_engine r)
    (rx_remote_base_addr r) (rx_remote_capacity r) (rx_shadow_directory r).

Definition set_shadow (s : gmap Z ShadowEntry) (r : RemoteCXLExpander D) : RemoteCXLExpander D :=
  mkRemote (rx_base r) (rx_remote_node_id r) (rx_local_node_id r) (rx_fabric_link r) (rx_has_engine r)
    (rx_remote_base_addr r) (rx_remote_capacity r) s.

Definition update_shadow (addr : Z) (st : MHSLDCacheState) (ts : Z) (r : RemoteCXLExpander D) : RemoteCXLExpander D :=
  set_shadow (<[line_of addr := mkShadowEntry st ts true]> (rx_shadow_directory r)) r.

Definition invalidate_shadow (addr : Z) (r : RemoteCXLExpander D) : RemoteCXLExpander D :=
  match rx_shadow_directory r !! line_of addr with
  | Some e => set_shadow (<[line_of addr := mkShadowEntry INVALID (sd_last_access_time e) false]> (rx_shadow_directory r)) r
  | None => r
  end.

Definition remote_insert (timestamp tid phys_addr index : Z) (r : RemoteCXLExpander D) : Z * RemoteCXLExpander D :=
  let x := rx_base r in
  if negb (index =? xc_id (ex_config x)) then (0, r)
  else
    let x1 := see_time timestamp x in
    if phys_addr =? 0 then (1, set_base (set_counter (inc_store (ex_counter x1)) x1) r)
    else
      match known_entry phys_addr (ex_tracking x1) with
      | Some rest =>
          let x2 := set_tracking (set_occupation (rest ++ [mkOccupation timestamp phys_addr 0]) (ex_tracking x1)) x1 in
          (2, update_shadow phys_addr SHARED timestamp (set_base (set_counter (inc_load (ex_counter x2)) x2) r))
      | None =>
          let x2 := set_tracking (record_new timestamp phys_addr (ex_tracking x1)) x1 in
          (1, update_shadow phys_addr SHARED timestamp (set_base (set_counter (inc_store (ex_counter x2)) x2) r))
      end.

(** [addr >= base && addr < base + capacity], in 64 bits. *)
Definition in_remote (r : RemoteCXLExpander D) (addr : Z) : bool :=
  (rx_remote_base_addr r <=? addr) && (addr <? rx_remote_base_addr r ⊞ rx_remote_capacity r).

(** One access: the link, then the engine if there is one. *)
Definition remote_access (timestamp addr : Z) (r : RemoteCXLExpander D) (g : option (CoherencyEngine D)) :
    D * RemoteCXLExpander D * option (CoherencyEngine D) :=
  let l0 := d_of_Z 0 ⊕ frontend_latency_ ⊕ forward_latency_ in
  let '(traversal, link) := calculate_traversal_latency (rx_fabric_link r) timestamp 64 in
  let l1 := l0 ⊕ traversal in
  let '(l2, g1) :=
    match g with
    | Some e =>
        if rx_has_engine r then
          let '(coh, e') := process_read (mkCoherencyRequest addr (rx_local_node_id r) 0 false timestamp) e in
          (l1 ⊕ rs_latency_ns coh, Some e')
        else (l1, g)
    | None => (l1, g)
    end in
  (l2 ⊕ xc_latency_read (ex_config (rx_base r)) ⊕ response_latency_ ⊕ calculate_congestion_delay (ex_pipeline (rx_base r)),
   set_link link r, g1).

Fixpoint remote_latency_loop (elem : list (Z * Z)) (total : D) (count : Z) (r : RemoteCXLExpander D)
    (g : option (CoherencyEngine D)) : D * Z * RemoteCXLExpander D * option (CoherencyEngine D) :=
  match elem with
  | [] => (total, count, r, g)
  | (timestamp, addr) :: elem' =>
      if in_remote r addr then
        let '(l, r1, g1) := remote_access timestamp addr r g in
        remote_latency_loop elem' (total ⊕ l) (count ⊞ 1) r1 g1
      else remote_latency_loop elem' total count r g
  end.

Definition remote_latency (elem : list (Z * Z)) (r : RemoteCXLExpander D) (g : option (CoherencyEngine D)) :
    D * RemoteCXLExpander D * option (CoherencyEngine D) :=
  let '(total, count, r1, g1) := remote_latency_loop elem (d_of_Z 0) 0 r g in
  (if 0 <? count then total ⊘ d_of_Z count else d_of_Z 0, r1, g1).

Definition remote_bandwidth (elem : list (Z * Z)) (r : RemoteCXLExpander D) : D :=
  match last elem with
  | None => d_of_Z 0
  | Some (now, _) =>
      d_min (rate_gbps (window_accesses (in_remote r) elem now) ⊖ fc_bandwidth_gbps (fl_config (rx_fabric_link r))) (d_of_Z 0)
  end.
End Remote.

(** ** Everything that can happen to an expander, with or without migration *)
Inductive expander_step {D} `{Double D} (migration : bool) : CXLMemExpander D -> CXLMemExpander D -> Prop :=
| XInsert timestamp tid addr index x : expander_step migration x (expander_insert timestamp tid addr index x).2
| XLatency elem dramlatency x : expander_step migration x (expander_latency elem dramlatency x).2
| XDelete addr length x : expander_step migration x (expander_delete_entry addr length x)
| XAccess timestamp x : expander_step migration x (expander_get_access timestamp x).2
| XEpoch epoch x : expander_step migration x (expander_set_epoch epoch x)
| XFree coins x : expander_step migration x (expander_free_stats coins x)
| XQuery addrs x : expander_step migration x (expander_query addrs x).2
| XInvalidate addr x : expander_step migration x (expander_invalidate addr x).2
| XMigrateIn info x : migration = true -> expander_step migration x (expander_migrate_in info x)
| XMigrateOut addr x info x' :
    migration = true -> expander_migrate_out addr x = Some (info, x') -> expander_step migration x x'.

(** ** Flow control *)
Definition credit (is_read : bool) (p : Pipeline) : Z := if is_read then pl_read_credits p else pl_write_credits p.

Definition flying (is_read : bool) (f : list (Z * CXLRequest)) : Z :=
  Z.of_nat (length (filter (fun e => cr_is_read e.2 = is_read) f)).

(** Credits never exceed what is not in flight, and the queue is bounded. *)
Definition flow_ok (p : Pipeline) : Prop :=
  (forall b, 0 <= credit b p /\ credit b p + flying b (pl_in_flight p) <= INITIAL_CREDITS) /\
  Z.of_nat (length (pl_request_queue p)) <= MAX_QUEUE_SIZE.

Lemma flying_cons (b : bool) (e : Z * CXLRequest) (f : list (Z * CXLRequest)) :
  flying b (e :: f) = (if Bool.eqb (cr_is_read e.2) b then 1 else 0) + flying b f.
Proof.
  unfold flying. rewrite filter_cons. destruct (cr_is_read e.2), b; cbn [Bool.eqb]; case_decide; cbn [length]; congruence || lia.
Qed.

Lemma flying_nonneg (b : bool) (f : list (Z * CXLRequest)) : 0 <= flying b f.
Proof. unfold flying. lia. Qed.

Lemma flying_length (f : list (Z * CXLRequest)) : Z.of_nat (length f) = flying true f + flying false f.
Proof. induction f as [|e f IH]; [done|]. rewrite !flying_cons. cbn [length]. destruct (cr_is_read e.2); cbn [Bool.eqb]; lia. Qed.

Lemma flying_store (b : bool) (a : Z) (r : CXLRequest) (f : list (Z * CXLRequest)) :
  flying b (in_flight_store a r f) <= (if Bool.eqb (cr_is_read r) b then 1 else 0) + flying b f.
Proof.
  induction f as [|[a' r'] f IH]; cbn [in_flight_store]; [by rewrite flying_cons|].
  repeat case_match; rewrite ?flying_cons in *; cbn [snd] in *; repeat case_match; lia.
Qed.

Lemma flying_store_new (b : bool) (a : Z) (r : CXLRequest) (f : list (Z * CXLRequest)) :
  a ∉ f.*1 -> flying b (in_flight_store a r f) = (if Bool.eqb (cr_is_read r) b then 1 else 0) + flying b f.
Proof.
  intros Ha. induction f as [|[a' r'] f IH]; cbn [in_flight_store]; [by rewrite flying_cons|].
  cbn [fmap list_fmap fst] in Ha. apply not_elem_of_cons in Ha as [Hne Ha].
  destruct (a <? a'); [by rewrite flying_cons|]. destruct (Z.eqb_spec a a') as [E|_]; [done|]. rewrite !flying_cons, IH by done. lia.
Qed.

Lemma credit_release (b b' : bool) (p : Pipeline) :
  0 <= credit b p < INITIAL_CREDITS -> credit b' (release_credit b p) = credit b' p + (if Bool.eqb b b' then 1 else 0).
Proof.
  intros Hc. unfold release_credit, credit, INITIAL_CREDITS in *.
  destruct b, b'; cbn [Bool.eqb] in *; case_goal; try lia; cbn [set_pipe_credits pl_read_credits pl_write_credits];
    rewrite ?wrap64_small by (unfold u64; lia); lia.
Qed.

Lemma credit_consume (b b' : bool) (p : Pipeline) :
  0 < credit b p <= INITIAL_CREDITS -> credit b' (consume_credit b p) = credit b' p - (if Bool.eqb b b' then 1 else 0).
Proof.
  intros Hc. unfold consume_credit, credit, INITIAL_CREDITS in *.
  destruct b, b'; cbn [Bool.eqb set_pipe_credits pl_read_credits pl_write_credits] in *;
    rewrite ?wrap64_small by (unfold u64; lia); lia.
Qed.

Lemma release_frame (b : bool) (p : Pipeline) :
  pl_request_queue (release_credit b p) = pl_request_queue p /\ pl_in_flight (release_credit b p) = pl_in_flight p.
Proof. unfold release_credit. by destruct b; case_goal. Qed.

Lemma consume_frame (b : bool) (p : Pipeline) :
  pl_request_queue (consume_credit b p) = pl_request_queue p /\ pl_in_flight (consume_credit b p) = pl_in_flight p.
Proof. by destruct b. Qed.

Lemma retire_spec (now : Z) (f : list (Z * CXLRequest)) (p : Pipeline) :
  (forall b, 0 <= credit b p /\ credit b p + flying b f <= INITIAL_CREDITS) ->
  let r := retire now f p in
  r.1 = filter (fun e => now < cr_complete_time e.2) f /\ pl_request_queue r.2 = pl_request_queue p /\
  (forall b, 0 <= credit b r.2 /\ credit b r.2 + flying b r.1 = credit b p + flying b f).
Proof.
  revert p. induction f as [|[a q] f IH]; intros p Hp; cbn [retire]; [split_and!; [done..|]; intros b; specialize (Hp b); cbn [fst snd]; lia|].
  assert (Hf : forall b, flying b ((a, q) :: f) = (if Bool.eqb (cr_is_read q) b then 1 else 0) + flying b f) by (intros b; apply flying_cons).
  rewrite filter_cons. cbn [snd]. destruct (Z.leb_spec (cr_complete_time q) now) as [Hd|Hd]; case_decide as Hx; try lia.
  - assert (Hc : 0 <= credit (cr_is_read q) p < INITIAL_CREDITS).
    { specialize (Hp (cr_is_read q)). rewrite Hf, Bool.eqb_reflx in Hp. assert (Hn := flying_nonneg (cr_is_read q) f). lia. }
    destruct (IH (release_credit (cr_is_read q) p)) as (H1 & H2 & H3).
    { intros b. rewrite credit_release by done. specialize (Hp b). rewrite Hf in Hp. destruct (Bool.eqb _ _); lia. }
    split; [done|]. split; [rewrite H2; apply release_frame|]. intros b. specialize (H3 b). rewrite credit_release in H3 by done. rewrite Hf. lia.
  - destruct (IH p) as (H1 & H2 & H3).
    { intros b. specialize (Hp b). rewrite Hf in Hp. destruct (Bool.eqb _ _); lia. }
    destruct (retire now f p) as [kept p1]. cbn [fst snd] in *. split; [by rewrite H1|]. split; [done|].
    intros b. specialize (H3 b). rewrite Hf, flying_cons. cbn [snd]. lia.
Qed.

Section Flow.
Context {D : Type} `{Double D}.

(** What one turn of the issue loop does to credits and flights. *)
Definition issued (c : ExpanderConfig D) (now : Z) (req : CXLRequest) (rest : list CXLRequest) (p : Pipeline) : Pipeline :=
  let p1 := consume_credit (cr_is_read req) p in
  let req1 := mkCXLRequest (cr_timestamp req) (cr_address req) (cr_tid req) (cr_is_read req) (cr_is_write req)
                now (d_to_u64 (d_add (d_of_Z now) (calculate_pipeline_latency c p1 req))) in
  set_queue rest (set_in_flight (in_flight_store (cr_address req) req1 (pl_in_flight p1)) p1).

Lemma issued_credit (c : ExpanderConfig D) (now : Z) (req : CXLRequest) (rest : list CXLRequest) (p : Pipeline) (b : bool) :
  0 < credit (cr_is_read req) p <= INITIAL_CREDITS ->
  credit b (issued c now req rest p) = credit b p - (if Bool.eqb (cr_is_read req) b then 1 else 0).
Proof. intros Hc. rewrite <- credit_consume by done. done. Qed.

Lemma issued_ok (c : ExpanderConfig D) (now : Z) (req : CXLRequest) (rest : list CXLRequest) (p : Pipeline) :
  pl_request_queue p = req :: rest -> has_credits (cr_is_read req) p = true -> flow_ok p -> flow_ok (issued c now req rest p).
Proof.
  intros Hq Hh [Hp Hl]. unfold has_credits in Hh. apply Z.ltb_lt in Hh. fold (credit (cr_is_read req) p) in Hh.
  assert (Hc : 0 < credit (cr_is_read req) p <= INITIAL_CREDITS).
  { destruct (Hp (cr_is_read req)) as [_ Hr]. assert (Hn := flying_nonneg (cr_is_read req) (pl_in_flight p)). lia. }
  split; [|cbn; rewrite Hq in Hl; cbn [length] in Hl; lia].
  intros b. rewrite issued_credit by done. destruct (Hp b) as [H1 H2]. unfold issued. cbn [pl_in_flight set_queue set_in_flight].
  rewrite (proj2 (consume_frame _ _)).
  match goal with |- context [in_flight_store ?a ?r ?f] => assert (Hs := flying_store b a r f) end. cbn [cr_is_read] in Hs.
  destruct (Bool.eqb (cr_is_read req) b) eqn:E; [apply Bool.eqb_prop in E; subst b|]; lia.
Qed.

Lemma issue_ok (c : ExpanderConfig D) (now : Z) (queue : list CXLRequest) (p : Pipeline) :
  pl_request_queue p = queue -> flow_ok p ->
  flow_ok (issue c now queue p) /\ exists front, queue = front ++ pl_request_queue (issue c now queue p).
Proof.
  revert p. induction queue as [|req rest IH]; intros p Hq Hp; cbn [issue]; [split; [done|by exists []]|].
  destruct (_ <? _); cbn [negb]; [|split; [done|by exists []; rewrite Hq]].
  destruct (has_credits (cr_is_read req) p) eqn:Hh; cbn [negb]; [|split; [done|by exists []; rewrite Hq]].
  destruct (IH (issued c now req rest p)) as [H1 [front Hf]]; [done|by apply issued_ok|].
  split; [exact H1|]. exists (req :: front). cbn. f_equal. exact Hf.
Qed.

Lemma process_ok (c : ExpanderConfig D) (now : Z) (p : Pipeline) :
  flow_ok p -> flow_ok (process_queued_requests c now p) /\
    exists front, pl_request_queue p = front ++ pl_request_queue (process_queued_requests c now p).
Proof.
  intros [Hp Hl]. unfold process_queued_requests. assert (Hr := retire_spec now (pl_in_flight p) p Hp).
  destruct (retire now (pl_in_flight p) p) as [kept p1]. cbn [fst snd] in Hr. destruct Hr as (Hk & Hq & Hc).
  apply issue_ok; [done|]. split; [|cbn; by rewrite Hq]. intros b. specialize (Hc b). specialize (Hp b). cbn [pl_in_flight set_in_flight].
  replace (credit b (set_in_flight kept p1)) with (credit b p1) by by destruct b. lia.
Qed.
End Flow.

(** ** The caches of the record *)
Definition unranged (t : Tracking) : Prop := tk_address_ranges t = [].

Lemma update_cache_unranged (t : Tracking) : unranged t -> unranged (update_address_cache t) /\ tk_cache_valid (update_address_cache t) = true.
Proof. unfold update_address_cache. destruct (tk_cache_valid t) eqn:E; done. Qed.

Lemma unranged_not_local (addr : Z) (t : Tracking) :
  unranged t -> tk_cache_valid t = true -> is_address_local addr t = (false, t).
Proof. intros Hr Hv. unfold is_address_local. by rewrite Hv, Hr. Qed.

Lemma latency_loop_unranged {D} `{Double D} (c : ExpanderConfig D) (p : Pipeline) (dram total : D) (elem : list (Z * Z)) (count last : Z) (t : Tracking) :
  unranged t -> tk_cache_valid t = true -> latency_loop c p dram elem total count last t = (total, count, t).
Proof.
  intros Hr Hv. revert total count last. induction elem as [|[ts a] elem IH]; intros; cbn [latency_loop]; [done|].
  by rewrite (unranged_not_local a t Hr Hv).
Qed.

Lemma query_unranged (addrs : list Z) (t : Tracking) :
  unranged t -> tk_cache_valid t = true -> query_local addrs t = (replicate (length addrs) false, t).
Proof.
  intros Hr Hv. induction addrs as [|a addrs IH]; cbn [query_local]; [done|]. by rewrite (unranged_not_local a t Hr Hv), IH.
Qed.

Section Reachable.
Context {D : Type} `{Double D}.

(** Pipeline in order, range cache never filled. *)
Definition expander_ok (x : CXLMemExpander D) : Prop := flow_ok (ex_pipeline x) /\ unranged (ex_tracking x).

Lemma expander_latency_zero (elem : list (Z * Z)) (dram : D) (x : CXLMemExpander D) :
  expander_ok x -> (expander_latency elem dram x).1 = d_of_Z 0 /\ expander_ok (expander_latency elem dram x).2.
Proof.
  intros [Hf Hr]. unfold expander_latency. destruct (last elem) as [[now ?]|]; [|done].
  destruct (update_cache_unranged _ Hr) as [Hu Hv]. rewrite latency_loop_unranged by done. cbn. split; [done|].
  split; [by apply process_ok|done].
Qed.

Lemma push_ok (r : CXLRequest) (p : Pipeline) : flow_ok p -> can_accept_request p = true -> flow_ok (push_request r p).
Proof.
  intros [Hp Hl] Ha. unfold can_accept_request in Ha. apply Z.ltb_lt in Ha. split; [exact Hp|]. cbn. rewrite length_app. cbn. lia.
Qed.

Lemma expander_insert_ok (ts tid addr index : Z) (x : CXLMemExpander D) : expander_ok x -> expander_ok (expander_insert ts tid addr index x).2.
Proof.
  intros [Hf Hr]. unfold expander_insert. destruct (negb (index =? _)); [done|].
  assert (Hp := proj1 (process_ok (ex_config x) ts (ex_pipeline x) Hf)). cbn [set_pipeline see_time ex_config ex_pipeline ex_tracking].
  destruct (addr =? 0); [done|]. destruct (can_accept_request _) eqn:Ha; cbn [negb]; [|done].
  destruct (known_entry _ _); (split; [by apply push_ok|done]).
Qed.

Lemma expander_step_ok (m : bool) (x x' : CXLMemExpander D) : expander_step m x x' -> expander_ok x -> expander_ok x'.
Proof.
  intros Hs [Hf Hr]. destruct Hs as [| | | | | | | |info x Hm|addr x info x' Hm Hs].
  - by apply expander_insert_ok.
  - by apply expander_latency_zero.
  - split; [done|]. unfold expander_delete_entry. cbn. by case_goal.
  - done.
  - done.
  - split; [done|]. unfold expander_free_stats. cbn. by case_goal.
  - split; unfold expander_query; destruct (update_cache_unranged _ Hr) as [Hu Hv]; rewrite query_unranged by done; done.
  - done.
  - done.
  - unfold expander_migrate_out in Hs. destruct (find_address _ _); [|done]. cbn in Hs. destruct (erase_address _ _); [|done]. cbn in Hs.
    by injection Hs as _ <-.
Qed.

Lemma expander_new_ok (rb wb rl wl id cap : Z) : expander_ok (expander_new rb wb rl wl id cap).
Proof. split; [|done]. split; [|cbn; unfold MAX_QUEUE_SIZE; lia]. intros []; cbn; unfold flying, INITIAL_CREDITS; cbn; lia. Qed.

Lemma expander_reachable_ok (m : bool) (rb wb rl wl id cap : Z) (x : CXLMemExpander D) :
  rtc (expander_step m) (expander_new rb wb rl wl id cap) x -> expander_ok x.
Proof.
  intros Hr. assert (H0 := expander_new_ok rb wb rl wl id cap). induction Hr as [|x y z Hs _ IH]; [done|]. apply IH. by eapply expander_step_ok.
Qed.

(** Flow control of an expander: whatever happens to it, no credit counter wraps around,
    reads and writes in flight never exceed their two credits (so at most four requests are in
    flight and the limit of 32 never acts), and the queue holds at most 64 requests. *)
Theorem expander_flow_bounded (m : bool) (rb wb rl wl id cap : Z) (x : CXLMemExpander D)
  (Hr : rtc (expander_step m) (expander_new rb wb rl wl id cap) x) :
  let p := ex_pipeline x in
  (forall b, 0 <= credit b p /\ credit b p + flying b (pl_in_flight p) <= INITIAL_CREDITS) /\
  Z.of_nat (length (pl_in_flight p)) <= 4 /\ Z.of_nat (length (pl_request_queue p)) <= MAX_QUEUE_SIZE.
Proof.
  destruct (expander_reachable_ok _ _ _ _ _ _ _ _ Hr) as [[Hf Hl] _]. cbn. split_and!; [done| |done].
  rewrite flying_length. assert (Ht := Hf true). assert (Hw := Hf false). unfold INITIAL_CREDITS in *. lia.
Qed.

(** The access latency that an expander reports is always zero: the cache of address ranges, on
    which the test for a local access relies, is never filled, because its validity flag is shared with
    the address cache that is always updated first. *)
Theorem expander_latency_always_zero (m : bool) (rb wb rl wl id cap : Z) (x : CXLMemExpander D)
  (Hr : rtc (expander_step m) (expander_new rb wb rl wl id cap) x) (elem : list (Z * Z)) (dram : D) :
  (expander_latency elem dram x).1 = d_of_Z 0.
Proof. eapply expander_latency_zero, expander_reachable_ok, Hr. Qed.
End Reachable.

(** ** Progress of the pipeline *)
Definition queued_addresses (p : Pipeline) : list Z := cr_address <$> pl_request_queue p.

(** No address is queued or in flight twice. *)
Definition distinct (p : Pipeline) : Prop := NoDup ((pl_in_flight p).*1 ++ queued_addresses p).

(** All credits are available or in flight. *)
Definition conserved (p : Pipeline) : Prop :=
  forall b, 0 <= credit b p /\ credit b p + flying b (pl_in_flight p) = INITIAL_CREDITS.

Lemma store_keys (a : Z) (r : CXLRequest) (f : list (Z * CXLRequest)) :
  a ∉ f.*1 -> (in_flight_store a r f).*1 ≡ₚ a :: f.*1.
Proof.
  induction f as [|[a' r'] f IH]; cbn [in_flight_store]; [done|]. intros Ha. rewrite fmap_cons in *. cbn [fst] in *.
  apply not_elem_of_cons in Ha as [Hne Ha]. destruct (a <? a'); [done|]. destruct (Z.eqb_spec a a') as [E|_]; [done|].
  rewrite fmap_cons, IH by done. cbn [fst]. constructor.
Qed.

Section Progress.
Context {D : Type} `{Double D}.

Lemma issued_conserved (c : ExpanderConfig D) (now : Z) (req : CXLRequest) (rest : list CXLRequest) (p : Pipeline) :
  pl_request_queue p = req :: rest -> has_credits (cr_is_read req) p = true -> distinct p -> conserved p ->
  distinct (issued c now req rest p) /\ conserved (issued c now req rest p).
Proof.
  intros Hq Hh Hd Hp. unfold has_credits in Hh. apply Z.ltb_lt in Hh. fold (credit (cr_is_read req) p) in Hh.
  unfold distinct, queued_addresses in Hd. rewrite Hq, fmap_cons in Hd.
  assert (Ha : cr_address req ∉ (pl_in_flight p).*1) by (apply NoDup_app in Hd as (_ & Hd & _); intros Hin; apply (Hd _ Hin); by left).
  assert (Hf : pl_in_flight (consume_credit (cr_is_read req) p) = pl_in_flight p) by apply consume_frame. split.
  - unfold distinct, queued_addresses, issued. cbn [pl_in_flight pl_request_queue set_queue set_in_flight]. rewrite Hf, store_keys by done.
    rewrite <- app_comm_cons. by rewrite Permutation_middle.
  - intros b. assert (Hb := Hp b). assert (Hr := Hp (cr_is_read req)).
    rewrite issued_credit by (assert (Hn := flying_nonneg (cr_is_read req) (pl_in_flight p)); lia).
    unfold issued. cbn [pl_in_flight set_queue set_in_flight]. rewrite Hf, flying_store_new by done. cbn [cr_is_read].
    destruct (Bool.eqb (cr_is_read req) b) eqn:E; [apply Bool.eqb_prop in E; subst b|]; lia.
Qed.

Lemma issue_conserved (c : ExpanderConfig D) (now : Z) (queue : list CXLRequest) (p : Pipeline) :
  pl_request_queue p = queue -> distinct p -> conserved p ->
  distinct (issue c now queue p) /\ conserved (issue c now queue p) /\
  (length (pl_request_queue (issue c now queue p)) <= length queue)%nat.
Proof.
  revert p. induction queue as [|req rest IH]; intros p Hq Hd Hp; cbn [issue]; [by rewrite Hq|].
  destruct (_ <? _); cbn [negb]; [|by rewrite Hq]. destruct (has_credits (cr_is_read req) p) eqn:Hh; cbn [negb]; [|by rewrite Hq].
  destruct (issued_conserved c now req rest p Hq Hh Hd Hp) as [Hd1 Hp1].
  destruct (IH (issued c now req rest p) eq_refl Hd1 Hp1) as (H1 & H2 & H3).
  split; [exact H1|]. split; [exact H2|]. cbn [length]. etransitivity; [exact H3|lia].
Qed.

(** What the retiring loop leaves. *)
Definition retired (now : Z) (p : Pipeline) : Pipeline :=
  let '(kept, p1) := retire now (pl_in_flight p) p in set_in_flight kept p1.

Lemma process_retired (c : ExpanderConfig D) (now : Z) (p : Pipeline) :
  process_queued_requests c now p = issue c now (pl_request_queue p) (retired now p).
Proof. unfold process_queued_requests, retired. by destruct (retire _ _ _). Qed.

Lemma retired_spec (now : Z) (p : Pipeline) :
  (forall b, 0 <= credit b p /\ credit b p + flying b (pl_in_flight p) <= INITIAL_CREDITS) ->
  pl_in_flight (retired now p) = filter (fun e => now < cr_complete_time e.2) (pl_in_flight p) /\
  pl_request_queue (retired now p) = pl_request_queue p /\
  forall b, 0 <= credit b (retired now p) /\
    credit b (retired now p) + flying b (pl_in_flight (retired now p)) = credit b p + flying b (pl_in_flight p).
Proof.
  intros Hp. assert (Hr := retire_spec now (pl_in_flight p) p Hp). unfold retired. destruct (retire now (pl_in_flight p) p) as [kept p1].
  cbn [fst snd] in Hr. destruct Hr as (Hk & Hq & Hc). split_and!; [done|done|]. intros b. specialize (Hc b). by destruct b.
Qed.

Lemma conserved_bound (p : Pipeline) : conserved p -> forall b, 0 <= credit b p /\ credit b p + flying b (pl_in_flight p) <= INITIAL_CREDITS.
Proof. intros Hp b. specialize (Hp b). lia. Qed.

Lemma retired_conserved (now : Z) (p : Pipeline) : distinct p -> conserved p -> distinct (retired now p) /\ conserved (retired now p).
Proof.
  intros Hd Hp. destruct (retired_spec now p (conserved_bound p Hp)) as (Hk & Hq & Hc). split.
  - unfold distinct, queued_addresses in *. rewrite Hk, Hq. eapply sublist_NoDup; [exact Hd|]. apply sublist_app; [|done].
    apply fmap_sublist, sublist_filter.
  - intros b. specialize (Hc b). specialize (Hp b). lia.
Qed.

Definition all_done (now : Z) (p : Pipeline) : Prop := Forall (fun e => cr_complete_time e.2 <= now) (pl_in_flight p).

Lemma retired_all (now : Z) (p : Pipeline) : conserved p -> all_done now p ->
  pl_in_flight (retired now p) = [] /\ forall b, credit b (retired now p) = INITIAL_CREDITS.
Proof.
  intros Hp Ha. destruct (retired_spec now p (conserved_bound p Hp)) as (Hk & Hq & Hc).
  assert (E : pl_in_flight (retired now p) = []).
  { rewrite Hk. unfold all_done in Ha. clear -Ha. induction Ha as [|e f He _ IH]; [done|]. by rewrite filter_cons_False by lia. }
  split; [done|]. intros b. specialize (Hc b). rewrite E in Hc. specialize (Hp b). change (flying b []) with 0 in Hc. lia.
Qed.

Lemma process_progress (c : ExpanderConfig D) (now : Z) (p : Pipeline) :
  distinct p -> conserved p -> all_done now p ->
  distinct (process_queued_requests c now p) /\ conserved (process_queued_requests c now p) /\
  match pl_request_queue p with
  | [] => pl_request_queue (process_queued_requests c now p) = [] /\ pl_in_flight (process_queued_requests c now p) = []
  | _ :: rest => (length (pl_request_queue (process_queued_requests c now p)) <= length rest)%nat
  end.
Proof.
  intros Hd Hp Ha. rewrite process_retired. destruct (retired_conserved now p Hd Hp) as [Hd1 Hp1].
  destruct (retired_all now p Hp Ha) as [Hf Hc]. destruct (retired_spec now p (conserved_bound p Hp)) as (_ & Hq & _).
  destruct (issue_conserved c now (pl_request_queue p) (retired now p) Hq Hd1 Hp1) as (H1 & H2 & _). split; [done|]. split; [done|].
  destruct (pl_request_queue p) as [|req rest] eqn:E; cbn [issue]; [by rewrite Hq|]. rewrite Hf. cbn [length negb].
  assert (Hh : has_credits (cr_is_read req) (retired now p) = true) by (specialize (Hc (cr_is_read req)); unfold has_credits; fold (credit (cr_is_read req) (retired now p)); by rewrite Hc).
  rewrite Hh. cbn. destruct (issued_conserved c now req rest (retired now p) Hq Hh Hd1 Hp1) as [Hd2 Hp2].
  apply (issue_conserved c now rest (issued c now req rest (retired now p)) eq_refl Hd2 Hp2).
Qed.
End Progress.

Section Drain.
Context {D : Type} `{Double D}.

(** Calls of [process_queued_requests] at the given times; [patient]: each comes when the
    requests in flight have completed. *)
Fixpoint process_at (c : ExpanderConfig D) (times : list Z) (p : Pipeline) : Pipeline :=
  match times with [] => p | t :: times' => process_at c times' (process_queued_requests c t p) end.

Fixpoint patient (c : ExpanderConfig D) (times : list Z) (p : Pipeline) : Prop :=
  match times with [] => True | t :: times' => all_done t p /\ patient c times' (process_queued_requests c t p) end.

Lemma process_idle (c : ExpanderConfig D) (times : list Z) (p : Pipeline) :
  pl_request_queue p = [] -> pl_in_flight p = [] -> process_at c times p = p.
Proof.
  intros Hq Hf. induction times as [|t times IH]; [done|]. cbn [process_at]. unfold process_queued_requests. rewrite Hf, Hq. cbn [retire issue].
  replace (set_in_flight [] p) with p; [done|]. destruct p. cbn in *. by subst.
Qed.

(** C36. The pipeline drains: if no address is queued or in flight twice and no credit is lost, then as
    many calls as there are queued requests, and one more, each after the requests in flight have
    completed, leave nothing queued, nothing in flight and all credits available. *)
Theorem expander_drains (c : ExpanderConfig D) (times : list Z) (p : Pipeline)
  (Hd : distinct p) (Hp : conserved p) (Ht : patient c times p) (Hl : (length (pl_request_queue p) < length times)%nat) :
  let p' := process_at c times p in
  pl_request_queue p' = [] /\ pl_in_flight p' = [] /\ forall b, credit b p' = INITIAL_CREDITS.
Proof.
  cbn. revert p Hd Hp Ht Hl. induction times as [|t times IH]; intros p Hd Hp Ht Hl; [cbn in Hl; lia|].
  destruct Ht as [Ha Ht]. destruct (process_progress c t p Hd Hp Ha) as (Hd1 & Hp1 & Hq). cbn [process_at].
  destruct (pl_request_queue p) as [|req rest].
  - destruct Hq as [Hq Hf]. rewrite process_idle by done. split; [done|]. split; [done|]. intros b. specialize (Hp1 b). rewrite Hf in Hp1.
    change (flying b []) with 0 in Hp1. lia.
  - apply IH; [done|done|done|]. cbn [length] in Hl. lia.
Qed.
End Drain.

(** Six requests to different addresses. *)
Definition demo_pipeline : Pipeline :=
  mkPipeline ((fun a => new_request 0 1 a (Z.even a)) <$> [1; 2; 3; 4; 5; 6]) INITIAL_CREDITS INITIAL_CREDITS [].

Definition demo_config : ExpanderConfig spec_float :=
  mkExpanderConfig 0 1024 (d_of_Z 25) (d_of_Z 25) (d_of_Z 100) (d_of_Z 150).

Definition demo_times : list Z := [1000; 2000; 3000; 4000; 5000; 6000; 7000].

Lemma expander_drains_witness :
  let p' := process_at demo_config demo_times demo_pipeline in
  pl_request_queue p' = [] /\ pl_in_flight p' = [] /\ forall b, credit b p' = INITIAL_CREDITS.
Proof.
  apply (expander_drains demo_config demo_times demo_pipeline).
  - apply (bool_decide_unpack _). vm_compute. exact I.
  - intros []; vm_compute; split; congruence.
  - cbn [patient demo_times]. unfold all_done. repeat (split; [apply (bool_decide_unpack _); vm_compute; exact I|]). exact I.
  - cbn. lia.
Defined.

Lemma expander_flow_bounded_witness :
  let x := (expander_insert 5 1 64 0 (expander_new (D := spec_float) 25 25 100 150 0 1024)).2 in
  let p := ex_pipeline x in
  (forall b, 0 <= credit b p /\ credit b p + flying b (pl_in_flight p) <= INITIAL_CREDITS) /\
  Z.of_nat (length (pl_in_flight p)) <= 4 /\ Z.of_nat (length (pl_request_queue p)) <= MAX_QUEUE_SIZE.
Proof. cbn zeta. apply (expander_flow_bounded false 25 25 100 150 0 1024). eapply rtc_once, XInsert. Defined.

Lemma expander_latency_always_zero_witness :
  let x := (expander_insert 5 1 64 0 (expander_new (D := spec_float) 25 25 100 150 0 1024)).2 in
  (expander_latency [(6, 64)] (d_of_Z 110) x).1 = d_of_Z 0.
Proof. cbn zeta. apply (expander_latency_always_zero false 25 25 100 150 0 1024). eapply rtc_once, XInsert. Defined.

(** ** A lost credit *)

(** No write credit is left and none will come back: the next request to issue is a write, and
    no write is in flight. *)
Definition wedged (p : Pipeline) : Prop :=
  credit false p = 0 /\ flying false (pl_in_flight p) = 0 /\
  match pl_request_queue p with req :: _ => cr_is_read req = false | [] => False end.

(** Reduce the field updates of an expander. *)
Ltac cbn_expander :=
  cbn [fst snd set_counter set_pipeline set_tracking see_time ex_config ex_pipeline ex_tracking ex_counter
       push_request set_queue pl_request_queue pl_in_flight].

Section Wedge.
Context {D : Type} `{Double D}.

Lemma wedged_process (c : ExpanderConfig D) (now : Z) (p : Pipeline) :
  flow_ok p -> wedged p ->
  wedged (process_queued_requests c now p) /\ pl_request_queue (process_queued_requests c now p) = pl_request_queue p.
Proof.
  intros [Hf _] (Hc & Hw & Hq). destruct (retired_spec now p Hf) as (_ & Eq & Hr). specialize (Hr false).
  assert (Hn := flying_nonneg false (pl_in_flight (retired now p))). rewrite process_retired.
  destruct (pl_request_queue p) as [|req rest] eqn:E; [done|]. cbn [issue]. rewrite Hq.
  assert (Hh : has_credits false (retired now p) = false) by (unfold has_credits; fold (credit false (retired now p)); apply Z.ltb_ge; lia).
  rewrite Hh. cbn [negb]. assert (Hx : wedged (retired now p) /\ pl_request_queue (retired now p) = req :: rest)
    by (split; [|done]; split; [lia|]; split; [lia|]; by rewrite Eq).
  by destruct (negb _).
Qed.

Lemma wedged_push (r : CXLRequest) (p : Pipeline) : wedged p -> wedged (push_request r p).
Proof. intros (Hc & Hw & Hq). split; [done|]. split; [done|]. cbn. by destruct (pl_request_queue p). Qed.

(** [x] stays wedged, and its queue only grows. *)
Definition stuck (x : CXLMemExpander D) : Prop := expander_ok x /\ wedged (ex_pipeline x).

Lemma stuck_insert (ts tid addr index : Z) (x : CXLMemExpander D) :
  stuck x -> stuck (expander_insert ts tid addr index x).2 /\
    pl_request_queue (ex_pipeline x) `prefix_of` pl_request_queue (ex_pipeline (expander_insert ts tid addr index x).2) /\
    (Z.of_nat (length (pl_request_queue (ex_pipeline x))) = MAX_QUEUE_SIZE -> addr <> 0 -> (expander_insert ts tid addr index x).1 = 0).
Proof.
  intros [Hok Hw]. assert (Hok' := expander_insert_ok ts tid addr index x Hok). unfold stuck. split; [split; [done|]|]; clear Hok'; revert Hw;
    destruct Hok as [Hf _]; unfold expander_insert; destruct (negb (index =? _)); try done;
    cbn [set_pipeline see_time ex_config ex_pipeline ex_tracking]; intros Hw;
    destruct (wedged_process (ex_config x) ts (ex_pipeline x) Hf Hw) as [Hw' Hq].
  - destruct (addr =? 0); [done|]. destruct (can_accept_request _); cbn [negb]; [|done]. by destruct (known_entry _ _); apply wedged_push.
  - destruct (Z.eqb_spec addr 0) as [Ha|Ha]; [cbn_expander; rewrite Hq; by split|]. unfold can_accept_request. rewrite Hq.
    destruct (Z.ltb_spec (Z.of_nat (length (pl_request_queue (ex_pipeline x)))) MAX_QUEUE_SIZE) as [Hl|Hl]; cbn [negb].
    + split; [|lia]. destruct (known_entry _ _); cbn_expander; rewrite Hq; by apply prefix_app_r.
    + cbn_expander. by rewrite Hq.
Qed.

Lemma stuck_step (m : bool) (x x' : CXLMemExpander D) :
  expander_step m x x' -> stuck x -> stuck x' /\ pl_request_queue (ex_pipeline x) `prefix_of` pl_request_queue (ex_pipeline x').
Proof.
  intros Hs [Hok Hw]. assert (Hok' := expander_step_ok m x x' Hs Hok). destruct Hs as [ts tid addr index x|elem dram x| | | | | | |info x Hm|addr x info x' Hm Hs].
  - destruct (stuck_insert ts tid addr index x (conj Hok Hw)) as (H1 & H2 & _). done.
  - unfold stuck. split; [split; [done|]|]; clear Hok'; unfold expander_latency; destruct (last elem) as [[now ?]|]; try done;
      destruct (latency_loop _ _ _ _ _ _ _ _) as [[? ?] ?]; cbn; destruct (wedged_process (ex_config x) now (ex_pipeline x) (proj1 Hok) Hw) as [Hw' Hq]; [done|by rewrite Hq].
  - done.
  - done.
  - done.
  - done.
  - unfold stuck. split; [split; [done|]|]; clear Hok'; unfold expander_query; by destruct (query_local _ _).
  - done.
  - done.
  - unfold expander_migrate_out in Hs. destruct (find_address _ _); [|done]. cbn in Hs. destruct (erase_address _ _); [|done]. cbn in Hs.
    by injection Hs as _ <-.
Qed.

Lemma stuck_steps (m : bool) (x x' : CXLMemExpander D) :
  rtc (expander_step m) x x' -> stuck x -> stuck x' /\ pl_request_queue (ex_pipeline x) `prefix_of` pl_request_queue (ex_pipeline x').
Proof.
  intros Hr Hx. induction Hr as [x|x y z Hs _ IH]; [done|]. destruct (stuck_step m x y Hs Hx) as [Hy Hp]. destruct (IH Hy) as [Hz Hp'].
  split; [done|]. by etransitivity.
Qed.
End Wedge.

(** Three accesses to each of two lines in quick succession, then one write each to 64 others. *)
Definition reuse_accesses : list (Z * Z) :=
  [(1000, 64); (1010, 64); (1020, 64); (100000, 128); (100010, 128); (100020, 128)].

Definition later_accesses : list (Z * Z) := (fun i => (200000 + 1000 * i, 4096 + 64 * i)) <$> seqZ 0 64.

Definition insert_all {D} `{Double D} (accesses : list (Z * Z)) (x : CXLMemExpander D) : CXLMemExpander D :=
  foldl (fun x '(ts, a) => (expander_insert ts 1 a 0 x).2) x accesses.

Lemma insert_all_steps {D} `{Double D} (accesses : list (Z * Z)) (x : CXLMemExpander D) : rtc (expander_step false) x (insert_all accesses x).
Proof. revert x. induction accesses as [|[ts a] l IH]; intros x; [done|]. eapply rtc_l; [|apply IH]. apply XInsert. Qed.

(** A line that is accessed again while its first access is in flight costs a credit for good:
    the second entry replaces the first in the table of requests in flight.  After this has
    happened to two writes, six accesses in all, nothing is issued any more; once 64 requests
    are queued, the expander refuses every access, for ever, whatever happens to it. *)
Theorem expander_wedges (x : CXLMemExpander spec_float)
  (Hr : rtc (expander_step true) (insert_all (reuse_accesses ++ later_accesses) (expander_new 25 25 100 150 0 1024)) x)
  (ts tid addr : Z) (Ha : addr <> 0) :
  (expander_insert ts tid addr 0 x).1 = 0.
Proof.
  assert (H0 : stuck (insert_all (reuse_accesses ++ later_accesses) (expander_new (D := spec_float) 25 25 100 150 0 1024)) /\
    Z.of_nat (length (pl_request_queue (ex_pipeline (insert_all (reuse_accesses ++ later_accesses) (expander_new (D := spec_float) 25 25 100 150 0 1024))))) = MAX_QUEUE_SIZE).
  { split; [|vm_compute; reflexivity]. split; [eapply expander_reachable_ok, insert_all_steps|]. vm_compute. repeat split. }
  destruct H0 as [H0 Hl]. destruct (stuck_steps true _ x Hr H0) as [Hx Hp]. apply prefix_length in Hp.
  destruct (stuck_insert ts tid addr 0 x Hx) as (_ & _ & Hz). apply Hz; [|done]. destruct Hx as [[[_ Hb] _] _]. lia.
Qed.

Lemma expander_wedges_witness :
  (expander_insert 900000 2 8192 0 (insert_all (reuse_accesses ++ later_accesses) (expander_new (D := spec_float) 25 25 100 150 0 1024))).1 = 0.
Proof. apply expander_wedges; [apply rtc_refl|lia]. Defined.

(** ** The record without migration *)
Definition tracking_ok (t : Tracking) : Prop :=
  NoDup (occ_addresses (tk_occupation t)) /\ forall a, a ∈ occ_addresses (tk_occupation t) -> a ∈ tk_address_cache t.

Lemma erase_filter (addr : Z) (os : list occupation_info) :
  NoDup (occ_addresses os) ->
  erase_address addr os = if decide (addr ∈ occ_addresses os) then Some (filter (fun o => oi_address o <> addr) os) else None.
Proof.
  unfold occ_addresses. induction os as [|o os IH]; intros Hn; cbn [erase_address]; [done|]. rewrite fmap_cons in *.
  apply NoDup_cons in Hn as [Ho Hn]. destruct (Z.eqb_spec (oi_address o) addr) as [<-|Hne].
  - rewrite decide_True by by left. rewrite filter_cons_False by tauto. f_equal. symmetry. clear IH Hn.
    induction os as [|o' os IH]; [done|]. rewrite fmap_cons in Ho. apply not_elem_of_cons in Ho as [H1 H2].
    rewrite filter_cons_True by congruence. by rewrite IH.
  - rewrite IH by done. rewrite filter_cons_True by done. repeat case_decide; set_solver.
Qed.

Lemma occ_filter (addr : Z) (os : list occupation_info) :
  occ_addresses (filter (fun o => oi_address o <> addr) os) `sublist_of` occ_addresses os /\
  addr ∉ occ_addresses (filter (fun o => oi_address o <> addr) os).
Proof.
  split; [apply fmap_sublist, sublist_filter|]. intros (o & -> & [Hne _]%list_elem_of_filter)%list_elem_of_fmap. done.
Qed.

Lemma tracking_sublist (t : Tracking) (os : list occupation_info) (v : bool) (rs : list (Z * Z)) :
  tracking_ok t -> occ_addresses os `sublist_of` occ_addresses (tk_occupation t) -> tracking_ok (mkTracking os (tk_address_cache t) v rs).
Proof.
  intros [Hn Hs] Hsub. split; cbn; [by eapply sublist_NoDup|]. intros a Ha. apply Hs. by eapply sublist_subseteq.
Qed.

Lemma tracking_known (ts addr : Z) (t : Tracking) (rest : list occupation_info) :
  tracking_ok t -> known_entry addr t = Some rest ->
  addr ∈ occ_addresses (tk_occupation t) /\ rest = filter (fun o => oi_address o <> addr) (tk_occupation t) /\
  tracking_ok (set_occupation (rest ++ [mkOccupation ts addr 0]) t).
Proof.
  intros [Hn Hs]. unfold known_entry. case_bool_decide as Hc; [|done]. rewrite erase_filter by done. case_decide as Hin; [|done].
  intros [= <-]. split_and!; [done..|]. destruct (occ_filter addr (tk_occupation t)) as [H1 H2].
  unfold tracking_ok, set_occupation, occ_addresses in *. cbn [tk_occupation tk_address_cache]. rewrite fmap_app. split.
  - apply NoDup_app. split_and!; [by eapply sublist_NoDup|set_solver|apply NoDup_singleton].
  - intros a [Ha| ->%list_elem_of_singleton]%elem_of_app; [|done]. apply Hs. by eapply sublist_subseteq.
Qed.

Lemma tracking_new (ts addr : Z) (t : Tracking) :
  tracking_ok t -> known_entry addr t = None -> addr ∉ occ_addresses (tk_occupation t) /\ tracking_ok (record_new ts addr t).
Proof.
  intros [Hn Hs] Hk. assert (Hin : addr ∉ occ_addresses (tk_occupation t)).
  { revert Hk. unfold known_entry. case_bool_decide as Hc; [|intros _ Ha; by apply Hc, Hs]. rewrite erase_filter by done. by case_decide. }
  split; [done|]. unfold tracking_ok, record_new, occ_addresses in *. cbn [tk_occupation tk_address_cache]. rewrite fmap_app. split.
  - apply NoDup_app. split_and!; [done| |apply NoDup_singleton]. intros a Ha ->%list_elem_of_singleton. done.
  - intros a [Ha| ->%list_elem_of_singleton]%elem_of_app; set_solver.
Qed.

Lemma update_cache_ok (t : Tracking) : tracking_ok t -> tracking_ok (update_address_cache t).
Proof. intros [Hn Hs]. unfold update_address_cache. destruct (tk_cache_valid t); [done|]. split; [done|]. intros a Ha. cbn. by apply elem_of_list_to_set. Qed.

Lemma touch_addresses (addr len now : Z) (os : list occupation_info) : occ_addresses (touch_entry addr len now <$> os) = occ_addresses os.
Proof.
  unfold occ_addresses. rewrite <- list_fmap_compose. apply list_fmap_ext. intros i o _. cbn. unfold touch_entry. by destruct (touches_entry _ _ _).
Qed.

Lemma drop_sublist (coins : nat -> bool) (os : list occupation_info) : drop_entries coins os `sublist_of` os.
Proof. revert coins. induction os as [|o os IH]; intros coins; cbn; [done|]. destruct (coins O); [by apply sublist_cons|by apply sublist_skip]. Qed.

Section Record.
Context {D : Type} `{Double D}.

(** The record of an expander that no migration has touched. *)
Definition record_ok (x : CXLMemExpander D) : Prop := tracking_ok (ex_tracking x) /\ unranged (ex_tracking x).

Lemma record_step (x x' : CXLMemExpander D) : expander_step false x x' -> record_ok x -> record_ok x'.
Proof.
  intros Hs [Ht Hu]. destruct Hs as [ts tid addr index x|elem dram x|addr len x| | |coins x|addrs x|addr x|info x Hm|addr x info x' Hm Hs]; try done.
  - unfold expander_insert. destruct (negb (index =? _)); [done|]. destruct (addr =? 0); [done|]. destruct (negb _); [done|]. cbn [ex_tracking set_pipeline see_time].
    destruct (known_entry addr (ex_tracking x)) as [rest|] eqn:E.
    + destruct (tracking_known ts addr _ rest Ht E) as (_ & _ & H1). done.
    + destruct (tracking_new ts addr _ Ht E) as [_ H1]. done.
  - unfold expander_latency. destruct (last elem) as [[now ?]|]; [|done]. destruct (update_cache_unranged _ Hu) as [Hu' Hv].
    rewrite latency_loop_unranged by done. split; [by apply update_cache_ok|done].
  - unfold expander_delete_entry, record_ok. cbn [ex_tracking set_counter set_tracking]. destruct (existsb _ _);
      (split; [|done]; apply (tracking_sublist (ex_tracking x)); [done|]; cbn [tk_occupation set_occupation invalidate_cache]; by rewrite touch_addresses).
  - unfold expander_free_stats, record_ok. cbn [ex_tracking set_tracking]. case_match;
      (split; [|done]; apply (tracking_sublist (ex_tracking x)); [done|]; apply fmap_sublist, drop_sublist).
  - unfold expander_query. destruct (update_cache_unranged _ Hu) as [Hu' Hv]. rewrite query_unranged by done.
    split; [by apply update_cache_ok|done].
  - split; [|done]. apply (tracking_sublist (ex_tracking x)); [done|]. apply fmap_sublist, sublist_filter.
Qed.

Lemma record_reachable (rb wb rl wl id cap : Z) (x : CXLMemExpander D) :
  rtc (expander_step false) (expander_new rb wb rl wl id cap) x -> record_ok x.
Proof.
  intros Hr. assert (H0 : record_ok (expander_new (D := D) rb wb rl wl id cap)) by (split; [|done]; split; [apply NoDup_nil_2|]; by intros a ?%not_elem_of_nil).
  induction Hr as [|x y z Hs _ IH]; [done|]. apply IH. by eapply record_step.
Qed.

(** [insert], on every branch, for an expander that has seen any sequence of operations other
    than migration.  With another index nothing happens; address zero is only counted.  With
    a full queue the access is refused and the record unchanged.  Otherwise the result says
    whether the address was recorded (2) or not (1), and afterwards it is recorded exactly
    once, with the new time, at the end. *)
Theorem expander_insert_functional (rb wb rl wl id cap : Z) (x : CXLMemExpander D)
  (Hr : rtc (expander_step false) (expander_new rb wb rl wl id cap) x) (ts tid addr index : Z) :
  let os := tk_occupation (ex_tracking x) in
  let '(result, x') := expander_insert ts tid addr index x in
  let os' := tk_occupation (ex_tracking x') in
  let room := can_accept_request (process_queued_requests (ex_config x) ts (ex_pipeline x)) in
  if negb (index =? xc_id (ex_config x)) then result = 0 /\ x' = x
  else if addr =? 0 then result = 1 /\ os' = os
  else if room then
    result = (if decide (addr ∈ occ_addresses os) then 2 else 1) /\
    os' = filter (fun o => oi_address o <> addr) os ++ [mkOccupation ts addr 0] /\ NoDup (occ_addresses os')
  else result = 0 /\ os' = os.
Proof.
  destruct (record_reachable _ _ _ _ _ _ _ Hr) as [Ht _]. cbn zeta. unfold expander_insert. destruct (negb (index =? _)); [done|].
  destruct (addr =? 0); [done|]. cbn [ex_tracking ex_pipeline ex_config set_pipeline see_time]. destruct (can_accept_request _); cbn [negb]; [|done].
  destruct (known_entry addr (ex_tracking x)) as [rest|] eqn:E.
  - destruct (tracking_known ts addr _ rest Ht E) as (Hin & -> & Hn & _). cbn. split_and!; [by rewrite decide_True|done|done].
  - destruct (tracking_new ts addr _ Ht E) as (Hin & Hn & _). cbn. split_and!; [by rewrite decide_False| |done].
    f_equal. symmetry. clear -Hin. induction (tk_occupation (ex_tracking x)) as [|o os IH]; [done|]. unfold occ_addresses in *. rewrite fmap_cons in Hin.
    apply not_elem_of_cons in Hin as [H1 H2]. rewrite filter_cons_True by congruence. by rewrite IH.
Qed.
End Record.

Lemma expander_insert_functional_witness :
  let x := (expander_insert 5 1 64 0 (expander_new (D := spec_float) 25 25 100 150 0 1024)).2 in
  let os := tk_occupation (ex_tracking x) in
  let '(result, x') := expander_insert 7 1 64 0 x in
  let os' := tk_occupation (ex_tracking x') in
  let room := can_accept_request (process_queued_requests (ex_config x) 7 (ex_pipeline x)) in
  if negb (0 =? xc_id (ex_config x)) then result = 0 /\ x' = x
  else if 64 =? 0 then result = 1 /\ os' = os
  else if room then
    result = (if decide (64 ∈ occ_addresses os) then 2 else 1) /\
    os' = filter (fun o => oi_address o <> 64) os ++ [mkOccupation 7 64 0] /\ NoDup (occ_addresses os')
  else result = 0 /\ os' = os.
Proof. cbn zeta. apply (expander_insert_functional 25 25 100 150 0 1024). eapply rtc_once, XInsert. Defined.

(** ** The range cache *)
Lemma merge_ranges_exact (a s e : Z) (addrs : list Z) :
  0 <= s <= e -> e < 2 ^ 64 -> Forall u64 addrs -> StronglySorted Z.le (e :: addrs) ->
  in_ranges a (merge_ranges s e addrs) = bool_decide (s <= a <= e \/ a ∈ addrs).
Proof.
  revert s e. induction addrs as [|x addrs IH]; intros s e Hs He Hu Hsort; cbn [merge_ranges].
  - unfold in_ranges. cbn [lower_bound snd]. destruct (Z.ltb_spec e a) as [Hl|Hl].
    + symmetry. apply bool_decide_eq_false. intros [?|?%not_elem_of_nil]; [lia|done].
    + rewrite (bool_decide_ext _ (s <= a <= e)) by (split; [intros [?|?%not_elem_of_nil]; done|tauto]). case_bool_decide; lia.
  - apply StronglySorted_inv in Hsort as [Hs1 Hall]. apply Forall_cons in Hall as [Hx _], Hu as [Hux Hu]. unfold u64 in Hux.
    assert (Hge : forall y, y ∈ addrs -> x <= y) by (apply StronglySorted_inv in Hs1 as [_ Hf]; by apply Forall_forall).
    destruct (Z.eqb_spec x (e ⊞ 1)) as [Ex|Ex].
    + assert (x = e + 1). { unfold wrap64 in Ex. destruct (decide (e + 1 < 2 ^ 64)); [rewrite Z.mod_small in Ex by lia; lia|].
        replace (e + 1) with (2 ^ 64) in Ex by lia. rewrite Z_mod_same_full in Ex. lia. }
      rewrite IH by (done || lia). apply bool_decide_ext. rewrite elem_of_cons. destruct (decide (a ∈ addrs)); [tauto|]. intuition lia.
    + assert (IHx : in_ranges a (merge_ranges x x addrs) = bool_decide (x <= a <= x \/ a ∈ addrs)) by (apply IH; done || lia).
      unfold in_ranges in *. cbn [lower_bound snd]. destruct (Z.ltb_spec e a) as [Hl|Hl].
      * rewrite IHx. apply bool_decide_ext. rewrite elem_of_cons. destruct (decide (a ∈ addrs)); [tauto|]. intuition lia.
      * destruct (decide (s <= a)) as [Hsa|Hsa]; [rewrite bool_decide_true by (left; lia); lia|]. rewrite bool_decide_false; [lia|].
        intros [?|[->|Hin]%elem_of_cons]; [lia|lia|]. specialize (Hge a Hin). lia.
Qed.

Lemma sorted_addresses (os : list occupation_info) : StronglySorted occ_le os -> StronglySorted Z.le (occ_addresses os).
Proof.
  induction 1 as [|o os _ IH Hall]; [constructor|]. unfold occ_addresses. rewrite fmap_cons. constructor; [done|].
  apply Forall_fmap. eapply Forall_impl; [exact Hall|]. done.
Qed.

#[global] Instance occ_le_total : Total occ_le.
Proof. intros a b. unfold occ_le. lia. Qed.

#[global] Instance occ_le_trans : Transitive occ_le.
Proof. intros a b c. unfold occ_le. lia. Qed.

(** The range cache, when it is used, is exact: after the sorting and merging of
    [update_range_cache], the binary search of [is_address_local] finds precisely the
    recorded addresses. *)
Theorem range_lookup_exact (a : Z) (t : Tracking) (Hv : tk_cache_valid t = false)
  (Hu : Forall u64 (occ_addresses (tk_occupation t))) :
  (is_address_local a t).1 = bool_decide (a ∈ occ_addresses (tk_occupation t)).
Proof.
  unfold is_address_local, update_range_cache. rewrite Hv. cbn [fst tk_address_ranges]. set (os := merge_sort occ_le (tk_occupation t)).
  assert (Hp : occ_addresses os ≡ₚ occ_addresses (tk_occupation t)) by apply fmap_Permutation, merge_sort_Permutation.
  rewrite (bool_decide_ext _ (a ∈ occ_addresses os)) by by rewrite Hp. rewrite <- Hp in Hu.
  assert (Hs : StronglySorted Z.le (occ_addresses os)) by (apply sorted_addresses, StronglySorted_merge_sort; apply _). clearbody os. clear Hp.
  destruct (occ_addresses os) as [|x l]; [done|]. apply Forall_cons in Hu as [[Hx Hx'] Hu]. cbn [address_ranges_of].
  rewrite merge_ranges_exact by (done || lia). apply bool_decide_ext. rewrite elem_of_cons. intuition lia.
Qed.

Lemma range_lookup_exact_witness :
  (is_address_local 12 (mkTracking [mkOccupation 0 13 0; mkOccupation 1 11 0; mkOccupation 2 12 0; mkOccupation 3 40 0] ∅ false [])).1
  = bool_decide (12 ∈ occ_addresses [mkOccupation 0 13 0; mkOccupation 1 11 0; mkOccupation 2 12 0; mkOccupation 3 40 0]).
Proof. apply range_lookup_exact; [reflexivity|]. repeat constructor; cbn; lia. Defined.
