(* ===== verification/Switch.v ===== *)
(** * The endpoint tree ([CXLSwitch] of [include/cxlendpoint.h] and [src/cxlendpoint.cpp])

    A switch points to expanders and to further switches.  The expanders live in a store and a
    tree holds their indices, because the controller and the tree refer to the same objects and
    an expander can hang at several places; an index outside the store is undefined ([None]).
    Virtual calls are dispatched on [endpoint]. *)
From Stdlib Require Import SpecFloat.
From S2P Require Import Prelude Double Fabric CoherencyEngine Expander.
#[local] Open Scope Z_scope.

Inductive endpoint (D : Type) := Local (x : CXLMemExpander D) | Remote (r : RemoteCXLExpander D).
Arguments Local {D} x.
Arguments Remote {D} r.

Record CXLSwitchEvent := mkSwitchEvent {
  se_load : Z;
  se_store : Z;
  se_conflict : Z
}.

(** [expanders], [switches], [counter], [id], [epoch], [last_timestamp]. *)
Inductive CXLSwitch := mkSwitch (expanders : list nat) (switches : list CXLSwitch) (counter : CXLSwitchEvent)
  (id epoch last_timestamp : Z).

Definition switch_new (id : Z) : CXLSwitch := mkSwitch [] [] (mkSwitchEvent 0 0 0) id 0 0.

Definition sw_inc_load (c : CXLSwitchEvent) : CXLSwitchEvent := mkSwitchEvent (se_load c ⊞ 1) (se_store c) (se_conflict c).

Definition sw_inc_store (c : CXLSwitchEvent) : CXLSwitchEvent := mkSwitchEvent (se_load c) (se_store c ⊞ 1) (se_conflict c).

Definition sw_inc_conflict (n : Z) (c : CXLSwitchEvent) : CXLSwitchEvent := mkSwitchEvent (se_load c) (se_store c) (se_conflict c ⊞ n).

Definition sw_set_epoch (epoch : Z) (sw : CXLSwitch) : CXLSwitch :=
  match sw with mkSwitch es ss c id _ lt => mkSwitch es ss c id epoch lt end.

Section Endpoint.
Context {D : Type} `{Double D}.
#[local] Open Scope double_scope.

(** ** Virtual calls *)
Definition ep_base (e : endpoint D) : CXLMemExpander D := match e with Local x => x | Remote r => rx_base r end.

Definition ep_set_base (x : CXLMemExpander D) (e : endpoint D) : endpoint D :=
  match e with Local _ => Local x | Remote r => Remote (set_base x r) end.

Definition ep_insert (timestamp tid phys_addr index : Z) (e : endpoint D) : Z * endpoint D :=
  match e with
  | Local x => let '(ret, x') := expander_insert timestamp tid phys_addr index x in (ret, Local x')
  | Remote r => let '(ret, r') := remote_insert timestamp tid phys_addr index r in (ret, Remote r')
  end.

Definition ep_latency (elem : list (Z * Z)) (dramlatency : D) (e : endpoint D) (g : option (CoherencyEngine D)) :
    D * endpoint D * option (CoherencyEngine D) :=
  match e with
  | Local x => let '(l, x') := expander_latency elem dramlatency x in (l, Local x', g)
  | Remote r => let '(l, r', g') := remote_latency elem r g in (l, Remote r', g')
  end.

Definition ep_bandwidth (elem : list (Z * Z)) (e : endpoint D) : D :=
  match e with Local x => expander_bandwidth elem x | Remote r => remote_bandwidth elem r end.

Definition ep_delete_entry (addr length : Z) (e : endpoint D) : endpoint D :=
  ep_set_base (expander_delete_entry addr length (ep_base e)) e.

Definition ep_get_access (timestamp : Z) (e : endpoint D) : list (Z * Z) * endpoint D :=
  let '(l, x) := expander_get_access timestamp (ep_base e) in (l, ep_set_base x e).

Definition ep_free_stats (coins : nat -> bool) (e : endpoint D) : endpoint D :=
  ep_set_base (expander_free_stats coins (ep_base e)) e.

(** ** Loops over the expanders of one switch *)
Fixpoint insert_expanders (timestamp tid phys_addr index : Z) (ps : list nat) (es : list (endpoint D)) :
    option (Z * list (endpoint D)) :=
  match ps with
  | [] => Some (0, es)
  | p :: ps' =>
      e ← es !! p;
      let '(ret, e') := ep_insert timestamp tid phys_addr index e in
      let es' := <[p := e']> es in
      if (ret =? 1) || (ret =? 2) then Some (ret, es') else insert_expanders timestamp tid phys_addr index ps' es'
  end.

Fixpoint update_expanders (f : endpoint D -> endpoint D) (ps : list nat) (es : list (endpoint D)) : option (list (endpoint D)) :=
  match ps with
  | [] => Some es
  | p :: ps' => e ← es !! p; update_expanders f ps' (<[p := f e]> es)
  end.

Fixpoint latency_expanders (elem : list (Z * Z)) (dramlatency : D) (ps : list nat) (lat : D) (es : list (endpoint D))
    (g : option (CoherencyEngine D)) : option (D * list (endpoint D) * option (CoherencyEngine D)) :=
  match ps with
  | [] => Some (lat, es, g)
  | p :: ps' =>
      e ← es !! p;
      let '(l, e', g') := ep_latency elem dramlatency e g in
      latency_expanders elem dramlatency ps' (lat ⊕ l) (<[p := e']> es) g'
  end.

Fixpoint bandwidth_expanders (elem : list (Z * Z)) (ps : list nat) (bw : D) (es : list (endpoint D)) : option D :=
  match ps with
  | [] => Some bw
  | p :: ps' => e ← es !! p; bandwidth_expanders elem ps' (bw ⊕ ep_bandwidth elem e) es
  end.

Fixpoint access_expanders (timestamp : Z) (ps : list nat) (es : list (endpoint D)) : option (list (Z * Z) * list (endpoint D)) :=
  match ps with
  | [] => Some ([], es)
  | p :: ps' =>
      e ← es !! p;
      let '(l, e') := ep_get_access timestamp e in
      '(rest, es') ← access_expanders timestamp ps' (<[p := e']> es);
      Some (l ++ rest, es')
  end.

(** ** Traversals of the tree *)
Fixpoint sw_insert (timestamp tid phys_addr index : Z) (sw : CXLSwitch) (es : list (endpoint D)) :
    option (Z * CXLSwitch * list (endpoint D)) :=
  match sw with
  | mkSwitch ps ss c id ep lt =>
      '(ret, es1) ← insert_expanders timestamp tid phys_addr index ps es;
      if ret =? 1 then Some (1, mkSwitch ps ss (sw_inc_store c) id ep lt, es1)
      else if ret =? 2 then Some (2, mkSwitch ps ss (sw_inc_load c) id ep lt, es1)
      else
        '(ret2, ss2, es2) ←
          (fix go (ss : list CXLSwitch) (es : list (endpoint D)) :=
             match ss with
             | [] => Some (0, [], es)
             | s :: ss' =>
                 '(r, s', es1) ← sw_insert timestamp tid phys_addr index s es;
                 if (r =? 1) || (r =? 2) then Some (r, s' :: ss', es1)
                 else '(r2, ss2, es2) ← go ss' es1; Some (r2, s' :: ss2, es2)
             end) ss es1;
        if ret2 =? 1 then Some (1, mkSwitch ps ss2 (sw_inc_store c) id ep lt, es2)
        else if ret2 =? 2 then Some (2, mkSwitch ps ss2 (sw_inc_load c) id ep lt, es2)
        else Some (0, mkSwitch ps ss2 c id ep lt, es2)
  end.

Fixpoint sw_delete_entry (addr length : Z) (sw : CXLSwitch) (es : list (endpoint D)) : option (list (endpoint D)) :=
  match sw with
  | mkSwitch ps ss _ _ _ _ =>
      es1 ← update_expanders (ep_delete_entry addr length) ps es;
      (fix go (ss : list CXLSwitch) (es : list (endpoint D)) :=
         match ss with [] => Some es | s :: ss' => es1 ← sw_delete_entry addr length s es; go ss' es1 end) ss es1
  end.

Fixpoint sw_latency (elem : list (Z * Z)) (dramlatency : D) (sw : CXLSwitch) (es : list (endpoint D))
    (g : option (CoherencyEngine D)) : option (D * list (endpoint D) * option (CoherencyEngine D)) :=
  match sw with
  | mkSwitch ps ss _ _ _ _ =>
      '(lat, es1, g1) ← latency_expanders elem dramlatency ps (d_of_Z 0) es g;
      (fix go (ss : list CXLSwitch) (lat : D) (es : list (endpoint D)) (g : option (CoherencyEngine D)) :=
         match ss with
         | [] => Some (lat, es, g)
         | s :: ss' => '(l, es1, g1) ← sw_latency elem dramlatency s es g; go ss' (lat ⊕ l) es1 g1
         end) ss lat es1 g1
  end.

Fixpoint sw_bandwidth (elem : list (Z * Z)) (sw : CXLSwitch) (es : list (endpoint D)) : option D :=
  match sw with
  | mkSwitch ps ss _ _ _ _ =>
      bw ← bandwidth_expanders elem ps (d_of_Z 0) es;
      (fix go (ss : list CXLSwitch) (bw : D) :=
         match ss with [] => Some bw | s :: ss' => b ← sw_bandwidth elem s es; go ss' (bw ⊕ b) end) ss bw
  end.

(** [get_access] asks every expander twice, first for the size; the second answer is the same. *)
Fixpoint sw_get_access (timestamp : Z) (sw : CXLSwitch) (es : list (endpoint D)) : option (list (Z * Z) * list (endpoint D)) :=
  match sw with
  | mkSwitch ps ss _ _ _ _ =>
      '(l, es1) ← access_expanders timestamp ps es;
      '(l2, es2) ←
        (fix go (ss : list CXLSwitch) (es : list (endpoint D)) :=
           match ss with
           | [] => Some ([], es)
           | s :: ss' => '(l, es1) ← sw_get_access timestamp s es; '(rest, es2) ← go ss' es1; Some (l ++ rest, es2)
           end) ss es1;
      Some (l ++ l2, es2)
  end.

(** [free_stats] reaches the expanders of the switch itself only; each tosses its own coins. *)
Fixpoint free_expanders (coins : nat -> nat -> bool) (ps : list nat) (es : list (endpoint D)) : option (list (endpoint D)) :=
  match ps with
  | [] => Some es
  | p :: ps' => e ← es !! p; free_expanders (fun i => coins (S i)) ps' (<[p := ep_free_stats (coins O) e]> es)
  end.

Definition sw_free_stats (coins : nat -> nat -> bool) (sw : CXLSwitch) (es : list (endpoint D)) : option (list (endpoint D)) :=
  match sw with mkSwitch ps _ _ _ _ _ => free_expanders coins ps es end.

(** ** Congestion *)
Definition congestion_latency : D := d_lit 2 100.

(** The sweep over the sorted times: a pair closer than 2000 ns counts as a conflict, and the
    earlier element is replaced by the last one, which is dropped. *)
Fixpoint sweep_conflicts (fuel : nat) (it : nat) (v : list Z) (lat : D) (conflicts : Z) : option (D * list Z * Z) :=
  match fuel with
  | O => None
  | S fuel' =>
      if (it <? length v - 1)%nat then
        a ← v !! it; b ← v !! S it; z ← last v;
        if b ⊟ a <? 2000
        then sweep_conflicts fuel' it (removelast (<[it := z]> v)) (lat ⊕ congestion_latency) (conflicts + 1)
        else sweep_conflicts fuel' (S it) v lat conflicts
      else Some (lat, v, conflicts)
  end.

(** Times and kinds of the accesses to one address, in the order of [std::pair]. *)
Definition access_le (a b : Z * bool) : Prop := a.1 < b.1 \/ (a.1 = b.1 /\ implb a.2 b.2 = true).

#[global] Instance access_le_dec (a b : Z * bool) : Decision (access_le a b).
Proof. unfold access_le. apply _. Defined.

(** The loop over neighbours: latency and conflicts. *)
Fixpoint pair_conflicts (l : list (Z * bool)) (lat : D) (conflicts : Z) : D * Z :=
  match l with
  | (t1, w1) :: ((t2, w2) :: _) as l' =>
      if t2 ⊟ t1 <? 2000 then
        if w1 || w2 then
          pair_conflicts l' (lat ⊕ (congestion_latency ⊗ (if w1 && w2 then d_of_Z 2 else d_lit 15 10))) (conflicts + 1)
        else pair_conflicts l' (lat ⊕ (congestion_latency ⊗ d_lit 5 10)) conflicts
      else pair_conflicts l' lat conflicts
  | _ => (lat, conflicts)
  end.

(** The entries of the switch's expanders after the given time, as (address, time, write). *)
Fixpoint recent_accesses (after : Z) (ps : list nat) (es : list (endpoint D)) : option (list (Z * (Z * bool))) :=
  match ps with
  | [] => Some []
  | p :: ps' =>
      e ← es !! p;
      rest ← recent_accesses after ps' es;
      Some (((fun o => (oi_address o, (oi_timestamp o, oi_access_count o =? 0))) <$>
               filter (fun o => after < oi_timestamp o) (tk_occupation (ex_tracking (ep_base e)))) ++ rest)
  end.

(** [order]: the iteration order of the [unordered_map], given the keys. *)
Fixpoint address_conflicts (acc : list (Z * (Z * bool))) (addrs : list Z) (lat : D) (conflicts : Z) : D * Z :=
  match addrs with
  | [] => (lat, conflicts)
  | a :: addrs' =>
      let mine := snd <$> filter (fun x => x.1 = a) acc in
      let '(lat1, c1) := pair_conflicts (merge_sort access_le mine) lat conflicts in
      address_conflicts acc addrs' lat1 c1
  end.

Fixpoint sw_congestion (order : list Z -> list Z) (sw : CXLSwitch) (es : list (endpoint D)) : option (D * list Z * CXLSwitch) :=
  match sw with
  | mkSwitch ps ss c id ep lt =>
      '(lat, con, ss') ←
        (fix go (ss : list CXLSwitch) (lat : D) (con : list Z) :=
           match ss with
           | [] => Some (lat, con, [])
           | s :: ss' =>
               '(l, k, s') ← sw_congestion order s es;
               '(lat', con', rest) ← go ss' (lat ⊕ l) (con ++ k);
               Some (lat', con', s' :: rest)
           end) ss (d_of_Z 0) [];
      acc ← recent_accesses (lt ⊟ ep * 1000) ps es;
      let times := merge_sort Z.le (con ++ (fst ∘ snd <$> acc)) in
      '(lat1, con1, c1) ← sweep_conflicts (S (length times)) 0 times lat 0;
      let '(lat2, c2) := address_conflicts acc (order (remove_dups (fst <$> acc))) lat1 c1 in
      Some (lat2, con1, mkSwitch ps ss' (sw_inc_conflict c2 c) id ep lt)
  end.
End Endpoint.

(** ** Trees *)
Fixpoint pointers (sw : CXLSwitch) : list nat :=
  match sw with mkSwitch ps ss _ _ _ _ => ps ++ (fix go (ss : list CXLSwitch) := match ss with [] => [] | s :: ss' => pointers s ++ go ss' end) ss end.

Lemma pointers_eq (ps : list nat) (ss : list CXLSwitch) (c : CXLSwitchEvent) (id ep lt : Z) :
  pointers (mkSwitch ps ss c id ep lt) = ps ++ concat (pointers <$> ss).
Proof. cbn [pointers]. f_equal. induction ss as [|s ss IH]; [done|]. cbn. by rewrite IH. Qed.

Section SwitchInd.
Context (P : CXLSwitch -> Prop).
Context (Hnode : forall ps ss c id ep lt, Forall P ss -> P (mkSwitch ps ss c id ep lt)).

Fixpoint switch_nested_ind (sw : CXLSwitch) : P sw :=
  match sw with
  | mkSwitch ps ss c id ep lt =>
      Hnode ps ss c id ep lt
        ((fix go (ss : list CXLSwitch) : Forall P ss :=
            match ss with [] => Forall_nil_2 P | s :: ss' => Forall_cons_2 P s ss' (switch_nested_ind s) (go ss') end) ss)
  end.
End SwitchInd.

Section Traversal.
Context {D : Type} `{Double D}.

Definition ep_id (e : endpoint D) : Z := xc_id (ex_config (ep_base e)).

(** The traversal stops at the first endpoint that takes the access. *)
Definition taken (ret : Z) : bool := (ret =? 1) || (ret =? 2).

Lemma insert_expanders_app (ts tid a i : Z) (l1 l2 : list nat) (es : list (endpoint D)) :
  insert_expanders ts tid a i (l1 ++ l2) es =
  ('(ret, es1) ← insert_expanders ts tid a i l1 es; if taken ret then Some (ret, es1) else insert_expanders ts tid a i l2 es1).
Proof.
  revert es. induction l1 as [|p l1 IH]; intros es; cbn [insert_expanders app]; [done|].
  destruct (es !! p) as [e|]; cbn [mbind option_bind]; [|done]. destruct (ep_insert ts tid a i e) as [ret e']. fold (taken ret).
  destruct (taken ret) eqn:Et; [cbn; by rewrite Et|]. apply IH.
Qed.

Lemma insert_expanders_ret (ts tid a i : Z) (ps : list nat) (es es' : list (endpoint D)) (ret : Z) :
  insert_expanders ts tid a i ps es = Some (ret, es') -> taken ret = true \/ ret = 0.
Proof.
  revert es. induction ps as [|p ps IH]; intros es; cbn [insert_expanders]; [intros [= <- _]; by right|].
  destruct (es !! p) as [e|]; cbn [mbind option_bind]; [|done]. destruct (ep_insert ts tid a i e) as [r e']. fold (taken r).
  destruct (taken r) eqn:Et; [intros [= <- _]; by left|]. apply IH.
Qed.

(** The result and the store of an insertion into a tree. *)
Definition outcome (x : option (Z * CXLSwitch * list (endpoint D))) : option (Z * list (endpoint D)) :=
  '(ret, _, es) ← x; Some (ret, es).

Lemma sw_insert_flat (ts tid a i : Z) (sw : CXLSwitch) (es : list (endpoint D)) :
  outcome (sw_insert ts tid a i sw es) = insert_expanders ts tid a i (pointers sw) es.
Proof.
  revert es. induction sw as [ps ss c id ep lt IH] using switch_nested_ind. intros es. rewrite pointers_eq, insert_expanders_app. cbn [sw_insert].
  destruct (insert_expanders ts tid a i ps es) as [[ret es1]|] eqn:E; cbn [mbind option_bind]; [|done].
  apply insert_expanders_ret in E. unfold taken in *. destruct (ret =? 1) eqn:E1; [apply Z.eqb_eq in E1 as ->; done|].
  destruct (ret =? 2) eqn:E2; [apply Z.eqb_eq in E2 as ->; done|]. cbn [orb] in *. clear E E1 E2 ret es.
  match goal with |- context [?f ss es1] => set (go := f) end.
  assert (Hgo : ('(r, _, es') ← go ss es1; Some (r, es')) = insert_expanders ts tid a i (concat (pointers <$> ss)) es1).
  { revert es1. induction IH as [|s ss Hs _ IHss]; intros es1; cbn [go fmap list_fmap concat]; [done|]. rewrite insert_expanders_app, <- Hs. unfold outcome.
    destruct (sw_insert ts tid a i s es1) as [[[r s'] es2]|]; cbn [mbind option_bind]; [|done]. unfold taken. destruct ((r =? 1) || (r =? 2)); [done|].
    specialize (IHss es2). fold go. destruct (go ss es2) as [[[r2 ss2] es3]|]; exact IHss. }
  rewrite <- Hgo. destruct (go ss es1) as [[[r ss2] es2]|]; cbn [mbind option_bind] in *; [|done].
  symmetry in Hgo. apply insert_expanders_ret in Hgo. unfold taken in Hgo. destruct (r =? 1) eqn:E1; [apply Z.eqb_eq in E1 as ->; done|].
  destruct (r =? 2) eqn:E2; [apply Z.eqb_eq in E2 as ->; done|]. destruct Hgo as [?| ->]; done.
Qed.
End Traversal.

Section Routing.
Context {D : Type} `{Double D}.

Lemma ep_insert_other (ts tid a i : Z) (e : endpoint D) : ep_id e <> i -> ep_insert ts tid a i e = (0, e).
Proof.
  intros Hi. destruct e as [x|r]; unfold ep_id in Hi; cbn [ep_base] in Hi; cbn [ep_insert]; unfold expander_insert, remote_insert;
    (rewrite (proj2 (Z.eqb_neq _ _)) by congruence); done.
Qed.

(** [ps] points to endpoints that do not have the given id. *)
Definition others_only (i : Z) (es : list (endpoint D)) (ps : list nat) : Prop :=
  Forall (fun p => exists e, es !! p = Some e /\ ep_id e <> i) ps.

Lemma insert_others (ts tid a i : Z) (ps : list nat) (es : list (endpoint D)) :
  others_only i es ps -> insert_expanders ts tid a i ps es = Some (0, es).
Proof.
  induction 1 as [|p ps (e & He & Hi) _ IH]; cbn [insert_expanders]; [done|]. rewrite He. cbn [mbind option_bind].
  rewrite ep_insert_other by done. cbn [Z.eqb orb]. by rewrite list_insert_id.
Qed.

Lemma insert_routed (ts tid a i : Z) (l1 l2 : list nat) (p : nat) (e : endpoint D) (es : list (endpoint D)) :
  es !! p = Some e -> ep_id e = i -> others_only i es (l1 ++ l2) ->
  insert_expanders ts tid a i (l1 ++ p :: l2) es =
  let '(ret, e') := ep_insert ts tid a i e in Some (if taken ret then ret else 0, <[p := e']> es).
Proof.
  intros He Hi [H1 H2]%Forall_app. rewrite insert_expanders_app, insert_others by done. cbn [mbind option_bind taken Z.eqb orb insert_expanders].
  rewrite He. cbn [mbind option_bind]. destruct (ep_insert ts tid a i e) as [ret e']. fold (taken ret). destruct (taken ret); [done|].
  apply insert_others. eapply Forall_impl; [exact H2|]. intros q (e2 & He2 & Hn). exists e2. split; [|done].
  rewrite list_lookup_insert_ne; [done|]. intros ->. congruence.
Qed.

End Routing.


(** ** Access latency of a tree of local expanders *)
Definition local_ok {D} `{Double D} (e : endpoint D) : Prop := match e with Local x => expander_ok x | Remote _ => False end.

Definition valid_pointers {A} (es : list A) (ps : list nat) : Prop := Forall (fun p => (p < length es)%nat) ps.

Section ZeroLatency.
Context {D : Type} `{Double D} (Hzero : d_add (d_of_Z 0) (d_of_Z 0) = (d_of_Z 0 : D)).

Lemma latency_expanders_zero (elem : list (Z * Z)) (dram : D) (ps : list nat) (es : list (endpoint D)) (g : option (CoherencyEngine D)) :
  valid_pointers es ps -> Forall local_ok es ->
  exists es', latency_expanders elem dram ps (d_of_Z 0) es g = Some (d_of_Z 0, es', g) /\ Forall local_ok es' /\ length es' = length es.
Proof.
  revert es. induction ps as [|p ps IH]; intros es Hv Hes; cbn [latency_expanders]; [by exists es|]. apply Forall_cons in Hv as [Hp Hv].
  destruct (lookup_lt_is_Some_2 es p Hp) as [e He]. rewrite He. cbn [mbind option_bind].
  assert (Hx := Forall_lookup_1 _ _ _ _ Hes He). destruct e as [x|r]; [|done]. cbn [ep_latency local_ok] in *.
  destruct (expander_latency_zero elem dram x Hx) as [Hl Hok]. destruct (expander_latency elem dram x) as [l x']. cbn [fst snd] in *. rewrite Hl, Hzero.
  destruct (IH (<[p := Local x']> es)) as (es' & E & H1 & H2).
  - unfold valid_pointers. by rewrite length_insert.
  - by apply Forall_insert.
  - exists es'. split_and!; [done|done|]. by rewrite length_insert in H2.
Qed.

Lemma sw_latency_zero (elem : list (Z * Z)) (dram : D) (sw : CXLSwitch) (es : list (endpoint D)) (g : option (CoherencyEngine D)) :
  valid_pointers es (pointers sw) -> Forall local_ok es ->
  exists es', sw_latency elem dram sw es g = Some (d_of_Z 0, es', g) /\ Forall local_ok es' /\ length es' = length es.
Proof.
  revert es. induction sw as [ps ss c id ep lt IH] using switch_nested_ind. intros es. rewrite pointers_eq. intros [Hv1 Hv2]%Forall_app Hes. cbn [sw_latency].
  destruct (latency_expanders_zero elem dram ps es g Hv1 Hes) as (es1 & -> & Hes1 & Hl1). cbn [mbind option_bind].
  assert (Hv : valid_pointers es1 (concat (pointers <$> ss))) by (unfold valid_pointers; by rewrite Hl1). rewrite <- Hl1. clear Hv1 Hv2 Hes Hl1 es.
  revert es1 Hv Hes1. induction IH as [|s ss Hs _ IHss]; intros es Hv Hes; [by exists es|]. cbn [fmap list_fmap concat] in Hv. apply Forall_app in Hv as [Hv1 Hv2].
  destruct (Hs es Hv1 Hes) as (es1 & -> & Hes1 & Hl1). cbn [mbind option_bind]. rewrite Hzero.
  destruct (IHss es1) as (es2 & E & H1 & H2); [by unfold valid_pointers; rewrite Hl1|done|]. exists es2. split_and!; [done|done|congruence].
Qed.
End ZeroLatency.

(** A tree of local expanders always reports the access latency 0.0, whatever is accessed and
    however the expanders got into their state; this is the base latency of every request
    that the servers handle. *)
Theorem switch_latency_always_zero (elem : list (Z * Z)) (dram : spec_float) (sw : CXLSwitch) (es : list (endpoint spec_float))
  (g : option (CoherencyEngine spec_float)) (Hv : valid_pointers es (pointers sw))
  (Hes : Forall (fun e => exists x rb wb rl wl id cap, e = Local x /\ rtc (expander_step true) (expander_new rb wb rl wl id cap) x) es) :
  exists es', sw_latency elem dram sw es g = Some (d_of_Z 0, es', g).
Proof.
  destruct (@sw_latency_zero spec_float binary64 eq_refl elem dram sw es g Hv) as (es' & E & _); [|by exists es'].
  eapply Forall_impl; [exact Hes|]. intros e (x & rb & wb & rl & wl & id & cap & -> & Hr). by eapply expander_reachable_ok.
Qed.

Lemma switch_latency_always_zero_witness :
  exists es', sw_latency [(6, 64)] (d_of_Z 110) (mkSwitch [] [mkSwitch [0%nat] [] (mkSwitchEvent 0 0 0) 1 0 0] (mkSwitchEvent 0 0 0) 0 0 0)
    [Local (expander_insert 5 1 64 0 (expander_new (D := spec_float) 25 25 100 150 0 1024)).2] None = Some (d_of_Z 0, es', None).
Proof.
  apply switch_latency_always_zero.
  - repeat constructor.
  - constructor; [|constructor]. eexists _, 25, 25, 100, 150, 0, 1024. split; [reflexivity|]. eapply rtc_once, XInsert.
Defined.

(** ** The congestion sweep *)
Section Sweep.
Context {D : Type} `{Double D}.

Lemma removelast_insert_length (v : list Z) (it : nat) (z : Z) : length (removelast (<[it := z]> v)) = (length v - 1)%nat.
Proof.
  destruct (<[it := z]> v) as [|y w _] eqn:E using rev_ind; assert (Hl := f_equal length E); rewrite length_insert in Hl; [cbn in *; lia|].
  rewrite removelast_last. rewrite length_app in Hl. cbn in Hl. lia.
Qed.

Lemma sweep_total (fuel it : nat) (v : list Z) (lat : D) (k : Z) :
  (length v - it < fuel)%nat ->
  exists lat' v' k', sweep_conflicts fuel it v lat k = Some (lat', v', k') /\ Z.of_nat (length v') + k' = Z.of_nat (length v) + k /\ k <= k'.
Proof.
  revert it v lat k. induction fuel as [|fuel IH]; intros it v lat k Hf; [lia|]. cbn [sweep_conflicts].
  destruct (Nat.ltb_spec it (length v - 1)) as [Hi|Hi]; [|by eexists _, _, _].
  destruct (lookup_lt_is_Some_2 v it) as [a ->]; [lia|]. destruct (lookup_lt_is_Some_2 v (S it)) as [b ->]; [lia|].
  destruct (last v) as [z|] eqn:Ez; [|apply last_None in Ez; subst v; cbn in Hi; lia]. cbn [mbind option_bind].
  assert (Hl := removelast_insert_length v it z). destruct (_ <? 2000).
  - destruct (IH it (removelast (<[it := z]> v)) (d_add lat congestion_latency) (k + 1)) as (lat' & v' & k' & E & H1 & H2); [lia|].
    exists lat', v', k'. split_and!; [done|lia|lia].
  - destruct (IH (S it) v lat k) as (lat' & v' & k' & E & H1 & H2); [lia|]. by exists lat', v', k'.
Qed.

Lemma recent_total (after : Z) (ps : list nat) (es : list (endpoint D)) : valid_pointers es ps -> exists acc, recent_accesses after ps es = Some acc.
Proof.
  induction 1 as [|p ps Hp _ [acc IH]]; cbn [recent_accesses]; [by eexists|]. destruct (lookup_lt_is_Some_2 es p Hp) as [e ->]. rewrite IH. cbn. by eexists.
Qed.

Lemma sw_congestion_answers (order : list Z -> list Z) (sw : CXLSwitch) (es : list (endpoint D)) :
  valid_pointers es (pointers sw) ->
  exists lat con sw', sw_congestion order sw es = Some (lat, con, sw') /\ pointers sw' = pointers sw.
Proof.
  induction sw as [ps ss c id ep lt IH] using switch_nested_ind. rewrite pointers_eq. intros [Hv1 Hv2]%Forall_app. cbn [sw_congestion].
  match goal with |- context [?f ss (d_of_Z 0) []] => set (go := f) end.
  assert (Hgo : forall lat con, exists lat' con' ss', go ss lat con = Some (lat', con', ss') /\ concat (pointers <$> ss') = concat (pointers <$> ss)).
  { clear Hv1. induction IH as [|s ss Hs _ IHss]; intros lat con; cbn [go]; [by eexists _, _, _|]. cbn [fmap list_fmap concat] in Hv2. apply Forall_app in Hv2 as [Ha Hb].
    destruct (Hs Ha) as (l & k & s' & -> & Hp). cbn [mbind option_bind]. fold go. destruct (IHss Hb (d_add lat l) (con ++ k)) as (lat' & con' & ss' & -> & Hp').
    cbn [mbind option_bind]. eexists _, _, _. split; [done|]. cbn. by rewrite Hp, Hp'. }
  destruct (Hgo (d_of_Z 0) []) as (lat & con & ss' & -> & Hp). cbn [mbind option_bind].
  destruct (recent_total (lt ⊟ ep * 1000) ps es Hv1) as [acc ->]. cbn [mbind option_bind].
  match goal with |- context [sweep_conflicts _ _ ?v ?l 0] => destruct (sweep_total (S (length v)) 0 v l 0) as (lat1 & con1 & k & -> & _); [lia|] end.
  cbn [mbind option_bind]. destruct (address_conflicts _ _ _ _) as [lat2 c2]. eexists _, _, _. split; [done|]. by rewrite pointers_eq, Hp.
Qed.

(** Congestion of a tree is always computed: the sweep, which drops the last element on each
    conflict and otherwise moves on, ends within one turn more than there are times and stays
    inside the vector, and the tree keeps its endpoints. *)
Theorem switch_congestion_total (order : list Z -> list Z) (sw : CXLSwitch) (es : list (endpoint D))
  (Hv : valid_pointers es (pointers sw)) :
  exists lat con sw', sw_congestion order sw es = Some (lat, con, sw') /\ pointers sw' = pointers sw.
Proof. by apply sw_congestion_answers. Qed.
End Sweep.

Lemma switch_congestion_total_witness :
  exists lat con sw', sw_congestion (fun l => l) (mkSwitch [0%nat; 0%nat] [] (mkSwitchEvent 0 0 0) 0 0 0)
    [Local (expander_insert 5 1 64 0 (expander_new (D := spec_float) 25 25 100 150 0 1024)).2] = Some (lat, con, sw') /\
    pointers sw' = [0%nat; 0%nat].
Proof. apply (switch_congestion_total (fun l => l) (mkSwitch [0%nat; 0%nat] [] (mkSwitchEvent 0 0 0) 0 0 0)). repeat constructor. Defined.
