(* ===== verification/Topology.v ===== *)
(** * The topology of the controller ([CXLController::construct_topo] and [tokenize] of
    [src/cxlcontroller.cpp])

    The topology is written as a tree in Newick notation, [(1,(2,3));], where a number is the
    position of an expander, counted from 1, and every inner pair of parentheses a switch; [R:n:m]
    stands for the memory of node [n].  Indexing a vector outside its bounds and [back] on the
    empty stack are undefined ([None]); the exception for unbalanced parentheses is a result. *)
From stdpp Require Import strings pretty.
From Stdlib Require Import Ascii.
From Stdlib Require Import SpecFloat.
From S2P Require Import Prelude Double Fabric CoherencyEngine Expander Switch.
#[local] Open Scope Z_scope.

(** ** Tokens *)
Definition is_delimiter (c : ascii) : bool :=
  Ascii.eqb c "("%char || Ascii.eqb c ")"%char || Ascii.eqb c ":"%char || Ascii.eqb c ","%char.

Definition flush (tmp : string) : list string := match tmp with EmptyString => [] | _ => [tmp] end.

(** [tmp] is empty again after it has been moved into the result. *)
Fixpoint tokenize_from (tmp s : string) : list string :=
  match s with
  | EmptyString => flush tmp
  | String c s' =>
      if is_delimiter c then flush tmp ++ String c EmptyString :: tokenize_from EmptyString s'
      else tokenize_from (tmp +:+ String c EmptyString) s'
  end.

Definition tokenize (s : string) : list string := tokenize_from EmptyString s.

(** ** [atoi]: white space, a sign, then digits; anything else ends the number *)
Definition is_space (c : ascii) : bool := let n := Z.of_N (N_of_ascii c) in (n =? 32) || ((9 <=? n) && (n <=? 13)).

Definition digit_of (c : ascii) : option Z :=
  let n := Z.of_N (N_of_ascii c) in if (48 <=? n) && (n <=? 57) then Some (n - 48) else None.

Fixpoint skip_space (s : string) : string :=
  match s with String c s' => if is_space c then skip_space s' else s | EmptyString => s end.

Fixpoint atoi_digits (acc : Z) (s : string) : Z :=
  match s with
  | String c s' => match digit_of c with Some d => atoi_digits (10 * acc + d) s' | None => acc end
  | EmptyString => acc
  end.

Definition atoi (s : string) : Z :=
  match skip_space s with
  | String "-" s' => - atoi_digits 0 s'
  | String "+" s' => atoi_digits 0 s'
  | s' => atoi_digits 0 s'
  end.

(** ** The part of the controller that [construct_topo] builds *)
Set Implicit Arguments.

Record Topology (D : Type) := mkTopology {
  tp_root : CXLSwitch;                     (* the controller as a switch *)
  tp_endpoints : list (endpoint D);        (* all expanders *)
  tp_cur_expanders : list nat;
  tp_num_switches : Z;
  tp_num_end_points : Z;
  tp_device_map : gmap Z nat;
  tp_remote_expanders : list nat
}.

(** The stack of open switches, innermost first, on top of the controller itself, which stays on
    the stack until its parenthesis is closed. *)
Record TopoParser (D : Type) := mkTopoParser {
  ps_open : list CXLSwitch;
  ps_root_open : bool;
  ps_topo : Topology D
}.

Inductive topo_result (D : Type) := TopoOk (t : Topology D) | TopoThrow (t : Topology D).
Arguments TopoOk {D} t.
Arguments TopoThrow {D} t.

Unset Implicit Arguments.

Definition add_expander (p : nat) (sw : CXLSwitch) : CXLSwitch :=
  match sw with mkSwitch ps ss c id ep lt => mkSwitch (ps ++ [p]) ss c id ep lt end.

Definition add_switch (s sw : CXLSwitch) : CXLSwitch :=
  match sw with mkSwitch ps ss c id ep lt => mkSwitch ps (ss ++ [s]) c id ep lt end.

Section Construct.
Context {D : Type} `{Double D}.

Definition topology_new : Topology D := mkTopology (switch_new 0) [] [] 0 0 ∅ [].

Definition set_root (sw : CXLSwitch) (t : Topology D) : Topology D :=
  mkTopology sw (tp_endpoints t) (tp_cur_expanders t) (tp_num_switches t) (tp_num_end_points t) (tp_device_map t) (tp_remote_expanders t).

Definition set_num_switches (n : Z) (t : Topology D) : Topology D :=
  mkTopology (tp_root t) (tp_endpoints t) (tp_cur_expanders t) n (tp_num_end_points t) (tp_device_map t) (tp_remote_expanders t).

(** [device_map[num_end_points] = p; num_end_points++]. *)
Definition add_device (p : nat) (t : Topology D) : Topology D :=
  mkTopology (tp_root t) (tp_endpoints t) (tp_cur_expanders t) (tp_num_switches t) (tp_num_end_points t + 1)
    (<[tp_num_end_points t := p]> (tp_device_map t)) (tp_remote_expanders t).

Definition insert_end_point (x : CXLMemExpander D) (t : Topology D) : Topology D :=
  mkTopology (tp_root t) (tp_endpoints t ++ [Local x]) (tp_cur_expanders t ++ [length (tp_endpoints t)])
    (tp_num_switches t) (tp_num_end_points t) (tp_device_map t) (tp_remote_expanders t).

(** The new endpoint is attached to the controller itself; its pointer is returned. *)
Definition add_remote_endpoint (local_node : Z) (has_engine : bool) (remote_node base capacity : Z)
    (cfg : FabricLinkConfig D) (t : Topology D) : nat * Topology D :=
  let p := length (tp_endpoints t) in
  let id := tp_num_end_points t in
  (p, mkTopology (add_expander p (tp_root t))
        (tp_endpoints t ++ [Remote (remote_new id remote_node local_node base capacity cfg has_engine)])
        (tp_cur_expanders t) (tp_num_switches t) (id + 1) (<[id := p]> (tp_device_map t)) (tp_remote_expanders t ++ [p])).

Definition is_remote_of (node_id : Z) (e : endpoint D) : bool :=
  match e with Remote r => rx_remote_node_id r =? node_id | Local _ => false end.

Definition get_remote_expander (node_id : Z) (t : Topology D) : option nat :=
  snd <$> list_find (fun p => is_remote_of node_id <$> tp_endpoints t !! p = Some true) (tp_remote_expanders t).

(** [stk.back()->expanders.emplace_back(p)]. *)
Definition add_to_top (p : nat) (st : TopoParser D) : option (TopoParser D) :=
  match ps_open st with
  | s :: o => Some (mkTopoParser (add_expander p s :: o) (ps_root_open st) (ps_topo st))
  | [] =>
      if ps_root_open st
      then Some (mkTopoParser [] true (set_root (add_expander p (tp_root (ps_topo st))) (ps_topo st)))
      else None
  end.

(** The closed switch becomes a child of the one below it on the stack. *)
Definition attach (s : CXLSwitch) (o : list CXLSwitch) (t : Topology D) : list CXLSwitch * Topology D :=
  match o with
  | s2 :: o' => (add_switch s s2 :: o', t)
  | [] => ([], set_root (add_switch s (tp_root t)) t)
  end.

(** [cur_expanders[atoi(token) - 1]]. *)
Definition expander_at (token : string) (t : Topology D) : option nat :=
  let i := atoi token - 1 in if 0 <=? i then tp_cur_expanders t !! Z.to_nat i else None.

Definition default_capacity : Z := 1024 * 1024 * 1024.

Definition remote_link : FabricLinkConfig D := mkFabricLinkConfig (d_of_Z 100) (d_of_Z 25) 32.

(** The next four tokens of [R:node_id:exp_id]: the node. *)
Definition remote_node_of (token : string) (rest : list string) : option string :=
  match rest with
  | c1 :: n :: c2 :: _ :: _ => if (token =? "R")%string && (c1 =? ":")%string && (c2 =? ":")%string then Some n else None
  | _ => None
  end.

(** One turn of the loop: how many further tokens to skip and the state, or the exception. *)
Definition topo_step (local_node : Z) (has_engine : bool) (token : string) (rest : list string) (st : TopoParser D) :
    option (option (nat * TopoParser D)) :=
  let t := ps_topo st in
  if (token =? "(")%string && (tp_num_switches t =? 0) then
    Some (Some (O, mkTopoParser (ps_open st) (ps_root_open st) (set_num_switches 1 t)))
  else if (token =? "(")%string then
    if ps_root_open st then
      Some (Some (O, mkTopoParser (switch_new (tp_num_switches t) :: ps_open st) true (set_num_switches (tp_num_switches t + 1) t)))
    else None
  else if (token =? ")")%string then
    match ps_open st with
    | s :: o => let '(o', t') := attach s o t in Some (Some (O, mkTopoParser o' true t'))
    | [] => if ps_root_open st then Some (Some (O, mkTopoParser [] false t)) else Some None
    end
  else if (token =? ",")%string || (token =? ";")%string then Some (Some (O, st))
  else
    match remote_node_of token rest with
    | Some n =>
        let remote_node := wrap32 (atoi n) in
        let '(p, t') := add_remote_endpoint local_node has_engine remote_node (remote_node ⊠ default_capacity) default_capacity remote_link t in
        st' ← add_to_top p (mkTopoParser (ps_open st) (ps_root_open st) t');
        Some (Some (4%nat, st'))
    | None =>
        p ← expander_at token t;
        st' ← add_to_top p st;
        Some (Some (O, mkTopoParser (ps_open st') (ps_root_open st') (add_device p (ps_topo st'))))
    end.

(** The switches that are still open are already attached to their parents. *)
Fixpoint close_up (s : CXLSwitch) (o : list CXLSwitch) (t : Topology D) : Topology D :=
  match o with
  | [] => set_root (add_switch s (tp_root t)) t
  | s2 :: o' => close_up (add_switch s s2) o' t
  end.

Definition close_all (o : list CXLSwitch) (t : Topology D) : Topology D :=
  match o with [] => t | s :: o' => close_up s o' t end.

Fixpoint topo_loop (local_node : Z) (has_engine : bool) (skip : nat) (tokens : list string) (st : TopoParser D) : option (topo_result D) :=
  match tokens with
  | [] => Some (TopoOk (close_all (ps_open st) (ps_topo st)))
  | token :: rest =>
      match skip with
      | S skip' => topo_loop local_node has_engine skip' rest st
      | O =>
          step ← topo_step local_node has_engine token rest st;
          match step with
          | Some (skip', st') => topo_loop local_node has_engine skip' rest st'
          | None => Some (TopoThrow (close_all (ps_open st) (ps_topo st)))
          end
      end
  end.

Definition construct_topo (local_node : Z) (has_engine : bool) (newick : string) (t : Topology D) : option (topo_result D) :=
  topo_loop local_node has_engine O (tokenize newick) (mkTopoParser [] true t).
End Construct.

(** ** Printing *)

(** A leaf is the position of an expander. *)
Inductive topo_tree := TLeaf (i : nat) | TNode (ts : list topo_tree).

Definition leaf_token (i : nat) : string := pretty (N.of_nat (S i)).

Fixpoint separate (ls : list (list string)) : list string :=
  match ls with
  | [] => []
  | l :: ls' => l ++ match ls' with [] => [] | _ => "," :: separate ls' end
  end.

Fixpoint tree_tokens (t : topo_tree) : list string :=
  match t with
  | TLeaf i => [leaf_token i]
  | TNode ts => "(" :: separate ((fix go ts := match ts with [] => [] | u :: us => tree_tokens u :: go us end) ts) ++ [")"]
  end.

Fixpoint join (tokens : list string) : string :=
  match tokens with [] => EmptyString | token :: rest => token +:+ join rest end.

Definition newick (ts : list topo_tree) : string := join (tree_tokens (TNode ts) ++ [";"]).

(** ** Tokens of a printed tree *)
Fixpoint string_forall (f : ascii -> bool) (s : string) : bool :=
  match s with EmptyString => true | String c s' => f c && string_forall f s' end.

Definition is_word (s : string) : bool :=
  match s with EmptyString => false | _ => string_forall (fun c => negb (is_delimiter c)) s end.

Definition is_delimiter_token (s : string) : bool :=
  match s with String c EmptyString => is_delimiter c | _ => false end.

(** Words are separated by delimiters. *)
Fixpoint separated (after_word : bool) (tokens : list string) : bool :=
  match tokens with
  | [] => true
  | token :: rest =>
      if is_delimiter_token token then separated false rest
      else is_word token && negb after_word && separated true rest
  end.

Lemma string_app_cons (c : ascii) (a b : string) : String c a +:+ b = String c (a +:+ b).
Proof. reflexivity. Qed.

Lemma string_app_nil (a : string) : a +:+ EmptyString = a.
Proof. induction a as [|c a IH]; [done|]. by rewrite string_app_cons, IH. Qed.

Lemma string_app_assoc (a b c : string) : (a +:+ b) +:+ c = a +:+ (b +:+ c).
Proof. induction a as [|x a IH]; [done|]. by rewrite !string_app_cons, IH. Qed.

Lemma tokenize_word (tmp w s : string) :
  string_forall (fun c => negb (is_delimiter c)) w = true -> tokenize_from tmp (w +:+ s) = tokenize_from (tmp +:+ w) s.
Proof.
  revert tmp. induction w as [|c w IH]; intros tmp Hw; [by rewrite string_app_nil|]. cbn in Hw. apply andb_true_iff in Hw as [Hc Hw].
  rewrite string_app_cons. cbn [tokenize_from]. destruct (is_delimiter c); [done|]. rewrite IH by done. by rewrite string_app_assoc.
Qed.

Lemma tokenize_join (tokens : list string) :
  (separated false tokens = true -> tokenize_from EmptyString (join tokens) = tokens) /\
  (forall w, is_word w = true -> separated true tokens = true -> tokenize_from w (join tokens) = w :: tokens).
Proof.
  induction tokens as [|token rest [IH1 IH2]]; cbn [join separated].
  - split; [done|]. intros w Hw _. cbn. by destruct w.
  - destruct (is_delimiter_token token) eqn:Ed.
    + destruct token as [|c [|? ?]]; try done. cbn in Ed. rewrite string_app_cons.
      split; [|intros w Hw]; intros Hs; cbn [tokenize_from]; rewrite Ed; change (EmptyString +:+ join rest) with (join rest); rewrite (IH1 Hs); [done|].
      by destruct w.
    + split; [|intros w _; rewrite andb_false_r; done]. intros [[Hw _]%andb_true_iff Hs]%andb_true_iff.
      assert (Hf : string_forall (fun c => negb (is_delimiter c)) token = true) by by destruct token.
      rewrite tokenize_word by done. by apply IH2.
Qed.

(** ** Decimal numbers *)
Definition is_digit (c : ascii) : bool := match digit_of c with Some _ => true | None => false end.

Lemma pretty_char_digit (x : N) : (x < 10)%N -> digit_of (pretty_N_char x) = Some (Z.of_N x).
Proof.
  intros Hx. assert (Hc : (x = 0 \/ x = 1 \/ x = 2 \/ x = 3 \/ x = 4 \/ x = 5 \/ x = 6 \/ x = 7 \/ x = 8 \/ x = 9)%N) by lia.
  by repeat destruct Hc as [->|Hc]; [..|subst x].
Qed.

Lemma pretty_go_atoi (x : N) (s : string) :
  (0 < x)%N -> exists ds, pretty_N_go x s = ds +:+ s /\ string_forall is_digit ds = true /\ ds <> EmptyString /\
    forall acc t, exists k, atoi_digits acc (ds +:+ t) = atoi_digits (acc * 10 ^ k + Z.of_N x) t /\ 0 <= k.
Proof.
  revert s. induction x as [x IH] using (well_founded_induction N.lt_wf_0). intros s Hx. rewrite pretty_N_go_step by done.
  set (c := pretty_N_char (x `mod` 10)). assert (Hd : digit_of c = Some (Z.of_N (x `mod` 10))) by (apply pretty_char_digit; apply N.mod_lt; lia).
  assert (Hdig : is_digit c = true) by (unfold is_digit; by rewrite Hd).
  destruct (decide (0 < x `div` 10)%N) as [Hp|Hp].
  - assert (Hlt : (x `div` 10 < x)%N) by (apply N.div_lt; lia). destruct (IH _ Hlt (String c s) Hp) as (ds & -> & Hall & Hne & Hat).
    exists (ds +:+ String c EmptyString). split_and!.
    + by rewrite string_app_assoc.
    + clear -Hall Hdig. induction ds as [|d ds IHd]; [change (is_digit c && true = true); by rewrite Hdig|]. rewrite string_app_cons. cbn [string_forall] in *. apply andb_true_iff in Hall as [-> Hall]. by apply IHd.
    + by destruct ds.
    + intros acc t. destruct (Hat acc (String c t)) as (k & E & Hk). exists (k + 1). split; [|lia].
      rewrite string_app_assoc. change (String c EmptyString +:+ t) with (String c t). rewrite E. cbn [atoi_digits]. rewrite Hd. f_equal.
      rewrite Z.pow_add_r, N2Z.inj_div, N2Z.inj_mod by lia. assert (Hm := Z_div_mod_eq_full (Z.of_N x) 10). lia.
  - assert (E0 : (x `div` 10 = 0)%N) by (apply N.le_0_r, N.nlt_ge, Hp). rewrite E0, pretty_N_go_0. exists (String c EmptyString). split_and!; [done|cbn [string_forall]; by rewrite Hdig|done|].
    intros acc t. exists 1. split; [|lia]. change (String c EmptyString +:+ t) with (String c t). cbn [atoi_digits]. rewrite Hd. f_equal.
    rewrite N.mod_small by (apply N.div_small_iff in E0; lia). lia.
Qed.

Lemma digit_not_delimiter (c : ascii) : is_digit c = true -> is_delimiter c = false /\ is_space c = false.
Proof. destruct c as [[] [] [] [] [] [] [] []]; vm_compute; done. Qed.

Lemma digits_word (ds : string) : string_forall is_digit ds = true -> ds <> EmptyString -> is_word ds = true.
Proof.
  intros Hd Hn. assert (Hf : string_forall (fun c => negb (is_delimiter c)) ds = true); [|by destruct ds]. clear Hn.
  induction ds as [|c ds IH]; [done|]. cbn [string_forall] in *. apply andb_true_iff in Hd as [Hc Hd].
  by rewrite (proj1 (digit_not_delimiter c Hc)), IH.
Qed.

Lemma digits_atoi (ds : string) : string_forall is_digit ds = true -> atoi ds = atoi_digits 0 ds.
Proof.
  destruct ds as [|c ds]; [done|]. cbn [string_forall]. intros [Hc _]%andb_true_iff. unfold atoi. cbn [skip_space].
  rewrite (proj2 (digit_not_delimiter c Hc)). by destruct c as [[] [] [] [] [] [] [] []].
Qed.

Lemma leaf_token_spec (i : nat) :
  atoi (leaf_token i) = Z.of_nat i + 1 /\ string_forall is_digit (leaf_token i) = true /\ is_word (leaf_token i) = true.
Proof.
  unfold leaf_token, pretty, pretty_N. case_decide as Hz; [lia|].
  destruct (pretty_go_atoi (N.of_nat (S i)) EmptyString ltac:(lia)) as (ds & -> & Hd & Hn & Ha). rewrite string_app_nil.
  split_and!; [|done|by apply digits_word]. rewrite digits_atoi by done. destruct (Ha 0 EmptyString) as (k & E & _). rewrite string_app_nil in E.
  rewrite E. cbn [atoi_digits]. lia.
Qed.

(** A number is none of the tokens with a meaning of their own. *)
Lemma leaf_token_plain (i : nat) :
  (leaf_token i =? "(")%string = false /\ (leaf_token i =? ")")%string = false /\ (leaf_token i =? ",")%string = false /\
  (leaf_token i =? ";")%string = false /\ (leaf_token i =? "R")%string = false.
Proof.
  destruct (leaf_token_spec i) as (_ & Hd & _). split_and!; apply String.eqb_neq; intros E; by rewrite E in Hd.
Qed.

(** ** The tree that a notation stands for *)

(** Attach a subtree to a switch; switches are numbered from [k] in the order of their opening
    parentheses. *)
Fixpoint build_into (cur : list nat) (t : topo_tree) (acc : CXLSwitch * Z) : CXLSwitch * Z :=
  let '(sw, k) := acc in
  match t with
  | TLeaf i => (add_expander (cur !!! i) sw, k)
  | TNode ts =>
      let '(s, k') := (fix go ts acc := match ts with [] => acc | u :: us => go us (build_into cur u acc) end) ts (switch_new k, k + 1) in
      (add_switch s sw, k')
  end.

Definition build_all (cur : list nat) (ts : list topo_tree) (acc : CXLSwitch * Z) : CXLSwitch * Z :=
  foldl (fun acc u => build_into cur u acc) acc ts.

(** The positions named in a tree, from left to right. *)
Fixpoint leaves (t : topo_tree) : list nat :=
  match t with TLeaf i => [i] | TNode ts => (fix go ts := match ts with [] => [] | u :: us => leaves u ++ go us end) ts end.

Lemma build_node (cur : list nat) (ts : list topo_tree) (sw : CXLSwitch) (k : Z) :
  build_into cur (TNode ts) (sw, k) = let '(s, k') := build_all cur ts (switch_new k, k + 1) in (add_switch s sw, k').
Proof.
  cbn [build_into]. match goal with |- context [?f ts (switch_new k, k + 1)] => set (go := f) end.
  assert (E : forall ts acc, go ts acc = build_all cur ts acc); [|by rewrite E].
  clear. intros ts. induction ts as [|u us IH]; intros acc; cbn [go]; [done|]. apply IH.
Qed.

Lemma leaves_node (ts : list topo_tree) : leaves (TNode ts) = concat (leaves <$> ts).
Proof. cbn [leaves]. induction ts as [|u us IH]; [done|]. cbn. by rewrite IH. Qed.

Lemma tree_tokens_node (ts : list topo_tree) : tree_tokens (TNode ts) = "(" :: separate (tree_tokens <$> ts) ++ [")"].
Proof.
  cbn [tree_tokens]. match goal with |- context [separate (?f ts)] => set (go := f) end.
  assert (E : forall ts, go ts = tree_tokens <$> ts); [|by rewrite E].
  clear. intros ts. induction ts as [|u us IH]; cbn [go]; [done|]. by rewrite fmap_cons, IH.
Qed.

Section TreeInd.
Context (P : topo_tree -> Prop).
Context (Hleaf : forall i, P (TLeaf i)) (Hnode : forall ts, Forall P ts -> P (TNode ts)).

Fixpoint tree_nested_ind (t : topo_tree) : P t :=
  match t with
  | TLeaf i => Hleaf i
  | TNode ts =>
      Hnode ts ((fix go (ts : list topo_tree) : Forall P ts :=
                   match ts with [] => Forall_nil_2 P | u :: us => Forall_cons_2 P u us (tree_nested_ind u) (go us) end) ts)
  end.
End TreeInd.

Lemma separated_weaken (rest : list string) : separated true rest = true -> separated false rest = true.
Proof. destruct rest as [|token rest]; cbn [separated]; [done|]. destruct (is_delimiter_token token); [done|]. by rewrite andb_false_r. Qed.

Lemma separated_list (ts : list topo_tree) (rest : list string) :
  Forall (fun t => forall rest, separated true rest = true -> separated false (tree_tokens t ++ rest) = true) ts ->
  separated true rest = true -> separated false (separate (tree_tokens <$> ts) ++ rest) = true.
Proof.
  intros Hts Hr. induction Hts as [|u us Hu _ IH]; [by apply separated_weaken|]. rewrite fmap_cons. cbn [separate]. rewrite <- app_assoc.
  apply Hu. destruct us as [|u2 us]; [done|]. exact IH.
Qed.

Lemma separated_tree (t : topo_tree) (rest : list string) :
  separated true rest = true -> separated false (tree_tokens t ++ rest) = true.
Proof.
  revert rest. induction t as [i|ts IH] using tree_nested_ind; intros rest Hr.
  - cbn [tree_tokens app separated]. destruct (leaf_token_spec i) as (_ & Hd & ->). assert (E : is_delimiter_token (leaf_token i) = false).
    { destruct (leaf_token i) as [|c [|? ?]]; [done| |done]. cbn [string_forall] in Hd. apply andb_true_iff in Hd as [Hc _]. apply (digit_not_delimiter c Hc). }
    by rewrite E.
  - rewrite tree_tokens_node. rewrite <- app_comm_cons, <- app_assoc. change (separated false (separate (tree_tokens <$> ts) ++ [")"] ++ rest) = true).
    apply separated_list; [done|]. change (separated false rest = true). by apply separated_weaken.
Qed.

Lemma newick_tokens (ts : list topo_tree) : tokenize (newick ts) = tree_tokens (TNode ts) ++ [";"].
Proof.
  apply tokenize_join. rewrite tree_tokens_node, <- app_comm_cons, <- app_assoc.
  change (separated false (separate (tree_tokens <$> ts) ++ [")"] ++ [";"]) = true).
  apply separated_list; [|reflexivity]. apply Forall_forall. intros t _. apply separated_tree.
Qed.

(** ** Parsing a printed tree *)
Section Parse.
Context {D : Type} `{Double D} (local_node : Z) (has_engine : bool).

Definition topo_add (k : Z) (ps : list nat) (t : Topology D) : Topology D :=
  foldl (fun t p => add_device p t) (set_num_switches k t) ps.

Definition top (st : TopoParser D) : CXLSwitch := match ps_open st with s :: _ => s | [] => tp_root (ps_topo st) end.

(** The top of the stack replaced, switches counted up to [k], devices [ps] added. *)
Definition put_top (acc : CXLSwitch * Z) (ps : list nat) (st : TopoParser D) : TopoParser D :=
  let t := topo_add acc.2 ps (ps_topo st) in
  match ps_open st with
  | _ :: o => mkTopoParser (acc.1 :: o) true t
  | [] => mkTopoParser [] true (set_root acc.1 t)
  end.

Lemma add_devices_spec (ps : list nat) (t : Topology D) :
  let t' := foldl (fun t p => add_device p t) t ps in
  tp_root t' = tp_root t /\ tp_endpoints t' = tp_endpoints t /\ tp_cur_expanders t' = tp_cur_expanders t /\
  tp_num_switches t' = tp_num_switches t /\ tp_remote_expanders t' = tp_remote_expanders t /\
  tp_num_end_points t' = tp_num_end_points t + Z.of_nat (length ps).
Proof.
  revert t. induction ps as [|p ps IH]; intros t; cbn [foldl]; [split_and!; try done; cbn; lia|].
  destruct (IH (add_device p t)) as (H1 & H2 & H3 & H4 & H5 & H6). rewrite H1, H2, H3, H4, H5, H6. split_and!; try done. cbn [length add_device tp_num_end_points]. lia.
Qed.

Lemma add_devices_switches (k : Z) (ps : list nat) (t : Topology D) :
  set_num_switches k (foldl (fun t p => add_device p t) t ps) = foldl (fun t p => add_device p t) (set_num_switches k t) ps.
Proof. revert t. induction ps as [|p ps IH]; intros t; [done|]. cbn [foldl]. by rewrite IH. Qed.

Lemma add_devices_root (sw : CXLSwitch) (ps : list nat) (t : Topology D) :
  set_root sw (foldl (fun t p => add_device p t) t ps) = foldl (fun t p => add_device p t) (set_root sw t) ps.
Proof. revert t. induction ps as [|p ps IH]; intros t; [done|]. cbn [foldl]. by rewrite IH. Qed.

Lemma topo_add_add (k1 k2 : Z) (l1 l2 : list nat) (t : Topology D) : topo_add k2 l2 (topo_add k1 l1 t) = topo_add k2 (l1 ++ l2) t.
Proof. unfold topo_add. by rewrite add_devices_switches, foldl_app. Qed.

Lemma put_top_top (acc : CXLSwitch * Z) (ps : list nat) (st : TopoParser D) : top (put_top acc ps st) = acc.1.
Proof. unfold put_top, top. by destruct (ps_open st). Qed.

Lemma put_top_put (a1 a2 : CXLSwitch * Z) (l1 l2 : list nat) (st : TopoParser D) :
  put_top a2 l2 (put_top a1 l1 st) = put_top a2 (l1 ++ l2) st.
Proof.
  unfold put_top. destruct (ps_open st) as [|s o]; cbn [ps_open ps_topo]; [|by rewrite topo_add_add]. f_equal.
  assert (E : forall x : Topology D, set_root a2.1 (set_num_switches a2.2 (set_root a1.1 x)) = set_root a2.1 (set_num_switches a2.2 x)) by done.
  unfold topo_add. rewrite foldl_app, (add_devices_root a2.1 l2), E, add_devices_switches, <- add_devices_root. done.
Qed.
Lemma build_mono (cur : list nat) (t : topo_tree) (acc : CXLSwitch * Z) : acc.2 <= (build_into cur t acc).2.
Proof.
  revert acc. induction t as [i|ts IH] using tree_nested_ind; intros [sw k]; [done|]. rewrite build_node.
  assert (E : forall acc, acc.2 <= (build_all cur ts acc).2).
  { induction IH as [|u us Hu _ IHus]; intros acc; cbn; [done|]. specialize (Hu acc). specialize (IHus (build_into cur u acc)). unfold build_all in *. lia. }
  specialize (E (switch_new k, k + 1)). destruct (build_all cur ts (switch_new k, k + 1)). cbn in *. lia.
Qed.

(** What parsing the tokens of [t] does to the state. *)
Definition parsed (ts : list topo_tree) (st : TopoParser D) : TopoParser D :=
  let cur := tp_cur_expanders (ps_topo st) in
  put_top (build_all cur ts (top st, tp_num_switches (ps_topo st))) ((fun i => cur !!! i) <$> concat (leaves <$> ts)) st.

Definition parseable (ts : list topo_tree) (st : TopoParser D) : Prop :=
  ps_root_open st = true /\ 1 <= tp_num_switches (ps_topo st) /\
  Forall (fun i => (i < length (tp_cur_expanders (ps_topo st)))%nat) (concat (leaves <$> ts)).

Lemma put_top_fields (acc : CXLSwitch * Z) (ps : list nat) (st : TopoParser D) :
  ps_root_open (put_top acc ps st) = true /\ tp_cur_expanders (ps_topo (put_top acc ps st)) = tp_cur_expanders (ps_topo st) /\
  tp_num_switches (ps_topo (put_top acc ps st)) = acc.2.
Proof.
  destruct (add_devices_spec ps (set_num_switches acc.2 (ps_topo st))) as (_ & _ & H3 & H4 & _).
  unfold put_top, topo_add. destruct (ps_open st); cbn [ps_root_open ps_topo set_root tp_cur_expanders tp_num_switches]; by rewrite H3, H4.
Qed.

Lemma put_top_id (st : TopoParser D) : ps_root_open st = true -> put_top (top st, tp_num_switches (ps_topo st)) [] st = st.
Proof. destruct st as [[|s o] r []]; cbn; by intros ->. Qed.

Lemma parsed_nil (st : TopoParser D) : ps_root_open st = true -> parsed [] st = st.
Proof. apply put_top_id. Qed.

Lemma parsed_cons (u : topo_tree) (us : list topo_tree) (st : TopoParser D) : parsed us (parsed [u] st) = parsed (u :: us) st.
Proof.
  unfold parsed. set (acc := build_all _ [u] _). set (ps := _ <$> concat (leaves <$> [u])).
  destruct (put_top_fields acc ps st) as (_ & E2 & E3). rewrite E2, E3, put_top_top, put_top_put. f_equal.
  - by rewrite <- surjective_pairing.
  - unfold ps. cbn. by rewrite app_nil_r, fmap_app.
Qed.

Lemma parseable_cons (u : topo_tree) (us : list topo_tree) (st : TopoParser D) :
  parseable (u :: us) st -> parseable [u] st /\ parseable us (parsed [u] st).
Proof.
  unfold parseable. cbn [fmap list_fmap concat]. rewrite app_nil_r. intros (Hr & Hk & [H1 H2]%Forall_app). split; [done|]. unfold parsed.
  match goal with |- context [put_top ?a ?l st] => destruct (put_top_fields a l st) as (-> & -> & ->) end. split_and!; [done| |done].
  assert (Hm := build_mono (tp_cur_expanders (ps_topo st)) u (top st, tp_num_switches (ps_topo st))). cbn in *. lia.
Qed.

(** Reading the tokens of one tree. *)
Definition reads (t : topo_tree) : Prop :=
  forall st rest, parseable [t] st ->
    topo_loop local_node has_engine O (tree_tokens t ++ rest) st = topo_loop local_node has_engine O rest (parsed [t] st).

Lemma reads_list (ts : list topo_tree) (st : TopoParser D) (rest : list string) :
  Forall reads ts -> parseable ts st ->
  topo_loop local_node has_engine O (separate (tree_tokens <$> ts) ++ rest) st = topo_loop local_node has_engine O rest (parsed ts st).
Proof.
  intros Hts. revert st. induction Hts as [|u us Hu _ IH]; intros st Hp.
  - by rewrite parsed_nil by apply Hp.
  - rewrite fmap_cons. cbn [separate]. rewrite <- app_assoc. destruct (parseable_cons u us st Hp) as [H1 H2].
    rewrite Hu by done. destruct us as [|u2 us]; [done|]. rewrite <- (parsed_cons u (u2 :: us)). cbn [fmap list_fmap]. change (topo_loop local_node has_engine O ("," :: separate (tree_tokens <$> (u2 :: us)) ++ rest) (parsed [u] st) =
        topo_loop local_node has_engine O rest (parsed (u2 :: us) (parsed [u] st))).
    cbn [topo_loop topo_step]. by apply IH.
Qed.
Lemma parsed_one (t : topo_tree) (st : TopoParser D) :
  parsed [t] st = put_top (build_into (tp_cur_expanders (ps_topo st)) t (top st, tp_num_switches (ps_topo st)))
                    ((fun i => tp_cur_expanders (ps_topo st) !!! i) <$> leaves t) st.
Proof. unfold parsed. cbn [fmap list_fmap concat]. by rewrite app_nil_r. Qed.

Lemma reads_leaf (i : nat) : reads (TLeaf i).
Proof.
  intros st rest (Hr & Hk & Hi). cbn in Hi. apply Forall_cons in Hi as [Hi _]. rewrite parsed_one. cbn [tree_tokens app topo_loop].
  destruct (leaf_token_plain i) as (E1 & E2 & E3 & E4 & E5). unfold topo_step. rewrite E1, E2, E3, E4. cbn [andb orb].
  assert (En : remote_node_of (leaf_token i) rest = None) by (unfold remote_node_of; rewrite E5; by destruct rest as [|? [|? [|? [|? ?]]]]).
  rewrite En. unfold expander_at. rewrite (proj1 (leaf_token_spec i)). replace (Z.of_nat i + 1 - 1) with (Z.of_nat i) by lia.
  rewrite (proj2 (Z.leb_le _ _)) by lia. rewrite Nat2Z.id. destruct (lookup_lt_is_Some_2 _ _ Hi) as [p Hp]. rewrite Hp. cbn [mbind option_bind].
  cbn [build_into leaves fmap list_fmap]. rewrite (list_lookup_total_correct _ _ _ Hp).
  destruct st as [[|s o] r []]; cbn in Hr; subst r; done.
Qed.

Lemma reads_node (ts : list topo_tree) : Forall reads ts -> reads (TNode ts).
Proof.
  intros Hts st rest (Hr & Hk & Hi). rewrite parsed_one, build_node, leaves_node. cbn in Hi. rewrite app_nil_r in Hi.
  replace ((fix go (ts : list topo_tree) : list nat := match ts with [] => [] | u :: us => leaves u ++ go us end) ts) with (leaves (TNode ts)) in Hi by done.
  rewrite leaves_node in Hi. rewrite tree_tokens_node, <- app_comm_cons, <- app_assoc. cbn [topo_loop]. unfold topo_step at 1.
  rewrite (proj2 (Z.eqb_neq _ _)) by lia. rewrite Hr. cbn [String.eqb Ascii.eqb Bool.eqb andb mbind option_bind].
  set (st1 := mkTopoParser (switch_new (tp_num_switches (ps_topo st)) :: ps_open st) true (set_num_switches (tp_num_switches (ps_topo st) + 1) (ps_topo st))).
  rewrite (reads_list ts st1 ([")"] ++ rest) Hts) by (split; [done|]; split; [cbn; lia|done]).
  unfold parsed. cbn [st1 ps_topo ps_open top set_num_switches tp_cur_expanders tp_num_switches].
  set (acc := build_all _ ts _). set (ps := _ <$> concat _). destruct acc as [s k'] eqn:Eacc.
  change (topo_loop local_node has_engine O ([")"] ++ rest) (mkTopoParser (s :: ps_open st) true (topo_add k' ps (set_num_switches (tp_num_switches (ps_topo st) + 1) (ps_topo st)))) =
    topo_loop local_node has_engine O rest (put_top (add_switch s (top st), k') ps st)).
  assert (Et : topo_add k' ps (set_num_switches (tp_num_switches (ps_topo st) + 1) (ps_topo st)) = topo_add k' ps (ps_topo st)) by done. rewrite Et.
  assert (Er : tp_root (topo_add k' ps (ps_topo st)) = tp_root (ps_topo st)) by apply (add_devices_spec ps (set_num_switches k' (ps_topo st))).
  cbn [app topo_loop topo_step ps_open ps_topo String.eqb Ascii.eqb Bool.eqb andb mbind option_bind]. unfold put_top, top, attach.
  destruct (ps_open st) as [|s2 o]; cbn [fst snd]; [by rewrite Er|done].
Qed.

Lemma reads_tree (t : topo_tree) : reads t.
Proof. induction t as [i|ts IH] using tree_nested_ind; [apply reads_leaf|by apply reads_node]. Qed.
End Parse.

Lemma pointers_add_expander (p : nat) (sw : CXLSwitch) : pointers (add_expander p sw) ≡ₚ pointers sw ++ [p].
Proof. destruct sw as [ps ss c id ep lt]. cbn [add_expander]. rewrite !pointers_eq. rewrite <- !app_assoc. f_equiv. apply Permutation_app_comm. Qed.

Lemma pointers_add_switch (s sw : CXLSwitch) : pointers (add_switch s sw) = pointers sw ++ pointers s.
Proof. destruct sw as [ps ss c id ep lt]. cbn [add_switch]. rewrite !pointers_eq, fmap_app, concat_app. cbn. by rewrite app_nil_r, app_assoc. Qed.

Lemma pointers_build (cur : list nat) (ts : list topo_tree) (acc : CXLSwitch * Z) :
  pointers (build_all cur ts acc).1 ≡ₚ pointers acc.1 ++ ((fun i => cur !!! i) <$> concat (leaves <$> ts)).
Proof.
  assert (Hone : forall t acc, pointers (build_into cur t acc).1 ≡ₚ pointers acc.1 ++ ((fun i => cur !!! i) <$> leaves t)).
  { clear. intros t. induction t as [i|us IH] using tree_nested_ind; intros [sw k]; [apply pointers_add_expander|].
    rewrite build_node, leaves_node. assert (E : forall acc, pointers (build_all cur us acc).1 ≡ₚ pointers acc.1 ++ ((fun i => cur !!! i) <$> concat (leaves <$> us))).
    { clear sw k. induction IH as [|u us Hu _ IHus]; intros acc; cbn; [by rewrite app_nil_r|]. unfold build_all in IHus. rewrite IHus, Hu, fmap_app. by rewrite app_assoc. }
    specialize (E (switch_new k, k + 1)). destruct (build_all cur us (switch_new k, k + 1)) as [s k']. cbn [fst] in *. rewrite pointers_add_switch. by rewrite E. }
  revert acc. induction ts as [|u us IH]; intros acc; cbn; [by rewrite app_nil_r|]. unfold build_all in IH. rewrite IH, Hone, fmap_app. by rewrite app_assoc.
Qed.

Section RoundTrip.
Context {D : Type} `{Double D}.

Lemma add_devices_map (ps : list nat) (t : Topology D) (j : nat) (p : nat) :
  ps !! j = Some p -> tp_device_map (foldl (fun t p => add_device p t) t ps) !! (tp_num_end_points t + Z.of_nat j) = Some p.
Proof.
  assert (Hbelow : forall ps (t : Topology D) i, i < tp_num_end_points t -> tp_device_map (foldl (fun t p => add_device p t) t ps) !! i = tp_device_map t !! i).
  { clear. intros ps. induction ps as [|q ps IH]; intros t i Hi; cbn [foldl]; [done|]. rewrite IH by (cbn; lia). cbn. by rewrite lookup_insert_ne by lia. }
  revert t j. induction ps as [|q ps IH]; intros t j Hj; [done|]. cbn [foldl]. destruct j as [|j]; cbn in Hj.
  - injection Hj as ->. rewrite Hbelow by (cbn; lia). cbn. rewrite Z.add_0_r. apply lookup_insert_eq.
  - rewrite <- (IH (add_device q t) j Hj). f_equal. cbn. lia.
Qed.

(** C33. The topology parser reads back what its notation stands for: printing a tree of
    positions in Newick notation and constructing the topology from it succeeds and builds that
    tree, every pair of parentheses one switch numbered in order, every position the expander it
    names, attached where it is written and entered in the device map from left to right. *)
Theorem topo_roundtrip (local_node : Z) (has_engine : bool) (ts : list topo_tree) (t : Topology D)
  (Hn : tp_num_switches t = 0) (Hl : Forall (fun i => (i < length (tp_cur_expanders t))%nat) (concat (leaves <$> ts))) :
  let cur := tp_cur_expanders t in
  exists t', construct_topo local_node has_engine (newick ts) t = Some (TopoOk t') /\
    (tp_root t', tp_num_switches t') = build_all cur ts (tp_root t, 1) /\
    pointers (tp_root t') ≡ₚ pointers (tp_root t) ++ ((fun i => cur !!! i) <$> concat (leaves <$> ts)) /\
    forall j i, concat (leaves <$> ts) !! j = Some i -> tp_device_map t' !! (tp_num_end_points t + Z.of_nat j) = cur !! i.
Proof.
  cbn zeta. unfold construct_topo. rewrite newick_tokens, tree_tokens_node, <- app_comm_cons, <- app_assoc. cbn [topo_loop]. unfold topo_step at 1.
  cbn [ps_topo]. rewrite Hn. cbn [String.eqb Ascii.eqb Bool.eqb andb Z.eqb mbind option_bind ps_open ps_root_open].
  set (st1 := mkTopoParser [] true (set_num_switches 1 t)).
  rewrite (reads_list local_node has_engine ts st1) by (done || apply Forall_forall; intros; apply reads_tree).
  set (ps := (fun i => tp_cur_expanders t !!! i) <$> concat (leaves <$> ts)). set (acc := build_all (tp_cur_expanders t) ts (tp_root t, 1)).
  assert (E : parsed ts st1 = mkTopoParser [] true (set_root acc.1 (topo_add acc.2 ps t))) by done. rewrite E.
  cbn [app topo_loop topo_step ps_open ps_topo ps_root_open String.eqb Ascii.eqb Bool.eqb andb orb mbind option_bind close_all].
  destruct (add_devices_spec ps (set_num_switches acc.2 t)) as (H1 & H2 & H3 & H4 & H5 & H6).
  eexists. split; [reflexivity|]. cbn [tp_root tp_num_switches tp_device_map set_root]. unfold topo_add. rewrite H4. split_and!.
  - by destruct acc.
  - unfold acc. rewrite pointers_build. done.
  - intros j i Hj. assert (Hi : (i < length (tp_cur_expanders t))%nat) by by eapply (Forall_lookup_1 _ _ _ _ Hl).
    destruct (lookup_lt_is_Some_2 _ _ Hi) as [p Hp]. rewrite Hp.
    apply (add_devices_map ps (set_num_switches acc.2 t) j p). unfold ps. rewrite list_lookup_fmap, Hj. cbn. by rewrite (list_lookup_total_correct _ _ _ Hp).
Qed.
End RoundTrip.

(** Three expanders, and the topology (1,(2,3)). *)
Definition demo_topology : Topology spec_float :=
  insert_end_point (expander_new 25 25 100 150 2 1024)
    (insert_end_point (expander_new 25 25 100 150 1 1024)
       (insert_end_point (expander_new 25 25 100 150 0 1024) topology_new)).

Lemma topo_roundtrip_witness :
  let ts := [TLeaf 0; TNode [TLeaf 1; TLeaf 2]] in
  exists t', construct_topo 0 false (newick ts) demo_topology = Some (TopoOk t') /\
    (tp_root t', tp_num_switches t') = build_all [0; 1; 2]%nat ts (switch_new 0, 1) /\
    pointers (tp_root t') ≡ₚ [] ++ ((fun i => [0; 1; 2]%nat !!! i) <$> concat (leaves <$> ts)) /\
    forall j i, concat (leaves <$> ts) !! j = Some i -> tp_device_map t' !! (0 + Z.of_nat j) = [0; 1; 2]%nat !! i.
Proof.
  cbn zeta. apply (topo_roundtrip 0 false [TLeaf 0; TNode [TLeaf 1; TLeaf 2]] demo_topology); [reflexivity|].
  repeat constructor.
Defined.

(** The expanders of the controller itself. *)
Definition root_expanders {D} (t : Topology D) : list nat := match tp_root t with mkSwitch ps _ _ _ _ _ => ps end.

(** Topologies that go wrong.  The file shipped for the QEMU set-up names nodes with letters,
    which [atoi] reads as 0, so that the vector of expanders is indexed at -1; a
    newline after the semicolon, as editors leave it, has the same effect; a closing parenthesis too many
    throws, but two trees side by side touch the empty stack; and a remote node is attached
    twice, to the switch it is written under and to the controller. *)
Theorem topo_defects (t : Topology spec_float) (x : nat) (Hn : tp_num_switches t = 0) (Hc : tp_cur_expanders t = [x]) :
  construct_topo 0 false "(CPU:0,(CXL:100));" t = None /\
  construct_topo 0 false ("(1);" +:+ String "010" EmptyString) t = None /\
  construct_topo 0 false "(1)(1);" t = None /\
  (exists t', construct_topo 0 false "(1));" t = Some (TopoThrow t')) /\
  (exists t', construct_topo 0 false "(1,R:2:1);" t = Some (TopoOk t') /\
     root_expanders t' = root_expanders t ++ [x; length (tp_endpoints t); length (tp_endpoints t)]).
Proof.
  destruct t as [[ps ss c id ep lt] es cur ns ne dm rs]. cbn in Hn, Hc. subst ns cur. unfold construct_topo.
  split_and!; [reflexivity|reflexivity|reflexivity|eexists; reflexivity|].
  eexists. split; [reflexivity|]. cbn. by rewrite <- !app_assoc.
Qed.

Lemma topo_defects_witness :
  let t := insert_end_point (expander_new (D := spec_float) 25 25 100 150 0 1024) topology_new in
  construct_topo 0 false "(CPU:0,(CXL:100));" t = None /\
  construct_topo 0 false ("(1);" +:+ String "010" EmptyString) t = None /\
  construct_topo 0 false "(1)(1);" t = None /\
  (exists t', construct_topo 0 false "(1));" t = Some (TopoThrow t')) /\
  (exists t', construct_topo 0 false "(1,R:2:1);" t = Some (TopoOk t') /\
     root_expanders t' = root_expanders t ++ [0%nat; length (tp_endpoints t); length (tp_endpoints t)]).
Proof. cbn zeta. apply topo_defects; reflexivity. Defined.
