(* ===== verification/LbrWindow.v ===== *)
(** * The reorder-buffer window of a thread ([CXLController::insert_one] of [src/cxlcontroller.cpp],
    [rob_info] and [thread_info] of [include/cxlendpoint.h], [include/lbr.h])

    Branch records carry a number of retired instructions and of cache misses.  The controller
    keeps the records of the last [ROB_SIZE] instructions in a ring buffer, and with them counts of
    misses by type per thread.  The ring buffer belongs to the controller, the counts to a thread:
    for one thread the counts describe the ring ([rob_window]); with two threads they do not, and
    a queue is read when it is empty ([rob_two_threads_undefined]). *)
From S2P Require Import Prelude.
#[local] Open Scope Z_scope.

Definition ROB_SIZE : Z := 512.

Record lbr := mkLbr {
  lb_from : Z;
  lb_to : Z;
  lb_flags : Z
}.

(** [LBR_DATA_MASK], two bits, and [LBR_INS_MASK], 28 bits from bit 16. *)
Definition lbr_misses (l : lbr) : Z := Z.land (lb_flags l) 3.

Definition lbr_instructions (l : lbr) : Z := Z.shiftr (Z.land (lb_flags l) (Z.shiftl (2 ^ 28 - 1) 16)) 16.

Record rob_info := mkRobInfo {
  rb_m_count : gmap Z Z;                  (* std::map<int, int64_t>; an absent key counts as 0 *)
  rb_llcm_base : Z;
  rb_llcm_count : Z;
  rb_ins_count : Z
}.

Record thread_info := mkThreadInfo {
  ti_rob : rob_info;
  ti_llcm_type : list Z;                  (* queues, front first *)
  ti_llcm_type_rob : list Z
}.

(** [thread_map[tid]] of a new thread. *)
Definition thread_new : thread_info := mkThreadInfo (mkRobInfo ∅ 0 0 0) [] [].

(** [m_count[k] += d]. *)
Definition bump_count (k d : Z) (m : gmap Z Z) : gmap Z Z := <[k := default 0 (m !! k) + d]> m.

(** One miss enters the window; a type is made up when none was recorded. *)
Definition enter_miss (t : thread_info) : thread_info :=
  let types := match ti_llcm_type t with [] => [0] | l => l end in
  let k := hd 0 types in
  let r := ti_rob t in
  mkThreadInfo (mkRobInfo (bump_count k 1 (rb_m_count r)) (rb_llcm_base r) (rb_llcm_count r) (rb_ins_count r))
    (tl types) (ti_llcm_type_rob t ++ [k]).

Fixpoint enter_misses (n : nat) (t : thread_info) : thread_info :=
  match n with O => t | S n' => enter_misses n' (enter_miss t) end.

(** One miss leaves; [front] of an empty queue is undefined. *)
Definition leave_miss (t : thread_info) : option thread_info :=
  match ti_llcm_type_rob t with
  | [] => None
  | k :: rest =>
      let r := ti_rob t in
      Some (mkThreadInfo (mkRobInfo (bump_count k (-1) (rb_m_count r)) (rb_llcm_base r) (rb_llcm_count r) (rb_ins_count r))
              (ti_llcm_type t) rest)
  end.

Fixpoint leave_misses (n : nat) (t : thread_info) : option thread_info :=
  match n with O => Some t | S n' => t1 ← leave_miss t; leave_misses n' t1 end.

Definition add_counts (base llcm ins : Z) (t : thread_info) : thread_info :=
  let r := ti_rob t in
  mkThreadInfo (mkRobInfo (rb_m_count r) (rb_llcm_base r + base) (rb_llcm_count r + llcm) (rb_ins_count r + ins))
    (ti_llcm_type t) (ti_llcm_type_rob t).

(** The [while] loop: each turn pops a record. *)
Fixpoint drain_window (ring : list lbr) (t : thread_info) : option (list lbr * thread_info) :=
  if ROB_SIZE <? rb_ins_count (ti_rob t) then
    match ring with
    | [] => None
    | old :: ring' =>
        let t1 := add_counts (lbr_misses old) (- lbr_misses old) (- lbr_instructions old) t in
        t2 ← leave_misses (Z.to_nat (lbr_misses old)) t1;
        drain_window ring' t2
    end
  else Some (ring, t).

Definition insert_one (l : lbr) (ring : list lbr) (t : thread_info) : option (list lbr * thread_info) :=
  let t1 := enter_misses (Z.to_nat (lbr_misses l)) t in
  drain_window (ring ++ [l]) (add_counts 0 (lbr_misses l) (lbr_instructions l) t1).

(** ** Specification: the longest recent part of the history within the window *)
Definition total (f : lbr -> Z) (ls : list lbr) : Z := foldr (fun l n => f l + n) 0 ls.

Fixpoint window (ls : list lbr) : list lbr :=
  match ls with
  | [] => []
  | _ :: ls' => if ROB_SIZE <? total lbr_instructions ls then window ls' else ls
  end.

(** The counts of a thread describe the ring. *)
Definition describes (ring : list lbr) (t : thread_info) : Prop :=
  rb_ins_count (ti_rob t) = total lbr_instructions ring /\
  rb_llcm_count (ti_rob t) = total lbr_misses ring /\
  Z.of_nat (length (ti_llcm_type_rob t)) = total lbr_misses ring /\
  forall k, default 0 (rb_m_count (ti_rob t) !! k) = Z.of_nat (length (filter (fun x => x = k) (ti_llcm_type_rob t))).

Lemma misses_nonneg (l : lbr) : 0 <= lbr_misses l.
Proof. unfold lbr_misses. apply Z.land_nonneg. lia. Qed.

Lemma instructions_nonneg (l : lbr) : 0 <= lbr_instructions l.
Proof. unfold lbr_instructions. apply Z.shiftr_nonneg, Z.land_nonneg. right. by vm_compute. Qed.

Lemma total_app (f : lbr -> Z) (a b : list lbr) : total f (a ++ b) = total f a + total f b.
Proof. unfold total. induction a as [|l a IH]; cbn; lia. Qed.

Lemma total_nonneg (f : lbr -> Z) (ls : list lbr) : (forall l, 0 <= f l) -> 0 <= total f ls.
Proof. intros Hf. unfold total. induction ls as [|l ls IH]; cbn; [lia|]. specialize (Hf l). lia. Qed.

Lemma bump_lookup (k d k' : Z) (m : gmap Z Z) :
  default 0 (bump_count k d m !! k') = default 0 (m !! k') + (if decide (k = k') then d else 0).
Proof. unfold bump_count. case_decide as E; [subst; rewrite lookup_insert_eq; done|]. rewrite lookup_insert_ne by done. lia. Qed.

(** The miss counts of a thread and its queue agree. *)
Definition counted (t : thread_info) : Prop :=
  forall k, default 0 (rb_m_count (ti_rob t) !! k) = Z.of_nat (length (filter (fun x => x = k) (ti_llcm_type_rob t))).

Lemma enter_misses_spec (n : nat) (t : thread_info) :
  counted t ->
  counted (enter_misses n t) /\ length (ti_llcm_type_rob (enter_misses n t)) = (length (ti_llcm_type_rob t) + n)%nat /\
  rb_ins_count (ti_rob (enter_misses n t)) = rb_ins_count (ti_rob t) /\ rb_llcm_count (ti_rob (enter_misses n t)) = rb_llcm_count (ti_rob t).
Proof.
  revert t. induction n as [|n IH]; intros t Hc; cbn [enter_misses]; [split_and!; done || lia|].
  destruct (IH (enter_miss t)) as (H1 & H2 & H3 & H4).
  - intros k. unfold enter_miss. cbn [ti_rob rb_m_count ti_llcm_type_rob]. rewrite bump_lookup, Hc, filter_app, length_app, filter_cons, filter_nil.
    repeat case_decide; cbn [length]; congruence || lia.
  - split_and!; [done| |done|done]. rewrite H2. unfold enter_miss. cbn. rewrite length_app. cbn. lia.
Qed.

Lemma leave_misses_spec (n : nat) (t : thread_info) :
  counted t -> (n <= length (ti_llcm_type_rob t))%nat ->
  exists t', leave_misses n t = Some t' /\ counted t' /\ (length (ti_llcm_type_rob t') + n)%nat = length (ti_llcm_type_rob t) /\
    rb_ins_count (ti_rob t') = rb_ins_count (ti_rob t) /\ rb_llcm_count (ti_rob t') = rb_llcm_count (ti_rob t).
Proof.
  revert t. induction n as [|n IH]; intros t Hc Hl; cbn [leave_misses]; [exists t; split_and!; done || lia|].
  unfold leave_miss. destruct (ti_llcm_type_rob t) as [|k rest] eqn:E; [cbn in Hl; lia|]. cbn [mbind option_bind].
  match goal with |- context [leave_misses n ?u] => destruct (IH u) as (t' & E' & H1 & H2 & H3 & H4) end.
  - intros k'. cbn. rewrite bump_lookup. specialize (Hc k'). rewrite E, filter_cons in Hc. rewrite Hc.
    repeat case_decide; cbn [length]; congruence || lia.
  - cbn in *. lia.
  - exists t'. cbn in *. split_and!; [done|done|lia|done|done].
Qed.

Lemma drain_describes (ring : list lbr) (t : thread_info) :
  describes ring t -> exists t', drain_window ring t = Some (window ring, t') /\ describes (window ring) t'.
Proof.
  revert t. induction ring as [|old ring IH]; intros t (H1 & H2 & H3 & H4); cbn [drain_window window].
  - rewrite H1. exists t. split; [done|]. done.
  - rewrite H1. destruct (ROB_SIZE <? _) eqn:E; [|by exists t].
    assert (Hm := misses_nonneg old). assert (Hn := total_nonneg lbr_misses ring misses_nonneg). unfold total in H2, H3, Hn. cbn [foldr] in H2, H3.
    destruct (leave_misses_spec (Z.to_nat (lbr_misses old)) (add_counts (lbr_misses old) (- lbr_misses old) (- lbr_instructions old) t)) as (t2 & -> & L1 & L2 & L3 & L4);
      [done|cbn; lia|]. cbn [mbind option_bind]. apply IH. cbn [add_counts ti_llcm_type_rob ti_rob rb_ins_count rb_llcm_count] in L2, L3, L4. unfold total in *. cbn [foldr] in *.
    split_and!; [unfold total; lia|unfold total; lia|unfold total; lia|exact L1].
Qed.

Lemma window_suffix (ls : list lbr) : exists old, ls = old ++ window ls.
Proof.
  induction ls as [|l ls [old IH]]; [by exists []|]. cbn [window]. destruct (ROB_SIZE <? _); [|by exists []].
  exists (l :: old). cbn. by f_equal.
Qed.

Lemma window_within (ls : list lbr) : total lbr_instructions (window ls) <= ROB_SIZE.
Proof. induction ls as [|l ls IH]; cbn [window]; [by vm_compute|]. case_goal; [done|lia]. Qed.

(** Dropping old records early changes nothing. *)
Lemma window_snoc (ls : list lbr) (x : lbr) : window (window ls ++ [x]) = window (ls ++ [x]).
Proof.
  induction ls as [|l ls IH]; [done|]. cbn [window]. destruct (Z.ltb_spec ROB_SIZE (total lbr_instructions (l :: ls))) as [Hl|Hl]; [|done].
  rewrite IH, <- app_comm_cons. cbn [window]. rewrite (proj2 (Z.ltb_lt _ _)); [done|]. rewrite app_comm_cons, total_app.
  assert (Hx := total_nonneg lbr_instructions [x] instructions_nonneg). lia.
Qed.

Lemma insert_describes (l : lbr) (ring : list lbr) (t : thread_info) :
  describes ring t -> exists t', insert_one l ring t = Some (window (ring ++ [l]), t') /\ describes (window (ring ++ [l])) t'.
Proof.
  intros (H1 & H2 & H3 & H4). unfold insert_one. apply drain_describes. destruct (enter_misses_spec (Z.to_nat (lbr_misses l)) t H4) as (E1 & E2 & E3 & E4).
  assert (Hm := misses_nonneg l). unfold describes. rewrite !total_app. unfold total at 2 4 6. cbn [foldr add_counts ti_rob rb_ins_count rb_llcm_count ti_llcm_type_rob rb_m_count].
  split_and!; [lia|lia|lia|exact E1].
Qed.

(** The records of one thread, in order. *)
Fixpoint insert_records (ls : list lbr) (ring : list lbr) (t : thread_info) : option (list lbr * thread_info) :=
  match ls with
  | [] => Some (ring, t)
  | l :: ls' => '(ring1, t1) ← insert_one l ring t; insert_records ls' ring1 t1
  end.

Lemma insert_records_describes (ls old : list lbr) (t : thread_info) :
  describes (window old) t -> exists t', insert_records ls (window old) t = Some (window (old ++ ls), t') /\ describes (window (old ++ ls)) t'.
Proof.
  revert old t. induction ls as [|l ls IH]; intros old t Hd; cbn [insert_records]; [rewrite app_nil_r; by exists t|].
  destruct (insert_describes l (window old) t Hd) as (t1 & -> & Hd1). cbn [mbind option_bind]. rewrite window_snoc in *.
  destruct (IH (old ++ [l]) t1 Hd1) as (t2 & E & Hd2). rewrite <- app_assoc in E, Hd2. by exists t2.
Qed.


(** Flags with [m] misses and [i] instructions. *)
Definition record (m i : Z) : lbr := mkLbr 1 2 (m + i * 2 ^ 16).

(** With two threads the window is wrong: the second thread's record pushes out one of the
    first, whose misses are then taken from the empty queue of the second thread. *)
Theorem rob_two_threads_undefined (ring : list lbr) (t1 : thread_info)
  (H1 : insert_one (record 1 500) [] thread_new = Some (ring, t1)) :
  insert_one (record 0 513) ring thread_new = None.
Proof. vm_compute in H1. injection H1 as <- <-. vm_compute. reflexivity. Qed.

Lemma rob_two_threads_undefined_witness :
  insert_one (record 0 513) [record 1 500] thread_new = None.
Proof. eapply rob_two_threads_undefined. vm_compute. reflexivity. Defined.
