(* ===== verification/Controller.v ===== *)
(** * The controller ([CXLController] of [include/cxlcontroller.h] and [src/cxlcontroller.cpp])

    The controller is the root of the endpoint tree, with a cache of lines, counters, a window of
    branch records per thread and the models of the distributed mode.  This file has its state and
    the operations that do not ask a policy; [Policy] and [Migration] have the policies and [Access] the
    insertion of accesses.  [logp_model] is shared with the coherency engine, which holds a pointer to it: an
    operation that calls the engine hands it over and takes it back ([lend_logp], [return_logp]). *)
From stdpp Require Import strings.
From Stdlib Require Import QArith SpecFloat Lqa.
From S2P Require Import Prelude Double HdmDecoder LogP Fabric MhSld CoherencyEngine LruCache Expander Switch Topology LbrWindow.
#[local] Open Scope Z_scope.

Inductive page_type := CACHELINE | PAGE | HUGEPAGE_2M | HUGEPAGE_1G.

Record CXLCounter := mkCXLCounter {
  ct_local : Z;
  ct_remote : Z;
  ct_hitm : Z;
  ct_backinv : Z
}.

Set Implicit Arguments.

Record TCPCalibrationResult (D : Type) := mkCalibration {
  tc_valid : bool;
  tc_L : D;
  tc_o_s : D;
  tc_o_r : D;
  tc_g : D
}.

Record CXLController (D : Type) := mkController {
  cc_topo : Topology D;
  cc_capacity : Z;
  cc_page_type : page_type;
  cc_dramlatency : D;
  cc_counter : CXLCounter;
  cc_occupation : list (Z * occupation_info);    (* std::map, in key order *)
  cc_last_index : Z;
  cc_request_counter : Z;                        (* the static variable of insert *)
  cc_latency_lat : D;
  cc_bandwidth_lat : D;
  cc_ring_buffer : list lbr;
  cc_thread_map : gmap Z thread_info;
  cc_lru_cache : LRUCache;
  cc_logp_model : LogPModel D;
  cc_mhsld_device : option (MHSLDDevice D);
  cc_local_node_id : Z;
  cc_hdm_decoder : option HDMDecoder;
  cc_coherency : option (CoherencyEngine D)
}.

Unset Implicit Arguments.

Section Controller.
Context {D : Type} `{Double D}.
#[local] Open Scope double_scope.

(** The constructor; its loops that set the epoch run over the switches and expanders of a
    controller that has none yet. *)
Definition controller_new (capacity : Z) (pt : page_type) (dramlatency : D) : CXLController D :=
  mkController topology_new capacity pt dramlatency (mkCXLCounter 0 0 0 0) [] 0 0 (d_of_Z 0) (d_of_Z 0) [] ∅
    (lru_new (32 * 1024 * 1024 / 64)) logp_default None 0 None None.

Definition cc_set_topo (t : Topology D) (c : CXLController D) : CXLController D :=
  mkController t (cc_capacity c) (cc_page_type c) (cc_dramlatency c) (cc_counter c) (cc_occupation c) (cc_last_index c)
    (cc_request_counter c) (cc_latency_lat c) (cc_bandwidth_lat c) (cc_ring_buffer c) (cc_thread_map c) (cc_lru_cache c)
    (cc_logp_model c) (cc_mhsld_device c) (cc_local_node_id c) (cc_hdm_decoder c) (cc_coherency c).

Definition cc_set_counter (n : CXLCounter) (c : CXLController D) : CXLController D :=
  mkController (cc_topo c) (cc_capacity c) (cc_page_type c) (cc_dramlatency c) n (cc_occupation c) (cc_last_index c)
    (cc_request_counter c) (cc_latency_lat c) (cc_bandwidth_lat c) (cc_ring_buffer c) (cc_thread_map c) (cc_lru_cache c)
    (cc_logp_model c) (cc_mhsld_device c) (cc_local_node_id c) (cc_hdm_decoder c) (cc_coherency c).

Definition cc_set_occupation (o : list (Z * occupation_info)) (c : CXLController D) : CXLController D :=
  mkController (cc_topo c) (cc_capacity c) (cc_page_type c) (cc_dramlatency c) (cc_counter c) o (cc_last_index c)
    (cc_request_counter c) (cc_latency_lat c) (cc_bandwidth_lat c) (cc_ring_buffer c) (cc_thread_map c) (cc_lru_cache c)
    (cc_logp_model c) (cc_mhsld_device c) (cc_local_node_id c) (cc_hdm_decoder c) (cc_coherency c).

Definition cc_set_progress (last_index request_counter : Z) (c : CXLController D) : CXLController D :=
  mkController (cc_topo c) (cc_capacity c) (cc_page_type c) (cc_dramlatency c) (cc_counter c) (cc_occupation c) last_index
    request_counter (cc_latency_lat c) (cc_bandwidth_lat c) (cc_ring_buffer c) (cc_thread_map c) (cc_lru_cache c)
    (cc_logp_model c) (cc_mhsld_device c) (cc_local_node_id c) (cc_hdm_decoder c) (cc_coherency c).

Definition cc_set_lat (latency bandwidth : D) (c : CXLController D) : CXLController D :=
  mkController (cc_topo c) (cc_capacity c) (cc_page_type c) (cc_dramlatency c) (cc_counter c) (cc_occupation c) (cc_last_index c)
    (cc_request_counter c) latency bandwidth (cc_ring_buffer c) (cc_thread_map c) (cc_lru_cache c)
    (cc_logp_model c) (cc_mhsld_device c) (cc_local_node_id c) (cc_hdm_decoder c) (cc_coherency c).

Definition cc_set_threads (ring : list lbr) (ts : gmap Z thread_info) (c : CXLController D) : CXLController D :=
  mkController (cc_topo c) (cc_capacity c) (cc_page_type c) (cc_dramlatency c) (cc_counter c) (cc_occupation c) (cc_last_index c)
    (cc_request_counter c) (cc_latency_lat c) (cc_bandwidth_lat c) ring ts (cc_lru_cache c)
    (cc_logp_model c) (cc_mhsld_device c) (cc_local_node_id c) (cc_hdm_decoder c) (cc_coherency c).

Definition cc_set_lru (l : LRUCache) (c : CXLController D) : CXLController D :=
  mkController (cc_topo c) (cc_capacity c) (cc_page_type c) (cc_dramlatency c) (cc_counter c) (cc_occupation c) (cc_last_index c)
    (cc_request_counter c) (cc_latency_lat c) (cc_bandwidth_lat c) (cc_ring_buffer c) (cc_thread_map c) l
    (cc_logp_model c) (cc_mhsld_device c) (cc_local_node_id c) (cc_hdm_decoder c) (cc_coherency c).

Definition cc_set_models (m : LogPModel D) (dev : option (MHSLDDevice D)) (g : option (CoherencyEngine D)) (c : CXLController D) :
    CXLController D :=
  mkController (cc_topo c) (cc_capacity c) (cc_page_type c) (cc_dramlatency c) (cc_counter c) (cc_occupation c) (cc_last_index c)
    (cc_request_counter c) (cc_latency_lat c) (cc_bandwidth_lat c) (cc_ring_buffer c) (cc_thread_map c) (cc_lru_cache c)
    m dev (cc_local_node_id c) (cc_hdm_decoder c) g.

Definition cc_set_page_type (pt : page_type) (c : CXLController D) : CXLController D :=
  mkController (cc_topo c) (cc_capacity c) pt (cc_dramlatency c) (cc_counter c) (cc_occupation c) (cc_last_index c)
    (cc_request_counter c) (cc_latency_lat c) (cc_bandwidth_lat c) (cc_ring_buffer c) (cc_thread_map c) (cc_lru_cache c)
    (cc_logp_model c) (cc_mhsld_device c) (cc_local_node_id c) (cc_hdm_decoder c) (cc_coherency c).

(** The store and the tree of a topology. *)
Definition set_endpoints (es : list (endpoint D)) (t : Topology D) : Topology D :=
  mkTopology (tp_root t) es (tp_cur_expanders t) (tp_num_switches t) (tp_num_end_points t) (tp_device_map t) (tp_remote_expanders t).

Definition cc_endpoints (c : CXLController D) : list (endpoint D) := tp_endpoints (cc_topo c).

Definition cc_set_endpoints (es : list (endpoint D)) (c : CXLController D) : CXLController D := cc_set_topo (set_endpoints es (cc_topo c)) c.

Definition cc_root (c : CXLController D) : CXLSwitch := tp_root (cc_topo c).

Definition switch_last_timestamp (sw : CXLSwitch) : Z := match sw with mkSwitch _ _ _ _ _ lt => lt end.

Definition switch_set_last_timestamp (lt : Z) (sw : CXLSwitch) : CXLSwitch :=
  match sw with mkSwitch ps ss c id ep _ => mkSwitch ps ss c id ep lt end.

Definition cc_last_timestamp (c : CXLController D) : Z := switch_last_timestamp (cc_root c).

Definition cc_set_root (sw : CXLSwitch) (c : CXLController D) : CXLController D := cc_set_topo (set_root sw (cc_topo c)) c.

(** ** Tree operations *)

(** The engine with the controller's LogP model, and both back. *)
Definition lend_logp (c : CXLController D) : option (CoherencyEngine D) :=
  (fun g => mkCoherencyEngine (ee_set_logp (Some (cc_logp_model c)) (ce_env g)) (ce_directory g)) <$> cc_coherency c.

Definition return_logp (g : option (CoherencyEngine D)) (c : CXLController D) : CXLController D :=
  cc_set_models (match g with Some g => default (cc_logp_model c) (ee_logp_model (ce_env g)) | None => cc_logp_model c end)
    (cc_mhsld_device c) g c.

Definition controller_latency (elem : list (Z * Z)) (dramlatency : D) (c : CXLController D) : option (D * CXLController D) :=
  '(l, es, g) ← sw_latency elem dramlatency (cc_root c) (cc_endpoints c) (lend_logp c);
  Some (l, return_logp g (cc_set_endpoints es c)).

Definition controller_bandwidth (elem : list (Z * Z)) (c : CXLController D) : option D := sw_bandwidth elem (cc_root c) (cc_endpoints c).

Definition controller_get_access (timestamp : Z) (c : CXLController D) : option (list (Z * Z) * CXLController D) :=
  '(l, es) ← sw_get_access timestamp (cc_root c) (cc_endpoints c); Some (l, cc_set_endpoints es c).

Definition controller_delete_entry (addr length : Z) (c : CXLController D) : option (CXLController D) :=
  es ← sw_delete_entry addr length (cc_root c) (cc_endpoints c); Some (cc_set_endpoints es c).

Definition controller_congestion (order : list Z -> list Z) (c : CXLController D) : option (D * CXLController D) :=
  '(l, _, root) ← sw_congestion order (cc_root c) (cc_endpoints c); Some (l, cc_set_root root c).

Definition controller_set_epoch (epoch : Z) (c : CXLController D) : CXLController D := cc_set_root (sw_set_epoch epoch (cc_root c)) c.

(** ** Topology *)
Definition controller_insert_end_point (x : CXLMemExpander D) (c : CXLController D) : CXLController D :=
  cc_set_topo (insert_end_point x (cc_topo c)) c.

Definition controller_construct_topo (newick : string) (c : CXLController D) : option (bool * CXLController D) :=
  r ← construct_topo (cc_local_node_id c) (bool_decide (is_Some (cc_coherency c))) newick (cc_topo c);
  match r with
  | TopoOk t => Some (true, cc_set_topo t c)
  | TopoThrow t => Some (false, cc_set_topo t c)
  end.

Definition controller_add_remote (remote_node base capacity : Z) (cfg : FabricLinkConfig D) (c : CXLController D) : nat * CXLController D :=
  let '(p, t) := add_remote_endpoint (cc_local_node_id c) (bool_decide (is_Some (cc_coherency c))) remote_node base capacity cfg (cc_topo c) in
  (p, cc_set_topo t c).

(** [make_unique<CoherencyEngine>] with its default arguments: 16 heads, 25 GB/s. *)
Definition configure_distributed (local_node_id : Z) (mode : HDMDecoderMode) (c : CXLController D) : CXLController D :=
  mkController (cc_topo c) (cc_capacity c) (cc_page_type c) (cc_dramlatency c) (cc_counter c) (cc_occupation c) (cc_last_index c)
    (cc_request_counter c) (cc_latency_lat c) (cc_bandwidth_lat c) (cc_ring_buffer c) (cc_thread_map c) (cc_lru_cache c)
    (cc_logp_model c) (cc_mhsld_device c) local_node_id (Some (hdm_new mode))
    (Some (engine_new local_node_id (Some (cc_logp_model c)) 16 (d_of_Z 25))).

(** ** Branch records *)

(** [CXLSwitch::get_endpoint_rob_latency], given which accesses the endpoint called local. *)
Definition rob_remote_ratio (r : rob_info) : D :=
  match rb_m_count r !! 0, rb_m_count r !! 1 with
  | Some local_count, Some remote_count =>
      if 0 <? local_count + remote_count then d_of_Z remote_count ⊘ d_of_Z (local_count + remote_count) else d_of_Z 0
  | _, _ => d_of_Z 0
  end.

Definition rob_access_latency (base : D) (r : rob_info) (dramlatency : D) : D :=
  let llc_miss_ratio := if 0 <? rb_ins_count r then d_of_Z (rb_llcm_count r) ⊘ d_of_Z (rb_ins_count r) else d_of_Z 0 in
  let remote_ratio := rob_remote_ratio r in
  let l1 := if d_of_Z ROB_SIZE ⊗ d_lit 8 10 ⩿ d_of_Z (rb_ins_count r)
            then base ⊗ (d_of_Z 1 ⊕ llc_miss_ratio ⊗ d_lit 5 10) else base in
  let l2 := match rb_m_count r !! 1 with
            | Some n => if 0 <? n then l1 ⊗ (d_of_Z 1 ⊕ remote_ratio ⊗ d_lit 3 10) else l1
            | None => l1
            end in
  l2 ⊕ dramlatency ⊗ (remote_ratio ⊕ d_lit 1 10).

Fixpoint rob_sum (base : D) (r : rob_info) (dramlatency : D) (locals : list bool) (total : D) (count : Z) : D * Z :=
  match locals with
  | [] => (total, count)
  | true :: locals' => rob_sum base r dramlatency locals' total count
  | false :: locals' => rob_sum base r dramlatency locals' (total ⊕ rob_access_latency base r dramlatency) (count + 1)
  end.

Definition endpoint_rob_latency (accesses : list (Z * Z)) (ti : thread_info) (dramlatency : D) (e : endpoint D) : D * endpoint D :=
  let c := ex_config (ep_base e) in
  let base := (xc_latency_read c ⊕ xc_latency_write c) ⊘ d_of_Z 2 in
  let '(locals, x) := expander_query (snd <$> accesses) (ep_base e) in
  let '(total, count) := rob_sum base (ti_rob ti) dramlatency locals (d_of_Z 0) 0 in
  (if 0 <? count then total ⊘ d_of_Z count else d_of_Z 0, ep_set_base x e).

(** [dfs_calculate]. *)
Fixpoint rob_expanders (accesses : list (Z * Z)) (ti : thread_info) (dramlatency : D) (ps : list nat) (total : D)
    (es : list (endpoint D)) : option (D * list (endpoint D)) :=
  match ps with
  | [] => Some (total, es)
  | p :: ps' =>
      e ← es !! p;
      let '(l, e') := endpoint_rob_latency accesses ti dramlatency e in
      rob_expanders accesses ti dramlatency ps' (total ⊕ l) (<[p := e']> es)
  end.

Fixpoint rob_latency (accesses : list (Z * Z)) (ti : thread_info) (dramlatency : D) (sw : CXLSwitch) (total : D)
    (es : list (endpoint D)) : option (D * list (endpoint D)) :=
  match sw with
  | mkSwitch ps ss _ _ _ _ =>
      '(total1, es1) ← rob_expanders accesses ti dramlatency ps total es;
      (fix go (ss : list CXLSwitch) (total : D) (es : list (endpoint D)) :=
         match ss with
         | [] => Some (total, es)
         | s :: ss' => '(total1, es1) ← rob_latency accesses ti dramlatency s total es; go ss' total1 es1
         end) ss total1 es1
  end.

(** The records of one sample, up to the first without an origin. *)
Fixpoint insert_sample (ls : list lbr) (ring : list lbr) (t : thread_info) : option (list lbr * thread_info) :=
  match ls with
  | [] => Some (ring, t)
  | l :: ls' => if lb_from l =? 0 then Some (ring, t) else '(ring1, t1) ← insert_one l ring t; insert_sample ls' ring1 t1
  end.

Definition insert_lbrs (order : list Z -> list Z) (timestamp tid : Z) (lbrs : list lbr) (c : CXLController D) : option (CXLController D) :=
  '(ring, ti) ← insert_sample (take 32 lbrs) (cc_ring_buffer c) (default thread_new (cc_thread_map c !! tid));
  let c1 := cc_set_threads ring (<[tid := ti]> (cc_thread_map c)) c in
  '(accesses, c2) ← controller_get_access timestamp c1;
  '(total, es) ← rob_latency accesses ti (cc_dramlatency c2) (cc_root c2) (d_of_Z 0) (cc_endpoints c2);
  let c3 := cc_set_endpoints es c2 in
  '(congestion, c4) ← controller_congestion order c3;
  bw ← controller_bandwidth accesses c4;
  Some (cc_set_lat (cc_latency_lat c4 ⊕ d_max (total ⊕ congestion) (d_of_Z 0)) (cc_bandwidth_lat c4 ⊕ d_max bw (d_of_Z 0)) c4).

(** ** Back invalidation *)
Definition counter_backinv (n : Z) (k : CXLCounter) : CXLCounter := mkCXLCounter (ct_local k) (ct_remote k) (ct_hitm k) (ct_backinv k ⊞ n).

Fixpoint invalidate_expanders (addr : Z) (ps : list nat) (es : list (endpoint D)) (n : Z) : option (list (endpoint D) * Z) :=
  match ps with
  | [] => Some (es, n)
  | p :: ps' =>
      e ← es !! p;
      let '(k, x) := expander_invalidate addr (ep_base e) in
      invalidate_expanders addr ps' (<[p := ep_set_base x e]> es) (n + k)
  end.

(** [invalidate_in_expanders] on the controller, [invalidate_in_switch] below it. *)
Fixpoint invalidate_in_switch (addr : Z) (sw : CXLSwitch) (es : list (endpoint D)) (n : Z) : option (list (endpoint D) * Z) :=
  match sw with
  | mkSwitch ps ss _ _ _ _ =>
      '(es1, n1) ← invalidate_expanders addr ps es n;
      (fix go (ss : list CXLSwitch) (es : list (endpoint D)) (n : Z) :=
         match ss with
         | [] => Some (es, n)
         | s :: ss' => '(es1, n1) ← invalidate_in_switch addr s es n; go ss' es1 n1
         end) ss es1 n1
  end.

Definition back_invalidate (addr : Z) (c : CXLController D) : option (CXLController D) :=
  '(removed, lru) ← lru_remove addr (cc_lru_cache c);
  '(es, n) ← invalidate_in_switch addr (cc_root c) (cc_endpoints c) (if (removed : bool) then 1 else 0);
  Some (cc_set_counter (counter_backinv n (cc_counter c)) (cc_set_endpoints es (cc_set_lru lru c))).

Fixpoint back_invalidate_all (addrs : list Z) (c : CXLController D) : option (CXLController D) :=
  match addrs with [] => Some c | a :: addrs' => c1 ← back_invalidate a c; back_invalidate_all addrs' c1 end.

(** ** Migration *)

(** [occupation.emplace(key, info)]: an entry under the same key stays. *)
Fixpoint occ_emplace (key : Z) (info : occupation_info) (o : list (Z * occupation_info)) : list (Z * occupation_info) :=
  match o with
  | [] => [(key, info)]
  | (k, i) :: o' => if key <? k then (key, info) :: o else if key =? k then o else (k, i) :: occ_emplace key info o'
  end.

(** The first entry of an address, and the map without it. *)
Fixpoint occ_take (addr : Z) (o : list (Z * occupation_info)) : option (occupation_info * list (Z * occupation_info)) :=
  match o with
  | [] => None
  | (k, i) :: o' =>
      if oi_address i =? addr then Some (i, o')
      else '(j, rest) ← occ_take addr o'; Some (j, (k, i) :: rest)
  end.

(** The first expander of the tree, in the order of [find_in_switch], that records the address. *)
Fixpoint find_holder (addr : Z) (ps : list nat) (es : list (endpoint D)) : option nat :=
  match ps with
  | [] => None
  | p :: ps' =>
      match es !! p with
      | Some e => if bool_decide (addr ∈ occ_addresses (tk_occupation (ex_tracking (ep_base e)))) then Some p else find_holder addr ps' es
      | None => find_holder addr ps' es
      end
  end.

(** One address: from the controller to its first expander, or from an expander to the controller.
    The pointers of the tree are valid here: nothing happens at one that is not. *)
Definition migrate_one (addr : Z) (c : CXLController D) : CXLController D :=
  match occ_take addr (cc_occupation c) with
  | Some (info, rest) =>
      match cc_root c with
      | mkSwitch (p :: _) _ _ _ _ _ =>
          match cc_endpoints c !! p with
          | Some e =>
              cc_set_occupation rest (cc_set_endpoints (<[p := ep_set_base (expander_migrate_in info (ep_base e)) e]> (cc_endpoints c)) c)
          | None => c
          end
      | _ => c
      end
  | None =>
      match find_holder addr (pointers (cc_root c)) (cc_endpoints c) with
      | Some p =>
          match cc_endpoints c !! p with
          | Some e =>
              match expander_migrate_out addr (ep_base e) with
              | Some (info, x) =>
                  cc_set_occupation (occ_emplace (cc_last_timestamp c) info (cc_occupation c))
                    (cc_set_endpoints (<[p := ep_set_base x e]> (cc_endpoints c)) c)
              | None => c
              end
          | None => c
          end
      | None => c
      end
  end.

Definition migrate_all (list_ : list (Z * Z)) (c : CXLController D) : CXLController D :=
  foldl (fun c '(addr, _) => migrate_one addr c) c list_.

(** ** LogP and MH-SLD *)
Definition configure_logp (cfg : LogPConfig D) (c : CXLController D) : CXLController D :=
  cc_set_models (logp_reconfigure cfg (cc_logp_model c)) (cc_mhsld_device c) (cc_coherency c) c.

(** Microseconds, clamped, as nanoseconds. *)
Definition clamp (lo v hi : D) : D := d_max lo (d_min v hi).

Definition calibrate_logp_from_tcp (r : TCPCalibrationResult D) (c : CXLController D) : CXLController D :=
  if negb (tc_valid r) then c
  else
    let ns x := x ⊗ d_of_Z 1000 in
    configure_logp
      (mkLogPConfig (ns (clamp (d_lit 5 10) (tc_L r) (d_of_Z 500))) (ns (clamp (d_lit 1 10) (tc_o_s r) (d_of_Z 100)))
         (ns (clamp (d_lit 1 10) (tc_o_r r) (d_of_Z 100))) (ns (clamp (d_lit 1 100) (tc_g r) (d_of_Z 50)))
         (lc_P (lm_config (cc_logp_model c)))) c.

Definition calculate_logp_latency (src dst timestamp : Z) (c : CXLController D) : D * CXLController D :=
  if src =? dst then (d_of_Z 0, c)
  else
    let '(l, m) := message_latency (cc_logp_model c) timestamp dst in
    (l, cc_set_models m (cc_mhsld_device c) (cc_coherency c) c).

Definition calculate_logp_broadcast_latency (c : CXLController D) : D := broadcast_latency (cc_logp_model c).

Definition capacity_bytes (c : CXLController D) : Z :=
  foldl (fun n p => match cc_endpoints c !! p with Some e => n ⊞ (xc_capacity (ex_config (ep_base e)) ⊠ (1024 * 1024)) | None => n end)
    0 (tp_cur_expanders (cc_topo c)).

Definition enable_mhsld (num_heads : Z) (bandwidth_gbps : D) (c : CXLController D) : CXLController D :=
  let '(read_lat, write_lat) :=
    match tp_cur_expanders (cc_topo c) with
    | p :: _ => match cc_endpoints c !! p with
                | Some e => (xc_latency_read (ex_config (ep_base e)), xc_latency_write (ex_config (ep_base e)))
                | None => (d_of_Z 100, d_of_Z 150)
                end
    | [] => (d_of_Z 100, d_of_Z 150)
    end in
  cc_set_models (cc_logp_model c)
    (Some (device_new (capacity_bytes c) num_heads read_lat write_lat bandwidth_gbps (lm_config (cc_logp_model c)))) (cc_coherency c) c.

(** The wrappers: 0.0 without a device. *)
Definition with_device (f : MHSLDDevice D -> option (D * MHSLDDevice D)) (c : CXLController D) : option (D * CXLController D) :=
  match cc_mhsld_device c with
  | None => Some (d_of_Z 0, c)
  | Some d => '(l, d') ← f d; Some (l, cc_set_models (cc_logp_model c) (Some d') (cc_coherency c) c)
  end.

Definition mhsld_read (head_id addr timestamp : Z) : CXLController D -> option (D * CXLController D) :=
  with_device (read_with_coherency head_id addr timestamp).

Definition mhsld_write (head_id addr timestamp : Z) : CXLController D -> option (D * CXLController D) :=
  with_device (write_with_coherency head_id addr timestamp).

Definition mhsld_atomic (head_id addr timestamp : Z) : CXLController D -> option (D * CXLController D) :=
  with_device (atomic_with_coherency head_id addr timestamp).

Definition get_mhsld_stats (c : CXLController D) : MHSLDStats D :=
  match cc_mhsld_device c with
  | None => mkMHSLDStats 0 0 0 0 (d_of_Z 0) (d_of_Z 0) (d_of_Z 0)
  | Some d => MhSld.get_stats d
  end.

Fixpoint device_reads (head_id : Z) (elem : list (Z * Z)) (total : D) (d : MHSLDDevice D) : option (D * MHSLDDevice D) :=
  match elem with
  | [] => Some (total, d)
  | (ts, addr) :: elem' => '(l, d1) ← read_with_coherency head_id addr ts d; device_reads head_id elem' (total ⊕ l) d1
  end.

(** The coherency part of the distributed latency: the average over the base latency. *)
Definition coherency_overhead (head_id : Z) (elem : list (Z * Z)) (c : CXLController D) : option (D * CXLController D) :=
  match cc_mhsld_device c with
  | None => Some (d_of_Z 0, c)
  | Some d =>
      '(total, d') ← device_reads head_id elem (d_of_Z 0) d;
      let overhead := d_max (d_of_Z 0) (total ⊘ d_of_Z (Z.of_nat (length elem)) ⊖ md_base_read_latency d') in
      Some (overhead, cc_set_models (cc_logp_model c) (Some d') (cc_coherency c) c)
  end.

Definition calculate_distributed_latency (elem : list (Z * Z)) (head_id target_node : Z) (c : CXLController D) : option (D * CXLController D) :=
  match last elem with
  | None => Some (d_of_Z 0, c)
  | Some (timestamp, _) =>
      '(base, c1) ← controller_latency elem (cc_dramlatency c) c;
      let '(network, c2) :=
        if target_node =? head_id then (d_of_Z 0, c1)
        else
          let '(l, c2) := calculate_logp_latency head_id target_node timestamp c1 in
          (l, cc_set_models (record_message target_node (d_to_u64 l) (cc_logp_model c2)) (cc_mhsld_device c2) (cc_coherency c2) c2) in
      '(coh, c3) ← coherency_overhead head_id elem c2;
      Some (base ⊕ network ⊕ coh, c3)
  end.
End Controller.

(** ** Back invalidation reaches everything *)
Definition occupation_of {D} (e : endpoint D) : list occupation_info := tk_occupation (ex_tracking (ep_base e)).

Section BackInvalidation.
Context {D : Type} `{Double D}.

Lemma invalidate_app (addr : Z) (l1 l2 : list nat) (es : list (endpoint D)) (n : Z) :
  invalidate_expanders addr (l1 ++ l2) es n = ('(es1, n1) ← invalidate_expanders addr l1 es n; invalidate_expanders addr l2 es1 n1).
Proof.
  revert es n. induction l1 as [|p l1 IH]; intros es n; cbn [invalidate_expanders app]; [done|].
  destruct (es !! p) as [e|]; cbn [mbind option_bind]; [|done]. destruct (expander_invalidate addr (ep_base e)). apply IH.
Qed.

Lemma invalidate_flat (addr : Z) (sw : CXLSwitch) (es : list (endpoint D)) (n : Z) :
  invalidate_in_switch addr sw es n = invalidate_expanders addr (pointers sw) es n.
Proof.
  revert es n. induction sw as [ps ss c id ep lt IH] using switch_nested_ind. intros es n. rewrite pointers_eq, invalidate_app. cbn [invalidate_in_switch].
  destruct (invalidate_expanders addr ps es n) as [[es1 n1]|]; cbn [mbind option_bind]; [|done]. clear es n.
  revert es1 n1. induction IH as [|s ss Hs _ IHss]; intros es n; [done|]. cbn [fmap list_fmap concat]. rewrite invalidate_app, <- Hs.
  destruct (invalidate_in_switch addr s es n) as [[es1 n1]|]; cbn [mbind option_bind]; [|done]. apply IHss.
Qed.

Lemma set_base_occupation (x : CXLMemExpander D) (e : endpoint D) : ep_base (ep_set_base x e) = x.
Proof. by destruct e. Qed.

(** Each endpoint pointed to loses the entries of the address, no other changes. *)
Lemma invalidate_spec (addr : Z) (ps : list nat) (es : list (endpoint D)) (n : Z) :
  valid_pointers es ps ->
  exists es' n', invalidate_expanders addr ps es n = Some (es', n') /\ length es' = length es /\
    forall p e, es !! p = Some e -> exists e', es' !! p = Some e' /\
      occupation_of e' = if decide (p ∈ ps) then filter (fun o => oi_address o <> addr) (occupation_of e) else occupation_of e.
Proof.
  revert es n. induction ps as [|p ps IH]; intros es n Hv; cbn [invalidate_expanders]; [eexists _, _; split_and!; [done|done|]; intros q e He; by exists e|].
  apply Forall_cons in Hv as [Hp Hv]. destruct (lookup_lt_is_Some_2 es p Hp) as [e0 He0]. rewrite He0. cbn [mbind option_bind]. unfold expander_invalidate at 1. cbn zeta.
  set (x := set_tracking _ (ep_base e0)). destruct (IH (<[p := ep_set_base x e0]> es)) with (n := n + Z.of_nat (length (tk_occupation (ex_tracking (ep_base e0))) - length (filter (fun o => oi_address o <> addr) (tk_occupation (ex_tracking (ep_base e0)))))) as (es' & n' & E & Hl & Hq);
    [unfold valid_pointers; by rewrite length_insert|].
  exists es', n'. split; [exact E|]. rewrite length_insert in Hl. split; [done|]. intros q e He. destruct (decide (q = p)) as [->|Hne].
  - assert (e = e0) as -> by congruence. destruct (Hq p (ep_set_base x e0)) as (e' & He' & Ho); [by apply list_lookup_insert_eq|].
    exists e'. split; [done|]. rewrite Ho. unfold occupation_of at 1 2. rewrite set_base_occupation. rewrite (decide_True (P := p ∈ p :: ps)) by by left.
    unfold x. cbn. case_decide; [|done]. rewrite list_filter_filter. apply list_filter_iff. naive_solver.
  - destruct (Hq q e) as (e' & He' & Ho); [by rewrite list_lookup_insert_ne|]. exists e'. split; [done|]. rewrite Ho.
    destruct (decide (q ∈ ps)); [rewrite (decide_True (P := q ∈ p :: ps)) by by right|rewrite (decide_False (P := q ∈ p :: ps)) by set_solver]; done.
Qed.
End BackInvalidation.

Lemma filter_keep {A} (P : A -> Prop) `{!forall x, Decision (P x)} (l : list A) : (forall x, P x) -> filter P l = l.
Proof. intros Hp. induction l as [|x l IH]; [done|]. rewrite filter_cons_True by done. by rewrite IH. Qed.

Lemma lru_remove_peek (a : Z) (l : LRUCache) :
  lru_ok l -> exists b l', lru_remove a l = Some (b, l') /\ lru_ok l' /\ b = bool_decide (is_Some (lru_peek a l)) /\
    forall k, lru_peek k l' = if decide (k = a) then None else lru_peek k l.
Proof.
  intros Hok. destruct (lru_remove_refines a l Hok) as (l' & E & Hok' & _ & _). rewrite (lru_find l a Hok) in E. eexists _, l'. split_and!; [done|done|done|].
  revert E. unfold lru_remove, lru_peek. destruct (lc_cache l !! a) as [e|] eqn:Ea.
  - destruct (lc_lru_map l !! a) as [it|]; cbn [mbind option_bind]; [|done]. destruct (sl_erase it (lc_lru_list l)); cbn [mbind option_bind]; [|done].
    intros [= <-] k. cbn [lc_cache]. case_decide as Ek; [subst; by rewrite lookup_delete_eq|by rewrite lookup_delete_ne].
  - intros [= <-] k. case_decide as Ek; [subst; by rewrite Ea|done].
Qed.

Section BackInvalidationAll.
Context {D : Type} `{Double D}.

(** A controller whose tree and cache are in order. *)
Definition controller_ok (c : CXLController D) : Prop :=
  lru_ok (cc_lru_cache c) /\ valid_pointers (cc_endpoints c) (pointers (cc_root c)).

(** [c'] is [c] without the addresses that [gone] marks. *)
Definition without (gone : Z -> Prop) `{!forall a, Decision (gone a)} (c c' : CXLController D) : Prop :=
  cc_root c' = cc_root c /\ length (cc_endpoints c') = length (cc_endpoints c) /\
  (forall a, lru_peek a (cc_lru_cache c') = if decide (gone a) then None else lru_peek a (cc_lru_cache c)) /\
  forall p e, cc_endpoints c !! p = Some e -> exists e', cc_endpoints c' !! p = Some e' /\
    occupation_of e' = if decide (p ∈ pointers (cc_root c)) then filter (fun o => ~ gone (oi_address o)) (occupation_of e) else occupation_of e.

Lemma back_invalidate_spec (addr : Z) (c : CXLController D) :
  controller_ok c -> exists c', back_invalidate addr c = Some c' /\ controller_ok c' /\ without (fun a => a = addr) c c'.
Proof.
  intros [Hl Hv]. unfold back_invalidate. destruct (lru_remove_peek addr _ Hl) as (b & l' & -> & Hl' & _ & Hpeek). cbn [mbind option_bind].
  rewrite invalidate_flat. destruct (invalidate_spec addr (pointers (cc_root c)) (cc_endpoints c) (if b then 1 else 0) Hv) as (es' & n' & -> & Hlen & Hq).
  cbn [mbind option_bind]. eexists. split; [reflexivity|]. unfold controller_ok, without, cc_endpoints, cc_root. cbn.
  split; [split; [done|unfold valid_pointers; by rewrite Hlen]|]. split_and!; [done|done|done|exact Hq].
Qed.

(** Back invalidation is complete and exact: every address of the list is gone from the cache and
    from the record of every expander of the tree, wherever it hangs, and nothing else is removed. *)
Theorem back_invalidation_complete (addrs : list Z) (c : CXLController D) (Hc : controller_ok c) :
  exists c', back_invalidate_all addrs c = Some c' /\ without (fun a => a ∈ addrs) c c'.
Proof.
  enough (exists c', back_invalidate_all addrs c = Some c' /\ controller_ok c' /\ without (fun a => a ∈ addrs) c c') as (c' & E & _ & W) by by exists c'.
  revert c Hc. induction addrs as [|a addrs IH]; intros c Hc; cbn [back_invalidate_all].
  - exists c. split_and!; [done|done|]. split_and!; [done|done|by intros a; rewrite decide_False by apply not_elem_of_nil|].
    intros p e He. exists e. split; [done|]. case_decide; [|done]. symmetry. apply filter_keep. intros o. apply not_elem_of_nil.
  - destruct (back_invalidate_spec a c Hc) as (c1 & -> & Hc1 & R1 & L1 & P1 & E1). cbn [mbind option_bind].
    destruct (IH c1 Hc1) as (c2 & -> & Hc2 & R2 & L2 & P2 & E2). exists c2. split_and!; [done|done|]. split_and!; [congruence|congruence| |].
    + intros k. rewrite P2, P1. repeat case_decide; set_solver.
    + intros p e He. destruct (E1 p e He) as (e1 & He1 & O1). destruct (E2 p e1 He1) as (e2 & He2 & O2). exists e2. split; [done|].
      rewrite O2, R1, O1. destruct (decide (p ∈ pointers (cc_root c))); [|done]. rewrite list_filter_filter. apply list_filter_iff. intros o. rewrite elem_of_cons. naive_solver.
Qed.
End BackInvalidationAll.

Definition demo_controller : CXLController spec_float :=
  let x := (expander_insert 5 1 64 0 (expander_new 25 25 100 150 0 1024)).2 in
  let c := controller_insert_end_point x (controller_new 1024 PAGE (d_of_Z 110)) in
  from_option snd c (controller_construct_topo "(1,(1));" c).

Lemma back_invalidation_complete_witness :
  exists c', back_invalidate_all [64; 128] demo_controller = Some c' /\ without (fun a => a ∈ [64; 128]) demo_controller c'.
Proof.
  apply back_invalidation_complete. split.
  - apply lru_empty_ok. split; vm_compute; reflexivity.
  - repeat constructor.
Defined.

(** ** Calibration *)
Lemma clamp_bounds (lo v hi : Q) : (lo <= hi -> lo <= clamp lo v hi /\ clamp lo v hi <= hi)%Q.
Proof.
  intros Hlh. unfold clamp, d_max, d_min. cbn [d_ltb exact]. destruct (q_ltb hi v) eqn:E1.
  - destruct (q_ltb lo hi) eqn:E2; q_bool; lra.
  - destruct (q_ltb lo v) eqn:E2; q_bool; lra.
Qed.

(** Calibration keeps the LogP model usable: whatever a valid measurement says, the configuration that
    results has a latency between 0.5 and 500 microseconds, overheads between 0.1 and 100, a gap
    between 0.01 and 50, and the service rate that belongs to it; an invalid one changes nothing. *)
Theorem calibration_configures (r : TCPCalibrationResult Q) (c : CXLController Q) :
  (tc_valid r = false -> calibrate_logp_from_tcp r c = c) /\
  (tc_valid r = true ->
   let m := cc_logp_model (calibrate_logp_from_tcp r c) in
   logp_configured m /\ lc_P (lm_config m) = lc_P (lm_config (cc_logp_model c)) /\
   (500 <= lc_L (lm_config m) <= 500000 /\ 100 <= lc_o_s (lm_config m) <= 100000 /\
    100 <= lc_o_r (lm_config m) <= 100000 /\ 10 <= lc_g (lm_config m) <= 50000)%Q).
Proof.
  unfold calibrate_logp_from_tcp. split; intros ->; [done|]. cbn [negb configure_logp cc_set_models cc_logp_model logp_reconfigure lm_config lm_state].
  assert (HL : (d_lit 5 10 <= clamp (d_lit 5 10) (tc_L r) (d_of_Z 500) /\ clamp (d_lit 5 10) (tc_L r) (d_of_Z 500) <= d_of_Z 500)%Q) by (apply clamp_bounds; vm_compute; discriminate).
  assert (Hs : (d_lit 1 10 <= clamp (d_lit 1 10) (tc_o_s r) (d_of_Z 100) /\ clamp (d_lit 1 10) (tc_o_s r) (d_of_Z 100) <= d_of_Z 100)%Q) by (apply clamp_bounds; vm_compute; discriminate).
  assert (Hr : (d_lit 1 10 <= clamp (d_lit 1 10) (tc_o_r r) (d_of_Z 100) /\ clamp (d_lit 1 10) (tc_o_r r) (d_of_Z 100) <= d_of_Z 100)%Q) by (apply clamp_bounds; vm_compute; discriminate).
  assert (Hg : (d_lit 1 100 <= clamp (d_lit 1 100) (tc_g r) (d_of_Z 50) /\ clamp (d_lit 1 100) (tc_g r) (d_of_Z 50) <= d_of_Z 50)%Q) by (apply clamp_bounds; vm_compute; discriminate).
  generalize dependent (clamp (d_lit 5 10) (tc_L r) (d_of_Z 500)). generalize dependent (clamp (d_lit 1 10) (tc_o_s r) (d_of_Z 100)).
  generalize dependent (clamp (d_lit 1 10) (tc_o_r r) (d_of_Z 100)). generalize dependent (clamp (d_lit 1 100) (tc_g r) (d_of_Z 50)).
  intros g Hg o_r Hr o_s Hs L HL. unfold logp_configured, logp_config_ok. cbn [lm_config lm_state lc_L lc_o_s lc_o_r lc_g lc_P set_service_rate lq_service_rate].
  q_bool. assert (F5 : ((5 # 1) / (10 # 1) == 1 # 2)%Q) by reflexivity. assert (F1 : ((1 # 1) / (10 # 1) == 1 # 10)%Q) by reflexivity.
  assert (F0 : ((1 # 1) / (100 # 1) == 1 # 100)%Q) by reflexivity. rewrite F5 in HL. rewrite F1 in Hs, Hr. rewrite F0 in Hg.
  split_and!; try done; cbn [logp_reconfigure lm_config lc_L lc_o_s lc_o_r lc_g]; lra || reflexivity.
Qed.
