(* ===== verification/Policy.v ===== *)
(** * Policies ([include/policy.h], [src/policy.cpp], and their interfaces in [include/cxlcontroller.h])

    The controller asks four policies through virtual calls: where to allocate an access, what a
    page-table walk costs, whether to cache a line and which lines to invalidate, and whether to
    migrate.  Each interface is a class; its instances are the policies of the repository.  A result
    [None] is a loop that does not end within the given fuel, or an index out of bounds.  The
    iteration order of a hash map is an argument. *)
From Stdlib Require Import QArith SpecFloat.
From S2P Require Import Prelude Double LruCache Expander Switch Topology Controller.
#[local] Open Scope Z_scope.

Class AllocationPolicy (D P : Type) :=
  allocate : CXLController D -> P -> option (Z * P).

Class PagingPolicy (P : Type) :=
  check_page_table_walk : Z -> Z -> bool -> page_type -> P -> option (Z * P).

Class CachingPolicy (D P : Type) := {
  should_cache : Z -> Z -> P -> bool * P;
  get_invalidation_list : CXLController D -> P -> list Z * P;
  caching_once : CXLController D -> P -> option (Z * P * CXLController D)
}.

Class MigrationPolicy (D P : Type) :=
  migration_once : CXLController D -> P -> option (Z * P).

Definition page_bytes (pt : page_type) : Z :=
  match pt with CACHELINE => 64 | PAGE => 4096 | HUGEPAGE_2M => 2 * 1024 * 1024 | HUGEPAGE_1G => 1024 * 1024 * 1024 end.

Section Allocation.
Context {D : Type} `{Double D}.
#[local] Open Scope double_scope.

(** Megabytes of a number of pages. *)
Definition pages_mb (n : Z) (pt : page_type) : Z := (n ⊠ page_bytes pt) / 1024 / 1024.

Definition local_has_space (c : CXLController D) : bool :=
  d_of_Z (pages_mb (Z.of_nat (length (cc_occupation c))) (cc_page_type c)) ⋖ d_of_Z (cc_capacity c) ⊗ d_lit 9 10.

(** [cur_expanders[i]]. *)
Definition cur_expander (i : nat) (c : CXLController D) : option (CXLMemExpander D) :=
  p ← tp_cur_expanders (cc_topo c) !! i; ep_base <$> cc_endpoints c !! p.

Definition used_pages (x : CXLMemExpander D) : Z := Z.of_nat (length (tk_occupation (ex_tracking x))).

Definition expander_has_space (pt : page_type) (x : CXLMemExpander D) : bool := pages_mb (used_pages x) pt <? xc_capacity (ex_config x).

(** ** [InterleavePolicy] *)
Record InterleavePolicy := mkInterleave {
  ip_last_remote : Z;
  ip_all_size : Z;
  ip_percentage : list Z          (* doubles with integral values *)
}.

Definition cur_all (c : CXLController D) : option (list (CXLMemExpander D)) :=
  mapM (fun i => cur_expander i c) (seq 0 (length (tp_cur_expanders (cc_topo c)))).

Definition shares (xs : list (CXLMemExpander D)) : list Z :=
  let weights := (fun x => d_of_Z 1 ⊘ xc_latency_write (ex_config x)) <$> xs in
  let all := foldl d_add (d_of_Z 0) weights in
  (fun w => d_trunc (w ⊘ all ⊗ d_of_Z 10)) <$> weights.

(** The first use computes the distribution. *)
Definition interleave_prepare (c : CXLController D) (p : InterleavePolicy) : option InterleavePolicy :=
  match ip_percentage p with
  | [] => xs ← cur_all c; let ps := shares xs in Some (mkInterleave (ip_last_remote p) (foldl Z.add 0 ps) ps)
  | _ => Some p
  end.

(** The expander whose share contains a position: the inner loop. *)
Fixpoint share_of (position sum : Z) (index : nat) (ps : list Z) : option nat :=
  match ps with
  | [] => None
  | s :: ps' => if position <? sum + s then Some index else share_of position (sum + s) (S index) ps'
  end.

(** The loop through [goto next]: the next position whose expander has space. *)
Fixpoint interleave_next (fuel : nat) (c : CXLController D) (p : InterleavePolicy) : option (Z * InterleavePolicy) :=
  match fuel with
  | O => None
  | S fuel' =>
      if ip_all_size p =? 0 then Some (-1, p)
      else
        let last_remote := Z.rem (ip_last_remote p + 1) (ip_all_size p) in
        let p' := mkInterleave last_remote (ip_all_size p) (ip_percentage p) in
        i ← share_of last_remote 0 O (ip_percentage p);
        x ← cur_expander i c;
        if expander_has_space (cc_page_type c) x then Some (Z.of_nat i, p') else interleave_next fuel' c p'
  end.

Definition interleave_once (fuel : nat) (c : CXLController D) (p : InterleavePolicy) : option (Z * InterleavePolicy) :=
  if local_has_space c then Some (-1, p) else p' ← interleave_prepare c p; interleave_next fuel c p'.

(** ** [NUMAPolicy] *)
Definition NUMAPolicy := list D.          (* latency_scores *)

Definition numa_score (x : CXLMemExpander D) : D :=
  d_of_Z 1 ⊘ (d_lit 7 10 ⊗ xc_latency_read (ex_config x) ⊕ d_lit 3 10 ⊗ xc_latency_write (ex_config x)).

Definition numa_rating (pt : page_type) (score : D) (x : CXLMemExpander D) : D :=
  score ⊗ (d_of_Z 1 ⊖ d_of_Z (used_pages x ⊠ page_bytes pt) ⊘ d_of_Z (xc_capacity (ex_config x) ⊠ 1024 ⊠ 1024)).

Fixpoint numa_best (pt : page_type) (i : Z) (scores : list D) (xs : list (CXLMemExpander D)) (best : Z) (best_score : D) : option Z :=
  match xs with
  | [] => Some best
  | x :: xs' =>
      if expander_has_space pt x then
        score ← head scores;
        let rating := numa_rating pt score x in
        if best_score ⋖ rating then numa_best pt (i + 1) (tl scores) xs' i rating
        else numa_best pt (i + 1) (tl scores) xs' best best_score
      else numa_best pt (i + 1) (tl scores) xs' best best_score
  end.

Fixpoint first_with_space (pt : page_type) (i : Z) (xs : list (CXLMemExpander D)) : Z :=
  match xs with
  | [] => -1
  | x :: xs' => if expander_has_space pt x then i else first_with_space pt (i + 1) xs'
  end.

Definition numa_once (c : CXLController D) (scores : NUMAPolicy) : option (Z * NUMAPolicy) :=
  if local_has_space c then Some (-1, scores)
  else
    xs ← cur_all c;
    let scores' := match scores with [] => numa_score <$> xs | _ => scores end in
    best ← numa_best (cc_page_type c) 0 scores' xs (-1) (d_of_Z (-1));
    Some (if best =? -1 then first_with_space (cc_page_type c) 0 xs else best, scores').

#[global] Instance interleave_policy (fuel : nat) : AllocationPolicy D InterleavePolicy := interleave_once fuel.

#[global] Instance numa_policy : AllocationPolicy D NUMAPolicy := numa_once.
End Allocation.

(** ** [HugePagePolicy] *)
Record CXLHugePageEvent := mkHugePageEvent {
  he_hits_4k : Z;
  he_misses_4k : Z;
  he_hits_2m : Z;
  he_misses_2m : Z;
  he_hits_1g : Z;
  he_misses_1g : Z;
  he_ptw_count : Z
}.

Record HugePagePolicy := mkHugePage {
  hp_ptw_base_latency_local : Z;
  hp_ptw_base_latency_remote : Z;
  hp_va_pa_cache : gmap Z Z;
  hp_tlb_4k : TLBCache;
  hp_tlb_2m : TLBCache;
  hp_tlb_1g : TLBCache;
  hp_stats : CXLHugePageEvent
}.

Definition huge_page_new (local_latency remote_latency : Z) : HugePagePolicy :=
  mkHugePage local_latency remote_latency ∅ (tlb_new 64) (tlb_new 32) (tlb_new 4) (mkHugePageEvent 0 0 0 0 0 0 0).

Definition page_shift (pt : page_type) : Z := match pt with CACHELINE | PAGE => 12 | HUGEPAGE_2M => 21 | HUGEPAGE_1G => 30 end.

(** [addr & ~((1ULL << shift) - 1)]. *)
Definition clear_low (shift addr : Z) : Z := Z.land addr (Z.lnot (Z.shiftl 1 shift - 1)).

Definition page_of (pt : page_type) (addr : Z) : Z := clear_low (page_shift pt) addr.

Definition tlb_of (pt : page_type) (p : HugePagePolicy) : TLBCache :=
  match pt with CACHELINE | PAGE => hp_tlb_4k p | HUGEPAGE_2M => hp_tlb_2m p | HUGEPAGE_1G => hp_tlb_1g p end.

Definition set_tlb (pt : page_type) (t : TLBCache) (p : HugePagePolicy) : HugePagePolicy :=
  match pt with
  | CACHELINE | PAGE =>
      mkHugePage (hp_ptw_base_latency_local p) (hp_ptw_base_latency_remote p) (hp_va_pa_cache p) t (hp_tlb_2m p) (hp_tlb_1g p) (hp_stats p)
  | HUGEPAGE_2M =>
      mkHugePage (hp_ptw_base_latency_local p) (hp_ptw_base_latency_remote p) (hp_va_pa_cache p) (hp_tlb_4k p) t (hp_tlb_1g p) (hp_stats p)
  | HUGEPAGE_1G =>
      mkHugePage (hp_ptw_base_latency_local p) (hp_ptw_base_latency_remote p) (hp_va_pa_cache p) (hp_tlb_4k p) (hp_tlb_2m p) t (hp_stats p)
  end.

Definition count_tlb (pt : page_type) (hit : bool) (e : CXLHugePageEvent) : CXLHugePageEvent :=
  let h := if hit then 1 else 0 in
  let m := if hit then 0 else 1 in
  match pt with
  | CACHELINE | PAGE => mkHugePageEvent (he_hits_4k e ⊞ h) (he_misses_4k e ⊞ m) (he_hits_2m e) (he_misses_2m e) (he_hits_1g e) (he_misses_1g e) (he_ptw_count e)
  | HUGEPAGE_2M => mkHugePageEvent (he_hits_4k e) (he_misses_4k e) (he_hits_2m e ⊞ h) (he_misses_2m e ⊞ m) (he_hits_1g e) (he_misses_1g e) (he_ptw_count e)
  | HUGEPAGE_1G => mkHugePageEvent (he_hits_4k e) (he_misses_4k e) (he_hits_2m e) (he_misses_2m e) (he_hits_1g e ⊞ h) (he_misses_1g e ⊞ m) (he_ptw_count e)
  end.

Definition set_stats (e : CXLHugePageEvent) (p : HugePagePolicy) : HugePagePolicy :=
  mkHugePage (hp_ptw_base_latency_local p) (hp_ptw_base_latency_remote p) (hp_va_pa_cache p) (hp_tlb_4k p) (hp_tlb_2m p) (hp_tlb_1g p) e.

Definition remember_translation (va pa : Z) (p : HugePagePolicy) : HugePagePolicy :=
  let e := hp_stats p in
  mkHugePage (hp_ptw_base_latency_local p) (hp_ptw_base_latency_remote p) (<[va := pa]> (hp_va_pa_cache p)) (hp_tlb_4k p) (hp_tlb_2m p) (hp_tlb_1g p)
    (mkHugePageEvent (he_hits_4k e) (he_misses_4k e) (he_hits_2m e) (he_misses_2m e) (he_hits_1g e) (he_misses_1g e) (he_ptw_count e ⊞ 1)).

Section Paging.
Context {D : Type} `{Double D}.
#[local] Open Scope double_scope.

Definition ptw_reduction (pt : page_type) : D :=
  match pt with CACHELINE | PAGE => d_of_Z 1 | HUGEPAGE_2M => d_lit 75 100 | HUGEPAGE_1G => d_lit 5 10 end.

Definition huge_page_walk (virt_addr phys_addr : Z) (is_remote : bool) (pt : page_type) (p : HugePagePolicy) : option (Z * HugePagePolicy) :=
  let base := if is_remote then hp_ptw_base_latency_remote p else hp_ptw_base_latency_local p in
  let page_addr := page_of pt virt_addr in
  '(hit, tlb) ← tlb_lookup page_addr (tlb_of pt p);
  let p1 := set_stats (count_tlb pt hit (hp_stats p)) (set_tlb pt tlb p) in
  if (hit : bool) then Some (0, p1)
  else
    match hp_va_pa_cache p1 !! virt_addr with
    | Some _ =>
        tlb' ← tlb_insert page_addr (tlb_of pt p1);
        Some (d_to_u64 (d_of_Z base ⊗ d_lit 2 10 ⊗ ptw_reduction pt), set_tlb pt tlb' p1)
    | None =>
        let p2 := remember_translation virt_addr phys_addr p1 in
        tlb' ← tlb_insert page_addr (tlb_of pt p2);
        Some (d_to_u64 (d_of_Z base ⊗ ptw_reduction pt), set_tlb pt tlb' p2)
    end.

(** The hit rates; an unused TLB has rate 0. *)
Definition hit_rate (hits misses : Z) : D :=
  if 0 <? hits ⊞ misses then d_of_Z hits ⊘ d_of_Z (hits ⊞ misses) else d_of_Z 0.

Definition huge_page_stats (p : HugePagePolicy) : D * D * D * Z :=
  let e := hp_stats p in
  (hit_rate (he_hits_4k e) (he_misses_4k e), hit_rate (he_hits_2m e) (he_misses_2m e), hit_rate (he_hits_1g e) (he_misses_1g e), he_ptw_count e).

(** [compute_once] groups the addresses of the controller's record by 2 MB page, and sums the
    groups by 1 GB page; its results do not depend on the order in which the hash maps are read. *)
Definition page_groups (addrs : list Z) : gmap Z (list Z) :=
  foldl (fun m a => let k := clear_low 21 a in <[k := default [] (m !! k) ++ [a]]> m) ∅ addrs.

Definition unique_pages (addrs : list Z) : Z := Z.of_nat (size (list_to_set (clear_low 12 <$> addrs) : gset Z)).

Definition gb_page_usage (groups : list (Z * list Z)) : gmap Z Z :=
  foldl (fun m g => let k := clear_low 30 g.1 in <[k := default 0 (m !! k) ⊞ Z.of_nat (length g.2)]> m) ∅ groups.

Definition huge_page_once (c : CXLController D) : Z * CXLController D :=
  let groups := map_to_list (page_groups ((fun e => oi_address e.2) <$> cc_occupation c)) in
  let potential_huge_pages := Z.of_nat (length (filter (fun g => 64 < unique_pages g.2) groups)) in
  if 3 <? potential_huge_pages then (1, cc_set_page_type HUGEPAGE_2M c)
  else if existsb (fun u => 16384 <? u.2) (map_to_list (gb_page_usage groups)) then (2, cc_set_page_type HUGEPAGE_1G c)
  else (0, c).

#[global] Instance huge_page_policy : PagingPolicy HugePagePolicy := huge_page_walk.
End Paging.

(** ** [PageTableAwarePolicy] *)
Record PageTableAwarePolicy := mkPageTableAware {
  pa_va_pa_cache : gmap Z Z;
  pa_ptw_latency_local : Z;
  pa_ptw_latency_remote : Z;
  pa_hit : Z;
  pa_miss : Z;
  pa_total : Z;
  pa_last_cleanup_timestamp : Z;
  pa_cleanup_interval : Z
}.

Definition page_table_new (local_latency remote_latency cleanup_interval : Z) : PageTableAwarePolicy :=
  mkPageTableAware ∅ local_latency remote_latency 0 0 0 0 cleanup_interval.

Definition page_table_walk (virt_addr phys_addr : Z) (is_remote : bool) (_ : page_type) (p : PageTableAwarePolicy) : option (Z * PageTableAwarePolicy) :=
  match pa_va_pa_cache p !! virt_addr with
  | Some _ =>
      Some (0, mkPageTableAware (pa_va_pa_cache p) (pa_ptw_latency_local p) (pa_ptw_latency_remote p) (pa_hit p ⊞ 1) (pa_miss p)
                 (pa_total p ⊞ 1) (pa_last_cleanup_timestamp p) (pa_cleanup_interval p))
  | None =>
      Some (if is_remote then pa_ptw_latency_remote p else pa_ptw_latency_local p,
            mkPageTableAware (<[virt_addr := phys_addr]> (pa_va_pa_cache p)) (pa_ptw_latency_local p) (pa_ptw_latency_remote p)
              (pa_hit p) (pa_miss p ⊞ 1) (pa_total p ⊞ 1) (pa_last_cleanup_timestamp p) (pa_cleanup_interval p))
  end.

#[global] Instance page_table_policy : PagingPolicy PageTableAwarePolicy := page_table_walk.

(** [shuffled]: the keys of the cache in a random order. *)
Definition page_table_once {D} `{Double D} (shuffled : list Z -> list Z) (c : CXLController D) (p : PageTableAwarePolicy) : Z * PageTableAwarePolicy :=
  let now := cc_last_timestamp c in
  let with_cache m ts := mkPageTableAware m (pa_ptw_latency_local p) (pa_ptw_latency_remote p) (pa_hit p) (pa_miss p) (pa_total p) ts (pa_cleanup_interval p) in
  if pa_cleanup_interval p <? now ⊟ pa_last_cleanup_timestamp p then (1, with_cache ∅ now)
  else
    let n := Z.of_nat (size (pa_va_pa_cache p)) in
    let rate : D := if 0 <? pa_total p then d_div (d_of_Z (pa_hit p)) (d_of_Z (pa_total p)) else d_of_Z 0 in
    if d_ltb rate (d_lit 7 10) && (n <? 10000) then (0, p)
    else if d_ltb (d_lit 9 10) rate && (1000 <? n) then
      let keys := shuffled (elements (dom (pa_va_pa_cache p))) in
      (2, with_cache (foldr delete (pa_va_pa_cache p) (take (Z.to_nat (n / 10)) keys)) (pa_last_cleanup_timestamp p))
    else (0, p).

Definition page_table_stats {D} `{Double D} (p : PageTableAwarePolicy) : Z * Z * D :=
  (pa_hit p, pa_miss p, if 0 <? pa_total p then d_div (d_of_Z (pa_hit p)) (d_of_Z (pa_total p)) else d_of_Z 0).

(** ** Caching policies

    [order] lists the entries of the cache's hash map. *)
Record FrequencyBasedInvalidationPolicy := mkFrequencyInvalidation {
  fi_access_count : gmap Z Z;
  fi_access_threshold : Z;
  fi_last_cleanup : Z;
  fi_cleanup_interval : Z
}.

Definition frequency_new (threshold interval : Z) : FrequencyBasedInvalidationPolicy := mkFrequencyInvalidation ∅ threshold 0 interval.

Definition count_access (addr : Z) (m : gmap Z Z) : gmap Z Z := <[addr := default 0 (m !! addr) ⊞ 1]> m.

Definition frequency_should_cache (addr _timestamp : Z) (p : FrequencyBasedInvalidationPolicy) : bool * FrequencyBasedInvalidationPolicy :=
  (true, mkFrequencyInvalidation (count_access addr (fi_access_count p)) (fi_access_threshold p) (fi_last_cleanup p) (fi_cleanup_interval p)).

Definition frequency_should_invalidate (addr _timestamp : Z) (p : FrequencyBasedInvalidationPolicy) : bool :=
  match fi_access_count p !! addr with Some n => n <? fi_access_threshold p | None => false end.

Section Caching.
Context {D : Type} `{Double D} (order : gmap Z LRUCacheEntry -> list (Z * LRUCacheEntry)).

Definition frequency_list (c : CXLController D) (p : FrequencyBasedInvalidationPolicy) : list Z * FrequencyBasedInvalidationPolicy :=
  let to_invalidate := filter (fun a => frequency_should_invalidate a 0 p = true) (order (lc_cache (cc_lru_cache c))).*1 in
  let current_time := cc_last_timestamp c in
  (to_invalidate,
   if fi_cleanup_interval p <? current_time ⊟ fi_last_cleanup p
   then mkFrequencyInvalidation ∅ (fi_access_threshold p) current_time (fi_cleanup_interval p) else p).

Definition frequency_once (c : CXLController D) (p : FrequencyBasedInvalidationPolicy) : option (Z * FrequencyBasedInvalidationPolicy * CXLController D) :=
  let '(l, p') := frequency_list c p in
  Some (match l with [] => 0 | _ => 1 end, p', c).

(** The oldest entry and its address; 0 and [UINT64_MAX] if there is none older. *)
Definition oldest (entries : list (Z * LRUCacheEntry)) : Z * Z :=
  foldl (fun '(ts, a) '(addr, e) => if le_timestamp e <? ts then (le_timestamp e, addr) else (ts, a)) (2 ^ 64 - 1, 0) entries.

(** [capacity] is an [int] compared with a [size_t]. *)
Definition fifo_once (c : CXLController D) (p : unit) : option (Z * unit * CXLController D) :=
  if wrap64 (cc_capacity c) <=? pages_mb (lru_size (cc_lru_cache c)) (cc_page_type c) then
    let addr := (oldest (order (lc_cache (cc_lru_cache c)))).2 in
    if addr =? 0 then Some (0, p, c)
    else '(_, l) ← lru_remove addr (cc_lru_cache c); Some (1, p, cc_set_lru l c)
  else Some (0, p, c).

Definition fifo_list (c : CXLController D) (p : unit) : list Z * unit := ((fun e => oi_address e.2) <$> cc_occupation c, p).

#[global] Instance frequency_policy : CachingPolicy D FrequencyBasedInvalidationPolicy :=
  { should_cache := frequency_should_cache; get_invalidation_list := frequency_list; caching_once := frequency_once }.

#[global] Instance fifo_policy : CachingPolicy D unit :=
  { should_cache := fun _ _ p => (false, p); get_invalidation_list := fifo_list; caching_once := fifo_once }.
End Caching.

(** ** Interleaving finds space, or turns for ever *)
Section InterleaveProofs.
Context {D : Type} `{Double D}.

Definition total_share (ps : list Z) : Z := foldr Z.add 0 ps.

Definition interleave_ok (c : CXLController D) (p : InterleavePolicy) : Prop :=
  ip_all_size p = total_share (ip_percentage p) /\ 0 < ip_all_size p /\ Forall (Z.le 0) (ip_percentage p)
  /\ 0 <= ip_last_remote p < ip_all_size p
  /\ forall i, (i < length (ip_percentage p))%nat -> is_Some (cur_expander i c).

(** Expander [i] has a share, and it has space or not. *)
Definition serves (c : CXLController D) (ps : list Z) (space : bool) (i : nat) : Prop :=
  exists s x, ps !! i = Some s /\ 0 < s /\ cur_expander i c = Some x /\ expander_has_space (cc_page_type c) x = space.

Lemma share_of_found (ps : list Z) (q sum : Z) (k : nat) :
  Forall (Z.le 0) ps -> sum <= q < sum + total_share ps ->
  exists i s, share_of q sum k ps = Some (k + i)%nat /\ ps !! i = Some s /\ 0 < s.
Proof.
  revert sum k; induction ps as [|s ps IH]; intros sum k Hp Hq; cbn [total_share foldr] in Hq; [lia|].
  apply Forall_cons in Hp as [Hs Hp]. cbn [share_of]. destruct (q <? sum + s) eqn:E.
  - exists O, s. rewrite Nat.add_0_r. split_and!; [done..|]. apply Z.ltb_lt in E. lia.
  - apply Z.ltb_ge in E. destruct (IH (sum + s) (S k) Hp) as (i & s' & Hf & Hi & Hs'); [unfold total_share in *; lia|].
    exists (S i), s'. rewrite Hf, Nat.add_succ_r. done.
Qed.

Lemma share_of_onto (ps : list Z) (sum : Z) (k i : nat) (s : Z) :
  Forall (Z.le 0) ps -> ps !! i = Some s -> 0 < s ->
  exists q, sum <= q < sum + total_share ps /\ share_of q sum k ps = Some (k + i)%nat.
Proof.
  assert (Hn : forall l, Forall (Z.le 0) l -> 0 <= total_share l)
    by (intros l; induction 1; unfold total_share in *; cbn [foldr]; lia).
  revert sum k i; induction ps as [|s0 ps IH]; intros sum k i Hp Hi Hs; [done|].
  apply Forall_cons in Hp as [Hs0 Hp]. destruct i as [|i]; cbn in Hi.
  - simplify_eq. exists sum. specialize (Hn ps Hp). unfold total_share in *. cbn [foldr share_of].
    rewrite (proj2 (Z.ltb_lt _ _)), Nat.add_0_r by lia. split; [lia|done].
  - destruct (IH (sum + s0) (S k) i Hp Hi Hs) as (q & Hq & Hf). exists q. unfold total_share in *. cbn [foldr share_of].
    rewrite (proj2 (Z.ltb_ge _ _)), Hf by lia. rewrite Nat.add_succ_r. split; [lia|done].
Qed.

Definition turn (p : InterleavePolicy) (d : Z) : Z := (ip_last_remote p + 1 + d) mod ip_all_size p.

Definition turned (p : InterleavePolicy) : InterleavePolicy := mkInterleave (turn p 0) (ip_all_size p) (ip_percentage p).

Lemma turned_ok (c : CXLController D) (p : InterleavePolicy) : interleave_ok c p -> interleave_ok c (turned p).
Proof. intros (Ha & Hn & Hf & Hl & Hx). split_and!; cbn; try done; apply Z.mod_pos_bound; lia. Qed.

Lemma turn_turned (p : InterleavePolicy) (d : Z) : 0 < ip_all_size p -> turn (turned p) d = turn p (d + 1).
Proof.
  intros Hn. unfold turned, turn; cbn [ip_last_remote ip_all_size].
  rewrite <- (Z.add_assoc (_ mod _)), Zplus_mod_idemp_l. f_equal. lia.
Qed.

(** One turn: the expander at the next position is taken if it has space. *)
Lemma interleave_turn (fuel : nat) (c : CXLController D) (p : InterleavePolicy) :
  interleave_ok c p ->
  exists i space, share_of (turn p 0) 0 O (ip_percentage p) = Some i /\ serves c (ip_percentage p) space i
  /\ interleave_next (S fuel) c p = if space then Some (Z.of_nat i, turned p) else interleave_next fuel c (turned p).
Proof.
  intros (Ha & Hn & Hf & Hl & Hx). pose proof (Z.mod_pos_bound (ip_last_remote p + 1 + 0) _ Hn) as Hb.
  destruct (share_of_found (ip_percentage p) (turn p 0) 0 O Hf) as (i & s & Hs & Hi & Hpos); [unfold turn; lia|].
  destruct (Hx i (lookup_lt_Some _ _ _ Hi)) as [x Hc].
  exists i, (expander_has_space (cc_page_type c) x). split; [done|]. split; [by exists s, x|].
  cbn [interleave_next]. rewrite (proj2 (Z.eqb_neq _ _)) by lia.
  rewrite Z.rem_mod_nonneg by lia. unfold turned. unfold turn in Hs |- *. rewrite Z.add_0_r in Hs |- *.
  rewrite Hs; cbn [mbind option_bind]. cbn [Nat.add]. rewrite Hc; cbn [mbind option_bind]. done.
Qed.

Lemma interleave_finds (fuel : nat) (c : CXLController D) (p : InterleavePolicy) (d : Z) (i : nat) :
  interleave_ok c p -> 0 <= d < Z.of_nat fuel -> share_of (turn p d) 0 O (ip_percentage p) = Some i ->
  serves c (ip_percentage p) true i ->
  exists j p', interleave_next fuel c p = Some (Z.of_nat j, p') /\ serves c (ip_percentage p) true j /\ interleave_ok c p'.
Proof.
  revert p d; induction fuel as [|fuel IH]; intros p d Hok Hd Hs Hi; [lia|].
  destruct (interleave_turn fuel c p Hok) as (j & space & Hj & Hv & ->).
  destruct space; [exists j, (turned p); auto using turned_ok|].
  destruct (decide (d = 0)) as [->|Hd0].
  - rewrite Hs in Hj. simplify_eq. destruct Hi as (s & x & ? & ? & ? & E1), Hv as (s' & x' & ? & ? & ? & E2). simplify_eq. congruence.
  - apply (IH (turned p) (d - 1)); [by apply turned_ok|lia| |done].
    rewrite turn_turned by apply Hok. replace (d - 1 + 1) with d by lia. done.
Qed.

Lemma interleave_turns_forever (fuel : nat) (c : CXLController D) (p : InterleavePolicy) :
  interleave_ok c p -> (forall i, ~ serves c (ip_percentage p) true i) -> interleave_next fuel c p = None.
Proof.
  revert p; induction fuel as [|fuel IH]; intros p Hok Hno; [done|].
  destruct (interleave_turn fuel c p Hok) as (j & space & Hj & Hv & ->).
  destruct space; [by destruct (Hno j)|]. apply IH; [by apply turned_ok|done].
Qed.

End InterleaveProofs.

(** Two expanders with shares 6 and 4; the controller has no memory of its own. *)
Definition full_controller : CXLController spec_float :=
  controller_insert_end_point (expander_new 25 25 100 150 1 0)
    (controller_insert_end_point (expander_new 25 25 100 100 0 1024) (controller_new 0 PAGE (d_of_Z 110))).


(** ** A page that was walked is in its TLB *)
Definition hp_ok (p : HugePagePolicy) : Prop := tlb_ok (hp_tlb_4k p) /\ tlb_ok (hp_tlb_2m p) /\ tlb_ok (hp_tlb_1g p).

Lemma hp_ok_tlb (pt : page_type) (p : HugePagePolicy) : hp_ok p -> tlb_ok (tlb_of pt p).
Proof. intros (? & ? & ?). by destruct pt. Qed.

Lemma hp_ok_set (pt : page_type) (t : TLBCache) (p : HugePagePolicy) : hp_ok p -> tlb_ok t -> hp_ok (set_tlb pt t p).
Proof. intros (? & ? & ?) ?. by destruct pt. Qed.

Lemma tlb_of_set (pt : page_type) (t : TLBCache) (p : HugePagePolicy) : tlb_of pt (set_tlb pt t p) = t.
Proof. by destruct pt. Qed.

Lemma tlb_of_stats (pt : page_type) (e : CXLHugePageEvent) (p : HugePagePolicy) : tlb_of pt (set_stats e p) = tlb_of pt p.
Proof. by destruct pt. Qed.

Lemma tlb_of_remember (pt : page_type) (v a : Z) (p : HugePagePolicy) : tlb_of pt (remember_translation v a p) = tlb_of pt p.
Proof. by destruct pt. Qed.

Lemma rc_find_cons (k v : Z) (r : recency) : rc_find k ((k, v) :: r) = Some v.
Proof. unfold rc_find. cbn [list_to_map foldr]. apply lookup_insert_eq. Qed.

Lemma tlb_insert_find (k : Z) (t : TLBCache) :
  tlb_ok t -> exists t', tlb_insert k t = Some t' /\ tlb_ok t' /\ rc_find k (tlb_abs t') = Some 0.
Proof.
  intros Hok. destruct (tlb_insert_refines k t Hok) as (t' & -> & Hok' & _ & Ha). exists t'. split_and!; [done..|].
  destruct Hok as (_ & Hc & _). rewrite Ha. unfold rc_add. destruct (Z.to_nat (tl_capacity t)) eqn:E; [lia|]. apply rc_find_cons.
Qed.

Lemma tlb_lookup_find (k : Z) (t : TLBCache) :
  tlb_ok t -> exists hit t', tlb_lookup k t = Some (hit, t') /\ tlb_ok t'
    /\ hit = bool_decide (is_Some (rc_find k (tlb_abs t))) /\ (hit = true -> is_Some (rc_find k (tlb_abs t'))).
Proof.
  intros Hok. destruct (tlb_lookup_refines k t Hok) as (t' & -> & Hok' & _ & Ha). do 2 eexists. split_and!; [done..|].
  intros [v Hv]%bool_decide_eq_true. rewrite Ha. unfold rc_use. rewrite Hv, rc_find_cons. by eexists.
Qed.

Section WalkProofs.
Context {D : Type} `{Double D}.

Definition in_tlb (pt : page_type) (v : Z) (p : HugePagePolicy) : Prop := is_Some (rc_find (page_of pt v) (tlb_abs (tlb_of pt p))).

(** A walk always ends, keeps the TLBs well formed and leaves the page in its TLB. *)
Lemma walk_fills (v a : Z) (remote : bool) (pt : page_type) (p : HugePagePolicy) :
  hp_ok p -> exists cost p', huge_page_walk v a remote pt p = Some (cost, p') /\ hp_ok p' /\ in_tlb pt v p'
    /\ (in_tlb pt v p -> cost = 0 /\ hp_va_pa_cache p' = hp_va_pa_cache p).
Proof.
  intros Hp. unfold huge_page_walk, in_tlb.
  destruct (tlb_lookup_find (page_of pt v) _ (hp_ok_tlb pt p Hp)) as (hit & t & -> & Ht & Eh & Hf). cbn [mbind option_bind].
  destruct hit.
  { do 2 eexists. split; [reflexivity|]. rewrite tlb_of_stats, tlb_of_set. split_and!; [by apply hp_ok_set|by apply Hf|by destruct pt]. }
  symmetry in Eh. apply bool_decide_eq_false in Eh.
  assert (Hp1 : hp_ok (set_stats (count_tlb pt false (hp_stats p)) (set_tlb pt t p))) by (by apply (hp_ok_set pt t p)).
  destruct (hp_va_pa_cache (set_stats _ _) !! v); rewrite ?tlb_of_remember, tlb_of_stats, tlb_of_set;
    destruct (tlb_insert_find (page_of pt v) t Ht) as (t' & -> & Ht' & Hin); cbn [mbind option_bind];
    do 2 eexists; (split; [reflexivity|]); rewrite tlb_of_set; (split; [by apply hp_ok_set|]); (split; [by eexists|done]).
Qed.

(** [HugePagePolicy::check_page_table_walk] always answers, and the walk that follows, of any
    address in the same page, costs nothing and learns no new translation. *)
Theorem walk_then_free (v a v' a' : Z) (remote remote' : bool) (pt : page_type) (p : HugePagePolicy) (Hp : hp_ok p)
    (Hv : page_of pt v' = page_of pt v) :
  exists cost p' p'', huge_page_walk v a remote pt p = Some (cost, p') /\ hp_ok p'
    /\ huge_page_walk v' a' remote' pt p' = Some (0, p'') /\ hp_ok p'' /\ hp_va_pa_cache p'' = hp_va_pa_cache p'.
Proof.
  destruct (walk_fills v a remote pt p Hp) as (cost & p' & E1 & Hp' & Hin & _).
  destruct (walk_fills v' a' remote' pt p' Hp') as (cost' & p'' & E2 & Hp'' & _ & Hz).
  destruct Hz as [-> Hc]; [unfold in_tlb in *; by rewrite Hv|]. by exists cost, p', p''.
Qed.
End WalkProofs.

Lemma walk_then_free_witness :
  exists cost p' p'', @huge_page_walk spec_float binary64 8192 4096 true HUGEPAGE_2M (huge_page_new 100 300) = Some (cost, p') /\ hp_ok p'
    /\ @huge_page_walk spec_float binary64 9000 4096 false HUGEPAGE_2M p' = Some (0, p'') /\ hp_ok p'' /\ hp_va_pa_cache p'' = hp_va_pa_cache p'.
Proof. apply walk_then_free; [split_and!; apply tlb_new_ok; lia|reflexivity]. Defined.

(** ** Frequency-based invalidation *)

(** [perform_back_invalidation] asks for the list a second time, after [compute_once] has asked
    once.  When the cleanup interval has passed, the first time clears the counts: [compute_once]
    says there is something to invalidate and the list that is used is empty. *)
Theorem frequency_cleanup_loses {D} `{Double D} (order : gmap Z LRUCacheEntry -> list (Z * LRUCacheEntry)) (c : CXLController D)
    (p : FrequencyBasedInvalidationPolicy) (addr : Z)
    (Ha : addr ∈ (order (lc_cache (cc_lru_cache c))).*1) (Hf : frequency_should_invalidate addr 0 p = true)
    (Ht : fi_cleanup_interval p < cc_last_timestamp c ⊟ fi_last_cleanup p) :
  exists p', frequency_once order c p = Some (1, p', c) /\ (frequency_list order c p').1 = [].
Proof.
  unfold frequency_once, frequency_list at 1. rewrite (proj2 (Z.ltb_lt _ _) Ht).
  destruct (filter _ _) as [|x l] eqn:E.
  - exfalso. apply (not_elem_of_nil addr). rewrite <- E. by apply list_elem_of_filter.
  - eexists. split; [reflexivity|]. unfold frequency_list; cbn [fst].
    induction (order _).*1 as [|k ks IH] in |- *; [done|]. rewrite filter_cons_False; [done|].
    unfold frequency_should_invalidate; cbn. by rewrite lookup_empty.
Qed.

Definition cached_controller : CXLController spec_float :=
  let c := controller_new 1024 PAGE (d_of_Z 110) in
  cc_set_root (switch_set_last_timestamp 20000000 (cc_root c)) (from_option (fun l => cc_set_lru l c) c (lru_put 64 64 5 (cc_lru_cache c))).

Lemma frequency_cleanup_loses_witness :
  exists p', frequency_once map_to_list cached_controller (frequency_should_cache 64 5 (frequency_new 100 10000000)).2 = Some (1, p', cached_controller)
    /\ (frequency_list map_to_list cached_controller p').1 = [].
Proof.
  apply (frequency_cleanup_loses map_to_list cached_controller _ 64); [|vm_compute; reflexivity..].
  apply (bool_decide_unpack _). vm_compute. exact I.
Defined.
