(* ===== verification/Migration.v ===== *)
(** * Migration policies ([include/policy.h])

    Each policy decides from the controller's record, and some from the endpoints, whether there is
    something to migrate.  [get_migration_list] is not virtual, so a policy's own list serves only
    its own [compute_once].  The order of a list that comes from a hash map is not fixed by the
    language; the lists here are in the order of [map_to_list], and the results do not depend on it.
    [None] is a pointer that is not to an endpoint. *)
From Stdlib Require Import QArith SpecFloat.
From S2P Require Import Prelude Double LruCache Expander Switch Topology Controller Policy.
#[local] Open Scope Z_scope.

Definition found {A} (l : list A) : Z := match l with [] => 0 | _ => 1 end.

Definition count_of (a : Z) (m : gmap Z Z) : Z := default 0 (m !! a).

(** The pages of the policies that use the controller's page size. *)
Definition with_size (pt : page_type) (addrs : list Z) : list (Z * Z) := (fun a => (a, page_bytes pt)) <$> addrs.

Section Migration.
Context {D : Type} `{Double D}.
#[local] Open Scope double_scope.

Definition local_addresses (c : CXLController D) : list Z := (fun e => oi_address e.2) <$> cc_occupation c.

(** The directly attached expanders, then those of the whole tree, which has them again. *)
Definition all_expanders (c : CXLController D) : option (list (CXLMemExpander D)) :=
  match cc_root c with
  | mkSwitch ps _ _ _ _ _ => mapM (fun p => ep_base <$> cc_endpoints c !! p) (ps ++ pointers (cc_root c))
  end.

(** ** [HeatAwareMigrationPolicy] *)
Record HeatAwareMigrationPolicy := mkHeat {
  ha_access_count : gmap Z Z;
  ha_hot_threshold : Z
}.

Definition heat_list (c : CXLController D) (p : HeatAwareMigrationPolicy) : list (Z * Z) :=
  with_size (cc_page_type c) (filter (fun e => ha_hot_threshold p < e.2) (map_to_list (ha_access_count p))).*1.

Definition heat_once (c : CXLController D) (p : HeatAwareMigrationPolicy) : option (Z * HeatAwareMigrationPolicy) :=
  let p' := mkHeat (foldl (fun m a => count_access a m) (ha_access_count p) (local_addresses c)) (ha_hot_threshold p) in
  Some (found (heat_list c p'), p').

(** ** [FrequencyBasedMigrationPolicy] *)
Record FrequencyBasedMigrationPolicy := mkFrequencyMigration {
  fm_access_count : gmap Z Z;
  fm_hot_threshold : Z;
  fm_cold_threshold : Z;
  fm_last_cleanup : Z;
  fm_cleanup_interval : Z
}.

(** Reading [access_count[addr]] makes an entry. *)
Definition touch_count (a : Z) (m : gmap Z Z) : gmap Z Z := <[a := count_of a m]> m.

Definition frequency_migration_list (c : CXLController D) (p : FrequencyBasedMigrationPolicy) : option (list (Z * Z) * FrequencyBasedMigrationPolicy) :=
  xs ← all_expanders c;
  let far := xs ≫= (fun x => oi_address <$> tk_occupation (ex_tracking x)) in
  let near := local_addresses c in
  let m := fm_access_count p in
  Some (with_size (cc_page_type c)
          (filter (fun a => count_of a m < fm_cold_threshold p) near ++ filter (fun a => fm_hot_threshold p < count_of a m) far),
        mkFrequencyMigration (foldl (fun m a => touch_count a m) m (near ++ far)) (fm_hot_threshold p) (fm_cold_threshold p)
          (fm_last_cleanup p) (fm_cleanup_interval p)).

Definition frequency_migration_once (c : CXLController D) (p : FrequencyBasedMigrationPolicy) : option (Z * FrequencyBasedMigrationPolicy) :=
  let counts := foldl (fun m a => count_access a m) (fm_access_count p) (local_addresses c) in
  let now := cc_last_timestamp c in
  let stale := fm_cleanup_interval p <? now ⊟ fm_last_cleanup p in
  '(l, p') ← frequency_migration_list c (mkFrequencyMigration (if stale then ∅ else counts) (fm_hot_threshold p) (fm_cold_threshold p)
               (if stale then now else fm_last_cleanup p) (fm_cleanup_interval p));
  Some (found l, p').

(** ** [LoadBalancingMigrationPolicy] *)
Record LoadBalancingMigrationPolicy := mkLoadBalancing {
  lb_imbalance_threshold : D;
  lb_migration_interval : Z;
  lb_last_migration : Z
}.

Definition load_of (x : CXLMemExpander D) : Z := xe_load (ex_counter x) ⊞ xe_store (ex_counter x).

Definition highest (l : list Z) : Z := foldr Z.max 0 l.

Definition lowest (l : list Z) : Z := foldr Z.min (2 ^ 64 - 1) l.

Definition load_balancing_once (c : CXLController D) (p : LoadBalancingMigrationPolicy) : option (Z * LoadBalancingMigrationPolicy) :=
  let now := cc_last_timestamp c in
  if now ⊟ lb_last_migration p <? lb_migration_interval p then Some (0, p)
  else
    xs ← all_expanders c;
    let loads := load_of <$> xs in
    match loads with
    | [] => Some (0, p)
    | _ =>
        let hi := highest loads in
        if (0 <? hi) && (lb_imbalance_threshold p ⋖ d_of_Z (hi ⊟ lowest loads) ⊘ d_of_Z hi)
        then Some (1, mkLoadBalancing (lb_imbalance_threshold p) (lb_migration_interval p) now) else Some (0, p)
    end.

(** [std::max_element]: the first expander with the highest load. *)
Fixpoint busiest (best : CXLMemExpander D) (xs : list (CXLMemExpander D)) : CXLMemExpander D :=
  match xs with [] => best | x :: xs' => busiest (if load_of best <? load_of x then x else best) xs' end.

(** Up to five entries of the busiest expander; nothing calls it. *)
Definition load_balancing_list (c : CXLController D) : option (list (Z * Z)) :=
  xs ← all_expanders c;
  Some match xs with
       | [] => []
       | x :: xs' => with_size (cc_page_type c) (oi_address <$> take 5 (tk_occupation (ex_tracking (busiest x xs'))))
       end.

(** ** [LocalityBasedMigrationPolicy] *)
Record LocalityBasedMigrationPolicy := mkLocality {
  lo_page_access_pattern : gmap Z (list Z);
  lo_pattern_threshold : Z;
  lo_page_size : Z
}.

(** [addr & ~(page_size - 1)]. *)
Definition locality_page (size addr : Z) : Z := Z.ldiff addr (size ⊟ 1).

(** The last 100 accesses of a page are kept. *)
Definition locality_record (size : Z) (m : gmap Z (list Z)) (addr : Z) : gmap Z (list Z) :=
  let k := locality_page size addr in
  let l := default [] (m !! k) ++ [addr] in
  <[k := if (100 <? Z.of_nat (length l)) then tl l else l]> m.

(** Some address occurs [threshold] times; the count is compared when it grows. *)
Definition has_locality_pattern (threshold : Z) (l : list Z) : bool :=
  existsb (fun a => threshold <=? Z.of_nat (length (filter (Z.eq a) l))) l.

Definition locality_list (c : CXLController D) (p : LocalityBasedMigrationPolicy) : list (Z * Z) :=
  (fun k => (k, lo_page_size p)) <$>
    (filter (fun e => has_locality_pattern (lo_pattern_threshold p) e.2 = true
                      /\ e.1 ∉ (locality_page (lo_page_size p) <$> local_addresses c)) (map_to_list (lo_page_access_pattern p))).*1.

Definition locality_once (c : CXLController D) (p : LocalityBasedMigrationPolicy) : option (Z * LocalityBasedMigrationPolicy) :=
  let p' := mkLocality (foldl (locality_record (lo_page_size p)) (lo_page_access_pattern p) (local_addresses c)) (lo_pattern_threshold p) (lo_page_size p) in
  Some (found (locality_list c p'), p').

(** ** [LifetimeBasedMigrationPolicy] *)
Definition LifetimeBasedMigrationPolicy := Z.          (* lifetime_threshold *)

Definition lifetime_list (c : CXLController D) (threshold : LifetimeBasedMigrationPolicy) : list (Z * Z) :=
  with_size (cc_page_type c) ((fun e => oi_address e.2) <$> filter (fun e => threshold < cc_last_timestamp c ⊟ e.1) (cc_occupation c)).

Definition lifetime_once (c : CXLController D) (p : LifetimeBasedMigrationPolicy) : option (Z * LifetimeBasedMigrationPolicy) :=
  Some (found (lifetime_list c p), p).

#[global] Instance heat_policy : MigrationPolicy D HeatAwareMigrationPolicy := heat_once.

#[global] Instance frequency_migration_policy : MigrationPolicy D FrequencyBasedMigrationPolicy := frequency_migration_once.

#[global] Instance load_balancing_policy : MigrationPolicy D LoadBalancingMigrationPolicy := load_balancing_once.

#[global] Instance locality_policy : MigrationPolicy D LocalityBasedMigrationPolicy := locality_once.

#[global] Instance lifetime_policy : MigrationPolicy D LifetimeBasedMigrationPolicy := lifetime_once.

(** ** [HybridMigrationPolicy]: the members run in turn and their results are or-ed. *)
Fixpoint hybrid_once {P} `{!MigrationPolicy D P} (c : CXLController D) (ps : list P) : option (Z * list P) :=
  match ps with
  | [] => Some (0, [])
  | p :: ps' => '(r, p1) ← migration_once c p; '(r2, ps2) ← hybrid_once c ps'; Some (Z.lor r r2, p1 :: ps2)
  end.

#[global] Instance hybrid_policy {P} `{!MigrationPolicy D P} : MigrationPolicy D (list P) := hybrid_once.

(** A member may be of either of two classes. *)
#[global] Instance either_policy {P Q} `{!MigrationPolicy D P} `{!MigrationPolicy D Q} : MigrationPolicy D (P + Q) :=
  fun c pq => match pq with
  | inl p => '(r, p') ← migration_once c p; Some (r, inl p')
  | inr q => '(r, q') ← migration_once c q; Some (r, inr q')
  end.
End Migration.
