(* ===== verification/Access.v ===== *)
(** * Insertion of accesses ([CXLController::insert(timestamp, tid, phys_addr, virt_addr, index)] of [src/cxlcontroller.cpp])

    A sample says that the number of accesses has grown to [index]; each of the new accesses is
    looked up in the controller's cache, routed by the HDM decoder or by the allocation policy,
    charged a page-table walk, recorded and counted.  After a thousand accesses the migration and
    the caching policy run.  The policies are known only by their classes ([Policy]); what the
    insertion needs from them is a class of laws, which the NUMA, paging and caching policies
    satisfy and the interleaving policy does not, since it may not return.  [insert_counts]
    shows that with lawful policies the insertion ends and counts every access exactly once. *)
From Stdlib Require Import QArith SpecFloat.
From S2P Require Import Prelude Double HdmDecoder LruCache Expander Switch Topology LbrWindow Controller Policy Migration.
#[local] Open Scope Z_scope.

(** The four pointers of the controller; the allocation policy is never null. *)
Record Policies (A G K M : Type) := mkPolicies {
  pl_allocation : A;
  pl_paging : option G;
  pl_caching : option K;
  pl_migration : option M
}.
Arguments mkPolicies {A G K M}.
Arguments pl_allocation {A G K M}.
Arguments pl_paging {A G K M}.
Arguments pl_caching {A G K M}.
Arguments pl_migration {A G K M}.

Definition inc_local (k : CXLCounter) : CXLCounter := mkCXLCounter (ct_local k ⊞ 1) (ct_remote k) (ct_hitm k) (ct_backinv k).

Definition inc_remote (k : CXLCounter) : CXLCounter := mkCXLCounter (ct_local k) (ct_remote k ⊞ 1) (ct_hitm k) (ct_backinv k).

Definition inc_hitm (k : CXLCounter) : CXLCounter := mkCXLCounter (ct_local k) (ct_remote k) (ct_hitm k ⊞ 1) (ct_backinv k).

(** [t_info.llcm_type.push(k)]. *)
Definition push_type (k : Z) (t : thread_info) : thread_info := mkThreadInfo (ti_rob t) (ti_llcm_type t ++ [k]) (ti_llcm_type_rob t).

Section Access.
Context {D A G K M : Type} `{Double D} `{!AllocationPolicy D A} `{!PagingPolicy G} `{!CachingPolicy D K} `{!MigrationPolicy D M}.
#[local] Open Scope double_scope.

Notation policies := (Policies A G K M).
Notation state := (CXLController D * policies)%type.

(** One access is counted, and its type queued for the thread. *)
Definition account (inc : CXLCounter -> CXLCounter) (tid type : Z) (c : CXLController D) : CXLController D :=
  let t := push_type type (default thread_new (cc_thread_map c !! tid)) in
  cc_set_threads (cc_ring_buffer c) (<[tid := t]> (cc_thread_map c)) (cc_set_counter (inc (cc_counter c)) c).

(** The walk, charged to [latency_lat]. *)
Definition charge_walk (virt_addr phys_addr : Z) (is_remote : bool) (s : state) : option (Z * state) :=
  let '(c, pol) := s in
  match pl_paging pol with
  | None => Some (0, s)
  | Some g =>
      '(ptw, g') ← check_page_table_walk virt_addr phys_addr is_remote (cc_page_type c) g;
      Some (ptw, (if 0 <? ptw then cc_set_lat (cc_latency_lat c ⊕ d_of_Z ptw) (cc_bandwidth_lat c) c else c,
                  mkPolicies (pl_allocation pol) (Some g') (pl_caching pol) (pl_migration pol)))
  end.

Definition update_cache (addr timestamp : Z) (c : CXLController D) : option (CXLController D) :=
  l ← lru_put addr addr timestamp (cc_lru_cache c); Some (cc_set_lru l c).

(** [should_cache] and the update it allows. *)
Definition cache_if_allowed (phys_addr now : Z) (k : K) (s : state) : option state :=
  let '(c, pol) := s in
  let '(yes, k') := should_cache phys_addr now k in
  let pol' := mkPolicies (pl_allocation pol) (pl_paging pol) (Some k') (pl_migration pol) in
  if (yes : bool) then c' ← update_cache phys_addr now c; Some (c', pol') else Some (c, pol').

(** [occupation_info{phys_addr, 1, t}]: the fields are the timestamp, the address and the count. *)
Definition record_local (phys_addr now t : Z) (c : CXLController D) : CXLController D :=
  cc_set_occupation (occ_emplace now (mkOccupation phys_addr 1 t) (cc_occupation c)) c.

(** [p->insert(..., p->id)]. *)
Definition insert_at (p : nat) (t tid phys_addr : Z) (c : CXLController D) : option (CXLController D) :=
  e ← cc_endpoints c !! p;
  let '(_, e') := ep_insert t tid phys_addr (ep_id e) e in
  Some (cc_set_endpoints (<[p := e']> (cc_endpoints c)) c).

(** The endpoint a decoded access goes to, if there is one. *)
Definition route_decoded (r : DecodeResult) (now t tid phys_addr : Z) (c : CXLController D) : option (CXLController D) :=
  if dr_is_remote r then
    match get_remote_expander (dr_target_id r) (cc_topo c) with Some p => insert_at p t tid phys_addr c | None => Some c end
  else
    match tp_device_map (cc_topo c) !! to_int (dr_target_id r) with
    | Some p => insert_at p t tid phys_addr c
    | None => Some (record_local phys_addr now t c)
    end.

(** The path of the distributed mode. *)
Definition access_decoded (d : HDMDecoder) (now tid phys_addr virt_addr : Z) (s : state) : option state :=
  r ← decode d phys_addr;
  '(ptw, (c, pol)) ← charge_walk virt_addr phys_addr (dr_is_remote r) s;
  c1 ← route_decoded r now (now ⊞ ptw) tid phys_addr c;
  let c2 := if dr_is_remote r then account inc_remote tid 1 c1 else account inc_local tid 0 c1 in
  match pl_caching pol with Some k => cache_if_allowed phys_addr now k (c2, pol) | None => Some (c2, pol) end.

(** [res &= insert(...)] over the switches below the controller, then over its expanders. *)
Definition and_result (res : bool) (ret : Z) : bool := res && Z.odd ret.

Fixpoint insert_switches (t tid phys_addr index : Z) (ss : list CXLSwitch) (res : bool) (es : list (endpoint D)) :
    option (bool * list CXLSwitch * list (endpoint D)) :=
  match ss with
  | [] => Some (res, [], es)
  | s :: ss' =>
      '(ret, s', es1) ← sw_insert t tid phys_addr index s es;
      '(res2, ss2, es2) ← insert_switches t tid phys_addr index ss' (and_result res ret) es1;
      Some (res2, s' :: ss2, es2)
  end.

Fixpoint insert_every (t tid phys_addr index : Z) (ps : list nat) (res : bool) (es : list (endpoint D)) : option (bool * list (endpoint D)) :=
  match ps with
  | [] => Some (res, es)
  | p :: ps' =>
      e ← es !! p;
      let '(ret, e') := ep_insert t tid phys_addr index e in
      insert_every t tid phys_addr index ps' (and_result res ret) (<[p := e']> es)
  end.

Definition insert_below (t tid phys_addr index : Z) (res : bool) (c : CXLController D) : option (bool * CXLController D) :=
  match cc_root c with
  | mkSwitch ps ss k id ep lt =>
      '(res1, ss1, es1) ← insert_switches t tid phys_addr index ss res (cc_endpoints c);
      '(res2, es2) ← insert_every t tid phys_addr index ps res1 es1;
      Some (res2, cc_set_root (mkSwitch ps ss1 k id ep lt) (cc_set_endpoints es2 c))
  end.

(** The path without a decoder.  A remote access asks the caching policy without a test for null. *)
Definition access_allocated (now tid phys_addr virt_addr : Z) (res : bool) (s : state) : option (bool * state) :=
  let '(c0, pol0) := s in
  '(numa, a') ← allocate c0 (pl_allocation pol0);
  let pol1 := mkPolicies a' (pl_paging pol0) (pl_caching pol0) (pl_migration pol0) in
  '(ptw, (c, pol)) ← charge_walk virt_addr phys_addr (negb (numa =? -1)) (c0, pol1);
  let t := now ⊞ ptw in
  if numa =? -1 then
    c2 ← update_cache phys_addr now (account inc_local tid 0 (record_local phys_addr now t c));
    Some (res, (c2, pol))
  else
    '(res', c2) ← insert_below t tid phys_addr numa res (cc_set_counter (inc_remote (cc_counter c)) c);
    k ← pl_caching pol;
    s' ← cache_if_allowed phys_addr now k (account (fun x => x) tid 1 c2, pol);
    Some (res', s').

Definition access_one (now tid phys_addr virt_addr : Z) (res : bool) (s : state) : option (bool * state) :=
  let '(c, pol) := s in
  '(cached, l) ← lru_get phys_addr now (cc_lru_cache c);
  let c1 := cc_set_lru l c in
  match cached with
  | Some _ => Some (res, (account inc_hitm tid 0 c1, pol))
  | None =>
      match cc_hdm_decoder c1 with
      | Some d => s' ← access_decoded d now tid phys_addr virt_addr (c1, pol); Some (res, s')
      | None => access_allocated now tid phys_addr virt_addr res (c1, pol)
      end
  end.

Fixpoint access_loop (n : nat) (now time_step tid phys_addr virt_addr : Z) (res : bool) (s : state) : option (bool * state) :=
  match n with
  | O => Some (res, s)
  | S n' =>
      let now' := now ⊞ time_step in
      '(res', s') ← access_one now' tid phys_addr virt_addr res s;
      access_loop n' now' time_step tid phys_addr virt_addr res' s'
  end.

(** [MigrationPolicy::get_migration_list] is not virtual: [perform_migration] calls the one of the
    base class, whatever the policy is. *)
Definition base_migration_list (_ : CXLController D) : list (Z * Z) := [].

Definition perform_migration (c : CXLController D) : CXLController D := migrate_all (base_migration_list c) c.

Definition run_migration (s : state) : option state :=
  let '(c, pol) := s in
  match pl_migration pol with
  | None => Some s
  | Some m =>
      '(r, m') ← migration_once c m;
      Some (if 0 <? r then perform_migration c else c, mkPolicies (pl_allocation pol) (pl_paging pol) (pl_caching pol) (Some m'))
  end.

(** [compute_once], then [perform_back_invalidation] with a list asked for again. *)
Definition run_caching (s : state) : option state :=
  let '(c, pol) := s in
  match pl_caching pol with
  | None => Some s
  | Some k =>
      '(r, k1, c1) ← caching_once c k;
      let with_k k' := mkPolicies (pl_allocation pol) (pl_paging pol) (Some k') (pl_migration pol) in
      if 0 <? r then
        let '(l, k2) := get_invalidation_list c1 k1 in
        c2 ← back_invalidate_all l c1; Some (c2, with_k k2)
      else Some (c1, with_k k1)
  end.

Definition INT_MAX : Z := 2 ^ 31 - 1.

(** The counter of requests is a static variable: its overflow is undefined. *)
Definition controller_insert (timestamp tid phys_addr virt_addr index : Z) (s : state) : option (bool * state) :=
  let '(c, pol) := s in
  let c0 := cc_set_threads (cc_ring_buffer c) (<[tid := default thread_new (cc_thread_map c !! tid)]> (cc_thread_map c)) c in
  let last_index := cc_last_index c in
  let time_step := if last_index <? index then (timestamp ⊟ cc_last_timestamp c) / (index - last_index) else 0 in
  '(res, (c1, pol1)) ← access_loop (Z.to_nat (index - last_index)) (cc_last_timestamp c) time_step tid phys_addr virt_addr true (c0, pol);
  let requests := cc_request_counter c1 + (index - last_index) in
  if INT_MAX <? requests then None
  else
    '(c2, pol2) ← (if 1000 <=? requests then (s ← run_migration (c1, pol1); run_caching s) else Some (c1, pol1));
    let c3 := cc_set_progress (if 0 <? index then index else cc_last_index c2) (if 1000 <=? requests then 0 else requests) c2 in
    Some (res, (cc_set_root (switch_set_last_timestamp timestamp (cc_root c3)) c3, pol2)).
End Access.

(** ** What the insertion needs from the policies *)
Definition cur_valid {D} (t : Topology D) : Prop := valid_pointers (tp_endpoints t) (tp_cur_expanders t).

Class AllocationLaws (D A : Type) `{!AllocationPolicy D A} := {
  allocation_ok : nat -> A -> Prop;                  (* for a number of expanders *)
  allocation_answers (c : CXLController D) (a : A) :
    cur_valid (cc_topo c) -> allocation_ok (length (tp_cur_expanders (cc_topo c))) a ->
    exists i a', allocate c a = Some (i, a') /\ allocation_ok (length (tp_cur_expanders (cc_topo c))) a'
}.

Class PagingLaws (G : Type) `{!PagingPolicy G} := {
  paging_ok : G -> Prop;
  paging_answers (v p : Z) (remote : bool) (pt : page_type) (g : G) :
    paging_ok g -> exists ptw g', check_page_table_walk v p remote pt g = Some (ptw, g') /\ paging_ok g'
}.

Class CachingLaws (D K : Type) `{!CachingPolicy D K} := {
  caching_once_answers (c : CXLController D) (k : K) :
    lru_ok (cc_lru_cache c) -> exists r k' l, caching_once c k = Some (r, k', cc_set_lru l c) /\ lru_ok l
}.

(** Every pointer of the topology is to an endpoint. *)
Definition tree_ok {D} (t : Topology D) : Prop :=
  valid_pointers (tp_endpoints t) (pointers (tp_root t)) /\ cur_valid t /\ valid_pointers (tp_endpoints t) (tp_remote_expanders t)
  /\ map_Forall (fun _ p => (p < length (tp_endpoints t))%nat) (tp_device_map t).

Class MigrationLaws (D M : Type) `{!MigrationPolicy D M} := {
  migration_answers (c : CXLController D) (m : M) : tree_ok (cc_topo c) -> exists r m', migration_once c m = Some (r, m')
}.

(** ** The tree keeps its shape *)
Section Shape.
Context {D : Type} `{Double D}.

Lemma insert_expanders_total (t tid a i : Z) (ps : list nat) (es : list (endpoint D)) :
  valid_pointers es ps -> exists ret es', insert_expanders t tid a i ps es = Some (ret, es') /\ length es' = length es.
Proof.
  revert es. induction ps as [|p ps IH]; intros es Hv; cbn [insert_expanders]; [by exists 0, es|].
  apply Forall_cons in Hv as [Hp Hv]. destruct (lookup_lt_is_Some_2 es p Hp) as [e ->]. cbn [mbind option_bind].
  destruct (ep_insert t tid a i e) as [ret e']. destruct ((ret =? 1) || (ret =? 2)).
  - exists ret, (<[p := e']> es). by rewrite length_insert.
  - destruct (IH (<[p := e']> es)) as (r & es' & -> & Hl); [unfold valid_pointers in *; by rewrite length_insert|].
    exists r, es'. by rewrite Hl, length_insert.
Qed.

Lemma sw_insert_pointers (t tid a i : Z) (sw sw' : CXLSwitch) (es es' : list (endpoint D)) (ret : Z) :
  sw_insert t tid a i sw es = Some (ret, sw', es') -> pointers sw' = pointers sw.
Proof.
  revert sw' es es' ret. induction sw as [ps ss c id ep lt IH] using switch_nested_ind. intros sw' es es' ret. cbn [sw_insert].
  destruct (insert_expanders t tid a i ps es) as [[r es1]|]; cbn [mbind option_bind]; [|done].
  destruct (r =? 1); [intros [= _ <- _]; by rewrite !pointers_eq|]. destruct (r =? 2); [intros [= _ <- _]; by rewrite !pointers_eq|].
  match goal with |- context [?f ss es1] => set (go := f) end.
  assert (Hgo : forall es1 r2 ss2 es2, go ss es1 = Some (r2, ss2, es2) -> pointers <$> ss2 = pointers <$> ss).
  { clear r es1. induction IH as [|s ss Hs _ IHss]; intros es1 r2 ss2 es2; cbn [go]; [by intros [= _ <- _]|].
    destruct (sw_insert t tid a i s es1) as [[[r s'] es3]|] eqn:E; cbn [mbind option_bind]; [|done]. apply Hs in E.
    destruct ((r =? 1) || (r =? 2)); [intros [= _ <- _]; cbn; by rewrite E|]. fold go.
    destruct (go ss es3) as [[[r3 ss3] es4]|] eqn:E2; cbn [mbind option_bind]; [|done]. intros [= _ <- _]. cbn. by rewrite E, (IHss _ _ _ _ E2). }
  destruct (go ss es1) as [[[r2 ss2] es2]|] eqn:E; cbn [mbind option_bind]; [|done]. apply Hgo in E.
  destruct (r2 =? 1), (r2 =? 2); intros [= _ <- _]; rewrite !pointers_eq; by rewrite E.
Qed.

Lemma sw_insert_total (t tid a i : Z) (sw : CXLSwitch) (es : list (endpoint D)) :
  valid_pointers es (pointers sw) ->
  exists ret sw' es', sw_insert t tid a i sw es = Some (ret, sw', es') /\ pointers sw' = pointers sw /\ length es' = length es.
Proof.
  intros Hv. destruct (insert_expanders_total t tid a i _ _ Hv) as (ret & es' & E & Hl). rewrite <- sw_insert_flat in E. unfold outcome in E.
  destruct (sw_insert t tid a i sw es) as [[[r sw'] es2]|] eqn:E2; [|done]. cbn in E. simplify_eq.
  exists ret, sw', es'. split_and!; [done|by eapply sw_insert_pointers|done].
Qed.

Lemma insert_switches_total (t tid a i : Z) (ss : list CXLSwitch) (res : bool) (es : list (endpoint D)) :
  valid_pointers es (concat (pointers <$> ss)) ->
  exists res' ss' es', insert_switches t tid a i ss res es = Some (res', ss', es') /\ pointers <$> ss' = pointers <$> ss /\ length es' = length es.
Proof.
  revert res es. induction ss as [|s ss IH]; intros res es Hv; cbn [insert_switches]; [by exists res, [], es|].
  apply Forall_app in Hv as [Hs Hv]. destruct (sw_insert_total t tid a i s es Hs) as (ret & s' & es1 & -> & Hp & Hl). cbn [mbind option_bind].
  destruct (IH (and_result res ret) es1) as (res2 & ss2 & es2 & -> & Hp2 & Hl2); [unfold valid_pointers in *; by rewrite Hl|].
  cbn [mbind option_bind]. do 3 eexists. split; [reflexivity|]. cbn. rewrite Hp. split; [f_equal; exact Hp2|congruence].
Qed.

Lemma insert_every_total (t tid a i : Z) (ps : list nat) (res : bool) (es : list (endpoint D)) :
  valid_pointers es ps -> exists res' es', insert_every t tid a i ps res es = Some (res', es') /\ length es' = length es.
Proof.
  revert res es. induction ps as [|p ps IH]; intros res es Hv; cbn [insert_every]; [by exists res, es|].
  apply Forall_cons in Hv as [Hp Hv]. destruct (lookup_lt_is_Some_2 es p Hp) as [e ->]. cbn [mbind option_bind].
  destruct (ep_insert t tid a i e) as [ret e'].
  destruct (IH (and_result res ret) (<[p := e']> es)) as (res2 & es2 & -> & Hl); [unfold valid_pointers in *; by rewrite length_insert|].
  do 2 eexists. split; [reflexivity|]. by rewrite Hl, length_insert.
Qed.
End Shape.

(** ** The insertion ends and counts *)
Section Counting.
Context {D A G K M : Type} `{Double D} `{!AllocationPolicy D A} `{!PagingPolicy G} `{!CachingPolicy D K} `{!MigrationPolicy D M}.
Context `{!AllocationLaws D A} `{!PagingLaws G} `{!CachingLaws D K} `{!MigrationLaws D M}.

Notation policies := (Policies A G K M).

Definition placed (c : CXLController D) : Prop := lru_ok (cc_lru_cache c) /\ tree_ok (cc_topo c).

(** A remote access needs a caching policy when there is no decoder. *)
Definition policies_ok (c : CXLController D) (pol : policies) : Prop :=
  allocation_ok (length (tp_cur_expanders (cc_topo c))) (pl_allocation pol)
  /\ (forall g, pl_paging pol = Some g -> paging_ok g) /\ (cc_hdm_decoder c = None -> is_Some (pl_caching pol)).

(** What the parts of an access that do not count leave alone. *)
Definition view (c : CXLController D) :=
  (cc_counter c, cc_thread_map c, (cc_last_index c, cc_request_counter c), tp_cur_expanders (cc_topo c), cc_hdm_decoder c).

Definition sound (s : CXLController D * policies) : Prop := placed s.1 /\ policies_ok s.1 s.2.

Lemma tree_ok_store (es : list (endpoint D)) (sw : CXLSwitch) (t : Topology D) :
  tree_ok t -> length es = length (tp_endpoints t) -> pointers sw = pointers (tp_root t) -> tree_ok (set_root sw (set_endpoints es t)).
Proof. intros (H1 & H2 & H3 & H4) Hl Hp. unfold tree_ok, cur_valid, valid_pointers in *. cbn. rewrite Hl, Hp. done. Qed.

Lemma policies_view (c c' : CXLController D) (pol : policies) : view c' = view c -> policies_ok c pol -> policies_ok c' pol.
Proof. unfold view, policies_ok. intros [= _ _ _ _ E1 E2]. by rewrite E1, E2. Qed.

Lemma charge_walk_total (v p : Z) (remote : bool) (c : CXLController D) (pol : policies) :
  sound (c, pol) -> exists ptw c' pol', charge_walk v p remote (c, pol) = Some (ptw, (c', pol')) /\ sound (c', pol') /\ view c' = view c
    /\ pl_caching pol' = pl_caching pol.
Proof.
  intros ([Hl Ht] & Ha & Hg & Hk). unfold charge_walk. destruct (pl_paging pol) as [g|] eqn:E.
  - destruct (paging_answers v p remote (cc_page_type c) g (Hg g E)) as (ptw & g' & -> & Hg'). cbn [mbind option_bind].
    do 3 eexists. split; [reflexivity|]. destruct (0 <? ptw); (split; [|done]); (split; [done|]); split_and!; try done; intros ? [= <-]; done.
  - exists 0, c, pol. split_and!; [done| |done|done]. split; [done|]. done.
Qed.

Lemma update_cache_total (a now : Z) (c : CXLController D) :
  placed c -> exists c', update_cache a now c = Some c' /\ placed c' /\ view c' = view c.
Proof.
  intros [Hl Ht]. unfold update_cache. destruct (lru_put_refines a a now _ Hl) as (l & -> & Hl' & _). cbn [mbind option_bind].
  by eexists.
Qed.

Lemma cache_if_allowed_total (a now : Z) (k : K) (c : CXLController D) (pol : policies) :
  sound (c, pol) -> exists c' pol', cache_if_allowed a now k (c, pol) = Some (c', pol') /\ sound (c', pol') /\ view c' = view c.
Proof.
  intros [Hc Hp]. unfold cache_if_allowed. destruct (should_cache a now k) as [yes k'].
  assert (Hp' : policies_ok c (mkPolicies (pl_allocation pol) (pl_paging pol) (Some k') (pl_migration pol)))
    by (destruct Hp as (? & ? & ?); split_and!; by eauto).
  destruct yes; [|by do 2 eexists]. destruct (update_cache_total a now c Hc) as (c' & -> & Hc' & Hv). cbn [mbind option_bind].
  do 2 eexists. split; [reflexivity|]. split; [split; [done|by eapply policies_view]|done].
Qed.

Lemma insert_at_total (p : nat) (t tid a : Z) (c : CXLController D) :
  placed c -> (p < length (cc_endpoints c))%nat -> exists c', insert_at p t tid a c = Some c' /\ placed c' /\ view c' = view c.
Proof.
  intros [Hl Ht] Hp. unfold insert_at. destruct (lookup_lt_is_Some_2 _ _ Hp) as [e ->]. cbn [mbind option_bind].
  destruct (ep_insert t tid a (ep_id e) e) as [ret e']. eexists. split; [reflexivity|]. split; [|done]. split; [done|].
  destruct (cc_topo c) as [root es cur ns ne dm re] eqn:E. cbn. rewrite E. unfold cc_endpoints. rewrite E.
  apply (tree_ok_store (<[p := e']> es) root _ Ht); [apply length_insert|done].
Qed.

Lemma insert_below_total (t tid a i : Z) (res : bool) (c : CXLController D) :
  placed c -> exists res' c', insert_below t tid a i res c = Some (res', c') /\ placed c' /\ view c' = view c.
Proof.
  intros [Hl Ht]. unfold insert_below. pose proof (proj1 Ht) as Hv. unfold cc_root, cc_endpoints.
  destruct (tp_root (cc_topo c)) as [ps ss k id ep lt] eqn:E. rewrite pointers_eq in Hv. apply Forall_app in Hv as [Hp Hs].
  destruct (insert_switches_total t tid a i ss res _ Hs) as (res1 & ss1 & es1 & -> & Hss & Hl1). cbn [mbind option_bind].
  destruct (insert_every_total t tid a i ps res1 es1) as (res2 & es2 & -> & Hl2); [unfold valid_pointers in *; by rewrite Hl1|].
  cbn [mbind option_bind]. do 2 eexists. split; [reflexivity|]. split; [|done]. split; [done|].
  apply (tree_ok_store es2 _ _ Ht); [congruence|]. rewrite E, !pointers_eq. by rewrite Hss.
Qed.

Lemma remote_expander_valid (n : Z) (p : nat) (t : Topology D) : tree_ok t -> get_remote_expander n t = Some p -> (p < length (tp_endpoints t))%nat.
Proof.
  intros (_ & _ & Hr & _). unfold get_remote_expander. destruct (list_find _ _) as [[i q]|] eqn:E; [|done]. intros [= <-].
  apply list_find_Some in E as (Hi & _). by apply (Forall_lookup_1 _ _ _ _ Hr Hi).
Qed.

(** ** Counting *)
Definition types (tid : Z) (c : CXLController D) : list Z := ti_llcm_type (default thread_new (cc_thread_map c !! tid)).

Definition counted (c : CXLController D) : Z := ct_local (cc_counter c) + ct_remote (cc_counter c) + ct_hitm (cc_counter c).

Definition rest (c : CXLController D) := (cc_last_index c, cc_request_counter c, tp_cur_expanders (cc_topo c), cc_hdm_decoder c).

(** From [c] to [c'] accesses of the given types were made by a thread: 0 is local, 1 remote. *)
Definition advanced (tid : Z) (ts : list Z) (c c' : CXLController D) : Prop :=
  types tid c' = types tid c ++ ts /\ Forall (fun t => t = 0 \/ t = 1) ts
  /\ wrap64 (counted c') = wrap64 (counted c + Z.of_nat (length ts))
  /\ wrap64 (ct_remote (cc_counter c')) = wrap64 (ct_remote (cc_counter c) + foldr Z.add 0 ts)
  /\ (forall t, t <> tid -> cc_thread_map c' !! t = cc_thread_map c !! t) /\ rest c' = rest c.

Lemma wrap64_sum (a b c m n : Z) : wrap64 b = wrap64 (a + m) -> wrap64 c = wrap64 (b + n) -> wrap64 c = wrap64 (a + (m + n)).
Proof. unfold wrap64. intros Hb ->. rewrite Z.add_assoc, <- Zplus_mod_idemp_l, Hb. by rewrite Zplus_mod_idemp_l. Qed.

Lemma advanced_refl (tid : Z) (c : CXLController D) : advanced tid [] c c.
Proof. split_and!; [by rewrite app_nil_r|constructor|cbn; by rewrite Z.add_0_r..|done|done]. Qed.

Lemma advanced_app (tid : Z) (l1 l2 : list Z) (c1 c2 c3 : CXLController D) :
  advanced tid l1 c1 c2 -> advanced tid l2 c2 c3 -> advanced tid (l1 ++ l2) c1 c3.
Proof.
  intros (T1 & F1 & N1 & R1 & O1 & V1) (T2 & F2 & N2 & R2 & O2 & V2). split_and!.
  - by rewrite T2, T1, app_assoc.
  - by apply Forall_app.
  - rewrite length_app, Nat2Z.inj_add. by eapply wrap64_sum.
  - replace (foldr Z.add 0 (l1 ++ l2)) with (foldr Z.add 0 l1 + foldr Z.add 0 l2); [by eapply wrap64_sum|].
    clear. induction l1; cbn; lia.
  - intros t Ht. by rewrite O2, O1.
  - congruence.
Qed.

Lemma advanced_view (tid : Z) (ts : list Z) (c1 c2 c1' c2' : CXLController D) :
  view c1' = view c1 -> view c2' = view c2 -> advanced tid ts c1 c2 -> advanced tid ts c1' c2'.
Proof.
  unfold view, advanced, types, counted, rest. intros [= A1 A2 A3 A4 A5 A6] [= B1 B2 B3 B4 B5 B6].
  by rewrite A1, A2, A3, A4, A5, A6, B1, B2, B3, B4, B5, B6.
Qed.

(** [account] of each kind. *)
Lemma account_advanced (inc : CXLCounter -> CXLCounter) (tid type : Z) (c0 c : CXLController D) :
  type = 0 \/ type = 1 -> cc_thread_map c = cc_thread_map c0 -> rest c = rest c0 ->
  wrap64 (ct_local (inc (cc_counter c)) + ct_remote (inc (cc_counter c)) + ct_hitm (inc (cc_counter c))) = wrap64 (counted c0 + 1) ->
  wrap64 (ct_remote (inc (cc_counter c))) = wrap64 (ct_remote (cc_counter c0) + type) ->
  advanced tid [type] c0 (account inc tid type c).
Proof.
  intros Hty Hm Hr Hc Hrem. unfold advanced, types. cbn [account cc_set_threads cc_set_counter cc_thread_map cc_counter].
  rewrite Hm, lookup_insert_eq. cbn [default foldr length]. rewrite Z.add_0_r. split_and!; [done|by apply Forall_singleton|exact Hc|exact Hrem| |exact Hr].
  intros t Ht. by rewrite lookup_insert_ne.
Qed.

Lemma account_sound (inc : CXLCounter -> CXLCounter) (tid type : Z) (c : CXLController D) (pol : policies) :
  sound (c, pol) -> sound (account inc tid type c, pol).
Proof. done. Qed.

Lemma count_local (inc : CXLCounter -> CXLCounter) (tid type : Z) (c0 c : CXLController D) :
  view c = view c0 -> (inc = inc_local \/ inc = inc_hitm) /\ type = 0 \/ inc = inc_remote /\ type = 1 ->
  advanced tid [type] c0 (account inc tid type c).
Proof.
  unfold view. intros [= Hk Hm Hi Hr Hc Hd] Hcase.
  assert (Hrest : rest c = rest c0) by (unfold rest; congruence).
  destruct Hcase as [[[-> | ->] ->]|[-> ->]]; apply account_advanced; auto; rewrite Hk; unfold counted; cbn [ct_local ct_remote ct_hitm inc_local inc_hitm inc_remote];
    rewrite ?Z.add_0_r; try done; unfold wrap64.
  - rewrite <- Z.add_assoc, Zplus_mod_idemp_l. f_equal. lia.
  - rewrite Zplus_mod_idemp_r. f_equal. lia.
  - rewrite (Z.add_comm (ct_local _)), <- Z.add_assoc, Zplus_mod_idemp_l. f_equal. lia.
  - by rewrite Zmod_mod.
Qed.

Lemma route_decoded_total (r : DecodeResult) (now t tid a : Z) (c : CXLController D) :
  placed c -> exists c', route_decoded r now t tid a c = Some c' /\ placed c' /\ view c' = view c.
Proof.
  intros Hp. unfold route_decoded. destruct (dr_is_remote r).
  - destruct (get_remote_expander _ _) as [p|] eqn:E; [|by exists c]. apply insert_at_total; [done|]. eapply remote_expander_valid, E. apply Hp.
  - destruct (_ !! _) as [p|] eqn:E; [|by eexists]. apply insert_at_total; [done|]. destruct Hp as (_ & _ & _ & _ & Hd). exact (Hd _ _ E).
Qed.

Lemma sound_view (c c' : CXLController D) (pol : policies) : placed c' -> view c' = view c -> sound (c, pol) -> sound (c', pol).
Proof. intros Hp Hv [_ Ho]. split; [done|]. by eapply policies_view. Qed.

Lemma access_decoded_total (d : HDMDecoder) (now tid a v : Z) (c : CXLController D) (pol : policies) :
  sound (c, pol) -> exists c' pol' ty, access_decoded d now tid a v (c, pol) = Some (c', pol') /\ sound (c', pol') /\ advanced tid [ty] c c'.
Proof.
  intros Hs. unfold access_decoded. destruct (decode_answers d a) as [r ->]. cbn [mbind option_bind].
  destruct (charge_walk_total v a (dr_is_remote r) c pol Hs) as (ptw & c1 & pol1 & -> & Hs1 & Hv1 & _). cbn [mbind option_bind].
  destruct (route_decoded_total r now (now ⊞ ptw) tid a c1 (proj1 Hs1)) as (c2 & -> & Hp2 & Hv2). cbn [mbind option_bind].
  assert (Hs2 : sound (c2, pol1)) by (by eapply sound_view).
  set (c3 := if dr_is_remote r then _ else _).
  assert (sound (c3, pol1) /\ exists ty, advanced tid [ty] c c3) as [Hs3 [ty Ha]].
  { subst c3. assert (Hv : view c2 = view c) by congruence. destruct (dr_is_remote r); (split; [by apply account_sound|]).
    - exists 1. apply count_local; auto.
    - exists 0. apply count_local; auto. }
  destruct (pl_caching pol1) as [k|]; [|by exists c3, pol1, ty].
  destruct (cache_if_allowed_total a now k c3 pol1 Hs3) as (c4 & pol4 & -> & Hs4 & Hv4).
  exists c4, pol4, ty. split_and!; [done|done|]. eapply advanced_view; [reflexivity|exact Hv4|exact Ha].
Qed.

Lemma access_allocated_total (now tid a v : Z) (res : bool) (c : CXLController D) (pol : policies) :
  sound (c, pol) -> cc_hdm_decoder c = None ->
  exists res' c' pol' ty, access_allocated now tid a v res (c, pol) = Some (res', (c', pol')) /\ sound (c', pol') /\ advanced tid [ty] c c'.
Proof.
  intros [Hp (Ha & Hg & Hk)] Hn. unfold access_allocated.
  destruct (allocation_answers c (pl_allocation pol)) as (numa & a' & -> & Ha'); [apply Hp|done|]. cbn [mbind option_bind].
  destruct (charge_walk_total v a (negb (numa =? -1)) c (mkPolicies a' (pl_paging pol) (pl_caching pol) (pl_migration pol)))
    as (ptw & c1 & pol1 & -> & Hs1 & Hv1 & Hk1); [done|]. cbn [mbind option_bind]. destruct (numa =? -1).
  - destruct (update_cache_total a now (account inc_local tid 0 (record_local a now (now ⊞ ptw) c1))) as (c2 & -> & Hp2 & Hv2); [apply Hs1|].
    cbn [mbind option_bind]. exists res, c2, pol1, 0. split; [done|]. split.
    + eapply sound_view; [done|exact Hv2|]. apply account_sound, Hs1.
    + eapply advanced_view; [reflexivity|exact Hv2|]. apply count_local; [exact Hv1|auto].
  - destruct (insert_below_total (now ⊞ ptw) tid a numa res (cc_set_counter (inc_remote (cc_counter c1)) c1)) as (res2 & c2 & -> & Hp2 & Hv2); [apply Hs1|].
    cbn [mbind option_bind]. destruct (Hk Hn) as [k Ek]. rewrite Hk1. cbn [pl_caching]. cbn [fst snd] in Ek. rewrite Ek. cbn [mbind option_bind].
    assert (Hs2 : sound (account (fun x => x) tid 1 c2, pol1)) by (apply account_sound; eapply sound_view; [done|exact Hv2|apply Hs1]).
    destruct (cache_if_allowed_total a now k _ pol1 Hs2) as (c3 & pol3 & -> & Hs3 & Hv3). cbn [mbind option_bind].
    exists res2, c3, pol3, 1. split_and!; [done|done|]. eapply advanced_view; [reflexivity|exact Hv3|].
    eapply (advanced_view tid [1] c (account inc_remote tid 1 c1)); [reflexivity| |apply count_local; [exact Hv1|auto]].
    revert Hv2. unfold view. intros [= E1 E2 E3 E4 E5 E6]. cbn in *. by rewrite E1, E2, E3, E4, E5, E6.
Qed.

Lemma access_one_total (now tid a v : Z) (res : bool) (c : CXLController D) (pol : policies) :
  sound (c, pol) -> exists res' c' pol' ty, access_one now tid a v res (c, pol) = Some (res', (c', pol')) /\ sound (c', pol') /\ advanced tid [ty] c c'.
Proof.
  intros Hs. unfold access_one. destruct (lru_get_refines a now (cc_lru_cache c) (proj1 (proj1 Hs))) as (l & -> & Hl & _). cbn [mbind option_bind].
  assert (Hs1 : sound (cc_set_lru l c, pol)) by (destruct Hs as [[_ Ht] Ho]; exact (conj (conj Hl Ht) Ho)).
  destruct (rc_find _ _).
  - do 4 eexists. split; [reflexivity|]. split; [by apply account_sound|]. apply count_local; [reflexivity|auto].
  - destruct (cc_hdm_decoder (cc_set_lru l c)) as [d|] eqn:Ed.
    + destruct (access_decoded_total d now tid a v _ pol Hs1) as (c' & pol' & ty & -> & Hs' & Hadv). cbn [mbind option_bind]. by exists res, c', pol', ty.
    + destruct (access_allocated_total now tid a v res _ pol Hs1 Ed) as (res' & c' & pol' & ty & -> & Hs' & Hadv). by exists res', c', pol', ty.
Qed.

Lemma access_loop_total (n : nat) (now step tid a v : Z) (res : bool) (c : CXLController D) (pol : policies) :
  sound (c, pol) -> exists res' c' pol' ts, access_loop n now step tid a v res (c, pol) = Some (res', (c', pol')) /\ sound (c', pol')
    /\ length ts = n /\ advanced tid ts c c'.
Proof.
  revert now res c pol. induction n as [|n IH]; intros now res c pol Hs; cbn [access_loop]; [exists res, c, pol, []; auto using advanced_refl|].
  destruct (access_one_total (now ⊞ step) tid a v res c pol Hs) as (r1 & c1 & pol1 & ty & -> & Hs1 & A1). cbn [mbind option_bind].
  destruct (IH (now ⊞ step) r1 c1 pol1 Hs1) as (r2 & c2 & pol2 & ts & -> & Hs2 & Hlen & A2).
  exists r2, c2, pol2, (ty :: ts). split_and!; [done|done|cbn; by rewrite Hlen|]. by apply (advanced_app tid [ty] ts c c1 c2).
Qed.

(** ** The periodic policies *)

(** Back invalidation touches the cache, the records of the endpoints and its own counter. *)
Lemma back_invalidate_frame (addrs : list Z) (c : CXLController D) :
  placed c -> exists c', back_invalidate_all addrs c = Some c' /\ placed c' /\ rest c' = rest c /\ cc_thread_map c' = cc_thread_map c
    /\ exists n, cc_counter c' = mkCXLCounter (ct_local (cc_counter c)) (ct_remote (cc_counter c)) (ct_hitm (cc_counter c)) n.
Proof.
  revert c. induction addrs as [|a addrs IH]; intros c [Hl Ht]; cbn [back_invalidate_all].
  { exists c. split_and!; [done..|]. exists (ct_backinv (cc_counter c)). by destruct (cc_counter c). }
  unfold back_invalidate. destruct (lru_remove_peek a _ Hl) as (b & l' & -> & Hl' & _). cbn [mbind option_bind]. rewrite invalidate_flat.
  destruct (invalidate_spec a _ _ (if b then 1 else 0) (proj1 Ht)) as (es' & n' & E & Hlen & _). unfold cc_root, cc_endpoints. rewrite E. cbn [mbind option_bind].
  destruct (IH (cc_set_counter (counter_backinv n' (cc_counter c)) (cc_set_endpoints es' (cc_set_lru l' c)))) as (c' & -> & Hp & Hr & Hm & n & Hn).
  - split; [done|]. apply (tree_ok_store es' (tp_root (cc_topo c)) (cc_topo c) Ht); done.
  - exists c'. split_and!; [done..|]. by exists n.
Qed.

Lemma run_policies_total (tid : Z) (c : CXLController D) (pol : policies) :
  sound (c, pol) -> exists c' pol', (s ← run_migration (c, pol); run_caching s) = Some (c', pol') /\ sound (c', pol') /\ advanced tid [] c c'.
Proof.
  intros Hs. assert (exists pol1, run_migration (c, pol) = Some (c, pol1) /\ sound (c, pol1)) as (pol1 & -> & Hs1).
  { unfold run_migration. destruct (pl_migration pol) as [m|]; [|by exists pol].
    destruct (migration_answers c m (proj2 (proj1 Hs))) as (r & m' & ->). cbn [mbind option_bind]. eexists. split; [by destruct (0 <? r)|exact Hs]. }
  cbn [mbind option_bind]. unfold run_caching. destruct (pl_caching pol1) as [k|] eqn:Ek; [|exists c, pol1; auto using advanced_refl].
  destruct (caching_once_answers c k (proj1 (proj1 Hs1))) as (r & k1 & l & -> & Hl). cbn [mbind option_bind].
  destruct Hs1 as [[_ Ht] (Ha & Hg & Hk)].
  assert (Hso : forall k', sound (cc_set_lru l c, mkPolicies (pl_allocation pol1) (pl_paging pol1) (Some k') (pl_migration pol1)))
    by (intros k'; split; [exact (conj Hl Ht)|]; split_and!; [exact Ha|exact Hg|by eauto]).
  destruct (0 <? r).
  - destruct (get_invalidation_list (cc_set_lru l c) k1) as [li k2].
    destruct (back_invalidate_frame li (cc_set_lru l c)) as (c2 & -> & Hp2 & Hr2 & Hm2 & n & Hn); [exact (conj Hl Ht)|]. cbn [mbind option_bind].
    do 2 eexists. split; [reflexivity|]. split.
    + split; [done|]. destruct (Hso k2) as [_ Ho]. revert Hr2. unfold rest, policies_ok. intros [= _ _ E1 E2]. cbn [fst snd]. rewrite E1, E2. exact Ho.
    + unfold advanced, types, counted. rewrite Hm2, Hn. cbn [ct_local ct_remote ct_hitm length foldr Z.of_nat]. rewrite app_nil_r, !Z.add_0_r.
      split_and!; [done|constructor|done|done|done|exact Hr2].
  - do 2 eexists. split; [reflexivity|]. split; [apply Hso|]. exact (advanced_refl tid c).
Qed.

Lemma new_thread_advanced (tid : Z) (c : CXLController D) :
  advanced tid [] c (cc_set_threads (cc_ring_buffer c) (<[tid := default thread_new (cc_thread_map c !! tid)]> (cc_thread_map c)) c).
Proof.
  unfold advanced, types. cbn [cc_set_threads cc_thread_map]. rewrite lookup_insert_eq. cbn [default length foldr Z.of_nat].
  rewrite app_nil_r, !Z.add_0_r. split_and!; [done|constructor|done|done| |done]. intros t Ht. by rewrite lookup_insert_ne.
Qed.

Lemma controller_insert_spec (timestamp tid phys_addr virt_addr index : Z) (c : CXLController D) (pol : policies) :
  sound (c, pol) -> cc_last_index c <= index -> cc_request_counter c + (index - cc_last_index c) <= INT_MAX ->
  exists res c' pol' ts, controller_insert timestamp tid phys_addr virt_addr index (c, pol) = Some (res, (c', pol')) /\ sound (c', pol')
    /\ (cc_last_index c' = (if 0 <? index then index else cc_last_index c)
        /\ cc_request_counter c' = (let n := cc_request_counter c + (index - cc_last_index c) in if 1000 <=? n then 0 else n))
    /\ cc_last_timestamp c' = timestamp /\ Z.of_nat (length ts) = index - cc_last_index c
    /\ types tid c' = types tid c ++ ts /\ Forall (fun t => t = 0 \/ t = 1) ts
    /\ wrap64 (counted c') = wrap64 (counted c + (index - cc_last_index c))
    /\ wrap64 (ct_remote (cc_counter c')) = wrap64 (ct_remote (cc_counter c) + foldr Z.add 0 ts)
    /\ forall t, t <> tid -> cc_thread_map c' !! t = cc_thread_map c !! t.
Proof.
  intros Hs Hi Hr. unfold controller_insert. pose proof (new_thread_advanced tid c) as A0. set (c0 := cc_set_threads _ _ c) in *.
  match goal with |- context [access_loop ?n ?t0 ?st _ _ _ _ _] =>
    destruct (access_loop_total n t0 st tid phys_addr virt_addr true c0 pol Hs) as (res & c1 & pol1 & ts & -> & Hs1 & Hlen & A1) end.
  cbn [mbind option_bind]. assert (Hreq : cc_request_counter c1 = cc_request_counter c) by (destruct A1 as (_ & _ & _ & _ & _ & E); by injection E).
  rewrite Hreq, (proj2 (Z.ltb_ge _ _)) by lia. set (q := 1000 <=? _).
  assert (exists c2 pol2, (if q then (s ← run_migration (c1, pol1); run_caching s) else Some (c1, pol1)) = Some (c2, pol2)
    /\ sound (c2, pol2) /\ advanced tid [] c1 c2) as (c2 & pol2 & -> & Hs2 & A2).
  { destruct q; [by apply run_policies_total|]. exists c1, pol1. auto using advanced_refl. }
  cbn [mbind option_bind]. pose proof (advanced_app _ _ _ _ _ _ A0 (advanced_app _ _ _ _ _ _ A1 A2)) as (T & F & N & R & O & V).
  rewrite app_nil_r in *. cbn [app] in *. assert (Hn : Z.of_nat (length ts) = index - cc_last_index c) by lia. rewrite Hn in N.
  do 4 eexists. split; [reflexivity|]. split_and!; [|cbn; injection V as E _ _ _; by rewrite <- E|done|unfold cc_last_timestamp, cc_root; cbn; by destruct (tp_root (cc_topo c2))|exact Hn|exact T|exact F|exact N|exact R|exact O].
  destruct Hs2 as [[Hl Ht] Ho]. split; [|exact Ho]. split; [exact Hl|].
  apply (tree_ok_store (tp_endpoints (cc_topo c2)) _ _ Ht); [done|]. unfold cc_root. cbn. by destruct (tp_root (cc_topo c2)).
Qed.

(** C12. A sample that takes the number of accesses from [last_index] to [index] is processed to the end,
    whatever lawful policies are installed: no iterator, index or null pointer is misused, every
    access adds exactly one to the hits, the local or the remote accesses and one entry to the
    thread's queue of types, the remote ones add a 1 there, no other thread's state changes, and
    the controller is left ready for the next sample. *)
Theorem insert_counts (timestamp tid phys_addr virt_addr index : Z) (c : CXLController D) (pol : policies)
    (Hs : sound (c, pol)) (Hi : cc_last_index c <= index) (Hr : cc_request_counter c + (index - cc_last_index c) <= INT_MAX) :
  exists res c' pol' ts, controller_insert timestamp tid phys_addr virt_addr index (c, pol) = Some (res, (c', pol')) /\ sound (c', pol')
    /\ cc_last_timestamp c' = timestamp /\ Z.of_nat (length ts) = index - cc_last_index c
    /\ types tid c' = types tid c ++ ts /\ Forall (fun t => t = 0 \/ t = 1) ts
    /\ wrap64 (counted c') = wrap64 (counted c + (index - cc_last_index c))
    /\ wrap64 (ct_remote (cc_counter c')) = wrap64 (ct_remote (cc_counter c) + foldr Z.add 0 ts)
    /\ forall t, t <> tid -> cc_thread_map c' !! t = cc_thread_map c !! t.
Proof.
  destruct (controller_insert_spec timestamp tid phys_addr virt_addr index c pol Hs Hi Hr) as (res & c' & pol' & ts & E & Hs' & _ & Hx).
  by exists res, c', pol', ts.
Qed.
End Counting.

(** ** The policies that keep the laws *)
Section Lawful.
Context {D : Type} `{Double D}.

Lemma cur_all_total (c : CXLController D) : cur_valid (cc_topo c) -> exists xs, cur_all c = Some xs /\ length xs = length (tp_cur_expanders (cc_topo c)).
Proof.
  intros Hv. unfold cur_all. destruct (mapM (fun i => cur_expander i c) (seq 0 (length (tp_cur_expanders (cc_topo c))))) as [xs|] eqn:E.
  - exists xs. split; [done|]. apply length_mapM in E. by rewrite <- E, length_seq.
  - exfalso. apply mapM_None in E. apply Exists_exists in E as (i & Hi & Hn). apply elem_of_seq in Hi.
    destruct (lookup_lt_is_Some_2 (tp_cur_expanders (cc_topo c)) i ltac:(lia)) as [p Hp].
    assert (Hlt := Forall_lookup_1 _ _ _ _ Hv Hp). destruct (lookup_lt_is_Some_2 _ _ Hlt) as [e He].
    unfold cur_expander in Hn. rewrite Hp in Hn. cbn [mbind option_bind] in Hn. unfold cc_endpoints in Hn. by rewrite He in Hn.
Qed.

Lemma numa_best_total (pt : page_type) (i : Z) (scores : list D) (xs : list (CXLMemExpander D)) (best : Z) (s : D) :
  (length xs <= length scores)%nat -> exists b, numa_best pt i scores xs best s = Some b.
Proof.
  revert i scores best s. induction xs as [|x xs IH]; intros i scores best s Hl; cbn [numa_best]; [by eexists|].
  destruct scores as [|sc scores]; cbn in Hl; [lia|]. cbn [head tl mbind option_bind].
  destruct (expander_has_space pt x); [|apply IH; lia]. destruct (d_ltb _ _); apply IH; lia.
Qed.

#[global] Program Instance numa_laws : AllocationLaws D NUMAPolicy :=
  {| allocation_ok n scores := scores = [] \/ (n <= length scores)%nat |}.
Next Obligation.
  intros c a Hv Ha. unfold allocate, numa_policy, numa_once. destruct (local_has_space c); [by do 2 eexists|].
  destruct (cur_all_total c Hv) as (xs & -> & Hl). cbn [mbind option_bind].
  set (scores := match a with [] => _ | _ => _ end).
  assert (Hs : (length (tp_cur_expanders (cc_topo c)) <= length scores)%nat).
  { subst scores. destruct a; [rewrite length_fmap; lia|]. by destruct Ha as [?|?]. }
  destruct (numa_best_total (cc_page_type c) 0 scores xs (-1) (d_of_Z (-1))) as [b ->]; [lia|]. cbn [mbind option_bind]. eauto 6.
Qed.

#[global] Program Instance huge_page_laws : PagingLaws HugePagePolicy := {| paging_ok := hp_ok |}.
Next Obligation.
  intros v p remote pt g Hg. destruct (walk_fills v p remote pt g Hg) as (cost & g' & E & Hg' & _). by exists cost, g'.
Qed.

#[global] Program Instance page_table_laws : PagingLaws PageTableAwarePolicy := {| paging_ok _ := True |}.
Next Obligation.
  intros v p remote pt g _. unfold check_page_table_walk, page_table_policy, page_table_walk. destruct (_ !! _); by do 2 eexists.
Qed.

Lemma set_lru_same (c : CXLController D) : cc_set_lru (cc_lru_cache c) c = c.
Proof. by destruct c. Qed.

#[global] Program Instance frequency_laws (order : gmap Z LRUCacheEntry -> list (Z * LRUCacheEntry)) :
  @CachingLaws D FrequencyBasedInvalidationPolicy (frequency_policy order).
Next Obligation.
  intros order c k Hl. cbn [caching_once frequency_policy]. unfold frequency_once. destruct (frequency_list order c k) as [l k'].
  do 2 eexists. exists (cc_lru_cache c). by rewrite set_lru_same.
Qed.

#[global] Program Instance fifo_laws (order : gmap Z LRUCacheEntry -> list (Z * LRUCacheEntry)) : @CachingLaws D unit (fifo_policy order).
Next Obligation.
  intros order c k Hl. cbn [caching_once fifo_policy]. unfold fifo_once.
  destruct (wrap64 (cc_capacity c) <=? _); [|exists 0, k, (cc_lru_cache c); by rewrite set_lru_same].
  destruct (_ =? 0); [exists 0, k, (cc_lru_cache c); by rewrite set_lru_same|].
  match goal with |- context [lru_remove ?a _] => destruct (lru_remove_peek a _ Hl) as (b & l & -> & Hl' & _) end.
  cbn [mbind option_bind]. by exists 1, k, l.
Qed.

Lemma all_expanders_total (c : CXLController D) : tree_ok (cc_topo c) -> is_Some (all_expanders c).
Proof.
  intros [Hv _]. unfold all_expanders, cc_root. destruct (tp_root (cc_topo c)) as [ps ss k id ep lt].
  apply mapM_is_Some. assert (Hv' := Hv). rewrite pointers_eq in Hv'. apply Forall_app in Hv' as [Hp _].
  apply Forall_app. split; (eapply Forall_impl; [eassumption|]); intros p Hlt; apply fmap_is_Some, lookup_lt_is_Some_2, Hlt.
Qed.

#[global] Program Instance heat_laws : MigrationLaws D HeatAwareMigrationPolicy.
Next Obligation. intros c m _. by do 2 eexists. Qed.

#[global] Program Instance locality_laws : MigrationLaws D LocalityBasedMigrationPolicy.
Next Obligation. intros c m _. by do 2 eexists. Qed.

#[global] Program Instance lifetime_laws : MigrationLaws D LifetimeBasedMigrationPolicy.
Next Obligation. intros c m _. by do 2 eexists. Qed.

#[global] Program Instance frequency_migration_laws : MigrationLaws D FrequencyBasedMigrationPolicy.
Next Obligation.
  intros c m Ht. unfold migration_once, frequency_migration_policy, frequency_migration_once, frequency_migration_list.
  destruct (all_expanders_total c Ht) as [xs ->]. by do 2 eexists.
Qed.

#[global] Program Instance load_balancing_laws : MigrationLaws D LoadBalancingMigrationPolicy.
Next Obligation.
  intros c m Ht. unfold migration_once, load_balancing_policy, load_balancing_once. destruct (all_expanders_total c Ht) as [xs ->].
  cbn [mbind option_bind]. repeat case_match; eauto.
Qed.

#[global] Program Instance either_laws {P Q} `{!MigrationPolicy D P} `{!MigrationPolicy D Q} `{!MigrationLaws D P} `{!MigrationLaws D Q} :
  MigrationLaws D (P + Q).
Next Obligation.
  intros P Q MP MQ LP LQ c [m|m] Ht; destruct (migration_answers c m Ht) as (r & m' & E); unfold migration_once, either_policy; rewrite E; by do 2 eexists.
Qed.

#[global] Program Instance hybrid_laws {P} `{!MigrationPolicy D P} `{!MigrationLaws D P} : MigrationLaws D (list P).
Next Obligation.
  intros P MP LP c ms Ht. unfold migration_once, hybrid_policy. induction ms as [|m ms (r & ms' & IH)]; cbn [hybrid_once]; [by do 2 eexists|].
  destruct (migration_answers c m Ht) as (r1 & m1 & ->). cbn [mbind option_bind]. rewrite IH. by do 2 eexists.
Qed.
End Lawful.

(** A sample of 1500 accesses, over the interval after which the policies run. *)
Definition demo_policies : Policies (@NUMAPolicy spec_float) HugePagePolicy FrequencyBasedInvalidationPolicy (list (HeatAwareMigrationPolicy + LifetimeBasedMigrationPolicy)) :=
  mkPolicies [] (Some (huge_page_new 100 300)) (Some (frequency_new 100 10000000)) (Some [inl (mkHeat ∅ 100); inr 1000000]).

Lemma insert_counts_witness :
  exists res c' pol' ts, @controller_insert _ _ _ _ _ binary64 _ _ (frequency_policy map_to_list) _ 9000 7 4096 8192 1500 (demo_controller, demo_policies) = Some (res, (c', pol'))
    /\ Z.of_nat (length ts) = 1500 /\ types 7 c' = ts /\ wrap64 (counted c') = 1500.
Proof.
  destruct (insert_counts (CachingPolicy0 := frequency_policy map_to_list) 9000 7 4096 8192 1500 demo_controller demo_policies)
    as (res & c' & pol' & ts & E & _ & _ & Hl & Ht & _ & Hn & _).
  - split; [split|].
    + apply lru_empty_ok. split; vm_compute; reflexivity.
    + split_and!; [repeat constructor..|]. apply (bool_decide_unpack _). vm_compute. exact I.
    + split_and!; [by left| |by eexists]. intros g [= <-]. split_and!; apply tlb_new_ok; lia.
  - vm_compute. discriminate.
  - vm_compute. discriminate.
  - exists res, c', pol', ts. split_and!; [exact E|exact Hl|exact Ht|exact Hn].
Defined.
