(* ===== verification/Rob.v ===== *)
(** * The reorder buffer ([Rob] of [include/rob.h] and [src/rob.cpp], its driver in [src/rob.cc])

    The trace-driven front end issues instructions into a bounded queue and retires up to four per
    cycle from its head; a memory instruction is reported to the controller when it is issued, and
    held back by the latency of the controller when it retires.  The buffer knows the controller
    through four operations ([RobMemory]); what it needs of them is that they answer
    ([RobMemoryLaws]).  [rob_completes] shows that the driver's loops end and retire every
    instruction in order.  The counters are [int64_t]; a run that overflows them is not modelled.
    [None] is undefined behaviour of the controller or exhausted fuel. *)
From stdpp Require Import strings.
From Stdlib Require Import QArith SpecFloat.
From S2P Require Import Prelude Double.
#[local] Open Scope Z_scope.

Record InstructionGroup := mkInstruction {
  ig_address : Z;
  ig_cycleCount : Z;
  ig_fetchTimestamp : Z;
  ig_retireTimestamp : Z;
  ig_instruction : string
}.

(** What the buffer asks of the controller. *)
Class RobMemory (D C : Type) := {
  rm_insert (timestamp tid phys_addr virt_addr index : Z) : C -> option C;
  rm_sample (timestamp tid : Z) : C -> option C;               (* 32 empty branch records *)
  rm_get_access (timestamp : Z) : C -> option (list (Z * Z) * C);
  rm_latency (elem : list (Z * Z)) (dramlatency : D) : C -> option (D * C)
}.

Record Rob (C : Type) := mkRob {
  rob_controller : C;
  rob_maxSize : Z;
  rob_queue : list InstructionGroup;
  rob_stallCount : Z;
  rob_stallEventCount : Z;
  rob_cur_latency : Z;
  rob_currentCycle : Z;
  rob_counter : Z
}.
Arguments mkRob {C}.
Arguments rob_controller {C}.
Arguments rob_maxSize {C}.
Arguments rob_queue {C}.
Arguments rob_stallCount {C}.
Arguments rob_stallEventCount {C}.
Arguments rob_cur_latency {C}.
Arguments rob_currentCycle {C}.
Arguments rob_counter {C}.

Section Rob.
Context {D C : Type} `{Double D} `{!RobMemory D C}.
#[local] Open Scope double_scope.

Definition rob_new (controller : C) (size cycle : Z) : Rob C := mkRob controller size [] 0 0 0 cycle 0.

(** [stallCount_++; stallEventCount_++]. *)
Definition stall (r : Rob C) : Rob C :=
  mkRob (rob_controller r) (rob_maxSize r) (rob_queue r) (rob_stallCount r + 1) (rob_stallEventCount r + 1) (rob_cur_latency r)
    (rob_currentCycle r) (rob_counter r).

(** The counter of memory instructions is an [int]: its overflow is undefined. *)
Definition rob_issue (ins : InstructionGroup) (r : Rob C) : option (bool * Rob C) :=
  if rob_maxSize r <=? Z.of_nat (length (rob_queue r)) then Some (false, stall r)
  else
    let q := rob_queue r ++ [ins] in
    if ig_address ins =? 0 then
      Some (true, mkRob (rob_controller r) (rob_maxSize r) q (rob_stallCount r) (rob_stallEventCount r) (rob_cur_latency r)
                    (rob_currentCycle r) (rob_counter r))
    else if 2 ^ 31 - 1 <=? rob_counter r then None
    else
      let counter := rob_counter r + 1 in
      c1 ← rm_insert (wrap64 (ig_retireTimestamp ins)) 0 (wrap64 (ig_address ins)) 0 counter (rob_controller r);
      c2 ← rm_sample (wrap64 (ig_retireTimestamp ins)) 1 c1;
      Some (true, mkRob c2 (rob_maxSize r) q (rob_stallCount r) (rob_stallEventCount r) (rob_cur_latency r) (rob_currentCycle r) counter).

(** The latency of a memory instruction, in cycles; the queue has [n] instructions.  The branch for
    register operations is never taken here: the address is not 0. *)
Definition scaled_latency (base : D) (n : nat) : Z :=
  let l := base ⊗ d_lit 8 100 in
  let l' := if (1 <? n)%nat then l ⊗ d_min (d_lit 7 10) (d_lit 9 10 ⊖ d_of_Z (Z.of_nat n) ⊗ d_lit 5 100) else l in
  d_trunc (d_max (d_of_Z 1) l').

(** The first attempt computes the latency and delays the instruction; a later one waits a cycle. *)
Definition charge_latency (ins : InstructionGroup) (r : Rob C) : option (InstructionGroup * Rob C) :=
  if rob_cur_latency r =? 0 then
    '(accesses, c1) ← rm_get_access (wrap64 (ig_retireTimestamp ins)) (rob_controller r);
    '(base, c2) ← rm_latency accesses (d_of_Z 80) c1;
    let lat := scaled_latency base (length (rob_queue r)) in
    let stalls := rob_stallCount r + lat in
    Some (mkInstruction (ig_address ins) (ig_cycleCount ins) (ig_fetchTimestamp ins) (ig_retireTimestamp ins + lat) (ig_instruction ins),
          mkRob c2 (rob_maxSize r) (rob_queue r) stalls (if Z.rem stalls 2 =? 0 then rob_stallEventCount r + 1 else rob_stallEventCount r) lat
            (rob_currentCycle r + lat) (rob_counter r))
  else
    Some (ins, mkRob (rob_controller r) (rob_maxSize r) (rob_queue r) (rob_stallCount r) (rob_stallEventCount r) 1
                 (rob_currentCycle r + 1) (rob_counter r)).

(** [canRetire]: the instruction comes back with its new time.  The wait is unsigned. *)
Definition can_retire (ins : InstructionGroup) (r : Rob C) : option (bool * InstructionGroup * Rob C) :=
  if ig_address ins =? 0 then Some (true, ins, r)
  else
    '(ins1, r1) ← charge_latency ins r;
    let wait_time := wrap64 (rob_currentCycle r1 - ig_cycleCount ins) in
    if wait_time <? wrap64 (Z.quot (rob_cur_latency r1) 2) then Some (false, ins1, stall r1)
    else Some (true, ins1, mkRob (rob_controller r1) (rob_maxSize r1) (rob_queue r1) (rob_stallCount r1) (rob_stallEventCount r1) 0
                             (rob_currentCycle r1) (rob_counter r1)).

Definition set_rob_queue (q : list InstructionGroup) (r : Rob C) : Rob C :=
  mkRob (rob_controller r) (rob_maxSize r) q (rob_stallCount r) (rob_stallEventCount r) (rob_cur_latency r) (rob_currentCycle r) (rob_counter r).

(** Retire up to [n] instructions from the head; those retired are a result. *)
Fixpoint retire_up_to (n : nat) (r : Rob C) : option (list InstructionGroup * Rob C) :=
  match n, rob_queue r with
  | S n', ins :: q =>
      '(ok, ins1, r1) ← can_retire ins r;
      if (ok : bool) then '(l, r2) ← retire_up_to n' (set_rob_queue q r1); Some (ins1 :: l, r2)
      else Some ([], set_rob_queue (ins1 :: q) r1)
  | _, _ => Some ([], r)
  end.

Definition MAX_RETIRE_PER_CYCLE : nat := 4.

Definition rob_tick (r : Rob C) : option (list InstructionGroup * Rob C) :=
  retire_up_to MAX_RETIRE_PER_CYCLE
    (mkRob (rob_controller r) (rob_maxSize r) (rob_queue r) (rob_stallCount r) (rob_stallEventCount r) (rob_cur_latency r)
       (rob_currentCycle r + 1) (rob_counter r)).

(** [tryAlternativeRetire]: one of the five after the head, if it is no memory instruction.  On an
    empty queue the iterator would pass the end. *)
Fixpoint erase_alternative (n : nat) (q : list InstructionGroup) : option (list InstructionGroup) :=
  match n, q with
  | S n', i :: q' => if ig_address i =? 0 then Some q' else cons i <$> erase_alternative n' q'
  | _, _ => None
  end.

Definition tryAlternativeRetire (r : Rob C) : option (bool * Rob C) :=
  match rob_queue r with
  | [] => None
  | i :: q =>
      match erase_alternative 5 q with
      | Some q' => Some (true, set_rob_queue (i :: q') r)
      | None => Some (false, stall r)
      end
  end.

Definition resetCounters (r : Rob C) : Rob C :=
  mkRob (rob_controller r) (rob_maxSize r) (rob_queue r) 0 0 (rob_cur_latency r) (rob_currentCycle r) (rob_counter r).

(** ** The driver *)

(** [while (!issued)]: a cycle passes after each refusal. *)
Fixpoint issue_loop (fuel : nat) (ins : InstructionGroup) (r : Rob C) : option (list InstructionGroup * Rob C) :=
  match fuel with
  | O => None
  | S fuel' =>
      '(ok, r1) ← rob_issue ins r;
      if (ok : bool) then Some ([], r1)
      else '(l, r2) ← rob_tick r1; '(l', r3) ← issue_loop fuel' ins r2; Some (l ++ l', r3)
  end.

Fixpoint issue_all (fuel : nat) (instructions : list InstructionGroup) (r : Rob C) : option (list InstructionGroup * Rob C) :=
  match instructions with
  | [] => Some ([], r)
  | ins :: rest =>
      '(l1, r1) ← issue_loop fuel ins r;
      '(l2, r2) ← rob_tick r1;
      '(l3, r3) ← issue_all fuel rest r2;
      Some (l1 ++ l2 ++ l3, r3)
  end.

(** [while (!rob.queue_.empty())]. *)
Fixpoint drain_loop (fuel : nat) (r : Rob C) : option (list InstructionGroup * Rob C) :=
  match rob_queue r with
  | [] => Some ([], r)
  | _ => match fuel with
         | O => None
         | S fuel' => '(l, r1) ← rob_tick r; '(l', r2) ← drain_loop fuel' r1; Some (l ++ l', r2)
         end
  end.

Definition simulate (fuel : nat) (instructions : list InstructionGroup) (r : Rob C) : option (list InstructionGroup * Rob C) :=
  '(l1, r1) ← issue_all fuel instructions r;
  '(l2, r2) ← drain_loop fuel r1;
  Some (l1 ++ l2, r2).
End Rob.

(** ** What the buffer needs of the controller *)
Class RobMemoryLaws (D C : Type) `{!RobMemory D C} := {
  rm_ok : Z -> C -> Prop;                       (* after so many memory instructions *)
  rm_insert_answers (n ts tid a v : Z) (c : C) : rm_ok n c -> 0 <= n < 2 ^ 31 - 1 -> exists c', rm_insert ts tid a v (n + 1) c = Some c' /\ rm_ok (n + 1) c';
  rm_sample_answers (n ts tid : Z) (c : C) : rm_ok n c -> exists c', rm_sample ts tid c = Some c' /\ rm_ok n c';
  rm_access_answers (n ts : Z) (c : C) : rm_ok n c -> exists l c', rm_get_access ts c = Some (l, c') /\ rm_ok n c';
  rm_latency_answers (n : Z) (l : list (Z * Z)) (dram : D) (c : C) : rm_ok n c -> exists d c', rm_latency l dram c = Some (d, c') /\ rm_ok n c'
}.

Section RobProofs.
Context {D C : Type} `{Double D} `{!RobMemory D C} `{!RobMemoryLaws D C}.

(** Retirement changes nothing of an instruction but its time. *)
Definition same (i j : InstructionGroup) : Prop :=
  ig_address j = ig_address i /\ ig_cycleCount j = ig_cycleCount i /\ ig_fetchTimestamp j = ig_fetchTimestamp i /\ ig_instruction j = ig_instruction i.

#[global] Instance same_preorder : PreOrder same.
Proof. split; [done|]. unfold same. intros i j k (? & ? & ? & ?) (? & ? & ? & ?). split_and!; congruence. Qed.

Definition rob_ok (r : Rob C) : Prop :=
  rm_ok (rob_counter r) (rob_controller r) /\ 0 <= rob_counter r /\ Z.of_nat (length (rob_queue r)) <= rob_maxSize r.

(** What stays while instructions retire. *)
Definition rob_frame (r r' : Rob C) : Prop := rob_ok r' /\ rob_counter r' = rob_counter r /\ rob_maxSize r' = rob_maxSize r.

(** An attempt on a head with a pending latency always succeeds; a failed one leaves a latency pending. *)
Lemma can_retire_spec (ins : InstructionGroup) (r : Rob C) :
  rob_ok r -> exists ok ins1 r1, can_retire ins r = Some (ok, ins1, r1) /\ rob_frame r r1 /\ rob_queue r1 = rob_queue r /\ same ins ins1
    /\ (ok = false -> rob_cur_latency r = 0 /\ rob_cur_latency r1 <> 0).
Proof.
  intros (Hc & Hn & Hq). unfold can_retire. destruct (ig_address ins =? 0); [by exists true, ins, r|].
  unfold charge_latency. destruct (rob_cur_latency r =? 0) eqn:E; cycle 1.
  { cbn [mbind option_bind rob_cur_latency]. rewrite (proj2 (Z.ltb_ge _ _)) by (unfold wrap64; cbn; apply Z.mod_pos_bound; lia).
    do 3 eexists. split; [reflexivity|]. done. }
  apply Z.eqb_eq in E. destruct (rm_access_answers _ (wrap64 (ig_retireTimestamp ins)) _ Hc) as (l & c1 & -> & Hc1). cbn [mbind option_bind].
  destruct (rm_latency_answers _ l (d_of_Z 80) _ Hc1) as (d & c2 & -> & Hc2). cbn [mbind option_bind rob_cur_latency rob_currentCycle].
  set (lat := scaled_latency d (length (rob_queue r))). case_match eqn:Ew; do 3 eexists; (split; [reflexivity|]); (split; [done|]); (split; [done|]); (split; [done|]); [|done].
  intros _. split; [done|]. cbn. intros ->. apply Z.ltb_lt in Ew. change (wrap64 (0 ÷ 2)) with 0 in Ew.
  unfold wrap64 in Ew. pose proof (Z.mod_pos_bound (rob_currentCycle r + 0 - ig_cycleCount ins) (2 ^ 64)). lia.
Qed.

Lemma rob_frame_trans (r1 r2 r3 : Rob C) : rob_frame r1 r2 -> rob_frame r2 r3 -> rob_frame r1 r3.
Proof. intros (? & ? & ?) (? & ? & ?). split_and!; [done|congruence..]. Qed.

Lemma frame_queue (q : list InstructionGroup) (r r1 : Rob C) :
  rob_frame r r1 -> (length q <= length (rob_queue r1))%nat -> rob_frame r (set_rob_queue q r1).
Proof. intros ((Hc & Hn & Hq) & E1 & E2) Hl. split; [split_and!; [exact Hc|exact Hn|cbn; lia]|done]. Qed.

Lemma retire_up_to_spec (n : nat) (r : Rob C) :
  rob_ok r -> exists l r', retire_up_to n r = Some (l, r') /\ rob_frame r r' /\ Forall2 same (rob_queue r) (l ++ rob_queue r')
    /\ (n <> O -> rob_queue r <> [] -> l <> [] \/ (rob_cur_latency r = 0 /\ rob_cur_latency r' <> 0)).
Proof.
  revert r. induction n as [|n IH]; intros r Hok; cbn [retire_up_to]; [exists [], r; split_and!; [done|done|reflexivity|done]|].
  destruct (rob_queue r) as [|ins q] eqn:Eq; [exists [], r; rewrite Eq; split_and!; try done|].
  destruct (can_retire_spec ins r Hok) as (ok & ins1 & r1 & -> & Hf & Hq & Hs & Hfail). cbn [mbind option_bind]. rewrite Eq in Hq. destruct ok.
  - assert (Hf1 : rob_frame r (set_rob_queue q r1)) by (apply frame_queue; [done|rewrite Hq; cbn; lia]).
    destruct (IH (set_rob_queue q r1) (proj1 Hf1)) as (l & r2 & -> & Hf2 & Hl & _). cbn [mbind option_bind].
    exists (ins1 :: l), r2. split_and!; [done|by eapply rob_frame_trans|by constructor|by left].
  - exists [], (set_rob_queue (ins1 :: q) r1). split_and!; [done|apply frame_queue; [done|by rewrite Hq]|by constructor|]. right. by apply Hfail.
Qed.

Lemma tick_spec (r : Rob C) :
  rob_ok r -> exists l r', rob_tick r = Some (l, r') /\ rob_frame r r' /\ Forall2 same (rob_queue r) (l ++ rob_queue r')
    /\ (rob_queue r <> [] -> l <> [] \/ (rob_cur_latency r = 0 /\ rob_cur_latency r' <> 0)).
Proof.
  intros Hok. unfold rob_tick.
  match goal with |- context [retire_up_to _ ?r0] => destruct (retire_up_to_spec MAX_RETIRE_PER_CYCLE r0 Hok) as (l & r' & -> & Hf & Hl & Hp) end.
  exists l, r'. split_and!; [done|done|done|]. intros Hq. by apply Hp.
Qed.

(** Ticks that are left until the queue is empty. *)
Definition patience (r : Rob C) : nat := 2 * length (rob_queue r) + (if rob_cur_latency r =? 0 then 1 else 0).

Lemma tick_progress (r r' : Rob C) (l : list InstructionGroup) :
  Forall2 same (rob_queue r) (l ++ rob_queue r') -> l <> [] \/ (rob_cur_latency r = 0 /\ rob_cur_latency r' <> 0) -> (patience r' < patience r)%nat.
Proof.
  intros Hl%Forall2_length. rewrite length_app in Hl. unfold patience. intros [Hne|[-> Hc]].
  - destruct l as [|i l]; [done|]. cbn [length] in Hl. case_match; case_match; lia.
  - rewrite (proj2 (Z.eqb_neq _ _) Hc). cbn. destruct l; cbn [length] in Hl; lia.
Qed.

Lemma drain_spec (fuel : nat) (r : Rob C) :
  rob_ok r -> (patience r <= fuel)%nat ->
  exists l r', drain_loop fuel r = Some (l, r') /\ rob_frame r r' /\ rob_queue r' = [] /\ Forall2 same (rob_queue r) l.
Proof.
  revert r. induction fuel as [|fuel IH]; intros r Hok Hp; cbn [drain_loop].
  - destruct (rob_queue r) as [|i q] eqn:E; [exists [], r; by rewrite E|]. unfold patience in Hp. rewrite E in Hp. cbn in Hp. lia.
  - destruct (rob_queue r) as [|i q] eqn:E; [exists [], r; by rewrite E|]. rewrite <- E.
    destruct (tick_spec r Hok) as (l & r1 & -> & Hf & Hl & Hpr). cbn [mbind option_bind].
    assert (Hlt := tick_progress r r1 l Hl (Hpr ltac:(by rewrite E))).
    destruct (IH r1 (proj1 Hf)) as (l2 & r2 & -> & Hf2 & Hq & Hl2); [lia|]. cbn [mbind option_bind].
    exists (l ++ l2), r2. split_and!; [done|by eapply rob_frame_trans|done|]. etrans; [exact Hl|]. by apply Forall2_app.
Qed.

(** The instruction is issued at once if there is room. *)
Lemma issue_spec (ins : InstructionGroup) (r : Rob C) :
  rob_ok r -> rob_counter r < 2 ^ 31 - 1 ->
  if rob_maxSize r <=? Z.of_nat (length (rob_queue r)) then rob_issue ins r = Some (false, stall r)
  else exists r', rob_issue ins r = Some (true, r') /\ rob_ok r' /\ rob_maxSize r' = rob_maxSize r
    /\ rob_counter r <= rob_counter r' <= rob_counter r + 1 /\ rob_queue r' = rob_queue r ++ [ins].
Proof.
  intros (Hc & Hn & Hq) Hlt. unfold rob_issue. destruct (rob_maxSize r <=? Z.of_nat (length (rob_queue r))) eqn:E; [done|].
  apply Z.leb_gt in E. assert (Hl : Z.of_nat (length (rob_queue r ++ [ins])) <= rob_maxSize r) by (rewrite length_app; cbn; lia).
  destruct (ig_address ins =? 0).
  - eexists. split; [reflexivity|]. split; [done|]. cbn. split_and!; lia || done.
  - rewrite (proj2 (Z.leb_gt _ _)) by lia.
    destruct (rm_insert_answers _ (wrap64 (ig_retireTimestamp ins)) 0 (wrap64 (ig_address ins)) 0 _ Hc) as (c1 & -> & H1); [lia|]. cbn [mbind option_bind].
    destruct (rm_sample_answers _ (wrap64 (ig_retireTimestamp ins)) 1 _ H1) as (c2 & -> & H2). cbn [mbind option_bind].
    eexists. split; [reflexivity|]. split; [split_and!; [exact H2|cbn; lia|exact Hl]|]. cbn. split_and!; lia || done.
Qed.

(** Refusals that are possible before an instruction is issued. *)
Definition refusals (r : Rob C) : nat :=
  if rob_maxSize r <=? Z.of_nat (length (rob_queue r)) then (if rob_cur_latency r =? 0 then 2 else 1) else 0.

Lemma issue_loop_spec (fuel : nat) (ins : InstructionGroup) (r : Rob C) :
  rob_ok r -> 0 < rob_maxSize r -> rob_counter r < 2 ^ 31 - 1 -> (refusals r < fuel)%nat ->
  exists l r', issue_loop fuel ins r = Some (l, r') /\ rob_ok r' /\ rob_maxSize r' = rob_maxSize r
    /\ rob_counter r <= rob_counter r' <= rob_counter r + 1 /\ Forall2 same (rob_queue r ++ [ins]) (l ++ rob_queue r').
Proof.
  revert r. induction fuel as [|fuel IH]; intros r Hok Hm Hc Hf; [lia|]. cbn [issue_loop]. pose proof (issue_spec ins r Hok Hc) as Hi.
  unfold refusals in Hf. destruct (rob_maxSize r <=? Z.of_nat (length (rob_queue r))) eqn:E.
  - rewrite Hi. cbn [mbind option_bind]. destruct (tick_spec (stall r) Hok) as (l & r1 & -> & (Hok1 & Ec & Em) & Hl & Hp). cbn [mbind option_bind].
    apply Z.leb_le in E. cbn [stall rob_queue rob_cur_latency rob_counter rob_maxSize] in *.
    assert (Hne : rob_queue r <> []) by (intros E0; rewrite E0 in E; cbn in E; lia).
    destruct (IH r1 Hok1) as (l2 & r2 & -> & Hok2 & Em2 & Ec2 & Hl2); [lia|lia| |].
    + pose proof (Forall2_length _ _ _ Hl) as Hlen. rewrite length_app in Hlen. destruct Hok as (_ & _ & Hq). unfold refusals. rewrite Em.
      destruct (Hp Hne) as [Hl0|[H0 H1]].
      * destruct l; [done|]. cbn [length] in Hlen. rewrite (proj2 (Z.leb_gt _ _)) by lia. case_match; lia.
      * rewrite H0 in Hf. rewrite (proj2 (Z.eqb_neq _ _) H1). cbn in Hf. case_match; lia.
    + cbn [mbind option_bind]. exists (l ++ l2), r2. split_and!; [done|done|congruence|lia|lia|].
      etrans; [apply Forall2_app; [exact Hl|reflexivity]|]. rewrite <- !app_assoc. apply Forall2_app; [reflexivity|exact Hl2].
  - destruct Hi as (r' & -> & Hok' & Em & Ec & Eq). cbn [mbind option_bind]. exists [], r'. split_and!; [done|done|done|lia|lia|]. by rewrite Eq.
Qed.

Lemma refusals_bound (r : Rob C) : (refusals r <= 2)%nat.
Proof. unfold refusals. repeat case_match; lia. Qed.

Lemma issue_all_spec (fuel : nat) (instructions : list InstructionGroup) (r : Rob C) :
  rob_ok r -> 0 < rob_maxSize r -> rob_counter r + Z.of_nat (length instructions) <= 2 ^ 31 - 1 -> (2 < fuel)%nat ->
  exists l r', issue_all fuel instructions r = Some (l, r') /\ rob_ok r' /\ rob_maxSize r' = rob_maxSize r
    /\ Forall2 same (rob_queue r ++ instructions) (l ++ rob_queue r').
Proof.
  revert r. induction instructions as [|ins rest IH]; intros r Hok Hm Hc Hf; cbn [issue_all].
  - exists [], r. rewrite app_nil_r. done.
  - cbn [length] in Hc. pose proof (refusals_bound r).
    destruct (issue_loop_spec fuel ins r Hok Hm) as (l1 & r1 & -> & Hok1 & Em1 & Ec1 & H1); [lia|lia|]. cbn [mbind option_bind].
    destruct (tick_spec r1 Hok1) as (l2 & r2 & -> & (Hok2 & Ec2 & Em2) & H2 & _). cbn [mbind option_bind].
    destruct (IH r2 Hok2) as (l3 & r3 & -> & Hok3 & Em3 & H3); [lia|lia|done|]. cbn [mbind option_bind].
    exists (l1 ++ l2 ++ l3), r3. split_and!; [done|done|congruence|].
    rewrite (cons_middle ins), app_assoc. etrans; [apply Forall2_app; [exact H1|reflexivity]|]. rewrite <- !app_assoc. apply Forall2_app; [reflexivity|].
    etrans; [apply Forall2_app; [exact H2|reflexivity]|]. rewrite <- app_assoc. by apply Forall2_app.
Qed.

(** The driver's loops end, for any trace and any controller that answers: an instruction is
    refused at most twice before it is issued, the final loop needs at most two cycles for each
    instruction left, and every instruction is retired exactly once, in the order of the trace. *)
Theorem rob_completes (c : C) (size cycle : Z) (instructions : list InstructionGroup)
    (Hc : rm_ok 0 c) (Hs : 0 < size) (Hn : Z.of_nat (length instructions) < 2 ^ 31) :
  exists retired r, simulate (2 * Z.to_nat size + 1) instructions (rob_new c size cycle) = Some (retired, r)
    /\ rob_queue r = [] /\ Forall2 same instructions retired.
Proof.
  unfold simulate. assert (Hok : rob_ok (rob_new c size cycle)) by (split_and!; [exact Hc|cbn; lia..]).
  destruct (issue_all_spec (2 * Z.to_nat size + 1) instructions _ Hok) as (l1 & r1 & -> & Hok1 & Em & H1); [cbn; lia..|]. cbn [mbind option_bind].
  destruct (drain_spec (2 * Z.to_nat size + 1) r1 Hok1) as (l2 & r2 & -> & _ & Hq & H2).
  - destruct Hok1 as (_ & _ & Hl). cbn in Em. unfold patience. case_match; lia.
  - cbn [mbind option_bind]. exists (l1 ++ l2), r2. split_and!; [done|done|]. etrans; [exact H1|]. by apply Forall2_app.
Qed.
End RobProofs.
