(* ===== verification/RobController.v ===== *)
(** * The reorder buffer on the controller

    [Rob.v] is proved against the interface [RobMemory]; here the controller with any lawful
    policies implements it.  The tree operations that a sample and a retirement use always answer
    and keep the shape of the tree ([tree_answers]).  The last part shows what the buffer makes of
    the latencies: on a tree of local expanders every memory instruction costs one cycle. *)
From stdpp Require Import gmap list strings.
From Stdlib Require Import SpecFloat.
From S2P Require Import Prelude Double CoherencyEngine Expander Switch LruCache LbrWindow Topology Controller Policy Migration Access Rob.
#[local] Open Scope Z_scope.

(** ** The policies that the trace-driven front end installs ([new PagingPolicy] and so on) *)
Inductive BasePolicy := base_policy.

#[global] Instance base_paging : PagingPolicy BasePolicy := fun _ _ _ _ p => Some (0, p).

#[global] Instance base_caching {D} : CachingPolicy D BasePolicy :=
  {| should_cache _ _ p := (true, p); get_invalidation_list _ p := ([], p); caching_once c p := Some (0, p, c) |}.

#[global] Instance base_migration {D} : MigrationPolicy D BasePolicy :=
  fun c p => Some (match base_migration_list c with [] => 0 | _ => 1 end, p).

Section BaseLaws.
Context {D : Type} `{Double D}.

#[global] Program Instance base_paging_laws : PagingLaws BasePolicy := {| paging_ok _ := True |}.
Next Obligation. intros v p remote pt g _. by exists 0, g. Qed.

#[global] Program Instance base_caching_laws : CachingLaws D BasePolicy.
Next Obligation. intros c k Hl. exists 0, k, (cc_lru_cache c). by rewrite set_lru_same. Qed.

#[global] Program Instance base_migration_laws : MigrationLaws D BasePolicy.
Next Obligation. intros c m _. by exists 0, m. Qed.
End BaseLaws.

(** ** The tree always answers *)
Section Answers.
Context {D : Type} `{Double D}.

(** A property of the endpoints that [get_access] keeps on each is kept on all. *)
Definition access_keeps (ts : Z) (es es' : list (endpoint D)) : Prop :=
  length es' = length es /\ forall P : endpoint D -> Prop, (forall e, P e -> P (ep_get_access ts e).2) -> Forall P es -> Forall P es'.

Lemma access_keeps_trans (ts : Z) (es1 es2 es3 : list (endpoint D)) : access_keeps ts es1 es2 -> access_keeps ts es2 es3 -> access_keeps ts es1 es3.
Proof. intros [E1 H1] [E2 H2]. split; [congruence|eauto]. Qed.

Lemma access_expanders_answers (ts : Z) (ps : list nat) (es : list (endpoint D)) :
  valid_pointers es ps -> exists l es', access_expanders ts ps es = Some (l, es') /\ access_keeps ts es es'.
Proof.
  revert es. induction ps as [|p ps IH]; intros es Hv; cbn [access_expanders]; [by exists [], es|].
  apply Forall_cons in Hv as [Hp Hv]. destruct (lookup_lt_is_Some_2 es p Hp) as [e He]. rewrite He. cbn [mbind option_bind].
  destruct (ep_get_access ts e) as [l e'] eqn:Ea. destruct (IH (<[p := e']> es)) as (l2 & es2 & -> & Hl); [unfold valid_pointers in *; by rewrite length_insert|].
  cbn [mbind option_bind]. do 2 eexists. split; [done|]. refine (access_keeps_trans _ _ _ _ _ Hl). split; [by rewrite length_insert|].
  intros P HP Hes. apply Forall_insert; [done|]. specialize (HP e (Forall_lookup_1 _ _ _ _ Hes He)). by rewrite Ea in HP.
Qed.

Lemma sw_get_access_answers (ts : Z) (sw : CXLSwitch) (es : list (endpoint D)) :
  valid_pointers es (pointers sw) -> exists l es', sw_get_access ts sw es = Some (l, es') /\ access_keeps ts es es'.
Proof.
  revert es. induction sw as [ps ss c id ep lt IH] using switch_nested_ind. intros es. rewrite pointers_eq. intros [Hv1 Hv2]%Forall_app. cbn [sw_get_access].
  destruct (access_expanders_answers ts ps es Hv1) as (l & es1 & -> & Hl). cbn [mbind option_bind].
  match goal with |- context [?f ss es1] => set (go := f) end.
  assert (Hgo : forall es1, valid_pointers es1 (concat (pointers <$> ss)) -> exists l es2, go ss es1 = Some (l, es2) /\ access_keeps ts es1 es2).
  { clear es Hv1 Hv2 l es1 Hl. induction IH as [|s ss Hs _ IHss]; intros es Hv; cbn [go]; [by exists [], es|]. cbn [fmap list_fmap concat] in Hv. apply Forall_app in Hv as [Ha Hb].
    destruct (Hs es Ha) as (l & es1 & -> & Hl). cbn [mbind option_bind]. fold go.
    destruct (IHss es1) as (l2 & es2 & -> & Hl2); [unfold valid_pointers in *; by rewrite (proj1 Hl)|]. cbn [mbind option_bind]. do 2 eexists. split; [done|].
    by eapply access_keeps_trans. }
  destruct (Hgo es1) as (l2 & es2 & -> & Hl2); [unfold valid_pointers in *; by rewrite (proj1 Hl)|]. cbn [mbind option_bind]. do 2 eexists. split; [done|].
  by eapply access_keeps_trans.
Qed.

Lemma rob_expanders_answers (acc : list (Z * Z)) (ti : thread_info) (dram total : D) (ps : list nat) (es : list (endpoint D)) :
  valid_pointers es ps -> exists d es', rob_expanders acc ti dram ps total es = Some (d, es') /\ length es' = length es.
Proof.
  revert total es. induction ps as [|p ps IH]; intros total es Hv; cbn [rob_expanders]; [by exists total, es|].
  apply Forall_cons in Hv as [Hp Hv]. destruct (lookup_lt_is_Some_2 es p Hp) as [e ->]. cbn [mbind option_bind].
  destruct (endpoint_rob_latency acc ti dram e) as [l e'].
  destruct (IH (d_add total l) (<[p := e']> es)) as (d & es2 & -> & Hl); [unfold valid_pointers in *; by rewrite length_insert|].
  do 2 eexists. split; [done|]. by rewrite Hl, length_insert.
Qed.

Lemma rob_latency_answers (acc : list (Z * Z)) (ti : thread_info) (dram total : D) (sw : CXLSwitch) (es : list (endpoint D)) :
  valid_pointers es (pointers sw) -> exists d es', rob_latency acc ti dram sw total es = Some (d, es') /\ length es' = length es.
Proof.
  revert total es. induction sw as [ps ss c id ep lt IH] using switch_nested_ind. intros total es. rewrite pointers_eq. intros [Hv1 Hv2]%Forall_app. cbn [rob_latency].
  destruct (rob_expanders_answers acc ti dram total ps es Hv1) as (d & es1 & -> & Hl). cbn [mbind option_bind].
  assert (Hv : valid_pointers es1 (concat (pointers <$> ss))) by (unfold valid_pointers in *; by rewrite Hl). rewrite <- Hl. clear Hv1 Hv2 Hl es.
  revert d es1 Hv. induction IH as [|s ss Hs _ IHss]; intros d es Hv; [by exists d, es|]. cbn [fmap list_fmap concat] in Hv. apply Forall_app in Hv as [Ha Hb].
  destruct (Hs d es Ha) as (d1 & es1 & -> & Hl). cbn [mbind option_bind]. rewrite <- Hl. apply IHss. unfold valid_pointers in *. by rewrite Hl.
Qed.

Lemma latency_expanders_answers (elem : list (Z * Z)) (dram lat : D) (ps : list nat) (es : list (endpoint D)) (g : option (CoherencyEngine D)) :
  valid_pointers es ps -> exists d es' g', latency_expanders elem dram ps lat es g = Some (d, es', g') /\ length es' = length es.
Proof.
  revert lat es g. induction ps as [|p ps IH]; intros lat es g Hv; cbn [latency_expanders]; [by exists lat, es, g|].
  apply Forall_cons in Hv as [Hp Hv]. destruct (lookup_lt_is_Some_2 es p Hp) as [e ->]. cbn [mbind option_bind].
  destruct (ep_latency elem dram e g) as [[l e'] g1].
  destruct (IH (d_add lat l) (<[p := e']> es) g1) as (d & es2 & g2 & -> & Hl); [unfold valid_pointers in *; by rewrite length_insert|].
  do 3 eexists. split; [done|]. by rewrite Hl, length_insert.
Qed.

Lemma sw_latency_answers (elem : list (Z * Z)) (dram : D) (sw : CXLSwitch) (es : list (endpoint D)) (g : option (CoherencyEngine D)) :
  valid_pointers es (pointers sw) -> exists d es' g', sw_latency elem dram sw es g = Some (d, es', g') /\ length es' = length es.
Proof.
  revert es g. induction sw as [ps ss c id ep lt IH] using switch_nested_ind. intros es g. rewrite pointers_eq. intros [Hv1 Hv2]%Forall_app. cbn [sw_latency].
  destruct (latency_expanders_answers elem dram (d_of_Z 0) ps es g Hv1) as (d & es1 & g1 & -> & Hl). cbn [mbind option_bind].
  assert (Hv : valid_pointers es1 (concat (pointers <$> ss))) by (unfold valid_pointers in *; by rewrite Hl). rewrite <- Hl. clear Hv1 Hv2 Hl es g.
  revert d es1 g1 Hv. induction IH as [|s ss Hs _ IHss]; intros d es g Hv; [by exists d, es, g|]. cbn [fmap list_fmap concat] in Hv. apply Forall_app in Hv as [Ha Hb].
  destruct (Hs es g Ha) as (d1 & es1 & g1 & -> & Hl). cbn [mbind option_bind]. rewrite <- Hl. apply IHss. unfold valid_pointers in *. by rewrite Hl.
Qed.

Lemma bandwidth_expanders_answers (elem : list (Z * Z)) (bw : D) (ps : list nat) (es : list (endpoint D)) :
  valid_pointers es ps -> exists d, bandwidth_expanders elem ps bw es = Some d.
Proof.
  intros Hv. revert bw. induction Hv as [|p ps Hp _ IH]; intros bw; cbn [bandwidth_expanders]; [by eexists|].
  destruct (lookup_lt_is_Some_2 es p Hp) as [e ->]. apply IH.
Qed.

Lemma sw_bandwidth_answers (elem : list (Z * Z)) (sw : CXLSwitch) (es : list (endpoint D)) :
  valid_pointers es (pointers sw) -> exists d, sw_bandwidth elem sw es = Some d.
Proof.
  induction sw as [ps ss c id ep lt IH] using switch_nested_ind. rewrite pointers_eq. intros [Hv1 Hv2]%Forall_app. cbn [sw_bandwidth].
  destruct (bandwidth_expanders_answers elem (d_of_Z 0) ps es Hv1) as [d ->]. cbn [mbind option_bind].
  revert d Hv2. induction IH as [|s ss Hs _ IHss]; intros d Hv; [by exists d|]. cbn [fmap list_fmap concat] in Hv. apply Forall_app in Hv as [Ha Hb].
  destruct (Hs Ha) as [d1 ->]. cbn [mbind option_bind]. by apply IHss.
Qed.
End Answers.

(** ** The controller behind the buffer *)
Section Behind.
Context {D A G K M : Type} `{Double D} `{!AllocationPolicy D A} `{!PagingPolicy G} `{!CachingPolicy D K} `{!MigrationPolicy D M}.
Context (order : list Z -> list Z).        (* of the addresses in the hash tables of [calculate_congestion] *)

Notation state := (CXLController D * Policies A G K M)%type.

(** [lbrs.resize(32)]: records of zeros. *)
Definition empty_lbrs : list lbr := replicate 32 (mkLbr 0 0 0).

#[global] Instance controller_memory : RobMemory D state := {|
  rm_insert timestamp tid phys_addr virt_addr index s := snd <$> controller_insert timestamp tid phys_addr virt_addr index s;
  rm_sample timestamp tid s := c ← insert_lbrs order timestamp tid empty_lbrs s.1; Some (c, s.2);
  rm_get_access timestamp s := '(l, c) ← controller_get_access timestamp s.1; Some (l, (c, s.2));
  rm_latency elem dramlatency s := '(l, c) ← controller_latency elem dramlatency s.1; Some (l, (c, s.2))
|}.

Context `{!AllocationLaws D A} `{!PagingLaws G} `{!CachingLaws D K} `{!MigrationLaws D M}.

Definition controller_at (n : Z) (s : state) : Prop := sound s /\ cc_last_index s.1 = n /\ 0 <= cc_request_counter s.1 < 1000.

(** What the operations below the buffer keep of the controller. *)
Definition same_shape (c c' : CXLController D) : Prop :=
  cc_lru_cache c' = cc_lru_cache c /\ length (cc_endpoints c') = length (cc_endpoints c) /\ pointers (cc_root c') = pointers (cc_root c)
  /\ (tp_cur_expanders (cc_topo c') = tp_cur_expanders (cc_topo c) /\ tp_remote_expanders (cc_topo c') = tp_remote_expanders (cc_topo c)
      /\ tp_device_map (cc_topo c') = tp_device_map (cc_topo c))
  /\ (cc_hdm_decoder c' = cc_hdm_decoder c /\ cc_last_index c' = cc_last_index c /\ cc_request_counter c' = cc_request_counter c).

Lemma same_shape_at (n : Z) (c c' : CXLController D) (pol : Policies A G K M) : same_shape c c' -> controller_at n (c, pol) -> controller_at n (c', pol).
Proof.
  intros (E1 & E2 & E3 & (E4 & E5 & E6) & E7 & E8 & E9) ([[Hl (H1 & H2 & H3 & H4)] (Ha & Hg & Hk)] & Hi & Hr). cbn [fst snd] in *.
  unfold controller_at, sound, placed, policies_ok, tree_ok, cur_valid, valid_pointers, cc_root, cc_endpoints in *. cbn [fst snd].
  rewrite E1, E2, E3, E4, E5, E6, E7, E8, E9. done.
Qed.

Lemma get_access_shape (ts : Z) (c : CXLController D) :
  tree_ok (cc_topo c) -> exists l c', controller_get_access ts c = Some (l, c') /\ same_shape c c'.
Proof.
  intros (Hv & _). unfold controller_get_access. destruct (sw_get_access_answers ts (cc_root c) (cc_endpoints c) Hv) as (l & es & -> & Hl & _).
  cbn [mbind option_bind]. do 2 eexists. split; [done|]. done.
Qed.

Lemma latency_shape (elem : list (Z * Z)) (dram : D) (c : CXLController D) :
  tree_ok (cc_topo c) -> exists d c', controller_latency elem dram c = Some (d, c') /\ same_shape c c'.
Proof.
  intros (Hv & _). unfold controller_latency. destruct (sw_latency_answers elem dram (cc_root c) (cc_endpoints c) (lend_logp c) Hv) as (d & es & g & -> & Hl).
  cbn [mbind option_bind]. do 2 eexists. split; [done|]. done.
Qed.

Lemma tree_ok_shape (c c' : CXLController D) : same_shape c c' -> tree_ok (cc_topo c) -> tree_ok (cc_topo c').
Proof.
  intros (_ & E2 & E3 & (E4 & E5 & E6) & _). unfold tree_ok, cur_valid, valid_pointers, cc_root, cc_endpoints in *. by rewrite E2, E3, E4, E5, E6.
Qed.

Lemma same_shape_trans (c1 c2 c3 : CXLController D) : same_shape c1 c2 -> same_shape c2 c3 -> same_shape c1 c3.
Proof. unfold same_shape. intros (? & ? & ? & (? & ? & ?) & ? & ? & ?) (? & ? & ? & (? & ? & ?) & ? & ? & ?). split_and!; congruence. Qed.

(** The sample of zeros ends at its first record, so only the measurement is left. *)
Lemma sample_shape (ts tid : Z) (c : CXLController D) :
  tree_ok (cc_topo c) -> exists c', insert_lbrs order ts tid empty_lbrs c = Some c' /\ same_shape c c'.
Proof.
  intros Ht. unfold insert_lbrs. cbn [empty_lbrs replicate take insert_sample lb_from Z.eqb mbind option_bind].
  set (c1 := cc_set_threads _ _ c). assert (S1 : same_shape c c1) by done.
  destruct (get_access_shape ts c1 Ht) as (l & c2 & -> & S2). cbn [mbind option_bind].
  pose proof (same_shape_trans _ _ _ S1 S2) as S12. destruct (tree_ok_shape _ _ S12 Ht) as [Hv _].
  destruct (rob_latency_answers l (default thread_new (cc_thread_map c !! tid)) (cc_dramlatency c2) (d_of_Z 0) (cc_root c2) (cc_endpoints c2) Hv) as (d & es & -> & Hl).
  cbn [mbind option_bind]. assert (S3 : same_shape c (cc_set_endpoints es c2)) by (apply (same_shape_trans _ _ _ S12); done).
  destruct (tree_ok_shape _ _ S3 Ht) as [Hv3 _]. unfold controller_congestion. set (c3 := cc_set_endpoints es c2) in *.
  destruct (sw_congestion_answers order (cc_root c3) (cc_endpoints c3) Hv3) as (l4 & k4 & sw4 & -> & Hp). cbn [mbind option_bind].
  assert (S4 : same_shape c (cc_set_root sw4 c3)) by (apply (same_shape_trans _ _ _ S3); done).
  destruct (tree_ok_shape _ _ S4 Ht) as [Hv4 _]. unfold controller_bandwidth. destruct (sw_bandwidth_answers l (cc_root (cc_set_root sw4 c3)) (cc_endpoints (cc_set_root sw4 c3)) Hv4) as [bw ->]. cbn [mbind option_bind].
  eexists. split; [done|]. exact S4.
Qed.

#[global] Program Instance controller_memory_laws : RobMemoryLaws D state := {| rm_ok := controller_at |}.
Next Obligation.
  intros n ts tid a v [c pol] (Hs & Hi & Hr) Hn. cbn [fst] in *. cbn [rm_insert controller_memory].
  destruct (controller_insert_spec ts tid a v (n + 1) c pol Hs) as (res & c' & pol' & l & -> & Hs' & (Hi' & Hr') & _); [lia|unfold INT_MAX; lia|].
  exists (c', pol'). split; [done|]. split; [exact Hs'|]. cbn [fst]. rewrite Hi', Hr', Hi. cbv zeta. rewrite (proj2 (Z.ltb_lt _ _)) by lia.
  split; [done|]. destruct (Z.leb_spec 1000 (cc_request_counter c + (n + 1 - n))); lia.
Qed.
Next Obligation.
  intros n ts tid [c pol] Hn. pose proof Hn as ([[_ Ht] _] & _). destruct (sample_shape ts tid c Ht) as (c' & E & S).
  exists (c', pol). cbn [rm_sample controller_memory fst snd]. rewrite E. split; [done|]. by eapply same_shape_at.
Qed.
Next Obligation.
  intros n ts [c pol] Hn. pose proof Hn as ([[_ Ht] _] & _). destruct (get_access_shape ts c Ht) as (l & c' & E & S).
  exists l, (c', pol). cbn [rm_get_access controller_memory fst snd]. rewrite E. split; [done|]. by eapply same_shape_at.
Qed.
Next Obligation.
  intros n l dram [c pol] Hn. pose proof Hn as ([[_ Ht] _] & _). destruct (latency_shape l dram c Ht) as (d & c' & E & S).
  exists d, (c', pol). cbn [rm_latency controller_memory fst snd]. rewrite E. split; [done|]. by eapply same_shape_at.
Qed.
End Behind.

(** A trace of register and memory instructions through a buffer of two entries. *)
Definition demo_base : Policies (@NUMAPolicy spec_float) BasePolicy BasePolicy BasePolicy := mkPolicies [] (Some base_policy) (Some base_policy) (Some base_policy).

Definition demo_trace : list InstructionGroup :=
  [mkInstruction 64 10 10 20 "mov"; mkInstruction 0 11 11 21 "add"; mkInstruction 128 12 12 22 "mov"; mkInstruction 64 13 13 23 "mov"].

Lemma rob_completes_witness :
  exists retired r, simulate (RobMemory0 := controller_memory (fun l => l)) (2 * Z.to_nat 2 + 1) demo_trace (rob_new (demo_controller, demo_base) 2 0) = Some (retired, r)
    /\ rob_queue r = [] /\ Forall2 same demo_trace retired.
Proof.
  apply (rob_completes (RobMemory0 := controller_memory (fun l => l)) (RobMemoryLaws0 := controller_memory_laws (fun l => l)) (demo_controller, demo_base) 2 0 demo_trace).
  - split; [split; [split|]|].
    + apply lru_empty_ok. split; vm_compute; reflexivity.
    + split_and!; [repeat constructor..|]. apply (bool_decide_unpack _). vm_compute. exact I.
    + split_and!; [by left|done|by eexists].
    + vm_compute. split; [done|]. split; [discriminate|reflexivity].
  - reflexivity.
  - reflexivity.
Defined.

(** ** What the latencies amount to *)
Definition local_reachable (e : endpoint spec_float) : Prop :=
  exists x rb wb rl wl id cap, e = Local x /\ rtc (expander_step true) (expander_new rb wb rl wl id cap) x.

(** A zero times anything is a zero or no number, and the maximum with 1.0 is 1.0. *)
Lemma scaled_zero (n : nat) : scaled_latency (d_of_Z 0 : spec_float) n = 1.
Proof.
  unfold scaled_latency. change (d_mul (d_of_Z 0) (d_lit 8 100) : spec_float) with (S754_zero false).
  destruct (1 <? n)%nat; [|reflexivity]. generalize (d_min (d_lit 7 10) (d_sub (d_lit 9 10) (d_mul (d_of_Z (Z.of_nat n)) (d_lit 5 100))) : spec_float). intros f.
  by destruct f as [[]|[]| |[]].
Qed.

Section OneCycle.
Context {A G K M : Type} `{!AllocationPolicy spec_float A} `{!PagingPolicy G} `{!CachingPolicy spec_float K} `{!MigrationPolicy spec_float M}.
Context (order : list Z -> list Z).
#[local] Existing Instance controller_memory.

(** On a tree of local expanders, in whatever state they are, the buffer charges every memory
    instruction one cycle and one stall, however many instructions are in flight: the controller
    answers 0.0, which the scaling turns into its minimum. *)
Theorem rob_charges_one_cycle (ins : InstructionGroup) (c : CXLController spec_float) (pol : Policies A G K M) (r : Rob (CXLController spec_float * Policies A G K M))
    (Hr : rob_controller r = (c, pol)) (H0 : rob_cur_latency r = 0)
    (Hv : valid_pointers (cc_endpoints c) (pointers (cc_root c))) (Hes : Forall local_reachable (cc_endpoints c)) :
  exists r', charge_latency (RobMemory0 := controller_memory order) ins r
      = Some (mkInstruction (ig_address ins) (ig_cycleCount ins) (ig_fetchTimestamp ins) (ig_retireTimestamp ins + 1) (ig_instruction ins), r')
    /\ rob_cur_latency r' = 1 /\ rob_currentCycle r' = rob_currentCycle r + 1 /\ rob_stallCount r' = rob_stallCount r + 1.
Proof.
  unfold charge_latency. rewrite H0, Hr. cbn [Z.eqb rm_get_access rm_latency controller_memory fst snd]. unfold controller_get_access.
  destruct (sw_get_access_answers (wrap64 (ig_retireTimestamp ins)) (cc_root c) (cc_endpoints c) Hv) as (l & es & -> & Hl & Hk). cbn [mbind option_bind].
  assert (Hok : Forall local_ok es).
  { apply Hk; [by intros []|]. eapply Forall_impl; [exact Hes|]. intros e (x & rb & wb & rl & wl & id & cap & -> & Hx). by eapply expander_reachable_ok. }
  unfold controller_latency. cbn [fst snd].
  destruct (@sw_latency_zero spec_float binary64 eq_refl l (d_of_Z 80) (cc_root c) es (lend_logp c)) as (es' & E & _); [by unfold valid_pointers; rewrite Hl|exact Hok|].
  change (cc_root (cc_set_endpoints es c)) with (cc_root c). change (cc_endpoints (cc_set_endpoints es c)) with es.
  change (lend_logp (cc_set_endpoints es c)) with (lend_logp c). rewrite E. cbn [mbind option_bind]. rewrite scaled_zero.
  eexists. split; [done|]. done.
Qed.
End OneCycle.

Lemma rob_charges_one_cycle_witness :
  exists r', charge_latency (RobMemory0 := controller_memory (fun l => l)) (mkInstruction 64 10 10 20 "mov") (rob_new (demo_controller, demo_base) 512 0)
      = Some (mkInstruction 64 10 10 21 "mov", r')
    /\ rob_cur_latency r' = 1 /\ rob_currentCycle r' = 1 /\ rob_stallCount r' = 1.
Proof.
  apply (rob_charges_one_cycle (fun l => l) (mkInstruction 64 10 10 20 "mov") demo_controller demo_base (rob_new (demo_controller, demo_base) 512 0));
    [reflexivity|reflexivity|repeat constructor|].
  constructor; [|constructor]. do 7 eexists. split; [reflexivity|]. apply rtc_once. apply XInsert.
Defined.
