(* ===== verification/Trace.v ===== *)
(** * Pipeline traces ([src/rob.cc], [Rob::saveInstructionTrace] of [src/rob.cpp])

    The front end reads a trace of the O3 pipeline viewer, word by word, cuts it into groups that
    start at a [fetch] header, lets four threads parse the groups, sorts the instructions by their
    cycle, runs them through the reorder buffer and writes a trace in the same format.  Text is
    [string]; [None] is an exception that nothing catches ([std::stoull] in a thread ends the
    process), the overflow of a [long long], or [trim] on the empty string.  [trace_roundtrip] shows
    that a written trace parses back to the instructions.  The threads and the main program are in
    [RobMain.v]. *)
From stdpp Require Import strings pretty list sorting.
From Stdlib Require Import Ascii SpecFloat.
From S2P Require Import Prelude Double Topology Rob.
#[local] Open Scope Z_scope.

(** ** The library functions *)

(** [file >> line]: the words between white space. *)
Fixpoint words_from (tmp s : string) : list string :=
  match s with
  | EmptyString => flush tmp
  | String c s' => if is_space c then flush tmp ++ words_from EmptyString s' else words_from (tmp +:+ String c EmptyString) s'
  end.

Definition words (s : string) : list string := words_from EmptyString s.

(** [std::getline(iss, token, ':')]: no token after a colon at the end. *)
Fixpoint tokens_from (tmp s : string) : list string :=
  match s with
  | EmptyString => flush tmp
  | String c s' => if Ascii.eqb c ":" then tmp :: tokens_from EmptyString s' else tokens_from (tmp +:+ String c EmptyString) s'
  end.

Definition tokens (s : string) : list string := tokens_from EmptyString s.

(** [std::stoull]: no digits or a value out of range throw; a minus sign negates the result. *)
Definition stoull (s : string) : option Z :=
  let s1 := skip_space s in
  let '(neg, s2) := match s1 with String "-" r => (true, r) | String "+" r => (false, r) | _ => (false, s1) end in
  match s2 with
  | String c _ => if is_digit c then let v := atoi_digits 0 s2 in if 2 ^ 64 <=? v then None else Some (if (neg : bool) then wrap64 (- v) else v) else None
  | EmptyString => None
  end.

(** [unsigned long long] to [long long]. *)
Definition to_ll (v : Z) : Z := if v <? 2 ^ 63 then v else v - 2 ^ 64.

Definition in_ll (v : Z) : bool := (- 2 ^ 63 <=? v) && (v <? 2 ^ 63).

Definition checked (v : Z) : option Z := if in_ll v then Some v else None.

Definition contains (sub s : string) : bool := match String.index 0 sub s with Some _ => true | None => false end.

Definition tolower (c : ascii) : ascii := let n := N_of_ascii c in if (65 <=? n)%N && (n <=? 90)%N then ascii_of_N (n + 32) else c.

Fixpoint string_map (f : ascii -> ascii) (s : string) : string :=
  match s with EmptyString => EmptyString | String c s' => String (f c) (string_map f s') end.

(** [std::hex]: at most 16 digits. *)
Definition hex_char (d : Z) : ascii := ascii_of_N (Z.to_N (if d <? 10 then 48 + d else 87 + d)).

Fixpoint hex_go (fuel : nat) (v : Z) (s : string) : string :=
  match fuel with
  | O => s
  | S fuel' => let s' := String (hex_char (v mod 16)) s in if v / 16 =? 0 then s' else hex_go fuel' (v / 16) s'
  end.

Definition hex (v : Z) : string := hex_go 16 (wrap64 v) EmptyString.

(** ** Parsing a group *)

(** [trim]: the decrement of the end of an empty string is undefined. *)
Fixpoint trim_end (s : string) : string :=
  match s with
  | EmptyString => EmptyString
  | String c s' => match trim_end s' with EmptyString => if is_space c then EmptyString else String c EmptyString | t => String c t end
  end.

Definition trim (s : string) : option string := match s with EmptyString => None | _ => Some (trim_end (skip_space s)) end.

Definition starts_with (p s : string) : bool := String.prefix p s.

(** The lines that follow the first header, with the header. *)
Fixpoint from_fetch (group : list string) : option (string * list string) :=
  match group with
  | [] => None
  | line :: rest => if starts_with "O3PipeView:fetch:" line then Some (line, rest) else from_fetch rest
  end.

(** The exception of either number is caught, and resets both. *)
Definition parse_header (line : string) : Z * Z :=
  let ts := tokens line in
  if (6 <=? length ts)%nat then
    match ts !! 2%nat ≫= stoull, ts !! 5%nat ≫= stoull with
    | Some f, Some c => (to_ll f, to_ll c)
    | _, _ => (0, 0)
    end
  else (0, 0).

Fixpoint combine_lines (inst : string) (lines : list string) : option string :=
  match lines with
  | [] => Some inst
  | line :: rest =>
      if starts_with "O3PipeView:" line then combine_lines inst rest
      else t ← trim line; combine_lines ((match inst with EmptyString => inst | _ => inst +:+ " " end) +:+ t) rest
  end.

(** The last line of a kind with enough tokens decides. *)
Fixpoint parse_field (prefix : string) (need : nat) (v : Z) (lines : list string) : option Z :=
  match lines with
  | [] => Some v
  | line :: rest =>
      if starts_with prefix line && (need <=? length (tokens line))%nat
      then n ← tokens line !! 2%nat ≫= stoull; parse_field prefix need (to_ll n) rest
      else parse_field prefix need v rest
  end.

(** Without a header the address is left uninitialised. *)
Definition parseGroup (junk : Z) (group : list string) : option InstructionGroup :=
  match from_fetch group with
  | None => Some (mkInstruction junk 0 0 0 EmptyString)
  | Some (header, rest) =>
      let '(fetch, cycle) := parse_header header in
      inst ← combine_lines EmptyString rest;
      address ← parse_field "O3PipeView:address:" 3 0 group;
      retire ← parse_field "O3PipeView:retire:" 5 0 group;
      Some (mkInstruction address cycle fetch retire inst)
  end.

(** ** Cutting the file into groups *)

(** One turn of the producer: a group to queue, if a header starts the next. *)
Definition produce (lines : list string) (line : string) : option (list string) * list string :=
  let push l := match line with EmptyString => l | _ => l ++ [line] end in
  match lines with
  | _ :: _ => if starts_with "O3PipeView:fetch:" line then (Some lines, push []) else (None, push lines)
  | [] => (None, push lines)
  end.

Definition last_group (lines : list string) : list (list string) := match lines with [] => [] | _ => [lines] end.

Fixpoint produce_all (lines : list string) (file : list string) : list (list string) :=
  match file with
  | [] => last_group lines
  | line :: file' => let '(g, lines') := produce lines line in option_list g ++ produce_all lines' file'
  end.

Definition groups (file : string) : list (list string) := produce_all [] (words file).

(** What one thread adds for a group. *)
Definition parsed_group (junk : Z) (group : list string) : option (list InstructionGroup) :=
  ins ← parseGroup junk group; Some (if ig_retireTimestamp ins =? 0 then [] else [ins]).

Definition parse_groups (junk : Z) (gs : list (list string)) : option (list InstructionGroup) := @concat _ <$> mapM (parsed_group junk) gs.

(** The result of [parseInParallel]: [std::sort] does not keep the order of equal cycles. *)
Definition by_cycle (a b : InstructionGroup) : Prop := ig_cycleCount a <= ig_cycleCount b.

#[global] Instance by_cycle_dec (a b : InstructionGroup) : Decision (by_cycle a b) := decide (ig_cycleCount a <= ig_cycleCount b).

Definition parses (junk : Z) (file : string) (instructions : list InstructionGroup) : Prop :=
  exists l, parse_groups junk (groups file) = Some l /\ instructions ≡ₚ l /\ Sorted by_cycle instructions.

(** ** Writing a trace *)
Definition newline : ascii := ascii_of_N 10.

Fixpoint unlines (lines : list string) : string :=
  match lines with [] => EmptyString | l :: rest => l +:+ String newline (unlines rest) end.

(** The lines of one instruction; the times are [long long]. *)
Definition instruction_lines (memOpType : string) (ins : InstructionGroup) : option (list string) :=
  let fetchTS := ig_fetchTimestamp ins in
  let retireTS := ig_retireTimestamp ins in
  decodeTS ← checked (fetchTS + 500);
  renameTS ← checked (fetchTS + 1000);
  dispatchTS ← checked (fetchTS + 1500);
  issueTS ← checked (fetchTS + 1500);
  completeTS ← checked (retireTS - 500);
  tail ← (if ig_address ins =? 0 then Some ["O3PipeView:retire:" +:+ pretty retireTS +:+ ":store:0"]
          else accessTS ← checked (retireTS + 1000);
               Some ["O3PipeView:retire:" +:+ pretty retireTS +:+ ":" +:+ memOpType +:+ ":" +:+ pretty accessTS;
                     "O3PipeView:address:" +:+ pretty (ig_address ins)]);
  Some (["O3PipeView:fetch:" +:+ pretty fetchTS +:+ ":" +:+ "0x" +:+ hex (ig_address ins) +:+ ":0:" +:+ pretty (ig_cycleCount ins) +:+ ":  "
           +:+ ig_instruction ins;
         "O3PipeView:decode:" +:+ pretty decodeTS;
         "O3PipeView:rename:" +:+ pretty renameTS;
         "O3PipeView:dispatch:" +:+ pretty dispatchTS;
         "O3PipeView:issue:" +:+ pretty issueTS;
         "O3PipeView:complete:" +:+ pretty completeTS] ++ tail).

Definition delayed_op (inst : string) : string :=
  let l := string_map tolower inst in
  if contains "ld" l || contains "load" l || contains "mov_r_m" l then "load" else "store".

Definition saved_op (inst : string) : string := if contains "ld" inst || contains "load" inst then "load" else "store".

(** The text that is written to the file. *)
Definition generateDelayedTrace (instructions : list InstructionGroup) : option string :=
  ls ← mapM (fun ins => instruction_lines (delayed_op (ig_instruction ins)) ins) instructions; Some (unlines (concat ls)).

Definition saveInstructionTrace (instructions : list InstructionGroup) : option string :=
  ls ← mapM (fun ins => if ig_retireTimestamp ins =? 0 then Some [] else instruction_lines (saved_op (ig_instruction ins)) ins) instructions;
  Some (unlines (concat ls)).

(** ** Text *)

(** Neither white space nor a colon. *)
Definition plain_char (c : ascii) : bool := negb (is_space c) && negb (Ascii.eqb c ":").

Definition plain (s : string) : bool := string_forall plain_char s.

Definition solid (s : string) : bool := string_forall (fun c => negb (is_space c)) s.

(** What [file >> line] yields. *)
Definition a_word (s : string) : Prop := s <> EmptyString /\ solid s = true.

Lemma string_forall_app (f : ascii -> bool) (a b : string) : string_forall f (a +:+ b) = string_forall f a && string_forall f b.
Proof. induction a as [|c a IH]; [done|]. rewrite string_app_cons. cbn [string_forall]. by rewrite IH, andb_assoc. Qed.

Lemma string_forall_impl (f g : ascii -> bool) (s : string) : (forall c, f c = true -> g c = true) -> string_forall f s = true -> string_forall g s = true.
Proof. intros Hfg. induction s as [|c s IH]; [done|]. cbn [string_forall]. intros [Hc Hs]%andb_true_iff. by rewrite (Hfg c Hc), IH. Qed.

Lemma plain_solid (s : string) : plain s = true -> solid s = true.
Proof. apply string_forall_impl. by intros c [Hc _]%andb_true_iff. Qed.

Lemma words_space (tmp a b : string) (c : ascii) : is_space c = true -> words_from tmp (a +:+ String c b) = words_from tmp a ++ words b.
Proof.
  intros Hc. revert tmp. induction a as [|x a IH]; intros tmp.
  - change (EmptyString +:+ String c b) with (String c b). cbn [words_from]. by rewrite Hc.
  - rewrite string_app_cons. cbn [words_from]. destruct (is_space x); [|apply IH]. by rewrite IH, app_assoc.
Qed.

Lemma words_solid (tmp w : string) : solid w = true -> words_from tmp w = flush (tmp +:+ w).
Proof.
  revert tmp. induction w as [|c w IH]; intros tmp; [by rewrite string_app_nil|]. unfold solid. cbn [string_forall words_from]. intros [Hc Hw]%andb_true_iff.
  destruct (is_space c); [done|]. rewrite IH by done. by rewrite string_app_assoc.
Qed.

Lemma words_word (w : string) : a_word w -> words w = [w].
Proof. intros [Hn Hs]. unfold words. rewrite words_solid by done. by destruct w. Qed.

Lemma words_from_words (tmp s : string) : solid tmp = true -> Forall a_word (words_from tmp s).
Proof.
  assert (Hf : forall t, solid t = true -> Forall a_word (flush t)) by (intros [|c t] Ht; cbn; [constructor|by repeat constructor]).
  revert tmp. induction s as [|c s IH]; intros tmp Ht; cbn [words_from]; [by apply Hf|]. destruct (is_space c) eqn:Ec.
  - apply Forall_app. split; [by apply Hf|by apply IH].
  - apply IH. unfold solid in *. rewrite string_forall_app, Ht. cbn. by rewrite Ec.
Qed.

Lemma words_unlines (lines : list string) : words (unlines lines) = concat (words <$> lines).
Proof. induction lines as [|l lines IH]; [done|]. cbn [unlines fmap list_fmap concat]. unfold words at 1. rewrite words_space by done. by rewrite IH. Qed.

Lemma tokens_colon (tmp t s : string) : plain t = true -> tokens_from tmp (t +:+ String ":" s) = (tmp +:+ t) :: tokens s.
Proof.
  revert tmp. induction t as [|c t IH]; intros tmp; [by rewrite string_app_nil|]. unfold plain. cbn [string_forall]. intros [[_ Hc]%andb_true_iff Ht]%andb_true_iff.
  rewrite string_app_cons. cbn [tokens_from]. destruct (Ascii.eqb c ":"); [done|]. rewrite IH by done. by rewrite string_app_assoc.
Qed.

Lemma tokens_last (tmp t : string) : plain t = true -> tokens_from tmp t = flush (tmp +:+ t).
Proof.
  revert tmp. induction t as [|c t IH]; intros tmp; [by rewrite string_app_nil|]. unfold plain. cbn [string_forall tokens_from]. intros [[_ Hc]%andb_true_iff Ht]%andb_true_iff.
  destruct (Ascii.eqb c ":"); [done|]. rewrite IH by done. by rewrite string_app_assoc.
Qed.

(** *** Numbers *)
Lemma digit_plain (c : ascii) : is_digit c = true -> plain_char c = true.
Proof. destruct c as [[] [] [] [] [] [] [] []]; vm_compute; done. Qed.

Lemma pretty_N_digits (n : N) :
  string_forall is_digit (pretty n) = true /\ pretty n <> EmptyString /\ atoi_digits 0 (pretty n) = Z.of_N n.
Proof.
  unfold pretty, pretty_N. case_decide as Hz; [by subst|].
  destruct (pretty_go_atoi n EmptyString ltac:(lia)) as (ds & -> & Hd & Hn & Ha). rewrite string_app_nil. split_and!; [done|done|].
  destruct (Ha 0 EmptyString) as (k & E & _). rewrite string_app_nil in E. rewrite E. cbn. lia.
Qed.

Lemma stoull_digits (ds : string) : string_forall is_digit ds = true -> ds <> EmptyString -> atoi_digits 0 ds < 2 ^ 64 -> stoull ds = Some (atoi_digits 0 ds).
Proof.
  destruct ds as [|c ds]; [done|]. intros Hd _ Hlt. pose proof Hd as [Hc _]%andb_true_iff. unfold stoull. cbn [skip_space]. rewrite (proj2 (digit_not_delimiter c Hc)).
  assert (E : match String c ds with String "-" r => (true, r) | String "+" r => (false, r) | _ => (false, String c ds) end = (false, String c ds))
    by (clear -Hc; destruct c as [[] [] [] [] [] [] [] []]; vm_compute in Hc; done).
  rewrite E, Hc, (proj2 (Z.leb_gt _ _)) by exact Hlt. done.
Qed.

Lemma stoull_minus (ds : string) :
  string_forall is_digit ds = true -> ds <> EmptyString -> atoi_digits 0 ds < 2 ^ 64 -> stoull (String "-" ds) = Some (wrap64 (- atoi_digits 0 ds)).
Proof.
  destruct ds as [|c ds]; [done|]. intros [Hc _]%andb_true_iff _ Hlt. unfold stoull. cbn [skip_space]. change (is_space "-") with false. cbv iota.
  rewrite Hc, (proj2 (Z.leb_gt _ _)) by exact Hlt. done.
Qed.

(** A printed [long long] is read back, also a negative one. *)
Lemma read_back (z : Z) : in_ll z = true -> to_ll <$> stoull (pretty z) = Some z.
Proof.
  unfold in_ll, to_ll. intros [H1 H2]%andb_true_iff. zify_bool. destruct z as [|p|p]; [done| |].
  - change (pretty (Z.pos p)) with (pretty (N.pos p)). destruct (pretty_N_digits (N.pos p)) as (Hd & Hn & Ha).
    rewrite stoull_digits by (done || lia). rewrite Ha. cbn. f_equal. rewrite (proj2 (Z.ltb_lt _ _)) by lia. lia.
  - change (pretty (Z.neg p)) with (String "-" (pretty (N.pos p))). destruct (pretty_N_digits (N.pos p)) as (Hd & Hn & Ha).
    rewrite stoull_minus by (done || lia). rewrite Ha. cbn [fmap option_fmap option_map]. f_equal. unfold wrap64.
    replace (- Z.of_N (N.pos p)) with (2 ^ 64 + Z.neg p + (-1) * 2 ^ 64) by lia. rewrite Z.mod_add, Z.mod_small by lia.
    rewrite (proj2 (Z.ltb_ge _ _)) by lia. lia.
Qed.

Lemma pretty_plain (z : Z) : plain (pretty z) = true /\ pretty z <> EmptyString.
Proof.
  assert (Hp : forall n : N, plain (pretty n) = true) by (intros n; apply (string_forall_impl is_digit); [exact digit_plain|apply pretty_N_digits]).
  destruct z as [|p|p]; [done|exact (conj (Hp (N.pos p)) (proj1 (proj2 (pretty_N_digits (N.pos p)))))|].
  change (pretty (Z.neg p)) with (String "-" (pretty (N.pos p))). split; [|done]. unfold plain. cbn [string_forall]. apply Hp.
Qed.

Lemma hex_plain (v : Z) : plain (hex v) = true.
Proof.
  assert (Hc : forall d, 0 <= d < 16 -> plain_char (hex_char d) = true).
  { assert (Hall : Forall (fun d => plain_char (hex_char d) = true) (seqZ 0 16)) by (vm_compute; repeat constructor).
    intros d Hd. apply (proj1 (Forall_forall _ _) Hall). apply elem_of_seqZ. lia. }
  unfold hex. generalize (wrap64 v). assert (Hg : forall n v s, plain s = true -> plain (hex_go n v s) = true); [|by intros; apply Hg].
  induction n as [|n IH]; intros z s Hs; cbn [hex_go]; [done|].
  assert (Hs' : plain (String (hex_char (z mod 16)) s) = true) by (unfold plain; cbn [string_forall]; rewrite Hc by (apply Z.mod_pos_bound; lia); exact Hs).
  destruct (z / 16 =? 0); [done|by apply IH].
Qed.

(** ** Groups *)
Definition is_fetch (line : string) : bool := starts_with "O3PipeView:fetch:" line.

Lemma produce_rest (lines rest more : list string) :
  lines <> [] -> Forall (fun l => l <> EmptyString /\ is_fetch l = false) rest -> produce_all lines (rest ++ more) = produce_all (lines ++ rest) more.
Proof.
  intros Hl Hr. revert lines Hl. induction Hr as [|l rest [Hn Hf] _ IH]; intros lines Hl; cbn [app]; [by rewrite app_nil_r|].
  cbn [produce_all]. unfold produce. unfold is_fetch in Hf. destruct lines as [|x lines]; [done|]. rewrite Hf. destruct l as [|c l]; [done|].
  cbn [option_list app]. change (x :: lines ++ [String c l]) with ((x :: lines) ++ [String c l]). rewrite IH by done.
  by rewrite <- app_assoc.
Qed.

(** A group starts at a header and has no other. *)
Definition a_group (g : list string) : Prop :=
  exists h rest, g = h :: rest /\ is_fetch h = true /\ Forall (fun l => l <> EmptyString /\ is_fetch l = false) rest.

Lemma is_fetch_nonempty (h : string) : is_fetch h = true -> h <> EmptyString.
Proof. by intros H ->. Qed.

Lemma produce_groups (gs : list (list string)) : Forall a_group gs -> produce_all [] (concat gs) = gs.
Proof.
  assert (Hgo : forall h rest gs, is_fetch h = true -> Forall (fun l => l <> EmptyString /\ is_fetch l = false) rest -> Forall a_group gs ->
    (forall lines, lines <> [] -> produce_all lines (concat gs) = lines :: gs) -> produce_all [h] (rest ++ concat gs) = (h :: rest) :: gs).
  { intros h rest gs' Hh Hr Hg IH. rewrite produce_rest by done. by apply IH. }
  assert (Hall : forall gs, Forall a_group gs -> forall lines, lines <> [] -> produce_all lines (concat gs) = lines :: gs).
  { clear gs. induction 1 as [|g gs (h & rest & -> & Hh & Hr) Hg IH]; intros lines Hl; [by destruct lines|].
    cbn [concat app produce_all]. unfold produce. destruct lines as [|x lines]; [done|]. pose proof Hh as Hf. unfold is_fetch in Hf. rewrite Hf.
    destruct h as [|c h]; [done|]. cbn [option_list app]. f_equal. by apply Hgo. }
  intros Hg. destruct Hg as [|g gs (h & rest & -> & Hh & Hr) Hg]; [done|]. cbn [concat app produce_all produce].
  destruct h as [|c h]; [done|]. cbn [option_list app]. apply Hgo; [done..|]. by apply Hall.
Qed.

(** *** Scanning the lines of a group *)
Lemma starts_with_app (p q s : string) : starts_with (p +:+ q) s = true -> starts_with p s = true.
Proof.
  unfold starts_with. revert s. induction p as [|c p IH]; intros [|x s]; rewrite ?string_app_cons; cbn [String.prefix]; try done.
  destruct (ascii_dec c x); [|done]. apply IH.
Qed.

Lemma starts_with_here (p s : string) : starts_with p (p +:+ s) = true.
Proof. unfold starts_with. induction p as [|c p IH]; [by destruct s|]. rewrite string_app_cons. cbn. by destruct (ascii_dec c c). Qed.

Definition is_text (line : string) : bool := negb (starts_with "O3PipeView:" line).

Lemma text_not (kind line : string) : is_text line = true -> starts_with ("O3PipeView:" +:+ kind) line = false.
Proof.
  intros Ht. destruct (starts_with ("O3PipeView:" +:+ kind) line) eqn:E; [|done]. apply starts_with_app in E. unfold is_text in Ht. by rewrite E in Ht.
Qed.

Lemma combine_app (inst : string) (a b : list string) : combine_lines inst (a ++ b) = combine_lines inst a ≫= fun i => combine_lines i b.
Proof.
  revert inst. induction a as [|l a IH]; intros inst; [done|]. cbn [app combine_lines]. destruct (starts_with _ l); [apply IH|].
  destruct (trim l); [|done]. apply IH.
Qed.

Lemma combine_skip (inst : string) (lines : list string) : Forall (fun l => is_text l = false) lines -> combine_lines inst lines = Some inst.
Proof. induction 1 as [|l lines Hl _ IH]; [done|]. cbn [combine_lines]. unfold is_text in Hl. apply negb_false_iff in Hl. by rewrite Hl. Qed.

Lemma field_skip (p : string) (n : nat) (v : Z) (lines rest : list string) :
  Forall (fun l => starts_with p l = false) lines -> parse_field p n v (lines ++ rest) = parse_field p n v rest.
Proof. induction 1 as [|l lines Hl _ IH]; [done|]. cbn [app parse_field]. by rewrite Hl. Qed.

Lemma trim_word (w : string) : a_word w -> trim w = Some w.
Proof.
  intros [Hn Hs]. destruct w as [|c w]; [done|]. unfold trim. f_equal. unfold solid in Hs. cbn [string_forall] in Hs. apply andb_true_iff in Hs as [Hc Hs].
  cbn [skip_space]. apply negb_true_iff in Hc. rewrite Hc. clear Hn. revert c Hc. induction w as [|d w IH]; intros c Hc; [cbn; by rewrite Hc|].
  cbn [string_forall] in Hs. apply andb_true_iff in Hs as [Hd Hs]. apply negb_true_iff in Hd. cbn [trim_end] in *. by rewrite (IH Hs d Hd).
Qed.

(** *** The words of an instruction *)
Lemma combine_words (inst s : string) (lines : list string) :
  Forall a_word lines -> combine_lines inst lines = Some s -> words s = words inst ++ filter (fun l => is_text l = true) lines.
Proof.
  intros Hw. revert inst. induction Hw as [|l lines Hl _ IH]; intros inst; cbn [combine_lines]; [intros [= ->]; by rewrite app_nil_r|].
  destruct (starts_with "O3PipeView:" l) eqn:Ep.
  - intros E. rewrite filter_cons_False by (unfold is_text; by rewrite Ep). by apply IH.
  - rewrite (trim_word l Hl). cbn [mbind option_bind]. intros E%IH. rewrite E, filter_cons_True by (unfold is_text; by rewrite Ep).
    rewrite (cons_middle l), app_assoc. f_equal. clear E. destruct inst as [|c inst]; [by rewrite words_word|].
    rewrite string_app_assoc. change (" " +:+ l) with (String " " l). unfold words at 1. rewrite words_space by done. by rewrite (words_word l Hl).
Qed.

Lemma combine_filter (inst : string) (lines : list string) : combine_lines inst (filter (fun l => is_text l = true) lines) = combine_lines inst lines.
Proof.
  revert inst. induction lines as [|l lines IH]; intros inst; [done|]. cbn [combine_lines]. destruct (starts_with "O3PipeView:" l) eqn:Ep.
  - rewrite filter_cons_False by (unfold is_text; by rewrite Ep). apply IH.
  - rewrite filter_cons_True by (unfold is_text; by rewrite Ep). cbn [combine_lines]. rewrite Ep. destruct (trim l); [apply IH|done].
Qed.

(** A text that the parser can have combined. *)
Definition text_ok (s : string) : Prop := Forall (fun w => is_text w = true) (words s) /\ combine_lines EmptyString (words s) = Some s.

Lemma combined_text_ok (lines : list string) (s : string) : Forall a_word lines -> combine_lines EmptyString lines = Some s -> text_ok s.
Proof.
  intros Hw E. unfold text_ok. rewrite (combine_words _ _ _ Hw E). change (words EmptyString) with (@nil string). cbn [app]. split.
  - apply Forall_forall. intros w Hin. by apply list_elem_of_filter in Hin as [? _].
  - by rewrite combine_filter.
Qed.

(** *** Instructions as they are parsed and as they can be printed *)
Definition instruction_ok (ins : InstructionGroup) : Prop :=
  in_ll (ig_address ins) = true /\ in_ll (ig_cycleCount ins) = true /\ in_ll (ig_fetchTimestamp ins) = true /\ in_ll (ig_retireTimestamp ins) = true
  /\ text_ok (ig_instruction ins).

(** The times of the stages are in the range of a [long long]. *)
Definition stages_fit (ins : InstructionGroup) : Prop :=
  ig_fetchTimestamp ins + 1500 < 2 ^ 63 /\ - 2 ^ 63 + 500 <= ig_retireTimestamp ins /\ ig_retireTimestamp ins + 1000 < 2 ^ 63.

Lemma stoull_range (s : string) (v : Z) : stoull s = Some v -> in_ll (to_ll v) = true.
Proof.
  unfold stoull. assert (Hb : forall acc t, 0 <= acc -> 0 <= atoi_digits acc t).
  { intros acc t. revert acc. induction t as [|c t IH]; intros acc Ha; cbn [atoi_digits]; [done|]. destruct (digit_of c) as [d|] eqn:Ed; [|done].
    apply IH. unfold digit_of in Ed. case_match eqn:Er; [|done]. injection Ed as <-. apply andb_true_iff in Er as [? ?]. zify_bool. lia. }
  destruct (match skip_space s with String "-" r => (true, r) | String "+" r => (false, r) | _ => (false, skip_space s) end) as [neg s2].
  destruct s2 as [|c s2]; [done|]. destruct (is_digit c); [|done]. cbv zeta. specialize (Hb 0 (String c s2) ltac:(lia)). generalize dependent (atoi_digits 0 (String c s2)).
  intros n Hb. destruct (2 ^ 64 <=? n) eqn:E; [done|]. zify_bool. assert (Hw := Z.mod_pos_bound (- n) (2 ^ 64) ltac:(lia)).
  unfold in_ll, to_ll, wrap64. intros [= <-]. apply andb_true_iff. rewrite Z.leb_le, Z.ltb_lt.
  destruct neg; [destruct (Z.ltb_spec (- n mod 2 ^ 64) (2 ^ 63))|destruct (Z.ltb_spec n (2 ^ 63))]; lia.
Qed.

Lemma field_range (p : string) (n : nat) (v r : Z) (lines : list string) : in_ll v = true -> parse_field p n v lines = Some r -> in_ll r = true.
Proof.
  revert v. induction lines as [|l lines IH]; intros v Hv; cbn [parse_field]; [by intros [= <-]|]. case_match; [|by apply IH].
  destruct (tokens l !! 2%nat ≫= stoull) as [m|] eqn:E; [|done]. cbn [mbind option_bind]. apply IH. apply bind_Some in E as (t & _ & E). by eapply stoull_range.
Qed.

Lemma from_fetch_suffix (g rest : list string) (h : string) : from_fetch g = Some (h, rest) -> rest ⊆ g.
Proof.
  induction g as [|l g IH]; cbn [from_fetch]; [done|]. destruct (starts_with _ l); [intros [= _ ->]; set_solver|]. intros E%IH. set_solver.
Qed.

(** What a thread finds is as it should be. *)
Lemma parsed_ok (junk : Z) (g : list string) (l : list InstructionGroup) :
  Forall a_word g -> parsed_group junk g = Some l -> Forall (fun i => instruction_ok i /\ ig_retireTimestamp i <> 0) l.
Proof.
  intros Hg. unfold parsed_group, parseGroup. destruct (from_fetch g) as [[h rest]|] eqn:Ef; [|by intros [= <-]].
  destruct (parse_header h) as [fetch cycle] eqn:Eh. destruct (combine_lines EmptyString rest) as [inst|] eqn:Ec; [|done]. cbn [mbind option_bind].
  destruct (parse_field "O3PipeView:address:" 3 0 g) as [address|] eqn:Ea; [|done]. cbn [mbind option_bind].
  destruct (parse_field "O3PipeView:retire:" 5 0 g) as [retire|] eqn:Er; [|done]. cbn [mbind option_bind ig_retireTimestamp].
  destruct (retire =? 0) eqn:Ez; intros [= <-]; constructor; [|constructor]. apply Z.eqb_neq in Ez. split; [|done].
  assert (Hh : in_ll fetch = true /\ in_ll cycle = true).
  { unfold parse_header in Eh. case_match; [|by simplify_eq]. destruct (tokens h !! 2%nat ≫= stoull) as [a|] eqn:E1; [|by simplify_eq].
    destruct (tokens h !! 5%nat ≫= stoull) as [b|] eqn:E2; [|by simplify_eq]. simplify_eq. apply bind_Some in E1 as (? & _ & E1), E2 as (? & _ & E2). by eauto using stoull_range. }
  split_and!; cbn; [exact (field_range _ _ 0 _ _ eq_refl Ea)|apply Hh|apply Hh|exact (field_range _ _ 0 _ _ eq_refl Er)|]. eapply combined_text_ok; [|exact Ec].
  apply Forall_forall. intros w Hw. apply (proj1 (Forall_forall _ _) Hg). by apply (from_fetch_suffix _ _ _ Ef).
Qed.

(** ** What a written instruction parses to *)
Definition header_word (ins : InstructionGroup) : string :=
  "O3PipeView:fetch:" +:+ pretty (ig_fetchTimestamp ins) +:+ ":" +:+ "0x" +:+ hex (ig_address ins) +:+ ":0:" +:+ pretty (ig_cycleCount ins) +:+ ":".

Definition stage_words (ins : InstructionGroup) : list string :=
  ["O3PipeView:decode:" +:+ pretty (ig_fetchTimestamp ins + 500); "O3PipeView:rename:" +:+ pretty (ig_fetchTimestamp ins + 1000);
   "O3PipeView:dispatch:" +:+ pretty (ig_fetchTimestamp ins + 1500); "O3PipeView:issue:" +:+ pretty (ig_fetchTimestamp ins + 1500);
   "O3PipeView:complete:" +:+ pretty (ig_retireTimestamp ins - 500)].

Definition retire_words (op : string) (ins : InstructionGroup) : list string :=
  if ig_address ins =? 0 then ["O3PipeView:retire:" +:+ pretty (ig_retireTimestamp ins) +:+ ":store:0"]
  else ["O3PipeView:retire:" +:+ pretty (ig_retireTimestamp ins) +:+ ":" +:+ op +:+ ":" +:+ pretty (ig_retireTimestamp ins + 1000);
        "O3PipeView:address:" +:+ pretty (ig_address ins)].

Definition instruction_group (op : string) (ins : InstructionGroup) : list string :=
  header_word ins :: words (ig_instruction ins) ++ stage_words ins ++ retire_words op ins.

Lemma checked_fits (v : Z) : - 2 ^ 63 <= v < 2 ^ 63 -> checked v = Some v.
Proof. intros Hv. unfold checked, in_ll. rewrite (proj2 (Z.leb_le _ _)), (proj2 (Z.ltb_lt _ _)) by lia. done. Qed.

Lemma prefixed_word (p s : string) : solid p = true -> p <> EmptyString -> solid s = true -> words (p +:+ s) = [p +:+ s].
Proof. intros Hp Hn Hs. apply words_word. split; [by destruct p|]. unfold solid in *. by rewrite string_forall_app, Hp, Hs. Qed.

Lemma solid_app (a b : string) : solid a = true -> solid b = true -> solid (a +:+ b) = true.
Proof. intros Ha Hb. unfold solid in *. by rewrite string_forall_app, Ha, Hb. Qed.

Lemma pretty_solid (z : Z) : solid (pretty z) = true.
Proof. apply plain_solid, pretty_plain. Qed.

Lemma hex_solid (v : Z) : solid (hex v) = true.
Proof. apply plain_solid, hex_plain. Qed.

Create HintDb text discriminated.
#[local] Hint Resolve solid_app pretty_solid hex_solid pretty_plain hex_plain : text.
#[local] Hint Extern 1 (_ = true) => reflexivity : text.
#[local] Hint Extern 1 (_ <> EmptyString) => discriminate : text.

Lemma instruction_words (op : string) (ins : InstructionGroup) :
  instruction_ok ins -> stages_fit ins -> op = "load" \/ op = "store" ->
  exists lines, instruction_lines op ins = Some lines /\ concat (words <$> lines) = instruction_group op ins.
Proof.
  intros (Ha & Hc & Hf & Hr & _) (H1 & H2 & H3) Hop. unfold in_ll in *. apply andb_true_iff in Hf as [? ?], Hr as [? ?]. zify_bool. unfold instruction_lines.
  assert (Hops : solid op = true) by by destruct Hop as [->| ->].
  rewrite (checked_fits (ig_fetchTimestamp ins + 500)), (checked_fits (ig_fetchTimestamp ins + 1000)), (checked_fits (ig_fetchTimestamp ins + 1500)),
    (checked_fits (ig_retireTimestamp ins - 500)), (checked_fits (ig_retireTimestamp ins + 1000)) by lia. cbn [mbind option_bind].
  assert (Eh : forall s, words ("O3PipeView:fetch:" +:+ pretty (ig_fetchTimestamp ins) +:+ ":" +:+ "0x" +:+ hex (ig_address ins) +:+ ":0:" +:+ pretty (ig_cycleCount ins) +:+ ":  " +:+ s)
    = header_word ins :: words s).
  { intros s. replace (_ +:+ _) with (header_word ins +:+ String " " (String " " s)); [|unfold header_word; by rewrite !string_app_assoc].
    unfold words at 1. rewrite words_space by done. change (words_from EmptyString (header_word ins)) with (words (header_word ins)).
    unfold header_word. rewrite prefixed_word by auto 12 with text. cbn [app]. f_equal. }
  unfold instruction_group, retire_words, stage_words. destruct (ig_address ins =? 0); cbn [mbind option_bind]; eexists; (split; [reflexivity|]);
    cbn [fmap list_fmap concat app]; rewrite Eh; rewrite !prefixed_word by auto 12 with text; cbn [app]; by rewrite ?app_nil_r.
Qed.

Lemma tokens_piece (t s : string) : plain t = true -> tokens (t +:+ String ":" s) = t :: tokens s.
Proof. intros Ht. unfold tokens at 1. by rewrite tokens_colon. Qed.

Lemma tokens_end (t : string) : plain t = true -> t <> EmptyString -> tokens t = [t].
Proof. intros Ht Hn. unfold tokens. rewrite tokens_last by done. by destruct t. Qed.

Lemma header_tokens (ins : InstructionGroup) :
  tokens (header_word ins) = ["O3PipeView"; "fetch"; pretty (ig_fetchTimestamp ins); "0x" +:+ hex (ig_address ins); "0"; pretty (ig_cycleCount ins)].
Proof.
  unfold header_word. change ("O3PipeView:fetch:" +:+ ?s) with ("O3PipeView" +:+ String ":" ("fetch" +:+ String ":" s)).
  rewrite (tokens_piece "O3PipeView"), (tokens_piece "fetch") by done. change (":" +:+ ?s) with (String ":" s) at 1. rewrite tokens_piece by apply pretty_plain.
  rewrite <- (string_app_assoc "0x"). change (":0:" +:+ ?s) with (String ":" ("0" +:+ String ":" s)).
  rewrite tokens_piece by (unfold plain; rewrite string_forall_app; apply hex_plain). rewrite (tokens_piece "0") by done.
  change (":") with (String ":" EmptyString). rewrite tokens_piece by apply pretty_plain. done.
Qed.

Lemma parse_written_header (ins : InstructionGroup) : instruction_ok ins -> parse_header (header_word ins) = (ig_fetchTimestamp ins, ig_cycleCount ins).
Proof.
  intros (_ & Hc & Hf & _). unfold parse_header. rewrite header_tokens. cbn [length Nat.leb lookup list_lookup mbind option_bind].
  apply read_back in Hc, Hf. destruct (stoull (pretty (ig_fetchTimestamp ins))); [|done]. destruct (stoull (pretty (ig_cycleCount ins))); [|done].
  cbn in Hc, Hf. congruence.
Qed.

(** One line of a kind with the number [z], among lines of other kinds. *)
Lemma field_found (p a b rest_of : string) (n : nat) (v z : Z) (before after : list string) (ts : list string) :
  let line := p +:+ pretty z +:+ rest_of in
  in_ll z = true -> tokens line = a :: b :: pretty z :: ts -> (n <= 3 + length ts)%nat ->
  Forall (fun l => starts_with p l = false) before -> Forall (fun l => starts_with p l = false) after ->
  parse_field p n v (before ++ line :: after) = Some z.
Proof.
  intros line Hz Ht Hn Hb Ha. rewrite field_skip by done. cbn [parse_field]. rewrite Ht. cbn [length lookup list_lookup mbind option_bind].
  unfold line at 1. rewrite starts_with_here, (proj2 (Nat.leb_le _ _)) by (cbn [length] in *; lia). cbn [andb].
  apply read_back in Hz. destruct (stoull (pretty z)) as [m|]; [|done]. cbn [fmap option_fmap option_map mbind option_bind] in *. injection Hz as Hz. rewrite Hz.
  rewrite <- (app_nil_r after). by rewrite field_skip.
Qed.

Lemma other_words (kind : string) (ins : InstructionGroup) :
  text_ok (ig_instruction ins) -> starts_with ("O3PipeView:" +:+ kind) (header_word ins) = false ->
  Forall (fun l => starts_with ("O3PipeView:" +:+ kind) l = false) (stage_words ins) ->
  Forall (fun l => starts_with ("O3PipeView:" +:+ kind) l = false) (header_word ins :: words (ig_instruction ins) ++ stage_words ins).
Proof.
  intros [Ht _] Hh Hs. constructor; [done|]. apply Forall_app. split; [|done]. eapply Forall_impl; [exact Ht|]. intros w Hw. by apply text_not.
Qed.

Lemma parse_written (junk : Z) (op : string) (ins : InstructionGroup) :
  instruction_ok ins -> op = "load" \/ op = "store" -> parseGroup junk (instruction_group op ins) = Some ins.
Proof.
  intros Hi Hop. pose proof Hi as (Ha & Hc & Hf & Hr & Ht). unfold parseGroup, instruction_group. cbn [from_fetch].
  unfold header_word at 1. rewrite starts_with_here, parse_written_header by done.
  rewrite combine_app, (proj2 Ht). cbn [mbind option_bind].
  rewrite combine_skip by (unfold stage_words, retire_words; case_match; repeat constructor). cbn [mbind option_bind].
  assert (Hops : plain op = true /\ op <> EmptyString) by by destruct Hop as [->| ->].
  assert (Eg : header_word ins :: words (ig_instruction ins) ++ stage_words ins ++ retire_words op ins
    = (header_word ins :: words (ig_instruction ins) ++ stage_words ins) ++ retire_words op ins) by (by rewrite <- app_comm_cons, <- app_assoc).
  rewrite Eg. set (before := header_word ins :: _). assert (Hba := other_words "address:" ins Ht eq_refl ltac:(repeat constructor)).
  assert (Hbr := other_words "retire:" ins Ht eq_refl ltac:(repeat constructor)). fold before in Hba, Hbr. unfold retire_words.
  assert (Etr : forall s, tokens ("O3PipeView:retire:" +:+ pretty (ig_retireTimestamp ins) +:+ String ":" s) = "O3PipeView" :: "retire" :: pretty (ig_retireTimestamp ins) :: tokens s).
  { intros s. change ("O3PipeView:retire:" +:+ ?t) with ("O3PipeView" +:+ String ":" ("retire" +:+ String ":" t)).
    rewrite (tokens_piece "O3PipeView"), (tokens_piece "retire") by done. by rewrite tokens_piece by apply pretty_plain. }
  destruct (ig_address ins =? 0) eqn:E0.
  - apply Z.eqb_eq in E0. rewrite (field_skip "O3PipeView:address:") by done. cbn [parse_field andb mbind option_bind].
    rewrite (field_found "O3PipeView:retire:" "O3PipeView" "retire" ":store:0" 5 0 (ig_retireTimestamp ins) before [] ["store"; "0"] Hr); [|apply (Etr "store:0")|cbn; lia|done|constructor].
    cbn [mbind option_bind]. rewrite <- E0. by destruct ins.
  - assert (Ea : parse_field "O3PipeView:address:" 3 0 (before ++ ["O3PipeView:retire:" +:+ pretty (ig_retireTimestamp ins) +:+ ":" +:+ op +:+ ":" +:+ pretty (ig_retireTimestamp ins + 1000);
      "O3PipeView:address:" +:+ pretty (ig_address ins)]) = Some (ig_address ins)).
    { rewrite field_skip by done. pose proof (field_found "O3PipeView:address:" "O3PipeView" "address" EmptyString 3 0 (ig_address ins) [] [] [] Ha) as E.
      rewrite string_app_nil in E. apply E; [|cbn; lia|constructor..].
      change ("O3PipeView:address:" +:+ ?t) with ("O3PipeView" +:+ String ":" ("address" +:+ String ":" t)).
      rewrite (tokens_piece "O3PipeView"), (tokens_piece "address") by done. by rewrite tokens_end by apply pretty_plain. }
    rewrite Ea. cbn [mbind option_bind].
    rewrite (field_found "O3PipeView:retire:" "O3PipeView" "retire" (":" +:+ op +:+ ":" +:+ pretty (ig_retireTimestamp ins + 1000)) 5 0 (ig_retireTimestamp ins) before _
      [op; pretty (ig_retireTimestamp ins + 1000)] Hr); [cbn [mbind option_bind]; by destruct ins| |cbn; lia|done|by repeat constructor].
    refine (eq_trans (Etr (op +:+ String ":" (pretty (ig_retireTimestamp ins + 1000)))) _). rewrite tokens_piece by apply Hops.
    by rewrite tokens_end by apply pretty_plain.
Qed.

(** ** Written traces are read back *)
Lemma instruction_group_ok (op : string) (ins : InstructionGroup) :
  instruction_ok ins -> op = "load" \/ op = "store" -> a_group (instruction_group op ins).
Proof.
  intros (_ & _ & _ & _ & [Ht _]) Hop. exists (header_word ins), (words (ig_instruction ins) ++ stage_words ins ++ retire_words op ins). split; [done|].
  split; [apply starts_with_here|]. apply Forall_app. split.
  - pose proof (words_from_words EmptyString (ig_instruction ins) eq_refl) as Hw. eapply Forall_impl; [apply Forall_and; split; [exact Ht|exact Hw]|].
    intros w [H1 [H2 _]]. split; [done|]. by apply (text_not "fetch:").
  - unfold stage_words, retire_words. destruct (ig_address ins =? 0); by repeat constructor.
Qed.

(** The lines of all instructions. *)
Definition all_lines (op : InstructionGroup -> string) (l : list InstructionGroup) : option (list string) :=
  ls ← mapM (fun ins => instruction_lines (op ins) ins) l; Some (concat ls).

Lemma all_lines_words (op : InstructionGroup -> string) (l : list InstructionGroup) :
  (forall i, op i = "load" \/ op i = "store") -> Forall instruction_ok l -> Forall stages_fit l ->
  exists lines, all_lines op l = Some lines /\ concat (words <$> lines) = concat ((fun i => instruction_group (op i) i) <$> l).
Proof.
  intros Hop Hi Hf. unfold all_lines. induction Hi as [|ins l Hins _ IH]; [by exists []|]. apply Forall_cons in Hf as [Hfit Hf].
  destruct (IH Hf) as (lines & El & Ew). cbn [mapM]. destruct (instruction_words (op ins) ins Hins Hfit (Hop ins)) as (ls & -> & Ew1). cbn [mbind option_bind].
  destruct (mapM (fun i => instruction_lines (op i) i) l) as [lss|]; [|done]. cbn [mbind option_bind] in *. injection El as <-.
  eexists. split; [reflexivity|]. cbn [fmap list_fmap concat]. by rewrite fmap_app, concat_app, Ew1, Ew.
Qed.

(** Any number of copies of a written trace reads as that many copies of the instructions. *)
Lemma written_copies (junk : Z) (n : nat) (op : InstructionGroup -> string) (l : list InstructionGroup) (lines : list string) :
  (forall i, op i = "load" \/ op i = "store") -> Forall (fun i => instruction_ok i /\ ig_retireTimestamp i <> 0) l ->
  concat (words <$> lines) = concat ((fun i => instruction_group (op i) i) <$> l) ->
  parse_groups junk (groups (unlines (concat (replicate n lines)))) = Some (concat (replicate n l)).
Proof.
  intros Hop Hl Ew. set (gs := (fun i => instruction_group (op i) i) <$> l) in *.
  assert (Eg : groups (unlines (concat (replicate n lines))) = concat (replicate n gs)).
  { unfold groups. rewrite words_unlines. replace (concat (words <$> concat (replicate n lines))) with (concat (concat (replicate n gs))).
    - apply produce_groups. apply Forall_concat, Forall_replicate, Forall_fmap. eapply Forall_impl; [exact Hl|]. intros i [Hi _]. by apply instruction_group_ok.
    - induction n as [|n IH]; [done|]. cbn [replicate concat]. by rewrite concat_app, fmap_app, concat_app, IH, Ew. }
  rewrite Eg. clear Eg Ew. unfold parse_groups.
  assert (E1 : mapM (parsed_group junk) gs = Some ((fun i => [i]) <$> l)).
  { apply mapM_Some. unfold gs. clear gs. induction Hl as [|i l [Hi Hr] _ IH]; cbn; constructor; [|done].
    unfold parsed_group. rewrite parse_written by done. cbn. by rewrite (proj2 (Z.eqb_neq _ _) Hr). }
  assert (En : mapM (parsed_group junk) (concat (replicate n gs)) = Some (concat (replicate n ((fun i => [i]) <$> l)))).
  { apply mapM_Some in E1. apply mapM_Some. clear -E1. induction n as [|n IH]; cbn; [constructor|]. by apply Forall2_app. }
  rewrite En. cbn. f_equal. clear E1 En. induction n as [|n IH]; [done|]. cbn [replicate concat]. rewrite concat_app, IH. f_equal. clear. induction l as [|i l IH]; [done|].
  cbn. by rewrite IH.
Qed.

Lemma delayed_op_ok (s : string) : delayed_op s = "load" \/ delayed_op s = "store".
Proof. unfold delayed_op. case_match; auto. Qed.

Lemma saved_op_ok (s : string) : saved_op s = "load" \/ saved_op s = "store".
Proof. unfold saved_op. case_match; auto. Qed.

Lemma groups_words (file : list string) (lines : list string) : Forall a_word (lines ++ file) -> Forall (Forall a_word) (produce_all lines file).
Proof.
  revert lines. induction file as [|w file IH]; intros lines Hw; cbn [produce_all].
  - rewrite app_nil_r in Hw. destruct lines; cbn; constructor; [done|constructor].
  - apply Forall_app in Hw as [Hl Hw]. pose proof Hw as [Hh Ht]%Forall_cons. assert (H0 : w <> EmptyString) by apply Hh.
    unfold produce. destruct lines as [|x lines], w as [|c w]; try done; [|destruct (starts_with _ _)]; cbn [option_list app].
    + by apply IH.
    + constructor; [done|]. by apply IH.
    + apply IH. change (Forall a_word (((x :: lines) ++ [String c w]) ++ file)). rewrite <- app_assoc. by apply Forall_app.
Qed.

Lemma parses_ok (junk : Z) (text : string) (l : list InstructionGroup) :
  parses junk text l -> Forall (fun i => instruction_ok i /\ ig_retireTimestamp i <> 0) l.
Proof.
  intros (l0 & E & Hl & _). rewrite Hl. clear l Hl. unfold parse_groups in E. apply fmap_Some in E as (ls & E & ->). apply Forall_concat. apply mapM_Some in E.
  pose proof (groups_words (words text) [] (words_from_words EmptyString text eq_refl)) as Hg. unfold groups in E. induction E as [|g x gs xs Hx _ IH]; [constructor|].
  apply Forall_cons in Hg as [Hg1 Hg]. constructor; [by eapply parsed_ok|by apply IH].
Qed.

(** C34. A written trace reads back to the same instructions, for every trace that can be read:
    whatever the layout of the text, the order of the lines of a group, the signs of the numbers,
    the words of the instruction or the stage lines, the output of [generateDelayedTrace] parses to
    exactly the instructions it was made from, in the same order. *)
Theorem trace_roundtrip (junk junk' : Z) (text : string) (l : list InstructionGroup) (Hp : parses junk text l) (Hf : Forall stages_fit l) :
  exists out, generateDelayedTrace l = Some out /\ parses junk' out l.
Proof.
  pose proof (parses_ok _ _ _ Hp) as Hl. destruct Hp as (_ & _ & _ & Hs).
  destruct (all_lines_words (fun i => delayed_op (ig_instruction i)) l) as (lines & El & Ew); [intros; apply delayed_op_ok|by eapply Forall_impl; [exact Hl|intros ? []]|done|].
  exists (unlines lines). split.
  - unfold generateDelayedTrace. unfold all_lines in El. destruct (mapM _ l); [|done]. cbn in *. congruence.
  - exists l. split; [|done]. pose proof (written_copies junk' 1 _ l lines (fun i => delayed_op_ok _) Hl Ew) as E. cbn in E. by rewrite !app_nil_r in E.
Qed.

Definition demo_text : string :=
  "O3PipeView:fetch:816000:0x7ffff801f7f7:0:1686:  MOV_R_M : ld t1, DS:[rdi] O3PipeView:retire:820000:store:0 O3PipeView:address:140737354362576
   O3PipeView:fetch:-5:0x40:0:1685: add  rax O3PipeView:retire:+77:x:0".

Definition demo_parsed : list InstructionGroup :=
  [mkInstruction 0 1685 (-5) 77 "add rax"; mkInstruction 140737354362576 1686 816000 820000 "MOV_R_M : ld t1, DS:[rdi]"].

Lemma trace_roundtrip_witness : parses 7 demo_text demo_parsed /\ exists out, generateDelayedTrace demo_parsed = Some out /\ parses 0 out demo_parsed.
Proof.
  assert (Hp : parses 7 demo_text demo_parsed).
  { eexists. split; [vm_compute; reflexivity|]. split; [apply Permutation_swap|]. repeat constructor. by vm_compute. }
  split; [exact Hp|]. apply (trace_roundtrip 7 0 demo_text demo_parsed Hp). repeat (constructor; [unfold stages_fit; cbn; lia|]). constructor.
Defined.
