(* ===== verification/ShmComm.v ===== *)
(** * Client shared-memory communication ([include/shm_communication.h],
      [src/shm_communication.cpp])

    A server and up to 64 client processes share one object: a table of clients and, for each
    of them, a ring of 1024 entries that hold a request and a response with a ready flag
    each.  Two semaphores wake the sides up.  The model has the shared object, the two
    semaphore counters, and per process its [ShmCommunicationManager]; what the other
    processes do while one waits is an argument of the waiting operation.  [None] is
    undefined behaviour (an access through a failed mapping or outside an array). *)
From stdpp Require Import strings pretty functions.
From S2P Require Import Prelude.

Record ShmRequest := mkShmRequest {
  rq_op_type : Z;
  rq_addr : Z;
  rq_size : Z;
  rq_timestamp : Z;
  rq_value : Z;
  rq_expected : Z;
  rq_data : list Z
}.

Record ShmResponse := mkShmResponse {
  rp_status : Z;
  rp_latency_ns : Z;
  rp_old_value : Z;
  rp_data : list Z
}.

Definition RING_SIZE : Z := 1024.

Definition MAX_CLIENTS : Z := 64.

Record Entry := mkEntry {
  en_request_ready : bool;
  en_response_ready : bool;
  en_request : ShmRequest;
  en_response : ShmResponse
}.

Record ShmRingBuffer := mkRing {
  rb_head : Z;
  rb_tail : Z;
  rb_pending_count : Z;
  rb_entries : list Entry;
  rb_total_requests : Z;
  rb_total_responses : Z
}.

Record ShmClientInfo := mkClientInfo {
  ci_client_id : Z;
  ci_pid : Z;
  ci_connected : bool;
  ci_name : string
}.

Record ShmCommunication := mkComm {
  sc_magic : Z;
  sc_version : Z;
  sc_server_ready : bool;
  sc_request_sem_name : string;
  sc_response_sem_name : string;
  sc_next_client_id : Z;
  sc_clients : list ShmClientInfo;
  sc_ring_buffers : list ShmRingBuffer
}.

Definition MAGIC : Z := 0x434D454D53484D43.

Definition VERSION : Z := 1.

(** ** Initialisation of the object *)
Definition ring_initialize (r : ShmRingBuffer) : ShmRingBuffer :=
  mkRing 0 0 0 ((fun e => mkEntry false false (en_request e) (en_response e)) <$> rb_entries r) 0 0.

Definition set_connected (b : bool) (c : ShmClientInfo) : ShmClientInfo :=
  mkClientInfo (ci_client_id c) (ci_pid c) b (ci_name c).

(** [snprintf(name, 64, ...)] keeps 63 characters. *)
Definition sem_name (prefix suffix : string) : string := String.substring 0 63 (prefix +:+ suffix).

Definition comm_initialize (sem_prefix : string) (c : ShmCommunication) : ShmCommunication :=
  mkComm MAGIC VERSION false (sem_name sem_prefix "_req") (sem_name sem_prefix "_resp") 0
    (set_connected false <$> sc_clients c) (ring_initialize <$> sc_ring_buffers c).

Definition is_valid (c : ShmCommunication) : bool := (sc_magic c =? MAGIC) && (sc_version c =? VERSION).

(** The bytes of a new object are zero. *)
Definition request_zero : ShmRequest := mkShmRequest 0 0 0 0 0 0 (replicate 64 0).

Definition response_zero : ShmResponse := mkShmResponse 0 0 0 (replicate 64 0).

Definition comm_zero : ShmCommunication :=
  mkComm 0 0 false EmptyString EmptyString 0 (replicate (Z.to_nat MAX_CLIENTS) (mkClientInfo 0 0 false EmptyString))
    (replicate (Z.to_nat MAX_CLIENTS)
       (mkRing 0 0 0 (replicate (Z.to_nat RING_SIZE) (mkEntry false false request_zero response_zero)) 0 0)).

(** ** Shared state and managers *)
Record ShmShared := mkShared {
  sh_comm : ShmCommunication;
  sh_request_sem : Z;
  sh_response_sem : Z
}.

(** The pointer [shm_comm]: null, [MAP_FAILED], or the mapping. *)
Inductive mapping := Unmapped | MapFailed | Mapped.

Record ShmManager := mkManager {
  mg_is_server : bool;
  mg_comm : mapping;
  mg_fd_open : bool;
  mg_client_id : Z;
  mg_request_sem : bool;                (* the semaphore pointers are not null *)
  mg_response_sem : bool
}.

Definition manager_new (server_mode : bool) : ShmManager := mkManager server_mode Unmapped false 0 false false.

(** Field updates. *)
Definition set_ring (i : nat) (r : ShmRingBuffer) (s : ShmShared) : ShmShared :=
  let c := sh_comm s in
  mkShared (mkComm (sc_magic c) (sc_version c) (sc_server_ready c) (sc_request_sem_name c) (sc_response_sem_name c)
              (sc_next_client_id c) (sc_clients c) (<[i := r]> (sc_ring_buffers c)))
    (sh_request_sem s) (sh_response_sem s).

Definition set_client (i : nat) (ci : ShmClientInfo) (s : ShmShared) : ShmShared :=
  let c := sh_comm s in
  mkShared (mkComm (sc_magic c) (sc_version c) (sc_server_ready c) (sc_request_sem_name c) (sc_response_sem_name c)
              (sc_next_client_id c) (<[i := ci]> (sc_clients c)) (sc_ring_buffers c))
    (sh_request_sem s) (sh_response_sem s).

Definition set_entry (i : Z) (e : Entry) (r : ShmRingBuffer) : ShmRingBuffer :=
  mkRing (rb_head r) (rb_tail r) (rb_pending_count r) (<[Z.to_nat i := e]> (rb_entries r))
    (rb_total_requests r) (rb_total_responses r).

Definition set_client_id (cid : Z) (m : ShmManager) : ShmManager :=
  mkManager (mg_is_server m) (mg_comm m) (mg_fd_open m) cid (mg_request_sem m) (mg_response_sem m).

(** [sem_post] fails, and the code ignores it, at the largest value. *)
Definition SEM_VALUE_MAX : Z := 2 ^ 31 - 1.

Definition sem_post (v : Z) : Z := if v =? SEM_VALUE_MAX then v else v + 1.

Definition post_request (s : ShmShared) : ShmShared :=
  mkShared (sh_comm s) (sem_post (sh_request_sem s)) (sh_response_sem s).

Definition post_response (s : ShmShared) : ShmShared :=
  mkShared (sh_comm s) (sh_request_sem s) (sem_post (sh_response_sem s)).

(** What a wait ends with; [Blocked]: it does not end. *)
Inductive wait_result (A : Type) := Got (a : A) | NotGot | Blocked.
Arguments Got {A} a.
Arguments NotGot {A}.
Arguments Blocked {A}.

(** ** Server operations *)

(** The body of the loop over the clients: the request at the tail, if it is ready. *)
Definition poll_ring (r : ShmRingBuffer) : option (ShmRequest * ShmRingBuffer) :=
  if rb_tail r =? rb_head r then None
  else
    let i := rb_tail r mod RING_SIZE in
    e ← rb_entries r !! Z.to_nat i;
    if en_request_ready e then
      let r1 := set_entry i (mkEntry false (en_response_ready e) (en_request e) (en_response e)) r in
      Some (en_request e, mkRing (rb_head r1) (wrap32 (rb_tail r + 1) mod RING_SIZE) (wrap32 (rb_pending_count r - 1))
                            (rb_entries r1) (rb_total_requests r1) (rb_total_responses r1))
    else None.

Definition poll_client (cid : Z) (s : ShmShared) : option (Z * ShmRequest * ShmShared) :=
  let i := Z.to_nat (cid - 1) in
  ci ← sc_clients (sh_comm s) !! i;
  r ← sc_ring_buffers (sh_comm s) !! i;
  if ci_connected ci then '(req, r') ← poll_ring r; Some (cid, req, set_ring i r' s) else None.

(** The loop over the client ids [cids]; the arrays have an element for each. *)
Fixpoint sweep (cids : list Z) (s : ShmShared) : option (Z * ShmRequest * ShmShared) :=
  match cids with
  | [] => None
  | cid :: rest =>
      match poll_client cid s with
      | Some x => Some x
      | None => sweep rest s
      end
  end.

Definition all_clients : list Z := seqZ 1 MAX_CLIENTS.

(** One sweep, as [wait_for_request] with a time-out of 0 makes. *)
Definition poll_requests (s : ShmShared) : option (Z * ShmRequest) * ShmShared :=
  match sweep all_clients s with
  | Some (cid, req, s') => (Some (cid, req), s')
  | None => (None, s)
  end.

Definition got_of {A} (x : option A) : wait_result A := from_option Got NotGot x.

(** [others]: what the other processes do while this one waits for the semaphore. *)
Definition wait_for_request (others : ShmShared -> ShmShared) (timeout_ms : Z) (m : ShmManager) (s : ShmShared) :
    option (wait_result (Z * ShmRequest) * ShmShared) :=
  if negb (mg_is_server m) then Some (NotGot, s)
  else match mg_comm m with
  | Unmapped => Some (NotGot, s)
  | MapFailed => None
  | Mapped =>
      match poll_requests s with
      | (Some x, s') => Some (Got x, s')
      | (None, s1) =>
          if timeout_ms =? 0 then Some (NotGot, s1)
          else
            let s2 := if 0 <? sh_request_sem s1 then s1 else others s1 in
            if 0 <? sh_request_sem s2 then
              let '(x, s3) := poll_requests (mkShared (sh_comm s2) (sh_request_sem s2 - 1) (sh_response_sem s2)) in
              Some (got_of x, s3)
            else Some (if 0 <? timeout_ms then NotGot else Blocked, s2)
      end
  end.

(** The first of the indices [idxs], all below the size of the array, whose entry satisfies [p]. *)
Definition test_entry (p : Entry -> bool) (es : list Entry) (i : Z) : option (Z * Entry) :=
  e ← es !! Z.to_nat i; if p e then Some (i, e) else None.

Fixpoint find_entry (p : Entry -> bool) (es : list Entry) (idxs : list Z) : option (Z * Entry) :=
  match idxs with
  | [] => None
  | i :: rest =>
      match test_entry p es i with
      | Some x => Some x
      | None => find_entry p es rest
      end
  end.

(** The free entry that [send_response] takes: the first one from the head on. *)
Definition response_slot (r : ShmRingBuffer) : option (Z * Entry) :=
  find_entry (fun e => negb (en_request_ready e) && negb (en_response_ready e)) (rb_entries r)
    ((fun i => wrap32 (rb_head r + i) mod RING_SIZE) <$> seqZ 0 RING_SIZE).

Definition put_response (resp : ShmResponse) (r : ShmRingBuffer) : option ShmRingBuffer :=
  '(i, e) ← response_slot r;
  let r1 := set_entry i (mkEntry (en_request_ready e) true (en_request e) resp) r in
  Some (mkRing (rb_head r1) (rb_tail r1) (rb_pending_count r1) (rb_entries r1) (rb_total_requests r1)
          (rb_total_responses r1 ⊞ 1)).

Definition send_response (client_id : Z) (resp : ShmResponse) (m : ShmManager) (s : ShmShared) : option (bool * ShmShared) :=
  if negb (mg_is_server m) then Some (false, s)
  else match mg_comm m with
  | Unmapped => Some (false, s)
  | MapFailed => if (client_id =? 0) || (MAX_CLIENTS <? client_id) then Some (false, s) else None
  | Mapped =>
      if (client_id =? 0) || (MAX_CLIENTS <? client_id) then Some (false, s)
      else
        let c := Z.to_nat (client_id - 1) in
        r ← sc_ring_buffers (sh_comm s) !! c;
        match put_response resp r with
        | Some r' => Some (true, post_response (set_ring c r' s))
        | None => Some (false, s)
        end
  end.

(** ** Client operations *)

(** The compare-and-exchange loop: the first slot that is not connected. *)
Fixpoint free_slot (i : nat) (cs : list ShmClientInfo) : option nat :=
  match cs with
  | [] => None
  | c :: rest => if ci_connected c then free_slot (S i) rest else Some i
  end.

(** The id assigned to the client, if there is one. *)
Definition connect (pid : Z) (m : ShmManager) (s : ShmShared) : option (option Z * ShmManager * ShmShared) :=
  if mg_is_server m then Some (None, m, s)
  else match mg_comm m with
  | Unmapped => Some (None, m, s)
  | MapFailed => None
  | Mapped =>
      match free_slot 0 (sc_clients (sh_comm s)) with
      | None => Some (None, m, s)
      | Some i =>
          let cid := Z.of_nat i + 1 in
          r ← sc_ring_buffers (sh_comm s) !! i;
          Some (Some cid, set_client_id cid m,
                set_ring i (ring_initialize r) (set_client i (mkClientInfo cid pid true ("Client_" +:+ pretty cid)) s))
      end
  end.

(** The ring with the request added; the inner [None]: it is full. *)
Definition push_request (req : ShmRequest) (r : ShmRingBuffer) : option (option ShmRingBuffer) :=
  let next_head := wrap32 (rb_head r + 1) mod RING_SIZE in
  if next_head =? rb_tail r then Some None
  else
    e ← rb_entries r !! Z.to_nat (rb_head r);
    let r1 := set_entry (rb_head r) (mkEntry true false req (en_response e)) r in
    Some (Some (mkRing next_head (rb_tail r1) (wrap32 (rb_pending_count r1 + 1)) (rb_entries r1)
                  (rb_total_requests r1 ⊞ 1) (rb_total_responses r1))).

Definition send_request (req : ShmRequest) (m : ShmManager) (s : ShmShared) : option (bool * ShmShared) :=
  if mg_is_server m || (mg_client_id m =? 0) then Some (false, s)
  else match mg_comm m with
  | Unmapped => Some (false, s)
  | MapFailed => None
  | Mapped =>
      let c := Z.to_nat (mg_client_id m - 1) in
      r ← sc_ring_buffers (sh_comm s) !! c;
      pushed ← push_request req r;
      Some (match pushed with
            | Some r' => (true, post_request (set_ring c r' s))
            | None => (false, s)
            end)
  end.

(** The scan of [wait_for_response]: the first entry of the array with a response. *)
Definition pull_response (r : ShmRingBuffer) : option (ShmResponse * ShmRingBuffer) :=
  '(i, e) ← find_entry en_response_ready (rb_entries r) (seqZ 0 RING_SIZE);
  Some (en_response e, set_entry i (mkEntry (en_request_ready e) false (en_request e) (en_response e)) r).

Definition take_response (c : nat) (s : ShmShared) : option (ShmResponse * ShmShared) :=
  r ← sc_ring_buffers (sh_comm s) !! c;
  '(resp, r') ← pull_response r;
  Some (resp, set_ring c r' s).

(** [rounds]: what the other processes do in each wait of 10 ms before the time-out. *)
Fixpoint response_loop (rounds : list (ShmShared -> ShmShared)) (c : nat) (s : ShmShared) :
    wait_result ShmResponse * ShmShared :=
  match take_response c s with
  | Some (resp, s') => (Got resp, s')
  | None =>
      match rounds with
      | [] => (NotGot, s)
      | others :: rest =>
          let s1 := if 0 <? sh_response_sem s then s else others s in
          let s2 := if 0 <? sh_response_sem s1
                    then mkShared (sh_comm s1) (sh_request_sem s1) (sh_response_sem s1 - 1) else s1 in
          response_loop rest c s2
      end
  end.

Definition wait_for_response (rounds : list (ShmShared -> ShmShared)) (m : ShmManager) (s : ShmShared) :
    option (wait_result ShmResponse * ShmShared) :=
  if mg_is_server m || (mg_client_id m =? 0) then Some (NotGot, s)
  else match mg_comm m with
  | Unmapped => Some (NotGot, s)
  | MapFailed => None
  | Mapped =>
      let c := Z.to_nat (mg_client_id m - 1) in
      _ ← sc_ring_buffers (sh_comm s) !! c;
      Some (response_loop rounds c s)
  end.

Definition drop_connection (cid : Z) (s : ShmShared) : ShmShared :=
  let i := Z.to_nat (cid - 1) in
  match sc_clients (sh_comm s) !! i with
  | Some ci => set_client i (set_connected false ci) s
  | None => s
  end.

Definition disconnect (m : ShmManager) (s : ShmShared) : option (ShmManager * ShmShared) :=
  if mg_is_server m then Some (m, s)
  else match mg_comm m with
  | Unmapped => Some (m, s)
  | c =>
      if (0 <? mg_client_id m) && (mg_client_id m <=? MAX_CLIENTS) then
        match c with
        | Mapped => Some (set_client_id 0 m, drop_connection (mg_client_id m) s)
        | _ => None
        end
      else Some (m, s)
  end.

Definition is_connected (m : ShmManager) (s : ShmShared) : option bool :=
  match mg_comm m with
  | Unmapped => Some false
  | c =>
      if mg_is_server m then match c with Mapped => Some (sc_server_ready (sh_comm s)) | _ => None end
      else if (0 <? mg_client_id m) && (mg_client_id m <=? MAX_CLIENTS) then
        match c with
        | Mapped => ci ← sc_clients (sh_comm s) !! Z.to_nat (mg_client_id m - 1); Some (ci_connected ci)
        | _ => None
        end
      else Some false
  end.

Record ShmStats := mkShmStats { ss_total_requests : Z; ss_total_responses : Z; ss_active_clients : Z }.

Definition get_stats (m : ShmManager) (s : ShmShared) : option ShmStats :=
  match mg_comm m with
  | Unmapped => Some (mkShmStats 0 0 0)
  | MapFailed => None
  | Mapped =>
      Some (mkShmStats
              (foldl (fun n r => n ⊞ rb_total_requests r) 0 (sc_ring_buffers (sh_comm s)))
              (foldl (fun n r => n ⊞ rb_total_responses r) 0 (sc_ring_buffers (sh_comm s)))
              (foldl (fun n c => if ci_connected c then wrap32 (n + 1) else n) 0 (sc_clients (sh_comm s))))
  end.

(** ** Set-up and clean-up

    The operating system keeps one shared memory object under the manager's name and the
    named semaphores.  A process that still maps an object whose name is gone is not
    modelled.  The results of the calls that may fail for other reasons are arguments. *)
Record ShmOs := mkOs {
  os_object : option ShmCommunication;
  os_sems : gmap string Z
}.

Record ShmCalls := mkCalls {
  call_open : bool;
  call_truncate : bool;
  call_map : bool;
  call_request_sem : bool;
  call_response_sem : bool
}.

Definition set_mapping (fd : bool) (c : mapping) (m : ShmManager) : ShmManager :=
  mkManager (mg_is_server m) c fd (mg_client_id m) (mg_request_sem m) (mg_response_sem m).

Definition set_sems (req resp : bool) (m : ShmManager) : ShmManager :=
  mkManager (mg_is_server m) (mg_comm m) (mg_fd_open m) (mg_client_id m) req resp.

Definition create_shared_memory (k : ShmCalls) (m : ShmManager) (o : ShmOs) : bool * ShmManager * ShmOs :=
  if negb (call_open k) then (false, set_mapping false (mg_comm m) m, mkOs None (os_sems o))
  else if negb (call_truncate k) then (false, set_mapping false (mg_comm m) m, mkOs None (os_sems o))
  else if negb (call_map k) then (false, set_mapping false MapFailed m, mkOs None (os_sems o))
  else (true, set_mapping true Mapped m, mkOs (Some comm_zero) (os_sems o)).

(** The wait for [server_ready]; the server acts between two looks. *)
Fixpoint wait_ready (n : nat) (server : ShmCommunication -> ShmCommunication) (c : ShmCommunication) :
    bool * ShmCommunication :=
  if sc_server_ready c then (true, c)
  else match n with
  | O => (false, c)
  | S n' => wait_ready n' server (server c)
  end.

Definition open_shared_memory (k : ShmCalls) (server : ShmCommunication -> ShmCommunication) (m : ShmManager) (o : ShmOs) :
    bool * ShmManager * ShmOs :=
  match os_object o with
  | None => (false, set_mapping false (mg_comm m) m, o)
  | Some c =>
      if negb (call_open k) then (false, set_mapping false (mg_comm m) m, o)
      else if negb (call_map k) then (false, set_mapping false MapFailed m, o)
      else if negb (is_valid c) then (false, set_mapping false Unmapped m, o)
      else
        let '(ready, c') := wait_ready 100 server c in
        (ready, if ready then set_mapping true Mapped m else set_mapping false Unmapped m, mkOs (Some c') (os_sems o))
  end.

(** The names to unlink are read through [shm_comm]. *)
Definition cleanup_semaphores (m : ShmManager) (o : ShmOs) : option (ShmManager * ShmOs) :=
  let m' := set_sems false false m in
  if negb (mg_request_sem m) && negb (mg_response_sem m) then Some (m, o)
  else if negb (mg_is_server m) then Some (m', o)
  else match mg_comm m, os_object o with
  | Unmapped, _ => Some (m', o)
  | Mapped, Some c =>
      let sems := if mg_request_sem m then delete (sc_request_sem_name c) (os_sems o) else os_sems o in
      let sems := if mg_response_sem m then delete (sc_response_sem_name c) sems else sems in
      Some (m', mkOs (os_object o) sems)
  | _, _ => None
  end.

Definition setup_semaphores (k : ShmCalls) (m : ShmManager) (o : ShmOs) : option (bool * ShmManager * ShmOs) :=
  match mg_comm m with
  | Unmapped => Some (false, m, o)
  | MapFailed => None
  | Mapped =>
      '(m0, o0) ← cleanup_semaphores m o;
      c ← os_object o0;
      let q := sc_request_sem_name c in
      let p := sc_response_sem_name c in
      if mg_is_server m0 then
        let sems := delete p (delete q (os_sems o0)) in
        if negb (call_request_sem k) then Some (false, m0, mkOs (os_object o0) sems)
        else if negb (call_response_sem k) then Some (false, m0, mkOs (os_object o0) sems)
        else Some (true, set_sems true true m0, mkOs (os_object o0) (<[p := 0]> (<[q := 0]> sems)))
      else if negb (call_request_sem k) || bool_decide (os_sems o0 !! q = None) then Some (false, m0, o0)
      else if negb (call_response_sem k) || bool_decide (os_sems o0 !! p = None) then Some (false, m0, o0)
      else Some (true, set_sems true true m0, o0)
  end.

Definition set_server_ready (b : bool) (c : ShmCommunication) : ShmCommunication :=
  mkComm (sc_magic c) (sc_version c) b (sc_request_sem_name c) (sc_response_sem_name c) (sc_next_client_id c)
    (sc_clients c) (sc_ring_buffers c).

Definition cleanup (m : ShmManager) (o : ShmOs) : option (ShmManager * ShmOs) :=
  o1 ← match mg_comm m with
       | Unmapped => Some o
       | MapFailed => None
       | Mapped =>
           c ← os_object o;
           Some (mkOs (Some (if mg_is_server m then set_server_ready false c
                             else if (0 <? mg_client_id m) && (mg_client_id m <=? MAX_CLIENTS)
                             then sh_comm (drop_connection (mg_client_id m) (mkShared c 0 0)) else c)) (os_sems o))
       end;
  let m1 := set_mapping (mg_fd_open m) Unmapped m in
  let '(m2, o2) := if mg_fd_open m1
                   then (set_mapping false Unmapped m1, if mg_is_server m then mkOs None (os_sems o1) else o1)
                   else (m1, o1) in
  cleanup_semaphores m2 o2.

Definition initialize (k : ShmCalls) (server : ShmCommunication -> ShmCommunication) (m : ShmManager) (o : ShmOs) :
    option (bool * ShmManager * ShmOs) :=
  if mg_is_server m then
    let '(ok, m1, o1) := create_shared_memory k m o in
    if negb ok then Some (false, m1, o1)
    else
      c ← os_object o1;
      '(ok2, m2, o2) ← setup_semaphores k m1 (mkOs (Some (comm_initialize "/cxlsim" c)) (os_sems o1));
      if negb ok2 then '(m3, o3) ← cleanup m2 o2; Some (false, m3, o3)
      else c2 ← os_object o2; Some (true, m2, mkOs (Some (set_server_ready true c2)) (os_sems o2))
  else
    let '(ok, m1, o1) := open_shared_memory k server m o in
    if negb ok then Some (false, m1, o1)
    else
      '(ok2, m2, o2) ← setup_semaphores k m1 o1;
      if negb ok2 then '(m3, o3) ← cleanup m2 o2; Some (false, m3, o3) else Some (true, m2, o2).

(** ** The requests of a ring *)

(** Requests between the tail and the head. *)
Definition backlog (r : ShmRingBuffer) : Z := (rb_head r - rb_tail r) mod RING_SIZE.

Definition entry_at (r : ShmRingBuffer) (i : Z) : Entry :=
  default (mkEntry false false request_zero response_zero) (rb_entries r !! Z.to_nat i).

Definition queued (r : ShmRingBuffer) : list ShmRequest :=
  (fun j => en_request (entry_at r ((rb_tail r + j) mod RING_SIZE))) <$> seqZ 0 (backlog r).

(** A well-formed ring: indices in range, the counter is the backlog, and exactly the entries
    from the tail up to the head have their request flag set. *)
Record ring_ok (r : ShmRingBuffer) : Prop := {
  ro_length : Z.of_nat (length (rb_entries r)) = RING_SIZE;
  ro_head : 0 <= rb_head r < RING_SIZE;
  ro_tail : 0 <= rb_tail r < RING_SIZE;
  ro_pending : rb_pending_count r = backlog r;
  ro_flags : forall i, 0 <= i < RING_SIZE ->
    en_request_ready (entry_at r i) = bool_decide ((i - rb_tail r) mod RING_SIZE < backlog r)
}.

Ltac ring_mod := unfold backlog, RING_SIZE in *; cbn [rb_head rb_tail] in *; Z.to_euclidean_division_equations; lia.

Lemma next_index (h : Z) : 0 <= h < RING_SIZE -> wrap32 (h + 1) mod RING_SIZE = (h + 1) mod RING_SIZE.
Proof. intros H. rewrite wrap32_small; [done|]. unfold RING_SIZE in H. lia. Qed.

Lemma entry_lookup (r : ShmRingBuffer) (i : Z) :
  Z.of_nat (length (rb_entries r)) = RING_SIZE -> 0 <= i < RING_SIZE ->
  rb_entries r !! Z.to_nat i = Some (entry_at r i).
Proof.
  intros L H. unfold entry_at. destruct (lookup_lt_is_Some_2 (rb_entries r) (Z.to_nat i)) as [e ->]; [lia|done].
Qed.

Lemma entry_at_insert (r : ShmRingBuffer) (i j h t p q a : Z) (e : Entry) :
  Z.of_nat (length (rb_entries r)) = RING_SIZE -> 0 <= i < RING_SIZE -> 0 <= j < RING_SIZE ->
  entry_at (mkRing h t p (<[Z.to_nat i := e]> (rb_entries r)) q a) j = if decide (j = i) then e else entry_at r j.
Proof.
  intros L Hi Hj. unfold entry_at. cbn [rb_entries]. case_decide as E.
  - subst. by rewrite list_lookup_insert_eq by lia.
  - by rewrite list_lookup_insert_ne by lia.
Qed.

(** [queued] depends on the requests of the entries only. *)
Lemma queued_ext (r r' : ShmRingBuffer) :
  rb_tail r' = rb_tail r -> rb_head r' = rb_head r ->
  (forall i, 0 <= i < RING_SIZE -> en_request (entry_at r' i) = en_request (entry_at r i)) ->
  queued r' = queued r.
Proof.
  intros Ht Hh He. unfold queued, backlog. rewrite Ht, Hh. apply list_fmap_ext. intros i x Hx. apply He.
  unfold RING_SIZE. apply Z.mod_pos_bound. lia.
Qed.

Lemma queued_nil (r : ShmRingBuffer) : ring_ok r -> queued r = [] <-> rb_tail r = rb_head r.
Proof.
  intros [_ Hh Ht _ _]. unfold queued. split.
  - intros H. apply fmap_nil_inv in H. apply (f_equal length) in H. rewrite length_seqZ in H. cbn in H. ring_mod.
  - intros E. unfold backlog. by rewrite E, Z.sub_diag.
Qed.

Lemma queued_length (r : ShmRingBuffer) : Z.of_nat (length (queued r)) = backlog r.
Proof.
  unfold queued. rewrite length_fmap, length_seqZ. apply Z2Nat.id. unfold backlog, RING_SIZE. apply Z.mod_pos_bound. lia.
Qed.

(** The first request is the one at the tail. *)
Lemma queued_cons (r : ShmRingBuffer) :
  ring_ok r -> rb_tail r <> rb_head r ->
  queued r = en_request (entry_at r (rb_tail r)) ::
    ((fun j => en_request (entry_at r (((rb_tail r + 1) mod RING_SIZE + j) mod RING_SIZE))) <$> seqZ 0 (backlog r - 1)).
Proof.
  intros [_ Hh Ht _ _] Hne. unfold queued. rewrite seqZ_cons by ring_mod. cbn [fmap list_fmap]. f_equal.
  - do 2 f_equal. ring_mod.
  - change (Z.succ 0) with (1 + 0). change (Z.pred (backlog r)) with (backlog r - 1).
    rewrite <- (fmap_add_seqZ 1 0), <- list_fmap_compose. apply list_fmap_ext. intros i x Hx. cbn. do 2 f_equal. rewrite Z.add_mod_idemp_l by done. f_equal. lia.
Qed.

(** Polling a ring takes its first request, and finds one exactly when there is one. *)
Lemma poll_ring_spec (r : ShmRingBuffer) :
  ring_ok r ->
  match queued r with
  | [] => poll_ring r = None
  | req :: rest =>
      exists r', poll_ring r = Some (req, r') /\ ring_ok r' /\ queued r' = rest /\ rb_head r' = rb_head r /\
        rb_tail r' = (rb_tail r + 1) mod RING_SIZE /\
        forall i, 0 <= i < RING_SIZE -> en_response_ready (entry_at r' i) = en_response_ready (entry_at r i) /\
          en_response (entry_at r' i) = en_response (entry_at r i)
  end.
Proof.
  intros Hr. destruct (decide (rb_tail r = rb_head r)) as [E|E].
  - rewrite (proj2 (queued_nil r Hr) E). unfold poll_ring. by rewrite (proj2 (Z.eqb_eq _ _) E).
  - rewrite queued_cons by done. destruct Hr as [Hl Hh Ht Hp Hf]. unfold poll_ring.
    rewrite (proj2 (Z.eqb_neq _ _) E), (Z.mod_small (rb_tail r)), entry_lookup by done. cbn [mbind option_bind].
    rewrite Hf, bool_decide_eq_true_2, next_index by (done || ring_mod). eexists. split; [reflexivity|].
    unfold set_entry. cbn [rb_head rb_tail rb_entries rb_pending_count].
    assert (Hb : (rb_head r - (rb_tail r + 1) mod RING_SIZE) mod RING_SIZE = backlog r - 1) by ring_mod.
    split_and!; try done.
    + split; cbn [rb_head rb_tail rb_entries rb_pending_count].
      * by rewrite length_insert.
      * done.
      * ring_mod.
      * unfold backlog at 1. cbn [rb_head rb_tail]. rewrite Hb, Hp. apply wrap32_small. ring_mod.
      * intros i Hi. rewrite entry_at_insert by done. unfold backlog. cbn [rb_head rb_tail]. rewrite Hb.
        case_decide as Ei; cbn [en_request_ready]; [subst; symmetry; apply bool_decide_eq_false_2; ring_mod|].
        rewrite Hf by done. apply bool_decide_ext. ring_mod.
    + unfold queued, backlog. cbn [rb_head rb_tail]. rewrite Hb. apply list_fmap_ext. intros k j Hj.
      rewrite entry_at_insert by (done || ring_mod). by case_decide as Ej; [rewrite Ej|].
    + intros i Hi. rewrite entry_at_insert by done. by case_decide; [subst|].
Qed.

(** A request is appended, unless 1023 of them wait already. *)
Lemma push_request_spec (req : ShmRequest) (r : ShmRingBuffer) :
  ring_ok r ->
  if decide (backlog r = RING_SIZE - 1) then push_request req r = Some None
  else exists r', push_request req r = Some (Some r') /\ ring_ok r' /\ queued r' = queued r ++ [req] /\
    rb_tail r' = rb_tail r /\ rb_head r' = (rb_head r + 1) mod RING_SIZE /\
    en_response_ready (entry_at r' (rb_head r)) = false /\
    forall i, 0 <= i < RING_SIZE -> i <> rb_head r -> entry_at r' i = entry_at r i.
Proof.
  intros [Hl Hh Ht Hp Hf]. unfold push_request. rewrite next_index by done. case_decide as E.
  { rewrite (proj2 (Z.eqb_eq _ _)); [done|ring_mod]. }
  rewrite (proj2 (Z.eqb_neq _ _)), entry_lookup by (done || ring_mod). cbn [mbind option_bind].
  eexists. split; [reflexivity|]. unfold set_entry. cbn [rb_head rb_tail rb_entries rb_pending_count].
  assert (Hb : ((rb_head r + 1) mod RING_SIZE - rb_tail r) mod RING_SIZE = backlog r + 1) by ring_mod.
  split_and!; try done.
  - split; cbn [rb_head rb_tail rb_entries rb_pending_count].
    + by rewrite length_insert.
    + ring_mod.
    + done.
    + unfold backlog at 1. cbn [rb_head rb_tail]. rewrite Hb, Hp. apply wrap32_small. ring_mod.
    + intros i Hi. rewrite entry_at_insert by done. unfold backlog. cbn [rb_head rb_tail]. rewrite Hb.
      case_decide as Ei; cbn [en_request_ready]; [subst; symmetry; apply bool_decide_eq_true_2; ring_mod|].
      rewrite Hf by done. apply bool_decide_ext. ring_mod.
  - unfold queued, backlog. cbn [rb_head rb_tail]. rewrite Hb, seqZ_app by ring_mod.
    rewrite fmap_app. change (seqZ (0 + backlog r) 1) with [0 + backlog r]. f_equal.
    + apply list_fmap_ext. intros k j Hj. apply lookup_seqZ in Hj as [-> Hj].
      rewrite entry_at_insert, decide_False by (done || ring_mod). done.
    + cbn [fmap list_fmap]. rewrite entry_at_insert, decide_True by (done || ring_mod). done.
  - rewrite entry_at_insert by done. by rewrite decide_True.
  - intros i Hi Hne. rewrite entry_at_insert by done. by rewrite decide_False.
Qed.

(** An entry whose request and request flag stay leaves the ring's requests alone. *)
Lemma set_entry_keeps (r : ShmRingBuffer) (i p q : Z) (e : Entry) :
  ring_ok r -> 0 <= i < RING_SIZE -> en_request_ready e = en_request_ready (entry_at r i) ->
  en_request e = en_request (entry_at r i) ->
  let r' := mkRing (rb_head r) (rb_tail r) (rb_pending_count r) (<[Z.to_nat i := e]> (rb_entries r)) p q in
  ring_ok r' /\ queued r' = queued r.
Proof.
  intros [Hl Hh Ht Hp Hf] Hi H1 H2. cbn. split.
  - split; cbn; try done; [by rewrite length_insert|]. intros j Hj. rewrite entry_at_insert by done.
    case_decide as E; [subst; by rewrite H1, Hf|by apply Hf].
  - apply queued_ext; try done. intros j Hj. rewrite entry_at_insert by done. by case_decide; [subst|].
Qed.

Lemma find_entry_Some (p : Entry -> bool) (es : list Entry) (idxs : list Z) (i : Z) (e : Entry) :
  find_entry p es idxs = Some (i, e) -> i ∈ idxs /\ es !! Z.to_nat i = Some e /\ p e = true.
Proof.
  induction idxs as [|j idxs IH]; cbn [find_entry]; unfold test_entry; [done|]. intros H. rewrite elem_of_cons.
  destruct (es !! Z.to_nat j) as [e'|] eqn:E; cbn in H; [destruct (p e') eqn:P|]; [injection H as -> ->| |];
    try (destruct (IH H) as (H1 & H2 & H3)); auto.
Qed.

(** Entries before the first hit do not satisfy the test. *)
Lemma find_entry_first (p : Entry -> bool) (es : list Entry) (l1 l2 : list Z) (i : Z) (e : Entry) :
  es !! Z.to_nat i = Some e -> p e = true -> (forall j e', j ∈ l1 -> es !! Z.to_nat j = Some e' -> p e' = false) ->
  find_entry p es (l1 ++ i :: l2) = Some (i, e).
Proof.
  intros Hi Hp. induction l1 as [|j l1 IH]; intros Hl; cbn [app find_entry]; unfold test_entry.
  { rewrite Hi. cbn. by rewrite Hp. }
  destruct (es !! Z.to_nat j) as [e'|] eqn:E; cbn; [rewrite (Hl j e') by (done || set_solver)|]; apply IH; set_solver.
Qed.

Lemma find_entry_None (p : Entry -> bool) (es : list Entry) (idxs : list Z) :
  (forall j e, j ∈ idxs -> es !! Z.to_nat j = Some e -> p e = false) -> find_entry p es idxs = None.
Proof.
  induction idxs as [|j idxs IH]; cbn [find_entry]; unfold test_entry; [done|]. intros H.
  destruct (es !! Z.to_nat j) as [e'|] eqn:E; cbn; [rewrite (H j e') by (done || set_solver)|]; apply IH; set_solver.
Qed.

Lemma put_response_ok (resp : ShmResponse) (r r' : ShmRingBuffer) :
  ring_ok r -> put_response resp r = Some r' -> ring_ok r' /\ queued r' = queued r.
Proof.
  unfold put_response, response_slot. intros Hr. destruct (find_entry _ _ _) as [[i e]|] eqn:E; cbn; [|done].
  intros [= <-]. apply find_entry_Some in E as (Hi & He & Hp).
  assert (0 <= i < RING_SIZE) by (apply list_elem_of_fmap in Hi as (k & -> & _); ring_mod).
  rewrite entry_lookup in He by (done || apply Hr). injection He as <-. by apply set_entry_keeps.
Qed.

Lemma pull_response_ok (resp : ShmResponse) (r r' : ShmRingBuffer) :
  ring_ok r -> pull_response r = Some (resp, r') -> ring_ok r' /\ queued r' = queued r.
Proof.
  unfold pull_response. intros Hr. destruct (find_entry _ _ _) as [[i e]|] eqn:E; cbn; [|done].
  intros [= <- <-]. apply find_entry_Some in E as (Hi & He & Hp). apply elem_of_seqZ in Hi.
  rewrite entry_lookup in He by (apply Hr || lia). injection He as <-. apply set_entry_keeps; (done || lia).
Qed.

Lemma ring_initialize_ok (r : ShmRingBuffer) :
  Z.of_nat (length (rb_entries r)) = RING_SIZE ->
  ring_ok (ring_initialize r) /\ queued (ring_initialize r) = [] /\
  forall i, en_response_ready (entry_at (ring_initialize r) i) = false.
Proof.
  intros Hl. assert (Hr : forall i, en_request_ready (entry_at (ring_initialize r) i) = false /\
    en_response_ready (entry_at (ring_initialize r) i) = false).
  { intros i. unfold entry_at, ring_initialize. cbn [rb_entries]. rewrite list_lookup_fmap. by destruct (_ !! _). }
  split_and!; [split| |]; cbn [ring_initialize rb_head rb_tail rb_entries rb_pending_count].
  - by rewrite length_fmap.
  - done.
  - done.
  - done.
  - intros i Hi. rewrite (proj1 (Hr i)). symmetry. apply bool_decide_eq_false_2. unfold backlog. cbn [rb_head rb_tail ring_initialize]. ring_mod.
  - done.
  - intros i. apply Hr.
Qed.

#[local] Opaque poll_ring push_request put_response pull_response.

(** ** The object as a whole *)
Definition ring_of (s : ShmShared) (cid : Z) : option ShmRingBuffer := sc_ring_buffers (sh_comm s) !! Z.to_nat (cid - 1).

Definition connected (s : ShmShared) (cid : Z) : bool :=
  from_option ci_connected false (sc_clients (sh_comm s) !! Z.to_nat (cid - 1)).

(** The requests of a client that wait for the server. *)
Definition requests_of (s : ShmShared) (cid : Z) : list ShmRequest := from_option queued [] (ring_of s cid).

Definition valid_cid (cid : Z) : Prop := 1 <= cid <= MAX_CLIENTS.

Record comm_ok (s : ShmShared) : Prop := {
  co_clients : Z.of_nat (length (sc_clients (sh_comm s))) = MAX_CLIENTS;
  co_rings : Z.of_nat (length (sc_ring_buffers (sh_comm s))) = MAX_CLIENTS;
  co_ring : Forall ring_ok (sc_ring_buffers (sh_comm s));
  co_ids : forall cid, valid_cid cid -> connected s cid = true ->
    ci_client_id <$> sc_clients (sh_comm s) !! Z.to_nat (cid - 1) = Some cid;
  co_request_sem : 0 <= sh_request_sem s <= SEM_VALUE_MAX;
  co_response_sem : 0 <= sh_response_sem s <= SEM_VALUE_MAX
}.

Lemma comm_ring (s : ShmShared) (cid : Z) :
  comm_ok s -> valid_cid cid -> exists r, ring_of s cid = Some r /\ ring_ok r.
Proof.
  intros [_ Hl Hr _ _ _] Hc. unfold valid_cid in Hc.
  destruct (lookup_lt_is_Some_2 (sc_ring_buffers (sh_comm s)) (Z.to_nat (cid - 1))) as [r E]; [lia|].
  exists r. split; [done|]. by eapply Forall_lookup_1.
Qed.

Lemma ring_of_set (s : ShmShared) (cid c : Z) (r r' : ShmRingBuffer) :
  ring_of s cid = Some r -> valid_cid cid -> valid_cid c ->
  ring_of (set_ring (Z.to_nat (cid - 1)) r' s) c = if decide (c = cid) then Some r' else ring_of s c.
Proof.
  unfold ring_of, valid_cid. cbn. intros E Hcid Hc. case_decide as D.
  - subst. apply list_lookup_insert_eq. by apply lookup_lt_Some in E.
  - apply list_lookup_insert_ne. lia.
Qed.

Lemma requests_of_set (s : ShmShared) (cid c : Z) (r r' : ShmRingBuffer) :
  ring_of s cid = Some r -> valid_cid cid -> valid_cid c ->
  requests_of (set_ring (Z.to_nat (cid - 1)) r' s) c = if decide (c = cid) then queued r' else requests_of s c.
Proof. intros E Hcid Hc. unfold requests_of. rewrite (ring_of_set s cid c r r') by done. by case_decide. Qed.

Lemma set_ring_ok (i : nat) (r : ShmRingBuffer) (s : ShmShared) : comm_ok s -> ring_ok r -> comm_ok (set_ring i r s).
Proof.
  intros [H1 H2 H3 H4 H5 H6] Hr. split; cbn; try done; [by rewrite length_insert|by apply Forall_insert].
Qed.

Lemma sem_post_range (v : Z) : 0 <= v <= SEM_VALUE_MAX -> 0 <= sem_post v <= SEM_VALUE_MAX.
Proof. unfold sem_post. intros. case_goal; lia. Qed.

(** Only the object and the ranges of the semaphores matter. *)
Lemma comm_ok_sems (s : ShmShared) (a b : Z) :
  comm_ok s -> 0 <= a <= SEM_VALUE_MAX -> 0 <= b <= SEM_VALUE_MAX -> comm_ok (mkShared (sh_comm s) a b).
Proof. intros [H1 H2 H3 H4 H5 H6] Ha Hb. by split. Qed.

(** The sweep serves the first connected client with a request; it fails only when none has. *)
Lemma sweep_spec (cids : list Z) (s : ShmShared) :
  comm_ok s -> Forall valid_cid cids ->
  match sweep cids s with
  | None => Forall (fun c => connected s c = true -> requests_of s c = []) cids
  | Some (cid, req, s') =>
      exists l1 l2 rest r r', cids = l1 ++ cid :: l2 /\ connected s cid = true /\
        Forall (fun c => connected s c = true -> requests_of s c = []) l1 /\
        ring_of s cid = Some r /\ queued r = req :: rest /\ poll_ring r = Some (req, r') /\
        s' = set_ring (Z.to_nat (cid - 1)) r' s
  end.
Proof.
  intros Hs. induction cids as [|c cids IH]; intros Hv; [constructor|]. apply Forall_cons in Hv as [Hc Hv]. specialize (IH Hv).
  destruct (comm_ring s c Hs Hc) as (r & Er & Hr). pose proof (poll_ring_spec r Hr) as Hp.
  assert (Hskip : (connected s c = true -> requests_of s c = []) ->
    match sweep cids s with
    | None => Forall (fun c => connected s c = true -> requests_of s c = []) (c :: cids)
    | Some (cid, req, s') =>
      exists l1 l2 rest r r', c :: cids = l1 ++ cid :: l2 /\ connected s cid = true /\
        Forall (fun c => connected s c = true -> requests_of s c = []) l1 /\
        ring_of s cid = Some r /\ queued r = req :: rest /\ poll_ring r = Some (req, r') /\
        s' = set_ring (Z.to_nat (cid - 1)) r' s
    end).
  { intros Hn. destruct (sweep cids s) as [[[cid req] s']|]; [|by constructor].
    destruct IH as (l1 & l2 & rest & r1 & r' & -> & Hx & Hl & Hrest).
    exists (c :: l1), l2, rest, r1, r'. split; [done|]. split; [done|]. split; [by constructor|done]. }
  cbn [sweep]. unfold poll_client. change (sc_ring_buffers (sh_comm s) !! Z.to_nat (c - 1)) with (ring_of s c). rewrite Er.
  unfold connected in Hskip. destruct (sc_clients (sh_comm s) !! Z.to_nat (c - 1)) as [ci|] eqn:Ec; cbn [mbind option_bind]; [|by apply Hskip].
  destruct (ci_connected ci) eqn:Econn; [|by apply Hskip; cbn; rewrite Econn].
  destruct (queued r) as [|req rest] eqn:Eq.
  - rewrite Hp. cbn [mbind option_bind]. apply Hskip. intros _. unfold requests_of. by rewrite Er.
  - destruct Hp as (r' & E & _). rewrite E. cbn [mbind option_bind]. exists [], cids, rest, r, r'. split; [done|].
    split; [by unfold connected; rewrite Ec|]. done.
Qed.

(** ** Processes *)
Definition server_manager : ShmManager := mkManager true Mapped true 0 true true.

Definition client_manager (cid : Z) : ShmManager := mkManager false Mapped true cid true true.

(** An operation of one of the processes. *)
Inductive shm_op :=
| ShmSend (cid : Z) (req : ShmRequest)
| ShmPoll
| ShmRespond (cid : Z) (resp : ShmResponse)
| ShmTake (cid : Z)
| ShmConnect (pid : Z)
| ShmDisconnect (cid : Z).

(** What it returned. *)
Inductive shm_event :=
| Sent (cid : Z) (req : ShmRequest)
| Received (cid : Z) (req : ShmRequest)
| Answered (cid : Z) (resp : ShmResponse)
| Taken (cid : Z) (resp : ShmResponse)
| Connected (cid : Z)
| Nothing.

Definition shm_apply (op : shm_op) (s : ShmShared) : option (shm_event * ShmShared) :=
  match op with
  | ShmSend cid req =>
      '(ok, s') ← send_request req (client_manager cid) s; Some (if (ok : bool) then Sent cid req else Nothing, s')
  | ShmPoll =>
      '(got, s') ← wait_for_request id 100 server_manager s;
      Some (match got with Got (cid, req) => Received cid req | _ => Nothing end, s')
  | ShmRespond cid resp =>
      '(ok, s') ← send_response cid resp server_manager s; Some (if (ok : bool) then Answered cid resp else Nothing, s')
  | ShmTake cid =>
      '(got, s') ← wait_for_response [id] (client_manager cid) s;
      Some (match got with Got resp => Taken cid resp | _ => Nothing end, s')
  | ShmConnect pid =>
      '(got, _, s') ← connect pid (client_manager 0) s;
      Some (match got with Some cid => Connected cid | None => Nothing end, s')
  | ShmDisconnect cid => '(_, s') ← disconnect (client_manager cid) s; Some (Nothing, s')
  end.

Fixpoint shm_run (ops : list shm_op) (s : ShmShared) : option (list shm_event * ShmShared) :=
  match ops with
  | [] => Some ([], s)
  | op :: rest => '(e, s1) ← shm_apply op s; '(es, s2) ← shm_run rest s1; Some (e :: es, s2)
  end.

(** Clients use the ids they were given; the server may answer any id. *)
Definition op_valid (op : shm_op) : Prop :=
  match op with
  | ShmSend cid _ | ShmTake cid | ShmDisconnect cid => valid_cid cid
  | ShmRespond cid _ => 0 <= cid
  | _ => True
  end.

(** The requests of client [c] that an event accepts and hands to the server. *)
Definition sent_by (c : Z) (e : shm_event) : list ShmRequest :=
  match e with Sent cid req => if decide (c = cid) then [req] else [] | _ => [] end.

Definition received_from (c : Z) (e : shm_event) : list ShmRequest :=
  match e with Received cid req => if decide (c = cid) then [req] else [] | _ => [] end.

(** An operation keeps the object well-formed and moves requests as its event says. *)
Definition moves (s : ShmShared) (r : option (shm_event * ShmShared)) : Prop :=
  exists e s', r = Some (e, s') /\ comm_ok s' /\
    forall c, valid_cid c -> received_from c e ++ requests_of s' c = requests_of s c ++ sent_by c e.

Lemma moves_quiet (e : shm_event) (s s' : ShmShared) :
  (forall c, sent_by c e = [] /\ received_from c e = []) -> comm_ok s' ->
  (forall c, valid_cid c -> requests_of s' c = requests_of s c) -> moves s (Some (e, s')).
Proof.
  intros He Hs Hq. exists e, s'. split_and!; [done|done|]. intros c Hc. destruct (He c) as [-> ->].
  by rewrite app_nil_r, Hq.
Qed.

Lemma send_moves (cid : Z) (req : ShmRequest) (s : ShmShared) :
  comm_ok s -> valid_cid cid -> moves s (shm_apply (ShmSend cid req) s).
Proof.
  intros Hs Hc. destruct (comm_ring s cid Hs Hc) as (r & Er & Hr). pose proof (push_request_spec req r Hr) as Hp.
  unfold shm_apply, send_request. cbn [mg_is_server client_manager mg_client_id mg_comm orb].
  unfold valid_cid in Hc. rewrite (proj2 (Z.eqb_neq _ _)) by lia. cbn [orb].
  change (sc_ring_buffers (sh_comm s) !! Z.to_nat (cid - 1)) with (ring_of s cid). rewrite Er. cbn [mbind option_bind].
  case_decide as E.
  - rewrite Hp. by apply moves_quiet.
  - destruct Hp as (r' & -> & Hr' & Hq & _). cbn [mbind option_bind]. eexists _, _. split; [reflexivity|]. split.
    + apply (comm_ok_sems (set_ring (Z.to_nat (cid - 1)) r' s)); [by apply set_ring_ok| |apply Hs].
      apply sem_post_range, Hs.
    + intros c Hcv. cbn [received_from sent_by app].
      change (requests_of (post_request ?x) c) with (requests_of x c).
      rewrite (requests_of_set s cid c r r') by done. case_decide; [subst|by rewrite app_nil_r].
      rewrite Hq. unfold requests_of. by rewrite Er.
Qed.

Lemma respond_moves (cid : Z) (resp : ShmResponse) (s : ShmShared) :
  comm_ok s -> 0 <= cid -> moves s (shm_apply (ShmRespond cid resp) s).
Proof.
  intros Hs H0. unfold shm_apply, send_response. cbn [mg_is_server server_manager mg_comm negb].
  assert (Hno : moves s (Some (Nothing, s))).
  { by apply moves_quiet. }
  destruct (orb _ _) eqn:E; [done|]. zify_bool. assert (Hc : valid_cid cid) by (unfold valid_cid; lia).
  destruct (comm_ring s cid Hs Hc) as (r & Er & Hr).
  change (sc_ring_buffers (sh_comm s) !! Z.to_nat (cid - 1)) with (ring_of s cid). rewrite Er. cbn [mbind option_bind].
  destruct (put_response resp r) as [r'|] eqn:Ep; [|done]. cbn [mbind option_bind].
  apply put_response_ok in Ep as [Hr' Hq]; [|done]. eexists _, _. split; [reflexivity|]. split.
  - apply (comm_ok_sems (set_ring (Z.to_nat (cid - 1)) r' s)); [by apply set_ring_ok|apply Hs|]. apply sem_post_range, Hs.
  - intros c Hcv. cbn [received_from sent_by app]. change (requests_of (post_response ?x) c) with (requests_of x c).
    rewrite (requests_of_set s cid c r r'), app_nil_r by done. case_decide; [subst|done]. rewrite Hq. unfold requests_of. by rewrite Er.
Qed.

Lemma all_clients_valid : Forall valid_cid all_clients.
Proof. apply Forall_forall. intros c Hc%elem_of_seqZ. unfold valid_cid, MAX_CLIENTS in *. lia. Qed.

Lemma poll_requests_spec (s : ShmShared) :
  comm_ok s ->
  match poll_requests s with
  | (Some (cid, req), s') =>
      valid_cid cid /\ connected s cid = true /\ comm_ok s' /\ sc_clients (sh_comm s') = sc_clients (sh_comm s) /\
      (forall c, valid_cid c -> requests_of s c = if decide (c = cid) then req :: requests_of s' c else requests_of s' c) /\
      forall c, 1 <= c < cid -> connected s c = true -> requests_of s c = []
  | (None, s') => s' = s /\ forall c, valid_cid c -> connected s c = true -> requests_of s c = []
  end.
Proof.
  intros Hs. unfold poll_requests. pose proof (sweep_spec all_clients s Hs all_clients_valid) as H.
  destruct (sweep all_clients s) as [[[cid req] s']|].
  - destruct H as (l1 & l2 & rest & r & r' & Hl & Hc & Hb & Er & Hq & Hp & ->).
    assert (Hv : valid_cid cid).
    { apply (proj1 (Forall_forall _ _) all_clients_valid). rewrite Hl. set_solver. }
    destruct (comm_ring s cid Hs Hv) as (r0 & Er0 & Hr). assert (r0 = r) as -> by congruence.
    pose proof (poll_ring_spec r Hr) as Hp'. rewrite Hq in Hp'. destruct Hp' as (r1 & E1 & Hr1 & Hq1 & _).
    assert (r1 = r') as -> by congruence. split_and!; try done; [by apply set_ring_ok| |].
    + intros c Hcv. rewrite (requests_of_set s cid c r r') by done. case_decide; [subst|done].
      unfold requests_of. rewrite Er. cbn. by rewrite Hq.
    + intros c Hlt. apply (proj1 (Forall_forall _ _) Hb).
      assert (E : all_clients !! Z.to_nat (c - 1) = Some c).
      { apply lookup_seqZ. unfold valid_cid in *. lia. }
      assert (Ec : all_clients !! length l1 = Some cid) by (rewrite Hl; by apply list_lookup_middle).
      apply lookup_seqZ in Ec as [Ec _]. rewrite Hl, lookup_app_l in E by lia. by apply list_elem_of_lookup_2 in E.
  - split; [done|]. intros c Hc. apply (proj1 (Forall_forall _ _) H). unfold all_clients.
    apply elem_of_seqZ. unfold valid_cid, MAX_CLIENTS in *. lia.
Qed.

(** The semaphores do not matter to the sweep. *)
Lemma sweep_none_sems (cids : list Z) (s : ShmShared) (a b : Z) :
  sweep cids s = None -> sweep cids (mkShared (sh_comm s) a b) = None.
Proof.
  induction cids as [|c cids IH]; cbn [sweep]; unfold poll_client; cbn [sh_comm]; [done|].
  destruct (sc_clients _ !! _) as [ci|]; cbn [mbind option_bind]; [|apply IH]. destruct (sc_ring_buffers _ !! _) as [r|]; cbn [mbind option_bind]; [|apply IH].
  destruct (ci_connected ci); [|apply IH]. destruct (poll_ring r) as [[]|]; [done|apply IH].
Qed.

Lemma poll_requests_none (s : ShmShared) (a b : Z) :
  (poll_requests s).1 = None -> poll_requests (mkShared (sh_comm s) a b) = (None, mkShared (sh_comm s) a b).
Proof.
  unfold poll_requests. intros E. rewrite sweep_none_sems; [done|]. by destruct (sweep all_clients s) as [[[]]|].
Qed.

Lemma poll_moves (s : ShmShared) : comm_ok s -> moves s (shm_apply ShmPoll s).
Proof.
  intros Hs. unfold shm_apply, wait_for_request. cbn [mg_is_server server_manager mg_comm negb].
  pose proof (poll_requests_spec s Hs) as Hp. destruct (poll_requests s) as [[[cid req]|] s'] eqn:E; cbn [mbind option_bind].
  - destruct Hp as (Hv & _ & Hs' & _ & Hq & _). eexists _, _. split; [reflexivity|]. split; [done|].
    intros c Hc. rewrite (Hq c Hc), app_nil_r. cbn. by case_decide.
  - destruct Hp as [-> Hn]. cbn [Z.eqb]. cbv zeta. change (id s) with s.
    assert (H0 := co_request_sem s Hs). assert (H1 := co_response_sem s Hs).
    destruct (0 <? sh_request_sem s) eqn:Es; rewrite Es.
    + zify_bool. rewrite poll_requests_none by (by rewrite E). cbn [mbind option_bind got_of from_option].
      apply moves_quiet; [done| |done]. apply comm_ok_sems; (done || lia).
    + by apply moves_quiet.
Qed.

Lemma take_response_moves (cid : Z) (s s' : ShmShared) (resp : ShmResponse) :
  comm_ok s -> valid_cid cid -> take_response (Z.to_nat (cid - 1)) s = Some (resp, s') ->
  comm_ok s' /\ forall c, valid_cid c -> requests_of s' c = requests_of s c.
Proof.
  intros Hs Hc. destruct (comm_ring s cid Hs Hc) as (r & Er & Hr). unfold take_response.
  change (sc_ring_buffers (sh_comm s) !! Z.to_nat (cid - 1)) with (ring_of s cid). rewrite Er. cbn [mbind option_bind].
  destruct (pull_response r) as [[p r']|] eqn:E; cbn [mbind option_bind]; [|done]. intros [= <- <-].
  apply pull_response_ok in E as [Hr' Hq]; [|done]. split; [by apply set_ring_ok|]. intros c Hv.
  rewrite (requests_of_set s cid c r r') by done. case_decide; [subst|done]. rewrite Hq. unfold requests_of. by rewrite Er.
Qed.

Lemma take_moves (cid : Z) (s : ShmShared) : comm_ok s -> valid_cid cid -> moves s (shm_apply (ShmTake cid) s).
Proof.
  intros Hs Hc. destruct (comm_ring s cid Hs Hc) as (r & Er & Hr). pose proof (take_response_moves cid s) as Ht.
  unfold shm_apply, wait_for_response. cbn [mg_is_server client_manager mg_client_id mg_comm orb].
  rewrite (proj2 (Z.eqb_neq _ _)) by (unfold valid_cid in Hc; lia). cbn [orb].
  change (sc_ring_buffers (sh_comm s) !! Z.to_nat (cid - 1)) with (ring_of s cid). rewrite Er. cbn [mbind option_bind response_loop].
  destruct (take_response (Z.to_nat (cid - 1)) s) as [[resp s']|] eqn:E.
  - destruct (Ht s' resp Hs Hc eq_refl) as [Hs' Hq]. cbn [mbind option_bind]. by apply moves_quiet.
  - assert (H0 := co_request_sem s Hs). assert (H1 := co_response_sem s Hs). cbv zeta. change (id s) with s.
    set (s2 := if 0 <? _ then _ else _).
    assert (H2 : comm_ok s2 /\ forall c, requests_of s2 c = requests_of s c).
    { unfold s2. destruct (0 <? sh_response_sem s) eqn:Es; rewrite Es; [|done]. zify_bool.
      split; [apply comm_ok_sems; (done || lia)|done]. }
    destruct H2 as [H2 Hq2]. destruct (take_response _ s2) as [[resp s']|] eqn:E2; cbn [mbind option_bind].
    + destruct (take_response_moves cid s2 s' resp H2 Hc E2) as [Hs' Hq']. apply moves_quiet; [done|done|].
      intros c Hv. by rewrite Hq', Hq2.
    + by apply moves_quiet.
Qed.

Lemma free_slot_spec (cs : list ShmClientInfo) (k i : nat) :
  free_slot k cs = Some i ->
  exists j ci, i = (k + j)%nat /\ cs !! j = Some ci /\ ci_connected ci = false /\
    forall j' ci', (j' < j)%nat -> cs !! j' = Some ci' -> ci_connected ci' = true.
Proof.
  revert k. induction cs as [|c cs IH]; intros k; cbn; [done|]. destruct (ci_connected c) eqn:E.
  - intros H. apply IH in H as (j & ci & -> & Hj & Hci & Hb). exists (S j), ci. split_and!; [lia|done|done|].
    intros [|j'] ci' Hlt Hl; [by injection Hl as <-|]. apply (Hb j'); [lia|done].
  - intros [= <-]. exists 0%nat, c. split_and!; [lia|done|done|]. intros; lia.
Qed.

Lemma client_set_ok (i : nat) (ci : ShmClientInfo) (s : ShmShared) :
  comm_ok s -> (ci_connected ci = true -> ci_client_id ci = Z.of_nat i + 1) -> comm_ok (set_client i ci s).
Proof.
  intros [H1 H2 H3 H4 H5 H6] Hi. split; cbn; try done; [by rewrite length_insert|].
  unfold connected. cbn. intros cid Hv Hc. destruct (decide (i = Z.to_nat (cid - 1))) as [->|Hne].
  - destruct (decide (Z.to_nat (cid - 1) < length (sc_clients (sh_comm s)))%nat) as [Hl|Hl].
    + rewrite list_lookup_insert_eq in * by done. cbn in *. rewrite (Hi Hc). f_equal. unfold valid_cid in Hv. lia.
    + unfold valid_cid in Hv. lia.
  - rewrite list_lookup_insert_ne in * by done. by apply H4.
Qed.

Lemma connect_ok (pid : Z) (s : ShmShared) :
  comm_ok s ->
  exists got m s', connect pid (client_manager 0) s = Some (got, m, s') /\ comm_ok s' /\
    match got with
    | None => s' = s /\ forall c, valid_cid c -> connected s c = true
    | Some cid => valid_cid cid /\ connected s cid = false /\ m = client_manager cid /\ connected s' cid = true /\
        (exists r, ring_of s cid = Some r /\ ring_of s' cid = Some (ring_initialize r)) /\
        (forall c, valid_cid c -> c <> cid -> ring_of s' c = ring_of s c /\ connected s' c = connected s c) /\
        forall c, 1 <= c < cid -> connected s c = true
    end.
Proof.
  intros Hs. unfold connect. cbn [mg_is_server client_manager mg_comm].
  destruct (free_slot 0 (sc_clients (sh_comm s))) as [i|] eqn:E.
  - apply free_slot_spec in E as (j & ci & -> & Hj & Hci & Hbefore). cbn [Nat.add].
    pose proof (lookup_lt_Some _ _ _ Hj) as Hl. pose proof (co_clients s Hs) as Hlen. pose proof (co_rings s Hs) as Hlr.
    set (cid := Z.of_nat j + 1). assert (Hv : valid_cid cid) by (unfold valid_cid; lia).
    assert (Hji : j = Z.to_nat (cid - 1)) by lia. destruct (comm_ring s cid Hs Hv) as (r & Er & Hr).
    rewrite Hji. change (sc_ring_buffers (sh_comm s) !! Z.to_nat (cid - 1)) with (ring_of s cid). rewrite Er. cbn [mbind option_bind].
    eexists _, _, _. split; [reflexivity|].
    assert (Hs1 : comm_ok (set_client (Z.to_nat (cid - 1)) (mkClientInfo cid pid true ("Client_" +:+ pretty cid)) s)).
    { apply client_set_ok; [done|]. cbn. lia. }
    assert (Hri := ring_initialize_ok r (ro_length r Hr)).
    split; [apply set_ring_ok; [done|apply Hri]|]. split_and!; try done.
    + unfold connected. by rewrite <- Hji, Hj.
    + unfold connected. cbn. rewrite list_lookup_insert_eq by lia. done.
    + exists r. split; [done|]. rewrite (ring_of_set _ cid cid r) by done. by rewrite decide_True.
    + intros c Hc Hne. rewrite (ring_of_set _ cid c r), decide_False by done. split; [done|].
      unfold connected. cbn. rewrite list_lookup_insert_ne; [done|]. unfold valid_cid in *. lia.
    + intros c Hlt. unfold connected.
      destruct (lookup_lt_is_Some_2 (sc_clients (sh_comm s)) (Z.to_nat (c - 1))) as [ci' Ec]; [lia|]. rewrite Ec.
      apply (Hbefore (Z.to_nat (c - 1))); [lia|done].
  - eexists _, _, _. split; [reflexivity|]. split; [done|]. split; [done|]. intros c Hc. unfold connected.
    destruct (sc_clients (sh_comm s) !! Z.to_nat (c - 1)) as [ci|] eqn:Ec.
    + cbn. generalize 0%nat, E, (Z.to_nat (c - 1)), Ec. clear. induction (sc_clients (sh_comm s)) as [|x l IH]; intros k E j Ej; [done|].
      cbn in E. destruct (ci_connected x) eqn:Ex; [|done]. destruct j as [|j]; [by injection Ej as <-|]. by apply (IH (S k) E j).
    + apply lookup_ge_None in Ec. pose proof (co_clients s Hs). unfold valid_cid in Hc. lia.
Qed.

Lemma disconnect_moves (cid : Z) (s : ShmShared) : comm_ok s -> valid_cid cid -> moves s (shm_apply (ShmDisconnect cid) s).
Proof.
  intros Hs Hc. unfold shm_apply, disconnect. cbn [mg_is_server client_manager mg_comm mg_client_id].
  unfold valid_cid in Hc. rewrite (proj2 (Z.ltb_lt _ _)), (proj2 (Z.leb_le _ _)) by lia. cbn [andb mbind option_bind].
  apply moves_quiet; [done| |]; unfold drop_connection; destruct (_ !! _) as [ci|]; try done.
  by apply client_set_ok.
Qed.

Lemma shm_run_total (ops : list shm_op) (s : ShmShared) (Hs : comm_ok s) (Ho : Forall op_valid ops) :
  exists es s', shm_run ops s = Some (es, s') /\ comm_ok s' /\ length es = length ops.
Proof.
  revert s Hs. induction Ho as [|op ops Hop Ho IH]; intros s Hs; [by eexists _, _|].
  assert (H : exists e s1, shm_apply op s = Some (e, s1) /\ comm_ok s1).
  { assert (Hm : forall r, moves s r -> exists e s1, r = Some (e, s1) /\ comm_ok s1)
      by (intros r (e & s1 & E & H & _); by exists e, s1).
    destruct op; cbn in Hop.
    - by apply Hm, send_moves.
    - by apply Hm, poll_moves.
    - by apply Hm, respond_moves.
    - by apply Hm, take_moves.
    - destruct (connect_ok pid s Hs) as (got & m & s' & E & H & _). unfold shm_apply. rewrite E. cbn. by eexists _, _.
    - by apply Hm, disconnect_moves. }
  destruct H as (e & s1 & E & H1). destruct (IH s1 H1) as (es & s2 & E2 & H2 & Hl).
  exists (e :: es), s2. cbn [shm_run]. rewrite E. cbn [mbind option_bind]. rewrite E2. cbn. split_and!; [done|done|lia].
Qed.

(** C31. The shared object stays well-typed: whatever requests, polls, responses, connections and
    disconnections the processes make, in any order, no access leaves an array, the indices
    stay below 1024, the pending counter of each ring is the number of its requests, and
    exactly the entries between tail and head carry a request. *)
Theorem shm_comm_well_typed (ops : list shm_op) (s : ShmShared) (Hs : comm_ok s) (Ho : Forall op_valid ops) :
  exists es s', shm_run ops s = Some (es, s') /\ comm_ok s' /\ length es = length ops.
Proof. by apply shm_run_total. Qed.

Definition is_connect (op : shm_op) : bool := match op with ShmConnect _ => true | _ => false end.

(** Requests are FIFO queues, one per client, also when clients send several requests ahead:
    over any sequence of operations without new connections, the requests that the server
    received from a client, followed by those still in its ring, are those that were in the
    ring before, followed by those the client managed to send. *)
Theorem shm_requests_fifo (ops : list shm_op) (s s' : ShmShared) (es : list shm_event) (c : Z)
  (Hs : comm_ok s) (Ho : Forall op_valid ops) (Hn : Forall (fun op => is_connect op = false) ops)
  (Hr : shm_run ops s = Some (es, s')) (Hc : valid_cid c) :
  concat (received_from c <$> es) ++ requests_of s' c = requests_of s c ++ concat (sent_by c <$> es).
Proof.
  revert s es Hs Hn Hr. induction Ho as [|op ops Hop Ho IH]; intros s es Hs Hn Hr; cbn [shm_run] in Hr.
  { injection Hr as <- <-. cbn. by rewrite app_nil_r. }
  apply Forall_cons in Hn as [Hn1 Hn].
  assert (H : moves s (shm_apply op s)).
  { destruct op; cbn in Hop; [by apply send_moves|by apply poll_moves|by apply respond_moves|by apply take_moves|done|by apply disconnect_moves]. }
  destruct H as (e & s1 & E & H1 & Hq). rewrite E in Hr. cbn [mbind option_bind] in Hr.
  destruct (shm_run ops s1) as [[es1 s2]|] eqn:E2; cbn in Hr; [|done]. injection Hr as <- <-.
  specialize (IH s1 es1 H1 Hn E2). cbn. rewrite <- app_assoc, IH, app_assoc, (Hq c Hc), app_assoc. done.
Qed.

(** ** One request at a time

    A client that waits for the response of each request before it sends the next. *)
Inductive phase :=
| Idle
| Waiting (req : ShmRequest)
| Serving (req : ShmRequest)
| Replied (resp : ShmResponse).

Definition no_response (r : ShmRingBuffer) : Prop :=
  forall i, 0 <= i < RING_SIZE -> en_response_ready (entry_at r i) = false.

Definition ring_phase (r : ShmRingBuffer) (ph : phase) : Prop :=
  ring_ok r /\
  match ph with
  | Idle | Serving _ => queued r = [] /\ no_response r
  | Waiting req => queued r = [req] /\ no_response r
  | Replied resp => queued r = [] /\ en_response (entry_at r (rb_head r)) = resp /\
      forall i, 0 <= i < RING_SIZE -> en_response_ready (entry_at r i) = bool_decide (i = rb_head r)
  end.

Lemma push_idle (req : ShmRequest) (r : ShmRingBuffer) :
  ring_phase r Idle -> exists r', push_request req r = Some (Some r') /\ ring_phase r' (Waiting req).
Proof.
  intros (Hr & Hq & Hn). pose proof (push_request_spec req r Hr) as H. pose proof (queued_length r) as Hl.
  rewrite Hq in Hl. cbn in Hl. rewrite decide_False in H by (unfold RING_SIZE; lia).
  destruct H as (r' & E & Hr' & Hq' & _ & _ & Hh & He). exists r'. split; [done|]. split; [done|]. split.
  - by rewrite Hq', Hq.
  - intros i Hi. destruct (decide (i = rb_head r)) as [->|Hne]; [done|]. rewrite He by done. by apply Hn.
Qed.

Lemma poll_waiting (req : ShmRequest) (r r' : ShmRingBuffer) :
  ring_phase r (Waiting req) -> poll_ring r = Some (req, r') -> ring_phase r' (Serving req).
Proof.
  intros (Hr & Hq & Hn) E. pose proof (poll_ring_spec r Hr) as H. rewrite Hq in H.
  destruct H as (r1 & E1 & Hr1 & Hq1 & _ & _ & He). assert (r1 = r') as -> by congruence.
  split; [done|]. split; [done|]. intros i Hi. rewrite (proj1 (He i Hi)). by apply Hn.
Qed.

#[local] Transparent put_response pull_response.

(** The response goes to the entry at the head, the first one looked at. *)
Lemma put_serving (req : ShmRequest) (resp : ShmResponse) (r : ShmRingBuffer) :
  ring_phase r (Serving req) -> exists r', put_response resp r = Some r' /\ ring_phase r' (Replied resp).
Proof.
  intros (Hr & Hq & Hn). destruct Hr as [Hl Hh Ht Hp Hf] eqn:EHr.
  assert (Htest : negb (en_request_ready (entry_at r (rb_head r))) && negb (en_response_ready (entry_at r (rb_head r))) = true).
  { rewrite Hf, Hn, bool_decide_eq_false_2 by (done || (apply (queued_nil r Hr) in Hq; ring_mod)). done. }
  unfold put_response, response_slot. rewrite (seqZ_cons 0) by done. cbn [fmap list_fmap].
  rewrite wrap32_small, Z.add_0_r, Z.mod_small by (unfold RING_SIZE in *; lia).
  cbn [find_entry]. unfold test_entry. rewrite entry_lookup by done. cbn [mbind option_bind]. rewrite Htest.
  cbn [mbind option_bind]. eexists. split; [reflexivity|]. unfold set_entry. cbn [rb_head rb_tail rb_pending_count rb_entries rb_total_requests].
  destruct (set_entry_keeps r (rb_head r) (rb_total_requests r) (rb_total_responses r ⊞ 1)
    (mkEntry (en_request_ready (entry_at r (rb_head r))) true (en_request (entry_at r (rb_head r))) resp)) as [H1 H2]; try done.
  split; [exact H1|]. split; [by etrans; [exact H2|]|]. split; cbn [rb_head].
  - rewrite entry_at_insert, decide_True by done. done.
  - intros i Hi. rewrite entry_at_insert by done. case_decide; [by rewrite bool_decide_eq_true_2|].
    rewrite Hn, bool_decide_eq_false_2 by done. done.
Qed.

Lemma pull_replied (resp : ShmResponse) (r : ShmRingBuffer) :
  ring_phase r (Replied resp) -> exists r', pull_response r = Some (resp, r') /\ ring_phase r' Idle.
Proof.
  intros (Hr & Hq & <- & Hn). unfold pull_response. set (k := rb_head r) in *. pose proof (ro_head r Hr) as Hk. fold k in Hk.
  replace (seqZ 0 RING_SIZE) with (seqZ 0 k ++ k :: seqZ (k + 1) (RING_SIZE - k - 1)).
  2:{ replace RING_SIZE with (k + (RING_SIZE - k)) at 2 by lia. rewrite seqZ_app by lia. f_equal.
      rewrite (seqZ_cons (0 + k)) by lia. repeat (f_equal; try lia). }
  rewrite (find_entry_first _ _ _ _ k (entry_at r k)).
  - cbn [mbind option_bind]. eexists. split; [reflexivity|].
    destruct (set_entry_keeps r k (rb_total_requests r) (rb_total_responses r)
      (mkEntry (en_request_ready (entry_at r k)) false (en_request (entry_at r k)) (en_response (entry_at r k)))) as [H1 H2]; try done.
    unfold set_entry. split; [exact H1|]. split; [by etrans; [exact H2|]|]. intros i Hi. rewrite entry_at_insert by (done || apply Hr).
    case_decide; [done|]. by rewrite Hn, bool_decide_eq_false_2.
  - apply entry_lookup; [apply Hr|done].
  - by rewrite Hn, bool_decide_eq_true_2.
  - intros j e Hj He. apply elem_of_seqZ in Hj. rewrite entry_lookup in He by (apply Hr || lia). injection He as <-.
    rewrite Hn by lia. apply bool_decide_eq_false_2. lia.
Qed.

Lemma pull_none (r : ShmRingBuffer) : ring_ok r -> no_response r -> pull_response r = None.
Proof.
  intros Hr Hn. unfold pull_response. rewrite find_entry_None; [done|]. intros j e Hj He. apply elem_of_seqZ in Hj.
  rewrite entry_lookup in He by (apply Hr || lia). injection He as <-. apply Hn. lia.
Qed.

#[local] Opaque put_response pull_response.

(** The phase of every connected client. *)
Definition rpc_ok (s : ShmShared) (ph : Z -> phase) : Prop :=
  comm_ok s /\ forall c, valid_cid c -> connected s c = true ->
    exists r, ring_of s c = Some r /\ ring_phase r (ph c).

(** What the clients and the server are meant to see: each request is answered once, with the
    response given to it. *)
Inductive rpc_step (ph : Z -> phase) : shm_event -> (Z -> phase) -> Prop :=
| rpc_sent c req : ph c = Idle -> rpc_step ph (Sent c req) (<[c := Waiting req]> ph)
| rpc_received c req : ph c = Waiting req -> rpc_step ph (Received c req) (<[c := Serving req]> ph)
| rpc_answered c req resp : ph c = Serving req -> rpc_step ph (Answered c resp) (<[c := Replied resp]> ph)
| rpc_taken c resp : ph c = Replied resp -> rpc_step ph (Taken c resp) (<[c := Idle]> ph)
| rpc_nothing : rpc_step ph Nothing ph.

(** The discipline: a client sends when it has no request outstanding and looks for a response
    when it has one, the server answers the requests it received. *)
Definition disciplined (s : ShmShared) (ph : Z -> phase) (op : shm_op) : Prop :=
  match op with
  | ShmSend c _ => valid_cid c /\ connected s c = true /\ ph c = Idle
  | ShmPoll => True
  | ShmRespond c _ => valid_cid c /\ connected s c = true /\ exists req, ph c = Serving req
  | ShmTake c => valid_cid c /\ connected s c = true /\ ph c <> Idle
  | ShmConnect _ | ShmDisconnect _ => False
  end.

(** An operation that cannot be refused. *)
Definition must_happen (ph : Z -> phase) (op : shm_op) : Prop :=
  match op with
  | ShmSend _ _ | ShmRespond _ _ => True
  | ShmTake c => exists resp, ph c = Replied resp
  | _ => False
  end.

Lemma rpc_set (s : ShmShared) (ph : Z -> phase) (c : Z) (r r' : ShmRingBuffer) (x : phase) (a b : Z) :
  rpc_ok s ph -> valid_cid c -> ring_of s c = Some r -> ring_phase r' x ->
  0 <= a <= SEM_VALUE_MAX -> 0 <= b <= SEM_VALUE_MAX ->
  rpc_ok (mkShared (sh_comm (set_ring (Z.to_nat (c - 1)) r' s)) a b) (<[c := x]> ph).
Proof.
  intros [Hs Hph] Hc Er Hx Ha Hb. split.
  - apply comm_ok_sems; [|done|done]. apply set_ring_ok; [done|apply Hx].
  - intros d Hd Hcon. change (ring_of (mkShared ?y a b) d) with (ring_of (set_ring (Z.to_nat (c - 1)) r' s) d).
    rewrite (ring_of_set s c d r r') by done. destruct (decide (d = c)) as [->|Hne].
    + exists r'. by rewrite fn_lookup_insert.
    + rewrite fn_lookup_insert_ne by done. by apply Hph.
Qed.

Section Rpc.
Context (s : ShmShared) (ph : Z -> phase) (Hok : rpc_ok s ph).

Lemma rpc_send (c : Z) (req : ShmRequest) :
  valid_cid c -> connected s c = true -> ph c = Idle ->
  exists s', shm_apply (ShmSend c req) s = Some (Sent c req, s') /\ rpc_ok s' (<[c := Waiting req]> ph) /\
    sc_clients (sh_comm s') = sc_clients (sh_comm s).
Proof.
  intros Hc Hcon Hi. destruct Hok as [Hs Hph]. destruct (Hph c Hc Hcon) as (r & Er & Hr). rewrite Hi in Hr.
  destruct (push_idle req r Hr) as (r' & E & Hr').
  unfold shm_apply, send_request. cbn [mg_is_server client_manager mg_client_id mg_comm orb].
  rewrite (proj2 (Z.eqb_neq _ _)) by (unfold valid_cid in Hc; lia). cbn [orb].
  change (sc_ring_buffers (sh_comm s) !! Z.to_nat (c - 1)) with (ring_of s c). rewrite Er. cbn [mbind option_bind].
  rewrite E. cbn [mbind option_bind]. eexists. split; [reflexivity|]. split; [|done].
  apply (rpc_set s ph c r r'); try done; [apply sem_post_range|]; apply Hs.
Qed.

Lemma rpc_respond (c : Z) (req : ShmRequest) (resp : ShmResponse) :
  valid_cid c -> connected s c = true -> ph c = Serving req ->
  exists s', send_response c resp server_manager s = Some (true, s') /\ rpc_ok s' (<[c := Replied resp]> ph) /\
    sc_clients (sh_comm s') = sc_clients (sh_comm s).
Proof.
  intros Hc Hcon Hi. destruct Hok as [Hs Hph]. destruct (Hph c Hc Hcon) as (r & Er & Hr). rewrite Hi in Hr.
  destruct (put_serving req resp r Hr) as (r' & E & Hr').
  unfold send_response. cbn [mg_is_server server_manager mg_comm negb]. unfold valid_cid in Hc.
  rewrite (proj2 (Z.eqb_neq _ _)), (proj2 (Z.ltb_ge _ _)) by lia. cbn [orb].
  change (sc_ring_buffers (sh_comm s) !! Z.to_nat (c - 1)) with (ring_of s c). rewrite Er. cbn [mbind option_bind].
  rewrite E. eexists. split; [reflexivity|]. split; [|done].
  apply (rpc_set s ph c r r'); try done; [apply Hs|apply sem_post_range, Hs].
Qed.

(** Polling takes the request of the first waiting client, and finds it when there is one. *)
Lemma rpc_poll :
  (exists c req s', wait_for_request id 100 server_manager s = Some (Got (c, req), s') /\
     valid_cid c /\ connected s c = true /\ ph c = Waiting req /\ rpc_ok s' (<[c := Serving req]> ph) /\
     sc_clients (sh_comm s') = sc_clients (sh_comm s) /\
     forall d q, 1 <= d < c -> connected s d = true -> ph d <> Waiting q) \/
  (exists s', wait_for_request id 100 server_manager s = Some (NotGot, s') /\ rpc_ok s' ph /\
     sc_clients (sh_comm s') = sc_clients (sh_comm s) /\
     forall c req, valid_cid c -> connected s c = true -> ph c <> Waiting req).
Proof.
  destruct Hok as [Hs Hph]. unfold wait_for_request. cbn [mg_is_server server_manager mg_comm negb].
  assert (Hempty : forall c req, valid_cid c -> connected s c = true -> requests_of s c = [] -> ph c <> Waiting req).
  { intros c req Hc Hcon Hn Hw. destruct (Hph c Hc Hcon) as (r & Er & Hr). rewrite Hw in Hr. destruct Hr as (_ & Hq & _).
    unfold requests_of in Hn. rewrite Er in Hn. cbn in Hn. congruence. }
  pose proof (poll_requests_spec s Hs) as Hspec. destruct (poll_requests s) as [[[c req]|] s1] eqn:E; [left|right].
  - destruct Hspec as (_ & _ & _ & _ & _ & Hfirst). unfold poll_requests in E. pose proof (sweep_spec all_clients s Hs all_clients_valid) as H.
    destruct (sweep all_clients s) as [[[c' req'] s']|]; [|done]. injection E as -> -> ->.
    destruct H as (l1 & l2 & rest & r & r' & Hl & Hcon & _ & Er & Hq & Hp & ->).
    assert (Hv : valid_cid c).
    { apply (proj1 (Forall_forall _ _) all_clients_valid). rewrite Hl. set_solver. }
    destruct (Hph c Hv Hcon) as (r0 & Er0 & Hr). assert (r0 = r) as -> by congruence.
    assert (Ew : ph c = Waiting req).
    { destruct (ph c); destruct Hr as (_ & Hq0 & _); rewrite Hq in Hq0; try done. by injection Hq0 as -> _. }
    rewrite Ew in Hr. pose proof (poll_waiting req r r' Hr Hp) as Hr'.
    exists c, req. eexists. split; [reflexivity|]. split_and!; try done.
    { destruct s as [cm a b]. apply (rpc_set (mkShared cm a b) ph c r r' (Serving req) a b); try done; apply Hs. }
    intros d q Hd Hcd. apply Hempty; [unfold valid_cid in *; lia|done|by apply Hfirst].
  - destruct Hspec as [-> Hn]. cbn [Z.eqb]. cbv zeta. change (id s) with s.
    assert (Hnone : forall c req, valid_cid c -> connected s c = true -> ph c <> Waiting req).
    { intros c req Hc Hcon. by apply Hempty, Hn. }
    assert (H0 := co_request_sem s Hs). assert (H1 := co_response_sem s Hs).
    destruct (0 <? sh_request_sem s) eqn:Es; rewrite Es.
    + rewrite poll_requests_none by (by rewrite E). cbn [got_of from_option]. zify_bool.
      eexists. split; [reflexivity|]. split_and!; [|done|done]. split; [apply comm_ok_sems; (done || lia)|done].
    + eexists. split; [reflexivity|]. done.
Qed.

Lemma take_response_none (c : Z) (a b : Z) :
  valid_cid c -> connected s c = true -> (forall resp, ph c <> Replied resp) ->
  take_response (Z.to_nat (c - 1)) (mkShared (sh_comm s) a b) = None.
Proof.
  intros Hc Hcon Hn. destruct Hok as [Hs Hph]. destruct (Hph c Hc Hcon) as (r & Er & Hr & Hp).
  unfold take_response. cbn [sh_comm]. change (sc_ring_buffers (sh_comm s) !! Z.to_nat (c - 1)) with (ring_of s c).
  rewrite Er. cbn [mbind option_bind]. rewrite pull_none; [done|done|].
  destruct (ph c) as [| | |resp]; [apply Hp|apply Hp|apply Hp|by destruct (Hn resp)].
Qed.

Lemma take_response_some (c : Z) (resp : ShmResponse) :
  valid_cid c -> connected s c = true -> ph c = Replied resp ->
  exists s', take_response (Z.to_nat (c - 1)) s = Some (resp, s') /\ rpc_ok s' (<[c := Idle]> ph) /\
    sc_clients (sh_comm s') = sc_clients (sh_comm s).
Proof.
  intros Hc Hcon Hp. destruct Hok as [Hs Hph]. destruct (Hph c Hc Hcon) as (r & Er & Hr). rewrite Hp in Hr.
  destruct (pull_replied resp r Hr) as (r' & E & Hr'). unfold take_response.
  change (sc_ring_buffers (sh_comm s) !! Z.to_nat (c - 1)) with (ring_of s c).
  rewrite Er. cbn [mbind option_bind]. rewrite E. cbn [mbind option_bind]. eexists. split; [reflexivity|]. split; [|done].
  destruct s as [cm a b]. apply (rpc_set (mkShared cm a b) ph c r r' Idle a b); try done; apply Hs.
Qed.

Lemma rpc_take (c : Z) :
  valid_cid c -> connected s c = true ->
  match ph c with
  | Replied resp => exists s', shm_apply (ShmTake c) s = Some (Taken c resp, s') /\ rpc_ok s' (<[c := Idle]> ph) /\
      sc_clients (sh_comm s') = sc_clients (sh_comm s)
  | _ => exists s', shm_apply (ShmTake c) s = Some (Nothing, s') /\ rpc_ok s' ph
  end.
Proof.
  intros Hc Hcon. pose proof Hok as [Hs Hph]. destruct (Hph c Hc Hcon) as (r & Er & _).
  unfold shm_apply, wait_for_response. cbn [mg_is_server client_manager mg_client_id mg_comm orb].
  rewrite (proj2 (Z.eqb_neq _ _)) by (unfold valid_cid in Hc; lia). cbn [orb].
  change (sc_ring_buffers (sh_comm s) !! Z.to_nat (c - 1)) with (ring_of s c). rewrite Er. cbn [mbind option_bind response_loop].
  assert (Hnone : (forall resp, ph c <> Replied resp) -> exists s',
    ('(got, s') ← Some (match take_response (Z.to_nat (c - 1)) s with
       | Some (resp, s') => (Got resp, s')
       | None => let s1 := if 0 <? sh_response_sem s then s else id s in
           let s2 := if 0 <? sh_response_sem s1 then mkShared (sh_comm s1) (sh_request_sem s1) (sh_response_sem s1 - 1) else s1 in
           match take_response (Z.to_nat (c - 1)) s2 with Some (resp, s') => (Got resp, s') | None => (NotGot, s2) end
       end); Some (match got with Got resp => Taken c resp | _ => Nothing end, s')) = Some (Nothing, s') /\ rpc_ok s' ph).
  { intros Hn. change (id s) with s. cbv zeta. assert (Es : s = mkShared (sh_comm s) (sh_request_sem s) (sh_response_sem s)) by by destruct s.
    pose proof (take_response_none c (sh_request_sem s) (sh_response_sem s) Hc Hcon Hn) as Et. rewrite <- Es in Et. rewrite Et.
    destruct (0 <? sh_response_sem s) eqn:E; rewrite E.
    - rewrite take_response_none by done. eexists. split; [reflexivity|]. split; [|done]. zify_bool.
      pose proof (co_response_sem s Hs). apply comm_ok_sems; [done|apply Hs|lia].
    - rewrite Et. eexists. split; [reflexivity|]. done. }
  destruct (ph c) as [| | |resp] eqn:Ep; try (apply Hnone; congruence).
  destruct (take_response_some c resp Hc Hcon Ep) as (s' & -> & H). by exists s'.
Qed.
End Rpc.


(** A client that sends its next request before it has read a response loses the response:
    the request goes to the entry that holds it and clears its flag, so the client that then
    looks for responses finds none. *)
Theorem shm_response_overwritten (s : ShmShared) (ph : Z -> phase) (c : Z) (resp : ShmResponse) (req : ShmRequest)
  (Hok : rpc_ok s ph) (Hc : valid_cid c) (Hcon : connected s c = true) (Hp : ph c = Replied resp) :
  exists s1 s2, shm_apply (ShmSend c req) s = Some (Sent c req, s1) /\ shm_apply (ShmTake c) s1 = Some (Nothing, s2).
Proof.
  pose proof Hok as [Hs Hph]. destruct (Hph c Hc Hcon) as (r & Er & Hr & Hx). rewrite Hp in Hx. destruct Hx as (Hq & _ & Hn).
  pose proof (push_request_spec req r Hr) as H. pose proof (queued_length r) as Hl.
  rewrite Hq in Hl. cbn in Hl. rewrite decide_False in H by (unfold RING_SIZE; lia).
  destruct H as (r' & E & Hr' & Hq' & _ & _ & Hh & He).
  assert (Hw : ring_phase r' (Waiting req)).
  { split; [done|]. split; [by rewrite Hq', Hq|]. intros i Hi. destruct (decide (i = rb_head r)) as [->|Hne]; [done|].
    rewrite He, Hn by done. by apply bool_decide_eq_false_2. }
  set (s1 := post_request (set_ring (Z.to_nat (c - 1)) r' s)).
  assert (Hok1 : rpc_ok s1 (<[c := Waiting req]> ph)).
  { apply (rpc_set s ph c r r'); try done; [apply sem_post_range|]; apply Hs. }
  pose proof (rpc_take s1 _ Hok1 c Hc Hcon) as Ht. rewrite fn_lookup_insert in Ht. destruct Ht as (s2 & Et & _).
  exists s1, s2. split; [|done]. unfold shm_apply, send_request. cbn [mg_is_server client_manager mg_client_id mg_comm orb].
  rewrite (proj2 (Z.eqb_neq _ _)) by (unfold valid_cid in Hc; lia). cbn [orb].
  change (sc_ring_buffers (sh_comm s) !! Z.to_nat (c - 1)) with (ring_of s c). rewrite Er. cbn [mbind option_bind].
  rewrite E. done.
Qed.

(** ** Start and stop *)
Definition comm_fresh : ShmCommunication := set_server_ready true (comm_initialize "/cxlsim" comm_zero).

Definition shared_fresh : ShmShared := mkShared comm_fresh 0 0.

Lemma fresh_ring (i : nat) (r : ShmRingBuffer) :
  sc_ring_buffers comm_fresh !! i = Some r -> ring_ok r /\ queued r = [].
Proof.
  cbn [comm_fresh set_server_ready comm_initialize sc_ring_buffers comm_zero]. rewrite list_lookup_fmap. intros H.
  destruct (replicate _ _ !! i) as [r0|] eqn:E; [|done]. injection H as <-. apply lookup_replicate in E as [-> _].
  edestruct ring_initialize_ok as (H1 & H2 & _); [|split; [exact H1|exact H2]].
  cbn [rb_entries]. rewrite length_replicate. apply Z2Nat.id. unfold RING_SIZE. lia.
Qed.

Lemma fresh_connected (c : Z) : connected shared_fresh c = false.
Proof.
  unfold connected, shared_fresh. cbn [sh_comm comm_fresh set_server_ready comm_initialize sc_clients comm_zero].
  rewrite list_lookup_fmap. destruct (replicate _ _ !! _); done.
Qed.

Lemma fresh_ok : comm_ok shared_fresh.
Proof.
  split; cbn [shared_fresh sh_comm sh_request_sem sh_response_sem].
  - cbn [comm_fresh set_server_ready comm_initialize sc_clients comm_zero]. rewrite length_fmap, length_replicate. done.
  - cbn [comm_fresh set_server_ready comm_initialize sc_ring_buffers comm_zero]. rewrite length_fmap, length_replicate. done.
  - apply Forall_lookup_2. intros i r H. by apply (fresh_ring i r).
  - intros c _ H. by rewrite fresh_connected in H.
  - done.
  - done.
Qed.

Lemma fresh_rpc (ph : Z -> phase) : rpc_ok shared_fresh ph.
Proof. split; [apply fresh_ok|]. intros c _ H. by rewrite fresh_connected in H. Qed.

(** A new client starts without requests or responses. *)
Lemma rpc_connect (pid : Z) (s : ShmShared) (ph : Z -> phase) :
  rpc_ok s ph ->
  exists got m s', connect pid (client_manager 0) s = Some (got, m, s') /\
    match got with
    | Some cid => valid_cid cid /\ m = client_manager cid /\ connected s' cid = true /\ rpc_ok s' (<[cid := Idle]> ph) /\
        forall c, 1 <= c < cid -> connected s c = true
    | None => forall c, valid_cid c -> connected s c = true
    end.
Proof.
  intros [Hs Hph]. destruct (connect_ok pid s Hs) as (got & m & s' & E & Hs' & H). exists got, m, s'. split; [done|].
  destruct got as [cid|]; [|apply H]. destruct H as (Hv & _ & Hm & Hcon & (r & Er & Er') & Hother & Hbefore). split_and!; try done.
  split; [done|]. intros c Hc Hcc. destruct (decide (c = cid)) as [->|Hne].
  - exists (ring_initialize r). rewrite fn_lookup_insert. split; [done|].
    destruct (comm_ring s cid Hs Hv) as (r0 & Er0 & Hr0). assert (r0 = r) as -> by congruence.
    destruct (ring_initialize_ok r (ro_length r Hr0)) as (H1 & H2 & H3). split; [done|]. split; [done|]. intros i _. apply H3.
  - rewrite fn_lookup_insert_ne by done. destruct (Hother c Hc Hne) as [Hr Hx]. rewrite Hr. apply Hph; [done|]. by rewrite <- Hx.
Qed.

Lemma fresh_connect (pid : Z) (ph : Z -> phase) :
  exists s', connect pid (client_manager 0) shared_fresh = Some (Some 1, client_manager 1, s') /\
    connected s' 1 = true /\ rpc_ok s' (<[1 := Idle]> ph).
Proof.
  destruct (rpc_connect pid shared_fresh ph (fresh_rpc ph)) as (got & m & s' & E & H). destruct got as [cid|].
  2:{ specialize (H 1 ltac:(unfold valid_cid, MAX_CLIENTS; lia)). by rewrite fresh_connected in H. }
  destruct H as (Hv & -> & Hc & Hok & Hbefore). assert (cid = 1) as ->; [|by exists s'].
  unfold valid_cid in Hv. destruct (decide (cid = 1)); [done|]. specialize (Hbefore 1 ltac:(lia)). by rewrite fresh_connected in Hbefore.
Qed.

Definition calls_ok : ShmCalls := mkCalls true true true true true.

(** Starting up: whatever was left under its names, a server whose system calls succeed comes
    up with a fresh object and both semaphores at zero; a client then attaches to it, and its
    first connection is client 1, with an empty ring. *)
Theorem shm_startup (o : ShmOs) (pid : Z) (ph : Z -> phase) :
  exists o1 s', initialize calls_ok id (manager_new true) o = Some (true, server_manager, o1) /\
    os_object o1 = Some comm_fresh /\
    os_sems o1 !! sc_request_sem_name comm_fresh = Some 0 /\ os_sems o1 !! sc_response_sem_name comm_fresh = Some 0 /\
    initialize calls_ok id (manager_new false) o1 = Some (true, client_manager 0, o1) /\
    connect pid (client_manager 0) shared_fresh = Some (Some 1, client_manager 1, s') /\ rpc_ok s' (<[1 := Idle]> ph).
Proof.
  destruct (fresh_connect pid ph) as (s' & E & _ & Hok).
  set (q := sc_request_sem_name comm_fresh). set (p := sc_response_sem_name comm_fresh). assert (Hqp : p <> q) by done.
  exists (mkOs (Some comm_fresh) (<[p := 0]> (<[q := 0]> (delete p (delete q (os_sems o)))))), s'.
  cbn [os_object os_sems]. split; [reflexivity|]. split; [reflexivity|]. split; [by rewrite lookup_insert_ne, lookup_insert_eq by done|].
  split; [by rewrite lookup_insert_eq|]. split; [|done].
  unfold initialize, open_shared_memory. cbn [mg_is_server manager_new os_object call_open call_map calls_ok negb].
  change (is_valid _) with true. cbn [negb wait_ready]. change (sc_server_ready _) with true. cbn [negb].
  unfold setup_semaphores. cbn [mg_comm set_mapping cleanup_semaphores mg_request_sem mg_response_sem manager_new negb andb mbind option_bind os_object os_sems mg_is_server].
  fold q p. rewrite bool_decide_eq_false_2 by (rewrite lookup_insert_ne, lookup_insert_eq by done; done).
  rewrite bool_decide_eq_false_2 by (rewrite lookup_insert_eq; done). done.
Qed.

(** Shutting down: a server's clean-up removes the shared object but never its semaphores,
    because it drops the mapping that holds their names first; and the clean-up that follows
    a failed mapping, in the destructor, dereferences [MAP_FAILED]. *)
Theorem shm_cleanup_defects (o : ShmOs) (c : ShmCommunication) (k : ShmCalls) :
  (os_object o = Some c ->
     cleanup server_manager o = Some (mkManager true Unmapped false 0 false false, mkOs None (os_sems o))) /\
  (call_open k = true -> call_truncate k = true -> call_map k = false ->
     exists m1 o1, initialize k id (manager_new true) o = Some (false, m1, o1) /\ cleanup m1 o1 = None).
Proof.
  split.
  - intros Ho. unfold cleanup. cbn [mg_comm server_manager]. rewrite Ho. done.
  - intros H1 H2 H3. unfold initialize, create_shared_memory. cbn [mg_is_server manager_new]. rewrite H1, H2, H3. cbn.
    by eexists _, _.
Qed.

(** ** Instances *)
Definition demo_shared : ShmShared := from_option snd shared_fresh (connect 7 (client_manager 0) shared_fresh).

Lemma demo_rpc : connected demo_shared 1 = true /\ rpc_ok demo_shared (fun _ => Idle).
Proof.
  destruct (fresh_connect 7 (fun _ => Idle)) as (s' & E & Hc & Hok). unfold demo_shared. rewrite E. cbn [from_option snd].
  split; [done|]. destruct Hok as [H1 H2]. split; [done|]. intros c Hv Hcon. destruct (H2 c Hv Hcon) as (r & Er & Hr).
  exists r. split; [done|]. destruct (decide (c = 1)) as [->|Hne]; [by rewrite fn_lookup_insert in Hr|by rewrite fn_lookup_insert_ne in Hr].
Qed.

Definition demo_waiting : ShmShared := from_option snd demo_shared (shm_apply (ShmSend 1 request_zero) demo_shared).

Lemma valid_one : valid_cid 1.
Proof. unfold valid_cid, MAX_CLIENTS. lia. Qed.

Lemma demo_waiting_rpc : connected demo_waiting 1 = true /\ rpc_ok demo_waiting (<[1 := Waiting request_zero]> (fun _ => Idle)).
Proof.
  destruct demo_rpc as [Hc Hok]. destruct (rpc_send demo_shared _ Hok 1 request_zero valid_one Hc eq_refl) as (s' & E & H & Hcl).
  unfold demo_waiting. rewrite E. cbn [from_option snd]. split; [|done]. unfold connected in *. by rewrite Hcl.
Qed.

Definition demo_replied : ShmShared :=
  from_option snd demo_waiting (shm_run [ShmPoll; ShmRespond 1 response_zero] demo_waiting).

Lemma demo_replied_rpc :
  connected demo_replied 1 = true /\
  rpc_ok demo_replied (<[1 := Replied response_zero]> (<[1 := Serving request_zero]> (<[1 := Waiting request_zero]> (fun _ => Idle)))).
Proof.
  destruct demo_waiting_rpc as [Hc Hok].
  destruct (rpc_poll _ _ Hok) as [(c & req & s1 & E & Hv & Hcc & Hw & Hok1 & Hcl & _)|(s1 & _ & _ & _ & Hn)].
  2:{ by destruct (Hn 1 request_zero valid_one Hc). }
  assert (c = 1) as ->.
  { destruct (decide (c = 1)); [done|]. by rewrite fn_lookup_insert_ne in Hw. }
  rewrite fn_lookup_insert in Hw. injection Hw as <-.
  assert (Hc1 : connected s1 1 = true) by (unfold connected in *; by rewrite Hcl).
  destruct (rpc_respond s1 _ Hok1 1 request_zero response_zero valid_one Hc1) as (s2 & E2 & Hok2 & Hcl2); [apply fn_lookup_insert|].
  unfold demo_replied. cbn [shm_run shm_apply]. rewrite E. cbn [mbind option_bind]. rewrite E2. cbn [mbind option_bind from_option snd].
  split; [|done]. unfold connected in *. by rewrite Hcl2.
Qed.

Lemma shm_comm_well_typed_witness :
  exists es s', shm_run [ShmConnect 3; ShmSend 1 request_zero; ShmPoll; ShmRespond 1 response_zero; ShmTake 1] shared_fresh = Some (es, s') /\
    comm_ok s' /\ length es = 5%nat.
Proof.
  apply (shm_comm_well_typed [ShmConnect 3; ShmSend 1 request_zero; ShmPoll; ShmRespond 1 response_zero; ShmTake 1]).
  - apply fresh_ok.
  - repeat constructor; cbn; unfold MAX_CLIENTS; lia.
Defined.

Lemma shm_requests_fifo_witness :
  exists es s', shm_run [ShmSend 1 request_zero; ShmPoll] demo_shared = Some (es, s') /\
    concat (received_from 1 <$> es) ++ requests_of s' 1 = requests_of demo_shared 1 ++ concat (sent_by 1 <$> es).
Proof.
  destruct (shm_run_total [ShmSend 1 request_zero; ShmPoll] demo_shared) as (es & s' & E & _).
  - apply demo_rpc.
  - repeat constructor; cbn; unfold MAX_CLIENTS; lia.
  - exists es, s'. split; [exact E|]. apply (shm_requests_fifo [ShmSend 1 request_zero; ShmPoll] demo_shared s' es 1).
    + apply demo_rpc.
    + repeat constructor; cbn; unfold MAX_CLIENTS; lia.
    + repeat constructor.
    + exact E.
    + unfold valid_cid, MAX_CLIENTS. lia.
Defined.


Lemma shm_response_overwritten_witness :
  exists s1 s2, shm_apply (ShmSend 1 request_zero) demo_replied = Some (Sent 1 request_zero, s1) /\
    shm_apply (ShmTake 1) s1 = Some (Nothing, s2).
Proof.
  eapply (shm_response_overwritten demo_replied _ 1 response_zero request_zero).
  - apply demo_replied_rpc.
  - apply valid_one.
  - apply demo_replied_rpc.
  - reflexivity.
Defined.

(** ** Several workers

    [run_shm_mode] starts four workers that sweep the same rings.  Here each access of the loop
    body to the shared ring is one step. *)
Module Workers.

Inductive worker :=
| Start
| TailLoaded (tail : Z)
| HeadLoaded (tail : Z)                 (* and the ring is not empty *)
| ReadySeen (tail : Z)
| Copied (tail : Z) (req : ShmRequest)
| Cleared (tail : Z) (req : ShmRequest)
| TailStored (req : ShmRequest)
| Done (req : ShmRequest)
| Skipped.

Definition worker_step (w : worker) (r : ShmRingBuffer) : worker * ShmRingBuffer :=
  match w with
  | Start => (TailLoaded (rb_tail r), r)
  | TailLoaded t => (if t =? rb_head r then Skipped else HeadLoaded t, r)
  | HeadLoaded t => (if en_request_ready (entry_at r (t mod RING_SIZE)) then ReadySeen t else Skipped, r)
  | ReadySeen t => (Copied t (en_request (entry_at r (t mod RING_SIZE))), r)
  | Copied t req =>
      let e := entry_at r (t mod RING_SIZE) in
      (Cleared t req, set_entry (t mod RING_SIZE) (mkEntry false (en_response_ready e) (en_request e) (en_response e)) r)
  | Cleared t req =>
      (TailStored req, mkRing (rb_head r) (wrap32 (t + 1) mod RING_SIZE) (rb_pending_count r) (rb_entries r)
                         (rb_total_requests r) (rb_total_responses r))
  | TailStored req =>
      (Done req, mkRing (rb_head r) (rb_tail r) (wrap32 (rb_pending_count r - 1)) (rb_entries r)
                   (rb_total_requests r) (rb_total_responses r))
  | Done _ | Skipped => (w, r)
  end.

(** [true] schedules the first worker. *)
Fixpoint interleave (sched : list bool) (a b : worker) (r : ShmRingBuffer) : worker * worker * ShmRingBuffer :=
  match sched with
  | [] => (a, b, r)
  | true :: rest => let '(a', r') := worker_step a r in interleave rest a' b r'
  | false :: rest => let '(b', r') := worker_step b r in interleave rest a b' r'
  end.

Lemma tail_ready (r : ShmRingBuffer) :
  ring_ok r -> rb_tail r <> rb_head r -> en_request_ready (entry_at r (rb_tail r)) = true.
Proof. intros [Hl Hh Ht Hpd Hf] E. rewrite Hf by done. apply bool_decide_eq_true_2. ring_mod. Qed.

(** One worker alone does what the sweep does to the ring. *)
Lemma worker_alone (r : ShmRingBuffer) (b : worker) :
  ring_ok r ->
  match poll_ring r with
  | Some (req, r') => interleave (replicate 7 true) Start b r = (Done req, b, r')
  | None => interleave (replicate 7 true) Start b r = (Skipped, b, r)
  end.
Proof.
  intros Hr. pose proof (poll_ring_spec r Hr) as Hp. destruct Hr as [Hl Hh Ht Hpd Hf] eqn:EHr.
  destruct (decide (rb_tail r = rb_head r)) as [E|E].
  - rewrite (proj2 (queued_nil r Hr) E) in Hp. rewrite Hp. cbn. by rewrite (proj2 (Z.eqb_eq _ _) E).
  - rewrite queued_cons in Hp by done. destruct Hp as (r' & Ep & _). rewrite Ep.
    pose proof (tail_ready r Hr E) as Hready.
    assert (Hm : rb_tail r mod RING_SIZE = rb_tail r) by by apply Z.mod_small.
    cbn. rewrite (proj2 (Z.eqb_neq _ _) E). cbn. rewrite Hm, Hready. cbn. rewrite Hm. f_equal.
    revert Ep. with_strategy transparent [poll_ring] unfold poll_ring. rewrite (proj2 (Z.eqb_neq _ _) E), Hm, entry_lookup by done. cbn [mbind option_bind].
    rewrite Hready. unfold set_entry. cbn [rb_head rb_entries rb_total_requests rb_total_responses]. congruence.
Qed.

(** Two workers hand out one request twice: on every ring with a request, both may load the
    same tail and see the flag before either clears it; each then returns the same request,
    and the pending counter drops by two for one request. *)
Theorem shm_two_workers_duplicate (r : ShmRingBuffer) (req : ShmRequest) (rest : list ShmRequest)
  (Hr : ring_ok r) (Hq : queued r = req :: rest) :
  exists sched r', interleave sched Start Start r = (Done req, Done req, r') /\
    rb_tail r' = (rb_tail r + 1) mod RING_SIZE /\ rb_pending_count r' = wrap32 (rb_pending_count r - 2).
Proof.
  exists ([true; false; true; false; true; false; true; false] ++ replicate 3 true ++ replicate 3 false).
  assert (E : rb_tail r <> rb_head r).
  { intros E. apply (queued_nil r Hr) in E. congruence. }
  rewrite queued_cons in Hq by done. injection Hq as Hreq _. pose proof (tail_ready r Hr E) as Hready.
  destruct Hr as [Hl Hh Ht Hpd Hf].
  assert (Hm : rb_tail r mod RING_SIZE = rb_tail r) by by apply Z.mod_small.
  cbn. rewrite (proj2 (Z.eqb_neq _ _) E). cbn. rewrite Hm, Hready. cbn. rewrite Hm, Hreq. eexists. split; [reflexivity|].
  split; cbn [rb_tail rb_pending_count].
  - by apply next_index.
  - unfold wrap32. rewrite Zminus_mod_idemp_l. f_equal. lia.
Qed.

Lemma shm_two_workers_duplicate_witness :
  exists r sched r', push_request request_zero (ring_initialize (mkRing 0 0 0 (replicate (Z.to_nat RING_SIZE) (mkEntry false false request_zero response_zero)) 0 0)) = Some (Some r) /\
    interleave sched Start Start r = (Done request_zero, Done request_zero, r').
Proof.
  set (r0 := mkRing 0 0 0 (replicate (Z.to_nat RING_SIZE) (mkEntry false false request_zero response_zero)) 0 0).
  assert (Hl : Z.of_nat (length (rb_entries r0)) = RING_SIZE) by (cbn [rb_entries r0]; rewrite length_replicate; reflexivity).
  destruct (ring_initialize_ok r0 Hl) as (H1 & H2 & H3).
  destruct (push_idle request_zero (ring_initialize r0)) as (r & E & Hr & Hq & _); [split; [exact H1|split; [exact H2|intros i _; apply H3]]|].
  destruct (shm_two_workers_duplicate r request_zero [] Hr Hq) as (sched & r' & E' & _).
  exists r, sched, r'. split; [exact E|exact E'].
Defined.
End Workers.
