(* ===== verification/ShmFrontEnd.v ===== *)
(** * The shared-memory front end of the memory server ([run_shm_mode] and
      [handle_shm_requests] in [src/main_server.cc])

    A worker takes a request from the rings of [ShmComm], converts it, has [handle_request] of
    [MainServer] answer it and sends the response.  The loop body is given for any handler,
    so that what the rings guarantee is proved apart from what the server computes; each
    round has its own handler because the clock advances.  Sweeps of one worker are not
    interleaved with those of another here (see [Workers] in [ShmComm] for what happens
    then).  [None] is undefined behaviour. *)
From stdpp Require Import functions.
From Stdlib Require Import SpecFloat.
From S2P Require Import Prelude Double SharedMemory MainServer ShmComm.

(** ** The loop *)
Section Worker.
Context {St : Type}.

Definition handler : Type := Z -> ShmRequest -> St -> option (ShmResponse * St).

(** One iteration: wait, handle, respond. *)
Definition worker_round (others : ShmShared -> ShmShared) (handle : handler) (x : St * ShmShared) : option (St * ShmShared) :=
  let '(st, s) := x in
  '(got, s1) ← wait_for_request others 100 server_manager s;
  match got with
  | Got (cid, req) =>
      '(resp, st') ← handle cid req st;
      '(_, s2) ← send_response cid resp server_manager s1;
      Some (st', s2)
  | _ => Some (st, s1)
  end.

Fixpoint worker_rounds (handles : list handler) (x : St * ShmShared) : option (St * ShmShared) :=
  match handles with
  | [] => Some x
  | h :: rest => x1 ← worker_round id h x; worker_rounds rest x1
  end.
End Worker.

(** ** The handler *)

(** The data field of the answer to [OP_GET_SHM_INFO]. *)
Definition shm_info_data (m : SharedMemoryManager) : list Z :=
  le_split 8 (shm_info_base m) ++ le_split 8 (shm_info_size m) ++ le_split 8 (shm_info_cachelines m) ++ replicate 40 0.

Definition to_server_request (req : ShmRequest) : ServerRequest :=
  mkServerRequest (rq_op_type req) (rq_addr req) (rq_size req) (rq_timestamp req) (rq_value req) (rq_expected req) (rq_data req).

Definition to_shm_response (resp : ServerResponse) : ShmResponse :=
  mkShmResponse (sp_status resp) (sp_latency_ns resp) (sp_old_value resp) (sp_data resp).

Definition handle_shm_request {D} `{Double D} (calculate_latency : Z -> Z -> D) (msync_ok : bool) (now now_ms : Z)
    (client_id : Z) (shm_req : ShmRequest) (s : MainServer) : option (ShmResponse * MainServer) :=
  let req := to_server_request shm_req in
  if sq_op_type req =? OP_GET_SHM_INFO then Some (mkShmResponse 0 0 0 (shm_info_data (ms_shm s)), s)
  else
    '(resp, s') ← handle_request calculate_latency msync_ok now now_ms client_id req s;
    Some (to_shm_response resp, s').

(** ** Rounds over the rings *)
Section Rounds.
Context {St : Type} (Inv : St -> Prop) (accepted : Z -> ShmRequest -> Prop).

(** A handler that answers every accepted request and keeps the server's invariant. *)
Definition answers (h : handler (St := St)) : Prop :=
  forall c req st, accepted c req -> Inv st -> exists resp st', h c req st = Some (resp, st') /\ Inv st'.

(** Requests that wait for the server. *)
Definition is_waiting (s : ShmShared) (ph : Z -> phase) (c : Z) : bool :=
  connected s c && match ph c with Waiting _ => true | _ => false end.

Definition waiting (s : ShmShared) (ph : Z -> phase) : list Z := filter (fun c => is_waiting s ph c = true) all_clients.

Definition all_accepted (s : ShmShared) (ph : Z -> phase) : Prop :=
  forall c req, valid_cid c -> connected s c = true -> ph c = Waiting req -> accepted c req.

Lemma connected_ext (s s' : ShmShared) (c : Z) :
  sc_clients (sh_comm s') = sc_clients (sh_comm s) -> connected s' c = connected s c.
Proof. unfold connected. by intros ->. Qed.

(** A round answers the first client that waits; without one it changes nothing. *)
Lemma round_spec (h : handler) (st : St) (s : ShmShared) (ph : Z -> phase) :
  rpc_ok s ph ->
  (forall c req, valid_cid c -> connected s c = true -> ph c = Waiting req ->
     (forall d q, 1 <= d < c -> connected s d = true -> ph d <> Waiting q) -> is_Some (h c req st)) ->
  (exists c req resp st' s', worker_round id h (st, s) = Some (st', s') /\ h c req st = Some (resp, st') /\
     valid_cid c /\ connected s c = true /\ ph c = Waiting req /\ rpc_ok s' (<[c := Replied resp]> ph) /\
     sc_clients (sh_comm s') = sc_clients (sh_comm s) /\ forall d q, 1 <= d < c -> connected s d = true -> ph d <> Waiting q) \/
  (exists s', worker_round id h (st, s) = Some (st, s') /\ rpc_ok s' ph /\ sc_clients (sh_comm s') = sc_clients (sh_comm s) /\
     forall c req, valid_cid c -> connected s c = true -> ph c <> Waiting req).
Proof.
  intros Hok Hh. unfold worker_round.
  destruct (rpc_poll s ph Hok) as [(c & req & s1 & E & Hc & Hcon & Hw & Hok1 & Hcl & Hmin)|(s1 & E & Hok1 & Hcl & Hnone)]; rewrite E; cbn [mbind option_bind].
  - left. destruct (Hh c req Hc Hcon Hw Hmin) as [[resp st'] Eh]. rewrite Eh. cbn [mbind option_bind].
    destruct (rpc_respond s1 (<[c := Serving req]> ph) Hok1 c req resp Hc) as (s2 & Er & Hok2 & Hcl2).
    { by rewrite (connected_ext s). }
    { apply fn_lookup_insert. }
    rewrite Er. exists c, req, resp, st', s2. split_and!; try done; [|congruence].
    destruct Hok2 as [H1 H2]. split; [done|]. intros d Hd Hcd. destruct (H2 d Hd Hcd) as (r & Hr & Hp). exists r. split; [done|].
    destruct (decide (c = d)) as [->|Hne]; [by rewrite fn_lookup_insert in *|by rewrite !fn_lookup_insert_ne in *].
  - right. by exists s1.
Qed.

Lemma elem_of_waiting (s : ShmShared) (ph : Z -> phase) (c : Z) :
  c ∈ waiting s ph <-> valid_cid c /\ connected s c = true /\ exists req, ph c = Waiting req.
Proof.
  unfold waiting, is_waiting. rewrite list_elem_of_filter, andb_true_iff. unfold all_clients. rewrite elem_of_seqZ.
  unfold valid_cid. replace (1 + MAX_CLIENTS) with (MAX_CLIENTS + 1) by lia. split.
  - intros [[H1 H2] H3]. split_and!; [lia|lia|done|]. destruct (ph c); try done. eauto.
  - intros (H1 & H2 & req & ->). split_and!; (done || lia).
Qed.

(** Serving a client takes it off the list, and nobody else. *)
Lemma filter_agree (f g : Z -> bool) (l : list Z) :
  (forall x, x ∈ l -> f x = g x) -> filter (fun x => f x = true) l = filter (fun x => g x = true) l.
Proof.
  induction l as [|x l IH]; intros H; [done|]. rewrite !filter_cons, (H x), IH by set_solver. done.
Qed.

Lemma filter_drop_one (f g : Z -> bool) (l : list Z) (c : Z) :
  NoDup l -> c ∈ l -> f c = true -> g c = false -> (forall x, x <> c -> g x = f x) ->
  S (length (filter (fun x => g x = true) l)) = length (filter (fun x => f x = true) l).
Proof.
  intros Hnd Hc Hf Hg Ho. induction Hnd as [|x l Hx Hnd IH]; [set_solver|]. rewrite !filter_cons.
  destruct (decide (x = c)) as [->|Hne].
  - rewrite decide_False, decide_True by congruence. cbn. do 2 f_equal. apply filter_agree. intros y Hy. apply Ho. set_solver.
  - rewrite Ho by done. assert (c ∈ l) by set_solver. case_decide; cbn; rewrite IH; done.
Qed.

Lemma waiting_served (s s' : ShmShared) (ph : Z -> phase) (c : Z) (resp : ShmResponse) :
  sc_clients (sh_comm s') = sc_clients (sh_comm s) -> c ∈ waiting s ph ->
  S (length (waiting s' (<[c := Replied resp]> ph))) = length (waiting s ph).
Proof.
  intros Hcl [Hc Hin]%list_elem_of_filter. apply (filter_drop_one _ _ _ c); [apply NoDup_seqZ|done|done| |].
  - unfold is_waiting. by rewrite fn_lookup_insert, andb_false_r.
  - intros e He. unfold is_waiting. by rewrite (connected_ext s), fn_lookup_insert_ne.
Qed.

(** What a client that waits ends up with. *)
Definition answered (handles : list (handler (St := St))) (ph ph' : Z -> phase) (c : Z) : Prop :=
  match ph c with
  | Waiting req => exists h st st' resp, h ∈ handles /\ h c req st = Some (resp, st') /\ ph' c = Replied resp
  | x => ph' c = x
  end.

Lemma rounds_answer (handles : list handler) (st : St) (s : ShmShared) (ph : Z -> phase) :
  rpc_ok s ph -> Forall answers handles -> Inv st -> all_accepted s ph -> (length (waiting s ph) <= length handles)%nat ->
  exists st' s' ph', worker_rounds handles (st, s) = Some (st', s') /\ Inv st' /\ rpc_ok s' ph' /\
    sc_clients (sh_comm s') = sc_clients (sh_comm s) /\
    forall c, valid_cid c -> connected s c = true -> answered handles ph ph' c.
Proof.
  intros Hok Hh. revert st s ph Hok. induction Hh as [|h handles Hh1 Hh IH]; intros st s ph Hok Hst Hacc Hlen.
  { exists st, s, ph. split_and!; try done. intros c Hc Hcon. unfold answered. destruct (ph c) eqn:E; try done.
    assert (Hin : c ∈ waiting s ph) by (apply elem_of_waiting; eauto).
    destruct (waiting s ph); [set_solver|cbn in Hlen; lia]. }
  cbn [worker_rounds]. destruct (round_spec h st s ph Hok)
    as [(c & req & resp & st1 & s1 & -> & Eh & Hc & Hcon & Hw & Hok1 & Hcl & _)|(s1 & -> & Hok1 & Hcl & Hnone)]; cbn [mbind option_bind].
  { intros c req Hc Hcon Hw _. destruct (Hh1 c req st (Hacc c req Hc Hcon Hw) Hst) as (resp & st' & -> & _). eauto. }
  - assert (Hst1 : Inv st1).
    { destruct (Hh1 c req st (Hacc c req Hc Hcon Hw) Hst) as (resp' & st2 & E2 & H2). congruence. }
    assert (Hin : c ∈ waiting s ph) by (apply elem_of_waiting; eauto). pose proof (waiting_served s s1 ph c resp Hcl Hin) as Hn.
    destruct (IH st1 s1 (<[c := Replied resp]> ph)) as (st' & s' & ph' & -> & Hst' & Hok' & Hcl' & Ha); [done|done| |cbn in Hlen; lia|].
    { intros d q Hd Hcd. rewrite (connected_ext s) in Hcd by done. destruct (decide (d = c)) as [->|Hne].
      - by rewrite fn_lookup_insert.
      - rewrite fn_lookup_insert_ne by done. by apply Hacc. }
    exists st', s', ph'. split_and!; try done; [congruence|]. intros d Hd Hcd.
    specialize (Ha d Hd). rewrite (connected_ext s) in Ha by done. specialize (Ha Hcd). unfold answered in *.
    destruct (decide (d = c)) as [->|Hne].
    + rewrite fn_lookup_insert in Ha. rewrite Hw. exists h, st, st1, resp. split; [set_solver|done].
    + rewrite fn_lookup_insert_ne in Ha by done. destruct (ph d); try done. destruct Ha as (h' & x & x' & p & Hin' & Hrest).
      exists h', x, x', p. split; [set_solver|done].
  - destruct (IH st s1 ph) as (st' & s' & ph' & -> & Hst' & Hok' & Hcl' & Ha); [done|done| | |].
    { intros d q Hd Hcd. rewrite (connected_ext s) in Hcd by done. by apply Hacc. }
    { unfold waiting. rewrite (filter_agree _ (fun _ => false)); [|].
      - clear. induction all_clients; cbn; [lia|done].
      - intros d Hd. unfold is_waiting. rewrite (connected_ext s) by done. destruct (connected s d) eqn:Ec; [|done].
        apply elem_of_seqZ in Hd. destruct (ph d) eqn:Ed; try done. exfalso. apply (Hnone d req); [|done|done]. unfold valid_cid. lia. }
    exists st', s', ph'. split_and!; try done; [congruence|]. intros d Hd Hcd. specialize (Ha d Hd).
    rewrite (connected_ext s) in Ha by done. specialize (Ha Hcd). unfold answered in *. destruct (ph d); try done.
    destruct Ha as (h' & x & x' & p & Hin' & Hrest). exists h', x, x', p. split; [set_solver|done].
Qed.
End Rounds.

(** ** The server behind the rings *)
Section Server.
Context {D : Type} `{Double D} (calculate_latency : Z -> Z -> D) (msync_ok : bool) (hd : SharedMemoryHeader).

(** Requests that the server answers whatever its state is. *)
Definition plain_request (_ : Z) (req : ShmRequest) : Prop :=
  u64 (rq_addr req) /\ 0 <= rq_size req /\ rq_op_type req ∈ [OP_READ; OP_WRITE; OP_GET_SHM_INFO; OP_FENCE].

Lemma handle_shm_answers (now now_ms : Z) :
  answers (fun s => shm_ok (ms_shm s) hd) plain_request (handle_shm_request calculate_latency msync_ok now now_ms).
Proof.
  intros c req s (Ha & Hz & Hop) Hs. unfold handle_shm_request. cbn [sq_op_type to_server_request].
  destruct (rq_op_type req =? OP_GET_SHM_INFO) eqn:E; [by eexists _, _|]. zify_bool.
  destruct (handle_request_safe calculate_latency msync_ok hd now now_ms c (to_server_request req) s) as (resp & s' & -> & Hs'); try done.
  { cbn. set_solver. }
  by eexists _, _.
Qed.

End Server.

(** ** One call *)

(** A client sends a request, a worker runs, the client looks for its response. *)
Definition shm_call {St} (h : handler) (c : Z) (req : ShmRequest) (st : St) (s : ShmShared) :
    option (shm_event * St * ShmShared) :=
  '(_, s1) ← shm_apply (ShmSend c req) s;
  '(st', s2) ← worker_round id h (st, s1);
  '(e, s3) ← shm_apply (ShmTake c) s2;
  Some (e, st', s3).

Lemma rpc_ok_ext (s : ShmShared) (ph ph' : Z -> phase) : (forall c, ph' c = ph c) -> rpc_ok s ph -> rpc_ok s ph'.
Proof. intros E [H1 H2]. split; [done|]. intros c Hc Hcon. rewrite E. by apply H2. Qed.

Lemma call_spec {St} (h : handler) (c : Z) (req : ShmRequest) (resp : ShmResponse) (st st' : St) (s : ShmShared) (ph : Z -> phase) :
  rpc_ok s ph -> valid_cid c -> connected s c = true -> ph c = Idle -> h c req st = Some (resp, st') ->
  (forall d q, valid_cid d -> connected s d = true -> ph d <> Waiting q) ->
  exists s', shm_call h c req st s = Some (Taken c resp, st', s') /\ rpc_ok s' ph /\ sc_clients (sh_comm s') = sc_clients (sh_comm s).
Proof.
  intros Hok Hc Hcon Hi Eh Hno. unfold shm_call.
  destruct (rpc_send s ph Hok c req Hc Hcon Hi) as (s1 & -> & Hok1 & Hcl1). cbn [mbind option_bind].
  assert (Hcon1 : connected s1 c = true) by by rewrite (connected_ext s).
  assert (Hother : forall d q, valid_cid d -> connected s1 d = true -> (<[c := Waiting req]> ph) d = Waiting q -> d = c /\ q = req).
  { intros d q Hd Hcd Hw. rewrite (connected_ext s) in Hcd by done. destruct (decide (d = c)) as [->|Hne].
    - rewrite fn_lookup_insert in Hw. by injection Hw.
    - rewrite fn_lookup_insert_ne in Hw by done. by destruct (Hno d q Hd Hcd). }
  destruct (round_spec h st s1 (<[c := Waiting req]> ph) Hok1)
    as [(d & q & resp' & st1 & s2 & -> & Eh2 & Hd & Hcd & Hw & Hok2 & Hcl2 & _)|(s2 & _ & _ & _ & Hnone)].
  - intros d q Hd Hcd Hw _. destruct (Hother d q Hd Hcd Hw) as [-> ->]. eauto.
  - destruct (Hother d q Hd Hcd Hw) as [-> ->]. assert (resp' = resp /\ st1 = st') as [-> ->] by (split; congruence).
    cbn [mbind option_bind]. pose proof (rpc_take s2 _ Hok2 c Hc) as Ht. rewrite (connected_ext s1), fn_lookup_insert in Ht by done.
    destruct (Ht Hcon1) as (s3 & -> & Hok3 & Hcl3). exists s3. split; [done|]. split; [|congruence].
    eapply rpc_ok_ext; [|exact Hok3]. intros x. destruct (decide (x = c)) as [->|Hne]; [by rewrite fn_lookup_insert|].
    by rewrite !fn_lookup_insert_ne.
  - exfalso. apply (Hnone c req); [done|done|]. apply fn_lookup_insert.
Qed.

(** A call over shared memory is a call of the server: with no other request outstanding, a
    client's request, one round of a worker and the client's look at its ring give exactly
    the response and the new server state of [handle_request], whatever the other clients'
    rings hold, and leave the rings as they were for the next call. *)
Theorem shm_call_equiv {D} `{Double D} (calculate_latency : Z -> Z -> D) (msync_ok : bool) (now now_ms c : Z)
  (req : ShmRequest) (resp : ServerResponse) (st st' : MainServer) (s : ShmShared) (ph : Z -> phase)
  (Hok : rpc_ok s ph) (Hc : valid_cid c) (Hcon : connected s c = true) (Hi : ph c = Idle)
  (Hno : forall d q, valid_cid d -> connected s d = true -> ph d <> Waiting q)
  (Hop : rq_op_type req <> OP_GET_SHM_INFO)
  (Hr : handle_request calculate_latency msync_ok now now_ms c (to_server_request req) st = Some (resp, st')) :
  exists s', shm_call (handle_shm_request calculate_latency msync_ok now now_ms) c req st s =
      Some (Taken c (to_shm_response resp), st', s') /\ rpc_ok s' ph.
Proof.
  destruct (call_spec (handle_shm_request calculate_latency msync_ok now now_ms) c req (to_shm_response resp) st st' s ph)
    as (s' & E & Hok' & _); try done; [|by exists s'].
  unfold handle_shm_request. cbn [sq_op_type to_server_request]. rewrite (proj2 (Z.eqb_neq _ _)) by done. by rewrite Hr.
Qed.

(** ** Starvation *)

(** A worker's round in which client 1 is answered, reads its response and sends again. *)
Definition busy_cycle {St} (h : handler) (req : ShmRequest) (x : St * ShmShared) : option (St * ShmShared) :=
  '(st, s1) ← worker_round id h x;
  '(_, s2) ← shm_apply (ShmTake 1) s1;
  '(_, s3) ← shm_apply (ShmSend 1 req) s2;
  Some (st, s3).

Fixpoint busy_cycles {St} (n : nat) (h : handler) (req : ShmRequest) (x : St * ShmShared) : option (St * ShmShared) :=
  match n with
  | O => Some x
  | S n' => x1 ← busy_cycle h req x; busy_cycles n' h req x1
  end.

(** The sweep starves clients: it starts at client 1 each time, so while client 1 keeps sending,
    each request after the response to the last, the request of any other client stays in
    its ring for ever. *)
Theorem shm_sweep_starves {St} (h : handler) (n : nat) (q req : ShmRequest) (d : Z) (st : St) (s : ShmShared) (ph : Z -> phase)
  (Hh : forall st, is_Some (h 1 req st))
  (Hok : rpc_ok s ph) (Hd : 1 < d <= MAX_CLIENTS) (Hc1 : connected s 1 = true) (Hcd : connected s d = true)
  (H1 : ph 1 = Waiting req) (H2 : ph d = Waiting q) :
  exists st' s' ph', busy_cycles n h req (st, s) = Some (st', s') /\ rpc_ok s' ph' /\ ph' d = Waiting q.
Proof.
  revert st s ph Hok Hc1 Hcd H1 H2. induction n as [|n IH]; intros st s ph Hok Hc1 Hcd H1 H2; [by exists st, s, ph|].
  assert (Hv : valid_cid 1) by (unfold valid_cid, MAX_CLIENTS; lia).
  cbn [busy_cycles]. unfold busy_cycle.
  destruct (round_spec h st s ph Hok) as [(c & r & resp & st1 & s1 & -> & _ & Hc & Hcc & Hw & Hok1 & Hcl1 & Hmin)|(s1 & _ & _ & _ & Hnone)].
  { intros c r Hc Hcc Hw Hmin. destruct (decide (c = 1)) as [->|Hne]; [replace r with req by congruence; apply Hh|].
    unfold valid_cid in Hc. by destruct (Hmin 1 req ltac:(lia) Hc1). }
  2:{ by destruct (Hnone 1 req Hv Hc1). }
  assert (c = 1) as ->.
  { unfold valid_cid in Hc. destruct (decide (c = 1)); [done|]. by destruct (Hmin 1 req ltac:(lia) Hc1). }
  cbn [mbind option_bind]. pose proof (rpc_take s1 _ Hok1 1 Hv) as Ht. rewrite (connected_ext s), fn_lookup_insert in Ht by done.
  destruct (Ht Hc1) as (s2 & -> & Hok2 & Hcl2). cbn [mbind option_bind].
  destruct (rpc_send s2 _ Hok2 1 req Hv) as (s3 & -> & Hok3 & Hcl3).
  { by rewrite (connected_ext s) by congruence. }
  { apply fn_lookup_insert. }
  cbn [mbind option_bind]. apply (IH st1 s3 _ Hok3).
  - by rewrite (connected_ext s) by congruence.
  - by rewrite (connected_ext s) by congruence.
  - apply fn_lookup_insert.
  - by rewrite !fn_lookup_insert_ne by lia.
Qed.


Lemma shm_call_equiv_witness :
  exists resp st' s', handle_request demo_latency true 5 0 1 (to_server_request request_zero) (demo_main 0) = Some (resp, st') /\
    shm_call (handle_shm_request demo_latency true 5 0) 1 request_zero (demo_main 0) demo_shared =
      Some (Taken 1 (to_shm_response resp), st', s').
Proof.
  destruct (handle_request demo_latency true 5 0 1 (to_server_request request_zero) (demo_main 0)) as [[resp st']|] eqn:E;
    [|vm_compute in E; discriminate E].
  destruct (shm_call_equiv demo_latency true 5 0 1 request_zero resp (demo_main 0) st' demo_shared (fun _ => Idle)) as (s' & Es & _).
  - apply demo_rpc.
  - apply valid_one.
  - apply demo_rpc.
  - reflexivity.
  - discriminate.
  - discriminate.
  - exact E.
  - exists resp, st', s'. split; [reflexivity|exact Es].
Defined.

(** Two clients, both waiting. *)
Definition demo_two : ShmShared :=
  from_option snd demo_shared
    (shm_run [ShmConnect 8; ShmSend 1 request_zero; ShmSend 2 request_zero] demo_shared).

Lemma demo_two_rpc :
  connected demo_two 1 = true /\ connected demo_two 2 = true /\
  rpc_ok demo_two (<[2 := Waiting request_zero]> (<[1 := Waiting request_zero]> (<[2 := Idle]> (fun _ => Idle)))).
Proof.
  destruct demo_rpc as [Hc Hok]. destruct (rpc_connect 8 demo_shared _ Hok) as (got & m & s1 & E & H).
  assert (Hgot : got = Some 2).
  { assert (Hg : (fun x => x.1.1) <$> connect 8 (client_manager 0) demo_shared = Some (Some 2)) by (vm_compute; reflexivity).
    rewrite E in Hg. by injection Hg. }
  subst got. destruct H as (Hv & _ & Hc2 & Hok1 & _).
  assert (Hc1 : connected s1 1 = true).
  { assert (Hg : (fun x => connected x.2 1) <$> connect 8 (client_manager 0) demo_shared = Some true) by (vm_compute; reflexivity).
    rewrite E in Hg. by injection Hg. }
  destruct (rpc_send s1 _ Hok1 1 request_zero valid_one Hc1) as (s2 & E2 & Hok2 & Hcl2); [done|].
  destruct (rpc_send s2 _ Hok2 2 request_zero Hv) as (s3 & E3 & Hok3 & Hcl3); [by rewrite (connected_ext s1)|done|].
  assert (Ed : demo_two = s3).
  { assert (E1 : shm_apply (ShmConnect 8) demo_shared = Some (Connected 2, s1)) by (unfold shm_apply; by rewrite E).
    unfold demo_two. cbn [shm_run]. rewrite E1. cbn [mbind option_bind]. rewrite E2. cbn [mbind option_bind].
    rewrite E3. done. }
  rewrite Ed. split_and!; [by rewrite (connected_ext s1) by congruence|by rewrite (connected_ext s1) by congruence|done].
Qed.

Lemma shm_sweep_starves_witness :
  exists st' s' ph', busy_cycles 3 (fun _ _ st => Some (response_zero, st)) request_zero (tt, demo_two) = Some (st', s') /\
    rpc_ok s' ph' /\ ph' 2 = Waiting request_zero.
Proof.
  eapply (shm_sweep_starves (fun _ _ st => Some (response_zero, st)) 3 request_zero request_zero 2 tt demo_two).
  - intros st. eexists. reflexivity.
  - apply demo_two_rpc.
  - unfold MAX_CLIENTS. lia.
  - apply demo_two_rpc.
  - apply demo_two_rpc.
  - reflexivity.
  - reflexivity.
Defined.
