(* ===== verification/Pgas.v ===== *)
(** * The PGAS front end (the protocol of [include/cxl_backend.h], the server side in
      [src/main_server.cc] and the guest side in [library/qemu/hw/mem/cxl_type3.c])

    A server and its guests share a header with 64 request slots and a region of entries, one
    per cacheline: 64 bytes of data, then 64 bytes of metadata.  A guest fills its slot and
    sets the request type; workers of the server poll all slots, carry the requests out and
    set the response status.  The region is a flat list of bytes, so that an access which
    leaves the data of its entry lands in the metadata as it does in memory.  [None] is
    undefined behaviour.  The metadata buffer of a slot is used by neither side and left
    out; so are the statistics that the switches and expanders of the controller keep. *)
From Stdlib Require Import SpecFloat.
From S2P Require Import Prelude Double.

Definition CXL_SHM_MAGIC : Z := 0x43584C53484D454D.

Definition CXL_SHM_MAX_SLOTS : Z := 64.

Definition CXL_SHM_REQ_NONE : Z := 0.

Definition CXL_SHM_REQ_READ : Z := 1.

Definition CXL_SHM_REQ_WRITE : Z := 2.

Definition CXL_SHM_REQ_ATOMIC_FAA : Z := 3.

Definition CXL_SHM_REQ_ATOMIC_CAS : Z := 4.

Definition CXL_SHM_REQ_FENCE : Z := 5.

Definition CXL_SHM_RESP_NONE : Z := 0.

Definition CXL_SHM_RESP_OK : Z := 1.

Definition CXL_SHM_RESP_ERROR : Z := 2.

Record cxl_shm_slot := mkSlot {
  sl_req_type : Z;
  sl_resp_status : Z;
  sl_addr : Z;
  sl_size : Z;
  sl_value : Z;
  sl_expected : Z;
  sl_latency_ns : Z;
  sl_timestamp : Z;
  sl_data : list Z
}.

Record cxl_shm_header := mkPgasHeader {
  hp_magic : Z;
  hp_version : Z;
  hp_num_slots : Z;
  hp_server_ready : bool;
  hp_flags : Z;
  hp_memory_base : Z;
  hp_memory_size : Z;
  hp_num_cachelines : Z;
  hp_metadata_enabled : Z;
  hp_entry_size : Z;
  hp_slots : list cxl_shm_slot
}.

(** ** Entries

    Byte offsets inside an entry of 128 bytes ([PGASMemoryEntry]). *)
Definition ENTRY_SIZE : Z := 128.

Definition off_cache_state : Z := 64.

Definition off_owner_id : Z := 65.

Definition off_access_count : Z := 68.

Definition off_last_access_time : Z := 72.

Definition off_physical_addr : Z := 88.

Definition off_version : Z := 96.

Definition load_field (idx off : Z) (n : nat) (mem : list Z) : option Z :=
  bs ← mem_read (idx * ENTRY_SIZE + off) (Z.of_nat n) mem; Some (le_combine bs).

Definition store_field (idx off : Z) (n : nat) (v : Z) (mem : list Z) : option (list Z) :=
  mem_write (idx * ENTRY_SIZE + off) (le_split n v) mem.

Definition bump_field (idx off : Z) (mem : list Z) : option (list Z) :=
  v ← load_field idx off 4 mem; store_field idx off 4 (wrap32 (v + 1)) mem.

(** ** Server *)
Record PgasStats := mkPgasStats {
  pt_reads : Z;
  pt_writes : Z;
  pt_faa : Z;
  pt_cas : Z;
  pt_fences : Z
}.

Record PgasServer := mkPgas {
  pg_header : option cxl_shm_header;
  pg_memory : list Z;
  pg_running : bool;
  pg_stats : PgasStats
}.

(** The loop that initialises the entries. *)
Fixpoint init_entries (n : nat) (i : Z) : list Z :=
  match n with
  | O => []
  | S n' => replicate 64 0 ++ ([0; 255; 0; 0] ++ replicate 20 0 ++ le_split 8 (wrap64 (i * 64)) ++ replicate 32 0) ++ init_entries n' (i + 1)
  end.

(** [init_pgas_shm]; the arguments are the results of [shm_open], [ftruncate] and [mmap]. *)
Definition init_pgas_shm (open_ok truncate_ok map_ok : bool) (memory_size : Z) (s : PgasServer) : bool * PgasServer :=
  if negb open_ok || negb truncate_ok || negb map_ok then (false, s)
  else
    let num_cachelines := memory_size / 64 in
    (true, mkPgas (Some (mkPgasHeader CXL_SHM_MAGIC 1 CXL_SHM_MAX_SLOTS false 1 0 memory_size num_cachelines 1 ENTRY_SIZE
                           (replicate (Z.to_nat CXL_SHM_MAX_SLOTS) (mkSlot 0 0 0 0 0 0 0 0 (replicate 64 0)))))
             (init_entries (Z.to_nat num_cachelines) 0) (pg_running s) (pg_stats s)).

Definition set_ready (b : bool) (h : cxl_shm_header) : cxl_shm_header :=
  mkPgasHeader (hp_magic h) (hp_version h) (hp_num_slots h) b (hp_flags h) (hp_memory_base h) (hp_memory_size h)
    (hp_num_cachelines h) (hp_metadata_enabled h) (hp_entry_size h) (hp_slots h).

Definition set_slots (ss : list cxl_shm_slot) (h : cxl_shm_header) : cxl_shm_header :=
  mkPgasHeader (hp_magic h) (hp_version h) (hp_num_slots h) (hp_server_ready h) (hp_flags h) (hp_memory_base h)
    (hp_memory_size h) (hp_num_cachelines h) (hp_metadata_enabled h) (hp_entry_size h) ss.

(** The first statement of [run_pgas_shm_mode]. *)
Definition pgas_start (s : PgasServer) : option PgasServer :=
  h ← pg_header s; Some (mkPgas (Some (set_ready true h)) (pg_memory s) (pg_running s) (pg_stats s)).

Definition cleanup_pgas_shm (s : PgasServer) : PgasServer :=
  match pg_header s with
  | Some _ => mkPgas None [] (pg_running s) (pg_stats s)
  | None => s
  end.

Definition slot_clear (sl : cxl_shm_slot) : cxl_shm_slot :=
  mkSlot CXL_SHM_REQ_NONE (sl_resp_status sl) (sl_addr sl) (sl_size sl) (sl_value sl) (sl_expected sl) (sl_latency_ns sl)
    (sl_timestamp sl) (sl_data sl).

Definition slot_status (st : Z) (sl : cxl_shm_slot) : cxl_shm_slot :=
  mkSlot (sl_req_type sl) st (sl_addr sl) (sl_size sl) (sl_value sl) (sl_expected sl) (sl_latency_ns sl) (sl_timestamp sl)
    (sl_data sl).

Definition slot_answer (latency : Z) (data : list Z) (sl : cxl_shm_slot) : cxl_shm_slot :=
  mkSlot (sl_req_type sl) CXL_SHM_RESP_OK (sl_addr sl) (sl_size sl) (sl_value sl) (sl_expected sl) latency (sl_timestamp sl) data.

Definition count_stats (r w f c n : Z) (t : PgasStats) : PgasStats :=
  mkPgasStats (pt_reads t ⊞ r) (pt_writes t ⊞ w) (pt_faa t ⊞ f) (pt_cas t ⊞ c) (pt_fences t ⊞ n).

Section Poll.
Context {D : Type} `{Double D} (calculate_latency : Z -> Z -> D).

(** The [switch] over the request type; [true]: counted in [processed]. *)
Definition pgas_serve (req num_cachelines : Z) (sl : cxl_shm_slot) (mem : list Z) (t : PgasStats) :
    option (cxl_shm_slot * list Z * PgasStats * bool) :=
  let addr := sl_addr sl in
  let idx := addr / 64 in
  let offset := addr mod 64 in
  let latency := d_to_u64 (calculate_latency addr (sl_size sl)) in
  let copy_size := Z.min (sl_size sl) 64 in
  if req =? CXL_SHM_REQ_READ then
    m1 ← bump_field idx off_access_count mem;
    m2 ← store_field idx off_last_access_time 8 (sl_timestamp sl) m1;
    bs ← mem_read (idx * ENTRY_SIZE + offset) copy_size m2;
    data ← mem_write 0 bs (sl_data sl);
    Some (slot_answer latency data sl, m2, count_stats 1 0 0 0 0 t, true)
  else if req =? CXL_SHM_REQ_WRITE then
    bs ← mem_read 0 copy_size (sl_data sl);
    m1 ← mem_write (idx * ENTRY_SIZE + offset) bs mem;
    m2 ← bump_field idx off_access_count m1;
    m3 ← store_field idx off_last_access_time 8 (sl_timestamp sl) m2;
    m4 ← store_field idx off_cache_state 1 3 m3;
    m5 ← bump_field idx off_version m4;
    Some (slot_answer latency (sl_data sl) sl, m5, count_stats 0 1 0 0 0 t, true)
  else if req =? CXL_SHM_REQ_ATOMIC_FAA then
    if addr ⊞ 8 <=? num_cachelines ⊠ 64 then
      old ← load_field idx offset 8 mem;
      m1 ← store_field idx offset 8 (old ⊞ sl_value sl) mem;
      data ← mem_write 0 (le_split 8 old) (sl_data sl);
      m2 ← bump_field idx off_access_count m1;
      m3 ← store_field idx off_cache_state 1 3 m2;
      m4 ← bump_field idx off_version m3;
      Some (slot_answer latency data sl, m4, count_stats 0 0 1 0 0 t, true)
    else Some (slot_status CXL_SHM_RESP_ERROR sl, mem, t, true)
  else if req =? CXL_SHM_REQ_ATOMIC_CAS then
    if addr ⊞ 8 <=? num_cachelines ⊠ 64 then
      old ← load_field idx offset 8 mem;
      m1 ← (if old =? sl_expected sl then store_field idx offset 8 (sl_value sl) mem else Some mem);
      data ← mem_write 0 (le_split 8 old) (sl_data sl);
      m2 ← bump_field idx off_access_count m1;
      m3 ← bump_field idx off_version m2;
      Some (slot_answer latency data sl, m3, count_stats 0 0 0 1 0 t, true)
    else Some (slot_status CXL_SHM_RESP_ERROR sl, mem, t, true)
  else if req =? CXL_SHM_REQ_FENCE then
    Some (slot_answer 0 (sl_data sl) sl, mem, count_stats 0 0 0 0 1 t, true)
  else Some (sl, mem, t, false).

(** The body of the polling loop. *)
Definition pgas_poll_slot (memory_size : Z) (sl : cxl_shm_slot) (mem : list Z) (t : PgasStats) :
    option (cxl_shm_slot * list Z * PgasStats * bool) :=
  let req := sl_req_type sl in
  let num_cachelines := memory_size / 64 in
  if req =? CXL_SHM_REQ_NONE then Some (sl, mem, t, false)
  else if num_cachelines <=? sl_addr sl / 64 then Some (slot_clear (slot_status CXL_SHM_RESP_ERROR sl), mem, t, false)
  else
    '(sl', mem', t', counted) ← pgas_serve req num_cachelines sl mem t;
    Some (slot_clear sl', mem', t', counted).

Fixpoint pgas_poll_slots (memory_size : Z) (slots : list cxl_shm_slot) (mem : list Z) (t : PgasStats) (processed : Z) :
    option (list cxl_shm_slot * list Z * PgasStats * Z) :=
  match slots with
  | [] => Some ([], mem, t, processed)
  | sl :: rest =>
      '(sl', mem', t', counted) ← pgas_poll_slot memory_size sl mem t;
      '(rest', mem'', t'', n) ← pgas_poll_slots memory_size rest mem' t' (if (counted : bool) then processed + 1 else processed);
      Some (sl' :: rest', mem'', t'', n)
  end.

Definition poll_pgas_shm_requests (s : PgasServer) : option (Z * PgasServer) :=
  match pg_header s with
  | None => Some (0, s)
  | Some h =>
      if negb (pg_running s) then Some (0, s)
      else
        let n := Z.to_nat (hp_num_slots h) in
        if (length (hp_slots h) <? n)%nat then None
        else
          '(ss, mem, t, processed) ← pgas_poll_slots (hp_memory_size h) (take n (hp_slots h)) (pg_memory s) (pg_stats s) 0;
          Some (processed, mkPgas (Some (set_slots (ss ++ drop n (hp_slots h)) h)) mem (pg_running s) t)
  end.
End Poll.

(** ** Guest *)
Record CXLMemSimResponse := mkMemSimResponse {
  rs_status : Z;
  rs_latency_ns : Z;
  rs_old_value : Z;
  rs_data : list Z
}.

Definition response_empty : CXLMemSimResponse := mkMemSimResponse 0 0 0 (replicate 64 0).

Definition CXL_OP_READ : Z := 0.

Definition CXL_OP_WRITE : Z := 1.

Definition CXL_OP_ATOMIC_FAA : Z := 3.

Definition CXL_OP_ATOMIC_CAS : Z := 4.

Definition CXL_OP_FENCE : Z := 5.

Definition shm_req_type (op : Z) : Z :=
  if op =? CXL_OP_READ then CXL_SHM_REQ_READ
  else if op =? CXL_OP_WRITE then CXL_SHM_REQ_WRITE
  else if op =? CXL_OP_ATOMIC_FAA then CXL_SHM_REQ_ATOMIC_FAA
  else if op =? CXL_OP_ATOMIC_CAS then CXL_SHM_REQ_ATOMIC_CAS
  else if op =? CXL_OP_FENCE then CXL_SHM_REQ_FENCE
  else CXL_SHM_REQ_NONE.

(** [cxl_memsim_shm_request] up to the store of the request type, on a free slot.  [data] is the
    guest's buffer, null for the operations without one. *)
Definition shm_submit (op addr size : Z) (data : option (list Z)) (value expected timestamp : Z) (sl : cxl_shm_slot) :
    option cxl_shm_slot :=
  data' ← (if op =? CXL_OP_WRITE then
             match data with
             | Some d => bs ← mem_read 0 (Z.min size 64) d; mem_write 0 bs (sl_data sl)
             | None => Some (sl_data sl)
             end
           else Some (sl_data sl));
  Some (mkSlot (shm_req_type op) (sl_resp_status sl) addr size value expected (sl_latency_ns sl) timestamp data').

(** From the load of the response status on, once it is set. *)
Definition shm_collect (op size : Z) (resp : CXLMemSimResponse) (sl : cxl_shm_slot) : option (CXLMemSimResponse * cxl_shm_slot) :=
  data ← (if op =? CXL_OP_READ then bs ← mem_read 0 (Z.min size 64) (sl_data sl); mem_write 0 bs (rs_data resp)
          else Some (rs_data resp));
  let old := if (op =? CXL_OP_ATOMIC_FAA) || (op =? CXL_OP_ATOMIC_CAS) then sl_value sl else rs_old_value resp in
  Some (mkMemSimResponse (if sl_resp_status sl =? CXL_SHM_RESP_OK then 0 else 1) (sl_latency_ns sl) old data,
        slot_clear (slot_status CXL_SHM_RESP_NONE sl)).

(** ** A guest's request *)
Definition get_slot (i : nat) (s : PgasServer) : option cxl_shm_slot := h ← pg_header s; hp_slots h !! i.

Definition put_slot (i : nat) (sl : cxl_shm_slot) (s : PgasServer) : PgasServer :=
  match pg_header s with
  | Some h => mkPgas (Some (set_slots (<[i := sl]> (hp_slots h)) h)) (pg_memory s) (pg_running s) (pg_stats s)
  | None => s
  end.

(** A loop that sleeps while its condition holds; [others] acts during each sleep.  The result
    is what is left of the retries. *)
Fixpoint spin (cond : PgasServer -> bool) (others : PgasServer -> option PgasServer) (retries : nat) (s : PgasServer) :
    option (nat * PgasServer) :=
  if cond s then
    match retries with
    | O => Some (O, s)
    | S k => s' ← others s; spin cond others k s'
    end
  else Some (retries, s).

Definition slot_busy (i : nat) (s : PgasServer) : bool :=
  from_option (fun sl => negb (sl_req_type sl =? CXL_SHM_REQ_NONE)) false (get_slot i s).

Definition slot_silent (i : nat) (s : PgasServer) : bool :=
  from_option (fun sl => sl_resp_status sl =? CXL_SHM_RESP_NONE) false (get_slot i s).

(** [cxl_memsim_shm_request]; the inner [None] is its result -1.  [i] is the slot of the guest,
    its process id modulo the number of slots. *)
Definition cxl_memsim_shm_request (others : PgasServer -> option PgasServer) (i : nat) (op addr size : Z)
    (data : option (list Z)) (value expected timestamp : Z) (s : PgasServer) : option (option CXLMemSimResponse * PgasServer) :=
  match pg_header s with
  | None => Some (None, s)
  | Some _ =>
      '(left1, s1) ← spin (slot_busy i) others (Z.to_nat 1000) s;
      if (left1 =? 0)%nat then Some (None, s1)
      else
        sl ← get_slot i s1;
        sl1 ← shm_submit op addr size data value expected timestamp sl;
        '(left2, s2) ← spin (slot_silent i) others (Z.to_nat 10000) (put_slot i sl1 s1);
        if (left2 =? 0)%nat then Some (None, s2)
        else
          sl2 ← get_slot i s2;
          '(resp, sl3) ← shm_collect op size response_empty sl2;
          Some (Some resp, put_slot i sl3 s2)
  end.

(** [cxl_memsim_atomic_faa] and [cxl_memsim_atomic_cas]: the return code and the old value stored. *)
Definition cxl_memsim_atomic_faa (others : PgasServer -> option PgasServer) (i : nat) (addr add_value timestamp : Z) (s : PgasServer) :
    option (Z * option Z * PgasServer) :=
  '(resp, s') ← cxl_memsim_shm_request others i CXL_OP_ATOMIC_FAA addr 8 None add_value 0 timestamp s;
  Some (match resp with Some r => (0, Some (rs_old_value r), s') | None => (-1, None, s') end).

Definition cxl_memsim_atomic_cas (others : PgasServer -> option PgasServer) (i : nat) (addr expected desired timestamp : Z) (s : PgasServer) :
    option (Z * option Z * PgasServer) :=
  '(resp, s') ← cxl_memsim_shm_request others i CXL_OP_ATOMIC_CAS addr 8 None desired expected timestamp s;
  Some (match resp with
        | Some r => (if rs_old_value r =? expected then 0 else 1, Some (rs_old_value r), s')
        | None => (1, None, s')
        end).

(** ** Well-formed states *)
Record slot_ok (sl : cxl_shm_slot) : Prop := {
  so_data : length (sl_data sl) = 64%nat;
  so_addr : u64 (sl_addr sl);
  so_size : u64 (sl_size sl);
  so_value : u64 (sl_value sl)
}.

(** The region has an entry of 128 bytes for each of the [n] cachelines. *)
Definition region_ok (n : Z) (mem : list Z) : Prop := 0 <= n < 2 ^ 58 /\ Z.of_nat (length mem) = n * ENTRY_SIZE.

Definition pgas_ok (s : PgasServer) (h : cxl_shm_header) : Prop :=
  pg_header s = Some h /\ pg_running s = true /\ Z.of_nat (length (hp_slots h)) = hp_num_slots h /\
  Forall slot_ok (hp_slots h) /\ 0 <= hp_memory_size h /\ region_ok (hp_memory_size h / 64) (pg_memory s).

(** Where the byte of an address lives. *)
Definition pos_of (addr : Z) : Z := addr / 64 * ENTRY_SIZE + addr mod 64.

(** Only metadata of the entry changed. *)
Definition meta_only (idx : Z) (m m' : list Z) : Prop :=
  length m' = length m /\
  forall i, ~ (idx * ENTRY_SIZE + 64 <= Z.of_nat i < idx * ENTRY_SIZE + 128) -> m' !! i = m !! i.

Lemma meta_only_refl (idx : Z) (m : list Z) : meta_only idx m m.
Proof. by split. Qed.

Lemma meta_only_trans (idx : Z) (m1 m2 m3 : list Z) : meta_only idx m1 m2 -> meta_only idx m2 m3 -> meta_only idx m1 m3.
Proof. intros [L1 H1] [L2 H2]. split; [congruence|]. intros i Hi. by rewrite H2, H1. Qed.

Lemma store_meta (n idx off v : Z) (k : nat) (m : list Z) :
  region_ok n m -> 0 <= idx < n -> 64 <= off -> off + Z.of_nat k <= 128 ->
  exists m', store_field idx off k v m = Some m' /\ meta_only idx m m' /\ region_ok n m'.
Proof.
  intros [Hn Hl] Hi Ho Hk. unfold store_field, ENTRY_SIZE in *.
  destruct (mem_write_Some (idx * 128 + off) (le_split k v) m) as [m' E]; [lia|rewrite le_split_length; nia|].
  exists m'. pose proof (mem_write_length _ _ _ _ E) as L. split_and!; [done| |by unfold region_ok, ENTRY_SIZE; rewrite L].
  split; [done|]. intros i Hni. unfold ENTRY_SIZE in Hni.
  rewrite (mem_write_lookup _ _ _ _ i E), decide_False; [done|]. rewrite le_split_length. lia.
Qed.

Lemma load_meta (n idx off : Z) (k : nat) (m : list Z) :
  region_ok n m -> 0 <= idx < n -> 0 <= off -> off + Z.of_nat k <= 128 -> exists v, load_field idx off k m = Some v.
Proof.
  intros [Hn Hl] Hi Ho Hk. unfold load_field, ENTRY_SIZE in *. rewrite mem_read_Some by nia. cbn. eauto.
Qed.

Lemma bump_meta (n idx off : Z) (m : list Z) :
  region_ok n m -> 0 <= idx < n -> 64 <= off -> off + 4 <= 128 ->
  exists m', bump_field idx off m = Some m' /\ meta_only idx m m' /\ region_ok n m'.
Proof.
  intros Hm Hi Ho Hk. unfold bump_field. destruct (load_meta n idx off 4 m) as [v ->]; [done|done|lia|lia|]. cbn [mbind option_bind].
  by apply store_meta.
Qed.

(** Run one metadata update: name the new region and what it keeps. *)
Ltac meta_step :=
  match goal with
  | |- context [bump_field ?i ?o ?m] =>
      let m' := fresh "m" in let E := fresh "E" in let K := fresh "K" in let R := fresh "R" in
      destruct (bump_meta _ i o m ltac:(eassumption) ltac:(eassumption)) as (m' & E & K & R);
        [unfold off_access_count, off_version; lia|unfold off_access_count, off_version; lia|]; rewrite E; cbn [mbind option_bind]
  | |- context [store_field ?i ?o ?k ?v ?m] =>
      let m' := fresh "m" in let E := fresh "E" in let K := fresh "K" in let R := fresh "R" in
      destruct (store_meta _ i o v k m ltac:(eassumption) ltac:(eassumption)) as (m' & E & K & R);
        [unfold off_last_access_time, off_cache_state; lia|unfold off_last_access_time, off_cache_state; lia|];
        rewrite E; cbn [mbind option_bind]
  end.

(** Reads of data do not see metadata updates. *)
Lemma meta_only_read (idx off k : Z) (m m' : list Z) :
  meta_only idx m m' -> 0 <= off -> off + k <= idx * ENTRY_SIZE + 64 \/ idx * ENTRY_SIZE + 128 <= off ->
  mem_read off k m' = mem_read off k m.
Proof.
  intros [L H] H0 Hd. unfold mem_read. rewrite L. case_decide; [|done]. f_equal. apply list_eq. intros i.
  destruct (decide (i < Z.to_nat k)%nat).
  - rewrite !lookup_take_lt, !lookup_drop by lia. apply H. lia.
  - by rewrite !lookup_take_ge by lia.
Qed.

Lemma mem_write_start (bs m : list Z) :
  (length bs <= length m)%nat -> mem_write 0 bs m = Some (bs ++ drop (length bs) m).
Proof. intros H. unfold mem_write. rewrite decide_True by lia. done. Qed.

Lemma mem_write_region (n idx off : Z) (bs m : list Z) :
  region_ok n m -> 0 <= idx < n -> 0 <= off -> off + Z.of_nat (length bs) <= 128 ->
  exists m', mem_write (idx * ENTRY_SIZE + off) bs m = Some m' /\ region_ok n m'.
Proof.
  intros [Hn Hl] Hi Ho Hk. unfold ENTRY_SIZE in *. destruct (mem_write_Some (idx * 128 + off) bs m) as [m' E]; [lia|nia|].
  exists m'. split; [done|]. unfold region_ok, ENTRY_SIZE. by rewrite (mem_write_length _ _ _ _ E).
Qed.

Section Serve.
Context {D : Type} `{Double D} (calculate_latency : Z -> Z -> D).
Context (n : Z) (sl : cxl_shm_slot) (mem : list Z) (t : PgasStats).
Context (Hmem : region_ok n mem) (Hsl : slot_ok sl) (Hidx : 0 <= sl_addr sl / 64 < n).

#[local] Notation idx := (sl_addr sl / 64).
#[local] Notation copy := (Z.min (sl_size sl) 64).
#[local] Notation serve req := (pgas_serve calculate_latency req n sl mem t).

Lemma copy_range : 0 <= copy <= 64.
Proof. pose proof (so_size sl Hsl). unfold u64 in *. lia. Qed.

Lemma offset_range : 0 <= sl_addr sl mod 64 < 64.
Proof. apply Z.mod_pos_bound. lia. Qed.

Lemma serve_read :
  exists bs lat m' t', serve CXL_SHM_REQ_READ = Some (slot_answer lat (bs ++ drop (length bs) (sl_data sl)) sl, m', t', true) /\
    meta_only idx mem m' /\ region_ok n m' /\ mem_read (pos_of (sl_addr sl)) copy m' = Some bs /\ Z.of_nat (length bs) = copy.
Proof.
  pose proof copy_range. pose proof offset_range. unfold pgas_serve. cbn [Z.eqb Pos.eqb CXL_SHM_REQ_READ]. meta_step. meta_step.
  destruct (mem_read (idx * ENTRY_SIZE + sl_addr sl mod 64) copy m0) as [bs|] eqn:Eb.
  2:{ rewrite mem_read_Some in Eb; [done|unfold ENTRY_SIZE; lia|lia|destruct R0 as [_ ->]; unfold ENTRY_SIZE; nia]. }
  pose proof (mem_read_length _ _ _ _ Eb) as Hb. cbn [mbind option_bind].
  rewrite mem_write_start by (rewrite (so_data sl Hsl); lia). cbn [mbind option_bind].
  exists bs. eexists _, _, _. split; [reflexivity|]. split; [by eapply meta_only_trans|]. done.
Qed.

Lemma serve_write :
  exists lat m1 m' t', serve CXL_SHM_REQ_WRITE = Some (slot_answer lat (sl_data sl) sl, m', t', true) /\
    mem_write (pos_of (sl_addr sl)) (take (Z.to_nat copy) (sl_data sl)) mem = Some m1 /\ meta_only idx m1 m' /\ region_ok n m'.
Proof.
  pose proof copy_range. pose proof offset_range. pose proof (so_data sl Hsl) as Hd. unfold pgas_serve. cbn [Z.eqb Pos.eqb CXL_SHM_REQ_READ CXL_SHM_REQ_WRITE].
  rewrite mem_read_Some by lia. cbn [mbind option_bind]. change (Z.to_nat 0) with 0%nat. rewrite drop_0.
  destruct (mem_write_region n idx (sl_addr sl mod 64) (take (Z.to_nat copy) (sl_data sl)) mem) as (m1 & E1 & R1);
    [done|done|lia|rewrite length_take; lia|]. unfold pos_of. rewrite E1. cbn [mbind option_bind].
  repeat meta_step. eexists _, m1, _, _. split; [reflexivity|]. split; [done|]. split; [|done].
  repeat (eapply meta_only_trans; [eassumption|]). apply meta_only_refl.
Qed.

Lemma atomic_bound : (sl_addr sl ⊞ 8 <=? n ⊠ 64) = (sl_addr sl + 8 <=? n * 64).
Proof.
  destruct Hmem as [Hn _]. pose proof (so_addr sl Hsl) as Ha. unfold u64 in Ha. pose proof (Z.div_mod (sl_addr sl) 64). pose proof offset_range.
  rewrite !wrap64_small by (unfold u64; lia). done.
Qed.

(** The word of an atomic starts inside the data of its entry. *)
Definition atomic_word : option Z := load_field idx (sl_addr sl mod 64) 8 mem.

Lemma serve_faa :
  sl_addr sl + 8 <= n * 64 ->
  exists old lat m1 m' t', atomic_word = Some old /\
    serve CXL_SHM_REQ_ATOMIC_FAA = Some (slot_answer lat (le_split 8 old ++ drop 8 (sl_data sl)) sl, m', t', true) /\
    mem_write (pos_of (sl_addr sl)) (le_split 8 (old ⊞ sl_value sl)) mem = Some m1 /\ meta_only idx m1 m' /\ region_ok n m'.
Proof.
  intros Hb. pose proof offset_range. pose proof (so_data sl Hsl) as Hd. unfold pgas_serve, atomic_word.
  cbn [Z.eqb Pos.eqb CXL_SHM_REQ_READ CXL_SHM_REQ_WRITE CXL_SHM_REQ_ATOMIC_FAA]. rewrite atomic_bound, (proj2 (Z.leb_le _ _)) by lia.
  destruct (load_meta n idx (sl_addr sl mod 64) 8 mem) as [old Eo]; [done|done|lia|lia|]. rewrite Eo. cbn [mbind option_bind].
  destruct (mem_write_region n idx (sl_addr sl mod 64) (le_split 8 (old ⊞ sl_value sl)) mem) as (m1 & E1 & R1);
    [done|done|lia|rewrite le_split_length; lia|].
  assert (E1' : store_field idx (sl_addr sl mod 64) 8 (old ⊞ sl_value sl) mem = Some m1) by exact E1. rewrite E1'. cbn [mbind option_bind].
  rewrite mem_write_start by (rewrite le_split_length; lia). rewrite le_split_length. cbn [mbind option_bind].
  repeat meta_step. eexists old, _, m1, _, _. split; [done|]. split; [reflexivity|]. split; [done|]. split; [|done].
  repeat (eapply meta_only_trans; [eassumption|]). apply meta_only_refl.
Qed.

Lemma serve_cas :
  sl_addr sl + 8 <= n * 64 ->
  exists old lat m1 m' t', atomic_word = Some old /\
    serve CXL_SHM_REQ_ATOMIC_CAS = Some (slot_answer lat (le_split 8 old ++ drop 8 (sl_data sl)) sl, m', t', true) /\
    (if old =? sl_expected sl then mem_write (pos_of (sl_addr sl)) (le_split 8 (sl_value sl)) mem = Some m1 else m1 = mem) /\
    meta_only idx m1 m' /\ region_ok n m'.
Proof.
  intros Hb. pose proof offset_range. pose proof (so_data sl Hsl) as Hd. unfold pgas_serve, atomic_word.
  cbn [Z.eqb Pos.eqb CXL_SHM_REQ_READ CXL_SHM_REQ_WRITE CXL_SHM_REQ_ATOMIC_FAA CXL_SHM_REQ_ATOMIC_CAS].
  rewrite atomic_bound, (proj2 (Z.leb_le _ _)) by lia.
  destruct (load_meta n idx (sl_addr sl mod 64) 8 mem) as [old Eo]; [done|done|lia|lia|]. rewrite Eo. cbn [mbind option_bind].
  assert (H1 : exists m1, (if old =? sl_expected sl then store_field idx (sl_addr sl mod 64) 8 (sl_value sl) mem else Some mem) = Some m1 /\
    region_ok n m1 /\ if old =? sl_expected sl then mem_write (pos_of (sl_addr sl)) (le_split 8 (sl_value sl)) mem = Some m1 else m1 = mem).
  { destruct (old =? sl_expected sl); [|by exists mem].
    destruct (mem_write_region n idx (sl_addr sl mod 64) (le_split 8 (sl_value sl)) mem) as (m1 & E1 & R1);
      [done|done|lia|rewrite le_split_length; lia|]. by exists m1. }
  destruct H1 as (m1 & -> & R1 & H1). cbn [mbind option_bind].
  rewrite mem_write_start by (rewrite le_split_length; lia). rewrite le_split_length. cbn [mbind option_bind].
  repeat meta_step. eexists old, _, m1, _, _. split; [done|]. split; [reflexivity|]. split; [done|]. split; [|done].
  repeat (eapply meta_only_trans; [eassumption|]). apply meta_only_refl.
Qed.
End Serve.

(** ** Polling *)
Definition known_request (req : Z) : Prop :=
  req ∈ [CXL_SHM_REQ_READ; CXL_SHM_REQ_WRITE; CXL_SHM_REQ_ATOMIC_FAA; CXL_SHM_REQ_ATOMIC_CAS; CXL_SHM_REQ_FENCE].

(** Whether the server carries a request out: its line exists and an atomic does not run past the end. *)
Definition in_range (n : Z) (sl : cxl_shm_slot) : Prop :=
  sl_addr sl / 64 < n /\
  (sl_req_type sl = CXL_SHM_REQ_ATOMIC_FAA \/ sl_req_type sl = CXL_SHM_REQ_ATOMIC_CAS -> sl_addr sl + 8 <= n * 64).

(** What a poll leaves in a slot. *)
Definition polled (n : Z) (sl sl' : cxl_shm_slot) : Prop :=
  slot_ok sl' /\ sl_req_type sl' = CXL_SHM_REQ_NONE /\
  (sl_req_type sl = CXL_SHM_REQ_NONE -> sl' = sl) /\
  (known_request (sl_req_type sl) -> in_range n sl -> sl_resp_status sl' = CXL_SHM_RESP_OK) /\
  (known_request (sl_req_type sl) -> ~ in_range n sl -> sl_resp_status sl' = CXL_SHM_RESP_ERROR).

Lemma slot_answer_ok (lat : Z) (data : list Z) (sl : cxl_shm_slot) :
  slot_ok sl -> length data = 64%nat -> slot_ok (slot_clear (slot_answer lat data sl)).
Proof. intros [H1 H2 H3 H4] Hd. by split. Qed.

Lemma none_unknown : ~ known_request CXL_SHM_REQ_NONE.
Proof. unfold known_request. intros H. repeat (apply elem_of_cons in H as [H|H]; [done|]). by apply not_elem_of_nil in H. Qed.

Lemma polled_answer (n lat : Z) (data : list Z) (sl : cxl_shm_slot) :
  slot_ok sl -> length data = 64%nat -> sl_req_type sl <> CXL_SHM_REQ_NONE -> in_range n sl ->
  polled n sl (slot_clear (slot_answer lat data sl)).
Proof. intros Hs Hd Hn Hr. split_and!; try done. by apply slot_answer_ok. Qed.

Lemma polled_error (n : Z) (sl : cxl_shm_slot) :
  slot_ok sl -> sl_req_type sl <> CXL_SHM_REQ_NONE -> ~ in_range n sl ->
  polled n sl (slot_clear (slot_status CXL_SHM_RESP_ERROR sl)).
Proof. intros Hs Hn Hr. split_and!; try done. by destruct Hs. Qed.

Section Polling.
Context {D : Type} `{Double D} (calculate_latency : Z -> Z -> D).

(** What the [switch] does with a request whose line exists. *)
Definition serves (n : Z) (sl : cxl_shm_slot) (mem : list Z) (t : PgasStats) : Prop :=
  exists sl' m' t' c, pgas_serve calculate_latency (sl_req_type sl) n sl mem t = Some (sl', m', t', c) /\ region_ok n m' /\
    polled n sl (slot_clear sl').

Lemma serves_atomic (n : Z) (sl : cxl_shm_slot) (mem : list Z) (t : PgasStats) :
  region_ok n mem -> slot_ok sl -> 0 <= sl_addr sl / 64 < n ->
  sl_req_type sl = CXL_SHM_REQ_ATOMIC_FAA \/ sl_req_type sl = CXL_SHM_REQ_ATOMIC_CAS -> serves n sl mem t.
Proof.
  intros Hm Hs Hidx Ht. assert (Hd := so_data sl Hs). unfold serves. destruct (decide (sl_addr sl + 8 <= n * 64)) as [Hb|Hb].
  - assert (Hr : in_range n sl) by (split; [lia|done]). destruct Ht as [E|E]; rewrite E.
    + destruct (serve_faa calculate_latency n sl mem t Hm Hs Hidx Hb) as (old & lat & m1 & m' & t' & _ & -> & _ & _ & Hm').
      eexists _, _, _, _. split; [reflexivity|]. split; [done|]. apply polled_answer; try done; [|by rewrite E].
      rewrite length_app, length_drop, le_split_length. lia.
    + destruct (serve_cas calculate_latency n sl mem t Hm Hs Hidx Hb) as (old & lat & m1 & m' & t' & _ & -> & _ & _ & Hm').
      eexists _, _, _, _. split; [reflexivity|]. split; [done|]. apply polled_answer; try done; [|by rewrite E].
      rewrite length_app, length_drop, le_split_length. lia.
  - assert (Hr : ~ in_range n sl) by (intros [_ Hx]; specialize (Hx Ht); lia).
    pose proof (atomic_bound n sl mem Hm Hs Hidx) as Ha. rewrite (proj2 (Z.leb_gt (sl_addr sl + 8) (n * 64))) in Ha by lia.
    destruct Ht as [E|E]; rewrite E; unfold pgas_serve;
      cbn [Z.eqb Pos.eqb CXL_SHM_REQ_READ CXL_SHM_REQ_WRITE CXL_SHM_REQ_ATOMIC_FAA CXL_SHM_REQ_ATOMIC_CAS]; rewrite Ha;
      (eexists _, _, _, _; split; [reflexivity|]; split; [done|]; apply polled_error; try done; by rewrite E).
Qed.

Lemma serves_all (n : Z) (sl : cxl_shm_slot) (mem : list Z) (t : PgasStats) :
  region_ok n mem -> slot_ok sl -> 0 <= sl_addr sl / 64 < n -> sl_req_type sl <> CXL_SHM_REQ_NONE -> serves n sl mem t.
Proof.
  intros Hm Hs Hidx H0. assert (Hd := so_data sl Hs).
  destruct (decide (sl_req_type sl = CXL_SHM_REQ_ATOMIC_FAA \/ sl_req_type sl = CXL_SHM_REQ_ATOMIC_CAS)) as [Ha|Ha]; [by apply serves_atomic|].
  assert (Hr : in_range n sl) by (split; [lia|by intros Hx]). unfold serves.
  destruct (decide (sl_req_type sl = CXL_SHM_REQ_READ)) as [E|Nr].
  { rewrite E. destruct (serve_read calculate_latency n sl mem t Hm Hs Hidx) as (bs & lat & m' & t' & -> & _ & Hm' & _ & Hb).
    eexists _, _, _, _. split; [reflexivity|]. split; [done|]. apply polled_answer; try done.
    pose proof (copy_range sl Hs). rewrite length_app, length_drop. lia. }
  destruct (decide (sl_req_type sl = CXL_SHM_REQ_WRITE)) as [E|Nw].
  { rewrite E. destruct (serve_write calculate_latency n sl mem t Hm Hs Hidx) as (lat & m1 & m' & t' & -> & _ & _ & Hm').
    eexists _, _, _, _. split; [reflexivity|]. split; [done|]. by apply polled_answer. }
  unfold pgas_serve. rewrite !(proj2 (Z.eqb_neq _ _)) by tauto.
  destruct (sl_req_type sl =? CXL_SHM_REQ_FENCE) eqn:Ee; zify_bool; eexists _, _, _, _; (split; [reflexivity|]); (split; [done|]).
  - by apply polled_answer.
  - assert (Hn : ~ known_request (sl_req_type sl)) by (unfold known_request; set_solver). split_and!; try done. by destruct Hs.
Qed.

Lemma poll_slot_ok (size : Z) (sl : cxl_shm_slot) (mem : list Z) (t : PgasStats) :
  region_ok (size / 64) mem -> slot_ok sl ->
  exists sl' m' t' c, pgas_poll_slot calculate_latency size sl mem t = Some (sl', m', t', c) /\ region_ok (size / 64) m' /\
    polled (size / 64) sl sl'.
Proof.
  intros Hm Hs. unfold pgas_poll_slot. cbv zeta.
  assert (H0 : 0 <= sl_addr sl / 64) by (pose proof (so_addr sl Hs); unfold u64 in *; apply Z.div_pos; lia).
  destruct (sl_req_type sl =? CXL_SHM_REQ_NONE) eqn:E0; zify_bool.
  { eexists _, _, _, _. split; [reflexivity|]. split; [done|].
    split_and!; try done; rewrite E0; intros Hk; by destruct none_unknown. }
  destruct (size / 64 <=? sl_addr sl / 64) eqn:E1; zify_bool.
  { eexists _, _, _, _. split; [reflexivity|]. split; [done|]. apply polled_error; try done. intros [Hx _]. lia. }
  destruct (serves_all (size / 64) sl mem t Hm Hs ltac:(lia) E0) as (sl' & m' & t' & c & -> & Hm' & Hp). by eexists _, _, _, _.
Qed.

Lemma poll_slots_ok (size : Z) (slots : list cxl_shm_slot) (mem : list Z) (t : PgasStats) (k : Z) :
  region_ok (size / 64) mem -> Forall slot_ok slots ->
  exists ss m' t' p, pgas_poll_slots calculate_latency size slots mem t k = Some (ss, m', t', p) /\ region_ok (size / 64) m' /\
    Forall2 (polled (size / 64)) slots ss.
Proof.
  intros Hm Hs. revert mem t k Hm. induction Hs as [|sl slots Hsl Hs IH]; intros mem t k Hm; [by eexists _, _, _, _|].
  cbn [pgas_poll_slots]. destruct (poll_slot_ok size sl mem t Hm Hsl) as (sl' & m' & t' & c & -> & Hm' & Hp). cbn [mbind option_bind].
  destruct (IH m' t' (if c then k + 1 else k) Hm') as (ss & m'' & t'' & p & -> & Hm'' & Hf). cbn [mbind option_bind].
  eexists _, _, _, _. split; [reflexivity|]. split; [done|]. by constructor.
Qed.
End Polling.

(** The server's poll as an action of another process. *)
Definition poll_action {D} `{Double D} (calculate_latency : Z -> Z -> D) (s : PgasServer) : option PgasServer :=
  snd <$> poll_pgas_shm_requests calculate_latency s.

(** A poll answers everything: with well-formed slots and region it never leaves the region or a
    slot, and afterwards every slot is free and every known request has its status, OK if its
    line exists and an atomic ends inside the memory, ERROR otherwise; idle slots are not
    touched. *)
Theorem pgas_poll_answers {D} `{Double D} (calculate_latency : Z -> Z -> D) (s : PgasServer) (h : cxl_shm_header)
  (Hok : pgas_ok s h) :
  exists k s' h', poll_pgas_shm_requests calculate_latency s = Some (k, s') /\ pgas_ok s' h' /\
    Forall2 (polled (hp_memory_size h / 64)) (hp_slots h) (hp_slots h').
Proof.
  destruct Hok as (Hh & Hrun & Hl & Hs & Hsz & Hm). unfold poll_pgas_shm_requests. rewrite Hh, Hrun. cbn [negb].
  replace (Z.to_nat (hp_num_slots h)) with (length (hp_slots h)) by lia. rewrite (proj2 (Nat.ltb_ge _ _)) by lia.
  rewrite firstn_all, drop_all.
  destruct (poll_slots_ok calculate_latency (hp_memory_size h) (hp_slots h) (pg_memory s) (pg_stats s) 0 Hm Hs)
    as (ss & m' & t' & p & -> & Hm' & Hf). cbn [mbind option_bind]. rewrite app_nil_r.
  eexists p, _, (set_slots ss h). split; [reflexivity|]. split; [|done]. split_and!; try done.
  - cbn. by rewrite <- (Forall2_length _ _ _ Hf).
  - cbn. clear -Hf. induction Hf as [|x y l k [Hp _] Hf IH]; by constructor.
Qed.

(** ** One guest *)
Section Guest.
Context {D : Type} `{Double D} (calculate_latency : Z -> Z -> D).

(** Every other slot is idle. *)
Definition others_idle (i : nat) (slots : list cxl_shm_slot) : Prop :=
  forall j sl, j <> i -> slots !! j = Some sl -> sl_req_type sl = CXL_SHM_REQ_NONE.

Lemma poll_slots_idle (size : Z) (slots : list cxl_shm_slot) (mem : list Z) (t : PgasStats) (k : Z) :
  Forall (fun sl => sl_req_type sl = CXL_SHM_REQ_NONE) slots ->
  pgas_poll_slots calculate_latency size slots mem t k = Some (slots, mem, t, k).
Proof.
  intros Hs. induction Hs as [|sl slots Hsl Hs IH]; [done|]. cbn [pgas_poll_slots]. unfold pgas_poll_slot. cbv zeta.
  rewrite Hsl. cbn [Z.eqb mbind option_bind CXL_SHM_REQ_NONE]. by rewrite IH.
Qed.

Lemma poll_slots_one (size : Z) (slots : list cxl_shm_slot) (mem m' : list Z) (t t' : PgasStats) (k : Z) (i : nat)
    (sl sl' : cxl_shm_slot) (c : bool) :
  slots !! i = Some sl -> others_idle i slots -> pgas_poll_slot calculate_latency size sl mem t = Some (sl', m', t', c) ->
  exists p, pgas_poll_slots calculate_latency size slots mem t k = Some (<[i := sl']> slots, m', t', p).
Proof.
  revert i k. induction slots as [|x slots IH]; intros i k Hi Ho Hp; [done|]. cbn [pgas_poll_slots]. destruct i as [|i].
  - injection Hi as ->. rewrite Hp. cbn [mbind option_bind]. rewrite poll_slots_idle; [by eexists|].
    apply Forall_lookup_2. intros j y Hy. by apply (Ho (S j)).
  - assert (Hx : sl_req_type x = CXL_SHM_REQ_NONE) by by apply (Ho 0%nat).
    unfold pgas_poll_slot at 1. cbv zeta. rewrite Hx. cbn [Z.eqb mbind option_bind CXL_SHM_REQ_NONE].
    destruct (IH i k Hi) as [p ->]; [|done|by eexists]. intros j y Hj Hy. apply (Ho (S j)); [lia|done].
Qed.

Lemma poll_one (s : PgasServer) (h : cxl_shm_header) (i : nat) (sl sl' : cxl_shm_slot) (m' : list Z) (t' : PgasStats) (c : bool) :
  pgas_ok s h -> hp_slots h !! i = Some sl -> others_idle i (hp_slots h) -> sl_req_type sl <> CXL_SHM_REQ_NONE ->
  sl_addr sl / 64 < hp_memory_size h / 64 ->
  pgas_serve calculate_latency (sl_req_type sl) (hp_memory_size h / 64) sl (pg_memory s) (pg_stats s) = Some (sl', m', t', c) ->
  poll_action calculate_latency s = Some (mkPgas (Some (set_slots (<[i := slot_clear sl']> (hp_slots h)) h)) m' true t').
Proof.
  intros (Hh & Hrun & Hl & Hs & Hsz & Hm) Hi Ho Hne Hr Hserve. unfold poll_action, poll_pgas_shm_requests. rewrite Hh, Hrun. cbn [negb].
  replace (Z.to_nat (hp_num_slots h)) with (length (hp_slots h)) by lia. rewrite (proj2 (Nat.ltb_ge _ _)) by lia.
  rewrite firstn_all, drop_all.
  destruct (poll_slots_one (hp_memory_size h) (hp_slots h) (pg_memory s) m' (pg_stats s) t' 0 i sl (slot_clear sl') c Hi Ho) as [p ->].
  - unfold pgas_poll_slot. cbv zeta. rewrite (proj2 (Z.eqb_neq _ _)), (proj2 (Z.leb_gt _ _)) by (done || lia). by rewrite Hserve.
  - cbn. by rewrite app_nil_r.
Qed.

(** The slot of a guest between two requests. *)
Definition slot_idle (sl : cxl_shm_slot) : Prop := sl_req_type sl = CXL_SHM_REQ_NONE /\ sl_resp_status sl = CXL_SHM_RESP_NONE.

Definition ready (s : PgasServer) (h : cxl_shm_header) : Prop := pgas_ok s h /\ Forall slot_idle (hp_slots h).

Lemma ready_others (s : PgasServer) (h : cxl_shm_header) (i : nat) (sl : cxl_shm_slot) :
  ready s h -> others_idle i (<[i := sl]> (hp_slots h)).
Proof.
  intros [_ Hf] j x Hj Hx. rewrite list_lookup_insert_ne in Hx by done. by apply (Forall_lookup_1 _ _ _ _ Hf Hx).
Qed.

Lemma spin_done (cond : PgasServer -> bool) (others : PgasServer -> option PgasServer) (k : nat) (s : PgasServer) :
  cond s = false -> spin cond others k s = Some (k, s).
Proof. intros H1. destruct k; cbn; by rewrite H1. Qed.

Lemma spin_once (cond : PgasServer -> bool) (others : PgasServer -> option PgasServer) (k : nat) (s s' : PgasServer) :
  cond s = true -> others s = Some s' -> cond s' = false -> spin cond others (S k) s = Some (k, s').
Proof. intros H1 H2 H3. cbn. rewrite H1, H2. cbn. by apply spin_done. Qed.

Lemma submit_fields (op addr size value expected ts : Z) (data : option (list Z)) (sl sl1 : cxl_shm_slot) :
  shm_submit op addr size data value expected ts sl = Some sl1 ->
  sl_req_type sl1 = shm_req_type op /\ sl_addr sl1 = addr /\ sl_resp_status sl1 = sl_resp_status sl.
Proof.
  unfold shm_submit. destruct (if op =? CXL_OP_WRITE then _ else _) as [d|]; cbn; [|done]. by intros [= <-].
Qed.

Lemma collect_idle (op size : Z) (resp resp' : CXLMemSimResponse) (sl sl' : cxl_shm_slot) :
  shm_collect op size resp sl = Some (resp', sl') -> slot_idle sl'.
Proof.
  unfold shm_collect. destruct (if op =? CXL_OP_READ then _ else _) as [d|]; cbn; [|done]. by intros [= <- <-].
Qed.

(** Replacing a slot by a well-formed one keeps the state well-formed. *)
Lemma put_slot_ok (s : PgasServer) (h : cxl_shm_header) (i : nat) (sl : cxl_shm_slot) :
  pgas_ok s h -> slot_ok sl ->
  pgas_ok (put_slot i sl s) (set_slots (<[i := sl]> (hp_slots h)) h) /\
  put_slot i sl s = mkPgas (Some (set_slots (<[i := sl]> (hp_slots h)) h)) (pg_memory s) true (pg_stats s).
Proof.
  intros (Hh & Hrun & Hl & Hs & Hsz & Hm) Hsl. unfold put_slot. rewrite Hh, Hrun. split; [|done].
  split_and!; try done; cbn; [by rewrite length_insert|by apply Forall_insert].
Qed.

(** A guest whose request is carried out while it waits gets the response after one sleep. *)
Lemma guest_request (s : PgasServer) (h : cxl_shm_header) (i : nat) (op addr size value expected ts : Z) (data : option (list Z))
    (sl sl1 sl2 sl3 : cxl_shm_slot) (m' : list Z) (t' : PgasStats) (c : bool) (resp : CXLMemSimResponse) :
  ready s h -> hp_slots h !! i = Some sl -> shm_submit op addr size data value expected ts sl = Some sl1 -> slot_ok sl1 ->
  shm_req_type op <> CXL_SHM_REQ_NONE -> addr / 64 < hp_memory_size h / 64 ->
  pgas_serve calculate_latency (shm_req_type op) (hp_memory_size h / 64) sl1 (pg_memory s) (pg_stats s) = Some (sl2, m', t', c) ->
  region_ok (hp_memory_size h / 64) m' -> slot_ok (slot_clear sl2) -> sl_resp_status sl2 <> CXL_SHM_RESP_NONE ->
  shm_collect op size response_empty (slot_clear sl2) = Some (resp, sl3) -> slot_ok sl3 ->
  exists s' h', cxl_memsim_shm_request (poll_action calculate_latency) i op addr size data value expected ts s = Some (Some resp, s') /\
    ready s' h' /\ pg_memory s' = m' /\ hp_memory_size h' = hp_memory_size h /\ length (hp_slots h') = length (hp_slots h).
Proof.
  intros Hready Hi Hsub Hsl1 Hreq Hr Hserve Hm' Hsl2 Hst Hcol Hsl3. pose proof Hready as [Hok Hidle].
  pose proof Hok as (Hh & Hrun & Hl & Hs & Hsz & Hm). assert (Hlen := lookup_lt_Some _ _ _ Hi).
  destruct (Forall_lookup_1 _ _ _ _ Hidle Hi) as [Hi1 Hi2]. destruct (submit_fields _ _ _ _ _ _ _ _ _ Hsub) as (Ht1 & Ha1 & Hs1).
  assert (Hg : get_slot i s = Some sl) by (unfold get_slot; by rewrite Hh).
  destruct (put_slot_ok s h i sl1 Hok Hsl1) as [Hok1 Es1]. set (s1 := put_slot i sl1 s) in *. set (h1 := set_slots _ h) in *.
  set (h2 := set_slots (<[i := slot_clear sl2]> (hp_slots h)) h). set (s2 := mkPgas (Some h2) m' true t').
  assert (Hpoll : poll_action calculate_latency s1 = Some s2).
  { rewrite (poll_one s1 h1 i sl1 sl2 m' t' c); try done.
    - unfold s2, h2, h1. cbn. by rewrite list_insert_insert_eq.
    - cbn. by apply list_lookup_insert_eq.
    - by apply (ready_others s).
    - by rewrite Ht1.
    - by rewrite Ha1.
    - rewrite Ht1, Es1. exact Hserve. }
  assert (Hok2 : pgas_ok s2 h2).
  { split_and!; try done; cbn; [by rewrite length_insert|by apply Forall_insert]. }
  destruct (put_slot_ok s2 h2 i sl3 Hok2 Hsl3) as [Hok3 Es3].
  unfold cxl_memsim_shm_request. rewrite Hh, spin_done by (unfold slot_busy; rewrite Hg; cbn; by rewrite Hi1).
  cbn [mbind option_bind]. change ((Z.to_nat 1000 =? 0)%nat) with false. cbv iota. rewrite Hg. cbn [mbind option_bind]. rewrite Hsub.
  cbn [mbind option_bind]. fold s1. change (Z.to_nat 10000) with (S (Z.to_nat 9999)).
  rewrite (spin_once _ _ _ s1 s2); [|unfold slot_silent; rewrite Es1; cbn; rewrite list_lookup_insert_eq by done; cbn; by rewrite Hs1, Hi2|done|].
  2:{ unfold slot_silent. cbn. rewrite list_lookup_insert_eq by done. cbn. by apply Z.eqb_neq. }
  cbn [mbind option_bind]. change ((Z.to_nat 9999 =? 0)%nat) with false. cbv iota.
  assert (Hg2 : get_slot i s2 = Some (slot_clear sl2)) by (cbn; by apply list_lookup_insert_eq).
  rewrite Hg2. cbn [mbind option_bind]. rewrite Hcol. cbn [mbind option_bind].
  exists (put_slot i sl3 s2), (set_slots (<[i := sl3]> (hp_slots h2)) h2).
  split; [reflexivity|]. split; [|split_and!; [by rewrite Es3|done|cbn; by rewrite !length_insert]].
  split; [exact Hok3|]. cbn. rewrite list_insert_insert_eq. apply Forall_insert; [done|]. by eapply collect_idle.
Qed.

(** An access inside the data of one entry. *)
Definition inside (h : cxl_shm_header) (addr size : Z) : Prop :=
  u64 addr /\ 0 <= size /\ addr mod 64 + size <= 64 /\ addr / 64 < hp_memory_size h / 64.

Lemma guest_write (s : PgasServer) (h : cxl_shm_header) (i : nat) (addr ts : Z) (bs : list Z) :
  ready s h -> (i < length (hp_slots h))%nat -> inside h addr (Z.of_nat (length bs)) ->
  exists r s' h' m1, cxl_memsim_shm_request (poll_action calculate_latency) i CXL_OP_WRITE addr (Z.of_nat (length bs)) (Some bs) 0 0 ts s = Some (Some r, s') /\
    rs_status r = 0 /\ ready s' h' /\ hp_memory_size h' = hp_memory_size h /\ length (hp_slots h') = length (hp_slots h) /\
    mem_write (pos_of addr) bs (pg_memory s) = Some m1 /\ meta_only (addr / 64) m1 (pg_memory s').
Proof.
  intros Hr Hi (Ha & H0 & Hin & Hidx). pose proof Hr as [(Hh & Hrun & Hl & Hs & Hsz & Hm) _].
  destruct (lookup_lt_is_Some_2 (hp_slots h) i Hi) as [sl Esl]. pose proof (Forall_lookup_1 _ _ _ _ Hs Esl) as [Hd _ _ _].
  assert (Ho : 0 <= addr mod 64 < 64) by (apply Z.mod_pos_bound; lia).
  assert (Hcopy : Z.min (Z.of_nat (length bs)) 64 = Z.of_nat (length bs)) by lia.
  set (sl1 := mkSlot CXL_SHM_REQ_WRITE (sl_resp_status sl) addr (Z.of_nat (length bs)) 0 0 (sl_latency_ns sl) ts (bs ++ drop (length bs) (sl_data sl))).
  assert (Hsub : shm_submit CXL_OP_WRITE addr (Z.of_nat (length bs)) (Some bs) 0 0 ts sl = Some sl1).
  { unfold shm_submit. cbn [Z.eqb Pos.eqb CXL_OP_WRITE]. rewrite Hcopy, mem_read_Some by lia. change (Z.to_nat 0) with 0%nat.
    rewrite drop_0, Nat2Z.id, firstn_all. cbn [mbind option_bind]. by rewrite mem_write_start by lia. }
  assert (Hsl1 : slot_ok sl1).
  { split; cbn; [|done|unfold u64; lia|unfold u64; lia]. rewrite length_app, length_drop. lia. }
  destruct (serve_write calculate_latency (hp_memory_size h / 64) sl1 (pg_memory s) (pg_stats s) Hm Hsl1) as (lat & m1 & m' & t' & E & Hw & Hmeta & Hm').
  { cbn. split; [apply Z.div_pos; unfold u64 in *; lia|lia]. }
  cbn [sl_addr sl_size sl1 sl_data] in Hw, Hmeta. rewrite Hcopy, Nat2Z.id, take_app_length in Hw.
  assert (Hsl2 : slot_ok (slot_clear (slot_answer lat (sl_data sl1) sl1))) by (apply slot_answer_ok; [done|apply Hsl1]).
  edestruct (guest_request s h i CXL_OP_WRITE addr (Z.of_nat (length bs)) 0 0 ts (Some bs)) as (s' & h' & Er & Hr' & Hmem & Hsize & Hlen); try done.
  { split; apply Hsl2. }
  eexists _, s', h', m1. split; [exact Er|]. split; [done|]. rewrite Hmem. done.
Qed.

Lemma guest_read (s : PgasServer) (h : cxl_shm_header) (i : nat) (addr size ts : Z) :
  ready s h -> (i < length (hp_slots h))%nat -> inside h addr size ->
  exists r s' h' bs, cxl_memsim_shm_request (poll_action calculate_latency) i CXL_OP_READ addr size None 0 0 ts s = Some (Some r, s') /\
    rs_status r = 0 /\ ready s' h' /\ hp_memory_size h' = hp_memory_size h /\ length (hp_slots h') = length (hp_slots h) /\
    mem_read (pos_of addr) size (pg_memory s) = Some bs /\ take (Z.to_nat size) (rs_data r) = bs /\ meta_only (addr / 64) (pg_memory s) (pg_memory s').
Proof.
  intros Hr Hi (Ha & H0 & Hin & Hidx). pose proof Hr as [(Hh & Hrun & Hl & Hs & Hsz & Hm) _].
  destruct (lookup_lt_is_Some_2 (hp_slots h) i Hi) as [sl Esl]. pose proof (Forall_lookup_1 _ _ _ _ Hs Esl) as [Hd _ _ _].
  assert (Ho : 0 <= addr mod 64 < 64) by (apply Z.mod_pos_bound; lia).
  set (sl1 := mkSlot CXL_SHM_REQ_READ (sl_resp_status sl) addr size 0 0 (sl_latency_ns sl) ts (sl_data sl)).
  assert (Hsub : shm_submit CXL_OP_READ addr size None 0 0 ts sl = Some sl1) by done.
  assert (Hsl1 : slot_ok sl1) by (split; cbn; [done|done|unfold u64; lia|unfold u64; lia]).
  assert (Hcopy : Z.min size 64 = size) by lia. assert (Hpos : 0 <= addr / 64) by (apply Z.div_pos; unfold u64 in *; lia).
  destruct (serve_read calculate_latency (hp_memory_size h / 64) sl1 (pg_memory s) (pg_stats s) Hm Hsl1) as (bs & lat & m' & t' & E & Hmeta & Hm' & Hread & Hb); [cbn; lia|].
  cbn [sl_addr sl_size sl1 sl_data] in *. rewrite Hcopy in *.
  assert (Hsl2 : slot_ok (slot_clear (slot_answer lat (bs ++ drop (length bs) (sl_data sl)) sl1))).
  { apply slot_answer_ok; [done|]. rewrite length_app, length_drop. lia. }
  assert (Hcol : shm_collect CXL_OP_READ size response_empty (slot_clear (slot_answer lat (bs ++ drop (length bs) (sl_data sl)) sl1)) =
    Some (mkMemSimResponse 0 lat 0 (bs ++ drop (length bs) (replicate 64 0)), slot_clear (slot_status CXL_SHM_RESP_NONE (slot_clear (slot_answer lat (bs ++ drop (length bs) (sl_data sl)) sl1))))).
  { unfold shm_collect. cbn [Z.eqb CXL_OP_READ sl_data slot_clear slot_answer]. rewrite Hcopy, mem_read_Some; [|lia|lia|rewrite length_app, length_drop; lia].
    change (Z.to_nat 0) with 0%nat. rewrite drop_0, <- Hb, Nat2Z.id, take_app_length. cbn [mbind option_bind rs_data response_empty].
    rewrite mem_write_start by (rewrite length_replicate; lia). done. }
  destruct (guest_request s h i CXL_OP_READ addr size 0 0 ts None sl sl1 _ _ m' t' true _ Hr Esl Hsub Hsl1 ltac:(done) Hidx E Hm' Hsl2 ltac:(done) Hcol)
    as (s' & h' & Er & Hr' & Hmem & Hsize & Hlen); [split; apply Hsl2|].
  eexists _, s', h', bs. split; [exact Er|]. split; [done|]. rewrite Hmem. split_and!; try done.
  - rewrite <- Hread. symmetry. apply (meta_only_read (addr / 64)); [done|unfold pos_of, ENTRY_SIZE; lia|left; unfold pos_of; lia].
  - cbn [rs_data]. rewrite <- Hb, Nat2Z.id. apply take_app_length.
Qed.
End Guest.


Section Atomics.
Context {D : Type} `{Double D} (calculate_latency : Z -> Z -> D).
Context (s : PgasServer) (h : cxl_shm_header) (i : nat) (addr value expected ts : Z).
Context (Hr : ready s h) (Hi : (i < length (hp_slots h))%nat) (Hin : inside h addr 8) (Hv : u64 value).

Lemma atomic_end : addr + 8 <= hp_memory_size h / 64 * 64.
Proof.
  destruct Hin as (Ha & _ & Hi8 & Hidx). pose proof (Z.div_mod addr 64). lia.
Qed.

(** The word of an address. *)
Definition word_at (mem : list Z) (a : Z) : option Z := bs ← mem_read (pos_of a) 8 mem; Some (le_combine bs).

(** Either atomic: the guest's old value is the operand it sent. *)
Lemma guest_atomic (op : Z) (Hop : op = CXL_OP_ATOMIC_FAA \/ op = CXL_OP_ATOMIC_CAS) :
  exists old r s' m1,
    cxl_memsim_shm_request (poll_action calculate_latency) i op addr 8 None value expected ts s = Some (Some r, s') /\
    rs_status r = 0 /\ rs_old_value r = value /\ word_at (pg_memory s) addr = Some old /\
    (if decide (op = CXL_OP_ATOMIC_CAS /\ old <> expected) then m1 = pg_memory s
     else mem_write (pos_of addr) (le_split 8 (if decide (op = CXL_OP_ATOMIC_FAA) then old ⊞ value else value)) (pg_memory s) = Some m1) /\
    meta_only (addr / 64) m1 (pg_memory s').
Proof.
  pose proof Hr as [(Hh & Hrun & Hl & Hs & Hsz & Hm) _]. pose proof Hin as (Ha & _ & Hi8 & Hidx).
  destruct (lookup_lt_is_Some_2 (hp_slots h) i Hi) as [sl Esl]. pose proof (Forall_lookup_1 _ _ _ _ Hs Esl) as [Hd _ _ _].
  assert (Hpos : 0 <= addr / 64) by (apply Z.div_pos; unfold u64 in *; lia).
  set (sl1 := mkSlot (shm_req_type op) (sl_resp_status sl) addr 8 value expected (sl_latency_ns sl) ts (sl_data sl)).
  assert (Hsub : shm_submit op addr 8 None value expected ts sl = Some sl1) by by destruct Hop as [-> | ->].
  assert (Hsl1 : slot_ok sl1) by (split; cbn; [done|done|unfold u64; lia|done]).
  assert (Hans : forall old lat m1 m' t', atomic_word sl1 (pg_memory s) = Some old ->
    pgas_serve calculate_latency (shm_req_type op) (hp_memory_size h / 64) sl1 (pg_memory s) (pg_stats s) =
      Some (slot_answer lat (le_split 8 old ++ drop 8 (sl_data sl1)) sl1, m', t', true) ->
    meta_only (addr / 64) m1 m' -> region_ok (hp_memory_size h / 64) m' ->
    exists r s', cxl_memsim_shm_request (poll_action calculate_latency) i op addr 8 None value expected ts s = Some (Some r, s') /\
      rs_status r = 0 /\ rs_old_value r = value /\ word_at (pg_memory s) addr = Some old /\ meta_only (addr / 64) m1 (pg_memory s')).
  { intros old lat m1 m' t' Hw E Hmeta Hm'. set (sl2 := slot_answer lat (le_split 8 old ++ drop 8 (sl_data sl1)) sl1) in *.
    assert (Hsl2 : slot_ok (slot_clear sl2)).
    { apply slot_answer_ok; [done|]. cbn [sl_data sl1]. rewrite length_app, length_drop, le_split_length. lia. }
    assert (Hcol : shm_collect op 8 response_empty (slot_clear sl2) =
      Some (mkMemSimResponse 0 lat value (replicate 64 0), slot_clear (slot_status CXL_SHM_RESP_NONE (slot_clear sl2)))) by by destruct Hop as [-> | ->].
    destruct (guest_request calculate_latency s h i op addr 8 value expected ts None sl sl1 sl2 _ m' t' true _ Hr Esl Hsub Hsl1
      ltac:(by destruct Hop as [-> | ->]) Hidx E Hm' Hsl2 ltac:(done) Hcol) as (s' & h' & Er & _ & Hmem & _); [split; apply Hsl2|].
    eexists _, s'. split; [exact Er|]. rewrite Hmem. split_and!; try done. }
  destruct Hop as [-> | ->].
  - destruct (serve_faa calculate_latency _ sl1 (pg_memory s) (pg_stats s) Hm Hsl1 ltac:(cbn; lia) atomic_end) as (old & lat & m1 & m' & t' & Hw & E & H1 & Hmeta & Hm').
    destruct (Hans old lat m1 m' t' Hw E Hmeta Hm') as (r & s' & Er & H2 & H3 & H4 & H5). exists old, r, s', m1. split_and!; try done.
  - destruct (serve_cas calculate_latency _ sl1 (pg_memory s) (pg_stats s) Hm Hsl1 ltac:(cbn; lia) atomic_end) as (old & lat & m1 & m' & t' & Hw & E & H1 & Hmeta & Hm').
    destruct (Hans old lat m1 m' t' Hw E Hmeta Hm') as (r & s' & Er & H2 & H3 & H4 & H5). exists old, r, s', m1. split_and!; try done.
    cbn [sl_expected sl_value sl_addr sl1] in H1. destruct (old =? expected) eqn:Eo; zify_bool.
    + rewrite decide_False by tauto. done.
    + rewrite decide_True by done. done.
Qed.
End Atomics.

(** The two sides disagree on where an atomic's old value is: the server puts it in the slot's
    data, the guest reads it from the slot's value.  A fetch-and-add adds correctly but always
    returns the guest its own operand, and a compare-and-swap swaps correctly but reports
    success exactly when the new value equals the expected one. *)
Theorem pgas_atomic_old_value_lost {D} `{Double D} (calculate_latency : Z -> Z -> D) (s : PgasServer) (h : cxl_shm_header)
  (i : nat) (addr value expected ts : Z)
  (Hr : ready s h) (Hi : (i < length (hp_slots h))%nat) (Hin : inside h addr 8) (Hv : u64 value) :
  exists old, word_at (pg_memory s) addr = Some old /\
    (exists s', cxl_memsim_atomic_faa (poll_action calculate_latency) i addr value ts s = Some (0, Some value, s') /\
       word_at (pg_memory s') addr = Some (old ⊞ value)) /\
    (exists s', cxl_memsim_atomic_cas (poll_action calculate_latency) i addr expected value ts s =
         Some (if value =? expected then 0 else 1, Some value, s') /\
       word_at (pg_memory s') addr = Some (if old =? expected then value else old)).
Proof.
  pose proof Hin as (Ha & _ & Hi8 & _). assert (Ho : 0 <= addr mod 64 < 64) by (apply Z.mod_pos_bound; lia).
  assert (Hpos : 0 <= addr / 64) by (apply Z.div_pos; unfold u64 in *; lia).
  assert (Hkeep : forall m1 m', meta_only (addr / 64) m1 m' -> word_at m' addr = word_at m1 addr).
  { intros m1 m' Hmo. unfold word_at. rewrite (meta_only_read (addr / 64) (pos_of addr) 8 m1 m'); [done|done|unfold pos_of, ENTRY_SIZE; lia|].
    left. unfold pos_of, ENTRY_SIZE. lia. }
  assert (Hword : forall v m m1, u64 v -> mem_write (pos_of addr) (le_split 8 v) m = Some m1 -> word_at m1 addr = Some v).
  { intros v m m1 Hu Hw. unfold word_at. pose proof (mem_read_write_same _ _ _ _ Hw) as Hrd. rewrite le_split_length in Hrd.
    change (Z.of_nat 8) with 8 in Hrd. rewrite Hrd. cbn [mbind option_bind]. by rewrite le_split8_roundtrip. }
  destruct (guest_atomic calculate_latency s h i addr value 0 ts Hr Hi Hin Hv CXL_OP_ATOMIC_FAA (or_introl eq_refl))
    as (old & r1 & s1 & m1 & E1 & _ & Hold1 & Hw1 & H1 & K1).
  destruct (guest_atomic calculate_latency s h i addr value expected ts Hr Hi Hin Hv CXL_OP_ATOMIC_CAS (or_intror eq_refl))
    as (old2 & r2 & s2 & m2 & E2 & _ & Hold2 & Hw2 & H2 & K2).
  assert (old2 = old) as -> by congruence. exists old. split; [done|]. split.
  - exists s1. unfold cxl_memsim_atomic_faa. rewrite E1. cbn [mbind option_bind]. rewrite Hold1. split; [done|].
    rewrite (Hkeep m1 _ K1). apply (Hword _ (pg_memory s)); [apply wrap64_range|exact H1].
  - exists s2. unfold cxl_memsim_atomic_cas. rewrite E2. cbn [mbind option_bind]. rewrite Hold2. split; [done|].
    rewrite (Hkeep m2 _ K2). destruct (old =? expected) eqn:Eo; zify_bool.
    + rewrite decide_False in H2 by tauto. by apply (Hword _ (pg_memory s)).
    + rewrite decide_True in H2 by done. by subst.
Qed.

(** ** Accesses that leave their line *)
Lemma store_elsewhere (idx off v : Z) (k p : nat) (m m' : list Z) :
  store_field idx off k v m = Some m' -> ~ (idx * ENTRY_SIZE + off <= Z.of_nat p < idx * ENTRY_SIZE + off + Z.of_nat k) -> m' !! p = m !! p.
Proof.
  unfold store_field. intros E Hp. rewrite (mem_write_lookup _ _ _ _ p E), decide_False; [done|]. by rewrite le_split_length.
Qed.

Lemma bump_elsewhere (idx off : Z) (p : nat) (m m' : list Z) :
  bump_field idx off m = Some m' -> ~ (idx * ENTRY_SIZE + off <= Z.of_nat p < idx * ENTRY_SIZE + off + 4) -> m' !! p = m !! p.
Proof.
  unfold bump_field. destruct (load_field idx off 4 m); cbn [mbind option_bind]; [|done]. intros E Hp. by apply (store_elsewhere _ _ _ _ p) in E.
Qed.

(** A write that runs over the end of its cacheline is answered with OK, but the rest does not
    reach the next line: it lands in the metadata of its own entry, here in the owner, and
    the data of every other line stays as it was. *)
Theorem pgas_straddling_write {D} `{Double D} (calculate_latency : Z -> Z -> D) (n : Z) (sl : cxl_shm_slot) (mem : list Z) (t : PgasStats) (b : Z)
  (Hm : region_ok n mem) (Hs : slot_ok sl) (Hidx : 0 <= sl_addr sl / 64 < n)
  (Hcross : 66 <= sl_addr sl mod 64 + Z.min (sl_size sl) 64)
  (Hb : sl_data sl !! Z.to_nat (65 - sl_addr sl mod 64) = Some b) :
  exists sl' m' t', pgas_serve calculate_latency CXL_SHM_REQ_WRITE n sl mem t = Some (sl', m', t', true) /\
    sl_resp_status sl' = CXL_SHM_RESP_OK /\ load_field (sl_addr sl / 64) off_owner_id 1 m' = Some b /\
    forall a, 0 <= a -> a / 64 <> sl_addr sl / 64 -> m' !! Z.to_nat (pos_of a) = mem !! Z.to_nat (pos_of a).
Proof.
  destruct (serve_write calculate_latency n sl mem t Hm Hs Hidx) as (lat & m1 & m' & t' & E & Hw & Hmeta & Hm').
  eexists _, m', t'. split; [exact E|]. split; [done|]. assert (Ho : 0 <= sl_addr sl mod 64 < 64) by (apply Z.mod_pos_bound; lia).
  assert (Hd := so_data sl Hs). pose proof (copy_range sl Hs) as Hc.
  assert (Hlen : length (take (Z.to_nat (Z.min (sl_size sl) 64)) (sl_data sl)) = Z.to_nat (Z.min (sl_size sl) 64)) by (rewrite length_take; lia).
  split.
  - set (p := Z.to_nat (sl_addr sl / 64 * ENTRY_SIZE + 65)).
    assert (H1 : m1 !! p = Some b).
    { rewrite (mem_write_lookup _ _ _ _ p Hw), decide_True by (rewrite Hlen; unfold p, pos_of, ENTRY_SIZE in *; lia).
      rewrite lookup_take_lt by (unfold p, pos_of, ENTRY_SIZE in *; lia). rewrite <- Hb. f_equal. unfold p, pos_of, ENTRY_SIZE in *. lia. }
    assert (H2 : m' !! p = m1 !! p).
    { revert E. unfold pgas_serve. cbn [Z.eqb Pos.eqb CXL_SHM_REQ_READ CXL_SHM_REQ_WRITE]. rewrite mem_read_Some by lia.
      change (Z.to_nat 0) with 0%nat. rewrite drop_0. cbn [mbind option_bind]. change (sl_addr sl / 64 * ENTRY_SIZE + sl_addr sl mod 64) with (pos_of (sl_addr sl)).
      rewrite Hw. cbn [mbind option_bind].
      destruct (bump_field _ _ m1) as [m2|] eqn:E2; cbn [mbind option_bind]; [|done].
      destruct (store_field _ _ _ _ m2) as [m3|] eqn:E3; cbn [mbind option_bind]; [|done].
      destruct (store_field _ _ _ _ m3) as [m4|] eqn:E4; cbn [mbind option_bind]; [|done].
      destruct (bump_field _ _ m4) as [m5|] eqn:E5; cbn [mbind option_bind]; [|done]. intros [= _ <- _].
      rewrite (bump_elsewhere _ _ p _ _ E5), (store_elsewhere _ _ _ _ p _ _ E4), (store_elsewhere _ _ _ _ p _ _ E3), (bump_elsewhere _ _ p _ _ E2);
        [done|..]; unfold p, ENTRY_SIZE, off_access_count, off_last_access_time, off_cache_state, off_version; lia. }
    rewrite H1 in H2. unfold load_field. destruct Hm' as [Hn Hl]. unfold ENTRY_SIZE, off_owner_id in *.
    rewrite mem_read_Some by nia. cbn [mbind option_bind]. change (Z.to_nat (Z.of_nat 1)) with 1%nat.
    fold p. rewrite (drop_S _ b p) by done. f_equal. change (le_combine [b] = b). cbn [le_combine]. lia.
  - intros a Ha Hne. destruct Hmeta as [_ Hk]. assert (Hma : 0 <= a mod 64 < 64) by (apply Z.mod_pos_bound; lia).
    assert (Hda : 0 <= a / 64) by (apply Z.div_pos; lia). unfold pos_of, ENTRY_SIZE in *. rewrite Hk by nia.
    rewrite (mem_write_lookup _ _ _ _ _ Hw), decide_False; [done|]. rewrite Hlen. unfold ENTRY_SIZE. nia.
Qed.

(** ** Races *)

(** Two workers may both load a slot's request before either clears it; each then carries it
    out.  A fetch-and-add of [value] adds it twice. *)
Theorem pgas_two_workers_add_twice {D} `{Double D} (calculate_latency : Z -> Z -> D) (n : Z) (sl : cxl_shm_slot) (mem : list Z) (t : PgasStats)
  (Hm : region_ok n mem) (Hs : slot_ok sl) (Hidx : 0 <= sl_addr sl / 64 < n) (Hin : sl_addr sl mod 64 + 8 <= 64) :
  exists old sl1 m1 t1 sl2 m2 t2, word_at mem (sl_addr sl) = Some old /\
    pgas_serve calculate_latency CXL_SHM_REQ_ATOMIC_FAA n sl mem t = Some (sl1, m1, t1, true) /\
    pgas_serve calculate_latency CXL_SHM_REQ_ATOMIC_FAA n sl1 m1 t1 = Some (sl2, m2, t2, true) /\
    word_at m2 (sl_addr sl) = Some (old ⊞ 2 * sl_value sl).
Proof.
  assert (Ho : 0 <= sl_addr sl mod 64 < 64) by (apply Z.mod_pos_bound; lia).
  assert (Hend : sl_addr sl + 8 <= n * 64) by (pose proof (Z.div_mod (sl_addr sl) 64); lia).
  assert (Hd := so_data sl Hs).
  destruct (serve_faa calculate_latency n sl mem t Hm Hs Hidx Hend) as (old & lat1 & k1 & m1 & t1 & Hw1 & E1 & Hk1 & Hmeta1 & Hm1).
  set (sl1 := slot_answer lat1 (le_split 8 old ++ drop 8 (sl_data sl)) sl) in *.
  assert (Hs1 : slot_ok sl1).
  { destruct Hs as [H1 H2 H3 H4]. split; try done. cbn. rewrite length_drop. lia. }
  destruct (serve_faa calculate_latency n sl1 m1 t1 Hm1 Hs1 Hidx Hend) as (old2 & lat2 & k2 & m2 & t2 & Hw2 & E2 & Hk2 & Hmeta2 & Hm2).
  assert (Hread : forall v m k m', u64 v -> mem_write (pos_of (sl_addr sl)) (le_split 8 v) m = Some k -> meta_only (sl_addr sl / 64) k m' ->
    word_at m' (sl_addr sl) = Some v).
  { intros v m k m' Hv Hk Hmeta. unfold word_at.
    rewrite (meta_only_read (sl_addr sl / 64) _ _ k m'); [|done|unfold pos_of, ENTRY_SIZE; lia|left; unfold pos_of, ENTRY_SIZE; lia].
    pose proof (mem_read_write_same _ _ _ _ Hk) as Hrd. rewrite le_split_length in Hrd. change (Z.of_nat 8) with 8 in Hrd.
    rewrite Hrd. cbn [mbind option_bind]. by rewrite le_split8_roundtrip. }
  assert (old2 = old ⊞ sl_value sl) as ->.
  { pose proof (Hread _ _ _ _ (wrap64_range _) Hk1 Hmeta1) as Hv. change (atomic_word sl1 m1) with (word_at m1 (sl_addr sl)) in Hw2. congruence. }
  eexists old, sl1, m1, t1, _, m2, t2. split; [exact Hw1|]. split; [exact E1|]. split; [exact E2|].
  rewrite (Hread _ _ _ _ (wrap64_range _) Hk2 Hmeta2). cbn [sl_value sl1 slot_answer]. f_equal. unfold wrap64.
  rewrite Zplus_mod_idemp_l. f_equal. lia.
Qed.

(** A request can be lost: the worker stores the status before it clears the request type, so a
    guest that takes the response at once and submits its next request has that request
    erased by the late store.  The slot is then idle, no poll answers it, and however long
    the guest waits it gives up. *)
Theorem pgas_request_lost {D} `{Double D} (calculate_latency : Z -> Z -> D) (s : PgasServer) (h : cxl_shm_header) (i k : nat)
  (op1 size1 op2 addr size value expected ts : Z) (data : option (list Z))
  (sl sl1 sl2 : cxl_shm_slot) (resp : CXLMemSimResponse)
  (Hr : ready s h) (Hi : (i < length (hp_slots h))%nat)
  (Hcollect : shm_collect op1 size1 response_empty sl = Some (resp, sl1))
  (Hsubmit : shm_submit op2 addr size data value expected ts sl1 = Some sl2) :
  exists s', put_slot i (slot_clear sl2) s = s' /\ spin (slot_silent i) (poll_action calculate_latency) k s' = Some (0%nat, s').
Proof.
  eexists. split; [reflexivity|]. pose proof Hr as [(Hh & Hrun & Hl & Hs & Hsz & Hm) Hidle].
  destruct (collect_idle _ _ _ _ _ _ Hcollect) as [_ Hst]. destruct (submit_fields _ _ _ _ _ _ _ _ _ Hsubmit) as (_ & _ & Hst2).
  set (s1 := put_slot i (slot_clear sl2) s). set (h1 := set_slots (<[i := slot_clear sl2]> (hp_slots h)) h).
  assert (Es1 : s1 = mkPgas (Some h1) (pg_memory s) true (pg_stats s)) by (unfold s1, put_slot; by rewrite Hh, Hrun).
  assert (Hsil : slot_silent i s1 = true).
  { unfold slot_silent. rewrite Es1. cbn. rewrite list_lookup_insert_eq by done. cbn. by rewrite Hst2, Hst. }
  assert (Hpoll : poll_action calculate_latency s1 = Some s1).
  { unfold poll_action, poll_pgas_shm_requests. rewrite Es1. cbn [pg_header pg_running negb hp_num_slots h1 set_slots hp_slots pg_memory pg_stats].
    replace (Z.to_nat (hp_num_slots h)) with (length (<[i := slot_clear sl2]> (hp_slots h))) by (rewrite length_insert; lia).
    rewrite (proj2 (Nat.ltb_ge _ _)) by lia. rewrite firstn_all, drop_all, poll_slots_idle.
    - cbn. by rewrite app_nil_r.
    - apply Forall_insert; [|done]. apply (Forall_impl _ _ _ Hidle). intros x [Hx _]. done. }
  induction k as [|k IH]; cbn; rewrite Hsil; [done|]. rewrite Hpoll. cbn. exact IH.
Qed.

(** ** Start *)
Lemma init_entries_length (k : nat) (i : Z) : Z.of_nat (length (init_entries k i)) = Z.of_nat k * ENTRY_SIZE.
Proof.
  revert i. induction k as [|k IH]; intros i; [done|]. cbn [init_entries].
  rewrite !length_app, !length_replicate, le_split_length. specialize (IH (i + 1)). unfold ENTRY_SIZE in *. cbn [length]. lia.
Qed.

(** The bytes of entry [j]. *)
Lemma init_entries_split (k j : nat) (i : Z) :
  (j < k)%nat -> exists l1 l2, init_entries k i = l1 ++ init_entries 1 (i + Z.of_nat j) ++ l2 /\ Z.of_nat (length l1) = Z.of_nat j * ENTRY_SIZE.
Proof.
  revert k i. induction j as [|j IH]; intros [|k] i Hj; [lia| |lia|].
  - exists [], (init_entries k (i + 1)). cbn [init_entries app]. rewrite Z.add_0_r, <- !app_assoc. done.
  - destruct (IH k (i + 1)) as (l1 & l2 & E & L); [lia|].
    exists (init_entries 1 i ++ l1), l2. split.
    + cbn [init_entries]. rewrite E. replace (i + 1 + Z.of_nat j) with (i + Z.of_nat (S j)) by lia. cbn [init_entries].
      rewrite <- !app_assoc. done.
    + rewrite length_app, Nat2Z.inj_add, L, init_entries_length. unfold ENTRY_SIZE. lia.
Qed.

(** Initialisation: a server whose system calls succeed starts with all slots idle and with
    one entry per whole cacheline, whose data is zero, whose owner is 255 and whose physical
    address is that of the line. *)
Theorem pgas_init_ready (size : Z) (s : PgasServer) (Hrun : pg_running s = true) (Hsize : 0 <= size < 2 ^ 64) :
  exists s1 h, init_pgas_shm true true true size s = (true, s1) /\ ready s1 h /\ hp_memory_size h = size /\
    hp_magic h = CXL_SHM_MAGIC /\ hp_server_ready h = false /\
    forall j, 0 <= j < size / 64 -> load_field j off_owner_id 1 (pg_memory s1) = Some 255 /\
      load_field j off_physical_addr 8 (pg_memory s1) = Some (j * 64) /\
      mem_read (pos_of (j * 64)) 64 (pg_memory s1) = Some (replicate 64 0).
Proof.
  assert (Hn : 0 <= size / 64 < 2 ^ 58).
  { split; [apply Z.div_pos; lia|]. apply Z.div_lt_upper_bound; lia. }
  unfold init_pgas_shm. cbn [negb orb]. eexists _, (mkPgasHeader CXL_SHM_MAGIC 1 CXL_SHM_MAX_SLOTS false 1 0 size (size / 64) 1 ENTRY_SIZE
    (replicate (Z.to_nat CXL_SHM_MAX_SLOTS) (mkSlot 0 0 0 0 0 0 0 0 (replicate 64 0)))). split; [reflexivity|].
  split; [|split; [done|split; [done|split; [done|]]]].
  - repeat split; try done; cbn [pg_memory hp_slots hp_memory_size]; try lia.
    + apply Forall_replicate. split; (done || unfold u64; cbn; lia).
    + rewrite init_entries_length, Z2Nat.id by lia. done.
    + by apply Forall_replicate.
  - intros j Hj. cbn [pg_memory].
    destruct (init_entries_split (Z.to_nat (size / 64)) (Z.to_nat j) 0) as (l1 & l2 & E & L); [lia|]. rewrite E.
    rewrite Z2Nat.id, Z.add_0_l in * by lia. assert (Hlen1 : length l1 = Z.to_nat (j * ENTRY_SIZE)) by (unfold ENTRY_SIZE in *; lia).
    assert (Hread : forall off k bs, 0 <= off -> mem_read off (Z.of_nat k) (init_entries 1 j) = Some bs -> 
      mem_read (j * ENTRY_SIZE + off) (Z.of_nat k) (l1 ++ init_entries 1 j ++ l2) = Some bs).
    { intros off k bs Hoff Hr. unfold mem_read in *. case_decide as Hd; [|done]. injection Hr as <-.
      rewrite decide_True by (rewrite !length_app; unfold ENTRY_SIZE in *; lia). f_equal.
      rewrite drop_app_ge by (unfold ENTRY_SIZE in *; lia).
      replace (Z.to_nat (j * ENTRY_SIZE + off) - length l1)%nat with (Z.to_nat off) by (unfold ENTRY_SIZE in *; lia).
      rewrite drop_app_le by lia. rewrite take_app_le; [done|]. rewrite length_drop. lia. }
    split_and!.
    + unfold load_field, off_owner_id. rewrite (Hread 65 1%nat [255]); [done|lia|done].
    + unfold load_field, off_physical_addr. rewrite (Hread 88 8%nat (le_split 8 (wrap64 (j * 64)))); [|lia|done].
      cbn [mbind option_bind]. rewrite le_split8_roundtrip by apply wrap64_range. rewrite wrap64_small; [done|]. unfold u64. lia.
    + unfold pos_of. rewrite Z.div_mul, Z.mod_mul by lia. apply (Hread 0 64%nat); [lia|done].
Qed.

(** ** Instances *)
Definition demo_pgas : PgasServer :=
  (init_pgas_shm true true true 256 (mkPgas None [] true (mkPgasStats 0 0 0 0 0))).2.

Definition demo_pgas_header : cxl_shm_header :=
  mkPgasHeader CXL_SHM_MAGIC 1 CXL_SHM_MAX_SLOTS false 1 0 256 4 1 ENTRY_SIZE
    (replicate (Z.to_nat CXL_SHM_MAX_SLOTS) (mkSlot 0 0 0 0 0 0 0 0 (replicate 64 0))).

Lemma demo_pgas_ready : ready demo_pgas demo_pgas_header.
Proof.
  repeat split; try done; try (vm_compute; congruence).
  - apply Forall_replicate. split; (done || unfold u64; cbn; lia).
  - by apply Forall_replicate.
Qed.

Definition demo_pgas_latency (_ _ : Z) : spec_float := d_of_Z 0.

Lemma pgas_init_ready_witness :
  exists s1 h, init_pgas_shm true true true 256 (mkPgas None [] true (mkPgasStats 0 0 0 0 0)) = (true, s1) /\ ready s1 h.
Proof.
  destruct (pgas_init_ready 256 (mkPgas None [] true (mkPgasStats 0 0 0 0 0))) as (s1 & h & E & Hr & _).
  - reflexivity.
  - lia.
  - exists s1, h. split; [exact E|exact Hr].
Defined.

Lemma pgas_poll_answers_witness :
  exists k s' h', poll_pgas_shm_requests demo_pgas_latency demo_pgas = Some (k, s') /\ pgas_ok s' h' /\
    Forall2 (polled 4) (hp_slots demo_pgas_header) (hp_slots h').
Proof. apply (pgas_poll_answers demo_pgas_latency demo_pgas demo_pgas_header). apply demo_pgas_ready. Defined.


Lemma pgas_atomic_old_value_lost_witness :
  exists old, word_at (pg_memory demo_pgas) 8 = Some old /\
    (exists s', cxl_memsim_atomic_faa (poll_action demo_pgas_latency) 3 8 5 1 demo_pgas = Some (0, Some 5, s') /\
       word_at (pg_memory s') 8 = Some (old ⊞ 5)) /\
    (exists s', cxl_memsim_atomic_cas (poll_action demo_pgas_latency) 3 8 0 5 1 demo_pgas = Some (1, Some 5, s') /\
       word_at (pg_memory s') 8 = Some (if old =? 0 then 5 else old)).
Proof.
  apply (pgas_atomic_old_value_lost demo_pgas_latency demo_pgas demo_pgas_header 3 8 5 0 1).
  - apply demo_pgas_ready.
  - vm_compute. lia.
  - split; [unfold u64; lia|]. split; [lia|]. split; vm_compute; congruence.
  - unfold u64. lia.
Defined.

Definition demo_slot (req addr size : Z) : cxl_shm_slot := mkSlot req 0 addr size 5 0 0 1 (replicate 64 7).

Lemma demo_slot_ok (req addr size : Z) : u64 addr -> u64 size -> slot_ok (demo_slot req addr size).
Proof. intros Ha Hz. by split. Qed.

Lemma pgas_straddling_write_witness :
  exists sl' m' t', pgas_serve demo_pgas_latency CXL_SHM_REQ_WRITE 4 (demo_slot CXL_SHM_REQ_WRITE 60 8) (pg_memory demo_pgas) (mkPgasStats 0 0 0 0 0) =
      Some (sl', m', t', true) /\ sl_resp_status sl' = CXL_SHM_RESP_OK /\ load_field 0 off_owner_id 1 m' = Some 7.
Proof.
  destruct (pgas_straddling_write demo_pgas_latency 4 (demo_slot CXL_SHM_REQ_WRITE 60 8) (pg_memory demo_pgas) (mkPgasStats 0 0 0 0 0) 7)
    as (sl' & m' & t' & E & H1 & H2 & _).
  - apply demo_pgas_ready.
  - apply demo_slot_ok; unfold u64; lia.
  - split; vm_compute; congruence.
  - vm_compute. congruence.
  - reflexivity.
  - exists sl', m', t'. split; [exact E|]. split; [exact H1|exact H2].
Defined.

Lemma pgas_two_workers_add_twice_witness :
  exists old sl1 m1 t1 sl2 m2 t2, word_at (pg_memory demo_pgas) 8 = Some old /\
    pgas_serve demo_pgas_latency CXL_SHM_REQ_ATOMIC_FAA 4 (demo_slot 3 8 8) (pg_memory demo_pgas) (mkPgasStats 0 0 0 0 0) = Some (sl1, m1, t1, true) /\
    pgas_serve demo_pgas_latency CXL_SHM_REQ_ATOMIC_FAA 4 sl1 m1 t1 = Some (sl2, m2, t2, true) /\ word_at m2 8 = Some (old ⊞ 2 * 5).
Proof.
  apply (pgas_two_workers_add_twice demo_pgas_latency 4 (demo_slot 3 8 8) (pg_memory demo_pgas) (mkPgasStats 0 0 0 0 0)).
  - apply demo_pgas_ready.
  - apply demo_slot_ok; unfold u64; lia.
  - split; vm_compute; congruence.
  - vm_compute. congruence.
Defined.

Lemma pgas_request_lost_witness :
  exists resp sl1 sl2 s', shm_collect CXL_OP_FENCE 0 response_empty (slot_answer 0 (replicate 64 7) (demo_slot 5 0 0)) = Some (resp, sl1) /\
    shm_submit CXL_OP_FENCE 0 0 None 0 0 2 sl1 = Some sl2 /\ put_slot 3 (slot_clear sl2) demo_pgas = s' /\
    spin (slot_silent 3) (poll_action demo_pgas_latency) 20 s' = Some (0%nat, s').
Proof.
  edestruct (pgas_request_lost demo_pgas_latency demo_pgas demo_pgas_header 3 20 CXL_OP_FENCE 0 CXL_OP_FENCE 0 0 0 0 2 None) as (s' & E & H).
  - apply demo_pgas_ready.
  - vm_compute. lia.
  - instantiate (3 := slot_answer 0 (replicate 64 7) (demo_slot 5 0 0)). reflexivity.
  - reflexivity.
  - eexists _, _, _, s'. split; [reflexivity|]. split; [reflexivity|]. split; [exact E|exact H].
Defined.
