(* ===== verification/MpiPool.v ===== *)
(** * The memory pool of the MPI shim ([workloads/gromacs/mpi_cxl_shim.c])

    All ranks of an MPI program map one DAX device or shared-memory segment.  At its start are a
    header and a mailbox for each of 256 ranks; the rest is handed out by an allocator that only
    moves an offset.  A pointer is shared as its distance from the base of the mapping
    ([cxl_rptr_t]).  Addresses are [Z], 0 is [NULL].  Opening and mapping files are arguments
    ([system]).  [None] of an operation is an access outside of the mapping.

    [rptr_roundtrip] is about relative pointers between mappings at different addresses.  The
    allocator is an atomic addition, a test and an atomic subtraction, interleaved in any way:
    [pool_grants_disjoint] shows that regions are disjoint while the requests fit,
    [pool_rollback_overlaps] that they are not once one fails. *)
From S2P Require Import Prelude.
#[local] Open Scope Z_scope.

Definition DEFAULT_CXL_SIZE : Z := 4 * 1024 * 1024 * 1024.
Definition CXL_ALIGNMENT : Z := 4096.
Definition CXL_FIXED_ADDR : Z := 2 ^ 44.
Definition CXL_MAX_RANKS : Z := 256.
Definition CXL_MSG_QUEUE_SIZE : Z := 1024.
Definition CXL_MSG_MAX_INLINE_SIZE : Z := 4096.
Definition CXL_RPTR_NULL : Z := 2 ^ 64 - 1.
Definition CXL_SHM_MAGIC : Z := 0x43584C534D454D00.
Definition CXL_SHM_VERSION : Z := 1.

(** ** Copying *)

(** [cxl_safe_memcpy]: eight bytes at a time, then one. *)
Fixpoint safe_memcpy (fuel : nat) (dst src : list Z) (n : Z) : list Z :=
  match fuel with
  | O => dst
  | S fuel' =>
      if 8 <=? n then take 8 src ++ safe_memcpy fuel' (drop 8 dst) (drop 8 src) (n - 8)
      else if 0 <? n then take 1 src ++ safe_memcpy fuel' (drop 1 dst) (drop 1 src) (n - 1)
      else dst
  end.

Definition cxl_safe_memcpy (dst src : list Z) (n : Z) : list Z := safe_memcpy (S (Z.to_nat n)) dst src n.

(** ** The process's view and the shared structures *)
Record cxl_mem := mkCxlMem {
  cm_base : Z;
  cm_size : Z;
  cm_used : Z;
  cm_initialized : bool;
  cm_dax : bool;                       (* type *)
  cm_my_rank : Z;
  cm_world_size : Z;
  cm_comm_enabled : bool
}.

Definition cxl_mem_new : cxl_mem := mkCxlMem 0 0 0 false false (-1) 0 false.

Record cxl_shm_header := mkShmHeader {
  sh_magic : Z;
  sh_version : Z;
  sh_num_ranks : Z;
  sh_alloc_offset : Z;
  sh_total_size : Z;
  sh_initialized : Z;
  sh_barrier_count : Z;
  sh_barrier_sense : Z;
  sh_phase : Z;
  sh_max_ranks : Z;
  sh_data_rptr : list Z
}.

Definition CXL_MSG_EMPTY : Z := 0.
Definition CXL_MSG_READY : Z := 1.
Definition CXL_MSG_READING : Z := 2.
Definition CXL_MSG_CONSUMED : Z := 3.

Record cxl_msg := mkMsg {
  mg_state : Z;
  mg_source_rank : Z;
  mg_tag : Z;
  mg_data_rptr : Z;
  mg_data_size : Z;
  mg_inline_data : list Z;
  mg_is_inline : bool
}.

Record cxl_rank_mailbox := mkMailbox {
  mb_head : Z;
  mb_tail : Z;
  mb_active : Z;
  mb_rank : Z;
  mb_messages : list cxl_msg
}.

(** The structures at the start of the mapping, and the bytes behind them by their distance from
    the base. *)
Record shared := mkShared {
  sd_header : cxl_shm_header;
  sd_mailboxes : list cxl_rank_mailbox;
  sd_data : gmap Z Z
}.

(** Sizes of the structures, with their alignment to cache lines. *)
Definition sizeof_msg : Z := 4160.
Definition sizeof_mailbox : Z := 128 + CXL_MSG_QUEUE_SIZE * sizeof_msg.
Definition sizeof_header : Z := 2112.
Definition structures_size : Z := sizeof_header + CXL_MAX_RANKS * sizeof_mailbox.

(** [(size + CXL_ALIGNMENT - 1) & ~(CXL_ALIGNMENT - 1)] in [size_t]. *)
Definition align_up (size : Z) : Z := Z.land (size ⊞ (CXL_ALIGNMENT - 1)) (Z.lnot (CXL_ALIGNMENT - 1)).

(** ** Relative pointers *)
Definition ptr_to_rptr (g : cxl_mem) (ptr : Z) : Z :=
  if (ptr =? 0) || (cm_base g =? 0) then CXL_RPTR_NULL
  else if (ptr <? cm_base g) || (cm_base g ⊞ cm_size g <=? ptr) then CXL_RPTR_NULL
  else ptr - cm_base g.

Definition rptr_to_ptr (g : cxl_mem) (rptr : Z) : Z :=
  if (rptr =? CXL_RPTR_NULL) || (cm_base g =? 0) then 0
  else if cm_size g <=? rptr then 0
  else cm_base g ⊞ rptr.

Definition is_cxl_ptr (g : cxl_mem) (ptr : Z) : bool :=
  if (ptr =? 0) || (cm_base g =? 0) || negb (cm_initialized g) then false
  else (cm_base g <=? ptr) && (ptr <? cm_base g ⊞ cm_size g).

(** ** Initialisation *)

(** What the system answers. *)
Record system := mkSystem {
  sy_dax_path : bool;                  (* CXL_DAX_PATH is set and not empty *)
  sy_mem_size : option Z;              (* CXL_MEM_SIZE *)
  sy_dax_open : bool;
  sy_dax_sysfs : Z;                    (* size in sysfs, 0 if it cannot be read *)
  sy_dax_stat : option Z;
  sy_dax_map : option Z;               (* address of the first of the three mappings that works *)
  sy_shm_open : option (option Z);     (* an existing segment, and its size *)
  sy_shm_create : bool;                (* creating and resizing one works *)
  sy_shm_map : option Z;
  sy_reset : bool;                     (* CXL_DAX_RESET *)
  sy_direct : bool                     (* CXL_DIRECT *)
}.

Definition dax_size (y : system) : Z :=
  if sy_dax_sysfs y =? 0
  then let s := default 0 (sy_dax_stat y) in if s =? 0 then DEFAULT_CXL_SIZE else s
  else sy_dax_sysfs y.

(** A failed [mmap] leaves its value in the base. *)
Inductive mapping := NotOpened | NotMapped | Mapped (base size : Z) (dax : bool).

Definition MAP_FAILED : Z := 2 ^ 64 - 1.

Definition map_as (base : option Z) (size : Z) (dax : bool) : mapping := match base with Some b => Mapped b size dax | None => NotMapped end.

Definition map_shm (y : system) (cxl_size : Z) : mapping :=
  match sy_shm_open y with
  | Some st => map_as (sy_shm_map y) (default cxl_size st) false
  | None => if sy_shm_create y then map_as (sy_shm_map y) cxl_size false else NotOpened
  end.

(** After a failed mapping of the device the segment takes its size. *)
Definition map_memory (y : system) : mapping :=
  let cxl_size := default DEFAULT_CXL_SIZE (sy_mem_size y) in
  if sy_dax_path y && sy_dax_open y then
    match sy_dax_map y with
    | Some b => Mapped b (dax_size y) true
    | None => match map_shm y (dax_size y) with NotOpened => NotMapped | m => m end
    end
  else map_shm y cxl_size.

Definition clear_mailbox (i : nat) (m : cxl_rank_mailbox) : cxl_rank_mailbox :=
  mkMailbox 0 0 0 (Z.of_nat i)
    ((fun s => mkMsg CXL_MSG_EMPTY (mg_source_rank s) (mg_tag s) (mg_data_rptr s) (mg_data_size s) (mg_inline_data s) (mg_is_inline s)) <$> mb_messages m).

Definition fresh_structures (cxl_size : Z) (s : shared) : shared :=
  mkShared
    (mkShmHeader CXL_SHM_MAGIC CXL_SHM_VERSION 0 (align_up structures_size) cxl_size 1 0 0 0 CXL_MAX_RANKS
       (replicate (Z.to_nat CXL_MAX_RANKS) CXL_RPTR_NULL))
    (imap clear_mailbox (sd_mailboxes s)) (sd_data s).

(** Writing the structures needs a mapping that holds them; nothing tests that. *)
Definition init_cxl_memory (y : system) (g : cxl_mem) (s : shared) : option (cxl_mem * shared) :=
  let attach base size dax s := (mkCxlMem base size (sh_alloc_offset (sd_header s)) true dax (cm_my_rank g) (cm_world_size g) (cm_comm_enabled g), s) in
  if cm_initialized g then Some (g, s)
  else
    match map_memory y with
    | NotOpened => Some (g, s)
    | NotMapped => Some (mkCxlMem MAP_FAILED (cm_size g) (cm_used g) false (cm_dax g) (cm_my_rank g) (cm_world_size g) (cm_comm_enabled g), s)
    | Mapped base size dax =>
        if negb (sh_magic (sd_header s) =? CXL_SHM_MAGIC) || sy_reset y then
          if size <? structures_size then None else Some (attach base size dax (fresh_structures size s))
        else Some (attach base size dax s)
    end.

(** ** Ranks *)
Definition set_header (h : cxl_shm_header) (s : shared) : shared := mkShared h (sd_mailboxes s) (sd_data s).

(** What rank 0 does for a new run. *)
Definition reset_collectives (world_size : Z) (h : cxl_shm_header) : cxl_shm_header :=
  mkShmHeader (sh_magic h) (sh_version h) 0 (sh_alloc_offset h) (sh_total_size h) (sh_initialized h) 0 0 0 (wrap32 world_size)
    (replicate (Z.to_nat CXL_MAX_RANKS) CXL_RPTR_NULL).

Definition add_rank (n : Z) (h : cxl_shm_header) : cxl_shm_header :=
  mkShmHeader (sh_magic h) (sh_version h) (wrap32 (sh_num_ranks h + n)) (sh_alloc_offset h) (sh_total_size h) (sh_initialized h)
    (sh_barrier_count h) (sh_barrier_sense h) (sh_phase h) (sh_max_ranks h) (sh_data_rptr h).

(** The positions start again at 0; the states of the slots stay. *)
Definition open_mailbox (rank : Z) (m : cxl_rank_mailbox) : cxl_rank_mailbox := mkMailbox 0 0 1 rank (mb_messages m).

(** [None]: a rank other than 0 waits for the header to show the size of the world. *)
Definition cxl_register_rank (y : system) (rank world_size : Z) (g : cxl_mem) (s : shared) : option (cxl_mem * shared) :=
  if negb (cm_initialized g) || (rank <? 0) || (CXL_MAX_RANKS <=? rank) then Some (g, s)
  else
    let enter h := (mkCxlMem (cm_base g) (cm_size g) (cm_used g) true (cm_dax g) rank world_size (sy_direct y || cm_dax g),
                    mkShared (add_rank 1 h) (alter (open_mailbox rank) (Z.to_nat rank) (sd_mailboxes s)) (sd_data s)) in
    if rank =? 0 then Some (enter (reset_collectives world_size (sd_header s)))
    else if sh_max_ranks (sd_header s) =? wrap32 world_size then Some (enter (sd_header s)) else None.

(** [MPI_Finalize], up to the call of the library. *)
Definition close_mailbox (m : cxl_rank_mailbox) : cxl_rank_mailbox := mkMailbox (mb_head m) (mb_tail m) 0 (mb_rank m) (mb_messages m).

Definition finalize_rank (g : cxl_mem) (s : shared) : shared :=
  if cm_initialized g && (0 <=? cm_my_rank g)
  then mkShared (add_rank (-1) (sd_header s)) (alter close_mailbox (Z.to_nat (cm_my_rank g)) (sd_mailboxes s)) (sd_data s) else s.

Definition finalize_local (g : cxl_mem) : cxl_mem :=
  if cm_initialized g then mkCxlMem (cm_base g) (cm_size g) (cm_used g) false (cm_dax g) (-1) (cm_world_size g) false else g.

(** ** The allocator *)
Definition set_offset (o : Z) (h : cxl_shm_header) : cxl_shm_header :=
  mkShmHeader (sh_magic h) (sh_version h) (sh_num_ranks h) o (sh_total_size h) (sh_initialized h)
    (sh_barrier_count h) (sh_barrier_sense h) (sh_phase h) (sh_max_ranks h) (sh_data_rptr h).

Definition set_used (u : Z) (g : cxl_mem) : cxl_mem :=
  mkCxlMem (cm_base g) (cm_size g) u (cm_initialized g) (cm_dax g) (cm_my_rank g) (cm_world_size g) (cm_comm_enabled g).

(** [allocate_cxl_memory] of an initialised process with nothing in between. *)
Definition pool_allocate (size : Z) (g : cxl_mem) (s : shared) : Z * cxl_mem * shared :=
  let a := align_up size in
  let old := sh_alloc_offset (sd_header s) in
  let s1 := set_header (set_offset (old ⊞ a) (sd_header s)) s in
  if cm_size g <? old ⊞ a then (0, g, set_header (set_offset (sh_alloc_offset (sd_header s1) ⊟ a) (sd_header s1)) s1)
  else (cm_base g ⊞ old, set_used (old ⊞ a) g, s1).

Definition allocate_cxl_memory (y : system) (size : Z) (g : cxl_mem) (s : shared) : option (Z * cxl_mem * shared) :=
  if cm_initialized g then Some (pool_allocate size g s)
  else '(g1, s1) ← init_cxl_memory y g s; if cm_initialized g1 then Some (pool_allocate size g1 s1) else Some (0, g1, s1).

Definition allocate_cxl_rptr (y : system) (size : Z) (g : cxl_mem) (s : shared) : option (Z * cxl_mem * shared) :=
  '(ptr, g1, s1) ← allocate_cxl_memory y size g s; Some (ptr_to_rptr g1 ptr, g1, s1).

(** The same, with the atomic steps of all processes interleaved: each is idle or has added its
    aligned size; [pl_granted] are the regions handed out, [pl_asked] what was asked for so far. *)
Inductive alloc_pc := Idle | Added (old asked : Z).

Record pool := mkPool {
  pl_offset : Z;
  pl_procs : list alloc_pc;
  pl_granted : list (Z * Z);
  pl_asked : Z
}.

Inductive pool_step (limit : Z) : pool -> pool -> Prop :=
| FetchAdd o ps gs t i size :
    0 <= size < 2 ^ 64 -> ps !! i = Some Idle ->
    pool_step limit (mkPool o ps gs t) (mkPool (o ⊞ align_up size) (<[i := Added o (align_up size)]> ps) gs (t + align_up size))
| Granted o ps gs t i old a :
    ps !! i = Some (Added old a) -> old ⊞ a <= limit ->
    pool_step limit (mkPool o ps gs t) (mkPool o (<[i := Idle]> ps) ((old, a) :: gs) t)
| RolledBack o ps gs t i old a :
    ps !! i = Some (Added old a) -> limit < old ⊞ a ->
    pool_step limit (mkPool o ps gs t) (mkPool (o ⊟ a) (<[i := Idle]> ps) gs t).

(** ** Copying *)
Lemma safe_memcpy_spec (fuel : nat) (dst src : list Z) (n : Z) :
  n < Z.of_nat fuel -> 0 <= n -> n <= Z.of_nat (length src) -> n <= Z.of_nat (length dst) ->
  safe_memcpy fuel dst src n = take (Z.to_nat n) src ++ drop (Z.to_nat n) dst.
Proof.
  revert dst src n. induction fuel as [|fuel IH]; intros dst src n Hf Hn Hs Hd; [lia|]. cbn [safe_memcpy].
  destruct (Z.leb_spec 8 n) as [H8|H8]; [|destruct (Z.ltb_spec 0 n) as [H0|H0]].
  - rewrite IH by (rewrite ?length_drop; lia). rewrite drop_drop, app_assoc. f_equal; [|f_equal; lia]. rewrite <- (take_drop 8 (take (Z.to_nat n) src)), take_take, skipn_firstn_comm.
    f_equal; [f_equal; lia|f_equal; lia].
  - rewrite IH by (rewrite ?length_drop; lia). rewrite drop_drop, app_assoc. f_equal; [|f_equal; lia]. rewrite <- (take_drop 1 (take (Z.to_nat n) src)), take_take, skipn_firstn_comm.
    f_equal; [f_equal; lia|f_equal; lia].
  - assert (n = 0) as -> by lia. done.
Qed.

Lemma cxl_safe_memcpy_spec (dst src : list Z) (n : Z) :
  0 <= n -> n <= Z.of_nat (length src) -> n <= Z.of_nat (length dst) -> cxl_safe_memcpy dst src n = take (Z.to_nat n) src ++ drop (Z.to_nat n) dst.
Proof. intros. apply safe_memcpy_spec; lia. Qed.

(** ** Alignment *)
Lemma align_up_spec (size : Z) : 0 <= size <= 2 ^ 64 - CXL_ALIGNMENT -> align_up size = (size + 4095) / 4096 * 4096.
Proof.
  unfold CXL_ALIGNMENT. intros Hs. unfold align_up. rewrite wrap64_small by (unfold u64, CXL_ALIGNMENT; lia). change (CXL_ALIGNMENT - 1) with (Z.ones 12).
  rewrite <- Z.ldiff_land, Z.ldiff_ones_r, Z.shiftl_mul_pow2, Z.shiftr_div_pow2 by lia. done.
Qed.

Lemma align_up_range (size : Z) : 0 <= align_up size < 2 ^ 64.
Proof.
  unfold align_up. change (CXL_ALIGNMENT - 1) with (Z.ones 12). rewrite <- Z.ldiff_land, Z.ldiff_ones_r, Z.shiftl_mul_pow2, Z.shiftr_div_pow2 by lia.
  pose proof (wrap64_range (size + Z.ones 12)) as Hw. unfold u64 in Hw. change (2 ^ 12) with 4096. Z.to_euclidean_division_equations. lia.
Qed.

Lemma align_up_enough (size : Z) : 0 <= size <= 2 ^ 64 - CXL_ALIGNMENT -> size <= align_up size < size + 4096.
Proof. intros Hs. rewrite align_up_spec by done. Z.to_euclidean_division_equations. lia. Qed.

(** ** Relative pointers *)

(** The mapping is somewhere below the top of the address space. *)
Definition mapped (g : cxl_mem) : Prop := 0 < cm_base g /\ 0 <= cm_size g /\ cm_base g + cm_size g < 2 ^ 64.

Definition in_mapping (g : cxl_mem) (p : Z) : bool := (cm_base g <=? p) && (p <? cm_base g + cm_size g).

(** A pointer that one process shares as a relative pointer is, for a process that has mapped the
    same memory at any other address, a pointer to the same byte; whatever lies outside of the
    mapping becomes [NULL], and a relative pointer is a pointer back to the same relative pointer. *)
Theorem rptr_roundtrip (g1 g2 : cxl_mem) (p r : Z) (H1 : mapped g1) (H2 : mapped g2) (Hs : cm_size g1 = cm_size g2) (Hp : u64 p) (Hr : u64 r) :
  rptr_to_ptr g2 (ptr_to_rptr g1 p) = (if in_mapping g1 p then cm_base g2 + (p - cm_base g1) else 0)
  /\ ptr_to_rptr g1 (rptr_to_ptr g1 r) = (if r <? cm_size g1 then r else CXL_RPTR_NULL)
  /\ (cm_initialized g1 = true -> is_cxl_ptr g1 p = in_mapping g1 p).
Proof.
  destruct H1 as (Hb1 & Hz1 & Ht1), H2 as (Hb2 & Hz2 & Ht2). unfold u64 in *.
  unfold rptr_to_ptr, ptr_to_rptr, is_cxl_ptr, in_mapping, CXL_RPTR_NULL. rewrite (wrap64_small (cm_base g1 + cm_size g1)) by (unfold u64; lia).
  rewrite !(proj2 (Z.eqb_neq (cm_base g1) 0)), (proj2 (Z.eqb_neq (cm_base g2) 0)), !orb_false_r by lia. split_and!.
  - destruct (Z.eqb_spec p 0) as [->|Hp0]; cbn [orb].
    { rewrite Z.eqb_refl. cbn [orb]. by rewrite (proj2 (Z.leb_gt (cm_base g1) 0)) by lia. }
    destruct (Z.ltb_spec p (cm_base g1)); cbn [orb].
    { rewrite Z.eqb_refl. cbn [orb]. by rewrite (proj2 (Z.leb_gt (cm_base g1) p)) by lia. }
    rewrite (proj2 (Z.leb_le (cm_base g1) p)) by lia. cbn [andb]. destruct (Z.leb_spec (cm_base g1 + cm_size g1) p).
    { rewrite Z.eqb_refl. cbn [orb]. by rewrite (proj2 (Z.ltb_ge p _)) by lia. }
    rewrite (proj2 (Z.eqb_neq _ _)), (proj2 (Z.leb_gt (cm_size g2) _)), (proj2 (Z.ltb_lt p _)) by lia. apply wrap64_small. unfold u64. lia.
  - destruct (Z.eqb_spec r (2 ^ 64 - 1)) as [->|Hr0]; [by rewrite (proj2 (Z.ltb_ge (2 ^ 64 - 1) (cm_size g1))) by lia|]. cbn [orb].
    destruct (Z.leb_spec (cm_size g1) r); [by rewrite (proj2 (Z.ltb_ge r (cm_size g1))) by lia|].
    rewrite (wrap64_small (cm_base g1 + r)) by (unfold u64; lia).
    rewrite (proj2 (Z.eqb_neq (cm_base g1 + r) 0)), (proj2 (Z.ltb_ge (cm_base g1 + r) _)), (proj2 (Z.leb_gt _ (cm_base g1 + r))), (proj2 (Z.ltb_lt r _)) by lia. cbn. lia.
  - intros ->. destruct (Z.eqb_spec p 0) as [->|]; cbn; [by rewrite (proj2 (Z.leb_gt _ _)) by lia|done].
Qed.

Lemma rptr_roundtrip_witness :
  rptr_to_ptr (mkCxlMem CXL_FIXED_ADDR 8192 0 true true 1 2 true) (ptr_to_rptr (mkCxlMem 65536 8192 0 true true 0 2 true) 69632) = CXL_FIXED_ADDR + 4096
  /\ ptr_to_rptr (mkCxlMem 65536 8192 0 true true 0 2 true) (rptr_to_ptr (mkCxlMem 65536 8192 0 true true 0 2 true) 9000) = CXL_RPTR_NULL
  /\ (true = true -> is_cxl_ptr (mkCxlMem 65536 8192 0 true true 0 2 true) 69632 = true).
Proof.
  apply (rptr_roundtrip (mkCxlMem 65536 8192 0 true true 0 2 true) (mkCxlMem CXL_FIXED_ADDR 8192 0 true true 1 2 true) 69632 9000);
    unfold mapped, u64, CXL_FIXED_ADDR; cbn; lia.
Defined.

(** ** Regions *)
Definition apart (r1 r2 : Z * Z) : Prop := r1.1 + r1.2 <= r2.1 \/ r2.1 + r2.2 <= r1.1.

Fixpoint pairwise (rs : list (Z * Z)) : Prop := match rs with [] => True | r :: rs' => Forall (apart r) rs' /\ pairwise rs' end.

Lemma pairwise_perm (l1 l2 : list (Z * Z)) : l1 ≡ₚ l2 -> pairwise l1 -> pairwise l2.
Proof.
  induction 1 as [|x l l' Hp IH|x y l|l1 l2 l3 _ IH1 _ IH2]; cbn; [done| | |by auto].
  - intros [H1 H2]. split; [by rewrite <- Hp|by apply IH].
  - intros ([Hy H1]%Forall_cons & H2 & H3). split_and!; [|done..]. apply Forall_cons. split; [|done]. unfold apart in *. lia.
Qed.

Lemma pairwise_app (l1 l2 : list (Z * Z)) : pairwise (l1 ++ l2) -> pairwise l1.
Proof. induction l1 as [|r l1 IH]; cbn; [done|]. intros [[H1 _]%Forall_app H2]. by auto. Qed.

(** Regions that follow each other from one offset to another. *)
Fixpoint tiles (from : Z) (rs : list (Z * Z)) (to : Z) : Prop :=
  match rs with [] => from = to | r :: rs' => r.1 = from /\ 0 <= r.2 /\ tiles (from + r.2) rs' to end.

Lemma tiles_bounds (rs : list (Z * Z)) (from to : Z) : tiles from rs to -> from <= to /\ Forall (fun r => from <= r.1 /\ r.1 + r.2 <= to /\ 0 <= r.2) rs.
Proof.
  revert from. induction rs as [|r rs IH]; intros from; cbn; [intros ->; split; [lia|constructor]|]. intros (H1 & H2 & [H3 H4]%IH). split; [lia|].
  constructor; [lia|]. eapply Forall_impl; [exact H4|]. cbn. intros x Hx. lia.
Qed.

Lemma tiles_pairwise (rs : list (Z * Z)) (from to : Z) : tiles from rs to -> pairwise rs.
Proof.
  revert from. induction rs as [|r rs IH]; intros from; cbn; [done|]. intros (H1 & H2 & H3). split; [|by eapply IH].
  eapply Forall_impl; [apply (tiles_bounds _ _ _ H3)|]. cbn. intros x Hx. left. lia.
Qed.

Lemma tiles_snoc (rs : list (Z * Z)) (from to n : Z) : tiles from rs to -> 0 <= n -> tiles from (rs ++ [(to, n)]) (to + n).
Proof.
  revert from. induction rs as [|r rs IH]; intros from; cbn; [intros -> Hn; done|]. intros (H1 & H2 & H3) Hn. split_and!; [done..|]. by apply IH.
Qed.

Definition pending (pc : alloc_pc) : option (Z * Z) := match pc with Idle => None | Added old a => Some (old, a) end.

Definition pool_ok (start : Z) (p : pool) : Prop :=
  pl_offset p = start + pl_asked p /\ exists rs, tiles start rs (pl_offset p) /\ pl_granted p ++ omap pending (pl_procs p) ≡ₚ rs.

Section Grants.
Context (limit start : Z) (Hlimit : 0 <= start <= limit /\ limit < 2 ^ 64).

Lemma pool_step_asked (p p' : pool) : pool_step limit p p' -> pl_asked p <= pl_asked p'.
Proof. destruct 1; cbn; [|lia..]. pose proof (align_up_range size). lia. Qed.

Lemma pending_fits (p : pool) (i : nat) (old a : Z) :
  pool_ok start p -> start + pl_asked p <= limit -> pl_procs p !! i = Some (Added old a) -> start <= old /\ 0 <= a /\ old + a <= limit.
Proof.
  intros (Ho & rs & Ht & Hp) Hfit Hi. assert (Hin : (old, a) ∈ rs).
  { rewrite <- Hp. apply elem_of_app. right. apply list_elem_of_omap. exists (Added old a). split; [by eapply list_elem_of_lookup_2|done]. }
  apply tiles_bounds in Ht as [_ Hb]. rewrite Forall_forall in Hb. specialize (Hb _ Hin). cbn in Hb. lia.
Qed.

Lemma pool_step_ok (p p' : pool) : pool_step limit p p' -> pool_ok start p -> start + pl_asked p' <= limit -> pool_ok start p'.
Proof.
  intros Hs Hok Hfit. pose proof (pool_step_asked _ _ Hs) as Hmono. pose proof Hok as (Ho & rs & Ht & Hp).
  pose proof (proj1 (tiles_bounds _ _ _ Ht)) as Hge. destruct Hs as [o ps gs t i size Hsz Hi|o ps gs t i old a Hi Hle|o ps gs t i old a Hi Hlt]; cbn [pl_offset pl_procs pl_granted pl_asked] in *.
  - pose proof (align_up_range size) as Ha. assert (E : o ⊞ align_up size = o + align_up size) by (apply wrap64_small; unfold u64; lia).
    split; [cbn; lia|]. cbn. rewrite E. exists (rs ++ [(o, align_up size)]). split; [apply tiles_snoc; [done|lia]|].
    destruct (omap_insert_perm pending ps i Idle (Added o (align_up size)) Hi) as (rest & E1 & E2). rewrite <- Hp, E1, E2. cbn. by rewrite <- Permutation_middle, Permutation_cons_append.
  - split; [done|]. exists rs. split; [done|]. destruct (omap_insert_perm pending ps i (Added old a) Idle Hi) as (rest & E1 & E2). cbn. rewrite <- Hp, E1, E2. cbn.
    by rewrite Permutation_middle.
  - exfalso. destruct (pending_fits (mkPool o ps gs t) i old a Hok Hfit Hi) as (H1 & H2 & H3). rewrite wrap64_small in Hlt by (unfold u64; lia). lia.
Qed.
End Grants.

(** C27. However the allocations of any number of processes interleave, as long as what was asked for
    fits into the pool the regions handed out are disjoint, inside the pool, and nobody is refused. *)
Theorem pool_grants_disjoint (limit start : Z) (n : nat) (p : pool) (Hlimit : 0 <= start <= limit /\ limit < 2 ^ 64)
    (Hrun : rtc (pool_step limit) (mkPool start (replicate n Idle) [] 0) p) (Hfit : start + pl_asked p <= limit) :
  pairwise (pl_granted p) /\ Forall (fun r => start <= r.1 /\ r.1 + r.2 <= limit) (pl_granted p)
  /\ forall i old a, pl_procs p !! i = Some (Added old a) -> old ⊞ a <= limit.
Proof.
  assert (Hok : pool_ok start p).
  { apply rtc_ind_r with (P := fun p => start + pl_asked p <= limit -> pool_ok start p) in Hrun; [by apply Hrun| |].
    - intros _. split; [cbn; lia|]. exists []. split; [done|]. cbn. clear. induction n as [|n IH]; [done|]. exact IH.
    - intros y z _ Hyz IH Hz. pose proof (pool_step_asked limit _ _ Hyz). eapply (pool_step_ok limit start); [done|exact Hyz|apply IH; lia|done]. }
  pose proof Hok as (Ho & rs & Ht & Hp). split_and!.
  - eapply pairwise_app, pairwise_perm; [symmetry; exact Hp|]. by eapply tiles_pairwise.
  - apply tiles_bounds in Ht as [_ Hb]. rewrite <- Hp in Hb. apply Forall_app in Hb as [Hb _]. eapply Forall_impl; [exact Hb|]. cbn. intros r Hr. lia.
  - intros i old a Hi. destruct (pending_fits limit start p i old a Hok Hfit Hi) as (H1 & H2 & H3). rewrite wrap64_small by (unfold u64; lia). done.
Qed.

Lemma pool_grants_disjoint_witness :
  exists p, pl_granted p = [(8192, 8192); (4096, 4096)] /\ pairwise (pl_granted p) /\ Forall (fun r => 4096 <= r.1 /\ r.1 + r.2 <= 16384) (pl_granted p)
    /\ forall i old a, pl_procs p !! i = Some (Added old a) -> old ⊞ a <= 16384.
Proof.
  exists (mkPool 16384 [Idle; Idle] [(8192, 8192); (4096, 4096)] 12288). split; [reflexivity|].
  apply (pool_grants_disjoint 16384 4096 2).
  - lia.
  - eapply rtc_l; [apply (FetchAdd _ _ _ _ _ 0 100); [lia|reflexivity]|]. eapply rtc_l; [apply (FetchAdd _ _ _ _ _ 1 5000); [lia|reflexivity]|].
    eapply rtc_l; [eapply (Granted _ _ _ _ _ 0); [reflexivity|vm_compute; discriminate]|].
    eapply rtc_l; [eapply (Granted _ _ _ _ _ 1); [reflexivity|vm_compute; discriminate]|]. apply rtc_refl.
  - cbn. lia.
Defined.

(** The subtraction after a failed request does not undo its addition for those who came in
    between: with requests of 5, 1, 2 and 1 pages and 4 pages left, the last two are given regions
    that overlap, while both are in use. *)
Theorem pool_rollback_overlaps :
  let page := 4096 in
  exists p, rtc (pool_step (12 * page)) (mkPool (8 * page) (replicate 4 Idle) [] 0) p
    /\ pl_granted p = [(10 * page, page); (9 * page, 2 * page)] /\ ~ pairwise (pl_granted p).
Proof.
  cbv zeta. eexists. split; [|split].
  - eapply rtc_l; [apply (FetchAdd _ _ _ _ _ 0 (5 * 4096)); [lia|reflexivity]|]. eapply rtc_l; [apply (FetchAdd _ _ _ _ _ 1 4096); [lia|reflexivity]|].
    eapply rtc_l; [eapply (RolledBack _ _ _ _ _ 0); [reflexivity|vm_compute; reflexivity]|]. eapply rtc_l; [apply (FetchAdd _ _ _ _ _ 2 8192); [lia|reflexivity]|].
    eapply rtc_l; [eapply (Granted _ _ _ _ _ 2); [reflexivity|vm_compute; discriminate]|]. eapply rtc_l; [eapply (RolledBack _ _ _ _ _ 1); [reflexivity|vm_compute; reflexivity]|].
    eapply rtc_l; [apply (FetchAdd _ _ _ _ _ 3 4096); [lia|reflexivity]|]. eapply rtc_l; [eapply (Granted _ _ _ _ _ 3); [reflexivity|vm_compute; discriminate]|]. apply rtc_refl.
  - vm_compute. reflexivity.
  - intros [H _]. apply Forall_cons in H as [H _]. unfold apart in H. vm_compute in H. destruct H as [H|H]; by apply H.
Qed.

(** ** One process at a time *)
Definition offset (s : shared) : Z := sh_alloc_offset (sd_header s).

(** A request that fits gets the next pages, and its relative pointer is the old offset; one that does
    not fit gets [NULL] and leaves everything as it was. *)
Lemma pool_allocate_spec (size : Z) (g : cxl_mem) (s : shared) :
  mapped g -> 0 <= offset s <= cm_size g -> 0 <= size <= 2 ^ 62 -> cm_size g < 2 ^ 63 ->
  if offset s + align_up size <=? cm_size g
  then pool_allocate size g s = (cm_base g + offset s, set_used (offset s + align_up size) g, set_header (set_offset (offset s + align_up size) (sd_header s)) s)
       /\ ((0 < size) -> ptr_to_rptr g (cm_base g + offset s) = offset s) /\ size <= align_up size
  else pool_allocate size g s = (0, g, s).
Proof.
  intros (Hb & Hz & Ht) Ho Hs Hsz. unfold pool_allocate. fold (offset s). assert (Ha : size <= align_up size < size + 4096) by (apply align_up_enough; unfold CXL_ALIGNMENT; lia).
  rewrite (wrap64_small (offset s + align_up size)) by (unfold u64; lia). rewrite Z.ltb_antisym. destruct (Z.leb_spec (offset s + align_up size) (cm_size g)) as [Hle|Hgt]; cbn [negb].
  - rewrite wrap64_small by (unfold u64; lia). split; [done|]. split; [|lia]. intros Hpos. unfold ptr_to_rptr.
    rewrite (proj2 (Z.eqb_neq (cm_base g + offset s) 0)), (proj2 (Z.eqb_neq (cm_base g) 0)), (proj2 (Z.ltb_ge (cm_base g + offset s) (cm_base g))) by lia.
    rewrite wrap64_small by (unfold u64; lia). rewrite (proj2 (Z.leb_gt _ _)) by lia. cbn. lia.
  - f_equal. cbn. replace (offset s + align_up size ⊟ align_up size) with (offset s) by (rewrite wrap64_small by (unfold u64; lia); lia).
    unfold set_header, set_offset, offset. by destruct s as [[] mb d].
Qed.

(** A size near the top of [size_t] wraps: the request succeeds, and the offset moves back over
    memory that is in use. *)
Theorem pool_wrap_overlaps (g : cxl_mem) (s : shared) (Hg : mapped g) (Ho : 4096 <= offset s <= cm_size g) :
  pool_allocate (2 ^ 64 - 4096) g s = (cm_base g + offset s, set_used (offset s - 4096) g, set_header (set_offset (offset s - 4096) (sd_header s)) s).
Proof.
  destruct Hg as (Hb & Hz & Ht). unfold pool_allocate. fold (offset s). change (align_up (2 ^ 64 - 4096)) with (2 ^ 64 - 4096).
  assert (E : offset s ⊞ (2 ^ 64 - 4096) = offset s - 4096).
  { unfold wrap64. replace (offset s + (2 ^ 64 - 4096)) with (offset s - 4096 + 1 * 2 ^ 64) by lia. rewrite Z.mod_add by lia. apply Z.mod_small. lia. }
  rewrite E, (proj2 (Z.ltb_ge _ _)) by lia. rewrite wrap64_small by (unfold u64; lia). done.
Qed.

Lemma pool_wrap_overlaps_witness :
  pool_allocate (2 ^ 64 - 4096) (mkCxlMem CXL_FIXED_ADDR 65536 8192 true true 0 2 true) (mkShared (mkShmHeader CXL_SHM_MAGIC 1 2 8192 65536 1 0 0 0 2 []) [] ∅)
  = (CXL_FIXED_ADDR + 8192, mkCxlMem CXL_FIXED_ADDR 65536 4096 true true 0 2 true, mkShared (mkShmHeader CXL_SHM_MAGIC 1 2 4096 65536 1 0 0 0 2 []) [] ∅).
Proof.
  apply (pool_wrap_overlaps (mkCxlMem CXL_FIXED_ADDR 65536 8192 true true 0 2 true) (mkShared (mkShmHeader CXL_SHM_MAGIC 1 2 8192 65536 1 0 0 0 2 []) [] ∅));
    unfold mapped, offset, CXL_FIXED_ADDR; cbn; lia.
Defined.

(** ** Initialisation and registration *)

(** The structures take more than a gigabyte, and a device of exactly one is written past its end. *)
Theorem init_one_gigabyte_undefined (y : system) (base : Z) (s : shared)
    (Hy : sy_dax_path y = true /\ sy_dax_open y = true /\ sy_dax_sysfs y = 2 ^ 30 /\ sy_dax_map y = Some base) (Hm : sh_magic (sd_header s) <> CXL_SHM_MAGIC) :
  init_cxl_memory y cxl_mem_new s = None.
Proof.
  destruct Hy as (H1 & H2 & H3 & H4). unfold init_cxl_memory, map_memory, dax_size. cbn [cm_initialized cxl_mem_new]. rewrite H1, H2, H3, H4. cbn [andb].
  by rewrite (proj2 (Z.eqb_neq _ _) Hm).
Qed.

Lemma init_one_gigabyte_undefined_witness :
  init_cxl_memory (mkSystem true None true (2 ^ 30) None (Some CXL_FIXED_ADDR) None true None false false) cxl_mem_new
    (mkShared (mkShmHeader 0 0 0 0 0 0 0 0 0 0 []) [] ∅) = None.
Proof.
  apply (init_one_gigabyte_undefined (mkSystem true None true (2 ^ 30) None (Some CXL_FIXED_ADDR) None true None false false) CXL_FIXED_ADDR
    (mkShared (mkShmHeader 0 0 0 0 0 0 0 0 0 0 []) [] ∅)); [split_and!; reflexivity|discriminate].
Defined.

(** The header still shows the size of the last run: a rank that registers before rank 0 does not
    wait, and rank 0 then drops it from the count of ranks. *)
Theorem register_before_zero_lost (y : system) (rank n : Z) (g0 g1 : cxl_mem) (s : shared)
    (Hg : cm_initialized g0 = true /\ cm_initialized g1 = true) (Hr : 0 < rank < CXL_MAX_RANKS) (Hn : sh_max_ranks (sd_header s) = wrap32 n) :
  exists g1' s1 g0' s0, cxl_register_rank y rank n g1 s = Some (g1', s1) /\ cxl_register_rank y 0 n g0 s1 = Some (g0', s0) /\ sh_num_ranks (sd_header s0) = 1.
Proof.
  destruct Hg as [H0 H1]. unfold cxl_register_rank at 1. rewrite H1, (proj2 (Z.ltb_ge rank 0)), (proj2 (Z.leb_gt _ rank)), (proj2 (Z.eqb_neq rank 0)), Hn, Z.eqb_refl by lia.
  cbn [negb orb]. do 4 eexists. split; [reflexivity|]. unfold cxl_register_rank. rewrite H0. cbn. done.
Qed.

Lemma register_before_zero_lost_witness :
  let y := mkSystem true None true (2 ^ 31) None (Some CXL_FIXED_ADDR) None true None false false in
  let g := mkCxlMem CXL_FIXED_ADDR (2 ^ 31) 0 true true (-1) 0 false in
  let s := mkShared (mkShmHeader CXL_SHM_MAGIC 1 0 0 0 1 0 0 0 2 []) [] ∅ in
  exists g1' s1 g0' s0, cxl_register_rank y 1 2 g s = Some (g1', s1) /\ cxl_register_rank y 0 2 g s1 = Some (g0', s0) /\ sh_num_ranks (sd_header s0) = 1.
Proof. cbv zeta. apply register_before_zero_lost; [split; reflexivity|unfold CXL_MAX_RANKS; lia|reflexivity]. Defined.
