(* ===== verification/MpiMailbox.v ===== *)
(** * Messages of the MPI shim ([cxl_send], [cxl_recv], [MPI_Send], [MPI_Recv], ... of
    [workloads/gromacs/mpi_cxl_shim.c])

    A rank sends by filling the next slot of the mailbox of the destination, a ring of 1024 slots; a
    message of more than 4096 bytes is copied to the pool and sent as a relative pointer.  The
    receiver takes the oldest message that matches its source and tag, also from the middle of the
    ring.  The operations are functions on the process's view and the shared memory, with the bytes
    that are sent and received as arguments and results; [mailbox_refines] shows that they implement a
    queue of messages for each rank, as long as each runs by itself.  Interleaved senders are a step
    relation ([two_senders_lose]).  What happens in the MPI library, to which the shim falls back, is
    an outcome.  [None] is an access outside of the structures or of the mapping. *)
From S2P Require Import Prelude MpiPool.
#[local] Open Scope Z_scope.

(** ** Bytes of the pool *)
Fixpoint write_bytes (off : Z) (bs : list Z) (m : gmap Z Z) : gmap Z Z :=
  match bs with [] => m | b :: bs' => <[off := b]> (write_bytes (off + 1) bs' m) end.

Definition read_bytes (off n : Z) (m : gmap Z Z) : list Z := (fun i => default 0 (m !! (off + i))) <$> seqZ 0 n.

(** ** Slots and mailboxes *)
Definition set_state (st : Z) (m : cxl_msg) : cxl_msg :=
  mkMsg st (mg_source_rank m) (mg_tag m) (mg_data_rptr m) (mg_data_size m) (mg_inline_data m) (mg_is_inline m).

Definition set_messages (ms : list cxl_msg) (b : cxl_rank_mailbox) : cxl_rank_mailbox := mkMailbox (mb_head b) (mb_tail b) (mb_active b) (mb_rank b) ms.

Definition set_mailbox (r : Z) (b : cxl_rank_mailbox) (s : shared) : shared := mkShared (sd_header s) (<[Z.to_nat r := b]> (sd_mailboxes s)) (sd_data s).

Definition slot_of (i : Z) : nat := Z.to_nat (i mod CXL_MSG_QUEUE_SIZE).

Definition cxl_rank_available (g : cxl_mem) (rank : Z) (s : shared) : option bool :=
  if negb (cm_initialized g) || (rank <? 0) || (CXL_MAX_RANKS <=? rank) then Some false
  else b ← sd_mailboxes s !! Z.to_nat rank; Some (negb (mb_active b =? 0)).

(** ** Sending *)

(** The metadata are written before the space for a large message is found. *)
Definition fill (source tag : Z) (size : Z) (m : cxl_msg) : cxl_msg :=
  mkMsg (mg_state m) (wrap32 source) (wrap32 tag) (mg_data_rptr m) size (mg_inline_data m) (mg_is_inline m).

Definition fill_inline (buf : list Z) (m : cxl_msg) : cxl_msg :=
  mkMsg (mg_state m) (mg_source_rank m) (mg_tag m) CXL_RPTR_NULL (mg_data_size m)
    (cxl_safe_memcpy (mg_inline_data m) buf (Z.of_nat (length buf))) true.

Definition fill_rptr (rptr : Z) (m : cxl_msg) : cxl_msg :=
  mkMsg (mg_state m) (mg_source_rank m) (mg_tag m) rptr (mg_data_size m) (mg_inline_data m) false.

Definition publish (r : Z) (slot : nat) (m : cxl_msg) (s : shared) : option shared :=
  b ← sd_mailboxes s !! Z.to_nat r;
  Some (set_mailbox r (mkMailbox (mb_head b ⊞ 1) (mb_tail b) (mb_active b) (mb_rank b) (<[slot := set_state CXL_MSG_READY m]> (mb_messages b))) s).

(** 0 is success, -1 a fallback to MPI.  A slot that is in use stays in use while the sender waits. *)
Definition cxl_send (buf : list Z) (dest tag source : Z) (g : cxl_mem) (s : shared) : option (Z * cxl_mem * shared) :=
  if negb (cm_comm_enabled g) then Some (-1, g, s)
  else
    available ← cxl_rank_available g dest s;
    if negb available then Some (-1, g, s)
    else
      b ← sd_mailboxes s !! Z.to_nat dest;
      if CXL_MSG_QUEUE_SIZE <=? mb_head b ⊟ mb_tail b then Some (-1, g, s)
      else
        let slot := slot_of (mb_head b) in
        msg ← mb_messages b !! slot;
        if negb (mg_state msg =? CXL_MSG_EMPTY) then Some (-1, g, s)
        else
          let size := Z.of_nat (length buf) in
          let msg1 := fill source tag size msg in
          let s1 := set_mailbox dest (set_messages (<[slot := msg1]> (mb_messages b)) b) s in
          if size <=? CXL_MSG_MAX_INLINE_SIZE then
            s2 ← publish dest slot (fill_inline buf msg1) s1; Some (0, g, s2)
          else
            let '(ptr, g1, s2) := pool_allocate size g s1 in
            if ptr =? 0 then Some (-1, g1, s2)
            else
              let s3 := mkShared (sd_header s2) (sd_mailboxes s2) (write_bytes (ptr - cm_base g1) buf (sd_data s2)) in
              s4 ← publish dest slot (fill_rptr (ptr_to_rptr g1 ptr) msg1) s3; Some (0, g1, s4).

(** ** Receiving *)
Definition matches (source tag : Z) (m : cxl_msg) : bool :=
  ((source <? 0) || (mg_source_rank m =? wrap32 source)) && ((tag <? 0) || (mg_tag m =? wrap32 tag)).

(** The bytes that are copied; [Some None] for a relative pointer that is out of range. *)
Definition copy_out (g : cxl_mem) (max_size : Z) (data : gmap Z Z) (m : cxl_msg) : option (option (list Z)) :=
  let copy_size := Z.min (mg_data_size m) max_size in
  if mg_is_inline m then
    if Z.of_nat (length (mg_inline_data m)) <? copy_size then None else Some (Some (take (Z.to_nat copy_size) (mg_inline_data m)))
  else
    let ptr := rptr_to_ptr g (mg_data_rptr m) in
    if ptr =? 0 then Some None
    else if cm_base g + cm_size g <? ptr + copy_size then None
    else Some (Some (read_bytes (ptr - cm_base g) copy_size data)).

(** The tail moves past all consumed messages, which become empty. *)
Fixpoint advance (fuel : nat) (tail head : Z) (ms : list cxl_msg) : option (Z * list cxl_msg) :=
  if tail <? head then
    m ← ms !! slot_of tail;
    if mg_state m =? CXL_MSG_CONSUMED then
      match fuel with
      | O => None
      | S fuel' => advance fuel' (tail + 1) head (<[slot_of tail := set_state CXL_MSG_EMPTY m]> ms)
      end
    else Some (tail, ms)
  else Some (tail, ms).

(** The scan from [i] to [head]: what was received, its full size, and the mailbox. *)
Fixpoint scan (fuel : nat) (g : cxl_mem) (max_size source tag : Z) (data : gmap Z Z) (i : Z) (b : cxl_rank_mailbox) :
    option (option (list Z * Z) * cxl_rank_mailbox) :=
  if i <? mb_head b then
    match fuel with
    | O => None
    | S fuel' =>
        m ← mb_messages b !! slot_of i;
        if negb (mg_state m =? CXL_MSG_READY) || negb (matches source tag m) then scan fuel' g max_size source tag data (i + 1) b
        else
          out ← copy_out g max_size data m;
          match out with
          | None => scan fuel' g max_size source tag data (i + 1) b
          | Some bs =>
              let ms := <[slot_of i := set_state CXL_MSG_CONSUMED m]> (mb_messages b) in
              if i =? mb_tail b then
                '(tail, ms') ← advance (Z.to_nat (mb_head b - mb_tail b)) (mb_tail b) (mb_head b) ms;
                Some (Some (bs, mg_data_size m), mkMailbox (mb_head b) tail (mb_active b) (mb_rank b) ms')
              else Some (Some (bs, mg_data_size m), set_messages ms b)
          end
    end
  else Some (None, b).

Definition cxl_recv (max_size source tag : Z) (g : cxl_mem) (s : shared) : option (option (list Z * Z) * shared) :=
  if negb (cm_comm_enabled g) || (cm_my_rank g <? 0) then Some (None, s)
  else
    b ← sd_mailboxes s !! Z.to_nat (cm_my_rank g);
    if mb_head b <=? mb_tail b then Some (None, s)
    else '(out, b') ← scan (Z.to_nat (mb_head b - mb_tail b)) g max_size source tag (sd_data s) (mb_tail b) b; Some (out, set_mailbox (cm_my_rank g) b' s).

(** ** The calls of the program *)

(** What reaches the MPI library is an outcome. *)
Inductive send_outcome := SentCxl | SentMpi (bytes : list Z).

Inductive recv_outcome := ReceivedCxl (bytes : list Z) (size status_source status_tag : Z) | ReceiveFromMpi.

(** CXL_SHIM_COPY_SEND: the library is given a copy in the pool. *)
Definition copy_for_mpi (copy : bool) (buf : list Z) (g : cxl_mem) (s : shared) : cxl_mem * shared :=
  if cm_initialized g && copy then
    let '(ptr, g1, s1) := pool_allocate (Z.of_nat (length buf)) g s in
    if ptr =? 0 then (g1, s1) else (g1, mkShared (sd_header s1) (sd_mailboxes s1) (write_bytes (ptr - cm_base g1) buf (sd_data s1)))
  else (g, s).

(** [MPI_Send] and [MPI_Isend]; the rank of the destination is used as it is in any communicator. *)
Definition MPI_Send (copy : bool) (buf : list Z) (dest tag : Z) (g : cxl_mem) (s : shared) : option (send_outcome * cxl_mem * shared) :=
  '(ret, g1, s1) ← (if cm_comm_enabled g then cxl_send buf dest tag (cm_my_rank g) g s else Some (-1, g, s));
  if ret =? 0 then Some (SentCxl, g1, s1)
  else let '(g2, s2) := copy_for_mpi copy buf g1 s1 in Some (SentMpi buf, g2, s2).

(** [MPI_Recv]: one look at the mailbox, then a blocking receive of the library. *)
Definition MPI_Recv (copy : bool) (max_size source tag : Z) (g : cxl_mem) (s : shared) : option (recv_outcome * cxl_mem * shared) :=
  '(out, s1) ← (if cm_comm_enabled g && (0 <=? cm_my_rank g) then cxl_recv max_size source tag g s else Some (None, s));
  match out with
  | Some (bs, size) => Some (ReceivedCxl bs size (if 0 <=? source then source else 0) (if 0 <=? tag then tag else 0), g, s1)
  | None => if cm_initialized g && copy then let '(_, g2, s2) := pool_allocate max_size g s1 in Some (ReceiveFromMpi, g2, s2)
            else Some (ReceiveFromMpi, g, s1)
  end.

(** [MPI_Irecv] has no status and no copy. *)
Definition MPI_Irecv (max_size source tag : Z) (g : cxl_mem) (s : shared) : option (option (list Z) * shared) :=
  '(out, s1) ← (if cm_comm_enabled g && (0 <=? cm_my_rank g) then cxl_recv max_size source tag g s else Some (None, s));
  Some (match out with Some (bs, _) => Some bs | None => None end, s1).

(** [cxl_recv_blocking]: [others n] is what the other ranks do before the [n]-th look. *)
Fixpoint cxl_recv_blocking (looks : nat) (others : nat -> shared -> shared) (max_size source tag : Z) (g : cxl_mem) (s : shared) :
    option (option (list Z * Z) * shared) :=
  match looks with
  | O => Some (None, s)
  | S n =>
      '(out, s1) ← cxl_recv max_size source tag g (others n s);
      match out with Some r => Some (Some r, s1) | None => cxl_recv_blocking n others max_size source tag g s1 end
  end.

(** 1000 microseconds in steps of 100.  [None] in the result: the library is asked to do both parts. *)
Definition MPI_Sendrecv (others : nat -> shared -> shared) (sendbuf : list Z) (dest sendtag max_size source recvtag : Z) (g : cxl_mem) (s : shared) :
    option (option (list Z) * cxl_mem * shared) :=
  '(sent, g1, s1) ← (if cm_comm_enabled g then cxl_send sendbuf dest sendtag (cm_my_rank g) g s else Some (-1, g, s));
  '(out, s2) ← (if cm_comm_enabled g && (0 <=? cm_my_rank g) then cxl_recv_blocking 10 others max_size source recvtag g1 s1 else Some (None, s1));
  match out with
  | Some (bs, _) => Some (if sent =? 0 then Some bs else None, g1, s2)
  | None => Some (None, g1, s2)
  end.

(** ** Senders step by step

    Each sender has read the positions ([Loaded]), has found the slot empty and filled it ([Filled]),
    or has marked it ready ([Marked]); what the mailbox holds are messages of the sender's own. *)
Inductive sender_pc := SIdle | Loaded (head : Z) | Filled (slot : nat) (msg : cxl_msg) | Marked.

Record senders := mkSenders { ss_box : cxl_rank_mailbox; ss_pcs : list sender_pc }.

Inductive sender_step : senders -> senders -> Prop :=
| SLoad b ps i :
    ps !! i = Some SIdle -> mb_head b ⊟ mb_tail b < CXL_MSG_QUEUE_SIZE ->
    sender_step (mkSenders b ps) (mkSenders b (<[i := Loaded (mb_head b)]> ps))
| SFill b ps i h m source tag buf :
    ps !! i = Some (Loaded h) -> mb_messages b !! slot_of h = Some m -> mg_state m = CXL_MSG_EMPTY ->
    Z.of_nat (length buf) <= CXL_MSG_MAX_INLINE_SIZE ->
    let m' := fill_inline buf (fill source tag (Z.of_nat (length buf)) m) in
    sender_step (mkSenders b ps) (mkSenders (set_messages (<[slot_of h := m']> (mb_messages b)) b) (<[i := Filled (slot_of h) m']> ps))
| SMark b ps i slot m m0 :
    ps !! i = Some (Filled slot m) -> mb_messages b !! slot = Some m0 ->
    sender_step (mkSenders b ps) (mkSenders (set_messages (<[slot := set_state CXL_MSG_READY m0]> (mb_messages b)) b) (<[i := Marked]> ps))
| SAdvance b ps i :
    ps !! i = Some Marked ->
    sender_step (mkSenders b ps) (mkSenders (mkMailbox (mb_head b ⊞ 1) (mb_tail b) (mb_active b) (mb_rank b) (mb_messages b)) (<[i := SIdle]> ps)).

(** ** The specification: a queue of messages for each rank *)
Definition message : Type := Z * Z * list Z.         (* source, tag, bytes *)

Definition payload (data : gmap Z Z) (m : cxl_msg) : list Z :=
  if mg_is_inline m then take (Z.to_nat (mg_data_size m)) (mg_inline_data m) else read_bytes (mg_data_rptr m) (mg_data_size m) data.

Definition entry (data : gmap Z Z) (ms : list cxl_msg) (i : Z) : option message :=
  m ← ms !! slot_of i; if mg_state m =? CXL_MSG_READY then Some (mg_source_rank m, mg_tag m, payload data m) else None.

Definition box (data : gmap Z Z) (b : cxl_rank_mailbox) : list message :=
  omap (entry data (mb_messages b)) (seqZ (mb_tail b) (mb_head b - mb_tail b)).

(** All queues. *)
Definition boxes (s : shared) : list (list message) := box (sd_data s) <$> sd_mailboxes s.

Fixpoint take_first {A} (p : A -> bool) (l : list A) : option (A * list A) :=
  match l with [] => None | x :: l' => if p x then Some (x, l') else '(y, l2) ← take_first p l'; Some (y, x :: l2) end.

Definition wanted (source tag : Z) (m : message) : bool := ((source <? 0) || (m.1.1 =? wrap32 source)) && ((tag <? 0) || (m.1.2 =? wrap32 tag)).

Inductive mpi_op := OpSend (dest tag : Z) (buf : list Z) | OpRecv (max_size source tag : Z).

Inductive mpi_out := OutSend (ok : bool) | OutRecv (r : option (list Z * Z)).

(** A send is refused or appended; a receive gives the oldest wanted message, cut to the size of the buffer. *)
Inductive spec_step (rank : Z) : mpi_op -> list (list message) -> mpi_out -> list (list message) -> Prop :=
| SpecRefused dest tag buf qs : spec_step rank (OpSend dest tag buf) qs (OutSend false) qs
| SpecSent dest tag buf qs q :
    qs !! Z.to_nat dest = Some q ->
    spec_step rank (OpSend dest tag buf) qs (OutSend true) (<[Z.to_nat dest := q ++ [(wrap32 rank, wrap32 tag, buf)]]> qs)
| SpecNone max_size source tag qs q :
    qs !! Z.to_nat rank = Some q -> take_first (wanted source tag) q = None -> spec_step rank (OpRecv max_size source tag) qs (OutRecv None) qs
| SpecReceived max_size source tag qs q m q' :
    qs !! Z.to_nat rank = Some q -> take_first (wanted source tag) q = Some (m, q') ->
    spec_step rank (OpRecv max_size source tag) qs (OutRecv (Some (take (Z.to_nat (Z.min (Z.of_nat (length m.2)) max_size)) m.2, Z.of_nat (length m.2))))
      (<[Z.to_nat rank := q']> qs).

(** ** A program of several ranks, one call at a time *)
Definition run_op (rank : nat) (op : mpi_op) (gs : list cxl_mem) (s : shared) : option (mpi_out * list cxl_mem * shared) :=
  g ← gs !! rank;
  match op with
  | OpSend dest tag buf => '(ret, g', s') ← cxl_send buf dest tag (cm_my_rank g) g s; Some (OutSend (ret =? 0), <[rank := g']> gs, s')
  | OpRecv max_size source tag => '(r, s') ← cxl_recv max_size source tag g s; Some (OutRecv r, gs, s')
  end.

Fixpoint run_ops (ops : list (nat * mpi_op)) (gs : list cxl_mem) (s : shared) : option (list mpi_out * list cxl_mem * shared) :=
  match ops with
  | [] => Some ([], gs, s)
  | (rank, op) :: ops' =>
      '(out, gs1, s1) ← run_op rank op gs s; '(outs, gs2, s2) ← run_ops ops' gs1 s1; Some (out :: outs, gs2, s2)
  end.

(** The shim's part of [MPI_Init], rank by rank. *)
Fixpoint start_ranks (ys : list system) (rank world_size : Z) (s : shared) : option (list cxl_mem * shared) :=
  match ys with
  | [] => Some ([], s)
  | y :: ys' =>
      '(g, s1) ← init_cxl_memory y cxl_mem_new s;
      '(g1, s2) ← cxl_register_rank y rank world_size g s1;
      '(gs, s3) ← start_ranks ys' (rank + 1) world_size s2;
      Some (g1 :: gs, s3)
  end.

Inductive spec_run : list (nat * mpi_op) -> list (list message) -> list mpi_out -> list (list message) -> Prop :=
| SpecDone qs : spec_run [] qs [] qs
| SpecThen rank op ops qs out qs1 outs qs2 :
    spec_step (Z.of_nat rank) op qs out qs1 -> spec_run ops qs1 outs qs2 -> spec_run ((rank, op) :: ops) qs (out :: outs) qs2.

(** ** Lemmas on bytes, slots and queues *)
Lemma write_bytes_lookup (off i : Z) (bs : list Z) (m : gmap Z Z) :
  write_bytes off bs m !! i = if decide (off <= i < off + Z.of_nat (length bs)) then bs !! Z.to_nat (i - off) else m !! i.
Proof.
  revert off. induction bs as [|b bs IH]; intros off; cbn [write_bytes length].
  - rewrite decide_False by lia. done.
  - destruct (decide (i = off)) as [->|Hn].
    + rewrite lookup_insert_eq, decide_True by lia. by rewrite Z.sub_diag.
    + rewrite lookup_insert_ne, IH by done. destruct (decide (off <= i < off + Z.of_nat (S (length bs)))) as [Hi|Hi].
      * rewrite decide_True by lia. replace (Z.to_nat (i - off)) with (S (Z.to_nat (i - (off + 1)))) by lia. done.
      * by rewrite decide_False by lia.
Qed.

Lemma read_write_same (off : Z) (bs : list Z) (m : gmap Z Z) : read_bytes off (Z.of_nat (length bs)) (write_bytes off bs m) = bs.
Proof.
  unfold read_bytes. apply list_eq. intros i. rewrite list_lookup_fmap. destruct (decide (i < length bs)%nat) as [Hi|Hi].
  - rewrite lookup_seqZ_lt by lia. cbn. rewrite write_bytes_lookup, decide_True by lia. replace (Z.to_nat _) with i by lia.
    destruct (lookup_lt_is_Some_2 bs i Hi) as [b ->]. done.
  - rewrite lookup_seqZ_ge by lia. cbn. symmetry. apply lookup_ge_None. lia.
Qed.

Lemma read_write_below (off n at_ : Z) (bs : list Z) (m : gmap Z Z) : off + n <= at_ -> read_bytes off n (write_bytes at_ bs m) = read_bytes off n m.
Proof.
  intros Hle. unfold read_bytes. apply list_fmap_ext. intros k i Hk. apply lookup_seqZ in Hk as [-> Hk]. by rewrite write_bytes_lookup, decide_False by lia.
Qed.

Lemma length_read_bytes (off n : Z) (m : gmap Z Z) : 0 <= n -> Z.of_nat (length (read_bytes off n m)) = n.
Proof. intros Hn. unfold read_bytes. rewrite length_fmap, length_seqZ. lia. Qed.

Lemma take_read_bytes (off n k : Z) (m : gmap Z Z) : 0 <= k <= n -> take (Z.to_nat k) (read_bytes off n m) = read_bytes off k m.
Proof.
  intros Hk. unfold read_bytes. rewrite <- fmap_take. f_equal. replace n with (k + (n - k)) by lia. rewrite seqZ_app by lia.
  rewrite take_app_le by (rewrite length_seqZ; lia). rewrite take_ge by (rewrite length_seqZ; lia). done.
Qed.

Lemma slot_of_lt (i : Z) : (slot_of i < 1024)%nat.
Proof. unfold slot_of, CXL_MSG_QUEUE_SIZE. pose proof (Z.mod_pos_bound i 1024). lia. Qed.

Lemma slot_of_inj (i j : Z) : i - 1024 < j < i + 1024 -> slot_of i = slot_of j -> i = j.
Proof. unfold slot_of, CXL_MSG_QUEUE_SIZE. intros Hij E. apply Z2Nat.inj in E; [|apply Z.mod_pos_bound; lia..]. Z.to_euclidean_division_equations. lia. Qed.

Lemma take_first_app {A} (p : A -> bool) (l1 l2 : list A) (x : A) :
  Forall (fun y => p y = false) l1 -> p x = true -> take_first p (l1 ++ x :: l2) = Some (x, l1 ++ l2).
Proof. intros Hl Hx. induction Hl as [|y l1 Hy _ IH]; cbn [app take_first]; [by rewrite Hx|]. by rewrite Hy, IH. Qed.

Lemma take_first_none {A} (p : A -> bool) (l : list A) : Forall (fun y => p y = false) l -> take_first p l = None.
Proof. induction 1 as [|y l Hy _ IH]; cbn [take_first]; [done|]. by rewrite Hy, IH. Qed.

Lemma omap_ext_in {A B} (f g : A -> option B) (l : list A) : (forall x, x ∈ l -> f x = g x) -> omap f l = omap g l.
Proof.
  induction l as [|x l IH]; intros Hfg; [done|]. cbn. rewrite (Hfg x) by set_solver. rewrite IH by set_solver. done.
Qed.

Lemma seqZ_around (a b j : Z) : a <= j < b -> seqZ a (b - a) = seqZ a (j - a) ++ j :: seqZ (j + 1) (b - (j + 1)).
Proof.
  intros Hj. replace (b - a) with ((j - a) + (b - j)) by lia. rewrite seqZ_app by lia. f_equal. replace (a + (j - a)) with j by lia.
  rewrite seqZ_cons by lia. f_equal. f_equal; lia.
Qed.

(** ** The invariant *)
Definition state_at (ms : list cxl_msg) (i : Z) : option Z := mg_state <$> ms !! slot_of i.

(** Every slot has its array of 4096 bytes; a ready message has its bytes in it, or in the pool below [limit]. *)
Definition slot_ok (limit : Z) (m : cxl_msg) : Prop :=
  length (mg_inline_data m) = 4096%nat
  /\ (mg_state m = CXL_MSG_READY -> 0 <= mg_data_size m /\
      if mg_is_inline m then mg_data_size m <= 4096 else 0 <= mg_data_rptr m /\ 0 < mg_data_size m /\ mg_data_rptr m + mg_data_size m <= limit).

Definition box_ok (limit : Z) (b : cxl_rank_mailbox) : Prop :=
  length (mb_messages b) = 1024%nat /\ (0 <= mb_tail b <= mb_head b /\ mb_head b <= mb_tail b + 1024)
  /\ Forall (slot_ok limit) (mb_messages b)
  /\ (forall i, mb_tail b <= i < mb_head b -> state_at (mb_messages b) i = Some CXL_MSG_READY \/ state_at (mb_messages b) i = Some CXL_MSG_CONSUMED)
  /\ (mb_tail b < mb_head b -> state_at (mb_messages b) (mb_tail b) = Some CXL_MSG_READY)
  /\ (forall i, mb_head b <= i < mb_tail b + 1024 -> state_at (mb_messages b) i = Some CXL_MSG_EMPTY).

Definition shared_ok (size n : Z) (s : shared) : Prop :=
  0 <= offset s <= size /\ size < 2 ^ 63 /\ length (sd_mailboxes s) = 256%nat /\ Forall (fun b => box_ok (offset s) b /\ mb_head b <= n) (sd_mailboxes s).

Definition view_ok (size : Z) (g : cxl_mem) : Prop := mapped g /\ cm_size g = size /\ cm_initialized g = true.

Lemma state_at_insert_eq (ms : list cxl_msg) (i : Z) (m : cxl_msg) : length ms = 1024%nat -> state_at (<[slot_of i := m]> ms) i = Some (mg_state m).
Proof. intros Hl. unfold state_at. rewrite list_lookup_insert_eq; [done|]. rewrite Hl. apply slot_of_lt. Qed.

Lemma lookup_other (ms : list cxl_msg) (i j : Z) (m : cxl_msg) : j <> i -> i - 1024 < j < i + 1024 -> <[slot_of i := m]> ms !! slot_of j = ms !! slot_of j.
Proof. intros Hn Hr. apply list_lookup_insert_ne. intros E. by apply Hn, eq_sym, slot_of_inj. Qed.

Lemma slot_present (ms : list cxl_msg) (i : Z) : length ms = 1024%nat -> exists m, ms !! slot_of i = Some m.
Proof. intros Hl. apply lookup_lt_is_Some_2. rewrite Hl. apply slot_of_lt. Qed.

Lemma box_ok_weaken (limit limit' : Z) (b : cxl_rank_mailbox) : limit <= limit' -> box_ok limit b -> box_ok limit' b.
Proof.
  intros Hle (H1 & H2 & H3 & H4). split; [done|]. split; [done|]. split; [|exact H4]. eapply Forall_impl; [exact H3|]. intros m [Hi Hr]. split; [done|]. intros E. destruct (Hr E) as [Hs Hx].
  split; [done|]. destruct (mg_is_inline m); [done|]. lia.
Qed.

(** Bytes written above the limit change no queue. *)
Lemma payload_stable (limit at_ : Z) (bs : list Z) (data : gmap Z Z) (m : cxl_msg) :
  slot_ok limit m -> mg_state m = CXL_MSG_READY -> limit <= at_ -> payload (write_bytes at_ bs data) m = payload data m.
Proof.
  intros [_ Hr] E Hle. destruct (Hr E) as [Hs Hx]. unfold payload. destruct (mg_is_inline m); [done|]. apply read_write_below. lia.
Qed.

Lemma entry_stable (limit at_ i : Z) (bs : list Z) (data : gmap Z Z) (ms : list cxl_msg) :
  Forall (slot_ok limit) ms -> limit <= at_ -> entry (write_bytes at_ bs data) ms i = entry data ms i.
Proof.
  intros Hms Hle. unfold entry. destruct (ms !! slot_of i) as [m|] eqn:Em; [|done]. cbn [mbind option_bind].
  destruct (mg_state m =? CXL_MSG_READY) eqn:E; [|done]. apply Z.eqb_eq in E. by rewrite (payload_stable limit) by (done || by eapply Forall_lookup_1).
Qed.

Lemma box_stable (limit at_ : Z) (bs : list Z) (data : gmap Z Z) (b : cxl_rank_mailbox) :
  box_ok limit b -> limit <= at_ -> box (write_bytes at_ bs data) b = box data b.
Proof. intros (_ & _ & H3 & _) Hle. unfold box. apply omap_ext_in. intros i _. by apply (entry_stable limit). Qed.

(** ** Sending *)

(** A ready message put at the head is the last of the queue. *)
Lemma box_push (limit : Z) (data : gmap Z Z) (m : cxl_msg) (b : cxl_rank_mailbox) :
  box_ok limit b -> mb_head b - mb_tail b < 1024 -> slot_ok limit m -> mg_state m = CXL_MSG_READY ->
  let b' := mkMailbox (mb_head b + 1) (mb_tail b) (mb_active b) (mb_rank b) (<[slot_of (mb_head b) := m]> (mb_messages b)) in
  box_ok limit b' /\ box data b' = box data b ++ [(mg_source_rank m, mg_tag m, payload data m)].
Proof.
  intros (Hl & Hw & Hs & Hin & Ht & Hout) Hfree Hm Er b'.
  assert (Hold : forall i, mb_tail b <= i < mb_head b -> <[slot_of (mb_head b) := m]> (mb_messages b) !! slot_of i = mb_messages b !! slot_of i) by (intros i Hi; apply lookup_other; lia).
  assert (Hnew : state_at (<[slot_of (mb_head b) := m]> (mb_messages b)) (mb_head b) = Some CXL_MSG_READY) by (rewrite state_at_insert_eq by done; by rewrite Er).
  split.
  - split; [cbn; by rewrite length_insert|]. split; [cbn; lia|]. split; [by apply Forall_insert|]. cbn [mb_messages mb_head mb_tail b']. split_and!.
    + intros i Hi. destruct (decide (i = mb_head b)) as [->|Hn]; [by left|]. unfold state_at. rewrite Hold by lia. apply Hin. lia.
    + intros _. destruct (decide (mb_tail b = mb_head b)) as [E|Hn]; [by rewrite E|]. unfold state_at. rewrite Hold by lia. apply Ht. lia.
    + intros i Hi. unfold state_at. rewrite lookup_other by lia. apply Hout. lia.
  - unfold box. cbn [mb_messages mb_head mb_tail b']. rewrite (seqZ_around (mb_tail b) (mb_head b + 1) (mb_head b)) by lia. rewrite omap_app. f_equal.
    + apply omap_ext_in. intros i Hi. apply elem_of_seqZ in Hi. unfold entry. by rewrite Hold by lia.
    + replace (mb_head b + 1 - (mb_head b + 1)) with 0 by lia. cbn. unfold entry. rewrite list_lookup_insert_eq by (rewrite Hl; apply slot_of_lt). cbn.
      by rewrite Er.
Qed.

(** Writing a slot that is empty, without making it ready, changes no queue. *)
Lemma box_scribble (limit : Z) (data : gmap Z Z) (m : cxl_msg) (b : cxl_rank_mailbox) :
  box_ok limit b -> mb_head b - mb_tail b < 1024 -> length (mg_inline_data m) = 4096%nat -> mg_state m = CXL_MSG_EMPTY ->
  let b' := set_messages (<[slot_of (mb_head b) := m]> (mb_messages b)) b in box_ok limit b' /\ box data b' = box data b.
Proof.
  intros (Hl & Hw & Hs & Hin & Ht & Hout) Hfree Hm Er b'.
  assert (Hold : forall i, mb_tail b <= i < mb_head b -> <[slot_of (mb_head b) := m]> (mb_messages b) !! slot_of i = mb_messages b !! slot_of i) by (intros i Hi; apply lookup_other; lia).
  split.
  - split; [cbn; by rewrite length_insert|]. split; [done|]. split; [apply Forall_insert; [done|]; split; [done|by rewrite Er]|]. cbn [mb_messages mb_head mb_tail b' set_messages]. split_and!.
    + intros i Hi. unfold state_at. rewrite Hold by lia. apply Hin. lia.
    + intros Hi. unfold state_at. rewrite Hold by lia. by apply Ht.
    + intros i Hi. destruct (decide (i = mb_head b)) as [->|Hn]; [rewrite state_at_insert_eq by done; by rewrite Er|]. unfold state_at. rewrite lookup_other by lia. apply Hout. lia.
  - unfold box. cbn [mb_messages mb_head mb_tail b' set_messages]. apply omap_ext_in. intros i Hi. apply elem_of_seqZ in Hi. unfold entry. by rewrite Hold by lia.
Qed.

Lemma lookup_boxes (s : shared) (r : nat) (b : cxl_rank_mailbox) : sd_mailboxes s !! r = Some b -> boxes s !! r = Some (box (sd_data s) b).
Proof. intros Hb. unfold boxes. by rewrite list_lookup_fmap, Hb. Qed.

(** Replacing one mailbox, with the bytes and the limit of the others kept. *)
Lemma shared_update (size n : Z) (s s' : shared) (r : nat) (b b' : cxl_rank_mailbox) :
  shared_ok size n s -> sd_mailboxes s !! r = Some b -> sd_mailboxes s' = <[r := b']> (sd_mailboxes s) ->
  offset s <= offset s' <= size -> box_ok (offset s') b' -> mb_head b' <= n + 1 -> (forall x, x ∈ sd_mailboxes s -> box (sd_data s') x = box (sd_data s) x) ->
  shared_ok size (n + 1) s' /\ boxes s' = <[r := box (sd_data s') b']> (boxes s).
Proof.
  intros (Ho & Hz & Hl & Hall) Hb E Ho' Hb' Hn Hx. split.
  - split_and!; [lia|lia|lia|by rewrite E, length_insert|]. rewrite E. apply Forall_insert; [|done]. eapply Forall_impl; [exact Hall|]. cbn. intros x [H1 H2].
    split; [by eapply box_ok_weaken; [|exact H1]; lia|lia].
  - unfold boxes. rewrite E, list_fmap_insert. f_equal. apply list_fmap_ext. intros i x Hi. apply Hx. by eapply list_elem_of_lookup_2.
Qed.

(** When a send goes through the mailbox. *)
Definition accepts (size : Z) (buf : list Z) (dest : Z) (g : cxl_mem) (s : shared) : bool :=
  match sd_mailboxes s !! Z.to_nat dest with
  | None => false
  | Some b =>
      cm_comm_enabled g && (0 <=? dest) && (dest <? CXL_MAX_RANKS) && negb (mb_active b =? 0) && (mb_head b - mb_tail b <? CXL_MSG_QUEUE_SIZE)
      && ((Z.of_nat (length buf) <=? CXL_MSG_MAX_INLINE_SIZE) || (offset s + align_up (Z.of_nat (length buf)) <=? size))
  end.

(** The process's view apart from what it has allocated. *)
Definition same_view (g g' : cxl_mem) : Prop := exists u, g' = set_used u g.

Lemma same_view_refl (g : cxl_mem) : same_view g g.
Proof. exists (cm_used g). by destruct g. Qed.

Lemma view_same (size : Z) (g g' : cxl_mem) : same_view g g' -> view_ok size g -> view_ok size g'.
Proof. by intros [u ->]. Qed.

Lemma shared_ok_mono (size n : Z) (s : shared) : shared_ok size n s -> shared_ok size (n + 1) s.
Proof. intros (H1 & H2 & H3 & H4). split; [done|]. split; [done|]. split; [done|]. eapply Forall_impl; [exact H4|]. cbn. intros b [Hb Hn]. split; [done|lia]. Qed.

Lemma publish_twice (dest : Z) (slot : nat) (m1 m2 : cxl_msg) (b : cxl_rank_mailbox) (h : cxl_shm_header) (mbs : list cxl_rank_mailbox) (data : gmap Z Z) :
  mbs !! Z.to_nat dest = Some b ->
  publish dest slot m2 (mkShared h (<[Z.to_nat dest := set_messages (<[slot := m1]> (mb_messages b)) b]> mbs) data)
  = Some (mkShared h (<[Z.to_nat dest := mkMailbox (mb_head b ⊞ 1) (mb_tail b) (mb_active b) (mb_rank b) (<[slot := set_state CXL_MSG_READY m2]> (mb_messages b))]> mbs) data).
Proof.
  intros Hb. unfold publish. cbn [sd_mailboxes]. rewrite list_lookup_insert_eq by (by eapply lookup_lt_Some). cbn [mbind option_bind].
  unfold set_mailbox. cbn. by rewrite !list_insert_insert_eq.
Qed.

Section Operations.
Context (size n : Z) (Hn : 0 <= n < 2 ^ 62).

Lemma inline_filled (buf : list Z) (m : cxl_msg) (source tag limit : Z) :
  length (mg_inline_data m) = 4096%nat -> Z.of_nat (length buf) <= 4096 ->
  let m' := set_state CXL_MSG_READY (fill_inline buf (fill source tag (Z.of_nat (length buf)) m)) in
  slot_ok limit m' /\ forall data, payload data m' = buf.
Proof.
  intros Hl Hb m'. assert (E : mg_inline_data m' = buf ++ drop (length buf) (mg_inline_data m)).
  { unfold m'. cbn [mg_inline_data set_state fill_inline fill]. rewrite cxl_safe_memcpy_spec by lia. by rewrite Nat2Z.id, take_ge by lia. }
  split.
  - split; [rewrite E, length_app, length_drop; lia|]. intros _. cbn. lia.
  - intros data. unfold payload. rewrite E. cbn [mg_is_inline mg_data_size m' set_state fill_inline fill]. by rewrite Nat2Z.id, take_app_length.
Qed.

Definition sent (buf : list Z) (dest tag source : Z) (s : shared) (ret : Z) (s' : shared) : Prop :=
  if ret =? 0 then exists q, boxes s !! Z.to_nat dest = Some q /\ boxes s' = <[Z.to_nat dest := q ++ [(wrap32 source, wrap32 tag, buf)]]> (boxes s)
  else boxes s' = boxes s.

Lemma send_inline (buf : list Z) (dest tag source : Z) (b : cxl_rank_mailbox) (m : cxl_msg) (s : shared) :
  shared_ok size n s -> sd_mailboxes s !! Z.to_nat dest = Some b -> mb_head b - mb_tail b < 1024 -> mb_messages b !! slot_of (mb_head b) = Some m ->
  Z.of_nat (length buf) <= 4096 ->
  let msg1 := fill source tag (Z.of_nat (length buf)) m in
  exists s', publish dest (slot_of (mb_head b)) (fill_inline buf msg1) (set_mailbox dest (set_messages (<[slot_of (mb_head b) := msg1]> (mb_messages b)) b) s) = Some s'
    /\ shared_ok size (n + 1) s' /\ sent buf dest tag source s 0 s'.
Proof.
  intros Hs Hb Hfree Hm Hbuf msg1. subst msg1. pose proof Hs as (_ & _ & _ & Hall). destruct (Forall_lookup_1 _ _ _ _ Hall Hb) as [Hok Hhead].
  pose proof Hok as (_ & Hw & Hsl & _). destruct (Forall_lookup_1 _ _ _ _ Hsl Hm) as [Hlen _].
  destruct (inline_filled buf m source tag (offset s) Hlen Hbuf) as [Hfill Hpay]. unfold set_mailbox. rewrite publish_twice by done. eexists. split; [reflexivity|].
  rewrite wrap64_small by (unfold u64; lia).
  destruct (box_push (offset s) (sd_data s) _ b Hok Hfree Hfill eq_refl) as [Hok' Hbox].
  match goal with |- shared_ok _ _ ?s' /\ _ => destruct (shared_update size n s s' (Z.to_nat dest) b _ Hs Hb eq_refl) as [H1 H2]; [destruct Hs as [? _]; unfold offset in *; cbn; lia|exact Hok'|cbn; lia|done|] end.
  split; [exact H1|]. exists (box (sd_data s) b). split; [by apply lookup_boxes|]. rewrite H2. cbn [sd_data]. rewrite Hbox. by rewrite (Hpay (sd_data s)).
Qed.

Lemma send_refused (dest : Z) (b : cxl_rank_mailbox) (m1 : cxl_msg) (s : shared) :
  shared_ok size n s -> sd_mailboxes s !! Z.to_nat dest = Some b -> mb_head b - mb_tail b < 1024 ->
  length (mg_inline_data m1) = 4096%nat -> mg_state m1 = CXL_MSG_EMPTY ->
  let s' := set_mailbox dest (set_messages (<[slot_of (mb_head b) := m1]> (mb_messages b)) b) s in shared_ok size (n + 1) s' /\ boxes s' = boxes s.
Proof.
  intros Hs Hb Hfree Hl He s'. pose proof Hs as (Ho & _ & _ & Hall). destruct (Forall_lookup_1 _ _ _ _ Hall Hb) as [Hok Hhead].
  destruct (box_scribble (offset s) (sd_data s) m1 b Hok Hfree Hl He) as [Hok' Hbox].
  destruct (shared_update size n s s' (Z.to_nat dest) b _ Hs Hb eq_refl) as [H1 H2]; [unfold offset in *; cbn; lia|exact Hok'|cbn; lia|done|]. split; [done|].
  rewrite H2. cbn [sd_data s' set_mailbox]. rewrite Hbox. apply list_insert_id. by apply lookup_boxes.
Qed.

(** A large message lies in the pages that were allocated for it. *)
Lemma send_large (buf : list Z) (dest tag source base used : Z) (b : cxl_rank_mailbox) (m : cxl_msg) (s : shared) :
  shared_ok size n s -> sd_mailboxes s !! Z.to_nat dest = Some b -> mb_head b - mb_tail b < 1024 -> mb_messages b !! slot_of (mb_head b) = Some m ->
  4096 < Z.of_nat (length buf) -> Z.of_nat (length buf) <= used -> offset s + used <= size ->
  let msg1 := fill source tag (Z.of_nat (length buf)) m in
  let s2 := mkShared (set_offset (offset s + used) (sd_header s)) (<[Z.to_nat dest := set_messages (<[slot_of (mb_head b) := msg1]> (mb_messages b)) b]> (sd_mailboxes s))
              (write_bytes (offset s) buf (sd_data s)) in
  exists s', publish dest (slot_of (mb_head b)) (fill_rptr (offset s) msg1) s2 = Some s' /\ shared_ok size (n + 1) s' /\ sent buf dest tag source s 0 s'.
Proof.
  intros Hs Hb Hfree Hm Hbuf Hused Hfit msg1 s2. subst msg1 s2. pose proof Hs as (Ho & Hz & _ & Hall). destruct (Forall_lookup_1 _ _ _ _ Hall Hb) as [Hok Hhead].
  pose proof Hok as (_ & Hw & Hsl & _). destruct (Forall_lookup_1 _ _ _ _ Hsl Hm) as [Hlen _]. rewrite publish_twice by done. eexists. split; [reflexivity|].
  rewrite wrap64_small by (unfold u64; lia). set (m' := set_state _ _).
  assert (Hfill : slot_ok (offset s + used) m') by (split; [exact Hlen|]; intros _; cbn; lia).
  assert (Hpay : payload (write_bytes (offset s) buf (sd_data s)) m' = buf) by (unfold payload; cbn; apply read_write_same).
  assert (Hok2 : box_ok (offset s + used) b) by (eapply box_ok_weaken; [|exact Hok]; lia).
  destruct (box_push (offset s + used) (write_bytes (offset s) buf (sd_data s)) m' b Hok2 Hfree Hfill eq_refl) as [Hok' Hbox].
  assert (Hkeep : forall x, x ∈ sd_mailboxes s -> box (write_bytes (offset s) buf (sd_data s)) x = box (sd_data s) x).
  { intros x Hx. rewrite Forall_forall in Hall. apply (box_stable (offset s)); [by apply Hall|lia]. }
  match goal with |- shared_ok _ _ ?s' /\ _ => destruct (shared_update size n s s' (Z.to_nat dest) b _ Hs Hb eq_refl) as [H1 H2]; [unfold offset in *; cbn; lia|exact Hok'|cbn; lia|exact Hkeep|] end.
  split; [exact H1|]. exists (box (sd_data s) b). split; [by apply lookup_boxes|]. rewrite H2. cbn [sd_data]. rewrite Hbox, Hpay, (Hkeep b); [done|]. by eapply list_elem_of_lookup_2.
Qed.

Lemma cxl_send_refines (buf : list Z) (dest tag source : Z) (g : cxl_mem) (s : shared) :
  shared_ok size n s -> view_ok size g -> Z.of_nat (length buf) <= 2 ^ 62 ->
  exists ret g' s', cxl_send buf dest tag source g s = Some (ret, g', s') /\ shared_ok size (n + 1) s' /\ same_view g g'
    /\ sent buf dest tag source s ret s' /\ ret = (if accepts size buf dest g s then 0 else -1).
Proof.
  intros Hs Hg Hlen. pose proof Hs as (Ho & Hz & Hl & Hall). pose proof Hg as (Hm & Hsz & Hi).
  assert (Hno : exists ret g' s', Some (-1, g, s) = Some (ret, g', s') /\ shared_ok size (n + 1) s' /\ same_view g g' /\ sent buf dest tag source s ret s' /\ ret = -1)
    by (do 3 eexists; split; [done|]; split; [by apply shared_ok_mono|]; split; [apply same_view_refl|done]).
  unfold cxl_send, accepts, cxl_rank_available. rewrite Hi. cbn [negb orb]. destruct (cm_comm_enabled g); cbn [negb andb]; [|destruct (sd_mailboxes s !! Z.to_nat dest); exact Hno].
  destruct (Z.ltb_spec dest 0) as [Hd|Hd]; cbn [orb mbind option_bind negb]; [rewrite (proj2 (Z.leb_gt 0 dest)) by lia; destruct (sd_mailboxes s !! Z.to_nat dest); exact Hno|]. rewrite (proj2 (Z.leb_le 0 dest)) by lia. cbn [andb].
  destruct (Z.leb_spec CXL_MAX_RANKS dest) as [Hr|Hr]; cbn [mbind option_bind negb]; [rewrite (proj2 (Z.ltb_ge dest _)) by lia; destruct (sd_mailboxes s !! Z.to_nat dest); exact Hno|]. rewrite (proj2 (Z.ltb_lt dest _)) by lia. cbn [andb].
  unfold CXL_MAX_RANKS in Hr. destruct (lookup_lt_is_Some_2 (sd_mailboxes s) (Z.to_nat dest) ltac:(lia)) as [b Hb]. rewrite Hb. cbn [mbind option_bind].
  destruct (mb_active b =? 0); cbn [negb andb]; [done|]. destruct (Forall_lookup_1 _ _ _ _ Hall Hb) as [Hok Hhead]. pose proof Hok as (Hlm & Hw & Hsl & _ & _ & Hout).
  rewrite (wrap64_small (mb_head b - mb_tail b)) by (unfold u64; lia). unfold CXL_MSG_QUEUE_SIZE, CXL_MSG_MAX_INLINE_SIZE. destruct (Z.leb_spec 1024 (mb_head b - mb_tail b)) as [Hf|Hf];
    [rewrite (proj2 (Z.ltb_ge _ 1024)) by lia; done|]. rewrite (proj2 (Z.ltb_lt _ 1024)) by lia. cbn [andb].
  destruct (slot_present (mb_messages b) (mb_head b) Hlm) as [m Hmsg]. rewrite Hmsg. cbn [mbind option_bind].
  assert (He : mg_state m = CXL_MSG_EMPTY). { specialize (Hout (mb_head b) ltac:(lia)). unfold state_at in Hout. rewrite Hmsg in Hout. by injection Hout. }
  rewrite He, Z.eqb_refl. cbn [negb]. destruct (Z.leb_spec (Z.of_nat (length buf)) 4096) as [Hsm|Hbig]; cbn [orb].
  - destruct (send_inline buf dest tag source b m s Hs Hb Hf Hmsg Hsm) as (s' & -> & H1 & H2). do 3 eexists. split; [done|]. split_and!; [exact H1|apply same_view_refl|exact H2|done].
  - set (msg1 := fill source tag (Z.of_nat (length buf)) m). set (s1 := set_mailbox _ _ s).
    pose proof (pool_allocate_spec (Z.of_nat (length buf)) g s1 Hm) as Ha. rewrite Hsz in Ha. specialize (Ha Ho ltac:(lia) Hz). change (offset s1) with (offset s) in Ha.
    destruct (Z.leb_spec (offset s + align_up (Z.of_nat (length buf))) size) as [Hfit|Hfit].
    + destruct Ha as (-> & Hrp & Hal). destruct Hm as (Hbase & _ & _). rewrite (proj2 (Z.eqb_neq _ 0)) by lia.
      assert (Hrp' : ptr_to_rptr (set_used (offset s + align_up (Z.of_nat (length buf))) g) (cm_base g + offset s) = offset s) by (apply Hrp; lia). rewrite Hrp'.
      destruct (send_large buf dest tag source (cm_base g) (align_up (Z.of_nat (length buf))) b m s Hs Hb Hf Hmsg Hbig Hal Hfit) as (s' & E & H1 & H2).
      replace (cm_base g + offset s - cm_base (set_used (offset s + align_up (Z.of_nat (length buf))) g)) with (offset s) by (cbn; lia).
      unfold s1, msg1, set_mailbox, set_header. cbn [sd_header sd_mailboxes sd_data]. rewrite E. cbn [mbind option_bind]. do 3 eexists. split; [done|].
      split_and!; [exact H1|by eexists|exact H2|done].
    + rewrite Ha. cbn [Z.eqb]. destruct (send_refused dest b msg1 s Hs Hb Hf) as [H1 H2]; [exact (proj1 (Forall_lookup_1 _ _ _ _ Hsl Hmsg))|exact He|].
      do 3 eexists. split; [done|]. split_and!; [exact H1|apply same_view_refl|exact H2|done].
Qed.
End Operations.

(** ** Receiving *)
Lemma slot_of_wrap (i : Z) : slot_of (i + 1024) = slot_of i.
Proof. unfold slot_of, CXL_MSG_QUEUE_SIZE. f_equal. rewrite <- (Z.mod_add i 1 1024) by lia. f_equal. Qed.

Lemma slot_ok_state (limit st : Z) (m : cxl_msg) : st <> CXL_MSG_READY -> slot_ok limit m -> slot_ok limit (set_state st m).
Proof. intros Hst [Hl _]. by split. Qed.

Lemma advance_spec (limit : Z) (fuel : nat) (tail head : Z) (ms : list cxl_msg) :
  length ms = 1024%nat -> tail <= head <= tail + 1024 -> head - tail <= Z.of_nat fuel -> Forall (slot_ok limit) ms ->
  exists tail' ms', advance fuel tail head ms = Some (tail', ms') /\ tail <= tail' <= head /\ (length ms' = 1024%nat /\ Forall (slot_ok limit) ms')
    /\ (forall i, tail <= i < tail' -> state_at ms i = Some CXL_MSG_CONSUMED /\ state_at ms' i = Some CXL_MSG_EMPTY)
    /\ (tail' < head -> state_at ms tail' <> Some CXL_MSG_CONSUMED) /\ (forall i, tail' <= i < tail + 1024 -> ms' !! slot_of i = ms !! slot_of i).
Proof.
  revert tail ms. induction fuel as [|fuel IH]; intros tail ms Hl Hw Hf Hs; cbn [advance].
  { rewrite (proj2 (Z.ltb_ge _ _)) by lia. exists tail, ms. split_and!; try done; lia. }
  destruct (Z.ltb_spec tail head) as [Hlt|Hge]; [|exists tail, ms; split_and!; try done; lia].
  destruct (slot_present ms tail Hl) as [m Hm]. rewrite Hm. cbn [mbind option_bind]. destruct (mg_state m =? CXL_MSG_CONSUMED) eqn:E.
  - apply Z.eqb_eq in E. set (ms1 := <[slot_of tail := set_state CXL_MSG_EMPTY m]> ms).
    destruct (IH (tail + 1) ms1) as (t' & ms' & -> & Ht & Hl' & Hcons & Hstop & Hsame); [unfold ms1; by rewrite length_insert|lia|lia| |].
    { apply Forall_insert; [done|]. apply slot_ok_state; [done|]. by eapply Forall_lookup_1. }
    exists t', ms'. split; [done|]. split; [lia|]. split; [done|]. split_and!.
    + intros i Hi. destruct (decide (i = tail)) as [->|Hn].
      * split; [unfold state_at; rewrite Hm; cbn; by rewrite E|]. unfold state_at. rewrite <- (slot_of_wrap tail), Hsame by lia. rewrite slot_of_wrap.
        apply (state_at_insert_eq ms tail (set_state CXL_MSG_EMPTY m) Hl).
      * destruct (Hcons i ltac:(lia)) as [H1 H2]. split; [|done]. revert H1. unfold state_at, ms1. by rewrite lookup_other by lia.
    + intros Hlt'. specialize (Hstop Hlt'). revert Hstop. unfold state_at, ms1. by rewrite lookup_other by lia.
    + intros i Hi. rewrite Hsame by lia. unfold ms1. apply lookup_other; lia.
  - exists tail, ms. split; [done|]. split; [lia|]. split; [done|]. split_and!; [intros i Hi; lia| |done]. intros _. unfold state_at. rewrite Hm. cbn. intros [= H]. by rewrite H in E.
Qed.

(** The message at [j] is taken out of the queue. *)
Lemma box_consume (limit : Z) (data : gmap Z Z) (j : Z) (m : cxl_msg) (b : cxl_rank_mailbox) :
  box_ok limit b -> mb_tail b <= j < mb_head b -> mb_messages b !! slot_of j = Some m -> mg_state m = CXL_MSG_READY ->
  let ms := <[slot_of j := set_state CXL_MSG_CONSUMED m]> (mb_messages b) in
  omap (entry data ms) (seqZ (mb_tail b) (mb_head b - mb_tail b))
  = omap (entry data (mb_messages b)) (seqZ (mb_tail b) (j - mb_tail b)) ++ omap (entry data (mb_messages b)) (seqZ (j + 1) (mb_head b - (j + 1))).
Proof.
  intros (Hl & Hw & _) Hj Hm Er ms. rewrite (seqZ_around (mb_tail b) (mb_head b) j), omap_app by lia. cbn [omap list_omap].
  assert (En : entry data ms j = None) by (unfold entry, ms; rewrite list_lookup_insert_eq by (rewrite Hl; apply slot_of_lt); done).
  rewrite En. f_equal; apply omap_ext_in; intros i Hi; apply elem_of_seqZ in Hi; unfold entry, ms; rewrite lookup_other by lia; done.
Qed.

Definition consumed_at (b : cxl_rank_mailbox) (j : Z) (m : cxl_msg) : option cxl_rank_mailbox :=
  let ms := <[slot_of j := set_state CXL_MSG_CONSUMED m]> (mb_messages b) in
  if j =? mb_tail b then
    '(tail, ms') ← advance (Z.to_nat (mb_head b - mb_tail b)) (mb_tail b) (mb_head b) ms;
    Some (mkMailbox (mb_head b) tail (mb_active b) (mb_rank b) ms')
  else Some (set_messages ms b).

Lemma consumed_spec (limit : Z) (data : gmap Z Z) (j : Z) (m : cxl_msg) (b : cxl_rank_mailbox) :
  box_ok limit b -> mb_tail b <= j < mb_head b -> mb_messages b !! slot_of j = Some m -> mg_state m = CXL_MSG_READY ->
  exists b', consumed_at b j m = Some b' /\ box_ok limit b' /\ mb_head b' = mb_head b
    /\ box data b' = omap (entry data (mb_messages b)) (seqZ (mb_tail b) (j - mb_tail b)) ++ omap (entry data (mb_messages b)) (seqZ (j + 1) (mb_head b - (j + 1))).
Proof.
  intros Hok Hj Hm Er. rewrite <- (box_consume limit data j m b) by done. pose proof Hok as (Hl & Hw & Hs & Hin & Ht & Hout).
  unfold consumed_at. set (ms := <[slot_of j := set_state CXL_MSG_CONSUMED m]> (mb_messages b)).
  assert (Hlm : length ms = 1024%nat) by (unfold ms; by rewrite length_insert).
  assert (Hsm : Forall (slot_ok limit) ms) by (apply Forall_insert; [done|]; apply slot_ok_state; [done|]; by eapply Forall_lookup_1).
  assert (Hjc : state_at ms j = Some CXL_MSG_CONSUMED) by by apply state_at_insert_eq.
  assert (Hsame : forall i, i <> j -> mb_tail b <= i < mb_tail b + 1024 -> ms !! slot_of i = mb_messages b !! slot_of i) by (intros i Hn Hi; apply lookup_other; lia).
  assert (Hin' : forall i, mb_tail b <= i < mb_head b -> state_at ms i = Some CXL_MSG_READY \/ state_at ms i = Some CXL_MSG_CONSUMED).
  { intros i Hi. destruct (decide (i = j)) as [->|Hn]; [by right|]. unfold state_at. rewrite Hsame by lia. by apply Hin. }
  assert (Hout' : forall i, mb_head b <= i < mb_tail b + 1024 -> state_at ms i = Some CXL_MSG_EMPTY) by (intros i Hi; unfold state_at; rewrite Hsame by lia; by apply Hout).
  destruct (Z.eqb_spec j (mb_tail b)) as [->|Hne].
  - destruct (advance_spec limit (Z.to_nat (mb_head b - mb_tail b)) (mb_tail b) (mb_head b) ms) as (t' & ms' & -> & Htl & [Hl' Hs'] & Hcons & Hstop & Hkeep); [done|lia|lia|done|].
    cbn [mbind option_bind]. eexists. split; [done|]. assert (Htl' : mb_tail b < t') by (destruct (decide (t' = mb_tail b)) as [->|]; [by specialize (Hstop ltac:(lia))|lia]).
    split; [|split; [done|]].
    + split; [done|]. split; [cbn; lia|]. split; [done|]. cbn [mb_head mb_tail mb_messages]. split_and!.
      * intros i Hi. unfold state_at. rewrite Hkeep by lia. apply Hin'. lia.
      * intros Hlt. specialize (Hstop Hlt). destruct (Hin' t' ltac:(lia)) as [E|E]; [|done]. unfold state_at in *. by rewrite Hkeep by lia.
      * intros i Hi. destruct (decide (i < mb_tail b + 1024)) as [Hb|Hb]; [unfold state_at; rewrite Hkeep by lia; apply Hout'; lia|].
        unfold state_at. replace i with (i - 1024 + 1024) by lia. rewrite slot_of_wrap. apply (Hcons (i - 1024)). lia.
    + unfold box. cbn [mb_head mb_tail mb_messages]. replace (mb_head b - mb_tail b) with ((t' - mb_tail b) + (mb_head b - t')) by lia. rewrite seqZ_app, omap_app by lia.
      replace (mb_tail b + (t' - mb_tail b)) with t' by lia. rewrite (omap_ext_in (entry data ms) (fun _ => None) (seqZ (mb_tail b) _)).
      * replace (omap (fun _ => None) (seqZ (mb_tail b) (t' - mb_tail b))) with (@nil message) by (symmetry; generalize (seqZ (mb_tail b) (t' - mb_tail b)); by induction l).
        cbn [app]. apply omap_ext_in. intros i Hi. apply elem_of_seqZ in Hi. unfold entry. by rewrite Hkeep by lia.
      * intros i Hi. apply elem_of_seqZ in Hi. destruct (Hcons i ltac:(lia)) as [E _]. unfold state_at in E. unfold entry. destruct (ms !! slot_of i) as [x|]; [|done]. cbn in *.
        injection E as E. by rewrite E.
  - eexists. split; [done|]. split; [|by split]. split; [done|]. split; [done|]. split; [done|]. cbn [mb_head mb_tail mb_messages set_messages]. split_and!; [done| |done].
    intros Hlt. unfold state_at. rewrite Hsame by lia. by apply Ht.
Qed.

Lemma payload_length (limit : Z) (data : gmap Z Z) (m : cxl_msg) : slot_ok limit m -> mg_state m = CXL_MSG_READY -> Z.of_nat (length (payload data m)) = mg_data_size m.
Proof.
  intros [Hl Hr] E. destruct (Hr E) as [Hs Hx]. unfold payload. destruct (mg_is_inline m); [rewrite length_take; lia|]. by apply length_read_bytes.
Qed.

Lemma copy_out_spec (limit max_size : Z) (g : cxl_mem) (data : gmap Z Z) (m : cxl_msg) :
  mapped g -> limit <= cm_size g -> 0 <= max_size -> slot_ok limit m -> mg_state m = CXL_MSG_READY ->
  copy_out g max_size data m = Some (Some (take (Z.to_nat (Z.min (mg_data_size m) max_size)) (payload data m))).
Proof.
  intros (Hb & Hz & Ht) Hlim Hmax [Hl Hr] E. destruct (Hr E) as [Hs Hx]. unfold copy_out, payload. destruct (mg_is_inline m).
  - rewrite (proj2 (Z.ltb_ge _ _)) by lia. rewrite take_take. do 3 f_equal. lia.
  - unfold rptr_to_ptr. rewrite (proj2 (Z.eqb_neq (mg_data_rptr m) CXL_RPTR_NULL)), (proj2 (Z.eqb_neq (cm_base g) 0)) by (unfold CXL_RPTR_NULL; lia). cbn [orb].
    rewrite (proj2 (Z.leb_gt (cm_size g) _)), wrap64_small, (proj2 (Z.eqb_neq _ 0)), (proj2 (Z.ltb_ge _ _)) by (unfold u64; lia).
    rewrite take_read_bytes by lia. do 3 f_equal. lia.
Qed.

(** A message that the receiver takes if it meets it. *)
Definition takes (source tag : Z) (ms : list cxl_msg) (i : Z) : bool :=
  match ms !! slot_of i with Some m => (mg_state m =? CXL_MSG_READY) && matches source tag m | None => false end.

Lemma scan_spec (limit max_size source tag : Z) (g : cxl_mem) (data : gmap Z Z) (b : cxl_rank_mailbox) (fuel : nat) (i : Z) :
  box_ok limit b -> mapped g -> limit <= cm_size g -> 0 <= max_size -> mb_head b - i <= Z.of_nat fuel ->
  (exists j m, i <= j < mb_head b /\ mb_messages b !! slot_of j = Some m /\ mg_state m = CXL_MSG_READY /\ matches source tag m = true
     /\ (forall k, i <= k < j -> takes source tag (mb_messages b) k = false)
     /\ scan fuel g max_size source tag data i b
        = (b' ← consumed_at b j m; Some (Some (take (Z.to_nat (Z.min (mg_data_size m) max_size)) (payload data m), mg_data_size m), b')))
  \/ ((forall k, i <= k < mb_head b -> takes source tag (mb_messages b) k = false) /\ scan fuel g max_size source tag data i b = Some (None, b)).
Proof.
  intros Hok Hg Hlim Hmax. revert i. induction fuel as [|fuel IH]; intros i Hf; cbn [scan].
  { rewrite (proj2 (Z.ltb_ge _ _)) by lia. right. split; [intros k Hk; lia|done]. }
  destruct (Z.ltb_spec i (mb_head b)) as [Hlt|Hge]; [|right; split; [intros k Hk; lia|done]]. pose proof Hok as (Hl & _ & Hs & _).
  destruct (slot_present (mb_messages b) i Hl) as [m Hm]. rewrite Hm. cbn [mbind option_bind].
  assert (Et : takes source tag (mb_messages b) i = (mg_state m =? CXL_MSG_READY) && matches source tag m) by (unfold takes; by rewrite Hm).
  rewrite <- negb_andb, <- Et. destruct (takes source tag (mb_messages b) i) eqn:E; cbn [negb].
  - left. symmetry in Et. apply andb_true_iff in Et as [Er Em]. apply Z.eqb_eq in Er. exists i, m. split; [lia|]. split_and!; [done..|intros k Hk; lia|].
    rewrite (copy_out_spec limit) by (done || by eapply Forall_lookup_1). cbn [mbind option_bind]. unfold consumed_at. destruct (i =? mb_tail b); [|done].
    by destruct (advance _ _ _ _) as [[t ms]|].
  - destruct (IH (i + 1) ltac:(lia)) as [(j & x & Hj & Hx & Hrx & Hmx & Hno & ->)|[Hno ->]].
    + left. exists j, x. split; [lia|]. split_and!; [done..| |done]. intros k Hk. destruct (decide (k = i)) as [->|]; [done|]. apply Hno. lia.
    + right. split; [|done]. intros k Hk. destruct (decide (k = i)) as [->|]; [done|]. apply Hno. lia.
Qed.

(** Entries that are not taken are not wanted. *)
Lemma not_wanted (source tag a n : Z) (data : gmap Z Z) (ms : list cxl_msg) :
  (forall k, a <= k < a + n -> takes source tag ms k = false) -> Forall (fun x => wanted source tag x = false) (omap (entry data ms) (seqZ a n)).
Proof.
  intros Hk. apply Forall_forall. intros x Hx. apply list_elem_of_omap in Hx as (k & Hin & Ex). apply elem_of_seqZ in Hin. specialize (Hk k ltac:(lia)).
  unfold takes in Hk. unfold entry in Ex. destruct (ms !! slot_of k) as [m|]; [|done]. cbn [mbind option_bind] in Ex. destruct (mg_state m =? CXL_MSG_READY); [|done].
  injection Ex as <-. exact Hk.
Qed.

Lemma cxl_recv_refines (size n max_size source tag : Z) (g : cxl_mem) (s : shared) :
  shared_ok size n s -> view_ok size g -> 0 <= max_size -> cm_comm_enabled g = true -> 0 <= cm_my_rank g < CXL_MAX_RANKS ->
  exists out s', cxl_recv max_size source tag g s = Some (out, s') /\ shared_ok size (n + 1) s'
    /\ spec_step (cm_my_rank g) (OpRecv max_size source tag) (boxes s) (OutRecv out) (boxes s') /\ (out = None -> s' = s).
Proof.
  intros Hs Hg Hmax Hen Hr. pose proof Hs as (Ho & Hz & Hl & Hall). pose proof Hg as (Hm & Hsz & Hi). unfold cxl_recv, CXL_MAX_RANKS in *. rewrite Hen, (proj2 (Z.ltb_ge _ _)) by lia. cbn [negb orb].
  destruct (lookup_lt_is_Some_2 (sd_mailboxes s) (Z.to_nat (cm_my_rank g)) ltac:(lia)) as [b Hb]. rewrite Hb. cbn [mbind option_bind].
  destruct (Forall_lookup_1 _ _ _ _ Hall Hb) as [Hok Hhead]. pose proof Hok as (_ & Hw & _). pose proof (lookup_boxes s _ b Hb) as Hq.
  destruct (Z.leb_spec (mb_head b) (mb_tail b)) as [He|He].
  { exists None, s. split; [done|]. split; [by apply shared_ok_mono|]. split; [|done]. eapply SpecNone; [exact Hq|]. unfold box. by replace (mb_head b - mb_tail b) with 0 by lia. }
  destruct (scan_spec (offset s) max_size source tag g (sd_data s) b (Z.to_nat (mb_head b - mb_tail b)) (mb_tail b) Hok Hm) as [(j & m & Hj & Hx & Hrx & Hmx & Hno & ->)|[Hno ->]]; [lia|done|lia| |].
  - destruct (consumed_spec (offset s) (sd_data s) j m b Hok Hj Hx Hrx) as (b' & -> & Hok' & Hhead' & Hbox). cbn [mbind option_bind].
    destruct (shared_update size n s (set_mailbox (cm_my_rank g) b' s) (Z.to_nat (cm_my_rank g)) b b' Hs Hb eq_refl) as [H1 H2]; [unfold offset in *; cbn; lia|exact Hok'|lia|done|].
    do 2 eexists. split; [done|]. split; [exact H1|]. split; [|done]. rewrite H2. cbn [sd_data set_mailbox]. rewrite Hbox.
    assert (Hpl : Z.of_nat (length (payload (sd_data s) m)) = mg_data_size m).
    { apply (payload_length (offset s)); [|done]. destruct Hok as (_ & _ & Hsl & _). by eapply Forall_lookup_1. }
    rewrite <- Hpl. apply (SpecReceived _ _ _ _ _ (box (sd_data s) b) (mg_source_rank m, mg_tag m, payload (sd_data s) m) _ Hq).
    unfold box. rewrite (seqZ_around (mb_tail b) (mb_head b) j), omap_app by lia. cbn [omap list_omap].
    assert (Ej : entry (sd_data s) (mb_messages b) j = Some (mg_source_rank m, mg_tag m, payload (sd_data s) m)) by (unfold entry; rewrite Hx; cbn; by rewrite Hrx).
    rewrite Ej. apply take_first_app; [|exact Hmx]. apply not_wanted. intros k Hk. apply Hno. lia.
  - cbn [mbind option_bind]. exists None. eexists. split; [done|].
    assert (E : set_mailbox (cm_my_rank g) b s = s) by (unfold set_mailbox; rewrite list_insert_id by done; by destruct s).
    rewrite E. split; [by apply shared_ok_mono|]. split; [|done]. eapply SpecNone; [exact Hq|]. apply take_first_none, not_wanted. intros k Hk. apply Hno. lia.
Qed.

(** ** From the start of the program *)

(** The memory has room for the structures, whatever is in it. *)
Definition shaped (s : shared) : Prop :=
  length (sd_mailboxes s) = 256%nat /\ Forall (fun b => length (mb_messages b) = 1024%nat /\ Forall (fun m => length (mg_inline_data m) = 4096%nat) (mb_messages b)) (sd_mailboxes s).

Definition idle_box (b : cxl_rank_mailbox) : Prop :=
  length (mb_messages b) = 1024%nat /\ mb_head b = 0 /\ mb_tail b = 0 /\ Forall (fun m => length (mg_inline_data m) = 4096%nat /\ mg_state m = CXL_MSG_EMPTY) (mb_messages b).

Definition idle (size : Z) (s : shared) : Prop :=
  sh_magic (sd_header s) = CXL_SHM_MAGIC /\ (0 <= offset s <= size /\ size < 2 ^ 63) /\ length (sd_mailboxes s) = 256%nat /\ Forall idle_box (sd_mailboxes s).

Lemma idle_box_ok (limit : Z) (data : gmap Z Z) (b : cxl_rank_mailbox) : idle_box b -> box_ok limit b /\ box data b = [].
Proof.
  intros (Hl & Eh & Et & Hm). split.
  - split; [done|]. split; [lia|]. split; [eapply Forall_impl; [exact Hm|]; intros m [H1 H2]; split; [done|by rewrite H2]|]. split; [intros i Hi; lia|]. split; [lia|].
    intros i _. destruct (slot_present (mb_messages b) i Hl) as [m E]. unfold state_at. rewrite E. destruct (Forall_lookup_1 _ _ _ _ Hm E) as [_ Hs]. cbn. by rewrite Hs.
  - unfold box. by rewrite Eh, Et.
Qed.

Lemma idle_ok (size : Z) (s : shared) : idle size s -> shared_ok size 0 s /\ boxes s = replicate 256 [].
Proof.
  intros (_ & Ho & Hl & Hall). split.
  - split; [lia|]. split; [lia|]. split; [done|]. eapply Forall_impl; [exact Hall|]. intros b Hb. split; [by apply (idle_box_ok _ ∅)|]. destruct Hb as (_ & -> & _). lia.
  - unfold boxes. apply list_eq. intros i. rewrite list_lookup_fmap. destruct (sd_mailboxes s !! i) as [b|] eqn:E.
    + pose proof (lookup_lt_Some _ _ _ E). rewrite lookup_replicate_2 by lia. cbn. f_equal. apply (idle_box_ok 0). by eapply Forall_lookup_1.
    + apply lookup_ge_None in E. symmetry. apply lookup_ge_None. rewrite length_replicate. lia.
Qed.

Lemma fresh_idle (size : Z) (s : shared) : structures_size <= size < 2 ^ 63 -> align_up structures_size <= size -> shaped s -> idle size (fresh_structures size s).
Proof.
  intros Hs Ha [Hl Hm]. split; [done|]. pose proof (align_up_range structures_size). split; [unfold offset; cbn [fresh_structures sd_header sh_alloc_offset]; lia|]. cbn [fresh_structures sd_mailboxes].
  split; [by rewrite length_imap|]. apply Forall_lookup_2. intros i b E. rewrite list_lookup_imap in E. destruct (sd_mailboxes s !! i) as [b0|] eqn:E0; [|done]. injection E as <-.
  destruct (Forall_lookup_1 _ _ _ _ Hm E0) as [H1 H2]. split; [cbn; by rewrite length_fmap|]. split_and!; [done..|]. cbn. apply Forall_fmap. eapply Forall_impl; [exact H2|]. by intros m Hmm.
Qed.

(** A system whose mapping has the size of the pool and lies below the top of the address space. *)
Definition maps (size : Z) (y : system) : Prop :=
  exists base, map_memory y = Mapped base size true /\ 0 < base /\ base + size < 2 ^ 64.

Definition rank_ok (size rank : Z) (g : cxl_mem) : Prop := view_ok size g /\ cm_my_rank g = rank /\ cm_comm_enabled g = true.

Lemma register_idle (size rank k : Z) (y : system) (g : cxl_mem) (s : shared) :
  idle size s -> view_ok size g -> cm_dax g = true -> 0 <= rank < 256 -> (rank = 0 \/ sh_max_ranks (sd_header s) = wrap32 k) ->
  exists g' s', cxl_register_rank y rank k g s = Some (g', s') /\ idle size s' /\ rank_ok size rank g' /\ sh_max_ranks (sd_header s') = wrap32 k.
Proof.
  intros (Hm & Ho & Hl & Hall) (Hg & Hsz & Hi) Hdax Hr Hk. unfold cxl_register_rank, CXL_MAX_RANKS. rewrite Hi, Hdax, (proj2 (Z.ltb_ge rank 0)), (proj2 (Z.leb_gt 256 rank)) by lia. cbn [negb orb].
  rewrite orb_true_r. assert (Hbox : Forall idle_box (alter (open_mailbox rank) (Z.to_nat rank) (sd_mailboxes s))).
  { apply Forall_alter; [done|]. intros b _ (H1 & _ & _ & H2). by split_and!. }
  destruct (Z.eqb_spec rank 0) as [->|Hn].
  - do 2 eexists. split; [done|]. split; [|done]. split; [done|]. split; [done|]. split; [cbn [sd_mailboxes]; by rewrite length_alter|done].
  - destruct Hk as [?|Hk]; [done|]. rewrite Hk, Z.eqb_refl. do 2 eexists. split; [done|]. split; [|done]. split; [done|]. split; [done|]. split; [cbn [sd_mailboxes]; by rewrite length_alter|done].
Qed.

Lemma start_spec (size k : Z) (ys : list system) (rank : Z) (s : shared) :
  structures_size <= size -> 0 <= rank -> rank + Z.of_nat (length ys) <= 256 -> Forall (fun y => maps size y /\ sy_reset y = false) ys ->
  idle size s -> (rank = 0 \/ sh_max_ranks (sd_header s) = wrap32 k) ->
  exists gs s', start_ranks ys rank k s = Some (gs, s') /\ idle size s' /\ length gs = length ys
    /\ forall i g, gs !! i = Some g -> rank_ok size (rank + Z.of_nat i) g.
Proof.
  intros Hsize. revert rank s. induction ys as [|y ys IH]; intros rank s Hr0 Hr Hys Hs Hk; cbn [start_ranks]; [exists [], s; split_and!; [done..|]; intros i g; by rewrite lookup_nil|].
  apply Forall_cons in Hys as [((base & Emap & Hb & Ht) & Hres) Hys]. cbn [length] in Hr. pose proof Hs as (Hmag & Ho & _).
  unfold init_cxl_memory. cbn [cm_initialized cxl_mem_new]. rewrite Emap, Hmag, Z.eqb_refl, Hres. cbn [negb orb mbind option_bind].
  destruct (register_idle size rank k y (mkCxlMem base size (sh_alloc_offset (sd_header s)) true true (-1) 0 false) s Hs) as (g1 & s1 & E1 & Hs1 & Hg1 & Hk1); [|done|lia|done|].
  { split_and!; [|done..]. split_and!; cbn; lia. }
  cbn [cm_my_rank cm_world_size cm_comm_enabled cxl_mem_new] in *. rewrite E1. cbn [mbind option_bind].
  destruct (IH (rank + 1) s1) as (gs & s2 & -> & Hs2 & Hlen & Hall); [lia|lia|done|done|by right|]. cbn [mbind option_bind].
  do 2 eexists. split; [done|]. split; [done|]. split; [cbn; lia|]. intros [|i] g; cbn; [intros [= <-]; by rewrite Z.add_0_r|]. intros Hi. specialize (Hall i g Hi). by replace (rank + Z.of_nat (S i)) with (rank + 1 + Z.of_nat i) by lia.
Qed.

Definition op_ok (ranks : nat) (rop : nat * mpi_op) : Prop :=
  (rop.1 < ranks)%nat /\ match rop.2 with OpSend _ _ buf => Z.of_nat (length buf) <= 2 ^ 62 | OpRecv max_size _ _ => 0 <= max_size end.

(** Every send is answered as the state at that time says. *)
Fixpoint answered (size : Z) (ops : list (nat * mpi_op)) (outs : list mpi_out) (gs : list cxl_mem) (s : shared) : Prop :=
  match ops, outs with
  | (rank, op) :: ops', out :: outs' =>
      match op with OpSend dest _ buf => exists g, gs !! rank = Some g /\ out = OutSend (accepts size buf dest g s) | OpRecv _ _ _ => True end
      /\ exists gs1 s1, run_op rank op gs s = Some (out, gs1, s1) /\ answered size ops' outs' gs1 s1
  | [], [] => True
  | _, _ => False
  end.

Lemma run_refines (size : Z) (ops : list (nat * mpi_op)) (n : Z) (gs : list cxl_mem) (s : shared) :
  0 <= n -> n + Z.of_nat (length ops) < 2 ^ 62 -> shared_ok size n s -> (length gs <= 256)%nat -> (forall i g, gs !! i = Some g -> rank_ok size (Z.of_nat i) g) ->
  Forall (op_ok (length gs)) ops ->
  exists outs gs' s', run_ops ops gs s = Some (outs, gs', s') /\ spec_run ops (boxes s) outs (boxes s') /\ answered size ops outs gs s.
Proof.
  revert n gs s. induction ops as [|[rank op] ops IH]; intros n gs s Hn0 Hn Hs Hlen Hgs Hops; cbn [run_ops]; [exists [], gs, s; split; [done|]; split; [constructor|done]|].
  apply Forall_cons in Hops as [[Hr Hop] Hops]. cbn [fst snd length] in *. destruct (lookup_lt_is_Some_2 gs rank Hr) as [g Hg]. destruct (Hgs rank g Hg) as (Hview & Hrank & Hen).
  assert (Hnext : forall gs1 s1 out, run_op rank op gs s = Some (out, gs1, s1) -> shared_ok size (n + 1) s1 -> length gs1 = length gs -> (forall i g, gs1 !! i = Some g -> rank_ok size (Z.of_nat i) g) ->
    spec_step (Z.of_nat rank) op (boxes s) out (boxes s1) ->
    match op with OpSend dest _ buf => exists g, gs !! rank = Some g /\ out = OutSend (accepts size buf dest g s) | OpRecv _ _ _ => True end ->
    exists outs gs' s', ('(out, gs1, s1) ← run_op rank op gs s; '(outs, gs2, s2) ← run_ops ops gs1 s1; Some (out :: outs, gs2, s2)) = Some (outs, gs', s')
      /\ spec_run ((rank, op) :: ops) (boxes s) outs (boxes s') /\ answered size ((rank, op) :: ops) outs gs s).
  { intros gs1 s1 out E Hs1 Hl1 Hgs1 Hstep Hans. rewrite E. cbn [mbind option_bind].
    destruct (IH (n + 1) gs1 s1) as (outs & gs2 & s2 & -> & Hrun & Hrest); [lia|lia|done|lia|done|by rewrite Hl1|].
    cbn [mbind option_bind]. do 3 eexists. split; [done|]. split; [by econstructor|]. cbn [answered]. by eauto. }
  destruct op as [dest tag buf|max_size source tag].
  - destruct (cxl_send_refines size n ltac:(lia) buf dest tag (cm_my_rank g) g s Hs Hview Hop) as (ret & g' & s' & E & Hs' & Hv & Hsent & Hret).
    eapply Hnext; [unfold run_op; rewrite Hg; cbn [mbind option_bind]; by rewrite E|done|by rewrite length_insert| | |].
    + intros i x Hx. apply list_lookup_insert_Some in Hx as [(-> & -> & _)|[_ Hx]]; [|by apply Hgs]. destruct Hv as [u ->]. split; [by apply (view_same size g); [eexists|]|done].
    + unfold sent in Hsent. rewrite <- Hrank. destruct (ret =? 0); [|rewrite Hsent; constructor]. destruct Hsent as (q & Hq & ->). by constructor.
    + exists g. split; [done|]. rewrite Hret. by destruct (accepts size buf dest g s).
  - destruct (cxl_recv_refines size n max_size source tag g s Hs Hview Hop Hen) as (out & s' & E & Hs' & Hstep & _); [unfold CXL_MAX_RANKS; lia|].
    eapply Hnext; [unfold run_op; rewrite Hg; cbn [mbind option_bind]; by rewrite E|done|done|done| |done]. by rewrite <- Hrank.
Qed.

(** C23. From the start of the program on memory with any contents, the mailboxes of the ranks are
    queues of messages: whatever the ranks send and receive, one call at a time, no access leaves the
    structures or the mapping, a message that was accepted, small or large, is at the end of the queue
    of its destination with its source, tag and bytes, and a receive gives the oldest message that
    matches, cut to its buffer, and removes exactly that one.  A send is refused only if the
    destination is no active rank, its ring is full, or the pool has no room for a large message. *)
Theorem mailbox_refines (size : Z) (y0 : system) (ys : list system) (ops : list (nat * mpi_op)) (s : shared)
    (Hsize : align_up structures_size <= size /\ size < 2 ^ 63) (Hs : shaped s) (H0 : maps size y0) (Hfirst : sh_magic (sd_header s) <> CXL_SHM_MAGIC \/ sy_reset y0 = true)
    (Hys : Forall (fun y => maps size y /\ sy_reset y = false) ys) (Hk : (S (length ys) <= 256)%nat)
    (Hops : Forall (op_ok (S (length ys))) ops) (Hn : Z.of_nat (length ops) < 2 ^ 62) :
  exists gs s1 outs gs' s2, start_ranks (y0 :: ys) 0 (Z.of_nat (S (length ys))) s = Some (gs, s1) /\ run_ops ops gs s1 = Some (outs, gs', s2)
    /\ spec_run ops (replicate 256 []) outs (boxes s2) /\ answered size ops outs gs s1.
Proof.
  set (k := Z.of_nat (S (length ys))). pose proof (align_up_enough structures_size ltac:(vm_compute; split; discriminate)) as Hal.
  assert (Hpos : 0 <= structures_size) by (vm_compute; discriminate).
  destruct H0 as (base & Emap & Hb & Ht). cbn [start_ranks]. unfold init_cxl_memory. cbn [cm_initialized cxl_mem_new]. rewrite Emap.
  assert (Einit : negb (sh_magic (sd_header s) =? CXL_SHM_MAGIC) || sy_reset y0 = true) by (destruct Hfirst as [H| ->]; [by rewrite (proj2 (Z.eqb_neq _ _) H)|apply orb_true_r]).
  rewrite Einit, (proj2 (Z.ltb_ge size structures_size)) by lia. cbn [mbind option_bind].
  pose proof (fresh_idle size s ltac:(lia) ltac:(lia) Hs) as Hidle.
  destruct (register_idle size 0 k y0 (mkCxlMem base size (sh_alloc_offset (sd_header (fresh_structures size s))) true true (-1) 0 false) _ Hidle) as (g1 & s1 & E1 & Hs1 & Hg1 & Hk1);
    [|done|lia|by left|]. { split_and!; [|done..]. split_and!; cbn; lia. }
  cbn [cm_my_rank cm_world_size cm_comm_enabled cxl_mem_new] in *. rewrite E1. cbn [mbind option_bind]. change (0 + 1) with 1.
  destruct (start_spec size k ys 1 s1) as (gs & s2 & -> & Hs2 & Hlen & Hgs); [lia|lia|lia|done|done|by right|]. cbn [mbind option_bind].
  destruct (idle_ok size s2 Hs2) as [Hok Hempty]. destruct (run_refines size ops 0 (g1 :: gs) s2) as (outs & gs' & s3 & E & Hrun & Hans); [lia|lia|done|cbn; lia| |cbn; by rewrite Hlen|].
  - intros [|i] g; cbn; [by intros [= <-]|]. intros Hi. specialize (Hgs i g Hi). by replace (Z.of_nat (S i)) with (1 + Z.of_nat i) by lia.
  - rewrite Hempty in Hrun. exists (g1 :: gs), s2, outs, gs', s3. done.
Qed.

(** Two ranks with the memory at different addresses; a small and a large message, received out of order. *)
Definition demo_system (base : Z) : system := mkSystem true None true (2 ^ 31) None (Some base) None true None false false.

Definition zero_memory : shared :=
  mkShared (mkShmHeader 0 0 0 0 0 0 0 0 0 0 []) (replicate 256 (mkMailbox 0 0 0 0 (replicate 1024 (mkMsg 0 0 0 0 0 (replicate 4096 0) false)))) ∅.

Definition demo_ops : list (nat * mpi_op) :=
  [(0%nat, OpSend 1 7 [1; 2; 3]); (0%nat, OpSend 1 8 (replicate 5000 9)); (1%nat, OpRecv 2 (-1) 8); (1%nat, OpRecv 10 0 (-1)); (1%nat, OpRecv 10 0 7)].

Lemma mailbox_refines_witness :
  exists gs s1 outs gs' s2, start_ranks [demo_system CXL_FIXED_ADDR; demo_system 65536] 0 2 zero_memory = Some (gs, s1)
    /\ run_ops demo_ops gs s1 = Some (outs, gs', s2) /\ spec_run demo_ops (replicate 256 []) outs (boxes s2) /\ answered (2 ^ 31) demo_ops outs gs s1.
Proof.
  apply (mailbox_refines (2 ^ 31) (demo_system CXL_FIXED_ADDR) [demo_system 65536] demo_ops zero_memory).
  - split; vm_compute; [discriminate|reflexivity].
  - split; [apply length_replicate|]. apply Forall_replicate. cbn [mb_messages]. split; [apply length_replicate|]. apply Forall_replicate. apply length_replicate.
  - exists CXL_FIXED_ADDR. split_and!; reflexivity.
  - left. discriminate.
  - constructor; [|constructor]. split; [|reflexivity]. exists 65536. split_and!; reflexivity.
  - cbn. lia.
  - repeat (constructor; [split; [cbn; lia|vm_compute; discriminate]|]). constructor.
  - reflexivity.
Defined.

(** ** What goes wrong *)
Definition empty_box : cxl_rank_mailbox := mkMailbox 0 0 1 0 (replicate 1024 (mkMsg 0 0 0 0 0 (replicate 4096 0) false)).

(** Both senders read the head before either moves it. *)
Lemma two_senders_run (m : cxl_msg) (rest : list cxl_msg) (active rank : Z) :
  mg_state m = CXL_MSG_EMPTY ->
  rtc sender_step (mkSenders (mkMailbox 0 0 active rank (m :: rest)) [SIdle; SIdle])
    (mkSenders (mkMailbox 2 0 active rank (set_state CXL_MSG_READY (set_state CXL_MSG_READY (fill_inline [22] (fill 5 6 1 (fill_inline [11] (fill 3 4 1 m))))) :: rest)) [SIdle; SIdle]).
Proof.
  intros Hm. eapply rtc_l; [by apply (SLoad _ _ 0)|]. eapply rtc_l; [by apply (SLoad _ _ 1)|]. cbn.
  eapply rtc_l; [by eapply (SFill _ _ 0 0 m 3 4 [11])|]. eapply rtc_l; [by eapply (SFill _ _ 1 0 _ 5 6 [22])|].
  eapply rtc_l; [by eapply (SMark _ _ 0)|]. eapply rtc_l; [by eapply (SMark _ _ 1)|]. eapply rtc_l; [by apply (SAdvance _ _ 0)|]. eapply rtc_l; [by apply (SAdvance _ _ 1)|]. apply rtc_refl.
Qed.

(** Two ranks that send to a third at the same time can both fill the same slot: both sends
    complete, the head has moved by two, and the queue holds only one message; the slot behind it
    is empty and will never be ready. *)
Theorem two_senders_lose :
  exists b, rtc sender_step (mkSenders empty_box [SIdle; SIdle]) (mkSenders b [SIdle; SIdle]) /\ mb_head b = 2 /\ mb_tail b = 0
    /\ box ∅ b = [(5, 6, [22])] /\ state_at (mb_messages b) 1 = Some CXL_MSG_EMPTY.
Proof. eexists. split; [exact (two_senders_run (mkMsg 0 0 0 0 0 (replicate 4096 0) false) (replicate 1023 (mkMsg 0 0 0 0 0 (replicate 4096 0) false)) 1 0 eq_refl)|]. split_and!; vm_compute; reflexivity. Qed.

(** A rank that registers again finds its positions at 0 but the slots as the last run left them.  If
    the first one was not empty, no message reaches the rank through its mailbox any more: every send
    to it is refused without any change, and every receive finds nothing. *)
Theorem register_stale_slot (y : system) (rank k : Z) (g g' : cxl_mem) (s s' : shared) (b : cxl_rank_mailbox) (m : cxl_msg)
    (Hi : cm_initialized g = true) (Hr : 0 <= rank < CXL_MAX_RANKS) (Hb : sd_mailboxes s !! Z.to_nat rank = Some b)
    (Hm : mb_messages b !! 0%nat = Some m) (Hst : mg_state m <> CXL_MSG_EMPTY) (Hreg : cxl_register_rank y rank k g s = Some (g', s')) :
  (forall buf tag source gx, cm_initialized gx = true -> cxl_send buf rank tag source gx s' = Some (-1, gx, s'))
  /\ (forall max_size source tag, cxl_recv max_size source tag g' s' = Some (None, s')).
Proof.
  unfold CXL_MAX_RANKS in *. assert (Hb' : sd_mailboxes s' !! Z.to_nat rank = Some (open_mailbox rank b) /\ cm_my_rank g' = rank).
  { unfold cxl_register_rank, CXL_MAX_RANKS in Hreg. rewrite Hi, (proj2 (Z.ltb_ge rank 0)), (proj2 (Z.leb_gt 256 rank)) in Hreg by lia. cbn [negb orb] in Hreg.
    destruct (rank =? 0); [|destruct (_ =? wrap32 k); [|done]]; injection Hreg as <- <-; cbn; by rewrite list_lookup_alter_eq, Hb. }
  destruct Hb' as [Hb' Hg']. split.
  - intros buf tag source gx Hx. unfold cxl_send, cxl_rank_available, CXL_MAX_RANKS. rewrite Hx, (proj2 (Z.ltb_ge rank 0)), (proj2 (Z.leb_gt 256 rank)), Hb' by lia.
    destruct (cm_comm_enabled gx); [|done]. cbn [negb orb mbind option_bind open_mailbox mb_active mb_head mb_tail mb_messages Z.eqb].
    change (CXL_MSG_QUEUE_SIZE <=? 0 ⊟ 0) with false. cbv iota. change (slot_of 0) with 0%nat. rewrite Hm. cbn [mbind option_bind]. by rewrite (proj2 (Z.eqb_neq _ _) Hst).
  - intros max_size source tag. unfold cxl_recv. rewrite Hg', Hb'. destruct (negb (cm_comm_enabled g') || (rank <? 0)); done.
Qed.

Lemma register_stale_slot_witness :
  let stale := mkMsg CXL_MSG_READY 1 7 CXL_RPTR_NULL 3 (replicate 4096 0) true in
  let s := mkShared (mkShmHeader CXL_SHM_MAGIC 1 0 4096 (2 ^ 31) 1 0 0 0 2 []) [mkMailbox 1 0 0 0 [stale]] ∅ in
  let g := mkCxlMem CXL_FIXED_ADDR (2 ^ 31) 4096 true true (-1) 0 false in
  exists g' s', cxl_register_rank (demo_system CXL_FIXED_ADDR) 0 2 g s = Some (g', s')
    /\ (forall buf tag source gx, cm_initialized gx = true -> cxl_send buf 0 tag source gx s' = Some (-1, gx, s'))
    /\ (forall max_size source tag, cxl_recv max_size source tag g' s' = Some (None, s')).
Proof.
  cbv zeta. do 2 eexists. split; [reflexivity|].
  eapply (register_stale_slot (demo_system CXL_FIXED_ADDR) 0 2 (mkCxlMem CXL_FIXED_ADDR (2 ^ 31) 4096 true true (-1) 0 false) _
    (mkShared (mkShmHeader CXL_SHM_MAGIC 1 0 4096 (2 ^ 31) 1 0 0 0 2 []) [mkMailbox 1 0 0 0 [mkMsg CXL_MSG_READY 1 7 CXL_RPTR_NULL 3 (replicate 4096 0) true]] ∅));
    [reflexivity|unfold CXL_MAX_RANKS; lia|reflexivity|reflexivity|discriminate|reflexivity].
Defined.

(** A receive that comes before its message waits in the MPI library, and the message then goes to the
    mailbox, where nobody looks: if no message matches when [MPI_Recv] is called, the receive is handed to
    the library, and a later [MPI_Send] that the mailbox accepts is not. *)
Theorem receive_first_misses (size n max_size source tag stag : Z) (buf : list Z) (g0 g1 : cxl_mem) (s : shared) (q : list message)
    (Hs : shared_ok size n s) (Hn : 0 <= n < 2 ^ 61) (H0 : rank_ok size (cm_my_rank g0) g0) (H1 : rank_ok size (cm_my_rank g1) g1)
    (Hr : 0 <= cm_my_rank g1 < CXL_MAX_RANKS) (Hmax : 0 <= max_size) (Hlen : Z.of_nat (length buf) <= 2 ^ 62)
    (Hq : boxes s !! Z.to_nat (cm_my_rank g1) = Some q) (Hnone : take_first (wanted source tag) q = None)
    (Hacc : accepts size buf (cm_my_rank g1) g0 s = true) :
  exists g0' s2, MPI_Recv false max_size source tag g1 s = Some (ReceiveFromMpi, g1, s)
    /\ MPI_Send false buf (cm_my_rank g1) stag g0 s = Some (SentCxl, g0', s2)
    /\ boxes s2 !! Z.to_nat (cm_my_rank g1) = Some (q ++ [(wrap32 (cm_my_rank g0), wrap32 stag, buf)]).
Proof.
  destruct H0 as (Hv0 & _ & He0), H1 as (Hv1 & _ & He1). unfold MPI_Recv. rewrite He1, (proj2 (Z.leb_le 0 (cm_my_rank g1))) by lia. cbn [andb].
  destruct (cxl_recv_refines size n max_size source tag g1 s Hs Hv1 Hmax He1 Hr) as (out & s1 & -> & Hs1 & Hstep & Hsame). cbn [mbind option_bind].
  assert (out = None) as -> by (inversion Hstep; subst; [done|]; simplify_eq). rewrite (Hsame eq_refl), andb_false_r.
  destruct (cxl_send_refines size n ltac:(lia) buf (cm_my_rank g1) stag (cm_my_rank g0) g0 s Hs Hv0 Hlen) as (ret & g0' & s2 & E2 & _ & _ & Hsent & Hret).
  rewrite Hacc in Hret. subst ret. exists g0', s2. split; [done|]. unfold MPI_Send. rewrite He0, E2. split; [done|].
  destruct Hsent as (q' & Hq' & ->). pose proof (eq_trans (eq_sym Hq) Hq') as [= <-]. apply list_lookup_insert_eq. by eapply lookup_lt_Some.
Qed.

(** Two ranks that have just started. *)
Definition demo_view (base rank : Z) : cxl_mem := mkCxlMem base (2 ^ 31) 0 true true rank 2 true.

Lemma demo_view_ok (base rank : Z) : 0 < base < 2 ^ 62 -> rank_ok (2 ^ 31) rank (demo_view base rank).
Proof. intros Hb. split; [|done]. split; [|done]. unfold mapped. cbn. lia. Qed.

Definition demo_shared : shared :=
  mkShared (mkShmHeader CXL_SHM_MAGIC 1 2 (align_up structures_size) (2 ^ 31) 1 0 0 0 2 []) (replicate 256 empty_box) ∅.

Lemma demo_shared_ok : shared_ok (2 ^ 31) 0 demo_shared /\ boxes demo_shared = replicate 256 [].
Proof.
  apply idle_ok. split; [reflexivity|]. split; [vm_compute; split; [split; discriminate|reflexivity]|]. split; [apply length_replicate|]. apply Forall_replicate.
  split; [apply length_replicate|]. split; [done|]. split; [done|]. apply Forall_replicate. split; [apply length_replicate|done].
Qed.

Lemma receive_first_misses_witness :
  exists g0' s2, MPI_Recv false 100 0 7 (demo_view 65536 1) demo_shared = Some (ReceiveFromMpi, demo_view 65536 1, demo_shared)
    /\ MPI_Send false [1; 2] 1 7 (demo_view CXL_FIXED_ADDR 0) demo_shared = Some (SentCxl, g0', s2)
    /\ boxes s2 !! Z.to_nat 1 = Some [(0, 7, [1; 2])].
Proof.
  apply (receive_first_misses (2 ^ 31) 0 100 0 7 7 [1; 2] (demo_view CXL_FIXED_ADDR 0) (demo_view 65536 1) demo_shared []).
  - apply demo_shared_ok.
  - lia.
  - by apply demo_view_ok.
  - by apply demo_view_ok.
  - unfold CXL_MAX_RANKS. cbn. lia.
  - lia.
  - cbn. lia.
  - rewrite (proj2 demo_shared_ok). reflexivity.
  - reflexivity.
  - vm_compute. reflexivity.
Defined.

(** When [MPI_Sendrecv] receives through the mailbox but cannot send through it, the library is asked for
    both parts: the message that was received is gone from the mailbox and is not given to the program. *)
Theorem sendrecv_drops (size n max_size dest stag source tag : Z) (buf : list Z) (others : nat -> shared -> shared) (g : cxl_mem) (s : shared) (q q' : list message) (m : message)
    (Hs : shared_ok size n s) (Hn : 0 <= n < 2 ^ 61) (Hg : rank_ok size (cm_my_rank g) g) (Hr : 0 <= cm_my_rank g < CXL_MAX_RANKS) (Hmax : 0 <= max_size)
    (Hlen : Z.of_nat (length buf) <= 2 ^ 62) (Hothers : forall k s, others k s = s)
    (Hq : boxes s !! Z.to_nat (cm_my_rank g) = Some q) (Hm : take_first (wanted source tag) q = Some (m, q')) (Hacc : accepts size buf dest g s = false) :
  exists g' s', MPI_Sendrecv others buf dest stag max_size source tag g s = Some (None, g', s') /\ boxes s' = <[Z.to_nat (cm_my_rank g) := q']> (boxes s).
Proof.
  destruct Hg as (Hv & _ & He). unfold MPI_Sendrecv. rewrite He, (proj2 (Z.leb_le 0 (cm_my_rank g))) by lia. cbn [andb].
  destruct (cxl_send_refines size n ltac:(lia) buf dest stag (cm_my_rank g) g s Hs Hv Hlen) as (ret & g1 & s1 & -> & Hs1 & Hview & Hsent & Hret). rewrite Hacc in Hret. subst ret.
  cbn [mbind option_bind cxl_recv_blocking]. rewrite Hothers. cbn in Hsent. destruct Hview as [u ->].
  destruct (cxl_recv_refines size (n + 1) max_size source tag (set_used u g) s1 Hs1 Hv Hmax He Hr) as (out & s2 & -> & _ & Hstep & _). cbn [mbind option_bind].
  rewrite Hsent in Hstep. change (cm_my_rank (set_used u g)) with (cm_my_rank g) in Hstep. inversion Hstep; subst; simplify_eq. by do 2 eexists.
Qed.

(** A message waits for the second rank. *)
Definition demo_message : cxl_msg := set_state CXL_MSG_READY (fill_inline [5] (fill 0 7 1 (mkMsg 0 0 0 0 0 (replicate 4096 0) false))).

Definition demo_waiting : shared := set_mailbox 1 (mkMailbox 1 0 1 0 (<[0%nat := demo_message]> (mb_messages empty_box))) demo_shared.

Lemma demo_waiting_ok : shared_ok (2 ^ 31) 1 demo_waiting /\ boxes demo_waiting = <[1%nat := [(0, 7, [5])]]> (replicate 256 []).
Proof.
  destruct demo_shared_ok as [H0 Hempty]. pose proof H0 as (Ho & _ & _ & Hall).
  destruct (inline_filled [5] (mkMsg 0 0 0 0 0 (replicate 4096 0) false) 0 7 (offset demo_shared) (length_replicate _ _)) as [Hf Hp]; [cbn; lia|].
  assert (Hb1 : sd_mailboxes demo_shared !! 1%nat = Some empty_box) by reflexivity. destruct (Forall_lookup_1 _ _ _ _ Hall Hb1) as [Hok _].
  destruct (box_push (offset demo_shared) ∅ _ empty_box Hok ltac:(cbn; lia) Hf eq_refl) as [Hok' Hbox].
  destruct (shared_update (2 ^ 31) 0 demo_shared demo_waiting 1 empty_box (mkMailbox 1 0 1 0 (<[0%nat := demo_message]> (mb_messages empty_box))) H0 Hb1 eq_refl) as [H1 H2];
    [change (offset demo_waiting) with (offset demo_shared); lia|exact Hok'|cbn; lia|done|].
  split; [exact H1|]. rewrite H2, Hempty. f_equal.
Qed.

Lemma sendrecv_drops_witness :
  exists g' s', MPI_Sendrecv (fun _ s => s) [1] 300 7 100 0 7 (demo_view 65536 1) demo_waiting = Some (None, g', s') /\ boxes s' = <[Z.to_nat 1 := []]> (boxes demo_waiting).
Proof.
  apply (sendrecv_drops (2 ^ 31) 1 100 300 7 0 7 [1] (fun _ s => s) (demo_view 65536 1) demo_waiting [(0, 7, [5])] [] (0, 7, [5])).
  - exact (proj1 demo_waiting_ok).
  - lia.
  - by apply demo_view_ok.
  - unfold CXL_MAX_RANKS. cbn. lia.
  - lia.
  - cbn. lia.
  - done.
  - rewrite (proj2 demo_waiting_ok). reflexivity.
  - reflexivity.
  - vm_compute. reflexivity.
Defined.
