(* ===== verification/MpiBarrier.v ===== *)
(** * The barriers of the MPI shim ([cxl_collective_barrier] and [cxl_barrier] of
    [workloads/gromacs/mpi_cxl_shim.c])

    A barrier for [n] ranks in shared memory: each rank reads the sense, counts itself, and waits for
    the sense to flip; the last one resets the count, counts the phase, and flips the sense.  The
    atomic operations of all ranks are interleaved in any order, over any number of rounds.  What a
    rank has completed ([bk_rounds]) is not part of the program.  [cxl_barrier] is the same without
    the phase.  The counters are [uint32_t].

    [barrier_safe] shows that no rank leaves a round before all have entered it, that all are given
    the same phase, and that the ranks never all wait. *)
From S2P Require Import Prelude.
#[local] Open Scope Z_scope.

Inductive barrier_pc :=
| Outside
| Sensed (my_sense : Z)
| Waits (my_sense : Z)
| Released
| Lasts (my_sense : Z)
| CountReset (my_sense : Z)
| PhaseCounted (my_sense new_phase : Z).

Record barrier_rank := mkRank {
  bk_pc : barrier_pc;
  bk_rounds : Z;              (* barriers completed *)
  bk_phase : Z                (* what the last one returned *)
}.

Record barrier := mkBarrier {
  br_count : Z;
  br_sense : Z;
  br_phase : Z;
  br_ranks : list barrier_rank
}.

Definition barrier_start (n : nat) : barrier := mkBarrier 0 0 0 (replicate n (mkRank Outside 0 0)).

Inductive barrier_step (n : Z) : barrier -> barrier -> Prop :=
| BSense c s f rs i k p :
    rs !! i = Some (mkRank Outside k p) -> barrier_step n (mkBarrier c s f rs) (mkBarrier c s f (<[i := mkRank (Sensed s) k p]> rs))
| BCount c s f rs i k p my :
    rs !! i = Some (mkRank (Sensed my) k p) ->
    barrier_step n (mkBarrier c s f rs)
      (mkBarrier (wrap32 (c + 1)) s f (<[i := mkRank (if wrap32 (c + 1) =? wrap32 n then Lasts my else Waits my) k p]> rs))
| BReset c s f rs i k p my :
    rs !! i = Some (mkRank (Lasts my) k p) -> barrier_step n (mkBarrier c s f rs) (mkBarrier 0 s f (<[i := mkRank (CountReset my) k p]> rs))
| BPhase c s f rs i k p my :
    rs !! i = Some (mkRank (CountReset my) k p) ->
    barrier_step n (mkBarrier c s f rs) (mkBarrier c s (wrap32 (f + 1)) (<[i := mkRank (PhaseCounted my (wrap32 (f + 1))) k p]> rs))
| BFlip c s f rs i k p my new :
    rs !! i = Some (mkRank (PhaseCounted my new) k p) ->
    barrier_step n (mkBarrier c s f rs) (mkBarrier c (wrap32 (1 - my)) f (<[i := mkRank Outside (k + 1) new]> rs))
| BSpin c s f rs i k p my :
    rs !! i = Some (mkRank (Waits my) k p) -> s <> my -> barrier_step n (mkBarrier c s f rs) (mkBarrier c s f (<[i := mkRank Released k p]> rs))
| BLeave c s f rs i k p :
    rs !! i = Some (mkRank Released k p) -> barrier_step n (mkBarrier c s f rs) (mkBarrier c s f (<[i := mkRank Outside (k + 1) f]> rs)).

(** ** Invariant *)

(** With [f] flips so far, what a rank can be doing. *)
Definition rank_ok (f : Z) (r : barrier_rank) : Prop :=
  match bk_pc r with
  | Outside => bk_rounds r = f
  | Sensed my => bk_rounds r = f /\ my = f mod 2
  | Waits my => (bk_rounds r = f /\ my = f mod 2) \/ (bk_rounds r + 1 = f /\ my = 1 - f mod 2)
  | Released => bk_rounds r + 1 = f
  | Lasts my | CountReset my => bk_rounds r = f /\ my = f mod 2
  | PhaseCounted my new => bk_rounds r = f /\ my = f mod 2 /\ new = wrap32 (f + 1)
  end /\ (bk_rounds r = 0 \/ bk_phase r = wrap32 (bk_rounds r)).

(** Ranks that have counted themselves in this round, the last one, and the stages of the last one. *)
Definition arrived (f : Z) (r : barrier_rank) : nat :=
  match bk_pc r with
  | Waits _ => if bk_rounds r =? f then 1 else 0
  | Lasts _ | CountReset _ | PhaseCounted _ _ => 1
  | _ => 0
  end.

Definition closing (r : barrier_rank) : nat := match bk_pc r with Lasts _ | CountReset _ | PhaseCounted _ _ => 1 | _ => 0 end.

Definition reset (r : barrier_rank) : nat := match bk_pc r with CountReset _ | PhaseCounted _ _ => 1 | _ => 0 end.

Definition counted (r : barrier_rank) : nat := match bk_pc r with PhaseCounted _ _ => 1 | _ => 0 end.

Definition barrier_ok (n : Z) (b : barrier) : Prop :=
  exists f, 0 <= f /\ br_sense b = f mod 2 /\ Forall (rank_ok f) (br_ranks b) /\ Z.of_nat (length (br_ranks b)) = n
    /\ let a := Z.of_nat (sum_of (arrived f) (br_ranks b)) in
       let c := Z.of_nat (sum_of closing (br_ranks b)) in
       let z := Z.of_nat (sum_of reset (br_ranks b)) in
       a <= n /\ c = (if a =? n then 1 else 0) /\ z <= c /\ br_count b = (if z =? 0 then a else 0)
       /\ br_phase b = wrap32 (f + Z.of_nat (sum_of counted (br_ranks b))).

(** ** Sums over the ranks *)
Lemma sum_of_le {A} (g : A -> nat) (l : list A) : (forall x, g x <= 1)%nat -> (sum_of g l <= length l)%nat.
Proof. intros Hg. induction l as [|x l IH]; cbn; [lia|]. specialize (Hg x). unfold sum_of in IH. lia. Qed.

Lemma sum_of_full {A} (g : A -> nat) (l : list A) : (forall x, g x <= 1)%nat -> sum_of g l = length l -> Forall (fun x => g x = 1%nat) l.
Proof.
  intros Hg. induction l as [|x l IH]; intros E; constructor; pose proof (sum_of_le g l Hg) as Hle; pose proof (Hg x) as Hx; cbn in E; fold (sum_of g l) in E; [lia|apply IH; lia].
Qed.

Lemma sum_of_single {A} (g : A -> nat) (l : list A) (i j : nat) (x y : A) :
  l !! i = Some x -> g x = 1%nat -> sum_of g l = 1%nat -> l !! j = Some y -> j <> i -> g y = 0%nat.
Proof.
  revert i j. induction l as [|z l IH]; intros i j Hi Hx E Hj Hn; [done|]. cbn in E. fold (sum_of g l) in E. destruct i as [|i], j as [|j]; cbn in Hi, Hj; [done| | |].
  - injection Hi as ->. assert (Hz : sum_of g l = 0%nat) by lia. clear -Hz Hj. revert j Hj. induction l as [|w l IH]; intros j Hj; [done|]. cbn in Hz. fold (sum_of g l) in Hz.
    destruct j as [|j]; cbn in Hj; [injection Hj as ->; lia|apply (IH ltac:(lia) j Hj)].
  - injection Hj as ->. assert (Hge : (g x <= sum_of g l)%nat); [|lia]. clear -Hi. revert i Hi. induction l as [|w l IH]; intros i Hi; [done|]. cbn. fold (sum_of g l).
    destruct i as [|i]; cbn in Hi; [injection Hi as ->; lia|specialize (IH i Hi); lia].
  - destruct (decide (g z = 0%nat)) as [Hz|Hz]; [apply (IH i j Hi Hx ltac:(lia) Hj ltac:(lia))|]. exfalso.
    assert (Hge : (g x <= sum_of g l)%nat); [|lia]. clear -Hi. revert i Hi. induction l as [|w l IH]; intros i Hi; [done|]. cbn. fold (sum_of g l).
    destruct i as [|i]; cbn in Hi; [injection Hi as ->; lia|specialize (IH i Hi); lia].
Qed.

Lemma sum_of_zero {A} (g : A -> nat) (l : list A) : Forall (fun x => g x = 0%nat) l -> sum_of g l = 0%nat.
Proof. induction 1 as [|x l Hx _ IH]; [done|]. cbn. fold (sum_of g l). lia. Qed.

Lemma arrived_le (f : Z) (r : barrier_rank) : (arrived f r <= 1)%nat.
Proof. unfold arrived. repeat case_match; lia. Qed.

(** ** Preservation *)
Section Preservation.
Context (n : Z) (Hn : 1 <= n < 2 ^ 32).

(** The sums after rank [i] moves from [r] to [r']. *)
Lemma sums_insert (f : Z) (rs : list barrier_rank) (i : nat) (r r' : barrier_rank) :
  rs !! i = Some r ->
  Z.of_nat (sum_of (arrived f) (<[i := r']> rs)) = Z.of_nat (sum_of (arrived f) rs) + Z.of_nat (arrived f r') - Z.of_nat (arrived f r)
  /\ Z.of_nat (sum_of closing (<[i := r']> rs)) = Z.of_nat (sum_of closing rs) + Z.of_nat (closing r') - Z.of_nat (closing r)
  /\ Z.of_nat (sum_of reset (<[i := r']> rs)) = Z.of_nat (sum_of reset rs) + Z.of_nat (reset r') - Z.of_nat (reset r)
  /\ Z.of_nat (sum_of counted (<[i := r']> rs)) = Z.of_nat (sum_of counted rs) + Z.of_nat (counted r') - Z.of_nat (counted r).
Proof.
  intros Hi. pose proof (sum_of_insert (arrived f) rs i r r' Hi). pose proof (sum_of_insert closing rs i r r' Hi).
  pose proof (sum_of_insert reset rs i r r' Hi). pose proof (sum_of_insert counted rs i r r' Hi). lia.
Qed.

(** The stages of the last rank are nested. *)
Lemma stages_nested (rs : list barrier_rank) : (sum_of counted rs <= sum_of reset rs <= sum_of closing rs)%nat.
Proof.
  induction rs as [|r rs IH]; [done|]. cbn. fold (sum_of counted rs) (sum_of reset rs) (sum_of closing rs).
  unfold counted at 1, reset at 1 3, closing at 1. destruct (bk_pc r); lia.
Qed.

#[local] Opaque sum_of.

(** A step of one rank within a round. *)
Lemma step_within (f s c' p' : Z) (rs : list barrier_rank) (i : nat) (r r' : barrier_rank) :
  0 <= f -> s = f mod 2 -> Forall (rank_ok f) rs -> Z.of_nat (length rs) = n -> rs !! i = Some r -> rank_ok f r' ->
  (let a := Z.of_nat (sum_of (arrived f) rs) + Z.of_nat (arrived f r') - Z.of_nat (arrived f r) in
   let c := Z.of_nat (sum_of closing rs) + Z.of_nat (closing r') - Z.of_nat (closing r) in
   let z := Z.of_nat (sum_of reset rs) + Z.of_nat (reset r') - Z.of_nat (reset r) in
   a <= n -> c = (if a =? n then 1 else 0) /\ z <= c /\ c' = (if z =? 0 then a else 0)
   /\ p' = wrap32 (f + (Z.of_nat (sum_of counted rs) + Z.of_nat (counted r') - Z.of_nat (counted r)))) ->
  barrier_ok n (mkBarrier c' s p' (<[i := r']> rs)).
Proof.
  intros Hf Hs Hr Hl Hi Hr' H. pose proof (sum_of_le (arrived f) (<[i := r']> rs) (arrived_le f)) as Hle. rewrite length_insert in Hle.
  pose proof (sums_insert f rs i r r' Hi) as (E1 & E2 & E3 & E4). cbv zeta in H. rewrite <- E1, <- E2, <- E3, <- E4 in H.
  exists f. cbn [br_sense br_ranks br_count br_phase]. split; [done|]. split; [done|]. split; [by apply Forall_insert|]. split; [by rewrite length_insert|].
  cbv zeta. split; [lia|]. apply H. lia.
Qed.

(** While a rank is closing the round, every rank has arrived and only that one is closing. *)
Lemma closing_alone (f : Z) (rs : list barrier_rank) (i : nat) (r : barrier_rank) :
  Z.of_nat (length rs) = n -> Z.of_nat (sum_of closing rs) = (if Z.of_nat (sum_of (arrived f) rs) =? n then 1 else 0) ->
  rs !! i = Some r -> closing r = 1%nat ->
  sum_of closing rs = 1%nat /\ forall j x, rs !! j = Some x -> j <> i -> arrived f x = 1%nat /\ closing x = 0%nat.
Proof.
  intros Hl Hc Hi Hr. pose proof (sum_of_insert closing rs i r (mkRank Outside 0 0) Hi) as E. rewrite Hr in E. cbn in E.
  destruct (Z.eqb_spec (Z.of_nat (sum_of (arrived f) rs)) n) as [Ea|Ea]; [|lia]. split; [lia|]. intros j x Hj Hji.
  split; [|eapply (sum_of_single closing rs i j); [done..|lia|done|done]].
  exact (Forall_lookup_1 _ _ _ _ (sum_of_full (arrived f) rs (arrived_le f) ltac:(lia)) Hj).
Qed.

(** The last rank flips the sense: a new round begins, which no rank has entered. *)
Lemma flip_ok (c s p k q my new : Z) (rs : list barrier_rank) (i : nat) :
  rs !! i = Some (mkRank (PhaseCounted my new) k q) -> barrier_ok n (mkBarrier c s p rs) ->
  barrier_ok n (mkBarrier c (wrap32 (1 - my)) p (<[i := mkRank Outside (k + 1) new]> rs)).
Proof.
  intros Hi (f' & Hf & Hs & Hr & Hl & Ha & Hc & Hz & Hcount & Hphase). cbn [br_sense br_ranks br_count br_phase] in *.
  pose proof (Forall_lookup_1 _ _ _ _ Hr Hi) as [(Hk & -> & ->) Hret]. cbn [bk_pc bk_rounds bk_phase] in *. subst k.
  destruct (closing_alone f' rs i _ Hl Hc Hi eq_refl) as [Hone Hothers].
  set (r' := mkRank Outside (f' + 1) (wrap32 (f' + 1))).
  assert (Hmod : (f' + 1) mod 2 = 1 - f' mod 2) by (Z.to_euclidean_division_equations; lia).
  assert (Hall : Forall (fun x => rank_ok (f' + 1) x /\ arrived (f' + 1) x = 0%nat /\ closing x = 0%nat /\ reset x = 0%nat /\ counted x = 0%nat) (<[i := r']> rs)).
  { apply Forall_lookup_2. intros j x Hx. apply list_lookup_insert_Some in Hx as [(-> & <- & _)|[Hji Hx]].
    - split; [split; [done|by right]|done].
    - destruct (Hothers j x Hx ltac:(done)) as [Hax Hcx]. pose proof (Forall_lookup_1 _ _ _ _ Hr Hx) as [Hpx Hrx].
      unfold rank_ok, arrived, closing, reset, counted in *. destruct (bk_pc x); try done. destruct (Z.eqb_spec (bk_rounds x) f') as [Ex|]; [|done].
      rewrite (proj2 (Z.eqb_neq (bk_rounds x) (f' + 1))) by lia. split; [|done]. split; [|done]. right. rewrite Hmod. lia. }
  pose proof (sums_insert f' rs i _ r' Hi) as (_ & _ & _ & E4). pose proof (stages_nested rs) as Hnest. cbn in E4.
  assert (Hsum : forall g, (forall x, x ∈ <[i := r']> rs -> g x = 0%nat) -> sum_of g (<[i := r']> rs) = 0%nat).
  { intros g Hg. apply sum_of_zero, Forall_forall. done. }
  rewrite Forall_forall in Hall. pose proof (sum_of_insert counted rs i _ r' Hi) as E5. cbn in E5. pose proof (sum_of_insert reset rs i _ r' Hi) as E6. cbn in E6.
  exists (f' + 1). cbn [br_sense br_ranks br_count br_phase]. rewrite !Hsum by (intros x Hx; apply (Hall x Hx)).
  split_and!; [lia| |apply Forall_forall; intros x Hx; apply (Hall x Hx)|by rewrite length_insert|lia| |lia| |].
  - rewrite Hmod. apply wrap32_small. pose proof (Z.mod_pos_bound f' 2). lia.
  - rewrite (proj2 (Z.eqb_neq (Z.of_nat 0) n)) by lia. done.
  - cbn. rewrite (proj2 (Z.eqb_neq _ 0)) in Hcount by lia. done.
  - rewrite Hphase. f_equal. lia.
Qed.
(** The stages of the ranks other than [i] are nested too. *)
Lemma stages_nested_others (rs : list barrier_rank) (i : nat) (r : barrier_rank) :
  rs !! i = Some r -> (sum_of counted rs + reset r <= sum_of reset rs + counted r)%nat /\ (sum_of reset rs + closing r <= sum_of closing rs + reset r)%nat.
Proof.
  intros Hi. pose proof (stages_nested (<[i := mkRank Outside 0 0]> rs)) as H. pose proof (sum_of_insert closing rs i r (mkRank Outside 0 0) Hi) as E1.
  pose proof (sum_of_insert reset rs i r (mkRank Outside 0 0) Hi) as E2. pose proof (sum_of_insert counted rs i r (mkRank Outside 0 0) Hi) as E3. cbn in E1, E2, E3. lia.
Qed.

(** Decides the tests of the sums. *)
Ltac by_tests := repeat match goal with
  | |- context [?a =? ?b] => destruct (Z.eqb_spec a b)
  | H : context [?a =? ?b] |- _ => destruct (Z.eqb_spec a b)
  end; split_and?; try lia;
  try match goal with H : ?p = wrap32 _ |- ?p = wrap32 _ => rewrite H; f_equal; lia end.

Lemma barrier_step_ok (b b' : barrier) : barrier_step n b b' -> barrier_ok n b -> barrier_ok n b'.
Proof.
  intros Hstep Hb. destruct Hstep as [c s p rs i k q Hi|c s p rs i k q my Hi|c s p rs i k q my Hi|c s p rs i k q my Hi|c s p rs i k q my new Hi|c s p rs i k q my Hi Hne|c s p rs i k q Hi];
    [| | | |exact (flip_ok _ _ _ _ _ _ _ _ _ Hi Hb)| |];
    destruct Hb as (f & Hf & Hs & Hr & Hl & Ha & Hc & Hz & Hcount & Hphase); cbn [br_sense br_ranks br_count br_phase] in *;
    pose proof (Forall_lookup_1 _ _ _ _ Hr Hi) as [Hpc Hret]; cbn [bk_pc bk_rounds bk_phase] in Hpc, Hret; pose proof (stages_nested rs) as Hnest; pose proof (stages_nested_others rs i _ Hi) as Hnest'; cbn in Hnest';
    (eapply (step_within f); [done..|exact Hi| |cbv zeta; intros Ha'; cbn in Ha' |- *]).
  - by split.
  - rewrite !Z.add_0_r, !Z.sub_0_r. auto.
  - destruct Hpc as [-> ->]. split; [|done]. cbn. destruct (wrap32 (c + 1) =? wrap32 n); auto.
  - destruct Hpc as [-> _]. assert (Hlt : Z.of_nat (sum_of (arrived f) rs) < n /\ c = Z.of_nat (sum_of (arrived f) rs)).
    { revert Ha'. destruct (wrap32 (c + 1) =? wrap32 n); cbn; rewrite ?Z.eqb_refl; intros Ha'; by_tests. }
    rewrite (wrap32_small (c + 1)), (wrap32_small n) in * by lia. destruct (Z.eqb_spec (c + 1) n); cbn in *; rewrite ?Z.eqb_refl in *; by_tests.
  - by split.
  - by_tests.
  - split; [|done]. cbn. destruct Hpc as [-> ->]. split_and!; [done..|]. rewrite Hphase. unfold wrap32. rewrite Zplus_mod_idemp_l. f_equal. by_tests.
  - rewrite Hphase. unfold wrap32. rewrite Zplus_mod_idemp_l. by_tests; f_equal; lia.
  - split; [|done]. cbn. lia.
  - assert (E : k =? f = false) by lia. rewrite E. by_tests.
  - split; [cbn in *; lia|]. right. cbn. rewrite Hphase. f_equal. rewrite Hpc.
    assert (Hno : Z.of_nat (sum_of (arrived f) rs) < n); [|by_tests].
    pose proof (sums_insert f rs i _ (mkRank (Lasts 0) 0 0) Hi) as (E1 & _). cbn in E1.
    pose proof (sum_of_le (arrived f) (<[i := mkRank (Lasts 0) 0 0]> rs) (arrived_le f)) as Hle. rewrite length_insert in Hle. lia.
  - by_tests.
Qed.
End Preservation.

Lemma barrier_start_ok (n : nat) : (1 <= n)%nat -> barrier_ok (Z.of_nat n) (barrier_start n).
Proof.
  intros Hn. exists 0. cbn [barrier_start br_sense br_ranks br_count br_phase].
  assert (Hsum : forall g, g (mkRank Outside 0 0) = 0%nat -> sum_of g (replicate n (mkRank Outside 0 0)) = 0%nat).
  { intros g Hg. apply sum_of_zero, Forall_replicate. done. }
  rewrite !Hsum by done. split; [done|]. split; [done|]. split; [apply Forall_replicate; split; [done|by left]|]. split; [by rewrite length_replicate|].
  cbv zeta. destruct (Z.eqb_spec (Z.of_nat 0) (Z.of_nat n)); [lia|]. split_and!; try done. lia.
Qed.

Lemma barrier_reachable_ok (n : nat) (b : barrier) :
  (1 <= n)%nat -> Z.of_nat n < 2 ^ 32 -> rtc (barrier_step (Z.of_nat n)) (barrier_start n) b -> barrier_ok (Z.of_nat n) b.
Proof.
  intros Hn Hn' Hr. pose proof (barrier_start_ok n Hn) as Hok. revert Hr Hok. generalize (barrier_start n). intros b0 Hr.
  induction Hr as [|b0 b1 b2 Hs _ IH]; [done|]. intros Hok. apply IH, (barrier_step_ok (Z.of_nat n) ltac:(lia) _ _ Hs Hok).
Qed.

(** Some rank has not counted itself in the present round, or is closing it. *)
Lemma not_all_wait (n : Z) (b : barrier) :
  barrier_ok n b -> 1 <= n -> exists x, x ∈ br_ranks b /\ bk_pc x <> Waits (br_sense b).
Proof.
  intros (f & Hf & Hs & Hr & Hl & Ha & Hc & _) Hn. destruct (decide (Exists (fun x => closing x = 1%nat) (br_ranks b))) as [Hx|Hx].
  - apply Exists_exists in Hx as (x & Hx & E). exists x. split; [done|]. unfold closing in E. intros E'. by rewrite E' in E.
  - assert (Hz : sum_of closing (br_ranks b) = 0%nat).
    { apply sum_of_zero. apply not_Exists_Forall in Hx; [|intros y; exact _]. eapply Forall_impl; [exact Hx|]. cbn. intros y Hy.
      unfold closing in *. destruct (bk_pc y); done. }
    destruct (decide (Forall (fun x => arrived f x = 1%nat) (br_ranks b))) as [Hall|Hall].
    + exfalso. assert (Hfull : sum_of (arrived f) (br_ranks b) = length (br_ranks b)).
      { clear -Hall. induction Hall as [|x l Hx _ IH]; [done|]. cbn. fold (sum_of (arrived f) l). lia. }
      rewrite Hfull, Hl, Z.eqb_refl in Hc. lia.
    + apply not_Forall_Exists in Hall; [|intros y; exact _]. apply Exists_exists in Hall as (x & Hx' & E). exists x. split; [done|]. intros E'. apply E.
      pose proof (proj1 (Forall_forall _ _) Hr x Hx') as [Hpc _]. unfold arrived. rewrite E' in *. destruct (Z.eqb_spec (bk_rounds x) f) as [|Hne]; [done|].
      exfalso. destruct Hpc as [[? _]|[_ Hmy]]; [done|]. rewrite Hs in Hmy. Z.to_euclidean_division_equations; lia.
Qed.

(** C26. The barrier, for every interleaving of the atomic operations of the ranks and any number of
    rounds: a rank that has completed more barriers than another is exactly one ahead, and the other is
    inside that barrier with the sense already flipped, so no rank leaves a barrier that another has not
    entered; every rank is given the same phase number by the same barrier, the number of the barrier
    modulo [2^32]; and the ranks are never all waiting for the sense to flip. *)
Theorem barrier_safe (n : nat) (b : barrier) :
  (1 <= n)%nat -> Z.of_nat n < 2 ^ 32 -> rtc (barrier_step (Z.of_nat n)) (barrier_start n) b ->
  (forall x y, x ∈ br_ranks b -> y ∈ br_ranks b -> bk_rounds y < bk_rounds x ->
     bk_rounds x = bk_rounds y + 1 /\ (bk_pc y = Released \/ exists my, bk_pc y = Waits my /\ my <> br_sense b))
  /\ (forall x, x ∈ br_ranks b -> bk_rounds x <> 0 -> bk_phase x = wrap32 (bk_rounds x))
  /\ (exists x, x ∈ br_ranks b /\ bk_pc x <> Waits (br_sense b)).
Proof.
  intros Hn Hn' Hr. pose proof (barrier_reachable_ok n b Hn Hn' Hr) as Hok. split_and!; [| |exact (not_all_wait _ _ Hok ltac:(lia))];
    destruct Hok as (f & Hf & Hs & Hall & _); rewrite Forall_forall in Hall.
  - intros x y Hx Hy Hlt. pose proof (Hall x Hx) as [Hpx _]. pose proof (Hall y Hy) as [Hpy _].
    assert (Hxf : bk_rounds x = f \/ bk_rounds x + 1 = f) by (destruct (bk_pc x); tauto).
    destruct (bk_pc y) as [|my|my| |my|my|my new]; try lia; [|by split; [lia|left]].
    split; [lia|]. right. exists my. split; [done|]. rewrite Hs. Z.to_euclidean_division_equations; lia.
  - intros x Hx Hne. pose proof (Hall x Hx) as [_ [?|?]]; done.
Qed.

(** Two ranks; the first has left the barrier and the second is still inside. *)
Definition demo_barrier : barrier := mkBarrier 0 1 1 [mkRank Outside 1 1; mkRank (Waits 0) 0 0].

Lemma demo_barrier_reached : rtc (barrier_step (Z.of_nat 2)) (barrier_start 2) demo_barrier.
Proof.
  eapply rtc_l; [eapply (BSense _ _ _ _ _ 1%nat); reflexivity|cbn]. eapply rtc_l; [eapply (BCount _ _ _ _ _ 1%nat); reflexivity|cbn].
  eapply rtc_l; [eapply (BSense _ _ _ _ _ 0%nat); reflexivity|cbn]. eapply rtc_l; [eapply (BCount _ _ _ _ _ 0%nat); reflexivity|cbn].
  eapply rtc_l; [eapply (BReset _ _ _ _ _ 0%nat); reflexivity|cbn]. eapply rtc_l; [eapply (BPhase _ _ _ _ _ 0%nat); reflexivity|cbn].
  eapply rtc_l; [eapply (BFlip _ _ _ _ _ 0%nat); reflexivity|cbn]. apply rtc_refl.
Qed.

Lemma barrier_safe_witness : exists my, bk_pc (mkRank (Waits 0) 0 0) = Waits my /\ my <> br_sense demo_barrier.
Proof.
  destruct (barrier_safe 2 demo_barrier ltac:(lia) ltac:(lia) demo_barrier_reached) as (H & _).
  destruct (H (mkRank Outside 1 1) (mkRank (Waits 0) 0 0)) as [_ [E|E]]; [left|right; left|reflexivity|discriminate E|exact E].
Defined.
