(* ===== verification/MpiCollective.v ===== *)
(** * Collective operations of the MPI shim ([MPI_Bcast], [MPI_Allreduce], [MPI_Allgather],
    [MPI_Alltoall], [MPI_Gather] and [MPI_Scatter] of [workloads/gromacs/mpi_cxl_shim.c])

    A small collective on all ranks is done in shared memory: each rank copies what it sends to the
    pool and registers the copy in the header, all ranks meet in the barrier of the MPI library, each
    copies what it receives out of the memory of the others, and all meet again.  A rank that cannot
    do its part calls the collective of the library instead.  Each function is its part up to the
    first barrier ([.._enter]) and its part between the barriers ([.._read]); [coll_step] runs the
    parts of all ranks in any order and lets a barrier of the library go when all ranks are in it.
    The calls of the library are outcomes; nothing is assumed of them but that a barrier waits for
    all.

    [collective_correct] shows for all six operations that, whatever the order, all ranks return with
    the bytes that MPI asks for, when the pool has room; [collective_mismatch] and
    [bcast_root_mismatch] that the ranks are stuck in different calls of the library when it has not;
    [allreduce_differs] that ranks are given different sums of the same numbers. *)
From Stdlib Require Import Floats.SpecFloat.
From S2P Require Import Prelude Double MpiPool MpiMailbox.
#[local] Open Scope Z_scope.

(** ** Registered buffers *)
Definition set_data_rptr (l : list Z) (h : cxl_shm_header) : cxl_shm_header :=
  mkShmHeader (sh_magic h) (sh_version h) (sh_num_ranks h) (sh_alloc_offset h) (sh_total_size h) (sh_initialized h)
    (sh_barrier_count h) (sh_barrier_sense h) (sh_phase h) (sh_max_ranks h) l.

Definition cxl_collective_register_buffer (g : cxl_mem) (rank buf : Z) (s : shared) : shared :=
  if negb (cm_initialized g) || (rank <? 0) || (CXL_MAX_RANKS <=? rank) then s
  else set_header (set_data_rptr (<[Z.to_nat rank := ptr_to_rptr g buf]> (sh_data_rptr (sd_header s))) (sd_header s)) s.

Definition cxl_collective_get_buffer (g : cxl_mem) (rank : Z) (s : shared) : option Z :=
  if negb (cm_initialized g) || (rank <? 0) || (CXL_MAX_RANKS <=? rank) then Some 0
  else rptr ← sh_data_rptr (sd_header s) !! Z.to_nat rank; Some (rptr_to_ptr g rptr).

Definition cxl_collective_clear_buffers (g : cxl_mem) (num_ranks : Z) (s : shared) : shared :=
  if negb (cm_initialized g) then s
  else let n := Z.to_nat (Z.min num_ranks CXL_MAX_RANKS) in
       set_header (set_data_rptr (replicate n CXL_RPTR_NULL ++ drop n (sh_data_rptr (sd_header s))) (sd_header s)) s.

(** ** Copies between private buffers and the mapping; [None] when they leave either *)
Definition copy_to_pool (g : cxl_mem) (ptr : Z) (buf : list Z) (n : Z) (s : shared) : option shared :=
  bs ← mem_read 0 n buf;
  if cm_base g + cm_size g <? ptr + n then None
  else Some (mkShared (sd_header s) (sd_mailboxes s) (write_bytes (ptr - cm_base g) bs (sd_data s))).

Definition copy_from_pool (g : cxl_mem) (ptr n : Z) (s : shared) : option (list Z) :=
  if cm_base g + cm_size g <? ptr + n then None else Some (read_bytes (ptr - cm_base g) n (sd_data s)).

(** ** Numbers in buffers *)
Inductive datatype := MPI_DOUBLE | MPI_FLOAT | MPI_INT | MPI_LONG | MPI_LONG_LONG | OtherType (size : Z).

Definition type_size (t : datatype) : Z :=
  match t with MPI_DOUBLE | MPI_LONG | MPI_LONG_LONG => 8 | MPI_FLOAT | MPI_INT => 4 | OtherType n => n end.

#[global] Instance datatype_eq_dec : EqDecision datatype.
Proof. solve_decision. Defined.

Definition signed (w v : Z) : Z := if v <? 2 ^ (w - 1) then v else v - 2 ^ w.

(** IEEE formats with [mw] bits of mantissa and [ew] of exponent.  All NaNs are one. *)
Definition float_of_bits (mw ew b : Z) : spec_float :=
  let s := Z.testbit b (mw + ew) in
  let e := (b / 2 ^ mw) mod 2 ^ ew in
  let m := b mod 2 ^ mw in
  let bias := 2 ^ (ew - 1) - 1 in
  if e =? 0 then if m =? 0 then S754_zero s else S754_finite s (Z.to_pos m) (1 - bias - mw)
  else if e =? 2 ^ ew - 1 then if m =? 0 then S754_infinity s else S754_nan
  else S754_finite s (Z.to_pos (m + 2 ^ mw)) (e - bias - mw).

Definition bits_of_float (mw ew : Z) (x : spec_float) : Z :=
  let sign (s : bool) := if s then 2 ^ (mw + ew) else 0 in
  let bias := 2 ^ (ew - 1) - 1 in
  match x with
  | S754_zero s => sign s
  | S754_infinity s => sign s + (2 ^ ew - 1) * 2 ^ mw
  | S754_nan => (2 ^ ew - 1) * 2 ^ mw + 2 ^ (mw - 1)
  | S754_finite s m e => if Z.pos m <? 2 ^ mw then sign s + Z.pos m else sign s + (e + bias + mw) * 2 ^ mw + (Z.pos m - 2 ^ mw)
  end.

(** [dst[i] += src[i]] on the bytes of one element; a signed overflow is undefined. *)
Definition add_float (mw ew prec emax : Z) (n : nat) (x y : list Z) : list Z :=
  le_split n (bits_of_float mw ew (SFadd prec emax (float_of_bits mw ew (le_combine x)) (float_of_bits mw ew (le_combine y)))).

Definition add_signed (n : nat) (x y : list Z) : option (list Z) :=
  let w := 8 * Z.of_nat n in
  let v := signed w (le_combine x) + signed w (le_combine y) in
  if (- 2 ^ (w - 1) <=? v) && (v <? 2 ^ (w - 1)) then Some (le_split n (v mod 2 ^ w)) else None.

Definition add_element (t : datatype) (x y : list Z) : option (list Z) :=
  match t with
  | MPI_DOUBLE => Some (add_float 52 11 53 1024 8 x y)
  | MPI_FLOAT => Some (add_float 23 8 24 128 4 x y)
  | MPI_INT => add_signed 4 x y
  | MPI_LONG | MPI_LONG_LONG => add_signed 8 x y
  | OtherType _ => None
  end.

Fixpoint reduce_into (t : datatype) (count : nat) (dst src : list Z) : option (list Z) :=
  match count with
  | O => Some dst
  | S count' =>
      let n := Z.to_nat (type_size t) in
      x ← add_element t (take n dst) (take n src); rest ← reduce_into t count' (drop n dst) (drop n src); Some (x ++ rest)
  end.

(** ** The operations *)

(** What the ranks pass, by rank; the counts are the same on all of them. *)
Record coll_args := mkCollArgs {
  ca_world : bool;               (* comm == MPI_COMM_WORLD *)
  ca_in_place : Z -> bool;       (* sendbuf == MPI_IN_PLACE *)
  ca_sum : bool;                 (* op == MPI_SUM *)
  ca_type : datatype;
  ca_count : Z;                  (* sendcount *)
  ca_recv_bytes : Z;             (* recvcount * size of recvtype *)
  ca_sendbuf : Z -> list Z;
  ca_recvbuf : Z -> list Z
}.

(** What [sendbuf] points to; [MPI_IN_PLACE] is not the address of anything. *)
Definition sent_from (a : coll_args) (g : cxl_mem) : list Z := if ca_in_place a (cm_my_rank g) then [] else ca_sendbuf a (cm_my_rank g).

Definition send_bytes (a : coll_args) : Z := ca_count a ⊠ type_size (ca_type a).

Definition small (a : coll_args) (g : cxl_mem) : bool :=
  cm_comm_enabled g && ca_world a && (send_bytes a <=? 4096) && (cm_world_size g <=? 64).

(** A rank that takes part in the shared memory allocates, copies and registers; [false] is the call
    of the library.  Its view is initialised, since it communicates. *)
Definition contribute (buf : list Z) (n : Z) (g : cxl_mem) (s : shared) : option (bool * cxl_mem * shared) :=
  let '(ptr, g1, s1) := pool_allocate n g s in
  if ptr =? 0 then Some (false, g1, s1)
  else s2 ← copy_to_pool g1 ptr buf n s1; Some (true, g1, cxl_collective_register_buffer g1 (cm_my_rank g1) ptr s2).

(** Only the root allocates; all register, and all go on to the barrier. *)
Definition contribute_root (root : Z) (buf : list Z) (n : Z) (g : cxl_mem) (s : shared) : option (bool * cxl_mem * shared) :=
  if cm_my_rank g =? root then
    let '(ptr, g1, s1) := pool_allocate n g s in
    s2 ← (if ptr =? 0 then Some s1 else copy_to_pool g1 ptr buf n s1);
    Some (true, g1, cxl_collective_register_buffer g1 (cm_my_rank g1) ptr s2)
  else Some (true, g, cxl_collective_register_buffer g (cm_my_rank g) 0 s).

(** Reads of the part between the barriers: [Some None] is the call of the library. *)
Definition bcast_enter (root : Z) (a : coll_args) (g : cxl_mem) (s : shared) : option (bool * cxl_mem * shared) :=
  if small a g then contribute_root root (ca_sendbuf a (cm_my_rank g)) (send_bytes a) g s else Some (false, g, s).

Definition bcast_read (root : Z) (a : coll_args) (g : cxl_mem) (s : shared) : option (option (list Z)) :=
  let buffer := ca_sendbuf a (cm_my_rank g) in
  if cm_my_rank g =? root then Some (Some buffer)
  else
    ptr ← cxl_collective_get_buffer g root s;
    if ptr =? 0 then Some None else bs ← copy_from_pool g ptr (send_bytes a) s; out ← mem_write 0 bs buffer; Some (Some out).

Definition allreduce_enter (a : coll_args) (g : cxl_mem) (s : shared) : option (bool * cxl_mem * shared) :=
  if small a g && negb (ca_in_place a (cm_my_rank g)) && ca_sum a && (match ca_type a with OtherType _ => false | _ => true end)
  then contribute (sent_from a g) (send_bytes a) g s else Some (false, g, s).

Fixpoint reduce_ranks (a : coll_args) (g : cxl_mem) (s : shared) (rs : list Z) (recv : list Z) : option (option (list Z)) :=
  match rs with
  | [] => Some (Some recv)
  | r :: rs' =>
      if r =? cm_my_rank g then reduce_ranks a g s rs' recv
      else
        ptr ← cxl_collective_get_buffer g r s;
        if ptr =? 0 then Some None
        else src ← copy_from_pool g ptr (send_bytes a) s; recv' ← reduce_into (ca_type a) (Z.to_nat (ca_count a)) recv src; reduce_ranks a g s rs' recv'
  end.

Definition allreduce_read (a : coll_args) (g : cxl_mem) (s : shared) : option (option (list Z)) :=
  own ← mem_read 0 (send_bytes a) (ca_sendbuf a (cm_my_rank g));
  recv ← mem_write 0 own (ca_recvbuf a (cm_my_rank g));
  reduce_ranks a g s (seqZ 0 (cm_world_size g)) recv.

Definition allgather_enter (a : coll_args) (g : cxl_mem) (s : shared) : option (bool * cxl_mem * shared) :=
  if small a g && negb (ca_in_place a (cm_my_rank g)) then contribute (sent_from a g) (send_bytes a) g s else Some (false, g, s).

(** For each rank [r]: [n] bytes at [at_] of its buffer go to [r * stride]. *)
Fixpoint gather_ranks (at_ n stride : Z) (g : cxl_mem) (s : shared) (rs : list Z) (recv : list Z) : option (option (list Z)) :=
  match rs with
  | [] => Some (Some recv)
  | r :: rs' =>
      ptr ← cxl_collective_get_buffer g r s;
      if ptr =? 0 then Some None
      else bs ← copy_from_pool g (ptr + at_) n s; recv' ← mem_write (r * stride) bs recv; gather_ranks at_ n stride g s rs' recv'
  end.

Definition allgather_read (a : coll_args) (g : cxl_mem) (s : shared) : option (option (list Z)) :=
  gather_ranks 0 (send_bytes a) (send_bytes a) g s (seqZ 0 (cm_world_size g)) (ca_recvbuf a (cm_my_rank g)).

Definition alltoall_enter (a : coll_args) (g : cxl_mem) (s : shared) : option (bool * cxl_mem * shared) :=
  if small a g then contribute (sent_from a g) (send_bytes a ⊠ cm_world_size g) g s else Some (false, g, s).

Definition alltoall_read (a : coll_args) (g : cxl_mem) (s : shared) : option (option (list Z)) :=
  gather_ranks (cm_my_rank g * send_bytes a) (ca_recv_bytes a) (ca_recv_bytes a) g s (seqZ 0 (cm_world_size g)) (ca_recvbuf a (cm_my_rank g)).

Definition gather_enter (a : coll_args) (g : cxl_mem) (s : shared) : option (bool * cxl_mem * shared) :=
  if small a g then contribute (sent_from a g) (send_bytes a) g s else Some (false, g, s).

Definition gather_read (root : Z) (a : coll_args) (g : cxl_mem) (s : shared) : option (option (list Z)) :=
  if cm_my_rank g =? root then allgather_read a g s else Some (Some (ca_recvbuf a (cm_my_rank g))).

Definition scatter_enter (root : Z) (a : coll_args) (g : cxl_mem) (s : shared) : option (bool * cxl_mem * shared) :=
  if small a g then contribute_root root (sent_from a g) (send_bytes a ⊠ cm_world_size g) g s else Some (false, g, s).

Definition scatter_read (root : Z) (a : coll_args) (g : cxl_mem) (s : shared) : option (option (list Z)) :=
  ptr ← cxl_collective_get_buffer g root s;
  if ptr =? 0 then Some None
  else
    bs ← copy_from_pool g (ptr + cm_my_rank g * send_bytes a) (send_bytes a) s;
    out ← mem_write 0 bs (ca_recvbuf a (cm_my_rank g)); Some (Some out).

(** ** All ranks together *)
Inductive collective := Bcast (root : Z) | Allreduce | Allgather | Alltoall | Gather (root : Z) | Scatter (root : Z).

Definition enter (c : collective) : coll_args -> cxl_mem -> shared -> option (bool * cxl_mem * shared) :=
  match c with
  | Bcast root => bcast_enter root
  | Allreduce => allreduce_enter
  | Allgather => allgather_enter
  | Alltoall => alltoall_enter
  | Gather _ => gather_enter
  | Scatter root => scatter_enter root
  end.

Definition read (c : collective) : coll_args -> cxl_mem -> shared -> option (option (list Z)) :=
  match c with
  | Bcast root => bcast_read root
  | Allreduce => allreduce_read
  | Allgather => allgather_read
  | Alltoall => alltoall_read
  | Gather root => gather_read root
  | Scatter root => scatter_read root
  end.

(** [InLibrary]: the rank has called the collective of the library. *)
Inductive coll_pc := Called | FirstBarrier | Between | SecondBarrier (out : list Z) | Returned (out : list Z) | InLibrary.

#[global] Instance coll_pc_eq_dec : EqDecision coll_pc.
Proof. solve_decision. Defined.

Record coll_rank := mkCollRank { cr_view : cxl_mem; cr_pc : coll_pc }.

Record coll_state := mkColl { cs_ranks : list coll_rank; cs_shared : shared }.

Definition coll_start (gs : list cxl_mem) (s : shared) : coll_state := mkColl ((fun g => mkCollRank g Called) <$> gs) s.

Definition go_on (r : coll_rank) : coll_rank :=
  mkCollRank (cr_view r) (match cr_pc r with FirstBarrier => Between | SecondBarrier out => Returned out | pc => pc end).

Definition at_second (r : coll_rank) : Prop := match cr_pc r with SecondBarrier _ => True | _ => False end.

Inductive coll_step (c : collective) (a : coll_args) : coll_state -> coll_state -> Prop :=
| CEnter rs s i g b g' s' :
    rs !! i = Some (mkCollRank g Called) -> enter c a g s = Some (b, g', s') ->
    coll_step c a (mkColl rs s) (mkColl (<[i := mkCollRank g' (if b then FirstBarrier else InLibrary)]> rs) s')
| CFirst rs s :
    rs <> [] -> Forall (fun r => cr_pc r = FirstBarrier) rs -> coll_step c a (mkColl rs s) (mkColl (go_on <$> rs) s)
| CRead rs s i g out :
    rs !! i = Some (mkCollRank g Between) -> read c a g s = Some out ->
    coll_step c a (mkColl rs s) (mkColl (<[i := mkCollRank g (match out with Some bs => SecondBarrier bs | None => InLibrary end)]> rs) s)
| CSecond rs s :
    rs <> [] -> Forall at_second rs -> coll_step c a (mkColl rs s) (mkColl (go_on <$> rs) s).

(** ** What MPI asks for *)
Definition slice (bs : list Z) (at_ n : Z) : list Z := take (Z.to_nat n) (drop (Z.to_nat at_) bs).

(** The first [length bs] bytes of a buffer are replaced. *)
Definition over (bs buf : list Z) : list Z := bs ++ drop (length bs) buf.

(** Elements [i] of all ranks, as integers. *)
Definition element (t : datatype) (bs : list Z) (i : Z) : Z :=
  let n := type_size t in signed (8 * n) (le_combine (slice bs (i * n) n)).

Definition sumZ (l : list Z) : Z := foldr Z.add 0 l.

Definition total (a : coll_args) (n i : Z) : Z := sumZ ((fun r => element (ca_type a) (ca_sendbuf a r) i) <$> seqZ 0 n).

(** The buffer of rank [r] after the collective of [n] ranks. *)
Definition result (c : collective) (a : coll_args) (n r : Z) : list Z :=
  let m := send_bytes a in
  let gathered := mjoin ((fun q => slice (ca_sendbuf a q) 0 m) <$> seqZ 0 n) in
  match c with
  | Bcast root => over (slice (ca_sendbuf a root) 0 m) (ca_sendbuf a r)
  | Allreduce =>
      over (mjoin ((fun i => le_split (Z.to_nat (type_size (ca_type a))) (total a n i mod 2 ^ (8 * type_size (ca_type a)))) <$> seqZ 0 (ca_count a))) (ca_recvbuf a r)
  | Allgather => over gathered (ca_recvbuf a r)
  | Alltoall => over (mjoin ((fun q => slice (ca_sendbuf a q) (r * m) m) <$> seqZ 0 n)) (ca_recvbuf a r)
  | Gather root => if r =? root then over gathered (ca_recvbuf a r) else ca_recvbuf a r
  | Scatter root => over (slice (ca_sendbuf a root) (r * m) m) (ca_recvbuf a r)
  end.

(** How many bytes a rank puts into the pool, and who does. *)
Definition part_bytes (c : collective) (a : coll_args) (n : Z) : Z := match c with Alltoall | Scatter _ => send_bytes a * n | _ => send_bytes a end.

Definition contributes (c : collective) (r : Z) : bool := match c with Bcast root | Scatter root => r =? root | _ => true end.

Definition cost (c : collective) (a : coll_args) (n r : Z) : Z := if contributes c r then align_up (part_bytes c a n) else 0.

(** A call that the shared memory is used for. *)
Definition whole_sum (a : coll_args) (n : Z) : Prop :=
  ca_sum a = true /\ (ca_type a = MPI_INT \/ ca_type a = MPI_LONG \/ ca_type a = MPI_LONG_LONG)
  /\ (forall r, 0 <= r < n -> Forall (fun b => 0 <= b < 256) (ca_sendbuf a r))
  /\ forall i, 0 <= i < ca_count a -> sumZ ((fun r => Z.abs (element (ca_type a) (ca_sendbuf a r) i)) <$> seqZ 0 n) < 2 ^ (8 * type_size (ca_type a) - 1).

Definition call_ok (c : collective) (a : coll_args) (n : Z) : Prop :=
  1 <= n <= 64 /\ ca_world a = true /\ 0 < ca_count a < 2 ^ 31 /\ 0 < type_size (ca_type a) < 2 ^ 31 /\ ca_count a * type_size (ca_type a) <= 4096
  /\ (forall r, 0 <= r < n -> ca_in_place a r = false /\ (contributes c r = true -> part_bytes c a n <= Z.of_nat (length (ca_sendbuf a r))))
  /\ match c with
     | Bcast root => 0 <= root < n /\ forall r, 0 <= r < n -> send_bytes a <= Z.of_nat (length (ca_sendbuf a r))
     | Allreduce => whole_sum a n /\ forall r, 0 <= r < n -> send_bytes a <= Z.of_nat (length (ca_recvbuf a r))
     | Allgather => forall r, 0 <= r < n -> send_bytes a * n <= Z.of_nat (length (ca_recvbuf a r))
     | Alltoall => ca_recv_bytes a = send_bytes a /\ forall r, 0 <= r < n -> send_bytes a * n <= Z.of_nat (length (ca_recvbuf a r))
     | Gather root => 0 <= root < n /\ send_bytes a * n <= Z.of_nat (length (ca_recvbuf a root))
     | Scatter root => 0 <= root < n /\ forall r, 0 <= r < n -> send_bytes a <= Z.of_nat (length (ca_recvbuf a r))
     end.

(** ** Bytes *)
Lemma read_bytes_slice (off p k m : Z) (d : gmap Z Z) : 0 <= k -> 0 <= m -> k + m <= p -> read_bytes (off + k) m d = slice (read_bytes off p d) k m.
Proof.
  intros Hk Hm Hp. unfold slice, read_bytes. rewrite <- fmap_drop, <- fmap_take. apply list_eq. intros i. rewrite !list_lookup_fmap.
  destruct (decide (i < Z.to_nat m)%nat) as [Hi|Hi].
  - rewrite lookup_take_lt, lookup_drop, !lookup_seqZ_lt by lia. cbn. do 3 f_equal. lia.
  - rewrite lookup_seqZ_ge, lookup_take_ge by lia. done.
Qed.

Lemma slice_slice (bs : list Z) (k m p : Z) : 0 <= k -> 0 <= m -> k + m <= p -> slice (slice bs 0 p) k m = slice bs k m.
Proof. intros Hk Hm Hp. unfold slice. rewrite Z2Nat.inj_0, drop_0, skipn_firstn_comm, take_take. f_equal. lia. Qed.

Lemma length_slice (bs : list Z) (k m : Z) : 0 <= k -> 0 <= m -> k + m <= Z.of_nat (length bs) -> Z.of_nat (length (slice bs k m)) = m.
Proof. intros Hk Hm Hl. unfold slice. rewrite length_take, length_drop. lia. Qed.

Lemma length_slice_nat (bs : list Z) (k m : Z) : 0 <= k -> 0 <= m -> k + m <= Z.of_nat (length bs) -> length (slice bs k m) = Z.to_nat m.
Proof. intros Hk Hm Hl. pose proof (length_slice bs k m Hk Hm Hl). lia. Qed.

Lemma length_join_const {A B} (h : A -> list B) (k : nat) (l : list A) : (forall x, length (h x) = k) -> length (mjoin (h <$> l)) = (length l * k)%nat.
Proof. intros Hh. induction l as [|x l IH]; [done|]. rewrite fmap_cons. etrans; [apply length_app|]. cbn. f_equal; [apply Hh|exact IH]. Qed.

Lemma drop_length_take {A} (k : nat) (l : list A) : drop (length (take k l)) l = drop k l.
Proof. rewrite length_take. destruct (decide (k <= length l)%nat); [f_equal; lia|]. rewrite !drop_ge; [done|lia..]. Qed.

Lemma mem_read_slice (bs : list Z) (m : Z) : 0 <= m <= Z.of_nat (length bs) -> mem_read 0 m bs = Some (slice bs 0 m).
Proof. intros Hm. apply mem_read_Some; lia. Qed.

Lemma mem_write_over (bs buf : list Z) : (length bs <= length buf)%nat -> mem_write 0 bs buf = Some (over bs buf).
Proof. intros Hl. unfold mem_write. rewrite decide_True by lia. done. Qed.

(** ** The part before the first barrier *)
Definition member (size n r : Z) (g : cxl_mem) : Prop :=
  view_ok size g /\ size < 2 ^ 63 /\ cm_my_rank g = r /\ cm_world_size g = n /\ cm_comm_enabled g = true /\ 0 <= r < n.

Lemma member_same (size n r u : Z) (g : cxl_mem) : member size n r g -> member size n r (set_used u g).
Proof. done. Qed.

Definition table (s : shared) : list Z := sh_data_rptr (sd_header s).

(** Rank [r] has its [p] bytes in the pool, below what is handed out next. *)
Definition registered (p : Z) (buf : list Z) (r : Z) (s : shared) : Prop :=
  exists off, table s !! Z.to_nat r = Some off /\ 0 <= off /\ off + p <= offset s /\ read_bytes off p (sd_data s) = slice buf 0 p.

Lemma register_spec (size n r ptr : Z) (g : cxl_mem) (s : shared) :
  member size n r g -> n <= 64 ->
  cxl_collective_register_buffer g (cm_my_rank g) ptr s = set_header (set_data_rptr (<[Z.to_nat r := ptr_to_rptr g ptr]> (table s)) (sd_header s)) s.
Proof.
  intros ((_ & _ & Hi) & _ & Hr & _ & _ & Hrn) Hn. unfold cxl_collective_register_buffer. rewrite Hi, Hr.
  rewrite (proj2 (Z.ltb_ge r 0)), (proj2 (Z.leb_gt CXL_MAX_RANKS r)) by (unfold CXL_MAX_RANKS; lia). done.
Qed.

(** What a rank that contributes leaves behind. *)
Definition contributed (p r : Z) (buf : list Z) (s s' : shared) : Prop :=
  offset s' = offset s + align_up p /\ length (table s') = length (table s) /\ registered p buf r s'
  /\ forall q buf', q <> r -> 0 <= q -> registered p buf' q s -> registered p buf' q s'.

Lemma contribution_kept (p r at_ : Z) (bs buf : list Z) (h : cxl_shm_header) (s : shared) :
  0 <= r -> offset s <= at_ -> sh_data_rptr h = <[Z.to_nat r := at_]> (table s) -> offset s <= sh_alloc_offset h -> r < Z.of_nat (length (table s)) ->
  forall q buf', q <> r -> 0 <= q -> registered p buf' q s -> registered p buf' q (mkShared h (sd_mailboxes s) (write_bytes at_ bs (sd_data s))).
Proof.
  intros Hr Hat Ht Ho Hlt q buf' Hq Hq0 (off & H1 & H2 & H3 & H4). exists off. unfold table, offset in *. cbn. rewrite Ht. split_and!; [|done|lia|].
  - rewrite list_lookup_insert_ne by lia. done.
  - rewrite read_write_below by lia. done.
Qed.

Lemma pool_contribution (size n r p : Z) (buf : list Z) (g : cxl_mem) (s : shared) :
  member size n r g -> n <= 64 -> 0 < p <= 2 ^ 62 -> p <= Z.of_nat (length buf) -> 0 <= offset s -> offset s + align_up p <= size -> length (table s) = 256%nat ->
  exists u s1 s2, pool_allocate p g s = (cm_base g + offset s, set_used u g, s1) /\ cm_base g + offset s <> 0
    /\ copy_to_pool (set_used u g) (cm_base g + offset s) buf p s1 = Some s2
    /\ contributed p r buf s (cxl_collective_register_buffer (set_used u g) (cm_my_rank (set_used u g)) (cm_base g + offset s) s2).
Proof.
  intros Hm Hn Hp Hl Ho Hfit Ht. pose proof Hm as ((Hmap & Hsz & Hin) & Hs63 & Hr & Hw & Hc & Hrn). pose proof Hmap as (Hb & _ & Htop).
  pose proof (pool_allocate_spec p g s Hmap ltac:(pose proof (align_up_range p); lia) ltac:(lia) ltac:(lia)) as H.
  rewrite Hsz, (proj2 (Z.leb_le (offset s + align_up p) size)) in H by lia. destruct H as (E & Eptr & Hal). specialize (Eptr ltac:(lia)).
  exists (offset s + align_up p). do 2 eexists. split; [exact E|]. split; [lia|]. unfold copy_to_pool. rewrite mem_read_slice by lia. cbn [mbind option_bind set_used cm_base cm_size].
  rewrite (proj2 (Z.ltb_ge _ (_ + offset s + p))) by lia. split; [reflexivity|]. cbn [cm_my_rank].
  assert (Elen : Z.of_nat (length (slice buf 0 p)) = p) by (apply length_slice; lia).
  rewrite (register_spec size n r _ _ _ (member_same _ _ _ _ _ Hm) Hn). change (ptr_to_rptr (set_used (offset s + align_up p) g)) with (ptr_to_rptr g). rewrite Eptr.
  replace (cm_base g + offset s - cm_base g) with (offset s) by lia. unfold contributed. cbn. rewrite length_insert. split_and!; [done|done| |].
  - exists (offset s). unfold table, offset. cbn. split_and!; [|done|lia|].
    + rewrite list_lookup_insert_eq; [done|]. fold (table s). lia.
    + rewrite <- Elen at 1. apply read_write_same.
  - apply (contribution_kept p r (offset s) (slice buf 0 p) buf); [lia|done|done|cbn; pose proof (align_up_range p); lia|lia].
Qed.

(** ** Sums *)
Lemma le_combine_range (bs : list Z) : Forall (fun b => 0 <= b < 256) bs -> 0 <= le_combine bs < 256 ^ Z.of_nat (length bs).
Proof. induction 1 as [|b bs Hb _ IH]; [done|]. cbn [le_combine length]. rewrite Nat2Z.inj_succ, Z.pow_succ_r by lia. lia. Qed.

Lemma le_split_combine (bs : list Z) : Forall (fun b => 0 <= b < 256) bs -> le_split (length bs) (le_combine bs) = bs.
Proof.
  induction 1 as [|b bs Hb _ IH]; [done|]. cbn [le_split le_combine length]. replace (b + 256 * le_combine bs) with (b + le_combine bs * 256) by lia.
  rewrite Z.mod_add, Z.div_add, Z.mod_small, Z.div_small, Z.add_0_l by lia. by f_equal.
Qed.

Lemma signed_mod (w v : Z) : 1 <= w -> 0 <= v < 2 ^ w -> signed w v mod 2 ^ w = v /\ - 2 ^ (w - 1) <= signed w v < 2 ^ (w - 1).
Proof.
  intros Hw Hv. assert (E : 2 ^ w = 2 * 2 ^ (w - 1)) by (rewrite <- Z.pow_succ_r by lia; f_equal; lia). unfold signed. destruct (Z.ltb_spec v (2 ^ (w - 1))).
  - rewrite Z.mod_small by lia. lia.
  - replace (v - 2 ^ w) with (v + (-1) * 2 ^ w) by lia. rewrite Z.mod_add, Z.mod_small by lia. lia.
Qed.

Lemma mod_signed (w v : Z) : 1 <= w -> - 2 ^ (w - 1) <= v < 2 ^ (w - 1) -> signed w (v mod 2 ^ w) = v.
Proof.
  intros Hw Hv. assert (E : 2 ^ w = 2 * 2 ^ (w - 1)) by (rewrite <- Z.pow_succ_r by lia; f_equal; lia). unfold signed. destruct (Z.le_gt_cases 0 v).
  - rewrite Z.mod_small by lia. by rewrite (proj2 (Z.ltb_lt _ _)) by lia.
  - assert (E2 : v mod 2 ^ w = v + 2 ^ w) by (symmetry; apply (Z.mod_unique _ _ (-1)); lia).
    rewrite E2, (proj2 (Z.ltb_ge _ _)) by lia. lia.
Qed.

Lemma sumZ_app (l1 l2 : list Z) : sumZ (l1 ++ l2) = sumZ l1 + sumZ l2.
Proof. induction l1 as [|x l1 IH]; cbn; [done|]. fold (sumZ (l1 ++ l2)) (sumZ l1). lia. Qed.

Lemma sumZ_abs_nonneg (h : Z -> Z) (l : list Z) : 0 <= sumZ ((fun q => Z.abs (h q)) <$> l).
Proof. induction l as [|q l IH]; cbn; [done|]. fold (sumZ ((fun q => Z.abs (h q)) <$> l)). lia. Qed.

Lemma sumZ_others (h : Z -> Z) (r n : Z) : 0 <= r < n -> sumZ (h <$> seqZ 0 n) = h r + sumZ (h <$> filter (fun q => q <> r) (seqZ 0 n)).
Proof.
  intros Hr. pose proof (seqZ_around 0 n r Hr) as E. rewrite !Z.sub_0_r in E. rewrite E, fmap_app, filter_app, filter_cons_False by (intros H; by apply H).
  assert (Hid : forall l : list Z, (forall q, q ∈ l -> q <> r) -> filter (fun q => q <> r) l = l) 
    by (intros l Hl; induction l as [|q l IH]; [done|]; rewrite filter_cons_True by (apply Hl; left); f_equal; apply IH; intros q' Hq; apply Hl; by right).
  rewrite !Hid by (intros q Hq; apply elem_of_seqZ in Hq; lia). rewrite fmap_app, !sumZ_app, fmap_cons. cbn. fold (sumZ (h <$> seqZ (r + 1) (n - (r + 1)))). lia.
Qed.

(** Integer types. *)
Definition whole (t : datatype) : Prop := t = MPI_INT \/ t = MPI_LONG \/ t = MPI_LONG_LONG.

Definition encode (t : datatype) (v : Z) : list Z := le_split (Z.to_nat (type_size t)) (v mod 2 ^ (8 * type_size t)).

Definition in_range (t : datatype) (v : Z) : Prop := - 2 ^ (8 * type_size t - 1) <= v < 2 ^ (8 * type_size t - 1).

Lemma length_encode (t : datatype) (v : Z) : length (encode t v) = Z.to_nat (type_size t).
Proof. apply le_split_length. Qed.

Lemma decode_encode (t : datatype) (v : Z) : whole t -> in_range t v -> signed (8 * type_size t) (le_combine (encode t v)) = v.
Proof.
  intros Ht Hv. unfold encode. rewrite le_combine_split. assert (Hsz : type_size t = 4 \/ type_size t = 8) by (destruct Ht as [->|[->| ->]]; auto).
  replace (256 ^ Z.of_nat (Z.to_nat (type_size t))) with (2 ^ (8 * type_size t)) by (destruct Hsz as [->| ->]; done).
  rewrite Z.mod_mod by lia. apply mod_signed; [lia|done].
Qed.

Lemma add_element_spec (t : datatype) (x y : list Z) :
  whole t -> let v := signed (8 * type_size t) (le_combine x) + signed (8 * type_size t) (le_combine y) in in_range t v -> add_element t x y = Some (encode t v).
Proof.
  intros Ht v Hv. unfold in_range in Hv. destruct Ht as [->|[->| ->]]; cbn [add_element]; unfold add_signed; cbn [type_size] in *; subst v;
    [change (8 * Z.of_nat 4) with (8 * 4)|change (8 * Z.of_nat 8) with (8 * 8)..];
    rewrite (proj2 (Z.leb_le _ _)), (proj2 (Z.ltb_lt _ _)) by lia; done.
Qed.

Lemma reduce_into_spec (t : datatype) (src rest : list Z) (f : Z -> Z) (k : nat) (j : Z) :
  whole t -> 0 <= j -> (forall i, j <= i < j + Z.of_nat k -> in_range t (f i) /\ in_range t (f i + element t src i)) ->
  reduce_into t k (mjoin ((fun i => encode t (f i)) <$> seqZ j (Z.of_nat k)) ++ rest) (drop (Z.to_nat (j * type_size t)) src)
  = Some (mjoin ((fun i => encode t (f i + element t src i)) <$> seqZ j (Z.of_nat k)) ++ rest).
Proof.
  intros Ht. assert (Hsz : 0 < type_size t) by (destruct Ht as [->|[->| ->]]; done). revert j. induction k as [|k IH]; intros j Hj Hf; [done|].
  rewrite seqZ_cons by lia. replace (Z.pred (Z.of_nat (S k))) with (Z.of_nat k) by lia. cbn [reduce_into fmap list_fmap mjoin list_join].
  destruct (Hf j ltac:(lia)) as [Hfj Hsum]. rewrite <- !app_assoc.
  rewrite take_app_length', drop_app_length' by (by rewrite length_encode). rewrite (add_element_spec t); [|done|].
  - rewrite decode_encode by done. cbn [mbind option_bind]. rewrite drop_drop. replace (Z.to_nat (j * type_size t) + Z.to_nat (type_size t))%nat with (Z.to_nat (Z.succ j * type_size t)) by nia.
    rewrite IH by (intros; try apply Hf; lia). done.
  - rewrite decode_encode by done. exact Hsum.
Qed.

Lemma mjoin_cons {A} (x : list A) (l : list (list A)) : mjoin (x :: l) = x ++ mjoin l.
Proof. done. Qed.

(** A buffer is its elements. *)
Lemma elements_of (t : datatype) (bs : list Z) (k : nat) (j : Z) :
  whole t -> 0 <= j -> Forall (fun b => 0 <= b < 256) bs -> (j + Z.of_nat k) * type_size t <= Z.of_nat (length bs) ->
  slice bs (j * type_size t) (Z.of_nat k * type_size t) = mjoin ((fun i => encode t (element t bs i)) <$> seqZ j (Z.of_nat k))
  /\ forall i, j <= i < j + Z.of_nat k -> in_range t (element t bs i).
Proof.
  intros Ht Hj Hb. assert (Hsz : type_size t = 4 \/ type_size t = 8) by (destruct Ht as [->|[->| ->]]; auto).
  assert (Hone : forall i, 0 <= i -> (i + 1) * type_size t <= Z.of_nat (length bs) -> encode t (element t bs i) = slice bs (i * type_size t) (type_size t) /\ in_range t (element t bs i)).
  { intros i Hi Hl. set (x := slice bs (i * type_size t) (type_size t)). assert (Hx : Z.of_nat (length x) = type_size t) by (apply length_slice; lia).
    assert (Hxb : Forall (fun b => 0 <= b < 256) x) by (apply Forall_take, Forall_drop, Hb). pose proof (le_combine_range x Hxb) as Hr. rewrite Hx in Hr.
    destruct (signed_mod (8 * type_size t) (le_combine x)) as [E1 E2]; [lia|by destruct Hsz as [E| E]; rewrite E in *|].
    unfold encode, element, in_range. fold x. rewrite E1. split; [|exact E2]. replace (Z.to_nat (type_size t)) with (length x) by lia. by apply le_split_combine. }
  revert j Hj. induction k as [|k IH]; intros j Hj Hl; [split; [done|lia]|]. destruct (IH (Z.succ j) ltac:(lia) ltac:(destruct Hsz as [E| E]; rewrite E in *; lia)) as [IH1 IH2]. destruct (Hone j Hj ltac:(nia)) as [H1 H2]. split.
  - rewrite seqZ_cons by lia. replace (Z.pred (Z.of_nat (S k))) with (Z.of_nat k) by lia. rewrite fmap_cons, (mjoin_cons (encode t (element t bs j))), <- IH1, H1. unfold slice.
    rewrite <- (take_drop (Z.to_nat (type_size t)) (take (Z.to_nat (Z.of_nat (S k) * type_size t)) _)), take_take, skipn_firstn_comm, drop_drop. f_equal; [f_equal; nia|]. f_equal; [|f_equal]; nia.
  - intros i Hi. destruct (decide (i = j)) as [->|]; [done|]. apply IH2. lia.
Qed.

Section Collective.
Context (c : collective) (a : coll_args) (n size : Z) (Hcall : call_ok c a n).

Lemma send_bytes_eq : send_bytes a = ca_count a * type_size (ca_type a) /\ 0 < send_bytes a <= 4096.
Proof. destruct Hcall as (_ & _ & Hc & Ht & Hb & _). unfold send_bytes. rewrite wrap64_small by (unfold u64; nia). nia. Qed.

Lemma part_bytes_range : 0 < part_bytes c a n <= 2 ^ 62 /\ (send_bytes a ⊠ n) = send_bytes a * n.
Proof.
  pose proof send_bytes_eq as [_ Hb]. destruct Hcall as (Hn & _). split; [unfold part_bytes; destruct c; nia|]. apply wrap64_small. unfold u64. nia.
Qed.

Lemma small_member (r : Z) (g : cxl_mem) : member size n r g -> small a g = true.
Proof.
  intros (_ & _ & _ & Hw & Hc & _). pose proof send_bytes_eq as [_ Hb]. destruct Hcall as (Hn & Hworld & _). unfold small.
  rewrite Hc, Hworld, Hw, (proj2 (Z.leb_le _ 4096)), (proj2 (Z.leb_le n 64)) by lia. done.
Qed.

(** The rank's own contribution is registered, and nothing of the others is disturbed. *)
Definition entered (r : Z) (s s' : shared) : Prop :=
  offset s' = offset s + cost c a n r /\ length (table s') = 256%nat
  /\ (contributes c r = true -> registered (part_bytes c a n) (ca_sendbuf a r) r s')
  /\ forall q, q <> r -> 0 <= q -> registered (part_bytes c a n) (ca_sendbuf a q) q s -> registered (part_bytes c a n) (ca_sendbuf a q) q s'.

Lemma contribute_spec (r : Z) (g : cxl_mem) (s : shared) :
  member size n r g -> contributes c r = true -> 0 <= offset s -> offset s + cost c a n r <= size -> length (table s) = 256%nat ->
  exists u s', contribute (ca_sendbuf a r) (part_bytes c a n) g s = Some (true, set_used u g, s') /\ entered r s s'
    /\ forall root, r = root -> contribute_root root (ca_sendbuf a r) (part_bytes c a n) g s = Some (true, set_used u g, s').
Proof.
  intros Hm Hco Ho Hfit Ht. pose proof Hm as (_ & _ & Hr & _ & _ & Hrn). pose proof part_bytes_range as [Hp _]. pose proof Hcall as (Hn & _ & _ & _ & _ & Hlen & _).
  unfold cost in Hfit. rewrite Hco in Hfit.
  destruct (pool_contribution size n r (part_bytes c a n) (ca_sendbuf a r) g s Hm ltac:(lia) Hp (proj2 (Hlen r Hrn) Hco) Ho Hfit Ht) as (u & s1 & s2 & E1 & Hne & E2 & Hctr).
  exists u. eexists. unfold contribute, contribute_root. rewrite E1, (proj2 (Z.eqb_neq _ 0) Hne), E2. split; [reflexivity|]. split.
  - destruct Hctr as (H1 & H2 & H3 & H4). unfold entered, cost. rewrite Hco. split_and!; [done|congruence|done|]. intros q. apply H4.
  - intros root <-. rewrite Hr, Z.eqb_refl. reflexivity.
Qed.

(** A rank that is not the root registers that it has nothing. *)
Lemma contribute_nothing (root r p : Z) (buf : list Z) (g : cxl_mem) (s : shared) :
  member size n r g -> r <> root -> contributes c r = false -> length (table s) = 256%nat ->
  exists s', contribute_root root buf p g s = Some (true, g, s') /\ entered r s s'.
Proof.
  intros Hm Hne Hco Ht. pose proof Hm as (_ & _ & Hr & _ & _ & Hrn). pose proof Hcall as (Hn & _). eexists. unfold contribute_root. rewrite Hr, (proj2 (Z.eqb_neq r root) Hne).
  split; [reflexivity|]. rewrite <- Hr, (register_spec size n r 0 g s Hm ltac:(lia)), Hr. unfold entered, cost. rewrite Hco. cbn. rewrite length_insert. split_and!; [unfold offset; cbn; lia|done|done|].
  intros q Hq Hq0 (off & H1 & H2 & H3 & H4). exists off. unfold table, offset in *. cbn. rewrite list_lookup_insert_ne by lia. done.
Qed.

Lemma enter_spec (r : Z) (g : cxl_mem) (s : shared) :
  member size n r g -> 0 <= offset s -> offset s + cost c a n r <= size -> length (table s) = 256%nat ->
  exists u s', enter c a g s = Some (true, set_used u g, s') /\ entered r s s'.
Proof.
  intros Hm Ho Hfit Ht. pose proof (small_member r g Hm) as Hsmall. pose proof Hm as (_ & _ & Hr & Hw & _ & Hrn). pose proof part_bytes_range as [_ Hmul].
  pose proof Hcall as (_ & _ & _ & _ & _ & Hbufs & Hkind). destruct (Hbufs r Hrn) as [Hip _].
  assert (Hsent : sent_from a g = ca_sendbuf a r) by (unfold sent_from; by rewrite Hr, Hip).
  destruct (contributes c r) eqn:Hco.
  - destruct (contribute_spec r g s Hm Hco Ho Hfit Ht) as (u & s' & E1 & Hen & E2). exists u, s'. split; [|done].
    destruct c as [root| | | |root|root] eqn:Ec; cbn [enter part_bytes] in *;
      unfold bcast_enter, allreduce_enter, allgather_enter, alltoall_enter, gather_enter, scatter_enter; rewrite Hsmall, ?Hr, ?Hip, ?Hsent, ?Hw, ?Hmul; cbn [andb negb]; try done.
    + apply Z.eqb_eq in Hco. apply E2, Hco.
    + destruct Hkind as [(Hsum & Hty & _) _]. rewrite Hsum. destruct Hty as [->|[->| ->]]; cbn; done.
    + apply Z.eqb_eq in Hco. apply E2, Hco.
  - assert (Hroot : exists root, r <> root /\ (c = Bcast root \/ c = Scatter root)).
    { destruct c; cbn in Hco; try done; apply Z.eqb_neq in Hco; eauto. }
    destruct Hroot as (root & Hne & Hcr).
    destruct (contribute_nothing root r (part_bytes c a n) (ca_sendbuf a r) g s Hm Hne Hco Ht) as (s' & E & Hen). exists (cm_used g), s'. split; [|done].
    replace (set_used (cm_used g) g) with g by (by destruct g).
    destruct Hcr as [->| ->]; cbn [enter part_bytes] in *; unfold bcast_enter, scatter_enter; rewrite Hsmall, ?Hsent, ?Hw, ?Hr, ?Hmul; done.
Qed.

(** ** The part between the barriers *)

(** All that contribute have registered. *)
Definition all_registered (s : shared) : Prop :=
  offset s <= size /\ length (table s) = 256%nat
  /\ forall q, 0 <= q < n -> contributes c q = true -> registered (part_bytes c a n) (ca_sendbuf a q) q s.

Lemma fetch (r q : Z) (g : cxl_mem) (s : shared) :
  member size n r g -> all_registered s -> 0 <= q < n -> contributes c q = true ->
  exists ptr, cxl_collective_get_buffer g q s = Some ptr /\ ptr <> 0
    /\ forall k m, 0 <= k -> 0 <= m -> k + m <= part_bytes c a n -> copy_from_pool g (ptr + k) m s = Some (slice (ca_sendbuf a q) k m).
Proof.
  intros ((Hmap & Hsz & Hin) & Hs63 & _) (Hos & Ht & Hreg) Hq Hco. destruct (Hreg q Hq Hco) as (off & E & Ho & Hle & Hbytes). pose proof Hcall as (Hn & _).
  pose proof part_bytes_range as [Hp _]. pose proof Hmap as (Hb & _ & Htop).
  exists (cm_base g + off). unfold cxl_collective_get_buffer. rewrite Hin, (proj2 (Z.ltb_ge q 0)), (proj2 (Z.leb_gt CXL_MAX_RANKS q)) by (unfold CXL_MAX_RANKS; lia).
  fold (table s). rewrite E. cbn [negb orb mbind option_bind]. unfold rptr_to_ptr, CXL_RPTR_NULL.
  rewrite (proj2 (Z.eqb_neq off _)), (proj2 (Z.eqb_neq (cm_base g) 0)), (proj2 (Z.leb_gt (cm_size g) off)) by lia. cbn [orb]. rewrite wrap64_small by (unfold u64; lia).
  split; [done|]. split; [lia|]. intros k m Hk Hm Hkm. unfold copy_from_pool. rewrite (proj2 (Z.ltb_ge _ _)) by lia.
  replace (cm_base g + off + k - cm_base g) with (off + k) by lia. rewrite (read_bytes_slice off (part_bytes c a n)), Hbytes by lia. by rewrite slice_slice by lia.
Qed.

(** Pieces of [m] bytes of the ranks from [j] on are put one after the other. *)
Lemma gather_ranks_spec (r at_ m : Z) (g : cxl_mem) (s : shared) :
  member size n r g -> all_registered s -> (forall q, 0 <= q < n -> contributes c q = true) -> 0 <= at_ -> 0 <= m -> at_ + m <= part_bytes c a n ->
  forall (k : nat) (j : Z) (done rest : list Z), 0 <= j -> j + Z.of_nat k = n -> Z.of_nat (length done) = j * m -> Z.of_nat k * m <= Z.of_nat (length rest) ->
  gather_ranks at_ m m g s (seqZ j (Z.of_nat k)) (done ++ rest)
  = Some (Some (done ++ over (mjoin ((fun q => slice (ca_sendbuf a q) at_ m) <$> seqZ j (Z.of_nat k))) rest)).
Proof.
  intros Hm Hall Hco Hat Hm0 Hpart. pose proof Hcall as (_ & _ & _ & _ & _ & Hbufs & _). induction k as [|k IH]; intros j dn rest Hj Hk Hdn Hrest; [done|].
  rewrite seqZ_cons by lia. replace (Z.pred (Z.of_nat (S k))) with (Z.of_nat k) by lia. cbn [gather_ranks fmap list_fmap].
  destruct (fetch r j g s Hm Hall ltac:(lia) (Hco j ltac:(lia))) as (ptr & -> & Hne & Hcopy). cbn [mbind option_bind]. rewrite (proj2 (Z.eqb_neq ptr 0) Hne), Hcopy by lia.
  set (bs := slice (ca_sendbuf a j) at_ m). assert (Hbs : Z.of_nat (length bs) = m).
  { apply length_slice; [lia|lia|]. pose proof (proj2 (Hbufs j ltac:(lia)) (Hco j ltac:(lia))). lia. }
  cbn [mbind option_bind]. unfold mem_write at 1. rewrite length_app, decide_True by lia. cbn [mbind option_bind].
  replace (Z.to_nat (j * m)) with (length dn) by lia. rewrite take_app_length, drop_app_add, (app_assoc dn bs).
  rewrite (IH (Z.succ j) (dn ++ bs) (drop (length bs) rest)) by (rewrite ?length_app, ?length_drop; nia).
  rewrite <- app_assoc. do 3 f_equal. cbn [mjoin list_join]. unfold over. fold bs. rewrite <- app_assoc, length_app, drop_drop. done.
Qed.

Lemma gather_all_spec (r at_ : Z) (g : cxl_mem) (s : shared) :
  member size n r g -> all_registered s -> (forall q, 0 <= q < n -> contributes c q = true) -> 0 <= at_ -> at_ + send_bytes a <= part_bytes c a n ->
  send_bytes a * n <= Z.of_nat (length (ca_recvbuf a r)) ->
  gather_ranks at_ (send_bytes a) (send_bytes a) g s (seqZ 0 (cm_world_size g)) (ca_recvbuf a (cm_my_rank g))
  = Some (Some (over (mjoin ((fun q => slice (ca_sendbuf a q) at_ (send_bytes a)) <$> seqZ 0 n)) (ca_recvbuf a r))).
Proof.
  intros Hm Hall Hco Hat Hpart Hlen. pose proof Hm as (_ & _ & Hr & Hw & _ & Hrn). pose proof send_bytes_eq as [_ Hb]. rewrite Hr, Hw.
  pose proof (gather_ranks_spec r at_ (send_bytes a) g s Hm Hall Hco Hat ltac:(lia) Hpart (Z.to_nat n) 0 [] (ca_recvbuf a r)) as H.
  rewrite Z2Nat.id in H by lia. apply H; cbn; lia.
Qed.

(** *** Sums of integers *)
Definition encoded (f : Z -> Z) : list Z := mjoin ((fun i => encode (ca_type a) (f i)) <$> seqZ 0 (ca_count a)).

Definition elem (q i : Z) : Z := element (ca_type a) (ca_sendbuf a q) i.

Lemma encoded_ext (f f' : Z -> Z) : (forall i, 0 <= i < ca_count a -> f i = f' i) -> encoded f = encoded f'.
Proof. intros H. unfold encoded. f_equal. apply list_fmap_ext. intros k i Hi. apply lookup_seqZ in Hi as [-> Hi]. by rewrite H by lia. Qed.

Lemma reduce_ranks_spec (r : Z) (g : cxl_mem) (s : shared) (rest : list Z) (rs : list Z) (f : Z -> Z) :
  member size n r g -> all_registered s -> c = Allreduce -> Forall (fun q => 0 <= q < n) rs ->
  (forall i, 0 <= i < ca_count a -> Z.abs (f i) + sumZ ((fun q => Z.abs (elem q i)) <$> filter (fun q => q <> r) rs) < 2 ^ (8 * type_size (ca_type a) - 1)) ->
  reduce_ranks a g s rs (encoded f ++ rest) = Some (Some (encoded (fun i => f i + sumZ ((fun q => elem q i) <$> filter (fun q => q <> r) rs)) ++ rest)).
Proof.
  intros Hm Hall Ec. pose proof Hm as (_ & _ & Hr & _). pose proof Hcall as (Hn & _ & Hcnt & _ & _ & Hbufs & Hkind). rewrite Ec in Hkind. destruct Hkind as ((_ & Hty & _) & _).
  pose proof send_bytes_eq as [Hsb Hsb0]. revert f. induction rs as [|q rs IH]; intros f Hrs Hf.
  { cbn. rewrite (encoded_ext (fun i => f i + 0) f) by lia. done. }
  apply Forall_cons in Hrs as [Hq Hrs]. cbn [reduce_ranks]. rewrite Hr. destruct (Z.eqb_spec q r) as [->|Hne].
  { rewrite filter_cons_False in Hf |- * by (intros H; by apply H). by apply IH. }
  rewrite filter_cons_True in Hf |- * by done.
  destruct (fetch r q g s Hm Hall Hq ltac:(by rewrite Ec)) as (ptr & -> & Hptr & Hcopy). cbn [mbind option_bind]. rewrite (proj2 (Z.eqb_neq ptr 0) Hptr).
  rewrite <- (Z.add_0_r ptr), Hcopy by (rewrite ?Ec; cbn [part_bytes]; lia). cbn [mbind option_bind].
  assert (Hel : forall i, 0 <= i < ca_count a -> element (ca_type a) (slice (ca_sendbuf a q) 0 (send_bytes a)) i = elem q i).
  { intros i Hi. unfold elem, element. rewrite slice_slice; [done|rewrite ?Hsb; nia..]. }
  assert (Hstep : forall i, 0 <= i < ca_count a -> Z.abs (f i + elem q i) + sumZ ((fun q => Z.abs (elem q i)) <$> filter (fun q => q <> r) rs) < 2 ^ (8 * type_size (ca_type a) - 1)
                     /\ in_range (ca_type a) (f i) /\ in_range (ca_type a) (f i + elem q i)).
  { intros i Hi. specialize (Hf i Hi). rewrite fmap_cons in Hf. cbn [sumZ foldr] in Hf. fold (sumZ ((fun q => Z.abs (elem q i)) <$> filter (fun q => q <> r) rs)) in Hf.
    pose proof (sumZ_abs_nonneg (fun q => elem q i) (filter (fun q => q <> r) rs)). unfold in_range. lia. }
  pose proof (reduce_into_spec (ca_type a) (slice (ca_sendbuf a q) 0 (send_bytes a)) rest f (Z.to_nat (ca_count a)) 0 Hty ltac:(lia)) as Hred.
  rewrite Z.mul_0_l, drop_0, Z2Nat.id in Hred by lia. unfold encoded at 1. rewrite Hred by (intros i Hi; rewrite Hel by lia; apply Hstep; lia). cbn [mbind option_bind].
  fold (encoded (fun i => f i + element (ca_type a) (slice (ca_sendbuf a q) 0 (send_bytes a)) i)). rewrite (encoded_ext _ (fun i => f i + elem q i)) by (intros i Hi; by rewrite Hel).
  rewrite IH by (try done; intros i Hi; apply Hstep, Hi). do 3 f_equal. apply encoded_ext. intros i Hi. rewrite fmap_cons. cbn. fold (sumZ ((fun q => elem q i) <$> filter (fun q => q <> r) rs)). lia.
Qed.

Lemma allreduce_spec (r : Z) (g : cxl_mem) (s : shared) :
  member size n r g -> all_registered s -> c = Allreduce -> allreduce_read a g s = Some (Some (result Allreduce a n r)).
Proof.
  intros Hm Hall Ec. pose proof Hm as (_ & _ & Hr & Hw & _ & Hrn). pose proof Hcall as (Hn & _ & Hcnt & _ & _ & Hbufs & Hkind).
  rewrite Ec in Hkind, Hbufs. destruct Hkind as ((_ & Hty & Hbytes & Hsum) & Hrecv). pose proof send_bytes_eq as [Hsb Hsb0]. destruct (Hbufs r Hrn) as [_ Hlen]. specialize (Hlen eq_refl). cbn [part_bytes] in Hlen.
  specialize (Hrecv r Hrn). unfold allreduce_read. rewrite Hr, Hw, mem_read_slice by lia. cbn [mbind option_bind].
  rewrite mem_write_over by (pose proof (length_slice (ca_sendbuf a r) 0 (send_bytes a)); lia). cbn [mbind option_bind].
  destruct (elements_of (ca_type a) (ca_sendbuf a r) (Z.to_nat (ca_count a)) 0 Hty ltac:(lia) (Hbytes r Hrn) ltac:(lia)) as [Eown _].
  rewrite Z.mul_0_l, Z2Nat.id, <- Hsb in Eown by lia. unfold over at 1. rewrite length_slice_nat by lia. rewrite (Eown : _ = encoded (elem r)).
  rewrite (reduce_ranks_spec r g s); [|done..| |].
  - cbn [result]. unfold over. rewrite length_join_const with (k := Z.to_nat (type_size (ca_type a))) by (intros; apply le_split_length).
    rewrite length_seqZ. replace (Z.to_nat (ca_count a) * Z.to_nat (type_size (ca_type a)))%nat with (Z.to_nat (send_bytes a)) by nia.
    do 3 f_equal. apply encoded_ext. intros i Hi. unfold total. symmetry. apply (sumZ_others (fun q => elem q i) r n Hrn).
  - apply Forall_forall. intros q Hq. apply elem_of_seqZ in Hq. lia.
  - intros i Hi. rewrite <- (sumZ_others (fun q => Z.abs (elem q i)) r n Hrn). apply Hsum, Hi.
Qed.

Lemma read_spec (r : Z) (g : cxl_mem) (s : shared) : member size n r g -> all_registered s -> read c a g s = Some (Some (result c a n r)).
Proof.
  intros Hm Hall. pose proof Hm as (_ & _ & Hr & Hw & _ & Hrn). pose proof Hcall as (Hn & _ & _ & _ & _ & Hbufs & Hkind). pose proof send_bytes_eq as [_ Hb].
  assert (Hroot : forall root, c = Bcast root \/ c = Scatter root -> 0 <= root < n -> exists ptr, cxl_collective_get_buffer g root s = Some ptr /\ ptr <> 0
    /\ forall k m, 0 <= k -> 0 <= m -> k + m <= part_bytes c a n -> copy_from_pool g (ptr + k) m s = Some (slice (ca_sendbuf a root) k m)).
  { intros root [E|E] Hroot; apply (fetch r root g s Hm Hall Hroot); rewrite E; apply Z.eqb_refl. }
  pose proof (allreduce_spec r g s Hm Hall) as Hsums. pose proof (fun at_ => gather_all_spec r at_ g s Hm Hall) as Hgather.
  destruct c as [root| | | |root|root] eqn:Ec; cbn [read].
  - destruct Hkind as [Hrt Hlen]. unfold bcast_read. rewrite Hr. destruct (Z.eqb_spec r root) as [->|Hne].
    + cbn [result]. unfold over, slice. rewrite Z2Nat.inj_0, drop_0. by rewrite drop_length_take, take_drop.
    + destruct (Hroot root ltac:(auto) Hrt) as (ptr & -> & Hptr & Hcopy). cbn [mbind option_bind]. rewrite (proj2 (Z.eqb_neq ptr 0) Hptr), <- (Z.add_0_r ptr), Hcopy by (cbn [part_bytes]; lia).
      cbn [mbind option_bind]. rewrite mem_write_over; [done|]. rewrite length_slice_nat by (specialize (Hlen root Hrt); lia). specialize (Hlen r Hrn). lia.
  - by apply Hsums.
  - apply (Hgather 0); try done. by apply Hkind.
  - destruct Hkind as [Hrb Hlen]. unfold alltoall_read. rewrite Hrb, Hr. rewrite <- Hr at 2. apply (Hgather (r * send_bytes a)); try done; [nia|cbn [part_bytes]; nia|by apply Hlen].
  - destruct Hkind as [Hrt Hlen]. unfold gather_read. cbn [result]. rewrite Hr. destruct (Z.eqb_spec r root) as [->|Hne]; [|done]. apply (Hgather 0); try done; cbn [part_bytes]; lia.
  - destruct Hkind as [Hrt Hlen]. unfold scatter_read. destruct (Hroot root ltac:(auto) Hrt) as (ptr & -> & Hptr & Hcopy). cbn [mbind option_bind].
    rewrite (proj2 (Z.eqb_neq ptr 0) Hptr), Hr, Hcopy by (cbn [part_bytes]; nia). cbn [mbind option_bind]. rewrite mem_write_over; [done|].
    destruct (Hbufs root Hrt) as [_ Hl]. cbn [contributes part_bytes] in Hl. rewrite Z.eqb_refl in Hl. specialize (Hl eq_refl). rewrite length_slice_nat by nia. specialize (Hlen r Hrn). lia.
Qed.

(** ** All ranks *)

(** What the ranks that have not entered will take from the pool. *)
Definition due (r : coll_rank) : nat := match cr_pc r with Called => Z.to_nat (cost c a n (cm_my_rank (cr_view r))) | _ => 0 end.

Definition before (i : nat) (pc : coll_pc) : Prop := pc = Called \/ pc = FirstBarrier.
Definition between (i : nat) (pc : coll_pc) : Prop := pc = Between \/ pc = SecondBarrier (result c a n (Z.of_nat i)).
Definition after (i : nat) (pc : coll_pc) : Prop := pc = Returned (result c a n (Z.of_nat i)).

Definition everywhere (P : nat -> coll_pc -> Prop) (rs : list coll_rank) : Prop := forall i r, rs !! i = Some r -> P i (cr_pc r).

Definition coll_ok (st : coll_state) : Prop :=
  let '(mkColl rs s) := st in
  Z.of_nat (length rs) = n /\ (forall i r, rs !! i = Some r -> member size n (Z.of_nat i) (cr_view r))
  /\ 0 <= offset s /\ offset s + Z.of_nat (sum_of due rs) <= size /\ length (table s) = 256%nat
  /\ (forall i r, rs !! i = Some r -> cr_pc r <> Called -> contributes c (Z.of_nat i) = true -> registered (part_bytes c a n) (ca_sendbuf a (Z.of_nat i)) (Z.of_nat i) s)
  /\ (everywhere before rs \/ everywhere between rs \/ everywhere after rs).

Lemma everywhere_insert (P : nat -> coll_pc -> Prop) (rs : list coll_rank) (i : nat) (r : coll_rank) :
  everywhere P rs -> P i (cr_pc r) -> everywhere P (<[i := r]> rs).
Proof. intros Hrs Hr j x Hj. apply list_lookup_insert_Some in Hj as [(-> & <- & _)|[_ Hj]]; auto. Qed.

Lemma ok_registered (rs : list coll_rank) (s : shared) : coll_ok (mkColl rs s) -> (forall i r, rs !! i = Some r -> cr_pc r <> Called) -> all_registered s.
Proof.
  intros (Hl & _ & Ho & Hfit & Ht & Hreg & _) Hne. split; [lia|]. split; [done|]. intros q Hq Hco.
  destruct (lookup_lt_is_Some_2 rs (Z.to_nat q) ltac:(lia)) as [r Hr]. pose proof (Hreg _ _ Hr (Hne _ _ Hr)) as H. rewrite Z2Nat.id in H by lia. auto.
Qed.

Lemma cost_nonneg (r : Z) : 0 <= cost c a n r.
Proof. unfold cost. destruct (contributes c r); [apply align_up_range|done]. Qed.

Lemma called_room (rs : list coll_rank) (s : shared) (i : nat) (g : cxl_mem) :
  coll_ok (mkColl rs s) -> rs !! i = Some (mkCollRank g Called) ->
  member size n (Z.of_nat i) g /\ offset s + cost c a n (Z.of_nat i) <= size
  /\ exists u s', enter c a g s = Some (true, set_used u g, s') /\ entered (Z.of_nat i) s s'.
Proof.
  intros (Hl & Hm & Ho & Hfit & Ht & Hreg & Hph) Hi. pose proof (Hm i _ Hi) as Hmi. cbn [cr_view] in Hmi. pose proof Hmi as (_ & _ & Hr & _).
  pose proof (sum_of_insert due rs i _ (mkCollRank g FirstBarrier) Hi) as E. cbn in E. rewrite Hr in E. pose proof (cost_nonneg (Z.of_nat i)).
  assert (Hroom : offset s + cost c a n (Z.of_nat i) <= size) by lia. split; [done|]. split; [done|]. by apply enter_spec.
Qed.

Lemma coll_enter_ok (rs : list coll_rank) (s s' : shared) (i : nat) (g g' : cxl_mem) (b : bool) :
  coll_ok (mkColl rs s) -> rs !! i = Some (mkCollRank g Called) -> enter c a g s = Some (b, g', s') ->
  coll_ok (mkColl (<[i := mkCollRank g' (if b then FirstBarrier else InLibrary)]> rs) s').
Proof.
  intros Hok Hi He. destruct (called_room rs s i g Hok Hi) as (Hmi & Hroom & u & s2 & E & (H1 & H2 & H3 & H4)). rewrite E in He. injection He as <- <- <-. cbn [coll_ok].
  destruct Hok as (Hl & Hm & Ho & Hfit & Ht & Hreg & Hph). pose proof (cost_nonneg (Z.of_nat i)) as Hc0.
  pose proof (sum_of_insert due rs i _ (mkCollRank (set_used u g) FirstBarrier) Hi) as Es. cbn in Es. destruct Hmi as (? & ? & Hr & ? & ? & ?). rewrite Hr in Es.
  rewrite length_insert. split_and!; [done| |lia|lia|done| |].
  - intros j r Hj. apply list_lookup_insert_Some in Hj as [(-> & <- & _)|[_ Hj]]; [done|by apply Hm].
  - intros j r Hj Hne Hco. apply list_lookup_insert_Some in Hj as [(<- & <- & _)|[Hji Hj]]; [by apply H3|]. apply H4; [lia|lia|]. by eapply Hreg.
  - left. destruct Hph as [Hph|[Hph|Hph]]; [apply everywhere_insert; [done|by right]|exfalso; specialize (Hph i _ Hi); cbn in Hph; by destruct Hph|exfalso; by specialize (Hph i _ Hi)].
Qed.

Lemma coll_read_ok (rs : list coll_rank) (s : shared) (i : nat) (g : cxl_mem) (out : option (list Z)) :
  coll_ok (mkColl rs s) -> rs !! i = Some (mkCollRank g Between) -> read c a g s = Some out ->
  coll_ok (mkColl (<[i := mkCollRank g (match out with Some bs => SecondBarrier bs | None => InLibrary end)]> rs) s).
Proof.
  intros Hok Hi He. assert (Hph : everywhere between rs).
  { destruct Hok as (_ & _ & _ & _ & _ & _ & [Hph|[Hph|Hph]]); [|done|]; exfalso; specialize (Hph i _ Hi); [by destruct Hph|discriminate Hph]. }
  assert (Hall : all_registered s) by (apply (ok_registered rs); [done|]; intros j r Hj; destruct (Hph j r Hj) as [->| ->]; done).
  destruct Hok as (Hl & Hm & Ho & Hfit & Ht & Hreg & _). rewrite (read_spec (Z.of_nat i) g s (Hm i _ Hi) Hall) in He. injection He as <-. cbn [coll_ok]. rewrite length_insert.
  pose proof (sum_of_insert due rs i _ (mkCollRank g (SecondBarrier (result c a n (Z.of_nat i)))) Hi) as Es. cbn in Es. split_and!; [done| |done|lia|done| |].
  - intros j r Hj. apply list_lookup_insert_Some in Hj as [(-> & <- & _)|[_ Hj]]; [by apply (Hm _ _ Hi)|by apply Hm].
  - intros j r Hj Hne Hco. apply list_lookup_insert_Some in Hj as [(<- & <- & _)|[Hji Hj]]; [by apply (Hreg _ _ Hi)|by eapply Hreg].
  - right. left. apply everywhere_insert; [done|by right].
Qed.

Lemma coll_go_on_ok (rs : list coll_rank) (s : shared) :
  coll_ok (mkColl rs s) -> Forall (fun r => cr_pc r = FirstBarrier) rs \/ Forall at_second rs -> coll_ok (mkColl (go_on <$> rs) s).
Proof.
  intros (Hl & Hm & Ho & Hfit & Ht & Hreg & Hph) Hall. cbn [coll_ok]. rewrite length_fmap.
  assert (Hx : forall r, due (go_on r) = due r) by (intros [g pc]; unfold due, go_on; by destruct pc).
  assert (Hdue : sum_of due (go_on <$> rs) = sum_of due rs).
  { clear -Hx. induction rs as [|r rs IH]; [done|]. change (due (go_on r) + sum_of due (go_on <$> rs) = due r + sum_of due rs)%nat. by rewrite IH, Hx. }
  rewrite Hdue. split_and!; try done.
  - intros i r Hi. apply list_lookup_fmap_Some in Hi as (x & -> & Hi). exact (Hm i x Hi).
  - intros i r Hi Hne Hco. apply list_lookup_fmap_Some in Hi as (x & -> & Hi). apply (Hreg i x Hi); [|done]. intros E. apply Hne. unfold go_on. by rewrite E.
  - destruct Hall as [H|H]; [right; left|right; right]; intros i r Hi; apply list_lookup_fmap_Some in Hi as (x & -> & Hi); pose proof (Forall_lookup_1 _ _ _ _ H Hi) as Hpc; cbn in Hpc.
    + left. unfold go_on. by rewrite Hpc.
    + unfold at_second in Hpc. unfold after, go_on. destruct Hph as [Hph|[Hph|Hph]]; specialize (Hph i x Hi); [destruct Hph as [E|E]; by rewrite E in Hpc| |by rewrite Hph in Hpc].
      destruct Hph as [E|E]; rewrite E in *; done.
Qed.

Lemma coll_step_ok (st st' : coll_state) : coll_step c a st st' -> coll_ok st -> coll_ok st'.
Proof.
  destruct 1 as [rs s i g b g' s' Hi He|rs s Hne Hall|rs s i g out Hi He|rs s Hne Hall]; intros Hok.
  - by eapply coll_enter_ok.
  - apply coll_go_on_ok; auto.
  - by eapply coll_read_ok.
  - apply coll_go_on_ok; auto.
Qed.

(** A rank that can take its part does; when none is left to, a barrier goes. *)
Lemma coll_progress (st : coll_state) : coll_ok st -> (exists st', coll_step c a st st') \/ everywhere after (cs_ranks st).
Proof.
  destruct st as [rs s]. intros Hok. pose proof Hok as (Hl & Hm & _ & _ & _ & _ & Hph). pose proof Hcall as (Hn & _). assert (Hne : rs <> []) by (intros ->; cbn in Hl; lia).
  destruct Hph as [Hph|[Hph|Hph]]; [left|left|by right].
  - destruct (decide (Forall (fun r => cr_pc r = FirstBarrier) rs)) as [Hall|Hall]; [eexists; by apply CFirst|].
    apply not_Forall_Exists in Hall; [|intros r; exact _]. apply Exists_exists in Hall as (r & Hr & E). apply list_elem_of_lookup in Hr as [i Hi].
    destruct (Hph i r Hi) as [E'|E']; [|done]. destruct r as [g pc]. cbn in E'. subst pc. destruct (called_room rs s i g Hok Hi) as (_ & _ & u & s' & He & _).
    eexists. by eapply CEnter.
  - destruct (decide (Forall (fun r => cr_pc r <> Between) rs)) as [Hall|Hall].
    + eexists. apply CSecond; [done|]. apply Forall_lookup_2. intros i r Hi. pose proof (Forall_lookup_1 _ _ _ _ Hall Hi) as Hb. unfold at_second.
      destruct (Hph i r Hi) as [E|E]; [done|by rewrite E].
    + apply not_Forall_Exists in Hall; [|intros r; exact _]. apply Exists_exists in Hall as (r & Hr & E). apply list_elem_of_lookup in Hr as [i Hi].
      apply dec_stable in E. destruct r as [g pc]. cbn in E. subst pc. eexists. eapply CRead; [exact Hi|]. apply (read_spec (Z.of_nat i)); [exact (Hm _ _ Hi)|].
      apply (ok_registered rs); [done|]. intros j x Hj. destruct (Hph j x Hj) as [->| ->]; done.
Qed.

Lemma coll_start_ok (gs : list cxl_mem) (s : shared) :
  Z.of_nat (length gs) = n -> (forall i g, gs !! i = Some g -> member size n (Z.of_nat i) g) -> 0 <= offset s ->
  offset s + sumZ (cost c a n <$> seqZ 0 n) <= size -> length (table s) = 256%nat -> coll_ok (coll_start gs s).
Proof.
  intros Hl Hm Ho Hfit Ht. cbn [coll_start coll_ok]. rewrite length_fmap. split_and!; try done.
  - intros i r Hi. apply list_lookup_fmap_Some in Hi as (g & -> & Hi). exact (Hm i g Hi).
  - assert (E : forall k (l : list cxl_mem), (forall i g, l !! i = Some g -> cm_my_rank g = k + Z.of_nat i) ->
                Z.of_nat (sum_of due ((fun g => mkCollRank g Called) <$> l)) = sumZ (cost c a n <$> seqZ k (Z.of_nat (length l)))).
    { intros k l. revert k. induction l as [|g l IH]; intros k Hk; [done|]. cbn [length]. rewrite seqZ_cons by lia.
      replace (Z.pred (Z.of_nat (S (length l)))) with (Z.of_nat (length l)) by lia.
      change (Z.of_nat (due (mkCollRank g Called) + sum_of due ((fun g => mkCollRank g Called) <$> l)) = cost c a n k + sumZ (cost c a n <$> seqZ (Z.succ k) (Z.of_nat (length l)))).
      rewrite <- IH by (intros i x Hi; rewrite (Hk (S i) x Hi); lia). cbn [due cr_pc cr_view]. rewrite (Hk 0%nat g eq_refl), Z.add_0_r. pose proof (cost_nonneg k). lia. }
    rewrite (E 0), Hl by (intros i g Hi; destruct (Hm i g Hi) as (_ & _ & -> & _); lia). done.
  - intros i r Hi Hne. apply list_lookup_fmap_Some in Hi as (g & -> & Hi). by destruct Hne.
  - left. intros i r Hi. apply list_lookup_fmap_Some in Hi as (g & -> & Hi). by left.
Qed.
End Collective.

(** Steps that are left to a rank. *)
Definition steps_left (r : coll_rank) : nat := match cr_pc r with Called => 4 | FirstBarrier => 3 | Between => 2 | SecondBarrier _ => 1 | _ => 0 end.

Lemma go_on_decreases (rs : list coll_rank) :
  rs <> [] -> Forall (fun r => cr_pc r = FirstBarrier) rs \/ Forall at_second rs -> (sum_of steps_left (go_on <$> rs) < sum_of steps_left rs)%nat.
Proof.
  intros Hne Hall. assert (H : Forall (fun r => steps_left (go_on r) < steps_left r)%nat rs).
  { destruct Hall as [H|H]; (eapply Forall_impl; [exact H|]); intros [g pc]; unfold at_second, steps_left, go_on; cbn; [intros ->; lia|destruct pc; [done..|lia|done|done]]. }
  clear Hall. destruct rs as [|r rs]; [done|]. apply Forall_cons in H as [Hr H].
  change (steps_left (go_on r) + sum_of steps_left (go_on <$> rs) < steps_left r + sum_of steps_left rs)%nat.
  assert ((sum_of steps_left (go_on <$> rs) <= sum_of steps_left rs)%nat); [|lia]. clear -H. induction H as [|x l Hx _ IH]; [done|].
  change (steps_left (go_on x) + sum_of steps_left (go_on <$> l) <= steps_left x + sum_of steps_left l)%nat. lia.
Qed.

Lemma coll_step_decreases (c : collective) (a : coll_args) (st st' : coll_state) :
  coll_step c a st st' -> (sum_of steps_left (cs_ranks st') < sum_of steps_left (cs_ranks st))%nat.
Proof.
  destruct 1 as [rs s i g b g' s' Hi He|rs s Hne Hall|rs s i g out Hi He|rs s Hne Hall]; cbn [cs_ranks]; [|by apply go_on_decreases; auto| |by apply go_on_decreases; auto].
  - pose proof (sum_of_insert steps_left rs i _ (mkCollRank g' (if b then FirstBarrier else InLibrary)) Hi) as E. destruct b; cbn in E; lia.
  - pose proof (sum_of_insert steps_left rs i _ (mkCollRank g (match out with Some bs => SecondBarrier bs | None => InLibrary end)) Hi) as E. destruct out; cbn in E; lia.
Qed.


(** ** Examples *)
Definition demo_member (base rank n : Z) : cxl_mem := mkCxlMem base (2 ^ 31) 0 true true rank n true.

Definition demo_pool (used n : Z) : shared :=
  mkShared (mkShmHeader CXL_SHM_MAGIC 1 n used (2 ^ 31) 1 0 0 0 n (replicate 256 CXL_RPTR_NULL)) [] ∅.

(** Two ranks that add [[1; -1]] and [[2; 5]]. *)
Definition demo_sum : coll_args :=
  mkCollArgs true (fun _ => false) true MPI_INT 2 8 (fun r => if r =? 0 then [1; 0; 0; 0; 255; 255; 255; 255] else [2; 0; 0; 0; 5; 0; 0; 0]) (fun _ => replicate 8 0).

Lemma demo_sum_ok : call_ok Allreduce demo_sum 2.
Proof.
  assert (H2 : forall P : Z -> Prop, P 0 -> P 1 -> forall i, 0 <= i < 2 -> P i) by (intros P P0 P1 i Hi; destruct (decide (i = 0)) as [->|]; [done|]; by replace i with 1 by lia).
  split; [lia|]. split; [done|]. split; [done|]. split; [done|]. split; [done|]. split; [apply H2; (split; [done|intros _; vm_compute; discriminate])|]. split.
  - split; [done|]. split; [by left|]. split; [apply H2; repeat (constructor; [lia|]); constructor|]. change (ca_count demo_sum) with 2. apply H2; vm_compute; reflexivity.
  - apply H2; vm_compute; discriminate.
Qed.


(** Two ranks of which the second finds no room in the pool: it calls the collective of the library
    while the first waits in the barrier, and neither can go on. *)
Theorem collective_mismatch (c : collective) (a : coll_args) (size : Z) (g0 g1 : cxl_mem) (s : shared)
    (Hcall : call_ok c a 2) (Hco : forall r, contributes c r = true) (H0 : member size 2 0 g0) (H1 : member size 2 1 g1) (Ho : 0 <= offset s)
    (Hfit : offset s + align_up (part_bytes c a 2) <= size < offset s + 2 * align_up (part_bytes c a 2)) (Ht : length (table s) = 256%nat) :
  exists st, rtc (coll_step c a) (coll_start [g0; g1] s) st /\ cr_pc <$> cs_ranks st = [FirstBarrier; InLibrary] /\ forall st', ~ coll_step c a st st'.
Proof.
  assert (Hcost : cost c a 2 0 = align_up (part_bytes c a 2)) by (unfold cost; by rewrite Hco).
  destruct (enter_spec c a 2 size Hcall 0 g0 s H0 Ho ltac:(lia) Ht) as (u & s1 & E0 & (Ho1 & Ht1 & _)). rewrite Hcost in Ho1.
  assert (E1 : enter c a g1 s1 = Some (false, g1, s1)).
  { pose proof (part_bytes_range c a 2 Hcall) as [Hp Hmul]. pose proof (small_member c a 2 size Hcall 1 g1 H1) as Hsmall. pose proof H1 as ((Hmap & Hsz & _) & Hs63 & Hr & Hw & _).
    pose proof (pool_allocate_spec (part_bytes c a 2) g1 s1 Hmap) as H. pose proof Hcall as (_ & _ & _ & _ & _ & Hbufs & Hkind). destruct (Hbufs 1 ltac:(lia)) as [Hip _].
    rewrite Hsz, (proj2 (Z.leb_gt _ size)) in H by lia. specialize (H ltac:(pose proof (align_up_range (part_bytes c a 2)); lia) ltac:(lia) ltac:(lia)).
    assert (Hc : contribute (sent_from a g1) (part_bytes c a 2) g1 s1 = Some (false, g1, s1)) by (unfold contribute; by rewrite H).
    destruct c as [root| | | |root|root]; try (specialize (Hco (root + 1)); apply Z.eqb_eq in Hco; lia); cbn [enter part_bytes] in *;
      unfold allreduce_enter, allgather_enter, alltoall_enter, gather_enter; rewrite Hsmall, ?Hw, ?Hr, ?Hip, ?Hmul; cbn [andb negb]; try done.
    destruct Hkind as [(-> & Hty & _) _]. destruct Hty as [->|[->| ->]]; cbn; done. }
  eexists. split; [|split].
  - eapply rtc_l; [by eapply (CEnter _ _ _ _ 0); [reflexivity|exact E0]|]. eapply rtc_l; [by eapply (CEnter _ _ _ _ 1); [reflexivity|exact E1]|]. apply rtc_refl.
  - reflexivity.
  - intros st' Hst. inversion Hst as [rs s' i g b g' s'' Hi He|rs s' Hne Hall|rs s' i g out Hi He|rs s' Hne Hall]; subst; cbn in *.
    + destruct i as [|[|i]]; cbn in Hi; discriminate Hi.
    + apply Forall_cons in Hall as [_ [Hx _]%Forall_cons]. discriminate Hx.
    + destruct i as [|[|i]]; cbn in Hi; discriminate Hi.
    + by apply Forall_cons in Hall as [Hx _].
Qed.

Lemma collective_mismatch_witness :
  exists st, rtc (coll_step Allreduce demo_sum) (coll_start [demo_member 65536 0 2; demo_member CXL_FIXED_ADDR 1 2] (demo_pool (2 ^ 31 - 4096) 2)) st
    /\ cr_pc <$> cs_ranks st = [FirstBarrier; InLibrary] /\ forall st', ~ coll_step Allreduce demo_sum st st'.
Proof.
  apply (collective_mismatch Allreduce demo_sum (2 ^ 31)); [exact demo_sum_ok|reflexivity|..]; unfold member, view_ok, mapped, CXL_FIXED_ADDR; cbn; try lia; try reflexivity.
  vm_compute. split; [discriminate|reflexivity].
Defined.

(** The root of a broadcast that finds no room. *)
Lemma contribute_root_full (size root : Z) (g : cxl_mem) (s : shared) (buf : list Z) (p : Z) :
  member size 2 root g -> 0 < p <= 2 ^ 62 -> 0 <= offset s <= size -> size < offset s + align_up p -> length (table s) = 256%nat ->
  exists s', contribute_root root buf p g s = Some (true, g, s') /\ table s' = <[Z.to_nat root := CXL_RPTR_NULL]> (table s).
Proof.
  intros Hm Hp Ho Hfull Ht. pose proof Hm as ((Hmap & Hsz & _) & Hs63 & Hr & _). pose proof (pool_allocate_spec p g s Hmap ltac:(lia) ltac:(lia) ltac:(lia)) as H.
  rewrite Hsz, (proj2 (Z.leb_gt _ size)) in H by lia. unfold contribute_root. rewrite Hr, Z.eqb_refl, H. cbn [mbind option_bind Z.eqb]. eexists. split; [reflexivity|].
  rewrite <- Hr, (register_spec size 2 root 0 g s Hm), Hr by lia. done.
Qed.

(** The root of a broadcast that finds no room in the pool goes on to the second barrier all the same,
    and waits there while the other rank has called the broadcast of the library; neither can go on. *)
Theorem bcast_root_mismatch (a : coll_args) (size : Z) (g0 g1 : cxl_mem) (s : shared)
    (Hcall : call_ok (Bcast 0) a 2) (H0 : member size 2 0 g0) (H1 : member size 2 1 g1) (Ho : 0 <= offset s <= size)
    (Hfull : size < offset s + align_up (send_bytes a)) (Ht : length (table s) = 256%nat) :
  exists st, rtc (coll_step (Bcast 0) a) (coll_start [g0; g1] s) st /\ cr_pc <$> cs_ranks st = [SecondBarrier (ca_sendbuf a 0); InLibrary] /\ forall st', ~ coll_step (Bcast 0) a st st'.
Proof.
  pose proof (part_bytes_range _ a 2 Hcall) as [Hp _]. cbn [part_bytes] in Hp. pose proof (small_member _ a 2 size Hcall 0 g0 H0) as Hsm0. pose proof (small_member _ a 2 size Hcall 1 g1 H1) as Hsm1.
  destruct (contribute_root_full size 0 g0 s (ca_sendbuf a 0) (send_bytes a) H0 Hp Ho Hfull Ht) as (s1 & E0 & Et1).
  assert (Hn1 : length (table s1) = 256%nat) by (rewrite Et1, length_insert; done).
  destruct (contribute_nothing _ a 2 size Hcall 0 1 (send_bytes a) (ca_sendbuf a 1) g1 s1 H1 ltac:(lia) eq_refl Hn1) as (s2 & E1 & _).
  pose proof H0 as (_ & _ & Hr0 & _). pose proof H1 as ((Hmap1 & _ & Hin1) & _ & Hr1 & _).
  assert (Et2 : table s2 !! Z.to_nat 0 = Some CXL_RPTR_NULL).
  { unfold contribute_root in E1. rewrite (register_spec size 2 1 0 g1 s1 H1 ltac:(lia)), Hr1 in E1. injection E1 as <-. unfold table at 1. cbn.
    rewrite list_lookup_insert_ne by done. rewrite Et1. cbn. rewrite list_lookup_insert_eq by lia. done. }
  assert (Er0 : read (Bcast 0) a g0 s2 = Some (Some (ca_sendbuf a 0))) by (cbn [read]; unfold bcast_read; by rewrite Hr0).
  assert (Er1 : read (Bcast 0) a g1 s2 = Some None).
  { cbn [read]. unfold bcast_read, cxl_collective_get_buffer. rewrite Hr1, Hin1. cbn [negb orb Z.eqb Z.ltb Z.leb Z.compare CXL_MAX_RANKS]. fold (table s2). rewrite Et2. cbn. done. }
  eexists. split; [|split].
  - eapply rtc_l; [eapply (CEnter _ _ _ _ 0); [reflexivity|cbn [enter]; unfold bcast_enter; rewrite Hsm0, Hr0; exact E0]|].
    eapply rtc_l; [eapply (CEnter _ _ _ _ 1); [reflexivity|cbn [enter]; unfold bcast_enter; rewrite Hsm1, Hr1; exact E1]|]. cbn.
    eapply rtc_l; [apply CFirst; [done|by repeat constructor]|]. cbn. eapply rtc_l; [eapply (CRead _ _ _ _ 0); [reflexivity|exact Er0]|].
    eapply rtc_l; [eapply (CRead _ _ _ _ 1); [reflexivity|exact Er1]|]. apply rtc_refl.
  - reflexivity.
  - intros st' Hst. inversion Hst as [rs s' i g b g' s'' Hi He|rs s' Hne Hall|rs s' i g out Hi He|rs s' Hne Hall]; subst; cbn in *.
    + destruct i as [|[|i]]; cbn in Hi; discriminate Hi.
    + apply Forall_cons in Hall as [Hx _]. discriminate Hx.
    + destruct i as [|[|i]]; cbn in Hi; discriminate Hi.
    + by apply Forall_cons in Hall as [_ [Hx _]%Forall_cons].
Qed.

Definition demo_bcast : coll_args := mkCollArgs true (fun _ => false) false (OtherType 1) 3 3 (fun r => if r =? 0 then [7; 8; 9] else [0; 0; 0]) (fun _ => []).

Lemma bcast_root_mismatch_witness :
  exists st, rtc (coll_step (Bcast 0) demo_bcast) (coll_start [demo_member 65536 0 2; demo_member CXL_FIXED_ADDR 1 2] (demo_pool (2 ^ 31) 2)) st
    /\ cr_pc <$> cs_ranks st = [SecondBarrier (ca_sendbuf demo_bcast 0); InLibrary] /\ forall st', ~ coll_step (Bcast 0) demo_bcast st st'.
Proof.
  apply (bcast_root_mismatch demo_bcast (2 ^ 31)); unfold call_ok, member, view_ok, mapped, CXL_FIXED_ADDR; cbn; try lia; try reflexivity.
  split_and!; try lia; try reflexivity.
  - intros r Hr. split; [reflexivity|]. intros ->%Z.eqb_eq. vm_compute. discriminate.
  - intros r Hr. change (send_bytes demo_bcast) with 3. destruct (r =? 0); cbn; lia.
Defined.

(** Three ranks that add the doubles 1, 1 and 2^53. *)
Definition demo_doubles : coll_args :=
  mkCollArgs true (fun _ => false) true MPI_DOUBLE 1 8 (fun r => if r <? 2 then [0; 0; 0; 0; 0; 0; 240; 63] else [0; 0; 0; 0; 0; 0; 64; 67]) (fun _ => replicate 8 0).

(** Every rank adds its own numbers first: three ranks that add the doubles 1, 1 and 2^53 all return
    from [MPI_Allreduce], the first with 2^53 + 2 and the last with 2^53. *)
Theorem allreduce_differs :
  exists st, rtc (coll_step Allreduce demo_doubles) (coll_start [demo_member 65536 0 3; demo_member 65536 1 3; demo_member 65536 2 3] (demo_pool 4096 3)) st
    /\ exists x y, cr_pc <$> cs_ranks st = [Returned x; Returned x; Returned y]
       /\ float_of_bits 52 11 (le_combine x) = d_of_Z (2 ^ 53 + 2) /\ float_of_bits 52 11 (le_combine y) = d_of_Z (2 ^ 53).
Proof.
  eexists. split; [|do 2 eexists; split; [|split]].
  - eapply rtc_l; [eapply (CEnter _ _ _ _ 0); [reflexivity|vm_compute; reflexivity]|]. eapply rtc_l; [eapply (CEnter _ _ _ _ 1); [reflexivity|vm_compute; reflexivity]|].
    eapply rtc_l; [eapply (CEnter _ _ _ _ 2); [reflexivity|vm_compute; reflexivity]|]. cbn. eapply rtc_l; [apply CFirst; [done|by repeat constructor]|]. cbn.
    eapply rtc_l; [eapply (CRead _ _ _ _ 0); [reflexivity|vm_compute; reflexivity]|]. eapply rtc_l; [eapply (CRead _ _ _ _ 1); [reflexivity|vm_compute; reflexivity]|].
    eapply rtc_l; [eapply (CRead _ _ _ _ 2); [reflexivity|vm_compute; reflexivity]|]. cbn. eapply rtc_l; [apply CSecond; [done|by repeat constructor]|]. apply rtc_refl.
  - reflexivity.
  - vm_compute. reflexivity.
  - vm_compute. reflexivity.
Qed.

(** [MPI_Alltoall] and [MPI_Gather], unlike the others, do not look for [MPI_IN_PLACE]: a rank that
    passes it has its bytes copied from an address that is none. *)
Theorem in_place_undefined (c : collective) (a : coll_args) (size n r : Z) (g : cxl_mem) (s : shared)
    (Hc : c = Alltoall \/ exists root, c = Gather root) (Hcall : call_ok Alltoall a n) (Hm : member size n r g) (Ho : 0 <= offset s)
    (Hfit : offset s + align_up (part_bytes c a n) <= size) :
  enter c (mkCollArgs (ca_world a) (fun _ => true) (ca_sum a) (ca_type a) (ca_count a) (ca_recv_bytes a) (ca_sendbuf a) (ca_recvbuf a)) g s = None.
Proof.
  set (a' := mkCollArgs _ _ _ _ _ _ _ _). pose proof (send_bytes_eq _ a n Hcall) as [_ Hb]. pose proof (part_bytes_range _ a n Hcall) as [_ Hmul]. pose proof Hcall as (Hn & _).
  pose proof (small_member _ a n size Hcall r g Hm) as Hsmall. pose proof Hm as ((Hmap & Hsz & _) & Hs63 & Hr & Hw & _).
  assert (Hnone : contribute [] (part_bytes c a n) g s = None).
  { assert (Hp : 0 < part_bytes c a n <= 2 ^ 62) by (destruct Hc as [->|[root ->]]; cbn; nia). destruct Hmap as (Hb0 & Hz0 & Ht0).
    pose proof (pool_allocate_spec (part_bytes c a n) g s ltac:(done) ltac:(pose proof (align_up_range (part_bytes c a n)); lia) ltac:(lia) ltac:(lia)) as H.
    rewrite Hsz, (proj2 (Z.leb_le _ size)) in H by lia. destruct H as (E & _ & _). unfold contribute. rewrite E, (proj2 (Z.eqb_neq _ 0)) by lia. unfold copy_to_pool, mem_read.
    rewrite decide_False by (cbn; lia). done. }
  assert (Hs' : small a' g = true) by exact Hsmall.
  destruct Hc as [->|[root ->]]; cbn [enter part_bytes] in *; unfold alltoall_enter, gather_enter; rewrite Hs'; unfold sent_from; cbn [a' ca_in_place]; fold (send_bytes a);
    change (send_bytes a') with (send_bytes a); rewrite ?Hw, ?Hmul; done.
Qed.

Lemma in_place_undefined_witness :
  enter Alltoall (mkCollArgs true (fun _ => true) false (OtherType 1) 3 3 (fun _ => replicate 6 1) (fun _ => replicate 6 0)) (demo_member 65536 0 2) (demo_pool 4096 2) = None.
Proof.
  apply (in_place_undefined Alltoall (mkCollArgs true (fun _ => false) false (OtherType 1) 3 3 (fun _ => replicate 6 1) (fun _ => replicate 6 0)) (2 ^ 31) 2 0);
    [left; reflexivity| |unfold member, view_ok, mapped; cbn; lia|vm_compute; discriminate|vm_compute; discriminate].
  unfold call_ok. cbn. split_and!; try lia; try reflexivity.
  intros r Hr. split; [reflexivity|]. intros _. vm_compute. discriminate.
Defined.
