(* ===== verification/MpiWindow.v ===== *)
(** * One-sided communication of the MPI shim ([MPI_Win_create], [MPI_Win_allocate], [MPI_Put],
    [MPI_Get], [MPI_Accumulate], [MPI_Win_fence], [MPI_Win_lock], [MPI_Win_unlock] and
    [MPI_Win_free] of [workloads/gromacs/mpi_cxl_shim.c])

    A window is one structure in the pool, allocated by rank 0, in which every rank enters where its
    part of the window is; a rank then reads and writes the parts of the others directly.  Each
    process keeps a list of its windows.  The structures are a map by their relative pointer, apart
    from the bytes of the pool; a copy that would reach one of them, the header or the mailboxes, or
    leave the mapping, is [None].  What is passed to the MPI library is an outcome.

    [window_refines] shows that after [MPI_Win_allocate] on all ranks, puts, gets and accumulates of
    integers within the parts act on an array of bytes for each rank.  Nothing compares the place
    with the size of the part ([put_past_part]), doubles are added as integers
    ([accumulate_double_wrong]), the displacement unit of one rank is used for all
    ([disp_unit_shared]), and a rank without room calls another function of the library than the
    rest ([win_allocate_mismatch]).  The locks are a step relation, with the lock of the library as a
    lock for one writer or many readers; [lock_lost] is about them. *)
From S2P Require Import Prelude Double MpiPool MpiMailbox MpiCollective.
#[local] Open Scope Z_scope.

Definition CXL_WIN_MAGIC : Z := 0x43584C57494E0000.
Definition CXL_WIN_UNLOCKED : Z := 0.
Definition CXL_WIN_LOCK_EXCLUSIVE : Z := 2.
Definition CXL_WIN_LOCK_SHARED : Z := 3.
Definition NO_RANK : Z := 2 ^ 32 - 1.

Record cxl_win_rank_info := mkRankInfo {
  wi_base_rptr : Z;
  wi_size : Z;
  wi_lock_count : Z;
  wi_exclusive_lock : Z;
  wi_fence_counter : Z;
  wi_sync_state : Z;
  wi_owner_rank : Z
}.

Record cxl_win_shm := mkWinShm {
  ws_magic : Z;
  ws_win_id : Z;
  ws_ref_count : Z;
  ws_global_fence : Z;
  ws_comm_size : Z;
  ws_disp_unit : Z;
  ws_ranks : list cxl_win_rank_info
}.

Record cxl_window := mkWindow {
  cw_mpi_win : Z;
  cw_shm : option Z;                    (* relative pointer of the structure *)
  cw_local_base : Z;
  cw_local_size : Z;
  cw_my_rank : Z;
  cw_comm_size : Z;
  cw_enabled : bool;
  cw_win_id : Z
}.

(** A process with its windows, and what all processes share. *)
Record win_proc := mkProc { wp_view : cxl_mem; wp_windows : list cxl_window; wp_next_id : Z }.

Record win_world := mkWorld { ww_shared : shared; ww_shms : gmap Z cxl_win_shm }.

Definition sizeof_win_shm : Z := 64 + CXL_MAX_RANKS * 64.

(** ** Windows *)
Definition find_cxl_window (win : Z) (p : win_proc) : option cxl_window := find (fun w => cw_mpi_win w =? win) (wp_windows p).

Definition set_view (g : cxl_mem) (p : win_proc) : win_proc := mkProc g (wp_windows p) (wp_next_id p).

(** The entries of ranks beyond the communicator keep what the memory holds ([old]). *)
Definition new_win_shm (win_id comm_size : Z) (old : list cxl_win_rank_info) : cxl_win_shm :=
  mkWinShm CXL_WIN_MAGIC win_id 0 0 (wrap32 comm_size) 1
    (imap (fun r i => if Z.of_nat r <? comm_size then mkRankInfo CXL_RPTR_NULL 0 0 NO_RANK 0 CXL_WIN_UNLOCKED (Z.of_nat r) else i) old).

(** Rank 0 before the broadcast; the result is what it broadcasts. *)
Definition register_begin (rank comm_size : Z) (old : list cxl_win_rank_info) (p : win_proc) (w : win_world) : Z * win_proc * win_world :=
  let g := wp_view p in
  if cm_initialized g && cm_comm_enabled g && (rank =? 0) then
    let '(ptr, g1, s1) := pool_allocate sizeof_win_shm g (ww_shared w) in
    if ptr =? 0 then (CXL_RPTR_NULL, set_view g1 p, mkWorld s1 (ww_shms w))
    else let rptr := ptr_to_rptr g1 ptr in (rptr, set_view g1 p, mkWorld s1 (<[rptr := new_win_shm (wp_next_id p) comm_size old]> (ww_shms w)))
  else (CXL_RPTR_NULL, p, w).

Definition set_rank (r : Z) (i : cxl_win_rank_info) (h : cxl_win_shm) : cxl_win_shm :=
  mkWinShm (ws_magic h) (ws_win_id h) (ws_ref_count h) (ws_global_fence h) (ws_comm_size h) (ws_disp_unit h) (<[Z.to_nat r := i]> (ws_ranks h)).

Definition add_ref (n : Z) (h : cxl_win_shm) : cxl_win_shm :=
  mkWinShm (ws_magic h) (ws_win_id h) (wrap32 (ws_ref_count h + n)) (ws_global_fence h) (ws_comm_size h) (ws_disp_unit h) (ws_ranks h).

Definition set_disp_unit (u : Z) (h : cxl_win_shm) : cxl_win_shm :=
  mkWinShm (ws_magic h) (ws_win_id h) (ws_ref_count h) (ws_global_fence h) (ws_comm_size h) (wrap32 u) (ws_ranks h).

Definition set_place (rptr size : Z) (i : cxl_win_rank_info) : cxl_win_rank_info :=
  mkRankInfo rptr size (wi_lock_count i) (wi_exclusive_lock i) (wi_fence_counter i) (wi_sync_state i) (wi_owner_rank i).

(** Every rank after the broadcast of [shm_rptr]. *)
Definition register_finish (win base size rank comm_size shm_rptr : Z) (p : win_proc) (w : win_world) : option (cxl_window * win_proc * win_world) :=
  let g := wp_view p in
  let window shm enabled := mkWindow win shm base size rank comm_size enabled (wp_next_id p) in
  let listed c := mkProc g (c :: wp_windows p) (wrap32 (wp_next_id p + 1)) in
  let plain := window None false in
  if negb (cm_initialized g && cm_comm_enabled g) || (rptr_to_ptr g shm_rptr =? 0) then Some (plain, listed plain, w)
  else
    h ← ww_shms w !! shm_rptr;
    i ← ws_ranks h !! Z.to_nat rank;
    let inside := is_cxl_ptr g base in
    let c := window (Some shm_rptr) inside in
    let h' := if inside then add_ref 1 (set_rank rank (set_place (ptr_to_rptr g base) size i) h) else set_rank rank (set_place CXL_RPTR_NULL 0 i) h in
    Some (c, listed c, mkWorld (ww_shared w) (<[shm_rptr := h']> (ww_shms w))).

(** [MPI_Win_create] and [MPI_Win_allocate] then store the unit of displacements. *)
Definition store_disp_unit (disp_unit : Z) (c : cxl_window) (w : win_world) : win_world :=
  match cw_shm c with Some k => mkWorld (ww_shared w) (alter (set_disp_unit disp_unit) k (ww_shms w)) | None => w end.

(** What [MPI_Win_allocate] asks the library for. *)
Inductive win_call := CreateCall (base : Z) | AllocateCall.

Definition win_allocate_base (size : Z) (p : win_proc) (w : win_world) : win_call * win_proc * win_world :=
  let g := wp_view p in
  if cm_initialized g && cm_comm_enabled g then
    let '(ptr, g1, s1) := pool_allocate size g (ww_shared w) in
    (if ptr =? 0 then AllocateCall else CreateCall ptr, set_view g1 p, mkWorld s1 (ww_shms w))
  else (AllocateCall, p, w).

Definition unregister_cxl_window (win : Z) (p : win_proc) (w : win_world) : win_proc * win_world :=
  match list_find (fun c => cw_mpi_win c = win) (wp_windows p) with
  | Some (i, c) =>
      (mkProc (wp_view p) (delete i (wp_windows p)) (wp_next_id p),
       match cw_shm c with Some k => mkWorld (ww_shared w) (alter (add_ref (-1)) k (ww_shms w)) | None => w end)
  | None => (p, w)
  end.

(** ** Access *)
Inductive rma_outcome := RmaDone | RmaLibrary.

(** The bytes of the pool without the structures. *)
Definition free_of_structures (lo n : Z) (w : win_world) : bool :=
  (structures_size <=? lo) && forallb (fun kh : Z * cxl_win_shm => (lo + n <=? kh.1) || (kh.1 + sizeof_win_shm <=? lo)) (map_to_list (ww_shms w)).

(** Where an access goes: [Some None] to the library. *)
Definition target_place (win target_rank target_disp : Z) (p : win_proc) (w : win_world) : option (option Z) :=
  match find_cxl_window win p with
  | Some c =>
      match cw_enabled c, cw_shm c with
      | true, Some k =>
          h ← ww_shms w !! k;
          if target_rank <? 0 then None
          else
            i ← ws_ranks h !! Z.to_nat target_rank;
            let base := if wi_base_rptr i =? CXL_RPTR_NULL then 0 else rptr_to_ptr (wp_view p) (wi_base_rptr i) in
            Some (if base =? 0 then None else Some (base + target_disp * ws_disp_unit h))
      | _, _ => Some None
      end
  | None => Some None
  end.

Definition pool_range (g : cxl_mem) (addr n : Z) (w : win_world) : bool :=
  (cm_base g <=? addr) && (addr + n <=? cm_base g + cm_size g) && free_of_structures (addr - cm_base g) n w.

Definition set_data (d : gmap Z Z) (w : win_world) : win_world :=
  mkWorld (mkShared (sd_header (ww_shared w)) (sd_mailboxes (ww_shared w)) d) (ww_shms w).

Definition MPI_Put (win target_rank target_disp : Z) (origin : list Z) (p : win_proc) (w : win_world) : option (rma_outcome * win_world) :=
  place ← target_place win target_rank target_disp p w;
  match place with
  | None => Some (RmaLibrary, w)
  | Some addr =>
      if pool_range (wp_view p) addr (Z.of_nat (length origin)) w
      then Some (RmaDone, set_data (write_bytes (addr - cm_base (wp_view p)) origin (sd_data (ww_shared w))) w) else None
  end.

Definition MPI_Get (win target_rank target_disp n : Z) (p : win_proc) (w : win_world) : option (option (list Z)) :=
  place ← target_place win target_rank target_disp p w;
  match place with
  | None => Some None
  | Some addr =>
      if pool_range (wp_view p) addr n w then Some (Some (read_bytes (addr - cm_base (wp_view p)) n (sd_data (ww_shared w)))) else None
  end.

(** Atomic additions to integers of [k] bytes, one after the other. *)
Fixpoint add_all (k : nat) (at_ : Z) (vs : list Z) (d : gmap Z Z) : gmap Z Z :=
  match vs with
  | [] => d
  | v :: vs' => add_all k (at_ + Z.of_nat k) vs' (write_bytes at_ (le_split k ((le_combine (read_bytes at_ (Z.of_nat k) d) + v) mod 2 ^ (8 * Z.of_nat k))) d)
  end.

(** The origin as the integers that are added: for [MPI_DOUBLE] the bits of the doubles. *)
Definition MPI_Accumulate (win target_rank target_disp : Z) (t : datatype) (sum : bool) (origin : list Z) (p : win_proc) (w : win_world) : option (rma_outcome * win_world) :=
  if negb sum then Some (RmaLibrary, w)
  else
    place ← target_place win target_rank target_disp p w;
    match place, t with
    | Some addr, (MPI_DOUBLE | MPI_INT) =>
        let k := type_size t in
        if pool_range (wp_view p) addr (k * Z.of_nat (length origin)) w
        then Some (RmaDone, set_data (add_all (Z.to_nat k) (addr - cm_base (wp_view p)) origin (sd_data (ww_shared w))) w) else None
    | _, _ => Some (RmaLibrary, w)
    end.

(** [MPI_Win_fence] counts, and calls the library. *)
Definition MPI_Win_fence (win : Z) (p : win_proc) (w : win_world) : option win_world :=
  match find_cxl_window win p with
  | Some c =>
      match cw_enabled c, cw_shm c with
      | true, Some k =>
          h ← ww_shms w !! k;
          i ← ws_ranks h !! Z.to_nat (cw_my_rank c);
          let i' := mkRankInfo (wi_base_rptr i) (wi_size i) (wi_lock_count i) (wi_exclusive_lock i) (wi_fence_counter i ⊞ 1) (wi_sync_state i) (wi_owner_rank i) in
          let h1 := set_rank (cw_my_rank c) i' h in
          let h2 := mkWinShm (ws_magic h1) (ws_win_id h1) (ws_ref_count h1) (ws_global_fence h1 ⊞ 1) (ws_comm_size h1) (ws_disp_unit h1) (ws_ranks h1) in
          Some (mkWorld (ww_shared w) (<[k := h2]> (ww_shms w)))
      | _, _ => Some w
      end
  | None => Some w
  end.

(** ** Locks

    The lock of the part of one rank: the fields of its entry, the holders of the library's lock, and
    where each rank is. *)
Inductive lock_pc :=
| LIdle
| LTaken                                   (* exclusive_lock is set to this rank *)
| LFree                                    (* a shared lock: no exclusive one was seen *)
| LCounted
| LWaits (exclusive : bool)                (* in MPI_Win_lock of the library *)
| LHeld (exclusive : bool)
| LRead (state : Z)                        (* MPI_Win_unlock has read sync_state *)
| LReleased
| LCleared.                                (* before MPI_Win_unlock of the library *)

Record lock_state := mkLock {
  lk_exclusive : Z;
  lk_count : Z;
  lk_sync : Z;
  lk_library : list (nat * bool);
  lk_ranks : list lock_pc
}.

Definition lock_start (n : nat) : lock_state := mkLock NO_RANK 0 CXL_WIN_UNLOCKED [] (replicate n LIdle).

Inductive lock_step : lock_state -> lock_state -> Prop :=
| LkTake c y l rs i : rs !! i = Some LIdle -> lock_step (mkLock NO_RANK c y l rs) (mkLock (Z.of_nat i) c y l (<[i := LTaken]> rs))
| LkStoreExclusive e c y l rs i : rs !! i = Some LTaken -> lock_step (mkLock e c y l rs) (mkLock e c CXL_WIN_LOCK_EXCLUSIVE l (<[i := LWaits true]> rs))
| LkLook c y l rs i : rs !! i = Some LIdle -> lock_step (mkLock NO_RANK c y l rs) (mkLock NO_RANK c y l (<[i := LFree]> rs))
| LkCount e c y l rs i : rs !! i = Some LFree -> lock_step (mkLock e c y l rs) (mkLock e (wrap32 (c + 1)) y l (<[i := LCounted]> rs))
| LkStoreShared e c y l rs i : rs !! i = Some LCounted -> lock_step (mkLock e c y l rs) (mkLock e c CXL_WIN_LOCK_SHARED l (<[i := LWaits false]> rs))
| LkLibrary e c y l rs i x :
    rs !! i = Some (LWaits x) -> Forall (fun h => x = false /\ h.2 = false) l ->
    lock_step (mkLock e c y l rs) (mkLock e c y ((i, x) :: l) (<[i := LHeld x]> rs))
| LkRead e c y l rs i x : rs !! i = Some (LHeld x) -> lock_step (mkLock e c y l rs) (mkLock e c y l (<[i := LRead y]> rs))
| LkRelease e c y l rs i st :
    rs !! i = Some (LRead st) ->
    lock_step (mkLock e c y l rs)
      (mkLock (if st =? CXL_WIN_LOCK_EXCLUSIVE then NO_RANK else e) (if st =? CXL_WIN_LOCK_SHARED then wrap32 (c - 1) else c) y l (<[i := LReleased]> rs))
| LkClear e c y l rs i : rs !! i = Some LReleased -> lock_step (mkLock e c y l rs) (mkLock e c CXL_WIN_UNLOCKED l (<[i := LCleared]> rs))
| LkUnlock e c y l rs i :
    rs !! i = Some LCleared -> lock_step (mkLock e c y l rs) (mkLock e c y (filter (fun h => h.1 <> i) l) (<[i := LIdle]> rs)).

(** ** All ranks *)

(** [MPI_Win_allocate] on all ranks, in the order of the ranks between the calls of the library:
    each takes its part from the pool, ... *)
Fixpoint allocate_bases (size : Z) (ps : list win_proc) (w : win_world) : list win_call * list win_proc * win_world :=
  match ps with
  | [] => ([], [], w)
  | p :: ps' =>
      let '(call, p1, w1) := win_allocate_base size p w in
      let '(calls, ps1, w2) := allocate_bases size ps' w1 in (call :: calls, p1 :: ps1, w2)
  end.

(** ... and enters it after the broadcast of [k]. *)
Fixpoint attach_all (win size n k rank : Z) (bases : list Z) (ps : list win_proc) (w : win_world) : option (list cxl_window * list win_proc * win_world) :=
  match bases, ps with
  | b :: bases', p :: ps' =>
      '(c, p1, w1) ← register_finish win b size rank n k p w;
      '(cs, ps1, w2) ← attach_all win size n k (rank + 1) bases' ps' w1; Some (c :: cs, p1 :: ps1, w2)
  | _, _ => Some ([], [], w)
  end.

Definition created (call : win_call) : option Z := match call with CreateCall b => Some b | AllocateCall => None end.

(** [None] also when the ranks do not all call the same function of the library. *)
Definition win_allocate_all (win size disp_unit : Z) (old : list cxl_win_rank_info) (ps : list win_proc) (w : win_world) : option (list win_proc * win_world) :=
  let n := Z.of_nat (length ps) in
  let '(calls, ps1, w1) := allocate_bases size ps w in
  bases ← mapM created calls;
  match ps1 with
  | [] => None
  | p0 :: ps' =>
      let '(k, p0', w2) := register_begin 0 n old p0 w1 in
      '(cs, ps2, w3) ← attach_all win size n k 0 bases (p0' :: ps') w2;
      Some (ps2, foldr (store_disp_unit disp_unit) w3 cs)
  end.

(** Accesses by any rank. *)
Inductive rma_op := OpPut (target disp : Z) (bs : list Z) | OpGet (target disp n : Z) | OpAdd (target disp : Z) (vs : list Z).

Definition run_rma (win : Z) (op : rma_op) (p : win_proc) (w : win_world) : option (option (list Z) * win_world) :=
  match op with
  | OpPut t d bs => '(out, w1) ← MPI_Put win t d bs p w; match out with RmaDone => Some (None, w1) | RmaLibrary => None end
  | OpGet t d n => out ← MPI_Get win t d n p w; bs ← out; Some (Some bs, w)
  | OpAdd t d vs => '(out, w1) ← MPI_Accumulate win t d MPI_INT true vs p w; match out with RmaDone => Some (None, w1) | RmaLibrary => None end
  end.

Fixpoint run_rmas (win : Z) (ops : list (nat * rma_op)) (ps : list win_proc) (w : win_world) : option (list (option (list Z)) * win_world) :=
  match ops with
  | [] => Some ([], w)
  | (r, op) :: ops' =>
      p ← ps !! r;
      '(out, w1) ← run_rma win op p w; '(outs, w2) ← run_rmas win ops' ps w1; Some (out :: outs, w2)
  end.

(** ** What they mean: an array of bytes for each rank *)
Fixpoint add_array (at_ : Z) (vs : list Z) (arr : list Z) : option (list Z) :=
  match vs with
  | [] => Some arr
  | v :: vs' => x ← mem_read at_ 4 arr; arr' ← mem_write at_ (le_split 4 ((le_combine x + v) mod 2 ^ 32)) arr; add_array (at_ + 4) vs' arr'
  end.

Definition spec_rma (disp_unit : Z) (op : rma_op) (arrs : list (list Z)) : option (option (list Z) * list (list Z)) :=
  match op with
  | OpPut t d bs => arr ← arrs !! Z.to_nat t; arr' ← mem_write (d * disp_unit) bs arr; Some (None, <[Z.to_nat t := arr']> arrs)
  | OpGet t d n => arr ← arrs !! Z.to_nat t; bs ← mem_read (d * disp_unit) n arr; Some (Some bs, arrs)
  | OpAdd t d vs => arr ← arrs !! Z.to_nat t; arr' ← add_array (d * disp_unit) vs arr; Some (None, <[Z.to_nat t := arr']> arrs)
  end.

Fixpoint spec_rmas (disp_unit : Z) (ops : list (nat * rma_op)) (arrs : list (list Z)) : option (list (option (list Z)) * list (list Z)) :=
  match ops with
  | [] => Some ([], arrs)
  | (_, op) :: ops' => '(out, arrs1) ← spec_rma disp_unit op arrs; '(outs, arrs2) ← spec_rmas disp_unit ops' arrs1; Some (out :: outs, arrs2)
  end.

(** An access by one of [n] ranks to the part of another, of [size] bytes. *)
Definition op_within (n size disp_unit : Z) (rop : nat * rma_op) : Prop :=
  let inside t d m := 0 <= t < n /\ 0 <= d * disp_unit /\ d * disp_unit + m <= size in
  Z.of_nat rop.1 < n
  /\ match rop.2 with
     | OpPut t d bs => inside t d (Z.of_nat (length bs))
     | OpGet t d m => 0 <= m /\ inside t d m
     | OpAdd t d vs => inside t d (4 * Z.of_nat (length vs))
     end.

(** ** Arrays in the pool *)
Lemma read_write_apart (off n at_ : Z) (bs : list Z) (m : gmap Z Z) :
  off + n <= at_ \/ at_ + Z.of_nat (length bs) <= off -> read_bytes off n (write_bytes at_ bs m) = read_bytes off n m.
Proof.
  intros H. unfold read_bytes. apply list_fmap_ext. intros k i Hk. apply lookup_seqZ in Hk as [-> Hk]. by rewrite write_bytes_lookup, decide_False by lia.
Qed.

Lemma read_write_inside (off size at_ : Z) (bs : list Z) (d : gmap Z Z) :
  0 <= at_ -> at_ + Z.of_nat (length bs) <= size -> mem_write at_ bs (read_bytes off size d) = Some (read_bytes off size (write_bytes (off + at_) bs d)).
Proof.
  intros Hat Hlen. pose proof (length_read_bytes off size d ltac:(lia)) as Hl. destruct (mem_write_Some at_ bs (read_bytes off size d)) as [m Hm]; [lia|lia|]. rewrite Hm. f_equal.
  apply list_eq. intros i. rewrite (mem_write_lookup _ _ _ _ i Hm). unfold read_bytes. rewrite !list_lookup_fmap. destruct (decide (i < Z.to_nat size)%nat) as [Hi|Hi].
  - rewrite lookup_seqZ_lt by lia. cbn. rewrite write_bytes_lookup. destruct (decide (off + at_ <= off + (0 + Z.of_nat i) < off + at_ + Z.of_nat (length bs))) as [Hin|Hin].
    + rewrite decide_True by lia. replace (Z.to_nat (off + (0 + Z.of_nat i) - (off + at_))) with (i - Z.to_nat at_)%nat by lia.
      destruct (lookup_lt_is_Some_2 bs (i - Z.to_nat at_)) as [x ->]; [lia|done].
    + rewrite decide_False by lia. done.
  - rewrite lookup_seqZ_ge by lia. cbn. rewrite decide_False by lia. done.
Qed.

Lemma mem_read_inside (off size at_ n : Z) (d : gmap Z Z) :
  0 <= at_ -> 0 <= n -> at_ + n <= size -> mem_read at_ n (read_bytes off size d) = Some (read_bytes (off + at_) n d).
Proof.
  intros Hat Hn Hle. pose proof (length_read_bytes off size d ltac:(lia)) as Hl. rewrite mem_read_Some by lia. f_equal. symmetry. by apply (read_bytes_slice off size at_ n).
Qed.

Lemma add_all_inside (off size : Z) (vs : list Z) (at_ : Z) (d : gmap Z Z) :
  0 <= at_ -> at_ + 4 * Z.of_nat (length vs) <= size ->
  add_array at_ vs (read_bytes off size d) = Some (read_bytes off size (add_all 4 (off + at_) vs d))
  /\ forall off' n, off' + n <= off + at_ \/ off + size <= off' -> read_bytes off' n (add_all 4 (off + at_) vs d) = read_bytes off' n d.
Proof.
  revert at_ d. induction vs as [|v vs IH]; intros at_ d Hat Hlen; [done|]. cbn [length] in Hlen. cbn [add_array add_all].
  rewrite mem_read_inside by lia. cbn [mbind option_bind]. change (8 * Z.of_nat 4) with 32. change (Z.of_nat 4) with 4.
  set (bs := le_split 4 ((le_combine (read_bytes (off + at_) 4 d) + v) mod 2 ^ 32)). assert (Hbs : length bs = 4%nat) by apply le_split_length.
  rewrite (read_write_inside off size at_ bs d) by lia. cbn [mbind option_bind]. rewrite <- Z.add_assoc.
  destruct (IH (at_ + 4) (write_bytes (off + at_) bs d) ltac:(lia) ltac:(lia)) as [IH1 IH2]. split; [exact IH1|].
  intros off' n H. rewrite IH2 by lia. apply read_write_apart. lia.
Qed.

(** ** Accesses within the parts *)
Section Window.
Context (win size disp_unit k limit : Z) (offs : list Z) (Hsize : 0 < size) (Hlimit : limit < 2 ^ 63).

(** The parts begin at [offs], inside the pool, apart from each other and from the structures. *)
Definition window_ok (ps : list win_proc) (w : win_world) : Prop :=
  length ps = length offs
  /\ (exists h, ww_shms w !! k = Some h /\ ws_disp_unit h = disp_unit /\ forall i off, offs !! i = Some off -> exists info, ws_ranks h !! i = Some info /\ wi_base_rptr info = off)
  /\ (forall i p, ps !! i = Some p -> view_ok limit (wp_view p) /\ exists c, find_cxl_window win p = Some c /\ cw_enabled c = true /\ cw_shm c = Some k)
  /\ (forall i off, offs !! i = Some off ->
        structures_size <= off /\ off + size <= limit /\ forall k' h', ww_shms w !! k' = Some h' -> off + size <= k' \/ k' + sizeof_win_shm <= off)
  /\ (forall i j off off', offs !! i = Some off -> offs !! j = Some off' -> i <> j -> off + size <= off' \/ off' + size <= off).

Definition parts (w : win_world) : list (list Z) := (fun off => read_bytes off size (sd_data (ww_shared w))) <$> offs.

Lemma window_ok_data (ps : list win_proc) (w : win_world) (d : gmap Z Z) : window_ok ps w -> window_ok ps (set_data d w).
Proof. done. Qed.

Lemma target_place_spec (ps : list win_proc) (w : win_world) (r : nat) (p : win_proc) (t d off : Z) :
  window_ok ps w -> ps !! r = Some p -> 0 <= t -> offs !! Z.to_nat t = Some off ->
  target_place win t d p w = Some (Some (cm_base (wp_view p) + off + d * disp_unit)).
Proof.
  intros (_ & (h & Hh & Hu & Hi) & Hp & Ho & _) Hr Ht Hoff. destruct (Hp r p Hr) as ((Hmap & Hsz & _) & c & Hc & He & Hs). destruct (Hi _ _ Hoff) as (info & Hinfo & Hbase).
  destruct (Ho _ _ Hoff) as (Hlow & Hhigh & _). unfold target_place. rewrite Hc, He, Hs, Hh. cbn [mbind option_bind]. rewrite (proj2 (Z.ltb_ge t 0)), Hinfo by lia. cbn [mbind option_bind].
  rewrite Hbase. destruct Hmap as (Hb & _ & Htop). unfold rptr_to_ptr, CXL_RPTR_NULL. assert (0 < structures_size) by done.
  rewrite (proj2 (Z.eqb_neq off _)), (proj2 (Z.eqb_neq (cm_base (wp_view p)) 0)), (proj2 (Z.leb_gt (cm_size _) off)) by lia. cbn [orb].
  rewrite wrap64_small by (unfold u64; lia). rewrite (proj2 (Z.eqb_neq _ 0)) by lia. by rewrite Hu.
Qed.

Lemma pool_range_spec (ps : list win_proc) (w : win_world) (r : nat) (p : win_proc) (t at_ n off : Z) :
  window_ok ps w -> ps !! r = Some p -> offs !! Z.to_nat t = Some off -> 0 <= at_ -> 0 <= n -> at_ + n <= size ->
  pool_range (wp_view p) (cm_base (wp_view p) + off + at_) n w = true.
Proof.
  intros (_ & _ & Hp & Ho & _) Hr Hoff Hat Hn Hle. destruct (Hp r p Hr) as ((Hmap & Hsz & _) & _). destruct (Ho _ _ Hoff) as (Hlow & Hhigh & Hclear).
  assert (0 < structures_size) by done. unfold pool_range, free_of_structures. rewrite (proj2 (Z.leb_le (cm_base _) _)), (proj2 (Z.leb_le (_ + n) (cm_base _ + _))) by lia.
  rewrite (proj2 (Z.leb_le structures_size _)) by lia. cbn [andb]. apply forallb_forall. intros [k' h'] Hin. apply list_elem_of_In, elem_of_map_to_list in Hin. cbn.
  destruct (Hclear k' h' Hin); [rewrite (proj2 (Z.leb_le (_ + n) k')) by lia; done|rewrite (proj2 (Z.leb_le (k' + _) _)), orb_true_r by lia; done].
Qed.

(** A change of the bytes inside one part changes that array alone. *)
Lemma parts_change (ps : list win_proc) (w : win_world) (t : nat) (off : Z) (d : gmap Z Z) :
  window_ok ps w -> offs !! t = Some off -> (forall off' n, off' + n <= off \/ off + size <= off' -> read_bytes off' n d = read_bytes off' n (sd_data (ww_shared w))) ->
  parts (set_data d w) = <[t := read_bytes off size d]> (parts w).
Proof.
  intros (_ & _ & _ & _ & Hap) Hoff Hd. unfold parts. cbn [set_data ww_shared sd_data]. apply list_eq. intros i. destruct (decide (i = t)) as [->|Hne].
  - rewrite list_lookup_insert_eq by (rewrite length_fmap; by eapply lookup_lt_Some). by rewrite list_lookup_fmap, Hoff.
  - rewrite list_lookup_insert_ne, !list_lookup_fmap by done. destruct (offs !! i) as [off'|] eqn:E; [|done]. cbn. f_equal. apply Hd. destruct (Hap i t off' off E Hoff Hne); auto.
Qed.

Lemma run_rma_spec (ps : list win_proc) (w : win_world) (r : nat) (p : win_proc) (op : rma_op) :
  window_ok ps w -> ps !! r = Some p -> op_within (Z.of_nat (length offs)) size disp_unit (r, op) ->
  exists out d, run_rma win op p w = Some (out, set_data d w) /\ spec_rma disp_unit op (parts w) = Some (out, parts (set_data d w)).
Proof.
  intros Hok Hr [_ Hop]. cbn in Hop.
  assert (Hoff : forall t, 0 <= t < Z.of_nat (length offs) -> exists off, offs !! Z.to_nat t = Some off /\ parts w !! Z.to_nat t = Some (read_bytes off size (sd_data (ww_shared w)))).
  { intros t Ht. destruct (lookup_lt_is_Some_2 offs (Z.to_nat t) ltac:(lia)) as [off E]. exists off. unfold parts. by rewrite list_lookup_fmap, E. }
  destruct op as [t d bs|t d n|t d vs]; cbn [run_rma spec_rma].
  - destruct Hop as (Ht & Hd & Hle). destruct (Hoff t Ht) as (off & E & ->). unfold MPI_Put.
    rewrite (target_place_spec ps w r p t d off Hok Hr ltac:(lia) E). cbn [mbind option_bind]. rewrite (pool_range_spec ps w r p t _ _ off Hok Hr E) by lia. cbn [mbind option_bind].
    rewrite (read_write_inside off size) by lia. cbn [mbind option_bind]. do 2 eexists. split; [reflexivity|]. replace (cm_base _ + off + _ - cm_base _) with (off + d * disp_unit) by lia.
    rewrite (parts_change ps w (Z.to_nat t) off) by (try done; intros; apply read_write_apart; lia). done.
  - destruct Hop as (Hn & Ht & Hd & Hle). destruct (Hoff t Ht) as (off & E & ->). unfold MPI_Get.
    rewrite (target_place_spec ps w r p t d off Hok Hr ltac:(lia) E). cbn [mbind option_bind]. rewrite (pool_range_spec ps w r p t _ _ off Hok Hr E) by lia. cbn [mbind option_bind].
    rewrite mem_read_inside by lia. cbn [mbind option_bind]. eexists _, (sd_data (ww_shared w)). replace (cm_base _ + off + _ - cm_base _) with (off + d * disp_unit) by lia.
    destruct w as [[h mb dd] shms]. done.
  - destruct Hop as (Ht & Hd & Hle). destruct (Hoff t Ht) as (off & E & ->). unfold MPI_Accumulate. cbn [negb].
    rewrite (target_place_spec ps w r p t d off Hok Hr ltac:(lia) E). cbn [mbind option_bind type_size]. rewrite (pool_range_spec ps w r p t _ _ off Hok Hr E) by lia. cbn [mbind option_bind].
    destruct (add_all_inside off size vs (d * disp_unit) (sd_data (ww_shared w)) ltac:(lia) ltac:(lia)) as [E1 E2]. rewrite E1. cbn [mbind option_bind].
    do 2 eexists. split; [reflexivity|]. replace (cm_base _ + off + _ - cm_base _) with (off + d * disp_unit) by lia. change (Z.to_nat 4) with 4%nat.
    rewrite (parts_change ps w (Z.to_nat t) off); [done..|]. intros off' n H. apply E2. lia.
Qed.

Lemma run_rmas_spec (ps : list win_proc) (ops : list (nat * rma_op)) (w : win_world) :
  window_ok ps w -> Forall (op_within (Z.of_nat (length offs)) size disp_unit) ops ->
  exists outs w', run_rmas win ops ps w = Some (outs, w') /\ spec_rmas disp_unit ops (parts w) = Some (outs, parts w').
Proof.
  intros Hok Hops. revert w Hok. induction Hops as [|[r op] ops Hop _ IH]; intros w Hok; [by exists [], w|]. cbn [run_rmas spec_rmas].
  pose proof Hok as (Hl & _). pose proof Hop as [Hr _]. cbn in Hr. destruct (lookup_lt_is_Some_2 ps r ltac:(lia)) as [p Hp]. rewrite Hp. cbn [mbind option_bind].
  destruct (run_rma_spec ps w r p op Hok Hp Hop) as (out & d & E1 & E2). rewrite E1, E2. cbn [mbind option_bind].
  destruct (IH (set_data d w) (window_ok_data ps w d Hok)) as (outs & w' & E3 & E4). rewrite E3, E4. cbn. by exists (out :: outs), w'.
Qed.
End Window.

(** ** Creation *)
Section Creation.
Context (win size disp_unit n limit : Z) (Hsize : 0 < size <= 2 ^ 62) (Hunit : 0 <= disp_unit < 2 ^ 32) (Hlimit : limit < 2 ^ 63) (Hn : 1 <= n <= CXL_MAX_RANKS).

(** A process that communicates. *)
Definition proc_ok (p : win_proc) : Prop := view_ok limit (wp_view p) /\ cm_comm_enabled (wp_view p) = true.

Definition place_of (start : Z) (i : nat) : Z := start + Z.of_nat i * align_up size.

Lemma place_in_mapping (g : cxl_mem) (off : Z) : view_ok limit g -> 0 <= off -> off < limit -> is_cxl_ptr g (cm_base g + off) = true /\ ptr_to_rptr g (cm_base g + off) = off.
Proof.
  intros ((Hb & Hz & Ht) & Hsz & Hi) Ho Hlt. unfold is_cxl_ptr, ptr_to_rptr. rewrite Hi, (proj2 (Z.eqb_neq (cm_base g + off) 0)), (proj2 (Z.eqb_neq (cm_base g) 0)) by lia.
  rewrite !(wrap64_small (cm_base g + cm_size g)) by (unfold u64; lia). cbn [orb negb].
  rewrite (proj2 (Z.leb_le (cm_base g) _)), (proj2 (Z.ltb_lt (cm_base g + off) _)), (proj2 (Z.ltb_ge (cm_base g + off) _)), (proj2 (Z.leb_gt _ (cm_base g + off))) by lia. split; [done|]. cbn. lia.
Qed.

Lemma allocate_bases_spec (ps : list win_proc) (w : win_world) :
  Forall proc_ok ps -> 0 <= offset (ww_shared w) -> offset (ww_shared w) + Z.of_nat (length ps) * align_up size <= limit ->
  exists bases ps1 w1, allocate_bases size ps w = (CreateCall <$> bases, ps1, w1) /\ length bases = length ps /\ length ps1 = length ps
    /\ offset (ww_shared w1) = offset (ww_shared w) + Z.of_nat (length ps) * align_up size /\ ww_shms w1 = ww_shms w
    /\ forall i p, ps1 !! i = Some p -> proc_ok p /\ bases !! i = Some (cm_base (wp_view p) + place_of (offset (ww_shared w)) i).
Proof.
  pose proof (align_up_range size) as Ha. intros Hps. revert w. induction Hps as [|p ps Hp _ IH]; intros w Ho Hfit; [exists [], [], w; split_and!; [done..|cbn; lia|done|done]|].
  cbn [allocate_bases length] in *. destruct Hp as (Hv & Hc). pose proof Hv as (Hmap & Hsz & Hi). unfold win_allocate_base. rewrite Hi, Hc. cbn [andb].
  pose proof (pool_allocate_spec size (wp_view p) (ww_shared w) Hmap ltac:(lia) ltac:(lia) ltac:(lia)) as H. rewrite Hsz, (proj2 (Z.leb_le _ limit)) in H by lia. destruct H as (-> & _ & _).
  pose proof Hmap as (Hb & _). rewrite (proj2 (Z.eqb_neq _ 0)) by lia. set (w1 := mkWorld _ (ww_shms w)). assert (Ho1 : offset (ww_shared w1) = offset (ww_shared w) + align_up size) by done.
  destruct (IH w1 ltac:(lia) ltac:(lia)) as (bases & ps1 & w2 & -> & Hl1 & Hl2 & Ho2 & Hs2 & Hall).
  exists ((cm_base (wp_view p) + offset (ww_shared w)) :: bases). do 2 eexists. split; [reflexivity|]. cbn [length]. split_and!; [lia|lia|lia|done|].
  intros [|i] q Hq; cbn in Hq.
  - injection Hq as <-. split; [done|]. cbn. unfold place_of. do 2 f_equal. lia.
  - destruct (Hall i q Hq) as [Hq1 Hq2]. split; [done|]. etrans; [exact Hq2|]. unfold place_of. rewrite Ho1. do 2 f_equal. lia.
Qed.

Lemma mapM_created (l : list Z) : mapM created (CreateCall <$> l) = Some l.
Proof. induction l as [|b l IH]; [done|]. cbn in *. by rewrite IH. Qed.

(** Attaching the ranks from [j] on enters their places and leaves the other entries. *)
Lemma attach_all_spec (k start : Z) (bases : list Z) (ps : list win_proc) (w : win_world) (h : cxl_win_shm) (j : nat) :
  0 <= k < limit -> 0 <= start -> length bases = length ps -> (forall i p, ps !! i = Some p -> proc_ok p /\ bases !! i = Some (cm_base (wp_view p) + place_of start (j + i))) ->
  place_of start (j + length ps) <= limit -> ww_shms w !! k = Some h -> length (ws_ranks h) = 256%nat -> (j + length ps <= 256)%nat ->
  exists cs ps1 w1 h1, attach_all win size n k (Z.of_nat j) bases ps w = Some (cs, ps1, w1) /\ length cs = length ps /\ length ps1 = length ps /\ Forall (fun c => cw_shm c = Some k) cs
    /\ ww_shared w1 = ww_shared w /\ ww_shms w1 = <[k := h1]> (ww_shms w)
    /\ (forall i, (i < length ps)%nat -> exists info, ws_ranks h1 !! (j + i)%nat = Some info /\ wi_base_rptr info = place_of start (j + i))
    /\ (forall i, (i < j)%nat -> ws_ranks h1 !! i = ws_ranks h !! i)
    /\ forall i p, ps1 !! i = Some p -> view_ok limit (wp_view p) /\ exists c, find_cxl_window win p = Some c /\ cw_enabled c = true /\ cw_shm c = Some k.
Proof.
  pose proof (align_up_enough size ltac:(unfold CXL_ALIGNMENT; lia)) as Ha. intros Hk Hst. revert ps w h j. induction bases as [|b bases IH]; intros [|p ps] w h j Hl Hps Hfit Hh Hlr Hj; try done.
  { exists [], [], w, h. split_and!; try done. - by rewrite insert_id. - intros i Hi. cbn in Hi. lia. }
  destruct (Hps 0%nat p eq_refl) as [(Hv & Hc) Hb]. cbn in Hb. rewrite Nat.add_0_r in Hb. injection Hb as ->. cbn [length] in *. cbn [attach_all]. unfold register_finish at 1.
  pose proof Hv as ((Hb0 & Hb1 & Hb2) & Hsz & Hin). rewrite Hin, Hc. unfold rptr_to_ptr, CXL_RPTR_NULL.
  rewrite (proj2 (Z.eqb_neq k _)), (proj2 (Z.eqb_neq (cm_base (wp_view p)) 0)), (proj2 (Z.leb_gt (cm_size _) k)) by lia. cbn [orb andb negb].
  rewrite wrap64_small, (proj2 (Z.eqb_neq _ 0)) by (unfold u64; lia). rewrite Hh. cbn [mbind option_bind]. rewrite Nat2Z.id.
  destruct (lookup_lt_is_Some_2 (ws_ranks h) j ltac:(lia)) as [info Hinfo]. rewrite Hinfo. cbn [mbind option_bind].
  destruct (place_in_mapping (wp_view p) (place_of start j) Hv) as [Ein Eptr]; [unfold place_of in *; nia..|]. rewrite Ein, Eptr.
  set (h' := add_ref 1 _). set (c := mkWindow _ _ _ _ _ _ _ _). set (w' := mkWorld _ _).
  replace (Z.of_nat j + 1) with (Z.of_nat (S j)) by lia.
  destruct (IH ps w' h' (S j) ltac:(lia)) as (cs & ps1 & w1 & h1 & -> & H1 & H2 & H3 & H4 & H5 & H6 & H7 & H8).
  - intros i q Hq. destruct (Hps (S i) q Hq) as [Hq1 Hq2]. split; [done|]. etrans; [exact Hq2|]. do 3 f_equal. lia.
  - replace (S j + length ps)%nat with (j + S (length ps))%nat by lia. done.
  - apply lookup_insert_eq.
  - cbn. by rewrite length_insert.
  - lia.
  - cbn. do 4 eexists. split; [reflexivity|]. cbn [length]. split_and!; [lia|lia|by constructor|done|rewrite H5; apply insert_insert_eq| | |].
    + intros [|i] Hi.
      * rewrite Nat.add_0_r, H7 by lia. cbn. rewrite Nat2Z.id, list_lookup_insert_eq by lia. by eexists.
      * destruct (H6 i ltac:(lia)) as (inf & E1 & E2). exists inf. replace (j + S i)%nat with (S j + i)%nat by lia. done.
    + intros i Hi. rewrite H7 by lia. cbn. by rewrite Nat2Z.id, list_lookup_insert_ne by lia.
    + intros [|i] q Hq; cbn in Hq; [|by apply H8 with i]. injection Hq as <-. split; [done|]. exists c. unfold find_cxl_window. cbn. by rewrite Z.eqb_refl.
Qed.

Lemma store_all_spec (k : Z) (cs : list cxl_window) (w : win_world) (h : cxl_win_shm) :
  cs <> [] -> Forall (fun c => cw_shm c = Some k) cs -> ww_shms w !! k = Some h ->
  exists h1, ww_shms (foldr (store_disp_unit disp_unit) w cs) = <[k := h1]> (ww_shms w) /\ ww_shared (foldr (store_disp_unit disp_unit) w cs) = ww_shared w
    /\ ws_ranks h1 = ws_ranks h /\ ws_disp_unit h1 = disp_unit.
Proof.
  intros Hne Hcs Hh. induction Hcs as [|c cs Hc _ IH]; [done|]. cbn [foldr]. unfold store_disp_unit at 1 3. rewrite Hc. cbn [ww_shms ww_shared].
  destruct cs as [|c' cs].
  - exists (set_disp_unit disp_unit h). cbn. split_and!; [|done..|by apply wrap32_small]. rewrite <- (insert_id _ _ _ Hh) at 1. by rewrite alter_insert_eq.
  - destruct (IH ltac:(done)) as (h1 & E1 & E2 & E3 & E4). rewrite E1, E2. exists (set_disp_unit disp_unit h1). split_and!; [by rewrite alter_insert_eq|done..|by apply wrap32_small].
Qed.
End Creation.

Lemma register_begin_spec (n limit : Z) (old : list cxl_win_rank_info) (p : win_proc) (w : win_world) :
  proc_ok limit p -> limit < 2 ^ 63 -> 0 <= offset (ww_shared w) -> offset (ww_shared w) + align_up sizeof_win_shm <= limit -> length old = 256%nat ->
  exists u s1 h, register_begin 0 n old p w = (offset (ww_shared w), set_view (set_used u (wp_view p)) p, mkWorld s1 (<[offset (ww_shared w) := h]> (ww_shms w)))
    /\ length (ws_ranks h) = 256%nat.
Proof.
  intros (Hv & Hc) Hlim Ho Hfit Hold. pose proof Hv as (Hmap & Hsz & Hi). unfold register_begin. rewrite Hi, Hc. cbn [andb Z.eqb].
  assert (0 < sizeof_win_shm <= 2 ^ 62) by (vm_compute; split; [reflexivity|discriminate]). pose proof (align_up_range sizeof_win_shm).
  pose proof (pool_allocate_spec sizeof_win_shm (wp_view p) (ww_shared w) Hmap ltac:(lia) ltac:(lia) ltac:(lia)) as H'. rewrite Hsz, (proj2 (Z.leb_le _ limit)) in H' by lia.
  destruct H' as (-> & Hptr & _). pose proof Hmap as (Hb & _). rewrite (proj2 (Z.eqb_neq _ 0)) by lia.
  change (ptr_to_rptr (set_used (offset (ww_shared w) + align_up sizeof_win_shm) (wp_view p))) with (ptr_to_rptr (wp_view p)). rewrite Hptr by lia. do 3 eexists. split; [reflexivity|].
  cbn. by rewrite length_imap.
Qed.


(** ** Examples *)
Definition demo_proc (base rank : Z) : win_proc := mkProc (demo_member base rank 2) [] 0.

Definition demo_world (used : Z) : win_world := mkWorld (demo_pool used 2) ∅.

Definition demo_old : list cxl_win_rank_info := replicate 256 (mkRankInfo 0 0 0 0 0 0 0).

Lemma demo_proc_ok (base rank : Z) : 0 < base < 2 ^ 62 -> proc_ok (2 ^ 31) (demo_proc base rank).
Proof. intros Hb. split; [|done]. split; [|done]. unfold mapped. cbn. lia. Qed.


(** Nothing compares the place of an access with the size of the part: a put to rank [t] with the
    displacement of the part of rank [j] is carried out, and overwrites that part. *)
Theorem put_past_part (win size disp_unit k limit off off' d : Z) (offs : list Z) (ps : list win_proc) (w : win_world) (r t j : nat) (p : win_proc) (bs : list Z)
    (Hs : 0 < size) (Hl : limit < 2 ^ 63) (Hok : window_ok win size disp_unit k limit offs ps w) (Hr : ps !! r = Some p) (Ht : offs !! t = Some off) (Hj : offs !! j = Some off')
    (Hd : d * disp_unit = off' - off) (Hb : Z.of_nat (length bs) <= size) :
  exists w', MPI_Put win (Z.of_nat t) d bs p w = Some (RmaDone, w') /\ parts size offs w' !! j = Some (over bs (read_bytes off' size (sd_data (ww_shared w)))).
Proof.
  pose proof (target_place_spec win size disp_unit k limit offs Hs Hl ps w r p (Z.of_nat t) d off Hok Hr ltac:(lia)) as E. rewrite Nat2Z.id in E. specialize (E Ht).
  unfold MPI_Put. rewrite E. cbn [mbind option_bind]. replace (cm_base (wp_view p) + off + d * disp_unit) with (cm_base (wp_view p) + off' + 0) by lia.
  rewrite (pool_range_spec win size disp_unit k limit offs ps w r p (Z.of_nat j) 0 _ off' Hok Hr) by (rewrite ?Nat2Z.id; done || lia).
  eexists. split; [reflexivity|]. unfold parts. cbn [set_data ww_shared sd_data]. rewrite list_lookup_fmap, Hj. cbn.
  replace (cm_base (wp_view p) + off' + 0 - cm_base (wp_view p)) with (off' + 0) by lia.
  pose proof (read_write_inside off' size 0 bs (sd_data (ww_shared w)) ltac:(lia) ltac:(lia)) as E'.
  pose proof (length_read_bytes off' size (sd_data (ww_shared w)) ltac:(lia)) as Hlen. rewrite mem_write_over in E' by lia. by injection E' as ->.
Qed.

(** Two ranks with parts of one page each, and the structure behind them. *)
Definition demo_start : Z := align_up structures_size.

Definition demo_shm : cxl_win_shm :=
  mkWinShm CXL_WIN_MAGIC 0 2 0 2 1 [mkRankInfo demo_start 4096 0 NO_RANK 0 0 0; mkRankInfo (demo_start + 4096) 4096 0 NO_RANK 0 0 1].

Definition demo_attached (base rank : Z) : win_proc :=
  mkProc (demo_member base rank 2) [mkWindow 7 (Some (demo_start + 8192)) (base + demo_start + rank * 4096) 4096 rank 2 true 0] 1.

Definition demo_windows : win_world := mkWorld (demo_pool (demo_start + 28672) 2) {[ demo_start + 8192 := demo_shm ]}.

Lemma demo_windows_ok :
  window_ok 7 4096 1 (demo_start + 8192) (2 ^ 31) [demo_start; demo_start + 4096] [demo_attached 65536 0; demo_attached CXL_FIXED_ADDR 1] demo_windows.
Proof.
  assert (Hs : demo_start = 1090555904) by (vm_compute; reflexivity). assert (Hz : structures_size = 1090553920) by (vm_compute; reflexivity).
  unfold window_ok. split; [done|]. split.
  { exists demo_shm. split; [apply lookup_singleton_eq|]. split; [done|]. intros [|[|i]] off Hi; cbn in Hi; try done; injection Hi as <-; eexists; done. }
  split.
  { intros [|[|i]] p Hp; cbn in Hp; try done; injection Hp as <-; (split; [split; [unfold mapped, CXL_FIXED_ADDR; cbn; lia|done]|eexists; done]). }
  split.
  - intros [|[|i]] off Hi; cbn in Hi; try done; injection Hi as <-; (split; [lia|]); (split; [lia|]); intros k' h' Hk; cbn [demo_windows ww_shms] in Hk; apply lookup_singleton_Some in Hk as [<- _]; lia.
  - intros [|[|i]] [|[|j]] off off' Hi Hj Hne; cbn in Hi, Hj; try done; injection Hi as <-; injection Hj as <-; lia.
Qed.

Lemma put_past_part_witness :
  exists w', MPI_Put 7 (Z.of_nat 0) 4096 [1; 2; 3] (demo_attached 65536 0) demo_windows = Some (RmaDone, w')
    /\ parts 4096 [demo_start; demo_start + 4096] w' !! 1%nat = Some (over [1; 2; 3] (read_bytes (demo_start + 4096) 4096 (sd_data (ww_shared demo_windows)))).
Proof.
  apply (put_past_part 7 4096 1 (demo_start + 8192) (2 ^ 31) demo_start (demo_start + 4096) 4096 [demo_start; demo_start + 4096]
    [demo_attached 65536 0; demo_attached CXL_FIXED_ADDR 1] demo_windows 0 0 1); [lia|lia|exact demo_windows_ok|reflexivity..|lia|cbn; lia].
Defined.

(** [MPI_Accumulate] of doubles adds their bits as integers: 1.0 is put, 1.0 is accumulated onto it
    with [MPI_SUM], and a get returns 2^1023. *)
Theorem accumulate_double_wrong :
  let one := le_split 8 (bits_of_float 52 11 (d_of_Z 1)) in
  exists w1 w2 bs, MPI_Put 7 1 0 one (demo_attached 65536 0) demo_windows = Some (RmaDone, w1)
    /\ MPI_Accumulate 7 1 0 MPI_DOUBLE true [le_combine one] (demo_attached CXL_FIXED_ADDR 1) w1 = Some (RmaDone, w2)
    /\ MPI_Get 7 1 0 8 (demo_attached 65536 0) w2 = Some (Some bs) /\ float_of_bits 52 11 (le_combine bs) = d_of_Z (2 ^ 1023).
Proof. cbv zeta. do 3 eexists. split; [vm_compute; reflexivity|]. split; [vm_compute; reflexivity|]. split; [vm_compute; reflexivity|]. vm_compute. reflexivity. Qed.

(** The unit of displacements is stored once for all ranks: after another rank stores its own [u], an
    access with displacement [d] goes to [d * u] bytes from the start of the part, whatever the unit of
    the part's rank. *)
Theorem disp_unit_shared (win size disp_unit u k limit off d : Z) (offs : list Z) (ps : list win_proc) (w : win_world) (r t : nat) (p : win_proc) (c : cxl_window)
    (Hs : 0 < size) (Hl : limit < 2 ^ 63) (Hu : 0 <= u < 2 ^ 32) (Hok : window_ok win size disp_unit k limit offs ps w) (Hr : ps !! r = Some p) (Ht : offs !! t = Some off) (Hc : cw_shm c = Some k) :
  target_place win (Z.of_nat t) d p (store_disp_unit u c w) = Some (Some (cm_base (wp_view p) + off + d * u)).
Proof.
  pose proof (target_place_spec win size u k limit offs Hs Hl ps (store_disp_unit u c w) r p (Z.of_nat t) d off) as E. rewrite Nat2Z.id in E. apply E; [|done|lia|done]. clear E.
  destruct Hok as (H1 & (h & Hh & _ & Hent) & H3 & H4 & H5). unfold window_ok, store_disp_unit. rewrite Hc. cbn [ww_shms]. split; [done|]. split; [|split; [done|split; [|done]]].
  - exists (set_disp_unit u h). rewrite lookup_alter_eq, Hh. split; [done|]. split; [by apply wrap32_small|]. exact Hent.
  - intros i o Hi. destruct (H4 i o Hi) as (Ha & Hb & Hk). split; [done|]. split; [done|]. intros k' h' Hk'. destruct (decide (k' = k)) as [->|Hne]; [by apply (Hk k h)|].
    rewrite lookup_alter_ne in Hk' by done. by eapply Hk.
Qed.

Lemma disp_unit_shared_witness :
  target_place 7 (Z.of_nat 1) 10 (demo_attached 65536 0) (store_disp_unit 8 (mkWindow 7 (Some (demo_start + 8192)) 0 4096 0 2 true 0) demo_windows)
  = Some (Some (65536 + (demo_start + 4096) + 10 * 8)).
Proof.
  apply (disp_unit_shared 7 4096 1 8 (demo_start + 8192) (2 ^ 31) (demo_start + 4096) 10 [demo_start; demo_start + 4096]
    [demo_attached 65536 0; demo_attached CXL_FIXED_ADDR 1] demo_windows 0 1 (demo_attached 65536 0)); [lia|lia|lia|exact demo_windows_ok|reflexivity..].
Defined.

(** Of two ranks that allocate a window when the pool has room for one part, the first asks the
    library to create a window and the second to allocate one. *)
Theorem win_allocate_mismatch (size limit : Z) (p0 p1 : win_proc) (w : win_world)
    (Hs : 0 < size <= 2 ^ 62) (Hl : limit < 2 ^ 63) (H0 : proc_ok limit p0) (H1 : proc_ok limit p1) (Ho : 0 <= offset (ww_shared w))
    (Hfit : offset (ww_shared w) + align_up size <= limit < offset (ww_shared w) + 2 * align_up size) :
  exists ps w', allocate_bases size [p0; p1] w = ([CreateCall (cm_base (wp_view p0) + offset (ww_shared w)); AllocateCall], ps, w').
Proof.
  pose proof (align_up_range size). destruct H0 as ((Hm0 & Hz0 & Hi0) & Hc0), H1 as ((Hm1 & Hz1 & Hi1) & Hc1). cbn [allocate_bases]. unfold win_allocate_base. rewrite Hi0, Hc0, Hi1, Hc1. cbn [andb].
  pose proof (pool_allocate_spec size (wp_view p0) (ww_shared w) Hm0 ltac:(lia) ltac:(lia) ltac:(lia)) as E. rewrite Hz0, (proj2 (Z.leb_le _ limit)) in E by lia. destruct E as (-> & _ & _).
  cbn [ww_shared]. set (s1 := set_header _ (ww_shared w)). assert (Ho1 : offset s1 = offset (ww_shared w) + align_up size) by done.
  pose proof (pool_allocate_spec size (wp_view p1) s1 Hm1 ltac:(lia) ltac:(lia) ltac:(lia)) as E. rewrite Hz1, (proj2 (Z.leb_gt _ limit)) in E by lia. rewrite E.
  destruct Hm0 as (Hb & _). rewrite (proj2 (Z.eqb_neq _ 0)) by lia. by do 2 eexists.
Qed.

Lemma win_allocate_mismatch_witness :
  exists ps w', allocate_bases 100 [demo_proc 65536 0; demo_proc CXL_FIXED_ADDR 1] (demo_world (2 ^ 31 - 4096)) = ([CreateCall (65536 + (2 ^ 31 - 4096)); AllocateCall], ps, w').
Proof.
  apply (win_allocate_mismatch 100 (2 ^ 31) (demo_proc 65536 0) (demo_proc CXL_FIXED_ADDR 1) (demo_world (2 ^ 31 - 4096)));
    [lia|lia|apply demo_proc_ok; lia|apply demo_proc_ok; unfold CXL_FIXED_ADDR; lia|vm_compute; discriminate|vm_compute; split; [discriminate|reflexivity]].
Defined.

(** Two ranks that each lock and unlock a part once, exclusively: [sync_state] is cleared after the
    lock is released, when the other rank has already taken it, whose unlock then releases nothing.
    Both have returned, the lock is taken, and no rank can ever lock the part again. *)
Theorem lock_lost :
  exists st, rtc lock_step (lock_start 2) st /\ lk_ranks st = [LIdle; LIdle] /\ lk_library st = [] /\ lk_exclusive st = 1 /\ forall st', ~ lock_step st st'.
Proof.
  exists (mkLock 1 0 CXL_WIN_UNLOCKED [] [LIdle; LIdle]). split; [|split_and!; [done..|]].
  - eapply rtc_l; [apply (LkTake _ _ _ _ 0); reflexivity|]. eapply rtc_l; [apply (LkStoreExclusive _ _ _ _ _ 0); reflexivity|].
    eapply rtc_l; [apply (LkLibrary _ _ _ _ _ 0); [reflexivity|constructor]|]. eapply rtc_l; [eapply (LkRead _ _ _ _ _ 0); reflexivity|].
    eapply rtc_l; [eapply (LkRelease _ _ _ _ _ 0); reflexivity|]. cbn. eapply rtc_l; [apply (LkTake _ _ _ _ 1); reflexivity|].
    eapply rtc_l; [apply (LkStoreExclusive _ _ _ _ _ 1); reflexivity|]. eapply rtc_l; [apply (LkClear _ _ _ _ _ 0); reflexivity|].
    eapply rtc_l; [apply (LkUnlock _ _ _ _ _ 0); reflexivity|]. cbn. eapply rtc_l; [apply (LkLibrary _ _ _ _ _ 1); [reflexivity|constructor]|].
    eapply rtc_l; [eapply (LkRead _ _ _ _ _ 1); reflexivity|]. eapply rtc_l; [eapply (LkRelease _ _ _ _ _ 1); reflexivity|].
    eapply rtc_l; [apply (LkClear _ _ _ _ _ 1); reflexivity|]. eapply rtc_l; [apply (LkUnlock _ _ _ _ _ 1); reflexivity|]. apply rtc_refl.
  - intros st' Hst. inversion Hst; subst; match goal with H : _ !! ?i = Some _ |- _ => destruct i as [|[|i]]; cbn in H; discriminate H end.
Qed.
