(* ===== verification/Type2Pool.v ===== *)
(** * The coherent pool of the type 2 device ([library/qemu/hw/cxl/cxl_type2.c])

    The top of the device memory is a pool that the guest allocates from with commands.  Free
    memory is a list of blocks, sorted by offset; allocation takes the first block that is large
    enough, freeing inserts a block and merges it with its neighbours.  [coherent_pool] is the
    structure of that name, a linked list is its list of blocks, the hash table of allocations a
    map from offset to size.  The commands run one at a time, under the global lock of the
    emulator; the lock of the pool is not modelled.

    [pool_refines] shows that the pool is an ideal one: an allocation is the lowest range that
    overlaps no other, and fails only if there is none.  [pool_all_free] shows that the list is
    again one block when nothing is allocated, [pool_zero_shared] that a request that rounds to
    zero bytes gives the same offset as the next one. *)
From S2P Require Import Prelude.
#[local] Open Scope Z_scope.

Record CXLCohFreeBlock := mkBlock { fb_offset : Z; fb_size : Z }.

Record coherent_pool := mkPool {
  cp_base_offset : Z;
  cp_size : Z;
  cp_used : Z;
  cp_allocations : gmap Z Z;
  cp_free_list : list CXLCohFreeBlock
}.

Definition MiB : Z := 1024 * 1024.

(** The cast to [int64_t] of a 64-bit word. *)
Definition int64 (z : Z) : Z := if z <? 2 ^ 63 then z else z - 2 ^ 64.

(** [(size + 0xFFF) & ~0xFFFULL]. *)
Definition page_align (size : Z) : Z := Z.land (size ⊞ 0xFFF) (Z.lnot 0xFFF).

(** ** Set up: a quarter of a small device, 256 MiB of a large one *)
Definition coherent_pool_size (device_mem_size : Z) : Z :=
  if device_mem_size / 2 <? 256 * MiB then device_mem_size / 4 else 256 * MiB.

Definition coherent_pool_init (device_mem_size : Z) : coherent_pool :=
  let size := coherent_pool_size device_mem_size in
  let base := device_mem_size ⊟ size in
  mkPool base size 0 ∅ [mkBlock base size].

(** ** Allocation *)

(** The loop over the blocks: the offset taken, and the list after it. *)
Fixpoint take_block (aligned_size : Z) (l : list CXLCohFreeBlock) : option (Z * list CXLCohFreeBlock) :=
  match l with
  | [] => None
  | blk :: next =>
      if aligned_size <=? fb_size blk
      then Some (fb_offset blk,
                 if fb_size blk =? aligned_size then next
                 else mkBlock (fb_offset blk ⊞ aligned_size) (fb_size blk ⊟ aligned_size) :: next)
      else '(o, next') ← take_block aligned_size next; Some (o, blk :: next')
  end.

Definition cxl_coherent_pool_alloc (p : coherent_pool) (size : Z) : Z * coherent_pool :=
  let aligned_size := page_align size in
  match take_block aligned_size (cp_free_list p) with
  | Some (alloc_offset, l) =>
      (int64 alloc_offset,
       mkPool (cp_base_offset p) (cp_size p) (cp_used p ⊞ aligned_size)
         (<[alloc_offset := aligned_size]> (cp_allocations p)) l)
  | None => (-1, p)
  end.

(** ** Freeing *)

(** The blocks before the insertion point, and those after it. *)
Fixpoint insertion_point (offset : Z) (l : list CXLCohFreeBlock) : list CXLCohFreeBlock * list CXLCohFreeBlock :=
  match l with
  | [] => ([], [])
  | cur :: next =>
      if fb_offset cur <? offset
      then let '(pre, suf) := insertion_point offset next in (cur :: pre, suf)
      else ([], l)
  end.

Definition coalesce_next (new_blk : CXLCohFreeBlock) (suf : list CXLCohFreeBlock) : CXLCohFreeBlock * list CXLCohFreeBlock :=
  match suf with
  | merged :: next =>
      if fb_offset new_blk ⊞ fb_size new_blk =? fb_offset merged
      then (mkBlock (fb_offset new_blk) (fb_size new_blk ⊞ fb_size merged), next)
      else (new_blk, suf)
  | [] => (new_blk, suf)
  end.

(** The last block before the new one takes it in if they touch. *)
Fixpoint coalesce_prev (pre : list CXLCohFreeBlock) (new_blk : CXLCohFreeBlock) (suf : list CXLCohFreeBlock) : list CXLCohFreeBlock :=
  match pre with
  | [] => new_blk :: suf
  | prev_blk :: pre' =>
      match pre' with
      | [] =>
          if fb_offset prev_blk ⊞ fb_size prev_blk =? fb_offset new_blk
          then mkBlock (fb_offset prev_blk) (fb_size prev_blk ⊞ fb_size new_blk) :: suf
          else prev_blk :: new_blk :: suf
      | _ :: _ => prev_blk :: coalesce_prev pre' new_blk suf
      end
  end.

Definition insert_free (offset size : Z) (l : list CXLCohFreeBlock) : list CXLCohFreeBlock :=
  let '(pre, suf) := insertion_point offset l in
  let '(new_blk, suf') := coalesce_next (mkBlock offset size) suf in
  coalesce_prev pre new_blk suf'.

Definition cxl_coherent_pool_free (p : coherent_pool) (offset : Z) : Z * coherent_pool :=
  match cp_allocations p !! offset with
  | None => (-1, p)
  | Some size =>
      (0, mkPool (cp_base_offset p) (cp_size p) (cp_used p ⊟ size)
            (delete offset (cp_allocations p)) (insert_free offset size (cp_free_list p)))
  end.

(** ** Requests *)
Inductive pool_request := PoolAlloc (size : Z) | PoolFree (offset : Z).

Definition pool_step (p : coherent_pool) (r : pool_request) : Z * coherent_pool :=
  match r with
  | PoolAlloc size => cxl_coherent_pool_alloc p size
  | PoolFree offset => cxl_coherent_pool_free p offset
  end.

Fixpoint pool_run (p : coherent_pool) (rs : list pool_request) : list Z * coherent_pool :=
  match rs with
  | [] => ([], p)
  | r :: rs' => let '(v, p1) := pool_step p r in let '(vs, p2) := pool_run p1 rs' in (v :: vs, p2)
  end.

(** ** The ideal pool: ranges of the interval [[lo, hi)], by offset *)
Definition fits (lo hi : Z) (m : gmap Z Z) (o n : Z) : Prop :=
  lo <= o /\ o + n <= hi /\ (forall o' n', m !! o' = Some n' -> o + n <= o' \/ o' + n' <= o).

(** The size in whole pages. *)
Definition pages (size : Z) : Z := 4096 * ((size + 4095) / 4096).

Inductive ideal_step (lo hi : Z) (m : gmap Z Z) : pool_request -> Z -> gmap Z Z -> Prop :=
| ideal_alloc size o :
    fits lo hi m o (pages size) -> (forall o', o' < o -> ~ fits lo hi m o' (pages size)) ->
    ideal_step lo hi m (PoolAlloc size) o (<[o := pages size]> m)
| ideal_full size : (forall o, ~ fits lo hi m o (pages size)) -> ideal_step lo hi m (PoolAlloc size) (-1) m
| ideal_free o n : m !! o = Some n -> ideal_step lo hi m (PoolFree o) 0 (delete o m)
| ideal_unknown o : m !! o = None -> ideal_step lo hi m (PoolFree o) (-1) m.

Inductive ideal_run (lo hi : Z) : gmap Z Z -> list pool_request -> list Z -> gmap Z Z -> Prop :=
| ideal_nil m : ideal_run lo hi m [] [] m
| ideal_cons m r v m1 rs vs m2 :
    ideal_step lo hi m r v m1 -> ideal_run lo hi m1 rs vs m2 -> ideal_run lo hi m (r :: rs) (v :: vs) m2.

(** A request for at least one byte that rounds up without wrapping. *)
Definition proper_request (r : pool_request) : Prop :=
  match r with PoolAlloc size => 0 < size <= 2 ^ 64 - 4096 | PoolFree _ => True end.

(** ** Invariant *)
Definition block_at (b : CXLCohFreeBlock) (x : Z) : Prop := fb_offset b <= x < fb_offset b + fb_size b.

Definition free_at (l : list CXLCohFreeBlock) (x : Z) : Prop := Exists (fun b => block_at b x) l.

Definition used_at (m : gmap Z Z) (x : Z) : Prop := exists o n, m !! o = Some n /\ o <= x < o + n.

Fixpoint total (l : list CXLCohFreeBlock) : Z := match l with [] => 0 | b :: l' => fb_size b + total l' end.

Definition allocated (m : gmap Z Z) : Z := map_fold (fun _ n t => n + t) 0 m.

(** Blocks ascend from [lo] to [hi], none is empty and no two of them touch. *)
Fixpoint separated (lo hi : Z) (l : list CXLCohFreeBlock) : Prop :=
  match l with
  | [] => True
  | b :: l' => lo < fb_offset b /\ 0 < fb_size b /\ fb_offset b + fb_size b <= hi /\ separated (fb_offset b + fb_size b) hi l'
  end.

Record pool_ok (p : coherent_pool) : Prop := mkPoolOk {
  ok_bounds : 0 <= cp_base_offset p /\ 0 < cp_size p /\ cp_base_offset p + cp_size p < 2 ^ 63;
  ok_free : separated (cp_base_offset p - 1) (cp_base_offset p + cp_size p) (cp_free_list p);
  ok_alloc : forall o n, cp_allocations p !! o = Some n ->
    cp_base_offset p <= o /\ 0 < n /\ o + n <= cp_base_offset p + cp_size p;
  ok_disjoint : forall o n o' n', cp_allocations p !! o = Some n -> cp_allocations p !! o' = Some n' ->
    o < o' -> o + n <= o';
  ok_cover : forall x, cp_base_offset p <= x < cp_base_offset p + cp_size p ->
    free_at (cp_free_list p) x \/ used_at (cp_allocations p) x;
  ok_once : forall x, free_at (cp_free_list p) x -> ~ used_at (cp_allocations p) x;
  ok_used : cp_used p = allocated (cp_allocations p);
  ok_total : cp_used p + total (cp_free_list p) = cp_size p
}.

(** ** Lemmas on sizes and blocks *)
Lemma page_align_pages (size : Z) : 0 < size <= 2 ^ 64 - 4096 -> page_align size = pages size /\ size <= pages size.
Proof.
  intros H. unfold page_align, pages. rewrite wrap64_small by (unfold u64; lia).
  change 0xFFF with (Z.ones 12). rewrite <- Z.ldiff_land, Z.ldiff_ones_r, Z.shiftl_mul_pow2, Z.shiftr_div_pow2 by lia.
  change (2 ^ 12) with 4096. change (Z.ones 12) with 4095. split; [lia|]. Z.to_euclidean_division_equations. lia.
Qed.

Lemma page_align_wraps (size : Z) : 2 ^ 64 - 4096 < size < 2 ^ 64 -> page_align size = 0.
Proof.
  intros H. unfold page_align. assert (size ⊞ 0xFFF = size + 4095 - 2 ^ 64) as -> by (unfold wrap64; Z.to_euclidean_division_equations; lia).
  change 0xFFF with (Z.ones 12). rewrite <- Z.ldiff_land, Z.ldiff_ones_r, Z.shiftl_mul_pow2, Z.shiftr_div_pow2 by lia.
  rewrite Z.div_small by (change (2 ^ 12) with 4096; change (Z.ones 12) with 4095; lia). done.
Qed.

Lemma int64_small (z : Z) : 0 <= z < 2 ^ 63 -> int64 z = z.
Proof. intros. unfold int64. case_goal; lia. Qed.

Lemma separated_lower (lo hi : Z) (l : list CXLCohFreeBlock) (x : Z) : separated lo hi l -> free_at l x -> lo < x < hi.
Proof.
  revert lo. induction l as [|b l IH]; intros lo Hs Hf; [by apply Exists_nil in Hf|].
  destruct Hs as (?&?&?&Hs). apply Exists_cons in Hf as [Hf|Hf]; unfold block_at in *; [lia|]. specialize (IH _ Hs Hf). lia.
Qed.

Lemma blocks_separated_weaken (lo lo' hi : Z) (l : list CXLCohFreeBlock) : lo' <= lo -> separated lo hi l -> separated lo' hi l.
Proof. destruct l; [done|]. cbn. intuition lia. Qed.

(** A range of free bytes is in one block, because blocks do not touch. *)
Lemma separated_range (lo hi o n : Z) (l : list CXLCohFreeBlock) :
  separated lo hi l -> 0 < n -> (forall x, o <= x < o + n -> free_at l x) ->
  exists b, b ∈ l /\ fb_offset b <= o /\ o + n <= fb_offset b + fb_size b.
Proof.
  revert lo. induction l as [|b l IH]; intros lo Hs Hn Hf.
  { specialize (Hf o ltac:(lia)). by apply Exists_nil in Hf. }
  destruct Hs as (?&?&?&Hs). pose proof (Hf o ltac:(lia)) as Ho. apply Exists_cons in Ho as [Ho|Ho].
  - exists b. split; [constructor|]. unfold block_at in Ho. split; [lia|].
    destruct (Z.le_gt_cases (o + n) (fb_offset b + fb_size b)) as [|Hgt]; [done|]. exfalso.
    specialize (Hf (fb_offset b + fb_size b) ltac:(lia)). apply Exists_cons in Hf as [Hf|Hf]; [unfold block_at in Hf; lia|].
    apply (separated_lower _ _ _ _ Hs) in Hf. lia.
  - pose proof (separated_lower _ _ _ _ Hs Ho). destruct (IH _ Hs Hn) as (b'&?&?).
    + intros x Hx. specialize (Hf x Hx). apply Exists_cons in Hf as [Hf|Hf]; [unfold block_at in Hf; lia|done].
    + exists b'. split; [by constructor|done].
Qed.

(** ** Taking and inserting blocks *)
Lemma take_block_None (n : Z) (l : list CXLCohFreeBlock) : take_block n l = None -> forall b, b ∈ l -> fb_size b < n.
Proof.
  induction l as [|c l IH]; intros Ht b Hb; [by apply not_elem_of_nil in Hb|]. cbn in Ht.
  destruct (n <=? fb_size c) eqn:E; [done|]. zify_bool. destruct (take_block n l) as [[]|]; [done|]. apply elem_of_cons in Hb as [->|Hb]; [lia|]. by apply IH.
Qed.

Lemma take_block_Some (lo hi n o : Z) (l l' : list CXLCohFreeBlock) :
  take_block n l = Some (o, l') -> separated lo hi l -> 0 < n -> 0 <= lo + 1 -> hi < 2 ^ 63 ->
  lo < o /\ o + n <= hi /\ separated lo hi l' /\ total l = total l' + n /\
  (forall x, free_at l x <-> free_at l' x \/ o <= x < o + n) /\
  (forall x, free_at l' x -> ~ (o <= x < o + n)) /\
  (forall b, b ∈ l -> n <= fb_size b -> o <= fb_offset b).
Proof.
  revert lo l'. induction l as [|c l IH]; intros lo l' Ht Hs Hn Hlo Hhi; [done|]. destruct Hs as (H1&H2&H3&Hs).
  assert (Hfirst : forall b, b ∈ l -> fb_offset c <= fb_offset b).
  { intros b Hb. destruct (decide (0 < fb_size b)) as [Hp|Hp].
    - assert (Hf : free_at l (fb_offset b)) by (apply Exists_exists; exists b; split; [done|unfold block_at; lia]).
      apply (separated_lower _ _ _ _ Hs) in Hf. lia.
    - exfalso. clear -Hs Hb Hp. revert Hs. generalize (fb_offset c + fb_size c). induction Hb as [|b c' l Hb IH]; intros z Hs; cbn in Hs; [lia|].
      destruct Hs as (?&?&?&Hs). by apply (IH Hp _ Hs). }
  cbn [take_block] in Ht. destruct (n <=? fb_size c) eqn:E; zify_bool.
  - injection Ht as <- <-. split_and!; [lia|lia|..].
    + destruct (fb_size c =? n) eqn:E'; zify_bool; [apply (blocks_separated_weaken (fb_offset c + fb_size c)); [lia|done]|].
      cbn. rewrite !wrap64_small by (unfold u64; lia). replace (fb_offset c + n + (fb_size c - n)) with (fb_offset c + fb_size c) by lia. split_and!; [lia..|done].
    + destruct (fb_size c =? n) eqn:E'; zify_bool; cbn; [lia|]. rewrite wrap64_small by (unfold u64; lia). lia.
    + intros x. pose proof (separated_lower _ _ _ x Hs). destruct (fb_size c =? n) eqn:E'; zify_bool; unfold free_at; rewrite !Exists_cons; unfold block_at; cbn;
        rewrite ?wrap64_small by (unfold u64; lia); intuition lia.
    + intros x Hx. pose proof (separated_lower _ _ _ x Hs) as Hl. destruct (fb_size c =? n) eqn:E'; zify_bool; [specialize (Hl Hx); lia|].
      apply Exists_cons in Hx as [Hx|Hx]; [|specialize (Hl Hx); lia]. unfold block_at in Hx. cbn in Hx. rewrite !wrap64_small in Hx by (unfold u64; lia). lia.
    + intros b Hb ?. apply elem_of_cons in Hb as [->|Hb]; [lia|]. by apply Hfirst.
  - destruct (take_block n l) as [[o' l1]|] eqn:Et; [|done]. cbn in Ht. injection Ht as <- <-.
    destruct (IH (fb_offset c + fb_size c) l1 eq_refl Hs Hn ltac:(lia) Hhi) as (K1&K2&K3&K4&K5&K6&K7).
    split_and!; [lia|lia|cbn; auto|cbn; lia|..].
    + intros x. unfold free_at in *. rewrite !Exists_cons, K5. tauto.
    + intros x Hx. apply Exists_cons in Hx as [Hx|Hx]; [unfold block_at in Hx; lia|by apply K6].
    + intros b Hb ?. apply elem_of_cons in Hb as [->|Hb]; [lia|]. by apply K7.
Qed.

Lemma insertion_point_spec (lo hi offset n : Z) (l pre suf : list CXLCohFreeBlock) :
  insertion_point offset l = (pre, suf) -> separated lo hi l -> lo < offset -> 0 < n ->
  (forall x, free_at l x -> ~ (offset <= x < offset + n)) ->
  l = pre ++ suf /\ separated lo hi pre /\ Forall (fun b => fb_offset b + fb_size b <= offset) pre /\
  separated (offset + n - 1) hi suf.
Proof.
  revert lo pre. induction l as [|c l IH]; intros lo pre Hi Hs Hlo Hn Hd; [by injection Hi as <- <-|].
  destruct Hs as (H1&H2&H3&Hs). cbn in Hi.
  assert (Hc : fb_offset c + fb_size c <= offset \/ offset + n <= fb_offset c).
  { pose proof (Hd (fb_offset c)) as Ha. pose proof (Hd offset) as Hb. unfold free_at in Ha, Hb. rewrite Exists_cons in Ha, Hb. unfold block_at in Ha, Hb. lia. }
  destruct (fb_offset c <? offset) eqn:E; zify_bool.
  - destruct (insertion_point offset l) as [pre' suf'] eqn:Ei. injection Hi as <- <-.
    destruct (decide (fb_offset c + fb_size c = offset)) as [Heq|Hne].
    + assert (Hr : pre' = [] /\ suf' = l).
      { destruct l as [|d l]; [by injection Ei as <- <-|]. cbn in Ei, Hs. destruct (fb_offset d <? offset) eqn:E'; zify_bool; [lia|]. by injection Ei as <- <-. }
      destruct Hr as [-> ->]. split; [done|]. split; [cbn; auto|]. split; [repeat constructor; lia|].
      destruct l as [|d l]; [done|]. cbn in Hs |- *. destruct Hs as (?&?&?&?). split; [|done].
      pose proof (Hd (fb_offset d)) as Ha. unfold free_at in Ha. rewrite !Exists_cons in Ha. unfold block_at in Ha. lia.
    + destruct (IH (fb_offset c + fb_size c) pre' eq_refl Hs ltac:(lia) Hn) as (->&?&?&?).
      { intros x Hx. apply Hd. by apply Exists_cons; right. }
      split; [done|]. split; [cbn; auto|]. split; [constructor; [lia|done]|done].
  - injection Hi as <- <-. split; [done|]. split; [done|]. split; [done|]. cbn. split_and!; [lia..|done].
Qed.

Lemma coalesce_next_spec (hi offset n : Z) (suf suf' : list CXLCohFreeBlock) (b : CXLCohFreeBlock) :
  coalesce_next (mkBlock offset n) suf = (b, suf') -> separated (offset + n - 1) hi suf ->
  0 <= offset -> 0 < n -> offset + n <= hi -> hi < 2 ^ 63 ->
  fb_offset b = offset /\ n <= fb_size b /\ offset + fb_size b <= hi /\ separated (offset + fb_size b) hi suf' /\
  fb_size b + total suf' = n + total suf /\
  (forall x, free_at (b :: suf') x <-> free_at suf x \/ offset <= x < offset + n).
Proof.
  intros Hc Hs H0 Hn Hhi Hb. destruct suf as [|c suf]; cbn in Hc.
  - injection Hc as <- <-. cbn. split_and!; [lia..|done|lia|]. intros x. unfold free_at. rewrite Exists_cons, Exists_nil. unfold block_at. cbn. tauto.
  - destruct Hs as (H1&H2&H3&Hs). rewrite wrap64_small in Hc by (unfold u64; lia).
    destruct (offset + n =? fb_offset c) eqn:E; zify_bool; injection Hc as <- <-; cbn.
    + rewrite wrap64_small by (unfold u64; lia). split_and!; [lia..| |lia|].
      * replace (offset + (n + fb_size c)) with (fb_offset c + fb_size c) by lia. done.
      * intros x. unfold free_at. rewrite !Exists_cons. unfold block_at. cbn. intuition lia.
    + split_and!; [lia..|done|lia|]. intros x. unfold free_at. rewrite !Exists_cons. unfold block_at. cbn. tauto.
Qed.

Lemma coalesce_prev_spec (lo hi : Z) (pre suf : list CXLCohFreeBlock) (b : CXLCohFreeBlock) :
  separated lo hi pre -> Forall (fun c => fb_offset c + fb_size c <= fb_offset b) pre -> lo < fb_offset b -> 0 < fb_size b ->
  0 <= lo + 1 -> fb_offset b + fb_size b <= hi -> hi < 2 ^ 63 -> separated (fb_offset b + fb_size b) hi suf ->
  separated lo hi (coalesce_prev pre b suf) /\ total (coalesce_prev pre b suf) = total pre + (fb_size b + total suf) /\
  (forall x, free_at (coalesce_prev pre b suf) x <-> free_at pre x \/ free_at (b :: suf) x).
Proof.
  intros Hp Hall Hlo Hb Hlo0 Hbh Hhi Hs. revert lo Hp Hall Hlo Hlo0.
  induction pre as [|c [|d pre] IH]; intros lo (H1&H2&H3&Hp) Hall Hlo Hlo0 || intros lo _ _ Hlo Hlo0.
  - split_and!; [cbn; auto|cbn; lia|]. intros x. unfold free_at. rewrite Exists_nil. cbn. tauto.
  - apply Forall_cons in Hall as [Hc _]. cbn. rewrite wrap64_small by (unfold u64; lia).
    destruct (fb_offset c + fb_size c =? fb_offset b) eqn:E; zify_bool; cbn.
    + rewrite wrap64_small by (unfold u64; lia). split_and!; [lia..| |lia|].
      * replace (fb_offset c + (fb_size c + fb_size b)) with (fb_offset b + fb_size b) by lia. done.
      * intros x. unfold free_at. rewrite !Exists_cons, Exists_nil. unfold block_at. cbn. intuition lia.
    + split_and!; [lia..|done|lia|]. intros x. unfold free_at. rewrite !Exists_cons, Exists_nil. tauto.
  - apply Forall_cons in Hall as [Hc Hall]. pose proof Hall as Hall'. apply Forall_cons in Hall' as [Hd _].
    destruct (IH (fb_offset c + fb_size c) Hp Hall) as (K1&K2&K3); [destruct Hp; lia|lia|].
    change (coalesce_prev (c :: d :: pre) b suf) with (c :: coalesce_prev (d :: pre) b suf).
    split_and!; [cbn [separated]; auto|cbn [total] in *; lia|]. intros x. unfold free_at in *. rewrite (Exists_cons _ c), (Exists_cons _ c), K3. tauto.
Qed.

Lemma insert_free_spec (lo hi offset n : Z) (l : list CXLCohFreeBlock) :
  separated lo hi l -> lo < offset -> 0 <= lo + 1 -> 0 < n -> offset + n <= hi -> hi < 2 ^ 63 ->
  (forall x, free_at l x -> ~ (offset <= x < offset + n)) ->
  separated lo hi (insert_free offset n l) /\ total (insert_free offset n l) = total l + n /\
  (forall x, free_at (insert_free offset n l) x <-> free_at l x \/ offset <= x < offset + n).
Proof.
  intros Hs Hlo Hlo0 Hn Hhi Hb Hd. unfold insert_free. destruct (insertion_point offset l) as [pre suf] eqn:Ei.
  destruct (insertion_point_spec _ _ _ _ _ _ _ Ei Hs Hlo Hn Hd) as (->&Hp&Hall&Hsuf).
  destruct (coalesce_next (mkBlock offset n) suf) as [b suf'] eqn:Ec.
  destruct (coalesce_next_spec _ _ _ _ _ _ Ec Hsuf ltac:(lia) Hn Hhi Hb) as (Ho&Hsz&Hend&Hs'&Ht&Hc).
  rewrite <- Ho in Hall, Hlo, Hend, Hs'.
  destruct (coalesce_prev_spec lo hi pre suf' b Hp Hall Hlo ltac:(lia) Hlo0 Hend Hb Hs') as (K1&K2&K3).
  split_and!; [done| |].
  - rewrite K2. clear -Ht. induction pre; cbn in *; lia.
  - intros x. rewrite K3, Hc. unfold free_at. rewrite Exists_app. tauto.
Qed.

(** ** The steps keep the invariant *)
Lemma allocated_insert (m : gmap Z Z) (o n : Z) : m !! o = None -> allocated (<[o := n]> m) = n + allocated m.
Proof. intros H. unfold allocated. apply map_fold_insert_L; [intros; lia|done]. Qed.

Lemma allocated_delete (m : gmap Z Z) (o n : Z) : m !! o = Some n -> allocated m = n + allocated (delete o m).
Proof. intros H. unfold allocated. apply (map_fold_delete_L (fun _ n t => n + t) 0 o n m); [intros; lia|done]. Qed.

Lemma block_total_nonneg (lo hi : Z) (l : list CXLCohFreeBlock) : separated lo hi l -> 0 <= total l.
Proof. revert lo. induction l as [|b l IH]; intros lo Hs; cbn in *; [lia|]. destruct Hs as (?&?&?&Hs). specialize (IH _ Hs). lia. Qed.

Lemma allocated_nonneg (m : gmap Z Z) : (forall o n, m !! o = Some n -> 0 < n) -> 0 <= allocated m.
Proof.
  unfold allocated. apply (map_fold_weak_ind (fun r m => (forall o n, m !! o = Some n -> 0 < n) -> 0 <= r)); [lia|].
  intros o n m' r Hn IH H. assert (0 < n) by (apply (H o), lookup_insert_eq).
  enough (0 <= r) by lia. apply IH. intros o' n' Ho'. apply (H o'). rewrite lookup_insert_ne; [done|]. intros ->. congruence.
Qed.

Lemma used_at_insert (m : gmap Z Z) (o n x : Z) : m !! o = None -> used_at (<[o := n]> m) x <-> used_at m x \/ o <= x < o + n.
Proof.
  intros Hn. unfold used_at. split.
  - intros (o'&n'&H&Hx). destruct (decide (o' = o)) as [->|]; [rewrite lookup_insert_eq in H|rewrite lookup_insert_ne in H by done]; naive_solver.
  - intros [(o'&n'&H&Hx)|Hx]; [exists o', n'; split; [|done]; rewrite lookup_insert_ne; [done|naive_solver]|exists o, n; by rewrite lookup_insert_eq].
Qed.

Lemma pool_alloc_ok (p : coherent_pool) (size o : Z) (l : list CXLCohFreeBlock) :
  pool_ok p -> 0 < size <= 2 ^ 64 - 4096 -> take_block (page_align size) (cp_free_list p) = Some (o, l) ->
  cp_allocations p !! o = None /\ 0 <= o < 2 ^ 63 /\ pool_ok (cxl_coherent_pool_alloc p size).2.
Proof.
  intros [Hb Hf Ha Hd Hc Ho Hu Ht] Hsz Et. destruct (page_align_pages size Hsz) as [Hal Hge]. unfold cxl_coherent_pool_alloc. rewrite Et, Hal in *.
  set (n := pages size) in *. destruct (take_block_Some _ _ _ _ _ _ Et Hf ltac:(lia) ltac:(lia) ltac:(lia)) as (K1&K2&K3&K4&K5&K6&_).
  assert (Hnew : forall x, o <= x < o + n -> ~ used_at (cp_allocations p) x) by (intros x Hx; apply Ho, K5; by right).
  assert (Hnone : cp_allocations p !! o = None).
  { destruct (cp_allocations p !! o) as [n'|] eqn:E; [|done]. exfalso. apply (Hnew o); [lia|]. exists o, n'. destruct (Ha _ _ E). split; [done|lia]. }
  assert (Hapart : forall o' n', cp_allocations p !! o' = Some n' -> o + n <= o' \/ o' + n' <= o).
  { intros o' n' E. destruct (Ha _ _ E) as (?&?&?). destruct (decide (o <= o' < o + n)) as [Hx|].
    - exfalso. apply (Hnew o' Hx). exists o', n'. split; [done|lia].
    - destruct (decide (o' <= o < o' + n')) as [Hy|]; [|lia]. exfalso. apply (Hnew o ltac:(lia)). by exists o', n'. }
  pose proof (block_total_nonneg _ _ _ K3) as Htn. pose proof (allocated_nonneg _ (fun o n H => proj1 (proj2 (Ha o n H)))) as Hap.
  split; [done|]. split; [lia|]. cbn [snd]. constructor; cbn [cp_base_offset cp_size cp_used cp_allocations cp_free_list].
  - done.
  - done.
  - intros o' n' E. destruct (decide (o' = o)) as [->|]; [rewrite lookup_insert_eq in E; injection E as <-; lia|rewrite lookup_insert_ne in E by done; by apply Ha].
  - intros o1 n1 o2 n2 E1 E2 Hlt. rewrite lookup_insert_Some in E1, E2.
    destruct E1 as [[-> ->]|[? E1]], E2 as [[-> ->]|[? E2]]; [lia| | |by apply (Hd _ _ _ _ E1 E2)].
    + destruct (Hapart _ _ E2); [done|]. destruct (Ha _ _ E2). lia.
    + destruct (Hapart _ _ E1); [|done]. lia.
  - intros x Hx. rewrite used_at_insert by done. destruct (Hc x Hx) as [Hfx|]; [|tauto]. apply K5 in Hfx. tauto.
  - intros x Hx. rewrite used_at_insert by done. intros [Hux|Hux]; [|by apply (K6 x)]. apply (Ho x); [|done]. apply K5. by left.
  - rewrite wrap64_small by (unfold u64; lia). rewrite allocated_insert by done. lia.
  - rewrite wrap64_small by (unfold u64; lia). lia.
Qed.

Lemma pool_free_ok (p : coherent_pool) (o n : Z) :
  pool_ok p -> cp_allocations p !! o = Some n -> pool_ok (cxl_coherent_pool_free p o).2.
Proof.
  intros [Hb Hf Ha Hd Hc Ho Hu Ht] E. unfold cxl_coherent_pool_free. rewrite E. destruct (Ha _ _ E) as (Hlo&Hn&Hhi).
  assert (Hfree : forall x, free_at (cp_free_list p) x -> ~ (o <= x < o + n)) by (intros x Hx Hin; apply (Ho x Hx); by exists o, n).
  destruct (insert_free_spec _ _ o n _ Hf ltac:(lia) ltac:(lia) Hn Hhi ltac:(lia) Hfree) as (K1&K2&K3).
  pose proof (allocated_delete _ _ _ E) as Hdel. pose proof (block_total_nonneg _ _ _ Hf).
  assert (Hap : 0 <= allocated (delete o (cp_allocations p))).
  { apply allocated_nonneg. intros o' n' E'. apply lookup_delete_Some in E' as [_ E']. apply (Ha _ _ E'). }
  cbn [snd]. constructor; cbn [cp_base_offset cp_size cp_used cp_allocations cp_free_list]; [done|done| | | | | |].
  - intros o' n' E'. apply lookup_delete_Some in E' as [_ E']. by apply Ha.
  - intros o1 n1 o2 n2 E1 E2. apply lookup_delete_Some in E1 as [_ E1], E2 as [_ E2]. by apply (Hd _ _ _ _ E1 E2).
  - intros x Hx. rewrite K3. destruct (Hc x Hx) as [|(o'&n'&E'&Hx')]; [tauto|].
    destruct (decide (o' = o)) as [->|]; [left; right; replace n with n' by congruence; done|]. right. exists o', n'. by rewrite lookup_delete_ne.
  - intros x Hx (o'&n'&E'&Hx'). apply lookup_delete_Some in E' as [Hne E']. apply K3 in Hx as [Hx|Hx]; [apply (Ho x Hx); by exists o', n'|].
    destruct (Z.lt_total o o') as [Hlt|[|Hlt]]; [|congruence|]; [pose proof (Hd _ _ _ _ E E' Hlt)|pose proof (Hd _ _ _ _ E' E Hlt)]; lia.
  - rewrite wrap64_small by (unfold u64; lia). lia.
  - rewrite wrap64_small by (unfold u64; lia). lia.
Qed.

Lemma coherent_pool_step_ok (p : coherent_pool) (r : pool_request) : pool_ok p -> proper_request r -> pool_ok (pool_step p r).2.
Proof.
  intros Hp Hr. destruct r as [size|o]; cbn.
  - destruct (take_block (page_align size) (cp_free_list p)) as [[o l]|] eqn:E; [by apply (pool_alloc_ok p size o l)|].
    unfold cxl_coherent_pool_alloc. by rewrite E.
  - destruct (cp_allocations p !! o) as [n|] eqn:E; [by apply (pool_free_ok p o n)|]. unfold cxl_coherent_pool_free. by rewrite E.
Qed.

(** A range that fits is inside a free block. *)
Lemma fits_in_block (p : coherent_pool) (o n : Z) :
  pool_ok p -> 0 < n -> fits (cp_base_offset p) (cp_base_offset p + cp_size p) (cp_allocations p) o n ->
  exists b, b ∈ cp_free_list p /\ fb_offset b <= o /\ n <= fb_size b.
Proof.
  intros [Hb Hf Ha Hd Hc Ho Hu Ht] Hn (Hlo&Hhi&Hap).
  destruct (separated_range _ _ o n _ Hf Hn) as (b&?&?&?); [|exists b; split_and!; [done|lia..]].
  intros x Hx. destruct (Hc x ltac:(lia)) as [|(o'&n'&E&Hx')]; [done|]. specialize (Hap _ _ E). lia.
Qed.

Lemma pool_step_refines (p : coherent_pool) (r : pool_request) :
  pool_ok p -> proper_request r ->
  ideal_step (cp_base_offset p) (cp_base_offset p + cp_size p) (cp_allocations p) r (pool_step p r).1 (cp_allocations (pool_step p r).2).
Proof.
  intros Hp Hr. destruct r as [size|o]; cbn [pool_step].
  - destruct (page_align_pages size Hr) as [Hal Hge]. cbn in Hr.
    destruct (take_block (page_align size) (cp_free_list p)) as [[o l]|] eqn:E.
    + destruct (pool_alloc_ok p size o l Hp Hr E) as (Hnone&Hrng&Hok). unfold cxl_coherent_pool_alloc in *. rewrite E in *. cbn [fst snd cp_allocations] in *.
      rewrite int64_small, Hal in * by done. pose proof Hp as [Hb Hf _ _ _ _ _ _].
      destruct (take_block_Some _ _ _ _ _ _ E Hf ltac:(lia) ltac:(lia) ltac:(lia)) as (K1&K2&_&_&_&_&K7). apply ideal_alloc.
      * split_and!; [lia|lia|]. intros o' n' E'. destruct Hok as [_ _ Ha Hd _ _ _ _]. cbn in Ha, Hd.
        assert (Hne : o <> o') by congruence. pose proof (lookup_insert_eq (cp_allocations p) o (pages size)) as L1.
        assert (L2 : <[o := pages size]> (cp_allocations p) !! o' = Some n') by (by rewrite lookup_insert_ne).
        destruct (Z.lt_total o o') as [Hlt|[|Hlt]]; [left; by apply (Hd _ _ _ _ L1 L2)|done|right; by apply (Hd _ _ _ _ L2 L1)].
      * intros o' Hlt Hfit. destruct (fits_in_block p o' (pages size) Hp ltac:(lia) Hfit) as (b&Hin&?&?). specialize (K7 _ Hin). lia.
    + unfold cxl_coherent_pool_alloc. rewrite E. cbn. apply ideal_full. intros o Hfit.
      destruct (fits_in_block p o (pages size) Hp ltac:(lia) Hfit) as (b&Hin&?&?). pose proof (take_block_None _ _ E _ Hin). lia.
  - unfold cxl_coherent_pool_free. destruct (cp_allocations p !! o) eqn:E; cbn; econstructor; done.
Qed.

Lemma pool_step_bounds (p : coherent_pool) (r : pool_request) :
  cp_base_offset (pool_step p r).2 = cp_base_offset p /\ cp_size (pool_step p r).2 = cp_size p.
Proof.
  destruct r; cbn; unfold cxl_coherent_pool_alloc, cxl_coherent_pool_free; [destruct (take_block _ _) as [[]|]|destruct (_ !! _)]; done.
Qed.

Lemma pool_run_refines (p : coherent_pool) (rs : list pool_request) :
  pool_ok p -> Forall proper_request rs ->
  ideal_run (cp_base_offset p) (cp_base_offset p + cp_size p) (cp_allocations p) rs (pool_run p rs).1 (cp_allocations (pool_run p rs).2) /\
  pool_ok (pool_run p rs).2 /\ cp_base_offset (pool_run p rs).2 = cp_base_offset p /\ cp_size (pool_run p rs).2 = cp_size p.
Proof.
  intros Hp Hrs. revert p Hp. induction Hrs as [|r rs Hr Hrs IH]; intros p Hp; [split_and!; [constructor|done..]|].
  pose proof (pool_step_refines p r Hp Hr) as Hstep. pose proof (coherent_pool_step_ok p r Hp Hr) as Hok. destruct (pool_step_bounds p r) as [B1 B2].
  cbn. destruct (pool_step p r) as [v p1]. cbn in *. specialize (IH p1 Hok). rewrite B1, B2 in IH.
  destruct (pool_run p1 rs) as [vs p2]. cbn in *. destruct IH as (?&?&?&?). split_and!; [by econstructor|done..].
Qed.

Lemma coherent_pool_init_ok (device_mem_size : Z) : 4 <= device_mem_size < 2 ^ 63 ->
  pool_ok (coherent_pool_init device_mem_size) /\
  cp_base_offset (coherent_pool_init device_mem_size) + cp_size (coherent_pool_init device_mem_size) = device_mem_size.
Proof.
  intros H. unfold coherent_pool_init. set (n := coherent_pool_size device_mem_size).
  assert (Hn : 0 < n <= device_mem_size).
  { unfold n, coherent_pool_size, MiB. case_goal; Z.to_euclidean_division_equations; lia. }
  rewrite wrap64_small by (unfold u64; lia). split; [|cbn; lia].
  constructor; cbn; [lia|split_and!; [lia..|done]|by intros|by intros| | |done|lia].
  - intros x Hx. left. left. unfold block_at. cbn. lia.
  - intros x _ (o&k&E&_). by rewrite lookup_empty in E.
Qed.


(** After any requests the counter of used bytes is the sum of the allocations, and with the free
    blocks they make up the pool; once all is freed the list is one block again. *)
Theorem pool_all_free (device_mem_size : Z) (rs : list pool_request)
  (Hsize : 4 <= device_mem_size < 2 ^ 63) (Hrs : Forall proper_request rs) :
  let p := (pool_run (coherent_pool_init device_mem_size) rs).2 in
  cp_used p = allocated (cp_allocations p) /\ cp_used p + total (cp_free_list p) = coherent_pool_size device_mem_size /\
  (cp_allocations p = ∅ -> p = coherent_pool_init device_mem_size).
Proof.
  cbv zeta. destruct (coherent_pool_init_ok device_mem_size Hsize) as [Hp Hend].
  destruct (pool_run_refines _ rs Hp Hrs) as (_&[Hb Hf Ha Hd Hc Ho Hu Ht]&Hbase&Hsz).
  destruct (pool_run _ rs).2 as [base0 size0 used m l]. cbn in *. rewrite Hbase, Hsz in *. clear Hbase Hsz base0 size0. split_and!; [done|done|]. intros ->.
  assert (used = 0) as -> by (rewrite Hu; done).
  unfold coherent_pool_init in *. cbn in *. set (size := coherent_pool_size device_mem_size) in *. set (base := device_mem_size ⊟ size) in *.
  enough (l = [mkBlock base size]) as -> by done.
  destruct (separated_range _ _ base size _ Hf ltac:(lia)) as (b&Hin&Hb1&Hb2).
  { intros x Hx. destruct (Hc x Hx) as [|(o&n&E&_)]; [done|]. by rewrite lookup_empty in E. }
  destruct l as [|c l]; [by apply not_elem_of_nil in Hin|]. destruct Hf as (F1&F2&F3&F4). cbn in Ht.
  assert (l = []) as ->.
  { destruct l as [|d l]; [done|]. exfalso. destruct F4 as (G1&G2&G3&G4). apply elem_of_cons in Hin as [->|Hin]; [lia|].
    assert (Hx : free_at (d :: l) (fb_offset b)) by (apply Exists_exists; exists b; split; [done|unfold block_at; lia]).
    apply (separated_lower (fb_offset c + fb_size c) (base + size)) in Hx; [lia|cbn; auto]. }
  destruct c as [co cs]. cbn in *. do 2 f_equal; lia.
Qed.

(** A request of zero bytes, or of so many that rounding up wraps, succeeds with an empty range;
    the next request gets the same offset, and to free the one frees the other. *)
Theorem pool_zero_shared (p : coherent_pool) (b : CXLCohFreeBlock) (l : list CXLCohFreeBlock) (z size : Z)
  (Hp : pool_ok p) (Hl : cp_free_list p = b :: l) (Hz : z = 0 \/ 2 ^ 64 - 4096 < z < 2 ^ 64)
  (Hsize : 0 < size) (Hfit : pages size <= fb_size b) :
  let '(o1, p1) := cxl_coherent_pool_alloc p z in
  let '(o2, p2) := cxl_coherent_pool_alloc p1 size in
  let '(r1, p3) := cxl_coherent_pool_free p2 o1 in
  o1 = fb_offset b /\ o2 = o1 /\ r1 = 0 /\ cp_allocations p3 !! o2 = None /\ (cxl_coherent_pool_free p3 o2).1 = -1.
Proof.
  destruct Hp as [Hb Hf _ _ _ _ _ _]. rewrite Hl in Hf. destruct Hf as (F1&F2&F3&_).
  assert (Hz0 : page_align z = 0) by (destruct Hz as [->|Hz]; [done|by apply page_align_wraps]).
  assert (Hs : 0 < size <= 2 ^ 64 - 4096) by (unfold pages in Hfit; Z.to_euclidean_division_equations; lia).
  destruct (page_align_pages size Hs) as [Hal Hge].
  unfold cxl_coherent_pool_alloc. rewrite Hz0, Hl. cbn [take_block]. rewrite (proj2 (Z.leb_le 0 (fb_size b))) by lia.
  rewrite (proj2 (Z.eqb_neq (fb_size b) 0)) by lia. cbn [cp_free_list cp_allocations cp_base_offset cp_size cp_used take_block fb_size fb_offset].
  rewrite Z.add_0_r, Z.sub_0_r, Hal, !wrap64_small by (unfold u64; lia). rewrite (proj2 (Z.leb_le (pages size) (fb_size b))) by lia.
  rewrite int64_small by lia. unfold cxl_coherent_pool_free. cbn [cp_allocations]. rewrite lookup_insert_eq. cbn [cp_allocations].
  rewrite lookup_delete_eq. done.
Qed.

(** ** Witnesses *)

(** Three allocations in a pool of 64 pages, the second freed and its pages used again. *)
Definition demo_requests : list pool_request :=
  [PoolAlloc 5000; PoolAlloc 4096; PoolAlloc 1; PoolFree 794624; PoolAlloc 300000; PoolAlloc 4000].


Definition demo_frees : list pool_request := demo_requests ++ [PoolFree 786432; PoolFree 798720; PoolFree 794624].

Lemma pool_all_free_witness :
  let p := (pool_run (coherent_pool_init (1024 * 1024)) demo_frees).2 in
  cp_used p = allocated (cp_allocations p) /\ cp_used p + total (cp_free_list p) = coherent_pool_size (1024 * 1024) /\
  p = coherent_pool_init (1024 * 1024).
Proof.
  destruct (pool_all_free (1024 * 1024) demo_frees) as (H1&H2&H3); [lia|repeat constructor; cbn; lia|].
  split; [exact H1|split; [exact H2|apply H3; vm_compute; reflexivity]].
Defined.

Lemma pool_zero_shared_witness :
  let p := coherent_pool_init (1024 * 1024) in
  let '(o1, p1) := cxl_coherent_pool_alloc p (2 ^ 64 - 1) in
  let '(o2, p2) := cxl_coherent_pool_alloc p1 5000 in
  let '(r1, p3) := cxl_coherent_pool_free p2 o1 in
  o1 = 786432 /\ o2 = o1 /\ r1 = 0 /\ cp_allocations p3 !! o2 = None /\ (cxl_coherent_pool_free p3 o2).1 = -1.
Proof.
  apply (pool_zero_shared (coherent_pool_init (1024 * 1024)) (mkBlock 786432 262144) [] (2 ^ 64 - 1) 5000).
  - apply (coherent_pool_init_ok (1024 * 1024)). lia.
  - reflexivity.
  - right. lia.
  - lia.
  - vm_compute. discriminate.
Defined.
