(* ===== verification/Type2Coherency.v ===== *)
(** * Coherency tracking of the type 2 device ([library/qemu/hw/cxl/cxl_type2_coherency.c])

    A snoop filter records for each line of the BARs which domains hold it; requests of the CPU and
    the GPU change its entries.  [CXLBARCoherencyState] is the structure of that name, the hash
    table is a map from line addresses to entries, the regions are a list of 16.  [bc_lock] is the
    mutex: [qemu_mutex_init] makes a plain POSIX mutex, so a thread that locks it while it holds
    it waits for ever; this is [None] for every operation here.  Time stamps are written and never
    read and are left out, and so are the arguments [size] and [data] of a request, which the
    source does not use.

    [request_returns_iff] says exactly which requests return, [bar_reachable_ok] is the invariant
    of all operations, [request_line] what each request does to its line, [bias_set_get] that the
    bias set for a range is read back.  The defects of the component follow. *)
From S2P Require Import Prelude.
#[local] Open Scope Z_scope.

Definition CXL_CACHE_LINE_SIZE : Z := 64.
Definition CXL_MAX_TRACKED_REGIONS : Z := 16.
Definition CXL_BIAS_MODE_HOST : Z := 0.
Definition CXL_BIAS_MODE_DEVICE : Z := 1.
Definition CXL_SNOOP_FLAG_DIRTY : Z := 1.

Inductive CXLCoherencyState :=
  CXL_COHERENCY_INVALID | CXL_COHERENCY_SHARED | CXL_COHERENCY_EXCLUSIVE | CXL_COHERENCY_MODIFIED.

Inductive CXLCoherencyDomain := CXL_DOMAIN_CPU | CXL_DOMAIN_GPU | CXL_DOMAIN_CXL_HOST | CXL_DOMAIN_CXL_DEV.

Inductive CXLCoherencyReqType :=
  CXL_COH_REQ_RD_SHARED | CXL_COH_REQ_RD_OWN | CXL_COH_REQ_RD_ANY | CXL_COH_REQ_WR_INV |
  CXL_COH_REQ_WR_CUR | CXL_COH_REQ_CLR_DEV_CACHE | CXL_COH_REQ_CLEAN_EVICT | CXL_COH_REQ_DIRTY_EVICT.

Inductive CXLCoherencyRspType :=
  CXL_COH_RSP_I | CXL_COH_RSP_V | CXL_COH_RSP_S | CXL_COH_RSP_E | CXL_COH_RSP_M | CXL_COH_RSP_O | CXL_COH_RSP_F.

#[global] Instance state_eq_dec : EqDecision CXLCoherencyState.
Proof. solve_decision. Defined.

#[global] Instance domain_eq_dec : EqDecision CXLCoherencyDomain.
Proof. solve_decision. Defined.

Definition state_val (x : CXLCoherencyState) : Z :=
  match x with CXL_COHERENCY_INVALID => 0 | CXL_COHERENCY_SHARED => 1 | CXL_COHERENCY_EXCLUSIVE => 2 | CXL_COHERENCY_MODIFIED => 3 end.

Definition domain_val (d : CXLCoherencyDomain) : Z :=
  match d with CXL_DOMAIN_CPU => 0 | CXL_DOMAIN_GPU => 1 | CXL_DOMAIN_CXL_HOST => 2 | CXL_DOMAIN_CXL_DEV => 3 end.

(** [1 << domain]. *)
Definition domain_bit (d : CXLCoherencyDomain) : Z := Z.shiftl 1 (domain_val d).

Record CXLSnoopEntry := mkEntry {
  se_addr : Z;
  se_state : CXLCoherencyState;
  se_domain_mask : Z;
  se_owner_domain : CXLCoherencyDomain;
  se_bias_mode : Z;
  se_flags : Z;
  se_access_count : Z
}.

Record CXLBARCoherencyRegion := mkRegion {
  rg_base_addr : Z;
  rg_size : Z;
  rg_bar_index : Z;
  rg_active : bool;
  rg_gpu_accessible : bool;
  rg_cpu_accessible : bool;
  rg_coherent : bool;
  rg_cpu_reads : Z;
  rg_cpu_writes : Z;
  rg_gpu_reads : Z;
  rg_gpu_writes : Z;
  rg_coherency_conflicts : Z
}.

Record CXLCoherencyTransaction := mkTransaction { tx_addr : Z; tx_size : Z; tx_source : CXLCoherencyDomain }.

Record CXLBackInvalidateEntry := mkBackInv { bi_addr : Z; bi_size : Z; bi_source : CXLCoherencyDomain; bi_urgent : bool }.

Inductive counter :=
  snoop_hits | snoop_misses | coherency_requests | back_invalidations | writebacks | evictions | conflicts |
  upgrades | downgrades | cpu_to_gpu_xfers | gpu_to_cpu_xfers | bias_flips | device_bias_hits | host_bias_hits.

#[global] Instance counter_eq_dec : EqDecision counter.
Proof. solve_decision. Defined.

(** The counters are 64-bit words. *)
Definition bar_stats : Type := counter -> Z.

Record CXLBARCoherencyState := mkBar {
  bc_lock : bool;
  bc_snoop_filter : gmap Z CXLSnoopEntry;
  bc_snoop_filter_size : Z;
  bc_snoop_filter_capacity : Z;
  bc_regions : list CXLBARCoherencyRegion;
  bc_num_regions : Z;
  bc_pending_transactions : list CXLCoherencyTransaction;
  bc_back_invalidate_queue : list CXLBackInvalidateEntry;
  bc_enabled : bool;
  bc_strict_ordering : bool;
  bc_speculative_reads : bool;
  bc_snoop_timeout_ns : Z;
  bc_stats : bar_stats
}.

(** Updates of one field. *)
Definition set_lock (b : bool) (s : CXLBARCoherencyState) : CXLBARCoherencyState :=
  mkBar b (bc_snoop_filter s) (bc_snoop_filter_size s) (bc_snoop_filter_capacity s) (bc_regions s) (bc_num_regions s)
    (bc_pending_transactions s) (bc_back_invalidate_queue s) (bc_enabled s) (bc_strict_ordering s) (bc_speculative_reads s) (bc_snoop_timeout_ns s) (bc_stats s).

Definition set_filter (m : gmap Z CXLSnoopEntry) (n : Z) (s : CXLBARCoherencyState) : CXLBARCoherencyState :=
  mkBar (bc_lock s) m n (bc_snoop_filter_capacity s) (bc_regions s) (bc_num_regions s)
    (bc_pending_transactions s) (bc_back_invalidate_queue s) (bc_enabled s) (bc_strict_ordering s) (bc_speculative_reads s) (bc_snoop_timeout_ns s) (bc_stats s).

Definition set_regions (l : list CXLBARCoherencyRegion) (n : Z) (s : CXLBARCoherencyState) : CXLBARCoherencyState :=
  mkBar (bc_lock s) (bc_snoop_filter s) (bc_snoop_filter_size s) (bc_snoop_filter_capacity s) l n
    (bc_pending_transactions s) (bc_back_invalidate_queue s) (bc_enabled s) (bc_strict_ordering s) (bc_speculative_reads s) (bc_snoop_timeout_ns s) (bc_stats s).

Definition set_queues (p : list CXLCoherencyTransaction) (q : list CXLBackInvalidateEntry) (s : CXLBARCoherencyState) : CXLBARCoherencyState :=
  mkBar (bc_lock s) (bc_snoop_filter s) (bc_snoop_filter_size s) (bc_snoop_filter_capacity s) (bc_regions s) (bc_num_regions s)
    p q (bc_enabled s) (bc_strict_ordering s) (bc_speculative_reads s) (bc_snoop_timeout_ns s) (bc_stats s).

Definition set_stats (f : bar_stats) (s : CXLBARCoherencyState) : CXLBARCoherencyState :=
  mkBar (bc_lock s) (bc_snoop_filter s) (bc_snoop_filter_size s) (bc_snoop_filter_capacity s) (bc_regions s) (bc_num_regions s)
    (bc_pending_transactions s) (bc_back_invalidate_queue s) (bc_enabled s) (bc_strict_ordering s) (bc_speculative_reads s) (bc_snoop_timeout_ns s) f.

Definition count (c : counter) (s : CXLBARCoherencyState) : CXLBARCoherencyState :=
  set_stats (fun c' => if decide (c' = c) then bc_stats s c ⊞ 1 else bc_stats s c') s.

Definition count_if (b : bool) (c : counter) (s : CXLBARCoherencyState) : CXLBARCoherencyState := if b then count c s else s.

Definition put_entry (a : Z) (e : CXLSnoopEntry) (s : CXLBARCoherencyState) : CXLBARCoherencyState :=
  set_filter (<[a := e]> (bc_snoop_filter s)) (bc_snoop_filter_size s) s.

(** [qemu_mutex_lock] and [qemu_mutex_unlock] of [state->lock]. *)
Definition mutex_lock (s : CXLBARCoherencyState) : option CXLBARCoherencyState :=
  if bc_lock s then None else Some (set_lock true s).

Definition mutex_unlock (s : CXLBARCoherencyState) : CXLBARCoherencyState := set_lock false s.

(** ** Initialisation *)
Definition region_new : CXLBARCoherencyRegion := mkRegion 0 0 0 false false false false 0 0 0 0 0.

Definition cxl_bar_coherency_init : CXLBARCoherencyState :=
  mkBar false ∅ 0 4096 (replicate (Z.to_nat CXL_MAX_TRACKED_REGIONS) region_new) 0 [] [] true true false 1000000 (fun _ => 0).

(** ** Regions *)

(** The loop for a slot: an active region of the same BAR, else the first free one. *)
Fixpoint region_slot (bar_index : Z) (i : nat) (slot : option nat) (l : list CXLBARCoherencyRegion) : option nat :=
  match l with
  | [] => slot
  | r :: l' =>
      if rg_active r && (rg_bar_index r =? bar_index) then Some i
      else region_slot bar_index (S i) (if negb (rg_active r) then match slot with None => Some i | _ => slot end else slot) l'
  end.

Definition cxl_bar_coherency_add_region (s : CXLBARCoherencyState) (bar_index base_addr size : Z) (gpu cpu : bool) : option (Z * CXLBARCoherencyState) :=
  s ← mutex_lock s;
  if CXL_MAX_TRACKED_REGIONS <=? bc_num_regions s then Some (-1, mutex_unlock s)
  else match region_slot bar_index 0 None (bc_regions s) with
  | None => Some (-1, mutex_unlock s)
  | Some slot =>
      let region := mkRegion base_addr size bar_index true gpu cpu (gpu && cpu) 0 0 0 0 0 in
      let regions := <[slot := region]> (bc_regions s) in
      let num := if negb (from_option rg_active true (regions !! slot)) then wrap32 (bc_num_regions s + 1) else bc_num_regions s in
      Some (0, mutex_unlock (set_regions regions num s))
  end.

Definition region_close (r : CXLBARCoherencyRegion) : CXLBARCoherencyRegion :=
  mkRegion (rg_base_addr r) (rg_size r) (rg_bar_index r) false (rg_gpu_accessible r) (rg_cpu_accessible r) (rg_coherent r)
    (rg_cpu_reads r) (rg_cpu_writes r) (rg_gpu_reads r) (rg_gpu_writes r) (rg_coherency_conflicts r).

Definition cxl_bar_coherency_remove_region (s : CXLBARCoherencyState) (bar_index : Z) : option CXLBARCoherencyState :=
  s ← mutex_lock s;
  match list_find (fun r => Is_true (rg_active r && (rg_bar_index r =? bar_index))) (bc_regions s) with
  | Some (i, r) => Some (mutex_unlock (set_regions (<[i := region_close r]> (bc_regions s)) (wrap32 (bc_num_regions s - 1)) s))
  | None => Some (mutex_unlock s)
  end.

(** The index of the first active region that contains the address. *)
Definition find_region_for_addr (s : CXLBARCoherencyState) (addr : Z) : option (nat * CXLBARCoherencyRegion) :=
  list_find (fun r => Is_true (rg_active r && (rg_base_addr r <=? addr) && (addr <? rg_base_addr r ⊞ rg_size r))) (bc_regions s).

(** ** Snoop filter *)
Definition exclusive_or_modified (x : CXLCoherencyState) : bool :=
  match x with CXL_COHERENCY_EXCLUSIVE | CXL_COHERENCY_MODIFIED => true | _ => false end.

Definition cxl_bar_snoop_lookup (s : CXLBARCoherencyState) (addr : Z) : option (option CXLSnoopEntry * CXLBARCoherencyState) :=
  s ← mutex_lock s;
  let entry := bc_snoop_filter s !! line_of addr in
  Some (entry, mutex_unlock (count (match entry with Some _ => snoop_hits | None => snoop_misses end) s)).

Definition cxl_bar_snoop_insert (s : CXLBARCoherencyState) (addr : Z) (st : CXLCoherencyState) (domain : CXLCoherencyDomain) : option CXLBARCoherencyState :=
  let aligned_addr := line_of addr in
  s ← mutex_lock s;
  match bc_snoop_filter s !! aligned_addr with
  | Some e =>
      Some (mutex_unlock (put_entry aligned_addr
        (mkEntry (se_addr e) st (Z.lor (se_domain_mask e) (domain_bit domain))
           (if exclusive_or_modified st then domain else se_owner_domain e)
           (se_bias_mode e) (se_flags e) (wrap32 (se_access_count e + 1))) s))
  | None =>
      Some (mutex_unlock (set_filter
        (<[aligned_addr := mkEntry aligned_addr st (domain_bit domain) domain CXL_BIAS_MODE_HOST 0 1]> (bc_snoop_filter s))
        (wrap32 (bc_snoop_filter_size s + 1)) s))
  end.

Definition updated_mask (mask : Z) (st : CXLCoherencyState) (domain : CXLCoherencyDomain) : Z :=
  match st with
  | CXL_COHERENCY_EXCLUSIVE | CXL_COHERENCY_MODIFIED => domain_bit domain
  | CXL_COHERENCY_SHARED => Z.lor mask (domain_bit domain)
  | CXL_COHERENCY_INVALID => Z.ldiff mask (domain_bit domain)
  end.

Definition cxl_bar_snoop_update (s : CXLBARCoherencyState) (addr : Z) (st : CXLCoherencyState) (domain : CXLCoherencyDomain) : option CXLBARCoherencyState :=
  let aligned_addr := line_of addr in
  s ← mutex_lock s;
  match bc_snoop_filter s !! aligned_addr with
  | Some e =>
      let s := put_entry aligned_addr
        (mkEntry (se_addr e) st (updated_mask (se_domain_mask e) st domain)
           (if exclusive_or_modified st then domain else se_owner_domain e)
           (se_bias_mode e) (se_flags e) (wrap32 (se_access_count e + 1))) s in
      Some (mutex_unlock
        (if state_val (se_state e) <? state_val st then count upgrades s
         else if state_val st <? state_val (se_state e) then count downgrades s else s))
  | None => Some (mutex_unlock s)
  end.

Definition cxl_bar_snoop_remove (s : CXLBARCoherencyState) (addr : Z) : option CXLBARCoherencyState :=
  let aligned_addr := line_of addr in
  s ← mutex_lock s;
  match bc_snoop_filter s !! aligned_addr with
  | Some _ =>
      Some (mutex_unlock (count evictions
        (set_filter (delete aligned_addr (bc_snoop_filter s)) (wrap32 (bc_snoop_filter_size s - 1)) s)))
  | None => Some (mutex_unlock s)
  end.

(** ** Requests *)

(** An entry with its protocol fields replaced. *)
Definition with_protocol (e : CXLSnoopEntry) (st : CXLCoherencyState) (mask : Z) (owner : CXLCoherencyDomain) (flags : Z) : CXLSnoopEntry :=
  mkEntry (se_addr e) st mask owner (se_bias_mode e) flags (se_access_count e).

Definition is_modified (e : CXLSnoopEntry) : bool := bool_decide (se_state e = CXL_COHERENCY_MODIFIED).

Definition device_bias_hit (e : CXLSnoopEntry) (source : CXLCoherencyDomain) : bool :=
  (se_bias_mode e =? CXL_BIAS_MODE_DEVICE) && bool_decide (source = CXL_DOMAIN_GPU).

Definition host_bias_hit (e : CXLSnoopEntry) (source : CXLCoherencyDomain) : bool :=
  (se_bias_mode e =? CXL_BIAS_MODE_HOST) && bool_decide (source = CXL_DOMAIN_CPU).

Definition request_rd_shared (s : CXLBARCoherencyState) (addr : Z) (source : CXLCoherencyDomain) : option (CXLCoherencyRspType * CXLBARCoherencyState) :=
  match bc_snoop_filter s !! line_of addr with
  | None => s ← cxl_bar_snoop_insert s addr CXL_COHERENCY_SHARED source; Some (CXL_COH_RSP_S, s)
  | Some e =>
      let mask := Z.lor (se_domain_mask e) (domain_bit source) in
      let e' :=
        if is_modified e
        then with_protocol e CXL_COHERENCY_SHARED mask (se_owner_domain e) (Z.ldiff (se_flags e) CXL_SNOOP_FLAG_DIRTY)
        else with_protocol e (se_state e) mask (se_owner_domain e) (se_flags e) in
      let s := put_entry (line_of addr) e' (count_if (is_modified e) writebacks s) in
      Some (CXL_COH_RSP_S,
            if device_bias_hit e source then count device_bias_hits s else count_if (host_bias_hit e source) host_bias_hits s)
  end.

Definition request_rd_own (s : CXLBARCoherencyState) (addr : Z) (source : CXLCoherencyDomain) : option (CXLCoherencyRspType * CXLBARCoherencyState) :=
  match bc_snoop_filter s !! line_of addr with
  | None => s ← cxl_bar_snoop_insert s addr CXL_COHERENCY_EXCLUSIVE source; Some (CXL_COH_RSP_E, s)
  | Some e =>
      let s :=
        if device_bias_hit e source then
          put_entry (line_of addr) (with_protocol e CXL_COHERENCY_EXCLUSIVE (domain_bit source) source (se_flags e)) (count device_bias_hits s)
        else if bool_decide (se_owner_domain e <> source) then
          put_entry (line_of addr) (with_protocol e CXL_COHERENCY_EXCLUSIVE (domain_bit source) source (se_flags e))
            (count_if (is_modified e) writebacks (count back_invalidations s))
        else
          put_entry (line_of addr) (with_protocol e CXL_COHERENCY_EXCLUSIVE (domain_bit source) (se_owner_domain e) (se_flags e)) s in
      Some (CXL_COH_RSP_E, count_if (host_bias_hit e source) host_bias_hits s)
  end.

Definition request_wr_inv (s : CXLBARCoherencyState) (addr : Z) (source : CXLCoherencyDomain) : option (CXLCoherencyRspType * CXLBARCoherencyState) :=
  match bc_snoop_filter s !! line_of addr with
  | Some e =>
      let foreign := bool_decide (se_owner_domain e <> source) && bool_decide (se_state e <> CXL_COHERENCY_INVALID) in
      let s := if foreign then count_if (is_modified e) writebacks (count back_invalidations s) else s in
      Some (CXL_COH_RSP_M,
            put_entry (line_of addr) (with_protocol e CXL_COHERENCY_MODIFIED (domain_bit source) source (Z.lor (se_flags e) CXL_SNOOP_FLAG_DIRTY)) s)
  | None =>
      s ← cxl_bar_snoop_insert s addr CXL_COHERENCY_MODIFIED source;
      Some (CXL_COH_RSP_M,
            match bc_snoop_filter s !! line_of addr with
            | Some e => put_entry (line_of addr) (with_protocol e (se_state e) (se_domain_mask e) (se_owner_domain e) (Z.lor (se_flags e) CXL_SNOOP_FLAG_DIRTY)) s
            | None => s
            end)
  end.

Definition request_clr_dev_cache (s : CXLBARCoherencyState) (addr : Z) : CXLBARCoherencyState :=
  match bc_snoop_filter s !! line_of addr with
  | Some e =>
      if negb (Z.land (se_domain_mask e) (domain_bit CXL_DOMAIN_GPU) =? 0) then
        let mask := Z.ldiff (se_domain_mask e) (domain_bit CXL_DOMAIN_GPU) in
        put_entry (line_of addr)
          (with_protocol e (if mask =? 0 then CXL_COHERENCY_INVALID else CXL_COHERENCY_SHARED) mask (se_owner_domain e) (se_flags e))
          (count_if (is_modified e && bool_decide (se_owner_domain e = CXL_DOMAIN_GPU)) writebacks s)
      else s
  | None => s
  end.

Definition request_clean_evict (s : CXLBARCoherencyState) (addr : Z) (source : CXLCoherencyDomain) : option CXLBARCoherencyState :=
  match bc_snoop_filter s !! line_of addr with
  | Some e =>
      let mask := Z.ldiff (se_domain_mask e) (domain_bit source) in
      let s := put_entry (line_of addr) (with_protocol e (se_state e) mask (se_owner_domain e) (se_flags e)) s in
      if mask =? 0 then cxl_bar_snoop_remove s addr else Some s
  | None => Some s
  end.

Definition request_dirty_evict (s : CXLBARCoherencyState) (addr : Z) (source : CXLCoherencyDomain) : option CXLBARCoherencyState :=
  match bc_snoop_filter s !! line_of addr with
  | Some e =>
      if bool_decide (se_owner_domain e = source) then
        let mask := Z.ldiff (se_domain_mask e) (domain_bit source) in
        let flags := Z.ldiff (se_flags e) CXL_SNOOP_FLAG_DIRTY in
        let s := count writebacks s in
        if mask =? 0
        then cxl_bar_snoop_remove (put_entry (line_of addr) (with_protocol e (se_state e) mask (se_owner_domain e) flags) s) addr
        else Some (put_entry (line_of addr) (with_protocol e CXL_COHERENCY_SHARED mask (se_owner_domain e) flags) s)
      else Some s
  | None => Some s
  end.

Definition request_body (s : CXLBARCoherencyState) (req : CXLCoherencyReqType) (addr : Z) (source : CXLCoherencyDomain) : option (CXLCoherencyRspType * CXLBARCoherencyState) :=
  match req with
  | CXL_COH_REQ_RD_SHARED => request_rd_shared s addr source
  | CXL_COH_REQ_RD_OWN => request_rd_own s addr source
  | CXL_COH_REQ_WR_INV => request_wr_inv s addr source
  | CXL_COH_REQ_CLR_DEV_CACHE => Some (CXL_COH_RSP_I, request_clr_dev_cache s addr)
  | CXL_COH_REQ_CLEAN_EVICT => s ← request_clean_evict s addr source; Some (CXL_COH_RSP_I, s)
  | CXL_COH_REQ_DIRTY_EVICT => s ← request_dirty_evict s addr source; Some (CXL_COH_RSP_I, s)
  | _ => Some (CXL_COH_RSP_I, s)
  end.

Definition cxl_bar_coherency_request (s : CXLBARCoherencyState) (req : CXLCoherencyReqType) (addr : Z) (source : CXLCoherencyDomain) : option (CXLCoherencyRspType * CXLBARCoherencyState) :=
  if negb (bc_enabled s) then Some (CXL_COH_RSP_V, s)
  else
    s ← mutex_lock s;
    '(rsp, s) ← request_body (count coherency_requests s) req addr source;
    Some (rsp, mutex_unlock s).

(** ** Accesses of the GPU *)
Definition region_gpu_access (is_write : bool) (r : CXLBARCoherencyRegion) : CXLBARCoherencyRegion :=
  mkRegion (rg_base_addr r) (rg_size r) (rg_bar_index r) (rg_active r) (rg_gpu_accessible r) (rg_cpu_accessible r) (rg_coherent r)
    (rg_cpu_reads r) (rg_cpu_writes r) (if is_write then rg_gpu_reads r else rg_gpu_reads r ⊞ 1)
    (if is_write then rg_gpu_writes r ⊞ 1 else rg_gpu_writes r) (rg_coherency_conflicts r).

Definition cxl_bar_notify_gpu_access (s : CXLBARCoherencyState) (addr size : Z) (is_write : bool) : option CXLBARCoherencyState :=
  if negb (bc_enabled s) then Some s
  else match find_region_for_addr s addr with
  | None => Some s
  | Some (i, r) =>
      let s := set_regions (<[i := region_gpu_access is_write r]> (bc_regions s)) (bc_num_regions s) s in
      if is_write then
        '(_, s) ← cxl_bar_coherency_request s CXL_COH_REQ_WR_INV addr CXL_DOMAIN_GPU;
        s ← cxl_bar_snoop_update s addr CXL_COHERENCY_MODIFIED CXL_DOMAIN_GPU;
        Some (count gpu_to_cpu_xfers s)
      else
        '(_, s) ← cxl_bar_coherency_request s CXL_COH_REQ_RD_SHARED addr CXL_DOMAIN_GPU;
        Some (count cpu_to_gpu_xfers s)
  end.

(** ** Back-invalidations, fences, flushes *)
Definition cxl_bar_back_invalidate (s : CXLBARCoherencyState) (addr size : Z) (source : CXLCoherencyDomain) : CXLBARCoherencyState :=
  let bi_entry := mkBackInv (line_of addr) (line_of (size ⊞ (CXL_CACHE_LINE_SIZE - 1))) source false in
  count back_invalidations (set_queues (bc_pending_transactions s) (bc_back_invalidate_queue s ++ [bi_entry]) s).

(** The loop empties the queue of transactions. *)
Definition cxl_bar_memory_fence (s : CXLBARCoherencyState) : option CXLBARCoherencyState :=
  if negb (bc_enabled s) then Some s
  else s ← mutex_lock s; Some (mutex_unlock (set_queues [] (bc_back_invalidate_queue s) s)).

(** [for (a = aligned_start; a < aligned_end; a += 64)]; [None] if the fuel runs out. *)
Fixpoint line_loop {A} (fuel : nat) (step : Z -> A -> option A) (a aligned_end : Z) (s : A) : option A :=
  match fuel with
  | O => None
  | S fuel' => if a <? aligned_end then s ← step a s; line_loop fuel' step (a ⊞ CXL_CACHE_LINE_SIZE) aligned_end s else Some s
  end.

(** [(addr + size + 63) & ~63]. *)
Definition aligned_end (addr size : Z) : Z := line_of (addr ⊞ size ⊞ (CXL_CACHE_LINE_SIZE - 1)).

Definition for_lines {A} (step : Z -> A -> option A) (addr size : Z) (s : A) : option A :=
  line_loop (S (Z.to_nat (aligned_end addr size / 64))) step (line_of addr) (aligned_end addr size) s.

Definition flush_line (a : Z) (s : CXLBARCoherencyState) : CXLBARCoherencyState :=
  match bc_snoop_filter s !! line_of a with
  | Some e =>
      if negb (Z.land (se_flags e) CXL_SNOOP_FLAG_DIRTY =? 0)
      then put_entry (line_of a) (with_protocol e CXL_COHERENCY_SHARED (se_domain_mask e) (se_owner_domain e) (Z.ldiff (se_flags e) CXL_SNOOP_FLAG_DIRTY)) (count writebacks s)
      else s
  | None => s
  end.

Definition cxl_bar_cache_flush (s : CXLBARCoherencyState) (addr size : Z) : option CXLBARCoherencyState :=
  if negb (bc_enabled s) then Some s
  else
    s ← mutex_lock s;
    s ← for_lines (fun a s => Some (flush_line a s)) addr size s;
    Some (mutex_unlock s).

Definition cxl_bar_cache_writeback (s : CXLBARCoherencyState) (addr size : Z) : option CXLBARCoherencyState := cxl_bar_cache_flush s addr size.

(** ** Bias *)
Definition bias_line (bias_mode a : Z) (s : CXLBARCoherencyState) : CXLBARCoherencyState :=
  match bc_snoop_filter s !! line_of a with
  | Some e =>
      put_entry (line_of a) (mkEntry (se_addr e) (se_state e) (se_domain_mask e) (se_owner_domain e) bias_mode (se_flags e) (se_access_count e)) s
  | None =>
      set_filter (<[line_of a := mkEntry a CXL_COHERENCY_INVALID 0 CXL_DOMAIN_CPU bias_mode 0 0]> (bc_snoop_filter s)) (wrap32 (bc_snoop_filter_size s + 1)) s
  end.

Definition cxl_bar_set_bias (s : CXLBARCoherencyState) (addr size bias_mode : Z) : option CXLBARCoherencyState :=
  s ← mutex_lock s;
  s ← for_lines (fun a s => Some (bias_line bias_mode a s)) addr size s;
  Some (mutex_unlock s).

Definition cxl_bar_get_bias (s : CXLBARCoherencyState) (addr : Z) : option (Z * CXLBARCoherencyState) :=
  s ← mutex_lock s;
  Some (from_option se_bias_mode CXL_BIAS_MODE_HOST (bc_snoop_filter s !! line_of addr), mutex_unlock s).

Definition clear_line (source : CXLCoherencyDomain) (a : Z) (s : CXLBARCoherencyState) : option CXLBARCoherencyState :=
  '(_, s) ← cxl_bar_coherency_request s CXL_COH_REQ_CLR_DEV_CACHE a source; Some s.

Definition cxl_bar_bias_flip (s : CXLBARCoherencyState) (addr size new_bias : Z) : option CXLBARCoherencyState :=
  s ← (if new_bias =? CXL_BIAS_MODE_DEVICE
       then s ← cxl_bar_cache_flush s addr size; for_lines (clear_line CXL_DOMAIN_CPU) addr size s
       else for_lines (clear_line CXL_DOMAIN_GPU) addr size s);
  s ← cxl_bar_set_bias s addr size new_bias;
  s ← mutex_lock s;
  Some (mutex_unlock (count bias_flips s)).

(** ** Invariant *)
Definition holds (e : CXLSnoopEntry) (d : CXLCoherencyDomain) : bool := Z.testbit (se_domain_mask e) (domain_val d).

Definition dirty (e : CXLSnoopEntry) : bool := Z.testbit (se_flags e) 0.

(** A modified line has one holder, its owner. *)
Definition entry_ok (a : Z) (e : CXLSnoopEntry) : Prop :=
  line_of a = a /\ se_addr e = a /\ (se_state e = CXL_COHERENCY_MODIFIED -> se_domain_mask e = domain_bit (se_owner_domain e)).

Record bar_inv (s : CXLBARCoherencyState) : Prop := mkBarInv {
  bar_entries : forall a e, bc_snoop_filter s !! a = Some e -> entry_ok a e;
  bar_size : bc_snoop_filter_size s = wrap32 (Z.of_nat (size (bc_snoop_filter s)));
  bar_regions : length (bc_regions s) = 16%nat
}.

(** The calls of the other files; they start and end with the mutex free. *)
Inductive bar_op :=
| OpRequest (req : CXLCoherencyReqType) (addr : Z) (source : CXLCoherencyDomain)
| OpNotify (addr size : Z) (is_write : bool)
| OpLookup (addr : Z)
| OpUpdate (addr : Z) (st : CXLCoherencyState) (domain : CXLCoherencyDomain)
| OpRemove (addr : Z)
| OpFence
| OpFlush (addr size : Z)
| OpSetBias (addr size bias_mode : Z)
| OpFlip (addr size bias_mode : Z)
| OpBackInvalidate (addr size : Z) (source : CXLCoherencyDomain)
| OpAddRegion (bar_index base_addr size : Z) (gpu cpu : bool)
| OpRemoveRegion (bar_index : Z).

Definition bar_step (s : CXLBARCoherencyState) (o : bar_op) : option CXLBARCoherencyState :=
  match o with
  | OpRequest req addr source => snd <$> cxl_bar_coherency_request s req addr source
  | OpNotify addr size w => cxl_bar_notify_gpu_access s addr size w
  | OpLookup addr => snd <$> cxl_bar_snoop_lookup s addr
  | OpUpdate addr st d => cxl_bar_snoop_update s addr st d
  | OpRemove addr => cxl_bar_snoop_remove s addr
  | OpFence => cxl_bar_memory_fence s
  | OpFlush addr size => cxl_bar_cache_flush s addr size
  | OpSetBias addr size b => cxl_bar_set_bias s addr size b
  | OpFlip addr size b => cxl_bar_bias_flip s addr size b
  | OpBackInvalidate addr size d => Some (cxl_bar_back_invalidate s addr size d)
  | OpAddRegion i base size g c => snd <$> cxl_bar_coherency_add_region s i base size g c
  | OpRemoveRegion i => cxl_bar_coherency_remove_region s i
  end.

Inductive bar_reachable : CXLBARCoherencyState -> Prop :=
| reachable_init : bar_reachable cxl_bar_coherency_init
| reachable_step s o s' : bar_reachable s -> bar_step s o = Some s' -> bar_reachable s'.

(** ** Lemmas on masks *)
Lemma testbit_domain_bit (d d' : CXLCoherencyDomain) : Z.testbit (domain_bit d') (domain_val d) = bool_decide (d = d').
Proof. destruct d, d'; reflexivity. Qed.

Lemma testbit_lor_bit (m : Z) (d d' : CXLCoherencyDomain) :
  Z.testbit (Z.lor m (domain_bit d')) (domain_val d) = Z.testbit m (domain_val d) || bool_decide (d = d').
Proof. by rewrite Z.lor_spec, testbit_domain_bit. Qed.

Lemma testbit_ldiff_bit (m : Z) (d d' : CXLCoherencyDomain) :
  Z.testbit (Z.ldiff m (domain_bit d')) (domain_val d) = Z.testbit m (domain_val d) && bool_decide (d <> d').
Proof. rewrite Z.ldiff_spec, testbit_domain_bit. f_equal. rewrite bool_decide_not. done. Qed.

Lemma land_bit_zero (m : Z) (d : CXLCoherencyDomain) : (Z.land m (domain_bit d) =? 0) = negb (Z.testbit m (domain_val d)).
Proof.
  destruct (Z.testbit m (domain_val d)) eqn:E; cbn.
  - apply Z.eqb_neq. intros H. assert (Ht : Z.testbit (Z.land m (domain_bit d)) (domain_val d) = false) by (rewrite H; apply Z.testbit_0_l).
    rewrite Z.land_spec, E, testbit_domain_bit, bool_decide_true in Ht by done. done.
  - apply Z.eqb_eq, Z.bits_inj'. intros n Hn. rewrite Z.land_spec, Z.testbit_0_l. unfold domain_bit.
    rewrite Z.shiftl_spec by done. destruct (decide (n = domain_val d)) as [->|Hne]; [by rewrite E|].
    change 1 with (2 ^ 0). rewrite Z.pow2_bits_false by lia. apply andb_false_r.
Qed.

(** ** Fields that an operation leaves *)
Lemma count_filter (c : counter) (s : CXLBARCoherencyState) : bc_snoop_filter (count c s) = bc_snoop_filter s.
Proof. done. Qed.

Lemma count_if_filter (b : bool) (c : counter) (s : CXLBARCoherencyState) : bc_snoop_filter (count_if b c s) = bc_snoop_filter s.
Proof. by destruct b. Qed.

Lemma count_if_lock (b : bool) (c : counter) (s : CXLBARCoherencyState) : bc_lock (count_if b c s) = bc_lock s.
Proof. by destruct b. Qed.

Lemma put_entry_filter (a : Z) (e : CXLSnoopEntry) (s : CXLBARCoherencyState) : bc_snoop_filter (put_entry a e s) = <[a := e]> (bc_snoop_filter s).
Proof. done. Qed.

#[local] Hint Rewrite count_filter count_if_filter count_if_lock put_entry_filter : bar.

Lemma bar_inv_lock (b : bool) (s : CXLBARCoherencyState) : bar_inv s -> bar_inv (set_lock b s).
Proof. by intros []. Qed.

Lemma bar_inv_unlock (s : CXLBARCoherencyState) : bar_inv s -> bar_inv (mutex_unlock s).
Proof. apply bar_inv_lock. Qed.

Lemma bar_inv_count (c : counter) (s : CXLBARCoherencyState) : bar_inv s -> bar_inv (count c s).
Proof. by intros []. Qed.

Lemma bar_inv_count_if (b : bool) (c : counter) (s : CXLBARCoherencyState) : bar_inv s -> bar_inv (count_if b c s).
Proof. destruct b; [apply bar_inv_count|done]. Qed.

Lemma bar_inv_queues (p : list CXLCoherencyTransaction) (q : list CXLBackInvalidateEntry) (s : CXLBARCoherencyState) : bar_inv s -> bar_inv (set_queues p q s).
Proof. by intros []. Qed.

Lemma bar_inv_region (i : nat) (r : CXLBARCoherencyRegion) (n : Z) (s : CXLBARCoherencyState) : bar_inv s -> bar_inv (set_regions (<[i := r]> (bc_regions s)) n s).
Proof. intros []. constructor; [done..|]. cbn. by rewrite length_insert. Qed.

(** Replacing the entry of a line that has one. *)
Lemma bar_inv_put (a : Z) (e e' : CXLSnoopEntry) (s : CXLBARCoherencyState) :
  bc_snoop_filter s !! a = Some e -> bar_inv s ->
  (entry_ok a e -> se_addr e' = se_addr e /\ (se_state e' = CXL_COHERENCY_MODIFIED -> se_domain_mask e' = domain_bit (se_owner_domain e'))) ->
  bar_inv (put_entry a e' s).
Proof.
  intros He [Hent Hsz Hr] Hok. pose proof (Hent _ _ He) as Hae. destruct (Hok Hae) as [Ha Hm]. destruct Hae as (H1&H2&H3). constructor; cbn; [| |done].
  - intros a' e0. rewrite lookup_insert_Some. intros [[<- <-]|[? He0]]; [|by apply Hent]. split_and!; [done|congruence|done].
  - rewrite map_size_insert_Some by eauto. done.
Qed.

(** An entry for a line that has none. *)
Lemma bar_inv_new (a : Z) (e : CXLSnoopEntry) (s : CXLBARCoherencyState) :
  bc_snoop_filter s !! a = None -> bar_inv s -> entry_ok a e ->
  bar_inv (set_filter (<[a := e]> (bc_snoop_filter s)) (wrap32 (bc_snoop_filter_size s + 1)) s).
Proof.
  intros He [Hent Hsz Hr] Hok. constructor; cbn; [| |done].
  - intros a' e0. rewrite lookup_insert_Some. intros [[<- <-]|[? He0]]; [done|by apply Hent].
  - rewrite map_size_insert_None by done. rewrite Hsz. unfold wrap32. rewrite Nat2Z.inj_succ. rewrite Zplus_mod_idemp_l. done.
Qed.

Lemma bar_inv_delete (a : Z) (e : CXLSnoopEntry) (s : CXLBARCoherencyState) :
  bc_snoop_filter s !! a = Some e -> bar_inv s ->
  bar_inv (set_filter (delete a (bc_snoop_filter s)) (wrap32 (bc_snoop_filter_size s - 1)) s).
Proof.
  intros He [Hent Hsz Hr]. constructor; cbn; [| |done].
  - intros a' e0 H. apply lookup_delete_Some in H as [_ H]. by apply Hent.
  - assert (size (bc_snoop_filter s) <> 0%nat) by (apply map_size_ne_0_lookup; eauto).
    rewrite map_size_delete_Some by eauto. rewrite Hsz. unfold wrap32. rewrite Zminus_mod_idemp_l. f_equal. lia.
Qed.

#[local] Hint Resolve bar_inv_lock bar_inv_unlock bar_inv_count bar_inv_count_if bar_inv_queues bar_inv_region : bar.

(** ** The operations keep the invariant *)
Lemma insert_waits (s : CXLBARCoherencyState) (addr : Z) (st : CXLCoherencyState) (d : CXLCoherencyDomain) :
  bc_lock s = true -> cxl_bar_snoop_insert s addr st d = None.
Proof. intros H. unfold cxl_bar_snoop_insert, mutex_lock. by rewrite H. Qed.

Lemma remove_waits (s : CXLBARCoherencyState) (addr : Z) : bc_lock s = true -> cxl_bar_snoop_remove s addr = None.
Proof. intros H. unfold cxl_bar_snoop_remove, mutex_lock. by rewrite H. Qed.

Lemma mutex_lock_free (s : CXLBARCoherencyState) : bc_lock s = false -> mutex_lock s = Some (set_lock true s).
Proof. intros H. unfold mutex_lock. by rewrite H. Qed.

Lemma mutex_lock_Some (s s' : CXLBARCoherencyState) : mutex_lock s = Some s' -> bc_lock s = false /\ s' = set_lock true s.
Proof. unfold mutex_lock. destruct (bc_lock s); [done|]. by intros [= <-]. Qed.

(** The fields that stay while the mutex is held. *)
Definition same_config (s s' : CXLBARCoherencyState) : Prop := bc_lock s' = bc_lock s /\ bc_enabled s' = bc_enabled s.

Lemma rd_shared_ok (s s' : CXLBARCoherencyState) (addr : Z) (d : CXLCoherencyDomain) (r : CXLCoherencyRspType) :
  bc_lock s = true -> request_rd_shared s addr d = Some (r, s') -> bar_inv s -> bar_inv s' /\ same_config s s'.
Proof.
  intros Hl H Hi. unfold request_rd_shared in H. destruct (bc_snoop_filter s !! line_of addr) as [e|] eqn:He; [|by rewrite insert_waits in H].
  injection H as _ <-. split; [|by destruct (is_modified e), (device_bias_hit e d), (host_bias_hit e d)].
  set (e' := if is_modified e then _ else _).
  assert (Hp : bar_inv (put_entry (line_of addr) e' (count_if (is_modified e) writebacks s))).
  { eapply bar_inv_put; [by autorewrite with bar|auto with bar|]. intros _. unfold e', is_modified. case_bool_decide; cbn; split; done. }
  destruct (device_bias_hit e d); auto with bar.
Qed.

Lemma rd_own_ok (s s' : CXLBARCoherencyState) (addr : Z) (d : CXLCoherencyDomain) (r : CXLCoherencyRspType) :
  bc_lock s = true -> request_rd_own s addr d = Some (r, s') -> bar_inv s -> bar_inv s' /\ same_config s s'.
Proof.
  intros Hl H Hi. unfold request_rd_own in H. destruct (bc_snoop_filter s !! line_of addr) as [e|] eqn:He; [|by rewrite insert_waits in H].
  injection H as _ <-. split.
  - apply bar_inv_count_if. destruct (device_bias_hit e d); [|case_bool_decide];
      (eapply bar_inv_put; [by autorewrite with bar|auto with bar|done]).
  - destruct (device_bias_hit e d), (host_bias_hit e d), (bool_decide (se_owner_domain e <> d)), (is_modified e); done.
Qed.

Lemma wr_inv_ok (s s' : CXLBARCoherencyState) (addr : Z) (d : CXLCoherencyDomain) (r : CXLCoherencyRspType) :
  bc_lock s = true -> request_wr_inv s addr d = Some (r, s') -> bar_inv s -> bar_inv s' /\ same_config s s'.
Proof.
  intros Hl H Hi. unfold request_wr_inv in H. destruct (bc_snoop_filter s !! line_of addr) as [e|] eqn:He; [|by rewrite insert_waits in H].
  injection H as _ <-. destruct (bool_decide (se_owner_domain e <> d) && _); (split; [eapply bar_inv_put; [by autorewrite with bar|auto with bar|done]|by destruct (is_modified e)]).
Qed.

Lemma clr_dev_cache_ok (s : CXLBARCoherencyState) (addr : Z) : bar_inv s -> bar_inv (request_clr_dev_cache s addr) /\ same_config s (request_clr_dev_cache s addr).
Proof.
  intros Hi. unfold request_clr_dev_cache. destruct (bc_snoop_filter s !! line_of addr) as [e|] eqn:He; [|done].
  destruct (negb _); [|done]. split; [|by destruct (is_modified e && _)].
  eapply bar_inv_put; [by autorewrite with bar|auto with bar|]. intros _. cbn. by destruct (_ =? 0).
Qed.

Lemma clean_evict_ok (s s' : CXLBARCoherencyState) (addr : Z) (d : CXLCoherencyDomain) :
  bc_lock s = true -> request_clean_evict s addr d = Some s' -> bar_inv s -> bar_inv s' /\ same_config s s'.
Proof.
  intros Hl H Hi. unfold request_clean_evict in H. destruct (bc_snoop_filter s !! line_of addr) as [e|] eqn:He; [|by injection H as <-].
  destruct (Z.ldiff _ _ =? 0) eqn:E; [by rewrite remove_waits in H|]. injection H as <-. split; [|done].
  eapply bar_inv_put; [done|done|]. intros (_&_&Hm). cbn. split; [done|]. intros Hst. apply Hm in Hst. rewrite Hst in *.
  revert E. destruct d, (se_owner_domain e); vm_compute; congruence.
Qed.

Lemma dirty_evict_ok (s s' : CXLBARCoherencyState) (addr : Z) (d : CXLCoherencyDomain) :
  bc_lock s = true -> request_dirty_evict s addr d = Some s' -> bar_inv s -> bar_inv s' /\ same_config s s'.
Proof.
  intros Hl H Hi. unfold request_dirty_evict in H. destruct (bc_snoop_filter s !! line_of addr) as [e|] eqn:He; [|by injection H as <-].
  case_bool_decide; [|by injection H as <-]. destruct (Z.ldiff _ _ =? 0) eqn:E; [by rewrite remove_waits in H|]. injection H as <-. split; [|done].
  eapply bar_inv_put; [done|auto with bar|done].
Qed.

Lemma request_body_ok (s s' : CXLBARCoherencyState) (req : CXLCoherencyReqType) (addr : Z) (d : CXLCoherencyDomain) (r : CXLCoherencyRspType) :
  bc_lock s = true -> request_body s req addr d = Some (r, s') -> bar_inv s -> bar_inv s' /\ same_config s s'.
Proof.
  intros Hl H Hi. destruct req; cbn in H.
  - by apply (rd_shared_ok _ _ _ _ _ Hl H).
  - by apply (rd_own_ok _ _ _ _ _ Hl H).
  - by injection H as <- <-.
  - by apply (wr_inv_ok _ _ _ _ _ Hl H).
  - by injection H as <- <-.
  - injection H as <- <-. by apply clr_dev_cache_ok.
  - destruct (request_clean_evict s addr d) as [s1|] eqn:E; [|done]. injection H as <- <-. by apply (clean_evict_ok _ _ _ _ Hl E).
  - destruct (request_dirty_evict s addr d) as [s1|] eqn:E; [|done]. injection H as <- <-. by apply (dirty_evict_ok _ _ _ _ Hl E).
Qed.

(** A state between operations. *)
Definition bar_idle (s : CXLBARCoherencyState) : Prop := bar_inv s /\ bc_lock s = false.

Lemma request_idle (s s' : CXLBARCoherencyState) (req : CXLCoherencyReqType) (addr : Z) (d : CXLCoherencyDomain) (r : CXLCoherencyRspType) :
  cxl_bar_coherency_request s req addr d = Some (r, s') -> bar_idle s -> bar_idle s' /\ bc_enabled s' = bc_enabled s.
Proof.
  intros H [Hi Hl]. unfold cxl_bar_coherency_request in H. destruct (bc_enabled s) eqn:En; cbn in H; [|by injection H as <- <-].
  unfold mutex_lock in H. rewrite Hl in H. cbn in H.
  destruct (request_body _ req addr d) as [[r1 s1]|] eqn:E; [|done]. cbn in H. injection H as <- <-.
  destruct (request_body_ok (count coherency_requests (set_lock true s)) _ _ _ _ _ eq_refl E) as [Hi1 [_ He]]; [auto with bar|]. split; [split; [auto with bar|done]|]. by rewrite <- En.
Qed.

Lemma update_idle (s s' : CXLBARCoherencyState) (addr : Z) (st : CXLCoherencyState) (d : CXLCoherencyDomain) :
  cxl_bar_snoop_update s addr st d = Some s' -> bar_idle s -> bar_idle s'.
Proof.
  intros H [Hi Hl]. unfold cxl_bar_snoop_update, mutex_lock in H. rewrite Hl in H. cbn in H.
  destruct (bc_snoop_filter s !! line_of addr) as [e|] eqn:He; injection H as <-; (split; [|done]); [|by auto with bar].
  set (e' := mkEntry _ _ _ _ _ _ _). assert (Hp : bar_inv (put_entry (line_of addr) e' (set_lock true s))).
  { eapply bar_inv_put; [done|auto with bar|]. intros _. unfold e'. cbn. split; [done|]. by intros ->. }
  repeat case_match; auto with bar.
Qed.

Lemma notify_idle (s s' : CXLBARCoherencyState) (addr size : Z) (w : bool) :
  cxl_bar_notify_gpu_access s addr size w = Some s' -> bar_idle s -> bar_idle s'.
Proof.
  intros H [Hi Hl]. unfold cxl_bar_notify_gpu_access in H. destruct (negb (bc_enabled s)); [by injection H as <-|].
  destruct (find_region_for_addr s addr) as [[i r]|]; [|by injection H as <-]. cbv zeta in H. set (s0 := set_regions _ _ s) in H.
  assert (H0 : bar_idle s0) by (split; [unfold s0; auto with bar|done]). destruct w.
  - destruct (cxl_bar_coherency_request s0 _ addr CXL_DOMAIN_GPU) as [[r1 s1]|] eqn:E; [|done]. cbn in H.
    destruct (cxl_bar_snoop_update s1 addr _ CXL_DOMAIN_GPU) as [s2|] eqn:E2; [|done]. cbn in H. injection H as <-.
    apply request_idle in E as [E _]; [|done]. apply update_idle in E2 as [Hi2 Hl2]; [|done]. split; [auto with bar|done].
  - destruct (cxl_bar_coherency_request s0 _ addr CXL_DOMAIN_GPU) as [[r1 s1]|] eqn:E; [|done]. cbn in H. injection H as <-.
    apply request_idle in E as [[Hi1 Hl1] _]; [|done]. split; [auto with bar|done].
Qed.

(** A loop keeps what its body keeps. *)
Lemma line_loop_inv {A} (P : A -> Prop) (step : Z -> A -> option A) (fuel : nat) (a e : Z) (s s' : A) :
  (forall a s s', line_of a = a -> step a s = Some s' -> P s -> P s') ->
  line_of a = a -> line_loop fuel step a e s = Some s' -> P s -> P s'.
Proof.
  intros Hstep. revert a s. induction fuel as [|fuel IH]; intros a s Ha H HP; [done|]. cbn in H.
  destruct (a <? e); [|by injection H as <-]. destruct (step a s) as [s1|] eqn:E; [|done]. cbn in H.
  apply (IH (a ⊞ CXL_CACHE_LINE_SIZE) s1); [|done|by apply (Hstep a s)].
  rewrite line_of_spec in *. assert (Hm : (a ⊞ CXL_CACHE_LINE_SIZE) mod 64 = 0); [|lia].
  rewrite wrap64_mod64. unfold CXL_CACHE_LINE_SIZE. replace (a + 64) with (a + 1 * 64) by lia. rewrite Z.mod_add by lia. lia.
Qed.

Lemma flush_line_ok (a : Z) (s : CXLBARCoherencyState) : bar_inv s -> bar_inv (flush_line a s) /\ same_config s (flush_line a s).
Proof.
  intros Hi. unfold flush_line. destruct (bc_snoop_filter s !! line_of a) as [e|] eqn:He; [|done]. destruct (negb _); [|done].
  split; [|done]. eapply bar_inv_put; [done|auto with bar|done].
Qed.

Lemma bias_line_ok (b a : Z) (s : CXLBARCoherencyState) : line_of a = a -> bar_inv s -> bar_inv (bias_line b a s) /\ same_config s (bias_line b a s).
Proof.
  intros Ha Hi. unfold bias_line. destruct (bc_snoop_filter s !! line_of a) as [e|] eqn:He; (split; [|done]).
  - eapply bar_inv_put; [done|done|]. intros (_&_&Hm). done.
  - apply bar_inv_new; [done|done|]. rewrite Ha. done.
Qed.

Lemma flush_idle (s s' : CXLBARCoherencyState) (addr size : Z) : cxl_bar_cache_flush s addr size = Some s' -> bar_idle s -> bar_idle s'.
Proof.
  intros H [Hi Hl]. unfold cxl_bar_cache_flush, mutex_lock in H. destruct (negb _); [by injection H as <-|]. rewrite Hl in H. cbn [mbind option_bind] in H.
  destruct (for_lines _ addr size _) as [s1|] eqn:E; [|done]. injection H as <-. split; [|done]. apply bar_inv_lock.
  eapply (line_loop_inv bar_inv); [|by apply line_of_idem|exact E|by auto with bar]. intros a s2 s3 _ [= <-] H2. by apply flush_line_ok.
Qed.

Lemma set_bias_idle (s s' : CXLBARCoherencyState) (addr size b : Z) : cxl_bar_set_bias s addr size b = Some s' -> bar_idle s -> bar_idle s'.
Proof.
  intros H [Hi Hl]. unfold cxl_bar_set_bias, mutex_lock in H. rewrite Hl in H. cbn [mbind option_bind] in H.
  destruct (for_lines _ addr size _) as [s1|] eqn:E; [|done]. injection H as <-. split; [|done]. apply bar_inv_lock.
  eapply (line_loop_inv bar_inv); [|by apply line_of_idem|exact E|by auto with bar]. intros a s2 s3 Ha [= <-] H2. by apply bias_line_ok.
Qed.

Lemma clear_lines_idle (s s' : CXLBARCoherencyState) (d : CXLCoherencyDomain) (addr size : Z) :
  for_lines (clear_line d) addr size s = Some s' -> bar_idle s -> bar_idle s'.
Proof.
  intros H. eapply (line_loop_inv bar_idle); [|by apply line_of_idem|exact H]. intros a s1 s2 _ H1 H2. unfold clear_line in H1.
  destruct (cxl_bar_coherency_request s1 _ a d) as [[r s3]|] eqn:E; [|done]. injection H1 as <-. by apply request_idle in E as [? _].
Qed.

Lemma flip_idle (s s' : CXLBARCoherencyState) (addr size b : Z) : cxl_bar_bias_flip s addr size b = Some s' -> bar_idle s -> bar_idle s'.
Proof.
  intros H Hs. unfold cxl_bar_bias_flip in H.
  assert (Hstep : forall s1, (if b =? CXL_BIAS_MODE_DEVICE then s ← cxl_bar_cache_flush s addr size; for_lines (clear_line CXL_DOMAIN_CPU) addr size s
                    else for_lines (clear_line CXL_DOMAIN_GPU) addr size s) = Some s1 -> bar_idle s1).
  { intros s1 H1. destruct (b =? _); [|by apply (clear_lines_idle _ _ _ _ _ H1)].
    destruct (cxl_bar_cache_flush s addr size) as [s2|] eqn:E; [|done]. apply (clear_lines_idle _ _ _ _ _ H1). by apply (flush_idle _ _ _ _ E). }
  destruct (if b =? _ then _ else _) as [s1|]; [|done]. specialize (Hstep s1 eq_refl). cbn [mbind option_bind] in H.
  destruct (cxl_bar_set_bias s1 addr size b) as [s2|] eqn:E2; [|done]. apply set_bias_idle in E2 as [Hi2 Hl2]; [|done]. cbn [mbind option_bind] in H.
  unfold mutex_lock in H. rewrite Hl2 in H. injection H as <-. split; [auto with bar|done].
Qed.

Lemma bar_step_idle (s s' : CXLBARCoherencyState) (o : bar_op) : bar_step s o = Some s' -> bar_idle s -> bar_idle s'.
Proof.
  destruct o; cbn [bar_step]; intros H Hs.
  - destruct (cxl_bar_coherency_request s req addr source) as [[r s1]|] eqn:E; [|done]. injection H as <-. by apply request_idle in E as [? _].
  - by apply (notify_idle _ _ _ _ _ H).
  - destruct Hs as [Hi Hl]. unfold cxl_bar_snoop_lookup, mutex_lock in H. rewrite Hl in H. injection H as <-. split; [|done]. auto with bar.
  - by apply (update_idle _ _ _ _ _ H).
  - destruct Hs as [Hi Hl]. unfold cxl_bar_snoop_remove, mutex_lock in H. rewrite Hl in H. cbn in H.
    destruct (bc_snoop_filter s !! line_of addr) as [e|] eqn:He; injection H as <-; (split; [|done]); [|auto with bar].
    apply bar_inv_lock, bar_inv_count. apply (bar_inv_delete (line_of addr) e (set_lock true s)); [done|auto with bar].
  - destruct Hs as [Hi Hl]. unfold cxl_bar_memory_fence, mutex_lock in H. destruct (negb _); [by injection H as <-|]. rewrite Hl in H. injection H as <-.
    split; [auto with bar|done].
  - by apply (flush_idle _ _ _ _ H).
  - by apply (set_bias_idle _ _ _ _ _ H).
  - by apply (flip_idle _ _ _ _ _ H).
  - injection H as <-. destruct Hs. split; [unfold cxl_bar_back_invalidate; auto with bar|done].
  - destruct Hs as [Hi Hl]. unfold cxl_bar_coherency_add_region, mutex_lock in H. rewrite Hl in H. cbn in H.
    destruct (_ <=? _); [injection H as <-; split; [auto with bar|done]|].
    destruct (region_slot _ _ _ _) as [slot|]; injection H as <-; (split; [|done]); [|auto with bar].
    apply bar_inv_lock. apply (bar_inv_region slot _ _ (set_lock true s)). auto with bar.
  - destruct Hs as [Hi Hl]. unfold cxl_bar_coherency_remove_region, mutex_lock in H. rewrite Hl in H. cbn in H.
    destruct (list_find _ _) as [[i r]|]; injection H as <-; (split; [|done]); [|auto with bar].
    apply bar_inv_lock. apply (bar_inv_region i _ _ (set_lock true s)). auto with bar.
Qed.

Lemma reachable_idle (s : CXLBARCoherencyState) : bar_reachable s -> bar_idle s.
Proof.
  induction 1 as [|s o s' _ IH H]; [|by apply (bar_step_idle _ _ _ H)].
  split; [|done]. constructor; [|done|done]. intros a e He. cbn in He. by rewrite lookup_empty in He.
Qed.

(** In every reachable state the mutex is free between operations, the counter of entries is the
    size of the filter in 32 bits, entries are for aligned lines, and a modified line is held by
    its owner and by no other domain. *)
Theorem bar_reachable_ok (s : CXLBARCoherencyState) (H : bar_reachable s) :
  bc_lock s = false /\ bc_snoop_filter_size s = wrap32 (Z.of_nat (size (bc_snoop_filter s))) /\
  (forall a e, bc_snoop_filter s !! a = Some e -> a mod 64 = 0 /\ se_addr e = a) /\
  (forall a e d, bc_snoop_filter s !! a = Some e -> se_state e = CXL_COHERENCY_MODIFIED -> holds e d = bool_decide (d = se_owner_domain e)).
Proof.
  destruct (reachable_idle s H) as [[Hent Hsz _] Hl]. split_and!; [done|done| |].
  - intros a e He. destruct (Hent a e He) as (Ha&?&_). split; [|done]. rewrite <- Ha. apply line_of_aligned.
  - intros a e d He Hm. destruct (Hent a e He) as (_&_&Hmask). unfold holds. rewrite (Hmask Hm). apply testbit_domain_bit.
Qed.

(** ** Which requests return *)
Definition request_returns (req : CXLCoherencyReqType) (source : CXLCoherencyDomain) (entry : option CXLSnoopEntry) : bool :=
  match req, entry with
  | (CXL_COH_REQ_RD_SHARED | CXL_COH_REQ_RD_OWN | CXL_COH_REQ_WR_INV), None => false
  | CXL_COH_REQ_CLEAN_EVICT, Some e => negb (Z.ldiff (se_domain_mask e) (domain_bit source) =? 0)
  | CXL_COH_REQ_DIRTY_EVICT, Some e => negb (bool_decide (se_owner_domain e = source)) || negb (Z.ldiff (se_domain_mask e) (domain_bit source) =? 0)
  | _, _ => true
  end.

Lemma request_body_returns (s : CXLBARCoherencyState) (req : CXLCoherencyReqType) (addr : Z) (d : CXLCoherencyDomain) :
  bc_lock s = true -> is_Some (request_body s req addr d) <-> request_returns req d (bc_snoop_filter s !! line_of addr) = true.
Proof.
  intros Hl. destruct req; cbn; unfold request_rd_shared, request_rd_own, request_wr_inv, request_clean_evict, request_dirty_evict, request_returns;
    destruct (bc_snoop_filter s !! line_of addr) as [e|] eqn:He; rewrite ?insert_waits by done; try (split; [done|by eauto]); try (split; [by intros []|done]).
  - destruct (Z.ldiff _ _ =? 0); cbn; [rewrite remove_waits by done|]; (split; [by intros []|eauto]). done.
  - case_bool_decide; cbn; [|split; eauto]. destruct (Z.ldiff _ _ =? 0); cbn; [rewrite remove_waits by done|]; (split; [by intros []|eauto]). done.
Qed.

Lemma request_waits_or_returns (s : CXLBARCoherencyState) (req : CXLCoherencyReqType) (addr : Z) (d : CXLCoherencyDomain) :
  bar_idle s -> bc_enabled s = true ->
  is_Some (cxl_bar_coherency_request s req addr d) <-> request_returns req d (bc_snoop_filter s !! line_of addr) = true.
Proof.
  intros [_ Hl] He. rewrite <- (request_body_returns (count coherency_requests (set_lock true s)) req addr d eq_refl).
  unfold cxl_bar_coherency_request, mutex_lock. rewrite He, Hl. cbn.
  destruct (request_body _ req addr d) as [[r s1]|]; cbn; split; intros []; eauto.
Qed.

(** A request returns unless it has to add the line to the filter or take it out: those two take
    the mutex that the request holds.  So reads, reads for ownership and writes of a line that
    the filter does not have never return, nor does the eviction by the last holder. *)
Theorem request_returns_iff (s : CXLBARCoherencyState) (req : CXLCoherencyReqType) (addr : Z) (source : CXLCoherencyDomain)
  (Hr : bar_reachable s) (He : bc_enabled s = true) :
  is_Some (cxl_bar_coherency_request s req addr source) <-> request_returns req source (bc_snoop_filter s !! line_of addr) = true.
Proof. apply request_waits_or_returns; [by apply reachable_idle|done]. Qed.

(** ** What a request does to its line *)
Definition line_after (req : CXLCoherencyReqType) (source : CXLCoherencyDomain) (e e' : CXLSnoopEntry) : Prop :=
  match req with
  | CXL_COH_REQ_RD_SHARED =>
      se_state e' = (if is_modified e then CXL_COHERENCY_SHARED else se_state e) /\
      (forall d, holds e' d = holds e d || bool_decide (d = source))
  | CXL_COH_REQ_RD_OWN =>
      se_state e' = CXL_COHERENCY_EXCLUSIVE /\ se_owner_domain e' = source /\ (forall d, holds e' d = bool_decide (d = source))
  | CXL_COH_REQ_WR_INV =>
      se_state e' = CXL_COHERENCY_MODIFIED /\ se_owner_domain e' = source /\ dirty e' = true /\ (forall d, holds e' d = bool_decide (d = source))
  | CXL_COH_REQ_CLR_DEV_CACHE => forall d, holds e' d = holds e d && bool_decide (d <> CXL_DOMAIN_GPU)
  | CXL_COH_REQ_CLEAN_EVICT => se_state e' = se_state e /\ (forall d, holds e' d = holds e d && bool_decide (d <> source))
  | CXL_COH_REQ_DIRTY_EVICT =>
      if bool_decide (se_owner_domain e = source)
      then se_state e' = CXL_COHERENCY_SHARED /\ dirty e' = false /\ (forall d, holds e' d = holds e d && bool_decide (d <> source))
      else e' = e
  | CXL_COH_REQ_RD_ANY | CXL_COH_REQ_WR_CUR => e' = e
  end.

(** The filter after a body that returned is the old one with the line's entry replaced. *)
Definition line_step (req : CXLCoherencyReqType) (source : CXLCoherencyDomain) (a : Z) (m m' : gmap Z CXLSnoopEntry) : Prop :=
  match m !! a with
  | None => m' = m
  | Some e => exists e', m' = <[a := e']> m /\ line_after req source e e' /\ se_bias_mode e' = se_bias_mode e
  end.

Lemma line_step_same (req : CXLCoherencyReqType) (source : CXLCoherencyDomain) (a : Z) (m : gmap Z CXLSnoopEntry) (e : CXLSnoopEntry) :
  m !! a = Some e -> line_after req source e e -> line_step req source a m m.
Proof. intros He Hl. unfold line_step. rewrite He. exists e. by rewrite insert_id. Qed.

Lemma dirty_lor (f : Z) : Z.testbit (Z.lor f CXL_SNOOP_FLAG_DIRTY) 0 = true.
Proof. rewrite Z.lor_spec. apply orb_true_r. Qed.

Lemma dirty_ldiff (f : Z) : Z.testbit (Z.ldiff f CXL_SNOOP_FLAG_DIRTY) 0 = false.
Proof. rewrite Z.ldiff_spec. apply andb_false_r. Qed.

Lemma request_body_line (s s' : CXLBARCoherencyState) (req : CXLCoherencyReqType) (addr : Z) (d : CXLCoherencyDomain) (r : CXLCoherencyRspType) :
  bc_lock s = true -> request_body s req addr d = Some (r, s') ->
  line_step req d (line_of addr) (bc_snoop_filter s) (bc_snoop_filter s').
Proof.
  intros Hl H. unfold line_step. destruct req; cbn in H;
    unfold request_rd_shared, request_rd_own, request_wr_inv, request_clr_dev_cache, request_clean_evict, request_dirty_evict in H;
    destruct (bc_snoop_filter s !! line_of addr) as [e|] eqn:He; rewrite ?insert_waits in H by done; try done;
    try (injection H as <- <-); try done; try (exists e; by rewrite insert_id).
  - eexists. split; [by destruct (device_bias_hit e d), (host_bias_hit e d); autorewrite with bar|].
    cbn [line_after]. destruct (is_modified e); (split; [split; [done|intros d'; apply testbit_lor_bit]|done]).
  - destruct (device_bias_hit e d); [|case_bool_decide]; (eexists; split; [by autorewrite with bar|]);
      (split; [|done]); (split; [done|]); (split; [by cbn; naive_solver|intros d'; apply testbit_domain_bit]).
  - eexists. split; [by destruct (bool_decide (se_owner_domain e <> d) && _); autorewrite with bar|].
    split; [|done]. split_and!; [done|done|apply dirty_lor|intros d'; apply testbit_domain_bit].
  - rewrite land_bit_zero, negb_involutive. destruct (Z.testbit _ _) eqn:E.
    + eexists. split; [by autorewrite with bar|]. split; [|done]. intros d'. apply testbit_ldiff_bit.
    + exists e. rewrite insert_id by done. split; [done|]. split; [|done]. intros d'. case_bool_decide as Hd; [by rewrite andb_true_r|].
      subst d'. rewrite andb_false_r. done.
  - destruct (Z.ldiff _ _ =? 0); [by rewrite remove_waits in H|]. cbn in H. injection H as <- <-.
    eexists. split; [by autorewrite with bar|]. split; [|done]. split; [done|]. intros d'. apply testbit_ldiff_bit.
  - cbn. case_bool_decide as Ho; [|cbn in H; injection H as <- <-; exists e; by rewrite insert_id].
    destruct (Z.ldiff _ _ =? 0); [by rewrite remove_waits in H|]. cbn in H. injection H as <- <-.
    eexists. split; [by autorewrite with bar|]. split; [|done]. split_and!; [done|apply dirty_ldiff|]. intros d'. apply testbit_ldiff_bit.
Qed.

(** A request that returns replaces at most the entry of its line, in the way of the protocol: a
    read adds the source to the holders and ends a modified state; a read for ownership and a
    write leave the source as the only holder; evictions and clearing the device cache take
    a holder away. *)
Theorem request_line (s s' : CXLBARCoherencyState) (req : CXLCoherencyReqType) (addr : Z) (source : CXLCoherencyDomain) (rsp : CXLCoherencyRspType)
  (Hr : bar_reachable s) (He : bc_enabled s = true) (H : cxl_bar_coherency_request s req addr source = Some (rsp, s')) :
  line_step req source (line_of addr) (bc_snoop_filter s) (bc_snoop_filter s').
Proof.
  destruct (reachable_idle s Hr) as [_ Hl]. unfold cxl_bar_coherency_request, mutex_lock in H. rewrite He, Hl in H. cbn in H.
  destruct (request_body _ req addr source) as [[r s1]|] eqn:E; [|done]. cbn in H. injection H as <- <-.
  exact (request_body_line (count coherency_requests (set_lock true s)) s1 req addr source r eq_refl E).
Qed.

(** ** Loops over lines *)
Lemma next_line (a e : Z) : line_of a = a -> line_of e = e -> 0 <= a -> a < e -> e < 2 ^ 64 ->
  a ⊞ CXL_CACHE_LINE_SIZE = a + 64 /\ line_of (a + 64) = a + 64 /\ a + 64 <= e.
Proof.
  rewrite !line_of_spec. intros Ha He H0 Hlt Htop. unfold CXL_CACHE_LINE_SIZE.
  assert (a + 64 <= e) by (Z.to_euclidean_division_equations; lia). rewrite wrap64_small by (unfold u64; lia).
  split_and!; [done| |done]. Z.to_euclidean_division_equations; lia.
Qed.

(** With enough fuel a loop whose body returns does, and it runs the body on the lines in turn. *)
Lemma line_loop_rule {A} (P : Z -> A -> Prop) (step : Z -> A -> option A) (fuel : nat) (a e : Z) (s : A) :
  line_of a = a -> line_of e = e -> 0 <= a -> e < 2 ^ 64 -> e - a < 64 * Z.of_nat fuel -> 0 < Z.of_nat fuel ->
  (forall x s, line_of x = x -> a <= x -> x < e -> P x s -> exists s', step x s = Some s' /\ P (x + 64) s') ->
  P a s -> exists s', line_loop fuel step a e s = Some s' /\ P (Z.max a e) s'.
Proof.
  intros Ha He H0 Htop. revert a s Ha H0. induction fuel as [|fuel IH]; intros a s Ha H0 Hf Hf0 Hstep HP; [lia|]. cbn.
  destruct (a <? e) eqn:E; zify_bool; [|exists s; split; [done|]; by rewrite Z.max_l by lia].
  destruct (next_line a e Ha He H0 E Htop) as (N1&N2&N3). destruct (Hstep a s Ha ltac:(lia) E HP) as (s1&->&HP1). cbn. rewrite N1.
  destruct fuel as [|fuel']; [lia|]. destruct (IH (a + 64) s1 N2 ltac:(lia) ltac:(lia) ltac:(lia)) as (s2&Hs2&HP2); [|done|].
  - intros x s0 Hx Hle Hlt Hp. apply Hstep; [done|lia..|done].
  - exists s2. split; [exact Hs2|]. by rewrite Z.max_r in HP2 |- * by lia.
Qed.

Lemma aligned_end_spec (addr size : Z) : line_of (aligned_end addr size) = aligned_end addr size /\ 0 <= aligned_end addr size < 2 ^ 64.
Proof.
  unfold aligned_end. rewrite line_of_idem. split; [done|]. pose proof (wrap64_range (addr ⊞ size + (CXL_CACHE_LINE_SIZE - 1))) as H. unfold u64 in H.
  pose proof (line_of_le (addr ⊞ size ⊞ (CXL_CACHE_LINE_SIZE - 1))). pose proof (line_of_nonneg (addr ⊞ size ⊞ (CXL_CACHE_LINE_SIZE - 1))). lia.
Qed.

Lemma for_lines_rule {A} (P : Z -> A -> Prop) (step : Z -> A -> option A) (addr size : Z) (s : A) :
  0 <= addr ->
  (forall x s, line_of x = x -> line_of addr <= x -> x < aligned_end addr size -> P x s -> exists s', step x s = Some s' /\ P (x + 64) s') ->
  P (line_of addr) s -> exists s', for_lines step addr size s = Some s' /\ P (Z.max (line_of addr) (aligned_end addr size)) s'.
Proof.
  intros H0 Hstep HP. destruct (aligned_end_spec addr size) as [He [He0 He1]]. pose proof (line_of_nonneg addr H0).
  apply line_loop_rule; [apply line_of_idem|done|done|done| |lia|done|done].
  set (e := aligned_end addr size) in *. assert (e < 64 * (e / 64 + 1)) by (Z.to_euclidean_division_equations; lia).
  rewrite Nat2Z.inj_succ, Z2Nat.id; [lia|]. apply Z.div_pos; lia.
Qed.

(** The bias that the filter gives an address. *)
Definition bias_of (s : CXLBARCoherencyState) (x : Z) : Z := from_option se_bias_mode CXL_BIAS_MODE_HOST (bc_snoop_filter s !! line_of x).

Lemma bias_line_lookup (b a x : Z) (s : CXLBARCoherencyState) :
  bias_of (bias_line b a s) x = (if decide (line_of x = line_of a) then b else bias_of s x) /\
  (is_Some (bc_snoop_filter (bias_line b a s) !! line_of x) <-> line_of x = line_of a \/ is_Some (bc_snoop_filter s !! line_of x)).
Proof.
  unfold bias_of, bias_line. destruct (bc_snoop_filter s !! line_of a) as [e|] eqn:E; cbn;
    (destruct (decide (line_of x = line_of a)) as [->|Hne]; [rewrite lookup_insert_eq|rewrite lookup_insert_ne by done]);
    (split; [done|split; [intros; eauto|]]); [by eauto|intros [|]; done|by eauto|intros [|]; done].
Qed.

Lemma set_bias_spec (s : CXLBARCoherencyState) (addr size b : Z) :
  bc_lock s = false -> 0 <= addr ->
  exists s', cxl_bar_set_bias s addr size b = Some s' /\ bc_lock s' = false /\ bc_enabled s' = bc_enabled s /\
    (forall x, bias_of s' x = if decide (line_of addr <= line_of x < aligned_end addr size) then b else bias_of s x) /\
    (forall x, is_Some (bc_snoop_filter s' !! line_of x) <-> line_of addr <= line_of x < aligned_end addr size \/ is_Some (bc_snoop_filter s !! line_of x)).
Proof.
  intros Hl H0. unfold cxl_bar_set_bias, mutex_lock. rewrite Hl. cbn [mbind option_bind].
  set (P := fun (a : Z) (s1 : CXLBARCoherencyState) => bc_enabled s1 = bc_enabled s /\
    (forall x, bias_of s1 x = if decide (line_of addr <= line_of x < a) then b else bias_of s x) /\
    (forall x, is_Some (bc_snoop_filter s1 !! line_of x) <-> line_of addr <= line_of x < a \/ is_Some (bc_snoop_filter s !! line_of x))).
  destruct (for_lines_rule P (fun a s => Some (bias_line b a s)) addr size (set_lock true s) H0) as (s1&->&He&Hb&Hf).
  - intros x s1 Hx Hlo Hhi (He&Hb&Hf). eexists. split; [done|]. split; [|split].
    + rewrite <- He. unfold bias_line. by destruct (_ !! _).
    + intros y. destruct (bias_line_lookup b x y s1) as [-> _]. rewrite Hb, Hx. pose proof (line_of_aligned y) as Hy. pose proof (line_of_aligned x). rewrite Hx in *.
      repeat case_decide; try done; exfalso; Z.to_euclidean_division_equations; lia.
    + intros y. destruct (bias_line_lookup b x y s1) as [_ ->]. rewrite Hf, Hx. pose proof (line_of_aligned y) as Hy. pose proof (line_of_aligned x). rewrite Hx in *.
      assert (line_of y = x \/ line_of addr <= line_of y < x <-> line_of addr <= line_of y < x + 64) as <- by (Z.to_euclidean_division_equations; lia). tauto.
  - split; [done|]. split; intros x.
    + case_decide; [lia|done].
    + intuition lia.
  - cbn. exists (mutex_unlock s1). split; [done|]. split; [done|]. split; [done|].
    assert (Hmax : forall x, line_of addr <= line_of x < Z.max (line_of addr) (aligned_end addr size) <-> line_of addr <= line_of x < aligned_end addr size) by lia.
    split; intros x; [|by rewrite <- Hmax, <- Hf].
    change (bias_of (mutex_unlock s1) x) with (bias_of s1 x). rewrite Hb. repeat case_decide; try done; exfalso; specialize (Hmax x); tauto.
Qed.

(** The bias that a command sets for a range is the one that is read back for every address of
    the range, and those of other lines stay; setting it returns for all arguments. *)
Theorem bias_set_get (s : CXLBARCoherencyState) (addr size b : Z)
  (Hr : bar_reachable s) (Ha : 0 <= addr) (Hs : 0 <= size) (Htop : addr + size + 63 < 2 ^ 64) :
  exists s', cxl_bar_set_bias s addr size b = Some s' /\
    (forall x, addr <= x < addr + size -> fst <$> cxl_bar_get_bias s' x = Some b) /\
    (forall x, line_of x + 64 <= addr \/ addr + size <= line_of x -> fst <$> cxl_bar_get_bias s' x = fst <$> cxl_bar_get_bias s x).
Proof.
  destruct (reachable_idle s Hr) as [_ Hl]. destruct (set_bias_spec s addr size b Hl Ha) as (s'&Hset&Hl'&_&Hb&_). exists s'. split; [done|].
  assert (Hend : aligned_end addr size = line_of (addr + size + 63)).
  { unfold aligned_end, CXL_CACHE_LINE_SIZE. rewrite (wrap64_small (addr + size)) by (unfold u64; lia). rewrite wrap64_small by (unfold u64; lia). done. }
  assert (Hget : forall t x, bc_lock t = false -> fst <$> cxl_bar_get_bias t x = Some (bias_of t x)).
  { intros t x Ht. unfold cxl_bar_get_bias, mutex_lock. by rewrite Ht. }
  split; intros x Hx; rewrite !Hget, Hb, Hend, !line_of_spec in * by done.
  - rewrite decide_True; [done|]. Z.to_euclidean_division_equations. lia.
  - rewrite decide_False; [done|]. Z.to_euclidean_division_equations. lia.
Qed.

(** ** The filter stays empty without bias commands *)
Definition is_bias_op (o : bar_op) : bool := match o with OpSetBias _ _ _ | OpFlip _ _ _ => true | _ => false end.

Fixpoint bar_run (s : CXLBARCoherencyState) (os : list bar_op) : option CXLBARCoherencyState :=
  match os with
  | [] => Some s
  | o :: os' => s1 ← bar_step s o; bar_run s1 os'
  end.

Lemma request_empty (s s' : CXLBARCoherencyState) (req : CXLCoherencyReqType) (addr : Z) (d : CXLCoherencyDomain) (r : CXLCoherencyRspType) :
  bar_idle s -> bc_snoop_filter s = ∅ -> cxl_bar_coherency_request s req addr d = Some (r, s') -> bc_snoop_filter s' = ∅.
Proof.
  intros [_ Hl] He H. unfold cxl_bar_coherency_request, mutex_lock in H. destruct (bc_enabled s); cbn in H; [|by injection H as <- <-].
  rewrite Hl in H. cbn in H. destruct (request_body _ req addr d) as [[r1 s1]|] eqn:E; [|done]. cbn in H. injection H as <- <-.
  apply (request_body_line (count coherency_requests (set_lock true s))) in E; [|done]. unfold line_step in E. cbn in E.
  rewrite He, lookup_empty in E. done.
Qed.

Lemma flush_empty (fuel : nat) (a e : Z) (s s' : CXLBARCoherencyState) :
  bc_snoop_filter s = ∅ -> line_loop fuel (fun a s => Some (flush_line a s)) a e s = Some s' -> bc_snoop_filter s' = ∅.
Proof.
  revert a. induction fuel as [|fuel IH]; intros a He H; [done|]. cbn in H. destruct (a <? e); [|by injection H as <-].
  unfold flush_line in H at 2. rewrite He, lookup_empty in H. cbn in H. by apply (IH _ He H).
Qed.

Lemma bar_step_empty (s s' : CXLBARCoherencyState) (o : bar_op) :
  bar_idle s -> bc_snoop_filter s = ∅ -> is_bias_op o = false -> bar_step s o = Some s' -> bc_snoop_filter s' = ∅.
Proof.
  intros Hi He Ho H. pose proof Hi as [_ Hl]. destruct o; cbn [bar_step] in H; try done; clear Ho.
  - destruct (cxl_bar_coherency_request s req addr source) as [[r s1]|] eqn:E; [|done]. injection H as <-. by apply (request_empty _ _ _ _ _ _ Hi He E).
  - unfold cxl_bar_notify_gpu_access in H. destruct (negb _); [by injection H as <-|]. destruct (find_region_for_addr s addr) as [[i r]|]; [|by injection H as <-].
    cbv zeta in H. set (s0 := set_regions _ _ s) in H. assert (H0 : bar_idle s0) by (destruct Hi; split; [unfold s0; auto with bar|done]).
    destruct is_write.
    + destruct (cxl_bar_coherency_request s0 _ addr _) as [[r1 s1]|] eqn:E; [|done]. cbn in H.
      pose proof (request_empty _ _ _ _ _ _ H0 He E) as H1. apply request_idle in E as [[_ L1] _]; [|done].
      unfold cxl_bar_snoop_update, mutex_lock in H. rewrite L1 in H. cbn in H. rewrite H1, lookup_empty in H. by injection H as <-.
    + destruct (cxl_bar_coherency_request s0 _ addr _) as [[r1 s1]|] eqn:E; [|done]. cbn in H. injection H as <-. by apply (request_empty _ _ _ _ _ _ H0 He E).
  - unfold cxl_bar_snoop_lookup, mutex_lock in H. rewrite Hl in H. by injection H as <-.
  - unfold cxl_bar_snoop_update, mutex_lock in H. rewrite Hl in H. cbn in H. rewrite He, lookup_empty in H. by injection H as <-.
  - unfold cxl_bar_snoop_remove, mutex_lock in H. rewrite Hl in H. cbn in H. rewrite He, lookup_empty in H. by injection H as <-.
  - unfold cxl_bar_memory_fence, mutex_lock in H. rewrite Hl in H. destruct (negb _); by injection H as <-.
  - unfold cxl_bar_cache_flush, mutex_lock in H. rewrite Hl in H. destruct (negb _); [by injection H as <-|]. cbn [mbind option_bind] in H.
    destruct (for_lines _ addr size _) as [s1|] eqn:E; [|done]. injection H as <-. by apply (flush_empty _ _ _ (set_lock true s) _ He E).
  - by injection H as <-.
  - unfold cxl_bar_coherency_add_region, mutex_lock in H. rewrite Hl in H. cbn in H. destruct (_ <=? _); [by injection H as <-|]. destruct (region_slot _ _ _ _); by injection H as <-.
  - unfold cxl_bar_coherency_remove_region, mutex_lock in H. rewrite Hl in H. cbn in H. destruct (list_find _ _) as [[]|]; by injection H as <-.
Qed.

(** Without a bias command no line ever enters the filter: after any operations that returned,
    every read, read for ownership and write of any address waits for ever. *)
Theorem untracked_access_waits (os : list bar_op) (s : CXLBARCoherencyState) (req : CXLCoherencyReqType) (addr : Z) (source : CXLCoherencyDomain)
  (Hos : Forall (fun o => is_bias_op o = false) os) (Hrun : bar_run cxl_bar_coherency_init os = Some s) (He : bc_enabled s = true)
  (Hreq : req ∈ [CXL_COH_REQ_RD_SHARED; CXL_COH_REQ_RD_OWN; CXL_COH_REQ_WR_INV]) :
  bc_snoop_filter s = ∅ /\ cxl_bar_coherency_request s req addr source = None.
Proof.
  assert (H : bar_idle s /\ bc_snoop_filter s = ∅).
  { assert (Hstart : bar_idle cxl_bar_coherency_init /\ bc_snoop_filter cxl_bar_coherency_init = ∅) by (split; [apply reachable_idle; constructor|done]).
    revert Hstart Hrun. generalize cxl_bar_coherency_init. induction Hos as [|o os Ho Hos IH]; intros s0 [Hi0 He0] Hrun; [by injection Hrun as <-|].
    cbn in Hrun. destruct (bar_step s0 o) as [s1|] eqn:E; [|done]. cbn in Hrun. apply (IH s1); [|done].
    split; [by apply (bar_step_idle _ _ _ E)|by apply (bar_step_empty _ _ _ Hi0 He0 Ho E)]. }
  destruct H as [Hi Hem]. split; [done|]. apply eq_None_not_Some. rewrite request_waits_or_returns, Hem, lookup_empty by done.
  repeat (apply elem_of_cons in Hreq as [->|Hreq]; [done|]). by apply not_elem_of_nil in Hreq.
Qed.

(** ** Defects *)

(** A read of a line that another domain owns exclusively adds the reader and leaves the state:
    the line is exclusive and has two holders. *)
Theorem exclusive_shared (s : CXLBARCoherencyState) (addr : Z) (e : CXLSnoopEntry) (d d' : CXLCoherencyDomain)
  (Hr : bar_reachable s) (He : bc_enabled s = true) (Hl : bc_snoop_filter s !! line_of addr = Some e) (Hd : d <> d') :
  exists s1 s2 e2,
    cxl_bar_coherency_request s CXL_COH_REQ_RD_OWN addr d = Some (CXL_COH_RSP_E, s1) /\
    cxl_bar_coherency_request s1 CXL_COH_REQ_RD_SHARED addr d' = Some (CXL_COH_RSP_S, s2) /\
    bc_snoop_filter s2 !! line_of addr = Some e2 /\
    se_state e2 = CXL_COHERENCY_EXCLUSIVE /\ se_owner_domain e2 = d /\ holds e2 d = true /\ holds e2 d' = true.
Proof.
  destruct (reachable_idle s Hr) as [_ Hf]. unfold cxl_bar_coherency_request at 1, mutex_lock. rewrite He, Hf. cbn.
  unfold request_rd_own. cbn [bc_snoop_filter count set_lock set_stats]. rewrite Hl. cbn [mbind option_bind].
  set (s1 := mutex_unlock _). exists s1.
  assert (H1 : exists e1, bc_snoop_filter s1 !! line_of addr = Some e1 /\ se_state e1 = CXL_COHERENCY_EXCLUSIVE /\ se_owner_domain e1 = d /\ holds e1 d = true).
  { unfold s1, mutex_unlock, set_lock. cbn [bc_snoop_filter]. rewrite count_if_filter. unfold holds.
    destruct (device_bias_hit e d); [|case_bool_decide as Ho]; rewrite put_entry_filter, lookup_insert_eq; eexists; (split; [done|]); cbn;
      rewrite testbit_domain_bit, bool_decide_true by done; (split_and!; [done| |done]); done. }
  assert (E1 : bc_lock s1 = false /\ bc_enabled s1 = true).
  { split; [done|]. rewrite <- He. unfold s1. destruct (device_bias_hit e d), (host_bias_hit e d), (bool_decide (se_owner_domain e <> d)), (is_modified e); done. }
  destruct H1 as (e1&Hl1&Hs1&Ho1&Hh1). destruct E1 as [Hf1 He1]. clearbody s1.
  unfold cxl_bar_coherency_request, mutex_lock. rewrite He1, Hf1. cbn. unfold request_rd_shared. cbn [bc_snoop_filter count set_lock set_stats]. rewrite Hl1.
  assert (is_modified e1 = false) as -> by (unfold is_modified; rewrite Hs1; done). cbn [mbind option_bind].
  eexists _, _. split; [done|]. split; [done|]. unfold mutex_unlock, set_lock. cbn [bc_snoop_filter].
  split; [destruct (device_bias_hit e1 d'), (host_bias_hit e1 d'); apply lookup_insert_eq|]. unfold holds in *. cbn. rewrite !testbit_lor_bit, Hh1, (bool_decide_true (d' = d')) by done.
  split_and!; [done|done|done|apply orb_true_r].
Qed.

Lemma list_find_head {A} (P : A -> Prop) `{forall x, Decision (P x)} (x : A) (l : list A) : P x -> list_find P (x :: l) = Some (0%nat, x).
Proof. intros Hx. cbn. by rewrite decide_True. Qed.

(** A device whose regions were never removed counts none of them; after the first removal the
    count is [2^32 - 1] and no region can be added, though every slot is free. *)
Theorem region_count_wraps (bar_index base_addr size : Z) (gpu cpu : bool) :
  exists s1 s2,
    cxl_bar_coherency_add_region cxl_bar_coherency_init bar_index base_addr size gpu cpu = Some (0, s1) /\ bc_num_regions s1 = 0 /\
    cxl_bar_coherency_remove_region s1 bar_index = Some s2 /\ bc_num_regions s2 = 2 ^ 32 - 1 /\
    Forall (fun r => rg_active r = false) (bc_regions s2) /\
    (forall i b n g c, cxl_bar_coherency_add_region s2 i b n g c = Some (-1, s2)).
Proof.
  eexists _, _. split; [reflexivity|]. split; [reflexivity|]. split.
  { unfold cxl_bar_coherency_remove_region. cbn [mutex_lock bc_lock mutex_unlock set_lock set_regions mbind option_bind bc_regions].
    change (<[0%nat := ?r]> _) with (r :: replicate 15 region_new). rewrite list_find_head by (cbn; by rewrite Z.eqb_refl). reflexivity. }
  split; [reflexivity|]. split; [repeat constructor|]. intros. reflexivity.
Qed.

Lemma request_other_lines (s s' : CXLBARCoherencyState) (req : CXLCoherencyReqType) (addr a : Z) (d : CXLCoherencyDomain) (r : CXLCoherencyRspType) :
  bar_idle s -> cxl_bar_coherency_request s req addr d = Some (r, s') -> a <> line_of addr -> bc_snoop_filter s' !! a = bc_snoop_filter s !! a.
Proof.
  intros [_ Hl] H Ha. unfold cxl_bar_coherency_request, mutex_lock in H. destruct (bc_enabled s); cbn in H; [|by injection H as <- <-].
  rewrite Hl in H. cbn in H. destruct (request_body _ req addr d) as [[r2 s2]|] eqn:E; [|done]. injection H as <- <-.
  apply request_body_line in E; [|done]. unfold line_step in E. cbn in E |- *.
  destruct (bc_snoop_filter s !! line_of addr); [destruct E as (e'&->&_); by apply lookup_insert_ne|by rewrite E].
Qed.

(** A transfer of the GPU is tracked for its first line only, whatever its size. *)
Theorem notify_first_line (s s' : CXLBARCoherencyState) (addr size : Z) (is_write : bool) (a : Z)
  (Hr : bar_reachable s) (H : cxl_bar_notify_gpu_access s addr size is_write = Some s') (Ha : a <> line_of addr) :
  bc_snoop_filter s' !! a = bc_snoop_filter s !! a.
Proof.
  pose proof (reachable_idle s Hr) as Hi. unfold cxl_bar_notify_gpu_access in H. destruct (negb _); [by injection H as <-|].
  destruct (find_region_for_addr s addr) as [[i r]|]; [|by injection H as <-]. cbv zeta in H. set (s0 := set_regions _ _ s) in H.
  assert (H0 : bar_idle s0) by (destruct Hi; split; [unfold s0; auto with bar|done]).
  assert (Hreq : forall req d r1 s1, cxl_bar_coherency_request s0 req addr d = Some (r1, s1) -> bc_snoop_filter s1 !! a = bc_snoop_filter s !! a).
  { intros req d r1 s1 E. by apply (request_other_lines s0 s1 req addr a d r1). }
  destruct is_write.
  - destruct (cxl_bar_coherency_request s0 _ addr _) as [[r1 s1]|] eqn:E; [|done]. cbn in H. rewrite <- (Hreq _ _ _ _ E).
    apply request_idle in E as [[_ L1] _]; [|done]. unfold cxl_bar_snoop_update, mutex_lock in H. rewrite L1 in H. cbn in H.
    destruct (bc_snoop_filter s1 !! line_of addr); injection H as <-; [|done]. cbn. destruct (_ <? _); [|destruct (_ <? _)]; by apply lookup_insert_ne.
  - destruct (cxl_bar_coherency_request s0 _ addr _) as [[r1 s1]|] eqn:E; [|done]. cbn in H. injection H as <-. by apply (Hreq _ _ _ _ E).
Qed.

Lemma for_lines_one {A} (step : Z -> A -> option A) (addr : Z) (s : A) :
  addr mod 64 = 0 -> 0 <= addr -> addr + 64 < 2 ^ 64 -> for_lines step addr 64 s = step addr s.
Proof.
  intros Hm H0 Htop. assert (Ha : line_of addr = addr) by (rewrite line_of_spec; lia).
  assert (He : aligned_end addr 64 = addr + 64).
  { unfold aligned_end, CXL_CACHE_LINE_SIZE. assert (addr + 128 <= 2 ^ 64) by (Z.to_euclidean_division_equations; lia).
    rewrite (wrap64_small (addr + 64)), wrap64_small by (unfold u64; lia). rewrite line_of_spec. Z.to_euclidean_division_equations; lia. }
  unfold for_lines. rewrite He, Ha. assert (exists n, Z.to_nat ((addr + 64) / 64) = S n) as [n ->].
  { exists (Z.to_nat ((addr + 64) / 64 - 1)). assert (1 <= (addr + 64) / 64) by (Z.to_euclidean_division_equations; lia). lia. }
  cbn [line_loop]. rewrite (proj2 (Z.ltb_lt addr (addr + 64))) by lia. unfold CXL_CACHE_LINE_SIZE. rewrite wrap64_small by (unfold u64; lia).
  destruct (step addr s) as [s1|]; [|done]. cbn. by rewrite Z.ltb_irrefl.
Qed.

Lemma flush_line_lookup (a : Z) (s : CXLBARCoherencyState) (e : CXLSnoopEntry) : bc_snoop_filter s !! line_of a = Some e ->
  exists e1, bc_snoop_filter (flush_line a s) !! line_of a = Some e1 /\ se_domain_mask e1 = se_domain_mask e.
Proof.
  intros He. unfold flush_line. rewrite He. destruct (negb _); [|eauto]. rewrite put_entry_filter, lookup_insert_eq. eexists. by split.
Qed.

(** The switch of a line to device bias takes the line from the GPU and leaves it with the CPU;
    the comment has it the other way round. *)
Theorem flip_device_clears_gpu (s : CXLBARCoherencyState) (addr : Z) (e : CXLSnoopEntry)
  (Hr : bar_reachable s) (He : bc_enabled s = true) (Hm : addr mod 64 = 0) (H0 : 0 <= addr) (Htop : addr + 64 < 2 ^ 64)
  (Hl : bc_snoop_filter s !! addr = Some e) :
  exists s' e', cxl_bar_bias_flip s addr 64 CXL_BIAS_MODE_DEVICE = Some s' /\ bc_snoop_filter s' !! addr = Some e' /\
    se_bias_mode e' = CXL_BIAS_MODE_DEVICE /\ holds e' CXL_DOMAIN_GPU = false /\ holds e' CXL_DOMAIN_CPU = holds e CXL_DOMAIN_CPU.
Proof.
  destruct (reachable_idle s Hr) as [Hi Hf]. assert (Ha : line_of addr = addr) by (rewrite line_of_spec; lia).
  rewrite <- Ha in Hl. destruct (flush_line_lookup addr (set_lock true s) e Hl) as (e1&Hl1&Hmask).
  destruct (flush_line_ok addr (set_lock true s)) as [_ [_ He1]]; [auto with bar|]. cbn in He1. rewrite He in He1.
  unfold cxl_bar_bias_flip. rewrite Z.eqb_refl. unfold cxl_bar_cache_flush. rewrite He, (mutex_lock_free s) by done. cbn [negb mbind option_bind].
  rewrite !for_lines_one by done. cbn [mbind option_bind]. set (s1 := flush_line addr _) in *. rewrite for_lines_one by done.
  unfold clear_line, cxl_bar_coherency_request. rewrite (mutex_lock_free (mutex_unlock s1)) by done.
  change (bc_enabled (mutex_unlock s1)) with (bc_enabled s1). rewrite He1. cbn [negb mbind option_bind request_body].
  set (s2 := request_clr_dev_cache _ addr).
  assert (H2 : exists e2, bc_snoop_filter s2 !! line_of addr = Some e2 /\ holds e2 CXL_DOMAIN_GPU = false /\ holds e2 CXL_DOMAIN_CPU = holds e CXL_DOMAIN_CPU).
  { unfold s2, request_clr_dev_cache. cbn [bc_snoop_filter count set_stats set_lock mutex_unlock]. rewrite Hl1, land_bit_zero, negb_involutive. unfold holds. rewrite <- Hmask.
    destruct (Z.testbit (se_domain_mask e1) (domain_val CXL_DOMAIN_GPU)) eqn:E; [|by exists e1].
    rewrite put_entry_filter, lookup_insert_eq. eexists. split; [done|]. cbn [se_domain_mask with_protocol]. rewrite !testbit_ldiff_bit, E.
    split; [done|]. by rewrite andb_true_r. }
  destruct H2 as (e2&Hl2&Hg&Hc). clearbody s2. unfold cxl_bar_set_bias. rewrite (mutex_lock_free (mutex_unlock s2)) by done. cbn [mbind option_bind].
  rewrite for_lines_one by done. unfold bias_line. cbn [bc_snoop_filter set_lock mutex_unlock mbind option_bind]. rewrite Hl2. cbn [mbind option_bind].
  rewrite mutex_lock_free by done. cbn [mbind option_bind]. eexists _, _. split; [done|]. rewrite Ha. split; [apply lookup_insert_eq|]. done.
Qed.

(** ** Witnesses *)
Lemma bar_run_reachable (os : list bar_op) (s s' : CXLBARCoherencyState) : bar_reachable s -> bar_run s os = Some s' -> bar_reachable s'.
Proof.
  revert s. induction os as [|o os IH]; intros s Hs H; [by injection H as <-|]. cbn in H. destruct (bar_step s o) as [s1|] eqn:E; [|done].
  apply (IH s1); [by econstructor|done].
Qed.

(** A device with two regions, of which three lines have a bias; the CPU has written the second. *)
Definition demo_ops : list bar_op :=
  [OpAddRegion 2 0 4096 true true; OpAddRegion 4 0 8192 true true; OpSetBias 10 150 CXL_BIAS_MODE_HOST;
   OpRequest CXL_COH_REQ_WR_INV 70 CXL_DOMAIN_CPU].

Definition demo_bar : CXLBARCoherencyState := default cxl_bar_coherency_init (bar_run cxl_bar_coherency_init demo_ops).

Lemma demo_reachable : bar_reachable demo_bar.
Proof. apply (bar_run_reachable demo_ops cxl_bar_coherency_init); [constructor|vm_compute; reflexivity]. Qed.

Lemma bar_reachable_ok_witness :
  bc_snoop_filter_size demo_bar = 3 /\ (exists e, bc_snoop_filter demo_bar !! 64 = Some e /\ se_state e = CXL_COHERENCY_MODIFIED /\ holds e CXL_DOMAIN_GPU = false).
Proof.
  split; [vm_compute; reflexivity|]. destruct (bar_reachable_ok demo_bar demo_reachable) as (_&_&_&H).
  destruct (bc_snoop_filter demo_bar !! 64) as [e|] eqn:E; [|vm_compute in E; discriminate]. exists e. split; [reflexivity|].
  assert (Hm : se_state e = CXL_COHERENCY_MODIFIED) by (vm_compute in E; injection E as <-; reflexivity). split; [exact Hm|].
  rewrite (H 64 e CXL_DOMAIN_GPU E Hm). vm_compute in E. injection E as <-. reflexivity.
Defined.

Lemma request_returns_iff_witness :
  is_Some (cxl_bar_coherency_request demo_bar CXL_COH_REQ_RD_SHARED 100 CXL_DOMAIN_GPU) /\
  ~ is_Some (cxl_bar_coherency_request demo_bar CXL_COH_REQ_RD_SHARED 256 CXL_DOMAIN_GPU) /\
  ~ is_Some (cxl_bar_coherency_request demo_bar CXL_COH_REQ_CLEAN_EVICT 64 CXL_DOMAIN_CPU).
Proof.
  assert (He : bc_enabled demo_bar = true) by (vm_compute; reflexivity).
  split; [|split].
  - apply (request_returns_iff demo_bar CXL_COH_REQ_RD_SHARED 100 CXL_DOMAIN_GPU demo_reachable He). vm_compute. reflexivity.
  - intros H. apply (request_returns_iff demo_bar CXL_COH_REQ_RD_SHARED 256 CXL_DOMAIN_GPU demo_reachable He) in H. vm_compute in H. discriminate.
  - intros H. apply (request_returns_iff demo_bar CXL_COH_REQ_CLEAN_EVICT 64 CXL_DOMAIN_CPU demo_reachable He) in H. vm_compute in H. discriminate.
Defined.

Lemma request_line_witness : exists s', cxl_bar_coherency_request demo_bar CXL_COH_REQ_RD_SHARED 100 CXL_DOMAIN_GPU = Some (CXL_COH_RSP_S, s') /\
  line_step CXL_COH_REQ_RD_SHARED CXL_DOMAIN_GPU 64 (bc_snoop_filter demo_bar) (bc_snoop_filter s').
Proof.
  destruct (cxl_bar_coherency_request demo_bar CXL_COH_REQ_RD_SHARED 100 CXL_DOMAIN_GPU) as [[r s']|] eqn:E; [|vm_compute in E; discriminate].
  exists s'. split; [vm_compute in E; injection E as <- <-; reflexivity|].
  apply (request_line demo_bar s' CXL_COH_REQ_RD_SHARED 100 CXL_DOMAIN_GPU r demo_reachable); [vm_compute; reflexivity|exact E].
Defined.

Lemma bias_set_get_witness : exists s', cxl_bar_set_bias demo_bar 130 200 CXL_BIAS_MODE_DEVICE = Some s' /\
  fst <$> cxl_bar_get_bias s' 329 = Some CXL_BIAS_MODE_DEVICE /\ fst <$> cxl_bar_get_bias s' 127 = fst <$> cxl_bar_get_bias demo_bar 127.
Proof.
  destruct (bias_set_get demo_bar 130 200 CXL_BIAS_MODE_DEVICE demo_reachable) as (s'&H&Hin&Hout); [lia|lia|lia|].
  exists s'. split; [exact H|]. split; [apply Hin; lia|apply Hout; left; vm_compute; discriminate].
Defined.

Lemma untracked_access_waits_witness :
  exists s, bar_run cxl_bar_coherency_init [OpAddRegion 2 0 4096 true true; OpFence; OpFlush 0 4096; OpRequest CXL_COH_REQ_CLR_DEV_CACHE 64 CXL_DOMAIN_CPU] = Some s /\
  cxl_bar_coherency_request s CXL_COH_REQ_RD_SHARED 64 CXL_DOMAIN_CPU = None.
Proof.
  destruct (bar_run cxl_bar_coherency_init _) as [s|] eqn:E; [|vm_compute in E; discriminate]. exists s. split; [reflexivity|].
  eapply (untracked_access_waits _ s CXL_COH_REQ_RD_SHARED 64 CXL_DOMAIN_CPU); [|exact E| |].
  - repeat constructor.
  - vm_compute in E. injection E as <-. reflexivity.
  - constructor.
Defined.

Lemma exclusive_shared_witness : exists s1 s2 e2,
    cxl_bar_coherency_request demo_bar CXL_COH_REQ_RD_OWN 0 CXL_DOMAIN_GPU = Some (CXL_COH_RSP_E, s1) /\
    cxl_bar_coherency_request s1 CXL_COH_REQ_RD_SHARED 0 CXL_DOMAIN_CPU = Some (CXL_COH_RSP_S, s2) /\
    bc_snoop_filter s2 !! line_of 0 = Some e2 /\
    se_state e2 = CXL_COHERENCY_EXCLUSIVE /\ se_owner_domain e2 = CXL_DOMAIN_GPU /\ holds e2 CXL_DOMAIN_GPU = true /\ holds e2 CXL_DOMAIN_CPU = true.
Proof.
  destruct (bc_snoop_filter demo_bar !! line_of 0) as [e|] eqn:E; [|vm_compute in E; discriminate].
  apply (exclusive_shared demo_bar 0 e CXL_DOMAIN_GPU CXL_DOMAIN_CPU demo_reachable); [vm_compute; reflexivity|exact E|discriminate].
Defined.

Lemma notify_first_line_witness : exists s', cxl_bar_notify_gpu_access demo_bar 0 4096 true = Some s' /\
  bc_snoop_filter s' !! 64 = bc_snoop_filter demo_bar !! 64.
Proof.
  destruct (cxl_bar_notify_gpu_access demo_bar 0 4096 true) as [s'|] eqn:E; [|vm_compute in E; discriminate]. exists s'. split; [reflexivity|].
  apply (notify_first_line demo_bar s' 0 4096 true 64 demo_reachable E). vm_compute. discriminate.
Defined.

Lemma flip_device_clears_gpu_witness : exists s' e', cxl_bar_bias_flip demo_bar 64 64 CXL_BIAS_MODE_DEVICE = Some s' /\
  bc_snoop_filter s' !! 64 = Some e' /\ holds e' CXL_DOMAIN_GPU = false /\ holds e' CXL_DOMAIN_CPU = true.
Proof.
  destruct (bc_snoop_filter demo_bar !! 64) as [e|] eqn:E; [|vm_compute in E; discriminate].
  destruct (flip_device_clears_gpu demo_bar 64 e demo_reachable) as (s'&e'&H1&H2&_&H3&H4); [vm_compute; reflexivity|reflexivity|lia|lia|exact E|].
  exists s', e'. split; [exact H1|]. split; [exact H2|]. split; [exact H3|]. rewrite H4. vm_compute in E. injection E as <-. reflexivity.
Defined.
