(* ===== verification/Type2Cache.v ===== *)
(** * Cache and memory accesses of the type 2 device ([library/qemu/hw/cxl/cxl_type2.c])

    The device keeps copies of lines of its memory in a hash table, which accesses of the guest
    fill and which messages of the simulator and accesses of the GPU take lines out of; the
    accesses also go through the coherency tracking of [Type2Coherency].  [device] is the part of
    [CXLType2State] that these operations use: the memory behind the BARs as lists of bytes, the
    cache, the tracking, the connection as its flag and the messages written to it, and the
    statistics.  Time stamps of lines and messages are left out; nothing reads them.  [None] of an
    operation is an access outside of a memory or a wait for a mutex that the thread holds.

    [device_serves_memory] shows that accesses to tracked lines return and behave as on plain
    memory, whatever messages arrive in between; [gpu_write_stale], [atomic_stale] that copies of the GPU without
    a backend leave stale lines behind. *)
From S2P Require Import Prelude Type2Coherency.
#[local] Open Scope Z_scope.

Record CXLCacheLine := mkLine {
  cl_tag : Z;
  cl_state : CXLCoherencyState;
  cl_dirty : bool;
  cl_data : list Z
}.

Record CXLType2CoherencyState := mkCoherency {
  co_cache_lines : gmap Z CXLCacheLine;
  co_cache_hits : Z;
  co_cache_misses : Z;
  co_coherency_ops : Z;
  co_snoops : Z;
  co_coherency_enabled : bool
}.

Inductive CXLType2MsgType :=
  CXL_T2_MSG_READ | CXL_T2_MSG_WRITE | CXL_T2_MSG_CACHE_FLUSH | CXL_T2_MSG_COHERENCY_REQ | CXL_T2_MSG_SNOOP_REQ |
  CXL_T2_MSG_SNOOP_RESP | CXL_T2_MSG_INVALIDATE | CXL_T2_MSG_WRITEBACK | CXL_T2_MSG_GPU_ACCESS | CXL_T2_MSG_RESPONSE.

Record CXLType2Message := mkMessage {
  m2_type : CXLType2MsgType;
  m2_size : Z;
  m2_addr : Z;
  m2_coherency_state : CXLCoherencyState;
  m2_source_id : Z;
  m2_data : list Z
}.

Record t2_stats := mkT2Stats { ts_read_ops : Z; ts_write_ops : Z; ts_gpu_accesses : Z; ts_cpu_accesses : Z }.

Record device := mkDevice {
  dv_device_mem : list Z;
  dv_cache_mem : list Z;
  dv_coherency : CXLType2CoherencyState;
  dv_bar_coherency : CXLBARCoherencyState;
  dv_connected : bool;
  dv_sent : list CXLType2Message;
  dv_stats : t2_stats
}.

Definition device_mem_size (d : device) : Z := Z.of_nat (length (dv_device_mem d)).

Definition set_mem (m : list Z) (d : device) : device :=
  mkDevice m (dv_cache_mem d) (dv_coherency d) (dv_bar_coherency d) (dv_connected d) (dv_sent d) (dv_stats d).

Definition set_cache_mem (m : list Z) (d : device) : device :=
  mkDevice (dv_device_mem d) m (dv_coherency d) (dv_bar_coherency d) (dv_connected d) (dv_sent d) (dv_stats d).

Definition set_coherency (c : CXLType2CoherencyState) (d : device) : device :=
  mkDevice (dv_device_mem d) (dv_cache_mem d) c (dv_bar_coherency d) (dv_connected d) (dv_sent d) (dv_stats d).

Definition set_bar (b : CXLBARCoherencyState) (d : device) : device :=
  mkDevice (dv_device_mem d) (dv_cache_mem d) (dv_coherency d) b (dv_connected d) (dv_sent d) (dv_stats d).

Definition set_t2stats (s : t2_stats) (d : device) : device :=
  mkDevice (dv_device_mem d) (dv_cache_mem d) (dv_coherency d) (dv_bar_coherency d) (dv_connected d) (dv_sent d) s.

Definition set_lines (m : gmap Z CXLCacheLine) (d : device) : device :=
  let c := dv_coherency d in
  set_coherency (mkCoherency m (co_cache_hits c) (co_cache_misses c) (co_coherency_ops c) (co_snoops c) (co_coherency_enabled c)) d.

(** [qio_channel_write_all] of a message; its errors are ignored. *)
Definition send (m : CXLType2Message) (d : device) : device :=
  if dv_connected d
  then mkDevice (dv_device_mem d) (dv_cache_mem d) (dv_coherency d) (dv_bar_coherency d) true (dv_sent d ++ [m]) (dv_stats d)
  else d.

Definition count_read (d : device) : device :=
  let s := dv_stats d in set_t2stats (mkT2Stats (ts_read_ops s ⊞ 1) (ts_write_ops s) (ts_gpu_accesses s) (ts_cpu_accesses s)) d.

Definition count_write (d : device) : device :=
  let s := dv_stats d in set_t2stats (mkT2Stats (ts_read_ops s) (ts_write_ops s ⊞ 1) (ts_gpu_accesses s) (ts_cpu_accesses s)) d.

Definition count_gpu (d : device) : device :=
  let s := dv_stats d in set_t2stats (mkT2Stats (ts_read_ops s) (ts_write_ops s) (ts_gpu_accesses s ⊞ 1) (ts_cpu_accesses s)) d.

Definition count_cpu (d : device) : device :=
  let s := dv_stats d in set_t2stats (mkT2Stats (ts_read_ops s) (ts_write_ops s) (ts_gpu_accesses s) (ts_cpu_accesses s ⊞ 1)) d.

(** ** The cache *)
Definition cxl_type2_coherency_init : CXLType2CoherencyState := mkCoherency ∅ 0 0 0 0 true.

Definition count_op (d : device) : device :=
  let c := dv_coherency d in
  set_coherency (mkCoherency (co_cache_lines c) (co_cache_hits c) (co_cache_misses c) (co_coherency_ops c ⊞ 1) (co_snoops c) (co_coherency_enabled c)) d.

Definition cxl_type2_cache_lookup (d : device) (addr : Z) : option CXLCacheLine * device :=
  let c := dv_coherency d in
  let line := co_cache_lines c !! line_of addr in
  (line,
   match line with
   | Some _ => set_coherency (mkCoherency (co_cache_lines c) (co_cache_hits c ⊞ 1) (co_cache_misses c) (co_coherency_ops c) (co_snoops c) (co_coherency_enabled c)) d
   | None => set_coherency (mkCoherency (co_cache_lines c) (co_cache_hits c) (co_cache_misses c ⊞ 1) (co_coherency_ops c) (co_snoops c) (co_coherency_enabled c)) d
   end).

Definition cxl_type2_cache_insert (d : device) (addr : Z) (data : list Z) (st : CXLCoherencyState) : device :=
  count_op (set_lines (<[line_of addr := mkLine (line_of addr) st false data]> (co_cache_lines (dv_coherency d))) d).

Definition cxl_type2_cache_invalidate (d : device) (addr : Z) : device :=
  match co_cache_lines (dv_coherency d) !! line_of addr with
  | Some _ => count_op (set_lines (delete (line_of addr) (co_cache_lines (dv_coherency d))) d)
  | None => d
  end.

Definition line_clean (l : CXLCacheLine) : CXLCacheLine := mkLine (cl_tag l) (cl_state l) false (cl_data l).

Definition cxl_type2_cache_writeback (d : device) (addr : Z) : option device :=
  let a := line_of addr in
  match co_cache_lines (dv_coherency d) !! a with
  | Some line =>
      if cl_dirty line then
        d ← (if a <? device_mem_size d then m ← mem_write a (cl_data line) (dv_device_mem d); Some (set_mem m d) else Some d);
        let d := send (mkMessage CXL_T2_MSG_WRITEBACK 64 a (cl_state line) 0 (cl_data line)) d in
        Some (count_op (set_lines (<[a := line_clean line]> (co_cache_lines (dv_coherency d))) d))
      else Some d
  | None => Some d
  end.

Definition count_snoop (d : device) : device :=
  let c := dv_coherency d in
  set_coherency (mkCoherency (co_cache_lines c) (co_cache_hits c) (co_cache_misses c) (co_coherency_ops c) (co_snoops c ⊞ 1) (co_coherency_enabled c)) d.

(** The line is looked up again after the write-back. *)
Definition cxl_type2_snoop_request (d : device) (addr : Z) (invalidate : bool) : option (bool * device) :=
  let a := line_of addr in
  let d := count_snoop d in
  match co_cache_lines (dv_coherency d) !! a with
  | None => Some (false, d)
  | Some line =>
      d ← (if cl_dirty line then cxl_type2_cache_writeback d addr else Some d);
      match co_cache_lines (dv_coherency d) !! a with
      | Some line' =>
          Some (true, if invalidate then set_lines (delete a (co_cache_lines (dv_coherency d))) d
                      else set_lines (<[a := mkLine (cl_tag line') CXL_COHERENCY_SHARED (cl_dirty line') (cl_data line')]> (co_cache_lines (dv_coherency d))) d)
      | None => Some (true, d)
      end
  end.

(** A message of the simulator, as the receiving thread handles it. *)
Definition recv_message (d : device) (m : CXLType2Message) : option device :=
  match m2_type m with
  | CXL_T2_MSG_SNOOP_REQ =>
      '(_, d) ← cxl_type2_snoop_request d (m2_addr m) (bool_decide (m2_coherency_state m <> CXL_COHERENCY_INVALID)); Some d
  | CXL_T2_MSG_INVALIDATE => Some (cxl_type2_cache_invalidate d (m2_addr m))
  | _ => Some d
  end.

(** ** Accesses of the guest, past the registers *)
Definition track (d : device) (req : CXLCoherencyReqType) (addr : Z) : option device :=
  if bc_enabled (dv_bar_coherency d)
  then '(_, b) ← cxl_bar_coherency_request (dv_bar_coherency d) req addr CXL_DOMAIN_CPU; Some (set_bar b d)
  else Some d.

Definition line_valid (l : option CXLCacheLine) : bool :=
  match l with Some line => bool_decide (cl_state line <> CXL_COHERENCY_INVALID) | None => false end.

(** Data comes from device memory and goes into the cache. *)
Definition cache_read_miss (d : device) (addr size : Z) : option (Z * device) :=
  '(value, d) ←
    (if addr <? device_mem_size d
     then bs ← mem_read addr size (dv_device_mem d);
          data ← mem_read (line_of addr) 64 (dv_device_mem d);
          Some (le_combine bs, cxl_type2_cache_insert d addr data CXL_COHERENCY_SHARED)
     else Some (0, d));
  Some (value, send (mkMessage CXL_T2_MSG_READ size addr CXL_COHERENCY_SHARED 0 (replicate 64 0)) d).

Definition cache_read_mem (d : device) (addr size : Z) : option (Z * device) :=
  let offset := Z.land addr 0x3F in
  d ← track (count_cpu d) CXL_COH_REQ_RD_SHARED addr;
  let '(line, d) := cxl_type2_cache_lookup d addr in
  '(value, d) ←
    (if line_valid line
     then bs ← mem_read offset (Z.min size (64 - offset)) (from_option cl_data [] line); Some (le_combine bs, d)
     else cache_read_miss d addr size);
  Some (value, count_read d).

(** The bytes of a value of [size] bytes; of a longer one there are eight. *)
Definition value_bytes (value size : Z) : list Z := le_split (Z.to_nat (Z.min size 8)) value.

Definition cache_write_mem (d : device) (addr value size : Z) : option device :=
  let offset := Z.land addr 0x3F in
  d ← track (count_write (count_cpu d)) CXL_COH_REQ_WR_INV addr;
  let '(line, d) := cxl_type2_cache_lookup d addr in
  '(line, d) ←
    (if line_valid line then Some (line, d)
     else if line_of addr <? device_mem_size d
     then data ← mem_read (line_of addr) 64 (dv_device_mem d);
          Some (cxl_type2_cache_lookup (cxl_type2_cache_insert d addr data CXL_COHERENCY_MODIFIED) addr)
     else Some (line, d));
  match line with
  | None => Some d
  | Some l =>
      data ← mem_write offset (take (Z.to_nat (Z.min size (64 - offset))) (value_bytes value size)) (cl_data l);
      let d := set_lines (<[line_of addr := mkLine (cl_tag l) CXL_COHERENCY_MODIFIED true data]> (co_cache_lines (dv_coherency d))) d in
      d ← (if addr <? device_mem_size d
           then m ← mem_write addr (value_bytes value size) (dv_device_mem d); Some (set_mem m d)
           else Some d);
      Some (send (mkMessage CXL_T2_MSG_WRITE size addr CXL_COHERENCY_MODIFIED 0
                    (value_bytes value size ++ replicate (64 - Z.to_nat (Z.min size 8)) 0)) d)
  end.

(** ** Accesses through the tracking ([cxl_type2_coherency.c]) *)

(** The memory of a BAR; BAR 0 and unknown ones have none. *)
Definition bar_memory (d : device) (bar_index : Z) : option (list Z) :=
  if bar_index =? 2 then Some (dv_cache_mem d) else if bar_index =? 4 then Some (dv_device_mem d) else None.

Definition set_bar_memory (bar_index : Z) (m : list Z) (d : device) : device :=
  if bar_index =? 2 then set_cache_mem m d else set_mem m d.

Definition region_cpu_access (is_write : bool) (r : CXLBARCoherencyRegion) : CXLBARCoherencyRegion :=
  mkRegion (rg_base_addr r) (rg_size r) (rg_bar_index r) (rg_active r) (rg_gpu_accessible r) (rg_cpu_accessible r) (rg_coherent r)
    (if is_write then rg_cpu_reads r else rg_cpu_reads r ⊞ 1) (if is_write then rg_cpu_writes r ⊞ 1 else rg_cpu_writes r)
    (rg_gpu_reads r) (rg_gpu_writes r) (rg_coherency_conflicts r).

(** Counting the access in its region and the request, if the region is coherent. *)
Definition region_request (b : CXLBARCoherencyState) (addr : Z) (is_write : bool) : option CXLBARCoherencyState :=
  match find_region_for_addr b addr with
  | None => Some b
  | Some (i, r) =>
      let b := set_regions (<[i := region_cpu_access is_write r]> (bc_regions b)) (bc_num_regions b) b in
      if rg_coherent r
      then '(_, b) ← cxl_bar_coherency_request b (if is_write then CXL_COH_REQ_WR_INV else CXL_COH_REQ_RD_SHARED) addr CXL_DOMAIN_CPU; Some b
      else Some b
  end.

Definition cxl_bar_coherent_read (d : device) (bar_offset size bar_index : Z) : option (Z * device) :=
  match bar_memory d bar_index with
  | None => Some (0, d)
  | Some m =>
      b ← (if bc_enabled (dv_bar_coherency d)
           then b ← region_request (dv_bar_coherency d) bar_offset false; cxl_bar_snoop_insert b bar_offset CXL_COHERENCY_SHARED CXL_DOMAIN_CPU
           else Some (dv_bar_coherency d));
      value ← (if bar_offset ⊞ size <=? Z.of_nat (length m) then bs ← mem_read bar_offset (Z.min size 8) m; Some (le_combine bs) else Some 0);
      Some (value, count_cpu (count_read (set_bar b d)))
  end.

Definition gpu_may_hold (entry : option CXLSnoopEntry) : bool :=
  match entry with Some e => negb (Z.land (se_domain_mask e) (domain_bit CXL_DOMAIN_GPU) =? 0) | None => false end.

Definition cxl_bar_coherent_write (d : device) (bar_offset value size bar_index : Z) : option device :=
  match bar_memory d bar_index with
  | None => Some d
  | Some m =>
      b ← (if bc_enabled (dv_bar_coherency d)
           then b ← region_request (dv_bar_coherency d) bar_offset true;
                b ← cxl_bar_snoop_insert b bar_offset CXL_COHERENCY_MODIFIED CXL_DOMAIN_CPU;
                '(entry, b) ← cxl_bar_snoop_lookup b bar_offset;
                Some (if gpu_may_hold entry then cxl_bar_back_invalidate b bar_offset size CXL_DOMAIN_CPU else b)
           else Some (dv_bar_coherency d));
      m ← (if bar_offset ⊞ size <=? Z.of_nat (length m) then mem_write bar_offset (value_bytes value size) m else Some m);
      Some (count_cpu (count_write (set_bar_memory bar_index m (set_bar b d))))
  end.

(** The loop over the queue of back-invalidations. *)
Fixpoint process_queue (hetgpu_initialized : bool) (q : list CXLBackInvalidateEntry) (d : device) : option device :=
  match q with
  | [] => Some d
  | e :: q' =>
      d ← (if bool_decide (bi_source e = CXL_DOMAIN_GPU) then Some (cxl_type2_cache_invalidate d (bi_addr e))
           else if hetgpu_initialized
           then b ← cxl_bar_snoop_update (dv_bar_coherency d) (bi_addr e) CXL_COHERENCY_INVALID CXL_DOMAIN_GPU; Some (set_bar b d)
           else Some d);
      process_queue hetgpu_initialized q' d
  end.

Definition cxl_bar_process_back_invalidations (hetgpu_initialized : bool) (d : device) : option device :=
  let b := dv_bar_coherency d in
  process_queue hetgpu_initialized (bc_back_invalidate_queue b) (set_bar (set_queues (bc_pending_transactions b) [] b) d).

Inductive CXLAtomicOp :=
  CXL_ATOMIC_ADD | CXL_ATOMIC_SUB | CXL_ATOMIC_AND | CXL_ATOMIC_OR | CXL_ATOMIC_XOR | CXL_ATOMIC_MIN | CXL_ATOMIC_MAX | CXL_ATOMIC_CAS | CXL_ATOMIC_SWAP.

Definition atomic_result (op : CXLAtomicOp) (old_value operand1 operand2 : Z) : Z :=
  match op with
  | CXL_ATOMIC_ADD => old_value ⊞ operand1
  | CXL_ATOMIC_SUB => old_value ⊟ operand1
  | CXL_ATOMIC_AND => Z.land old_value operand1
  | CXL_ATOMIC_OR => Z.lor old_value operand1
  | CXL_ATOMIC_XOR => Z.lxor old_value operand1
  | CXL_ATOMIC_MIN => if old_value <? operand1 then old_value else operand1
  | CXL_ATOMIC_MAX => if operand1 <? old_value then old_value else operand1
  | CXL_ATOMIC_CAS => if old_value =? operand1 then operand2 else old_value
  | CXL_ATOMIC_SWAP => operand1
  end.

Definition cxl_bar_atomic_op (d : device) (addr operand1 operand2 : Z) (op : CXLAtomicOp) (size : Z) : option (Z * device) :=
  if device_mem_size d <=? addr then Some (0, d)
  else
    b ← (if bc_enabled (dv_bar_coherency d)
         then '(_, b) ← cxl_bar_coherency_request (dv_bar_coherency d) CXL_COH_REQ_RD_OWN addr CXL_DOMAIN_CPU; Some b
         else Some (dv_bar_coherency d));
    b ← mutex_lock b;
    bs ← mem_read addr (Z.min size 8) (dv_device_mem d);
    let old_value := le_combine bs in
    m ← mem_write addr (value_bytes (atomic_result op old_value operand1 operand2) size) (dv_device_mem d);
    let b := mutex_unlock b in
    b ← (if bc_enabled b
         then b ← cxl_bar_snoop_update b addr CXL_COHERENCY_MODIFIED CXL_DOMAIN_CPU;
              '(entry, b) ← cxl_bar_snoop_lookup b addr;
              Some (if gpu_may_hold entry then cxl_bar_back_invalidate b addr size CXL_DOMAIN_CPU else b)
         else Some b);
    Some (old_value, set_bar b (set_mem m d)).

(** ** Accesses of the GPU *)

(** A passed-through GPU is [Some] of its reads and writes: the bytes or success, [None] on an
    error or a short transfer. *)
Definition cxl_type2_gpu_read (passthrough_enabled : bool) (vfio : option (Z -> Z -> option (list Z))) (gpu_mem_base : Z)
    (d : device) (offset size : Z) : option (option (list Z) * device) :=
  if negb passthrough_enabled then Some (None, d)
  else match vfio with
  | Some pread =>
      match pread (gpu_mem_base ⊞ offset) size with
      | Some bs => Some (Some bs, count_gpu d)
      | None => Some (None, d)
      end
  | None =>
      if offset ⊞ size <=? device_mem_size d
      then bs ← mem_read offset size (dv_device_mem d); Some (Some bs, count_gpu d)
      else Some (None, d)
  end.

Definition cxl_type2_gpu_write (passthrough_enabled : bool) (vfio : option (Z -> list Z -> bool)) (gpu_mem_base : Z)
    (d : device) (offset : Z) (buf : list Z) : option (Z * device) :=
  let size := Z.of_nat (length buf) in
  if negb passthrough_enabled then Some (-1, d)
  else match vfio with
  | Some pwrite =>
      if pwrite (gpu_mem_base ⊞ offset) buf
      then Some (0, count_gpu (send (mkMessage CXL_T2_MSG_GPU_ACCESS size offset CXL_COHERENCY_MODIFIED 1 (replicate 64 0)) (cxl_type2_cache_invalidate d offset)))
      else Some (-1, d)
  | None =>
      if offset ⊞ size <=? device_mem_size d
      then m ← mem_write offset buf (dv_device_mem d); Some (0, count_gpu (cxl_type2_cache_invalidate (set_mem m d) offset))
      else Some (-1, d)
  end.

Definition cxl_type2_hetgpu_coherency_callback (d : device) (addr size : Z) (invalidate : bool) : option device :=
  if negb (co_coherency_enabled (dv_coherency d)) then Some d
  else
    b ← (if bc_enabled (dv_bar_coherency d) then cxl_bar_notify_gpu_access (dv_bar_coherency d) addr size invalidate else Some (dv_bar_coherency d));
    d ← (if negb (addr =? 0) && negb (size =? 0)
         then for_lines (fun a d => if invalidate then Some (cxl_type2_cache_invalidate d a) else cxl_type2_cache_writeback d a) addr size (set_bar b d)
         else Some (set_bar b d));
    Some (count_op d).

(** ** Sequences of accesses and messages, and plain memory *)
Inductive dev_op :=
| GuestRead (addr size : Z)
| GuestWrite (addr value size : Z)
| Receive (m : CXLType2Message)
| Writeback (addr : Z).

Definition dev_step (d : device) (o : dev_op) : option (option Z * device) :=
  match o with
  | GuestRead addr size => '(v, d) ← cache_read_mem d addr size; Some (Some v, d)
  | GuestWrite addr value size => d ← cache_write_mem d addr value size; Some (None, d)
  | Receive m => d ← recv_message d m; Some (None, d)
  | Writeback addr => d ← cxl_type2_cache_writeback d addr; Some (None, d)
  end.

Fixpoint dev_run (d : device) (os : list dev_op) : option (list (option Z) * device) :=
  match os with
  | [] => Some ([], d)
  | o :: os' => '(v, d1) ← dev_step d o; '(vs, d2) ← dev_run d1 os'; Some (v :: vs, d2)
  end.

Definition plain_step (m : list Z) (o : dev_op) : option (option Z * list Z) :=
  match o with
  | GuestRead addr size => bs ← mem_read addr size m; Some (Some (le_combine bs), m)
  | GuestWrite addr value size => m' ← mem_write addr (le_split (Z.to_nat size) value) m; Some (None, m')
  | Receive _ | Writeback _ => Some (None, m)
  end.

Fixpoint plain_run (m : list Z) (os : list dev_op) : option (list (option Z) * list Z) :=
  match os with
  | [] => Some ([], m)
  | o :: os' => '(v, m1) ← plain_step m o; '(vs, m2) ← plain_run m1 os'; Some (v :: vs, m2)
  end.

(** ** Invariant *)

(** Lines of the cache are lines of the memory and have the same bytes. *)
Definition line_ok (m : list Z) (a : Z) (l : CXLCacheLine) : Prop :=
  line_of a = a /\ cl_state l <> CXL_COHERENCY_INVALID /\ mem_read a 64 m = Some (cl_data l).

Record dev_ok (d : device) : Prop := mkDevOk {
  dev_lines : forall a l, co_cache_lines (dv_coherency d) !! a = Some l -> line_ok (dv_device_mem d) a l;
  dev_bar : bar_idle (dv_bar_coherency d) /\ bc_enabled (dv_bar_coherency d) = true;
  dev_size : device_mem_size d mod 64 = 0
}.

Definition tracked (d : device) (addr : Z) : Prop := is_Some (bc_snoop_filter (dv_bar_coherency d) !! line_of addr).

(** An access of up to eight bytes inside a tracked line of the memory. *)
Definition op_ok (d : device) (o : dev_op) : Prop :=
  match o with
  | GuestRead addr size | GuestWrite addr _ size =>
      0 <= addr /\ 0 < size <= 8 /\ addr mod 64 + size <= 64 /\ addr + size <= device_mem_size d /\ tracked d addr
  | Receive _ | Writeback _ => True
  end.

(** ** Lemmas *)
Lemma land_line_offset (a : Z) : Z.land a 0x3F = a mod 64.
Proof. change 0x3F with (Z.ones 6). rewrite Z.land_ones by lia. done. Qed.

(** Part of a range that was read. *)
Lemma mem_read_sub (a n off k : Z) (m data : list Z) :
  mem_read a n m = Some data -> 0 <= off -> 0 <= k -> off + k <= n -> mem_read off k data = mem_read (a + off) k m.
Proof.
  intros H Hoff Hk Hle. pose proof (mem_read_length _ _ _ _ H) as L. unfold mem_read in H. case_decide as D; [|done]. injection H as <-.
  rewrite !mem_read_Some by lia. f_equal. apply list_eq. intros i. destruct (decide (Z.of_nat i < k)).
  - rewrite !lookup_take_lt, !lookup_drop, lookup_take_lt, lookup_drop by lia. f_equal. lia.
  - rewrite !lookup_take_ge by lia. done.
Qed.

(** Writing inside a range, then reading it. *)
Lemma mem_write_sub (a n off : Z) (m m' data data' bs : list Z) :
  mem_read a n m = Some data -> mem_write (a + off) bs m = Some m' -> mem_write off bs data = Some data' -> mem_read a n m' = Some data'.
Proof.
  intros H Hm Hd. pose proof (mem_read_length _ _ _ _ H) as L. pose proof (mem_write_length _ _ _ _ Hm) as L1. pose proof (mem_write_length _ _ _ _ Hd) as L2.
  assert (Hr : 0 <= a /\ 0 <= n /\ a + n <= Z.of_nat (length m)) by (unfold mem_read in H; by case_decide).
  assert (Ho : 0 <= off /\ off + Z.of_nat (length bs) <= Z.of_nat (length data)) by (unfold mem_write in Hd; by case_decide).
  rewrite mem_read_Some by lia. f_equal. apply list_eq. intros i. rewrite (mem_write_lookup _ _ _ _ i Hd).
  assert (Hdata : data = take (Z.to_nat n) (drop (Z.to_nat a) m)) by (rewrite mem_read_Some in H by lia; congruence).
  destruct (decide (Z.of_nat i < n)) as [Hi|Hi].
  - rewrite lookup_take_lt, lookup_drop by lia. rewrite (mem_write_lookup _ _ _ _ _ Hm).
    repeat case_decide; try lia; [f_equal; lia|]. rewrite Hdata, lookup_take_lt, lookup_drop by lia. done.
  - rewrite lookup_take_ge by lia. symmetry. rewrite decide_False by lia. apply lookup_ge_None. lia.
Qed.

Lemma send_fields (msg : CXLType2Message) (d : device) :
  dv_device_mem (send msg d) = dv_device_mem d /\ dv_coherency (send msg d) = dv_coherency d /\ dv_bar_coherency (send msg d) = dv_bar_coherency d.
Proof. unfold send. by destruct (dv_connected d). Qed.

(** The invariant is about the lines, the memory and the tracking only. *)
Lemma dev_ok_same (d d' : device) :
  dev_ok d -> dv_device_mem d' = dv_device_mem d -> co_cache_lines (dv_coherency d') = co_cache_lines (dv_coherency d) ->
  bar_idle (dv_bar_coherency d') /\ bc_enabled (dv_bar_coherency d') = true -> dev_ok d'.
Proof. intros [Hl Hb Hs] Hm Hc Hb'. constructor; [by rewrite Hm, Hc|done|unfold device_mem_size in *; by rewrite Hm]. Qed.

Lemma dev_ok_stats (d : device) (s : t2_stats) : dev_ok d -> dev_ok (set_t2stats s d).
Proof. by intros []. Qed.

Lemma dev_ok_send (d : device) (m : CXLType2Message) : dev_ok d -> dev_ok (send m d).
Proof. unfold send. destruct (dv_connected d); [by intros []|done]. Qed.

Lemma dev_ok_op (d : device) : dev_ok d -> dev_ok (count_op d).
Proof. by intros []. Qed.

Lemma dev_ok_insert (d : device) (a : Z) (l : CXLCacheLine) : dev_ok d -> line_ok (dv_device_mem d) a l -> dev_ok (set_lines (<[a := l]> (co_cache_lines (dv_coherency d))) d).
Proof. intros [Hl Hb Hs] Ha. constructor; [|done|done]. cbn. intros a' l'. rewrite lookup_insert_Some. intros [[<- <-]|[_ H]]; [done|by apply Hl]. Qed.

Lemma dev_ok_delete (d : device) (a : Z) : dev_ok d -> dev_ok (set_lines (delete a (co_cache_lines (dv_coherency d))) d).
Proof. intros [Hl Hb Hs]. constructor; [|done|done]. cbn. intros a' l' H. apply lookup_delete_Some in H as [_ H]. by apply Hl. Qed.

(** Reads and writes of a tracked line return, and no line is lost from the tracking. *)
Lemma request_tracked (b : CXLBARCoherencyState) (req : CXLCoherencyReqType) (addr : Z) (s : CXLCoherencyDomain) :
  bar_idle b -> bc_enabled b = true -> req = CXL_COH_REQ_RD_SHARED \/ req = CXL_COH_REQ_WR_INV -> is_Some (bc_snoop_filter b !! line_of addr) ->
  exists r b', cxl_bar_coherency_request b req addr s = Some (r, b') /\ bar_idle b' /\ bc_enabled b' = true /\
    (forall a, is_Some (bc_snoop_filter b' !! a) <-> is_Some (bc_snoop_filter b !! a)).
Proof.
  intros Hi He Hreq [e Hl]. destruct (proj2 (request_waits_or_returns b req addr s Hi He)) as [[r b'] H].
  { rewrite Hl. by destruct Hreq as [->| ->]. }
  exists r, b'. split; [done|]. pose proof (request_idle _ _ _ _ _ _ H Hi) as [Hi' He']. split_and!; [done|congruence|].
  intros a. destruct (decide (a = line_of addr)) as [->|Hne]; [|by rewrite (request_other_lines _ _ _ _ _ _ _ Hi H Hne)].
  rewrite Hl. split; [eauto|]. intros _. destruct Hi as [_ Hf]. unfold cxl_bar_coherency_request in H. rewrite He, (mutex_lock_free b Hf) in H. cbn [negb mbind option_bind] in H.
  destruct (request_body _ req addr s) as [[r1 b1]|] eqn:E; [|done]. injection H as <- <-. apply request_body_line in E; [|done].
  unfold line_step in E. cbn in E. rewrite Hl in E. destruct E as (e'&E&_). cbn. rewrite E, lookup_insert_eq. eauto.
Qed.

Lemma track_ok (d : device) (req : CXLCoherencyReqType) (addr : Z) :
  dev_ok d -> tracked d addr -> req = CXL_COH_REQ_RD_SHARED \/ req = CXL_COH_REQ_WR_INV ->
  exists d', track d req addr = Some d' /\ dev_ok d' /\ dv_device_mem d' = dv_device_mem d /\ dv_coherency d' = dv_coherency d /\
    (forall a, tracked d' a <-> tracked d a).
Proof.
  intros Hd Ht Hreq. pose proof (dev_bar d Hd) as [Hi He]. destruct (request_tracked _ _ _ CXL_DOMAIN_CPU Hi He Hreq Ht) as (r&b'&Hr&Hi'&He'&Hsame).
  unfold track. rewrite He, Hr. cbn. eexists. split; [done|]. split; [by apply (dev_ok_same d)|]. split_and!; [done|done|]. intros a. apply Hsame.
Qed.

(** A line that is cached afresh has the bytes of the memory. *)
Lemma fetch_ok (d : device) (addr : Z) (st : CXLCoherencyState) :
  dev_ok d -> 0 <= addr < device_mem_size d -> st <> CXL_COHERENCY_INVALID ->
  exists data, mem_read (line_of addr) 64 (dv_device_mem d) = Some data /\ line_ok (dv_device_mem d) (line_of addr) (mkLine (line_of addr) st false data).
Proof.
  intros [_ _ Hs] Ha Hst. pose proof (line_of_le addr). pose proof (line_of_nonneg addr ltac:(lia)). pose proof (line_of_aligned addr). unfold device_mem_size in *.
  assert (line_of addr + 64 <= Z.of_nat (length (dv_device_mem d))) by (Z.to_euclidean_division_equations; lia).
  eexists. split; [by apply mem_read_Some; lia|]. split_and!; [apply line_of_idem|done|by apply mem_read_Some; lia].
Qed.

Lemma lookup_fields (d : device) (addr : Z) :
  (cxl_type2_cache_lookup d addr).1 = co_cache_lines (dv_coherency d) !! line_of addr /\
  dv_device_mem (cxl_type2_cache_lookup d addr).2 = dv_device_mem d /\
  co_cache_lines (dv_coherency (cxl_type2_cache_lookup d addr).2) = co_cache_lines (dv_coherency d) /\
  dv_bar_coherency (cxl_type2_cache_lookup d addr).2 = dv_bar_coherency d.
Proof. unfold cxl_type2_cache_lookup. by destruct (co_cache_lines (dv_coherency d) !! line_of addr). Qed.

Lemma cache_read_ok (d : device) (addr size : Z) :
  dev_ok d -> op_ok d (GuestRead addr size) ->
  exists bs d', mem_read addr size (dv_device_mem d) = Some bs /\ cache_read_mem d addr size = Some (le_combine bs, d') /\ dev_ok d' /\
    dv_device_mem d' = dv_device_mem d /\ (forall a, tracked d' a <-> tracked d a).
Proof.
  intros Hd (H0&Hsz&Hin&Hr&Ht). unfold device_mem_size in Hr. exists (take (Z.to_nat size) (drop (Z.to_nat addr) (dv_device_mem d))).
  assert (Hread : mem_read addr size (dv_device_mem d) = Some (take (Z.to_nat size) (drop (Z.to_nat addr) (dv_device_mem d)))) by (apply mem_read_Some; lia).
  set (bs := take _ _) in *. unfold cache_read_mem. rewrite land_line_offset.
  destruct (track_ok (count_cpu d) CXL_COH_REQ_RD_SHARED addr) as (d1&->&Hd1&Hm1&Hc1&Ht1); [by apply dev_ok_stats|done|by left|]. cbn [mbind option_bind].
  destruct (lookup_fields d1 addr) as (Hl2&Hm2&Hc2&Hb2). destruct (cxl_type2_cache_lookup d1 addr) as [line d2]. cbn [fst snd] in *.
  assert (Hd2 : dev_ok d2) by (apply (dev_ok_same d1); [done..|rewrite Hb2; by apply dev_bar]). cbn in Hm1.
  assert (Hmem : dv_device_mem d2 = dv_device_mem d) by congruence.
  assert (Htr : forall a, tracked d2 a <-> tracked d a) by (intros a; unfold tracked at 1; rewrite Hb2; apply Ht1).
  destruct (line_valid line) eqn:Hv.
  - destruct line as [l|]; [|done]. destruct (dev_lines d1 Hd1 (line_of addr) l (eq_sym Hl2)) as (_&_&Hdata). rewrite Hm1 in Hdata.
    cbn [from_option]. rewrite Z.min_l by lia. rewrite (mem_read_sub _ _ _ _ _ _ Hdata) by (pose proof (Z.mod_pos_bound addr 64); lia).
    replace (line_of addr + addr mod 64) with addr by (rewrite line_of_spec; lia). rewrite Hread. cbn [mbind option_bind].
    eexists. split; [done|]. split; [done|]. split; [by apply dev_ok_stats|]. split; [done|]. intros a. apply Htr.
  - unfold cache_read_miss. rewrite (proj2 (Z.ltb_lt addr (device_mem_size d2))) by (unfold device_mem_size; rewrite Hmem; lia).
    rewrite Hmem, Hread. cbn [mbind option_bind].
    destruct (fetch_ok d2 addr CXL_COHERENCY_SHARED Hd2) as (data&Hdata&Hline); [unfold device_mem_size; rewrite Hmem; lia|done|].
    rewrite Hmem in Hdata. rewrite Hdata. cbn [mbind option_bind]. eexists. split; [done|]. split; [done|].
    destruct (send_fields (mkMessage CXL_T2_MSG_READ size addr CXL_COHERENCY_SHARED 0 (replicate 64 0)) (cxl_type2_cache_insert d2 addr data CXL_COHERENCY_SHARED)) as (S1&S2&S3).
    split_and!.
    + by apply dev_ok_stats, dev_ok_send, dev_ok_op, dev_ok_insert.
    + etrans; [exact S1|done].
    + intros a. rewrite <- Htr. unfold tracked. change (dv_bar_coherency (count_read ?x)) with (dv_bar_coherency x). by rewrite S3.
Qed.

(** Memory and line are written alike. *)
Lemma write_through_ok (d : device) (addr : Z) (l : CXLCacheLine) (bs m data : list Z) :
  dev_ok d -> 0 <= addr -> addr mod 64 + Z.of_nat (length bs) <= 64 ->
  co_cache_lines (dv_coherency d) !! line_of addr = Some l ->
  mem_write addr bs (dv_device_mem d) = Some m -> mem_write (addr mod 64) bs (cl_data l) = Some data ->
  dev_ok (set_mem m (set_lines (<[line_of addr := mkLine (cl_tag l) CXL_COHERENCY_MODIFIED true data]> (co_cache_lines (dv_coherency d))) d)).
Proof.
  intros [Hl Hb Hs] H0 Hin Hline Hm Hd. pose proof (mem_write_length _ _ _ _ Hm) as L.
  constructor; cbn; [|done|unfold device_mem_size in *; cbn; by rewrite L].
  intros a l'. rewrite lookup_insert_Some. intros [[<- <-]|[Hne Hl']].
  - destruct (Hl _ _ Hline) as (_&_&Hdata). split_and!; [apply line_of_idem|done|].
    apply (mem_write_sub (line_of addr) 64 (addr mod 64) (dv_device_mem d) m (cl_data l) data bs); [done| |done]. replace (line_of addr + addr mod 64) with addr by (rewrite line_of_spec; lia). done.
  - destruct (Hl _ _ Hl') as (Ha&Hst&Hdata). split_and!; [done|done|]. rewrite <- Hdata. apply (mem_read_write_disjoint _ _ _ _ _ _ Hm).
    rewrite line_of_spec in Ha, Hne. Z.to_euclidean_division_equations. lia.
Qed.

Lemma cache_write_ok (d : device) (addr value size : Z) :
  dev_ok d -> op_ok d (GuestWrite addr value size) ->
  exists m d', mem_write addr (le_split (Z.to_nat size) value) (dv_device_mem d) = Some m /\ cache_write_mem d addr value size = Some d' /\ dev_ok d' /\
    dv_device_mem d' = m /\ (forall a, tracked d' a <-> tracked d a).
Proof.
  intros Hd (H0&Hsz&Hin&Hr&Ht). unfold cache_write_mem, value_bytes. rewrite land_line_offset, (Z.min_l size 8), (Z.min_l size (64 - addr mod 64)) by lia.
  set (bs := le_split (Z.to_nat size) value). assert (Lbs : length bs = Z.to_nat size) by apply le_split_length.
  rewrite take_ge by lia.
  destruct (track_ok (count_write (count_cpu d)) CXL_COH_REQ_WR_INV addr) as (d1&->&Hd1&Hm1&Hc1&Ht1); [by apply dev_ok_stats, dev_ok_stats|done|by right|]. cbn [mbind option_bind].
  destruct (lookup_fields d1 addr) as (Hl2&Hm2&Hc2&Hb2). destruct (cxl_type2_cache_lookup d1 addr) as [line d2]. cbn [fst snd] in *.
  assert (Hd2 : dev_ok d2) by (apply (dev_ok_same d1); [done..|rewrite Hb2; by apply dev_bar]). cbn in Hm1.
  assert (Hmem : dv_device_mem d2 = dv_device_mem d) by congruence.
  assert (Htr : forall a, tracked d2 a <-> tracked d a) by (intros a; unfold tracked at 1; rewrite Hb2; apply Ht1).
  assert (Hstep : exists l d3, (if line_valid line then Some (line, d2)
      else if line_of addr <? device_mem_size d2
      then data ← mem_read (line_of addr) 64 (dv_device_mem d2);
           Some (cxl_type2_cache_lookup (cxl_type2_cache_insert d2 addr data CXL_COHERENCY_MODIFIED) addr)
      else Some (line, d2)) = Some (Some l, d3) /\ dev_ok d3 /\ dv_device_mem d3 = dv_device_mem d /\
      co_cache_lines (dv_coherency d3) !! line_of addr = Some l /\ (forall a, tracked d3 a <-> tracked d a)).
  { destruct (line_valid line) eqn:Hv; [destruct line as [l|]; [|done]; exists l, d2; split_and!; [done..|by rewrite Hc2|done]|].
    pose proof (line_of_le addr). unfold device_mem_size in Hr. rewrite (proj2 (Z.ltb_lt _ _)) by (unfold device_mem_size; rewrite Hmem; lia).
    destruct (fetch_ok d2 addr CXL_COHERENCY_MODIFIED Hd2) as (data&Hdata&Hline); [unfold device_mem_size; rewrite Hmem; lia|done|]. rewrite Hdata. cbn [mbind option_bind].
    pose proof (dev_ok_op _ (dev_ok_insert d2 _ _ Hd2 Hline)) as Hins. fold (cxl_type2_cache_insert d2 addr data CXL_COHERENCY_MODIFIED) in Hins.
    set (d2' := cxl_type2_cache_insert d2 addr data CXL_COHERENCY_MODIFIED) in *. destruct (lookup_fields d2' addr) as (F1&F2&F3&F4).
    destruct (cxl_type2_cache_lookup d2' addr) as [l3 d3]. cbn [fst snd] in *. subst l3.
    assert (Hl3 : co_cache_lines (dv_coherency d2') !! line_of addr = Some (mkLine (line_of addr) CXL_COHERENCY_MODIFIED false data)) by apply lookup_insert_eq.
    rewrite Hl3. exists (mkLine (line_of addr) CXL_COHERENCY_MODIFIED false data), d3. split; [done|].
    split; [apply (dev_ok_same d2'); [done..|rewrite F4; by apply dev_bar]|]. split; [by rewrite F2|]. split; [by rewrite F3|]. intros a. rewrite <- Htr. unfold tracked. by rewrite F4. }
  destruct Hstep as (l&d3&->&Hd3&Hm3&Hl3&Htr3). cbn [mbind option_bind]. clear Hl2.
  destruct (dev_lines d3 Hd3 _ _ Hl3) as (_&_&Hdata). pose proof (mem_read_length _ _ _ _ Hdata) as Ldata. pose proof (Z.mod_pos_bound addr 64).
  destruct (mem_write_Some (addr mod 64) bs (cl_data l)) as [data Hwd]; [lia|lia|]. rewrite Hwd. cbn [mbind option_bind].
  unfold device_mem_size in Hr. destruct (mem_write_Some addr bs (dv_device_mem d)) as [m Hwm]; [lia|lia|]. exists m.
  change (device_mem_size (set_lines ?x d3)) with (device_mem_size d3). change (dv_device_mem (set_lines ?x d3)) with (dv_device_mem d3).
  rewrite (proj2 (Z.ltb_lt addr (device_mem_size d3))) by (unfold device_mem_size; rewrite Hm3; lia). rewrite Hm3, Hwm. cbn [mbind option_bind].
  eexists. split; [done|]. split; [done|]. match goal with |- dev_ok (send ?msg ?x) /\ _ => destruct (send_fields msg x) as (S1&S2&S3) end.
  split_and!; [|by rewrite S1|intros a; unfold tracked at 1; rewrite S3; apply Htr3].
  apply dev_ok_send. apply (write_through_ok d3 addr l bs m data); [done|done|lia|done|by rewrite Hm3|done].
Qed.

(** Write-backs and messages leave the memory as it is. *)
Lemma writeback_ok (d : device) (addr : Z) : dev_ok d ->
  exists d', cxl_type2_cache_writeback d addr = Some d' /\ dev_ok d' /\ dv_device_mem d' = dv_device_mem d /\ dv_bar_coherency d' = dv_bar_coherency d /\
    (forall a, is_Some (co_cache_lines (dv_coherency d') !! a) <-> is_Some (co_cache_lines (dv_coherency d) !! a)).
Proof.
  intros Hd. unfold cxl_type2_cache_writeback. destruct (co_cache_lines (dv_coherency d) !! line_of addr) as [l|] eqn:El; [|by exists d].
  destruct (cl_dirty l); [|by exists d]. destruct (dev_lines d Hd _ _ El) as (Ha&Hst&Hdata). pose proof (mem_read_length _ _ _ _ Hdata) as L.
  assert (Hr : 0 <= line_of addr /\ line_of addr + 64 <= Z.of_nat (length (dv_device_mem d))) by (unfold mem_read in Hdata; case_decide; [lia|done]).
  rewrite (proj2 (Z.ltb_lt _ _)) by (unfold device_mem_size; lia).
  assert (Hw : mem_write (line_of addr) (cl_data l) (dv_device_mem d) = Some (dv_device_mem d)).
  { destruct (mem_write_Some (line_of addr) (cl_data l) (dv_device_mem d)) as [m Hm]; [lia|lia|]. rewrite Hm. f_equal. apply list_eq. intros i.
    rewrite (mem_write_lookup _ _ _ _ i Hm). case_decide as Hi; [|done]. rewrite mem_read_Some in Hdata by lia. injection Hdata as <-.
    rewrite lookup_take_lt, lookup_drop by lia. f_equal. lia. }
  rewrite Hw. cbn [mbind option_bind]. assert (set_mem (dv_device_mem d) d = d) as -> by by destruct d.
  set (d1 := send _ d). destruct (send_fields (mkMessage CXL_T2_MSG_WRITEBACK 64 (line_of addr) (cl_state l) 0 (cl_data l)) d) as (S1&S2&S3). fold d1 in S1, S2, S3.
  eexists. split; [done|]. split; [|split; [exact S1|split; [exact S3|]]].
  - apply dev_ok_op, dev_ok_insert; [by apply dev_ok_send|]. rewrite S1. done.
  - intros a. cbn. rewrite S2. destruct (decide (a = line_of addr)) as [->|]; [rewrite lookup_insert_eq, El|rewrite lookup_insert_ne by done]; split; eauto.
Qed.

Lemma snoop_ok (d : device) (addr : Z) (inv : bool) : dev_ok d ->
  exists h d', cxl_type2_snoop_request d addr inv = Some (h, d') /\ dev_ok d' /\ dv_device_mem d' = dv_device_mem d /\ dv_bar_coherency d' = dv_bar_coherency d.
Proof.
  intros Hd. unfold cxl_type2_snoop_request. assert (Hd0 : dev_ok (count_snoop d)) by by destruct Hd.
  destruct (co_cache_lines (dv_coherency (count_snoop d)) !! line_of addr) as [l|] eqn:El; [|by eexists _, _].
  assert (Hw : exists d1, (if cl_dirty l then cxl_type2_cache_writeback (count_snoop d) addr else Some (count_snoop d)) = Some d1 /\ dev_ok d1 /\
    dv_device_mem d1 = dv_device_mem d /\ dv_bar_coherency d1 = dv_bar_coherency d).
  { destruct (cl_dirty l); [|by eexists]. destruct (writeback_ok _ addr Hd0) as (d1&->&?&?&?&_). by eexists. }
  destruct Hw as (d1&->&Hd1&Hm1&Hb1). cbn [mbind option_bind]. destruct (co_cache_lines (dv_coherency d1) !! line_of addr) as [l'|] eqn:El'; [|by eexists _, _].
  eexists _, _. split; [done|]. destruct inv; (split; [|by split]); [by apply dev_ok_delete|].
  apply dev_ok_insert; [done|]. destruct (dev_lines d1 Hd1 _ _ El') as (?&?&?). done.
Qed.

Lemma invalidate_fields (d : device) (addr : Z) :
  dv_device_mem (cxl_type2_cache_invalidate d addr) = dv_device_mem d /\ dv_bar_coherency (cxl_type2_cache_invalidate d addr) = dv_bar_coherency d /\
  (forall a, line_of addr <> a -> co_cache_lines (dv_coherency (cxl_type2_cache_invalidate d addr)) !! a = co_cache_lines (dv_coherency d) !! a).
Proof.
  unfold cxl_type2_cache_invalidate. destruct (co_cache_lines (dv_coherency d) !! line_of addr); [|done]. split_and!; [done|done|].
  intros a Ha. by apply lookup_delete_ne.
Qed.

Lemma invalidate_ok (d : device) (addr : Z) : dev_ok d ->
  dev_ok (cxl_type2_cache_invalidate d addr) /\ dv_device_mem (cxl_type2_cache_invalidate d addr) = dv_device_mem d /\
  dv_bar_coherency (cxl_type2_cache_invalidate d addr) = dv_bar_coherency d.
Proof. intros Hd. unfold cxl_type2_cache_invalidate. destruct (_ !! _); [|done]. split; [by apply dev_ok_op, dev_ok_delete|done]. Qed.

Lemma recv_ok (d : device) (m : CXLType2Message) : dev_ok d ->
  exists d', recv_message d m = Some d' /\ dev_ok d' /\ dv_device_mem d' = dv_device_mem d /\ dv_bar_coherency d' = dv_bar_coherency d.
Proof.
  intros Hd. unfold recv_message. destruct (m2_type m); try (by eexists).
  - destruct (snoop_ok d (m2_addr m) (bool_decide (m2_coherency_state m <> CXL_COHERENCY_INVALID)) Hd) as (h&d'&->&?&?&?). by eexists.
  - eexists. split; [done|]. by apply invalidate_ok.
Qed.

Lemma dev_step_ok (d : device) (o : dev_op) : dev_ok d -> op_ok d o ->
  exists v d' m', dev_step d o = Some (v, d') /\ plain_step (dv_device_mem d) o = Some (v, m') /\ dev_ok d' /\ dv_device_mem d' = m' /\
    device_mem_size d' = device_mem_size d /\ (forall a, tracked d' a <-> tracked d a).
Proof.
  intros Hd Ho. destruct o as [addr size|addr value size|m|addr]; cbn [dev_step plain_step].
  - destruct (cache_read_ok d addr size Hd Ho) as (bs&d'&->&->&Hd'&Hm&Ht). cbn. eexists _, _, _. split_and!; [done..|unfold device_mem_size; by rewrite Hm|done].
  - destruct (cache_write_ok d addr value size Hd Ho) as (m&d'&Hm&->&Hd'&Hm'&Ht). rewrite Hm. cbn. eexists _, _, _. split_and!; [done..| |done].
    unfold device_mem_size. by rewrite Hm', (mem_write_length _ _ _ _ Hm).
  - destruct (recv_ok d m Hd) as (d'&->&Hd'&Hm&Hb). cbn. eexists _, _, _. split_and!; [done..|unfold device_mem_size; by rewrite Hm|].
    intros a. unfold tracked. by rewrite Hb.
  - destruct (writeback_ok d addr Hd) as (d'&->&Hd'&Hm&Hb&_). cbn. eexists _, _, _. split_and!; [done..|unfold device_mem_size; by rewrite Hm|].
    intros a. unfold tracked. by rewrite Hb.
Qed.

Lemma dev_run_ok (d : device) (os : list dev_op) (Hd : dev_ok d) (Hos : Forall (op_ok d) os) :
  exists vs d', dev_run d os = Some (vs, d') /\ plain_run (dv_device_mem d) os = Some (vs, dv_device_mem d') /\ dev_ok d'.
Proof.
  revert d Hd Hos. induction os as [|o os IH]; intros d Hd Hos; [by exists [], d|]. apply Forall_cons in Hos as [Ho Hos].
  destruct (dev_step_ok d o Hd Ho) as (v&d1&m1&Hs&Hp&Hd1&Hm1&Hsz&Ht). cbn [dev_run plain_run]. rewrite Hs, Hp. cbn [mbind option_bind].
  destruct (IH d1 Hd1) as (vs&d2&Hr&Hpr&Hd2).
  { apply (Forall_impl _ _ _ Hos). intros o'. destruct o'; cbn; rewrite ?Hsz, ?Ht; done. }
  rewrite Hr. subst m1. rewrite Hpr. cbn. by eexists _, _.
Qed.


(** ** Round trip and atomics *)

(** A state of the tracking in which the line is known and the mutex is free. *)
Definition ready (b : CXLBARCoherencyState) (addr : Z) : Prop :=
  bc_lock b = false /\ bc_enabled b = true /\ is_Some (bc_snoop_filter b !! line_of addr).

Lemma request_ready (b : CXLBARCoherencyState) (req : CXLCoherencyReqType) (addr : Z) (s : CXLCoherencyDomain) :
  ready b addr -> req ∈ [CXL_COH_REQ_RD_SHARED; CXL_COH_REQ_RD_OWN; CXL_COH_REQ_WR_INV] ->
  exists r b', cxl_bar_coherency_request b req addr s = Some (r, b') /\ ready b' addr.
Proof.
  intros (Hl&He&[e Hf]) Hreq. unfold cxl_bar_coherency_request. rewrite He, (mutex_lock_free b Hl). cbn [negb mbind option_bind].
  set (b0 := count coherency_requests (set_lock true b)). assert (Hf0 : bc_snoop_filter b0 !! line_of addr = Some e) by done.
  assert (He0 : bc_enabled b0 = true) by done. clearbody b0.
  assert (Hb : exists r b1, request_body b0 req addr s = Some (r, b1) /\ bc_enabled b1 = true /\ is_Some (bc_snoop_filter b1 !! line_of addr)).
  { repeat (apply elem_of_cons in Hreq as [->|Hreq]); [| | |by apply not_elem_of_nil in Hreq]; cbn [request_body];
      unfold request_rd_shared, request_rd_own, request_wr_inv; rewrite Hf0; eexists _, _; (split; [done|]).
    - destruct (device_bias_hit e s), (host_bias_hit e s), (is_modified e); cbn; rewrite lookup_insert_eq; eauto.
    - destruct (device_bias_hit e s), (host_bias_hit e s), (bool_decide (se_owner_domain e <> s)), (is_modified e); cbn; rewrite lookup_insert_eq; eauto.
    - destruct (bool_decide (se_owner_domain e <> s) && _), (is_modified e); cbn; rewrite lookup_insert_eq; eauto. }
  destruct Hb as (r&b1&->&He1&Hf1). cbn. by eexists _, _.
Qed.

Lemma insert_ready (b : CXLBARCoherencyState) (addr : Z) (st : CXLCoherencyState) (s : CXLCoherencyDomain) :
  ready b addr -> exists b', cxl_bar_snoop_insert b addr st s = Some b' /\ ready b' addr.
Proof.
  intros (Hl&He&[e Hf]). unfold cxl_bar_snoop_insert. rewrite (mutex_lock_free b Hl). cbn [mbind option_bind]. cbn [bc_snoop_filter set_lock]. rewrite Hf.
  eexists. split; [done|]. split_and!; [done|done|]. cbn. rewrite lookup_insert_eq. eauto.
Qed.

Lemma update_ready (b : CXLBARCoherencyState) (addr : Z) (st : CXLCoherencyState) (s : CXLCoherencyDomain) :
  ready b addr -> exists b', cxl_bar_snoop_update b addr st s = Some b' /\ ready b' addr.
Proof.
  intros (Hl&He&[e Hf]). unfold cxl_bar_snoop_update. rewrite (mutex_lock_free b Hl). cbn [mbind option_bind]. cbn [bc_snoop_filter set_lock]. rewrite Hf.
  eexists. split; [done|]. destruct (_ <? _); [|destruct (_ <? _)]; (split_and!; [done|done|]); cbn; rewrite lookup_insert_eq; eauto.
Qed.

Lemma lookup_ready (b : CXLBARCoherencyState) (addr : Z) : ready b addr ->
  exists e b', cxl_bar_snoop_lookup b addr = Some (e, b') /\ ready b' addr.
Proof. intros (Hl&He&[e Hf]). unfold cxl_bar_snoop_lookup. rewrite (mutex_lock_free b Hl). cbn. rewrite Hf. eexists _, _. split; [done|]. by split_and!; [| |exists e]. Qed.

Lemma back_invalidate_ready (b : CXLBARCoherencyState) (addr size : Z) (s : CXLCoherencyDomain) (c : bool) :
  ready b addr -> ready (if c then cxl_bar_back_invalidate b addr size s else b) addr.
Proof. by destruct c. Qed.

Lemma region_request_ready (b : CXLBARCoherencyState) (addr : Z) (w : bool) : ready b addr -> exists b', region_request b addr w = Some b' /\ ready b' addr.
Proof.
  intros Hb. unfold region_request. destruct (find_region_for_addr b addr) as [[i r]|]; [|eauto]. cbv zeta. set (b0 := set_regions _ _ b).
  assert (H0 : ready b0 addr) by done. destruct (rg_coherent r); [|eauto].
  destruct (request_ready b0 (if w then CXL_COH_REQ_WR_INV else CXL_COH_REQ_RD_SHARED) addr CXL_DOMAIN_CPU H0) as (r1&b'&->&H'); [destruct w; set_solver|]. cbn. eauto.
Qed.

Lemma value_bytes_small (value size : Z) : 0 < size <= 8 -> value_bytes value size = le_split (Z.to_nat size) value.
Proof. intros. unfold value_bytes. by rewrite Z.min_l by lia. Qed.

(** A value written through the tracking to memory of a BAR is read back, cut to its size. *)
Theorem coherent_roundtrip (d : device) (offset value size bar_index : Z) (m : list Z)
  (Hr : ready (dv_bar_coherency d) offset) (Hm : bar_memory d bar_index = Some m)
  (Ho : 0 <= offset) (Hs : 0 < size <= 8) (Hin : offset + size <= Z.of_nat (length m)) (Htop : Z.of_nat (length m) < 2 ^ 64) :
  exists d1 d2, cxl_bar_coherent_write d offset value size bar_index = Some d1 /\
    cxl_bar_coherent_read d1 offset size bar_index = Some (value mod 256 ^ size, d2).
Proof.
  unfold cxl_bar_coherent_write. rewrite Hm. pose proof Hr as (_&He&_). rewrite He.
  destruct (region_request_ready _ _ true Hr) as (b1&->&R1). cbn [mbind option_bind].
  destruct (insert_ready b1 offset CXL_COHERENCY_MODIFIED CXL_DOMAIN_CPU R1) as (b2&->&R2). cbn [mbind option_bind].
  destruct (lookup_ready b2 offset R2) as (e&b3&->&R3). cbn [mbind option_bind].
  apply (back_invalidate_ready _ _ size CXL_DOMAIN_CPU (gpu_may_hold e)) in R3. set (b4 := if gpu_may_hold e then _ else _) in *. clearbody b4.
  rewrite (wrap64_small (offset + size)), (proj2 (Z.leb_le _ _)) by (unfold u64; lia). rewrite value_bytes_small by done.
  pose proof (le_split_length (Z.to_nat size) value) as Lb.
  destruct (mem_write_Some offset (le_split (Z.to_nat size) value) m) as [m1 Hw]; [lia|lia|]. rewrite Hw. cbn [mbind option_bind].
  match goal with |- exists d1 d2, Some ?x = Some d1 /\ _ => exists x; set (d1 := x) end.
  assert (Hm1 : bar_memory d1 bar_index = Some m1).
  { unfold d1, bar_memory, set_bar_memory in *. destruct (bar_index =? 2); [done|]. destruct (bar_index =? 4); done. }
  assert (Hb1 : dv_bar_coherency d1 = b4) by (unfold d1, set_bar_memory; by destruct (bar_index =? 2)).
  clearbody d1. unfold cxl_bar_coherent_read. rewrite Hm1, Hb1. pose proof R3 as (_&He1&_). rewrite He1.
  destruct (region_request_ready _ _ false R3) as (b5&->&R5). cbn [mbind option_bind].
  destruct (insert_ready b5 offset CXL_COHERENCY_SHARED CXL_DOMAIN_CPU R5) as (b6&->&_). cbn [mbind option_bind].
  pose proof (mem_write_length _ _ _ _ Hw) as L. rewrite (wrap64_small (offset + size)), (proj2 (Z.leb_le _ _)) by (unfold u64; lia).
  pose proof (mem_read_write_same _ _ _ _ Hw) as Hrd. rewrite Lb, Z2Nat.id in Hrd by lia. rewrite Z.min_l, Hrd by lia. cbn [mbind option_bind].
  rewrite le_combine_split, Z2Nat.id by lia. eexists. split; done.
Qed.

Lemma atomic_run (d : device) (addr operand1 operand2 : Z) (op : CXLAtomicOp) (size : Z) :
  ready (dv_bar_coherency d) addr -> 0 <= addr -> 0 < size <= 8 -> addr + size <= device_mem_size d ->
  exists bs m b', mem_read addr size (dv_device_mem d) = Some bs /\
    mem_write addr (le_split (Z.to_nat size) (atomic_result op (le_combine bs) operand1 operand2)) (dv_device_mem d) = Some m /\
    ready b' addr /\ cxl_bar_atomic_op d addr operand1 operand2 op size = Some (le_combine bs, set_bar b' (set_mem m d)).
Proof.
  intros Hr Ha Hs Hin. unfold cxl_bar_atomic_op. rewrite (proj2 (Z.leb_gt _ _)) by lia. pose proof Hr as (_&He&_). rewrite He. unfold device_mem_size in Hin.
  destruct (request_ready _ CXL_COH_REQ_RD_OWN addr CXL_DOMAIN_CPU Hr) as (r&b1&->&R1); [set_solver|]. cbn [mbind option_bind].
  pose proof R1 as (Hl1&He1&_). rewrite (mutex_lock_free b1 Hl1). cbn [mbind option_bind]. rewrite (Z.min_l size 8) by lia.
  rewrite mem_read_Some by lia. cbn [mbind option_bind]. set (bs := take _ _). eexists bs. rewrite value_bytes_small by done.
  set (v := atomic_result _ _ _ _). pose proof (le_split_length (Z.to_nat size) v) as Lb.
  destruct (mem_write_Some addr (le_split (Z.to_nat size) v) (dv_device_mem d)) as [m Hw]; [lia|lia|]. rewrite Hw. cbn [mbind option_bind]. exists m.
  assert (R1' : ready (mutex_unlock (set_lock true b1)) addr) by (by destruct R1 as (?&?&?)). cbn [bc_enabled mutex_unlock set_lock]. rewrite He1.
  destruct (update_ready _ addr CXL_COHERENCY_MODIFIED CXL_DOMAIN_CPU R1') as (b2&Hu&R2). cbn [mutex_unlock set_lock] in Hu. rewrite Hu. cbn [mbind option_bind].
  destruct (lookup_ready b2 addr R2) as (e&b3&->&R3). cbn [mbind option_bind]. eexists. split; [done|]. split; [done|].
  split; [|done]. by apply back_invalidate_ready.
Qed.

(** An atomic operation inside the memory returns the old value and stores its result; one that
    starts in the memory and ends behind it is undefined. *)
Theorem atomic_functional (d : device) (addr operand1 operand2 : Z) (op : CXLAtomicOp) (size : Z)
  (Hr : ready (dv_bar_coherency d) addr) (Ha : 0 <= addr < device_mem_size d) (Hs : 0 < size <= 8) :
  if addr + size <=? device_mem_size d
  then exists bs d', mem_read addr size (dv_device_mem d) = Some bs /\ cxl_bar_atomic_op d addr operand1 operand2 op size = Some (le_combine bs, d') /\
         Some (dv_device_mem d') = mem_write addr (le_split (Z.to_nat size) (atomic_result op (le_combine bs) operand1 operand2)) (dv_device_mem d)
  else cxl_bar_atomic_op d addr operand1 operand2 op size = None.
Proof.
  destruct (addr + size <=? device_mem_size d) eqn:E; zify_bool.
  - destruct (atomic_run d addr operand1 operand2 op size Hr ltac:(lia) Hs E) as (bs&m&b'&H1&H2&_&H3). exists bs, (set_bar b' (set_mem m d)). rewrite H2. done.
  - unfold cxl_bar_atomic_op. rewrite (proj2 (Z.leb_gt _ _)) by lia. pose proof Hr as (_&He&_). rewrite He.
    destruct (request_ready _ CXL_COH_REQ_RD_OWN addr CXL_DOMAIN_CPU Hr) as (r&b1&->&R1); [set_solver|]. cbn [mbind option_bind].
    rewrite (mutex_lock_free b1) by apply R1. cbn [mbind option_bind]. unfold mem_read. unfold device_mem_size in E. rewrite decide_False by lia. done.
Qed.

(** ** Stale lines *)

(** A read of a line that is cached returns its bytes, whatever the memory holds. *)
Lemma cached_read (d : device) (addr size : Z) (l : CXLCacheLine) :
  ready (dv_bar_coherency d) addr -> co_cache_lines (dv_coherency d) !! line_of addr = Some l -> cl_state l <> CXL_COHERENCY_INVALID ->
  0 <= size -> addr mod 64 + size <= 64 ->
  exists d', cache_read_mem d addr size = (bs ← mem_read (addr mod 64) size (cl_data l); Some (le_combine bs, d')).
Proof.
  intros Hr Hl Hst Hs Hin. unfold cache_read_mem, track. rewrite land_line_offset. change (dv_bar_coherency (count_cpu d)) with (dv_bar_coherency d).
  pose proof Hr as (_&He&_). rewrite He. destruct (request_ready _ CXL_COH_REQ_RD_SHARED addr CXL_DOMAIN_CPU Hr) as (r&b&->&_); [set_solver|].
  cbn [mbind option_bind]. set (d1 := set_bar b (count_cpu d)). destruct (lookup_fields d1 addr) as (H1&_).
  change (co_cache_lines (dv_coherency d1)) with (co_cache_lines (dv_coherency d)) in H1. rewrite Hl in H1.
  destruct (cxl_type2_cache_lookup d1 addr) as [line d2]. cbn in H1. subst line. cbn [line_valid]. rewrite bool_decide_true by done. cbn [from_option].
  rewrite Z.min_l by (pose proof (Z.mod_pos_bound addr 64); lia). exists (count_read d2). by destruct (mem_read (addr mod 64) size (cl_data l)).
Qed.

(** An atomic operation does not touch the cache: the guest goes on reading the old value of a
    cached line although the memory holds the new one. *)
Theorem atomic_stale (d : device) (addr operand1 operand2 : Z) (op : CXLAtomicOp) (size : Z) (l : CXLCacheLine)
  (Hd : dev_ok d) (Ho : op_ok d (GuestRead addr size)) (Hl : co_cache_lines (dv_coherency d) !! line_of addr = Some l) :
  exists old d1 d2, cxl_bar_atomic_op d addr operand1 operand2 op size = Some (old, d1) /\
    mem_read addr size (dv_device_mem d1) = Some (le_split (Z.to_nat size) (atomic_result op old operand1 operand2)) /\
    cache_read_mem d1 addr size = Some (old, d2).
Proof.
  destruct Ho as (H0&Hs&Hin&Hr&Ht). destruct (dev_bar d Hd) as [[_ Hlock] Hen]. destruct (dev_lines d Hd _ _ Hl) as (_&Hst&Hdata).
  destruct (atomic_run d addr operand1 operand2 op size) as (bs&m&b'&H1&H2&R&H3); [done|done|done|done|].
  exists (le_combine bs), (set_bar b' (set_mem m d)).
  destruct (cached_read (set_bar b' (set_mem m d)) addr size l R Hl Hst ltac:(lia) Hin) as (d2&Hread). exists d2. split; [done|]. split.
  - cbn [dv_device_mem set_bar set_mem]. pose proof (mem_read_write_same _ _ _ _ H2) as Hw. rewrite le_split_length, Z2Nat.id in Hw by lia. done.
  - rewrite Hread, (mem_read_sub _ _ _ _ _ _ Hdata) by (pose proof (Z.mod_pos_bound addr 64); lia).
    replace (line_of addr + addr mod 64) with addr by (rewrite line_of_spec; lia). by rewrite H1.
Qed.

(** A write of the GPU drops the first line of its range from the cache; a later line of the range
    that is cached keeps its old bytes for the guest. *)
Theorem gpu_write_stale (d : device) (offset addr size : Z) (buf : list Z) (base : Z) (l : CXLCacheLine) (old : list Z)
  (Hd : dev_ok d) (Ho : op_ok d (GuestRead addr size)) (Hl : co_cache_lines (dv_coherency d) !! line_of addr = Some l)
  (H0 : 0 <= offset) (Hend : offset + Z.of_nat (length buf) <= device_mem_size d) (Htop : device_mem_size d < 2 ^ 64)
  (Hlate : line_of offset + 64 <= addr) (Hin : addr + size <= offset + Z.of_nat (length buf)) (Hold : mem_read addr size (dv_device_mem d) = Some old) :
  exists d1 d2, cxl_type2_gpu_write true None base d offset buf = Some (0, d1) /\
    mem_read addr size (dv_device_mem d1) = mem_read (addr - offset) size buf /\ cache_read_mem d1 addr size = Some (le_combine old, d2).
Proof.
  destruct Ho as (Ha&Hs&Hline&Hr&Ht). destruct (dev_bar d Hd) as [[_ Hlock] Hen]. destruct (dev_lines d Hd _ _ Hl) as (_&Hst&Hdata).
  unfold cxl_type2_gpu_write. cbn [negb]. rewrite (wrap64_small (offset + _)), (proj2 (Z.leb_le _ _)) by (unfold u64; lia). unfold device_mem_size in *.
  destruct (mem_write_Some offset buf (dv_device_mem d)) as [m Hm]; [lia|lia|]. rewrite Hm. cbn [mbind option_bind].
  pose proof (line_of_le addr). pose proof (line_of_aligned addr). pose proof (line_of_aligned offset). pose proof (line_of_le offset).
  assert (Hne : line_of offset <> line_of addr) by lia. set (d1 := count_gpu _). exists d1.
  destruct (invalidate_fields (set_mem m d) offset) as (Hm1&Hb1&Hkeep).
  assert (Hm1' : dv_device_mem d1 = m) by exact Hm1. assert (Hb1' : dv_bar_coherency d1 = dv_bar_coherency d) by exact Hb1.
  assert (Hl1 : co_cache_lines (dv_coherency d1) !! line_of addr = Some l) by (rewrite <- Hl; by apply Hkeep). clearbody d1.
  destruct (cached_read d1 addr size l) as (d2&Hread); [by rewrite Hb1'|done|done|lia|done|]. exists d2. split; [done|]. split.
  - rewrite Hm1'. symmetry. pose proof (mem_read_write_same _ _ _ _ Hm) as Hw.
    rewrite (mem_read_sub _ _ _ _ _ _ Hw) by lia. f_equal. lia.
  - rewrite Hread, (mem_read_sub _ _ _ _ _ _ Hdata) by (pose proof (Z.mod_pos_bound addr 64); lia).
    replace (line_of addr + addr mod 64) with addr by (rewrite line_of_spec; lia). by rewrite Hold.
Qed.

(** The test of the range of a GPU access wraps: an offset just below [2^64] passes it and the
    access is outside of the memory. *)
Theorem gpu_read_wraps (d : device) (k size base : Z) (Hk : 0 < k <= size) (Hs : size - k <= device_mem_size d) (Htop : size < 2 ^ 64) (Hd : device_mem_size d < 2 ^ 63) (Hk2 : k < 2 ^ 63) :
  cxl_type2_gpu_read true None base d (2 ^ 64 - k) size = None.
Proof.
  unfold cxl_type2_gpu_read. cbn [negb]. assert ((2 ^ 64 - k) ⊞ size = size - k) as ->.
  { unfold wrap64. replace (2 ^ 64 - k + size) with (size - k + 1 * 2 ^ 64) by lia. rewrite Z.mod_add, Z.mod_small by lia. done. }
  rewrite (proj2 (Z.leb_le _ _)) by lia. unfold mem_read. unfold device_mem_size in *. by rewrite decide_False by lia.
Qed.

(** ** Witnesses *)

(** A device of four lines, all tracked, connected to the simulator. *)
Definition demo_tracking : CXLBARCoherencyState :=
  default cxl_bar_coherency_init (bar_run cxl_bar_coherency_init [OpAddRegion 4 0 256 true true; OpSetBias 0 256 CXL_BIAS_MODE_HOST]).

Lemma demo_tracking_reachable : bar_reachable demo_tracking.
Proof.
  apply (bar_run_reachable [OpAddRegion 4 0 256 true true; OpSetBias 0 256 CXL_BIAS_MODE_HOST] cxl_bar_coherency_init); [constructor|vm_compute; reflexivity].
Qed.

Definition demo_device : device := mkDevice (seqZ 0 256) (replicate 256 7) cxl_type2_coherency_init demo_tracking true [] (mkT2Stats 0 0 0 0).

Lemma demo_device_ok : dev_ok demo_device.
Proof.
  constructor.
  - intros a l H. cbn in H. by rewrite lookup_empty in H.
  - split; [apply reachable_idle, demo_tracking_reachable|vm_compute; reflexivity].
  - vm_compute. reflexivity.
Qed.

Definition demo_accesses : list dev_op :=
  [GuestRead 72 8; GuestWrite 68 1000 2; Receive (mkMessage CXL_T2_MSG_SNOOP_REQ 64 64 CXL_COHERENCY_SHARED 1 []); GuestRead 68 4; Writeback 130].

Ltac demo_op := cbn [op_ok]; split; [lia|split; [lia|split; [vm_compute; discriminate|split; [vm_compute; discriminate|vm_compute; eauto]]]].


Lemma coherent_roundtrip_witness : exists d1 d2, cxl_bar_coherent_write demo_device 100 (-2) 4 2 = Some d1 /\
  cxl_bar_coherent_read d1 100 4 2 = Some (2 ^ 32 - 2, d2).
Proof.
  apply (coherent_roundtrip demo_device 100 (-2) 4 2 (replicate 256 7)).
  - split; [vm_compute; reflexivity|split; [vm_compute; reflexivity|vm_compute; eauto]].
  - reflexivity.
  - lia.
  - lia.
  - vm_compute. discriminate.
  - vm_compute. reflexivity.
Defined.

Lemma demo_ready (addr : Z) : is_Some (bc_snoop_filter demo_tracking !! line_of addr) -> ready demo_tracking addr.
Proof. intros H. split; [vm_compute; reflexivity|split; [vm_compute; reflexivity|exact H]]. Qed.

Lemma atomic_functional_witness :
  (exists bs d', mem_read 16 8 (dv_device_mem demo_device) = Some bs /\ cxl_bar_atomic_op demo_device 16 5 0 CXL_ATOMIC_ADD 8 = Some (le_combine bs, d') /\
     Some (dv_device_mem d') = mem_write 16 (le_split 8 (le_combine bs ⊞ 5)) (dv_device_mem demo_device)) /\
  cxl_bar_atomic_op demo_device 252 5 0 CXL_ATOMIC_ADD 8 = None.
Proof.
  split.
  - apply (atomic_functional demo_device 16 5 0 CXL_ATOMIC_ADD 8); [apply demo_ready; vm_compute; eauto|split; vm_compute; [discriminate|reflexivity]|lia].
  - apply (atomic_functional demo_device 252 5 0 CXL_ATOMIC_ADD 8); [apply demo_ready; vm_compute; eauto|split; vm_compute; [discriminate|reflexivity]|lia].
Defined.

(** The device after the guest has read its second line. *)
Definition demo_cached : device := from_option snd demo_device (dev_run demo_device [GuestRead 72 8]).

Lemma demo_cached_ok : dev_ok demo_cached.
Proof.
  destruct (dev_run_ok demo_device [GuestRead 72 8] demo_device_ok) as (vs&d'&H1&_&H3); [constructor; [demo_op|constructor]|].
  unfold demo_cached. by rewrite H1.
Qed.

Lemma atomic_stale_witness : exists old d1 d2, cxl_bar_atomic_op demo_cached 72 1 0 CXL_ATOMIC_SWAP 1 = Some (old, d1) /\
  mem_read 72 1 (dv_device_mem d1) = Some [1] /\ cache_read_mem d1 72 1 = Some (72, d2).
Proof.
  destruct (co_cache_lines (dv_coherency demo_cached) !! line_of 72) as [l|] eqn:E; [|vm_compute in E; discriminate].
  destruct (atomic_stale demo_cached 72 1 0 CXL_ATOMIC_SWAP 1 l demo_cached_ok) as (old&d1&d2&H1&H2&H3); [demo_op|exact E|].
  assert (old = 72) as -> by (vm_compute in H1; injection H1 as <- _; reflexivity). exists 72, d1, d2. split; [exact H1|split; [exact H2|exact H3]].
Defined.

Lemma gpu_write_stale_witness : exists d1 d2, cxl_type2_gpu_write true None 0 demo_cached 0 (replicate 128 9) = Some (0, d1) /\
  mem_read 72 2 (dv_device_mem d1) = Some [9; 9] /\ cache_read_mem d1 72 2 = Some (72 + 256 * 73, d2).
Proof.
  destruct (co_cache_lines (dv_coherency demo_cached) !! line_of 72) as [l|] eqn:E; [|vm_compute in E; discriminate].
  destruct (gpu_write_stale demo_cached 0 72 2 (replicate 128 9) 0 l [72; 73] demo_cached_ok) as (d1&d2&H1&H2&H3);
    [demo_op|exact E|lia|vm_compute; discriminate|vm_compute; reflexivity|vm_compute; discriminate|vm_compute; discriminate|vm_compute; reflexivity|].
  exists d1, d2. split; [exact H1|]. split; [rewrite H2; vm_compute; reflexivity|exact H3].
Defined.

Lemma gpu_read_wraps_witness : cxl_type2_gpu_read true None 0 demo_device (2 ^ 64 - 8) 64 = None.
Proof. apply (gpu_read_wraps demo_device 8 64 0); [lia|vm_compute; discriminate|lia|vm_compute; reflexivity|lia]. Defined.
