(* ===== verification/HetGpu.v ===== *)
(** * The GPU backend of the type 2 device ([library/qemu/hw/cxl/cxl_hetgpu.c])

    The backend passes memory and kernel operations to a CUDA library that it loads at run time,
    or simulates GPU memory itself.  The library is a parameter: [cuda_api] has a field for each
    function that the source looks up, [None] if the library lacks it, over a type [C] of its
    states.  Calls return a CUDA error code, 0 for success.  [HetGPUState] is the structure of that name, handles and
    pointers are integers, 0 is [NULL].  The mutex around calls of the library is taken and released in
    every function and is left out; so are messages to the log and the parts of the device
    properties that nothing reads.

    [sim_htod_dtoh] shows that the simulated memory keeps what is copied to it and that copies
    change nothing else, [sim_malloc_fresh] that allocations do not overlap, [hetgpu_init_result]
    when the backend is initialised, [sim_dtod_wraps] is a defect. *)
From S2P Require Import Prelude.
#[local] Open Scope Z_scope.

Inductive HetGPUBackendType :=
  HETGPU_BACKEND_AUTO | HETGPU_BACKEND_INTEL | HETGPU_BACKEND_AMD | HETGPU_BACKEND_NVIDIA | HETGPU_BACKEND_TENSTORRENT | HETGPU_BACKEND_SIMULATION.

Inductive HetGPUError :=
  HETGPU_SUCCESS | HETGPU_ERROR_NOT_INITIALIZED | HETGPU_ERROR_NO_DEVICE | HETGPU_ERROR_INVALID_DEVICE | HETGPU_ERROR_INVALID_CONTEXT |
  HETGPU_ERROR_OUT_OF_MEMORY | HETGPU_ERROR_INVALID_PTX | HETGPU_ERROR_LAUNCH_FAILED | HETGPU_ERROR_INVALID_VALUE | HETGPU_ERROR_NOT_SUPPORTED |
  HETGPU_ERROR_UNKNOWN.

#[global] Instance backend_eq_dec : EqDecision HetGPUBackendType.
Proof. solve_decision. Defined.

#[global] Instance gpu_error_eq_dec : EqDecision HetGPUError.
Proof. solve_decision. Defined.

Definition backend_val (b : HetGPUBackendType) : Z :=
  match b with
  | HETGPU_BACKEND_AUTO => 0 | HETGPU_BACKEND_INTEL => 1 | HETGPU_BACKEND_AMD => 2 | HETGPU_BACKEND_NVIDIA => 3
  | HETGPU_BACKEND_TENSTORRENT => 4 | HETGPU_BACKEND_SIMULATION => 5
  end.

Record HetGPUDeviceProps := mkProps {
  pr_name : list Z;
  pr_total_memory : Z;
  pr_compute_capability_major : Z;
  pr_compute_capability_minor : Z;
  pr_max_threads_per_block : Z;
  pr_warp_size : Z;
  pr_multiprocessor_count : Z;
  pr_backend_type : HetGPUBackendType
}.

Record HetGPUSimAlloc := mkSimAlloc { sa_dev_ptr : Z; sa_host_buffer : list Z; sa_size : Z }.

Record HetGPUState := mkHetGPU {
  hg_initialized : bool;
  hg_backend : HetGPUBackendType;
  hg_context : Z;
  hg_device_index : Z;
  hg_cuda_device : Z;
  hg_props : HetGPUDeviceProps;
  hg_allocated_memory : Z;
  hg_sim_allocs : list HetGPUSimAlloc;
  hg_sim_next_ptr : Z;
  hg_kernel_launches : Z;
  hg_memory_ops : Z;
  hg_coherency_ops : Z
}.

Record HetGPULaunchConfig := mkLaunch { lc_grid_dim : list Z; lc_block_dim : list Z; lc_shared_mem_bytes : Z }.

(** ** The CUDA library *)
Record cuda_api (C : Type) := mkCuda {
  cuInit : option (C -> Z * C);
  cuDeviceGetCount : option (C -> (Z * Z) * C);
  cuDeviceGet : option (C -> Z -> (Z * Z) * C);
  cuDeviceGetName : option (C -> Z -> list Z);
  cuDeviceTotalMem : option (C -> Z -> Z * Z);
  cuDeviceGetAttribute : option (C -> Z -> Z -> Z * Z);
  cuCtxCreate : option (C -> Z -> (Z * Z) * C);
  cuCtxDestroy : option (C -> Z -> C);
  cuCtxSynchronize : option (C -> Z * C);
  cuMemAlloc : option (C -> Z -> (Z * Z) * C);
  cuMemFree : option (C -> Z -> Z * C);
  cuMemcpyHtoD : option (C -> Z -> list Z -> Z * C);
  cuMemcpyDtoH : option (C -> list Z -> Z -> (Z * list Z) * C);
  cuMemcpyDtoD : option (C -> Z -> Z -> Z -> Z * C);
  cuModuleLoadData : option (C -> list Z -> (Z * Z) * C);
  cuModuleGetFunction : option (C -> Z -> list Z -> (Z * Z) * C);
  cuLaunchKernel : option (C -> Z -> HetGPULaunchConfig -> list Z -> Z * C);
  cuCtxPushCurrent : option (C -> Z -> C);
  cuCtxPopCurrent : option (C -> C);
  cuCtxSetCurrent : option (C -> Z -> Z * C)
}.

Arguments cuInit {C} _.
Arguments cuDeviceGetCount {C} _.
Arguments cuDeviceGet {C} _.
Arguments cuDeviceGetName {C} _.
Arguments cuDeviceTotalMem {C} _.
Arguments cuDeviceGetAttribute {C} _.
Arguments cuCtxCreate {C} _.
Arguments cuCtxDestroy {C} _.
Arguments cuCtxSynchronize {C} _.
Arguments cuMemAlloc {C} _.
Arguments cuMemFree {C} _.
Arguments cuMemcpyHtoD {C} _.
Arguments cuMemcpyDtoH {C} _.
Arguments cuMemcpyDtoD {C} _.
Arguments cuModuleLoadData {C} _.
Arguments cuModuleGetFunction {C} _.
Arguments cuLaunchKernel {C} _.
Arguments cuCtxPushCurrent {C} _.
Arguments cuCtxPopCurrent {C} _.
Arguments cuCtxSetCurrent {C} _.

Definition CU_DEVICE_ATTRIBUTE_MAX_THREADS_PER_BLOCK : Z := 1.
Definition CU_DEVICE_ATTRIBUTE_WARP_SIZE : Z := 10.
Definition CU_DEVICE_ATTRIBUTE_MULTIPROCESSOR_COUNT : Z := 16.
Definition CU_DEVICE_ATTRIBUTE_COMPUTE_CAPABILITY_MAJOR : Z := 75.
Definition CU_DEVICE_ATTRIBUTE_COMPUTE_CAPABILITY_MINOR : Z := 76.

(** The variables of the file: whether the library is loaded and initialised. *)
Record cuda_globals := mkGlobals { g_cuda_lib_handle : bool; g_cuda_lib_initialized : bool }.

(** Updates of groups of fields. *)
Definition set_context (c : Z) (st : HetGPUState) : HetGPUState :=
  mkHetGPU (hg_initialized st) (hg_backend st) c (hg_device_index st) (hg_cuda_device st) (hg_props st) (hg_allocated_memory st)
    (hg_sim_allocs st) (hg_sim_next_ptr st) (hg_kernel_launches st) (hg_memory_ops st) (hg_coherency_ops st).

Definition set_sim (l : list HetGPUSimAlloc) (next allocated : Z) (st : HetGPUState) : HetGPUState :=
  mkHetGPU (hg_initialized st) (hg_backend st) (hg_context st) (hg_device_index st) (hg_cuda_device st) (hg_props st) allocated
    l next (hg_kernel_launches st) (hg_memory_ops st) (hg_coherency_ops st).

Definition set_counts (launches memory coherency : Z) (st : HetGPUState) : HetGPUState :=
  mkHetGPU (hg_initialized st) (hg_backend st) (hg_context st) (hg_device_index st) (hg_cuda_device st) (hg_props st) (hg_allocated_memory st)
    (hg_sim_allocs st) (hg_sim_next_ptr st) launches memory coherency.

Definition count_memory (st : HetGPUState) : HetGPUState := set_counts (hg_kernel_launches st) (hg_memory_ops st ⊞ 1) (hg_coherency_ops st) st.

Definition count_coherency (st : HetGPUState) : HetGPUState := set_counts (hg_kernel_launches st) (hg_memory_ops st) (hg_coherency_ops st ⊞ 1) st.

Definition is_sim (st : HetGPUState) : bool := bool_decide (hg_backend st = HETGPU_BACKEND_SIMULATION).

(** ** Simulated memory *)
Fixpoint find_sim (dev_ptr : Z) (l : list HetGPUSimAlloc) : option (nat * HetGPUSimAlloc) :=
  match l with
  | [] => None
  | a :: l' =>
      if (sa_dev_ptr a <=? dev_ptr) && (dev_ptr <? sa_dev_ptr a ⊞ sa_size a) then Some (0%nat, a)
      else '(i, a') ← find_sim dev_ptr l'; Some (S i, a')
  end.

Definition find_sim_alloc (st : HetGPUState) (dev_ptr : Z) : option (nat * HetGPUSimAlloc) := find_sim dev_ptr (hg_sim_allocs st).

Definition set_buffer (a : HetGPUSimAlloc) (buf : list Z) : HetGPUSimAlloc := mkSimAlloc (sa_dev_ptr a) buf (sa_size a).

Definition set_allocs (l : list HetGPUSimAlloc) (st : HetGPUState) : HetGPUState := set_sim l (hg_sim_next_ptr st) (hg_allocated_memory st) st.

(** [g_malloc0] gives [NULL] for a size of 0 only. *)
Definition sim_malloc (st : HetGPUState) (size : Z) : HetGPUError * Z * HetGPUState :=
  if size =? 0 then (HETGPU_ERROR_OUT_OF_MEMORY, 0, st)
  else
    let p := hg_sim_next_ptr st in
    (HETGPU_SUCCESS, p,
     set_sim (mkSimAlloc p (replicate (Z.to_nat size) 0) size :: hg_sim_allocs st)
       (p ⊞ Z.land (size ⊞ 0xFFF) (Z.lnot 0xFFF)) (hg_allocated_memory st ⊞ size) st).

(** The first block with this pointer is taken out. *)
Fixpoint sim_remove (dev_ptr : Z) (l : list HetGPUSimAlloc) : list HetGPUSimAlloc :=
  match l with
  | [] => []
  | a :: l' => if sa_dev_ptr a =? dev_ptr then l' else a :: sim_remove dev_ptr l'
  end.

(** Copies and fills of simulated memory; [None] is an access outside of a buffer. *)
Definition sim_htod (st : HetGPUState) (dst : Z) (src : list Z) : option (HetGPUError * HetGPUState) :=
  match find_sim_alloc st dst with
  | Some (i, a) =>
      let offset := dst ⊟ sa_dev_ptr a in
      if offset ⊞ Z.of_nat (length src) <=? sa_size a
      then buf ← mem_write offset src (sa_host_buffer a);
           Some (HETGPU_SUCCESS, set_allocs (<[i := set_buffer a buf]> (hg_sim_allocs st)) st)
      else Some (HETGPU_ERROR_INVALID_VALUE, st)
  | None => Some (HETGPU_ERROR_INVALID_VALUE, st)
  end.

Definition sim_dtoh (st : HetGPUState) (src size : Z) : option (HetGPUError * list Z) :=
  match find_sim_alloc st src with
  | Some (_, a) =>
      let offset := src ⊟ sa_dev_ptr a in
      if offset ⊞ size <=? sa_size a
      then bs ← mem_read offset size (sa_host_buffer a); Some (HETGPU_SUCCESS, bs)
      else Some (HETGPU_ERROR_INVALID_VALUE, replicate (Z.to_nat size) 0)
  | None => Some (HETGPU_ERROR_INVALID_VALUE, replicate (Z.to_nat size) 0)
  end.

(** [memcpy] is defined for ranges that do not overlap. *)
Definition ranges_apart (i j : nat) (src_offset dst_offset size : Z) : Prop := i <> j \/ size <= Z.abs (src_offset - dst_offset).

#[global] Instance ranges_apart_dec (i j : nat) (a b n : Z) : Decision (ranges_apart i j a b n).
Proof. unfold ranges_apart. apply _. Defined.

Definition sim_dtod (st : HetGPUState) (dst src size : Z) : option (HetGPUError * HetGPUState) :=
  match find_sim_alloc st src, find_sim_alloc st dst with
  | Some (j, sa), Some (i, da) =>
      let src_offset := src ⊟ sa_dev_ptr sa in
      let dst_offset := dst ⊟ sa_dev_ptr da in
      if (src_offset ⊞ size <=? sa_size sa) && (dst_offset ⊞ size <=? sa_size da)
      then guard (ranges_apart i j src_offset dst_offset size);;
           bs ← mem_read src_offset size (sa_host_buffer sa);
           buf ← mem_write dst_offset bs (sa_host_buffer da);
           Some (HETGPU_SUCCESS, set_allocs (<[i := set_buffer da buf]> (hg_sim_allocs st)) st)
      else Some (HETGPU_ERROR_INVALID_VALUE, st)
  | _, _ => Some (HETGPU_ERROR_INVALID_VALUE, st)
  end.

Definition sim_memset (st : HetGPUState) (dev_ptr value size : Z) : option (HetGPUError * HetGPUState) :=
  match find_sim_alloc st dev_ptr with
  | Some (i, a) =>
      let offset := dev_ptr ⊟ sa_dev_ptr a in
      if offset ⊞ size <=? sa_size a
      then buf ← mem_write offset (replicate (Z.to_nat size) (value mod 256)) (sa_host_buffer a);
           Some (HETGPU_SUCCESS, set_allocs (<[i := set_buffer a buf]> (hg_sim_allocs st)) st)
      else Some (HETGPU_ERROR_INVALID_VALUE, st)
  | None => Some (HETGPU_ERROR_INVALID_VALUE, st)
  end.

(** ** Operations of the backend *)
Section Backend.
Context {C : Type} (cuda : cuda_api C).

(** The value of a call that may be missing. *)
Definition attribute (c : C) (attr dev old : Z) : Z :=
  match cuDeviceGetAttribute cuda with
  | Some f => let '(err, v) := f c attr dev in if err =? 0 then v else old
  | None => old
  end.

Definition default_name : list Z := [86; 105; 114; 116; 117; 97; 108; 32; 71; 80; 85; 32; 40; 84; 77; 97; 116; 109; 117; 108; 41].

Definition props_name (c : C) (dev : Z) : list Z := match cuDeviceGetName cuda with Some f => f c dev | None => default_name end.

Definition props_memory (c : C) (dev : Z) : Z :=
  match cuDeviceTotalMem cuda with
  | Some f => let '(err, m) := f c dev in if err =? 0 then m else 4 * 1024 * 1024 * 1024
  | None => 4 * 1024 * 1024 * 1024
  end.

Definition props_managed (c : C) (dev : Z) (b : HetGPUBackendType) : HetGPUDeviceProps :=
  mkProps (props_name c dev) (props_memory c dev) 8 0 1024 32 80 b.

Definition props_real (c : C) (dev : Z) : HetGPUDeviceProps :=
  mkProps (props_name c dev) (props_memory c dev)
    (attribute c CU_DEVICE_ATTRIBUTE_COMPUTE_CAPABILITY_MAJOR dev 8) (attribute c CU_DEVICE_ATTRIBUTE_COMPUTE_CAPABILITY_MINOR dev 0)
    (attribute c CU_DEVICE_ATTRIBUTE_MAX_THREADS_PER_BLOCK dev 1024) (attribute c CU_DEVICE_ATTRIBUTE_WARP_SIZE dev 32)
    (attribute c CU_DEVICE_ATTRIBUTE_MULTIPROCESSOR_COUNT dev 80) HETGPU_BACKEND_NVIDIA.

Definition props_zero : HetGPUDeviceProps := mkProps [] 0 0 0 0 0 0 HETGPU_BACKEND_AUTO.

(** The structure after [memset]. *)
Definition state_zero (b : HetGPUBackendType) (device_index : Z) : HetGPUState := mkHetGPU false b 0 device_index 0 props_zero 0 [] 0 0 0 0.

Definition state_ready (b : HetGPUBackendType) (ctx device_index dev : Z) (props : HetGPUDeviceProps) : HetGPUState :=
  mkHetGPU true b ctx device_index dev props 0 [] 0 0 0 0.

(** Loading the library: the globals and the state of the library, [false] if [cuInit] fails. *)
Definition load_library (dlopen : bool) (g : cuda_globals) (c : C) : bool * cuda_globals * C :=
  if g_cuda_lib_initialized g then (true, g, c)
  else if negb dlopen then (true, mkGlobals false false, c)
  else match cuInit cuda with
  | Some f => let '(err, c) := f c in if err =? 0 then (true, mkGlobals true true, c) else (false, mkGlobals true false, c)
  | None => (true, mkGlobals true true, c)
  end.

Definition pop_current (c : C) : C := match cuCtxPopCurrent cuda with Some f => f c | None => c end.

(** [dlopen] says whether the library is found at one of its three paths. *)
Definition hetgpu_init (b : HetGPUBackendType) (device_index : Z) (dlopen : bool) (g : cuda_globals) (c : C) : HetGPUError * HetGPUState * cuda_globals * C :=
  let failed := state_zero HETGPU_BACKEND_SIMULATION device_index in
  let '(ok, g, c) := load_library dlopen g c in
  if negb ok || negb (g_cuda_lib_handle g) || negb (g_cuda_lib_initialized g) then (HETGPU_ERROR_NO_DEVICE, failed, g, c)
  else
    let '(err, dev, c) := match cuDeviceGet cuda with Some f => f c device_index | None => (0, 0, c) end in
    if negb (err =? 0) then (HETGPU_ERROR_NO_DEVICE, failed, g, c)
    else match cuCtxCreate cuda with
    | None => (HETGPU_ERROR_NO_DEVICE, failed, g, c)
    | Some f =>
        let '(err, ctx, c) := f c dev in
        if negb (err =? 0) then (HETGPU_ERROR_NO_DEVICE, failed, g, c)
        else if ctx =? 0 then
          let b' := if bool_decide (b = HETGPU_BACKEND_AUTO) then HETGPU_BACKEND_NVIDIA else b in
          (HETGPU_SUCCESS, state_ready b' 0 device_index dev (props_managed c dev b'), g, c)
        else
          let c := pop_current c in
          (HETGPU_SUCCESS, state_ready HETGPU_BACKEND_NVIDIA ctx device_index dev (props_real c dev), g, c)
    end.

Definition hetgpu_cleanup (st : HetGPUState) (c : C) : HetGPUState * C :=
  (state_zero HETGPU_BACKEND_AUTO 0,
   match cuCtxDestroy cuda with
   | Some f => if negb (hg_context st =? 0) && negb (is_sim st) then f c (hg_context st) else c
   | None => c
   end).

Definition hetgpu_get_device_count (loaded : bool) (c : C) : HetGPUError * Z * C :=
  match cuDeviceGetCount cuda with
  | Some f => if loaded then let '(err, n, c) := f c in (if err =? 0 then HETGPU_SUCCESS else HETGPU_ERROR_NO_DEVICE, n, c) else (HETGPU_SUCCESS, 1, c)
  | None => (HETGPU_SUCCESS, 1, c)
  end.

Definition hetgpu_get_device_props (st : HetGPUState) : HetGPUError * HetGPUDeviceProps := (HETGPU_SUCCESS, hg_props st).

Definition hetgpu_create_context (st : HetGPUState) (c : C) : HetGPUError * HetGPUState * C :=
  if negb (hg_initialized st) then (HETGPU_ERROR_NOT_INITIALIZED, st, c)
  else if negb (hg_context st =? 0) then (HETGPU_SUCCESS, st, c)
  else match hg_backend st with
  | HETGPU_BACKEND_SIMULATION => (HETGPU_SUCCESS, set_context 0xDEADBEEF st, c)
  | HETGPU_BACKEND_NVIDIA | HETGPU_BACKEND_AMD | HETGPU_BACKEND_INTEL | HETGPU_BACKEND_TENSTORRENT => (HETGPU_SUCCESS, st, c)
  | HETGPU_BACKEND_AUTO =>
      match cuCtxCreate cuda with
      | Some f =>
          let '(err, ctx, c) := f c (hg_cuda_device st) in
          if (err =? 0) && negb (ctx =? 0) then (HETGPU_SUCCESS, set_context ctx st, c) else (HETGPU_ERROR_INVALID_CONTEXT, st, c)
      | None => (HETGPU_ERROR_NOT_INITIALIZED, st, c)
      end
  end.

Definition hetgpu_destroy_context (st : HetGPUState) (c : C) : HetGPUState * C :=
  if hg_context st =? 0 then (st, c)
  else (set_context 0 st, match cuCtxDestroy cuda with Some f => if is_sim st then c else f c (hg_context st) | None => c end).

(** Creating a context when there is none, or the current one is refused. *)
Definition recreate_context (st : HetGPUState) (c : C) : HetGPUState * C :=
  match cuCtxCreate cuda with
  | Some f =>
      let '(err, ctx, c) := f c (hg_cuda_device st) in
      if (err =? 0) && negb (ctx =? 0) then
        let c := pop_current c in
        (set_context ctx st, match cuCtxSetCurrent cuda with Some g => (g c ctx).2 | None => c end)
      else (st, c)
  | None => (st, c)
  end.

(** [cuda_lock]: the context of the device becomes the current one. *)
Definition cuda_lock (st : HetGPUState) (c : C) : HetGPUState * C :=
  if is_sim st then (st, c)
  else if negb (hg_context st =? 0) then
    match cuCtxSetCurrent cuda with
    | Some f => let '(err, c) := f c (hg_context st) in if err =? 0 then (st, c) else recreate_context st c
    | None => match cuCtxPushCurrent cuda with Some f => (st, f c (hg_context st)) | None => (st, c) end
    end
  else recreate_context st c.

Definition hetgpu_synchronize (st : HetGPUState) (c : C) : HetGPUError * HetGPUState * C :=
  if negb (hg_initialized st) then (HETGPU_ERROR_NOT_INITIALIZED, st, c)
  else if is_sim st then (HETGPU_SUCCESS, st, c)
  else
    let '(st, c) := cuda_lock st c in
    match cuCtxSynchronize cuda with
    | Some f => let '(err, c) := f c in (if err =? 0 then HETGPU_SUCCESS else HETGPU_ERROR_UNKNOWN, st, c)
    | None => (HETGPU_SUCCESS, st, c)
    end.

(** A call of the library in the device's context, if it has the function and is used. *)
Definition with_library {A B} (st : HetGPUState) (c : C) (f : option A) (call : A -> HetGPUState -> C -> B) (other : B) : B :=
  match f with
  | Some g => if is_sim st then other else let '(st, c) := cuda_lock st c in call g st c
  | None => other
  end.

Definition hetgpu_malloc (st : HetGPUState) (c : C) (size : Z) : HetGPUError * Z * HetGPUState * C :=
  if negb (hg_initialized st) then (HETGPU_ERROR_INVALID_VALUE, 0, st, c)
  else
    let st := count_memory st in
    with_library st c (cuMemAlloc cuda)
      (fun f st c =>
         let '(err, p, c) := f c size in
         if err =? 0 then (HETGPU_SUCCESS, p, set_sim (hg_sim_allocs st) (hg_sim_next_ptr st) (hg_allocated_memory st ⊞ size) st, c)
         else (HETGPU_ERROR_OUT_OF_MEMORY, 0, st, c))
      (if is_sim st then let '(err, p, st) := sim_malloc st size in (err, p, st, c) else (HETGPU_ERROR_NOT_INITIALIZED, 0, st, c)).

Definition hetgpu_free (st : HetGPUState) (c : C) (dev_ptr : Z) : HetGPUError * HetGPUState * C :=
  if negb (hg_initialized st) then (HETGPU_ERROR_INVALID_VALUE, st, c)
  else
    let st := count_memory st in
    with_library st c (cuMemFree cuda)
      (fun f st c => let '(err, c) := f c dev_ptr in (if err =? 0 then HETGPU_SUCCESS else HETGPU_ERROR_INVALID_VALUE, st, c))
      (HETGPU_SUCCESS, if is_sim st then set_allocs (sim_remove dev_ptr (hg_sim_allocs st)) st else st, c).

Definition hetgpu_memcpy_htod (st : HetGPUState) (c : C) (dst : Z) (src : list Z) : option (HetGPUError * HetGPUState * C) :=
  if negb (hg_initialized st) then Some (HETGPU_ERROR_INVALID_VALUE, st, c)
  else
    let st := count_memory st in
    with_library st c (cuMemcpyHtoD cuda)
      (fun f st c => let '(err, c) := f c dst src in Some (if err =? 0 then HETGPU_SUCCESS else HETGPU_ERROR_INVALID_VALUE, st, c))
      (if is_sim st then '(err, st) ← sim_htod st dst src; Some (err, st, c) else Some (HETGPU_SUCCESS, st, c)).

(** [old] is what the destination held; it has the size of the copy. *)
Definition hetgpu_memcpy_dtoh (st : HetGPUState) (c : C) (old : list Z) (src : Z) : option (HetGPUError * list Z * HetGPUState * C) :=
  if negb (hg_initialized st) then Some (HETGPU_ERROR_INVALID_VALUE, old, st, c)
  else
    let st := count_memory st in
    with_library st c (cuMemcpyDtoH cuda)
      (fun f st c => let '(err, bs, c) := f c old src in Some (if err =? 0 then HETGPU_SUCCESS else HETGPU_ERROR_INVALID_VALUE, bs, st, c))
      (if is_sim st then '(err, bs) ← sim_dtoh st src (Z.of_nat (length old)); Some (err, bs, st, c) else Some (HETGPU_SUCCESS, old, st, c)).

Definition hetgpu_memcpy_dtod (st : HetGPUState) (c : C) (dst src size : Z) : option (HetGPUError * HetGPUState * C) :=
  if negb (hg_initialized st) then Some (HETGPU_ERROR_INVALID_VALUE, st, c)
  else
    let st := count_memory st in
    with_library st c (cuMemcpyDtoD cuda)
      (fun f st c => let '(err, c) := f c dst src size in Some (if err =? 0 then HETGPU_SUCCESS else HETGPU_ERROR_INVALID_VALUE, st, c))
      (if is_sim st then '(err, st) ← sim_dtod st dst src size; Some (err, st, c) else Some (HETGPU_SUCCESS, st, c)).

Definition hetgpu_memset (st : HetGPUState) (dev_ptr value size : Z) : option (HetGPUError * HetGPUState) :=
  if negb (hg_initialized st) then Some (HETGPU_ERROR_INVALID_VALUE, st)
  else
    let st := count_memory st in
    if is_sim st then sim_memset st dev_ptr value size else Some (HETGPU_SUCCESS, st).

Definition hetgpu_flush_cache (st : HetGPUState) : HetGPUError * HetGPUState :=
  if negb (hg_initialized st) then (HETGPU_ERROR_INVALID_VALUE, st) else (HETGPU_SUCCESS, count_coherency st).

Definition hetgpu_invalidate_cache (st : HetGPUState) : HetGPUError * HetGPUState :=
  if negb (hg_initialized st) then (HETGPU_ERROR_INVALID_VALUE, st) else (HETGPU_SUCCESS, count_coherency st).

Definition hetgpu_load_ptx (st : HetGPUState) (c : C) (ptx_source : list Z) : HetGPUError * Z * HetGPUState * C :=
  if negb (hg_initialized st) then (HETGPU_ERROR_INVALID_VALUE, 0, st, c)
  else
    with_library st c (cuModuleLoadData cuda)
      (fun f st c => let '(err, mod_, c) := f c ptx_source in if err =? 0 then (HETGPU_SUCCESS, mod_, st, c) else (HETGPU_ERROR_INVALID_PTX, 0, st, c))
      (if is_sim st then (HETGPU_SUCCESS, 0x12345678, st, c) else (HETGPU_ERROR_NOT_INITIALIZED, 0, st, c)).

Definition hetgpu_get_function (st : HetGPUState) (c : C) (module : Z) (name : list Z) : HetGPUError * Z * HetGPUState * C :=
  if negb (hg_initialized st) || (module =? 0) then (HETGPU_ERROR_INVALID_VALUE, 0, st, c)
  else
    with_library st c (cuModuleGetFunction cuda)
      (fun f st c => let '(err, func, c) := f c module name in if err =? 0 then (HETGPU_SUCCESS, func, st, c) else (HETGPU_ERROR_UNKNOWN, 0, st, c))
      (if is_sim st then (HETGPU_SUCCESS, 0x87654321, st, c) else (HETGPU_ERROR_NOT_INITIALIZED, 0, st, c)).

Definition hetgpu_launch_kernel (st : HetGPUState) (c : C) (function : Z) (config : HetGPULaunchConfig) (args : list Z) : HetGPUError * HetGPUState * C :=
  if negb (hg_initialized st) || (function =? 0) then (HETGPU_ERROR_INVALID_VALUE, st, c)
  else
    let st := set_counts (hg_kernel_launches st ⊞ 1) (hg_memory_ops st) (hg_coherency_ops st) st in
    with_library st c (cuLaunchKernel cuda)
      (fun f st c => let '(err, c) := f c function config args in (if err =? 0 then HETGPU_SUCCESS else HETGPU_ERROR_LAUNCH_FAILED, st, c))
      (HETGPU_SUCCESS, st, c).

End Backend.

(** ** Invariant of the simulated memory *)
Definition blocks_apart (a b : HetGPUSimAlloc) : Prop := sa_dev_ptr a + sa_size a <= sa_dev_ptr b \/ sa_dev_ptr b + sa_size b <= sa_dev_ptr a.

Definition block_ok (next : Z) (a : HetGPUSimAlloc) : Prop :=
  0 <= sa_dev_ptr a /\ 0 < sa_size a /\ sa_dev_ptr a + sa_size a <= next /\ Z.of_nat (length (sa_host_buffer a)) = sa_size a.

Record sim_ok (st : HetGPUState) : Prop := mkSimOk {
  so_mode : hg_initialized st = true /\ hg_backend st = HETGPU_BACKEND_SIMULATION;
  so_next : 0 <= hg_sim_next_ptr st < 2 ^ 63;
  so_blocks : forall i a, hg_sim_allocs st !! i = Some a -> block_ok (hg_sim_next_ptr st) a;
  so_apart : forall i j a b, hg_sim_allocs st !! i = Some a -> hg_sim_allocs st !! j = Some b -> i <> j -> blocks_apart a b
}.

(** The byte of the GPU's memory at an address. *)
Definition sim_at (st : HetGPUState) (x : Z) : option Z :=
  '(_, a) ← find_sim_alloc st x; sa_host_buffer a !! Z.to_nat (x - sa_dev_ptr a).

Definition contains (a : HetGPUSimAlloc) (x : Z) : Prop := sa_dev_ptr a <= x < sa_dev_ptr a + sa_size a.

Lemma find_sim_Some (l : list HetGPUSimAlloc) (x : Z) (i : nat) (a : HetGPUSimAlloc) :
  find_sim x l = Some (i, a) -> (forall j b, l !! j = Some b -> u64 (sa_dev_ptr b + sa_size b)) -> l !! i = Some a /\ contains a x.
Proof.
  revert i. induction l as [|b l IH]; intros i H Hu; [done|]. cbn in H. rewrite (wrap64_small _ (Hu 0%nat b eq_refl)) in H.
  destruct (sa_dev_ptr b <=? x) eqn:E1, (x <? sa_dev_ptr b + sa_size b) eqn:E2; cbn in H;
    try (injection H as <- <-; zify_bool; unfold contains; split; [done|lia]);
    (destruct (find_sim x l) as [[j c]|] eqn:E; [|done]; injection H as <- <-; apply IH; [done|]; intros k b' Hb; by apply (Hu (S k))).
Qed.

Lemma find_sim_None (l : list HetGPUSimAlloc) (x : Z) :
  find_sim x l = None -> (forall j b, l !! j = Some b -> u64 (sa_dev_ptr b + sa_size b)) -> forall j b, l !! j = Some b -> ~ contains b x.
Proof.
  induction l as [|b l IH]; intros H Hu j c Hj; [done|]. cbn in H. rewrite (wrap64_small _ (Hu 0%nat b eq_refl)) in H.
  destruct (sa_dev_ptr b <=? x) eqn:E1, (x <? sa_dev_ptr b + sa_size b) eqn:E2; cbn in H; [done|..]; zify_bool;
    (destruct (find_sim x l) as [[]|] eqn:E; [done|]; destruct j as [|j]; [injection Hj as <-; unfold contains; lia|]; apply (IH eq_refl) with (j := j); [|done]; intros k b' Hb; by apply (Hu (S k))).
Qed.

Lemma sim_ok_range (st : HetGPUState) : sim_ok st -> forall j b, hg_sim_allocs st !! j = Some b -> u64 (sa_dev_ptr b + sa_size b).
Proof. intros [_ Hn Hb _] j b H. destruct (Hb _ _ H) as (?&?&?&?). unfold u64. lia. Qed.

Lemma find_sim_unique (st : HetGPUState) (x : Z) (i : nat) (a : HetGPUSimAlloc) :
  sim_ok st -> hg_sim_allocs st !! i = Some a -> contains a x -> find_sim_alloc st x = Some (i, a).
Proof.
  intros Hs Ha Hx. pose proof (sim_ok_range st Hs) as Hu. unfold find_sim_alloc. destruct (find_sim x (hg_sim_allocs st)) as [[j b]|] eqn:E.
  - destruct (find_sim_Some _ _ _ _ E Hu) as [Hj Hb]. destruct (decide (i = j)) as [<-|Hne]; [congruence|].
    destruct (so_apart st Hs _ _ _ _ Ha Hj Hne); unfold contains in *; lia.
  - exfalso. by apply (find_sim_None _ _ E Hu i a).
Qed.

Lemma sim_at_block (st : HetGPUState) (x : Z) (i : nat) (a : HetGPUSimAlloc) :
  sim_ok st -> hg_sim_allocs st !! i = Some a -> contains a x -> sim_at st x = sa_host_buffer a !! Z.to_nat (x - sa_dev_ptr a).
Proof. intros Hs Ha Hx. unfold sim_at. by rewrite (find_sim_unique st x i a). Qed.

Lemma sim_at_outside (st : HetGPUState) (x : Z) : (forall i a, hg_sim_allocs st !! i = Some a -> ~ contains a x) -> sim_ok st -> sim_at st x = None.
Proof.
  intros H Hs. unfold sim_at, find_sim_alloc. destruct (find_sim x (hg_sim_allocs st)) as [[i a]|] eqn:E; [|done]. exfalso.
  destruct (find_sim_Some _ _ _ _ E (sim_ok_range st Hs)) as [Hi Hc]. by apply (H i a).
Qed.

(** Either a block has the address or none has. *)
Lemma sim_at_cases (st : HetGPUState) (x : Z) : sim_ok st ->
  (exists i a, hg_sim_allocs st !! i = Some a /\ contains a x) \/ (forall i a, hg_sim_allocs st !! i = Some a -> ~ contains a x).
Proof.
  intros Hs. destruct (find_sim x (hg_sim_allocs st)) as [[i a]|] eqn:E; [left; exists i, a; by apply (find_sim_Some _ _ _ _ E), sim_ok_range|].
  right. by apply (find_sim_None _ _ E), sim_ok_range.
Qed.

(** Replacing the bytes of a block. *)
Lemma sim_ok_buffer (st : HetGPUState) (i : nat) (a : HetGPUSimAlloc) (buf : list Z) :
  sim_ok st -> hg_sim_allocs st !! i = Some a -> length buf = length (sa_host_buffer a) ->
  sim_ok (set_allocs (<[i := set_buffer a buf]> (hg_sim_allocs st)) st) /\
  (forall x, sim_at (set_allocs (<[i := set_buffer a buf]> (hg_sim_allocs st)) st) x = if decide (contains a x) then buf !! Z.to_nat (x - sa_dev_ptr a) else sim_at st x).
Proof.
  intros Hs Ha Hlen. set (st' := set_allocs _ st).
  assert (Hold : forall j b, hg_sim_allocs st' !! j = Some b -> exists b', hg_sim_allocs st !! j = Some b' /\ sa_dev_ptr b = sa_dev_ptr b' /\ sa_size b = sa_size b' /\ length (sa_host_buffer b) = length (sa_host_buffer b')).
  { intros j b Hj. cbn in Hj. apply list_lookup_insert_Some in Hj as [(<-&<-&_)|[_ Hj]]; [exists a|exists b]; done. }
  assert (Hs' : sim_ok st').
  { destruct Hs as [Hm Hn Hb Hap]. constructor; [done|done| |].
    - intros j b Hj. destruct (Hold j b Hj) as (b'&Hj'&E1&E2&E3). unfold block_ok. rewrite E1, E2, E3. by apply (Hb j).
    - intros j k b c Hj Hk Hne. destruct (Hold j b Hj) as (b'&Hj'&E1&E2&_), (Hold k c Hk) as (c'&Hk'&F1&F2&_). unfold blocks_apart. rewrite E1, E2, F1, F2. by apply (Hap j k). }
  split; [done|]. intros x. pose proof (lookup_lt_Some _ _ _ Ha) as Hlt. case_decide as Hc.
  - apply (sim_at_block st' x i (set_buffer a buf)); [done| |done]. cbn. by apply list_lookup_insert_eq.
  - destruct (sim_at_cases st x Hs) as [(j&b&Hj&Hb)|Hnone].
    + assert (i <> j) by (intros ->; congruence). rewrite (sim_at_block st x j b) by done. apply (sim_at_block st' x j b); [done| |done]. cbn. by rewrite list_lookup_insert_ne.
    + rewrite (sim_at_outside st x) by done. apply sim_at_outside; [|done]. intros j b Hj Hb. destruct (Hold j b Hj) as (b'&Hj'&E1&E2&_). apply (Hnone j b' Hj'). unfold contains in *. by rewrite <- E1, <- E2.
Qed.

Lemma sim_ok_count (st : HetGPUState) : sim_ok st -> sim_ok (count_memory st).
Proof. by intros []. Qed.

Lemma sim_is_sim (st : HetGPUState) : sim_ok st -> is_sim st = true /\ hg_initialized st = true.
Proof. intros [[Hi Hb] _ _ _]. unfold is_sim. by rewrite Hb. Qed.

(** The copy of a range that is inside a block. *)
Lemma sim_htod_spec (st : HetGPUState) (i : nat) (a : HetGPUSimAlloc) (dst : Z) (src : list Z) :
  sim_ok st -> hg_sim_allocs st !! i = Some a -> sa_dev_ptr a <= dst -> (0 < length src)%nat -> dst + Z.of_nat (length src) <= sa_dev_ptr a + sa_size a ->
  exists buf, mem_write (dst - sa_dev_ptr a) src (sa_host_buffer a) = Some buf /\
    sim_htod st dst src = Some (HETGPU_SUCCESS, set_allocs (<[i := set_buffer a buf]> (hg_sim_allocs st)) st).
Proof.
  intros Hs Ha H1 H2 H3. destruct (so_blocks st Hs i a Ha) as (B1&B2&B3&B4). pose proof (so_next st Hs).
  unfold sim_htod. rewrite (find_sim_unique st dst i a) by (done || (unfold contains; lia)).
  rewrite (wrap64_small (dst - _)) by (unfold u64; lia). rewrite wrap64_small by (unfold u64; lia). rewrite (proj2 (Z.leb_le _ _)) by lia.
  destruct (mem_write_Some (dst - sa_dev_ptr a) src (sa_host_buffer a)) as [buf Hw]; [lia|lia|]. exists buf. rewrite Hw. done.
Qed.

Section Theorems.
Context {C : Type} (cuda : cuda_api C).

Lemma with_library_sim {A B} (st : HetGPUState) (c : C) (f : option A) (call : A -> HetGPUState -> C -> B) (other : B) :
  is_sim st = true -> with_library cuda st c f call other = other.
Proof. intros H. unfold with_library. destruct f; by rewrite ?H. Qed.

Lemma sim_copy_ok (st : HetGPUState) (c : C) (i : nat) (a : HetGPUSimAlloc) (dst : Z) (src : list Z)
  (Hs : sim_ok st) (Ha : hg_sim_allocs st !! i = Some a) (Hlo : sa_dev_ptr a <= dst) (Hsrc : (0 < length src)%nat)
  (Hhi : dst + Z.of_nat (length src) <= sa_dev_ptr a + sa_size a) :
  exists st', hetgpu_memcpy_htod cuda st c dst src = Some (HETGPU_SUCCESS, st', c) /\ sim_ok st' /\
    (forall old, length old = length src -> exists st2, hetgpu_memcpy_dtoh cuda st' c old dst = Some (HETGPU_SUCCESS, src, st2, c)) /\
    (forall x, x < dst \/ dst + Z.of_nat (length src) <= x -> sim_at st' x = sim_at st x).
Proof.
  destruct (sim_is_sim st Hs) as [Hsim Hini]. pose proof (sim_ok_count st Hs) as Hs1. unfold hetgpu_memcpy_htod. rewrite Hini. cbn [negb].
  rewrite with_library_sim by done. change (is_sim (count_memory st)) with (is_sim st). rewrite Hsim.
  destruct (sim_htod_spec (count_memory st) i a dst src Hs1 Ha Hlo Hsrc Hhi) as (buf&Hw&->). cbn [mbind option_bind].
  pose proof (mem_write_length _ _ _ _ Hw) as Lb. destruct (sim_ok_buffer (count_memory st) i a buf Hs1 Ha Lb) as [Hs2 Hat].
  set (st' := set_allocs _ (count_memory st)) in *. exists st'. split; [done|]. split; [done|]. split.
  - intros old Hold. destruct (sim_is_sim st' Hs2) as [Hsim2 Hini2]. unfold hetgpu_memcpy_dtoh. rewrite Hini2. cbn [negb]. rewrite with_library_sim by done.
    change (is_sim (count_memory st')) with (is_sim st'). rewrite Hsim2. destruct (so_blocks st Hs i a Ha) as (B1&B2&B3&B4). pose proof (so_next st Hs).
    assert (Hf : find_sim_alloc (count_memory st') dst = Some (i, set_buffer a buf)).
    { apply (find_sim_unique st' dst i (set_buffer a buf) Hs2); [|unfold contains; cbn; lia]. cbn. apply list_lookup_insert_eq. by apply (lookup_lt_Some _ _ _ Ha). }
    unfold sim_dtoh. rewrite Hf. cbn [sa_dev_ptr sa_size sa_host_buffer set_buffer]. rewrite Hold, (wrap64_small (dst - _)) by (unfold u64; lia).
    rewrite wrap64_small, (proj2 (Z.leb_le _ _)) by (unfold u64; lia). rewrite (mem_read_write_same _ _ _ _ Hw). cbn. by eexists.
  - intros x Hx. rewrite Hat. case_decide as Hc; [|done]. rewrite (mem_write_lookup _ _ _ _ _ Hw), decide_False by (unfold contains in Hc; lia).
    symmetry. by apply (sim_at_block st x i a).
Qed.

(** Bytes copied to a block of simulated memory are the bytes copied back; no other byte of the
    GPU's memory changes. *)
Theorem sim_htod_dtoh (st : HetGPUState) (c : C) (i : nat) (a : HetGPUSimAlloc) (dst : Z) (src : list Z)
  (Hs : sim_ok st) (Ha : hg_sim_allocs st !! i = Some a) (Hlo : sa_dev_ptr a <= dst) (Hsrc : (0 < length src)%nat)
  (Hhi : dst + Z.of_nat (length src) <= sa_dev_ptr a + sa_size a) :
  exists st', hetgpu_memcpy_htod cuda st c dst src = Some (HETGPU_SUCCESS, st', c) /\ sim_ok st' /\
    (forall old, length old = length src -> exists st2, hetgpu_memcpy_dtoh cuda st' c old dst = Some (HETGPU_SUCCESS, src, st2, c)) /\
    (forall x, x < dst \/ dst + Z.of_nat (length src) <= x -> sim_at st' x = sim_at st x).
Proof. exact (sim_copy_ok st c i a dst src Hs Ha Hlo Hsrc Hhi). Qed.

Lemma sim_malloc_ok (st : HetGPUState) (c : C) (size : Z)
  (Hs : sim_ok st) (Hsize : 0 < size) (Hroom : hg_sim_next_ptr st + size + 4096 < 2 ^ 63) :
  exists p st', hetgpu_malloc cuda st c size = (HETGPU_SUCCESS, p, st', c) /\ sim_ok st' /\
    (forall x, p <= x < p + size -> sim_at st x = None /\ sim_at st' x = Some 0) /\
    (forall x, x < p \/ p + size <= x -> sim_at st' x = sim_at st x).
Proof.
  destruct (sim_is_sim st Hs) as [Hsim Hini]. pose proof (so_next st Hs) as Hn. unfold hetgpu_malloc. rewrite Hini. cbn [negb].
  rewrite with_library_sim by done. change (is_sim (count_memory st)) with (is_sim st). rewrite Hsim. unfold sim_malloc.
  rewrite (proj2 (Z.eqb_neq size 0)) by lia. set (p := hg_sim_next_ptr (count_memory st)). set (a := mkSimAlloc p (replicate (Z.to_nat size) 0) size).
  assert (Hpage : size <= Z.land (size ⊞ 0xFFF) (Z.lnot 0xFFF) <= size + 4095).
  { rewrite wrap64_small by (unfold u64; lia). change 0xFFF with (Z.ones 12). rewrite <- Z.ldiff_land, Z.ldiff_ones_r, Z.shiftl_mul_pow2, Z.shiftr_div_pow2 by lia.
    change (2 ^ 12) with 4096. change (Z.ones 12) with 4095. Z.to_euclidean_division_equations; lia. }
  set (pages := Z.land _ _) in *. rewrite (wrap64_small (p + pages)) by (unfold u64, p; cbn; lia). cbn [fst snd]. eexists p, _. split; [done|].
  set (st' := set_sim _ _ _ (count_memory st)). assert (Hp : p = hg_sim_next_ptr st) by done.
  assert (Hs' : sim_ok st').
  { destruct Hs as [Hm _ Hb Hap]. constructor; [done|cbn; lia| |]; cbn.
    - intros [|j] b Hj; [injection Hj as <-; unfold block_ok; cbn; rewrite length_replicate; lia|]. destruct (Hb j b Hj) as (?&?&?&?). unfold block_ok. lia.
    - intros [|j] [|k] b d Hj Hk Hne; [done|injection Hj as <-|injection Hk as <-|apply (Hap j k b d Hj Hk); lia]; unfold blocks_apart; cbn; [destruct (Hb k d Hk)|destruct (Hb j b Hj)]; lia. }
  assert (Hnone : forall x, p <= x -> sim_at st x = None).
  { intros x Hx. apply sim_at_outside; [|done]. intros j b Hj. destruct (so_blocks st Hs j b Hj). unfold contains. lia. }
  split; [done|]. split.
  - intros x Hx. split; [apply Hnone; lia|]. rewrite (sim_at_block st' x 0 a Hs' eq_refl) by (unfold contains; cbn; lia). cbn. apply lookup_replicate_2. lia.
  - intros x Hx. destruct (sim_at_cases st x Hs) as [(j&b&Hj&Hb)|Hno].
    + rewrite (sim_at_block st x j b), (sim_at_block st' x (S j) b) by done. done.
    + rewrite (sim_at_outside st x) by done. apply sim_at_outside; [|done]. intros [|j] b Hj; [injection Hj as <-; unfold contains; cbn; lia|by apply (Hno j)].
Qed.

(** An allocation of simulated memory is a block of zeros where nothing was allocated, and leaves
    the rest as it is. *)
Theorem sim_malloc_fresh (st : HetGPUState) (c : C) (size : Z)
  (Hs : sim_ok st) (Hsize : 0 < size) (Hroom : hg_sim_next_ptr st + size + 4096 < 2 ^ 63) :
  exists p st', hetgpu_malloc cuda st c size = (HETGPU_SUCCESS, p, st', c) /\ sim_ok st' /\
    (forall x, p <= x < p + size -> sim_at st x = None /\ sim_at st' x = Some 0) /\
    (forall x, x < p \/ p + size <= x -> sim_at st' x = sim_at st x).
Proof. exact (sim_malloc_ok st c size Hs Hsize Hroom). Qed.

(** Initialisation succeeds exactly when the state is marked as initialised; the backend is then
    a real one unless a simulation was asked for; after a failure no memory or kernel
    operation succeeds. *)
Theorem hetgpu_init_result (b : HetGPUBackendType) (device_index : Z) (dlopen : bool) (g : cuda_globals) (c : C) :
  let '(err, st, _, c') := hetgpu_init cuda b device_index dlopen g c in
  hg_initialized st = bool_decide (err = HETGPU_SUCCESS) /\
  (hg_initialized st = true -> hg_backend st <> HETGPU_BACKEND_AUTO /\ (hg_backend st = HETGPU_BACKEND_SIMULATION -> b = HETGPU_BACKEND_SIMULATION /\ hg_context st = 0)) /\
  (hg_initialized st = false ->
     (forall size, (hetgpu_malloc cuda st c' size).1.1.1 = HETGPU_ERROR_INVALID_VALUE) /\
     (forall dst src, hetgpu_memcpy_htod cuda st c' dst src = Some (HETGPU_ERROR_INVALID_VALUE, st, c')) /\
     (forall f cfg args, hetgpu_launch_kernel cuda st c' f cfg args = (HETGPU_ERROR_INVALID_VALUE, st, c'))).
Proof.
  assert (Hfail : forall (st : HetGPUState) (c' : C), hg_initialized st = false ->
     (forall size, (hetgpu_malloc cuda st c' size).1.1.1 = HETGPU_ERROR_INVALID_VALUE) /\
     (forall dst src, hetgpu_memcpy_htod cuda st c' dst src = Some (HETGPU_ERROR_INVALID_VALUE, st, c')) /\
     (forall f cfg args, hetgpu_launch_kernel cuda st c' f cfg args = (HETGPU_ERROR_INVALID_VALUE, st, c'))).
  { intros st c' H. unfold hetgpu_malloc, hetgpu_memcpy_htod, hetgpu_launch_kernel. rewrite H. done. }
  unfold hetgpu_init. destruct (load_library cuda dlopen g c) as [[ok g'] c1].
  destruct (negb ok || negb (g_cuda_lib_handle g') || negb (g_cuda_lib_initialized g')); [split; [done|split; [done|apply Hfail]]|].
  destruct (match cuDeviceGet cuda with Some f => f c1 device_index | None => (0, 0, c1) end) as [[err dev] c2].
  destruct (negb (err =? 0)); [split; [done|split; [done|apply Hfail]]|].
  destruct (cuCtxCreate cuda) as [f|]; [|split; [done|split; [done|apply Hfail]]].
  destruct (f c2 dev) as [[err2 ctx] c3]. destruct (negb (err2 =? 0)); [split; [done|split; [done|apply Hfail]]|].
  destruct (ctx =? 0); (split; [done|split; [|done]]); intros _; cbn.
  - case_bool_decide; [done|]. split; [done|]. by intros ->.
  - done.
Qed.

(** The test of a copy between blocks of simulated memory wraps: a length just below [2^64]
    passes it and the copy leaves the blocks. *)
Theorem sim_dtod_wraps (st : HetGPUState) (c : C) (i j : nat) (a b : HetGPUSimAlloc) (k : Z)
  (Hs : sim_ok st) (Ha : hg_sim_allocs st !! i = Some a) (Hb : hg_sim_allocs st !! j = Some b)
  (Hk : 0 < k) (Hka : k < sa_size a) (Hkb : k < sa_size b) :
  hetgpu_memcpy_dtod cuda st c (sa_dev_ptr b + k) (sa_dev_ptr a + k) (2 ^ 64 - k) = None.
Proof.
  destruct (sim_is_sim st Hs) as [Hsim Hini]. pose proof (sim_ok_count st Hs) as Hs1. pose proof (so_next st Hs). unfold hetgpu_memcpy_dtod. rewrite Hini. cbn [negb].
  rewrite with_library_sim by done. change (is_sim (count_memory st)) with (is_sim st). rewrite Hsim.
  destruct (so_blocks st Hs i a Ha) as (A1&A2&A3&A4), (so_blocks st Hs j b Hb) as (B1&B2&B3&B4). unfold sim_dtod.
  rewrite (find_sim_unique (count_memory st) _ i a Hs1 Ha), (find_sim_unique (count_memory st) _ j b Hs1 Hb) by (unfold contains; lia).
  replace (sa_dev_ptr a + k - sa_dev_ptr a) with k by lia. replace (sa_dev_ptr b + k - sa_dev_ptr b) with k by lia.
  rewrite (wrap64_small k) by (unfold u64; lia). replace (k + (2 ^ 64 - k)) with (2 ^ 64) by lia. change (wrap64 (2 ^ 64)) with 0.
  rewrite !(proj2 (Z.leb_le _ _)) by lia. cbn [andb]. case_guard; [|done]. cbn [mbind option_bind]. unfold mem_read. rewrite decide_False by lia. done.
Qed.

End Theorems.

(** ** Witnesses *)

(** A library that manages the context itself and has no memory functions. *)
Definition demo_cuda : cuda_api unit :=
  mkCuda unit (Some (fun c => (0, c))) None (Some (fun c i => (0, i, c))) None None None (Some (fun c _ => (0, 0, c)))
    None None None None None None None None None None None None None.

Definition demo_gpu0 : HetGPUState := (hetgpu_init demo_cuda HETGPU_BACKEND_SIMULATION 0 true (mkGlobals false false) tt).1.1.2.

(** After two allocations. *)
Definition demo_gpu : HetGPUState := (hetgpu_malloc demo_cuda (hetgpu_malloc demo_cuda demo_gpu0 tt 100).1.2 tt 50).1.2.

Lemma demo_gpu_ok : sim_ok demo_gpu.
Proof.
  assert (H0 : sim_ok demo_gpu0) by (constructor; [done|cbn; lia|done|done]).
  destruct (sim_malloc_ok demo_cuda demo_gpu0 tt 100 H0) as (p&st1&E1&H1&_); [lia|cbn; lia|].
  assert (Hn : hg_sim_next_ptr st1 = 4096) by (vm_compute in E1; injection E1 as _ <-; reflexivity).
  destruct (sim_malloc_ok demo_cuda st1 tt 50 H1) as (q&st2&E2&H2&_); [lia|rewrite Hn; lia|].
  unfold demo_gpu. rewrite E1. cbn [fst snd]. by rewrite E2.
Qed.

Lemma sim_htod_dtoh_witness :
  exists st', hetgpu_memcpy_htod demo_cuda demo_gpu tt 4100 [1; 2; 3] = Some (HETGPU_SUCCESS, st', tt) /\
  (exists st2, hetgpu_memcpy_dtoh demo_cuda st' tt [0; 0; 0] 4100 = Some (HETGPU_SUCCESS, [1; 2; 3], st2, tt)) /\ sim_at st' 99 = Some 0.
Proof.
  destruct (hg_sim_allocs demo_gpu !! 0%nat) as [a|] eqn:E; [|vm_compute in E; discriminate].
  assert (Ha : sa_dev_ptr a = 4096 /\ sa_size a = 50) by (vm_compute in E; injection E as <-; split; reflexivity).
  destruct (sim_htod_dtoh demo_cuda demo_gpu tt 0 a 4100 [1; 2; 3] demo_gpu_ok E) as (st'&H1&_&H2&H3); [destruct Ha; lia|cbn; lia|destruct Ha; cbn; lia|].
  exists st'. split; [exact H1|]. split; [apply H2; reflexivity|]. rewrite H3 by lia. vm_compute. reflexivity.
Defined.

Lemma sim_malloc_fresh_witness : exists p st', hetgpu_malloc demo_cuda demo_gpu tt 8 = (HETGPU_SUCCESS, p, st', tt) /\ p = 8192 /\ sim_at st' 8199 = Some 0.
Proof.
  destruct (sim_malloc_fresh demo_cuda demo_gpu tt 8 demo_gpu_ok) as (p&st'&H1&_&H2&_); [lia|vm_compute; reflexivity|].
  exists p, st'. split; [exact H1|]. assert (p = 8192) as -> by (vm_compute in H1; injection H1 as <- _; reflexivity). split; [reflexivity|apply H2; lia].
Defined.

Lemma sim_dtod_wraps_witness : hetgpu_memcpy_dtod demo_cuda demo_gpu tt 4097 1 (2 ^ 64 - 1) = None.
Proof.
  destruct (hg_sim_allocs demo_gpu !! 0%nat) as [b|] eqn:Eb; [|vm_compute in Eb; discriminate].
  destruct (hg_sim_allocs demo_gpu !! 1%nat) as [a|] eqn:Ea; [|vm_compute in Ea; discriminate].
  assert (Hb : sa_dev_ptr b = 4096 /\ sa_size b = 50) by (vm_compute in Eb; injection Eb as <-; split; reflexivity).
  assert (Ha : sa_dev_ptr a = 0 /\ sa_size a = 100) by (vm_compute in Ea; injection Ea as <-; split; reflexivity).
  destruct Hb as [Hb1 Hb2], Ha as [Ha1 Ha2].
  pose proof (sim_dtod_wraps demo_cuda demo_gpu tt 1 0 a b 1 demo_gpu_ok Ea Eb) as H. rewrite Hb1, Ha1, Ha2, Hb2 in H. apply H; lia.
Defined.
