(* ===== verification/Type3Dcd.v ===== *)
(** * Dynamic capacity of a type 3 device
      ([library/qemu/hw/mem/cxl_type3.c], [library/qemu/hw/cxl/cxl-mailbox-utils.c])

    A device of dynamic capacity offers extents of its memory to the host, which accepts or
    refuses them and gives them back.  [dynamic_capacity] is the state: the regions with a bitmap
    of blocks that are backed, the accepted extents, the queue of groups that wait for the host's
    answer, and the counters.  The operations are those of the operator
    ([qmp_cxl_process_dynamic_capacity_prescriptive]), of the fabric manager
    ([cmd_fm_initiate_dc_add], [cmd_fm_initiate_dc_release]) and of the host
    ([cmd_dcd_add_dyn_cap_rsp], [cmd_dcd_release_dyn_cap]).  Tags and sequence numbers of extents,
    which no operation looks at, are left out, and so are the mutexes of the bitmaps.  Events are
    kept in the order in which they are created; the limits of the log are those of another part.
    A bitmap is a list of bits, as [util/bitmap.c] has it in words.
    [None] of an operation is a failed assertion, an access through a null pointer or outside of
    an array, or a loop that does not end.

    The lemmas count how often an address is in a list of extents ([cnt]) and relate bitmaps to
    that; the contract of the operations and the theorems are in [Type3DcdSpec]. *)
From S2P Require Import Prelude.
#[local] Open Scope Z_scope.

Definition CXL_CAPACITY_MULTIPLIER : Z := 256 * 2 ^ 20.
Definition CXL_NUM_EXTENTS_SUPPORTED : Z := 512.
Definition DCD_MAX_NUM_REGION : Z := 8.

(** ** Ranges and bitmaps *)
Record Range := mkRange { ra_lob : Z; ra_upb : Z }.

Definition range_init_nofail (lob size : Z) : option Range :=
  let upb := wrap64 (lob + size - 1) in
  if (lob <=? upb) || (lob =? upb ⊞ 1) then Some (mkRange lob upb) else None.

Definition range_is_empty (r : Range) : bool := ra_upb r <? ra_lob r.

Definition range_contains (r : Range) (val : Z) : bool := (ra_lob r <=? val) && (val <=? ra_upb r).

Definition range_overlaps_range (r1 r2 : Range) : bool :=
  if range_is_empty r1 || range_is_empty r2 then false
  else negb ((ra_upb r2 <? ra_lob r1) || (ra_upb r1 <? ra_lob r2)).

Definition range_contains_range (r1 r2 : Range) : bool :=
  if range_is_empty r1 || range_is_empty r2 then false
  else (ra_lob r1 <=? ra_lob r2) && (ra_upb r2 <=? ra_upb r1).

Definition in_bits (nr n : Z) (map : list bool) : bool := (0 <=? nr) && (0 <=? n) && (nr + n <=? Z.of_nat (length map)).

(** The first bit [b] at or after [offset], or [size]. *)
Definition find_next (b : bool) (map : list bool) (size offset : Z) : option Z :=
  if size <=? offset then Some size
  else if in_bits offset (size - offset) map then
    Some (match list_find (eq b) (take (Z.to_nat (size - offset)) (drop (Z.to_nat offset) map)) with Some (i, _) => offset + Z.of_nat i | None => size end)
  else None.

Definition bitmap_fill (b : bool) (nr n : Z) (map : list bool) : option (list bool) :=
  if n =? 0 then Some map
  else if in_bits nr n map then Some (take (Z.to_nat nr) map ++ replicate (Z.to_nat n) b ++ drop (Z.to_nat (nr + n)) map)
  else None.

Definition test_any_bits_set (map : list bool) (nr size : Z) : option bool :=
  res ← find_next true map (size + nr) nr;
  Some (res <? nr + size).

(** ** State *)
Record CXLDCExtent := mkExtent { ex_start_dpa : Z; ex_len : Z }.

Record CXLDCRegion := mkRegion { dr_base : Z; dr_len : Z; dr_block_size : Z; dr_blk_bitmap : list bool }.

Inductive CXLDCEventType := DC_EVENT_ADD_CAPACITY | DC_EVENT_RELEASE_CAPACITY.

(** An event record: type, extent, and whether more records follow. *)
Record dc_event := mkEvent { ev_type : CXLDCEventType; ev_extent : CXLDCExtent; ev_more : bool }.

Record dynamic_capacity := mkDc {
  dc_total_capacity : Z;
  dc_extents : list CXLDCExtent;
  dc_extents_pending : list (list CXLDCExtent);
  dc_total_extent_count : Z;
  dc_nr_extents_accepted : Z;
  dc_regions : list CXLDCRegion;           (* the first num_regions of the array *)
  dc_events : list dc_event
}.

Definition set_dc_extents (l : list CXLDCExtent) (d : dynamic_capacity) : dynamic_capacity :=
  mkDc (dc_total_capacity d) l (dc_extents_pending d) (dc_total_extent_count d) (dc_nr_extents_accepted d) (dc_regions d) (dc_events d).

Definition set_dc_pending (l : list (list CXLDCExtent)) (d : dynamic_capacity) : dynamic_capacity :=
  mkDc (dc_total_capacity d) (dc_extents d) l (dc_total_extent_count d) (dc_nr_extents_accepted d) (dc_regions d) (dc_events d).

Definition set_dc_counts (total accepted : Z) (d : dynamic_capacity) : dynamic_capacity :=
  mkDc (dc_total_capacity d) (dc_extents d) (dc_extents_pending d) total accepted (dc_regions d) (dc_events d).

Definition set_dc_regions (l : list CXLDCRegion) (d : dynamic_capacity) : dynamic_capacity :=
  mkDc (dc_total_capacity d) (dc_extents d) (dc_extents_pending d) (dc_total_extent_count d) (dc_nr_extents_accepted d) l (dc_events d).

Definition set_dc_events (l : list dc_event) (d : dynamic_capacity) : dynamic_capacity :=
  mkDc (dc_total_capacity d) (dc_extents d) (dc_extents_pending d) (dc_total_extent_count d) (dc_nr_extents_accepted d) (dc_regions d) l.

(** The regions that follow each other from [base]. *)
Fixpoint dc_region_list (n : nat) (base len : Z) : list CXLDCRegion :=
  match n with
  | O => []
  | S n' => mkRegion base len (2 * 2 ^ 20) (replicate (Z.to_nat (len / (2 * 2 ^ 20))) false) :: dc_region_list n' (base ⊞ len) len
  end.

(** [Some None] is a configuration that is refused; the array has eight regions, and nothing
    compares [num_regions] with that. *)
Definition cxl_create_dc_regions (num_regions dc_size vmem_size pmem_size : Z) : option (option dynamic_capacity) :=
  if num_regions =? 0 then None
  else
    let region_len := (dc_size + num_regions - 1) / num_regions in
    let region_base := vmem_size ⊞ pmem_size in
    if negb (dc_size mod (num_regions * CXL_CAPACITY_MULTIPLIER) =? 0) then Some None
    else if negb (region_len mod CXL_CAPACITY_MULTIPLIER =? 0) then Some None
    else if negb (region_base mod CXL_CAPACITY_MULTIPLIER =? 0) then Some None
    else if DCD_MAX_NUM_REGION <? num_regions then None
    else Some (Some (mkDc (num_regions ⊠ region_len) [] [] 0 0 (dc_region_list (Z.to_nat num_regions) region_base region_len) [])).

(** ** Regions and extents *)
Fixpoint find_region_below (rs : list CXLDCRegion) (i : nat) (dpa len : Z) : option (nat * CXLDCRegion) :=
  match i with
  | O => None
  | S i' =>
      match rs !! i' with
      | Some r =>
          if dr_base r <=? dpa then (if dr_base r ⊞ dr_len r <? dpa ⊞ len then None else Some (i', r))
          else find_region_below rs i' dpa len
      | None => None
      end
  end.

Definition region0_base (d : dynamic_capacity) : Z := match dc_regions d with r :: _ => dr_base r | [] => 0 end.

Definition cxl_find_dc_region (d : dynamic_capacity) (dpa len : Z) : option (nat * CXLDCRegion) :=
  if (dpa <? region0_base d) || (region0_base d ⊞ dc_total_capacity d <=? dpa) then None
  else find_region_below (dc_regions d) (length (dc_regions d)) dpa len.

Definition ct3_fill_region_block (b : bool) (d : dynamic_capacity) (dpa len : Z) : option dynamic_capacity :=
  match cxl_find_dc_region d dpa len with
  | None => Some d
  | Some (i, r) =>
      map ← bitmap_fill b ((dpa - dr_base r) / dr_block_size r) (len / dr_block_size r) (dr_blk_bitmap r);
      Some (set_dc_regions (<[i := mkRegion (dr_base r) (dr_len r) (dr_block_size r) map]> (dc_regions d)) d)
  end.

Definition ct3_set_region_block_backed := ct3_fill_region_block true.

Definition ct3_clear_region_block_backed := ct3_fill_region_block false.

Definition ct3_test_region_block_backed (d : dynamic_capacity) (dpa len : Z) : option bool :=
  match cxl_find_dc_region d dpa len with
  | None => Some false
  | Some (_, r) =>
      let nr := (dpa - dr_base r) / dr_block_size r in
      let nbits := wrap64 (len + dr_block_size r - 1) / dr_block_size r in
      res ← find_next false (dr_blk_bitmap r) (nr + nbits) nr;
      Some (res =? nr + nbits)
  end.

Fixpoint extents_overlap (r : Range) (l : list CXLDCExtent) : option bool :=
  match l with
  | [] => Some false
  | e :: l' =>
      r2 ← range_init_nofail (ex_start_dpa e) (ex_len e);
      if range_overlaps_range r r2 then Some true else extents_overlap r l'
  end.

Definition cxl_extents_overlaps_dpa_range (l : list CXLDCExtent) (dpa len : Z) : option bool :=
  r ← range_init_nofail dpa len;
  extents_overlap r l.

Fixpoint extents_contain (r : Range) (l : list CXLDCExtent) : option bool :=
  match l with
  | [] => Some false
  | e :: l' =>
      r2 ← range_init_nofail (ex_start_dpa e) (ex_len e);
      if range_contains_range r2 r then Some true else extents_contain r l'
  end.

Definition cxl_extents_contains_dpa_range (l : list CXLDCExtent) (dpa len : Z) : option bool :=
  r ← range_init_nofail dpa len;
  extents_contain r l.

Fixpoint cxl_extent_groups_overlaps_dpa_range (gs : list (list CXLDCExtent)) (dpa len : Z) : option bool :=
  match gs with
  | [] => Some false
  | g :: gs' =>
      o ← cxl_extents_overlaps_dpa_range g dpa len;
      if o : bool then Some true else cxl_extent_groups_overlaps_dpa_range gs' dpa len
  end.

Definition cxl_extent_group_list_delete_front (d : dynamic_capacity) : option (Z * dynamic_capacity) :=
  match dc_extents_pending d with
  | [] => None
  | g :: gs => Some (Z.of_nat (length g), set_dc_pending gs d)
  end.

Fixpoint event_records (type : CXLDCEventType) (l : list CXLDCExtent) : list dc_event :=
  match l with
  | [] => []
  | e :: l' => mkEvent type e (negb (bool_decide (l' = []))) :: event_records type l'
  end.

Definition cxl_create_dc_event_records_for_extents (type : CXLDCEventType) (l : list CXLDCExtent) (d : dynamic_capacity) : dynamic_capacity :=
  set_dc_events (dc_events d ++ event_records type l) d.

(** ** Checks of a list of extents *)
Inductive CXLRetCode :=
  CXL_MBOX_SUCCESS | CXL_MBOX_INVALID_INPUT | CXL_MBOX_INVALID_PA | CXL_MBOX_INVALID_PAYLOAD_LENGTH |
  CXL_MBOX_INVALID_EXTENT_LIST | CXL_MBOX_RESOURCES_EXHAUSTED.

#[global] Instance CXLRetCode_eq_dec : EqDecision CXLRetCode.
Proof. solve_decision. Defined.

Definition min_block_size (rs : list CXLDCRegion) : Z := foldl (fun m r => Z.min m (dr_block_size r)) (2 ^ 64 - 1) rs.

Fixpoint malformed_loop (d : dynamic_capacity) (base bs : Z) (map : list bool) (l : list CXLDCExtent) : option CXLRetCode :=
  match l with
  | [] => Some CXL_MBOX_SUCCESS
  | e :: l' =>
      match cxl_find_dc_region d (ex_start_dpa e) (ex_len e) with
      | None => Some CXL_MBOX_INVALID_PA
      | Some (_, r) =>
          let dpa := ex_start_dpa e ⊟ base in
          if negb (dpa mod dr_block_size r =? 0) || negb (ex_len e mod dr_block_size r =? 0) then Some CXL_MBOX_INVALID_EXTENT_LIST
          else
            any ← test_any_bits_set map (dpa / bs) (ex_len e / bs);
            if any : bool then Some CXL_MBOX_INVALID_EXTENT_LIST
            else
              map ← bitmap_fill true (dpa / bs) (ex_len e / bs) map;
              malformed_loop d base bs map l'
      end
  end.

Definition cxl_detect_malformed_extent_list (d : dynamic_capacity) (l : list CXLDCExtent) : option CXLRetCode :=
  lastregion ← last (dc_regions d);
  let bs := min_block_size (dc_regions d) in
  let n := (dr_base lastregion ⊞ dr_len lastregion ⊟ region0_base d) / bs in
  malformed_loop d (region0_base d) bs (replicate (Z.to_nat n) false) l.

(** ** Answers and releases of the host *)

(** The payload of both commands: its length, the count in its header, and the entries that it
    has room for. *)
Record CXLUpdateDCExtentListInPl := mkUpdate { up_len_in : Z; up_num_entries_updated : Z; up_updated_entries : list CXLDCExtent }.

Definition updated_entries (p : CXLUpdateDCExtentListInPl) : option (list CXLDCExtent) :=
  if up_num_entries_updated p <=? Z.of_nat (length (up_updated_entries p)) then Some (take (Z.to_nat (up_num_entries_updated p)) (up_updated_entries p)) else None.

Fixpoint add_rsp_dry_run (d : dynamic_capacity) (l : list CXLDCExtent) : option CXLRetCode :=
  match l with
  | [] => Some CXL_MBOX_SUCCESS
  | e :: l' =>
      range1 ← range_init_nofail (ex_start_dpa e) (ex_len e);
      ext_group ← head (dc_extents_pending d);
      inside ← cxl_extents_contains_dpa_range ext_group (ex_start_dpa e) (ex_len e);
      if negb inside then Some CXL_MBOX_INVALID_PA
      else
        over ← extents_overlap range1 (dc_extents d);
        if over : bool then Some CXL_MBOX_INVALID_PA else add_rsp_dry_run d l'
  end.

Fixpoint accept_extents (l : list CXLDCExtent) (d : dynamic_capacity) : option dynamic_capacity :=
  match l with
  | [] => Some d
  | e :: l' =>
      let d := set_dc_extents (dc_extents d ++ [e]) d in
      let d := set_dc_counts (wrap32 (dc_total_extent_count d + 1)) (wrap32 (dc_nr_extents_accepted d + 1)) d in
      d ← ct3_set_region_block_backed d (ex_start_dpa e) (ex_len e);
      accept_extents l' d
  end.

Definition drop_front (d : dynamic_capacity) : option dynamic_capacity :=
  '(num, d) ← cxl_extent_group_list_delete_front d;
  Some (set_dc_counts (wrap32 (dc_total_extent_count d - num)) (dc_nr_extents_accepted d) d).

Definition cmd_dcd_add_dyn_cap_rsp (p : CXLUpdateDCExtentListInPl) (d : dynamic_capacity) : option (CXLRetCode * dynamic_capacity) :=
  if up_len_in p <? 8 then Some (CXL_MBOX_INVALID_PAYLOAD_LENGTH, d)
  else if up_num_entries_updated p =? 0 then
    d ← drop_front d;
    Some (CXL_MBOX_SUCCESS, d)
  else if up_len_in p <? 8 + 24 * up_num_entries_updated p then Some (CXL_MBOX_INVALID_PAYLOAD_LENGTH, d)
  else if CXL_NUM_EXTENTS_SUPPORTED <? wrap32 (up_num_entries_updated p + dc_total_extent_count d) then Some (CXL_MBOX_RESOURCES_EXHAUSTED, d)
  else
    l ← updated_entries p;
    ret ← cxl_detect_malformed_extent_list d l;
    if negb (bool_decide (ret = CXL_MBOX_SUCCESS)) then Some (ret, d)
    else
      ret ← add_rsp_dry_run d l;
      if negb (bool_decide (ret = CXL_MBOX_SUCCESS)) then Some (ret, d)
      else
        d ← accept_extents l d;
        d ← drop_front d;
        Some (CXL_MBOX_SUCCESS, d).

(** The first extent of the list that contains [dpa], with its place. *)
Fixpoint find_extent (l : list CXLDCExtent) (dpa : Z) : option (option (nat * CXLDCExtent)) :=
  match l with
  | [] => Some None
  | e :: l' =>
      r ← range_init_nofail (ex_start_dpa e) (ex_len e);
      if range_contains r dpa then Some (Some (0%nat, e))
      else
        res ← find_extent l' dpa;
        Some (match res with Some (i, e') => Some (S i, e') | None => None end)
  end.

Definition opt_extent (dpa len : Z) : list CXLDCExtent := if len =? 0 then [] else [mkExtent dpa len].

(** The loop that takes [dpa, dpa + len) out of the list.  An extent is used up in every turn and
    [dpa] goes past it, so that one turn for each extent and a last one are enough. *)
Fixpoint release_loop (fuel : nat) (total : Z) (l : list CXLDCExtent) (dpa len cnt_delta : Z) : option (CXLRetCode * list CXLDCExtent * Z) :=
  match fuel with
  | O => None
  | S fuel' =>
      if len =? 0 then Some (CXL_MBOX_SUCCESS, l, cnt_delta)
      else
        found ← find_extent l dpa;
        '(i, e) ← found;
        let len1 := dpa - ex_start_dpa e in
        r ← range_init_nofail (ex_start_dpa e) (ex_len e);
        let last := range_contains r (wrap64 (dpa + len - 1)) in
        let len2 := if last then wrap64 (ex_start_dpa e + ex_len e - dpa - len) else 0 in
        let dpa' := if last then dpa else ex_start_dpa e ⊞ ex_len e in
        let len_done := wrap64 (ex_len e - len1 - len2) in
        let l' := delete i l ++ opt_extent (ex_start_dpa e) len1 ++ opt_extent (dpa' ⊞ len) len2 in
        let cnt_delta' := cnt_delta - 1 + (if len1 =? 0 then 0 else 1) + (if len2 =? 0 then 0 else 1) in
        if CXL_NUM_EXTENTS_SUPPORTED <? wrap32 (cnt_delta' + total) then Some (CXL_MBOX_RESOURCES_EXHAUSTED, l', cnt_delta')
        else release_loop fuel' total l' dpa' (len ⊟ len_done) cnt_delta'
  end.

Fixpoint release_entries (d : dynamic_capacity) (req l : list CXLDCExtent) (cnt_delta : Z) : option (CXLRetCode * list CXLDCExtent * Z) :=
  match req with
  | [] => Some (CXL_MBOX_SUCCESS, l, cnt_delta)
  | e :: req' =>
      backed ← ct3_test_region_block_backed d (ex_start_dpa e) (ex_len e);
      if negb backed then Some (CXL_MBOX_INVALID_PA, l, cnt_delta)
      else
        '(ret, l, cnt_delta) ← release_loop (S (S (length l))) (dc_total_extent_count d) l (ex_start_dpa e) (ex_len e) cnt_delta;
        if bool_decide (ret = CXL_MBOX_SUCCESS) then release_entries d req' l cnt_delta else Some (ret, l, cnt_delta)
  end.

(** The code, the list that is left and its size. *)
Definition cxl_dc_extent_release_dry_run (d : dynamic_capacity) (req : list CXLDCExtent) : option (CXLRetCode * list CXLDCExtent * Z) :=
  '(ret, l, cnt_delta) ← release_entries d req (dc_extents d) 0;
  Some (if bool_decide (ret = CXL_MBOX_SUCCESS) then (ret, l, wrap32 (dc_nr_extents_accepted d + cnt_delta)) else (ret, [], 0)).

Fixpoint fill_extents (b : bool) (l : list CXLDCExtent) (d : dynamic_capacity) : option dynamic_capacity :=
  match l with
  | [] => Some d
  | e :: l' =>
      d ← ct3_fill_region_block b d (ex_start_dpa e) (ex_len e);
      fill_extents b l' d
  end.

Definition cmd_dcd_release_dyn_cap (p : CXLUpdateDCExtentListInPl) (d : dynamic_capacity) : option (CXLRetCode * dynamic_capacity) :=
  if up_len_in p <? 8 then Some (CXL_MBOX_INVALID_PAYLOAD_LENGTH, d)
  else if up_num_entries_updated p =? 0 then Some (CXL_MBOX_INVALID_INPUT, d)
  else if up_len_in p <? 8 + 24 * up_num_entries_updated p then Some (CXL_MBOX_INVALID_PAYLOAD_LENGTH, d)
  else
    req ← updated_entries p;
    ret ← cxl_detect_malformed_extent_list d req;
    if negb (bool_decide (ret = CXL_MBOX_SUCCESS)) then Some (ret, d)
    else
      '(ret, updated_list, updated_list_size) ← cxl_dc_extent_release_dry_run d req;
      if negb (bool_decide (ret = CXL_MBOX_SUCCESS)) then Some (ret, d)
      else
        d ← fill_extents false (dc_extents d) d;
        d ← fill_extents true updated_list (set_dc_extents updated_list d);
        Some (CXL_MBOX_SUCCESS, set_dc_counts (wrap32 (dc_total_extent_count d + (updated_list_size - dc_nr_extents_accepted d))) updated_list_size d).

(** ** Offers of the fabric manager *)
Definition CXL_EXTENT_SELECTION_POLICY_PRESCRIPTIVE : Z := 2.
Definition CXL_EXTENT_REMOVAL_POLICY_PRESCRIPTIVE : Z := 1.

(** Whether an extent of the list overlaps one that is offered or accepted. *)
Fixpoint any_overlap (d : dynamic_capacity) (accepted_too : bool) (l : list CXLDCExtent) : option bool :=
  match l with
  | [] => Some false
  | e :: l' =>
      o1 ← cxl_extent_groups_overlaps_dpa_range (dc_extents_pending d) (ex_start_dpa e) (ex_len e);
      if o1 : bool then Some true
      else
        o2 ← (if accepted_too then cxl_extents_overlaps_dpa_range (dc_extents d) (ex_start_dpa e) (ex_len e) else Some false);
        if o2 : bool then Some true else any_overlap d accepted_too l'
  end.

(** [l] has the [ext_count] extents of the payload.  A group is made with its first extent, so
    that without extents a null pointer is linked into the queue. *)
Definition cmd_fm_initiate_dc_add (selection_policy : Z) (l : list CXLDCExtent) (d : dynamic_capacity) : option (CXLRetCode * dynamic_capacity) :=
  if selection_policy =? CXL_EXTENT_SELECTION_POLICY_PRESCRIPTIVE then
    if CXL_NUM_EXTENTS_SUPPORTED <? wrap32 (Z.of_nat (length l) + dc_total_extent_count d) then Some (CXL_MBOX_RESOURCES_EXHAUSTED, d)
    else
      rc ← cxl_detect_malformed_extent_list d l;
      over ← any_overlap d true l;
      if over : bool then Some (CXL_MBOX_INVALID_EXTENT_LIST, d)
      else if negb (bool_decide (rc = CXL_MBOX_SUCCESS)) then Some (rc, d)
      else match l with
      | [] => None
      | _ =>
          let d := set_dc_pending (dc_extents_pending d ++ [l]) d in
          let d := set_dc_counts (wrap32 (dc_total_extent_count d + Z.of_nat (length l))) (dc_nr_extents_accepted d) d in
          Some (CXL_MBOX_SUCCESS, cxl_create_dc_event_records_for_extents DC_EVENT_ADD_CAPACITY l d)
      end
  else Some (CXL_MBOX_INVALID_INPUT, d).

Definition cmd_fm_initiate_dc_release (flags : Z) (l : list CXLDCExtent) (d : dynamic_capacity) : option (CXLRetCode * dynamic_capacity) :=
  if Z.land flags 0xF =? CXL_EXTENT_REMOVAL_POLICY_PRESCRIPTIVE then
    rc ← cxl_detect_malformed_extent_list d l;
    if negb (bool_decide (rc = CXL_MBOX_SUCCESS)) then Some (rc, d)
    else
      over ← (if negb (Z.testbit flags 4) then any_overlap d false l else Some false);
      if over : bool then Some (CXL_MBOX_INVALID_PA, d)
      else
        '(rc, _, _) ← cxl_dc_extent_release_dry_run d l;
        if negb (bool_decide (rc = CXL_MBOX_SUCCESS)) then Some (rc, d)
        else Some (CXL_MBOX_SUCCESS, cxl_create_dc_event_records_for_extents DC_EVENT_RELEASE_CAPACITY l d)
  else Some (CXL_MBOX_INVALID_INPUT, d).

(** ** Requests of the operator *)
Inductive qmp_error :=
  E_no_dynamic_capacity | E_region_id | E_zero_length | E_unaligned | E_beyond_region | E_duplicate |
  E_release_pending | E_release_missing | E_add_accessible | E_add_pending.

(** The checks of the records, and the extents that they stand for. *)
Fixpoint check_records (d : dynamic_capacity) (type : CXLDCEventType) (r : CXLDCRegion) (map : list bool) (records : list (Z * Z)) : option (qmp_error + list CXLDCExtent) :=
  match records with
  | [] => Some (inr [])
  | (offset, len) :: records' =>
      let dpa := offset ⊞ dr_base r in
      let bs := dr_block_size r in
      if len =? 0 then Some (inl E_zero_length)
      else if negb (offset mod bs =? 0) || negb (len mod bs =? 0) then Some (inl E_unaligned)
      else if dr_len r <? offset ⊞ len then Some (inl E_beyond_region)
      else
        any ← test_any_bits_set map (offset / bs) (len / bs);
        if any : bool then Some (inl E_duplicate)
        else
          map ← bitmap_fill true (offset / bs) (len / bs) map;
          err ← match type with
                | DC_EVENT_RELEASE_CAPACITY =>
                    pending ← cxl_extent_groups_overlaps_dpa_range (dc_extents_pending d) dpa len;
                    if pending : bool then Some (Some E_release_pending)
                    else
                      backed ← ct3_test_region_block_backed d dpa len;
                      Some (if backed : bool then None else Some E_release_missing)
                | DC_EVENT_ADD_CAPACITY =>
                    accessible ← cxl_extents_overlaps_dpa_range (dc_extents d) dpa len;
                    if accessible : bool then Some (Some E_add_accessible)
                    else
                      pending ← cxl_extent_groups_overlaps_dpa_range (dc_extents_pending d) dpa len;
                      Some (if pending : bool then Some E_add_pending else None)
                end;
          match err with
          | Some e => Some (inl e)
          | None =>
              rest ← check_records d type r map records';
              Some (match rest with inl e => inl e | inr l => inr (mkExtent dpa len :: l) end)
          end
  end.

Definition qmp_cxl_process_dynamic_capacity_prescriptive (type : CXLDCEventType) (rid : Z) (records : list (Z * Z)) (d : dynamic_capacity) :
  option (option qmp_error * dynamic_capacity) :=
  if bool_decide (dc_regions d = []) then Some (Some E_no_dynamic_capacity, d)
  else match dc_regions d !! Z.to_nat rid with
  | None => Some (Some E_region_id, d)
  | Some r =>
      checked ← check_records d type r (replicate (Z.to_nat (dr_len r / dr_block_size r)) false) records;
      match checked with
      | inl e => Some (Some e, d)
      | inr l =>
          let d :=
            match type, l with
            | DC_EVENT_ADD_CAPACITY, _ :: _ =>
                let d := set_dc_pending (dc_extents_pending d ++ [l]) d in
                set_dc_counts (wrap32 (dc_total_extent_count d + Z.of_nat (length l))) (dc_nr_extents_accepted d) d
            | _, _ => d
            end in
          Some (None, cxl_create_dc_event_records_for_extents type l d)
      end
  end.

(** ** The list for the host *)

(** The count in the answer of [cmd_dcd_get_dyn_cap_ext_list] and the records that are written;
    2032 bytes of the payload are left for records of 40 bytes. *)
Definition cmd_dcd_get_dyn_cap_ext_list (extent_cnt start_extent_id : Z) (d : dynamic_capacity) : CXLRetCode * Z * list CXLDCExtent :=
  if dc_nr_extents_accepted d <? start_extent_id then (CXL_MBOX_INVALID_INPUT, 0, [])
  else
    let record_count := Z.min extent_cnt (wrap32 (dc_total_extent_count d - start_extent_id)) mod 2 ^ 16 in
    let record_count := Z.min record_count ((2048 - 16) / 40) in
    (CXL_MBOX_SUCCESS, record_count, take (Z.to_nat record_count) (drop (Z.to_nat start_extent_id) (dc_extents d))).

(** ** How often an address is in a list of extents *)
Definition ind (e : CXLDCExtent) (x : Z) : Z := if (ex_start_dpa e <=? x) && (x <? ex_start_dpa e + ex_len e) then 1 else 0.

Definition tally (f : CXLDCExtent -> Z) (l : list CXLDCExtent) : Z := foldr (fun e n => f e + n) 0 l.

Definition cnt (l : list CXLDCExtent) (x : Z) : Z := tally (fun e => ind e x) l.

#[global] Arguments cnt : simpl never.

Lemma tally_app (f : CXLDCExtent -> Z) (l k : list CXLDCExtent) : tally f (l ++ k) = tally f l + tally f k.
Proof. induction l as [|e l IH]; [done|]. unfold tally in *. cbn. rewrite IH. lia. Qed.

Lemma tally_delete (f : CXLDCExtent -> Z) (l : list CXLDCExtent) (i : nat) (e : CXLDCExtent) : l !! i = Some e -> tally f l = f e + tally f (delete i l).
Proof.
  revert i. induction l as [|e0 l IH]; intros [|i] H; [done|done|by injection H as ->|].
  change (delete (S i) (e0 :: l)) with (e0 :: delete i l). unfold tally in *. cbn. rewrite (IH i H). lia.
Qed.

Lemma ind_cases (e : CXLDCExtent) (x : Z) :
  (ex_start_dpa e <= x < ex_start_dpa e + ex_len e /\ ind e x = 1) \/ (~ (ex_start_dpa e <= x < ex_start_dpa e + ex_len e) /\ ind e x = 0).
Proof. unfold ind. destruct (_ && _) eqn:E; zify_bool; [left|right]; lia. Qed.

Lemma ind_iff (e : CXLDCExtent) (x : Z) : ind e x = 1 <-> ex_start_dpa e <= x < ex_start_dpa e + ex_len e.
Proof. destruct (ind_cases e x); lia. Qed.

Lemma cnt_cons (e : CXLDCExtent) (l : list CXLDCExtent) (x : Z) : cnt (e :: l) x = ind e x + cnt l x.
Proof. done. Qed.

Lemma cnt_nonneg (l : list CXLDCExtent) (x : Z) : 0 <= cnt l x.
Proof. induction l as [|e l IH]; [done|]. rewrite cnt_cons. destruct (ind_cases e x); lia. Qed.

Lemma cnt_app (l k : list CXLDCExtent) (x : Z) : cnt (l ++ k) x = cnt l x + cnt k x.
Proof. apply tally_app. Qed.

Lemma cnt_delete (l : list CXLDCExtent) (i : nat) (e : CXLDCExtent) (x : Z) : l !! i = Some e -> cnt l x = ind e x + cnt (delete i l) x.
Proof. apply tally_delete. Qed.

Lemma cnt_pos (l : list CXLDCExtent) (x : Z) : 0 < cnt l x <-> exists e, e ∈ l /\ ind e x = 1.
Proof.
  induction l as [|e l IH].
  - split; [unfold cnt; cbn; lia|]. intros (e&H&_). by apply elem_of_nil in H.
  - rewrite cnt_cons. pose proof (cnt_nonneg l x). split.
    + intros H1. destruct (ind_cases e x) as [[_ Hi]|[_ Hi]]; [exists e; split; [left|]; done|].
      destruct IH as [IH _]. destruct IH as (e'&?&?); [lia|]. exists e'. split; [by right|done].
    + intros (e'&He&Hi). apply elem_of_cons in He as [->|He]; [lia|]. destruct IH as [_ IH]. assert (0 < cnt l x) by (apply IH; eauto). destruct (ind_cases e x); lia.
Qed.

(** ** Bitmaps over addresses *)

(** The bits of [map], one for each [bs] bytes from [base], are the values of [f]. *)
Definition shows (bs base : Z) (map : list bool) (f : Z -> bool) : Prop :=
  forall x, base <= x < base + Z.of_nat (length map) * bs -> map !! Z.to_nat ((x - base) / bs) = Some (f x).

Lemma shows_ext (bs base : Z) (map : list bool) (f g : Z -> bool) :
  (forall x, base <= x < base + Z.of_nat (length map) * bs -> f x = g x) -> shows bs base map f -> shows bs base map g.
Proof. intros H Hs x Hx. rewrite <- H by done. by apply Hs. Qed.

Lemma shows_new (bs base : Z) (n : nat) : 0 < bs -> shows bs base (replicate n false) (fun _ => false).
Proof.
  intros Hbs x Hx. rewrite length_replicate in Hx. apply lookup_replicate_2. assert (0 <= (x - base) / bs < Z.of_nat n); [|lia].
  split; [apply Z.div_pos; lia|apply Z.div_lt_upper_bound; lia].
Qed.

(** A block: [x] in bytes is between its number of blocks and the next. *)
Lemma block_bounds (bs base x q : Z) : 0 < bs -> ((x - base) / bs = q <-> base + q * bs <= x < base + (q + 1) * bs).
Proof.
  intros Hbs. split.
  - intros <-. pose proof (Z.div_mod (x - base) bs). pose proof (Z.mod_pos_bound (x - base) bs). nia.
  - intros H. symmetry. apply (Z.div_unique_pos _ _ _ (x - base - q * bs)); lia.
Qed.

Lemma fill_shows (b : bool) (bs base : Z) (map : list bool) (f : Z -> bool) (q k : Z) :
  0 < bs -> 0 <= q -> 0 <= k -> q + k <= Z.of_nat (length map) -> shows bs base map f ->
  exists map', bitmap_fill b q k map = Some map' /\ length map' = length map /\
    shows bs base map' (fun x => if (base + q * bs <=? x) && (x <? base + (q + k) * bs) then b else f x).
Proof.
  intros Hbs Hq Hk Hin Hs. unfold bitmap_fill. destruct (k =? 0) eqn:E0; zify_bool.
  { subst k. exists map. split_and!; [done|done|]. intros x Hx. rewrite (Hs x Hx). case_goal; zify_bool; [lia|done]. }
  assert (in_bits q k map = true) as -> by (unfold in_bits; zify_bool; lia).
  eexists. split; [reflexivity|]. assert (length (take (Z.to_nat q) map ++ replicate (Z.to_nat k) b ++ drop (Z.to_nat (q + k)) map) = length map) as Hlen.
  { rewrite !length_app, length_take, length_replicate, length_drop. lia. }
  split; [done|]. intros x Hx. rewrite Hlen in Hx. pose proof (Hs x Hx) as Hfx. set (j := (x - base) / bs) in *.
  assert (base + j * bs <= x < base + (j + 1) * bs) as Hj by (by apply block_bounds).
  assert (0 <= j) as Hj0 by (apply Z.div_pos; lia).
  destruct (decide (j < q)); [|destruct (decide (j < q + k))].
  - rewrite lookup_app_l by (rewrite length_take; nia). rewrite lookup_take_lt by lia. rewrite Hfx. case_goal; zify_bool; [nia|done].
  - rewrite lookup_app_r by (rewrite length_take; lia). rewrite lookup_app_l by (rewrite length_take, length_replicate; lia).
    rewrite lookup_replicate_2 by (rewrite length_take; lia). case_goal; zify_bool; [done|nia].
  - rewrite lookup_app_r by (rewrite length_take; lia). rewrite lookup_app_r by (rewrite length_take, length_replicate; lia).
    rewrite length_take, length_replicate, lookup_drop. replace (_ + _)%nat with (Z.to_nat j) by lia.
    rewrite Hfx. case_goal; zify_bool; [nia|done].
Qed.

Lemma find_next_spec (b : bool) (map : list bool) (size off : Z) : 0 <= off <= size -> size <= Z.of_nat (length map) ->
  exists res, find_next b map size off = Some res /\ off <= res <= size /\
    (res < size -> map !! Z.to_nat res = Some b) /\ (forall j, off <= j < res -> map !! Z.to_nat j <> Some b).
Proof.
  intros H1 H2. unfold find_next. destruct (size <=? off) eqn:E; zify_bool.
  { exists size. split_and!; [done|lia|lia|intros; lia|intros; lia]. }
  assert (in_bits off (size - off) map = true) as -> by (unfold in_bits; zify_bool; lia).
  eexists. split; [reflexivity|]. destruct (list_find _ _) as [[i b']|] eqn:F.
  - apply list_find_Some in F as (Hi&->&Hno). pose proof (lookup_lt_Some _ _ _ Hi) as Hlt. rewrite length_take, length_drop in Hlt.
    rewrite lookup_take_lt, lookup_drop in Hi by lia. split_and!; [lia|lia| |].
    + intros _. rewrite <- Hi. f_equal. lia.
    + intros j Hj Hb. apply (Hno (Z.to_nat (j - off)) b'); [|lia|done]. rewrite lookup_take_lt, lookup_drop by lia. rewrite <- Hb. f_equal. lia.
  - apply list_find_None in F. split_and!; [lia|lia|intros; lia|]. intros j Hj Hb.
    rewrite Forall_lookup in F. apply (F (Z.to_nat (j - off)) b); [|done]. rewrite lookup_take_lt, lookup_drop by lia. rewrite <- Hb. f_equal. lia.
Qed.

(** The two tests of blocks [q] to [q + k]. *)
Lemma any_shows (bs base : Z) (map : list bool) (f : Z -> bool) (q k : Z) :
  0 < bs -> 0 <= q -> 0 <= k -> q + k <= Z.of_nat (length map) -> shows bs base map f ->
  exists any, test_any_bits_set map q k = Some any /\ (any = false <-> forall x, base + q * bs <= x < base + (q + k) * bs -> f x = false).
Proof.
  intros Hbs Hq Hk Hin Hs. unfold test_any_bits_set. destruct (find_next_spec true map (k + q) q) as (res&->&Hres&Hat&Hno); [lia|lia|].
  cbn [mbind option_bind]. eexists. split; [reflexivity|]. split.
  - intros H x Hx. zify_bool. set (j := (x - base) / bs). assert (base + j * bs <= x < base + (j + 1) * bs) as Hj by (by apply block_bounds).
    pose proof (Hs x ltac:(nia)) as Hfx. fold j in Hfx. specialize (Hno j ltac:(nia)). destruct (f x); congruence.
  - intros H. zify_bool. destruct (decide (res < k + q)); [|lia]. specialize (Hat ltac:(lia)).
    assert ((base + res * bs - base) / bs = res) as Hd by (apply block_bounds; nia). pose proof (Hs (base + res * bs) ltac:(nia)) as Hfx.
    rewrite Hd, Hat in Hfx. rewrite (H (base + res * bs) ltac:(nia)) in Hfx. done.
Qed.

Lemma all_shows (bs base : Z) (map : list bool) (f : Z -> bool) (q k : Z) :
  0 < bs -> 0 <= q -> 0 <= k -> q + k <= Z.of_nat (length map) -> shows bs base map f ->
  exists res, find_next false map (q + k) q = Some res /\ (res = q + k <-> forall x, base + q * bs <= x < base + (q + k) * bs -> f x = true).
Proof.
  intros Hbs Hq Hk Hin Hs. destruct (find_next_spec false map (q + k) q) as (res&->&Hres&Hat&Hno); [lia|lia|].
  eexists. split; [reflexivity|]. split.
  - intros -> x Hx. set (j := (x - base) / bs). assert (base + j * bs <= x < base + (j + 1) * bs) as Hj by (by apply block_bounds).
    pose proof (Hs x ltac:(nia)) as Hfx. fold j in Hfx. specialize (Hno j ltac:(nia)). destruct (f x); congruence.
  - intros H. destruct (decide (res < q + k)); [|lia]. specialize (Hat ltac:(lia)).
    assert ((base + res * bs - base) / bs = res) as Hd by (apply block_bounds; nia). pose proof (Hs (base + res * bs) ltac:(nia)) as Hfx.
    rewrite Hd, Hat in Hfx. rewrite (H (base + res * bs) ltac:(nia)) in Hfx. done.
Qed.

(** ** The regions of a device *)

(** [la_n] regions of [la_len] bytes in blocks of [la_block], one after the other from [la_base]. *)
Record layout := mkLayout { la_base : Z; la_n : Z; la_len : Z; la_block : Z }.

Record layout_ok (la : layout) : Prop := {
  lo_base : 0 <= la_base la;
  lo_n : 0 < la_n la;
  lo_block : 0 < la_block la;
  lo_len : exists k, 0 < k /\ la_len la = k * la_block la;
  lo_top : la_base la + la_n la * la_len la + la_block la <= 2 ^ 64
}.

Record has_layout (la : layout) (d : dynamic_capacity) : Prop := {
  hl_count : Z.of_nat (length (dc_regions d)) = la_n la;
  hl_total : dc_total_capacity d = la_n la * la_len la;
  hl_region : forall i r, dc_regions d !! i = Some r ->
    dr_base r = la_base la + Z.of_nat i * la_len la /\ dr_len r = la_len la /\ dr_block_size r = la_block la /\ Z.of_nat (length (dr_blk_bitmap r)) * la_block la = la_len la
}.

(** An extent of whole blocks inside of one region. *)
Definition extent_fits (la : layout) (e : CXLDCExtent) : Prop :=
  exists i, 0 <= i < la_n la /\ la_base la + i * la_len la <= ex_start_dpa e < la_base la + (i + 1) * la_len la /\
    0 <= ex_len e /\ ex_start_dpa e + ex_len e <= la_base la + (i + 1) * la_len la /\
    (ex_start_dpa e - la_base la) mod la_block la = 0 /\ ex_len e mod la_block la = 0.

Section Layout.
Context (la : layout) (Hla : layout_ok la).

Lemma layout_len : 0 < la_len la.
Proof. destruct Hla as [? ? ? (k&?&?) ?]. nia. Qed.

Lemma region0 (d : dynamic_capacity) : has_layout la d -> region0_base d = la_base la.
Proof.
  intros Hd. pose proof (hl_count la d Hd). pose proof (lo_n la Hla). unfold region0_base. destruct (dc_regions d) as [|r rs] eqn:E; [cbn in *; lia|].
  destruct (hl_region la d Hd 0%nat r) as (H1&_); [by rewrite E|]. lia.
Qed.

Lemma region_lookup (d : dynamic_capacity) (i : Z) : has_layout la d -> 0 <= i < la_n la -> exists r, dc_regions d !! Z.to_nat i = Some r.
Proof. intros Hd Hi. apply lookup_lt_is_Some. pose proof (hl_count la d Hd). lia. Qed.

Lemma region_top (i : Z) : 0 <= i < la_n la -> la_base la + (i + 1) * la_len la + la_block la <= 2 ^ 64.
Proof. intros Hi. pose proof layout_len. pose proof (lo_top la Hla). pose proof (lo_block la Hla). nia. Qed.

(** The scan from the last region stops at the region of the address. *)
Lemma find_region_below_spec (d : dynamic_capacity) (i : Z) (n : nat) (dpa len : Z) :
  has_layout la d -> 0 <= i < Z.of_nat n -> Z.of_nat n <= la_n la -> la_base la + i * la_len la <= dpa < la_base la + (i + 1) * la_len la ->
  exists r, dc_regions d !! Z.to_nat i = Some r /\
    find_region_below (dc_regions d) n dpa len = if la_base la + (i + 1) * la_len la <? dpa ⊞ len then None else Some (Z.to_nat i, r).
Proof.
  intros Hd Hi Hn Hx. pose proof layout_len. induction n as [|n IH]; [lia|]. cbn [find_region_below].
  destruct (region_lookup d (Z.of_nat n) Hd) as (r&Hr); [lia|]. rewrite Nat2Z.id in Hr. rewrite Hr.
  destruct (hl_region la d Hd n r Hr) as (Hb&Hl&_). destruct (dr_base r <=? dpa) eqn:E; zify_bool.
  - assert (i = Z.of_nat n) as -> by nia. rewrite Nat2Z.id. exists r. split; [done|]. rewrite Hb, Hl, wrap64_small.
    + by replace (la_base la + Z.of_nat n * la_len la + la_len la) with (la_base la + (Z.of_nat n + 1) * la_len la) by lia.
    + pose proof (region_top (Z.of_nat n)). pose proof (lo_base la Hla). pose proof (lo_block la Hla). unfold u64. nia.
  - apply IH; [|lia]. assert (i <> Z.of_nat n) by nia. lia.
Qed.

Lemma find_region_spec (d : dynamic_capacity) (i : Z) (dpa len : Z) :
  has_layout la d -> 0 <= i < la_n la -> la_base la + i * la_len la <= dpa < la_base la + (i + 1) * la_len la ->
  exists r, dc_regions d !! Z.to_nat i = Some r /\
    cxl_find_dc_region d dpa len = if la_base la + (i + 1) * la_len la <? dpa ⊞ len then None else Some (Z.to_nat i, r).
Proof.
  intros Hd Hi Hx. unfold cxl_find_dc_region. rewrite (region0 d Hd), (hl_total la d Hd), wrap64_small.
  - assert ((dpa <? la_base la) || (la_base la + la_n la * la_len la <=? dpa) = false) as -> by (zify_bool; pose proof layout_len; nia).
    pose proof (hl_count la d Hd) as Hc. apply find_region_below_spec; [done|lia|lia|done].
  - pose proof (lo_top la Hla). pose proof (lo_base la Hla). pose proof (lo_block la Hla). pose proof layout_len. pose proof (lo_n la Hla). unfold u64. nia.
Qed.

(** What a successful search says of any range whose end does not wrap. *)
Lemma find_region_Some (d : dynamic_capacity) (dpa len : Z) (j : nat) (r : CXLDCRegion) :
  has_layout la d -> cxl_find_dc_region d dpa len = Some (j, r) ->
  dc_regions d !! j = Some r /\ Z.of_nat j < la_n la /\ la_base la + Z.of_nat j * la_len la <= dpa < la_base la + (Z.of_nat j + 1) * la_len la /\
  dpa ⊞ len <= la_base la + (Z.of_nat j + 1) * la_len la.
Proof.
  intros Hd H. pose proof layout_len. pose proof (lo_top la Hla). pose proof (lo_base la Hla). pose proof (lo_block la Hla). pose proof (lo_n la Hla).
  assert (la_base la <= dpa < la_base la + la_n la * la_len la) as Hx.
  { unfold cxl_find_dc_region in H. rewrite (region0 d Hd), (hl_total la d Hd), wrap64_small in H by (unfold u64; nia).
    destruct (_ || _) eqn:E; [done|]. zify_bool. lia. }
  set (i := (dpa - la_base la) / la_len la). assert (la_base la + i * la_len la <= dpa < la_base la + (i + 1) * la_len la) as Hi by (by apply block_bounds).
  assert (0 <= i < la_n la) by nia. destruct (find_region_spec d i dpa len Hd ltac:(lia) Hi) as (r'&Hr'&E). rewrite E in H.
  destruct (_ <? _) eqn:E2; [done|]. zify_bool. injection H as <- <-. rewrite Z2Nat.id by lia. split_and!; [done|lia|lia|lia|lia].
Qed.

(** The bitmaps of the regions are the values of [f]. *)
Definition shows_all (d : dynamic_capacity) (f : Z -> bool) : Prop :=
  forall i r, dc_regions d !! i = Some r -> shows (la_block la) (dr_base r) (dr_blk_bitmap r) f.

Lemma fits_blocks (e : CXLDCExtent) : extent_fits la e ->
  exists i q k, 0 <= i < la_n la /\ ex_start_dpa e = la_base la + i * la_len la + q * la_block la /\ ex_len e = k * la_block la /\
    0 <= q /\ 0 <= k /\ q * la_block la < la_len la /\ (q + k) * la_block la <= la_len la.
Proof.
  intros (i&Hi&H1&H2&H3&H4&H5). destruct (lo_len la Hla) as (kl&Hkl&El). pose proof (lo_block la Hla).
  apply Z.mod_divide in H4 as [m Hm]; [|lia]. apply Z.mod_divide in H5 as [k Hk]; [|lia].
  exists i, (m - i * kl), k. split_and!; nia.
Qed.

Lemma region_blocks (d : dynamic_capacity) (i : nat) (r : CXLDCRegion) : has_layout la d -> dc_regions d !! i = Some r ->
  dr_base r = la_base la + Z.of_nat i * la_len la /\ dr_len r = la_len la /\ dr_block_size r = la_block la /\ Z.of_nat (length (dr_blk_bitmap r)) * la_block la = la_len la.
Proof. intros Hd Hr. by apply (hl_region la d Hd). Qed.

(** The region of an extent that fits, and its first block in it. *)
Lemma fits_region (d : dynamic_capacity) (e : CXLDCExtent) : has_layout la d -> extent_fits la e ->
  exists i r q k, cxl_find_dc_region d (ex_start_dpa e) (ex_len e) = Some (i, r) /\ dc_regions d !! i = Some r /\
    ex_start_dpa e = dr_base r + q * la_block la /\ ex_len e = k * la_block la /\ 0 <= q /\ 0 <= k /\
    q + k <= Z.of_nat (length (dr_blk_bitmap r)) /\ dr_block_size r = la_block la /\
    (ex_start_dpa e - dr_base r) / la_block la = q /\ ex_len e / la_block la = k.
Proof.
  intros Hd He. destruct (fits_blocks e He) as (i&q&k&Hi&Hs&Hl&Hq&Hk&Hql&Hqk). pose proof (lo_block la Hla). pose proof (layout_len). pose proof (lo_base la Hla). pose proof (lo_block la Hla).
  pose proof (region_top i Hi). destruct (find_region_spec d i (ex_start_dpa e) (ex_len e) Hd Hi) as (r&Hr&E); [nia|].
  destruct (region_blocks d (Z.to_nat i) r Hd Hr) as (Hb&Hrl&Hbs&Hbits). rewrite Z2Nat.id in Hb by lia. rewrite wrap64_small in E by (unfold u64; nia).
  exists (Z.to_nat i), r, q, k. rewrite E. assert (la_base la + (i + 1) * la_len la <? ex_start_dpa e + ex_len e = false) as -> by (zify_bool; nia).
  split_and!; [done|done|lia|done|done|done|nia|done|apply block_bounds; nia|rewrite Hl; apply Z.div_mul; lia].
Qed.

(** Two regions have no address in common. *)
Lemma regions_apart (d : dynamic_capacity) (i j : nat) (r s : CXLDCRegion) (x : Z) : has_layout la d ->
  dc_regions d !! i = Some r -> dc_regions d !! j = Some s ->
  dr_base r <= x < dr_base r + Z.of_nat (length (dr_blk_bitmap r)) * la_block la -> dr_base s <= x < dr_base s + Z.of_nat (length (dr_blk_bitmap s)) * la_block la -> i = j.
Proof.
  intros Hd Hr Hs H1 H2. destruct (region_blocks d i r Hd Hr) as (B1&_&_&L1), (region_blocks d j s Hd Hs) as (B2&_&_&L2). pose proof layout_len. nia.
Qed.

Lemma fill_region_spec (b : bool) (d : dynamic_capacity) (e : CXLDCExtent) (f : Z -> bool) :
  has_layout la d -> extent_fits la e -> shows_all d f ->
  exists rs, ct3_fill_region_block b d (ex_start_dpa e) (ex_len e) = Some (set_dc_regions rs d) /\ has_layout la (set_dc_regions rs d) /\
    shows_all (set_dc_regions rs d) (fun x => if ind e x =? 1 then b else f x).
Proof.
  intros Hd He Hf. pose proof (lo_block la Hla) as Hbs. destruct (fits_region d e Hd He) as (i&r&q&k&E&Hr&Hs&Hl&Hq&Hk&Hqk&Hrb&Dq&Dk).
  unfold ct3_fill_region_block. rewrite E, Hrb, Dq, Dk. destruct (fill_shows b (la_block la) (dr_base r) (dr_blk_bitmap r) f q k) as (map&->&Hlen&Hmap); [done|done|done|done|by apply (Hf i)|].
  cbn [mbind option_bind]. eexists. split; [reflexivity|]. pose proof (lookup_lt_Some _ _ _ Hr) as Hi.
  destruct (region_blocks d i r Hd Hr) as (B1&B2&B3&B4). split.
  - split; cbn; [by rewrite length_insert, (hl_count la d Hd)|apply (hl_total la d Hd)|]. intros j s Hj.
    destruct (decide (j = i)) as [->|Hne]; [|rewrite list_lookup_insert_ne in Hj by done; by apply (hl_region la d Hd)].
    rewrite list_lookup_insert_eq in Hj by done. injection Hj as <-. cbn. rewrite Hlen. rewrite Hrb in B3. auto.
  - intros j s Hj x Hx. cbn in Hj. destruct (decide (j = i)) as [->|Hne].
    + rewrite list_lookup_insert_eq in Hj by done. injection Hj as <-. cbn in Hx |- *. rewrite (Hmap x Hx). f_equal.
      destruct (ind_cases e x) as [[Hin ->]|[Hin ->]]; cbn [Z.eqb Pos.eqb]; case_goal; zify_bool; [done|nia|nia|done].
    + rewrite list_lookup_insert_ne in Hj by done. rewrite (Hf j s Hj x Hx). f_equal. destruct (ind_cases e x) as [[Hin ->]|[_ ->]]; [|done].
      destruct Hne. apply (regions_apart d j i s r x Hd Hj Hr Hx). nia.
Qed.

(** The test of blocks, for a range of any alignment inside of a region. *)
Lemma test_region_spec (d : dynamic_capacity) (dpa len : Z) (i : Z) (f : Z -> bool) :
  has_layout la d -> shows_all d f -> 0 <= i < la_n la -> la_base la + i * la_len la <= dpa < la_base la + (i + 1) * la_len la ->
  0 <= len -> dpa + len <= la_base la + (i + 1) * la_len la ->
  let q := (dpa - la_base la) / la_block la in let k := (len + la_block la - 1) / la_block la in
  exists t, ct3_test_region_block_backed d dpa len = Some t /\
    (t = true <-> forall x, la_base la + q * la_block la <= x < la_base la + (q + k) * la_block la -> f x = true).
Proof.
  intros Hd Hf Hi Hx H0 Hend q k. pose proof (lo_block la Hla) as Hbs. pose proof layout_len. pose proof (lo_base la Hla). pose proof (lo_block la Hla). pose proof (region_top i Hi).
  destruct (lo_len la Hla) as (kl&Hkl&El). destruct (find_region_spec d i dpa len Hd Hi Hx) as (r&Hr&E). rewrite wrap64_small in E by (unfold u64; nia).
  assert (la_base la + (i + 1) * la_len la <? dpa + len = false) as Hc by (zify_bool; lia). rewrite Hc in E. unfold ct3_test_region_block_backed. rewrite E.
  destruct (region_blocks d (Z.to_nat i) r Hd Hr) as (B1&B2&B3&B4). rewrite Z2Nat.id in B1 by lia. rewrite B3, wrap64_small by (unfold u64; nia).
  assert ((dpa - dr_base r) / la_block la = q - i * kl) as Hq.
  { apply block_bounds; [done|]. assert (la_base la + q * la_block la <= dpa < la_base la + (q + 1) * la_block la) by (by apply block_bounds). nia. }
  assert (la_base la + q * la_block la <= dpa < la_base la + (q + 1) * la_block la) as Hqb by (by apply block_bounds).
  assert (k * la_block la <= len + la_block la - 1 < (k + 1) * la_block la) as Hkb.
  { unfold k. pose proof (Z.div_mod (len + la_block la - 1) (la_block la)). pose proof (Z.mod_pos_bound (len + la_block la - 1) (la_block la)). nia. }
  destruct (all_shows (la_block la) (dr_base r) (dr_blk_bitmap r) f (q - i * kl) k) as (res&R1&R2); [done|nia|nia|nia|by apply (Hf (Z.to_nat i))|].
  fold k. rewrite Hq, R1. cbn [mbind option_bind]. eexists. split; [reflexivity|]. rewrite Z.eqb_eq, R2.
  replace (dr_base r + (q - i * kl) * la_block la) with (la_base la + q * la_block la) by nia.
  by replace (dr_base r + (q - i * kl + k) * la_block la) with (la_base la + (q + k) * la_block la) by nia.
Qed.

Definition words (e : CXLDCExtent) : Prop := u64 (ex_start_dpa e) /\ u64 (ex_len e).

Definition no_wrap (e : CXLDCExtent) : Prop := ex_start_dpa e + ex_len e < 2 ^ 64.

Lemma fits_top (e : CXLDCExtent) : extent_fits la e -> 0 <= ex_start_dpa e /\ 0 <= ex_len e /\ no_wrap e.
Proof.
  intros (i&Hi&H1&H2&H3&_). pose proof (region_top i Hi). pose proof (lo_block la Hla). pose proof (lo_base la Hla). pose proof layout_len. unfold no_wrap. nia.
Qed.

Lemma range_init_pos (start len : Z) : 0 <= start -> 0 < len -> start + len < 2 ^ 64 -> range_init_nofail start len = Some (mkRange start (start + len - 1)).
Proof. intros. unfold range_init_nofail. rewrite (wrap64_small (start + len - 1)) by (unfold u64; lia). by assert (start <=? start + len - 1 = true) as -> by (zify_bool; lia). Qed.

(** A range of no bytes is the empty one, or at 0 the full one. *)
Lemma range_init_zero (start : Z) : 0 <= start < 2 ^ 64 ->
  range_init_nofail start 0 = Some (if start =? 0 then mkRange 0 (2 ^ 64 - 1) else mkRange start (start - 1)).
Proof.
  intros H. unfold range_init_nofail. rewrite Z.add_0_r. destruct (start =? 0) eqn:E; zify_bool; [subst; reflexivity|].
  rewrite (wrap64_small (start - 1)) by (unfold u64; lia). replace (start - 1 + 1) with start by lia. rewrite (wrap64_small start) by (unfold u64; lia).
  by rewrite Z.eqb_refl, orb_true_r.
Qed.

Definition positive (e : CXLDCExtent) : Prop := extent_fits la e /\ 0 < ex_len e.

Lemma positive_range (e : CXLDCExtent) : positive e -> range_init_nofail (ex_start_dpa e) (ex_len e) = Some (mkRange (ex_start_dpa e) (ex_start_dpa e + ex_len e - 1)).
Proof. intros [Hf Hp]. destruct (fits_top e Hf) as (?&?&?). by apply range_init_pos. Qed.

Lemma overlap_spec (e : CXLDCExtent) (l : list CXLDCExtent) : 0 < ex_len e -> Forall positive l ->
  exists o, extents_overlap (mkRange (ex_start_dpa e) (ex_start_dpa e + ex_len e - 1)) l = Some o /\ (o = false <-> forall x, ind e x = 1 -> cnt l x = 0).
Proof.
  intros He Hl. induction Hl as [|e' l He' Hl IH]; [by exists false|]. cbn [extents_overlap]. rewrite (positive_range e' He'). cbn [mbind option_bind].
  destruct He' as [_ Hp']. unfold range_overlaps_range, range_is_empty. cbn [ra_lob ra_upb].
  rewrite (proj2 (Z.ltb_ge _ _)), (proj2 (Z.ltb_ge _ _)) by lia. cbn [orb]. destruct (negb _) eqn:E; zify_bool.
  - exists true. split; [done|]. split; [done|]. intros H.
    set (x := Z.max (ex_start_dpa e) (ex_start_dpa e')). assert (ind e x = 1) as Hx by (apply ind_iff; lia). specialize (H x Hx). rewrite cnt_cons in H.
    assert (ind e' x = 1) by (apply ind_iff; lia). pose proof (cnt_nonneg l x). lia.
  - destruct IH as (o&->&Ho). exists o. split; [done|]. rewrite Ho. split; intros H x Hx; specialize (H x Hx); rewrite ?cnt_cons in *; pose proof (cnt_nonneg l x);
      destruct (ind_cases e' x) as [[Hi Hi1]|[_ Hi1]]; try lia; apply ind_iff in Hx; lia.
Qed.

(** An extent of at least one byte; its end may wrap. *)
Definition some_bytes (e : CXLDCExtent) : Prop := 0 <= ex_start_dpa e < 2 ^ 64 /\ 0 < ex_len e < 2 ^ 64.

Lemma overlaps_spec (e : CXLDCExtent) (l : list CXLDCExtent) : some_bytes e -> no_wrap e -> Forall positive l ->
  exists o, cxl_extents_overlaps_dpa_range l (ex_start_dpa e) (ex_len e) = Some o /\ (o = false <-> forall x, ind e x = 1 -> cnt l x = 0).
Proof. intros He Hn Hl. unfold cxl_extents_overlaps_dpa_range. rewrite range_init_pos by (apply He || apply Hn). apply overlap_spec; [apply He|done]. Qed.

Lemma groups_spec (e : CXLDCExtent) (gs : list (list CXLDCExtent)) : some_bytes e -> no_wrap e -> Forall positive (concat gs) ->
  exists o, cxl_extent_groups_overlaps_dpa_range gs (ex_start_dpa e) (ex_len e) = Some o /\ (o = false <-> forall x, ind e x = 1 -> cnt (concat gs) x = 0).
Proof.
  intros He Hn Hgs. induction gs as [|g gs IH]; [by exists false|]. cbn [concat] in Hgs. apply Forall_app in Hgs as [Hg Hgs]. cbn [cxl_extent_groups_overlaps_dpa_range concat].
  destruct (overlaps_spec e g He Hn Hg) as (o&->&Ho). cbn [mbind option_bind]. destruct o.
  - exists true. split; [done|]. split; [done|]. intros H. apply Ho. intros x Hx. specialize (H x Hx). rewrite cnt_app in H. pose proof (cnt_nonneg g x). pose proof (cnt_nonneg (concat gs) x). lia.
  - destruct (IH Hgs) as (o&->&Ho'). exists o. split; [done|]. rewrite Ho'. assert (forall x, ind e x = 1 -> cnt g x = 0) as Hg0 by (by apply Ho).
    split; intros H x Hx; specialize (H x Hx); specialize (Hg0 x Hx); rewrite ?cnt_app in *; lia.
Qed.

(** An extent that an offer contains. *)
Definition within (e e' : CXLDCExtent) : Prop := ex_start_dpa e' <= ex_start_dpa e /\ ex_start_dpa e + ex_len e <= ex_start_dpa e' + ex_len e'.

Lemma contains_spec (e : CXLDCExtent) (l : list CXLDCExtent) : extent_fits la e -> Forall positive l ->
  exists c, cxl_extents_contains_dpa_range l (ex_start_dpa e) (ex_len e) = Some c /\ (c = true <-> 0 < ex_len e /\ Exists (within e) l).
Proof.
  intros He Hl. destruct (fits_top e He) as (H0&H1&H2). unfold no_wrap in H2. unfold cxl_extents_contains_dpa_range. destruct (decide (ex_len e = 0)) as [Hz|Hz].
  - rewrite Hz, range_init_zero by lia. cbn [mbind option_bind]. exists false. split; [|split; [done|lia]].
    induction Hl as [|e' l He' Hl IH]; [done|]. cbn [extents_contain]. rewrite (positive_range e' He'). cbn [mbind option_bind]. rewrite IH.
    destruct He' as [Hf' Hp']. destruct (fits_top e' Hf') as (?&?&Hn'). unfold no_wrap in Hn'. unfold range_contains_range, range_is_empty.
    destruct (ex_start_dpa e =? 0) eqn:E; zify_bool; cbn [ra_lob ra_upb]; case_goal; try done; case_in E0; try done; lia.
  - rewrite range_init_pos by lia. cbn [mbind option_bind]. induction Hl as [|e' l He' Hl IH].
    { exists false. split; [done|]. split; [done|]. intros [_ H]. by apply Exists_nil in H. }
    cbn [extents_contain]. rewrite (positive_range e' He'). cbn [mbind option_bind]. destruct He' as [_ Hp'].
    unfold range_contains_range, range_is_empty. cbn [ra_lob ra_upb]. rewrite (proj2 (Z.ltb_ge _ _)), (proj2 (Z.ltb_ge _ _)) by lia. cbn [orb].
    destruct (_ && _) eqn:E; zify_bool.
    + exists true. split; [done|]. split; [|done]. intros _. split; [lia|]. left. unfold within. lia.
    + destruct IH as (c&->&Hc). exists c. split; [done|]. rewrite Hc, Exists_cons. split; [intros [? ?]; auto|]. intros [? [Hw|?]]; [|done]. unfold within in Hw. lia.
Qed.

(** ** The check of a list *)
Definition well_formed (l : list CXLDCExtent) : Prop := Forall (extent_fits la) l /\ forall x, cnt l x <= 1.

Lemma min_block (d : dynamic_capacity) : has_layout la d -> min_block_size (dc_regions d) = la_block la.
Proof.
  intros Hd. pose proof (lo_n la Hla). pose proof (hl_count la d Hd) as Hc. pose proof (lo_top la Hla). pose proof (lo_base la Hla). pose proof layout_len.
  assert (Forall (fun r => dr_block_size r = la_block la) (dc_regions d)) as Hall.
  { apply Forall_lookup. intros i r Hr. by apply (hl_region la d Hd i r). }
  unfold min_block_size. assert (la_block la <= 2 ^ 64 - 1) as Hmax by (pose proof (Z.mul_pos_pos (la_n la) (la_len la)); lia). assert (dc_regions d <> []) as Hne by (intros E; rewrite E in Hc; cbn in Hc; lia).
  revert Hmax Hall Hne. generalize (2 ^ 64 - 1). clear Hc. induction (dc_regions d) as [|r rs IH]; intros m Hm Hall Hne; [done|].
  apply Forall_cons in Hall as [Hr Hall]. cbn [foldl]. rewrite Hr. rewrite Z.min_r by lia. destruct rs as [|r' rs]; [done|]. by apply IH.
Qed.

(** The bits of an extent in the bitmap of all regions. *)
Lemma fits_place (e : CXLDCExtent) : extent_fits la e ->
  exists q k, ex_start_dpa e = la_base la + q * la_block la /\ ex_len e = k * la_block la /\ 0 <= q /\ 0 <= k /\ (q + k) * la_block la <= la_n la * la_len la.
Proof.
  intros He. destruct (fits_blocks e He) as (i&q&k&Hi&Hs&Hl&Hq&Hk&_&Hqk). destruct (lo_len la Hla) as (kl&?&El). pose proof (lo_block la Hla).
  exists (i * kl + q), k. split_and!; nia.
Qed.

Lemma cnt_snoc (l : list CXLDCExtent) (e : CXLDCExtent) (x : Z) : cnt (l ++ [e]) x = cnt l x + ind e x.
Proof. rewrite cnt_app, cnt_cons. change (cnt [] x) with 0. lia. Qed.

(** One extent of a list is looked up in, and added to, the bitmap of those before it. *)
Lemma scratch_add (bs base : Z) (map : list bool) (done : list CXLDCExtent) (e : CXLDCExtent) (q k : Z) :
  0 < bs -> shows bs base map (fun x => 0 <? cnt done x) -> (forall x, cnt done x <= 1) -> ex_start_dpa e = base + q * bs -> ex_len e = k * bs ->
  0 <= q -> 0 <= k -> q + k <= Z.of_nat (length map) ->
  exists any, test_any_bits_set map q k = Some any /\ (any = false <-> forall x, cnt done x + ind e x <= 1) /\
    (any = false -> exists map', bitmap_fill true q k map = Some map' /\ length map' = length map /\ shows bs base map' (fun x => 0 <? cnt (done ++ [e]) x)).
Proof.
  intros Hb Hs Hone He Hl Hq Hk Hin. destruct (any_shows bs base map _ q k Hb Hq Hk Hin Hs) as (any&->&Hany). exists any. split; [done|]. split.
  - rewrite Hany. split; intros H x.
    + specialize (Hone x). destruct (ind_cases e x) as [[Hi ->]|[_ ->]]; [|lia]. specialize (H x ltac:(nia)). zify_bool. lia.
    + intros Hx. specialize (H x). assert (ind e x = 1) by (apply ind_iff; nia). apply Z.ltb_ge. lia.
  - intros _. destruct (fill_shows true bs base map _ q k Hb Hq Hk Hin Hs) as (map'&->&Hlen&Hs'). exists map'. split_and!; [done|done|].
    refine (shows_ext _ _ _ _ _ _ Hs'). intros x _. cbv beta. rewrite cnt_snoc. pose proof (cnt_nonneg done x).
    destruct (ind_cases e x) as [[Hi ->]|[Hi ->]]; case_goal; first [done | symmetry; apply Z.ltb_lt; lia | nia | by rewrite Z.add_0_r].
Qed.

(** An extent whose end wraps has its bits far behind the bitmap. *)
Lemma test_any_wraps (e : CXLDCExtent) (map : list bool) (q k : Z) :
  Z.of_nat (length map) * la_block la = la_n la * la_len la -> words e -> ex_start_dpa e = la_base la + q * la_block la -> ex_len e = k * la_block la -> ~ no_wrap e ->
  test_any_bits_set map q k = None.
Proof.
  intros Hlen [Hu1 Hu2] Hq Hk Hnw. pose proof (lo_block la Hla). pose proof (lo_top la Hla). unfold u64, no_wrap in *.
  unfold test_any_bits_set, find_next. assert (k + q <=? q = false) as -> by (apply Z.leb_gt; nia). assert (in_bits q (k + q - q) map = false) as ->; [|done].
  unfold in_bits. apply andb_false_iff. right. apply Z.leb_gt. nia.
Qed.

Lemma malformed_loop_spec (d : dynamic_capacity) (l done : list CXLDCExtent) (map : list bool) :
  has_layout la d -> Forall words l -> Z.of_nat (length map) * la_block la = la_n la * la_len la ->
  shows (la_block la) (la_base la) map (fun x => 0 <? cnt done x) -> (forall x, cnt done x <= 1) ->
  (malformed_loop d (la_base la) (la_block la) map l = Some CXL_MBOX_SUCCESS <-> Forall (extent_fits la) l /\ forall x, cnt done x + cnt l x <= 1) /\
  (Forall no_wrap l -> is_Some (malformed_loop d (la_base la) (la_block la) map l)).
Proof.
  intros Hd Hw. revert done map. induction Hw as [|e l He Hw IH]; intros done map Hlen Hs Hone.
  { cbn. split; [|eauto]. split; [|done]. intros _. split; [constructor|]. intros x. specialize (Hone x). change (cnt [] x) with 0. lia. }
  cbn [malformed_loop]. destruct He as [Hu1 Hu2]. unfold u64 in Hu1, Hu2. pose proof (lo_block la Hla) as Hb. pose proof (lo_base la Hla). pose proof layout_len as HL. pose proof (lo_top la Hla) as Htop.
  destruct (cxl_find_dc_region d (ex_start_dpa e) (ex_len e)) as [[j r]|] eqn:E.
  2:{ split; [|eauto]. split; [done|]. intros [Hf _]. apply Forall_cons in Hf as [Hf _]. destruct (fits_region d e Hd Hf) as (?&?&?&?&E'&_). congruence. }
  destruct (find_region_Some d _ _ j r Hd E) as (Hr&Hj&Hx&Hend). destruct (region_blocks d j r Hd Hr) as (_&_&Hbs&_). rewrite Hbs.
  rewrite (wrap64_small (ex_start_dpa e - la_base la)) by (unfold u64; nia).
  destruct (_ || _) eqn:Eal.
  { split; [|eauto]. split; [done|]. intros [Hf _]. apply Forall_cons in Hf as [Hf _]. destruct Hf as (i&_&_&_&_&M1&M2). rewrite M1, M2 in Eal. done. }
  apply orb_false_iff in Eal as [M1 M2]. apply negb_false_iff in M1, M2. zify_bool.
  assert (exists q, ex_start_dpa e = la_base la + q * la_block la) as [q Hq].
  { apply Z.mod_divide in M1 as [q Hq]; [|lia]. exists q. lia. }
  assert (exists k, ex_len e = k * la_block la) as [k Hk] by (apply Z.mod_divide in M2 as [k Hk]; [eauto|lia]).
  assert ((ex_start_dpa e - la_base la) / la_block la = q) as -> by (apply block_bounds; nia).
  assert (ex_len e / la_block la = k) as -> by (rewrite Hk; apply Z.div_mul; lia).
  destruct (decide (no_wrap e)) as [Hnw|Hnw].
  2:{ rewrite (test_any_wraps e map q k Hlen (conj Hu1 Hu2) Hq Hk Hnw).
      cbn. split; [split; [done|]|]; intros Hf; [destruct Hf as [Hf _]; apply Forall_cons in Hf as [Hf _]; by destruct (fits_top e Hf) as (?&?&?)|by apply Forall_cons in Hf as [? _]]. }
  assert (extent_fits la e) as Hfit.
  { exists (Z.of_nat j). unfold no_wrap in Hnw. rewrite wrap64_small in Hend by (unfold u64; lia). split_and!; lia. }
  assert (q + k <= Z.of_nat (length map)) by (destruct (fits_place e Hfit) as (q'&k'&?&?&?&?&?); nia).
  destruct (scratch_add (la_block la) (la_base la) map done e q k) as (any&->&Hany&Hfill); [done|done|done|done|done|nia|nia|done|]. cbn [mbind option_bind].
  destruct any.
  { split; [|eauto]. split; [done|]. intros [_ Hc]. assert (true = false); [|done]. apply Hany. intros x. specialize (Hc x). rewrite cnt_cons in Hc. pose proof (cnt_nonneg l x). lia. }
  assert (forall x, cnt done x + ind e x <= 1) as Hone' by (by apply Hany). destruct (Hfill eq_refl) as (map'&->&Hlen'&Hs'). cbn [mbind option_bind].
  destruct (IH (done ++ [e]) map') as [IH1 IH2]; [by rewrite Hlen'|done|intros x; by rewrite cnt_snoc|].
  split; [|intros Hn; apply Forall_cons in Hn as [_ Hn]; by apply IH2]. rewrite IH1, Forall_cons.
  split; [intros [Hf Hc]; split; [done|]|intros [[_ Hf] Hc]; split; [done|]]; intros x; specialize (Hc x); rewrite ?cnt_snoc, ?cnt_cons in *; lia.
Qed.

(** The bitmap of the check has one bit for each block of the device. *)
Lemma detect_loop (d : dynamic_capacity) (l : list CXLDCExtent) : has_layout la d ->
  exists n, Z.of_nat n * la_block la = la_n la * la_len la /\ cxl_detect_malformed_extent_list d l = malformed_loop d (la_base la) (la_block la) (replicate n false) l.
Proof.
  intros Hd. pose proof (lo_n la Hla). pose proof (lo_block la Hla). pose proof (lo_base la Hla). pose proof layout_len. pose proof (lo_top la Hla).
  unfold cxl_detect_malformed_extent_list. rewrite (min_block d Hd), (region0 d Hd). pose proof (hl_count la d Hd) as Hc.
  destruct (region_lookup d (la_n la - 1) Hd) as (r&Hr); [lia|]. rewrite last_lookup. replace (pred (length (dc_regions d))) with (Z.to_nat (la_n la - 1)) by lia.
  rewrite Hr. cbn [mbind option_bind]. destruct (region_blocks d _ r Hd Hr) as (Hb&Hlr&_). rewrite Z2Nat.id in Hb by lia. destruct (lo_len la Hla) as (kl&Hkl&El).
  assert (((dr_base r ⊞ dr_len r) ⊟ la_base la) / la_block la = la_n la * kl) as ->.
  { rewrite (wrap64_small (dr_base r + dr_len r)) by (unfold u64; nia). rewrite wrap64_small by (unfold u64; nia).
    rewrite Hb, Hlr, El. replace (_ - la_base la) with (la_n la * kl * la_block la) by lia. apply Z.div_mul. lia. }
  eexists. split; [|reflexivity]. nia.
Qed.

Lemma malformed_spec (d : dynamic_capacity) (l : list CXLDCExtent) : has_layout la d -> Forall words l ->
  (cxl_detect_malformed_extent_list d l = Some CXL_MBOX_SUCCESS <-> well_formed l) /\
  (Forall no_wrap l -> is_Some (cxl_detect_malformed_extent_list d l)).
Proof.
  intros Hd Hl. destruct (detect_loop d l Hd) as (n&Hn&->).
  apply (malformed_loop_spec d l [] _ Hd Hl); [by rewrite length_replicate|apply shows_new, (lo_block la Hla)|done].
Qed.

Lemma malformed_wraps (d : dynamic_capacity) (e : CXLDCExtent) (i q k : Z) : has_layout la d -> words e -> ~ no_wrap e -> 0 <= i < la_n la ->
  la_base la + i * la_len la <= ex_start_dpa e < la_base la + (i + 1) * la_len la -> ex_start_dpa e ⊞ ex_len e <= la_base la + (i + 1) * la_len la ->
  ex_start_dpa e = la_base la + q * la_block la -> ex_len e = k * la_block la -> cxl_detect_malformed_extent_list d [e] = None.
Proof.
  intros Hd Hw Hnw Hi Hs Hend Hq Hk. pose proof (lo_block la Hla). pose proof (lo_base la Hla). pose proof layout_len. destruct (detect_loop d [e] Hd) as (n&Hn&->). cbn [malformed_loop].
  destruct (find_region_spec d i (ex_start_dpa e) (ex_len e) Hd Hi Hs) as (r&Hr&->). rewrite (proj2 (Z.ltb_ge _ _)) by done.
  destruct (region_blocks d _ r Hd Hr) as (_&_&->&_). pose proof Hw as [Hu1 Hu2]. unfold u64 in Hu1, Hu2. rewrite (wrap64_small (ex_start_dpa e - la_base la)) by (unfold u64; nia).
  assert (ex_start_dpa e - la_base la = q * la_block la) as -> by lia. rewrite Hk, !Z.mod_mul, !Z.div_mul by lia. cbn [Z.eqb negb orb].
  rewrite (test_any_wraps e); [done|by rewrite length_replicate|done|done|done|done].
Qed.

(** ** Taking a range out of the list *)
Definition on_block (x : Z) : Prop := (x - la_base la) mod la_block la = 0.

Lemma positive_blocks (e : CXLDCExtent) : positive e -> on_block (ex_start_dpa e) /\ on_block (ex_start_dpa e + ex_len e).
Proof.
  intros [(i&_&_&_&_&H1&H2) _]. split; [done|]. unfold on_block. replace (_ - _) with (ex_start_dpa e - la_base la + ex_len e) by lia.
  pose proof (lo_block la Hla). rewrite Z.add_mod, H1, H2 by lia. by rewrite Z.mod_0_l by lia.
Qed.

Lemma positive_part (e : CXLDCExtent) (a b : Z) : positive e -> ex_start_dpa e <= a < b -> b <= ex_start_dpa e + ex_len e -> on_block a -> on_block b -> positive (mkExtent a (b - a)).
Proof.
  intros [(i&Hi&H1&H2&H3&_) _] Ha Hb Ba Bb. split; [|cbn; lia]. exists i. cbn. split_and!; try lia; [exact Ba|].
  pose proof (lo_block la Hla). replace (b - a) with (b - la_base la - (a - la_base la)) by lia. unfold on_block in *. rewrite Zminus_mod, Ba, Bb. by rewrite Z.mod_0_l by lia.
Qed.

Lemma opt_extent_positive (a b : Z) (e : CXLDCExtent) : positive e -> ex_start_dpa e <= a <= b -> b <= ex_start_dpa e + ex_len e -> on_block a -> on_block b -> Forall positive (opt_extent a (b - a)).
Proof. intros He Ha Hb Ba Bb. unfold opt_extent. case_goal; constructor; [|constructor]. apply (positive_part e); try done; lia. Qed.

Lemma opt_extent_cnt (a n x : Z) : 0 <= n -> cnt (opt_extent a n) x = ind (mkExtent a n) x.
Proof. intros Hn. unfold opt_extent. case_goal; [subst n|rewrite cnt_cons; change (cnt [] x) with 0; lia]. destruct (ind_cases (mkExtent a 0) x) as [[H _]|[_ ->]]; [cbn in H; lia|done]. Qed.

Lemma find_extent_spec (l : list CXLDCExtent) (dpa : Z) : Forall positive l ->
  exists res, find_extent l dpa = Some res /\ match res with Some (i, e) => l !! i = Some e /\ ind e dpa = 1 | None => cnt l dpa = 0 end.
Proof.
  intros Hl. induction Hl as [|e l He Hl IH]; [by exists None|]. cbn [find_extent]. rewrite (positive_range e He). cbn [mbind option_bind].
  unfold range_contains. cbn [ra_lob ra_upb]. destruct (_ && _) eqn:E; zify_bool.
  - eexists. split; [reflexivity|]. split; [done|]. apply ind_iff. lia.
  - destruct IH as (res&->&Hres). cbn [mbind option_bind]. eexists. split; [reflexivity|]. destruct res as [[i e']|]; [done|].
    rewrite cnt_cons, Hres. destruct (ind_cases e dpa) as [[Hi _]|[_ ->]]; [|done]. apply andb_false_iff in E. lia.
Qed.

(** The extents that end after [dpa]. *)
Definition ends (l : list CXLDCExtent) (dpa : Z) : Z := tally (fun e => if dpa <? ex_start_dpa e + ex_len e then 1 else 0) l.

Lemma ends_mono (l : list CXLDCExtent) (a b : Z) : a <= b -> 0 <= ends l b <= ends l a.
Proof. intros Hab. unfold ends, tally. induction l as [|e l IH]; cbn; [lia|]. case_goal; lia. Qed.

Lemma ends_length (l : list CXLDCExtent) (a : Z) : ends l a <= Z.of_nat (length l).
Proof. unfold ends, tally. induction l as [|e l IH]; cbn -[Z.of_nat]; [lia|]. case_goal; lia. Qed.

Lemma ends_opt (a n dpa : Z) : a + n <= dpa -> ends (opt_extent a n) dpa = 0.
Proof. intros H. unfold opt_extent. case_goal; [done|]. unfold ends, tally. cbn. case_goal; lia. Qed.

Lemma opt_length (a n : Z) : Z.of_nat (length (opt_extent a n)) = if n =? 0 then 0 else 1.
Proof. unfold opt_extent. by case_goal. Qed.

(** What is left of the list when [a, b) of the extent at [i] is taken away. *)
Lemma take_part (l : list CXLDCExtent) (i : nat) (e : CXLDCExtent) (a b : Z) :
  Forall positive l -> l !! i = Some e -> ex_start_dpa e <= a <= b -> b <= ex_start_dpa e + ex_len e -> on_block a -> on_block b ->
  let l' := delete i l ++ opt_extent (ex_start_dpa e) (a - ex_start_dpa e) ++ opt_extent b (ex_start_dpa e + ex_len e - b) in
  Forall positive l' /\ (forall x, cnt l' x = cnt l x - ind (mkExtent a (b - a)) x) /\
  Z.of_nat (length l') = Z.of_nat (length l) - 1 + (if a - ex_start_dpa e =? 0 then 0 else 1) + (if ex_start_dpa e + ex_len e - b =? 0 then 0 else 1).
Proof.
  intros Hl Hi Ha Hb Ba Bb l'. pose proof (Forall_lookup_1 _ _ _ _ Hl Hi) as He. destruct (positive_blocks e He) as [B1 B2]. split_and!.
  - apply Forall_app. split; [by apply Forall_delete|]. apply Forall_app. split; apply (opt_extent_positive _ _ e); try done; lia.
  - intros x. unfold l'. rewrite !cnt_app, !opt_extent_cnt by lia. rewrite (cnt_delete l i e x Hi).
    destruct (ind_cases e x) as [[? ->]|[? ->]], (ind_cases (mkExtent a (b - a)) x) as [[? ->]|[? ->]], (ind_cases (mkExtent (ex_start_dpa e) (a - ex_start_dpa e)) x) as [[? ->]|[? ->]],
      (ind_cases (mkExtent b (ex_start_dpa e + ex_len e - b)) x) as [[? ->]|[? ->]]; cbn in *; lia.
  - unfold l'. rewrite !length_app, !Nat2Z.inj_add, !opt_length. pose proof (length_delete l i ltac:(eauto)). pose proof (lookup_lt_Some _ _ _ Hi). lia.
Qed.

Lemma exhausted_bound (N total delta delta' : Z) : total = wrap32 N -> 0 <= N + delta' -> delta' <= delta + 1 -> CXL_NUM_EXTENTS_SUPPORTED < wrap32 (delta' + total) -> CXL_NUM_EXTENTS_SUPPORTED < N + delta + 1.
Proof.
  intros -> H0 Hd H. unfold wrap32 in H. rewrite Zplus_mod_idemp_r in H. pose proof (Z.mod_le (delta' + N) (2 ^ 32)). lia.
Qed.

Lemma ends_in (l : list CXLDCExtent) (i : nat) (e : CXLDCExtent) (dpa : Z) : l !! i = Some e -> dpa < ex_start_dpa e + ex_len e -> ends l dpa = 1 + ends (delete i l) dpa.
Proof. intros Hi Hd. unfold ends. rewrite (tally_delete _ l i e Hi). by rewrite (proj2 (Z.ltb_lt _ _)). Qed.

(** One turn of the loop takes [m] bytes from the extent of [dpa]. *)
Lemma release_turn (total : Z) (fuel : nat) (l : list CXLDCExtent) (dpa len delta : Z) :
  Forall positive l -> on_block dpa -> on_block (dpa + len) -> 0 <= dpa -> 0 < len -> dpa + len < 2 ^ 64 -> cnt l dpa = 1 ->
  exists l' m dpa' delta', 0 < m <= len /\ on_block (dpa + m) /\
    release_loop (S fuel) total l dpa len delta =
      (if CXL_NUM_EXTENTS_SUPPORTED <? wrap32 (delta' + total) then Some (CXL_MBOX_RESOURCES_EXHAUSTED, l', delta') else release_loop fuel total l' dpa' (len - m) delta') /\
    Forall positive l' /\ (forall x, cnt l' x = cnt l x - ind (mkExtent dpa m) x) /\
    Z.of_nat (length l') = Z.of_nat (length l) + delta' - delta /\ delta' <= delta + 1 /\ 1 <= ends l dpa /\
    (m = len \/ dpa' = dpa + m /\ delta' <= delta /\ ends l' dpa' < ends l dpa).
Proof.
  intros Hl Ba Bb H0 Hlen Htop Hin. cbn [release_loop]. rewrite (proj2 (Z.eqb_neq len 0)) by lia.
  destruct (find_extent_spec l dpa Hl) as (res&->&Hres). destruct res as [[i e]|]; [|lia]. cbn [mbind option_bind].
  destruct Hres as [Hi Hd]. apply ind_iff in Hd. pose proof (Forall_lookup_1 _ _ _ _ Hl Hi) as He. rewrite (positive_range e He). cbn [mbind option_bind].
  destruct (positive_blocks e He) as [B1 B2]. destruct He as [Hfit Hpos]. destruct (fits_top e Hfit) as (S0&_&Snw). unfold no_wrap in Snw.
  pose proof (ends_in l i e dpa Hi ltac:(lia)) as Hends. pose proof (ends_mono (delete i l) dpa dpa ltac:(lia)).
  rewrite (wrap64_small (dpa + len - 1)) by (unfold u64; lia). unfold range_contains. cbn [ra_lob ra_upb].
  destruct ((ex_start_dpa e <=? dpa + len - 1) && (dpa + len - 1 <=? ex_start_dpa e + ex_len e - 1)) eqn:El; zify_bool.
  - destruct (take_part l i e dpa (dpa + len) Hl Hi) as (P1&P2&P3); [lia|lia|done|done|]. eexists _, len, dpa, _. split; [lia|]. split; [done|]. split.
    { rewrite (wrap64_small (ex_start_dpa e + ex_len e - dpa - len)) by (unfold u64; lia). rewrite (wrap64_small (dpa + len)), (wrap64_small (ex_len e - _ - _)) by (unfold u64; lia).
      replace (len - (ex_len e - (dpa - ex_start_dpa e) - (ex_start_dpa e + ex_len e - dpa - len))) with 0 by lia.
      replace (ex_start_dpa e + ex_len e - dpa - len) with (ex_start_dpa e + ex_len e - (dpa + len)) by lia. rewrite Z.sub_diag. reflexivity. }
    replace (dpa + len - dpa) with len in P2 by lia. split_and!; [done|done|lia|case_goal; lia|lia|by left].
  - apply andb_false_iff in El. set (b := ex_start_dpa e + ex_len e) in *. destruct (take_part l i e dpa b Hl Hi) as (P1&P2&P3); [lia|lia|done|done|]. fold b in P1, P2, P3. rewrite Z.sub_diag in P1, P2, P3.
    eexists _, (b - dpa), b, _. split; [destruct El; zify_bool; lia|]. replace (dpa + (b - dpa)) with b by lia. split; [done|]. split.
    { rewrite (wrap64_small b), (wrap64_small (ex_len e - _ - _)) by (unfold u64; lia). replace (ex_len e - (dpa - ex_start_dpa e) - 0) with (b - dpa) by (unfold b; lia).
      rewrite (wrap64_small (len - _)) by (unfold u64; destruct El; zify_bool; lia). change (0 =? 0) with true. cbv iota. reflexivity. }
    change (opt_extent b 0) with (@nil CXLDCExtent) in *. change (opt_extent (wrap64 (b + len)) 0) with (@nil CXLDCExtent) in *. change (0 =? 0) with true in *. cbv iota in *. split_and!; [done|done|lia|case_goal; lia|lia|].
    right. split_and!; [done|case_goal; lia|]. rewrite app_nil_r. unfold ends. rewrite tally_app. fold (ends (delete i l) b) (ends (opt_extent (ex_start_dpa e) (dpa - ex_start_dpa e)) b) (ends l dpa).
    rewrite ends_opt by lia. pose proof (ends_mono (delete i l) dpa b ltac:(lia)). lia.
Qed.

(** The loop takes its range out of the list, whose extents stay whole blocks, and fails only for
    want of room in the list. *)
Lemma release_loop_spec (N total : Z) (fuel : nat) (l : list CXLDCExtent) (dpa len delta : Z) :
  total = wrap32 N -> Forall positive l -> 0 <= len -> (0 < len -> on_block dpa /\ on_block (dpa + len) /\ 0 <= dpa /\ dpa + len < 2 ^ 64) ->
  (forall x, dpa <= x < dpa + len -> cnt l x = 1) -> (if len =? 0 then 0 else ends l dpa) < Z.of_nat fuel -> Z.of_nat (length l) <= N + delta ->
  exists ret l' delta', release_loop fuel total l dpa len delta = Some (ret, l', delta') /\ delta' <= delta + 1 /\
    (ret = CXL_MBOX_SUCCESS /\ Forall positive l' /\ (forall x, cnt l' x = cnt l x - ind (mkExtent dpa len) x) /\
       Z.of_nat (length l') = Z.of_nat (length l) + delta' - delta \/
     ret = CXL_MBOX_RESOURCES_EXHAUSTED /\ CXL_NUM_EXTENTS_SUPPORTED < N + delta + 1).
Proof.
  intros Ht. revert l dpa len delta. induction fuel as [|fuel IH]; intros l dpa len delta Hl Hlen Hpos Hin Hfuel HN.
  { pose proof (ends_mono l dpa dpa). case_in Hfuel; lia. }
  destruct (decide (len = 0)) as [->|Hne].
  { cbn [release_loop]. change (0 =? 0) with true. cbv iota. eexists _, _, _. split; [reflexivity|]. split; [lia|]. left. split_and!; [done|done| |lia]. intros x.
    destruct (ind_cases (mkExtent dpa 0) x) as [[H _]|[_ ->]]; [cbn in H; lia|lia]. }
  rewrite (proj2 (Z.eqb_neq len 0) Hne) in Hfuel. destruct Hpos as (Ba&Bb&H0&Htop); [lia|].
  destruct (release_turn total fuel l dpa len delta Hl Ba Bb H0 ltac:(lia) Htop (Hin dpa ltac:(lia))) as (l'&m&dpa'&delta'&Hm&Bm&->&Hl'&Hc&Hlen'&Hd'&He1&Hcase).
  destruct (_ <? wrap32 _) eqn:Ex; zify_bool.
  { eexists _, _, _. split; [reflexivity|]. split; [lia|]. right. split; [done|]. apply (exhausted_bound N total delta delta'); [done|lia|lia|done]. }
  destruct (IH l' dpa' (len - m) delta') as (ret&l2&delta2&E2&Hd2&Hres); [done|lia| | | |lia|].
  - intros Hpos. destruct Hcase as [->|(->&_)]; [lia|]. replace (dpa + m + (len - m)) with (dpa + len) by lia. split_and!; [done|done|lia|lia].
  - intros x Hx. destruct Hcase as [->|(->&_)]; [lia|]. rewrite Hc, Hin by lia. destruct (ind_cases (mkExtent dpa m) x) as [[Hi _]|[_ ->]]; [cbn in Hi; lia|lia].
  - destruct Hcase as [->|(->&_&He2)]; [rewrite Z.sub_diag; cbn; lia|]. case_goal; lia.
  - eexists _, _, _. split; [exact E2|]. assert (delta2 <= delta + 1) as Hdel.
    { destruct Hcase as [->|(_&?&_)]; [|lia]. rewrite Z.sub_diag in E2. destruct fuel as [|f]; [done|]. cbn [release_loop] in E2. change (0 =? 0) with true in E2. cbv iota in E2. injection E2 as <- <- <-. lia. }
    split; [done|]. destruct Hres as [(->&R1&R2&R3)|(->&R1)]; [left|right].
    + split_and!; [done|done| |lia]. intros x. rewrite R2, Hc. destruct Hcase as [->|(->&_)]; [rewrite Z.sub_diag|];
        destruct (ind_cases (mkExtent dpa len) x) as [[? ->]|[? ->]]; repeat match goal with |- context [ind ?e x] => destruct (ind_cases e x) as [[? ->]|[? ->]] end; cbn in *; lia.
    + split; [done|]. destruct Hcase as [->|(_&?&_)]; [|lia]. rewrite Z.sub_diag in E2. destruct fuel as [|f]; [done|]. cbn [release_loop] in E2. change (0 =? 0) with true in E2. cbv iota in E2. by injection E2.
Qed.

Lemma test_fits (d : dynamic_capacity) (e : CXLDCExtent) (f : Z -> bool) : has_layout la d -> shows_all d f -> extent_fits la e ->
  exists t, ct3_test_region_block_backed d (ex_start_dpa e) (ex_len e) = Some t /\ (t = true <-> forall x, ind e x = 1 -> f x = true).
Proof.
  intros Hd Hf He. pose proof (lo_block la Hla). destruct (fits_place e He) as (q&k&Hs&Hl&_). pose proof He as (i&Hi&H1&H2&H3&_).
  destruct (test_region_spec d (ex_start_dpa e) (ex_len e) i f Hd Hf Hi H1 H2 H3) as (t&->&Ht). exists t. split; [done|]. rewrite Ht.
  assert ((ex_start_dpa e - la_base la) / la_block la = q) as -> by (apply block_bounds; nia).
  assert ((ex_len e + la_block la - 1) / la_block la = k) as -> by (symmetry; apply (Z.div_unique_pos _ _ _ (la_block la - 1)); nia).
  split; intros H4 x Hx; apply H4; [apply ind_iff in Hx|apply ind_iff]; nia.
Qed.

(** ** The dry run of a release *)
Lemma release_entries_spec (d : dynamic_capacity) (f : Z -> bool) (N : Z) (req l : list CXLDCExtent) (delta : Z) :
  has_layout la d -> shows_all d f -> dc_total_extent_count d = wrap32 N ->
  Forall (extent_fits la) req -> (forall x, cnt req x <= 1) -> Forall positive l -> (forall x, cnt req x = 1 -> f x = true -> cnt l x = 1) -> Z.of_nat (length l) <= N + delta ->
  exists ret l' delta', release_entries d req l delta = Some (ret, l', delta') /\
    (ret = CXL_MBOX_SUCCESS /\ (forall x, cnt req x = 1 -> f x = true) /\ Forall positive l' /\ (forall x, cnt l' x = cnt l x - cnt req x) /\
       Z.of_nat (length l') = Z.of_nat (length l) + delta' - delta \/
     ret = CXL_MBOX_INVALID_PA /\ (exists x, cnt req x = 1 /\ f x = false) \/
     ret = CXL_MBOX_RESOURCES_EXHAUSTED /\ CXL_NUM_EXTENTS_SUPPORTED < N + delta + Z.of_nat (length req)).
Proof.
  intros Hd Hf HN Hreq. revert l delta. induction Hreq as [|e req He Hreq IH]; intros l delta Hone Hl Hin Hlen.
  { eexists _, _, _. split; [reflexivity|]. left. split_and!; [done|done|done|intros x; change (cnt [] x) with 0; lia|lia]. }
  cbn [release_entries]. destruct (test_fits d e f Hd Hf He) as (t&->&Ht). cbn [mbind option_bind].
  assert (forall x, ind e x = 1 -> cnt (e :: req) x = 1) as Hfirst by (intros x Hx; specialize (Hone x); rewrite cnt_cons in *; pose proof (cnt_nonneg req x); lia).
  destruct t; cbn [negb].
  2:{ eexists _, _, _. split; [reflexivity|]. right. left. split; [done|]. destruct (fits_region d e Hd He) as (i&r&q&k&_&_&_&Hk&_&Hk0&_). pose proof (lo_block la Hla).
      destruct (decide (Forall (fun x => f x = true) (seqZ (ex_start_dpa e) (ex_len e)))) as [Hall|Hnot].
      - exfalso. assert (false = true); [|done]. apply Ht. intros x Hx. apply ind_iff in Hx. rewrite Forall_forall in Hall. apply Hall, elem_of_seqZ. lia.
      - apply not_Forall_Exists in Hnot; [|intros x; apply _]. apply Exists_exists in Hnot as (x&Hx&Hfx). apply elem_of_seqZ in Hx. exists x. split; [apply Hfirst, ind_iff; lia|]. by apply not_true_is_false. }
  assert (forall x, ind e x = 1 -> f x = true) as Hback by (by apply Ht). destruct (fits_top e He) as (E0&E1&E2). unfold no_wrap in E2.
  destruct (release_loop_spec N _ (S (S (length l))) l (ex_start_dpa e) (ex_len e) delta HN Hl E1) as (ret&l1&d1&->&Hd1&Hcase).
  - intros Hpos. destruct (positive_blocks e (conj He Hpos)) as [B1 B2]. done.
  - intros x Hx. assert (ind e x = 1) as Hi by (by apply ind_iff). apply Hin; [by apply Hfirst|by apply Hback].
  - pose proof (ends_length l (ex_start_dpa e)). case_goal; lia.
  - done.
  - destruct Hcase as [(->&L1&L2&L3)|(->&Hex)]; cbn [mbind option_bind]; rewrite ?bool_decide_true, ?bool_decide_false by done.
    2:{ eexists _, _, _. split; [reflexivity|]. right. right. split; [done|]. cbn [length]. lia. }
    assert (mkExtent (ex_start_dpa e) (ex_len e) = e) as Heta by (by destruct e). rewrite Heta in L2.
    destruct (IH l1 d1) as (ret&l2&d2&->&Hres); [|done| |lia|].
    + intros x. specialize (Hone x). rewrite cnt_cons in Hone. destruct (ind_cases e x); lia.
    + intros x Hx Hfx. specialize (Hone x). rewrite cnt_cons in Hone. rewrite L2. specialize (Hin x). rewrite cnt_cons in Hin. destruct (ind_cases e x) as [[_ Hi]|[_ Hi]]; rewrite Hi in *; [lia|]. rewrite Hin; [lia|lia|done].
    + eexists _, _, _. split; [reflexivity|]. destruct Hres as [(->&R1&R2&R3&R4)|[(->&x&R1&R2)|(->&R1)]]; [left|right; left|right; right].
      * split_and!; [done| |done|intros x; rewrite R3, L2, cnt_cons; lia|lia]. intros x Hx. rewrite cnt_cons in Hx. destruct (ind_cases e x) as [[_ Hi]|[_ Hi]]; [by apply Hback|]. apply R1. lia.
      * split; [done|]. exists x. split; [|done]. specialize (Hone x). rewrite cnt_cons in *. destruct (ind_cases e x); lia.
      * split; [done|]. cbn [length]. lia.
Qed.

(** ** Lists of bits and extents together *)
Lemma fill_extents_spec (b : bool) (l : list CXLDCExtent) (d : dynamic_capacity) (f : Z -> bool) :
  has_layout la d -> shows_all d f -> Forall positive l ->
  exists rs, fill_extents b l d = Some (set_dc_regions rs d) /\ has_layout la (set_dc_regions rs d) /\
    shows_all (set_dc_regions rs d) (fun x => if 0 <? cnt l x then b else f x).
Proof.
  intros Hd Hf Hl. revert d f Hd Hf. induction Hl as [|e l [He _] Hl IH]; intros d f Hd Hf.
  { exists (dc_regions d). destruct d. split_and!; [done|done|exact Hf]. }
  cbn [fill_extents]. destruct (fill_region_spec b d e f Hd He Hf) as (rs&->&Hd1&Hf1). cbn [mbind option_bind].
  destruct (IH _ _ Hd1 Hf1) as (rs2&->&Hd2&Hf2). exists rs2. split_and!; [done|done|]. intros i r Hr. refine (shows_ext _ _ _ _ _ _ (Hf2 i r Hr)).
  intros x _. cbv beta. rewrite cnt_cons. pose proof (cnt_nonneg l x). destruct (ind_cases e x) as [[_ ->]|[_ ->]]; cbn [Z.eqb Pos.eqb]; case_goal; try done; lia.
Qed.

Lemma accept_extents_spec (l : list CXLDCExtent) (d : dynamic_capacity) (f : Z -> bool) :
  has_layout la d -> shows_all d f -> Forall positive l ->
  exists rs total nr, accept_extents l d = Some (set_dc_counts total nr (set_dc_extents (dc_extents d ++ l) (set_dc_regions rs d))) /\
    has_layout la (set_dc_regions rs d) /\ shows_all (set_dc_regions rs d) (fun x => if 0 <? cnt l x then true else f x) /\
    (forall n m, dc_total_extent_count d = wrap32 n -> dc_nr_extents_accepted d = wrap32 m -> total = wrap32 (n + Z.of_nat (length l)) /\ nr = wrap32 (m + Z.of_nat (length l))).
Proof.
  intros Hd Hf Hl. revert d f Hd Hf. induction Hl as [|e l [He _] Hl IH]; intros d f Hd Hf.
  { exists (dc_regions d), (dc_total_extent_count d), (dc_nr_extents_accepted d). rewrite app_nil_r. destruct d. cbn in *. split_and!; [done|done|exact Hf|]. intros n m -> ->. by rewrite !Z.add_0_r. }
  cbn [accept_extents]. cbv zeta. set (d1 := set_dc_counts _ _ _).
  assert (has_layout la d1) as Hd1 by (destruct Hd; by split). assert (shows_all d1 f) as Hf1 by exact Hf.
  destruct (fill_region_spec true d1 e f Hd1 He Hf1) as (rs&E1&Hd2&Hf2). unfold ct3_set_region_block_backed. rewrite E1. cbn [mbind option_bind].
  destruct (IH _ _ Hd2 Hf2) as (rs2&t&n&->&Hd3&Hf3&Hc). exists rs2, t, n. cbn. rewrite <- app_assoc. split_and!; [done|destruct Hd3; by split| |].
  - intros i r Hr. refine (shows_ext _ _ _ _ _ _ (Hf3 i r Hr)).
    intros x _. cbv beta. rewrite cnt_cons. pose proof (cnt_nonneg l x). destruct (ind_cases e x) as [[_ ->]|[_ ->]]; cbn [Z.eqb Pos.eqb]; case_goal; try done; lia.
  - intros n0 m0 Hn Hm. cbn in Hc. rewrite Hn, Hm in Hc. unfold wrap32 in *. rewrite !Zplus_mod_idemp_l in Hc.
    destruct (Hc (n0 + 1) (m0 + 1) eq_refl eq_refl) as [-> ->]. rewrite Nat2Z.inj_succ. split; f_equal; lia.
Qed.

(** The device agrees with itself: extents are whole blocks, no byte is in two of them, the
    bitmaps are those of the accepted ones, and the counters count. *)
Record dcd_ok (d : dynamic_capacity) : Prop := {
  ok_layout : has_layout la d;
  ok_extents : Forall positive (dc_extents d);
  ok_pending : Forall positive (concat (dc_extents_pending d));
  ok_once : forall x, cnt (dc_extents d) x + cnt (concat (dc_extents_pending d)) x <= 1;
  ok_bitmap : shows_all d (fun x => 0 <? cnt (dc_extents d) x);
  ok_nr : dc_nr_extents_accepted d = wrap32 (Z.of_nat (length (dc_extents d)));
  ok_total : dc_total_extent_count d = wrap32 (Z.of_nat (length (dc_extents d)) + Z.of_nat (length (concat (dc_extents_pending d))))
}.
End Layout.
