(* ===== verification/Type3DcdSpec.v ===== *)
(** * What dynamic capacity promises

    The contract of the operations of [Type3Dcd]: which bytes of the device the host may access,
    which groups of extents are offered to it, and what each operation of the operator, the fabric
    manager and the host does to them.  [granted] says when an operation succeeds, [access_after],
    [offers_after] and [events_after] what it changes.  [dcd_refines] shows that the code keeps
    the contract and returns, [dcd_reachable_ok] that its data structures agree with each other
    in every state that is reached, [dcd_access_exact] that the test of memory accesses is
    exact for accesses inside of a block.  The other theorems are defects. *)
From S2P Require Import Prelude Type3Dcd.
#[local] Open Scope Z_scope.

(** ** Operations *)
Inductive dc_op :=
| OperatorRequest (type : CXLDCEventType) (rid : Z) (records : list (Z * Z))
| ManagerAdd (selection_policy : Z) (l : list CXLDCExtent)
| ManagerRelease (flags : Z) (l : list CXLDCExtent)
| HostAnswer (p : CXLUpdateDCExtentListInPl)
| HostRelease (p : CXLUpdateDCExtentListInPl).

Definition mailbox_result (r : option (CXLRetCode * dynamic_capacity)) : option (bool * dynamic_capacity) :=
  '(ret, d) ← r; Some (bool_decide (ret = CXL_MBOX_SUCCESS), d).

(** Whether the operation succeeded, and the new state. *)
Definition dc_step (d : dynamic_capacity) (o : dc_op) : option (bool * dynamic_capacity) :=
  match o with
  | OperatorRequest type rid records => '(e, d) ← qmp_cxl_process_dynamic_capacity_prescriptive type rid records d; Some (match e with None => true | Some _ => false end, d)
  | ManagerAdd policy l => mailbox_result (cmd_fm_initiate_dc_add policy l d)
  | ManagerRelease flags l => mailbox_result (cmd_fm_initiate_dc_release flags l d)
  | HostAnswer p => mailbox_result (cmd_dcd_add_dyn_cap_rsp p d)
  | HostRelease p => mailbox_result (cmd_dcd_release_dyn_cap p d)
  end.

Definition accessible (d : dynamic_capacity) (x : Z) : bool := 0 <? cnt (dc_extents d) x.

Definition entries (p : CXLUpdateDCExtentListInPl) : list CXLDCExtent := take (Z.to_nat (up_num_entries_updated p)) (up_updated_entries p).

Section Contract.
Context (la : layout) (Hla : layout_ok la).

(** The extents that an operation names. *)
Definition named (o : dc_op) : list CXLDCExtent :=
  match o with
  | OperatorRequest _ rid records => (fun '(offset, len) => mkExtent (offset + (la_base la + rid * la_len la)) len) <$> records
  | ManagerAdd _ l | ManagerRelease _ l => l
  | HostAnswer p | HostRelease p => entries p
  end.

(** The numbers are those of their types, and a payload has the entries that its length allows. *)
Definition typed (o : dc_op) : Prop :=
  match o with
  | OperatorRequest _ rid records => 0 <= rid /\ Forall (fun '(offset, len) => u64 offset /\ u64 len) records
  | ManagerAdd _ l | ManagerRelease _ l => Forall some_bytes l
  | HostAnswer p | HostRelease p =>
      0 <= up_num_entries_updated p < 2 ^ 32 /\ Forall words (up_updated_entries p) /\
      (8 + 24 * up_num_entries_updated p <= up_len_in p -> up_num_entries_updated p <= Z.of_nat (length (up_updated_entries p)))
  end.

(** What an operation needs to return at all: no extent wraps, the manager offers something, the
    host answers an offer. *)
Definition runs (d : dynamic_capacity) (o : dc_op) : Prop :=
  Forall no_wrap (named o) /\
  match o with
  | OperatorRequest _ _ records => Forall (fun '(offset, len) => offset + len < 2 ^ 64) records
  | ManagerAdd _ l => l <> []
  | HostAnswer _ => dc_extents_pending d <> []
  | _ => True
  end.

Definition access_after (o : dc_op) (acc : Z -> bool) (x : Z) : bool :=
  match o with
  | HostAnswer _ => acc x || (0 <? cnt (named o) x)
  | HostRelease _ => acc x && negb (0 <? cnt (named o) x)
  | _ => acc x
  end.

Definition offers_after (o : dc_op) (offers : list (list CXLDCExtent)) : list (list CXLDCExtent) :=
  match o with
  | OperatorRequest DC_EVENT_ADD_CAPACITY _ _ | ManagerAdd _ _ => match named o with [] => offers | l => offers ++ [l] end
  | HostAnswer _ => tail offers
  | _ => offers
  end.

Definition events_after (o : dc_op) : list dc_event :=
  match o with
  | OperatorRequest type _ _ => event_records type (named o)
  | ManagerAdd _ _ => event_records DC_EVENT_ADD_CAPACITY (named o)
  | ManagerRelease _ _ => event_records DC_EVENT_RELEASE_CAPACITY (named o)
  | _ => []
  end.

Definition effect (o : dc_op) (d d' : dynamic_capacity) : Prop :=
  (forall x, accessible d' x = access_after o (accessible d) x) /\ dc_extents_pending d' = offers_after o (dc_extents_pending d) /\
  dc_events d' = dc_events d ++ events_after o.

(** No byte of [l] is in an extent that is offered, and none or all are accessible. *)
Definition unoffered (d : dynamic_capacity) (l : list CXLDCExtent) : Prop := forall x, 0 < cnt l x -> cnt (concat (dc_extents_pending d)) x = 0.

Definition all_access (d : dynamic_capacity) (b : bool) (l : list CXLDCExtent) : Prop := forall x, 0 < cnt l x -> accessible d x = b.

(** When an operation succeeds. *)
Definition granted (d : dynamic_capacity) (o : dc_op) : Prop :=
  match o with
  | OperatorRequest type rid records =>
      rid < la_n la /\
      Forall (fun '(offset, len) => 0 < len /\ offset mod la_block la = 0 /\ len mod la_block la = 0 /\ offset + len <= la_len la) records /\
      (forall x, cnt (named o) x <= 1) /\ unoffered d (named o) /\ all_access d (match type with DC_EVENT_ADD_CAPACITY => false | DC_EVENT_RELEASE_CAPACITY => true end) (named o)
  | ManagerAdd policy l =>
      policy = CXL_EXTENT_SELECTION_POLICY_PRESCRIPTIVE /\ wrap32 (Z.of_nat (length l) + dc_total_extent_count d) <= CXL_NUM_EXTENTS_SUPPORTED /\
      well_formed la l /\ unoffered d l /\ all_access d false l
  | ManagerRelease flags l =>
      Z.land flags 0xF = CXL_EXTENT_REMOVAL_POLICY_PRESCRIPTIVE /\ well_formed la l /\ (Z.testbit flags 4 = false -> unoffered d l) /\ all_access d true l
  | HostAnswer p =>
      8 <= up_len_in p /\
      (up_num_entries_updated p = 0 \/
       8 + 24 * up_num_entries_updated p <= up_len_in p /\ wrap32 (up_num_entries_updated p + dc_total_extent_count d) <= CXL_NUM_EXTENTS_SUPPORTED /\
       well_formed la (entries p) /\ Forall (fun e => 0 < ex_len e /\ Exists (within e) (default [] (head (dc_extents_pending d)))) (entries p))
  | HostRelease p =>
      8 <= up_len_in p /\ up_num_entries_updated p <> 0 /\ 8 + 24 * up_num_entries_updated p <= up_len_in p /\ well_formed la (entries p) /\ all_access d true (entries p)
  end.

(** A release can also fail when the extents it splits are too many. *)
Definition room (d : dynamic_capacity) (o : dc_op) : Prop :=
  match o with
  | ManagerRelease _ _ | HostRelease _ =>
      Z.of_nat (length (dc_extents d)) + Z.of_nat (length (concat (dc_extents_pending d))) + Z.of_nat (length (named o)) <= CXL_NUM_EXTENTS_SUPPORTED
  | _ => True
  end.

Definition step_correct (d : dynamic_capacity) (o : dc_op) : Prop :=
  match dc_step d o with
  | Some (true, d') => granted d o /\ effect o d d' /\ dcd_ok la d'
  | Some (false, d') => d' = d /\ ~ (granted d o /\ room d o)
  | None => ~ runs d o
  end.

(** ** Each operation *)
Lemma accessible_iff (d : dynamic_capacity) (x : Z) : accessible d x = true <-> 0 < cnt (dc_extents d) x.
Proof. unfold accessible. apply Z.ltb_lt. Qed.

Lemma accessible_false (d : dynamic_capacity) (x : Z) : accessible d x = false <-> cnt (dc_extents d) x = 0.
Proof. unfold accessible. rewrite Z.ltb_ge. pose proof (cnt_nonneg (dc_extents d) x). lia. Qed.

Lemma cnt_forall (l : list CXLDCExtent) (P : Z -> Prop) : (forall x, 0 < cnt l x -> P x) <-> Forall (fun e => forall x, ind e x = 1 -> P x) l.
Proof.
  rewrite Forall_forall. split.
  - intros H e He x Hx. apply H, cnt_pos. eauto.
  - intros H x Hx. apply cnt_pos in Hx as (e&He&Hi). by apply (H e).
Qed.

Lemma all_access_false (d : dynamic_capacity) (l : list CXLDCExtent) : all_access d false l <-> Forall (fun e => forall x, ind e x = 1 -> cnt (dc_extents d) x = 0) l.
Proof. rewrite <- (cnt_forall l (fun x => cnt (dc_extents d) x = 0)). split; intros H x Hx; apply accessible_false, H, Hx. Qed.

Lemma unoffered_forall (d : dynamic_capacity) (l : list CXLDCExtent) : unoffered d l <-> Forall (fun e => forall x, ind e x = 1 -> cnt (concat (dc_extents_pending d)) x = 0) l.
Proof. apply (cnt_forall l (fun x => cnt (concat (dc_extents_pending d)) x = 0)). Qed.

Lemma any_overlap_spec (d : dynamic_capacity) (b : bool) (l : list CXLDCExtent) : dcd_ok la d -> Forall some_bytes l -> Forall no_wrap l ->
  exists o, any_overlap d b l = Some o /\ (o = false <-> unoffered d l /\ (b = true -> all_access d false l)).
Proof.
  intros Hd Hl Hn. pose proof (all_access_false d l) as Ha. pose proof (unoffered_forall d l) as Hu.
  enough (exists o, any_overlap d b l = Some o /\ (o = false <-> Forall (fun e => forall x, ind e x = 1 -> cnt (concat (dc_extents_pending d)) x = 0) l /\ (b = true -> Forall (fun e => forall x, ind e x = 1 -> cnt (dc_extents d) x = 0) l))) as (o&?&?) by (exists o; naive_solver).
  clear Ha Hu. induction Hl as [|e l He Hl IH]; [by exists false|].
  apply Forall_cons in Hn as [Hn1 Hn]. cbn [any_overlap].
  destruct (groups_spec la Hla e (dc_extents_pending d) He Hn1 (ok_pending la d Hd)) as (o1&->&H1). cbn [mbind option_bind]. destruct o1.
  { exists true. split; [done|]. split; [done|]. intros [[H _]%Forall_cons _]. by apply H1. }
  destruct b.
  - destruct (overlaps_spec la Hla e (dc_extents d) He Hn1 (ok_extents la d Hd)) as (o2&->&H2). cbn [mbind option_bind]. destruct o2.
    { exists true. split; [done|]. split; [done|]. intros [_ H]. apply H2. by apply Forall_cons in H as [? _]. }
    destruct (IH Hn) as (o&->&Ho). exists o. split; [done|]. rewrite Ho, !Forall_cons. naive_solver.
  - cbn [mbind option_bind]. destruct (IH Hn) as (o&->&Ho). exists o. split; [done|]. rewrite Ho, !Forall_cons. naive_solver.
Qed.

(** A new offer. *)
Lemma offer_ok (d : dynamic_capacity) (l : list CXLDCExtent) (ev : list dc_event) : dcd_ok la d -> Forall (positive la) l -> (forall x, cnt l x <= 1) -> unoffered d l -> all_access d false l ->
  dcd_ok la (set_dc_events ev (set_dc_counts (wrap32 (dc_total_extent_count d + Z.of_nat (length l))) (dc_nr_extents_accepted d) (set_dc_pending (dc_extents_pending d ++ [l]) d))).
Proof.
  intros [L E P O B N T] Hl Hone Hu Ha. assert (concat (dc_extents_pending d ++ [l]) = concat (dc_extents_pending d) ++ l) as Hc by (rewrite concat_app; cbn; by rewrite app_nil_r).
  split; cbn [dc_extents dc_extents_pending dc_nr_extents_accepted dc_total_extent_count set_dc_events set_dc_counts set_dc_pending]; rewrite ?Hc.
  - destruct L; by split.
  - done.
  - by apply Forall_app.
  - intros x. rewrite cnt_app. specialize (O x). specialize (Hone x). pose proof (cnt_nonneg l x). destruct (decide (0 < cnt l x)) as [Hx|]; [|lia].
    pose proof (Hu x Hx). pose proof (proj1 (accessible_false d x) (Ha x Hx)). lia.
  - exact B.
  - done.
  - rewrite T. unfold wrap32. rewrite Zplus_mod_idemp_l, length_app. f_equal. lia.
Qed.

Lemma positive_all (l : list CXLDCExtent) : Forall (extent_fits la) l -> Forall some_bytes l -> Forall (positive la) l.
Proof. intros H1 H2. apply Forall_forall. intros e He. rewrite Forall_forall in H1, H2. split; [by apply H1|]. destruct (H2 e He) as [_ ?]. lia. Qed.

Lemma some_bytes_words (l : list CXLDCExtent) : Forall some_bytes l -> Forall words l.
Proof. intros H. apply (Forall_impl _ _ _ H). intros e [H1 H2]. split; unfold u64; lia. Qed.

Lemma fits_no_wrap (l : list CXLDCExtent) : Forall (extent_fits la) l -> Forall no_wrap l.
Proof. intros H. apply (Forall_impl _ _ _ H). intros e He. by destruct (fits_top la Hla e He) as (?&?&?). Qed.

Lemma manager_add_correct (d : dynamic_capacity) (policy : Z) (l : list CXLDCExtent) : dcd_ok la d -> typed (ManagerAdd policy l) -> step_correct d (ManagerAdd policy l).
Proof.
  intros Hd Ht. cbn in Ht. unfold step_correct. cbn [dc_step]. unfold cmd_fm_initiate_dc_add. destruct (policy =? _) eqn:Ep; zify_bool.
  2:{ cbn. split; [done|]. intros [[H _] _]. done. }
  destruct (_ <? wrap32 _) eqn:Er; zify_bool; [cbn; split; [done|]; intros [(_&H&_) _]; lia|].
  destruct (malformed_spec la Hla d l (ok_layout la d Hd) (some_bytes_words l Ht)) as [Hm1 Hm2].
  destruct (cxl_detect_malformed_extent_list d l) as [rc|]; cbn [mbind option_bind mailbox_result].
  2:{ intros [Hn _]. by destruct (Hm2 Hn). }
  destruct (any_overlap d true l) as [o|] eqn:Eo; cbn [mbind option_bind mailbox_result].
  2:{ intros [Hn _]. destruct (any_overlap_spec d true l Hd Ht Hn) as (o&E&_). congruence. }
  assert (Some rc = Some CXL_MBOX_SUCCESS -> o = false <-> unoffered d l /\ all_access d false l) as Hover.
  { intros E. apply Hm1 in E as [Hf _]. destruct (any_overlap_spec d true l Hd Ht (fits_no_wrap l Hf)) as (o'&E'&Ho). rewrite Eo in E'. injection E' as <-. rewrite Ho. naive_solver. }
  destruct o; [cbn; split; [done|]; intros [(_&_&Hw&Hu&Ha) _]; apply Hm1 in Hw as Hw'; by apply Hover in Hw' as [_ H]; discriminate H|].
  case_bool_decide as Hrc; cbn [negb mbind option_bind mailbox_result].
  2:{ rewrite bool_decide_false by done. split; [done|]. intros [(_&_&Hw&_) _]. apply Hm1 in Hw. by injection Hw. }
  subst rc. destruct (proj1 Hm1 eq_refl) as [Hf Hone]. destruct (proj1 (Hover eq_refl) eq_refl) as [Hu Ha].
  destruct l as [|e l0] eqn:El; [by intros [_ H]|]. rewrite <- El in *. cbn [mbind option_bind mailbox_result]. rewrite bool_decide_true by done.
  split; [done|]. split; [|exact (offer_ok d l (dc_events d ++ event_records DC_EVENT_ADD_CAPACITY l) Hd (positive_all l Hf Ht) Hone Hu Ha)]. split; [done|]. cbn. by rewrite El.
Qed.

Definition extents_total (d : dynamic_capacity) : Z := Z.of_nat (length (dc_extents d)) + Z.of_nat (length (concat (dc_extents_pending d))).

Lemma release_dry_run_spec (d : dynamic_capacity) (req : list CXLDCExtent) : dcd_ok la d -> well_formed la req ->
  exists ret l' size, cxl_dc_extent_release_dry_run d req = Some (ret, l', size) /\
    (ret = CXL_MBOX_SUCCESS /\ all_access d true req /\ Forall (positive la) l' /\ (forall x, cnt l' x = cnt (dc_extents d) x - cnt req x) /\ size = wrap32 (Z.of_nat (length l')) \/
     ret <> CXL_MBOX_SUCCESS /\ ~ (all_access d true req /\ extents_total d + Z.of_nat (length req) <= CXL_NUM_EXTENTS_SUPPORTED)).
Proof.
  intros Hd [Hf Hone]. pose proof Hd as [L E P O B N T]. assert (forall x, 0 < cnt req x -> cnt req x = 1) as H1 by (intros x; specialize (Hone x); lia).
  destruct (release_entries_spec la Hla d _ (extents_total d) req (dc_extents d) 0 L B T Hf Hone E) as (ret&l'&delta&Er&Hcase).
  - intros x _ Hx. zify_bool. specialize (O x). pose proof (cnt_nonneg (concat (dc_extents_pending d)) x). lia.
  - unfold extents_total. lia.
  - unfold cxl_dc_extent_release_dry_run. rewrite Er. cbn [mbind option_bind]. destruct Hcase as [(->&R1&R2&R3&R4)|[(->&x&R1&R2)|(->&R1)]].
    + rewrite bool_decide_true by done. eexists _, _, _. split; [reflexivity|]. left. split_and!; [done| |done|done|].
      * intros x Hx. by apply R1, H1.
      * rewrite N. unfold wrap32. rewrite Zplus_mod_idemp_l. f_equal. lia.
    + rewrite bool_decide_false by done. eexists _, _, _. split; [reflexivity|]. right. split; [done|]. intros [Ha _]. specialize (Ha x ltac:(lia)). unfold accessible in Ha. congruence.
    + rewrite bool_decide_false by done. eexists _, _, _. split; [reflexivity|]. right. split; [done|]. intros [_ Hr]. lia.
Qed.

Lemma manager_release_correct (d : dynamic_capacity) (flags : Z) (l : list CXLDCExtent) : dcd_ok la d -> typed (ManagerRelease flags l) -> step_correct d (ManagerRelease flags l).
Proof.
  intros Hd Ht. cbn in Ht. unfold step_correct. cbn [dc_step]. unfold cmd_fm_initiate_dc_release. destruct (_ =? _) eqn:Ep; zify_bool.
  2:{ cbn. split; [done|]. intros [[H _] _]. done. }
  destruct (malformed_spec la Hla d l (ok_layout la d Hd) (some_bytes_words l Ht)) as [Hm1 Hm2].
  destruct (cxl_detect_malformed_extent_list d l) as [rc|]; cbn [mbind option_bind mailbox_result].
  2:{ intros [Hn _]. by destruct (Hm2 Hn). }
  case_bool_decide as Hrc; cbn [negb mbind option_bind mailbox_result].
  2:{ rewrite bool_decide_false by done. split; [done|]. intros [(_&Hw&_) _]. apply Hm1 in Hw. by injection Hw. }
  subst rc. destruct (proj1 Hm1 eq_refl) as [Hf Hone].
  assert (exists o, (if negb (Z.testbit flags 4) then any_overlap d false l else Some false) = Some o /\ (o = false <-> (Z.testbit flags 4 = false -> unoffered d l))) as (o&->&Ho).
  { destruct (Z.testbit flags 4); cbn [negb]; [by exists false|]. destruct (any_overlap_spec d false l Hd Ht (fits_no_wrap l Hf)) as (o&->&Ho). exists o. split; [done|]. rewrite Ho. naive_solver. }
  cbn [mbind option_bind mailbox_result]. destruct o.
  { cbn. split; [done|]. intros [(_&_&Hu&_) _]. by apply Ho in Hu. }
  destruct (release_dry_run_spec d l Hd (conj Hf Hone)) as (ret&l'&size&->&Hcase). cbn [mbind option_bind mailbox_result].
  destruct Hcase as [(->&Ha&_)|(Hne&Hno)].
  - rewrite bool_decide_true by done. cbn. split; [split; [done|]; split; [done|]; split; [by apply Ho|done]|]. split; [done|].
    destruct Hd as [L E P O B N T]. split; try done. destruct L; by split.
  - rewrite bool_decide_false by done. cbn [negb mbind option_bind mailbox_result]. rewrite bool_decide_false by done. split; [done|]. intros [(_&_&_&Ha) Hroom]. by destruct Hno.
Qed.

Lemma wrap32_update (t a b : Z) : wrap32 (wrap32 t + (wrap32 a - wrap32 b)) = wrap32 (t + (a - b)).
Proof. unfold wrap32. rewrite Zplus_mod_idemp_l, <- Zplus_mod_idemp_r, <- Zminus_mod. apply Zplus_mod_idemp_r. Qed.

(** A payload whose lengths passed has its entries. *)
Lemma updated_entries_spec (p : CXLUpdateDCExtentListInPl) : up_num_entries_updated p <= Z.of_nat (length (up_updated_entries p)) -> updated_entries p = Some (entries p).
Proof. intros H. unfold updated_entries, entries. by rewrite (proj2 (Z.leb_le _ _)). Qed.

Lemma entries_words (p : CXLUpdateDCExtentListInPl) : Forall words (up_updated_entries p) -> Forall words (entries p).
Proof. apply Forall_take. Qed.

Lemma host_release_correct (d : dynamic_capacity) (p : CXLUpdateDCExtentListInPl) : dcd_ok la d -> typed (HostRelease p) -> step_correct d (HostRelease p).
Proof.
  intros Hd (Hnum&Hw&Hp). unfold step_correct. cbn [dc_step]. unfold cmd_dcd_release_dyn_cap.
  destruct (up_len_in p <? 8) eqn:E1; zify_bool; [cbn; split; [done|]; intros [(?&_) _]; lia|].
  destruct (_ =? 0) eqn:E2; zify_bool; [cbn; split; [done|]; intros [(_&?&_) _]; lia|].
  destruct (_ <? _) eqn:E3; zify_bool; [cbn; split; [done|]; intros [(_&_&?&_) _]; lia|].
  rewrite (updated_entries_spec p (Hp E3)). cbn [mbind option_bind]. set (req := entries p).
  destruct (malformed_spec la Hla d req (ok_layout la d Hd) (entries_words p Hw)) as [Hm1 Hm2].
  destruct (cxl_detect_malformed_extent_list d req) as [rc|]; cbn [mbind option_bind mailbox_result].
  2:{ intros [Hn _]. by destruct (Hm2 Hn). }
  case_bool_decide as Hrc; cbn [negb mbind option_bind mailbox_result].
  2:{ rewrite bool_decide_false by done. split; [done|]. intros [(_&_&_&Hwf&_) _]. apply Hm1 in Hwf. by injection Hwf. }
  subst rc. pose proof (proj1 Hm1 eq_refl) as Hwf.
  destruct (release_dry_run_spec d req Hd Hwf) as (ret&l'&size&->&Hcase). cbn [mbind option_bind].
  destruct Hcase as [(->&Ha&Hl'&Hc&Hsize)|(Hne&Hno)].
  2:{ rewrite bool_decide_false by done. cbn [negb mbind option_bind mailbox_result]. rewrite bool_decide_false by done. split; [done|]. intros [(_&_&_&_&Ha) Hroom]. by destruct Hno. }
  rewrite bool_decide_true by done. cbn [negb]. pose proof Hd as [L E P O B N T].
  destruct (fill_extents_spec la Hla false (dc_extents d) d _ L B E) as (rs&->&L1&B1). cbn [mbind option_bind]. set (d1 := set_dc_extents l' (set_dc_regions rs d)).
  assert (has_layout la d1) as L1' by (destruct L1; by split).
  destruct (fill_extents_spec la Hla true l' d1 (fun _ => false) L1') as (rs2&->&L2&B2); [|done|].
  { intros i r Hr. refine (shows_ext _ _ _ _ _ _ (B1 i r Hr)). intros x _. cbv beta. by case_goal. }
  cbn [mbind option_bind mailbox_result]. rewrite bool_decide_true by done. split; [done|].
  assert (forall x, accessible (set_dc_counts (wrap32 (dc_total_extent_count d + (size - dc_nr_extents_accepted d))) size (set_dc_regions rs2 d1)) x = access_after (HostRelease p) (accessible d) x) as Hacc.
  { intros x. unfold accessible, access_after. cbn [dc_extents set_dc_counts set_dc_regions d1 set_dc_extents named]. rewrite Hc. fold req. destruct Hwf as [_ Hone]. specialize (Hone x).
    pose proof (cnt_nonneg req x). pose proof (cnt_nonneg (dc_extents d) x). specialize (O x). pose proof (cnt_nonneg (concat (dc_extents_pending d)) x).
    destruct (0 <? cnt req x) eqn:Er; zify_bool; [|replace (cnt req x) with 0 by lia; by rewrite Z.sub_0_r, andb_true_r]. rewrite andb_false_r. apply Z.ltb_ge. lia. }
  split; [split; [done|]; split; [done|]; cbn; by rewrite app_nil_r|].
  split; cbn [dc_extents dc_extents_pending dc_nr_extents_accepted dc_total_extent_count set_dc_counts set_dc_regions d1 set_dc_extents]; try done.
  - destruct L2; by split.
  - intros x. rewrite Hc. specialize (O x). pose proof (cnt_nonneg req x). lia.
  - intros i r Hr. refine (shows_ext _ _ _ _ _ _ (B2 i r Hr)). intros x _. cbv beta. by destruct (0 <? cnt l' x).
  - rewrite Hsize, N, T, wrap32_update. f_equal. lia.
Qed.

(** The first offer covers what is inside of its extents. *)
Lemma within_cnt (g l : list CXLDCExtent) (x : Z) : Forall (fun e => 0 < ex_len e /\ Exists (within e) g) l -> 0 < cnt l x -> 0 < cnt g x.
Proof.
  intros Hl Hx. apply cnt_pos in Hx as (e&He&Hi). rewrite Forall_forall in Hl. destruct (Hl e He) as [_ Hw]. apply Exists_exists in Hw as (e'&He'&Hw).
  apply cnt_pos. exists e'. split; [done|]. apply ind_iff in Hi. apply ind_iff. destruct Hw. lia.
Qed.

Lemma add_rsp_dry_run_spec (d : dynamic_capacity) (l g : list CXLDCExtent) (gs : list (list CXLDCExtent)) : dcd_ok la d -> dc_extents_pending d = g :: gs -> Forall (extent_fits la) l ->
  exists ret, add_rsp_dry_run d l = Some ret /\ (ret = CXL_MBOX_SUCCESS <-> Forall (fun e => 0 < ex_len e /\ Exists (within e) g) l).
Proof.
  intros Hd Hg Hl. pose proof Hd as [L E P O B N T]. rewrite Hg in P, O. cbn [concat] in P, O. apply Forall_app in P as [Pg _].
  induction Hl as [|e l He Hl IH]; [by exists CXL_MBOX_SUCCESS|]. cbn [add_rsp_dry_run]. rewrite Hg. cbn [head].
  destruct (fits_top la Hla e He) as (F0&F1&F2). unfold no_wrap in F2.
  assert (exists r, range_init_nofail (ex_start_dpa e) (ex_len e) = Some r /\ (0 < ex_len e -> r = mkRange (ex_start_dpa e) (ex_start_dpa e + ex_len e - 1))) as (r&->&Hr).
  { destruct (decide (ex_len e = 0)) as [Hz|Hz]; [rewrite Hz, range_init_zero by lia; eexists; split; [reflexivity|lia]|rewrite range_init_pos by lia; eauto]. }
  destruct (contains_spec la Hla e g He Pg) as (c&Ec&Hc). cbn [mbind option_bind]. rewrite Ec. cbn [mbind option_bind]. destruct c; cbn [negb].
  2:{ exists CXL_MBOX_INVALID_PA. split; [done|]. split; [done|]. intros H. apply Forall_cons in H as [H _]. by apply Hc in H. }
  destruct (proj1 Hc eq_refl) as [Hp Hw]. rewrite (Hr Hp). destruct (overlap_spec la Hla e (dc_extents d) Hp E) as (o&->&Ho). cbn [mbind option_bind].
  assert (o = false) as ->.
  { apply Ho. intros x Hx. assert (0 < cnt g x) as Hgx. { apply (within_cnt g [e]); [constructor; [done|constructor]|]. rewrite cnt_cons. pose proof (cnt_nonneg [] x). lia. }
    specialize (O x). rewrite cnt_app in O. pose proof (cnt_nonneg (dc_extents d) x). pose proof (cnt_nonneg (concat gs) x). lia. }
  destruct IH as (ret&->&Hret). exists ret. split; [done|]. rewrite Hret, Forall_cons. naive_solver.
Qed.

Lemma drop_front_ok (d : dynamic_capacity) (g : list CXLDCExtent) (gs : list (list CXLDCExtent)) (n : Z) : dc_extents_pending d = g :: gs -> dc_total_extent_count d = wrap32 n ->
  drop_front d = Some (set_dc_counts (wrap32 (n - Z.of_nat (length g))) (dc_nr_extents_accepted d) (set_dc_pending gs d)).
Proof. intros Hg Hn. unfold drop_front, cxl_extent_group_list_delete_front. rewrite Hg. cbn. rewrite Hn. unfold wrap32. by rewrite Zminus_mod_idemp_l. Qed.

(** The state after an answer that accepts [l] of the first offer. *)
Lemma answer_ok (d : dynamic_capacity) (l g : list CXLDCExtent) (gs : list (list CXLDCExtent)) (rs : list CXLDCRegion) : dcd_ok la d -> dc_extents_pending d = g :: gs ->
  Forall (positive la) l -> (forall x, cnt l x <= 1) -> (forall x, 0 < cnt l x -> 0 < cnt g x) ->
  has_layout la (set_dc_regions rs d) -> shows_all la (set_dc_regions rs d) (fun x => if 0 <? cnt l x then true else 0 <? cnt (dc_extents d) x) ->
  dcd_ok la (set_dc_counts (wrap32 (extents_total d + Z.of_nat (length l) - Z.of_nat (length g))) (wrap32 (Z.of_nat (length (dc_extents d)) + Z.of_nat (length l)))
    (set_dc_pending gs (set_dc_extents (dc_extents d ++ l) (set_dc_regions rs d)))).
Proof.
  intros [L E P O B N T] Hg Hl Hone Hin L' B'. rewrite Hg in P, O, T. cbn [concat] in P, O, T. apply Forall_app in P as [_ Pgs].
  split; cbn [dc_extents dc_extents_pending dc_nr_extents_accepted dc_total_extent_count set_dc_counts set_dc_regions set_dc_pending set_dc_extents].
  - destruct L'; by split.
  - by apply Forall_app.
  - done.
  - intros x. specialize (O x). specialize (Hone x). specialize (Hin x). rewrite cnt_app in *. pose proof (cnt_nonneg l x). pose proof (cnt_nonneg (dc_extents d) x). pose proof (cnt_nonneg (concat gs) x).
    pose proof (cnt_nonneg g x). destruct (decide (0 < cnt l x)) as [Hx|]; [specialize (Hin Hx)|]; lia.
  - intros i r Hr. refine (shows_ext _ _ _ _ _ _ (B' i r Hr)). intros x _. cbv beta. rewrite cnt_app. pose proof (cnt_nonneg l x). pose proof (cnt_nonneg (dc_extents d) x). case_goal; [symmetry; apply Z.ltb_lt; lia|].
    by replace (cnt l x) with 0 by lia; rewrite Z.add_0_r.
  - by rewrite length_app, Nat2Z.inj_add.
  - f_equal. unfold extents_total. rewrite Hg. cbn [concat]. rewrite !length_app. lia.
Qed.

Lemma host_answer_unsolicited (d : dynamic_capacity) (p : CXLUpdateDCExtentListInPl) : dcd_ok la d -> typed (HostAnswer p) -> dc_extents_pending d = [] -> step_correct d (HostAnswer p).
Proof.
  intros Hd (Hnum&Hw&Hp) Hg. unfold step_correct. cbn [dc_step]. unfold cmd_dcd_add_dyn_cap_rsp.
  destruct (up_len_in p <? 8) eqn:E1; zify_bool; [cbn; split; [done|]; intros [(?&_) _]; lia|].
  destruct (_ =? 0) eqn:E2; zify_bool; [unfold drop_front, cxl_extent_group_list_delete_front; rewrite Hg; cbn; by intros [_ ?]|].
  destruct (_ <? _) eqn:E3; zify_bool; [cbn; split; [done|]; intros [(_&[?|(?&_)]) _]; lia|].
  destruct (_ <? wrap32 _) eqn:E4; zify_bool; [cbn; split; [done|]; intros [(_&[?|(_&?&_)]) _]; lia|].
  rewrite (updated_entries_spec p (Hp E3)). cbn [mbind option_bind]. destruct (malformed_spec la Hla d (entries p) (ok_layout la d Hd) (entries_words p Hw)) as [Hm1 Hm2].
  destruct (cxl_detect_malformed_extent_list d (entries p)) as [rc|]; cbn [mbind option_bind mailbox_result]; [|by intros [_ ?]].
  case_bool_decide as Hrc; cbn [negb mbind option_bind mailbox_result]; [|rewrite bool_decide_false by done; split; [done|]; intros [(_&[?|(_&_&Hwf&_)]) _]; [lia|]; apply Hm1 in Hwf; by injection Hwf].
  assert (add_rsp_dry_run d (entries p) = None) as ->; [|by intros [_ ?]]. specialize (Hp E3). unfold entries. destruct (up_updated_entries p) as [|e l]; [cbn in Hp; lia|].
  destruct (Z.to_nat (up_num_entries_updated p)) as [|n] eqn:En; [lia|]. cbn [take add_rsp_dry_run]. rewrite Hg. by destruct (range_init_nofail _ _).
Qed.

Lemma host_answer_correct (d : dynamic_capacity) (p : CXLUpdateDCExtentListInPl) : dcd_ok la d -> typed (HostAnswer p) -> step_correct d (HostAnswer p).
Proof.
  intros Hd (Hnum&Hw&Hp). destruct (dc_extents_pending d) as [|g gs] eqn:Hg; [by apply host_answer_unsolicited|].
  unfold step_correct. cbn [dc_step]. unfold cmd_dcd_add_dyn_cap_rsp. pose proof (ok_total la d Hd) as T. fold (extents_total d) in T. pose proof (ok_nr la d Hd) as N.
  destruct (up_len_in p <? 8) eqn:E1; zify_bool; [cbn; split; [done|]; intros [(?&_) _]; lia|].
  destruct (_ =? 0) eqn:E2; zify_bool.
  { rewrite (drop_front_ok d g gs _ Hg T). cbn [mbind option_bind mailbox_result]. rewrite bool_decide_true by done.
    assert (entries p = []) as Hnil by (unfold entries; by rewrite E2). split; [split; [lia|by left]|]. split.
    - split; [|split; [cbn; by rewrite Hg|cbn; by rewrite app_nil_r]]. intros x. unfold accessible. cbn. rewrite Hnil. by rewrite orb_false_r.
    - pose proof (answer_ok d [] g gs (dc_regions d) Hd Hg) as Hok. rewrite app_nil_r, !Z.add_0_r in Hok. rewrite N. destruct d. apply Hok; try done; [apply Hd|apply Hd]. }
  destruct (_ <? _) eqn:E3; zify_bool; [cbn; split; [done|]; intros [(_&[?|(?&_)]) _]; lia|].
  destruct (_ <? wrap32 _) eqn:E4; zify_bool; [cbn; split; [done|]; intros [(_&[?|(_&?&_)]) _]; lia|].
  rewrite (updated_entries_spec p (Hp E3)). cbn [mbind option_bind]. set (l := entries p). destruct (malformed_spec la Hla d l (ok_layout la d Hd) (entries_words p Hw)) as [Hm1 Hm2].
  destruct (cxl_detect_malformed_extent_list d l) as [rc|]; cbn [mbind option_bind mailbox_result]; [|intros [Hn _]; by destruct (Hm2 Hn)].
  case_bool_decide as Hrc; cbn [negb mbind option_bind mailbox_result]; [|rewrite bool_decide_false by done; split; [done|]; intros [(_&[?|(_&_&Hwf&_)]) _]; [lia|]; apply Hm1 in Hwf; by injection Hwf].
  subst rc. destruct (proj1 Hm1 eq_refl) as [Hf Hone]. destruct (add_rsp_dry_run_spec d l g gs Hd Hg Hf) as (ret&->&Hret). cbn [mbind option_bind].
  case_bool_decide as Hrc; cbn [negb mbind option_bind mailbox_result].
  2:{ rewrite bool_decide_false by done. split; [done|]. intros [(_&[?|(_&_&_&Hin)]) _]; [lia|]. rewrite Hg in Hin. by apply Hret in Hin. }
  pose proof (proj1 Hret Hrc) as Hin. assert (Forall (positive la) l) as Hpos by (apply Forall_forall; intros e He; rewrite Forall_forall in Hf, Hin; split; [by apply Hf|by apply Hin]).
  destruct (accept_extents_spec la Hla l d _ (ok_layout la d Hd) (ok_bitmap la d Hd) Hpos) as (rs&t&n&->&L'&B'&Hc). destruct (Hc _ _ T N) as [-> ->].
  cbn [mbind option_bind]. set (d1 := set_dc_counts _ _ _). rewrite (drop_front_ok d1 g gs (extents_total d + Z.of_nat (length l)) Hg eq_refl). cbn [mbind option_bind mailbox_result]. rewrite bool_decide_true by done.
  split; [refine (conj E1 (or_intror (conj E3 (conj E4 (conj (conj Hf Hone) _))))); rewrite Hg; exact Hin|]. split.
  - split; [|split; [cbn; by rewrite Hg|cbn; by rewrite app_nil_r]]. intros x. unfold accessible. cbn. rewrite cnt_app. fold l. pose proof (cnt_nonneg l x). pose proof (cnt_nonneg (dc_extents d) x).
    destruct (0 <? cnt (dc_extents d) x) eqn:Ea, (0 <? cnt l x) eqn:Eb; zify_bool; cbn; first [apply Z.ltb_lt; lia|apply Z.ltb_ge; lia].
  - exact (answer_ok d l g gs rs Hd Hg Hpos Hone (fun x => within_cnt g l x Hin) L' B').
Qed.

Definition record_extent (base : Z) (rec : Z * Z) : CXLDCExtent := mkExtent (rec.1 + base) rec.2.

Definition record_fits (rec : Z * Z) : Prop := 0 < rec.2 /\ rec.1 mod la_block la = 0 /\ rec.2 mod la_block la = 0 /\ rec.1 + rec.2 <= la_len la.

Definition wanted (type : CXLDCEventType) : bool := match type with DC_EVENT_ADD_CAPACITY => false | DC_EVENT_RELEASE_CAPACITY => true end.

Lemma record_positive (rid : Z) (rec : Z * Z) : 0 <= rid < la_n la -> 0 <= rec.1 -> record_fits rec -> positive la (record_extent (la_base la + rid * la_len la) rec).
Proof.
  intros Hrid H0 (H1&H2&H3&H4). split; [|done]. destruct (lo_len la Hla) as (k&Hk&El). exists rid. cbn. split_and!; try lia.
  replace (rec.1 + (la_base la + rid * la_len la) - la_base la) with (rec.1 + rid * k * la_block la) by lia. pose proof (lo_block la Hla). by rewrite Z.mod_add by lia.
Qed.

(** The question that is asked of each record. *)
Lemma record_question (d : dynamic_capacity) (type : CXLDCEventType) (e : CXLDCExtent) : dcd_ok la d -> positive la e ->
  exists err, match type with
    | DC_EVENT_RELEASE_CAPACITY =>
        pending ← cxl_extent_groups_overlaps_dpa_range (dc_extents_pending d) (ex_start_dpa e) (ex_len e);
        if pending : bool then Some (Some E_release_pending)
        else
          backed ← ct3_test_region_block_backed d (ex_start_dpa e) (ex_len e);
          Some (if backed : bool then None else Some E_release_missing)
    | DC_EVENT_ADD_CAPACITY =>
        accessible ← cxl_extents_overlaps_dpa_range (dc_extents d) (ex_start_dpa e) (ex_len e);
        if accessible : bool then Some (Some E_add_accessible)
        else
          pending ← cxl_extent_groups_overlaps_dpa_range (dc_extents_pending d) (ex_start_dpa e) (ex_len e);
          Some (if pending : bool then Some E_add_pending else None)
    end = Some err /\
    (err = None <-> (forall x, ind e x = 1 -> cnt (concat (dc_extents_pending d)) x = 0) /\ (forall x, ind e x = 1 -> accessible d x = wanted type)).
Proof.
  intros Hd He. pose proof He as [Hf Hp]. destruct (fits_top la Hla e Hf) as (F0&F1&F2). assert (some_bytes e) as Hs by (unfold some_bytes, no_wrap in *; lia).
  destruct (groups_spec la Hla e (dc_extents_pending d) Hs F2 (ok_pending la d Hd)) as (o1&E1&H1). destruct type; cbn [wanted].
  - destruct (overlaps_spec la Hla e (dc_extents d) Hs F2 (ok_extents la d Hd)) as (o2&->&H2). cbn [mbind option_bind].
    assert (o2 = false <-> forall x, ind e x = 1 -> accessible d x = false) as H2' by (rewrite H2; split; intros H x Hx; apply accessible_false, H, Hx).
    destruct o2; [eexists; split; [reflexivity|]; split; [done|]; intros [_ H]; by apply H2' in H|]. rewrite E1. cbn [mbind option_bind]. eexists. split; [reflexivity|].
    destruct o1; [split; [done|]; intros [H _]; by apply H1 in H|]. split; [|done]. intros _. split; [by apply H1|by apply H2'].
  - rewrite E1. cbn [mbind option_bind]. destruct o1; [eexists; split; [reflexivity|]; split; [done|]; intros [H _]; by apply H1 in H|].
    destruct (test_fits la Hla d e _ (ok_layout la d Hd) (ok_bitmap la d Hd) Hf) as (t&->&Ht). cbn [mbind option_bind]. eexists. split; [reflexivity|].
    destruct t; [|split; [done|]; intros [_ H]; by apply Ht in H]. split; [|done]. intros _. split; [by apply H1|by apply Ht].
Qed.

Definition records_granted (d : dynamic_capacity) (type : CXLDCEventType) (seen l : list CXLDCExtent) (records : list (Z * Z)) : Prop :=
  Forall record_fits records /\ (forall x, cnt seen x + cnt l x <= 1) /\ unoffered d l /\ all_access d (wanted type) l.

Lemma records_granted_cons (d : dynamic_capacity) (type : CXLDCEventType) (seen l : list CXLDCExtent) (e : CXLDCExtent) (rec : Z * Z) (records : list (Z * Z)) :
  records_granted d type seen (e :: l) (rec :: records) <->
  record_fits rec /\ (forall x, cnt seen x + ind e x <= 1) /\
  ((forall x, ind e x = 1 -> cnt (concat (dc_extents_pending d)) x = 0) /\ (forall x, ind e x = 1 -> accessible d x = wanted type)) /\ records_granted d type (seen ++ [e]) l records.
Proof.
  unfold records_granted, unoffered, all_access. rewrite (cnt_forall (e :: l) (fun x => cnt (concat (dc_extents_pending d)) x = 0)), (cnt_forall l (fun x => cnt (concat (dc_extents_pending d)) x = 0)),
    (cnt_forall (e :: l) (fun x => accessible d x = wanted type)), (cnt_forall l (fun x => accessible d x = wanted type)), !Forall_cons.
  assert ((forall x, cnt seen x + cnt (e :: l) x <= 1) <-> (forall x, cnt seen x + ind e x <= 1) /\ (forall x, cnt (seen ++ [e]) x + cnt l x <= 1)) as ->; [|naive_solver].
  split; [intros H; split|intros [_ H]]; intros x; specialize (H x); rewrite ?cnt_snoc, ?cnt_cons in *; pose proof (cnt_nonneg l x); lia.
Qed.

Lemma check_records_spec (d : dynamic_capacity) (type : CXLDCEventType) (rid : Z) (r : CXLDCRegion) (records : list (Z * Z)) (map : list bool) (seen : list CXLDCExtent) :
  dcd_ok la d -> 0 <= rid < la_n la -> dr_base r = la_base la + rid * la_len la -> dr_len r = la_len la -> dr_block_size r = la_block la ->
  Z.of_nat (length map) * la_block la = la_len la -> shows (la_block la) (dr_base r) map (fun x => 0 <? cnt seen x) -> (forall x, cnt seen x <= 1) ->
  Forall (fun '(offset, len) => u64 offset /\ u64 len) records ->
  match check_records d type r map records with
  | None => ~ Forall (fun '(offset, len) => offset + len < 2 ^ 64) records
  | Some (inl _) => ~ records_granted d type seen (record_extent (dr_base r) <$> records) records
  | Some (inr l) => l = record_extent (dr_base r) <$> records /\ records_granted d type seen l records
  end.
Proof.
  intros Hd Hrid Hb Hl Hbs. revert map seen. induction records as [|[offset len] records IH]; intros map seen Hlen Hs Hone Hu; [cbn; split; [done|]; split_and!; [constructor| |by intros x Hx|by intros x Hx]; intros x; specialize (Hone x); change (cnt [] x) with 0; lia|].
  apply Forall_cons in Hu as [[Hu1 Hu2] Hu]. unfold u64 in Hu1, Hu2. pose proof (lo_block la Hla) as HB. cbn [check_records fmap list_fmap]. rewrite Hbs, Hl.
  destruct (len =? 0) eqn:E0; zify_bool; [intros ((?&_)&_)%records_granted_cons; cbn in *; lia|].
  destruct (_ || _) eqn:Eal; [intros ((_&M1&M2&_)&_)%records_granted_cons; cbn in M1, M2; by rewrite M1, M2 in Eal|]. apply orb_false_iff in Eal as [M1 M2]. apply negb_false_iff in M1, M2. zify_bool.
  pose proof (region_top la Hla rid Hrid) as Htop. pose proof (layout_len la Hla) as HL. pose proof (lo_base la Hla) as Hb0.
  destruct (la_len la <? offset ⊞ len) eqn:Eb; zify_bool.
  { intros ((_&_&_&Hx)&_)%records_granted_cons. cbn in Hx. rewrite wrap64_small in Eb by (unfold u64; nia). lia. }
  assert (exists q, offset = q * la_block la) as [q Hq] by (apply Z.mod_divide in M1 as [q Hq]; [eauto|lia]).
  assert (exists k, len = k * la_block la) as [k Hk] by (apply Z.mod_divide in M2 as [k Hk]; [eauto|lia]).
  assert (offset / la_block la = q) as -> by (rewrite Hq; apply Z.div_mul; lia). assert (len / la_block la = k) as -> by (rewrite Hk; apply Z.div_mul; lia).
  destruct (decide (offset + len < 2 ^ 64)) as [Hnw|Hnw].
  2:{ assert (test_any_bits_set map q k = None) as ->; [|cbn; intros H; by apply Forall_cons in H as [? _]].
      unfold test_any_bits_set, find_next. rewrite (proj2 (Z.leb_gt _ _)) by nia. assert (in_bits q (k + q - q) map = false) as ->; [|done].
      unfold in_bits. apply andb_false_iff. right. apply Z.leb_gt. nia. }
  rewrite wrap64_small in Eb by (unfold u64; lia). assert (record_fits (offset, len)) as Hfit by (unfold record_fits; cbn; split_and!; lia || done).
  rewrite (wrap64_small (offset + dr_base r)) by (unfold u64; nia). set (e := record_extent (dr_base r) (offset, len)).
  assert (positive la e) as He by (unfold e; rewrite Hb; apply record_positive; [done|cbn; lia|done]).
  destruct (scratch_add (la_block la) (dr_base r) map seen e q k HB Hs Hone) as (any&->&Hany&Hfill); [cbn; lia|done|nia|nia|nia|]. cbn [mbind option_bind].
  destruct any.
  { intros (_&Hc&_)%records_granted_cons. by apply Hany in Hc. }
  destruct (Hfill eq_refl) as (map'&->&Hlen'&Hs'). cbn [mbind option_bind].
  destruct (record_question d type e Hd He) as (err&Eq&Herr). change (offset + dr_base r) with (ex_start_dpa e). change len with (ex_len e). rewrite Eq. cbn [mbind option_bind].
  destruct err as [err|].
  { intros (_&_&HQ&_)%records_granted_cons. by apply Herr in HQ. }
  specialize (IH map' (seen ++ [e]) ltac:(by rewrite Hlen') Hs' ltac:(intros x; rewrite cnt_snoc; by apply Hany) Hu).
  destruct (check_records d type r map' records) as [[e'|l]|]; cbn [mbind option_bind].
  - intros (_&_&_&H)%records_granted_cons. done.
  - destruct IH as [-> IH]. split; [done|]. apply records_granted_cons. split_and!; [done..|by apply Hany|by apply Herr|by apply Herr|done].
  - intros H. by apply Forall_cons in H as [_ ?].
Qed.

Lemma named_records (type : CXLDCEventType) (rid : Z) (records : list (Z * Z)) : named (OperatorRequest type rid records) = record_extent (la_base la + rid * la_len la) <$> records.
Proof. cbn [named]. apply list_fmap_ext. by intros _ [offset len] _. Qed.

Lemma operator_granted (d : dynamic_capacity) (type : CXLDCEventType) (rid : Z) (records : list (Z * Z)) :
  granted d (OperatorRequest type rid records) <-> rid < la_n la /\ records_granted d type [] (named (OperatorRequest type rid records)) records.
Proof.
  unfold granted, records_granted. assert (Forall record_fits records <-> Forall (fun '(offset, len) => 0 < len /\ offset mod la_block la = 0 /\ len mod la_block la = 0 /\ offset + len <= la_len la) records) as ->.
  { split; intros H; apply (Forall_impl _ _ _ H); by intros [offset len]. }
  unfold wanted. destruct type; naive_solver.
Qed.

Lemma events_ok (d : dynamic_capacity) (ev : list dc_event) : dcd_ok la d -> dcd_ok la (set_dc_events ev d).
Proof. intros [L E P O B N T]. split; try done. destruct L; by split. Qed.

Lemma operator_correct (d : dynamic_capacity) (type : CXLDCEventType) (rid : Z) (records : list (Z * Z)) :
  dcd_ok la d -> typed (OperatorRequest type rid records) -> step_correct d (OperatorRequest type rid records).
Proof.
  intros Hd [Hrid Hu]. pose proof (ok_layout la d Hd) as L. pose proof (hl_count la d L) as Hcount. pose proof (lo_n la Hla). pose proof (lo_block la Hla). destruct (lo_len la Hla) as (kl&Hkl&El).
  unfold step_correct. cbn [dc_step]. unfold qmp_cxl_process_dynamic_capacity_prescriptive. rewrite bool_decide_false by (intros E; rewrite E in Hcount; cbn in Hcount; lia).
  destruct (dc_regions d !! Z.to_nat rid) as [r|] eqn:Hr; cbn [mbind option_bind].
  2:{ split; [done|]. intros [[Hg _]%operator_granted _]. apply lookup_ge_None in Hr. lia. }
  pose proof (lookup_lt_Some _ _ _ Hr). destruct (region_blocks la d _ r L Hr) as (Rb&Rl&Rs&_). rewrite Z2Nat.id in Rb by lia.
  assert (dr_len r / dr_block_size r = kl) as -> by (rewrite Rl, Rs, El; apply Z.div_mul; lia).
  pose proof (check_records_spec d type rid r records (replicate (Z.to_nat kl) false) [] Hd ltac:(lia) Rb Rl Rs) as Hspec.
  specialize (Hspec ltac:(rewrite length_replicate, Z2Nat.id by lia; done) (shows_new (la_block la) (dr_base r) (Z.to_nat kl) ltac:(lia)) ltac:(done) Hu). rewrite Rb, <- (named_records type) in Hspec.
  destruct (check_records _ _ _ _ _) as [[e|l]|]; cbn [mbind option_bind].
  - split; [done|]. intros [[_ Hg]%operator_granted _]. done.
  - destruct Hspec as [-> Hg]. split; [apply operator_granted; split; [lia|done]|]. destruct Hg as (Hf&Hone&Hun&Hac). set (l := named _) in *.
    assert (Forall (positive la) l) as Hpos.
    { unfold l. rewrite named_records. apply Forall_fmap, Forall_forall. intros rec Hrec. cbn. rewrite Forall_forall in Hf, Hu. apply record_positive; [lia| |by apply Hf].
      specialize (Hu rec Hrec). destruct rec. by destruct Hu as [[? _] _]. }
    destruct type; cbn [wanted] in *.
    + destruct l as [|e0 l0] eqn:Enil; rewrite <- ?Enil in *.
      * split; [|by apply events_ok]. split; [done|]. unfold offers_after, events_after. fold l. rewrite Enil. split; reflexivity.
      * split; [|exact (offer_ok d l (dc_events d ++ event_records DC_EVENT_ADD_CAPACITY l) Hd Hpos Hone Hun Hac)]. split; [done|]. unfold offers_after, events_after. fold l. rewrite Enil. split; reflexivity.
    + split; [|by apply events_ok]. done.
  - intros [_ H']. done.
Qed.

Lemma step_ok (d : dynamic_capacity) (o : dc_op) : dcd_ok la d -> typed o -> step_correct d o.
Proof.
  intros Hd Ht. destruct o; [by apply operator_correct|by apply manager_add_correct|by apply manager_release_correct|by apply host_answer_correct|by apply host_release_correct].
Qed.
End Contract.

(** ** Accesses *)
Section Accesses.
Context (la : layout) (Hla : layout_ok la).

(** The bytes of a block are accessible together. *)
Lemma block_together (d : dynamic_capacity) (x y : Z) : dcd_ok la d -> la_base la <= x < la_base la + la_n la * la_len la ->
  (x - la_base la) / la_block la = (y - la_base la) / la_block la -> accessible d y = accessible d x.
Proof.
  intros Hd Hx Hq. pose proof (layout_len la Hla) as HL. pose proof (lo_block la Hla) as HB. destruct (lo_len la Hla) as (k&Hk&Hlen).
  set (i := (x - la_base la) / la_len la). assert (la_base la + i * la_len la <= x < la_base la + (i + 1) * la_len la) as Hi by (by apply block_bounds).
  set (q := (y - la_base la) / la_block la) in *. assert (la_base la + q * la_block la <= x < la_base la + (q + 1) * la_block la) as Hqx by (by apply block_bounds).
  assert (la_base la + q * la_block la <= y < la_base la + (q + 1) * la_block la) as Hqy by (by apply block_bounds).
  assert (0 <= i < la_n la) as Hin by nia. destruct (region_lookup la d i (ok_layout la d Hd) Hin) as [r Hreg].
  destruct (region_blocks la d _ r (ok_layout la d Hd) Hreg) as (Rb&_&_&Rn). rewrite Z2Nat.id in Rb by lia. pose proof (ok_bitmap la d Hd (Z.to_nat i) r Hreg) as Hshow.
  assert (i * k < q + 1) by (apply (Z.mul_lt_mono_pos_r (la_block la)); [done|]; rewrite Hlen in Hi; lia).
  assert (q < (i + 1) * k) by (apply (Z.mul_lt_mono_pos_r (la_block la)); [done|]; rewrite Hlen in Hi; lia).
  assert (la_base la + i * la_len la <= y < la_base la + (i + 1) * la_len la) as Hy by (rewrite Hlen; clear Hshow Rn; nia).
  pose proof (Hshow x ltac:(rewrite Rn; lia)) as S1. pose proof (Hshow y ltac:(rewrite Rn; lia)) as S2.
  assert ((x - dr_base r) / la_block la = q - i * k) as Hz1 by (apply block_bounds; [done|]; rewrite Rb, Hlen; clear -Hqx; nia).
  assert ((y - dr_base r) / la_block la = q - i * k) as Hz2 by (apply block_bounds; [done|]; rewrite Rb, Hlen; clear -Hqy; nia).
  rewrite Hz1 in S1. rewrite Hz2, S1 in S2. injection S2 as S2. unfold accessible. by rewrite S2.
Qed.

(** The test of an access of at most a block looks at the block of its first byte. *)
Lemma access_first_block (d : dynamic_capacity) (x size i : Z) : dcd_ok la d -> 0 <= i < la_n la -> la_base la + i * la_len la <= x -> 0 < size <= la_block la ->
  x + size <= la_base la + (i + 1) * la_len la -> ct3_test_region_block_backed d x size = Some (accessible d x).
Proof.
  intros Hd Hi Hx Hs Hend. pose proof (layout_len la Hla) as HL. pose proof (lo_block la Hla) as HB.
  destruct (test_region_spec la Hla d x size i _ (ok_layout la d Hd) (ok_bitmap la d Hd)) as (t&->&Ht); [done|lia|lia|done|].
  assert ((size + la_block la - 1) / la_block la = 1) as Hq by (symmetry; apply (Z.div_unique_pos _ _ _ (size - 1)); lia). rewrite Hq in Ht.
  set (q := (x - la_base la) / la_block la) in *. assert (la_base la + q * la_block la <= x < la_base la + (q + 1) * la_block la) as Hqx by (by apply block_bounds).
  assert (la_base la <= x < la_base la + la_n la * la_len la) as Hin by nia.
  f_equal. destruct (accessible d x) eqn:Ea.
  - apply Ht. intros y Hy. change (accessible d y = true). rewrite (block_together d x y Hd Hin); [done|]. symmetry. by apply block_bounds.
  - destruct t; [|done]. pose proof (proj1 Ht eq_refl x Hqx) as E. change (accessible d x = true) in E. congruence.
Qed.
End Accesses.

(** ** Devices that were created and used *)
Definition created_layout (num_regions dc_size vmem_size pmem_size : Z) : layout := mkLayout (vmem_size + pmem_size) num_regions (dc_size / num_regions) (2 * 2 ^ 20).

(** The sizes of a device that can be created; the addresses leave a block to the top. *)
Definition sizes_ok (num_regions dc_size vmem_size pmem_size : Z) : Prop :=
  0 < num_regions /\ 0 < dc_size /\ 0 <= vmem_size /\ 0 <= pmem_size /\ vmem_size + pmem_size + dc_size + 2 * 2 ^ 20 <= 2 ^ 64.

Lemma region_list_lookup (n : nat) (base len : Z) (i : nat) (r : CXLDCRegion) :
  0 <= base -> 0 <= len -> base + Z.of_nat n * len < 2 ^ 64 -> dc_region_list n base len !! i = Some r ->
  r = mkRegion (base + Z.of_nat i * len) len (2 * 2 ^ 20) (replicate (Z.to_nat (len / (2 * 2 ^ 20))) false).
Proof.
  revert base i. induction n as [|n IH]; intros base [|i] Hb Hl Htop H; [done|done|..].
  - cbn [dc_region_list lookup list_lookup] in H. injection H as <-. by rewrite Z.add_0_r.
  - cbn [dc_region_list] in H. change ((?x :: ?l) !! S i) with (l !! i) in H. rewrite wrap64_small in H by (unfold u64; nia).
    rewrite (IH (base + len) i) by (done || nia). f_equal. lia.
Qed.

Lemma region_list_length (n : nat) (base len : Z) : length (dc_region_list n base len) = n.
Proof. revert base. induction n as [|n IH]; intros base; cbn; [done|]. by rewrite IH. Qed.

Lemma created_ok (num_regions dc_size vmem_size pmem_size : Z) (d : dynamic_capacity) :
  sizes_ok num_regions dc_size vmem_size pmem_size -> cxl_create_dc_regions num_regions dc_size vmem_size pmem_size = Some (Some d) ->
  let la := created_layout num_regions dc_size vmem_size pmem_size in
  layout_ok la /\ dcd_ok la d /\ exists k, 0 < k /\ la_len la = k * 128 * la_block la.
Proof.
  intros (Hn&Hs&Hv&Hp&Htop) H la. unfold cxl_create_dc_regions, CXL_CAPACITY_MULTIPLIER in H. case_in H; try done. injection H as <-.
  repeat match goal with H : negb _ = false |- _ => apply negb_false_iff in H end. zify_bool.
  match goal with H : dc_size mod _ = 0 |- _ => apply Z.mod_divide in H as [c Hc]; [|lia] end.
  assert (dc_size / num_regions = c * (256 * 2 ^ 20)) as Hq by (symmetry; apply Z.div_unique_exact; lia).
  assert ((dc_size + num_regions - 1) / num_regions = c * (256 * 2 ^ 20)) as Hup by (symmetry; apply (Z.div_unique_pos _ _ _ (num_regions - 1)); lia).
  assert (0 < c) as Hc0 by nia. rewrite Hup. rewrite (wrap64_small (vmem_size + pmem_size)) by (unfold u64; lia). rewrite (wrap64_small (num_regions * _)) by (unfold u64; nia).
  assert (forall i r, dc_region_list (Z.to_nat num_regions) (vmem_size + pmem_size) (c * (256 * 2 ^ 20)) !! i = Some r ->
    r = mkRegion (vmem_size + pmem_size + Z.of_nat i * (c * (256 * 2 ^ 20))) (c * (256 * 2 ^ 20)) (2 * 2 ^ 20) (replicate (Z.to_nat (c * 128)) false)) as Hreg.
  { intros i r Hr. apply region_list_lookup in Hr as ->; [|lia|lia|nia]. f_equal. f_equal. f_equal. rewrite <- (Z.div_mul (c * 128) (2 * 2 ^ 20)) by lia. f_equal. lia. }
  split_and!.
  - split; cbn; [lia|lia|lia|exists (c * 128); lia|rewrite Hq; nia].
  - split; cbn [dc_extents dc_extents_pending concat]; [|constructor|constructor|intros x; unfold cnt; cbn; lia| |done|done].
    + split; cbn [dc_regions dc_total_capacity la created_layout la_n la_len la_base la_block]; [rewrite region_list_length; lia|rewrite Hq; lia|].
      intros i r Hr. rewrite (Hreg i r Hr), Hq. cbn. rewrite length_replicate. split_and!; lia.
    + intros i r Hr. cbn [dc_regions] in Hr. rewrite (Hreg i r Hr). apply (shows_new (2 * 2 ^ 20)). lia.
  - exists c. cbn. rewrite Hq. lia.
Qed.

Section Device.
Context (num_regions dc_size vmem_size pmem_size : Z).
Let la := created_layout num_regions dc_size vmem_size pmem_size.

Inductive dcd_reachable : dynamic_capacity -> Prop :=
| dcd_created d : sizes_ok num_regions dc_size vmem_size pmem_size -> cxl_create_dc_regions num_regions dc_size vmem_size pmem_size = Some (Some d) -> dcd_reachable d
| dcd_next d o b d' : dcd_reachable d -> typed o -> dc_step d o = Some (b, d') -> dcd_reachable d'.

Lemma reachable_ok (d : dynamic_capacity) : dcd_reachable d -> layout_ok la /\ dcd_ok la d /\ sizes_ok num_regions dc_size vmem_size pmem_size /\
  (exists k, 0 < k /\ la_len la = k * 128 * la_block la) /\ la_n la * la_len la = dc_size.
Proof.
  induction 1 as [d Hs H|d o b d' _ (Hla&Hd&Hs&Hk&Ht) To H].
  - destruct (created_ok _ _ _ _ d Hs H) as (Hla&Hd&Hk). split_and!; try done. unfold la. cbn. unfold cxl_create_dc_regions in H. destruct Hs as (Hn&_). case_in H; try done.
    match goal with H : negb (dc_size mod _ =? 0) = false |- _ => apply negb_false_iff, Z.eqb_eq in H as Hm end. apply Z.mod_divide in Hm as [c Hc]; [|unfold CXL_CAPACITY_MULTIPLIER in *; lia].
    rewrite Hc. symmetry. rewrite <- (Z.div_unique_exact (c * (num_regions * CXL_CAPACITY_MULTIPLIER)) num_regions (c * CXL_CAPACITY_MULTIPLIER)) by lia. lia.
  - pose proof (step_ok la Hla d o Hd To) as Hstep. unfold step_correct in Hstep. rewrite H in Hstep. split_and!; try done. destruct b; [by destruct Hstep as (_&_&?)|by destruct Hstep as [-> _]].
Qed.


(** In every reachable state no byte is in two extents, be they accepted or offered, every
    extent is made of whole blocks of one region, a block is backed exactly when it is accessible,
    and the counters count the extents. *)
Theorem dcd_reachable_ok (d : dynamic_capacity) (Hr : dcd_reachable d) :
  (forall x, cnt (dc_extents d) x + cnt (concat (dc_extents_pending d)) x <= 1) /\
  Forall (fun e => extent_fits la e /\ 0 < ex_len e) (dc_extents d ++ concat (dc_extents_pending d)) /\
  (forall x, vmem_size + pmem_size <= x < vmem_size + pmem_size + dc_size -> ct3_test_region_block_backed d x 1 = Some (accessible d x)) /\
  dc_nr_extents_accepted d = wrap32 (Z.of_nat (length (dc_extents d))) /\
  dc_total_extent_count d = wrap32 (Z.of_nat (length (dc_extents d)) + Z.of_nat (length (concat (dc_extents_pending d)))).
Proof.
  destruct (reachable_ok d Hr) as (Hla&Hd&_&(k&Hk&Hlen)&Htot). pose proof Hd as [L E P O B N T]. split_and!; [done|by apply Forall_app| |done|done].
  intros x Hx. pose proof (layout_len la Hla) as HL. pose proof (lo_block la Hla). change (vmem_size + pmem_size) with (la_base la) in Hx.
  set (i := (x - la_base la) / la_len la). assert (la_base la + i * la_len la <= x < la_base la + (i + 1) * la_len la) as Hi by (by apply block_bounds).
  apply (access_first_block la Hla d x 1 i Hd); [clearbody la; nia|lia|lia|lia].
Qed.


Lemma access_in_block (d : dynamic_capacity) (x size : Z) (Hr : dcd_reachable d)
    (Hx : vmem_size + pmem_size <= x < vmem_size + pmem_size + dc_size) (Hs : 0 < size) (Hb : (x - (vmem_size + pmem_size)) mod (2 * 2 ^ 20) + size <= 2 * 2 ^ 20) :
  ct3_test_region_block_backed d x size = Some (accessible d x) /\ forall y, x <= y < x + size -> accessible d y = accessible d x.
Proof.
  destruct (reachable_ok d Hr) as (Hla&Hd&_&(k&Hk&Hlen)&Htot). pose proof (layout_len la Hla) as HL. pose proof (lo_block la Hla) as HB.
  change (vmem_size + pmem_size) with (la_base la) in *. change (2 * 2 ^ 20) with (la_block la) in Hb.
  set (q := (x - la_base la) / la_block la). pose proof (Z.div_mod (x - la_base la) (la_block la) ltac:(lia)) as Hdm. pose proof (Z.mod_pos_bound (x - la_base la) (la_block la) HB) as Hmod. fold q in Hdm.
  clearbody la. set (i := (x - la_base la) / la_len la). assert (la_base la + i * la_len la <= x < la_base la + (i + 1) * la_len la) as Hi by (by apply block_bounds). split.
  - apply (access_first_block la Hla d x size i Hd); [nia|lia|lia|].
    assert (q < (i + 1) * (k * 128)) by (apply (Z.mul_lt_mono_pos_r (la_block la)); [done|]; rewrite Hlen in Hi; lia). rewrite Hlen. nia.
  - intros y Hy. apply (block_together la Hla d x y Hd); [lia|]. fold q. symmetry. apply block_bounds; [done|]. lia.
Qed.

(** An access that stays in a block of the dynamic capacity is let through exactly when its
    bytes are accessible to the host. *)
Theorem dcd_access_exact (d : dynamic_capacity) (x size : Z) (Hr : dcd_reachable d)
    (Hx : vmem_size + pmem_size <= x < vmem_size + pmem_size + dc_size) (Hs : 0 < size) (Hb : (x - (vmem_size + pmem_size)) mod (2 * 2 ^ 20) + size <= 2 * 2 ^ 20) :
  ct3_test_region_block_backed d x size = Some (accessible d x) /\ forall y, x <= y < x + size -> accessible d y = accessible d x.
Proof. by apply access_in_block. Qed.

(** ** Defects *)

(** An access that crosses from an accessible block into the next is let through, whatever the
    next block is. *)
Theorem dcd_access_straddles (d : dynamic_capacity) (x size : Z) (Hr : dcd_reachable d) (Hx : vmem_size + pmem_size <= x) (Hs : 0 < size <= 2 * 2 ^ 20)
    (Hin : x + size <= vmem_size + pmem_size + dc_size / num_regions) (Ha : accessible d x = true) (Hn : accessible d (x + size - 1) = false) :
  ct3_test_region_block_backed d x size = Some true.
Proof.
  destruct (reachable_ok d Hr) as (Hla&Hd&_&_&Htot). pose proof (lo_n la Hla). rewrite <- Ha. change (vmem_size + pmem_size) with (la_base la) in *. change (dc_size / num_regions) with (la_len la) in Hin.
  apply (access_first_block la Hla d x size 0 Hd); [lia|lia|done|lia].
Qed.

(** A host that answers when nothing is offered follows a null pointer. *)
Theorem dcd_response_unsolicited (d : dynamic_capacity) (p : CXLUpdateDCExtentListInPl) (Hr : dcd_reachable d) (Hp : dc_extents_pending d = [])
    (Hlen : 8 <= up_len_in p) (Hz : up_num_entries_updated p = 0) : cmd_dcd_add_dyn_cap_rsp p d = None.
Proof.
  unfold cmd_dcd_add_dyn_cap_rsp. rewrite (proj2 (Z.ltb_ge _ _)) by lia. rewrite Hz. cbn [Z.eqb]. unfold drop_front, cxl_extent_group_list_delete_front. by rewrite Hp.
Qed.

(** C40. A host that releases a range whose end wraps makes the check of the list read far outside of
    its bitmap. *)
Theorem dcd_length_wraps (d : dynamic_capacity) (Hr : dcd_reachable d) :
  cmd_dcd_release_dyn_cap (mkUpdate 32 1 [mkExtent (vmem_size + pmem_size + 2 * 2 ^ 20) (2 ^ 64 - 2 * 2 ^ 20)]) d = None.
Proof.
  destruct (reachable_ok d Hr) as (Hla&Hd&(Hn&Hdc&Hv&Hp&Htop)&(k&Hk&Hlen)&Htot). set (e := mkExtent _ _).
  assert (cxl_detect_malformed_extent_list d [e] = None) as Hm; [|clearbody e; unfold cmd_dcd_release_dyn_cap; change (updated_entries _) with (Some [e]); cbn [mbind option_bind]; by rewrite Hm].
  change (la_len la = k * 128 * (2 * 2 ^ 20)) in Hlen.
  apply (malformed_wraps la Hla d e 0 1 (2 ^ 43 - 1) (ok_layout la d Hd)); cbn [ex_start_dpa ex_len e]; change (la_base la) with (vmem_size + pmem_size); change (la_block la) with (2 * 2 ^ 20); change (la_n la) with num_regions; try lia.
  - split; unfold u64; cbn; lia.
  - unfold no_wrap. cbn. lia.
  - unfold wrap64. replace (_ + _ + _ + _) with (vmem_size + pmem_size + 1 * 2 ^ 64) by lia. rewrite Z.mod_add, Z.mod_small by lia. lia.
Qed.

(** The list that the host reads is counted with the extents that are only offered: the answer
    claims more records than it holds. *)
Theorem dcd_list_overcounts (d : dynamic_capacity) (extent_cnt : Z) (Hr : dcd_reachable d) (Hp : concat (dc_extents_pending d) <> [])
    (Hfew : Z.of_nat (length (dc_extents d)) < 50) (Hmany : Z.of_nat (length (concat (dc_extents_pending d))) < 2 ^ 15) (Hcnt : Z.of_nat (length (dc_extents d)) < extent_cnt < 2 ^ 16) :
  exists count records, cmd_dcd_get_dyn_cap_ext_list extent_cnt 0 d = (CXL_MBOX_SUCCESS, count, records) /\ records = dc_extents d /\ Z.of_nat (length records) < count.
Proof.
  destruct (reachable_ok d Hr) as (_&[_ _ _ _ _ N T]&_). unfold cmd_dcd_get_dyn_cap_ext_list. rewrite N, T, Z.sub_0_r.
  assert (0 < Z.of_nat (length (concat (dc_extents_pending d)))) as Hpos by (destruct (concat (dc_extents_pending d)); [done|cbn; lia]).
  set (a := Z.of_nat (length (dc_extents d))) in *. set (b := Z.of_nat (length (concat (dc_extents_pending d)))) in *. rewrite !(wrap32_small (a + b)), (wrap32_small a) by lia.
  rewrite (proj2 (Z.ltb_ge _ _)) by lia. change ((2048 - 16) / 40) with 50. rewrite Z.mod_small by lia. eexists _, _. split; [reflexivity|]. change (drop (Z.to_nat 0) (dc_extents d)) with (dc_extents d).
  rewrite take_ge by (unfold a, b in *; lia). split; [done|fold a; lia].
Qed.
End Device.

(** ** Witnesses *)
Fixpoint dc_run (d : dynamic_capacity) (os : list dc_op) : option dynamic_capacity :=
  match os with
  | [] => Some d
  | o :: os' => '(_, d) ← dc_step d o; dc_run d os'
  end.

Lemma dc_run_reachable (n s v p : Z) (os : list dc_op) (d d' : dynamic_capacity) : dcd_reachable n s v p d -> Forall typed os -> dc_run d os = Some d' -> dcd_reachable n s v p d'.
Proof.
  intros Hr Ht. revert d Hr. induction Ht as [|o os Ho Hos IH]; intros d Hr H; [by injection H as <-|]. cbn [dc_run] in H.
  destruct (dc_step d o) as [[b d1]|] eqn:E; [|done]. cbn in H. apply (IH d1); [by apply (dcd_next n s v p d o b)|done].
Qed.

Definition demo_new : dynamic_capacity := match cxl_create_dc_regions 1 (256 * 2 ^ 20) 0 0 with Some (Some d) => d | _ => mkDc 0 [] [] 0 0 [] [] end.

(** A manager offers four megabytes, the host accepts them and gives two back, and the operator
    offers two more. *)
Definition demo_ops : list dc_op :=
  [ManagerAdd 2 [mkExtent 0 (4 * 2 ^ 20)]; HostAnswer (mkUpdate 32 1 [mkExtent 0 (4 * 2 ^ 20)]); HostRelease (mkUpdate 32 1 [mkExtent (2 * 2 ^ 20) (2 * 2 ^ 20)]);
   OperatorRequest DC_EVENT_ADD_CAPACITY 0 [(8 * 2 ^ 20, 2 * 2 ^ 20)]].

Definition demo_dc : dynamic_capacity := default demo_new (dc_run demo_new demo_ops).

Definition demo_answer : dc_op := HostAnswer (mkUpdate 32 1 [mkExtent (8 * 2 ^ 20) (2 * 2 ^ 20)]).

Lemma demo_new_reachable : dcd_reachable 1 (256 * 2 ^ 20) 0 0 demo_new.
Proof. apply dcd_created; [unfold sizes_ok; lia|vm_compute; reflexivity]. Qed.

Lemma demo_dc_reachable : dcd_reachable 1 (256 * 2 ^ 20) 0 0 demo_dc.
Proof.
  apply (dc_run_reachable _ _ _ _ demo_ops demo_new); [apply demo_new_reachable| |vm_compute; reflexivity].
  repeat (apply Forall_cons; split); try apply Forall_nil; cbn; unfold some_bytes, words, u64; cbn; repeat (split || constructor || intros); cbn; lia.
Qed.

Lemma dcd_reachable_ok_witness : ct3_test_region_block_backed demo_dc 100 1 = Some (accessible demo_dc 100) /\ accessible demo_dc 100 = true.
Proof. split; [|vm_compute; reflexivity]. apply (dcd_reachable_ok _ _ _ _ demo_dc demo_dc_reachable). lia. Defined.


Lemma dcd_access_exact_witness : ct3_test_region_block_backed demo_dc (2 * 2 ^ 20 - 8) 8 = Some true /\ ct3_test_region_block_backed demo_dc (2 * 2 ^ 20) 8 = Some false.
Proof.
  split; [refine (eq_trans (proj1 (dcd_access_exact 1 (256 * 2 ^ 20) 0 0 demo_dc (2 * 2 ^ 20 - 8) 8 demo_dc_reachable _ _ _)) _)|refine (eq_trans (proj1 (dcd_access_exact 1 (256 * 2 ^ 20) 0 0 demo_dc (2 * 2 ^ 20) 8 demo_dc_reachable _ _ _)) _)];
    try lia; vm_compute; done || reflexivity.
Defined.

Lemma dcd_access_straddles_witness : ct3_test_region_block_backed demo_dc (2 * 2 ^ 20 - 4) 8 = Some true.
Proof. apply (dcd_access_straddles 1 (256 * 2 ^ 20) 0 0 demo_dc (2 * 2 ^ 20 - 4) 8 demo_dc_reachable); try lia; vm_compute; done || reflexivity. Defined.

Lemma dcd_response_unsolicited_witness : cmd_dcd_add_dyn_cap_rsp (mkUpdate 8 0 []) demo_new = None.
Proof. apply (dcd_response_unsolicited 1 (256 * 2 ^ 20) 0 0 demo_new (mkUpdate 8 0 []) demo_new_reachable); done. Defined.

Lemma dcd_length_wraps_witness : cmd_dcd_release_dyn_cap (mkUpdate 32 1 [mkExtent (0 + 0 + 2 * 2 ^ 20) (2 ^ 64 - 2 * 2 ^ 20)]) demo_dc = None.
Proof. apply (dcd_length_wraps 1 (256 * 2 ^ 20) 0 0 demo_dc demo_dc_reachable). Defined.

Lemma dcd_list_overcounts_witness : exists count records, cmd_dcd_get_dyn_cap_ext_list 10 0 demo_dc = (CXL_MBOX_SUCCESS, count, records) /\ records = dc_extents demo_dc /\ Z.of_nat (length records) < count.
Proof. apply (dcd_list_overcounts 1 (256 * 2 ^ 20) 0 0 demo_dc 10 demo_dc_reachable); vm_compute; done || (split; reflexivity). Defined.
