(* ===== verification/Type3Decode.v ===== *)
(** * Address decoding of the type 3 device and of the host windows
      ([library/qemu/hw/cxl/cxl-component-utils.c], [cxl-host.c], and the decoder of
      [library/qemu/hw/mem/cxl_type3.c])

    A fixed memory window spreads host addresses over host bridges, a bridge or a switch over
    its ports, and the device at the end removes the interleave bits to find the address of
    its own memory.  The registers of one HDM decoder are a record of 32-bit values; a
    component has four.  [None] is undefined behaviour or the exit of the emulator by
    [error_fatal].

    [dpa_bits_ref] shows that the masks and shifts of the device compute the arithmetic
    definition of the interleave, [type3_dpa_spec] what the loop over the decoders returns,
    [window_slot_roundtrip] that the slot of the window and the device address together
    determine the host address, for every number of ways and any alignment to a granule. *)
From S2P Require Import Prelude.

(** ** Encodings *)
Definition cxl_decoder_count_enc (count : Z) : Z :=
  if count =? 1 then 0x0 else if count =? 2 then 0x1 else if count =? 4 then 0x2 else if count =? 6 then 0x3
  else if count =? 8 then 0x4 else if count =? 10 then 0x5 else if count =? 12 then 0x6 else if count =? 14 then 0x7
  else if count =? 16 then 0x8 else if count =? 20 then 0x9 else if count =? 24 then 0xa else if count =? 28 then 0xb
  else if count =? 32 then 0xc else 0.

Definition cxl_decoder_count_dec (enc_cnt : Z) : Z :=
  if enc_cnt =? 0x0 then 1 else if enc_cnt =? 0x1 then 2 else if enc_cnt =? 0x2 then 4 else if enc_cnt =? 0x3 then 6
  else if enc_cnt =? 0x4 then 8 else if enc_cnt =? 0x5 then 10 else if enc_cnt =? 0x6 then 12 else if enc_cnt =? 0x7 then 14
  else if enc_cnt =? 0x8 then 16 else if enc_cnt =? 0x9 then 20 else if enc_cnt =? 0xa then 24 else if enc_cnt =? 0xb then 28
  else if enc_cnt =? 0xc then 32 else 0.

Definition cxl_decode_ig (ig : Z) : Z := wrap64 (Z.shiftl 1 (ig + 8)).

(** [None] is the error that is set. *)
Definition cxl_interleave_ways_enc (iw : Z) : option Z :=
  if iw =? 1 then Some 0x0 else if iw =? 2 then Some 0x1 else if iw =? 4 then Some 0x2 else if iw =? 8 then Some 0x3
  else if iw =? 16 then Some 0x4 else if iw =? 3 then Some 0x8 else if iw =? 6 then Some 0x9 else if iw =? 12 then Some 0xa
  else None.

Definition cxl_interleave_ways_dec (iw_enc : Z) : option Z :=
  if iw_enc =? 0x0 then Some 1 else if iw_enc =? 0x1 then Some 2 else if iw_enc =? 0x2 then Some 4
  else if iw_enc =? 0x3 then Some 8 else if iw_enc =? 0x4 then Some 16 else if iw_enc =? 0x8 then Some 3
  else if iw_enc =? 0x9 then Some 6 else if iw_enc =? 0xa then Some 12 else None.

Definition cxl_interleave_granularity_enc (gran : Z) : option Z :=
  if gran =? 256 then Some 0 else if gran =? 512 then Some 1 else if gran =? 1024 then Some 2
  else if gran =? 2048 then Some 3 else if gran =? 4096 then Some 4 else if gran =? 8192 then Some 5
  else if gran =? 16384 then Some 6 else None.

(** ** Registers *)
Record hdm_decoder := mkHdm {
  hd_base_lo : Z;
  hd_base_hi : Z;
  hd_size_lo : Z;
  hd_size_hi : Z;
  hd_ctrl : Z;
  hd_target_list_lo : Z;   (* DPA_SKIP_LO of a device *)
  hd_target_list_hi : Z
}.

Inductive hdm_reg := BASE_LO | BASE_HI | SIZE_LO | SIZE_HI | CTRL | TARGET_LIST_LO | TARGET_LIST_HI.

Record hdm_registers := mkHdmRegs { hr_capability : Z; hr_decoders : list hdm_decoder }.

Definition reg_get (r : hdm_reg) (d : hdm_decoder) : Z :=
  match r with
  | BASE_LO => hd_base_lo d | BASE_HI => hd_base_hi d | SIZE_LO => hd_size_lo d | SIZE_HI => hd_size_hi d
  | CTRL => hd_ctrl d | TARGET_LIST_LO => hd_target_list_lo d | TARGET_LIST_HI => hd_target_list_hi d
  end.

Definition reg_set (r : hdm_reg) (v : Z) (d : hdm_decoder) : hdm_decoder :=
  let (bl, bh, sl, sh, c, tl, th) := d in
  match r with
  | BASE_LO => mkHdm v bh sl sh c tl th | BASE_HI => mkHdm bl v sl sh c tl th
  | SIZE_LO => mkHdm bl bh v sh c tl th | SIZE_HI => mkHdm bl bh sl v c tl th
  | CTRL => mkHdm bl bh sl sh v tl th
  | TARGET_LIST_LO => mkHdm bl bh sl sh c v th | TARGET_LIST_HI => mkHdm bl bh sl sh c tl v
  end.

Definition CXL_HDM_DECODER_COUNT : Z := 4.

(** [hdm_init_common]: the capability register (decoder count 4, target count 1, interleave
    bits) and what software may write; [device] tells a device from a bridge or switch. *)
Definition hdm_capability (device : bool) : Z :=
  Z.lor (cxl_decoder_count_enc CXL_HDM_DECODER_COUNT)
    (Z.lor (Z.shiftl 1 4) (Z.lor (Z.shiftl 3 8) (if device then Z.shiftl 3 11 else 0))).

Definition hdm_init (device : bool) : hdm_registers :=
  mkHdmRegs (hdm_capability device) (replicate (Z.to_nat CXL_HDM_DECODER_COUNT) (mkHdm 0 0 0 0 0 0 0)).

Definition write_mask (device : bool) (r : hdm_reg) : Z :=
  match r with
  | BASE_LO | SIZE_LO => 0xf0000000
  | BASE_HI | SIZE_HI | TARGET_LIST_HI => 0xffffffff
  | CTRL => 0x13ff
  | TARGET_LIST_LO => if device then 0xf0000000 else 0xffffffff
  end.

Definition set_bit (n : Z) (b : bool) (v : Z) : Z := if b then Z.setbit v n else Z.clearbit v n.

(** [hdm_decoder_commit] and [hdm_decoder_uncommit] of the device, and the same step in
    [dumb_hdm_handler]: clear ERR, set or clear COMMITTED. *)
Definition hdm_commit (committed : bool) (ctrl : Z) : Z := set_bit 10 committed (set_bit 11 false ctrl).

(** [cxl_cache_mem_write_reg] on a decoder register: the write mask, then [ct3d_reg_write] of
    a device or [dumb_hdm_handler] of a bridge or switch, which agree on these registers. *)
Definition cxl_cache_mem_write_reg (device : bool) (which : nat) (r : hdm_reg) (value : Z) (regs : hdm_registers) : hdm_registers :=
  mkHdmRegs (hr_capability regs)
    (alter (fun d =>
       let value := Z.lor (Z.land value (write_mask device r)) (Z.ldiff (reg_get r d) (write_mask device r)) in
       reg_set r (match r with CTRL => hdm_commit (Z.testbit value 9) value | _ => value end) d) which (hr_decoders regs)).

Definition hdm_count (regs : hdm_registers) : Z := cxl_decoder_count_dec (Z.land (hr_capability regs) 0xf).

Definition wide (low high : Z) : Z := Z.lor (Z.shiftl high 32) (Z.land low 0xf0000000).

Definition decoder_base (d : hdm_decoder) : Z := wide (hd_base_lo d) (hd_base_hi d).

Definition decoder_size (d : hdm_decoder) : Z := wide (hd_size_lo d) (hd_size_hi d).

Definition decoder_skip (d : hdm_decoder) : Z := wide (hd_target_list_lo d) (hd_target_list_hi d).

Definition ctrl_IG (d : hdm_decoder) : Z := Z.land (hd_ctrl d) 0xf.

Definition ctrl_IW (d : hdm_decoder) : Z := Z.land (Z.shiftr (hd_ctrl d) 4) 0xf.

Definition ctrl_COMMITTED (d : hdm_decoder) : bool := Z.testbit (hd_ctrl d) 10.

(** ** The device *)
Definition MAKE_64BIT_MASK (shift len : Z) : Z := wrap64 (Z.shiftl (Z.shiftr (2 ^ 64 - 1) (64 - len)) shift).

(** The bits of [hpa_offset] that remain after the interleave bits are taken out. *)
Definition dpa_bits (ig iw hpa_offset : Z) : Z :=
  if iw <? 8 then
    Z.lor (Z.land (MAKE_64BIT_MASK 0 (8 + ig)) hpa_offset)
      (Z.shiftr (Z.land (MAKE_64BIT_MASK (8 + ig + iw) (64 - 8 - ig - iw)) hpa_offset) iw)
  else
    Z.lor (Z.land (MAKE_64BIT_MASK 0 (8 + ig)) hpa_offset)
      (wrap64 (Z.shiftl (Z.shiftr (Z.land (MAKE_64BIT_MASK (ig + iw) (64 - ig - iw)) hpa_offset) (ig + iw) / 3) (ig + 8))).

(** [Some None] is the result [false]. *)
Fixpoint dpa_loop (ds : list hdm_decoder) (host_addr dpa_base : Z) : option (option Z) :=
  match ds with
  | [] => Some None
  | d :: ds' =>
      let dpa_base := dpa_base ⊞ decoder_skip d in
      let hpa_offset := host_addr ⊟ decoder_base d in
      if negb (ctrl_COMMITTED d) then Some None
      else if (host_addr <? decoder_base d) || (decoder_size d <=? hpa_offset) then
        decoded_iw ← cxl_interleave_ways_dec (ctrl_IW d);
        dpa_loop ds' host_addr (dpa_base ⊞ (decoder_size d / decoded_iw))
      else Some (Some (dpa_base ⊞ dpa_bits (ctrl_IG d) (ctrl_IW d) hpa_offset))
  end.

Definition cxl_type3_dpa (regs : hdm_registers) (host_addr : Z) : option (option Z) :=
  dpa_loop (take (Z.to_nat (hdm_count regs)) (hr_decoders regs)) host_addr 0.

(** ** The host *)

(** [extract32] asserts that the field lies inside the word. *)
Definition extract32 (value start len : Z) : option Z :=
  if (0 <=? start) && (0 <? len) && (len <=? 32 - start) then Some (Z.land (Z.shiftr value start) (2 ^ len - 1)) else None.

(** [Some None] is the result [false]. *)
Fixpoint find_target_loop (ds : list hdm_decoder) (addr : Z) : option (option Z) :=
  match ds with
  | [] => Some None
  | d :: ds' =>
      if (addr <? decoder_base d) || (decoder_base d ⊞ decoder_size d <=? addr) then find_target_loop ds' addr
      else if negb (ctrl_COMMITTED d) then Some None
      else
        let target_idx := (addr / cxl_decode_ig (ctrl_IG d)) mod Z.shiftl 1 (ctrl_IW d) in
        target ← (if target_idx <? 4 then extract32 (hd_target_list_lo d) (target_idx * 8) 8
                  else extract32 (hd_target_list_hi d) ((target_idx - 4) * 8) 8);
        Some (Some target)
  end.

Definition cxl_hdm_find_target (regs : hdm_registers) (addr : Z) : option (option Z) :=
  find_target_loop (take (Z.to_nat (hdm_count regs)) (hr_decoders regs)) addr.

(** What sits behind a port: a type 3 device (its number), the upstream port of a switch with
    its downstream ports, or something else.  Only one level of switches is supported, so a
    downstream port is its number and the type 3 device behind it, if there is one. *)
Inductive endpoint :=
  | TYPE_CXL_TYPE3 (dev : nat)
  | TYPE_CXL_USP (regs : hdm_registers) (dsps : list (Z * option nat))
  | OtherDevice.

(** A port is its number and the device behind it, in the order of [devfn]. *)
Definition ports (A : Type) : Type := list (Z * option A).

Record host_bridge := mkBridge {
  hb_is_cxl : bool;
  hb_passthrough : bool;
  hb_registers : hdm_registers;
  hb_ports : ports endpoint
}.

Record CXLFixedWindow := mkWindow {
  fw_size : Z;
  fw_target_hbs : list host_bridge;
  fw_num_targets : Z;
  fw_enc_int_ways : Z;
  fw_enc_int_gran : Z;
  fw_base : Z
}.

(** The options of a window; [None] is the error that is reported. *)
Definition cxl_fixed_memory_window_config (targets : list host_bridge) (size base : Z) (interleave_granularity : option Z) : option CXLFixedWindow :=
  let num_targets := Z.of_nat (length targets) mod 256 in
  ways ← cxl_interleave_ways_enc num_targets;
  if negb (size mod (256 * 2 ^ 20) =? 0) then None
  else
    gran ← (match interleave_granularity with Some g => cxl_interleave_granularity_enc g | None => Some 0 end);
    Some (mkWindow size targets num_targets ways gran base).

Definition pcie_find_port_by_pn {A} (ps : ports A) (pn : Z) : option (option A) :=
  snd <$> List.find (fun p => fst p =? pn) ps.

Definition pcie_find_port_first {A} (ps : ports A) : option (option A) := snd <$> head ps.

(** [Some None] is NULL. *)
Definition find_in_switch (regs : hdm_registers) (dsps : ports nat) (addr : Z) : option (option nat) :=
  target ← cxl_hdm_find_target regs addr;
  Some (pn ← target; mjoin (pcie_find_port_by_pn dsps pn)).

Definition cxl_cfmws_find_device (fw : CXLFixedWindow) (addr : Z) : option (option nat) :=
  let addr := addr ⊞ fw_base fw in
  if fw_num_targets fw =? 0 then None
  else
    let rb_index := (addr / cxl_decode_ig (fw_enc_int_gran fw)) mod fw_num_targets fw in
    hb ← fw_target_hbs fw !! Z.to_nat rb_index;
    if negb (hb_is_cxl hb) then Some None
    else
      rp ← (if hb_passthrough hb then Some (pcie_find_port_first (hb_ports hb))
            else target ← cxl_hdm_find_target (hb_registers hb) addr; Some (pn ← target; pcie_find_port_by_pn (hb_ports hb) pn));
      match mjoin rp with
      | None => Some None
      | Some (TYPE_CXL_TYPE3 dev) => Some (Some dev)
      | Some OtherDevice => Some None
      | Some (TYPE_CXL_USP regs dsps) => find_in_switch regs dsps addr
      end.

(** ** The interleave as arithmetic *)
Definition gran (ig : Z) : Z := 2 ^ (8 + ig).

Definition ways (iw : Z) : Z := if iw <? 8 then 2 ^ iw else 3 * 2 ^ (iw - 8).

(** The device address of offset [off]: whole rounds over all ways leave one granule each. *)
Definition dpa_ref (ig iw off : Z) : Z := off / (gran ig * ways iw) * gran ig + off mod gran ig.

Lemma lor_add (k a b : Z) : 0 <= k -> 0 <= a < 2 ^ k -> Z.lor a (b * 2 ^ k) = a + b * 2 ^ k.
Proof.
  intros Hk Ha. assert (Z.land a (b * 2 ^ k) = 0) as H0.
  - apply Z.bits_inj'. intros n Hn. rewrite Z.land_spec, Z.mul_pow2_bits, Z.bits_0 by lia.
    destruct (decide (n < k)); [rewrite (Z.testbit_neg_r b) by lia; apply andb_false_r|].
    destruct (decide (a = 0)) as [->|]; [by rewrite Z.bits_0|].
    rewrite (Z.bits_above_log2 a); [done|lia|]. enough (Z.log2 a < k) by lia. apply Z.log2_lt_pow2; lia.
  - by rewrite <- Z.lxor_lor, <- Z.add_nocarry_lxor.
Qed.

Lemma mask_ones (s l : Z) : 0 <= s -> 0 <= l -> s + l <= 64 -> MAKE_64BIT_MASK s l = Z.shiftl (Z.ones l) s.
Proof.
  intros Hs Hl Hsl. unfold MAKE_64BIT_MASK.
  replace (2 ^ 64 - 1) with (Z.ones 64) by reflexivity. rewrite Z.shiftr_div_pow2, Z.ones_div_pow2 by lia.
  replace (64 - (64 - l)) with l by lia. apply wrap64_small. unfold u64.
  rewrite Z.shiftl_mul_pow2, Z.ones_equiv by lia.
  assert (2 ^ (l + s) <= 2 ^ 64) by (apply Z.pow_le_mono_r; lia). rewrite Z.pow_add_r in H by lia.
  assert (0 < 2 ^ l) by lia. assert (0 < 2 ^ s) by lia. nia.
Qed.

Lemma land_mask (s l x : Z) : 0 <= s -> 0 <= l -> s + l = 64 -> u64 x -> Z.shiftr (Z.land (MAKE_64BIT_MASK s l) x) s = x / 2 ^ s.
Proof.
  intros Hs Hl Hsl Hx. rewrite mask_ones by lia.
  rewrite Z.shiftr_land, Z.shiftr_shiftl_l by lia. replace (s - s) with 0 by lia. rewrite Z.shiftl_0_r.
  rewrite Z.land_comm, Z.land_ones, Z.shiftr_div_pow2 by lia. apply Z.mod_small.
  split; [apply Z.div_pos; [apply Hx|lia]|]. apply Z.div_lt_upper_bound; [lia|].
  rewrite <- Z.pow_add_r by lia. rewrite Hsl. apply Hx.
Qed.

Lemma high_mask (s l x : Z) : 0 <= s -> 0 <= l -> s + l = 64 -> u64 x -> Z.land (MAKE_64BIT_MASK s l) x = x / 2 ^ s * 2 ^ s.
Proof.
  intros Hs Hl Hsl Hx. rewrite <- (land_mask s l x) by done. rewrite Z.shiftr_div_pow2 by lia.
  pose proof (Z.div_mod (Z.land (MAKE_64BIT_MASK s l) x) (2 ^ s) ltac:(lia)) as E.
  enough (Z.land (MAKE_64BIT_MASK s l) x mod 2 ^ s = 0) by lia.
  rewrite <- Z.land_ones, mask_ones by lia. rewrite (Z.land_comm _ x), <- Z.land_assoc, Z.land_ones, Z.shiftl_mul_pow2, Z.mod_mul by lia.
  apply Z.land_0_r.
Qed.

Lemma low_mask (k x : Z) : 0 <= k <= 64 -> Z.land (MAKE_64BIT_MASK 0 k) x = x mod 2 ^ k.
Proof. intros Hk. rewrite mask_ones by lia. rewrite Z.shiftl_0_r, Z.land_comm. apply Z.land_ones. lia. Qed.

Lemma gran_pos (ig : Z) : 0 <= ig -> 0 < gran ig.
Proof. unfold gran. lia. Qed.

Lemma ways_pos (iw : Z) : 0 <= iw -> 0 < ways iw.
Proof. intros H. unfold ways. case_goal; lia. Qed.

Lemma dpa_ref_le (ig iw off : Z) : 0 <= ig -> 0 <= iw -> 0 <= off -> 0 <= dpa_ref ig iw off <= off.
Proof.
  intros Hig Hiw Ho. pose proof (gran_pos ig Hig). pose proof (ways_pos iw Hiw). unfold dpa_ref.
  rewrite <- Z.div_div by lia. pose proof (Z.div_mod off (gran ig) ltac:(lia)).
  pose proof (Z.mod_pos_bound off (gran ig) ltac:(lia)).
  assert (0 <= off / gran ig) by (apply Z.div_pos; lia).
  assert (0 <= off / gran ig / ways iw) by (apply Z.div_pos; lia).
  assert (off / gran ig / ways iw <= off / gran ig) by (apply Z.div_le_upper_bound; nia). nia.
Qed.

Lemma dpa_bits_ref (ig iw off : Z) : 0 <= ig < 16 -> 0 <= iw < 16 -> u64 off -> dpa_bits ig iw off = dpa_ref ig iw off.
Proof.
  intros Hig Hiw Hoff. pose proof (dpa_ref_le ig iw off ltac:(lia) ltac:(lia) ltac:(apply Hoff)) as Hle.
  unfold dpa_bits. unfold dpa_ref, gran, ways in *. rewrite low_mask by lia.
  pose proof (Z.mod_pos_bound off (2 ^ (8 + ig)) ltac:(lia)) as Hm. case_goal.
  - replace (Z.shiftr (Z.land (MAKE_64BIT_MASK (8 + ig + iw) (64 - 8 - ig - iw)) off) iw)
      with (off / (2 ^ (8 + ig) * 2 ^ iw) * 2 ^ (8 + ig)); [rewrite lor_add; lia|].
    rewrite <- Z.pow_add_r, high_mask, Z.shiftr_div_pow2 by (lia || done).
    replace (2 ^ (8 + ig + iw)) with (2 ^ (8 + ig) * 2 ^ iw) at 3 by (rewrite <- Z.pow_add_r by lia; f_equal; lia).
    rewrite Z.mul_assoc, Z.div_mul by lia. done.
  - rewrite (land_mask (ig + iw) (64 - ig - iw)) by (lia || done). rewrite Z.shiftl_mul_pow2 by lia.
    assert (off / 2 ^ (ig + iw) / 3 = off / (2 ^ (8 + ig) * (3 * 2 ^ (iw - 8)))) as Ediv.
    { rewrite Z.div_div by lia. f_equal. replace (ig + iw) with (8 + ig + (iw - 8)) by lia. rewrite Z.pow_add_r by lia. lia. }
    rewrite Ediv. replace (ig + 8) with (8 + ig) by lia. rewrite wrap64_small; [rewrite lor_add; lia|].
    destruct Hoff. unfold u64. split; [|lia]. apply Z.mul_nonneg_nonneg; [apply Z.div_pos|]; lia.
Qed.

(** ** The loop over the decoders *)
Definition reg32 (v : Z) : Prop := 0 <= v < 2 ^ 32.

Record hdm_ok (d : hdm_decoder) : Prop := {
  ok_base : reg32 (hd_base_lo d) /\ reg32 (hd_base_hi d);
  ok_size : reg32 (hd_size_lo d) /\ reg32 (hd_size_hi d);
  ok_ctrl : reg32 (hd_ctrl d);
  ok_targets : reg32 (hd_target_list_lo d) /\ reg32 (hd_target_list_hi d)
}.

Definition covers (d : hdm_decoder) (addr : Z) : bool :=
  (decoder_base d <=? addr) && (addr <? decoder_base d + decoder_size d).

(** The device memory that the decoders before the matching one take. *)
Definition span (ds : list hdm_decoder) : Z :=
  foldr (fun d n => decoder_skip d + decoder_size d / ways (ctrl_IW d) + n) 0 ds.

(** A decoder that the loop passes without a result. *)
Definition passed (addr : Z) (d : hdm_decoder) : Prop :=
  ctrl_COMMITTED d = true /\ covers d addr = false /\ is_Some (cxl_interleave_ways_dec (ctrl_IW d)).

Lemma wide_range (low high : Z) : reg32 low -> reg32 high -> u64 (wide low high).
Proof.
  unfold reg32, u64, wide. intros Hl Hh. rewrite Z.shiftl_mul_pow2 by lia.
  assert (0 <= Z.land low 0xf0000000 < 2 ^ 32) as Hm.
  { split; [apply Z.land_nonneg; lia|]. assert (Z.land low 0xf0000000 mod 2 ^ 32 = Z.land low 0xf0000000) as E.
    - rewrite <- Z.land_ones, <- Z.land_assoc by lia. done.
    - rewrite <- E. apply Z.mod_pos_bound. lia. }
  rewrite Z.lor_comm, lor_add by lia. lia.
Qed.

Lemma decoder_range (d : hdm_decoder) : hdm_ok d -> u64 (decoder_base d) /\ u64 (decoder_size d).
Proof. intros [[] [] _ _]. split; by apply wide_range. Qed.

Lemma ctrl_range (d : hdm_decoder) : 0 <= ctrl_IG d < 16 /\ 0 <= ctrl_IW d < 16.
Proof.
  unfold ctrl_IG, ctrl_IW. rewrite (Z.land_ones _ 4), (Z.land_ones _ 4) by lia. split; apply Z.mod_pos_bound; lia.
Qed.

Lemma covers_code (d : hdm_decoder) (addr : Z) : hdm_ok d -> u64 addr ->
  (addr <? decoder_base d) || (decoder_size d <=? addr ⊟ decoder_base d) = negb (covers d addr).
Proof.
  intros Hd Ha. destruct (decoder_range d Hd) as [Hb Hs]. unfold covers, u64 in *.
  destruct (addr <? decoder_base d) eqn:E1; cbn [orb]; zify_bool.
  - destruct (decoder_base d <=? addr) eqn:E2; zify_bool; [lia|done].
  - rewrite wrap64_small by (unfold u64; lia). lia.
Qed.

Lemma ways_dec_ways (iw n : Z) : cxl_interleave_ways_dec iw = Some n -> n = ways iw.
Proof. unfold cxl_interleave_ways_dec. intros H. repeat case_in H; simplify_eq; zify_bool; subst; done. Qed.

Lemma dpa_loop_skip (ds1 ds2 : list hdm_decoder) (addr base : Z) : u64 addr -> u64 base -> Forall hdm_ok ds1 -> Forall (passed addr) ds1 ->
  dpa_loop (ds1 ++ ds2) addr base = dpa_loop ds2 addr (base ⊞ span ds1).
Proof.
  intros Ha. revert base. induction ds1 as [|d ds1 IH]; intros base Hb Hok Hp.
  - cbn [app span foldr]. by rewrite Z.add_0_r, wrap64_small.
  - apply Forall_cons in Hok as [Hd Hok]. apply Forall_cons in Hp as [(Hc&Hn&[n Hw]) Hp].
    cbn [app dpa_loop]. rewrite Hc, covers_code, Hn, Hw by done. cbn [negb mbind option_bind].
    rewrite IH by (done || apply wrap64_range). rewrite (ways_dec_ways _ _ Hw). f_equal. unfold wrap64.
    rewrite Zplus_mod_idemp_l. change (span (d :: ds1)) with (decoder_skip d + decoder_size d / ways (ctrl_IW d) + span ds1).
    rewrite <- !Z.add_assoc, Zplus_mod_idemp_l. f_equal. lia.
Qed.

(** The device address of a host address that the decoder after [ds1] covers. *)
Lemma type3_dpa_spec (cap : Z) (ds1 ds2 : list hdm_decoder) (d : hdm_decoder) (addr : Z) :
  u64 addr -> Forall hdm_ok (ds1 ++ [d]) -> Forall (passed addr) ds1 ->
  Z.of_nat (length ds1) < hdm_count (mkHdmRegs cap []) -> ctrl_COMMITTED d = true -> covers d addr = true ->
  cxl_type3_dpa (mkHdmRegs cap (ds1 ++ d :: ds2)) addr
  = Some (Some (wrap64 (span ds1 + decoder_skip d + dpa_ref (ctrl_IG d) (ctrl_IW d) (addr - decoder_base d)))).
Proof.
  intros Ha Hok Hp Hn Hc Hcov. apply Forall_app in Hok as [Hok1 Hok]. apply Forall_cons in Hok as [Hd _].
  unfold cxl_type3_dpa, hdm_count in *. cbn [hr_capability hr_decoders] in *.
  set (n := Z.to_nat _). assert (length ds1 < n)%nat as Hlt by lia.
  replace (ds1 ++ d :: ds2) with ((ds1 ++ [d]) ++ ds2) by (by rewrite <- app_assoc).
  rewrite take_app, take_ge by (rewrite length_app; cbn; lia). rewrite <- app_assoc. cbn [app].
  rewrite dpa_loop_skip by (done || (unfold u64; lia)). cbn [dpa_loop]. rewrite Hc, covers_code, Hcov by done. cbn [negb].
  destruct (decoder_range d Hd) as [Hb Hs]. pose proof (ctrl_range d) as [].
  assert (decoder_base d <= addr) by (unfold covers in Hcov; zify_bool; lia).
  rewrite (wrap64_small (addr - _)) by (unfold u64 in *; lia). rewrite dpa_bits_ref by (unfold u64 in *; lia).
  unfold wrap64. rewrite Z.add_0_l, Zplus_mod_idemp_l, <- !Z.add_assoc, Zplus_mod_idemp_l. done.
Qed.

(** ** Slots of a window *)
Definition slot (ig n addr : Z) : Z := (addr / gran ig) mod n.

(** The host address of device address [dpa] of slot [s], in a window at [base]. *)
Definition host_of (ig iw base s dpa : Z) : Z :=
  base + ((dpa / gran ig) * ways iw + (s - base / gran ig) mod ways iw) * gran ig + dpa mod gran ig.

Section Slots.
  Context (ig iw base : Z) (Hig : 0 <= ig) (Hiw : 0 <= iw) (Hbase : base mod gran ig = 0).

Lemma base_granules : base = base / gran ig * gran ig.
Proof. pose proof (gran_pos ig Hig). pose proof (Z.div_mod base (gran ig) ltac:(lia)). lia. Qed.

Lemma slot_offset (off : Z) : slot ig (ways iw) (base + off) = (base / gran ig + off / gran ig) mod ways iw.
Proof. pose proof (gran_pos ig Hig). unfold slot. rewrite base_granules at 1. rewrite Z.add_comm, Z.div_add, Z.add_comm by lia. done. Qed.

Lemma host_of_slot (off : Z) : host_of ig iw base (slot ig (ways iw) (base + off)) (dpa_ref ig iw off) = base + off.
Proof.
  pose proof (gran_pos ig Hig). pose proof (ways_pos iw Hiw). rewrite slot_offset. unfold host_of, dpa_ref.
  rewrite Z.div_add_l, (Z.add_comm (_ * gran ig) (off mod _)), Z.mod_add, Zmod_mod by lia.
  rewrite (Z.div_small (off mod gran ig)) by (apply Z.mod_pos_bound; lia).
  rewrite Zminus_mod_idemp_l. replace (base / gran ig + off / gran ig - base / gran ig) with (off / gran ig) by lia.
  rewrite <- Z.div_div by lia. pose proof (Z.div_mod off (gran ig) ltac:(lia)).
  pose proof (Z.div_mod (off / gran ig) (ways iw) ltac:(lia)). nia.
Qed.

Lemma slot_host_of (s dpa : Z) : 0 <= s < ways iw -> 0 <= dpa ->
  slot ig (ways iw) (host_of ig iw base s dpa) = s /\ dpa_ref ig iw (host_of ig iw base s dpa - base) = dpa.
Proof.
  intros Hs Hd. pose proof (gran_pos ig Hig). pose proof (ways_pos iw Hiw). unfold host_of.
  set (t := (s - base / gran ig) mod ways iw). assert (0 <= t < ways iw) by (apply Z.mod_pos_bound; lia).
  pose proof (Z.mod_pos_bound dpa (gran ig) ltac:(lia)) as Hm.
  assert (((dpa / gran ig * ways iw + t) * gran ig + dpa mod gran ig) / gran ig = dpa / gran ig * ways iw + t) as Ediv.
  { rewrite Z.div_add_l, (Z.div_small (dpa mod _)) by lia. lia. }
  split.
  - rewrite <- Z.add_assoc, slot_offset, Ediv. unfold t.
    rewrite Z.add_assoc, Zplus_mod_idemp_r.
    replace (base / gran ig + dpa / gran ig * ways iw + (s - base / gran ig)) with (s + dpa / gran ig * ways iw) by lia.
    rewrite Z.mod_add, Z.mod_small by lia. done.
  - unfold dpa_ref. replace (base + _ + _ - base) with ((dpa / gran ig * ways iw + t) * gran ig + dpa mod gran ig) by lia.
    rewrite <- Z.div_div, Ediv, Z.div_add_l, (Z.div_small t) by lia.
    rewrite Z.add_comm, Z.add_mod, Z.mod_mul, Z.add_0_l, !Zmod_mod, Z.add_comm by lia.
    pose proof (Z.div_mod dpa (gran ig) ltac:(lia)). lia.
Qed.

Lemma dpa_ref_bound (off size : Z) : 0 <= off < size -> size mod (gran ig * ways iw) = 0 -> dpa_ref ig iw off < size / ways iw.
Proof.
  intros Ho Hs. pose proof (gran_pos ig Hig). pose proof (ways_pos iw Hiw). assert (0 < gran ig * ways iw) by nia.
  pose proof (Z.div_mod size (gran ig * ways iw) ltac:(lia)) as E. set (q := size / _) in *.
  replace size with (q * gran ig * ways iw) by lia. rewrite Z.div_mul by lia. unfold dpa_ref.
  pose proof (Z.mod_pos_bound off (gran ig) ltac:(lia)).
  assert (off / (gran ig * ways iw) < q) by (apply Z.div_lt_upper_bound; lia). nia.
Qed.
End Slots.

(** ** Routing

    [devs] lists the devices of a window by slot. *)
Definition window_routes (fw : CXLFixedWindow) (devs : list nat) : Prop :=
  forall off, 0 <= off < fw_size fw ->
    cxl_cfmws_find_device fw off
    = Some (devs !! Z.to_nat (slot (fw_enc_int_gran fw) (Z.of_nat (length devs)) (fw_base fw + off))).

(** The window itself: as many bridges as targets, inside the 64-bit address space. *)
Record window_ok (fw : CXLFixedWindow) : Prop := {
  wo_targets : fw_num_targets fw = Z.of_nat (length (fw_target_hbs fw));
  wo_some : 0 < fw_num_targets fw;
  wo_gran : 0 <= fw_enc_int_gran fw < 16;
  wo_base : 0 <= fw_base fw;
  wo_top : fw_base fw + fw_size fw <= 2 ^ 64
}.

(** A bridge that passes every access to the device behind its first port. *)
Definition passes_to (hb : host_bridge) (dev : nat) : Prop :=
  hb_is_cxl hb = true /\ hb_passthrough hb = true /\ snd <$> head (hb_ports hb) = Some (Some (TYPE_CXL_TYPE3 dev)).

(** A bridge whose first decoder spreads the window over [2 ^ m] ports at granules of
    [2 ^ (8 + g)] bytes; the port of index [i] holds device [dev i]. *)
Definition spreads_to (fw : CXLFixedWindow) (g m : Z) (dev : Z -> nat) (hb : host_bridge) : Prop :=
  hb_is_cxl hb = true /\ hb_passthrough hb = false /\ 0 < hdm_count (hb_registers hb) /\
  exists d ds, hr_decoders (hb_registers hb) = d :: ds /\
    decoder_base d <= fw_base fw /\ fw_base fw + fw_size fw <= decoder_base d + decoder_size d < 2 ^ 64 /\
    ctrl_COMMITTED d = true /\ ctrl_IG d = g /\ ctrl_IW d = m /\
    forall i, 0 <= i < 2 ^ m ->
      exists pn, extract32 (if i <? 4 then hd_target_list_lo d else hd_target_list_hi d) ((i mod 4) * 8) 8 = Some pn /\
        pcie_find_port_by_pn (hb_ports hb) pn = Some (Some (TYPE_CXL_TYPE3 (dev i))).

Lemma decode_ig_gran (ig : Z) : 0 <= ig < 16 -> cxl_decode_ig ig = gran ig.
Proof.
  intros H. unfold cxl_decode_ig, gran. rewrite Z.shiftl_mul_pow2, Z.mul_1_l, (Z.add_comm ig) by lia. apply wrap64_small.
  unfold u64. pose proof (Z.pow_le_mono_r 2 (8 + ig) 63 ltac:(lia) ltac:(lia)). lia.
Qed.

Lemma find_device_bridge (fw : CXLFixedWindow) (off : Z) : window_ok fw -> 0 <= off < fw_size fw ->
  exists hb, fw_target_hbs fw !! Z.to_nat (slot (fw_enc_int_gran fw) (fw_num_targets fw) (fw_base fw + off)) = Some hb /\
    cxl_cfmws_find_device fw off =
      (let addr := fw_base fw + off in
       if negb (hb_is_cxl hb) then Some None
       else rp ← (if hb_passthrough hb then Some (pcie_find_port_first (hb_ports hb))
                  else target ← cxl_hdm_find_target (hb_registers hb) addr; Some (pn ← target; pcie_find_port_by_pn (hb_ports hb) pn));
            match mjoin rp with
            | None => Some None
            | Some (TYPE_CXL_TYPE3 dev) => Some (Some dev)
            | Some OtherDevice => Some None
            | Some (TYPE_CXL_USP regs dsps) => find_in_switch regs dsps addr
            end).
Proof.
  intros [Hn Hpos Hg Hb Ht] Hoff. pose proof (Z.mod_pos_bound ((fw_base fw + off) / gran (fw_enc_int_gran fw)) (fw_num_targets fw) Hpos) as Hm.
  fold (slot (fw_enc_int_gran fw) (fw_num_targets fw) (fw_base fw + off)) in Hm.
  destruct (lookup_lt_is_Some_2 (fw_target_hbs fw) (Z.to_nat (slot (fw_enc_int_gran fw) (fw_num_targets fw) (fw_base fw + off)))) as [hb Hhb]; [lia|].
  exists hb. split; [done|]. unfold cxl_cfmws_find_device. rewrite (wrap64_small (off + _)) by (unfold u64; lia).
  rewrite (Z.add_comm off), decode_ig_gran by done. unfold slot in Hhb. rewrite Hhb.
  destruct (Z.eqb_spec (fw_num_targets fw) 0); [lia|]. done.
Qed.

(** Bridges that pass through: one slot per bridge. *)
Lemma passthrough_routes (fw : CXLFixedWindow) (devs : list nat) :
  window_ok fw -> Forall2 passes_to (fw_target_hbs fw) devs -> window_routes fw devs.
Proof.
  intros Hw Hf off Hoff. destruct (find_device_bridge fw off Hw Hoff) as (hb&Hhb&->).
  rewrite (wo_targets _ Hw), (Forall2_length _ _ _ Hf) in Hhb.
  destruct (Forall2_lookup_l _ _ _ _ _ Hf Hhb) as (dev&->&Hc&Hp&Hh). cbv zeta. rewrite Hc, Hp. cbn [negb mbind option_bind].
  unfold pcie_find_port_first. rewrite Hh. done.
Qed.

Lemma slot_split (ig k n x : Z) : 0 <= ig -> 0 <= k -> 0 < n ->
  slot ig (2 ^ k * n) x = slot ig (2 ^ k) x + 2 ^ k * slot (ig + k) n x.
Proof.
  intros Hi Hk Hn. unfold slot, gran. rewrite Z.rem_mul_r by lia. do 2 f_equal.
  rewrite Z.div_div, <- Z.pow_add_r by lia. do 2 f_equal. f_equal. lia.
Qed.

(** Bridges with a decoder: [2 ^ k] bridges of [2 ^ m] ports make [2 ^ (k + m)] slots, when the
    granule of the bridges is one round of the window. *)
Lemma bridge_routes (fw : CXLFixedWindow) (devs : list nat) (k m : Z) :
  window_ok fw -> fw_num_targets fw = 2 ^ k -> 0 <= k -> 0 <= m <= 3 -> Z.of_nat (length devs) = 2 ^ k * 2 ^ m ->
  (forall j hb, fw_target_hbs fw !! j = Some hb ->
     spreads_to fw (fw_enc_int_gran fw + k) m (fun i => default 0%nat (devs !! Z.to_nat (Z.of_nat j + 2 ^ k * i))) hb) ->
  window_routes fw devs.
Proof.
  intros Hw Hk Hk0 Hm Hlen Hs off Hoff. destruct (find_device_bridge fw off Hw Hoff) as (hb&Hhb&->). cbv zeta.
  destruct (Hs _ _ Hhb) as (Hc&Hp&Hcnt&d&ds&Hds&Hlo&Hhi&Hcom&Hig&Hiw&Hport).
  pose proof (wo_gran _ Hw). pose proof (wo_base _ Hw). set (a := fw_base fw + off) in *.
  assert (0 <= slot (fw_enc_int_gran fw + k) (2 ^ m) a < 2 ^ m) as Hi by (apply Z.mod_pos_bound; lia).
  set (i := slot (fw_enc_int_gran fw + k) (2 ^ m) a) in *. destruct (Hport i Hi) as (pn&Hex&Hpn).
  assert (0 <= slot (fw_enc_int_gran fw) (2 ^ k) a < 2 ^ k) as Hj by (apply Z.mod_pos_bound; lia).
  assert (cxl_hdm_find_target (hb_registers hb) a = Some (Some pn)) as ->.
  { unfold cxl_hdm_find_target. rewrite Hds. destruct (Z.to_nat (hdm_count (hb_registers hb))) eqn:En; [lia|]. cbn [take find_target_loop].
    rewrite Hcom, Hig, Hiw, decode_ig_gran by (pose proof (ctrl_range d); lia). cbn [negb].
    rewrite wrap64_small by (unfold u64; lia).
    destruct ((a <? decoder_base d) || (decoder_base d + decoder_size d <=? a)) eqn:E; [zify_bool; lia|].
    rewrite Z.shiftl_mul_pow2, Z.mul_1_l by lia. fold (slot (fw_enc_int_gran fw + k) (2 ^ m) a). fold i.
    assert (2 ^ m <= 2 ^ 3) by (apply Z.pow_le_mono_r; lia).
    destruct (i <? 4) eqn:E4; zify_bool; [rewrite Z.mod_small in Hex by lia|replace (i mod 4) with (i - 4) in Hex by (apply Z.mod_unique with 1; lia)].
    all: by rewrite Hex. }
  rewrite Hc, Hp, Hlen, slot_split by lia. fold i. cbn [negb mbind option_bind]. rewrite Hpn, Hk. cbn.
  destruct (lookup_lt_is_Some_2 devs (Z.to_nat (slot (fw_enc_int_gran fw) (2 ^ k) a + 2 ^ k * i))) as [dev Hdev]; [nia|].
  rewrite Z2Nat.id by lia. rewrite Hdev. done.
Qed.

(** ** Programming a decoder

    The register writes of a host that commits decoder [which]. *)
Definition commit_decoder (device : bool) (which : nat) (base size ig iw : Z) (regs : hdm_registers) : hdm_registers :=
  foldl (fun regs w => cxl_cache_mem_write_reg device which (fst w) (snd w) regs) regs
    [(BASE_LO, base mod 2 ^ 32); (BASE_HI, Z.shiftr base 32); (SIZE_LO, size mod 2 ^ 32); (SIZE_HI, Z.shiftr size 32);
     (CTRL, Z.lor ig (Z.lor (Z.shiftl iw 4) (Z.shiftl 1 9)))].

Definition fresh_ctrl (ig iw : Z) : Z :=
  let v := Z.land (Z.lor ig (Z.lor (Z.shiftl iw 4) (Z.shiftl 1 9))) 0x13ff in hdm_commit (Z.testbit v 9) v.

Lemma fresh_ctrl_fields (ig iw : Z) : 0 <= ig < 16 -> 0 <= iw < 16 ->
  reg32 (fresh_ctrl ig iw) /\ Z.land (fresh_ctrl ig iw) 0xf = ig /\ Z.land (Z.shiftr (fresh_ctrl ig iw) 4) 0xf = iw /\ Z.testbit (fresh_ctrl ig iw) 10 = true.
Proof.
  intros Hig Hiw.
  assert (forallb (fun ig => forallb (fun iw => let c := fresh_ctrl ig iw in
    (0 <=? c) && (c <? 2 ^ 32) && (Z.land c 0xf =? ig) && (Z.land (Z.shiftr c 4) 0xf =? iw) && Z.testbit c 10) (seqZ 0 16)) (seqZ 0 16) = true) as H
    by (vm_compute; reflexivity).
  rewrite forallb_forall in H. specialize (H ig). rewrite forallb_forall in H. specialize (H (proj1 (list_elem_of_In _ _) (proj2 (elem_of_seqZ 0 16 ig) ltac:(lia))) iw
    (proj1 (list_elem_of_In _ _) (proj2 (elem_of_seqZ 0 16 iw) ltac:(lia)))). cbv zeta in H. zify_bool. unfold reg32. split_and!; lia || done.
Qed.

Lemma high_bits (v : Z) : u64 v -> v mod 2 ^ 28 = 0 -> wide (Z.land (v mod 2 ^ 32) 0xf0000000) (Z.land (Z.shiftr v 32) 0xffffffff) = v.
Proof.
  intros Hv Hm. unfold wide. rewrite <- Z.land_assoc. change (Z.land 0xf0000000 0xf0000000) with (Z.shiftl (Z.ones 4) 28).
  assert (v mod 2 ^ 32 = Z.shiftl (v / 2 ^ 28 mod 2 ^ 4) 28) as E.
  { rewrite Z.shiftl_mul_pow2 by lia. change (2 ^ 32) with (2 ^ 28 * 2 ^ 4). rewrite Z.rem_mul_r by lia. lia. }
  rewrite E, <- Z.shiftl_land, Z.land_ones, Zmod_mod, <- E by lia. change 0xffffffff with (Z.ones 32).
  assert (0 <= v / 2 ^ 32 < 2 ^ 32) by (destruct Hv; split; [apply Z.div_pos; lia|apply Z.div_lt_upper_bound; lia]).
  rewrite Z.land_ones, Z.shiftr_div_pow2, (Z.mod_small (v / 2 ^ 32)) by lia.
  pose proof (Z.mod_pos_bound v (2 ^ 32) ltac:(lia)). pose proof (Z.div_mod v (2 ^ 32) ltac:(lia)). clear E Hm.
  rewrite Z.shiftl_mul_pow2, Z.lor_comm, lor_add by lia. lia.
Qed.

Lemma land_reg32 (v m : Z) : 0 <= m < 2 ^ 32 -> reg32 (Z.land v m).
Proof.
  intros Hm. split; [apply Z.land_nonneg; lia|]. assert (Z.land v m mod 2 ^ 32 = Z.land v m) as E.
  { rewrite <- Z.land_ones, <- Z.land_assoc, Z.land_ones, (Z.mod_small m) by lia. done. }
  rewrite <- E. apply Z.mod_pos_bound. lia.
Qed.

(** A device whose first decoder was committed, from reset, decodes the window that was
    programmed. *)
Lemma committed_decodes (base size ig iw addr : Z) :
  u64 base -> u64 size -> base mod 2 ^ 28 = 0 -> size mod 2 ^ 28 = 0 -> 0 <= ig < 16 -> 0 <= iw < 16 -> u64 addr -> base <= addr < base + size ->
  cxl_type3_dpa (commit_decoder true 0 base size ig iw (hdm_init true)) addr = Some (Some (dpa_ref ig iw (addr - base))).
Proof.
  intros Hb Hs Hbm Hsm Hig Hiw Ha Hin. destruct (fresh_ctrl_fields ig iw Hig Hiw) as (Hc&Eig&Eiw&Ecom).
  set (d := mkHdm (Z.land (base mod 2 ^ 32) 0xf0000000) (Z.land (Z.shiftr base 32) 0xffffffff)
                  (Z.land (size mod 2 ^ 32) 0xf0000000) (Z.land (Z.shiftr size 32) 0xffffffff) (fresh_ctrl ig iw) 0 0).
  assert (commit_decoder true 0 base size ig iw (hdm_init true) = mkHdmRegs (hdm_capability true) ([] ++ d :: replicate 3 (mkHdm 0 0 0 0 0 0 0))) as ->.
  { unfold commit_decoder, d, fresh_ctrl. cbn [foldl fst snd]. unfold cxl_cache_mem_write_reg, hdm_init.
    cbn [hr_capability hr_decoders]. change (Z.to_nat CXL_HDM_DECODER_COUNT) with 4%nat. cbn [replicate alter list_alter reg_get reg_set app].
    unfold write_mask. cbn [Z.ldiff]. by rewrite !Z.lor_0_r. }
  rewrite type3_dpa_spec; try done.
  - unfold ctrl_IG, ctrl_IW, decoder_base, decoder_skip. cbn [span foldr hd_base_lo hd_base_hi hd_target_list_lo hd_target_list_hi hd_ctrl d].
    rewrite high_bits, Eig, Eiw by done. change (wide 0 0) with 0. do 2 f_equal. apply wrap64_small.
    pose proof (dpa_ref_le ig iw (addr - base) ltac:(lia) ltac:(lia) ltac:(lia)). unfold u64 in *. lia.
  - apply Forall_singleton. split; cbn; [split; apply land_reg32; lia|split; apply land_reg32; lia|done|split; unfold reg32; lia].
  - unfold covers, decoder_base, decoder_size. cbn [hd_base_lo hd_base_hi hd_size_lo hd_size_hi d]. rewrite !high_bits by done. lia.
Qed.

(** A committed decoder whose ways the tables do not know ends the emulator, whichever
    address outside of it is accessed. *)
Lemma unsupported_ways_exit (regs : hdm_registers) (d : hdm_decoder) (ds : list hdm_decoder) (addr : Z) :
  hr_decoders regs = d :: ds -> 0 < hdm_count regs -> hdm_ok d -> ctrl_COMMITTED d = true ->
  cxl_interleave_ways_dec (ctrl_IW d) = None -> u64 addr -> covers d addr = false -> cxl_type3_dpa regs addr = None.
Proof.
  intros Hd Hn Hok Hc Hw Ha Hcov. unfold cxl_type3_dpa. rewrite Hd. destruct (Z.to_nat (hdm_count regs)) eqn:E; [lia|].
  cbn [take dpa_loop]. rewrite Hc, covers_code, Hcov, Hw by done. done.
Qed.

Lemma aligned_gran (base ig : Z) : 0 <= ig < 16 -> base mod 2 ^ 28 = 0 -> base mod gran ig = 0.
Proof.
  intros Hig Hb. unfold gran. apply Z.mod_divide; [lia|]. apply Z.mod_divide in Hb; [|lia].
  apply Z.divide_trans with (2 ^ 28); [|done]. exists (2 ^ (28 - (8 + ig))). rewrite <- Z.pow_add_r by lia. f_equal. lia.
Qed.

Lemma host_of_inside (ig iw base size s dpa : Z) : 0 <= ig -> 0 <= iw -> size mod (gran ig * ways iw) = 0 -> 0 <= dpa < size / ways iw ->
  base <= host_of ig iw base s dpa < base + size.
Proof.
  intros Hig Hiw Hs Hd. pose proof (gran_pos ig Hig) as Hg. pose proof (ways_pos iw Hiw) as Hw.
  pose proof (Z.div_mod size (gran ig * ways iw) ltac:(nia)) as E. rewrite Hs in E. set (k := size / (gran ig * ways iw)) in *.
  replace size with (gran ig * k * ways iw) in Hd |- * by lia. rewrite Z.div_mul in Hd by lia. unfold host_of.
  set (t := (s - base / gran ig) mod ways iw). assert (0 <= t < ways iw) by (apply Z.mod_pos_bound; lia).
  pose proof (Z.mod_pos_bound dpa (gran ig) Hg). pose proof (Z.div_mod dpa (gran ig) ltac:(lia)).
  assert (0 <= dpa / gran ig < k) by (split; [apply Z.div_pos; lia|apply Z.div_lt_upper_bound; lia]).
  set (q := dpa / gran ig) in *. set (r := dpa mod gran ig) in *. clearbody t q r. clear E Hs.
  assert ((q * ways iw + t + 1) <= k * ways iw) by nia. assert (0 <= q * ways iw + t) by nia. nia.
Qed.

(** C21. A host that commits the first decoder of each device of a window, at reset, gets an
    interleave that loses nothing: the masks and shifts of the device compute the arithmetic
    definition, slot and device address determine the host address, and every device address
    of every slot belongs to a host address of the window. *)
Theorem type3_decode_lossless (base size ig iw : Z) (Hb : u64 base) (Hs : u64 size) (Hbm : base mod 2 ^ 28 = 0) (Hsm : size mod 2 ^ 28 = 0)
    (Hig : 0 <= ig < 16) (Hiw : 0 <= iw < 16) (Htop : base + size <= 2 ^ 64) (Hwhole : size mod (gran ig * ways iw) = 0) :
  let regs := commit_decoder true 0 base size ig iw (hdm_init true) in
  (forall addr, base <= addr < base + size ->
     exists dpa, cxl_type3_dpa regs addr = Some (Some dpa) /\ dpa = dpa_ref ig iw (addr - base) /\ 0 <= dpa < size / ways iw /\
       host_of ig iw base (slot ig (ways iw) addr) dpa = addr) /\
  (forall s dpa, 0 <= s < ways iw -> 0 <= dpa < size / ways iw ->
     exists addr, base <= addr < base + size /\ slot ig (ways iw) addr = s /\ cxl_type3_dpa regs addr = Some (Some dpa)).
Proof.
  intros regs. pose proof (aligned_gran base ig Hig Hbm) as Ha.
  assert (forall addr, base <= addr < base + size -> cxl_type3_dpa regs addr = Some (Some (dpa_ref ig iw (addr - base)))) as Hdec.
  { intros addr Hin. apply committed_decodes; try done. unfold u64 in *. lia. }
  split.
  - intros addr Hin. exists (dpa_ref ig iw (addr - base)). split_and!; [by apply Hdec|done|apply dpa_ref_le; lia|apply dpa_ref_bound; lia|].
    pose proof (host_of_slot ig iw base ltac:(lia) ltac:(lia) Ha (addr - base)) as E.
    replace (base + (addr - base)) with addr in E by lia. done.
  - intros s dpa Hsl Hd. pose proof (host_of_inside ig iw base size s dpa ltac:(lia) ltac:(lia) Hwhole Hd) as Hin.
    destruct (slot_host_of ig iw base ltac:(lia) ltac:(lia) Ha s dpa Hsl ltac:(lia)) as [E1 E2].
    exists (host_of ig iw base s dpa). split_and!; [lia|lia|done|]. rewrite (Hdec _ Hin). by rewrite E2.
Qed.

Lemma type3_decode_lossless_witness :
  let regs := commit_decoder true 0 (4 * 2 ^ 30) (3 * 2 ^ 28) 2 8 (hdm_init true) in
  (exists dpa, cxl_type3_dpa regs (4 * 2 ^ 30 + 5000) = Some (Some dpa) /\ host_of 2 8 (4 * 2 ^ 30) (slot 2 (ways 8) (4 * 2 ^ 30 + 5000)) dpa = 4 * 2 ^ 30 + 5000) /\
  cxl_type3_dpa regs (4 * 2 ^ 30 + 5000) = Some (Some 1928).
Proof.
  intros regs. split; [|vm_compute; reflexivity].
  destruct (type3_decode_lossless (4 * 2 ^ 30) (3 * 2 ^ 28) 2 8 ltac:(unfold u64; lia) ltac:(unfold u64; lia) ltac:(reflexivity) ltac:(reflexivity)
    ltac:(lia) ltac:(lia) ltac:(lia) ltac:(reflexivity)) as [H _].
  destruct (H (4 * 2 ^ 30 + 5000) ltac:(lia)) as (dpa&H1&_&_&H2). exists dpa. split; [exact H1|exact H2].
Defined.

(** A guest that commits a decoder with a number of ways that the tables do not know ends the
    emulator with its next access to the device. *)
Theorem unsupported_ways_exits (ig iw addr : Z) (Hig : 0 <= ig < 16) (Hiw : 0 <= iw < 16) (Hw : cxl_interleave_ways_dec iw = None) (Ha : u64 addr) :
  cxl_type3_dpa (commit_decoder true 0 0 0 ig iw (hdm_init true)) addr = None.
Proof.
  destruct (fresh_ctrl_fields ig iw Hig Hiw) as (Hc&_&Eiw&Ecom).
  apply (unsupported_ways_exit _ (mkHdm 0 0 0 0 (fresh_ctrl ig iw) 0 0) (replicate 3 (mkHdm 0 0 0 0 0 0 0))); try done.
  - unfold commit_decoder, fresh_ctrl. cbn [foldl fst snd]. unfold cxl_cache_mem_write_reg, hdm_init. cbn [hr_capability hr_decoders].
    change (Z.to_nat CXL_HDM_DECODER_COUNT) with 4%nat. cbn [replicate alter list_alter reg_get reg_set]. unfold write_mask. cbn [Z.ldiff]. by rewrite !Z.lor_0_r.
  - unfold ctrl_IW. cbn [hd_ctrl]. by rewrite Eiw.
  - unfold covers. change (decoder_base _) with 0. change (decoder_size _) with 0. lia.
Qed.

Lemma unsupported_ways_exits_witness : cxl_interleave_ways_dec 5 = None /\ cxl_type3_dpa (commit_decoder true 0 0 0 0 5 (hdm_init true)) 4096 = None.
Proof. split; [reflexivity|]. apply (unsupported_ways_exits 0 5 4096); (lia || reflexivity || (unfold u64; lia)). Defined.

(** A bridge or switch that spreads over three ports takes the encoding of the ways for a power
    of two: most granules have a target index past the target list, which an assertion
    refuses. *)
Theorem three_way_bridge_aborts (regs : hdm_registers) (d : hdm_decoder) (ds : list hdm_decoder) (addr : Z)
    (Hds : hr_decoders regs = d :: ds) (Hn : 0 < hdm_count regs) (Hc : ctrl_COMMITTED d = true) (Hw : ctrl_IW d = 8)
    (Hlo : decoder_base d <= addr) (Hhi : addr < decoder_base d + decoder_size d < 2 ^ 64) (Hb : 0 <= decoder_base d)
    (Hidx : 8 <= (addr / gran (ctrl_IG d)) mod 256) :
  cxl_hdm_find_target regs addr = None.
Proof.
  unfold cxl_hdm_find_target. rewrite Hds. destruct (Z.to_nat (hdm_count regs)) eqn:E; [lia|]. cbn [take find_target_loop].
  rewrite wrap64_small by (unfold u64; lia). rewrite (proj2 (Z.ltb_ge _ _)), (proj2 (Z.leb_gt _ _)), Hc, Hw by lia. cbn [orb negb].
  rewrite decode_ig_gran by apply ctrl_range. change (Z.shiftl 1 8) with 256. rewrite (proj2 (Z.ltb_ge _ 4)) by lia.
  unfold extract32. set (i := (addr / _) mod 256) in *. destruct ((0 <=? (i - 4) * 8) && (0 <? 8) && (8 <=? 32 - (i - 4) * 8)) eqn:E2; [zify_bool; lia|done].
Qed.

Definition demo_bridge_regs : hdm_registers := commit_decoder false 0 (4 * 2 ^ 30) (3 * 2 ^ 28) 0 8 (hdm_init false).

Lemma three_way_bridge_aborts_witness : cxl_hdm_find_target demo_bridge_regs (4 * 2 ^ 30 + 2048) = None.
Proof.
  apply (three_way_bridge_aborts demo_bridge_regs (default (mkHdm 0 0 0 0 0 0 0) (head (hr_decoders demo_bridge_regs))) (tail (hr_decoders demo_bridge_regs)));
    vm_compute; done || (split; done) || reflexivity.
Defined.
