(* ===== verification/Type3Memsim.v ===== *)
(** * The type 3 device and the memory server ([cxl_memsim_request_ext] of
      [library/qemu/hw/mem/cxl_type3.c] and [src/main_server.cc])

    Over TCP the device sends each access as one request and waits for the response.  The
    server of [MainServer] keeps the promises that [Type3Access] needs ([main_memsim]), so
    accesses of the host and of label storage can be followed from the window to the
    memory of the server.  A server that crashes closes the connection, and the request fails.

    [memsim_shares_offsets] shows both what works and what does not: the server sees only
    offsets, so a device reads back what it wrote, and so does every other device that has the
    same offset. *)
From Stdlib Require Import SpecFloat.
From S2P Require Import Prelude Double SharedMemory MainServer Pgas Type3Decode Type3Access.
#[local] Open Scope Z_scope.

(** The server and the last clock reading of the device. *)
Record tcp_link := mkLink { ln_server : MainServer; ln_clock : Z }.

Section Link.
Context {D : Type} `{Double D} (calculate_latency : Z -> Z -> D).
(** The thread of the connection, the clocks of the server at a reading of the device, and the
    next reading of the device. *)
Context (thread : Z) (now now_ms : Z -> Z) (tick : Z -> Z).

(** The data field of a request: the payload of a write, zero elsewhere. *)
Definition req_data (op size : Z) (data : list Z) : list Z :=
  if (op =? CXL_OP_WRITE) || (op =? CXL_OP_LSA_WRITE)
  then take (Z.to_nat (Z.min size 64)) data ++ drop (Z.to_nat (Z.min size 64)) (replicate 64 0)
  else replicate 64 0.

(** The TCP branch of [cxl_memsim_request_ext]; [value] and [expected] are zero for the
    operations that use it here. *)
Definition cxl_memsim_request_tcp (op addr size : Z) (data : list Z) (l : tcp_link) : option CXLMemSimResponse * tcp_link :=
  let ts := tick (ln_clock l) in
  match client_round calculate_latency true (mkClientRequest (now ts) (now_ms ts) thread (mkServerRequest op addr size ts 0 0 (req_data op size data))) (ln_server l) with
  | Some (Reply r, s) => (Some (mkMemSimResponse (sp_status r) (sp_latency_ns r) (sp_old_value r) (sp_data r)), mkLink s ts)
  | Some (_, s) => (None, mkLink s ts)
  | None => (None, mkLink (ln_server l) ts)
  end.

Lemma tcp_answer (op addr size : Z) (data : list Z) (l : tcp_link) (r : ServerResponse) (s : MainServer) :
  op <= OP_LSA_WRITE -> op <> OP_GET_SHM_INFO -> size <= 64 ->
  handle_request calculate_latency true (now (tick (ln_clock l))) (now_ms (tick (ln_clock l))) thread
    (mkServerRequest op addr size (tick (ln_clock l)) 0 0 (req_data op size data)) (ln_server l) = Some (r, s) ->
  cxl_memsim_request_tcp op addr size data l
  = (Some (mkMemSimResponse (sp_status r) (sp_latency_ns r) (sp_old_value r) (sp_data r)), mkLink s (tick (ln_clock l))).
Proof.
  intros H1 H2 H3 E. unfold cxl_memsim_request_tcp, client_round. cbn [cr_request sq_op_type sq_addr sq_size sq_timestamp sq_value sq_expected sq_data cr_now cr_now_ms cr_thread].
  rewrite (proj2 (Z.ltb_ge _ _)), (proj2 (Z.eqb_neq _ _)), Z.min_l, E by done. done.
Qed.

(** ** The server keeps the promises *)
Section Promises.
Context (Htick : forall t, t <= tick t) (hd : SharedMemoryHeader) (Hbase : sh_base_addr hd = 0) (Hsize : sh_num_cachelines hd * 64 < 2 ^ 64).

Definition link_ok (l : tcp_link) : Prop :=
  shm_ok (ms_shm (ln_server l)) hd /\ pending_old (ln_server l) /\
  forall line, cm_last_access_time (metadata_of (ln_server l) line) <= ln_clock l.

Definition link_range (a n : Z) : Prop := 0 <= a /\ 1 <= n <= 64 /\ a + n <= sh_num_cachelines hd * 64.

Definition link_label (l : tcp_link) (x : Z) : option Z := if x <? 0 then None else ms_lsa_data (ln_server l) !! Z.to_nat x.

Lemma byte_index_small (x : Z) : 0 <= x < sh_num_cachelines hd * 64 -> byte_index hd x = x.
Proof.
  intros Hx. unfold byte_index. rewrite Hbase. cbn [Z.eqb]. rewrite line_of_spec. pose proof (Z.div_mod x 64 ltac:(lia)) as E.
  replace ((x - x mod 64) / 64) with (x / 64) by (replace (x - x mod 64) with (x / 64 * 64) by lia; by rewrite Z.div_mul by lia).
  rewrite Z.mod_small; [lia|]. split; [apply Z.div_pos; lia|apply Z.div_lt_upper_bound; lia].
Qed.

Lemma served_range (a n : Z) : link_range a n -> served hd a n.
Proof. intros (H0&H1&H2). split; [done|by left]. Qed.

Lemma addrs_flat (f : Z -> Z) (a n : Z) : link_range a n -> f <$> addrs a n = flat_read f a n.
Proof.
  intros (H0&H1&H2). unfold addrs, flat_read. rewrite <- list_fmap_compose. apply list_fmap_ext. intros k x Hk. cbn.
  apply lookup_seqZ in Hk. by rewrite wrap64_small by (unfold u64; lia).
Qed.

Lemma valid_range (l : tcp_link) (a : Z) : link_ok l -> is_valid_address (ms_shm (ln_server l)) a = true.
Proof. intros ((Hh&_)&_). unfold is_valid_address. rewrite Hh, Hbase. done. Qed.

Lemma link_ok_next (l : tcp_link) (s' : MainServer) : link_ok l -> shm_ok (ms_shm s') hd -> pending_old s' ->
  accessed_before (tick (ln_clock l)) (ln_server l) s' -> link_ok (mkLink s' (tick (ln_clock l))).
Proof.
  intros (_&_&Ht) Hs Hp Hb. split_and!; [done|done|]. intros line. apply Hb; [done|]. cbn. specialize (Ht line). specialize (Htick (ln_clock l)). lia.
Qed.

Lemma link_read (l : tcp_link) (a n : Z) : link_ok l -> link_range a n ->
  exists resp l', cxl_memsim_request_tcp CXL_OP_READ a n [] l = (Some resp, l') /\ rs_status resp = 0 /\
    take (Z.to_nat n) (rs_data resp) = flat_read (byte_at (ms_shm (ln_server l)) hd) a n /\ link_ok l' /\
    (forall x, byte_at (ms_shm (ln_server l')) hd x = byte_at (ms_shm (ln_server l)) hd x).
Proof.
  intros Hl Hr. pose proof Hl as (Hs&Hp&Ht). pose proof Hr as (H0&H1&H2). specialize (Htick (ln_clock l)) as Hclk.
  set (req := mkServerRequest CXL_OP_READ a n (tick (ln_clock l)) 0 0 (replicate 64 0)).
  destruct (request_serves_memory calculate_latency (now (tick (ln_clock l))) (now_ms (tick (ln_clock l))) thread req (ln_server l) hd) as [Hread _];
    [done|cbn; unfold u64; lia|by apply valid_range|by apply served_range|done|done|unfold in_order; cbn; specialize (Ht (line_of a)); lia|].
  destruct (Hread eq_refl) as (lat&s'&E&Q1&Q2&Q3&Q4). eexists _, _. split; [eapply tcp_answer; [done|done|lia|exact E]|]. split; [done|].
  cbn [rs_data sp_data ln_server sq_addr sq_size req]. rewrite addrs_flat by done. split_and!.
  - rewrite take_app_le, take_ge by (unfold flat_read; rewrite length_fmap, length_seqZ; lia). done.
  - apply link_ok_next; [done|unfold shm_ok in *; by rewrite Q1, Q2|done|done].
  - intros x. unfold byte_at. by rewrite Q2.
Qed.

Lemma link_write (l : tcp_link) (a : Z) (bs : list Z) : link_ok l -> link_range a (Z.of_nat (length bs)) ->
  exists resp l', cxl_memsim_request_tcp CXL_OP_WRITE a (Z.of_nat (length bs)) bs l = (Some resp, l') /\ link_ok l' /\
    (forall x, a <= x < a + Z.of_nat (length bs) -> byte_at (ms_shm (ln_server l')) hd x = flat_write (byte_at (ms_shm (ln_server l)) hd) a bs x).
Proof.
  intros Hl Hr. pose proof Hl as (Hs&Hp&Ht). pose proof Hr as (H0&H1&H2). specialize (Htick (ln_clock l)) as Hclk.
  set (data := bs ++ drop (length bs) (replicate 64 0)). assert (length data = 64%nat) as Hd by (unfold data; rewrite length_app, length_drop, length_replicate; lia).
  set (req := mkServerRequest CXL_OP_WRITE a (Z.of_nat (length bs)) (tick (ln_clock l)) 0 0 data).
  destruct (request_serves_memory calculate_latency (now (tick (ln_clock l))) (now_ms (tick (ln_clock l))) thread req (ln_server l) hd) as [_ Hwrite];
    [done|cbn; unfold u64; lia|by apply valid_range|by apply served_range|done|done|unfold in_order; cbn; specialize (Ht (line_of a)); lia|].
  destruct (Hwrite eq_refl) as (lat&s'&E&Q1&(Q2&Q3&_)&Q4&Q5).
  assert (data = req_data CXL_OP_WRITE (Z.of_nat (length bs)) bs) as Hdata by (unfold req_data; cbn [Z.eqb orb]; by rewrite Z.min_l, Nat2Z.id, (take_ge bs) by lia).
  unfold req in E. rewrite Hdata in E. eexists _, _. split; [eapply tcp_answer; [done|done|lia|exact E]|].
  cbn [sq_addr sq_size sq_data req ln_server] in *. rewrite Nat2Z.id in Q3. unfold data in Q3. rewrite take_app_length in Q3. split.
  - apply link_ok_next; [done| |done|done]. destruct Hs as (S1&S2&S3&S4). unfold shm_ok; rewrite Q1, Q2; split_and!; done || lia.
  - intros x Hx. unfold flat_write. rewrite (proj2 (andb_true_iff _ _)) by lia. destruct (lookup_lt_is_Some_2 bs (Z.to_nat (x - a))) as [b Hb]; [lia|].
    rewrite Hb. cbn [default]. unfold byte_at. specialize (Q3 _ _ Hb). rewrite wrap64_small in Q3 by (unfold u64; lia).
    replace (a + Z.of_nat (Z.to_nat (x - a))) with x in Q3 by lia. by apply list_lookup_total_correct in Q3.
Qed.

Lemma handle_lsa (op : Z) (req : ServerRequest) (s : MainServer) (t0 t1 : Z) : sq_op_type req = op -> op = OP_LSA_READ \/ op = OP_LSA_WRITE ->
  handle_request calculate_latency true t0 t1 thread req s =
    if op =? OP_LSA_READ then handle_lsa_read (sq_addr req) (sq_size req) s else handle_lsa_write (sq_addr req) (sq_size req) (sq_data req) s.
Proof. intros Ho [-> | ->]; unfold handle_request; cbv zeta; by rewrite Ho. Qed.

Lemma link_lsa_read (l : tcp_link) (a n : Z) (f : Z -> Z) : link_ok l -> 0 <= a -> 0 < n <= 64 -> a + n < 2 ^ 64 ->
  (forall x, a <= x < a + n -> link_label l x = Some (f x)) ->
  exists resp l', cxl_memsim_request_tcp CXL_OP_LSA_READ a n [] l = (Some resp, l') /\ rs_status resp = 0 /\
    take (Z.to_nat n) (rs_data resp) = flat_read f a n /\ link_ok l' /\ (forall x, link_label l' x = link_label l x).
Proof.
  intros Hl Ha Hn Htop Hlab. set (lsa := ms_lsa_data (ln_server l)).
  assert (forall x, a <= x < a + n -> lsa !! Z.to_nat x = Some (f x)) as Hlk.
  { intros x Hx. specialize (Hlab x Hx). unfold link_label in Hlab. rewrite (proj2 (Z.ltb_ge _ _)) in Hlab by lia. done. }
  assert (a + n <= Z.of_nat (length lsa)) as Hlen by (pose proof (lookup_lt_Some _ _ _ (Hlk (a + n - 1) ltac:(lia))); lia).
  assert (take (Z.to_nat n) (drop (Z.to_nat a) lsa) = flat_read f a n) as Hbytes.
  { apply list_eq. intros k. rewrite flat_read_lookup. destruct (decide (Z.of_nat k < n)); [|by rewrite lookup_take_ge by lia].
    rewrite lookup_take_lt, lookup_drop by lia. rewrite <- (Hlk (a + Z.of_nat k)) by lia. f_equal. lia. }
  assert (handle_request calculate_latency true (now (tick (ln_clock l))) (now_ms (tick (ln_clock l))) thread
    (mkServerRequest CXL_OP_LSA_READ a n (tick (ln_clock l)) 0 0 (req_data CXL_OP_LSA_READ n [])) (ln_server l)
    = Some (mkServerResponse 0 0 0 (flat_read f a n ++ drop (length (flat_read f a n)) (replicate 64 0)), ln_server l)) as E.
  { rewrite (handle_lsa OP_LSA_READ); [|done|by left]. cbn [Z.eqb OP_LSA_READ Pos.eqb sq_addr sq_size]. unfold handle_lsa_read. fold lsa. rewrite Z.min_l by lia.
    rewrite wrap64_small by (unfold u64; lia). rewrite (proj2 (Z.leb_le _ _)), mem_read_Some by lia. cbn [mbind option_bind]. by rewrite Hbytes. }
  eexists _, _. split; [eapply tcp_answer; [done|done|lia|exact E]|]. split; [done|]. cbn [rs_data sp_data]. split_and!; [|pose proof Hl as (?&?&?); apply link_ok_next; [done|done|done|intros line t0 _ Hold; exact Hold]|done].
  rewrite take_app_le, take_ge by (unfold flat_read; rewrite length_fmap, length_seqZ; lia). done.
Qed.

Lemma link_lsa_write (l : tcp_link) (a : Z) (bs : list Z) : link_ok l -> 0 <= a -> 0 < Z.of_nat (length bs) <= 64 -> a + Z.of_nat (length bs) < 2 ^ 64 ->
  exists resp l', cxl_memsim_request_tcp CXL_OP_LSA_WRITE a (Z.of_nat (length bs)) bs l = (Some resp, l') /\ rs_status resp = 0 /\ link_ok l' /\
    (forall x, a <= x < a + Z.of_nat (length bs) -> link_label l' x = bs !! Z.to_nat (x - a)) /\
    (forall x v, ~ (a <= x < a + Z.of_nat (length bs)) -> link_label l x = Some v -> link_label l' x = Some v).
Proof.
  intros Hl Ha Hn Htop. set (lsa := ms_lsa_data (ln_server l)). set (n := Z.of_nat (length bs)) in *.
  set (l1 := if Z.of_nat (length lsa) <? a + n then lsa ++ replicate (Z.to_nat (a + n) - length lsa) 0 else lsa).
  assert (a + n <= Z.of_nat (length l1) /\ forall k v, lsa !! k = Some v -> l1 !! k = Some v) as [Hlen Hkeep].
  { unfold l1. destruct (_ <? _) eqn:E; zify_bool; [|done]. rewrite length_app, length_replicate. split; [lia|]. intros k v Hk. by apply lookup_app_l_Some. }
  destruct (mem_write_Some a bs l1) as [l2 Hl2]; [lia|fold n; lia|].
  assert (handle_request calculate_latency true (now (tick (ln_clock l))) (now_ms (tick (ln_clock l))) thread
    (mkServerRequest CXL_OP_LSA_WRITE a n (tick (ln_clock l)) 0 0 (req_data CXL_OP_LSA_WRITE n bs)) (ln_server l)
    = Some (mkServerResponse 0 0 0 (replicate 64 0), ms_set_lsa l2 (ln_server l))) as E.
  { rewrite (handle_lsa OP_LSA_WRITE); [|done|by right]. cbn [Z.eqb OP_LSA_READ OP_LSA_WRITE Pos.eqb sq_addr sq_size sq_data]. unfold handle_lsa_write. fold lsa. rewrite Z.min_l by lia.
    rewrite wrap64_small by (unfold u64; lia). fold l1. replace (take (Z.to_nat n) (req_data CXL_OP_LSA_WRITE n bs)) with bs; [by rewrite Hl2|].
    unfold req_data. cbn [Z.eqb orb CXL_OP_LSA_WRITE CXL_OP_WRITE Pos.eqb]. rewrite Z.min_l by lia. unfold n. rewrite Nat2Z.id, (take_ge bs) by lia. by rewrite take_app_length. }
  eexists _, _. split; [eapply tcp_answer; [done|done|lia|exact E]|]. split; [done|]. split_and!; [pose proof Hl as (?&?&?); apply link_ok_next; [done|done|done|intros line t0 _ Hold; exact Hold]| |].
  - intros x Hx. unfold link_label. rewrite (proj2 (Z.ltb_ge _ _)) by lia. cbn [ln_server ms_set_lsa ms_lsa_data].
    rewrite (mem_write_lookup _ _ _ _ _ Hl2), decide_True by (fold n; lia). f_equal. lia.
  - intros x v Hx. unfold link_label. destruct (x <? 0) eqn:E0; [done|]. zify_bool. cbn [ln_server ms_set_lsa ms_lsa_data]. intros Hv.
    rewrite (mem_write_lookup _ _ _ _ _ Hl2), decide_False by (fold n; lia). by apply Hkeep.
Qed.

(** The server, over a memory that starts at address zero. *)
Definition main_memsim : MemsimServer cxl_memsim_request_tcp := {|
  srv_ok := link_ok;
  srv_range := link_range;
  srv_byte := fun l => byte_at (ms_shm (ln_server l)) hd;
  srv_label := link_label;
  srv_read := link_read;
  srv_write := link_write;
  srv_lsa_read := link_lsa_read;
  srv_lsa_write := link_lsa_write
|}.
End Promises.
End Link.

(** ** Windows over a server *)
Section ForwardedWindow.
  Context {S : Type} (request : Z -> Z -> Z -> list Z -> S -> option CXLMemSimResponse * S) `{!MemsimServer request} (ms : memsim_config) (random : list Z).
  Context (Hon : ms_enabled ms = true) (Hrpc : rpc_transport (ms_transport_mode ms) = true).
  Context (fw : CXLFixedWindow) (iw : Z) (devs : list nat) (start : nat -> Z) (Hil : interleaved fw iw devs).
  #[local] Notation ig := (fw_enc_int_gran fw).

(** The offset at the server of an access, with the device left out. *)
Definition server_offset (off : Z) : Z :=
  start (default 0%nat (devs !! Z.to_nat (slot ig (ways iw) (fw_base fw + off)))) + dpa_ref ig iw off.

(** A load after a store with the same offset at the server. *)
Lemma forwarded_pair (world : list CXLType3Dev) (off off' : Z) (bs : list Z) (s : S) :
  window_serves fw iw devs start world -> 0 <= off < fw_size fw -> 0 <= off' < fw_size fw ->
  srv_ok s -> srv_range (server_offset off) (Z.of_nat (length bs)) -> Z.of_nat (length bs) <= 64 -> server_offset off = server_offset off' ->
  exists s', window_run request ms random fw [Store off bs; Load off' (Z.of_nat (length bs))] world s = Some ([(MEMTX_OK, []); (MEMTX_OK, bs)], world, s') /\ srv_ok s'.
Proof.
  intros Hs Ho Ho' Hok Hr Hn Heq.
  destruct (access_lands fw iw devs start Hil world off (Z.of_nat (length bs)) Hs Ho) as (i&d&m&Hi&Hd&Hm&[Hmed _ _ _ _]&Hfind&Hhpa&_&_).
  destruct (access_lands fw iw devs start Hil world off' (Z.of_nat (length bs)) Hs Ho') as (i'&d'&m'&Hi'&Hd'&Hm'&[Hmed' _ _ _ _]&Hfind'&Hhpa'&_&_).
  unfold server_offset in Hr, Heq. rewrite Hi in Hr, Heq. rewrite Hi' in Heq. cbn [default from_option id] in Hr, Heq. unfold id in Hr, Heq.
  destruct (forwarded_write request ms Hon Hrpc d (off ⊞ fw_base fw) _ hostvmem_as bs s Hok Hr Hmed) as (s1&Hw&Hok1&Hbytes); [cbn; by rewrite Hm|done|].
  destruct (forwarded_read request ms random Hon Hrpc d' (off' ⊞ fw_base fw) (start i' + dpa_ref ig iw off') (Z.of_nat (length bs)) hostvmem_as
    (replicate (Z.to_nat (Z.of_nat (length bs))) 0) s1 Hok1) as (s2&Hrd&Hok2&_); [by rewrite <- Heq|done|done|cbn; by rewrite Hm'|done|].
  exists s2. split; [|done]. cbn [window_run window_step]. unfold cxl_write_cfmws. rewrite Hfind. cbn [mbind option_bind]. rewrite Hd. cbn [mbind option_bind].
  rewrite Hw. cbn [mbind option_bind]. rewrite list_insert_id by done. unfold cxl_read_cfmws. rewrite Hfind'. cbn [mbind option_bind]. rewrite Hd'. cbn [mbind option_bind].
  rewrite Hrd. cbn [mbind option_bind]. by rewrite <- Heq, Hbytes.
Qed.
End ForwardedWindow.

(** ** Theorems *)

(** Over a transport on which the server holds the data, a load through any device returns what
    was last stored at its offset through any device.  A device reads back what it wrote; two
    devices, or the volatile and the persistent memory of one, are not kept apart. *)
Theorem memsim_shares_offsets {S} (request : Z -> Z -> Z -> list Z -> S -> option CXLMemSimResponse * S) `{!MemsimServer request} (ms : memsim_config)
    (random data bs : list Z) (d1 d2 : CXLType3Dev) (addr1 addr2 x : Z) (as1 as2 : AddressSpace) (s : S)
    (Hon : ms_enabled ms = true) (Hrpc : rpc_transport (ms_transport_mode ms) = true) (Hok : srv_ok s)
    (Hr : srv_range x (Z.of_nat (length bs))) (Hn : Z.of_nat (length bs) <= 64)
    (Hm1 : t3_media_disabled d1 = false) (Hm2 : t3_media_disabled d2 = false)
    (Ht1 : memory_region_size (t3_hostvmem d1) + memory_region_size (t3_hostpmem d1) + memory_region_size (t3_host_dc d1) < 2 ^ 64)
    (Ht2 : memory_region_size (t3_hostvmem d2) + memory_region_size (t3_hostpmem d2) + memory_region_size (t3_host_dc d2) < 2 ^ 64)
    (H1 : cxl_type3_hpa_to_as_and_dpa d1 addr1 (Z.of_nat (length bs)) = Some (inr (as1, x)))
    (H2 : cxl_type3_hpa_to_as_and_dpa d2 addr2 (Z.of_nat (length bs)) = Some (inr (as2, x))) :
  exists s1 s2, cxl_type3_write request ms d1 addr1 bs s = Some (MEMTX_OK, d1, s1) /\
    cxl_type3_read request ms random d2 addr2 (Z.of_nat (length bs)) data s1 = Some (MEMTX_OK, bs, s2) /\ srv_ok s2.
Proof.
  destruct (forwarded_write request ms Hon Hrpc d1 addr1 x as1 bs s Hok Hr Hm1 (hpa_backend _ _ _ _ _ Ht1 H1) H1) as (s1&Hw&Hok1&Hb).
  destruct (forwarded_read request ms random Hon Hrpc d2 addr2 x (Z.of_nat (length bs)) as2 data s1 Hok1 Hr Hn Hm2 (hpa_backend _ _ _ _ _ Ht2 H2) H2) as (s2&Hrd&Hok2&_).
  exists s1, s2. split_and!; [done|by rewrite Hrd, Hb|done].
Qed.

(** C15. From the window over interleaved devices, over TCP, to the memory of the server and back: what
    the host stores it loads again. *)
Theorem window_server_roundtrip {D} `{Double D} (calculate_latency : Z -> Z -> D) (thread : Z) (now now_ms tick : Z -> Z) (hd : SharedMemoryHeader)
    (ms : memsim_config) (random bs : list Z) (fw : CXLFixedWindow) (iw : Z) (devs : list nat) (start : nat -> Z) (world : list CXLType3Dev) (off : Z) (l : tcp_link)
    (Htick : forall t, t <= tick t) (Hbase : sh_base_addr hd = 0) (Hsize : sh_num_cachelines hd * 64 < 2 ^ 64) (Hl : link_ok hd l)
    (Hon : ms_enabled ms = true) (Hrpc : rpc_transport (ms_transport_mode ms) = true) (Hil : interleaved fw iw devs)
    (Hs : window_serves fw iw devs start world) (Ho : 0 <= off < fw_size fw) (Hn : 1 <= Z.of_nat (length bs) <= 64)
    (Hin : forall i, start i + fw_size fw / ways iw + 64 <= sh_num_cachelines hd * 64) :
  exists l', window_run (cxl_memsim_request_tcp calculate_latency thread now now_ms tick) ms random fw [Store off bs; Load off (Z.of_nat (length bs))] world l
    = Some ([(MEMTX_OK, []); (MEMTX_OK, bs)], world, l') /\ link_ok hd l'.
Proof.
  destruct (window_gran fw iw devs Hil) as (Hg0&_&_). pose proof (il_iw _ _ _ Hil) as Hiw.
  destruct (access_lands fw iw devs start Hil world off 1 Hs Ho) as (i&d&m&Hi&_&_&[_ Hst _ _ _]&_).
  assert (link_range hd (server_offset fw iw devs start off) (Z.of_nat (length bs))) as Hr.
  { unfold server_offset. rewrite Hi. cbn [from_option]. unfold id. pose proof (dpa_ref_le (fw_enc_int_gran fw) iw off Hg0 Hiw ltac:(lia)).
    pose proof (dpa_ref_bound (fw_enc_int_gran fw) iw Hg0 Hiw off (fw_size fw) Ho (il_size _ _ _ Hil)). specialize (Hin i). split_and!; lia. }
  apply (forwarded_pair (MemsimServer0 := main_memsim calculate_latency thread now now_ms tick Htick hd Hbase Hsize) _ ms random Hon Hrpc fw iw devs start Hil world off off bs l);
    (done || lia).
Qed.

(** C39. The server does not keep interleaved devices apart: a store to one granule is read back from
    the next granule of the round, which belongs to another device. *)
Theorem memsim_interleave_aliases {S} (request : Z -> Z -> Z -> list Z -> S -> option CXLMemSimResponse * S) `{!MemsimServer request} (ms : memsim_config)
    (random bs : list Z) (fw : CXLFixedWindow) (iw : Z) (devs : list nat) (first off : Z) (world : list CXLType3Dev) (s : S)
    (Hon : ms_enabled ms = true) (Hrpc : rpc_transport (ms_transport_mode ms) = true) (Hil : interleaved fw iw devs)
    (Hs : window_serves fw iw devs (fun _ => first) world) (Hok : srv_ok s) (Hn : Z.of_nat (length bs) <= 64)
    (Hr : srv_range (first + dpa_ref (fw_enc_int_gran fw) iw off) (Z.of_nat (length bs)))
    (Ho : 0 <= off /\ off + gran (fw_enc_int_gran fw) < fw_size fw) (Hround : (off / gran (fw_enc_int_gran fw)) mod ways iw < ways iw - 1) :
  exists s', window_run request ms random fw [Store off bs; Load (off + gran (fw_enc_int_gran fw)) (Z.of_nat (length bs))] world s
    = Some ([(MEMTX_OK, []); (MEMTX_OK, bs)], world, s') /\
  slot (fw_enc_int_gran fw) (ways iw) (fw_base fw + off) <> slot (fw_enc_int_gran fw) (ways iw) (fw_base fw + (off + gran (fw_enc_int_gran fw))).
Proof.
  destruct (window_gran fw iw devs Hil) as (Hg0&Hg&Hw). set (g := gran (fw_enc_int_gran fw)) in *.
  assert ((off + g) / g = off / g + 1) as Hd by (replace (off + g) with (off + 1 * g) by lia; apply Z.div_add; lia).
  assert (dpa_ref (fw_enc_int_gran fw) iw (off + g) = dpa_ref (fw_enc_int_gran fw) iw off) as Edpa.
  { unfold dpa_ref. fold g. replace ((off + g) mod g) with (off mod g) by (replace (off + g) with (off + 1 * g) by lia; by rewrite Z.mod_add by lia).
    rewrite <- !Z.div_div, Hd by lia. do 2 f_equal. symmetry. pose proof (Z.div_mod (off / g) (ways iw) ltac:(lia)). pose proof (Z.mod_pos_bound (off / g) (ways iw) Hw).
    apply Z.div_unique with ((off / g) mod ways iw + 1); lia. }
  destruct (forwarded_pair request ms random Hon Hrpc fw iw devs (fun _ => first) Hil world off (off + g) bs s Hs ltac:(lia) ltac:(lia) Hok Hr Hn) as (s'&Hrun&_);
    [unfold server_offset; by rewrite Edpa|]. exists s'. split; [done|].
  rewrite !slot_offset by (done || apply Hil). fold g. rewrite Hd. intros E. set (b := fw_base fw / g) in *.
  assert ((b + (off / g + 1) - (b + off / g)) mod ways iw = 0) as E1 by (rewrite Zminus_mod, <- E, Z.sub_diag; apply Z.mod_0_l; lia).
  replace (b + (off / g + 1) - (b + off / g)) with 1 in E1 by lia. pose proof (Z.mod_pos_bound (off / g) (ways iw) Hw). rewrite Z.mod_small in E1 by lia. lia.
Qed.

(** Labels that were stored are read back, however many chunks they take: from the server on a
    transport that reaches it, from the backend of the device otherwise. *)
Theorem lsa_roundtrip {S} (request : Z -> Z -> Z -> list Z -> S -> option CXLMemSimResponse * S) `{!MemsimServer request} (ms : memsim_config)
    (d : CXLType3Dev) (lsa buf bs : list Z) (off : Z) (s : S)
    (Hlsa : t3_lsa d = Some lsa) (Hok : srv_ok s) (Ho : 0 <= off) (Htop : off + Z.of_nat (length bs) < 2 ^ 64) :
  (ms_enabled ms && rpc_transport (ms_transport_mode ms) = true ->
     exists s1 s2, set_lsa request ms d bs off s = Some (d, s1) /\ get_lsa request ms d (Z.of_nat (length bs)) off buf s1 = Some (bs, Z.of_nat (length bs), s2)) /\
  (ms_enabled ms && rpc_transport (ms_transport_mode ms) = false -> bs <> [] -> off + Z.of_nat (length bs) <= Z.of_nat (length lsa) ->
     exists d', set_lsa request ms d bs off s = Some (d', s) /\ get_lsa request ms d' (Z.of_nat (length bs)) off buf s = Some (bs, Z.of_nat (length bs), s)).
Proof.
  unfold set_lsa, get_lsa. rewrite Hlsa. split; intros Hms; rewrite Hms.
  - destruct (lsa_write_loop_ok request (lsa_fuel (Z.of_nat (length bs))) bs off s Hok Ho Htop) as (s1&->&Hok1&Hlab&_); [apply lsa_fuel_enough; lia|]. cbn [mbind option_bind].
    set (f x := default 0 (bs !! Z.to_nat (x - off))).
    destruct (lsa_read_loop_ok request (lsa_fuel (Z.of_nat (length bs))) (Z.of_nat (length bs)) off f s1 Hok1 Ho ltac:(lia) Htop) as (s2&Hrl&_); [apply lsa_fuel_enough; lia| |].
    { intros x Hx. rewrite Hlab by done. unfold f. destruct (lookup_lt_is_Some_2 bs (Z.to_nat (x - off))) as [b ->]; [lia|]. done. }
    exists s1, s2. split; [done|]. rewrite Hrl. cbn [mbind option_bind]. rewrite flat_read_self; [done|]. intros k b Hb. unfold f.
    replace (Z.to_nat (off + Z.of_nat k - off)) with k by lia. by rewrite Hb.
  - intros Hne Hlen. assert (0 < Z.of_nat (length bs)) by (destruct bs; [done|cbn; lia]). destruct (mem_write_Some off bs lsa) as [m' Hm']; [lia|lia|].
    assert (forall m : list Z, length m = length lsa -> validate_lsa_access m (Z.of_nat (length bs)) off = Some tt) as Hval.
    { intros m Hm. unfold validate_lsa_access. rewrite wrap64_small by (unfold u64; lia). rewrite Hm, (proj2 (andb_true_iff _ _)) by lia. done. }
    exists (set_lsa_bytes (Some m') d). cbn [mbind option_bind]. rewrite Hval by done. cbn [mbind option_bind]. rewrite Hm'. cbn [mbind option_bind]. split; [done|].
    cbn [t3_lsa set_lsa_bytes]. cbn [mbind option_bind]. rewrite Hval by (apply (mem_write_length _ _ _ _ Hm')). cbn [mbind option_bind].
    by rewrite (mem_read_write_same _ _ _ _ Hm').
Qed.

(** ** Examples: a server of 256 MiB and a line. *)
Definition demo_server_header : SharedMemoryHeader := mkSharedMemoryHeader MAGIC_NUMBER FORMAT_VERSION 312 56 0 (2 ^ 22 + 1) 0.

Definition demo_server_bytes : list Z := replicate (Z.to_nat ((2 ^ 22 + 1) * 64)) 0.

Definition demo_link : tcp_link :=
  mkLink (main_new (mkSharedMemoryManager 1 0 false (Some demo_server_header) demo_server_bytes ∅ []) 0 (replicate 64 0)) 0.

Definition demo_tcp : memsim_config := mkMemsim true CXL_TRANSPORT_TCP.

Definition demo_tcp_request : Z -> Z -> Z -> list Z -> tcp_link -> option CXLMemSimResponse * tcp_link :=
  cxl_memsim_request_tcp demo_latency 1 (fun t => t) (fun _ => 0) Z.succ.

Lemma demo_link_ok : link_ok demo_server_header demo_link.
Proof.
  split_and!.
  - split; [done|]. cbn [ln_server demo_link main_new ms_shm sm_data_area]. unfold demo_server_bytes. rewrite length_replicate, Z2Nat.id by lia. cbn. lia.
  - intros line. change (ms_back_invalidations (ln_server demo_link)) with (∅ : gmap Z (list BackInvalidationEntry)). rewrite lookup_empty. constructor.
  - intros line. unfold metadata_of. change (sm_metadata_cache (ms_shm (ln_server demo_link))) with (∅ : gmap Z CachelineMetadata).
    rewrite lookup_empty. change (ln_clock demo_link) with 0. vm_compute. discriminate.
Qed.

#[local] Instance demo_memsim : MemsimServer demo_tcp_request :=
  main_memsim demo_latency 1 (fun t => t) (fun _ => 0) Z.succ Z.le_succ_diag_r demo_server_header eq_refl ltac:(reflexivity).

Lemma demo_hpa (off x : Z) : 0 <= off < 2 ^ 29 -> dpa_ref 0 1 off = x -> cxl_type3_hpa_to_as_and_dpa (demo_type3 demo_bytes) (2 ^ 32 + off) 2 = Some (inr (hostvmem_as, x)).
Proof.
  intros Ho Hx. assert (dpa_ref 0 1 off < 2 ^ 29 / ways 1) as Hb by (apply dpa_ref_bound; [lia|lia|lia|reflexivity]). change (2 ^ 29 / ways 1) with (2 ^ 28) in Hb.
  unfold cxl_type3_hpa_to_as_and_dpa. cbn [demo_type3 t3_hostvmem t3_hostpmem t3_host_dc t3_hdm memory_region_size]. rewrite demo_bytes_length, demo_decodes by lia.
  cbn [mbind option_bind]. replace (2 ^ 32 + off - 2 ^ 32) with off by lia. rewrite Hx in *. rewrite !Z.add_0_r, (wrap64_small (2 ^ 28)), wrap64_small by (unfold u64; lia).
  rewrite (proj2 (Z.leb_gt _ _)), (proj2 (Z.ltb_lt _ _)) by lia. done.
Qed.

Lemma memsim_shares_offsets_witness :
  exists s1 s2, cxl_type3_write demo_tcp_request demo_tcp (demo_type3 demo_bytes) (2 ^ 32 + 16) [7; 8] demo_link = Some (MEMTX_OK, demo_type3 demo_bytes, s1) /\
    cxl_type3_read demo_tcp_request demo_tcp [] (demo_type3 demo_bytes) (2 ^ 32 + 272) 2 [0; 0] s1 = Some (MEMTX_OK, [7; 8], s2).
Proof.
  assert (memory_region_size (t3_hostvmem (demo_type3 demo_bytes)) + memory_region_size (t3_hostpmem (demo_type3 demo_bytes)) + memory_region_size (t3_host_dc (demo_type3 demo_bytes)) < 2 ^ 64) as Ht
    by (cbn [demo_type3 t3_hostvmem t3_hostpmem t3_host_dc memory_region_size]; rewrite demo_bytes_length; lia).
  destruct (memsim_shares_offsets (MemsimServer0 := demo_memsim) demo_tcp_request demo_tcp [] [0; 0] [7; 8] (demo_type3 demo_bytes) (demo_type3 demo_bytes) (2 ^ 32 + 16) (2 ^ 32 + 272) 16 hostvmem_as hostvmem_as
    demo_link eq_refl eq_refl demo_link_ok) as (s1&s2&H1&H2&_).
  - split; [lia|]. split; [cbn; lia|]. vm_compute. discriminate.
  - cbn. lia.
  - reflexivity.
  - reflexivity.
  - exact Ht.
  - exact Ht.
  - apply (demo_hpa 16 16); [lia|reflexivity].
  - apply (demo_hpa 272 16); [lia|reflexivity].
  - exists s1, s2. split; [exact H1|exact H2].
Defined.

Lemma window_server_roundtrip_witness :
  exists l', window_run demo_tcp_request demo_tcp [] demo_window [Store 300 [7; 8]; Load 300 2] [demo_type3 demo_bytes; demo_type3 demo_bytes] demo_link
    = Some ([(MEMTX_OK, []); (MEMTX_OK, [7; 8])], [demo_type3 demo_bytes; demo_type3 demo_bytes], l').
Proof.
  destruct (window_server_roundtrip demo_latency 1 (fun t => t) (fun _ => 0) Z.succ demo_server_header demo_tcp [] [7; 8] demo_window 1 [0; 1]%nat (fun _ => 0)
    [demo_type3 demo_bytes; demo_type3 demo_bytes] 300 demo_link Z.le_succ_diag_r eq_refl ltac:(reflexivity) demo_link_ok eq_refl eq_refl demo_interleaved
    (demo_devices_serve demo_bytes demo_bytes_length)) as (l'&H&_).
  - cbn. lia.
  - cbn. lia.
  - intros i. vm_compute. discriminate.
  - exists l'. exact H.
Defined.

Lemma memsim_interleave_aliases_witness :
  exists l', window_run demo_tcp_request demo_tcp [] demo_window [Store 16 [7; 8]; Load 272 2] [demo_type3 demo_bytes; demo_type3 demo_bytes] demo_link
    = Some ([(MEMTX_OK, []); (MEMTX_OK, [7; 8])], [demo_type3 demo_bytes; demo_type3 demo_bytes], l').
Proof.
  destruct (memsim_interleave_aliases (MemsimServer0 := demo_memsim) demo_tcp_request demo_tcp [] [7; 8] demo_window 1 [0; 1]%nat 0 16 [demo_type3 demo_bytes; demo_type3 demo_bytes] demo_link
    eq_refl eq_refl demo_interleaved (demo_devices_serve demo_bytes demo_bytes_length) demo_link_ok) as (l'&H&_).
  - cbn. lia.
  - split; [vm_compute; discriminate|]. split; [cbn; lia|]. vm_compute. discriminate.
  - split; [lia|]. vm_compute. reflexivity.
  - vm_compute. reflexivity.
  - exists l'. exact H.
Defined.

Lemma lsa_roundtrip_witness :
  let d := mkType3 demo_hdm None None None (Type3Dcd.mkDc 0 [] [] 0 0 [] []) (Some (replicate 256 0)) false in
  exists s1 s2, set_lsa demo_tcp_request demo_tcp d (replicate 100 5) 30 demo_link = Some (d, s1) /\ get_lsa demo_tcp_request demo_tcp d 100 30 [] s1 = Some (replicate 100 5, 100, s2).
Proof.
  intros d. destruct (lsa_roundtrip (MemsimServer0 := demo_memsim) demo_tcp_request demo_tcp d (replicate 256 0) [] (replicate 100 5) 30 demo_link eq_refl demo_link_ok) as [H _].
  - lia.
  - rewrite length_replicate. lia.
  - exact (H eq_refl).
Defined.
