(* ===== verification/Type2P2p.v ===== *)
(** * Transfers between devices ([library/qemu/hw/cxl/cxl_p2p_dma.c])

    The engine of a type 2 device copies between its memory and that of type 3 devices on the same
    bus.  [world] is what the engine works on: the owner, the type 3 devices of the bus by
    number, the simulation server, and the engine.  A pointer of a peer to memory is
    [mem_ref].  Clocks are left out, and so is the mutex of the engine: the functions that take it
    do not call each other.  The bytes of a variable or buffer that was not initialised are
    parameters ([junk], [heap]).  [None] of an operation is an access outside of a memory, an
    overlapping [memcpy], or a wait for a mutex that the thread holds.

    [p2p_copies] shows that a transfer copies its range and changes no other byte of any memory,
    [registry_ok] that peers have distinct numbers and are counted; [p2p_misses_server],
    [failed_transfer_succeeds], [sync_runs_head] and [transfer_wraps] are defects. *)
From S2P Require Import Prelude Pgas Type2Coherency Type2Cache Type3Decode Type3Access Type3Memsim.
#[local] Open Scope Z_scope.

Definition CXL_P2P_MAX_PEERS : nat := 16.
Definition CXL_P2P_FLAG_SYNC : Z := 1.
Definition CXL_P2P_FLAG_COHERENT : Z := 2.

Inductive CXLP2PDirection := CXL_P2P_DIR_T2_TO_T3 | CXL_P2P_DIR_T3_TO_T2 | CXL_P2P_DIR_T3_TO_T3.
Inductive CXLP2PStatus :=
  CXL_P2P_STATUS_IDLE | CXL_P2P_STATUS_PENDING | CXL_P2P_STATUS_IN_PROGRESS | CXL_P2P_STATUS_COMPLETE | CXL_P2P_STATUS_ERROR | CXL_P2P_STATUS_ABORTED.
Inductive CXLP2PPeerType := CXL_P2P_PEER_TYPE2 | CXL_P2P_PEER_TYPE3.

Definition peer_type_val (t : CXLP2PPeerType) : Z := match t with CXL_P2P_PEER_TYPE2 => 2 | CXL_P2P_PEER_TYPE3 => 3 end.

(** A host pointer to the memory of a device. *)
Inductive mem_ref := MemNull | MemOwner | MemVolatile (devfn : nat) | MemPersistent (devfn : nat).

#[global] Instance mem_ref_eq_dec : EqDecision mem_ref.
Proof. solve_decision. Defined.

Record CXLP2PPeer := mkPeer {
  pe_devfn : nat;                      (* pci_dev *)
  pe_type : CXLP2PPeerType;
  pe_mem_size : Z;
  pe_mem_ptr : mem_ref;
  pe_active : bool;
  pe_coherent : bool;
  pe_peer_id : Z
}.

Record CXLP2PDescriptor := mkDescriptor {
  de_src_addr : Z;
  de_dst_addr : Z;
  de_size : Z;
  de_src_peer_id : Z;
  de_dst_peer_id : Z;
  de_flags : Z;
  de_direction : CXLP2PDirection;
  de_status : CXLP2PStatus;
  de_error_code : Z
}.

Record p2p_stats := mkP2pStats {
  ps_transfers_completed : Z;
  ps_transfers_failed : Z;
  ps_bytes_transferred : Z;
  ps_t2_to_t3 : Z;
  ps_t3_to_t2 : Z;
  ps_t3_to_t3 : Z;
  ps_coherency_ops : Z
}.

Record CXLP2PDMAEngine := mkEngine {
  en_peers : list CXLP2PPeer;
  en_num_peers : Z;
  en_pending_transfers : list CXLP2PDescriptor;
  en_completed_transfers : list CXLP2PDescriptor;
  en_enabled : bool;
  en_owner_peer_id : Z;
  en_stats : p2p_stats;
  en_max_transfer_size : Z;
  en_queue_depth : Z;
  en_auto_coherency : bool
}.

Definition peer_free : CXLP2PPeer := mkPeer 0 CXL_P2P_PEER_TYPE2 0 MemNull false false 0.

Definition cxl_p2p_dma_init : CXLP2PDMAEngine :=
  mkEngine (replicate CXL_P2P_MAX_PEERS peer_free) 0 [] [] true 0 (mkP2pStats 0 0 0 0 0 0 0) (64 * 1024 * 1024) 64 true.

Definition set_peers (l : list CXLP2PPeer) (n owner : Z) (e : CXLP2PDMAEngine) : CXLP2PDMAEngine :=
  mkEngine l n (en_pending_transfers e) (en_completed_transfers e) (en_enabled e) owner (en_stats e) (en_max_transfer_size e) (en_queue_depth e) (en_auto_coherency e).

Definition set_transfers (p c : list CXLP2PDescriptor) (e : CXLP2PDMAEngine) : CXLP2PDMAEngine :=
  mkEngine (en_peers e) (en_num_peers e) p c (en_enabled e) (en_owner_peer_id e) (en_stats e) (en_max_transfer_size e) (en_queue_depth e) (en_auto_coherency e).

Definition set_p2p_stats (s : p2p_stats) (e : CXLP2PDMAEngine) : CXLP2PDMAEngine :=
  mkEngine (en_peers e) (en_num_peers e) (en_pending_transfers e) (en_completed_transfers e) (en_enabled e) (en_owner_peer_id e) s (en_max_transfer_size e) (en_queue_depth e) (en_auto_coherency e).

Section Engine.
Context {S : Type} (request : Z -> Z -> Z -> list Z -> S -> option CXLMemSimResponse * S) (ms : memsim_config) (random : list Z).
Context (junk heap : Z -> list Z).

(** [static uint32_t next_id] of [allocate_peer_id] is shared by all engines. *)
Record world := mkWorld { wo_owner : device; wo_bus : list (option CXLType3Dev); wo_server : S; wo_engine : CXLP2PDMAEngine; wo_next_id : Z }.

Definition set_engine (e : CXLP2PDMAEngine) (w : world) : world := mkWorld (wo_owner w) (wo_bus w) (wo_server w) e (wo_next_id w).

Definition set_owner (d : device) (w : world) : world := mkWorld d (wo_bus w) (wo_server w) (wo_engine w) (wo_next_id w).

Definition set_server (l : S) (w : world) : world := mkWorld (wo_owner w) (wo_bus w) l (wo_engine w) (wo_next_id w).

Definition device_at (w : world) (devfn : nat) : option CXLType3Dev := mjoin (wo_bus w !! devfn).

Definition set_device (devfn : nat) (t : CXLType3Dev) (w : world) : world := mkWorld (wo_owner w) (<[devfn := Some t]> (wo_bus w)) (wo_server w) (wo_engine w) (wo_next_id w).

(** [cxl_dstate.static_mem_size], which [cxl_setup_memory] adds up. *)
Definition static_mem_size (t : CXLType3Dev) : Z := memory_region_size (t3_hostvmem t) ⊞ memory_region_size (t3_hostpmem t).

(** ** Peers *)
Definition free_slot (e : CXLP2PDMAEngine) : option nat := fst <$> list_find (fun p => Is_true (negb (pe_active p))) (en_peers e).

Definition add_peer (slot : nat) (mk : Z -> CXLP2PPeer) (is_owner : bool) (w : world) : world :=
  let id := wo_next_id w in
  let e := wo_engine w in
  mkWorld (wo_owner w) (wo_bus w) (wo_server w)
    (set_peers (<[slot := mk id]> (en_peers e)) (wrap32 (en_num_peers e + 1)) (if is_owner then id else en_owner_peer_id e) e)
    (wrap32 (id + 1)).

Definition cxl_p2p_register_peer_type3 (w : world) (devfn : nat) (t : CXLType3Dev) : Z * world :=
  match free_slot (wo_engine w) with
  | None => (-1, w)
  | Some slot =>
      let '(size, ptr) :=
        match t3_hostvmem t, t3_hostpmem t with
        | Some m, _ => (Z.of_nat (length m), MemVolatile devfn)
        | None, Some m => (Z.of_nat (length m), MemPersistent devfn)
        | None, None => (static_mem_size t, MemNull)
        end in
      (0, add_peer slot (mkPeer devfn CXL_P2P_PEER_TYPE3 size ptr true false) false w)
  end.

Definition cxl_p2p_register_peer_type2 (w : world) (devfn : nat) : Z * world :=
  match free_slot (wo_engine w) with
  | None => (-1, w)
  | Some slot =>
      (0, add_peer slot (mkPeer devfn CXL_P2P_PEER_TYPE2 (device_mem_size (wo_owner w)) MemOwner true (co_coherency_enabled (dv_coherency (wo_owner w)))) true w)
  end.

Definition find_peer (e : CXLP2PDMAEngine) (peer_id : Z) : option (nat * CXLP2PPeer) :=
  list_find (fun p => Is_true (pe_active p && (pe_peer_id p =? peer_id))) (en_peers e).

Definition cxl_p2p_unregister_peer (w : world) (peer_id : Z) : world :=
  let e := wo_engine w in
  match find_peer e peer_id with
  | Some (i, _) => set_engine (set_peers (<[i := peer_free]> (en_peers e)) (wrap32 (en_num_peers e - 1)) (en_owner_peer_id e) e) w
  | None => w
  end.

Definition cxl_p2p_get_peer (e : CXLP2PDMAEngine) (peer_id : Z) : option CXLP2PPeer := snd <$> find_peer e peer_id.

(** The scan of the bus; [owner_devfn] is the owner's place on it. *)
Fixpoint scan_bus (devs : list (option CXLType3Dev)) (devfn owner_devfn : nat) (discovered : Z) (w : world) : Z * world :=
  match devs with
  | [] => (discovered, w)
  | dev :: devs' =>
      match dev with
      | Some t =>
          if decide (devfn = owner_devfn) then scan_bus devs' (Datatypes.S devfn) owner_devfn discovered w
          else
            let '(r, w) := cxl_p2p_register_peer_type3 w devfn t in
            scan_bus devs' (Datatypes.S devfn) owner_devfn (if r =? 0 then discovered + 1 else discovered) w
      | None => scan_bus devs' (Datatypes.S devfn) owner_devfn discovered w
      end
  end.

Definition cxl_p2p_discover_peers (owner_devfn : nat) (w : world) : Z * world :=
  let '(r, w) := cxl_p2p_register_peer_type2 w owner_devfn in
  scan_bus (wo_bus w) 0 owner_devfn (if r =? 0 then 1 else 0) w.

(** ** Memory *)
Definition ref_memory (w : world) (r : mem_ref) : option (list Z) :=
  match r with
  | MemNull => None
  | MemOwner => Some (dv_device_mem (wo_owner w))
  | MemVolatile i => t ← device_at w i; t3_hostvmem t
  | MemPersistent i => t ← device_at w i; t3_hostpmem t
  end.

Definition set_ref_memory (r : mem_ref) (m : list Z) (w : world) : world :=
  match r with
  | MemNull => w
  | MemOwner => set_owner (set_mem m (wo_owner w)) w
  | MemVolatile i => match device_at w i with Some t => set_device i (set_backend hostvmem_as m t) w | None => w end
  | MemPersistent i => match device_at w i with Some t => set_device i (set_backend hostpmem_as m t) w | None => w end
  end.

Definition load (r : mem_ref) (off n : Z) (w : world) : option (list Z) := m ← ref_memory w r; mem_read off n m.

Definition store (r : mem_ref) (off : Z) (bs : list Z) (w : world) : option world :=
  m ← ref_memory w r; m ← mem_write off bs m; Some (set_ref_memory r m w).

(** [memcpy] between two places that do not overlap. *)
Definition copy_between (dst src : mem_ref) (dst_off src_off n : Z) (w : world) : option world :=
  if bool_decide (dst = src) && (dst_off <? src_off + n) && (src_off <? dst_off + n) then None
  else bs ← load src src_off n w; store dst dst_off bs w.

(** ** Coherency *)
Definition cxl_p2p_ensure_coherency (peer_id addr : Z) (is_write : bool) (w : world) : option world :=
  match cxl_p2p_get_peer (wo_engine w) peer_id with
  | None => Some w
  | Some peer =>
      match pe_type peer with
      | CXL_P2P_PEER_TYPE2 =>
          if peer_id =? en_owner_peer_id (wo_engine w) then
            let owner := wo_owner w in
            owner ← (if bc_enabled (dv_bar_coherency owner) then
                       '(_, b) ← cxl_bar_coherency_request (dv_bar_coherency owner) (if is_write then CXL_COH_REQ_WR_INV else CXL_COH_REQ_RD_SHARED) addr CXL_DOMAIN_GPU;
                       Some (set_bar b owner)
                     else Some owner);
            owner ← (if is_write then Some (cxl_type2_cache_invalidate owner addr) else cxl_type2_cache_writeback owner addr);
            Some (set_owner owner w)
          else Some w
      | CXL_P2P_PEER_TYPE3 => Some w
      end
  end.

Definition cxl_p2p_invalidate_peer_cache (peer_id addr : Z) (w : world) : option world := cxl_p2p_ensure_coherency peer_id addr true w.

(** ** Transfers *)

(** The bytes read from a type 3 device, eight at a time. *)
Fixpoint type3_read_loop (fuel : nat) (devfn : nat) (addr size off : Z) (w : world) : option (list Z * world) :=
  match fuel with
  | O => None
  | Datatypes.S fuel' =>
      if off <? size then
        let chunk := Z.min 8 (size - off) in
        t ← device_at w devfn;
        '(_, data, s) ← cxl_type3_read request ms random t (addr ⊞ off) chunk (take (Z.to_nat chunk) (junk off)) (wo_server w);
        '(rest, w) ← type3_read_loop fuel' devfn addr size (off + 8) (set_server s w);
        Some (data ++ rest, w)
      else Some ([], w)
  end.

Fixpoint type3_write_loop (fuel : nat) (devfn : nat) (addr off : Z) (buf : list Z) (w : world) : option world :=
  match fuel with
  | O => None
  | Datatypes.S fuel' =>
      match buf with
      | [] => Some w
      | _ =>
          t ← device_at w devfn;
          '(_, t, s) ← cxl_type3_write request ms t (addr ⊞ off) (take 8 buf) (wo_server w);
          type3_write_loop fuel' devfn addr (off + 8) (drop 8 buf) (set_device devfn t (set_server s w))
      end
  end.

Definition transfer_fuel (size : Z) : nat := Z.to_nat (size / 8 + 2).

Definition no_ptr (p : CXLP2PPeer) : bool := bool_decide (pe_mem_ptr p = MemNull).

Definition is_type3 (p : CXLP2PPeer) : bool := match pe_type p with CXL_P2P_PEER_TYPE3 => true | CXL_P2P_PEER_TYPE2 => false end.

(** A source that is read through [cxl_type3_read]. *)
Definition indirect_read (src dst : CXLP2PPeer) (d : CXLP2PDescriptor) (w : world) : option world :=
  if is_type3 src && no_ptr src then
    '(buf, w) ← type3_read_loop (transfer_fuel (de_size d)) (pe_devfn src) (de_src_addr d) (de_size d) 0 w;
    if no_ptr dst then Some w else store (pe_mem_ptr dst) (de_dst_addr d) buf w
  else Some w.

(** A destination that is written through [cxl_type3_write]. *)
Definition indirect_write (src dst : CXLP2PPeer) (d : CXLP2PDescriptor) (w : world) : option world :=
  if is_type3 dst && no_ptr dst then
    buf ← (if no_ptr src then
             (if is_type3 src then Some (heap (de_size d)) else mem_read (de_src_addr d) (de_size d) (dv_device_mem (wo_owner w)))
           else load (pe_mem_ptr src) (de_src_addr d) (de_size d) w);
    type3_write_loop (transfer_fuel (de_size d)) (pe_devfn dst) (de_dst_addr d) 0 buf w
  else Some w.

Definition move_data (src dst : CXLP2PPeer) (d : CXLP2PDescriptor) (w : world) : option world :=
  if negb (no_ptr src) && negb (no_ptr dst)
  then copy_between (pe_mem_ptr dst) (pe_mem_ptr src) (de_dst_addr d) (de_src_addr d) (de_size d) w
  else w ← indirect_read src dst d w; indirect_write src dst d w.

Definition set_status (st : CXLP2PStatus) (code : Z) (d : CXLP2PDescriptor) : CXLP2PDescriptor :=
  mkDescriptor (de_src_addr d) (de_dst_addr d) (de_size d) (de_src_peer_id d) (de_dst_peer_id d) (de_flags d) (de_direction d) st code.

Definition count_coherency (t : p2p_stats) : p2p_stats :=
  mkP2pStats (ps_transfers_completed t) (ps_transfers_failed t) (ps_bytes_transferred t) (ps_t2_to_t3 t) (ps_t3_to_t2 t) (ps_t3_to_t3 t) (ps_coherency_ops t ⊞ 1).

Definition count_transfer (d : CXLP2PDescriptor) (t : p2p_stats) : p2p_stats :=
  let one dir := match dir, de_direction d with
    | CXL_P2P_DIR_T2_TO_T3, CXL_P2P_DIR_T2_TO_T3 | CXL_P2P_DIR_T3_TO_T2, CXL_P2P_DIR_T3_TO_T2 | CXL_P2P_DIR_T3_TO_T3, CXL_P2P_DIR_T3_TO_T3 => 1
    | _, _ => 0 end in
  mkP2pStats (ps_transfers_completed t ⊞ 1) (ps_transfers_failed t) (ps_bytes_transferred t ⊞ de_size d)
    (ps_t2_to_t3 t ⊞ one CXL_P2P_DIR_T2_TO_T3) (ps_t3_to_t2 t ⊞ one CXL_P2P_DIR_T3_TO_T2) (ps_t3_to_t3 t ⊞ one CXL_P2P_DIR_T3_TO_T3) (ps_coherency_ops t).

Definition set_stats_of (f : p2p_stats -> p2p_stats) (w : world) : world := set_engine (set_p2p_stats (f (en_stats (wo_engine w))) (wo_engine w)) w.

Definition transfer_coherency (d : CXLP2PDescriptor) (w : world) : option world :=
  if en_auto_coherency (wo_engine w) && negb (Z.land (de_flags d) CXL_P2P_FLAG_COHERENT =? 0) then
    w ← cxl_p2p_ensure_coherency (de_dst_peer_id d) (de_dst_addr d) true w;
    w ← cxl_p2p_ensure_coherency (de_src_peer_id d) (de_src_addr d) false w;
    Some (set_stats_of count_coherency w)
  else Some w.

Definition notify_owner (d : CXLP2PDescriptor) (w : world) : option world :=
  if bc_enabled (dv_bar_coherency (wo_owner w)) && (de_dst_peer_id d =? en_owner_peer_id (wo_engine w)) then
    b ← cxl_bar_notify_gpu_access (dv_bar_coherency (wo_owner w)) (de_dst_addr d) (de_size d) true;
    Some (set_owner (set_bar b (wo_owner w)) w)
  else Some w.

(** The descriptor with its status, and the world. *)
Definition perform_p2p_transfer (d : CXLP2PDescriptor) (w : world) : option (CXLP2PDescriptor * world) :=
  let e := wo_engine w in
  match cxl_p2p_get_peer e (de_src_peer_id d), cxl_p2p_get_peer e (de_dst_peer_id d) with
  | Some src, Some dst =>
      if en_max_transfer_size e <? de_size d then Some (set_status CXL_P2P_STATUS_ERROR 2 d, w)
      else if (pe_mem_size src <? de_src_addr d ⊞ de_size d) || (pe_mem_size dst <? de_dst_addr d ⊞ de_size d) then Some (set_status CXL_P2P_STATUS_ERROR 3 d, w)
      else
        w ← transfer_coherency d w;
        w ← move_data src dst d w;
        w ← notify_owner d (set_stats_of (count_transfer d) w);
        Some (set_status CXL_P2P_STATUS_COMPLETE (de_error_code d) d, w)
  | _, _ => Some (set_status CXL_P2P_STATUS_ERROR 1 d, w)
  end.

(** The result, the descriptor of the caller, and the world. *)
Definition cxl_p2p_dma_submit (d : CXLP2PDescriptor) (w : world) : option (Z * CXLP2PDescriptor * world) :=
  let e := wo_engine w in
  if negb (en_enabled e) then Some (-1, d, w)
  else if en_queue_depth e <=? Z.of_nat (length (en_pending_transfers e)) then Some (-1, d, w)
  else
    let pending := en_pending_transfers e ++ [set_status CXL_P2P_STATUS_PENDING (de_error_code d) d] in
    let w := set_engine (set_transfers pending (en_completed_transfers e) e) w in
    if Z.land (de_flags d) CXL_P2P_FLAG_SYNC =? 0 then Some (0, d, w)
    else
      match pending with
      | [] => Some (0, d, w)
      | q :: rest =>
          '(q, w) ← perform_p2p_transfer q (set_engine (set_transfers rest (en_completed_transfers e) e) w);
          let e := wo_engine w in
          Some (0, set_status (de_status q) (de_error_code q) d,
                set_engine (set_transfers (en_pending_transfers e) (en_completed_transfers e ++ [q]) e) w)
      end.

Definition cxl_p2p_dma_submit_and_wait (d : CXLP2PDescriptor) (w : world) : option (Z * CXLP2PDescriptor * world) :=
  cxl_p2p_dma_submit (mkDescriptor (de_src_addr d) (de_dst_addr d) (de_size d) (de_src_peer_id d) (de_dst_peer_id d) (Z.lor (de_flags d) CXL_P2P_FLAG_SYNC)
    (de_direction d) (de_status d) (de_error_code d)) w.

Definition cxl_p2p_dma_poll (d : CXLP2PDescriptor) : CXLP2PStatus := de_status d.

(** The queue holds copies, so the descriptor of the caller is never found in it. *)
Definition cxl_p2p_dma_abort (d : CXLP2PDescriptor) (w : world) : CXLP2PDescriptor * world := (d, w).

Definition cxl_p2p_gpu_to_mem (t3_peer_id gpu_offset mem_offset size flags : Z) (w : world) : option (Z * CXLP2PDescriptor * world) :=
  cxl_p2p_dma_submit_and_wait (mkDescriptor gpu_offset mem_offset size (en_owner_peer_id (wo_engine w)) t3_peer_id (Z.lor flags CXL_P2P_FLAG_SYNC)
    CXL_P2P_DIR_T2_TO_T3 CXL_P2P_STATUS_IDLE 0) w.

Definition cxl_p2p_mem_to_gpu (t3_peer_id mem_offset gpu_offset size flags : Z) (w : world) : option (Z * CXLP2PDescriptor * world) :=
  cxl_p2p_dma_submit_and_wait (mkDescriptor mem_offset gpu_offset size t3_peer_id (en_owner_peer_id (wo_engine w)) (Z.lor flags CXL_P2P_FLAG_SYNC)
    CXL_P2P_DIR_T3_TO_T2 CXL_P2P_STATUS_IDLE 0) w.

Definition cxl_p2p_mem_to_mem (src_peer_id dst_peer_id src_offset dst_offset size flags : Z) (w : world) : option (Z * CXLP2PDescriptor * world) :=
  cxl_p2p_dma_submit_and_wait (mkDescriptor src_offset dst_offset size src_peer_id dst_peer_id (Z.lor flags CXL_P2P_FLAG_SYNC)
    CXL_P2P_DIR_T3_TO_T3 CXL_P2P_STATUS_IDLE 0) w.
End Engine.

(** ** Memories keep their sizes *)
Definition dev_shape (t : CXLType3Dev) : option nat * option nat := (length <$> t3_hostvmem t, length <$> t3_hostpmem t).

Lemma set_backend_shape (as_ : AddressSpace) (m m' : list Z) (t : CXLType3Dev) :
  backend as_ t = Some m -> length m' = length m -> dev_shape (set_backend as_ m' t) = dev_shape t.
Proof. intros Hb Hl. destruct t, as_; cbn in *; subst; unfold dev_shape; cbn; by rewrite ?Hl. Qed.

Lemma as_write_length (m : list Z) (off : Z) (bs : list Z) : length (address_space_write m off bs).2 = length m.
Proof. unfold address_space_write. cbn [snd]. destruct (mem_write _ _ _) eqn:E; [|done]. by apply mem_write_length in E. Qed.

Section Shapes.
Context {S : Type} (request : Z -> Z -> Z -> list Z -> S -> option CXLMemSimResponse * S) (ms : memsim_config) (random : list Z) (junk heap : Z -> list Z).
#[local] Notation world := (world (S := S)).

Definition world_shape (w : world) : nat * list (option (option nat * option nat)) :=
  (length (dv_device_mem (wo_owner w)), (fun o : option CXLType3Dev => dev_shape <$> o) <$> wo_bus w).

(** [w'] differs from [w] in contents, the server, the queues and the statistics only. *)
Record keeps (w w' : world) : Prop := {
  ke_shape : world_shape w' = world_shape w;
  ke_peers : en_peers (wo_engine w') = en_peers (wo_engine w);
  ke_num : en_num_peers (wo_engine w') = en_num_peers (wo_engine w);
  ke_owner : en_owner_peer_id (wo_engine w') = en_owner_peer_id (wo_engine w);
  ke_next : wo_next_id w' = wo_next_id w
}.

#[global] Instance keeps_preorder : PreOrder keeps.
Proof. split; [by intros w|]. intros w1 w2 w3 [] []. split; congruence. Qed.

Lemma type3_write_shape (t t' : CXLType3Dev) (addr : Z) (bs : list Z) (s s' : S) (r : MemTxResult) :
  cxl_type3_write request ms t addr bs s = Some (r, t', s') -> dev_shape t' = dev_shape t.
Proof.
  unfold cxl_type3_write. cbv zeta. destruct (cxl_type3_hpa_to_as_and_dpa _ _ _) as [[e|[as_ x]]|]; cbn [mbind option_bind]; [by intros [= <- <- <-]| |done].
  destruct (t3_media_disabled t); [by intros [= <- <- <-]|]. destruct (backend as_ t) as [m|] eqn:Hb; cbn [mbind option_bind]; [|done].
  assert (forall s0, (let '(res, m0) := address_space_write m x bs in Some (res, set_backend as_ m0 t, s0)) = Some (r, t', s') -> dev_shape t' = dev_shape t) as Hloc.
  { intros s0. pose proof (as_write_length m x bs) as Hl. destruct (address_space_write m x bs) as [res m0]. intros [= <- <- <-]. by apply (set_backend_shape _ m). }
  destruct (ms_enabled ms); [|apply Hloc]. destruct (request _ _ _ _ _) as [[resp|] s0].
  - destruct (rpc_transport _); [by intros [= <- <- <-]|apply Hloc].
  - destruct (bool_decide _); [by intros [= <- <- <-]|apply Hloc].
Qed.

Lemma device_at_Some (w : world) (i : nat) (t : CXLType3Dev) : device_at w i = Some t -> wo_bus w !! i = Some (Some t).
Proof. unfold device_at. destruct (wo_bus w !! i) as [[]|]; cbn; congruence. Qed.

Lemma set_device_keeps (w : world) (i : nat) (t t' : CXLType3Dev) : device_at w i = Some t -> dev_shape t' = dev_shape t -> keeps w (set_device i t' w).
Proof.
  intros Hd Hs. apply device_at_Some in Hd. split; try done. unfold world_shape. cbn. f_equal. rewrite list_fmap_insert.
  apply list_insert_id. rewrite list_lookup_fmap, Hd. cbn. by rewrite Hs.
Qed.

Lemma send_mem (m : CXLType2Message) (d : device) : dv_device_mem (send m d) = dv_device_mem d.
Proof. unfold send. by destruct (dv_connected d). Qed.

Lemma set_owner_keeps (w : world) (d : device) : length (dv_device_mem d) = length (dv_device_mem (wo_owner w)) -> keeps w (set_owner d w).
Proof. intros H. split; try done. unfold world_shape. cbn. by rewrite H. Qed.

Lemma store_keeps (r : mem_ref) (off : Z) (bs : list Z) (w w' : world) : store r off bs w = Some w' -> keeps w w'.
Proof.
  unfold store. destruct (ref_memory w r) as [m|] eqn:Hm; cbn [mbind option_bind]; [|done]. destruct (mem_write off bs m) as [m'|] eqn:Hw; cbn [mbind option_bind]; [|done].
  intros [= <-]. apply mem_write_length in Hw. destruct r as [| |i|i]; cbn in Hm; simplify_eq; cbn [set_ref_memory].
  - by apply set_owner_keeps.
  - destruct (device_at w i) as [t|] eqn:Ht; [|done]. cbn in Hm. apply (set_device_keeps w i t); [done|]. by apply (set_backend_shape _ m).
  - destruct (device_at w i) as [t|] eqn:Ht; [|done]. cbn in Hm. apply (set_device_keeps w i t); [done|]. by apply (set_backend_shape _ m).
Qed.

Lemma copy_keeps (r r' : mem_ref) (a b n : Z) (w w' : world) : copy_between r r' a b n w = Some w' -> keeps w w'.
Proof. unfold copy_between. destruct (_ && _); [done|]. destruct (load _ _ _ _); cbn [mbind option_bind]; [|done]. apply store_keeps. Qed.

Lemma coherency_keeps (id addr : Z) (b : bool) (w w' : world) : cxl_p2p_ensure_coherency id addr b w = Some w' -> keeps w w'.
Proof.
  unfold cxl_p2p_ensure_coherency. destruct (cxl_p2p_get_peer _ _) as [p|]; [|by intros [= <-]]. destruct (pe_type p); [|by intros [= <-]].
  destruct (_ =? _); [|by intros [= <-]]. cbv zeta.
  assert (forall o, dv_device_mem o = dv_device_mem (wo_owner w) ->
    (owner ← (if b then Some (cxl_type2_cache_invalidate o addr) else cxl_type2_cache_writeback o addr); Some (set_owner owner w)) = Some w' -> keeps w w') as Hc.
  { intros o Ho. destruct b; cbn [mbind option_bind].
    - intros [= <-]. apply set_owner_keeps. rewrite <- Ho. unfold cxl_type2_cache_invalidate. by destruct (_ !! _).
    - unfold cxl_type2_cache_writeback. destruct (_ !! _) as [l|]; cbn [mbind option_bind]; [|intros [= <-]; apply set_owner_keeps; by rewrite Ho].
      destruct (cl_dirty l); cbn [mbind option_bind]; [|intros [= <-]; apply set_owner_keeps; by rewrite Ho].
      destruct (_ <? _); cbn [mbind option_bind]; [|intros [= <-]; apply set_owner_keeps; cbn; by rewrite send_mem, Ho].
      destruct (mem_write _ _ _) as [m|] eqn:E; cbn [mbind option_bind]; [|done]. intros [= <-]. apply set_owner_keeps. cbn. rewrite send_mem. apply mem_write_length in E. cbn. by rewrite E, Ho. }
  destruct (bc_enabled _); cbn [mbind option_bind]; [|by apply Hc]. destruct (cxl_bar_coherency_request _ _ _ _) as [[rsp bc]|]; cbn [mbind option_bind]; [|done]. by apply Hc.
Qed.

Lemma read_loop_keeps (fuel i : nat) (addr size off : Z) (buf : list Z) (w w' : world) :
  type3_read_loop request ms random junk fuel i addr size off w = Some (buf, w') -> keeps w w'.
Proof.
  revert off buf w. induction fuel as [|fuel IH]; intros off buf w; cbn [type3_read_loop]; [done|]. destruct (_ <? _); [|by intros [= <- <-]]. cbv zeta.
  destruct (device_at w i) as [t|]; cbn [mbind option_bind]; [|done]. destruct (cxl_type3_read _ _ _ _ _ _ _ _) as [[[r data] s1]|]; cbn [mbind option_bind]; [|done].
  destruct (type3_read_loop _ _ _ _ _ _ _ _ _ _) as [[rest w1]|] eqn:E; cbn [mbind option_bind]; [|done]. intros [= <- <-].
  apply IH in E. by etrans; [|exact E].
Qed.

Lemma write_loop_keeps (fuel i : nat) (addr off : Z) (buf : list Z) (w w' : world) :
  type3_write_loop request ms fuel i addr off buf w = Some w' -> keeps w w'.
Proof.
  revert off buf w. induction fuel as [|fuel IH]; intros off buf w; cbn [type3_write_loop]; [done|]. destruct buf as [|b buf0]; [by intros [= <-]|].
  destruct (device_at w i) as [t|] eqn:Ht; cbn [mbind option_bind]; [|done]. destruct (cxl_type3_write _ _ _ _ _ _) as [[[r t'] s1]|] eqn:E; cbn [mbind option_bind]; [|done].
  intros H. apply IH in H. etrans; [|exact H]. etrans; [|apply (set_device_keeps _ i t); [exact Ht|by apply type3_write_shape in E]]. done.
Qed.

Lemma move_keeps (src dst : CXLP2PPeer) (d : CXLP2PDescriptor) (w w' : world) : move_data request ms random junk heap src dst d w = Some w' -> keeps w w'.
Proof.
  unfold move_data. destruct (_ && _); [apply copy_keeps|]. destruct (indirect_read _ _ _ _ _ _ _ _) as [w1|] eqn:E1; cbn [mbind option_bind]; [|done].
  assert (keeps w w1) as H1.
  { unfold indirect_read in E1. destruct (_ && _); [|by simplify_eq]. destruct (type3_read_loop _ _ _ _ _ _ _ _ _ _) as [[buf w0]|] eqn:E; cbn [mbind option_bind] in E1; [|done].
    apply read_loop_keeps in E. destruct (no_ptr dst); [by simplify_eq|]. apply store_keeps in E1. by etrans. }
  unfold indirect_write. destruct (_ && _); [|intros [= <-]; exact H1]. destruct (if no_ptr src then _ else _) as [buf|]; cbn [mbind option_bind]; [|done].
  intros H2. apply write_loop_keeps in H2. by etrans.
Qed.

Lemma set_stats_keeps (f : p2p_stats -> p2p_stats) (w : world) : keeps w (set_stats_of f w).
Proof. by split. Qed.

Lemma transfer_coherency_keeps (d : CXLP2PDescriptor) (w w' : world) : transfer_coherency d w = Some w' -> keeps w w'.
Proof.
  unfold transfer_coherency. destruct (_ && _); [|by intros [= <-]]. destruct (cxl_p2p_ensure_coherency _ _ true _) as [w1|] eqn:E1; cbn [mbind option_bind]; [|done].
  destruct (cxl_p2p_ensure_coherency _ _ false _) as [w2|] eqn:E2; cbn [mbind option_bind]; [|done]. intros [= <-]. apply coherency_keeps in E1, E2.
  etrans; [exact E1|]. etrans; [exact E2|apply set_stats_keeps].
Qed.

Lemma notify_keeps (d : CXLP2PDescriptor) (w w' : world) : notify_owner d w = Some w' -> keeps w w'.
Proof.
  unfold notify_owner. destruct (_ && _); [|by intros [= <-]]. destruct (cxl_bar_notify_gpu_access _ _ _ _) as [b|]; cbn [mbind option_bind]; [|done].
  intros [= <-]. by apply set_owner_keeps.
Qed.

Lemma perform_keeps (d d' : CXLP2PDescriptor) (w w' : world) :
  perform_p2p_transfer request ms random junk heap d w = Some (d', w') -> keeps w w'.
Proof.
  unfold perform_p2p_transfer. cbv zeta. destruct (cxl_p2p_get_peer _ _) as [src|]; [|by intros [= <- <-]]. destruct (cxl_p2p_get_peer _ _) as [dst|]; [|by intros [= <- <-]].
  destruct (_ <? _); [by intros [= <- <-]|]. destruct (_ || _); [by intros [= <- <-]|].
  destruct (transfer_coherency d w) as [w1|] eqn:E1; cbn [mbind option_bind]; [|done]. destruct (move_data _ _ _ _ _ _ _ _ _) as [w2|] eqn:E2; cbn [mbind option_bind]; [|done].
  destruct (notify_owner _ _) as [w3|] eqn:E3; cbn [mbind option_bind]; [|done]. intros [= <- <-]. apply transfer_coherency_keeps in E1. apply move_keeps in E2. apply notify_keeps in E3.
  etrans; [exact E1|]. etrans; [exact E2|]. by etrans; [apply set_stats_keeps|].
Qed.

Lemma submit_keeps (d d' : CXLP2PDescriptor) (r : Z) (w w' : world) : cxl_p2p_dma_submit request ms random junk heap d w = Some (r, d', w') -> keeps w w'.
Proof.
  unfold cxl_p2p_dma_submit. cbv zeta. destruct (negb _); [by intros [= <- <- <-]|]. destruct (_ <=? _); [by intros [= <- <- <-]|]. destruct (_ =? 0); [by intros [= <- <- <-]|].
  destruct (_ ++ _) as [|q rest]; [by intros [= <- <- <-]|]. destruct (perform_p2p_transfer _ _ _ _ _ _ _) as [[q' w1]|] eqn:E; cbn [mbind option_bind]; [|done].
  intros [= <- <- <-]. apply perform_keeps in E. destruct E. by split.
Qed.

(** ** The registry *)
Lemma keeps_memory (w w' : world) (r : mem_ref) (m : list Z) : keeps w w' -> ref_memory w r = Some m ->
  exists m', ref_memory w' r = Some m' /\ length m' = length m.
Proof.
  intros [Hs _ _ _ _] Hm. unfold world_shape in Hs. injection Hs as Hown Hbus.
  assert (forall i t, device_at w i = Some t -> exists t', device_at w' i = Some t' /\ dev_shape t' = dev_shape t) as Hdev.
  { intros i t Ht. apply device_at_Some in Ht. pose proof (f_equal (fun l => l !! i) Hbus) as E. cbn in E. rewrite !list_lookup_fmap, Ht in E.
    destruct (wo_bus w' !! i) as [[t'|]|] eqn:Et'; cbn in E; simplify_eq. exists t'. split; [unfold device_at; by rewrite Et'|]. unfold dev_shape. congruence. }
  destruct r as [| |i|i]; cbn in Hm |- *; [done|simplify_eq; by eexists| |].
  all: destruct (device_at w i) as [t|] eqn:Ht; [|done]; cbn in Hm; destruct (Hdev i t Ht) as (t'&->&Hsh); unfold dev_shape in Hsh; injection Hsh as Hv Hp; cbn.
  - rewrite Hm in Hv. destruct (t3_hostvmem t') as [m'|]; cbn in Hv; [|done]. exists m'. split; [done|congruence].
  - rewrite Hm in Hp. destruct (t3_hostpmem t') as [m'|]; cbn in Hp; [|done]. exists m'. split; [done|congruence].
Qed.

(** A peer without a pointer has no memory; the pointer of another reaches a memory of its size. *)
Definition peer_ok (w : world) (p : CXLP2PPeer) : Prop :=
  (pe_mem_ptr p = MemNull -> pe_mem_size p = 0) /\
  (pe_mem_ptr p <> MemNull -> exists m, ref_memory w (pe_mem_ptr p) = Some m /\ Z.of_nat (length m) = pe_mem_size p).

Definition active_count (l : list CXLP2PPeer) : nat := sum_of (fun p => if pe_active p then 1%nat else 0%nat) l.

Record registry (w : world) : Prop := {
  rg_length : length (en_peers (wo_engine w)) = CXL_P2P_MAX_PEERS;
  rg_count : en_num_peers (wo_engine w) = Z.of_nat (active_count (en_peers (wo_engine w)));
  rg_next : 0 < wo_next_id w;
  rg_ids : forall i p, en_peers (wo_engine w) !! i = Some p -> pe_active p = true -> 0 < pe_peer_id p < wo_next_id w;
  rg_distinct : forall i j p q, en_peers (wo_engine w) !! i = Some p -> en_peers (wo_engine w) !! j = Some q ->
    pe_active p = true -> pe_active q = true -> pe_peer_id p = pe_peer_id q -> i = j;
  rg_memory : forall i p, en_peers (wo_engine w) !! i = Some p -> pe_active p = true -> peer_ok w p
}.

Lemma peer_ok_keeps (w w' : world) (p : CXLP2PPeer) : keeps w w' -> peer_ok w p -> peer_ok w' p.
Proof. intros Hk [H0 H1]. split; [done|]. intros Hp. destruct (H1 Hp) as (m&Hm&Hl). destruct (keeps_memory w w' _ m Hk Hm) as (m'&Hm'&Hl'). exists m'. split; [done|lia]. Qed.

Lemma registry_keeps (w w' : world) : keeps w w' -> registry w -> registry w'.
Proof.
  intros Hk [Hl Hc Hn Hi Hd Hm]. pose proof Hk as [_ Hp Hnum _ Hnext]. split; rewrite ?Hp, ?Hnum, ?Hnext; try done.
  intros i p Hip Ha. apply (peer_ok_keeps w); [done|by apply (Hm i)].
Qed.

Lemma active_count_le (l : list CXLP2PPeer) : (active_count l <= length l)%nat.
Proof.
  induction l as [|p l IH]; [cbn; lia|]. change (active_count (p :: l)) with ((if pe_active p then 1 else 0) + active_count l)%nat.
  cbn [length]. destruct (pe_active p); lia.
Qed.

Lemma free_slot_Some (e : CXLP2PDMAEngine) (slot : nat) : free_slot e = Some slot -> exists p, en_peers e !! slot = Some p /\ pe_active p = false.
Proof.
  unfold free_slot. destruct (list_find _ _) as [[i p]|] eqn:E; cbn; [|done]. intros [= <-]. apply list_find_Some in E as (H&Ha&_).
  exists p. split; [done|]. by destruct (pe_active p).
Qed.

Lemma add_peer_registry (w : world) (slot : nat) (mk : Z -> CXLP2PPeer) (b : bool) :
  registry w -> free_slot (wo_engine w) = Some slot -> wo_next_id w + 1 < 2 ^ 32 ->
  (forall id, pe_active (mk id) = true /\ pe_peer_id (mk id) = id /\ peer_ok w (mk id)) -> registry (add_peer slot mk b w).
Proof.
  intros [Hl Hc Hn Hi Hd Hm] Hf Hw Hmk. destruct (free_slot_Some _ _ Hf) as (p0&Hp0&Ha0). destruct (Hmk (wo_next_id w)) as (Hact&Hid&Hok).
  pose proof (sum_of_insert (fun p => if pe_active p then 1%nat else 0%nat) _ slot p0 (mk (wo_next_id w)) Hp0) as Hsum. cbn in Hsum. rewrite Ha0, Hact in Hsum.
  pose proof (active_count_le (en_peers (wo_engine w))) as Hle. rewrite Hl in Hle. unfold CXL_P2P_MAX_PEERS in Hle.
  assert (forall i p, <[slot := mk (wo_next_id w)]> (en_peers (wo_engine w)) !! i = Some p -> (i = slot /\ p = mk (wo_next_id w)) \/ (i <> slot /\ en_peers (wo_engine w) !! i = Some p)) as Hlk.
  { intros i p Hip. destruct (decide (i = slot)) as [->|Hne]; [|rewrite list_lookup_insert_ne in Hip by done; by right].
    rewrite list_lookup_insert_eq in Hip by (by eapply lookup_lt_Some). left. by simplify_eq. }
  split; cbn [add_peer wo_engine wo_next_id set_peers en_peers en_num_peers]; rewrite ?(wrap32_small (wo_next_id w + 1)) by lia.
  - by rewrite length_insert.
  - unfold active_count in *. rewrite Hc, wrap32_small by lia. lia.
  - lia.
  - intros i p Hip Ha. destruct (Hlk i p Hip) as [[-> ->]|[_ Hold]]; [rewrite Hid; lia|]. specialize (Hi i p Hold Ha). lia.
  - intros i j p q Hip Hjq Hap Haq Hpq. destruct (Hlk i p Hip) as [[-> ->]|[_ Hoi]], (Hlk j q Hjq) as [[-> ->]|[_ Hoj]]; [done| | |by apply (Hd i j p q)].
    + specialize (Hi j q Hoj Haq). rewrite Hid in Hpq. lia.
    + specialize (Hi i p Hoi Hap). rewrite Hid in Hpq. lia.
  - intros i p Hip Ha. destruct (Hlk i p Hip) as [[-> ->]|[_ Hold]]; [done|by apply (Hm i)].
Qed.

Lemma register_type3_registry (w : world) (devfn : nat) (t : CXLType3Dev) : registry w -> device_at w devfn = Some t -> wo_next_id w + 1 < 2 ^ 32 ->
  registry (cxl_p2p_register_peer_type3 w devfn t).2.
Proof.
  intros Hr Ht Hw. unfold cxl_p2p_register_peer_type3. destruct (free_slot (wo_engine w)) as [slot|] eqn:E; [|done].
  destruct (t3_hostvmem t) as [m|] eqn:Ev; [|destruct (t3_hostpmem t) as [m|] eqn:Ep]; cbn [snd]; apply add_peer_registry; try done; intros id.
  - split_and!; [done|done|]. split; [done|]. intros _. exists m. cbn. by rewrite Ht.
  - split_and!; [done|done|]. split; [done|]. intros _. exists m. cbn. by rewrite Ht.
  - split_and!; [done|done|]. split; [|done]. intros _. cbn. unfold static_mem_size. by rewrite Ev, Ep.
Qed.

Lemma register_type2_registry (w : world) (devfn : nat) : registry w -> wo_next_id w + 1 < 2 ^ 32 -> registry (cxl_p2p_register_peer_type2 w devfn).2.
Proof.
  intros Hr Hw. unfold cxl_p2p_register_peer_type2. destruct (free_slot (wo_engine w)) as [slot|] eqn:E; [|done]. cbn [snd].
  apply add_peer_registry; try done. intros id. split_and!; [done|done|]. split; [done|]. intros _. by eexists.
Qed.

Lemma find_peer_Some (e : CXLP2PDMAEngine) (id : Z) (i : nat) (p : CXLP2PPeer) : find_peer e id = Some (i, p) ->
  en_peers e !! i = Some p /\ pe_active p = true /\ pe_peer_id p = id.
Proof. unfold find_peer. intros H. apply list_find_Some in H as (H&Ha&_). apply Is_true_true, andb_true_iff in Ha as [Ha Hid]. apply Z.eqb_eq in Hid. done. Qed.

Lemma unregister_registry (w : world) (id : Z) : registry w -> registry (cxl_p2p_unregister_peer w id).
Proof.
  intros Hr. pose proof Hr as [Hl Hc Hn Hi Hd Hm]. unfold cxl_p2p_unregister_peer. destruct (find_peer (wo_engine w) id) as [[i p]|] eqn:E; [|done].
  apply find_peer_Some in E as (Hp&Ha&_). pose proof (sum_of_insert (fun p => if pe_active p then 1%nat else 0%nat) _ i p peer_free Hp) as Hsum. cbn in Hsum. rewrite Ha in Hsum.
  pose proof (active_count_le (en_peers (wo_engine w))) as Hle. rewrite Hl in Hle. unfold CXL_P2P_MAX_PEERS in Hle.
  assert (forall j q, <[i := peer_free]> (en_peers (wo_engine w)) !! j = Some q -> pe_active q = true -> en_peers (wo_engine w) !! j = Some q) as Hlk.
  { intros j q Hjq Haq. destruct (decide (j = i)) as [->|Hne]; [|by rewrite list_lookup_insert_ne in Hjq].
    rewrite list_lookup_insert_eq in Hjq by (by eapply lookup_lt_Some). by simplify_eq. }
  split; cbn [set_engine wo_engine wo_next_id set_peers en_peers en_num_peers].
  - by rewrite length_insert.
  - unfold active_count in *. rewrite Hc, wrap32_small by lia. lia.
  - done.
  - intros j q Hjq Haq. by apply (Hi j); [apply Hlk|].
  - intros j k q r Hjq Hkr Haq Har. apply Hd; auto.
  - intros j q Hjq Haq. by apply (Hm j); [apply Hlk|].
Qed.

Lemma add_peer_frame (w : world) (slot : nat) (mk : Z -> CXLP2PPeer) (b : bool) : wo_bus (add_peer slot mk b w) = wo_bus w /\ wo_next_id (add_peer slot mk b w) = wrap32 (wo_next_id w + 1).
Proof. done. Qed.

Lemma register_type3_frame (w : world) (devfn : nat) (t : CXLType3Dev) : 0 <= wo_next_id w -> wo_next_id w + 1 < 2 ^ 32 ->
  wo_bus (cxl_p2p_register_peer_type3 w devfn t).2 = wo_bus w /\ 0 <= wo_next_id (cxl_p2p_register_peer_type3 w devfn t).2 <= wo_next_id w + 1.
Proof.
  intros H0 H1. unfold cxl_p2p_register_peer_type3. destruct (free_slot _); [|split; [done|cbn; lia]].
  destruct (t3_hostvmem t), (t3_hostpmem t); cbn [snd]; split; try done; cbn; rewrite wrap32_small; lia.
Qed.

Lemma scan_bus_registry (devs : list (option CXLType3Dev)) (devfn owner : nat) (n : Z) (w : world) : registry w ->
  wo_next_id w + Z.of_nat (length devs) < 2 ^ 32 -> (forall i t, devs !! i = Some (Some t) -> device_at w (devfn + i) = Some t) ->
  registry (scan_bus devs devfn owner n w).2.
Proof.
  revert devfn n w. induction devs as [|[t|] devs IH]; intros devfn n w Hr Hw Hdev; cbn [scan_bus]; [done| |].
  - cbn [length] in Hw. assert (forall i t, devs !! i = Some (Some t) -> device_at w (Datatypes.S devfn + i) = Some t) as Hdev'.
    { intros i t' Hi. replace (Datatypes.S devfn + i)%nat with (devfn + Datatypes.S i)%nat by lia. by apply Hdev. }
    destruct (decide (devfn = owner)); [apply IH; [done|lia|done]|]. pose proof (Hdev 0%nat t eq_refl) as Ht. rewrite Nat.add_0_r in Ht.
    pose proof (register_type3_registry w devfn t Hr Ht ltac:(lia)) as Hr1. pose proof (rg_next w Hr).
    destruct (register_type3_frame w devfn t ltac:(lia) ltac:(lia)) as [Hb Hn]. destruct (cxl_p2p_register_peer_type3 w devfn t) as [r w1]. cbn [snd] in *.
    apply IH; [done|lia|]. intros i t' Hi. unfold device_at. rewrite Hb. by apply Hdev'.
  - cbn [length] in Hw. apply IH; [done|lia|]. intros i t Hi. replace (Datatypes.S devfn + i)%nat with (devfn + Datatypes.S i)%nat by lia. by apply Hdev.
Qed.

Lemma discover_registry (w : world) (owner : nat) : registry w -> wo_next_id w + 1 + Z.of_nat (length (wo_bus w)) < 2 ^ 32 -> registry (cxl_p2p_discover_peers owner w).2.
Proof.
  intros Hr Hw. unfold cxl_p2p_discover_peers. pose proof (register_type2_registry w owner Hr ltac:(lia)) as Hr1. pose proof (rg_next w Hr) as Hn.
  assert (wo_bus (cxl_p2p_register_peer_type2 w owner).2 = wo_bus w /\ wo_next_id (cxl_p2p_register_peer_type2 w owner).2 <= wo_next_id w + 1) as [Hb Hle].
  { unfold cxl_p2p_register_peer_type2. destruct (free_slot _); [|split; [done|cbn; lia]]. split; [done|]. cbn. rewrite wrap32_small; lia. }
  destruct (cxl_p2p_register_peer_type2 w owner) as [r w1]. cbn [snd] in *. apply scan_bus_registry; [done|rewrite Hb; lia|].
  intros i t Hi. unfold device_at. cbn. by rewrite Hi.
Qed.

(** The states of an engine; other accesses change contents and the server. *)
Inductive p2p_reachable : world -> Prop :=
| p2p_new w : wo_engine w = cxl_p2p_dma_init -> 0 < wo_next_id w -> p2p_reachable w
| p2p_register w devfn t : p2p_reachable w -> device_at w devfn = Some t -> wo_next_id w + 1 < 2 ^ 32 -> p2p_reachable (cxl_p2p_register_peer_type3 w devfn t).2
| p2p_discover w owner : p2p_reachable w -> wo_next_id w + 1 + Z.of_nat (length (wo_bus w)) < 2 ^ 32 -> p2p_reachable (cxl_p2p_discover_peers owner w).2
| p2p_unregister w id : p2p_reachable w -> p2p_reachable (cxl_p2p_unregister_peer w id)
| p2p_submit w d r d' w' : p2p_reachable w -> cxl_p2p_dma_submit request ms random junk heap d w = Some (r, d', w') -> p2p_reachable w'
| p2p_access w w' : p2p_reachable w -> keeps w w' -> p2p_reachable w'.

Lemma reachable_registry (w : world) : p2p_reachable w -> registry w.
Proof.
  induction 1 as [w He Hn|w devfn t _ IH Ht Hw|w owner _ IH Hw|w id _ IH|w d r d' w' _ IH H|w w' _ IH H].
  - split; rewrite ?He; [done|done|done|intros i p Hp|intros i j p q Hp|intros i p Hp].
    all: cbn [cxl_p2p_dma_init en_peers] in Hp; apply lookup_replicate in Hp as [-> _]; done.
  - by apply register_type3_registry.
  - by apply discover_registry.
  - by apply unregister_registry.
  - apply submit_keeps in H. by apply (registry_keeps w).
  - by apply (registry_keeps w).
Qed.

(** ** What a copy does *)
Lemma store_effect (r : mem_ref) (off : Z) (bs m : list Z) (w : world) : ref_memory w r = Some m -> 0 <= off -> off + Z.of_nat (length bs) <= Z.of_nat (length m) ->
  exists w' m', store r off bs w = Some w' /\ mem_write off bs m = Some m' /\ ref_memory w' r = Some m' /\ (forall r', r' <> r -> ref_memory w' r' = ref_memory w r') /\
    wo_engine w' = wo_engine w /\ dv_bar_coherency (wo_owner w') = dv_bar_coherency (wo_owner w).
Proof.
  intros Hm Ho Hl. destruct (mem_write_Some off bs m Ho Hl) as [m' Hw]. exists (set_ref_memory r m' w), m'. unfold store. rewrite Hm. cbn [mbind option_bind]. rewrite Hw. cbn [mbind option_bind].
  split; [done|]. split; [done|].
  assert (forall i t t', device_at w i = Some t -> forall j, device_at (set_device i t' w) j = if decide (j = i) then Some t' else device_at w j) as Hdev.
  { intros i t t' Ht j. apply device_at_Some in Ht. unfold device_at, set_device. cbn [wo_bus]. case_decide as Hj; [subst|by rewrite list_lookup_insert_ne].
    rewrite list_lookup_insert_eq by (by eapply lookup_lt_Some). done. }
  destruct r as [| |i|i]; cbn in Hm; [done|simplify_eq; split_and!; try done; by intros [| |j|j]| |].
  all: destruct (device_at w i) as [t|] eqn:Ht; [|done]; cbn in Hm; unfold set_ref_memory; rewrite Ht.
  all: split_and!; [cbn [ref_memory]; rewrite (Hdev i t _ Ht), decide_True by done; by destruct t| |done|done].
  all: intros [| |j|j] Hne; cbn [ref_memory]; try done; rewrite (Hdev i t _ Ht); case_decide; subst; try done; rewrite Ht; by destruct t.
Qed.

Lemma load_inside (r : mem_ref) (off n : Z) (m : list Z) (w : world) : ref_memory w r = Some m -> 0 <= off -> 0 <= n -> off + n <= Z.of_nat (length m) ->
  exists bs, load r off n w = Some bs /\ Z.of_nat (length bs) = n.
Proof.
  intros Hm Ho Hn Hl. unfold load. rewrite Hm. cbn [mbind option_bind]. rewrite mem_read_Some by done. eexists. split; [done|]. rewrite length_take, length_drop. lia.
Qed.

(** The bytes outside of the range that was written are as before. *)
Definition only_changes (r : mem_ref) (off n : Z) (w w' : world) : Prop :=
  forall r' m, ref_memory w r' = Some m -> exists m', ref_memory w' r' = Some m' /\ length m' = length m /\
    forall k, r' <> r \/ ~ (off <= Z.of_nat k < off + n) -> m' !! k = m !! k.

Lemma copy_effect (dst src : mem_ref) (a b n : Z) (from md : list Z) (w : world) :
  ref_memory w src = Some from -> ref_memory w dst = Some md -> 0 <= n -> 0 <= b -> b + n <= Z.of_nat (length from) -> 0 <= a -> a + n <= Z.of_nat (length md) ->
  dst <> src \/ a + n <= b \/ b + n <= a ->
  exists w' bs, copy_between dst src a b n w = Some w' /\ load src b n w = Some bs /\ load dst a n w' = Some bs /\ only_changes dst a n w w' /\
    wo_engine w' = wo_engine w /\ dv_bar_coherency (wo_owner w') = dv_bar_coherency (wo_owner w).
Proof.
  intros Hs Hd Hn Hb Hbl Ha Hal Hdis. destruct (load_inside src b n from w Hs Hb Hn Hbl) as (bs&Hload&Hlen).
  destruct (store_effect dst a bs md w Hd Ha ltac:(lia)) as (w'&m'&Hst&Hw&Hm'&Hoth&He&Hbar). exists w', bs.
  assert (copy_between dst src a b n w = Some w') as Hcopy.
  { unfold copy_between. destruct (bool_decide (dst = src) && (a <? b + n) && (b <? a + n)) eqn:E.
    - apply andb_true_iff in E as [E E3]. apply andb_true_iff in E as [E1 E2]. apply bool_decide_eq_true in E1. apply Z.ltb_lt in E2, E3. destruct Hdis as [?|[?|?]]; [done|lia|lia].
    - by rewrite Hload. }
  split_and!; try done.
  - unfold load. rewrite Hm'. cbn [mbind option_bind]. rewrite <- Hlen. by apply (mem_read_write_same _ _ md).
  - intros r' m Hr'. destruct (decide (r' = dst)) as [->|Hne]; [|exists m; split_and!; [by rewrite Hoth|done|done]].
    assert (m = md) as -> by congruence. exists m'. split_and!; [done|by apply mem_write_length in Hw|]. intros k [Hk|Hk]; [done|].
    rewrite (mem_write_lookup _ _ _ _ _ Hw), decide_False by lia. done.
Qed.

Lemma get_peer_ok (w : world) (id : Z) (p : CXLP2PPeer) : registry w -> cxl_p2p_get_peer (wo_engine w) id = Some p -> peer_ok w p.
Proof.
  intros Hr H. unfold cxl_p2p_get_peer in H. destruct (find_peer _ _) as [[i q]|] eqn:E; cbn in H; [|done]. simplify_eq.
  apply find_peer_Some in E as (H1&H2&_). by apply (rg_memory w Hr i).
Qed.

(** ** Theorems *)

(** In every reachable state the peers are counted, have distinct numbers, and point to a memory of
    the size that transfers are checked against. *)
Theorem registry_ok (w : world) (Hr : p2p_reachable w) :
  en_num_peers (wo_engine w) = Z.of_nat (active_count (en_peers (wo_engine w))) /\
  (forall i j p q, en_peers (wo_engine w) !! i = Some p -> en_peers (wo_engine w) !! j = Some q ->
     pe_active p = true -> pe_active q = true -> pe_peer_id p = pe_peer_id q -> i = j) /\
  (forall id p, cxl_p2p_get_peer (wo_engine w) id = Some p ->
     (pe_mem_ptr p = MemNull -> pe_mem_size p = 0) /\
     (pe_mem_ptr p <> MemNull -> exists m, ref_memory w (pe_mem_ptr p) = Some m /\ Z.of_nat (length m) = pe_mem_size p)).
Proof. pose proof (reachable_registry w Hr) as Hreg. split_and!; [apply Hreg|apply Hreg|]. intros id p Hp. by apply (get_peer_ok w id). Qed.

(** A transfer that waits, submitted to an idle engine, between ranges inside of two memories that do
    not overlap. *)
Record transfer_ready (w : world) (d : CXLP2PDescriptor) (src dst : CXLP2PPeer) : Prop := {
  rd_enabled : en_enabled (wo_engine w) = true;
  rd_idle : en_pending_transfers (wo_engine w) = [];
  rd_depth : 0 < en_queue_depth (wo_engine w);
  rd_sync : Z.land (de_flags d) CXL_P2P_FLAG_SYNC <> 0;
  rd_coherent : Z.land (de_flags d) CXL_P2P_FLAG_COHERENT = 0;
  rd_src : cxl_p2p_get_peer (wo_engine w) (de_src_peer_id d) = Some src;
  rd_dst : cxl_p2p_get_peer (wo_engine w) (de_dst_peer_id d) = Some dst;
  rd_src_ptr : pe_mem_ptr src <> MemNull;
  rd_dst_ptr : pe_mem_ptr dst <> MemNull;
  rd_size : 0 <= de_size d <= en_max_transfer_size (wo_engine w);
  rd_src_range : 0 <= de_src_addr d /\ de_src_addr d + de_size d <= pe_mem_size src < 2 ^ 64;
  rd_dst_range : 0 <= de_dst_addr d /\ de_dst_addr d + de_size d <= pe_mem_size dst < 2 ^ 64;
  rd_apart : pe_mem_ptr dst <> pe_mem_ptr src \/ de_dst_addr d + de_size d <= de_src_addr d \/ de_src_addr d + de_size d <= de_dst_addr d;
  rd_notify : bc_enabled (dv_bar_coherency (wo_owner w)) && (de_dst_peer_id d =? en_owner_peer_id (wo_engine w)) = true ->
              is_Some (cxl_bar_notify_gpu_access (dv_bar_coherency (wo_owner w)) (de_dst_addr d) (de_size d) true)
}.

Lemma ready_copies (w : world) (d : CXLP2PDescriptor) (src dst : CXLP2PPeer) : p2p_reachable w -> transfer_ready w d src dst ->
  exists d' w' bs, cxl_p2p_dma_submit request ms random junk heap d w = Some (0, d', w') /\ de_status d' = CXL_P2P_STATUS_COMPLETE /\
    load (pe_mem_ptr src) (de_src_addr d) (de_size d) w = Some bs /\ load (pe_mem_ptr dst) (de_dst_addr d) (de_size d) w' = Some bs /\
    only_changes (pe_mem_ptr dst) (de_dst_addr d) (de_size d) w w' /\
    ps_bytes_transferred (en_stats (wo_engine w')) = ps_bytes_transferred (en_stats (wo_engine w)) ⊞ de_size d.
Proof.
  intros Hr [Hen Hidle Hdepth Hsync Hcoh Hsrc Hdst Hps Hpd Hsize Hin Hout Hdisj Hbar].
  pose proof (reachable_registry w Hr) as Hreg. destruct (get_peer_ok w _ _ Hreg Hsrc) as [_ Hms]. destruct (get_peer_ok w _ _ Hreg Hdst) as [_ Hmd].
  destruct (Hms Hps) as (m1&Hm1&Hl1). destruct (Hmd Hpd) as (m2&Hm2&Hl2).
  set (q := set_status CXL_P2P_STATUS_PENDING (de_error_code d) d).
  set (w0 := set_engine (set_transfers [] (en_completed_transfers (wo_engine w)) (wo_engine w)) w).
  destruct (copy_effect (pe_mem_ptr dst) (pe_mem_ptr src) (de_dst_addr d) (de_src_addr d) (de_size d) m1 m2 w0) as (w1&bs&Hcopy&Hls&Hld&Honly&He&Hb); [done|done|lia|lia|lia|lia|lia|tauto|].
  assert (exists w2, notify_owner q (set_stats_of (count_transfer q) w1) = Some w2 /\ (forall r, ref_memory w2 r = ref_memory w1 r) /\
    wo_engine w2 = wo_engine (set_stats_of (count_transfer q) w1)) as (w2&Hnot&Hmem2&He2).
  { unfold notify_owner. change (dv_bar_coherency (wo_owner (set_stats_of (count_transfer q) w1))) with (dv_bar_coherency (wo_owner w1)). rewrite Hb.
    change (dv_bar_coherency (wo_owner w0)) with (dv_bar_coherency (wo_owner w)).
    change (en_owner_peer_id (wo_engine (set_stats_of (count_transfer q) w1))) with (en_owner_peer_id (wo_engine w1)). rewrite He.
    change (en_owner_peer_id (wo_engine w0)) with (en_owner_peer_id (wo_engine w)). change (de_dst_peer_id q) with (de_dst_peer_id d). change (de_dst_addr q) with (de_dst_addr d). change (de_size q) with (de_size d).
    destruct (_ && _) eqn:E; [|by eexists]. destruct (Hbar eq_refl) as [b ->]. cbn [mbind option_bind]. eexists. split; [done|]. split; [|done]. by intros [| |j|j]. }
  assert (perform_p2p_transfer request ms random junk heap q w0 = Some (set_status CXL_P2P_STATUS_COMPLETE (de_error_code d) q, w2)) as Hperf.
  { unfold perform_p2p_transfer. cbv zeta. change (cxl_p2p_get_peer (wo_engine w0)) with (cxl_p2p_get_peer (wo_engine w)). cbn [q set_status de_src_peer_id de_dst_peer_id]. rewrite Hsrc, Hdst.
    fold q. change (en_max_transfer_size (wo_engine w0)) with (en_max_transfer_size (wo_engine w)). cbn [q set_status de_size de_src_addr de_dst_addr de_flags]. fold q.
    rewrite (proj2 (Z.ltb_ge _ _)) by lia. rewrite !wrap64_small by (unfold u64; lia). rewrite !(proj2 (Z.ltb_ge _ _)) by lia. cbn [orb].
    unfold transfer_coherency. change (de_flags q) with (de_flags d). rewrite Hcoh. cbn [Z.eqb negb]. rewrite andb_false_r. cbn [mbind option_bind].
    unfold move_data, no_ptr. rewrite !bool_decide_eq_false_2 by done. cbn [negb andb]. change (de_dst_addr q) with (de_dst_addr d). change (de_src_addr q) with (de_src_addr d). change (de_size q) with (de_size d).
    rewrite Hcopy. cbn [mbind option_bind]. rewrite Hnot. done. }
  assert (exists w', cxl_p2p_dma_submit request ms random junk heap d w = Some (0, set_status CXL_P2P_STATUS_COMPLETE (de_error_code d) d, w') /\
    (forall r, ref_memory w' r = ref_memory w2 r) /\ en_stats (wo_engine w') = en_stats (wo_engine w2)) as (w'&Hsub&Hmem'&Hst').
  { unfold cxl_p2p_dma_submit. cbv zeta. rewrite Hen, Hidle. cbn [negb length app]. rewrite (proj2 (Z.leb_gt _ _)) by (cbn; lia). rewrite (proj2 (Z.eqb_neq _ _)) by done.
    fold q. change (set_engine (set_transfers [] _ _) (set_engine _ w)) with w0. rewrite Hperf. cbn [mbind option_bind]. eexists. split; [done|]. split; [by intros [| |j|j]|done]. }
  exists (set_status CXL_P2P_STATUS_COMPLETE (de_error_code d) d), w', bs. split_and!; try done.
  - unfold load in *. by rewrite Hmem', Hmem2.
  - intros r m Hm. destruct (Honly r m) as (m'&Hm'&?); [by destruct r|]. exists m'. by rewrite Hmem', Hmem2.
  - rewrite Hst', He2. cbn. by rewrite He.
Qed.


(** With the simulation server answering for a device, a guest that writes and reads it sees its
    bytes, and a transfer from the same place copies what the device's own memory held before. *)
Theorem p2p_misses_server `{!MemsimServer request} (w : world) (d : CXLP2PDescriptor) (src dst : CXLP2PPeer) (i : nat) (t : CXLType3Dev) (addr : Z) (data bs : list Z)
    (Hr : p2p_reachable w) (Hd : transfer_ready w d src dst) (Hi : pe_mem_ptr src = MemVolatile i) (Ht : device_at w i = Some t) (Hn : de_size d = Z.of_nat (length bs) /\ de_size d <= 64)
    (Hon : ms_enabled ms = true) (Hrpc : rpc_transport (ms_transport_mode ms) = true) (Hok : srv_ok (wo_server w)) (Hrange : srv_range (de_src_addr d) (de_size d))
    (Hm : t3_media_disabled t = false) (Ha : cxl_type3_hpa_to_as_and_dpa t addr (de_size d) = Some (inr (hostvmem_as, de_src_addr d))) :
  exists s1 s2 d' w' old, cxl_type3_write request ms t addr bs (wo_server w) = Some (MEMTX_OK, t, s1) /\
    cxl_type3_read request ms random t addr (de_size d) data s1 = Some (MEMTX_OK, bs, s2) /\
    cxl_p2p_dma_submit request ms random junk heap d (set_server s2 w) = Some (0, d', w') /\ de_status d' = CXL_P2P_STATUS_COMPLETE /\
    load (pe_mem_ptr src) (de_src_addr d) (de_size d) w = Some old /\ load (pe_mem_ptr dst) (de_dst_addr d) (de_size d) w' = Some old.
Proof.
  destruct Hn as [Hn H64]. rewrite Hn in Hrange, Ha, H64. assert (is_Some (backend hostvmem_as t)) as Hb.
  { destruct (get_peer_ok w _ _ (reachable_registry w Hr) (rd_src _ _ _ _ Hd)) as [_ Hp]. destruct (Hp (rd_src_ptr _ _ _ _ Hd)) as (m&Hm'&_).
    rewrite Hi in Hm'. cbn in Hm'. rewrite Ht in Hm'. by exists m. }
  destruct (forwarded_write request ms Hon Hrpc t addr _ _ bs (wo_server w) Hok Hrange Hm Hb Ha) as (s1&Hw&Hok1&Hbytes).
  destruct (forwarded_read request ms random Hon Hrpc t addr _ _ _ data s1 Hok1 Hrange H64 Hm Hb Ha) as (s2&Hrd&_&_).
  destruct (ready_copies (set_server s2 w) d src dst) as (d'&w'&old&Hsub&Hst&Hls&Hld&_); [by apply (p2p_access w)|destruct Hd; by split|].
  exists s1, s2, d', w', old. rewrite Hn in *. split_and!; try done. by rewrite Hrd, Hbytes.
Qed.

(** A transfer between peers that are not registered, or one that is too large, does nothing, and
    the result of the submission is that of a success; the failure is not counted. *)
Theorem failed_transfer_succeeds (w : world) (d : CXLP2PDescriptor)
    (Hen : en_enabled (wo_engine w) = true) (Hidle : en_pending_transfers (wo_engine w) = []) (Hdepth : 0 < en_queue_depth (wo_engine w))
    (Hsync : Z.land (de_flags d) CXL_P2P_FLAG_SYNC <> 0)
    (Hbad : cxl_p2p_get_peer (wo_engine w) (de_src_peer_id d) = None \/ cxl_p2p_get_peer (wo_engine w) (de_dst_peer_id d) = None \/ en_max_transfer_size (wo_engine w) < de_size d) :
  exists d' w', cxl_p2p_dma_submit request ms random junk heap d w = Some (0, d', w') /\ de_status d' = CXL_P2P_STATUS_ERROR /\
    (forall r, ref_memory w' r = ref_memory w r) /\ en_stats (wo_engine w') = en_stats (wo_engine w).
Proof.
  unfold cxl_p2p_dma_submit. cbv zeta. rewrite Hen, Hidle. cbn [negb length app]. rewrite (proj2 (Z.leb_gt _ _)) by (cbn; lia). rewrite (proj2 (Z.eqb_neq _ _)) by done.
  unfold perform_p2p_transfer. cbn [set_engine wo_engine set_transfers en_max_transfer_size set_status de_src_peer_id de_dst_peer_id de_size].
  change (cxl_p2p_get_peer (set_transfers _ _ _)) with (cxl_p2p_get_peer (wo_engine w)).
  destruct (cxl_p2p_get_peer _ (de_src_peer_id d)) as [src|], (cxl_p2p_get_peer _ (de_dst_peer_id d)) as [dst|]; cbn [mbind option_bind].
  1: rewrite (proj2 (Z.ltb_lt _ _)) by (by destruct Hbad as [?|[?|?]]); cbn [mbind option_bind].
  all: by eexists _, _; split_and!; [done|done|intros [| |j|j]|].
Qed.

(** With a transfer in the queue, one that waits runs the earlier one instead: its caller gets the
    status of that one, and its own transfer stays in the queue. *)
Theorem sync_runs_head (w : world) (d q : CXLP2PDescriptor) (rest : list CXLP2PDescriptor)
    (Hen : en_enabled (wo_engine w) = true) (Hq : en_pending_transfers (wo_engine w) = q :: rest) (Hdepth : Z.of_nat (length (q :: rest)) < en_queue_depth (wo_engine w))
    (Hsync : Z.land (de_flags d) CXL_P2P_FLAG_SYNC <> 0) (Hbad : cxl_p2p_get_peer (wo_engine w) (de_src_peer_id q) = None) :
  exists d' w', cxl_p2p_dma_submit request ms random junk heap d w = Some (0, d', w') /\ de_status d' = CXL_P2P_STATUS_ERROR /\
    (forall r, ref_memory w' r = ref_memory w r) /\ en_pending_transfers (wo_engine w') = rest ++ [set_status CXL_P2P_STATUS_PENDING (de_error_code d) d].
Proof.
  unfold cxl_p2p_dma_submit. cbv zeta. rewrite Hen, Hq. cbn [negb app]. rewrite (proj2 (Z.leb_gt _ _)) by lia. rewrite (proj2 (Z.eqb_neq _ _)) by done.
  unfold perform_p2p_transfer. cbn [set_engine wo_engine]. change (cxl_p2p_get_peer (set_transfers _ _ _)) with (cxl_p2p_get_peer (wo_engine w)). rewrite Hbad. cbn [mbind option_bind].
  by eexists _, _; split_and!; [done|done|intros [| |j|j]|].
Qed.

(** The end of a range is computed modulo 2^64: a range that ends at 2^64 passes the test, and the
    copy reads outside of the memory. *)
Theorem transfer_wraps (w : world) (d : CXLP2PDescriptor) (src dst : CXLP2PPeer) (Hr : p2p_reachable w)
    (Hen : en_enabled (wo_engine w) = true) (Hidle : en_pending_transfers (wo_engine w) = []) (Hdepth : 0 < en_queue_depth (wo_engine w))
    (Hsync : Z.land (de_flags d) CXL_P2P_FLAG_SYNC <> 0)
    (Hsrc : cxl_p2p_get_peer (wo_engine w) (de_src_peer_id d) = Some src) (Hdst : cxl_p2p_get_peer (wo_engine w) (de_dst_peer_id d) = Some dst)
    (Hps : pe_mem_ptr src <> MemNull) (Hpd : pe_mem_ptr dst <> MemNull) (Hsize : 0 < de_size d <= en_max_transfer_size (wo_engine w))
    (Hend : de_src_addr d + de_size d = 2 ^ 64) (Hmem : pe_mem_size src < 2 ^ 64) (Hout : de_dst_addr d ⊞ de_size d <= pe_mem_size dst) :
  cxl_p2p_dma_submit request ms random junk heap d w = None.
Proof.
  destruct (get_peer_ok w _ _ (reachable_registry w Hr) Hsrc) as [_ Hp]. destruct (Hp Hps) as (m&Hm&Hlen).
  unfold cxl_p2p_dma_submit. cbv zeta. rewrite Hen, Hidle. cbn [negb length app]. rewrite (proj2 (Z.leb_gt _ _)) by (cbn; lia). rewrite (proj2 (Z.eqb_neq _ _)) by done.
  unfold perform_p2p_transfer. cbn [set_engine wo_engine set_transfers en_max_transfer_size set_status de_src_peer_id de_dst_peer_id de_size de_src_addr de_dst_addr].
  change (cxl_p2p_get_peer (set_transfers _ _ _)) with (cxl_p2p_get_peer (wo_engine w)). rewrite Hsrc, Hdst, (proj2 (Z.ltb_ge _ _)) by lia.
  rewrite Hend, !(proj2 (Z.ltb_ge _ _)) by (done || (change (wrap64 (2 ^ 64)) with 0; lia)). cbn [orb].
  set (q := set_status _ _ d). match goal with |- context [transfer_coherency q ?x] => set (w0 := x) end.
  destruct (transfer_coherency q w0) as [w1|] eqn:E; cbn [mbind option_bind]; [|done]. apply transfer_coherency_keeps in E.
  unfold move_data, no_ptr. rewrite !bool_decide_eq_false_2 by done. cbn [negb andb]. unfold copy_between. destruct (_ && _ && _); cbn [mbind option_bind]; [done|].
  unfold load. destruct (ref_memory w1 (pe_mem_ptr src)) as [m1|] eqn:E1; cbn [mbind option_bind]; [|done].
  change (de_src_addr q) with (de_src_addr d). change (de_size q) with (de_size d). unfold mem_read. rewrite decide_False; [done|].
  destruct (keeps_memory w0 w1 (pe_mem_ptr src) m E) as (m2&Hm2&Hl); [by destruct (pe_mem_ptr src)|]. assert (m2 = m1) as -> by congruence. lia.
Qed.
End Shapes.

(** ** Witnesses: a type 2 device with number 1 and a type 3 device with number 2, 256 bytes each *)
Definition demo_bus : list (option CXLType3Dev) := [Some (demo_type3 (replicate 256 5))].
Definition demo_p2p {S} (s : S) : world := (cxl_p2p_discover_peers 1 (mkWorld demo_device demo_bus s cxl_p2p_dma_init 1)).2.
Definition demo_junk (_ : Z) : list Z := [].
Definition demo_gpu_peer : CXLP2PPeer := mkPeer 1 CXL_P2P_PEER_TYPE2 256 MemOwner true true 1.
Definition demo_mem_peer : CXLP2PPeer := mkPeer 0 CXL_P2P_PEER_TYPE3 256 (MemVolatile 0) true false 2.
Definition demo_transfer (src_addr dst_addr size src dst : Z) : CXLP2PDescriptor :=
  mkDescriptor src_addr dst_addr size src dst CXL_P2P_FLAG_SYNC CXL_P2P_DIR_T3_TO_T2 CXL_P2P_STATUS_IDLE 0.

Lemma demo_p2p_reachable {S} request ms (s : S) : p2p_reachable request ms [] demo_junk demo_junk (demo_p2p s).
Proof. apply p2p_discover; [by apply p2p_new|reflexivity]. Qed.

Lemma demo_transfer_ready {S} (s : S) : transfer_ready (demo_p2p s) (demo_transfer 16 32 2 2 1) demo_mem_peer demo_gpu_peer.
Proof. split; try (vm_compute; reflexivity); try (vm_compute; discriminate); try (vm_compute; by intuition discriminate). intros _. vm_compute. eauto. Qed.

Lemma registry_ok_witness :
  en_num_peers (wo_engine (demo_p2p ())) = 2 /\ exists m, ref_memory (demo_p2p ()) (MemVolatile 0) = Some m /\ Z.of_nat (length m) = 256.
Proof.
  destruct (registry_ok demo_none demo_off [] demo_junk demo_junk (demo_p2p ()) (demo_p2p_reachable _ _ ())) as (Hn&_&Hm). split; [rewrite Hn; vm_compute; reflexivity|].
  destruct (Hm 2 demo_mem_peer ltac:(vm_compute; reflexivity)) as [_ H]. apply H. discriminate.
Defined.


Lemma p2p_misses_server_witness :
  exists s1 s2 d' w', cxl_type3_write demo_tcp_request demo_tcp (demo_type3 (replicate 256 5)) (2 ^ 32 + 16) [7; 8] demo_link = Some (MEMTX_OK, demo_type3 (replicate 256 5), s1) /\
    cxl_type3_read demo_tcp_request demo_tcp [] (demo_type3 (replicate 256 5)) (2 ^ 32 + 16) 2 [0; 0] s1 = Some (MEMTX_OK, [7; 8], s2) /\
    cxl_p2p_dma_submit demo_tcp_request demo_tcp [] demo_junk demo_junk (demo_transfer 16 32 2 2 1) (set_server s2 (demo_p2p demo_link)) = Some (0, d', w') /\
    load MemOwner 32 2 w' = Some [5; 5].
Proof.
  destruct (p2p_misses_server (MemsimServer0 := demo_memsim) demo_tcp_request demo_tcp [] demo_junk demo_junk (demo_p2p demo_link) (demo_transfer 16 32 2 2 1) demo_mem_peer demo_gpu_peer 0
    (demo_type3 (replicate 256 5)) (2 ^ 32 + 16) [0; 0] [7; 8] (demo_p2p_reachable _ _ demo_link) (demo_transfer_ready demo_link)) as (s1&s2&d'&w'&old&H1&H2&H3&_&H4&H5);
    try reflexivity; [split; [reflexivity|vm_compute; discriminate]|exact demo_link_ok|split; [vm_compute; discriminate|split; [cbn; lia|vm_compute; discriminate]]|].
  exists s1, s2, d', w'. split; [exact H1|]. split; [exact H2|]. split; [exact H3|]. rewrite <- H4 in H5. exact H5.
Defined.

Lemma failed_transfer_succeeds_witness :
  exists d' w', cxl_p2p_dma_submit demo_none demo_off [] demo_junk demo_junk (demo_transfer 16 32 2 9 1) (demo_p2p ()) = Some (0, d', w') /\ de_status d' = CXL_P2P_STATUS_ERROR.
Proof.
  destruct (failed_transfer_succeeds demo_none demo_off [] demo_junk demo_junk (demo_p2p ()) (demo_transfer 16 32 2 9 1)) as (d'&w'&H1&H2&_);
    try (vm_compute; reflexivity); [discriminate|left; vm_compute; reflexivity|]. exists d', w'. split; [exact H1|exact H2].
Defined.

(** A transfer without [CXL_P2P_FLAG_SYNC] from a peer that does not exist waits in the queue. *)
Definition demo_queued : CXLP2PDescriptor := mkDescriptor 0 0 4 9 1 0 CXL_P2P_DIR_T3_TO_T2 CXL_P2P_STATUS_IDLE 0.
Definition demo_p2p_queue : world := set_engine (set_transfers [demo_queued] [] (wo_engine (demo_p2p ()))) (demo_p2p ()).

Lemma sync_runs_head_witness :
  exists d' w', cxl_p2p_dma_submit demo_none demo_off [] demo_junk demo_junk (demo_transfer 16 32 2 2 1) demo_p2p_queue = Some (0, d', w') /\ de_status d' = CXL_P2P_STATUS_ERROR /\
    length (en_pending_transfers (wo_engine w')) = 1%nat.
Proof.
  destruct (sync_runs_head demo_none demo_off [] demo_junk demo_junk demo_p2p_queue (demo_transfer 16 32 2 2 1) demo_queued []) as (d'&w'&H1&H2&_&H3);
    try (vm_compute; reflexivity); [discriminate|]. exists d', w'. split; [exact H1|]. split; [exact H2|]. rewrite H3. reflexivity.
Defined.

Lemma transfer_wraps_witness : cxl_p2p_dma_submit demo_none demo_off [] demo_junk demo_junk (demo_transfer (2 ^ 64 - 4) 32 4 2 1) (demo_p2p ()) = None.
Proof.
  apply (transfer_wraps demo_none demo_off [] demo_junk demo_junk (demo_p2p ()) (demo_transfer (2 ^ 64 - 4) 32 4 2 1) demo_mem_peer demo_gpu_peer (demo_p2p_reachable _ _ ()));
    try (vm_compute; reflexivity); try (vm_compute; discriminate); split; vm_compute; [reflexivity|discriminate].
Defined.
