(* ===== verification/Type2Cmd.v ===== *)
(** * The GPU commands of the type 2 device ([library/qemu/hw/cxl/cxl_type2.c])

    A guest drives the GPU through registers: it writes parameters and a buffer of data, then a
    command, and reads the results.  The commands use every other part of the device: the GPU
    backend ([HetGpu]), the cache ([Type2Cache]), the tracking ([Type2Coherency]), the pool
    ([Type2Pool]) and the transfers between devices ([Type2P2p]).  [CXLType2State] joins their
    states and adds the registers.  [cxl_type2_cache_read] and [cxl_type2_cache_write] are the
    handlers of both BARs: the registers come first, the memory after them.

    A pointer into the data buffer that is passed on is the bytes from there on.  The array of
    modules and its count are one list, and so are functions and theirs.  The bytes of a message
    that was not initialised are a parameter.  [None] of an operation is an access outside of a
    memory, a wait for a mutex that the thread holds, or a loop that does not end.

    [guest_reachable_ok] shows the invariants of the parts in every state that a guest can reach,
    [gpu_copy_roundtrip] that bytes copied to the GPU are copied back,
    [first_copy_hangs], [low_memory_is_registers], [allocation_in_pool] and [flush_never_ends] are
    defects. *)
From S2P Require Import Prelude Pgas Type2Pool Type2Coherency Type2Cache HetGpu Type3Decode Type3Access Type2P2p.
#[local] Open Scope Z_scope.

(** ** Registers *)
Definition CXL_GPU_REG_MAGIC : Z := 0x0000.
Definition CXL_GPU_REG_VERSION : Z := 0x0004.
Definition CXL_GPU_REG_STATUS : Z := 0x0008.
Definition CXL_GPU_REG_CAPS : Z := 0x000C.
Definition CXL_GPU_REG_CMD : Z := 0x0010.
Definition CXL_GPU_REG_CMD_STATUS : Z := 0x0014.
Definition CXL_GPU_REG_CMD_RESULT : Z := 0x0018.
Definition CXL_GPU_REG_PARAM0 : Z := 0x0040.
Definition CXL_GPU_REG_PARAM1 : Z := 0x0048.
Definition CXL_GPU_REG_PARAM2 : Z := 0x0050.
Definition CXL_GPU_REG_PARAM3 : Z := 0x0058.
Definition CXL_GPU_REG_PARAM4 : Z := 0x0060.
Definition CXL_GPU_REG_PARAM5 : Z := 0x0068.
Definition CXL_GPU_REG_PARAM6 : Z := 0x0070.
Definition CXL_GPU_REG_PARAM7 : Z := 0x0078.
Definition CXL_GPU_REG_RESULT0 : Z := 0x0080.
Definition CXL_GPU_REG_RESULT1 : Z := 0x0088.
Definition CXL_GPU_REG_RESULT2 : Z := 0x0090.
Definition CXL_GPU_REG_RESULT3 : Z := 0x0098.
Definition CXL_GPU_REG_DEV_NAME : Z := 0x0100.
Definition CXL_GPU_REG_TOTAL_MEM : Z := 0x0140.
Definition CXL_GPU_REG_FREE_MEM : Z := 0x0148.
Definition CXL_GPU_REG_CC_MAJOR : Z := 0x0150.
Definition CXL_GPU_REG_CC_MINOR : Z := 0x0154.
Definition CXL_GPU_REG_MP_COUNT : Z := 0x0158.
Definition CXL_GPU_REG_MAX_THREADS : Z := 0x015C.
Definition CXL_GPU_REG_WARP_SIZE : Z := 0x0160.
Definition CXL_GPU_REG_BACKEND : Z := 0x0164.
Definition CXL_GPU_REG_COH_POOL_BASE : Z := 0x0300.
Definition CXL_GPU_REG_COH_POOL_SIZE : Z := 0x0308.
Definition CXL_GPU_REG_COH_POOL_FREE : Z := 0x0310.
Definition CXL_GPU_REG_COH_DIR_SIZE : Z := 0x0318.
Definition CXL_GPU_REG_COH_DIR_USED : Z := 0x0320.
Definition CXL_GPU_DATA_OFFSET : Z := 0x1000.
Definition CXL_GPU_DATA_SIZE : Z := 0x100000.
Definition CXL_GPU_CMD_REG_SIZE : Z := 0x101000.
Definition CXL_GPU_BULK_TRANSFER_SIZE : Z := 0x4000000.
Definition CXL_GPU_MAGIC : Z := 0x43584C32.
Definition CXL_GPU_VERSION : Z := 0x00010000.
Definition CXL_GPU_STATUS_READY : Z := 1.
Definition CXL_GPU_STATUS_CTX_ACTIVE : Z := 8.

Inductive CXLGPUCmdStatus := CXL_GPU_CMD_STATUS_IDLE | CXL_GPU_CMD_STATUS_PENDING | CXL_GPU_CMD_STATUS_RUNNING | CXL_GPU_CMD_STATUS_COMPLETE | CXL_GPU_CMD_STATUS_ERROR.

Definition cmd_status_val (s : CXLGPUCmdStatus) : Z :=
  match s with
  | CXL_GPU_CMD_STATUS_IDLE => 0 | CXL_GPU_CMD_STATUS_PENDING => 1 | CXL_GPU_CMD_STATUS_RUNNING => 2
  | CXL_GPU_CMD_STATUS_COMPLETE => 3 | CXL_GPU_CMD_STATUS_ERROR => 4
  end.

Inductive CXLGPUError :=
  CXL_GPU_SUCCESS | CXL_GPU_ERROR_INVALID_VALUE | CXL_GPU_ERROR_OUT_OF_MEMORY | CXL_GPU_ERROR_NOT_INITIALIZED | CXL_GPU_ERROR_DEINITIALIZED |
  CXL_GPU_ERROR_NO_DEVICE | CXL_GPU_ERROR_INVALID_DEVICE | CXL_GPU_ERROR_INVALID_CONTEXT | CXL_GPU_ERROR_INVALID_HANDLE | CXL_GPU_ERROR_NOT_FOUND |
  CXL_GPU_ERROR_NOT_READY | CXL_GPU_ERROR_LAUNCH_FAILED | CXL_GPU_ERROR_INVALID_PTX | CXL_GPU_ERROR_UNKNOWN.

Definition gpu_error_val (e : CXLGPUError) : Z :=
  match e with
  | CXL_GPU_SUCCESS => 0 | CXL_GPU_ERROR_INVALID_VALUE => 1 | CXL_GPU_ERROR_OUT_OF_MEMORY => 2 | CXL_GPU_ERROR_NOT_INITIALIZED => 3
  | CXL_GPU_ERROR_DEINITIALIZED => 4 | CXL_GPU_ERROR_NO_DEVICE => 100 | CXL_GPU_ERROR_INVALID_DEVICE => 101 | CXL_GPU_ERROR_INVALID_CONTEXT => 201
  | CXL_GPU_ERROR_INVALID_HANDLE => 400 | CXL_GPU_ERROR_NOT_FOUND => 500 | CXL_GPU_ERROR_NOT_READY => 600 | CXL_GPU_ERROR_LAUNCH_FAILED => 700
  | CXL_GPU_ERROR_INVALID_PTX => 800 | CXL_GPU_ERROR_UNKNOWN => 999
  end.

(** The commands that are carried out; others of the header and all other numbers are refused. *)
Inductive CXLGPUCommand :=
  CXL_GPU_CMD_NOP | CXL_GPU_CMD_INIT | CXL_GPU_CMD_GET_DEVICE_COUNT | CXL_GPU_CMD_GET_DEVICE | CXL_GPU_CMD_GET_DEVICE_PROPS | CXL_GPU_CMD_GET_TOTAL_MEM |
  CXL_GPU_CMD_CTX_CREATE | CXL_GPU_CMD_CTX_DESTROY | CXL_GPU_CMD_CTX_SYNC | CXL_GPU_CMD_MEM_ALLOC | CXL_GPU_CMD_MEM_FREE |
  CXL_GPU_CMD_MEM_COPY_HTOD | CXL_GPU_CMD_MEM_COPY_DTOH | CXL_GPU_CMD_MODULE_LOAD_PTX | CXL_GPU_CMD_FUNC_GET | CXL_GPU_CMD_LAUNCH_KERNEL |
  CXL_GPU_CMD_BULK_HTOD | CXL_GPU_CMD_BULK_DTOH | CXL_GPU_CMD_BULK_DTOD | CXL_GPU_CMD_CACHE_FLUSH | CXL_GPU_CMD_CACHE_INVALIDATE | CXL_GPU_CMD_CACHE_WRITEBACK |
  CXL_GPU_CMD_P2P_DISCOVER | CXL_GPU_CMD_P2P_GET_PEER_INFO | CXL_GPU_CMD_P2P_GPU_TO_MEM | CXL_GPU_CMD_P2P_MEM_TO_GPU | CXL_GPU_CMD_P2P_MEM_TO_MEM |
  CXL_GPU_CMD_P2P_SYNC | CXL_GPU_CMD_P2P_GET_STATUS | CXL_GPU_CMD_COHERENT_ALLOC | CXL_GPU_CMD_COHERENT_FREE | CXL_GPU_CMD_COHERENT_GET_INFO |
  CXL_GPU_CMD_COHERENT_FENCE | CXL_GPU_CMD_SET_BIAS | CXL_GPU_CMD_GET_BIAS | CXL_GPU_CMD_BIAS_FLIP | CXL_GPU_CMD_COH_GET_STATS | CXL_GPU_CMD_COH_RESET_STATS.

Definition commands : list (Z * CXLGPUCommand) :=
  [(0x00, CXL_GPU_CMD_NOP); (0x01, CXL_GPU_CMD_INIT); (0x02, CXL_GPU_CMD_GET_DEVICE_COUNT); (0x03, CXL_GPU_CMD_GET_DEVICE); (0x05, CXL_GPU_CMD_GET_DEVICE_PROPS);
   (0x06, CXL_GPU_CMD_GET_TOTAL_MEM); (0x10, CXL_GPU_CMD_CTX_CREATE); (0x11, CXL_GPU_CMD_CTX_DESTROY); (0x12, CXL_GPU_CMD_CTX_SYNC);
   (0x20, CXL_GPU_CMD_MEM_ALLOC); (0x21, CXL_GPU_CMD_MEM_FREE); (0x22, CXL_GPU_CMD_MEM_COPY_HTOD); (0x23, CXL_GPU_CMD_MEM_COPY_DTOH);
   (0x30, CXL_GPU_CMD_MODULE_LOAD_PTX); (0x32, CXL_GPU_CMD_FUNC_GET); (0x40, CXL_GPU_CMD_LAUNCH_KERNEL);
   (0x70, CXL_GPU_CMD_BULK_HTOD); (0x71, CXL_GPU_CMD_BULK_DTOH); (0x72, CXL_GPU_CMD_BULK_DTOD);
   (0x80, CXL_GPU_CMD_CACHE_FLUSH); (0x81, CXL_GPU_CMD_CACHE_INVALIDATE); (0x82, CXL_GPU_CMD_CACHE_WRITEBACK);
   (0x90, CXL_GPU_CMD_P2P_DISCOVER); (0x91, CXL_GPU_CMD_P2P_GET_PEER_INFO); (0x92, CXL_GPU_CMD_P2P_GPU_TO_MEM); (0x93, CXL_GPU_CMD_P2P_MEM_TO_GPU);
   (0x94, CXL_GPU_CMD_P2P_MEM_TO_MEM); (0x95, CXL_GPU_CMD_P2P_SYNC); (0x96, CXL_GPU_CMD_P2P_GET_STATUS);
   (0xA0, CXL_GPU_CMD_COHERENT_ALLOC); (0xA1, CXL_GPU_CMD_COHERENT_FREE); (0xA2, CXL_GPU_CMD_COHERENT_GET_INFO); (0xA3, CXL_GPU_CMD_COHERENT_FENCE);
   (0xA4, CXL_GPU_CMD_SET_BIAS); (0xA5, CXL_GPU_CMD_GET_BIAS); (0xA6, CXL_GPU_CMD_BIAS_FLIP); (0xB0, CXL_GPU_CMD_COH_GET_STATS); (0xB1, CXL_GPU_CMD_COH_RESET_STATS)].

Definition command_of (cmd : Z) : option CXLGPUCommand := snd <$> head (filter (fun p => fst p = cmd) commands).

(** ** State *)
Record gpu_cmd := mkCmd {
  gc_status : Z;
  gc_cmd_status : CXLGPUCmdStatus;
  gc_cmd_result : CXLGPUError;
  gc_params : list Z;
  gc_results : list Z;
  gc_data : list Z;
  gc_modules : list Z;
  gc_functions : list Z;
  gc_capabilities : Z
}.

(** [next_alloc] is a static variable of [cxl_type2_gpu_execute_cmd]. *)
Record CXLType2State {S C : Type} := mkType2 {
  t2_world : world (S := S);
  t2_pool : coherent_pool;
  t2_hetgpu : HetGPUState;
  t2_library : C;
  t2_gpu_cmd : gpu_cmd;
  t2_next_alloc : Z
}.

Arguments CXLType2State : clear implicits.
Arguments mkType2 {S C} _ _ _ _ _ _.

(** The registers after [cxl_type2_realize]. *)
Definition gpu_cmd_init : gpu_cmd :=
  mkCmd 0 CXL_GPU_CMD_STATUS_IDLE CXL_GPU_SUCCESS (replicate 8 0) (replicate 4 0) (replicate (Z.to_nat CXL_GPU_DATA_SIZE) 0) [] [] 27.

Definition set_result (e : CXLGPUError) (g : gpu_cmd) : gpu_cmd :=
  mkCmd (gc_status g) (gc_cmd_status g) e (gc_params g) (gc_results g) (gc_data g) (gc_modules g) (gc_functions g) (gc_capabilities g).

Definition set_cmd_status (s : CXLGPUCmdStatus) (g : gpu_cmd) : gpu_cmd :=
  mkCmd (gc_status g) s (gc_cmd_result g) (gc_params g) (gc_results g) (gc_data g) (gc_modules g) (gc_functions g) (gc_capabilities g).

Definition set_param (k : nat) (v : Z) (g : gpu_cmd) : gpu_cmd :=
  mkCmd (gc_status g) (gc_cmd_status g) (gc_cmd_result g) (<[k := v]> (gc_params g)) (gc_results g) (gc_data g) (gc_modules g) (gc_functions g) (gc_capabilities g).

(** [results[0] = ...], [results[1] = ...] and so on. *)
Definition set_results (vs : list Z) (g : gpu_cmd) : gpu_cmd :=
  mkCmd (gc_status g) (gc_cmd_status g) (gc_cmd_result g) (gc_params g) (vs ++ drop (length vs) (gc_results g)) (gc_data g) (gc_modules g) (gc_functions g) (gc_capabilities g).

Definition set_data (bs : list Z) (g : gpu_cmd) : gpu_cmd :=
  mkCmd (gc_status g) (gc_cmd_status g) (gc_cmd_result g) (gc_params g) (gc_results g) bs (gc_modules g) (gc_functions g) (gc_capabilities g).

Definition add_module (m : Z) (g : gpu_cmd) : gpu_cmd :=
  mkCmd (gc_status g) (gc_cmd_status g) (gc_cmd_result g) (gc_params g) (gc_results g) (gc_data g) (gc_modules g ++ [m]) (gc_functions g) (gc_capabilities g).

Definition add_function (f : Z) (g : gpu_cmd) : gpu_cmd :=
  mkCmd (gc_status g) (gc_cmd_status g) (gc_cmd_result g) (gc_params g) (gc_results g) (gc_data g) (gc_modules g) (gc_functions g ++ [f]) (gc_capabilities g).

Definition param (g : gpu_cmd) (k : nat) : Z := nth k (gc_params g) 0.

Definition data_size (g : gpu_cmd) : Z := Z.of_nat (length (gc_data g)).

Definition succeeded (e : HetGPUError) : bool := bool_decide (e = HETGPU_SUCCESS).

(** The result register when a call of the backend failed. *)
Definition result_if (e : HetGPUError) (err : CXLGPUError) (g : gpu_cmd) : gpu_cmd := if succeeded e then g else set_result err g.

(** The first [n] pointers of the buffer. *)
Fixpoint pointers (n : nat) (bs : list Z) : list Z :=
  match n with
  | O => []
  | S n' => le_combine (take 8 bs) :: pointers n' (drop 8 bs)
  end.

Section Commands.
Context {S C : Type} (request : Z -> Z -> Z -> list Z -> S -> option CXLMemSimResponse * S) (ms : memsim_config) (random : list Z) (junk heap : Z -> list Z).
Context (cuda : cuda_api C) (owner_devfn : nat) (msg_junk : list Z).
#[local] Notation state := (CXLType2State S C).

Definition set_gpu_cmd (g : gpu_cmd) (t : state) : state := mkType2 (t2_world t) (t2_pool t) (t2_hetgpu t) (t2_library t) g (t2_next_alloc t).
Definition set_world (w : world) (t : state) : state := mkType2 w (t2_pool t) (t2_hetgpu t) (t2_library t) (t2_gpu_cmd t) (t2_next_alloc t).
Definition set_pool (p : coherent_pool) (t : state) : state := mkType2 (t2_world t) p (t2_hetgpu t) (t2_library t) (t2_gpu_cmd t) (t2_next_alloc t).
Definition set_hetgpu (h : HetGPUState) (c : C) (t : state) : state := mkType2 (t2_world t) (t2_pool t) h c (t2_gpu_cmd t) (t2_next_alloc t).
Definition set_next_alloc (n : Z) (t : state) : state := mkType2 (t2_world t) (t2_pool t) (t2_hetgpu t) (t2_library t) (t2_gpu_cmd t) n.
Definition t2_device (t : state) : device := wo_owner (t2_world t).
Definition set_t2_device (d : device) (t : state) : state := set_world (set_owner d (t2_world t)) t.
Definition update (f : gpu_cmd -> gpu_cmd) (t : state) : state := set_gpu_cmd (f (t2_gpu_cmd t)) t.
Definition initialized (t : state) : bool := hg_initialized (t2_hetgpu t).
Definition fail (e : CXLGPUError) (t : state) : state := update (set_result e) t.

(** ** Queries *)
Definition cmd_init (t : state) : state := if initialized t then t else fail CXL_GPU_ERROR_NOT_INITIALIZED t.

Definition cmd_get_device_count (t : state) : state := update (set_results [if initialized t then 1 else 0]) t.

Definition cmd_get_device (t : state) : state :=
  if (param (t2_gpu_cmd t) 0 =? 0) && initialized t then update (set_results [0]) t else fail CXL_GPU_ERROR_INVALID_DEVICE t.

(** [char name[256]], filled up with zeros. *)
Definition name_field (p : HetGPUDeviceProps) : list Z := take 256 (pr_name p ++ replicate 256 0).

Definition cmd_get_device_props (t : state) : option state :=
  if initialized t then
    let '(err, props) := hetgpu_get_device_props (t2_hetgpu t) in
    if succeeded err then
      data ← mem_write 0 (name_field props) (gc_data (t2_gpu_cmd t));
      Some (update (fun g => set_results [pr_total_memory props; Z.lor (wrap32 (Z.shiftl (pr_compute_capability_major props) 16)) (pr_compute_capability_minor props);
                                          pr_multiprocessor_count props; pr_max_threads_per_block props] (set_data data g)) t)
    else Some (fail CXL_GPU_ERROR_INVALID_DEVICE t)
  else Some (fail CXL_GPU_ERROR_NOT_INITIALIZED t).

Definition cmd_get_total_mem (t : state) : state :=
  update (set_results [if initialized t then pr_total_memory (hg_props (t2_hetgpu t)) else device_mem_size (t2_device t)]) t.

Definition cmd_ctx_create (t : state) : state :=
  if initialized t then
    let '(err, h, c) := hetgpu_create_context cuda (t2_hetgpu t) (t2_library t) in
    let t := set_hetgpu h c t in
    if succeeded err then update (set_results [hg_context h]) t else fail CXL_GPU_ERROR_INVALID_CONTEXT t
  else fail CXL_GPU_ERROR_NOT_INITIALIZED t.

Definition cmd_ctx_sync (t : state) : state :=
  if initialized t then
    let '(err, h, c) := hetgpu_synchronize cuda (t2_hetgpu t) (t2_library t) in
    update (result_if err CXL_GPU_ERROR_UNKNOWN) (set_hetgpu h c t)
  else t.

(** ** Memory *)
Definition cmd_mem_alloc (t : state) : state :=
  let size := param (t2_gpu_cmd t) 0 in
  if initialized t then
    let '(err, dev_ptr, h, c) := hetgpu_malloc cuda (t2_hetgpu t) (t2_library t) size in
    let t := set_hetgpu h c t in
    if succeeded err then update (set_results [dev_ptr]) t else fail CXL_GPU_ERROR_OUT_OF_MEMORY t
  else if t2_next_alloc t ⊞ size <=? device_mem_size (t2_device t)
  then set_next_alloc (t2_next_alloc t ⊞ page_align size) (update (set_results [t2_next_alloc t]) t)
  else fail CXL_GPU_ERROR_OUT_OF_MEMORY t.

Definition cmd_mem_free (t : state) : state :=
  if initialized t then
    let '(err, h, c) := hetgpu_free cuda (t2_hetgpu t) (t2_library t) (param (t2_gpu_cmd t) 0) in
    update (result_if err CXL_GPU_ERROR_INVALID_VALUE) (set_hetgpu h c t)
  else t.

(** [if (ct2d->bar_coherency.enabled) cxl_bar_notify_gpu_access(...)]. *)
Definition notify (dev_ptr size : Z) (is_write : bool) (t : state) : option state :=
  let d := t2_device t in
  if bc_enabled (dv_bar_coherency d)
  then b ← cxl_bar_notify_gpu_access (dv_bar_coherency d) dev_ptr size is_write; Some (set_t2_device (set_bar b d) t)
  else Some t.

(** [memcpy(mem + dev_ptr, bs, size)]. *)
Definition store_device (dev_ptr : Z) (bs : list Z) (t : state) : option state :=
  let d := t2_device t in
  m ← mem_write dev_ptr bs (dv_device_mem d); Some (set_t2_device (set_mem m d) t).

Definition in_device (dev_ptr size : Z) (t : state) : bool := dev_ptr ⊞ size <=? device_mem_size (t2_device t).

Definition cmd_mem_copy_htod (t : state) : option state :=
  let g := t2_gpu_cmd t in
  let dev_ptr := param g 0 in
  let size := param g 1 in
  if data_size g <? size then Some (fail CXL_GPU_ERROR_INVALID_VALUE t)
  else
    let bs := take (Z.to_nat size) (gc_data g) in
    if initialized t then
      '(err, h, c) ← hetgpu_memcpy_htod cuda (t2_hetgpu t) (t2_library t) dev_ptr bs;
      let t := update (result_if err CXL_GPU_ERROR_INVALID_VALUE) (set_hetgpu h c t) in
      if in_device dev_ptr size t then t ← store_device dev_ptr bs t; notify dev_ptr size true t else Some t
    else if in_device dev_ptr size t then t ← store_device dev_ptr bs t; notify dev_ptr size true t
    else Some (fail CXL_GPU_ERROR_INVALID_VALUE t).

(** [memcpy(ct2d->gpu_cmd.data, bs, size)]. *)
Definition fill_data (bs : list Z) (g : gpu_cmd) : gpu_cmd := set_data (bs ++ drop (length bs) (gc_data g)) g.

Definition cmd_mem_copy_dtoh (t : state) : option state :=
  let g := t2_gpu_cmd t in
  let dev_ptr := param g 0 in
  let size := param g 1 in
  if data_size g <? size then Some (fail CXL_GPU_ERROR_INVALID_VALUE t)
  else if initialized t then
    t ← notify dev_ptr size false t;
    '(err, bs, h, c) ← hetgpu_memcpy_dtoh cuda (t2_hetgpu t) (t2_library t) (take (Z.to_nat size) (gc_data g)) dev_ptr;
    let t := update (fun g => result_if err CXL_GPU_ERROR_INVALID_VALUE (fill_data bs g)) (set_hetgpu h c t) in
    if in_device dev_ptr size t then store_device dev_ptr bs t else Some t
  else if in_device dev_ptr size t then
    t ← notify dev_ptr size false t;
    bs ← mem_read dev_ptr size (dv_device_mem (t2_device t));
    Some (update (fill_data bs) t)
  else Some (fail CXL_GPU_ERROR_INVALID_VALUE t).

(** ** Kernels *)
Definition cmd_module_load_ptx (t : state) : state :=
  let g := t2_gpu_cmd t in
  if initialized t && (Z.of_nat (length (gc_modules g)) <? 64) then
    let '(err, module, h, c) := hetgpu_load_ptx cuda (t2_hetgpu t) (t2_library t) (gc_data g) in
    let t := set_hetgpu h c t in
    if succeeded err then update (fun g => add_module module (set_results [Z.of_nat (length (gc_modules g))] g)) t else fail CXL_GPU_ERROR_INVALID_PTX t
  else fail CXL_GPU_ERROR_NOT_INITIALIZED t.

Definition cmd_func_get (t : state) : state :=
  let g := t2_gpu_cmd t in
  if initialized t && (Z.of_nat (length (gc_functions g)) <? 256) then
    match gc_modules g !! Z.to_nat (wrap32 (param g 0)) with
    | Some module =>
        let '(err, func, h, c) := hetgpu_get_function cuda (t2_hetgpu t) (t2_library t) module (gc_data g) in
        let t := set_hetgpu h c t in
        if succeeded err then update (fun g => add_function func (set_results [Z.of_nat (length (gc_functions g))] g)) t else fail CXL_GPU_ERROR_NOT_FOUND t
    | None => fail CXL_GPU_ERROR_INVALID_HANDLE t
    end
  else fail CXL_GPU_ERROR_NOT_INITIALIZED t.

Definition low32 (v : Z) : Z := Z.land v 0xFFFFFFFF.
Definition high32 (v : Z) : Z := Z.land (Z.shiftr v 32) 0xFFFFFFFF.

Definition launch_config (g : gpu_cmd) : HetGPULaunchConfig :=
  mkLaunch [low32 (param g 1); high32 (param g 1); low32 (param g 2)] [high32 (param g 2); low32 (param g 3); high32 (param g 3)] (low32 (param g 4)).

Definition cmd_launch_kernel (t : state) : state :=
  let g := t2_gpu_cmd t in
  if initialized t then
    match gc_functions g !! Z.to_nat (wrap32 (param g 0)) with
    | Some func =>
        let num_args := Z.land (Z.shiftr (param g 4) 32) 0xFF in
        let '(err, h, c) := hetgpu_launch_kernel cuda (t2_hetgpu t) (t2_library t) func (launch_config g) (pointers (Z.to_nat num_args) (gc_data g)) in
        update (result_if err CXL_GPU_ERROR_LAUNCH_FAILED) (set_hetgpu h c t)
    | None => fail CXL_GPU_ERROR_INVALID_HANDLE t
    end
  else fail CXL_GPU_ERROR_NOT_INITIALIZED t.

(** ** Bulk transfers *)
Definition cmd_bulk_htod (t : state) : option state :=
  let g := t2_gpu_cmd t in
  let bar4_offset := param g 0 in
  let xfer_size := param g 2 in
  if CXL_GPU_BULK_TRANSFER_SIZE <? xfer_size then Some (fail CXL_GPU_ERROR_INVALID_VALUE t)
  else if initialized t then
    if in_device bar4_offset xfer_size t then
      bs ← mem_read bar4_offset xfer_size (dv_device_mem (t2_device t));
      '(err, h, c) ← hetgpu_memcpy_htod cuda (t2_hetgpu t) (t2_library t) (param g 1) bs;
      Some (update (result_if err CXL_GPU_ERROR_INVALID_VALUE) (set_hetgpu h c t))
    else Some (fail CXL_GPU_ERROR_INVALID_VALUE t)
  else Some (fail CXL_GPU_ERROR_NOT_INITIALIZED t).

Definition cmd_bulk_dtoh (t : state) : option state :=
  let g := t2_gpu_cmd t in
  let bar4_offset := param g 1 in
  let xfer_size := param g 2 in
  if CXL_GPU_BULK_TRANSFER_SIZE <? xfer_size then Some (fail CXL_GPU_ERROR_INVALID_VALUE t)
  else if initialized t then
    if in_device bar4_offset xfer_size t then
      old ← mem_read bar4_offset xfer_size (dv_device_mem (t2_device t));
      '(err, bs, h, c) ← hetgpu_memcpy_dtoh cuda (t2_hetgpu t) (t2_library t) old (param g 0);
      store_device bar4_offset bs (update (result_if err CXL_GPU_ERROR_INVALID_VALUE) (set_hetgpu h c t))
    else Some (fail CXL_GPU_ERROR_INVALID_VALUE t)
  else Some (fail CXL_GPU_ERROR_NOT_INITIALIZED t).

Definition cmd_bulk_dtod (t : state) : option state :=
  let g := t2_gpu_cmd t in
  if initialized t then
    '(err, h, c) ← hetgpu_memcpy_dtod cuda (t2_hetgpu t) (t2_library t) (param g 1) (param g 0) (param g 2);
    Some (update (result_if err CXL_GPU_ERROR_INVALID_VALUE) (set_hetgpu h c t))
  else Some (fail CXL_GPU_ERROR_NOT_INITIALIZED t).

(** ** Cache commands *)

(** [for (addr = start; addr < start + size; addr += 64)]; a loop that has not ended after these
    rounds has passed [2^64] and does not end. *)
Definition cache_loop (step : Z -> device -> option device) (start size : Z) (d : device) : option device :=
  line_loop (Z.to_nat (size / 64 + 2)) step start (start ⊞ size) d.

Definition cache_message (ty : CXLType2MsgType) (st : CXLCoherencyState) (addr size : Z) (d : device) : device :=
  send (mkMessage ty (wrap32 size) addr st 0 msg_junk) d.

Definition cache_flush (addr size : Z) (d : device) : option device :=
  if co_coherency_enabled (dv_coherency d) && dv_connected d then
    d ← cache_loop (fun a d => Some (cxl_type2_cache_invalidate d a)) addr size (cache_message CXL_T2_MSG_CACHE_FLUSH CXL_COHERENCY_INVALID addr size d);
    Some (count_op d)
  else Some d.

Definition cache_invalidate (addr size : Z) (d : device) : option device :=
  if co_coherency_enabled (dv_coherency d) then
    d ← cache_loop (fun a d => Some (cxl_type2_cache_invalidate d a)) addr size d;
    Some (cache_message CXL_T2_MSG_INVALIDATE CXL_COHERENCY_INVALID addr size (count_op d))
  else Some d.

Definition cache_writeback (addr size : Z) (d : device) : option device :=
  if co_coherency_enabled (dv_coherency d) then
    d ← cache_loop (fun a d => cxl_type2_cache_writeback d a) addr size d;
    Some (cache_message CXL_T2_MSG_WRITEBACK CXL_COHERENCY_SHARED addr size (count_op d))
  else Some d.

Definition cmd_cache (op : Z -> Z -> device -> option device) (t : state) : option state :=
  d ← op (param (t2_gpu_cmd t) 0) (param (t2_gpu_cmd t) 1) (t2_device t); Some (set_t2_device d t).

(** ** Transfers between devices *)
Definition cmd_p2p_discover (t : state) : state :=
  let '(num_peers, w) := cxl_p2p_discover_peers owner_devfn (t2_world t) in
  update (fun g => set_results [num_peers] (set_result CXL_GPU_SUCCESS g)) (set_world w t).

Definition cmd_p2p_get_peer_info (t : state) : state :=
  match cxl_p2p_get_peer (wo_engine (t2_world t)) (wrap32 (param (t2_gpu_cmd t) 0)) with
  | Some peer => update (set_results [peer_type_val (pe_type peer); pe_mem_size peer; Z.b2z (pe_coherent peer)]) t
  | None => fail CXL_GPU_ERROR_INVALID_VALUE t
  end.

Definition p2p_result (r : Z * CXLP2PDescriptor * world) (t : state) : state :=
  let '(ret, _, w) := r in
  update (set_result (if ret =? 0 then CXL_GPU_SUCCESS else CXL_GPU_ERROR_OUT_OF_MEMORY)) (set_world w t).

Definition cmd_p2p_gpu_to_mem (t : state) : option state :=
  let g := t2_gpu_cmd t in
  r ← cxl_p2p_gpu_to_mem request ms random junk heap (wrap32 (param g 0)) (param g 1) (param g 2) (param g 3) CXL_P2P_FLAG_COHERENT (t2_world t);
  Some (p2p_result r t).

Definition cmd_p2p_mem_to_gpu (t : state) : option state :=
  let g := t2_gpu_cmd t in
  r ← cxl_p2p_mem_to_gpu request ms random junk heap (wrap32 (param g 0)) (param g 1) (param g 2) (param g 3) CXL_P2P_FLAG_COHERENT (t2_world t);
  Some (p2p_result r t).

Definition cmd_p2p_mem_to_mem (t : state) : option state :=
  let g := t2_gpu_cmd t in
  r ← cxl_p2p_mem_to_mem request ms random junk heap (wrap32 (param g 0)) (wrap32 (param g 1)) (param g 2) (param g 3) (param g 4) CXL_P2P_FLAG_COHERENT (t2_world t);
  Some (p2p_result r t).

Definition cmd_p2p_get_status (t : state) : state :=
  let e := wo_engine (t2_world t) in
  update (set_results [en_num_peers e; ps_transfers_completed (en_stats e); ps_bytes_transferred (en_stats e)]) t.

(** ** The pool *)
Definition cmd_coherent_alloc (t : state) : state :=
  let '(offset, p) := cxl_coherent_pool_alloc (t2_pool t) (param (t2_gpu_cmd t) 0) in
  let t := set_pool p t in
  if 0 <=? offset then update (set_results [offset]) t else fail CXL_GPU_ERROR_OUT_OF_MEMORY t.

Definition cmd_coherent_free (t : state) : state :=
  let '(r, p) := cxl_coherent_pool_free (t2_pool t) (param (t2_gpu_cmd t) 0) in
  let t := set_pool p t in
  if r =? 0 then t else fail CXL_GPU_ERROR_INVALID_VALUE t.

Definition cmd_coherent_get_info (t : state) : state :=
  let p := t2_pool t in
  update (set_results [cp_base_offset p; cp_size p; cp_size p ⊟ cp_used p; bc_snoop_filter_size (dv_bar_coherency (t2_device t))]) t.

Definition cmd_coherent_fence (t : state) : option state :=
  b ← cxl_bar_memory_fence (dv_bar_coherency (t2_device t));
  d ← cxl_bar_process_back_invalidations (initialized t) (set_bar b (t2_device t));
  Some (set_t2_device d t).

(** ** Bias and statistics *)
Definition with_bar (r : option CXLBARCoherencyState) (t : state) : option state := b ← r; Some (set_t2_device (set_bar b (t2_device t)) t).

Definition cmd_set_bias (t : state) : option state :=
  let g := t2_gpu_cmd t in
  let bias_mode := param g 2 mod 2 ^ 8 in
  if CXL_BIAS_MODE_DEVICE <? bias_mode then Some (fail CXL_GPU_ERROR_INVALID_VALUE t)
  else with_bar (cxl_bar_set_bias (dv_bar_coherency (t2_device t)) (param g 0) (param g 1) bias_mode) t.

Definition cmd_get_bias (t : state) : option state :=
  '(bias, b) ← cxl_bar_get_bias (dv_bar_coherency (t2_device t)) (param (t2_gpu_cmd t) 0);
  Some (update (set_results [bias]) (set_t2_device (set_bar b (t2_device t)) t)).

Definition cmd_bias_flip (t : state) : option state :=
  let g := t2_gpu_cmd t in
  let new_bias := param g 2 mod 2 ^ 8 in
  if CXL_BIAS_MODE_DEVICE <? new_bias then Some (fail CXL_GPU_ERROR_INVALID_VALUE t)
  else with_bar (cxl_bar_bias_flip (dv_bar_coherency (t2_device t)) (param g 0) (param g 1) new_bias) t.

Definition cmd_coh_get_stats (t : state) : option state :=
  let b := dv_bar_coherency (t2_device t) in
  let s := bc_stats b in
  let words := [s writebacks; s evictions; s bias_flips; s device_bias_hits; s host_bias_hits; s upgrades; s downgrades; bc_snoop_filter_size b] in
  data ← (if 64 <=? data_size (t2_gpu_cmd t) then mem_write 0 (mjoin (le_split 8 <$> words)) (gc_data (t2_gpu_cmd t)) else Some (gc_data (t2_gpu_cmd t)));
  Some (update (fun g => set_data data (set_results [s snoop_hits; s snoop_misses; s coherency_requests; s back_invalidations] g)) t).

Definition cmd_coh_reset_stats (t : state) : state :=
  set_t2_device (set_bar (set_stats (fun _ => 0) (dv_bar_coherency (t2_device t))) (t2_device t)) t.

(** ** Execution *)
Definition run_command (cmd : CXLGPUCommand) (t : state) : option state :=
  match cmd with
  | CXL_GPU_CMD_NOP | CXL_GPU_CMD_CTX_DESTROY | CXL_GPU_CMD_P2P_SYNC => Some t
  | CXL_GPU_CMD_INIT => Some (cmd_init t)
  | CXL_GPU_CMD_GET_DEVICE_COUNT => Some (cmd_get_device_count t)
  | CXL_GPU_CMD_GET_DEVICE => Some (cmd_get_device t)
  | CXL_GPU_CMD_GET_DEVICE_PROPS => cmd_get_device_props t
  | CXL_GPU_CMD_GET_TOTAL_MEM => Some (cmd_get_total_mem t)
  | CXL_GPU_CMD_CTX_CREATE => Some (cmd_ctx_create t)
  | CXL_GPU_CMD_CTX_SYNC => Some (cmd_ctx_sync t)
  | CXL_GPU_CMD_MEM_ALLOC => Some (cmd_mem_alloc t)
  | CXL_GPU_CMD_MEM_FREE => Some (cmd_mem_free t)
  | CXL_GPU_CMD_MEM_COPY_HTOD => cmd_mem_copy_htod t
  | CXL_GPU_CMD_MEM_COPY_DTOH => cmd_mem_copy_dtoh t
  | CXL_GPU_CMD_MODULE_LOAD_PTX => Some (cmd_module_load_ptx t)
  | CXL_GPU_CMD_FUNC_GET => Some (cmd_func_get t)
  | CXL_GPU_CMD_LAUNCH_KERNEL => Some (cmd_launch_kernel t)
  | CXL_GPU_CMD_BULK_HTOD => cmd_bulk_htod t
  | CXL_GPU_CMD_BULK_DTOH => cmd_bulk_dtoh t
  | CXL_GPU_CMD_BULK_DTOD => cmd_bulk_dtod t
  | CXL_GPU_CMD_CACHE_FLUSH => cmd_cache cache_flush t
  | CXL_GPU_CMD_CACHE_INVALIDATE => cmd_cache cache_invalidate t
  | CXL_GPU_CMD_CACHE_WRITEBACK => cmd_cache cache_writeback t
  | CXL_GPU_CMD_P2P_DISCOVER => Some (cmd_p2p_discover t)
  | CXL_GPU_CMD_P2P_GET_PEER_INFO => Some (cmd_p2p_get_peer_info t)
  | CXL_GPU_CMD_P2P_GPU_TO_MEM => cmd_p2p_gpu_to_mem t
  | CXL_GPU_CMD_P2P_MEM_TO_GPU => cmd_p2p_mem_to_gpu t
  | CXL_GPU_CMD_P2P_MEM_TO_MEM => cmd_p2p_mem_to_mem t
  | CXL_GPU_CMD_P2P_GET_STATUS => Some (cmd_p2p_get_status t)
  | CXL_GPU_CMD_COHERENT_ALLOC => Some (cmd_coherent_alloc t)
  | CXL_GPU_CMD_COHERENT_FREE => Some (cmd_coherent_free t)
  | CXL_GPU_CMD_COHERENT_GET_INFO => Some (cmd_coherent_get_info t)
  | CXL_GPU_CMD_COHERENT_FENCE => cmd_coherent_fence t
  | CXL_GPU_CMD_SET_BIAS => cmd_set_bias t
  | CXL_GPU_CMD_GET_BIAS => cmd_get_bias t
  | CXL_GPU_CMD_BIAS_FLIP => cmd_bias_flip t
  | CXL_GPU_CMD_COH_GET_STATS => cmd_coh_get_stats t
  | CXL_GPU_CMD_COH_RESET_STATS => Some (cmd_coh_reset_stats t)
  end.

Definition cxl_type2_gpu_execute_cmd (cmd : Z) (t : state) : option state :=
  let t := update (fun g => set_result CXL_GPU_SUCCESS (set_cmd_status CXL_GPU_CMD_STATUS_RUNNING g)) t in
  t ← match command_of cmd with Some c => run_command c t | None => Some (fail CXL_GPU_ERROR_INVALID_VALUE t) end;
  Some (update (set_cmd_status CXL_GPU_CMD_STATUS_COMPLETE) t).

(** ** The register interface *)
Definition data_register (addr : Z) : bool := (CXL_GPU_DATA_OFFSET <=? addr) && (addr <? CXL_GPU_DATA_OFFSET + CXL_GPU_DATA_SIZE).

(** A property of the GPU, or its value without one. *)
Definition gpu_prop (f : HetGPUDeviceProps -> Z) (other : Z) (t : state) : Z := if initialized t then f (hg_props (t2_hetgpu t)) else other.

Definition status_register (t : state) : Z :=
  let v := gc_status (t2_gpu_cmd t) in
  let v := if initialized t then Z.lor v CXL_GPU_STATUS_READY else v in
  if hg_context (t2_hetgpu t) =? 0 then v else Z.lor v CXL_GPU_STATUS_CTX_ACTIVE.

Definition total_mem_register (t : state) : Z :=
  if initialized t && (0 <? pr_total_memory (hg_props (t2_hetgpu t))) then pr_total_memory (hg_props (t2_hetgpu t)) else device_mem_size (t2_device t).

(** The registers with a fixed address. *)
Definition fixed_registers (t : state) : list (Z * Z) :=
  let g := t2_gpu_cmd t in
  let b := dv_bar_coherency (t2_device t) in
  [(CXL_GPU_REG_MAGIC, CXL_GPU_MAGIC); (CXL_GPU_REG_VERSION, CXL_GPU_VERSION); (CXL_GPU_REG_STATUS, status_register t); (CXL_GPU_REG_CAPS, gc_capabilities g);
   (CXL_GPU_REG_CMD_STATUS, cmd_status_val (gc_cmd_status g)); (CXL_GPU_REG_CMD_RESULT, gpu_error_val (gc_cmd_result g));
   (CXL_GPU_REG_RESULT0, nth 0 (gc_results g) 0); (CXL_GPU_REG_RESULT1, nth 1 (gc_results g) 0);
   (CXL_GPU_REG_RESULT2, nth 2 (gc_results g) 0); (CXL_GPU_REG_RESULT3, nth 3 (gc_results g) 0);
   (CXL_GPU_REG_TOTAL_MEM, total_mem_register t); (CXL_GPU_REG_FREE_MEM, device_mem_size (t2_device t));
   (CXL_GPU_REG_CC_MAJOR, gpu_prop pr_compute_capability_major 8 t); (CXL_GPU_REG_CC_MINOR, gpu_prop pr_compute_capability_minor 0 t);
   (CXL_GPU_REG_MP_COUNT, gpu_prop pr_multiprocessor_count 80 t); (CXL_GPU_REG_MAX_THREADS, gpu_prop pr_max_threads_per_block 1024 t);
   (CXL_GPU_REG_WARP_SIZE, gpu_prop pr_warp_size 32 t); (CXL_GPU_REG_BACKEND, backend_val (hg_backend (t2_hetgpu t)));
   (CXL_GPU_REG_COH_POOL_BASE, cp_base_offset (t2_pool t)); (CXL_GPU_REG_COH_POOL_SIZE, cp_size (t2_pool t));
   (CXL_GPU_REG_COH_POOL_FREE, cp_size (t2_pool t) ⊟ cp_used (t2_pool t)); (CXL_GPU_REG_COH_DIR_SIZE, bc_snoop_filter_capacity b); (CXL_GPU_REG_COH_DIR_USED, bc_snoop_filter_size b)].

Definition register_at (addr : Z) (regs : list (Z * Z)) : option Z := snd <$> head (filter (fun p => fst p = addr) regs).

Definition cxl_type2_gpu_cmd_read (addr size : Z) (t : state) : option Z :=
  match register_at addr (fixed_registers t) with
  | Some v => Some v
  | None =>
      if data_register addr then
        let offset := addr - CXL_GPU_DATA_OFFSET in
        if offset + size <=? data_size (t2_gpu_cmd t) then bs ← mem_read offset (Z.min size 8) (gc_data (t2_gpu_cmd t)); Some (le_combine bs) else Some 0
      else if (CXL_GPU_REG_DEV_NAME <=? addr) && (addr <? CXL_GPU_REG_DEV_NAME + 64) && initialized t
      then bs ← mem_read (addr - CXL_GPU_REG_DEV_NAME) (Z.min size 8) (name_field (hg_props (t2_hetgpu t))); Some (le_combine bs)
      else Some 0
  end.

Definition param_register (addr : Z) : option nat :=
  if (CXL_GPU_REG_PARAM0 <=? addr) && (addr <=? CXL_GPU_REG_PARAM7) && (addr mod 8 =? 0) then Some (Z.to_nat ((addr - CXL_GPU_REG_PARAM0) / 8)) else None.

Definition cxl_type2_gpu_cmd_write (addr value size : Z) (t : state) : option state :=
  if addr =? CXL_GPU_REG_CMD then cxl_type2_gpu_execute_cmd (wrap32 value) t
  else match param_register addr with
  | Some k => Some (update (set_param k value) t)
  | None =>
      if data_register addr then
        let offset := addr - CXL_GPU_DATA_OFFSET in
        if offset + size <=? data_size (t2_gpu_cmd t)
        then data ← mem_write offset (value_bytes value size) (gc_data (t2_gpu_cmd t)); Some (update (set_data data) t)
        else Some t
      else Some t
  end.

(** ** The handlers of the BARs *)
Definition cxl_type2_cache_read (addr size : Z) (t : state) : option (Z * state) :=
  if addr <? CXL_GPU_CMD_REG_SIZE then v ← cxl_type2_gpu_cmd_read addr size t; Some (v, t)
  else '(v, d) ← cache_read_mem (t2_device t) addr size; Some (v, set_t2_device d t).

Definition cxl_type2_cache_write (addr value size : Z) (t : state) : option state :=
  if addr <? CXL_GPU_CMD_REG_SIZE then cxl_type2_gpu_cmd_write addr value size t
  else d ← cache_write_mem (t2_device t) addr value size; Some (set_t2_device d t).

Definition cxl_type2_device_mem_read (addr size : Z) (t : state) : option (Z * state) := cxl_type2_cache_read addr size t.

Definition cxl_type2_device_mem_write (addr value size : Z) (t : state) : option state := cxl_type2_cache_write addr value size t.

(** ** Guests *)
Inductive access := Load (addr size : Z) | Store (addr value size : Z).

Fixpoint guest_run (l : list access) (t : state) : option (list Z * state) :=
  match l with
  | [] => Some ([], t)
  | Load addr size :: l' => '(v, t) ← cxl_type2_cache_read addr size t; '(vs, t) ← guest_run l' t; Some (v :: vs, t)
  | Store addr value size :: l' => t ← cxl_type2_cache_write addr value size t; guest_run l' t
  end.
End Commands.

(** ** What operations keep of the device *)
Record dev_keeps (d d' : device) : Prop := {
  dk_size : length (dv_device_mem d') = length (dv_device_mem d);
  dk_idle : bar_idle (dv_bar_coherency d) -> bar_idle (dv_bar_coherency d')
}.

#[global] Instance dev_keeps_preorder : PreOrder dev_keeps.
Proof. split; [by intros d|]. intros d1 d2 d3 [] []. split; [congruence|auto]. Qed.

Lemma keeps_same (d d' : device) : dv_device_mem d' = dv_device_mem d -> dv_bar_coherency d' = dv_bar_coherency d -> dev_keeps d d'.
Proof. intros H1 H2. split; by rewrite ?H1, ?H2. Qed.

Lemma set_bar_keeps (d : device) (b : CXLBARCoherencyState) : (bar_idle (dv_bar_coherency d) -> bar_idle b) -> dev_keeps d (set_bar b d).
Proof. by split. Qed.

Lemma set_mem_keeps (d : device) (off : Z) (bs m : list Z) : mem_write off bs (dv_device_mem d) = Some m -> dev_keeps d (set_mem m d).
Proof. intros H. split; [by apply mem_write_length in H|done]. Qed.

Lemma send_keeps (m : CXLType2Message) (d : device) : dev_keeps d (send m d).
Proof. unfold send. by destruct (dv_connected d). Qed.

Lemma t2_invalidate_keeps (d : device) (a : Z) : dev_keeps d (cxl_type2_cache_invalidate d a).
Proof. unfold cxl_type2_cache_invalidate. by destruct (_ !! _). Qed.

Lemma t2_writeback_keeps (d d' : device) (a : Z) : cxl_type2_cache_writeback d a = Some d' -> dev_keeps d d'.
Proof.
  unfold cxl_type2_cache_writeback. destruct (_ !! _) as [l|]; [|by intros [= <-]]. destruct (cl_dirty l); [|by intros [= <-]].
  assert (forall d1, dev_keeps d d1 -> dev_keeps d (count_op (set_lines (<[line_of a := line_clean l]> (co_cache_lines (dv_coherency (send (mkMessage CXL_T2_MSG_WRITEBACK 64 (line_of a) (cl_state l) 0 (cl_data l)) d1))))
    (send (mkMessage CXL_T2_MSG_WRITEBACK 64 (line_of a) (cl_state l) 0 (cl_data l)) d1)))) as Hc.
  { intros d1 H1. etrans; [exact H1|]. etrans; [apply send_keeps|]. by apply keeps_same. }
  destruct (_ <? _); cbn [mbind option_bind]; [|intros [= <-]; by apply Hc].
  destruct (mem_write _ _ _) as [m|] eqn:E; cbn [mbind option_bind]; [|done]. intros [= <-]. apply Hc. by eapply set_mem_keeps.
Qed.

Lemma track_keeps (d d' : device) (req : CXLCoherencyReqType) (a : Z) : track d req a = Some d' -> dev_keeps d d'.
Proof.
  unfold track. destruct (bc_enabled _); [|by intros [= <-]]. destruct (cxl_bar_coherency_request _ _ _ _) as [[r b]|] eqn:E; cbn [mbind option_bind]; [|done].
  intros [= <-]. apply set_bar_keeps. intros H. by apply request_idle in E as [? _].
Qed.

Lemma lookup_keeps (d : device) (a : Z) : dev_keeps d (cxl_type2_cache_lookup d a).2.
Proof. unfold cxl_type2_cache_lookup. cbn. by destruct (_ !! _). Qed.

Lemma count_read_keeps (d : device) : dev_keeps d (count_read d).
Proof. by apply keeps_same. Qed.

Lemma read_mem_keeps (d d' : device) (addr size v : Z) : cache_read_mem d addr size = Some (v, d') -> dev_keeps d d'.
Proof.
  unfold cache_read_mem. cbv zeta. destruct (track _ _ _) as [d1|] eqn:E1; cbn [mbind option_bind]; [|done]. apply track_keeps in E1.
  pose proof (lookup_keeps d1 addr) as E2. destruct (cxl_type2_cache_lookup d1 addr) as [line d2]. cbn [snd] in E2.
  assert (dev_keeps d d2) as H12 by (etrans; [|exact E2]; etrans; [|exact E1]; by apply keeps_same).
  destruct (line_valid line).
  - destruct (mem_read _ _ _); cbn [mbind option_bind]; [|done]. intros [= _ <-]. etrans; [exact H12|by apply keeps_same].
  - unfold cache_read_miss. destruct (addr <? _); cbn [mbind option_bind].
    + destruct (mem_read addr _ _); cbn [mbind option_bind]; [|done]. destruct (mem_read _ _ _); cbn [mbind option_bind]; [|done]. intros [= _ <-].
      etrans; [exact H12|]. etrans; [|apply count_read_keeps]. etrans; [|apply send_keeps]. by apply keeps_same.
    + intros [= _ <-]. etrans; [exact H12|]. etrans; [|apply count_read_keeps]. apply send_keeps.
Qed.

Lemma write_mem_keeps (d d' : device) (addr value size : Z) : cache_write_mem d addr value size = Some d' -> dev_keeps d d'.
Proof.
  unfold cache_write_mem. cbv zeta. destruct (track _ _ _) as [d1|] eqn:E1; cbn [mbind option_bind]; [|done]. apply track_keeps in E1.
  pose proof (lookup_keeps d1 addr) as E2. destruct (cxl_type2_cache_lookup d1 addr) as [line d2]. cbn [snd] in E2.
  assert (dev_keeps d d2) as H12 by (etrans; [|exact E2]; etrans; [|exact E1]; by apply keeps_same).
  destruct (if line_valid line then _ else _) as [[line' d3]|] eqn:E3; cbn [mbind option_bind]; [|done].
  assert (dev_keeps d d3) as H3.
  { destruct (line_valid line); [by simplify_eq|]. destruct (_ <? _); [|by simplify_eq]. destruct (mem_read _ _ _) as [data|]; cbn [mbind option_bind] in E3; [|done].
    assert (cxl_type2_cache_lookup (cxl_type2_cache_insert d2 addr data CXL_COHERENCY_MODIFIED) addr = (line', d3)) as E3' by congruence.
    pose proof (lookup_keeps (cxl_type2_cache_insert d2 addr data CXL_COHERENCY_MODIFIED) addr) as E4. rewrite E3' in E4. cbn [snd] in E4.
    etrans; [exact H12|]. etrans; [|exact E4]. by apply keeps_same. }
  destruct line' as [l|]; [|intros [= <-]; exact H3]. destruct (mem_write _ _ (cl_data l)) as [data|]; cbn [mbind option_bind]; [|done].
  destruct (addr <? _); cbn [mbind option_bind].
  - destruct (mem_write _ _ _) as [m|] eqn:E5; cbn [mbind option_bind]; [|done]. intros [= <-]. etrans; [exact H3|]. etrans; [|apply send_keeps]. apply mem_write_length in E5. by split.
  - intros [= <-]. etrans; [exact H3|]. etrans; [|apply send_keeps]. by apply keeps_same.
Qed.

Lemma loop_keeps (step : Z -> device -> option device) (fuel : nat) (a e : Z) (d d' : device) :
  (forall a d d', step a d = Some d' -> dev_keeps d d') -> line_loop fuel step a e d = Some d' -> dev_keeps d d'.
Proof.
  intros Hs. revert a d. induction fuel as [|fuel IH]; intros a d; cbn [line_loop]; [done|]. destruct (_ <? _); [|by intros [= <-]].
  destruct (step a d) as [d1|] eqn:E; cbn [mbind option_bind]; [|done]. intros H. apply IH in H. apply Hs in E. by etrans.
Qed.

Lemma process_keeps (h : bool) (d d' : device) : cxl_bar_process_back_invalidations h d = Some d' -> dev_keeps d d'.
Proof.
  unfold cxl_bar_process_back_invalidations. set (q := bc_back_invalidate_queue _). set (d0 := set_bar _ d). intros H. assert (dev_keeps d d0) as H0.
  { apply set_bar_keeps. intros [[H1 H2 H3] Hl]. by split. }
  etrans; [exact H0|]. clear H0. clearbody d0. revert d0 H. induction q as [|e q IH]; intros d0; cbn [process_queue]; [by intros [= <-]|].
  case_bool_decide; cbn [mbind option_bind].
  - intros H1. apply IH in H1. etrans; [|exact H1]. apply t2_invalidate_keeps.
  - destruct h; cbn [mbind option_bind]; [|apply IH]. destruct (cxl_bar_snoop_update _ _ _ _) as [b|] eqn:E; cbn [mbind option_bind]; [|done]. intros H1. apply IH in H1.
    etrans; [|exact H1]. apply set_bar_keeps. intros Hi. by apply update_idle in E.
Qed.

Lemma gpu_access_keeps (d : device) (b : CXLBARCoherencyState) (addr size : Z) (w : bool) :
  cxl_bar_notify_gpu_access (dv_bar_coherency d) addr size w = Some b -> dev_keeps d (set_bar b d).
Proof. intros H. apply set_bar_keeps. intros Hi. by apply notify_idle in H. Qed.

Lemma flush_keeps (junk : list Z) (addr size : Z) (d d' : device) : cache_flush junk addr size d = Some d' -> dev_keeps d d'.
Proof.
  unfold cache_flush. destruct (_ && _); [|by intros [= <-]]. destruct (cache_loop _ _ _ _) as [d1|] eqn:E; cbn [mbind option_bind]; [|done]. intros [= <-].
  apply loop_keeps in E; [|intros a d2 d3 [= <-]; apply t2_invalidate_keeps]. etrans; [apply send_keeps|]. etrans; [exact E|]. by apply keeps_same.
Qed.

Lemma invalidate_keeps (junk : list Z) (addr size : Z) (d d' : device) : cache_invalidate junk addr size d = Some d' -> dev_keeps d d'.
Proof.
  unfold cache_invalidate. destruct (co_coherency_enabled _); [|by intros [= <-]]. destruct (cache_loop _ _ _ _) as [d1|] eqn:E; cbn [mbind option_bind]; [|done]. intros [= <-].
  apply loop_keeps in E; [|intros a d2 d3 [= <-]; apply t2_invalidate_keeps]. etrans; [exact E|]. etrans; [|apply send_keeps]. by apply keeps_same.
Qed.

Lemma writeback_keeps (junk : list Z) (addr size : Z) (d d' : device) : cache_writeback junk addr size d = Some d' -> dev_keeps d d'.
Proof.
  unfold cache_writeback. destruct (co_coherency_enabled _); [|by intros [= <-]]. destruct (cache_loop _ _ _ _) as [d1|] eqn:E; cbn [mbind option_bind]; [|done]. intros [= <-].
  apply loop_keeps in E; [|intros a d2 d3; apply t2_writeback_keeps]. etrans; [exact E|]. etrans; [|apply send_keeps]. by apply keeps_same.
Qed.

(** ** Invariant *)
Section Guests.
Context {S C : Type} (request : Z -> Z -> Z -> list Z -> S -> option CXLMemSimResponse * S) (ms : memsim_config) (random : list Z) (junk heap : Z -> list Z).
Context (cuda : cuda_api C) (owner_devfn : nat) (msg_junk : list Z).
#[local] Notation state := (CXLType2State S C).
#[local] Notation world := (world (S := S)).
#[local] Notation reachable := (p2p_reachable request ms random junk heap).

Definition owner_idle (w : world) : Prop := bar_idle (dv_bar_coherency (wo_owner w)).

Lemma store_idle (r : mem_ref) (off : Z) (bs : list Z) (w w' : world) : store r off bs w = Some w' -> owner_idle w -> owner_idle w'.
Proof.
  unfold store. destruct (ref_memory w r) as [m|]; cbn [mbind option_bind]; [|done]. destruct (mem_write _ _ _) as [m'|]; cbn [mbind option_bind]; [|done].
  intros [= <-]. destruct r as [| |i|i]; cbn [set_ref_memory]; try done; by destruct (device_at w i).
Qed.

Lemma coherency_idle (id addr : Z) (b : bool) (w w' : world) : cxl_p2p_ensure_coherency id addr b w = Some w' -> owner_idle w -> owner_idle w'.
Proof.
  unfold cxl_p2p_ensure_coherency. destruct (cxl_p2p_get_peer _ _) as [p|]; [|by intros [= <-]]. destruct (pe_type p); [|by intros [= <-]].
  destruct (_ =? _); [|by intros [= <-]]. cbv zeta. intros H Hi.
  destruct (if bc_enabled _ then _ else _) as [o|] eqn:E; cbn [mbind option_bind] in H; [|done]. assert (bar_idle (dv_bar_coherency o)) as Ho.
  { destruct (bc_enabled _); [|by simplify_eq]. destruct (cxl_bar_coherency_request _ _ _ _) as [[r b1]|] eqn:E1; cbn [mbind option_bind] in E; [|done]. simplify_eq.
    by apply request_idle in E1 as [? _]. }
  destruct b; cbn [mbind option_bind] in H; [injection H as <-; by apply t2_invalidate_keeps|].
  destruct (cxl_type2_cache_writeback o addr) as [o'|] eqn:E1; cbn [mbind option_bind] in H; [|done]. injection H as <-. apply t2_writeback_keeps in E1 as [_ E1]. exact (E1 Ho).
Qed.

Lemma read_loop_owner (fuel i : nat) (addr size off : Z) (buf : list Z) (w w' : world) :
  type3_read_loop request ms random junk fuel i addr size off w = Some (buf, w') -> wo_owner w' = wo_owner w.
Proof.
  revert off buf w. induction fuel as [|fuel IH]; intros off buf w; cbn [type3_read_loop]; [done|]. destruct (_ <? _); [|by intros [= <- <-]]. cbv zeta.
  destruct (device_at w i) as [t|]; cbn [mbind option_bind]; [|done]. destruct (cxl_type3_read _ _ _ _ _ _ _ _) as [[[r data] s1]|]; cbn [mbind option_bind]; [|done].
  destruct (type3_read_loop _ _ _ _ _ _ _ _ _ _) as [[rest w1]|] eqn:E; cbn [mbind option_bind]; [|done]. intros [= <- <-]. by apply IH in E.
Qed.

Lemma write_loop_owner (fuel i : nat) (addr off : Z) (buf : list Z) (w w' : world) :
  type3_write_loop request ms fuel i addr off buf w = Some w' -> wo_owner w' = wo_owner w.
Proof.
  revert off buf w. induction fuel as [|fuel IH]; intros off buf w; cbn [type3_write_loop]; [done|]. destruct buf as [|b buf0]; [by intros [= <-]|].
  destruct (device_at w i) as [t|]; cbn [mbind option_bind]; [|done]. destruct (cxl_type3_write _ _ _ _ _ _) as [[[r t'] s1]|]; cbn [mbind option_bind]; [|done].
  intros H. by apply IH in H.
Qed.

Lemma move_idle (src dst : CXLP2PPeer) (d : CXLP2PDescriptor) (w w' : world) : move_data request ms random junk heap src dst d w = Some w' -> owner_idle w -> owner_idle w'.
Proof.
  unfold move_data, copy_between. intros H Hi. destruct (_ && _).
  { destruct (_ && _); [done|]. destruct (load _ _ _ _); cbn [mbind option_bind] in H; [|done]. by apply store_idle in H. }
  destruct (indirect_read _ _ _ _ _ _ _ _) as [w1|] eqn:E1; cbn [mbind option_bind] in H; [|done]. assert (owner_idle w1) as H1.
  { unfold indirect_read in E1. destruct (_ && _); [|by simplify_eq]. destruct (type3_read_loop _ _ _ _ _ _ _ _ _ _) as [[buf w0]|] eqn:E; cbn [mbind option_bind] in E1; [|done].
    apply read_loop_owner in E. assert (owner_idle w0) by (unfold owner_idle; by rewrite E). destruct (no_ptr dst); [by simplify_eq|]. by apply store_idle in E1. }
  unfold indirect_write in H. destruct (_ && _); [|by simplify_eq]. destruct (if no_ptr src then _ else _) as [buf|]; cbn [mbind option_bind] in H; [|done].
  apply write_loop_owner in H. unfold owner_idle. by rewrite H.
Qed.

Lemma perform_idle (d d' : CXLP2PDescriptor) (w w' : world) : perform_p2p_transfer request ms random junk heap d w = Some (d', w') -> owner_idle w -> owner_idle w'.
Proof.
  unfold perform_p2p_transfer. cbv zeta. intros H Hi. destruct (cxl_p2p_get_peer _ (de_src_peer_id d)) as [src|]; [|by simplify_eq].
  destruct (cxl_p2p_get_peer _ (de_dst_peer_id d)) as [dst|]; [|by simplify_eq]. destruct (_ <? _); [by simplify_eq|]. destruct (_ || _); [by simplify_eq|].
  destruct (transfer_coherency d w) as [w1|] eqn:E1; cbn [mbind option_bind] in H; [|done]. destruct (move_data _ _ _ _ _ _ _ _ _) as [w2|] eqn:E2; cbn [mbind option_bind] in H; [|done].
  destruct (notify_owner _ _) as [w3|] eqn:E3; cbn [mbind option_bind] in H; [|done]. injection H as <- <-.
  assert (owner_idle w1) as H1.
  { unfold transfer_coherency in E1. destruct (_ && _); [|by simplify_eq]. destruct (cxl_p2p_ensure_coherency _ _ true _) as [wa|] eqn:Ea; cbn [mbind option_bind] in E1; [|done].
    destruct (cxl_p2p_ensure_coherency _ _ false _) as [wb|] eqn:Eb; cbn [mbind option_bind] in E1; [|done]. injection E1 as <-.
    apply coherency_idle in Ea; [|done]. by apply coherency_idle in Eb. }
  apply move_idle in E2; [|done]. unfold notify_owner in E3. destruct (_ && _); [|by simplify_eq].
  destruct (cxl_bar_notify_gpu_access _ _ _ _) as [b|] eqn:E; cbn [mbind option_bind] in E3; [|done]. injection E3 as <-. by apply notify_idle in E.
Qed.

Lemma submit_idle (d d' : CXLP2PDescriptor) (r : Z) (w w' : world) : cxl_p2p_dma_submit request ms random junk heap d w = Some (r, d', w') -> owner_idle w -> owner_idle w'.
Proof.
  unfold cxl_p2p_dma_submit. cbv zeta. intros H Hi. destruct (negb _); [by simplify_eq|]. destruct (_ <=? _); [by simplify_eq|]. destruct (_ =? _); [by simplify_eq|].
  destruct (_ ++ _) as [|q rest]; [by simplify_eq|]. destruct (perform_p2p_transfer _ _ _ _ _ _ _) as [[q' w1]|] eqn:E; cbn [mbind option_bind] in H; [|done].
  injection H as <- <- <-. by apply perform_idle in E.
Qed.

Definition world_ok (w : world) : Prop := reachable w /\ owner_idle w.

Lemma submit_ok (d d' : CXLP2PDescriptor) (r : Z) (w w' : world) : cxl_p2p_dma_submit request ms random junk heap d w = Some (r, d', w') -> world_ok w -> world_ok w'.
Proof. intros H [Hr Hi]. split; [by apply (p2p_submit _ _ _ _ _ w d r d')|by apply submit_idle in H]. Qed.

Lemma owner_ok (d : device) (w : world) : dev_keeps (wo_owner w) d -> world_ok w -> world_ok (set_owner d w).
Proof. intros [Hs Hb] [Hr Hi]. split; [|by apply Hb]. apply (p2p_access _ _ _ _ _ w); [done|]. by apply set_owner_keeps. Qed.

Lemma scan_owner (devs : list (option CXLType3Dev)) (i : nat) (n : Z) (w : world) : wo_owner (scan_bus devs i owner_devfn n w).2 = wo_owner w.
Proof.
  revert i n w. induction devs as [|[t|] l IH]; intros i n w; cbn [scan_bus]; [done| |apply IH]. destruct (decide _); [apply IH|].
  assert (wo_owner (cxl_p2p_register_peer_type3 w i t).2 = wo_owner w) as H1.
  { unfold cxl_p2p_register_peer_type3. destruct (free_slot _); [|done]. by destruct (t3_hostvmem t), (t3_hostpmem t). }
  destruct (cxl_p2p_register_peer_type3 w i t) as [r1 w2]. cbn [snd] in H1. rewrite <- H1. apply IH.
Qed.

Lemma discover_ok (w : world) : wo_next_id w + 1 + Z.of_nat (length (wo_bus w)) < 2 ^ 32 -> world_ok w -> world_ok (cxl_p2p_discover_peers owner_devfn w).2.
Proof.
  intros Hn [Hr Hi]. split; [by apply p2p_discover|]. unfold owner_idle, cxl_p2p_discover_peers.
  assert (wo_owner (cxl_p2p_register_peer_type2 w owner_devfn).2 = wo_owner w) as H0.
  { unfold cxl_p2p_register_peer_type2. by destruct (free_slot _). }
  destruct (cxl_p2p_register_peer_type2 w owner_devfn) as [r w0]. cbn [snd] in H0. by rewrite scan_owner, H0.
Qed.

Record regs_ok (g : gpu_cmd) : Prop := {
  ro_params : length (gc_params g) = 8%nat;
  ro_results : length (gc_results g) = 4%nat;
  ro_data : Z.of_nat (length (gc_data g)) = CXL_GPU_DATA_SIZE;
  ro_modules : (length (gc_modules g) <= 64)%nat;
  ro_functions : (length (gc_functions g) <= 256)%nat
}.

Definition guest_ok (t : state) : Prop := regs_ok (t2_gpu_cmd t) /\ world_ok (t2_world t).

Lemma set_result_ok (e : CXLGPUError) (g : gpu_cmd) : regs_ok g -> regs_ok (set_result e g).
Proof. by intros []. Qed.

Lemma result_if_ok (err : HetGPUError) (e : CXLGPUError) (g : gpu_cmd) : regs_ok g -> regs_ok (result_if err e g).
Proof. unfold result_if. destruct (succeeded err); [done|apply set_result_ok]. Qed.

Lemma set_status_ok (s : CXLGPUCmdStatus) (g : gpu_cmd) : regs_ok g -> regs_ok (set_cmd_status s g).
Proof. by intros []. Qed.

Lemma set_results_ok (vs : list Z) (g : gpu_cmd) : (length vs <= 4)%nat -> regs_ok g -> regs_ok (set_results vs g).
Proof. intros Hv []. split; try done. cbn. rewrite length_app, length_drop. lia. Qed.

Lemma set_param_ok (k : nat) (v : Z) (g : gpu_cmd) : regs_ok g -> regs_ok (set_param k v g).
Proof. intros []. split; try done. cbn. by rewrite length_insert. Qed.

Lemma set_data_ok (data : list Z) (g : gpu_cmd) : length data = length (gc_data g) -> regs_ok g -> regs_ok (set_data data g).
Proof. intros H []. split; try done. cbn. by rewrite H. Qed.

Lemma fill_data_ok (bs : list Z) (g : gpu_cmd) : (length bs <= length (gc_data g))%nat -> regs_ok g -> regs_ok (fill_data bs g).
Proof. intros H []. split; try done. cbn. rewrite length_app, length_drop. lia. Qed.

Lemma update_ok (f : gpu_cmd -> gpu_cmd) (t : state) : guest_ok t -> (regs_ok (t2_gpu_cmd t) -> regs_ok (f (t2_gpu_cmd t))) -> guest_ok (update f t).
Proof. intros [Hg Hw] Hf. split; [by apply Hf|done]. Qed.

Lemma fail_ok (e : CXLGPUError) (t : state) : guest_ok t -> guest_ok (fail e t).
Proof. intros H. apply update_ok; [done|apply set_result_ok]. Qed.

Lemma hetgpu_ok (h : HetGPUState) (c : C) (t : state) : guest_ok t -> guest_ok (set_hetgpu h c t).
Proof. done. Qed.

Lemma set_pool_ok (p : coherent_pool) (t : state) : guest_ok t -> guest_ok (set_pool p t).
Proof. done. Qed.

Lemma next_alloc_ok (n : Z) (t : state) : guest_ok t -> guest_ok (set_next_alloc n t).
Proof. done. Qed.

Lemma device_ok (d : device) (t : state) : dev_keeps (t2_device t) d -> guest_ok t -> guest_ok (set_t2_device d t).
Proof. intros Hd [Hg Hw]. split; [done|]. by apply owner_ok. Qed.

Lemma notify_ok (dev_ptr size : Z) (w : bool) (t t' : state) : notify dev_ptr size w t = Some t' -> guest_ok t -> guest_ok t' /\ t2_gpu_cmd t' = t2_gpu_cmd t.
Proof.
  unfold notify. destruct (bc_enabled _); [|by intros [= <-]]. destruct (cxl_bar_notify_gpu_access _ _ _ _) as [b|] eqn:E; cbn [mbind option_bind]; [|done].
  intros [= <-] H. split; [|done]. apply device_ok; [|done]. by eapply gpu_access_keeps.
Qed.

Lemma store_device_ok (dev_ptr : Z) (bs : list Z) (t t' : state) : store_device dev_ptr bs t = Some t' -> guest_ok t -> guest_ok t'.
Proof. unfold store_device. destruct (mem_write _ _ _) as [m|] eqn:E; cbn [mbind option_bind]; [|done]. intros [= <-]. apply device_ok. by eapply set_mem_keeps. Qed.

Lemma with_bar_ok (r : option CXLBARCoherencyState) (t t' : state) :
  (forall b, r = Some b -> bar_idle (dv_bar_coherency (t2_device t)) -> bar_idle b) -> with_bar r t = Some t' -> guest_ok t -> guest_ok t'.
Proof. unfold with_bar. intros Hr. destruct r as [b|]; cbn [mbind option_bind]; [|done]. intros [= <-]. apply device_ok. apply set_bar_keeps. by apply Hr. Qed.

#[local] Hint Resolve update_ok fail_ok hetgpu_ok set_pool_ok next_alloc_ok set_result_ok result_if_ok set_results_ok set_param_ok : guest.
#[local] Hint Extern 1 (_ <= 4)%nat => cbn; lia : guest.

(** ** The commands one by one *)
Lemma query_ok (t : state) : guest_ok t -> guest_ok (cmd_init t) /\ guest_ok (cmd_get_device_count t) /\ guest_ok (cmd_get_device t) /\ guest_ok (cmd_get_total_mem t) /\
  guest_ok (cmd_ctx_create cuda t) /\ guest_ok (cmd_ctx_sync cuda t) /\ guest_ok (cmd_p2p_get_peer_info t) /\ guest_ok (cmd_p2p_get_status t) /\ guest_ok (cmd_coherent_get_info t).
Proof.
  intros H. unfold cmd_init, cmd_get_device_count, cmd_get_device, cmd_get_total_mem, cmd_ctx_create, cmd_ctx_sync, cmd_p2p_get_peer_info, cmd_p2p_get_status, cmd_coherent_get_info.
  split_and!; repeat (case_match; simplify_eq); eauto 6 with guest.
Qed.

Lemma memory_ok (t : state) : guest_ok t -> guest_ok (cmd_mem_alloc cuda t) /\ guest_ok (cmd_mem_free cuda t) /\ guest_ok (cmd_coherent_alloc t) /\ guest_ok (cmd_coherent_free t) /\
  guest_ok (cmd_coh_reset_stats t) /\ guest_ok (cmd_launch_kernel cuda t).
Proof.
  intros H. unfold cmd_mem_alloc, cmd_mem_free, cmd_coherent_alloc, cmd_coherent_free, cmd_coh_reset_stats, cmd_launch_kernel. split_and!; repeat (case_match; simplify_eq).
  all: try (apply device_ok; [apply set_bar_keeps; intros [[] ?]; by split|done]).
  all: eauto 6 with guest.
Qed.

Lemma handle_ok (t : state) : guest_ok t -> guest_ok (cmd_module_load_ptx cuda t) /\ guest_ok (cmd_func_get cuda t).
Proof.
  intros H. unfold cmd_module_load_ptx, cmd_func_get. cbv zeta. split; (destruct (initialized t && _) eqn:E; [|by apply fail_ok]).
  - apply andb_true_iff in E as [_ E]. destruct (hetgpu_load_ptx _ _ _ _) as [[[err m] h] c]. destruct (succeeded err); [|by apply fail_ok].
    apply update_ok; [done|]. intros Hg. apply (set_results_ok [Z.of_nat (length (gc_modules (t2_gpu_cmd t)))]) in Hg as [? ? ? ? ?]; [|cbn; lia].
    split; try done. cbn in *. rewrite length_app. cbn. lia.
  - apply andb_true_iff in E as [_ E]. destruct (_ !! _) as [module|]; [|by apply fail_ok]. destruct (hetgpu_get_function _ _ _ _ _) as [[[err f] h] c]. destruct (succeeded err); [|by apply fail_ok].
    apply update_ok; [done|]. intros Hg. apply (set_results_ok [Z.of_nat (length (gc_functions (t2_gpu_cmd t)))]) in Hg as [? ? ? ? ?]; [|cbn; lia].
    split; try done. cbn in *. rewrite length_app. cbn. lia.
Qed.

Lemma props_ok (t t' : state) : cmd_get_device_props t = Some t' -> guest_ok t -> guest_ok t'.
Proof.
  unfold cmd_get_device_props. intros H Ht. destruct (initialized t); [|injection H as <-; by apply fail_ok]. unfold hetgpu_get_device_props in H. change (succeeded HETGPU_SUCCESS) with true in H.
  destruct (mem_write _ _ _) as [data|] eqn:E; cbn [mbind option_bind] in H; [|done]. injection H as <-.
  apply update_ok; [done|]. intros Hg. apply set_results_ok; [cbn; lia|]. apply set_data_ok; [by apply mem_write_length in E|done].
Qed.

Lemma stats_ok (t t' : state) : cmd_coh_get_stats t = Some t' -> guest_ok t -> guest_ok t'.
Proof.
  unfold cmd_coh_get_stats. cbv zeta. intros H Ht. destruct (if _ <=? _ then _ else _) as [data|] eqn:E; cbn [mbind option_bind] in H; [|done]. injection H as <-.
  assert (length data = length (gc_data (t2_gpu_cmd t))) as Hl by (destruct (_ <=? _); [by apply mem_write_length in E|by simplify_eq]).
  apply update_ok; [done|]. intros Hg. apply set_data_ok; [done|]. apply set_results_ok; [cbn; lia|done].
Qed.

Lemma htod_ok (t t' : state) : cmd_mem_copy_htod cuda t = Some t' -> guest_ok t -> guest_ok t'.
Proof.
  unfold cmd_mem_copy_htod. cbv zeta. intros H Ht. destruct (_ <? _); [injection H as <-; by apply fail_ok|].
  assert (forall t0, guest_ok t0 -> (t1 ← store_device (param (t2_gpu_cmd t) 0) (take (Z.to_nat (param (t2_gpu_cmd t) 1)) (gc_data (t2_gpu_cmd t))) t0;
    notify (param (t2_gpu_cmd t) 0) (param (t2_gpu_cmd t) 1) true t1) = Some t' -> guest_ok t') as Hst.
  { intros t0 H0. destruct (store_device _ _ t0) as [t1|] eqn:E; cbn [mbind option_bind]; [|done]. intros H1. apply store_device_ok in E; [|done]. by apply notify_ok in H1 as [? _]. }
  destruct (initialized t).
  - destruct (hetgpu_memcpy_htod _ _ _ _ _) as [[[err h] c]|]; cbn [mbind option_bind] in H; [|done].
    assert (guest_ok (update (result_if err CXL_GPU_ERROR_INVALID_VALUE) (set_hetgpu h c t))) as H1 by eauto with guest.
    destruct (in_device _ _ _); [by apply (Hst _ H1)|by injection H as <-].
  - destruct (in_device _ _ _); [by apply (Hst t)|]. injection H as <-. by apply fail_ok.
Qed.

(** [cuMemcpyDtoH] copies as many bytes as it is asked for. *)
Hypothesis copy_length : forall f c old src err bs c', cuMemcpyDtoH cuda = Some f -> f c old src = ((err, bs), c') -> length bs = length old.

Lemma dtoh_length (h h' : HetGPUState) (c c' : C) (old bs : list Z) (src : Z) (err : HetGPUError) :
  hetgpu_memcpy_dtoh cuda h c old src = Some (err, bs, h', c') -> length bs = length old.
Proof.
  unfold hetgpu_memcpy_dtoh, with_library. destruct (negb _); [by intros [= <- <- <- <-]|].
  assert (forall h0, (if is_sim h0 then '(err, bs) ← sim_dtoh h0 src (Z.of_nat (length old)); Some (err, bs, h0, c) else Some (HETGPU_SUCCESS, old, h0, c)) = Some (err, bs, h', c') -> length bs = length old) as Hs.
  { intros h0. destruct (is_sim h0); [|by intros [= <- <- <- <-]]. unfold sim_dtoh. destruct (find_sim_alloc _ _) as [[i a]|]; [|cbn; intros [= <- <- <- <-]; by rewrite length_replicate, Nat2Z.id].
    destruct (_ <=? _); [|cbn; intros [= <- <- <- <-]; by rewrite length_replicate, Nat2Z.id]. destruct (mem_read _ _ _) as [x|] eqn:E; cbn; [|done]. intros [= <- <- <- <-].
    apply mem_read_length in E. lia. }
  destruct (cuMemcpyDtoH cuda) as [f|] eqn:Ef; [|apply Hs]. destruct (is_sim (count_memory h)) eqn:Es; [specialize (Hs (count_memory h)); by rewrite Es in Hs|].
  destruct (cuda_lock _ _ _) as [h1 c1]. destruct (f c1 old src) as [[e x] c2] eqn:E. intros [= <- <- <- <-]. by apply (copy_length f c1 old src e x c2).
Qed.

Lemma dtoh_ok (t t' : state) : cmd_mem_copy_dtoh cuda t = Some t' -> guest_ok t -> guest_ok t'.
Proof.
  unfold cmd_mem_copy_dtoh. cbv zeta. intros H Ht. destruct (_ <? _) eqn:Esz; [injection H as <-; by apply fail_ok|].
  unfold data_size in Esz. destruct (initialized t).
  - destruct (notify _ _ _ _) as [t1|] eqn:E1; cbn [mbind option_bind] in H; [|done]. apply notify_ok in E1 as [H1 Eg]; [|done].
    destruct (hetgpu_memcpy_dtoh _ _ _ _ _) as [[[[err bs] h] c]|] eqn:E2; cbn [mbind option_bind] in H; [|done]. apply dtoh_length in E2.
    set (t2 := update _ _) in H. assert (guest_ok t2) as H2.
    { apply update_ok; [by apply hetgpu_ok|]. intros Hg. apply result_if_ok, fill_data_ok; [|done]. change (t2_gpu_cmd (set_hetgpu h c t1)) with (t2_gpu_cmd t1).
      rewrite Eg, E2, length_take. lia. }
    destruct (in_device _ _ _); [by apply store_device_ok in H|by injection H as <-].
  - destruct (in_device _ _ _); [|injection H as <-; by apply fail_ok]. destruct (notify _ _ _ _) as [t1|] eqn:E1; cbn [mbind option_bind] in H; [|done].
    apply notify_ok in E1 as [H1 Eg]; [|done]. destruct (mem_read _ _ _) as [bs|] eqn:E2; cbn [mbind option_bind] in H; [|done]. injection H as <-. apply mem_read_length in E2.
    apply update_ok; [done|]. intros Hg. apply fill_data_ok; [|done]. rewrite Eg. lia.
Qed.

Lemma bulk_ok (t t' : state) : guest_ok t -> cmd_bulk_htod cuda t = Some t' \/ cmd_bulk_dtoh cuda t = Some t' \/ cmd_bulk_dtod cuda t = Some t' -> guest_ok t'.
Proof.
  intros Ht. unfold cmd_bulk_htod, cmd_bulk_dtoh, cmd_bulk_dtod. cbv zeta. intros [H|[H|H]].
  - repeat (case_match; [injection H as <-; by apply fail_ok|] || case_match; try (injection H as <-; by apply fail_ok)).
    destruct (mem_read _ _ _) as [bs|]; cbn [mbind option_bind] in H; [|done]. destruct (hetgpu_memcpy_htod _ _ _ _ _) as [[[err h] c]|]; cbn [mbind option_bind] in H; [|done].
    injection H as <-. eauto with guest.
  - repeat (case_match; [injection H as <-; by apply fail_ok|] || case_match; try (injection H as <-; by apply fail_ok)).
    destruct (mem_read _ _ _) as [old|]; cbn [mbind option_bind] in H; [|done]. destruct (hetgpu_memcpy_dtoh _ _ _ _ _) as [[[[err bs] h] c]|]; cbn [mbind option_bind] in H; [|done].
    apply store_device_ok in H; [done|]. eauto with guest.
  - destruct (initialized t); [|injection H as <-; by apply fail_ok]. destruct (hetgpu_memcpy_dtod _ _ _ _ _ _) as [[[err h] c]|]; cbn [mbind option_bind] in H; [|done].
    injection H as <-. eauto with guest.
Qed.

Lemma cache_cmd_ok (op : Z -> Z -> device -> option device) (t t' : state) :
  (forall a n d d', op a n d = Some d' -> dev_keeps d d') -> cmd_cache op t = Some t' -> guest_ok t -> guest_ok t'.
Proof. unfold cmd_cache. intros Hop. destruct (op _ _ _) as [d|] eqn:E; cbn [mbind option_bind]; [|done]. intros [= <-]. apply device_ok. by apply Hop in E. Qed.

Lemma p2p_result_ok (d d' : CXLP2PDescriptor) (r : Z) (w : world) (t : state) :
  cxl_p2p_dma_submit request ms random junk heap d (t2_world t) = Some (r, d', w) -> guest_ok t -> guest_ok (p2p_result (r, d', w) t).
Proof. intros H [Hg Hw]. split; [by apply set_result_ok|]. by apply submit_ok in H. Qed.

Lemma p2p_cmd_ok (t t' : state) : guest_ok t ->
  cmd_p2p_gpu_to_mem request ms random junk heap t = Some t' \/ cmd_p2p_mem_to_gpu request ms random junk heap t = Some t' \/ cmd_p2p_mem_to_mem request ms random junk heap t = Some t' -> guest_ok t'.
Proof.
  intros Ht. unfold cmd_p2p_gpu_to_mem, cmd_p2p_mem_to_gpu, cmd_p2p_mem_to_mem, cxl_p2p_gpu_to_mem, cxl_p2p_mem_to_gpu, cxl_p2p_mem_to_mem, cxl_p2p_dma_submit_and_wait. cbv zeta.
  intros [H|[H|H]]; revert H; (destruct (cxl_p2p_dma_submit _ _ _ _ _ _ _) as [[[r d'] w]|] eqn:E; cbn [mbind option_bind]; [|discriminate]); intros [= <-]; exact (p2p_result_ok _ _ _ _ _ E Ht).
Qed.

Lemma fence_ok (t t' : state) : cmd_coherent_fence t = Some t' -> guest_ok t -> guest_ok t'.
Proof.
  unfold cmd_coherent_fence. destruct (cxl_bar_memory_fence _) as [b|] eqn:E; cbn [mbind option_bind]; [|done].
  destruct (cxl_bar_process_back_invalidations _ _) as [d|] eqn:E1; cbn [mbind option_bind]; [|done]. intros [= <-]. apply device_ok. apply process_keeps in E1.
  etrans; [|exact E1]. apply set_bar_keeps. by apply (bar_step_idle _ _ OpFence).
Qed.

Lemma bias_ok (t t' : state) : guest_ok t -> cmd_set_bias t = Some t' \/ cmd_get_bias t = Some t' \/ cmd_bias_flip t = Some t' -> guest_ok t'.
Proof.
  intros Ht. unfold cmd_set_bias, cmd_get_bias, cmd_bias_flip. cbv zeta. intros [H|[H|H]].
  - destruct (_ <? _); [injection H as <-; by apply fail_ok|]. apply with_bar_ok in H; [done| |done]. intros b Hb. exact (set_bias_idle _ _ _ _ _ Hb).
  - destruct (cxl_bar_get_bias _ _) as [[bias b]|] eqn:E; cbn [mbind option_bind] in H; [|done]. injection H as <-. apply update_ok; [|intros Hg; apply set_results_ok; [cbn; lia|done]].
    apply device_ok; [|done]. apply set_bar_keeps. intros [Hi Hl]. unfold cxl_bar_get_bias, mutex_lock in E. rewrite Hl in E. cbn in E. injection E as _ <-. destruct Hi. by split.
  - destruct (_ <? _); [injection H as <-; by apply fail_ok|]. apply with_bar_ok in H; [done| |done]. intros b Hb. exact (flip_idle _ _ _ _ _ Hb).
Qed.

Definition ids_left (t : state) : Prop := wo_next_id (t2_world t) + 1 + Z.of_nat (length (wo_bus (t2_world t))) < 2 ^ 32.

Lemma discover_cmd_ok (t : state) : ids_left t -> guest_ok t -> guest_ok (cmd_p2p_discover owner_devfn t).
Proof.
  intros Hn [Hg Hw]. unfold cmd_p2p_discover. pose proof (discover_ok (t2_world t) Hn Hw) as H. destruct (cxl_p2p_discover_peers _ _) as [n w].
  split; [|exact H]. apply set_results_ok; [cbn; lia|by apply set_result_ok].
Qed.

Lemma run_command_ok (cmd : CXLGPUCommand) (t t' : state) : ids_left t -> run_command request ms random junk heap cuda owner_devfn msg_junk cmd t = Some t' -> guest_ok t -> guest_ok t'.
Proof.
  intros Hn H Ht. pose proof (query_ok t Ht) as (Q1&Q2&Q3&Q4&Q5&Q6&Q7&Q8&Q9). pose proof (memory_ok t Ht) as (M1&M2&M3&M4&M5&M6). pose proof (handle_ok t Ht) as [L1 L2].
  destruct cmd; cbn [run_command] in H; try (injection H as <-; done).
  - by apply props_ok in H.
  - by apply htod_ok in H.
  - by apply dtoh_ok in H.
  - apply (bulk_ok t); auto.
  - apply (bulk_ok t); auto.
  - apply (bulk_ok t); auto.
  - by apply cache_cmd_ok in H; [|apply flush_keeps|].
  - by apply cache_cmd_ok in H; [|apply invalidate_keeps|].
  - by apply cache_cmd_ok in H; [|apply writeback_keeps|].
  - injection H as <-. by apply discover_cmd_ok.
  - apply (p2p_cmd_ok t); auto.
  - apply (p2p_cmd_ok t); auto.
  - apply (p2p_cmd_ok t); auto.
  - by apply fence_ok in H.
  - apply (bias_ok t); auto.
  - apply (bias_ok t); auto.
  - apply (bias_ok t); auto.
  - by apply stats_ok in H.
Qed.

Definition settled (g : gpu_cmd) : Prop := gc_cmd_status g = CXL_GPU_CMD_STATUS_IDLE \/ gc_cmd_status g = CXL_GPU_CMD_STATUS_COMPLETE.

Lemma execute_ok (cmd : Z) (t t' : state) : ids_left t -> cxl_type2_gpu_execute_cmd request ms random junk heap cuda owner_devfn msg_junk cmd t = Some t' ->
  guest_ok t -> guest_ok t' /\ settled (t2_gpu_cmd t').
Proof.
  unfold cxl_type2_gpu_execute_cmd. cbv zeta. intros Hn H Ht. set (t0 := update _ t) in H.
  assert (guest_ok t0) as H0 by (apply update_ok; [done|]; intros Hg; by apply set_result_ok, set_status_ok).
  destruct (match command_of cmd with Some c => _ | None => _ end) as [t1|] eqn:E; cbn [mbind option_bind] in H; [|done]. injection H as <-.
  split; [|by right]. apply update_ok; [|apply set_status_ok]. destruct (command_of cmd) as [c|]; [|injection E as <-; by apply fail_ok].
  by apply run_command_ok in E.
Qed.

Lemma gpu_write_ok (addr value size : Z) (t t' : state) : ids_left t -> cxl_type2_gpu_cmd_write request ms random junk heap cuda owner_devfn msg_junk addr value size t = Some t' ->
  guest_ok t -> settled (t2_gpu_cmd t) -> guest_ok t' /\ settled (t2_gpu_cmd t').
Proof.
  unfold cxl_type2_gpu_cmd_write. cbv zeta. intros Hn H Ht Hs. destruct (_ =? _); [by apply execute_ok in H|].
  destruct (param_register addr) as [k|]; [injection H as <-; split; [|exact Hs]; apply update_ok; [done|apply set_param_ok]|].
  destruct (data_register addr); [|by injection H as <-]. destruct (_ <=? _); [|by injection H as <-].
  destruct (mem_write _ _ _) as [data|] eqn:E; cbn [mbind option_bind] in H; [|done]. injection H as <-. split; [|exact Hs].
  apply update_ok; [done|]. apply set_data_ok. by apply mem_write_length in E.
Qed.

Lemma recv_keeps (d d' : device) (m : CXLType2Message) : recv_message d m = Some d' -> dev_keeps d d'.
Proof.
  unfold recv_message. destruct (m2_type m); try (intros [= <-]; done); [|intros [= <-]; apply t2_invalidate_keeps].
  unfold cxl_type2_snoop_request. cbv zeta. destruct (_ !! _) as [l|]; cbn [mbind option_bind]; [|intros [= <-]; by apply keeps_same].
  destruct (if cl_dirty l then _ else _) as [d1|] eqn:E; cbn [mbind option_bind]; [|done]. intros H. assert (dev_keeps d d1) as H1.
  { destruct (cl_dirty l); [apply t2_writeback_keeps in E; etrans; [|exact E]|injection E as <-]; by apply keeps_same. }
  etrans; [exact H1|]. destruct (_ !! _) as [l'|]; cbn [mbind option_bind] in H; injection H as <-; [|done]. destruct (bool_decide _); by apply keeps_same.
Qed.

(** The state when the device is realised; [hetgpu_init] may have failed or not. *)
Record realised (t : state) : Prop := {
  re_cmd : t2_gpu_cmd t = gpu_cmd_init;
  re_engine : wo_engine (t2_world t) = cxl_p2p_dma_init;
  re_next : 0 < wo_next_id (t2_world t);
  re_bar : bar_reachable (dv_bar_coherency (t2_device t));
  re_pool : t2_pool t = coherent_pool_init (device_mem_size (t2_device t))
}.

(** Accesses of a guest to the BARs and messages of the simulator, in any order; fewer than
    [2^32] numbers are given to peers. *)
Inductive guest_reachable : state -> Prop :=
| guest_new t : realised t -> guest_reachable t
| guest_access t a vs t' : guest_reachable t -> ids_left t -> guest_run request ms random junk heap cuda owner_devfn msg_junk [a] t = Some (vs, t') -> guest_reachable t'
| guest_message t m d : guest_reachable t -> recv_message (t2_device t) m = Some d -> guest_reachable (set_t2_device d t).

Lemma reachable_guest_ok (t : state) : guest_reachable t -> guest_ok t /\ settled (t2_gpu_cmd t).
Proof.
  induction 1 as [t [Hc He Hn Hb Hp]|t a vs t' _ [IH Hs] Hn H|t m d _ [IH Hs] H].
  - rewrite Hc. split; [|by left]. split; [rewrite Hc; split; try done; cbn; rewrite ?length_replicate; lia|]. split; [by apply p2p_new|]. by apply reachable_idle.
  - destruct a as [addr size|addr value size]; cbn [guest_run] in H.
    + unfold cxl_type2_cache_read in H. destruct (_ <? _).
      * destruct (cxl_type2_gpu_cmd_read _ _ _); cbn [mbind option_bind] in H; [|done]. by injection H as _ <-.
      * destruct (cache_read_mem _ _ _) as [[v d]|] eqn:E; cbn [mbind option_bind] in H; [|done]. injection H as _ <-. split; [|exact Hs]. apply device_ok; [|done]. by eapply read_mem_keeps.
    + unfold cxl_type2_cache_write in H. destruct (_ <? _).
      * destruct (cxl_type2_gpu_cmd_write _ _ _ _ _ _ _ _ _ _ _ _) as [t1|] eqn:E; cbn [mbind option_bind] in H; [|done]. injection H as _ <-. by apply gpu_write_ok in E.
      * destruct (cache_write_mem _ _ _ _) as [d|] eqn:E; cbn [mbind option_bind] in H; [|done]. injection H as _ <-. split; [|exact Hs]. apply device_ok; [|done]. by eapply write_mem_keeps.
  - split; [|exact Hs]. apply device_ok; [|done]. by eapply recv_keeps.
Qed.


(** ** Copies *)
Fixpoint bytes_of (ws : list Z) : list Z := match ws with [] => [] | w :: ws' => le_split 8 w ++ bytes_of ws' end.

Definition data_stores (k : nat) (ws : list Z) : list access := imap (fun i w => Store (CXL_GPU_DATA_OFFSET + 8 * Z.of_nat (k + i)) w 8) ws.

Definition data_loads (k n : nat) : list access := (fun i => Load (CXL_GPU_DATA_OFFSET + 8 * Z.of_nat i) 8) <$> seq k n.

Definition copy_to (dst : Z) (ws : list Z) : list access :=
  data_stores 0 ws ++ [Store CXL_GPU_REG_PARAM0 dst 8; Store CXL_GPU_REG_PARAM1 (8 * Z.of_nat (length ws)) 8; Store CXL_GPU_REG_CMD 0x22 4].

Definition copy_from (src : Z) (n : nat) : list access :=
  [Store CXL_GPU_REG_PARAM0 src 8; Store CXL_GPU_REG_PARAM1 (8 * Z.of_nat n) 8; Store CXL_GPU_REG_CMD 0x23 4; Load CXL_GPU_REG_CMD_RESULT 4] ++ data_loads 0 n.

#[local] Notation run := (guest_run request ms random junk heap cuda owner_devfn msg_junk).

Lemma run_app (l1 l2 : list access) (t : state) : run (l1 ++ l2) t = ('(v1, t1) ← run l1 t; '(v2, t2) ← run l2 t1; Some (v1 ++ v2, t2)).
Proof.
  revert t. induction l1 as [|a l1 IH]; intros t; [cbn; destruct (run l2 t) as [[]|]; done|]. rewrite <- app_comm_cons. destruct a as [addr size|addr value size]; cbn [guest_run].
  - destruct (cxl_type2_cache_read _ _ _) as [[v t1]|]; cbn [mbind option_bind]; [|done]. rewrite IH. destruct (run l1 t1) as [[v1 t2]|]; cbn [mbind option_bind]; [|done].
    destruct (run l2 t2) as [[v2 t3]|]; done.
  - destruct (cxl_type2_cache_write _ _ _ _ _ _ _ _ _ _ _ _) as [t1|]; cbn [mbind option_bind]; [|done]. by rewrite IH.
Qed.

Lemma bytes_of_length (ws : list Z) : length (bytes_of ws) = (8 * length ws)%nat.
Proof. induction ws as [|w ws IH]; [done|]. cbn [bytes_of length]. rewrite length_app, le_split_length, IH. lia. Qed.

Lemma register_write (addr value size : Z) (t : state) : addr < CXL_GPU_CMD_REG_SIZE ->
  cxl_type2_cache_write request ms random junk heap cuda owner_devfn msg_junk addr value size t = cxl_type2_gpu_cmd_write request ms random junk heap cuda owner_devfn msg_junk addr value size t.
Proof. intros H. unfold cxl_type2_cache_write. by rewrite (proj2 (Z.ltb_lt _ _)) by done. Qed.

Lemma data_address (k : nat) : 8 * Z.of_nat k + 8 <= CXL_GPU_DATA_SIZE ->
  (CXL_GPU_DATA_OFFSET + 8 * Z.of_nat k < CXL_GPU_CMD_REG_SIZE) /\ (CXL_GPU_DATA_OFFSET + 8 * Z.of_nat k =? CXL_GPU_REG_CMD) = false /\
  param_register (CXL_GPU_DATA_OFFSET + 8 * Z.of_nat k) = None /\ data_register (CXL_GPU_DATA_OFFSET + 8 * Z.of_nat k) = true.
Proof.
  unfold CXL_GPU_DATA_SIZE, CXL_GPU_DATA_OFFSET, CXL_GPU_CMD_REG_SIZE, CXL_GPU_REG_CMD, param_register, data_register, CXL_GPU_REG_PARAM0, CXL_GPU_REG_PARAM7, CXL_GPU_DATA_OFFSET, CXL_GPU_DATA_SIZE.
  intros H. split_and!; [lia|lia| |lia]. rewrite (proj2 (Z.leb_gt _ 120)) by lia. by rewrite andb_false_r.
Qed.

Lemma stores_run (k : nat) (ws pre rest : list Z) (t : state) : gc_data (t2_gpu_cmd t) = pre ++ rest -> length pre = (8 * k)%nat -> (8 * length ws <= length rest)%nat ->
  8 * Z.of_nat (k + length ws) <= CXL_GPU_DATA_SIZE -> Z.of_nat (length (pre ++ rest)) = CXL_GPU_DATA_SIZE ->
  run (data_stores k ws) t = Some ([], update (set_data (pre ++ bytes_of ws ++ drop (8 * length ws) rest)) t).
Proof.
  revert k pre rest t. induction ws as [|w ws IH]; intros k pre rest t Hd Hp Hr Hk Hl; cbn [length] in *.
  { cbn. f_equal. f_equal. destruct t as [? ? ? ? [] ?]. cbn in *. by rewrite Hd. }
  unfold data_stores. cbn [imap guest_run]. rewrite Nat.add_0_r. destruct (data_address k) as (H1&H2&H3&H4); [lia|]. rewrite register_write by done.
  unfold cxl_type2_gpu_cmd_write. rewrite H2, H3, H4. cbv zeta. unfold data_size. rewrite Hd, (proj2 (Z.leb_le _ _)) by lia.
  replace (CXL_GPU_DATA_OFFSET + 8 * Z.of_nat k - CXL_GPU_DATA_OFFSET) with (8 * Z.of_nat k) by lia. change (value_bytes w 8) with (le_split 8 w).
  assert (mem_write (8 * Z.of_nat k) (le_split 8 w) (pre ++ rest) = Some ((pre ++ le_split 8 w) ++ drop 8 rest)) as Hw.
  { unfold mem_write. rewrite le_split_length, decide_True by lia. f_equal. rewrite Z2Nat.inj_mul, Nat2Z.id by lia. change (Z.to_nat 8) with 8%nat. rewrite <- Hp, take_app_length.
    rewrite <- app_assoc. do 2 f_equal. rewrite drop_app_ge by lia. f_equal. lia. }
  rewrite Hw. cbn [mbind option_bind]. rewrite imap_ext with (g := fun i w => Store (CXL_GPU_DATA_OFFSET + 8 * Z.of_nat (Datatypes.S k + i)) w 8) by (intros i x _; unfold compose; f_equal; lia).
  change (imap _ ws) with (data_stores (Datatypes.S k) ws). rewrite (IH (Datatypes.S k) (pre ++ le_split 8 w) (drop 8 rest)).
  - assert ((pre ++ le_split 8 w) ++ bytes_of ws ++ drop (8 * length ws) (drop 8 rest) = pre ++ bytes_of (w :: ws) ++ drop (8 * Datatypes.S (length ws)) rest) as ->; [|done].
    cbn [bytes_of]. rewrite drop_drop, <- !app_assoc. do 4 f_equal. lia.
  - done.
  - rewrite length_app, le_split_length. lia.
  - rewrite length_drop. lia.
  - lia.
  - rewrite !length_app, le_split_length, length_drop in *. lia.
Qed.

Lemma register_none (addr : Z) (regs : list (Z * Z)) : Forall (fun p => p.1 <> addr) regs -> register_at addr regs = None.
Proof. unfold register_at. induction 1 as [|p l Hp _ IH]; [done|]. by rewrite filter_cons_False. Qed.

Lemma loads_run (k : nat) (ws pre rest : list Z) (t : state) : gc_data (t2_gpu_cmd t) = pre ++ bytes_of ws ++ rest -> length pre = (8 * k)%nat -> Forall u64 ws ->
  8 * Z.of_nat (k + length ws) <= CXL_GPU_DATA_SIZE -> run (data_loads k (length ws)) t = Some (ws, t).
Proof.
  revert k pre. induction ws as [|w ws IH]; intros k pre Hd Hp Hu Hk; cbn [length] in *; [done|]. inversion Hu as [|? ? Hw Hu']; subst. clear Hu.
  unfold data_loads. cbn [seq fmap list_fmap guest_run]. destruct (data_address k) as (H1&_&H3&H4); [lia|].
  assert (cxl_type2_cache_read (CXL_GPU_DATA_OFFSET + 8 * Z.of_nat k) 8 t = Some (w, t)) as ->.
  { unfold cxl_type2_cache_read. rewrite (proj2 (Z.ltb_lt _ _)) by done. unfold cxl_type2_gpu_cmd_read.
    assert (register_at (CXL_GPU_DATA_OFFSET + 8 * Z.of_nat k) (fixed_registers t) = None) as ->.
    { apply register_none. unfold fixed_registers. cbv zeta.
      assert (forall r v : Z, 0 <= r < CXL_GPU_DATA_OFFSET -> (r, v).1 <> CXL_GPU_DATA_OFFSET + 8 * Z.of_nat k) as Hne by (cbn; intros; unfold CXL_GPU_DATA_OFFSET in *; lia).
      repeat (apply Forall_cons; split; [apply Hne; vm_compute; intuition discriminate|]). by apply Forall_nil. }
    rewrite H4. cbv zeta. unfold data_size. rewrite Hd. replace (CXL_GPU_DATA_OFFSET + 8 * Z.of_nat k - CXL_GPU_DATA_OFFSET) with (8 * Z.of_nat k) by lia.
    rewrite (proj2 (Z.leb_le _ _)) by (rewrite !length_app, bytes_of_length; cbn [length]; lia). change (Z.min 8 8) with 8. cbn [bytes_of].
    rewrite mem_read_Some by (rewrite ?length_app, ?le_split_length; lia). cbn [mbind option_bind]. rewrite Z2Nat.inj_mul, Nat2Z.id by lia. change (Z.to_nat 8) with 8%nat.
    rewrite <- Hp, drop_app_length, <- app_assoc, take_app_le by (rewrite le_split_length; lia). rewrite take_ge by (rewrite le_split_length; lia). by rewrite le_split8_roundtrip. }
  cbn [mbind option_bind]. change ((fun i => Load (CXL_GPU_DATA_OFFSET + 8 * Z.of_nat i) 8) <$> seq (Datatypes.S k) (length ws)) with (data_loads (Datatypes.S k) (length ws)).
  rewrite (IH (Datatypes.S k) (pre ++ le_split 8 w)); [done| | |done|lia].
  - cbn [bytes_of] in Hd. by rewrite Hd, <- !app_assoc.
  - rewrite length_app, le_split_length. lia.
Qed.

(** The line of the address is tracked, or need not be. *)
Definition trackable (t : state) (addr : Z) : Prop :=
  bc_enabled (dv_bar_coherency (t2_device t)) = true -> find_region_for_addr (dv_bar_coherency (t2_device t)) addr = None \/ ready (dv_bar_coherency (t2_device t)) addr.

Lemma notify_run (t : state) (addr size : Z) (w : bool) : trackable t addr ->
  exists t', notify addr size w t = Some t' /\ trackable t' addr /\ t2_gpu_cmd t' = t2_gpu_cmd t /\ t2_hetgpu t' = t2_hetgpu t /\ t2_library t' = t2_library t /\
    dv_device_mem (t2_device t') = dv_device_mem (t2_device t).
Proof.
  intros Ht. unfold notify. destruct (bc_enabled _) eqn:He; [|by eexists]. unfold cxl_bar_notify_gpu_access. rewrite He. cbn [negb].
  destruct (find_region_for_addr _ _) as [[i r]|] eqn:Hf; cbn [mbind option_bind].
  2: { eexists. by split_and!. }
  destruct (Ht He) as [Hno|Hready]; [congruence|]. cbv zeta. set (b0 := set_regions _ _ _). assert (ready b0 addr) as H0 by done.
  assert (exists b, (if w then '(_, s) ← cxl_bar_coherency_request b0 CXL_COH_REQ_WR_INV addr CXL_DOMAIN_GPU; s ← cxl_bar_snoop_update s addr CXL_COHERENCY_MODIFIED CXL_DOMAIN_GPU; Some (count gpu_to_cpu_xfers s)
    else '(_, s) ← cxl_bar_coherency_request b0 CXL_COH_REQ_RD_SHARED addr CXL_DOMAIN_GPU; Some (count cpu_to_gpu_xfers s)) = Some b /\ ready b addr) as (b&->&Hr).
  { destruct w.
    - destruct (request_ready b0 CXL_COH_REQ_WR_INV addr CXL_DOMAIN_GPU H0) as (r1&b1&->&H1); [set_solver|]. cbn [mbind option_bind].
      destruct (update_ready b1 addr CXL_COHERENCY_MODIFIED CXL_DOMAIN_GPU H1) as (b2&->&H2). cbn [mbind option_bind]. by eexists.
    - destruct (request_ready b0 CXL_COH_REQ_RD_SHARED addr CXL_DOMAIN_GPU H0) as (r1&b1&->&H1); [set_solver|]. cbn [mbind option_bind]. by eexists. }
  cbn [mbind option_bind]. eexists. split; [done|]. split_and!; try done. intros _. right. exact Hr.
Qed.

(** A range that can be copied to: of the memory of the device without a backend, of a block of
    the simulated GPU with it. *)
Definition copyable (t : state) (dst n : Z) : Prop :=
  (initialized t = false /\ 0 <= dst /\ dst + n <= device_mem_size (t2_device t) < 2 ^ 64) \/
  (sim_ok (t2_hetgpu t) /\ exists i a, hg_sim_allocs (t2_hetgpu t) !! i = Some a /\ sa_dev_ptr a <= dst /\ dst + n <= sa_dev_ptr a + sa_size a).

(** The GPU has these bytes. *)
Definition gpu_holds (t : state) (dst : Z) (bs : list Z) : Prop :=
  if initialized t
  then 0 <= dst /\ dst + Z.of_nat (length bs) < 2 ^ 64 /\
       forall old, length old = length bs -> exists h, hetgpu_memcpy_dtoh cuda (t2_hetgpu t) (t2_library t) old dst = Some (HETGPU_SUCCESS, bs, h, t2_library t)
  else mem_read dst (Z.of_nat (length bs)) (dv_device_mem (t2_device t)) = Some bs /\ in_device dst (Z.of_nat (length bs)) t = true.

Lemma in_device_true (t : state) (dst n : Z) : 0 <= dst -> 0 <= n -> dst + n < 2 ^ 64 -> in_device dst n t = true -> dst + n <= device_mem_size (t2_device t).
Proof. unfold in_device. intros. rewrite wrap64_small in * by (unfold u64; lia). lia. Qed.

Lemma store_notify_run (t : state) (dst : Z) (bs : list Z) : 0 <= dst -> dst + Z.of_nat (length bs) <= device_mem_size (t2_device t) -> trackable t dst ->
  exists t', (t1 ← store_device dst bs t; notify dst (Z.of_nat (length bs)) true t1) = Some t' /\ trackable t' dst /\ t2_gpu_cmd t' = t2_gpu_cmd t /\ t2_hetgpu t' = t2_hetgpu t /\
    t2_library t' = t2_library t /\ mem_read dst (Z.of_nat (length bs)) (dv_device_mem (t2_device t')) = Some bs /\ device_mem_size (t2_device t') = device_mem_size (t2_device t).
Proof.
  intros Hd Hn Ht. unfold store_device. destruct (mem_write_Some dst bs (dv_device_mem (t2_device t)) Hd Hn) as [m Hm]. rewrite Hm. cbn [mbind option_bind].
  set (t1 := set_t2_device _ t). destruct (notify_run t1 dst (Z.of_nat (length bs)) true) as (t'&->&Ht'&Hg&Hh&Hl&Hm'); [exact Ht|].
  exists t'. split_and!; try done.
  - rewrite Hm'. by apply (mem_read_write_same _ _ (dv_device_mem (t2_device t))).
  - unfold device_mem_size. rewrite Hm'. cbn. by rewrite (mem_write_length _ _ _ _ Hm).
Qed.

Lemma htod_run (t : state) (dst : Z) (bs : list Z) : param (t2_gpu_cmd t) 0 = dst -> param (t2_gpu_cmd t) 1 = Z.of_nat (length bs) ->
  take (length bs) (gc_data (t2_gpu_cmd t)) = bs -> (0 < length bs)%nat -> copyable t dst (Z.of_nat (length bs)) -> trackable t dst ->
  exists t', cmd_mem_copy_htod cuda t = Some t' /\ t2_gpu_cmd t' = t2_gpu_cmd t /\ trackable t' dst /\ gpu_holds t' dst bs.
Proof.
  intros H0 H1 Hd Hn Hc Ht. unfold cmd_mem_copy_htod. cbv zeta. rewrite H0, H1, Nat2Z.id, Hd.
  assert (length bs <= length (gc_data (t2_gpu_cmd t)))%nat as Hlen by (rewrite <- Hd at 1; rewrite length_take; lia).
  rewrite (proj2 (Z.ltb_ge _ _)) by (unfold data_size; lia). destruct Hc as [(Hi&Hdst&Hdev)|(Hs&i&a&Ha&Hlo&Hhi)].
  - rewrite Hi. assert (in_device dst (Z.of_nat (length bs)) t = true) as Hin by (unfold in_device; rewrite wrap64_small by (unfold u64; lia); lia). rewrite Hin.
    destruct (store_notify_run t dst bs Hdst ltac:(lia) Ht) as (t'&->&Ht'&Hg&Hh&Hl&Hm&Hsz). exists t'. split_and!; try done.
    unfold gpu_holds, initialized. rewrite Hh. change (hg_initialized (t2_hetgpu t)) with (initialized t). rewrite Hi. split; [done|]. unfold in_device in *. by rewrite Hsz.
  - destruct (sim_is_sim _ Hs) as [_ Hi]. unfold initialized. rewrite Hi. destruct (sim_copy_ok cuda _ (t2_library t) i a dst bs Hs Ha Hlo Hn Hhi) as (h&->&Hs'&Hback&_). cbn [mbind option_bind].
    set (t1 := update _ _). destruct (sim_is_sim _ Hs') as [_ Hi']. destruct (so_blocks _ Hs i a Ha) as (B1&_&B3&_). pose proof (so_next _ Hs) as Hnext.
    assert (forall t', t2_hetgpu t' = h -> t2_library t' = t2_library t -> gpu_holds t' dst bs) as Hhold.
    { intros t' Hh Hl. unfold gpu_holds, initialized. rewrite Hh, Hl, Hi'. split_and!; [lia|lia|done]. }
    destruct (in_device dst _ t1) eqn:Hin; [|exists t1; split_and!; [done|done|done|by apply Hhold]].
    apply in_device_true in Hin; [|lia|lia|lia]. destruct (store_notify_run t1 dst bs ltac:(lia) Hin Ht) as (t'&->&Ht'&Hg&Hh&Hl&_). exists t'. split_and!; try done. by apply Hhold.
Qed.

Lemma dtoh_run (t : state) (dst : Z) (bs : list Z) : param (t2_gpu_cmd t) 0 = dst -> param (t2_gpu_cmd t) 1 = Z.of_nat (length bs) -> (length bs <= length (gc_data (t2_gpu_cmd t)))%nat ->
  gpu_holds t dst bs -> trackable t dst -> exists t', cmd_mem_copy_dtoh cuda t = Some t' /\ t2_gpu_cmd t' = fill_data bs (t2_gpu_cmd t).
Proof.
  intros H0 H1 Hlen Hh Ht. unfold cmd_mem_copy_dtoh. cbv zeta. rewrite H0, H1, Nat2Z.id, (proj2 (Z.ltb_ge _ _)) by (unfold data_size; lia).
  unfold gpu_holds in Hh. destruct (initialized t) eqn:Hi.
  - destruct (notify_run t dst (Z.of_nat (length bs)) false Ht) as (t1&->&_&Hg&Hgp&Hl&Hm). cbn [mbind option_bind]. rewrite Hgp, Hl.
    destruct Hh as (Hd&Hu&Hback). destruct (Hback (take (length bs) (gc_data (t2_gpu_cmd t)))) as [h ->]; [rewrite length_take; lia|]. cbn [mbind option_bind].
    set (t2 := update _ _). assert (t2_gpu_cmd t2 = fill_data bs (t2_gpu_cmd t)) as Hg2 by (cbn; by rewrite Hg).
    destruct (in_device dst _ t2) eqn:Hin; [|by exists t2]. apply in_device_true in Hin; [|lia|lia|lia]. unfold store_device.
    destruct (mem_write_Some dst bs (dv_device_mem (t2_device t2)) Hd Hin) as [m ->]. cbn [mbind option_bind]. by eexists.
  - destruct Hh as [Hr Hin]. rewrite Hin. destruct (notify_run t dst (Z.of_nat (length bs)) false Ht) as (t1&->&_&Hg&_&_&Hm). cbn [mbind option_bind].
    rewrite Hm, Hr. cbn [mbind option_bind]. eexists. split; [done|]. cbn. by rewrite Hg.
Qed.

Lemma params_run (a b : Z) (t : state) : length (gc_params (t2_gpu_cmd t)) = 8%nat -> let t' := update (fun g => set_param 1 b (set_param 0 a g)) t in
  run [Store CXL_GPU_REG_PARAM0 a 8; Store CXL_GPU_REG_PARAM1 b 8] t = Some ([], t') /\ param (t2_gpu_cmd t') 0 = a /\ param (t2_gpu_cmd t') 1 = b.
Proof.
  intros H. cbv zeta. split; [reflexivity|]. destruct t as [w p h c [st cs cr [|p0 [|p1 ps]] rs ds ms0 fs cap] n]; cbn in H; [done|done|]. split; reflexivity.
Qed.

Lemma htod_command (t : state) (dst : Z) (bs : list Z) : param (t2_gpu_cmd t) 0 = dst -> param (t2_gpu_cmd t) 1 = Z.of_nat (length bs) ->
  take (length bs) (gc_data (t2_gpu_cmd t)) = bs -> (0 < length bs)%nat -> copyable t dst (Z.of_nat (length bs)) -> trackable t dst ->
  exists t', run [Store CXL_GPU_REG_CMD 0x22 4] t = Some ([], t') /\ gc_cmd_result (t2_gpu_cmd t') = CXL_GPU_SUCCESS /\
    gc_params (t2_gpu_cmd t') = gc_params (t2_gpu_cmd t) /\ gc_data (t2_gpu_cmd t') = gc_data (t2_gpu_cmd t) /\ trackable t' dst /\ gpu_holds t' dst bs.
Proof.
  intros H0 H1 Hd Hn Hc Ht. cbn [guest_run]. rewrite register_write by reflexivity. unfold cxl_type2_gpu_cmd_write. change (CXL_GPU_REG_CMD =? CXL_GPU_REG_CMD) with true.
  unfold cxl_type2_gpu_execute_cmd. cbv zeta. change (command_of (wrap32 0x22)) with (Some CXL_GPU_CMD_MEM_COPY_HTOD). cbn [run_command].
  destruct (htod_run (update (fun g => set_result CXL_GPU_SUCCESS (set_cmd_status CXL_GPU_CMD_STATUS_RUNNING g)) t) dst bs H0 H1 Hd Hn Hc Ht) as (t'&->&Hg&Ht'&Hh).
  cbn [mbind option_bind]. eexists. split; [done|]. cbn [update set_gpu_cmd t2_gpu_cmd set_cmd_status gc_cmd_result gc_params gc_data]. by rewrite Hg.
Qed.

Lemma dtoh_command (t : state) (dst : Z) (bs : list Z) : param (t2_gpu_cmd t) 0 = dst -> param (t2_gpu_cmd t) 1 = Z.of_nat (length bs) -> (length bs <= length (gc_data (t2_gpu_cmd t)))%nat ->
  gpu_holds t dst bs -> trackable t dst ->
  exists t', run [Store CXL_GPU_REG_CMD 0x23 4; Load CXL_GPU_REG_CMD_RESULT 4] t = Some ([0], t') /\ gc_data (t2_gpu_cmd t') = bs ++ drop (length bs) (gc_data (t2_gpu_cmd t)).
Proof.
  intros H0 H1 Hlen Hh Ht. cbn [guest_run]. rewrite register_write by reflexivity. unfold cxl_type2_gpu_cmd_write. change (CXL_GPU_REG_CMD =? CXL_GPU_REG_CMD) with true.
  unfold cxl_type2_gpu_execute_cmd. cbv zeta. change (command_of (wrap32 0x23)) with (Some CXL_GPU_CMD_MEM_COPY_DTOH). cbn [run_command].
  destruct (dtoh_run (update (fun g => set_result CXL_GPU_SUCCESS (set_cmd_status CXL_GPU_CMD_STATUS_RUNNING g)) t) dst bs H0 H1 Hlen Hh Ht) as (t'&->&Hg). cbn [mbind option_bind].
  set (t2 := update _ t'). assert (gc_cmd_result (t2_gpu_cmd t2) = CXL_GPU_SUCCESS) as Hr by (cbn; by rewrite Hg).
  assert (cxl_type2_cache_read CXL_GPU_REG_CMD_RESULT 4 t2 = Some (0, t2)) as ->.
  { transitivity (Some (gpu_error_val (gc_cmd_result (t2_gpu_cmd t2)), t2)); [reflexivity|by rewrite Hr]. }
  cbn [mbind option_bind]. eexists. split; [done|]. cbn. by rewrite Hg.
Qed.

(** A copy is its command, on a state with the parameters and the data. *)
Lemma copy_to_run (t : state) (dst : Z) (ws : list Z) : regs_ok (t2_gpu_cmd t) -> 8 * Z.of_nat (length ws) <= CXL_GPU_DATA_SIZE ->
  exists f, run (copy_to dst ws) t = run [Store CXL_GPU_REG_CMD 0x22 4] (update f t) /\ param (f (t2_gpu_cmd t)) 0 = dst /\ param (f (t2_gpu_cmd t)) 1 = Z.of_nat (length (bytes_of ws)) /\
    take (length (bytes_of ws)) (gc_data (f (t2_gpu_cmd t))) = bytes_of ws /\ length (gc_data (f (t2_gpu_cmd t))) = length (gc_data (t2_gpu_cmd t)) /\ length (gc_params (f (t2_gpu_cmd t))) = 8%nat.
Proof.
  intros [Hp _ Hd _ _] Hws. pose proof (bytes_of_length ws) as Hb. unfold copy_to. rewrite run_app, (stores_run 0 ws [] (gc_data (t2_gpu_cmd t)) t) by (cbn [app length]; lia || done).
  cbn [mbind option_bind app]. set (ta := update _ t). change ([Store CXL_GPU_REG_PARAM0 ?a 8; ?x; ?y]) with ([Store CXL_GPU_REG_PARAM0 a 8; x] ++ [y]).
  rewrite run_app. destruct (params_run dst (8 * Z.of_nat (length ws)) ta Hp) as (->&P0&P1). cbn [mbind option_bind].
  exists (fun g => set_param 1 (8 * Z.of_nat (length ws)) (set_param 0 dst (set_data (bytes_of ws ++ drop (8 * length ws) (gc_data (t2_gpu_cmd t))) g))). split_and!.
  - cbn [app]. change (update _ ta) with (update (fun g => set_param 1 (8 * Z.of_nat (length ws)) (set_param 0 dst (set_data (bytes_of ws ++ drop (8 * length ws) (gc_data (t2_gpu_cmd t))) g))) t).
    destruct (run _ _) as [[]|]; done.
  - exact P0.
  - etrans; [exact P1|lia].
  - apply take_app_length.
  - cbn. rewrite length_app, length_drop, Hb. lia.
  - cbn. by rewrite !length_insert.
Qed.


(** ** Defects *)
Lemma notify_waits (t : state) (addr size : Z) : bar_idle (dv_bar_coherency (t2_device t)) -> bc_enabled (dv_bar_coherency (t2_device t)) = true ->
  is_Some (find_region_for_addr (dv_bar_coherency (t2_device t)) addr) -> bc_snoop_filter (dv_bar_coherency (t2_device t)) !! line_of addr = None -> notify addr size true t = None.
Proof.
  intros Hidle He [[i r] Hreg] Hnew. unfold notify. rewrite He. unfold cxl_bar_notify_gpu_access. rewrite He, Hreg. cbn [negb]. cbv zeta. set (b0 := set_regions _ _ _).
  destruct (cxl_bar_coherency_request b0 _ addr _) as [x|] eqn:E; [|done]. assert (bar_idle b0) as Hb0 by (destruct Hidle; split; [by apply bar_inv_region|done]).
  apply mk_is_Some, (request_waits_or_returns b0 CXL_COH_REQ_WR_INV addr CXL_DOMAIN_GPU Hb0 He) in E. change (bc_snoop_filter b0) with (bc_snoop_filter (dv_bar_coherency (t2_device t))) in E.
  by rewrite Hnew in E.
Qed.

(** Without a backend, the first copy to a line that is not tracked yet, in a region that is, never
    returns: the tracking waits for its own mutex. *)
Theorem first_copy_hangs (t : state) (dst : Z) (ws : list Z)
    (Hr : guest_reachable t) (Hi : initialized t = false) (Hws : 8 * Z.of_nat (length ws) <= CXL_GPU_DATA_SIZE)
    (Hd : 0 <= dst) (Hdev : dst + 8 * Z.of_nat (length ws) <= device_mem_size (t2_device t) < 2 ^ 64)
    (He : bc_enabled (dv_bar_coherency (t2_device t)) = true) (Hreg : is_Some (find_region_for_addr (dv_bar_coherency (t2_device t)) dst))
    (Hnew : bc_snoop_filter (dv_bar_coherency (t2_device t)) !! line_of dst = None) :
  run (copy_to dst ws) t = None.
Proof.
  destruct (reachable_guest_ok t Hr) as [Hok _]. pose proof (ro_data _ (proj1 Hok)) as Hdat. pose proof (bytes_of_length ws) as Hb.
  destruct (copy_to_run t dst ws (proj1 Hok) Hws) as (f&->&P0&P1&_&P3&_).
  cbn [guest_run]. rewrite register_write by reflexivity. unfold cxl_type2_gpu_cmd_write. change (CXL_GPU_REG_CMD =? CXL_GPU_REG_CMD) with true.
  unfold cxl_type2_gpu_execute_cmd. cbv zeta. change (command_of (wrap32 0x22)) with (Some CXL_GPU_CMD_MEM_COPY_HTOD). cbn [run_command].
  set (tc := update _ (update f t)). enough (cmd_mem_copy_htod cuda tc = None) as -> by done. unfold cmd_mem_copy_htod. cbv zeta.
  change (param (t2_gpu_cmd tc)) with (param (f (t2_gpu_cmd t))). change (data_size (t2_gpu_cmd tc)) with (data_size (f (t2_gpu_cmd t))). rewrite P0, P1. change (initialized tc) with (initialized t).
  rewrite Hi. unfold data_size. rewrite (proj2 (Z.ltb_ge _ _)) by lia.
  assert (in_device dst (Z.of_nat (length (bytes_of ws))) tc = true) as -> by (unfold in_device; rewrite wrap64_small by (unfold u64; lia); apply Z.leb_le; change (device_mem_size (t2_device tc)) with (device_mem_size (t2_device t)); lia).
  unfold store_device. destruct (mem_write _ _ _) as [m|] eqn:Em; cbn [mbind option_bind]; [|done]. set (td := set_t2_device _ tc).
  apply (notify_waits td); [apply Hok|done|done|done].
Qed.

(** The first megabyte of the memory BAR is not memory: a store there goes to the registers, the
    memory of the device keeps its bytes, and a load returns the buffer. *)
Theorem low_memory_is_registers (t : state) (addr value : Z) (Hr : guest_reachable t) (Hv : u64 value)
    (Ha : CXL_GPU_DATA_OFFSET <= addr <= CXL_GPU_DATA_OFFSET + CXL_GPU_DATA_SIZE - 8) :
  exists t', cxl_type2_device_mem_write request ms random junk heap cuda owner_devfn msg_junk addr value 8 t = Some t' /\ t2_world t' = t2_world t /\
    cxl_type2_device_mem_read addr 8 t' = Some (value, t').
Proof.
  destruct (reachable_guest_ok t Hr) as [[Hg _] _]. pose proof (ro_data _ Hg) as Hd. unfold cxl_type2_device_mem_write, cxl_type2_device_mem_read.
  unfold CXL_GPU_DATA_OFFSET, CXL_GPU_DATA_SIZE in *. rewrite register_write by (unfold CXL_GPU_CMD_REG_SIZE; lia). unfold cxl_type2_gpu_cmd_write, CXL_GPU_REG_CMD.
  rewrite (proj2 (Z.eqb_neq _ _)) by lia. assert (param_register addr = None) as ->.
  { unfold param_register, CXL_GPU_REG_PARAM0, CXL_GPU_REG_PARAM7. rewrite (proj2 (Z.leb_gt addr _)) by lia. by rewrite andb_false_r. }
  assert (data_register addr = true) as Hdr by (unfold data_register, CXL_GPU_DATA_OFFSET, CXL_GPU_DATA_SIZE; lia). rewrite Hdr. cbv zeta. unfold data_size.
  rewrite (proj2 (Z.leb_le _ _)) by (unfold CXL_GPU_DATA_OFFSET; lia). change (value_bytes value 8) with (le_split 8 value).
  destruct (mem_write_Some (addr - CXL_GPU_DATA_OFFSET) (le_split 8 value) (gc_data (t2_gpu_cmd t))) as [data Hw]; [unfold CXL_GPU_DATA_OFFSET; lia|rewrite le_split_length; unfold CXL_GPU_DATA_OFFSET; lia|].
  rewrite Hw. cbn [mbind option_bind]. eexists. split; [done|]. split; [done|]. unfold cxl_type2_cache_read. rewrite (proj2 (Z.ltb_lt _ _)) by (unfold CXL_GPU_CMD_REG_SIZE; lia).
  unfold cxl_type2_gpu_cmd_read. rewrite register_none.
  - rewrite Hdr. cbv zeta. unfold data_size. cbn [t2_gpu_cmd update set_gpu_cmd set_data gc_data]. rewrite (mem_write_length _ _ _ _ Hw), (proj2 (Z.leb_le _ _)) by (unfold CXL_GPU_DATA_OFFSET; lia).
    pose proof (mem_read_write_same _ _ _ _ Hw) as Hread. rewrite le_split_length in Hread. change (Z.min 8 8) with (Z.of_nat 8). rewrite Hread. cbn [mbind option_bind]. by rewrite le_split8_roundtrip.
  - assert (forall r v : Z, 0 <= r < CXL_GPU_DATA_OFFSET -> (r, v).1 <> addr) as Hne by (cbn; intros; unfold CXL_GPU_DATA_OFFSET in *; lia).
    unfold fixed_registers. cbv zeta. repeat (apply Forall_cons; split; [apply Hne; vm_compute; intuition discriminate|]). by apply Forall_nil.
Qed.

Definition command_run (p0 cmd : Z) : list access := [Store CXL_GPU_REG_PARAM0 p0 8; Store CXL_GPU_REG_CMD cmd 4; Load CXL_GPU_REG_CMD_RESULT 4; Load CXL_GPU_REG_RESULT0 8].

Lemma command_run_eq (p0 cmd : Z) (c : CXLGPUCommand) (t t' : state) : command_of (wrap32 cmd) = Some c ->
  run_command request ms random junk heap cuda owner_devfn msg_junk c (update (fun g => set_result CXL_GPU_SUCCESS (set_cmd_status CXL_GPU_CMD_STATUS_RUNNING (set_param 0 p0 g))) t) = Some t' ->
  run (command_run p0 cmd) t = Some ([gpu_error_val (gc_cmd_result (t2_gpu_cmd t')); nth 0 (gc_results (t2_gpu_cmd t')) 0], update (set_cmd_status CXL_GPU_CMD_STATUS_COMPLETE) t').
Proof.
  intros Hc Hr. unfold command_run. cbn [guest_run]. rewrite register_write by reflexivity. change (cxl_type2_gpu_cmd_write _ _ _ _ _ _ _ _ CXL_GPU_REG_PARAM0 p0 8 t) with (Some (update (set_param 0 p0) t)).
  cbn [mbind option_bind]. rewrite register_write by reflexivity. unfold cxl_type2_gpu_cmd_write. change (CXL_GPU_REG_CMD =? CXL_GPU_REG_CMD) with true.
  unfold cxl_type2_gpu_execute_cmd. cbv zeta. rewrite Hc. change (update _ (update (set_param 0 p0) t)) with (update (fun g => set_result CXL_GPU_SUCCESS (set_cmd_status CXL_GPU_CMD_STATUS_RUNNING (set_param 0 p0 g))) t).
  rewrite Hr. cbn [mbind option_bind]. set (t2 := update _ t').
  change (cxl_type2_cache_read CXL_GPU_REG_CMD_RESULT 4 t2) with (Some (gpu_error_val (gc_cmd_result (t2_gpu_cmd t2)), t2)). cbn [mbind option_bind].
  change (cxl_type2_cache_read CXL_GPU_REG_RESULT0 8 t2) with (Some (nth 0 (gc_results (t2_gpu_cmd t2)) 0, t2)). done.
Qed.

(** Without a backend, memory that is allocated by [MEM_ALLOC] and memory of the coherent pool
    overlap: the first allocation may be all of the memory, the pool is at its end. *)
Theorem allocation_in_pool (t : state) (Hr : realised t) (Hi : initialized t = false) (Hz : t2_next_alloc t = 0)
    (Hm : 65536 <= device_mem_size (t2_device t) < 2 ^ 63) :
  exists p t', run (command_run (device_mem_size (t2_device t)) 0x20 ++ command_run 4096 0xA0) t = Some ([0; 0; 0; p], t') /\
    0 <= p /\ p + 4096 <= device_mem_size (t2_device t).
Proof.
  pose proof (re_cmd _ Hr) as Hc. pose proof (re_pool _ Hr) as Hp. set (M := device_mem_size (t2_device t)) in *. set (base := M - coherent_pool_size M).
  assert (4096 < coherent_pool_size M <= M) as Hs by (unfold coherent_pool_size, MiB; destruct (_ <? _) eqn:E; Z.to_euclidean_division_equations; lia).
  exists base. eexists. split; [|lia]. rewrite run_app, (command_run_eq M 0x20 CXL_GPU_CMD_MEM_ALLOC t _ eq_refl eq_refl). cbn [mbind option_bind].
  set (t0 := update _ t). assert (cmd_mem_alloc cuda t0 = set_next_alloc (t2_next_alloc t ⊞ page_align M) (update (set_results [t2_next_alloc t]) t0)) as ->.
  { unfold cmd_mem_alloc. change (initialized t0) with (initialized t). rewrite Hi. assert (param (t2_gpu_cmd t0) 0 = M) as -> by (cbn; by rewrite Hc).
    change (t2_next_alloc t0) with (t2_next_alloc t). rewrite Hz. change (device_mem_size (t2_device t0)) with M. rewrite Z.add_0_l, (wrap64_small M), Z.leb_refl by (unfold u64; lia). done. }
  set (ta := update _ (set_next_alloc _ _)). rewrite (command_run_eq 4096 0xA0 CXL_GPU_CMD_COHERENT_ALLOC ta _ eq_refl eq_refl). cbn [mbind option_bind].
  set (t1 := update _ ta). assert (cmd_coherent_alloc t1 = update (set_results [base]) (set_pool (cxl_coherent_pool_alloc (t2_pool t) 4096).2 t1)) as ->.
  { unfold cmd_coherent_alloc. assert (param (t2_gpu_cmd t1) 0 = 4096) as -> by (cbn; by rewrite Hc). change (t2_pool t1) with (t2_pool t). rewrite Hp.
    unfold coherent_pool_init, cxl_coherent_pool_alloc. cbn [cp_free_list take_block fb_size fb_offset]. change (page_align 4096) with 4096. rewrite (proj2 (Z.leb_le 4096 _)) by lia. cbn [snd].
    rewrite (wrap64_small (M - _)) by (unfold u64; lia). unfold int64. rewrite (proj2 (Z.ltb_lt _ _)), (proj2 (Z.leb_le 0 _)) by lia. done. }
  cbn. by rewrite Hz.
Qed.

(** A cache command whose range ends in the last line before [2^64] does not end: the address passes
    [2^64] and starts again. *)
Theorem flush_never_ends (t : state) (addr size : Z) (Hr : guest_reachable t) (He : co_coherency_enabled (dv_coherency (t2_device t)) = true)
    (Ha : 0 <= addr) (Hs : 0 < size) (Htop : addr + size < 2 ^ 64) (Hend : 2 ^ 64 - 64 + addr mod 64 < addr + size) :
  (forall fuel, line_loop fuel (fun a d => Some (cxl_type2_cache_invalidate d a)) addr (addr ⊞ size) (t2_device t) = None) /\
  run [Store CXL_GPU_REG_PARAM0 addr 8; Store CXL_GPU_REG_PARAM1 size 8; Store CXL_GPU_REG_CMD 0x81 4] t = None.
Proof.
  rewrite wrap64_small by (unfold u64; lia).
  assert (forall fuel a d, 0 <= a < 2 ^ 64 -> a mod 64 = addr mod 64 -> line_loop fuel (fun a d => Some (cxl_type2_cache_invalidate d a)) a (addr + size) d = None) as Hloop.
  { induction fuel as [|fuel IH]; intros a d Ha1 Ha2; cbn [line_loop]; [done|]. assert (a <= 2 ^ 64 - 64 + addr mod 64) as Hle by (Z.to_euclidean_division_equations; lia).
    rewrite (proj2 (Z.ltb_lt _ _)) by lia. cbn [mbind option_bind]. apply IH; [apply wrap64_range|]. rewrite wrap64_mod64. unfold Type2Coherency.CXL_CACHE_LINE_SIZE. replace (a + 64) with (a + 1 * 64) by lia. by rewrite Z.mod_add by lia. }
  split; [intros fuel; apply Hloop; [lia|done]|].
  destruct (reachable_guest_ok t Hr) as [[Hg _] _]. change ([Store CXL_GPU_REG_PARAM0 ?a 8; ?x; ?y]) with ([Store CXL_GPU_REG_PARAM0 a 8; x] ++ [y]). rewrite run_app.
  destruct (params_run addr size t (ro_params _ Hg)) as (->&P0&P1). cbn [mbind option_bind guest_run]. rewrite register_write by reflexivity. set (tb := update _ t) in *.
  unfold cxl_type2_gpu_cmd_write. change (CXL_GPU_REG_CMD =? CXL_GPU_REG_CMD) with true. unfold cxl_type2_gpu_execute_cmd. cbv zeta.
  change (command_of (wrap32 0x81)) with (Some CXL_GPU_CMD_CACHE_INVALIDATE). cbn [run_command]. set (tc := update _ tb). unfold cmd_cache.
  change (param (t2_gpu_cmd tc)) with (param (t2_gpu_cmd tb)). rewrite P0, P1. unfold cache_invalidate. change (t2_device tc) with (t2_device t). rewrite He. unfold cache_loop.
  rewrite wrap64_small by (unfold u64; lia). by rewrite Hloop by lia.
Qed.
End Guests.

(** ** Witnesses *)
Definition demo_t2 (h : HetGPUState) (d : device) : CXLType2State unit unit :=
  mkType2 (mkWorld d demo_bus () cxl_p2p_dma_init 1) (coherent_pool_init (device_mem_size d)) h () gpu_cmd_init 0.

Definition demo_run : list access -> CXLType2State unit unit -> option (list Z * CXLType2State unit unit) := guest_run demo_none demo_off [] demo_junk demo_junk demo_cuda 1 [].

Definition demo_guest (t : CXLType2State unit unit) : Prop := guest_reachable demo_none demo_off [] demo_junk demo_junk demo_cuda 1 [] t.

Lemma demo_copy_length : forall f (c : unit) (old : list Z) (src err : Z) (bs : list Z) (c' : unit), cuMemcpyDtoH demo_cuda = Some f -> f c old src = ((err, bs), c') -> length bs = length old.
Proof. intros f c old src err bs c' H. discriminate. Qed.

Definition demo_off_gpu : HetGPUState := state_zero HETGPU_BACKEND_SIMULATION 0.

Lemma demo_realised (h : HetGPUState) (d : device) : bar_reachable (dv_bar_coherency d) -> demo_guest (demo_t2 h d).
Proof. intros H. apply guest_new. by split. Qed.

(** A device that was just realised: regions are registered, no line is tracked. *)
Definition demo_new_device : device :=
  mkDevice (replicate 65536 0) [] cxl_type2_coherency_init
    (default cxl_bar_coherency_init (bar_run cxl_bar_coherency_init [OpAddRegion 2 0 65536 true true; OpAddRegion 4 0 65536 true true])) false [] (mkT2Stats 0 0 0 0).

Lemma demo_new_bar : bar_reachable (dv_bar_coherency demo_new_device).
Proof. apply (bar_run_reachable [OpAddRegion 2 0 65536 true true; OpAddRegion 4 0 65536 true true] cxl_bar_coherency_init); [constructor|vm_compute; reflexivity]. Qed.

Lemma demo_new_size : device_mem_size demo_new_device = 65536.
Proof. unfold device_mem_size. cbn [demo_new_device dv_device_mem]. by rewrite length_replicate. Qed.



Lemma first_copy_hangs_witness : demo_run (copy_to 4096 [5]) (demo_t2 demo_off_gpu demo_new_device) = None.
Proof.
  apply (first_copy_hangs demo_none demo_off [] demo_junk demo_junk demo_cuda 1 [] demo_copy_length (demo_t2 demo_off_gpu demo_new_device) 4096 [5]).
  - apply demo_realised, demo_new_bar.
  - reflexivity.
  - vm_compute. discriminate.
  - lia.
  - change (t2_device (demo_t2 demo_off_gpu demo_new_device)) with demo_new_device. rewrite demo_new_size. cbn. lia.
  - vm_compute. reflexivity.
  - vm_compute. eauto.
  - vm_compute. reflexivity.
Defined.

Lemma low_memory_is_registers_witness :
  exists t', cxl_type2_device_mem_write demo_none demo_off [] demo_junk demo_junk demo_cuda 1 [] 8192 77 8 (demo_t2 demo_off_gpu demo_new_device) = Some t' /\
    dv_device_mem (t2_device t') = replicate 65536 0 /\ cxl_type2_device_mem_read 8192 8 t' = Some (77, t').
Proof.
  destruct (low_memory_is_registers demo_none demo_off [] demo_junk demo_junk demo_cuda 1 [] demo_copy_length (demo_t2 demo_off_gpu demo_new_device) 8192 77) as (t'&H1&H2&H3).
  - apply demo_realised, demo_new_bar.
  - unfold u64. lia.
  - vm_compute. intuition discriminate.
  - exists t'. split; [exact H1|]. split; [|exact H3]. unfold t2_device. rewrite H2. reflexivity.
Defined.

Lemma allocation_in_pool_witness : exists p t', demo_run (command_run 65536 0x20 ++ command_run 4096 0xA0) (demo_t2 demo_off_gpu demo_new_device) = Some ([0; 0; 0; p], t') /\ 0 <= p /\ p + 4096 <= 65536.
Proof.
  pose proof (allocation_in_pool demo_none demo_off [] demo_junk demo_junk demo_cuda 1 [] (demo_t2 demo_off_gpu demo_new_device)) as H.
  change (t2_device (demo_t2 demo_off_gpu demo_new_device)) with demo_new_device in H. rewrite demo_new_size in H. apply H; [split; try reflexivity; apply demo_new_bar|reflexivity|reflexivity|lia].
Defined.

Lemma flush_never_ends_witness :
  demo_run [Store CXL_GPU_REG_PARAM0 (2 ^ 64 - 128) 8; Store CXL_GPU_REG_PARAM1 100 8; Store CXL_GPU_REG_CMD 0x81 4] (demo_t2 demo_off_gpu demo_new_device) = None.
Proof.
  apply (flush_never_ends demo_none demo_off [] demo_junk demo_junk demo_cuda 1 [] demo_copy_length (demo_t2 demo_off_gpu demo_new_device) (2 ^ 64 - 128) 100).
  - apply demo_realised, demo_new_bar.
  - reflexivity.
  - lia.
  - lia.
  - lia.
  - vm_compute. reflexivity.
Defined.
